(* ===== verification/_CoqProject ===== *)
-Q . S2P
Prelude.v
OrderedMap.v
RustText.v
Values.v
DataTypes.v
History.v
Registry.v
MetaTypes.v
TypeMapping.v
Metadata.v
Spool.v
SpoolSort.v
Plan.v
PlanApproval.v
PlanPages.v
SqlDialect.v
SqlScript.v
Batch.v
Executor.v
Execution.v
SqliteAdapter.v
Connections.v
ConnectionStore.v
SqliteExecution.v
Preparation.v
WireRows.v
NetworkChannel.v
MysqlWire.v
MysqlCatalog.v
MysqlChannel.v
PostgresWire.v
PostgresCatalog.v
PostgresChannel.v
SqlServerWire.v
SqlServerCatalog.v
SqlServerChannel.v
ClickHouseWire.v
ClickHouseChannel.v
RegistryFrame.v
Runtime.v
RuntimeLive.v
RuntimeSafe.v
SchemaCompare.v
SyncTypes.v
ColumnOrder.v
SyncFacts.v
MysqlSync.v
MysqlConverge.v
Ddl.v
SqliteSync.v
SqliteDefaults.v
SqliteConverge.v
PostgresDdl.v
PostgresSync.v
PostgresConverge.v
SqlServerDdl.v
SqlServerSync.v
SqlServerDefaults.v
ClickHouseDialect.v
ClickHouseSync.v
ClickHouseFacts.v
SchemaSync.v
SyncPlanners.v
SyncConverge.v
DatabaseSync.v
SyncExecution.v
PageCache.v
PageCoherence.v
TablePages.v
TableBrowsing.v
TableQuery.v
ResultBudget.v
JsonValue.v
DeferredFields.v
BatchUpdate.v
BatchPlan.v
SqlImport.v
MysqlQuery.v
RowEdits.v
