(* ===== verification/Prelude.v ===== *)
(** * A verification library for db-connect

    db-connect is a desktop client for MySQL, PostgreSQL, SQLite, SQL Server
    and ClickHouse: a Tauri application whose core is the Rust crate under
    src/src-tauri/src (paths below are relative to it).  This library models
    the part of that crate that decides what happens to the user's data: the
    data tasks (copying and synchronising tables between two databases), the
    saved connections and their secrets, the SQL the program generates and the
    guards it puts in front of a database.  This header is for a reader who has
    the repository; each file opens with a shorter comment of its own.

    ** The program and its model

    A _data task_ runs in this order.  The user's request is validated
    ([DataTypes], models/data_tasks.rs).  The two endpoints are opened and their
    schemas read ([Preparation]; for SQLite [SqliteAdapter]); the mapping is
    checked against both schemas and the tables are ordered by their foreign
    keys ([Metadata], with the type rules of [TypeMapping]).  A snapshot of each
    side is streamed into encrypted files ([Spool], rows in the encoding of
    [Values]), sorted ([SpoolSort]) and merged into a plan of operations, whose
    counts, risks and fingerprint are the preview ([Plan], [PlanApproval],
    [PlanPages]).  When the user confirms the fingerprint, the plan is executed:
    grouped into batches ([Executor], [Batch]) and written in one transaction,
    over two sessions ([Execution]) or two SQLite files ([SqliteExecution]); the
    outcome is classified truthfully whatever fails.  [Registry] is the table
    of running tasks, [History] the file of finished ones, and [Runtime] the
    commands and background workers that tie all this together; [RegistryFrame],
    [RuntimeLive] and [RuntimeSafe] carry the proofs about their interleavings.

    Beside the data tasks: [Connections] and [ConnectionStore] (commands/connection.rs,
    crypto/mod.rs) are the saved connections, their redaction, encryption,
    migration, import and export; [SqlDialect] and [SqlScript] (db/dialect.rs,
    db/sql_script.rs) are quoting, the read-only guard and the script splitter.

    The _schema synchronisation_ compares two schemas and proposes statements.
    [SchemaCompare] (db/schema_compare) is the comparison, [OrderedMap] its maps;
    [SyncTypes] holds the request, the native metadata and the fragments of a
    plan, [SchemaSync] (db/schema_sync/mod.rs) the preview made of the plans of
    the tables.  Each dialect plans one table: [MysqlSync], [SqliteSync],
    [PostgresSync], [SqlServerSync], [ClickHouseSync] (db/schema_sync/*.rs), over
    the statement builders [Ddl], [PostgresDdl], [SqlServerDdl] and
    [ClickHouseDialect].  The preview knows a dialect only as the class
    [TablePlanners]; [SyncPlanners] shows that all five implement it.  What a plan
    does to a table is stated against the documented effect of its statements:
    [ColumnOrder] and [SyncFacts] are shared by [MysqlConverge],
    [SqliteConverge] and [PostgresConverge], which implement the class
    [Converging] that [SyncConverge] uses for a whole preview.  [SqliteDefaults],
    [SqlServerDefaults] and [ClickHouseFacts] are about the texts the planners
    write.  [DatabaseSync] and [SyncExecution] (commands/database_sync.rs,
    database_compare.rs) are the commands that open the connections, recheck the
    preview and execute it.

    _Browsing and editing tables_: [PageCache] is the cache of table structures
    and page cursors and [TablePages] the plan of a page (db/table_pagination.rs),
    with [PageCoherence] and [TableBrowsing] for what concurrent loads and a
    browsing client see.  [TableQuery] (db/table_query.rs) and [MysqlQuery]
    (db/mysql_query.rs) are the cancellation of queries, [ResultBudget]
    (db/result_budget.rs) the limit on results, [DeferredFields]
    (db/mysql_deferred_fields.rs) the large fields of a page, [BatchUpdate] and
    [BatchPlan] (db/batch_update.rs) the edits of many rows in one transaction,
    [RowEdits] (commands/data.rs) the edits of single rows and the checks of the
    SQL editor.  [JsonValue] is the interface of serde_json's values they use.
    [SqlImport] (commands/sql_file.rs) is the import of SQL files.

    _The sessions of the network databases_ (db/data_tasks/adapters): [WireRows] and
    [NetworkChannel] hold what the channels share, the rows of a snapshot and the
    loop that forwards them.  For each database there is a file for what travels
    ([MysqlWire], [PostgresWire], [SqlServerWire]: versions, grants, statements, decoding,
    binding), one for the loading of a schema ([MysqlCatalog], [PostgresCatalog],
    [SqlServerCatalog]) and one for the session ([MysqlChannel], [PostgresChannel],
    [SqlServerChannel]).  The drivers are records of calls over the world; what the
    servers document about them is a class, and each session is proved to be the
    transactional session that [Execution] relies on.  ClickHouse is only ever a
    source: [ClickHouseWire] and [ClickHouseChannel] read its snapshot from the blocks
    of a response.

    ** How code becomes definitions

    A Rust [struct] is a [Record] (field names prefixed, because Rocq's are
    global), an [enum] an [Inductive] with the same constructors, a [Result] the
    type [result] below with [rbind] for the [?] operator, a [&str] the list of
    its code points ([RustText]), machine integers are [Z] with their wrapping,
    saturating and checked operations written out.  A [BTreeMap] is a list or
    [gmap] read in key order.  Async code is sequential where the source awaits,
    and a program of atomic actions where it does not ([Runtime]).  Functions
    keep the names of the source; where two files of the source use one name,
    the file of the library tells them apart.

    What is not Rust code of the repository is a parameter: the contracts are
    the classes [FileSystem] ([History]), [SpoolStore] ([SpoolSort]),
    [DataSession] and its transactional contract ([Execution]), rusqlite's
    [Connection] ([SqliteAdapter]), the keyring, AEAD and key derivation
    ([ConnectionStore]), serde_json, sha2 and uuid where used.  A theorem that
    assumes such a contract has a witness in which the parameter is a concrete
    function that satisfies it.  Where the library has both sides of an
    interface it proves the implementation: the sessions of SQLite, MySQL,
    PostgreSQL and SQL Server are shown to be the transactional session
    [Execution] relies on, the spool the store [SpoolSort] relies on.

    ** What the theorems show

    - Safety of a task: the plan executed is the one whose preview was
      confirmed ([RuntimeSafe]), equal fingerprints mean equal operations on equal
      snapshots ([PlanApproval]), a plan is built on checked rows ([Plan]), the
      reported outcome is true of the target on every path ([Execution],
      [SqliteExecution]), and a committed task delivered what its mode promises
      ([Preparation]).
    - Correctness of the parts: the merge and its counters ([Plan]), the external
      sort ([SpoolSort]), paging ([PlanPages]), batches ([Batch]), the mapping and
      type rules against their meaning ([Metadata], [TypeMapping]), round trips of
      the row encoding ([Values]), the spools ([Spool]), the history ([History]) and
      the stored connections ([ConnectionStore]).
    - State and concurrency: one writer, final outcomes and bounded previews in
      every reachable registry ([Registry]); every interleaving of the runtime
      ends with every task settled ([RuntimeLive]).
    - Sessions: for each of four databases, locks, snapshots, writes, commit and
      rollback keep the contract of the orchestration, also when cancelled
      ([SqliteAdapter], [MysqlChannel], [PostgresChannel], [SqlServerChannel]); what a
      snapshot query returns for stored values is decoded to exactly these
      values ([MysqlWire], [PostgresWire], [SqlServerWire]), however a response is
      cut into blocks ([ClickHouseChannel]); privileges are only taken
      as verified when the grants give them ([MysqlWire]).
    - Secrets: redaction leaves no password in a message, edits and imports keep
      what they should ([Connections]); nonces never repeat, and quotas are exact
      also after a failure ([Spool]).
    - Generated SQL: quoted text reads back as what it quotes, the read-only
      guard admits no writing statement, splitting inverts joining
      ([SqlDialect], [SqlScript]).
    - Synchronised schemas: the comparison finds exactly the differences
      ([SchemaCompare]); a preview removes nothing that was not asked for
      ([SchemaSync]); carrying out a plan makes the table, and a whole preview the
      schema, equal to the source ([MysqlConverge], [SqliteConverge],
      [PostgresConverge], [SyncConverge]); only the confirmed plan is executed, on
      the target ([SyncExecution]).
    - Tables: cached structures are current under every interleaving
      ([PageCoherence]); a page by cursor is the page by number, and the pages
      together are the table ([TableBrowsing]); a cancellation reaches its query
      and no other, and a KILL never hits another execution ([TableQuery],
      [MysqlQuery]); results stay within their budget exactly ([ResultBudget]);
      short fields are shown in full and long ones marked ([DeferredFields]); a
      batch of edits does what its edits say at once, within the limits of the
      database ([BatchPlan]); exported batches are read back ([SqlImport]).

    ** Bounds and fuel

    Recursion that is not structural takes fuel, always from a measure that the
    theorems show to be enough: the number of rows left for the merge
    ([Plan.sync_loop]), the batches ([Executor.next_batch]) and the cursors
    ([Spool.read_rows]); the number of tables for the ordering
    ([Metadata.order_tables], whose error "out of fuel" is shown not to occur on a
    validated mapping); the length of the text for the scanners ([SqlDialect],
    [SqlScript], [RustText.replace]); the digits of the number for printing.  The
    runtime's programs carry no fuel: they are shown to end by a measure.  The
    limits of the source (rows, bytes, previews, page sizes, parameter counts)
    are its constants, and arithmetic on them saturates or fails as there.

    ** Simplifications

    - [Execution] and [SqliteExecution] run the reader and the worker one after
      the other where the source has them in two threads joined by a channel.
    - [Runtime] takes persisting and initialising as one action each (both hold
      their lock throughout); what executors, connections and clocks answer is
      an oracle.  That identifiers are fresh is assumed where it matters, as the
      source draws them as random UUIDs.
    - Logging, window events and progress throttling are left out where nothing
      depends on them.

    ** Not modelled

    - The drivers of the databases and the servers behind them, parameters with
      documented laws; opening connections.
      What the query modules (db/postgres.rs, sqlserver.rs, clickhouse.rs,
      sqlite.rs and the _objects files) say to a driver has its meaning in the
      server; the synchronisation sees it through [Outside], the pages as rows.
    - The export scripts of commands/sql_file.rs, apart from their batches, and
      the converging effects of SQL Server's and ClickHouse's statements.
    - Tunnels and TLS (db/ssh_tunnel, db/connection.rs): sockets, processes and
      certificates.
    - Tauri commands that only fetch a session and forward, the shell
      (lib.rs, main.rs) apart from the exit dialog, the TypeScript interface,
      tests and benchmarks.
    The manifest lists them one by one. *)

From stdpp Require Export base tactics option list sorting gmap numbers strings.
From Stdlib Require Export ZArith Lia.


#[global] Set Default Goal Selector "!".
#[global] Set Warnings "-notation-overridden,-ambiguous-paths".

Declare Scope rust_scope.
Delimit Scope rust_scope with rust.
#[global] Open Scope Z_scope.
#[global] Open Scope rust_scope.

(** ** Results

    [Result<T, E>] and the [?] operator. *)

Inductive result (T E : Type) : Type :=
| Ok (x : T)
| Err (e : E).
Arguments Ok {T E} x.
Arguments Err {T E} e.

Definition rbind {T U E} (m : result T E) (f : T -> result U E) : result U E :=
  match m with Ok x => f x | Err e => Err e end.

Definition ok_or {T E} (o : option T) (e : E) : result T E :=
  match o with Some x => Ok x | None => Err e end.

Definition map_err {T E F} (f : E -> F) (m : result T E) : result T F :=
  match m with Ok x => Ok x | Err e => Err (f e) end.

Definition is_ok {T E} (m : result T E) : bool :=
  match m with Ok _ => true | Err _ => false end.

Notation "'let?' x := m 'in' k" := (rbind m (fun x => k))
  (at level 10, x pattern, m at level 100, k at level 200,
   format "'[v' 'let?'  x  :=  m  'in' '/' k ']'") : rust_scope.
Notation "'check?' m 'in' k" := (rbind m (fun _ => k))
  (at level 10, m at level 100, k at level 200,
   format "'[v' 'check?'  m  'in' '/' k ']'") : rust_scope.

#[global] Instance result_eq_dec {T E} `{EqDecision T, EqDecision E} :
  EqDecision (result T E).
Proof. solve_decision. Defined.

(** Injectivity as a lemma: unlike [injection], it leaves the payloads as
    they are. *)
Lemma Ok_inj {T E} (x y : T) : @Ok T E x = Ok y -> x = y.
Proof. by intros [= ->]. Qed.

Lemma rbind_ok_inv {T U E} (m : result T E) (f : T -> result U E) y :
  rbind m f = Ok y -> exists x, m = Ok x /\ f x = Ok y.
Proof. destruct m; simpl; [eauto|discriminate]. Qed.

Lemma ok_or_ok_inv {T E} (o : option T) (e : E) y : ok_or o e = Ok y -> o = Some y.
Proof. destruct o; simpl; congruence. Qed.

Lemma map_err_ok_inv {T E F} (f : E -> F) (m : result T E) y :
  map_err f m = Ok y -> m = Ok y.
Proof. destruct m; simpl; congruence. Qed.

(** Traversal of a list by a fallible function, in order, stopping at the
    first error ([for x in xs { ... ? }] building a vector). *)
Fixpoint traverse {A B E} (f : A -> result B E) (l : list A) : result (list B) E :=
  match l with
  | [] => Ok []
  | x :: xs => let? y := f x in let? ys := traverse f xs in Ok (y :: ys)
  end.

Lemma traverse_ok_inv {A B E} (f : A -> result B E) l ys :
  traverse f l = Ok ys -> Forall2 (fun x y => f x = Ok y) l ys.
Proof.
  revert ys; induction l as [|x l IH]; simpl; intros ys H.
  - injection H as <-. constructor.
  - apply rbind_ok_inv in H as (y & Hy & H).
    apply rbind_ok_inv in H as (zs & Hz & H). injection H as <-. auto.
Qed.

Lemma traverse_ok {A B E} (f : A -> result B E) (g : A -> B) l :
  Forall (fun x => f x = Ok (g x)) l -> traverse f l = Ok (map g l).
Proof. induction 1 as [|x l Hx _ IH]; simpl; [done|]. by rewrite Hx, IH. Qed.

(** ** Automation *)

(** Breaks every hypothesis [... = Ok _] built from the monad. *)
Ltac inv_ok :=
  repeat match goal with
  | H : rbind _ _ = Ok _ |- _ =>
      let x := fresh "x" in let Hx := fresh "Hx" in
      apply rbind_ok_inv in H as (x & Hx & H)
  | H : ok_or _ _ = Ok _ |- _ => apply ok_or_ok_inv in H
  | H : map_err _ _ = Ok _ |- _ => apply map_err_ok_inv in H
  | H : Ok _ = Ok _ |- _ => apply Ok_inj in H; try subst
  | H : (_, _) = (_, _) |- _ => apply pair_equal_spec in H as [? ?]; try subst
  | H : Err _ = Ok _ |- _ => discriminate H
  | H : Ok _ = Err _ |- _ => discriminate H
  end.

(** Splits the innermost boolean test of a hypothesis [if b then .. = Ok _]. *)
Ltac case_if_in H :=
  match type of H with
  | (if ?b then _ else _) = _ => let E := fresh "E" in destruct b eqn:E
  | context [if ?b then _ else _] => let E := fresh "E" in destruct b eqn:E
  end.

(** Turns boolean facts into propositions. *)
Ltac to_prop :=
  repeat match goal with
  | H : _ && _ = true |- _ => apply andb_true_iff in H as [? ?]
  | H : _ || _ = false |- _ => apply orb_false_iff in H as [? ?]
  | H : negb _ = true |- _ => apply negb_true_iff in H
  | H : negb _ = false |- _ => apply negb_false_iff in H
  | H : bool_decide _ = true |- _ => apply bool_decide_eq_true in H
  | H : bool_decide _ = false |- _ => apply bool_decide_eq_false in H
  | H : (_ <? _) = true |- _ => apply Z.ltb_lt in H
  | H : (_ <? _) = false |- _ => apply Z.ltb_ge in H
  | H : (_ <=? _) = true |- _ => apply Z.leb_le in H
  | H : (_ <=? _) = false |- _ => apply Z.leb_gt in H
  | H : (_ =? _) = true |- _ => apply Z.eqb_eq in H
  | H : (_ =? _) = false |- _ => apply Z.eqb_neq in H
  end.

Create HintDb rust.

(** ** Machine integers *)

Definition u64_max : Z := 18446744073709551615.
Definition usize_max : Z := u64_max.
Definition u32_max : Z := 4294967295.
Definition u64_range (n : Z) : Prop := 0 <= n <= u64_max.
Definition i64_range (n : Z) : Prop := -9223372036854775808 <= n <= 9223372036854775807.
Definition byte_range (n : Z) : Prop := 0 <= n <= 255.

#[export] Instance byte_range_dec n : Decision (byte_range n).
Proof. unfold byte_range. apply _. Defined.
#[export] Instance u64_range_dec n : Decision (u64_range n).
Proof. unfold u64_range. apply _. Defined.
#[export] Instance i64_range_dec n : Decision (i64_range n).
Proof. unfold i64_range. apply _. Defined.

(** Wrapping, saturating and checked arithmetic on 64-bit unsigned integers. *)
Definition wrap64 (n : Z) : Z := n mod 18446744073709551616.
Definition sat_add (a b : Z) : Z := Z.min (a + b) u64_max.
Definition sat_mul (a b : Z) : Z := Z.min (a * b) u64_max.
Definition sat_sub (a b : Z) : Z := Z.max (a - b) 0.
Definition checked_add (a b : Z) : option Z :=
  if a + b <=? u64_max then Some (a + b) else None.

Lemma wrap64_id n : u64_range n -> wrap64 n = n.
Proof. unfold u64_range, wrap64, u64_max. intros. apply Z.mod_small. lia. Qed.

Lemma wrap64_range n : u64_range (wrap64 n).
Proof.
  unfold u64_range, wrap64, u64_max.
  pose proof (Z.mod_pos_bound n 18446744073709551616). lia.
Qed.

Lemma sat_add_range a b : 0 <= a -> 0 <= b -> u64_range (sat_add a b).
Proof. unfold u64_range, sat_add, u64_max. lia. Qed.

#[export] Hint Resolve wrap64_id wrap64_range sat_add_range : rust.

(** [Vec::len] and [slice.len()] as a Z. *)
Definition zlen {A} (l : list A) : Z := Z.of_nat (length l).

Lemma zlen_nonneg {A} (l : list A) : 0 <= zlen l.
Proof. unfold zlen. lia. Qed.
Lemma zlen_app {A} (l k : list A) : zlen (l ++ k) = zlen l + zlen k.
Proof. unfold zlen. rewrite length_app. lia. Qed.
Lemma zlen_cons {A} (x : A) l : zlen (x :: l) = 1 + zlen l.
Proof. unfold zlen. simpl length. lia. Qed.
Lemma zlen_nil {A} : zlen (@nil A) = 0.
Proof. done. Qed.
Lemma zlen_map {A B} (f : A -> B) l : zlen (map f l) = zlen l.
Proof. unfold zlen. by rewrite length_map. Qed.

Create Rewrite HintDb zlen.
#[export] Hint Rewrite @zlen_app @zlen_cons @zlen_nil @zlen_map : zlen.
#[export] Hint Resolve zlen_nonneg : rust.

(** ** Lists *)

Definition list_eqb {A} `{EqDecision A} (l k : list A) : bool := bool_decide (l = k).

Definition is_empty {A} (l : list A) : bool := match l with [] => true | _ => false end.

(** [Option::is_some_and]. *)
Definition is_some_and {A} (f : A -> bool) (o : option A) : bool :=
  match o with Some x => f x | None => false end.
Definition is_some {A} (o : option A) : bool := is_some_and (fun _ => true) o.

(** [iter().find(p)] *)
Fixpoint find_first {A} (p : A -> bool) (l : list A) : option A :=
  match l with [] => None | x :: xs => if p x then Some x else find_first p xs end.

Lemma find_first_some {A} (p : A -> bool) l x :
  find_first p l = Some x -> x ∈ l /\ p x = true.
Proof.
  induction l as [|y l IH]; simpl; [done|]. destruct (p y) eqn:E.
  - intros [= <-]. split; [left|done].
  - intros H. destruct (IH H). split; [by right|done].
Qed.

Lemma find_first_none {A} (p : A -> bool) l :
  find_first p l = None -> forall x, x ∈ l -> p x = false.
Proof.
  induction l as [|y l IH]; simpl; [set_solver|]. destruct (p y) eqn:E; [done|].
  intros H x [->|Hx]%elem_of_cons; auto.
Qed.

Lemma find_first_exists {A} (p : A -> bool) l x :
  x ∈ l -> p x = true -> exists y, find_first p l = Some y.
Proof.
  intros Hin Hp. destruct (find_first p l) eqn:E; [eauto|].
  pose proof (find_first_none _ _ E _ Hin). congruence.
Qed.

(** [iter().position(p)] *)
Fixpoint position {A} (p : A -> bool) (l : list A) : option nat :=
  match l with
  | [] => None
  | x :: xs => if p x then Some 0%nat else option_map S (position p xs)
  end.

Lemma position_some {A} (p : A -> bool) l i :
  position p l = Some i -> exists x, l !! i = Some x /\ p x = true.
Proof.
  revert i; induction l as [|y l IH]; simpl; intros i; [done|].
  destruct (p y) eqn:E; [intros [= <-]; eauto|].
  destruct (position p l); simpl; [|done]. intros [= <-]. apply IH. done.
Qed.

Lemma existsb_true_iff {A} (f : A -> bool) l :
  existsb f l = true <-> exists x, x ∈ l /\ f x = true.
Proof.
  rewrite existsb_exists. split; intros (x & H & ?); exists x;
    (split; [by apply list_elem_of_In|done]).
Qed.

Lemma existsb_false_iff {A} (f : A -> bool) l :
  existsb f l = false <-> forall x, x ∈ l -> f x = false.
Proof.
  split.
  - intros H x Hx. destruct (f x) eqn:E; [|done].
    assert (existsb f l = true) by (apply existsb_true_iff; eauto). congruence.
  - intros H. destruct (existsb f l) eqn:E; [|done].
    apply existsb_true_iff in E as (x & Hx & E). rewrite H in E; done.
Qed.

Lemma forallb_true_iff {A} (f : A -> bool) l :
  forallb f l = true <-> forall x, x ∈ l -> f x = true.
Proof.
  rewrite forallb_forall. split; intros H x Hx; apply H; by apply list_elem_of_In.
Qed.

(** ** Total orders and stable sorting

    [Ord] as a comparison function with its laws; [sort_by] is Rust's
    [slice::sort_by]: stable, so that its result is determined by the order. *)

Class TotalCmp {A} (cmp : A -> A -> comparison) : Prop := {
  cmp_refl x : cmp x x = Eq;
  cmp_antisym x y : cmp y x = CompOpp (cmp x y);
  cmp_trans_le x y z : cmp x y <> Gt -> cmp y z <> Gt -> cmp x z <> Gt;
}.

(** Orders whose [Eq] is equality ([Ord] consistent with [Eq], as a BTreeMap
    key type has). *)
Class StrictCmp {A} (cmp : A -> A -> comparison) : Prop := {
  strict_total :: TotalCmp cmp;
  cmp_eq_iff x y : cmp x y = Eq -> x = y;
}.

Section SortBy.
Context {A : Type} (cmp : A -> A -> comparison).

Definition cmp_le (x y : A) : Prop := cmp x y <> Gt.

Fixpoint insert_by (x : A) (l : list A) : list A :=
    match l with
    | [] => [x]
    | y :: ys => match cmp x y with Gt => y :: insert_by x ys | _ => x :: y :: ys end
    end.

Fixpoint sort_by (l : list A) : list A :=
    match l with [] => [] | x :: xs => insert_by x (sort_by xs) end.

Lemma insert_by_perm x l : insert_by x l ≡ₚ x :: l.
Proof.
    induction l as [|y l IH]; simpl; [done|]. destruct (cmp x y); try done.
    rewrite IH. constructor.
Qed.

Lemma sort_by_perm l : sort_by l ≡ₚ l.
Proof. induction l as [|x l IH]; simpl; [done|]. by rewrite insert_by_perm, IH. Qed.

Lemma sort_by_elem x l : x ∈ sort_by l <-> x ∈ l.
Proof. by rewrite sort_by_perm. Qed.

Lemma sort_by_length l : length (sort_by l) = length l.
Proof. by rewrite sort_by_perm. Qed.

Context `{!TotalCmp cmp}.

Lemma cmp_gt_le x y : cmp x y = Gt -> cmp_le y x.
Proof. unfold cmp_le. rewrite (cmp_antisym (cmp:=cmp) x y). by intros ->. Qed.

#[local] Instance cmp_le_trans : Transitive cmp_le.
Proof. intros x y z. apply cmp_trans_le. Qed.

Lemma insert_by_sorted x l : StronglySorted cmp_le l -> StronglySorted cmp_le (insert_by x l).
Proof.
    induction 1 as [|y l Hl IH Hy]; simpl; [repeat constructor|].
    assert (Hcons : cmp x y <> Gt -> StronglySorted cmp_le (x :: y :: l)).
    { intros Hxy. constructor; [by constructor|]. constructor; [done|].
      eapply list.Forall_impl; [exact Hy|]. intros z Hz. by etransitivity. }
    destruct (cmp x y) eqn:E; try (apply Hcons; congruence).
    constructor; [done|]. rewrite insert_by_perm. constructor; [by apply cmp_gt_le|done].
Qed.

Lemma sort_by_sorted l : StronglySorted cmp_le (sort_by l).
Proof. induction l as [|x l IH]; simpl; [constructor|by apply insert_by_sorted]. Qed.

Lemma insert_by_head x l :
    StronglySorted cmp_le (x :: l) -> insert_by x l = x :: l.
Proof.
    destruct l as [|y l]; [done|]. intros H. inversion H as [|? ? _ Hx]; subst.
    inversion Hx as [|? ? Hxy]; subst. simpl. unfold cmp_le in Hxy.
    destruct (cmp x y); done.
Qed.

Lemma sort_by_id l : StronglySorted cmp_le l -> sort_by l = l.
Proof.
    induction 1 as [|x l Hl IH Hx]; simpl; [done|]. rewrite IH.
    apply insert_by_head. by constructor.
Qed.
End SortBy.

#[export] Hint Resolve sort_by_perm sort_by_sorted : rust.

(** Two sorted permutations of each other under a strict order are equal. *)
Lemma sorted_perm_unique {A} (cmp : A -> A -> comparison) `{!StrictCmp cmp} l k :
  StronglySorted (cmp_le cmp) l -> StronglySorted (cmp_le cmp) k -> l ≡ₚ k -> l = k.
Proof.
  intros Hl. revert k. induction Hl as [|x l Hl IH Hx]; intros k Hk P.
  { by apply Permutation_nil in P. }
  destruct Hk as [|y k Hk Hy]; [by apply Permutation_sym, Permutation_nil in P|].
  assert (x = y) as ->.
  { assert (x ∈ y :: k) as Hxk by (rewrite <- P; left).
    assert (y ∈ x :: l) as Hyl by (rewrite P; left).
    apply elem_of_cons in Hxk as [->|Hxk]; [done|].
    apply elem_of_cons in Hyl as [->|Hyl]; [done|].
    rewrite list.Forall_forall in Hx, Hy.
    specialize (Hx _ Hyl). specialize (Hy _ Hxk).
    apply (cmp_eq_iff (cmp := cmp)). unfold cmp_le in *.
    rewrite (cmp_antisym (cmp:=cmp) x y) in Hy. destruct (cmp x y); done. }
  f_equal. apply IH; [done|]. by apply Permutation_cons_inv in P.
Qed.

(** Comparison combinators: [cmp_on] is [sort_by_key], [cmp_then] is
    [Ordering::then_with], [cmp_rev] is [std::cmp::Reverse]. *)
Definition cmp_on {A B} (f : A -> B) (cmp : B -> B -> comparison) (x y : A) := cmp (f x) (f y).
Definition cmp_rev {A} (cmp : A -> A -> comparison) (x y : A) := cmp y x.
Definition cmp_then {A} (c d : A -> A -> comparison) (x y : A) : comparison :=
  match c x y with Eq => d x y | r => r end.
#[global] Typeclasses Opaque cmp_on cmp_rev cmp_then.

#[export] Instance cmp_on_total {A B} (f : A -> B) cmp `{!TotalCmp cmp} : TotalCmp (cmp_on f cmp).
Proof.
  unfold cmp_on. split.
  - intros. apply cmp_refl.
  - intros. apply cmp_antisym.
  - intros x y z. apply cmp_trans_le.
Qed.

#[export] Instance cmp_rev_total {A} (cmp : A -> A -> comparison) `{!TotalCmp cmp} : TotalCmp (cmp_rev cmp).
Proof.
  unfold cmp_rev. split.
  - intros. apply cmp_refl.
  - intros. apply cmp_antisym.
  - intros x y z H1 H2. by apply (cmp_trans_le _ y).
Qed.

Section Total.
Context {A} (cmp : A -> A -> comparison) `{!TotalCmp cmp}.

Lemma cmp_eq_trans_l x y z : cmp x y = Eq -> cmp x z = cmp y z.
Proof.
    intros E. pose proof (cmp_antisym (cmp:=cmp) x y) as E'. rewrite E in E'. simpl in E'.
    pose proof (cmp_trans_le x y z). pose proof (cmp_trans_le y x z).
    pose proof (cmp_trans_le z y x). pose proof (cmp_trans_le z x y).
    pose proof (cmp_antisym (cmp:=cmp) z x) as Q1. pose proof (cmp_antisym (cmp:=cmp) z y) as Q2.
    destruct (cmp x z) eqn:X, (cmp y z) eqn:Y; try done;
      destruct (cmp z x) eqn:X', (cmp z y) eqn:Y'; simpl in *; try discriminate;
      exfalso; intuition congruence.
Qed.

Lemma cmp_lt_trans x y z : cmp x y = Lt -> cmp y z = Lt -> cmp x z = Lt.
Proof.
    intros X Y. destruct (cmp x z) eqn:E; [|done|].
    - rewrite (cmp_eq_trans_l x z y E) in X.
      rewrite (cmp_antisym (cmp:=cmp) y z), Y in X. discriminate.
    - exfalso. apply (cmp_trans_le x y z); congruence.
Qed.

Lemma cmp_lt_gt x y : cmp x y = Lt <-> cmp y x = Gt.
Proof. rewrite (cmp_antisym (cmp:=cmp) x y). destruct (cmp x y); simpl; split; congruence. Qed.
End Total.

#[export] Instance cmp_then_total {A} (c d : A -> A -> comparison) `{!TotalCmp c, !TotalCmp d} :
  TotalCmp (cmp_then c d).
Proof.
  unfold cmp_then. split.
  - intros x. by rewrite !cmp_refl.
  - intros x y. rewrite (cmp_antisym (cmp:=c) x y). destruct (c x y); simpl; try done.
    apply cmp_antisym.
  - intros x y z. destruct (c x y) eqn:X.
    + rewrite (cmp_eq_trans_l c _ _ z X). destruct (c y z); try done. apply cmp_trans_le.
    + intros _. destruct (c y z) eqn:Y; intros H.
      * assert (c z x = Gt) as Q.
        { rewrite (cmp_eq_trans_l c z y); [by apply cmp_lt_gt|].
          by rewrite (cmp_antisym (cmp:=c) y z), Y. }
        apply cmp_lt_gt in Q; [|done]. by rewrite Q.
      * by rewrite (cmp_lt_trans c x y z).
      * done.
    + done.
Qed.

#[export] Instance Zcompare_strict : StrictCmp Z.compare.
Proof.
  split; [split|].
  - apply Z.compare_refl.
  - intros. apply Z.compare_antisym.
  - intros x y z. rewrite !Z.compare_le_iff. lia.
  - apply Z.compare_eq.
Qed.

(** Sorting by a key that identifies the elements only depends on the elements. *)
Lemma NoDup_map_inj {A B} (f : A -> B) l x y : NoDup (map f l) -> x ∈ l -> y ∈ l -> f x = f y -> x = y.
Proof.
  induction l as [|z l IH]; [by intros _ []%elem_of_nil|]. cbn [map]. intros [Nz N]%NoDup_cons Hx Hy E.
  apply elem_of_cons in Hx as [->|Hx], Hy as [->|Hy]; [done|..|by apply IH]; destruct Nz.
  - rewrite E. by apply list_elem_of_fmap_2.
  - rewrite <- E. by apply list_elem_of_fmap_2.
Qed.

Lemma sorted_on_unique {A B} (f : A -> B) (cmp : B -> B -> comparison) `{!StrictCmp cmp} l k :
  NoDup (map f l) -> StronglySorted (cmp_le (cmp_on f cmp)) l -> StronglySorted (cmp_le (cmp_on f cmp)) k ->
  l ≡ₚ k -> l = k.
Proof.
  intros N Hl. revert k N. induction Hl as [|x l Hl IH Hx]; intros k N Hk P.
  { by apply Permutation_nil in P. }
  destruct Hk as [|y k Hk Hy]; [by apply Permutation_sym, Permutation_nil in P|].
  assert (Iy : y ∈ x :: l) by (rewrite P; left). assert (Ix : x ∈ y :: k) by (rewrite <- P; left).
  assert (x = y) as ->.
  { pose proof Ix as Ix'. pose proof Iy as Iy'.
    apply elem_of_cons in Ix' as [->|Ix']; [done|]. apply elem_of_cons in Iy' as [->|Iy']; [done|].
    rewrite list.Forall_forall in Hx, Hy. specialize (Hx _ Iy'). specialize (Hy _ Ix').
    apply (NoDup_map_inj f (x :: l)); [done|left|done|].
    apply (cmp_eq_iff (cmp := cmp)). unfold cmp_le, cmp_on in *.
    rewrite (cmp_antisym (cmp := cmp) (f x) (f y)) in Hy. destruct (cmp (f x) (f y)); done. }
  f_equal. apply IH; [by apply NoDup_cons in N as [_ N]|done|]. by apply Permutation_cons_inv in P.
Qed.

Lemma sort_by_on_perm {A B} (f : A -> B) (cmp : B -> B -> comparison) `{!StrictCmp cmp} l k :
  NoDup (map f l) -> l ≡ₚ k -> sort_by (cmp_on f cmp) l = sort_by (cmp_on f cmp) k.
Proof.
  intros N P. apply (sorted_on_unique f cmp); [|apply sort_by_sorted, _|apply sort_by_sorted, _|].
  - assert (Q : map f (sort_by (cmp_on f cmp) l) ≡ₚ map f l) by apply Permutation_map, sort_by_perm. by rewrite Q.
  - by rewrite !sort_by_perm.
Qed.

(** Lexicographic order of sequences ([Ord] of [Vec<T>], [[T]] and, on the
    code points, [str]). *)
Fixpoint lex {A} (cmp : A -> A -> comparison) (l k : list A) : comparison :=
  match l, k with
  | [], [] => Eq
  | [], _ => Lt
  | _, [] => Gt
  | x :: xs, y :: ys => match cmp x y with Eq => lex cmp xs ys | r => r end
  end.

#[export] Instance lex_strict {A} (cmp : A -> A -> comparison) `{!StrictCmp cmp} : StrictCmp (lex cmp).
Proof.
  assert (E : forall l k, lex cmp l k = Eq -> l = k).
  { induction l as [|x l IH]; intros [|y k]; simpl; try done.
    destruct (cmp x y) eqn:X; try done.
    intros H. apply cmp_eq_iff in X as ->. by rewrite (IH k H). }
  split; [|done]. split.
  - induction x as [|x l IH]; simpl; [done|]. by rewrite cmp_refl.
  - induction x as [|x l IH]; intros [|y k]; simpl; try done.
    rewrite (cmp_antisym (cmp:=cmp) x y). destruct (cmp x y); simpl; done.
  - induction x as [|x l IH]; intros [|y k] [|z m]; simpl; try done.
    destruct (cmp x y) eqn:X; [| |done].
    + apply cmp_eq_iff in X as ->. destruct (cmp y z); try done. apply IH.
    + intros _. destruct (cmp y z) eqn:Y; intros H; [| |done].
      * apply cmp_eq_iff in Y as <-. by rewrite X.
      * by rewrite (cmp_lt_trans cmp x y z).
Qed.
