(* ===== verification/OrderedMap.v ===== *)
(** Ordered maps (std's [BTreeMap]): association lists in strictly increasing
    key order.  [entry] is [entry(k)] followed by a change of the value found
    there, [collect] builds a map from pairs, the last of a key winning. *)
From S2P Require Import Prelude.

Module BTree.

Section OrderedMap.
Context {K V : Type} (cmp : K -> K -> comparison).

Fixpoint get (k : K) (m : list (K * V)) : option V :=
  match m with
  | [] => None
  | (k', v) :: m => match cmp k k' with Eq => Some v | _ => get k m end
  end.

Fixpoint entry (k : K) (f : option V -> V) (m : list (K * V)) : list (K * V) :=
  match m with
  | [] => [(k, f None)]
  | (k', v) :: r =>
    match cmp k k' with
    | Lt => (k, f None) :: (k', v) :: r
    | Eq => (k', f (Some v)) :: r
    | Gt => (k', v) :: entry k f r
    end
  end.

Definition put (k : K) (v : V) : list (K * V) -> list (K * V) := entry k (fun _ => v).
Definition collect (l : list (K * V)) : list (K * V) := fold_left (fun m p => put p.1 p.2 m) l [].

Definition ordered (m : list (K * V)) : Prop := StronglySorted (fun p q => cmp p.1 q.1 = Lt) m.

Context `{!StrictCmp cmp}.

Lemma cmp_self k : cmp k k = Eq.
Proof. apply (cmp_refl (TotalCmp := strict_total)). Qed.
Lemma cmp_flip k k' : cmp k k' = CompOpp (cmp k' k).
Proof. apply (cmp_antisym (TotalCmp := strict_total)). Qed.

Lemma key_cases (k k' : K) : k = k' \/ k <> k'.
Proof.
  destruct (cmp k k') eqn:E; [left; by apply cmp_eq_iff in E|right; intros ->; by rewrite cmp_self in E..].
Qed.

Lemma get_entry k f m : ordered m -> get k (entry k f m) = Some (f (get k m)).
Proof.
  induction 1 as [|[k' v] m Hm IH Hk]; cbn; [by rewrite cmp_self|].
  destruct (cmp k k') eqn:E; cbn.
  - by rewrite E.
  - rewrite cmp_self. f_equal. f_equal. clear IH Hm.
    induction Hk as [|[k2 v2] m H Hk IH]; cbn; [done|]. cbn in H.
    by rewrite (cmp_lt_trans cmp k k' k2).
  - by rewrite E.
Qed.

Lemma get_entry_ne k k' f m : k <> k' -> get k (entry k' f m) = get k m.
Proof.
  intros N. assert (Q : forall v r, get k ((k', v) :: r) = get k r).
  { intros v r. cbn. destruct (cmp k k') eqn:E; try done. by apply cmp_eq_iff in E. }
  induction m as [|[k2 v] m IH]; cbn [entry]; [apply (Q _ [])|].
  destruct (cmp k' k2) eqn:E.
  - apply cmp_eq_iff in E as <-. by rewrite !Q.
  - apply Q.
  - cbn [get]. by rewrite IH.
Qed.

Lemma elem_of_entry k f m p : p ∈ entry k f m -> p ∈ m \/ p.1 = k.
Proof.
  induction m as [|[k' v] m IH]; cbn.
  - intros ->%list_elem_of_singleton. by right.
  - destruct (cmp k k') eqn:E; rewrite !elem_of_cons.
    + apply cmp_eq_iff in E as <-. intros [->|H]; [by right|auto].
    + intros [->|[->|H]]; [by right|auto..].
    + intros [->|H]; [auto|]. destruct (IH H); auto.
Qed.

Lemma entry_ordered k f m : ordered m -> ordered (entry k f m).
Proof.
  unfold ordered. induction 1 as [|[k' v] m Hm IH Hk]; cbn; [repeat constructor|].
  destruct (cmp k k') eqn:E.
  - by constructor.
  - constructor; [by constructor|]. constructor; [done|]. eapply list.Forall_impl; [exact Hk|].
    intros [k2 v2] H. by apply (cmp_lt_trans cmp k k' k2).
  - constructor; [done|]. apply list.Forall_forall. intros p [Hp|Hp]%elem_of_entry.
    + by rewrite list.Forall_forall in Hk; apply Hk.
    + cbn. rewrite Hp, cmp_flip, E. done.
Qed.

Lemma get_elem m k v : ordered m -> get k m = Some v <-> (k, v) ∈ m.
Proof.
  induction 1 as [|[k' v'] m Hm IH Hk]; cbn; [by rewrite elem_of_nil|].
  rewrite elem_of_cons. rewrite list.Forall_forall in Hk.
  assert (Q : (k, v) ∈ m -> cmp k k' <> Eq).
  { intros Hin E. apply cmp_eq_iff in E as ->. specialize (Hk _ Hin). cbn in Hk. by rewrite cmp_self in Hk. }
  destruct (cmp k k') eqn:E.
  - apply cmp_eq_iff in E as ->. split; [intros [= ->]; by left|].
    intros [[= ->]|H]; [done|]. by destruct (Q H).
  - rewrite IH. split; [by right|]. intros [[= -> ->]|H]; [by rewrite cmp_self in E|done].
  - rewrite IH. split; [by right|]. intros [[= -> ->]|H]; [by rewrite cmp_self in E|done].
Qed.

Lemma ordered_keys m : ordered m -> NoDup (map fst m).
Proof.
  induction 1 as [|[k v] m Hm IH Hk]; cbn; [constructor|]. constructor; [|done].
  intros (q & Hq & Hin)%list_elem_of_fmap. rewrite list.Forall_forall in Hk. specialize (Hk _ Hin). cbn in *.
  by rewrite Hq, cmp_self in Hk.
Qed.

Lemma get_none m k : get k m = None <-> k ∉ map fst m.
Proof.
  induction m as [|[k' v] m IH]; cbn; [split; [by intros _ H%elem_of_nil|done]|].
  rewrite not_elem_of_cons. destruct (cmp k k') eqn:E.
  - apply cmp_eq_iff in E as ->. split; [done|]. intros [H _]; by destruct H.
  - rewrite IH. split; [|by intros [_ ?]]. intros H. split; [|done]. intros ->. by rewrite cmp_self in E.
  - rewrite IH. split; [|by intros [_ ?]]. intros H. split; [|done]. intros ->. by rewrite cmp_self in E.
Qed.

Lemma ordered_nil : ordered [].
Proof. constructor. Qed.

Lemma fold_ordered {A : Type} (step : list (K * V) -> A -> list (K * V)) l m :
  (forall m a, ordered m -> ordered (step m a)) -> ordered m -> ordered (fold_left step l m).
Proof. intros H. revert m. induction l as [|a l IH]; cbn; intros m Hm; [done|]. apply IH, H, Hm. Qed.

Lemma collect_ordered l : ordered (collect l).
Proof. apply fold_ordered; [|apply ordered_nil]. intros m a. apply entry_ordered. Qed.

Lemma fold_put_get l m k : ordered m ->
  get k (fold_left (fun m p => put p.1 p.2 m) l m) =
    match get k (fold_left (fun m p => put p.1 p.2 m) l []) with Some v => Some v | None => get k m end.
Proof.
  revert m. induction l as [|[k' v] l IH] using rev_ind; cbn; intros m Hm; [done|].
  rewrite !fold_left_app. cbn.
  assert (O : forall m, ordered m -> ordered (fold_left (fun m p => put p.1 p.2 m) l m)).
  { intros m'. apply fold_ordered. intros ? ?. apply entry_ordered. }
  destruct (key_cases k k') as [->|N].
  - unfold put at 1 3. rewrite !get_entry; [done|apply O, ordered_nil|by apply O].
  - unfold put at 1 3. rewrite !get_entry_ne; [by apply IH|done..].
Qed.

Lemma collect_in l k v : get k (collect l) = Some v -> (k, v) ∈ l.
Proof.
  unfold collect. induction l as [|[k2 w] l IH] using rev_ind; cbn; [done|].
  rewrite fold_left_app. cbn. unfold put at 1. intros G. apply elem_of_app.
  destruct (key_cases k k2) as [->|Ne].
  - rewrite get_entry in G by apply collect_ordered. injection G as ->. right. by left.
  - rewrite get_entry_ne in G by done. left. by apply IH.
Qed.

(** With distinct keys a collected map holds exactly the pairs. *)
Lemma collect_elem l k v : NoDup (map fst l) -> get k (collect l) = Some v <-> (k, v) ∈ l.
Proof.
  intros N. split; [apply collect_in|]. revert N. unfold collect.
  induction l as [|[k' v'] l IH]; cbn; [by intros _ H%elem_of_nil|].
  intros [Nk N]%NoDup_cons. rewrite fold_put_get by (repeat constructor).
  intros [[= -> ->]|H]%elem_of_cons.
  - destruct (get k' _) as [v2|] eqn:G; [|cbn; by rewrite cmp_self].
    destruct Nk. apply collect_in in G. by apply (list_elem_of_fmap_2 fst) in G.
  - by rewrite (IH N H).
Qed.

(** Ordered maps are extensional. *)
Lemma ordered_ext m m' : ordered m -> ordered m' -> (forall k, get k m = get k m') -> m = m'.
Proof.
  intros Hm. revert m'. induction Hm as [|[k v] m Hm IH Hk]; intros m' Hm' E.
  - destruct m' as [|[k' v'] m']; [done|]. specialize (E k'). cbn in E. by rewrite cmp_self in E.
  - destruct Hm' as [|[k' v'] m' Hm' Hk']; [specialize (E k); cbn in E; by rewrite cmp_self in E|].
    rewrite list.Forall_forall in Hk, Hk'.
    assert (B : forall (a : K) (l : list (K * V)), (forall p, p ∈ l -> cmp a p.1 = Lt) -> get a l = None).
    { intros a l H. apply get_none. intros (p & -> & Hin)%list_elem_of_fmap. specialize (H _ Hin). by rewrite cmp_self in H. }
    assert (Ek : cmp k k' = Eq).
    { destruct (cmp k k') eqn:C; [done|exfalso..].
      - specialize (E k). cbn in E. rewrite cmp_self, C in E.
        rewrite B in E; [done|]. intros p Hp. specialize (Hk' _ Hp). cbn in Hk'. by apply (cmp_lt_trans cmp k k' p.1).
      - specialize (E k'). cbn in E. assert (C' : cmp k' k = Lt) by (rewrite cmp_flip, C; done).
        rewrite cmp_self, C' in E.
        rewrite B in E; [done|]. intros p Hp. specialize (Hk _ Hp). cbn in Hk. by apply (cmp_lt_trans cmp k' k p.1). }
    pose proof Ek as Ek'. apply cmp_eq_iff in Ek' as <-.
    assert (v = v') as <-. { specialize (E k). cbn in E. rewrite cmp_self in E. by injection E. }
    f_equal. apply IH; [done|]. intros a. specialize (E a). cbn in E.
    destruct (cmp a k) eqn:C; [|done..]. apply cmp_eq_iff in C as ->. rewrite !B; [done|..]; [exact Hk'|exact Hk].
Qed.
End OrderedMap.

End BTree.
