(* ===== verification/RustText.v ===== *)
(** Rust text: [char], [str], UTF-8 and the standard-library operations on
    them that the program uses.

    A [char] is its code point, a [str] the list of its chars; the bytes of a
    [str] (what [len], [as_bytes] and byte slicing see) are [utf8 s].  The
    type invariant of [str] (every char is a Unicode scalar value) is
    [wf_str].  Integer parsing and printing follow [core::num] and [fmt]. *)
From S2P Require Import Prelude.

Abbreviation char := Z (only parsing).
Abbreviation byte := Z (only parsing).
Abbreviation str := (list Z) (only parsing).
Abbreviation bytes := (list Z) (only parsing).

Module RustText.

(** ** UTF-8 *)

Definition is_scalar (c : char) : bool :=
  ((0 <=? c) && (c <=? 0xD7FF)) || ((0xE000 <=? c) && (c <=? 0x10FFFF)).

Definition wf_str (s : str) : Prop := Forall (fun c => is_scalar c = true) s.

Definition utf8_char (c : char) : bytes :=
  if c <? 0x80 then [c]
  else if c <? 0x800 then [192 + c / 64; 128 + c mod 64]
  else if c <? 0x10000 then [224 + c / 4096; 128 + c / 64 mod 64; 128 + c mod 64]
  else [240 + c / 262144; 128 + c / 4096 mod 64; 128 + c / 64 mod 64; 128 + c mod 64].

(** [str::as_bytes] and [str::len]. *)
Definition utf8 (s : str) : bytes := concat (map utf8_char s).
Definition str_len (s : str) : Z := zlen (utf8 s).

Definition is_cont (b : byte) : bool := (128 <=? b) && (b <=? 191).

(** [String::from_utf8]: rejects overlong forms, surrogates and code points
    above U+10FFFF. *)
Fixpoint from_utf8 (l : bytes) : option str :=
  match l with
  | [] => Some []
  | a :: l1 =>
    if (0 <=? a) && (a <? 128) then cons a <$> from_utf8 l1
    else match l1 with
    | [] => None
    | b :: l2 =>
      if (194 <=? a) && (a <=? 223) && is_cont b
      then cons ((a - 192) * 64 + (b - 128)) <$> from_utf8 l2
      else match l2 with
      | [] => None
      | c :: l3 =>
        let v3 := (a - 224) * 4096 + (b - 128) * 64 + (c - 128) in
        if (224 <=? a) && (a <=? 239) && is_cont b && is_cont c
           && (0x800 <=? v3) && is_scalar v3
        then cons v3 <$> from_utf8 l3
        else match l3 with
        | [] => None
        | d :: l4 =>
          let v4 := (a - 240) * 262144 + (b - 128) * 4096 + (c - 128) * 64 + (d - 128) in
          if (240 <=? a) && (a <=? 244) && is_cont b && is_cont c && is_cont d
             && (0x10000 <=? v4) && is_scalar v4
          then cons v4 <$> from_utf8 l4
          else None
        end
      end
    end
  end.

(** A string literal of the source. *)
Definition u (s : string) : str :=
  default [] (from_utf8 (map (fun a => Z.of_N (Ascii.N_of_ascii a)) (String.list_ascii_of_string s))).
Arguments u _%_string.

(** ** Character classes *)

Definition is_ascii (c : char) : bool := (0 <=? c) && (c <? 128).
Definition is_ascii_digit (c : char) : bool := (48 <=? c) && (c <=? 57).
Definition is_ascii_upper (c : char) : bool := (65 <=? c) && (c <=? 90).
Definition is_ascii_lower (c : char) : bool := (97 <=? c) && (c <=? 122).
Definition is_ascii_alphabetic (c : char) : bool := is_ascii_upper c || is_ascii_lower c.
Definition is_ascii_alphanumeric (c : char) : bool := is_ascii_alphabetic c || is_ascii_digit c.
(** [u8::is_ascii_whitespace]: no vertical tab. *)
Definition is_ascii_whitespace (c : byte) : bool :=
  (c =? 32) || (c =? 9) || (c =? 10) || (c =? 12) || (c =? 13).
(** [char::is_whitespace]: the Unicode White_Space property. *)
Definition is_whitespace (c : char) : bool :=
  ((9 <=? c) && (c <=? 13)) || (c =? 32) || (c =? 0x85) || (c =? 0xA0) || (c =? 0x1680)
  || ((0x2000 <=? c) && (c <=? 0x200A)) || (c =? 0x2028) || (c =? 0x2029)
  || (c =? 0x202F) || (c =? 0x205F) || (c =? 0x3000).

Definition ascii_upper (c : char) : char := if is_ascii_lower c then c - 32 else c.
Definition to_ascii_uppercase (s : str) : str := map ascii_upper s.
(** [str::to_uppercase]: [upper_char] is Unicode's full mapping of the chars
    outside ASCII. *)
Definition to_uppercase (upper_char : char -> str) (s : str) : str :=
  concat (map (fun c => if is_ascii c then [ascii_upper c] else upper_char c) s).
Definition eq_ignore_ascii_case (a b : str) : bool :=
  bool_decide (to_ascii_uppercase a = to_ascii_uppercase b).

(** ** Prefixes, trimming, searching *)

Definition str_eqb (a b : str) : bool := bool_decide (a = b).
(** [Ord for str] compares the UTF-8 bytes, which UTF-8 is designed to order
    like the code points: the model compares those. *)
Definition str_cmp : str -> str -> comparison := lex Z.compare.
#[global] Typeclasses Opaque str_cmp.

Fixpoint strip_prefix (p s : str) : option str :=
  match p, s with
  | [], _ => Some s
  | x :: p', y :: s' => if x =? y then strip_prefix p' s' else None
  | _, [] => None
  end.
Definition starts_with (p s : str) : bool := is_some (strip_prefix p s).
Definition strip_suffix (p s : str) : option str := reverse <$> strip_prefix (reverse p) (reverse s).
Definition ends_with (p s : str) : bool := is_some (strip_suffix p s).

Fixpoint drop_while {A} (f : A -> bool) (l : list A) : list A :=
  match l with [] => [] | x :: xs => if f x then drop_while f xs else l end.
Fixpoint take_while {A} (f : A -> bool) (l : list A) : list A :=
  match l with [] => [] | x :: xs => if f x then x :: take_while f xs else [] end.

(** [trim_start_matches] and [trim_end_matches] with a char or predicate. *)
Definition trim_start_matches (f : char -> bool) (s : str) : str := drop_while f s.
Definition trim_end_matches (f : char -> bool) (s : str) : str := reverse (drop_while f (reverse s)).
Definition trim_start : str -> str := trim_start_matches is_whitespace.
Definition trim_end : str -> str := trim_end_matches is_whitespace.
Definition trim (s : str) : str := trim_end (trim_start s).

(** [matches!(s, "A" | "B" | ..)] on string slices. *)
Definition one_of (s : str) (l : list String.string) : bool := existsb (fun x => str_eqb s (u x)) l.
Arguments one_of s l%_string.

Definition contains_char (c : char) (s : str) : bool := existsb (Z.eqb c) s.
Fixpoint contains (p s : str) : bool :=
  starts_with p s || match s with [] => false | _ :: s' => contains p s' end.

(** [str::replace] with a char pattern and with a (non-empty) string pattern:
    leftmost non-overlapping matches. *)
Definition replace_char (c : char) (to s : str) : str :=
  concat (map (fun x => if x =? c then to else [x]) s).
Fixpoint replace_fuel (n : nat) (p to s : str) : str :=
  match n, s with
  | _, [] => []
  | O, _ => s
  | S n, x :: s' =>
    match strip_prefix p s with
    | Some rest => to ++ replace_fuel n p to rest
    | None => x :: replace_fuel n p to s'
    end
  end.
Definition replace (p to s : str) : str := replace_fuel (length s) p to s.

(** [split(c)], [split_once(c)], [split_whitespace()], [join(sep)]. *)
Fixpoint split_char (c : char) (s : str) : list str :=
  match s with
  | [] => [[]]
  | x :: s' =>
    if x =? c then [] :: split_char c s'
    else match split_char c s' with
         | w :: ws => (x :: w) :: ws
         | [] => [[x]]
         end
  end.
Fixpoint split_once (c : char) (s : str) : option (str * str) :=
  match s with
  | [] => None
  | x :: s' => if x =? c then Some ([], s')
               else match split_once c s' with
                    | Some (a, b) => Some (x :: a, b)
                    | None => None
                    end
  end.
Fixpoint split_ws_aux (s cur : str) : list str :=
  match s with
  | [] => if is_empty cur then [] else [cur]
  | x :: s' =>
    if is_whitespace x
    then (if is_empty cur then [] else [cur]) ++ split_ws_aux s' []
    else split_ws_aux s' (cur ++ [x])
  end.
Definition split_whitespace (s : str) : list str := split_ws_aux s [].
Fixpoint join (sep : str) (l : list str) : str :=
  match l with
  | [] => []
  | [x] => x
  | x :: xs => x ++ sep ++ join sep xs
  end.

(** ** Integers *)

(** Decimal digits of [n >= 0], most significant first. *)
Fixpoint digits_fuel (fuel : nat) (n : Z) (acc : str) : str :=
  match fuel with
  | O => acc
  | S f => let acc' := (48 + n mod 10) :: acc in
           if n <? 10 then acc' else digits_fuel f (n / 10) acc'
  end.
Definition show_nonneg (n : Z) : str := digits_fuel (S (Z.to_nat (Z.log2 n))) n [].
(** [to_string] of an integer. *)
Definition show_Z (n : Z) : str := if n <? 0 then 45 :: show_nonneg (- n) else show_nonneg n.

(** [{:02x}] and [{:x}]. *)
Definition hex_digit (d : Z) : char := if d <? 10 then 48 + d else 87 + d.
Definition hex_byte (b : byte) : str := [hex_digit (b / 16); hex_digit (b mod 16)].
Definition show_hex (n : Z) : str :=
  match drop_while (Z.eqb 48) (map (fun i => hex_digit (Z.land (Z.shiftr n (4 * i)) 15)) [5; 4; 3; 2; 1; 0]) with
  | [] => [48]
  | ds => ds
  end.

Definition digits_value (s : str) : Z := fold_left (fun v c => v * 10 + (c - 48)) s 0.

(** [str::parse] for an unsigned integer type with maximum [max], and for a
    signed one: an optional sign ([-] only when signed), then digits, no
    overflow. *)
Definition parse_uint (max : Z) (s : str) : option Z :=
  let digits := match s with 43 :: d => d | _ => s end in
  if negb (is_empty digits) && forallb is_ascii_digit digits && (digits_value digits <=? max)
  then Some (digits_value digits) else None.
Definition parse_int (min max : Z) (s : str) : option Z :=
  match s with
  | 45 :: d =>
    if negb (is_empty d) && forallb is_ascii_digit d && (min <=? - digits_value d)
    then Some (- digits_value d) else None
  | _ => parse_uint max s
  end.

Definition parse_u64 : str -> option Z := parse_uint u64_max.
Definition parse_u16 : str -> option Z := parse_uint 65535.
Definition parse_u8 : str -> option Z := parse_uint 255.
Definition parse_i32 : str -> option Z := parse_int (-2147483648) 2147483647.
Definition parse_i64 : str -> option Z := parse_int (-9223372036854775808) 9223372036854775807.

(** ** Laws *)

Lemma is_scalar_range c : is_scalar c = true -> 0 <= c <= 0x10FFFF.
Proof. unfold is_scalar. rewrite orb_true_iff, !andb_true_iff, !Z.leb_le. lia. Qed.

Lemma is_ascii_scalar c : is_ascii c = true -> is_scalar c = true.
Proof. unfold is_ascii, is_scalar. rewrite andb_true_iff, orb_true_iff, !andb_true_iff, !Z.leb_le, Z.ltb_lt. lia. Qed.

(** Base-64 digit facts used by the encoder. *)
Lemma div_mod_64 c : 64 * (c / 64) + c mod 64 = c /\ 0 <= c mod 64 < 64.
Proof. pose proof (Z.div_mod c 64). pose proof (Z.mod_pos_bound c 64). lia. Qed.
Lemma div_4096 c : c / 4096 = c / 64 / 64.
Proof. rewrite Z.div_div; [done|lia..]. Qed.
Lemma div_262144 c : c / 262144 = c / 64 / 64 / 64.
Proof. rewrite !Z.div_div; [done|lia..]. Qed.

Ltac utf8_arith c :=
  rewrite ?div_262144, ?div_4096 in *;
  pose proof (div_mod_64 c); pose proof (div_mod_64 (c / 64)); pose proof (div_mod_64 (c / 64 / 64)).

Ltac solve_test :=
  repeat match goal with
  | |- _ && _ = true => apply andb_true_intro; split
  | |- is_cont _ = true => unfold is_cont
  | |- (_ <=? _) = true => apply Z.leb_le
  | |- (_ <? _) = true => apply Z.ltb_lt
  | |- _ && _ = false => apply andb_false_iff
  end; try lia.

Lemma from_utf8_char c l :
  is_scalar c = true -> from_utf8 (utf8_char c ++ l) = cons c <$> from_utf8 l.
Proof.
  intros Hc. pose proof (is_scalar_range c Hc). unfold utf8_char.
  destruct (c <? 0x80) eqn:E1; [|destruct (c <? 0x800) eqn:E2; [|destruct (c <? 0x10000) eqn:E3]];
    to_prop; cbn [app from_utf8]; utf8_arith c.
  - replace ((0 <=? c) && (c <? 128)) with true by (symmetry; solve_test). done.
  - replace ((0 <=? _) && (_ <? 128)) with false by (symmetry; solve_test).
    replace ((194 <=? _) && _ && _) with true by (symmetry; solve_test).
    do 2 f_equal. lia.
  - replace ((0 <=? _) && (_ <? 128)) with false by (symmetry; solve_test).
    replace ((194 <=? _) && _ && _) with false
      by (symmetry; apply andb_false_iff; left; apply andb_false_iff; right; lia).
    match goal with |- context [0x800 <=? ?v] => replace v with c by lia end.
    rewrite Hc. replace (_ && _ && _ && _ && (0x800 <=? c) && true) with true
      by (symmetry; solve_test; done). done.
  - replace ((0 <=? _) && (_ <? 128)) with false by (symmetry; solve_test).
    replace ((194 <=? _) && _ && _) with false
      by (symmetry; apply andb_false_iff; left; apply andb_false_iff; right; lia).
    replace ((224 <=? _) && _ && _ && _ && _ && _) with false
      by (symmetry; do 4 (apply andb_false_iff; left); apply andb_false_iff; right; lia).
    match goal with |- context [0x10000 <=? ?v] => replace v with c by lia end.
    rewrite Hc. replace (_ && _ && _ && _ && _ && (0x10000 <=? c) && true) with true
      by (symmetry; solve_test; done). done.
Qed.

Lemma utf8_cons c s : utf8 (c :: s) = utf8_char c ++ utf8 s.
Proof. done. Qed.
Lemma utf8_app s t : utf8 (s ++ t) = utf8 s ++ utf8 t.
Proof. unfold utf8. by rewrite map_app, concat_app. Qed.

(** Decoding inverts encoding. *)
Lemma from_utf8_utf8 s : wf_str s -> from_utf8 (utf8 s) = Some s.
Proof.
  induction 1 as [|c s Hc _ IH]; [done|].
  rewrite utf8_cons, from_utf8_char, IH; done.
Qed.

Lemma utf8_inj s t : wf_str s -> wf_str t -> utf8 s = utf8 t -> s = t.
Proof. intros Hs Ht E. apply from_utf8_utf8 in Hs, Ht. congruence. Qed.

Lemma utf8_char_length c : 1 <= zlen (utf8_char c) <= 4.
Proof. unfold utf8_char, zlen. repeat case_match; simpl; lia. Qed.

Lemma str_len_app s t : str_len (s ++ t) = str_len s + str_len t.
Proof. unfold str_len. by rewrite utf8_app, zlen_app. Qed.
Lemma str_len_cons c s : str_len (c :: s) = zlen (utf8_char c) + str_len s.
Proof. unfold str_len. by rewrite utf8_cons, zlen_app. Qed.
Lemma str_len_nonneg s : 0 <= str_len s.
Proof. apply zlen_nonneg. Qed.

Lemma str_len_chars s : zlen s <= str_len s.
Proof.
  induction s as [|c s IH]; [done|].
  rewrite str_len_cons, zlen_cons. pose proof (utf8_char_length c). lia.
Qed.

#[export] Instance str_cmp_strict : StrictCmp str_cmp.
Proof. unfold str_cmp. apply _. Qed.

Lemma str_eqb_eq a b : str_eqb a b = true <-> a = b.
Proof. apply bool_decide_eq_true. Qed.
Lemma str_eqb_refl a : str_eqb a a = true.
Proof. by apply str_eqb_eq. Qed.
Lemma str_eqb_neq a b : str_eqb a b = false <-> a <> b.
Proof. apply bool_decide_eq_false. Qed.

(** Printing then parsing an integer gives it back. *)
Lemma digits_fuel_acc f n acc : digits_fuel f n acc = digits_fuel f n [] ++ acc.
Proof.
  revert n acc. induction f as [|f IH]; intros n acc; simpl; [done|].
  destruct (n <? 10); [done|]. rewrite IH, (IH _ [_]). by rewrite <- app_assoc.
Qed.

Lemma digits_value_app a c : digits_value (a ++ [c]) = digits_value a * 10 + (c - 48).
Proof. unfold digits_value. by rewrite fold_left_app. Qed.

Lemma digits_fuel_spec f n :
  0 <= n < 2 ^ Z.of_nat f ->
  digits_value (digits_fuel f n []) = n /\
  forallb is_ascii_digit (digits_fuel f n []) = true /\
  (f <> 0%nat -> digits_fuel f n [] <> []).
Proof.
  revert n. induction f as [|f IH]; intros n Hn.
  - simpl in *. unfold digits_value. simpl. split; [lia|]. split; [done|lia].
  - pose proof (Z.div_mod n 10). pose proof (Z.mod_pos_bound n 10).
    assert (D : is_ascii_digit (48 + n mod 10) = true).
    { unfold is_ascii_digit. apply andb_true_iff; split; apply Z.leb_le; lia. }
    simpl digits_fuel. destruct (n <? 10) eqn:E; to_prop.
    + unfold digits_value. simpl. rewrite D. split; [|done].
      rewrite Z.mod_small by lia. lia.
    + rewrite digits_fuel_acc.
      assert (B : 0 <= n / 10 < 2 ^ Z.of_nat f).
      { split; [apply Z.div_pos; lia|].
        rewrite Nat2Z.inj_succ, Z.pow_succ_r in Hn by lia. lia. }
      destruct (IH _ B) as (V & A & _).
      rewrite digits_value_app, forallb_app, V, A. simpl. rewrite D.
      split; [lia|]. split; [done|]. intros _ Q. by apply app_eq_nil in Q as [_ Q].
Qed.

Lemma show_nonneg_spec n :
  0 <= n ->
  digits_value (show_nonneg n) = n /\ forallb is_ascii_digit (show_nonneg n) = true /\
  show_nonneg n <> [].
Proof.
  intros Hn. unfold show_nonneg.
  assert (B : 0 <= n < 2 ^ Z.of_nat (S (Z.to_nat (Z.log2 n)))).
  { split; [done|]. rewrite Nat2Z.inj_succ, Z2Nat.id by apply Z.log2_nonneg.
    destruct (decide (n = 0)) as [->|]; [done|]. apply Z.log2_spec. lia. }
  destruct (digits_fuel_spec _ _ B) as (V & A & N). eauto.
Qed.

Lemma is_ascii_digit_range c : is_ascii_digit c = true <-> 48 <= c <= 57.
Proof. unfold is_ascii_digit. rewrite andb_true_iff, !Z.leb_le. done. Qed.

Lemma parse_uint_digits max d :
  d <> [] -> forallb is_ascii_digit d = true ->
  parse_uint max d = if digits_value d <=? max then Some (digits_value d) else None.
Proof.
  intros Hd A. destruct d as [|c d]; [done|]. unfold parse_uint.
  assert (48 <= c <= 57) as Hc.
  { simpl in A. apply andb_true_iff in A as [A _]. by apply is_ascii_digit_range. }
  destruct (decide (c = 43)); [lia|].
  replace (match c with 43 => d | _ => c :: d end) with (c :: d).
  - rewrite A. done.
  - destruct c as [|q|q]; try done. repeat (destruct q as [q|q|]; try done; try lia).
Qed.

Lemma parse_u64_show n : u64_range n -> parse_u64 (show_Z n) = Some n.
Proof.
  unfold u64_range. intros [H0 H1]. unfold show_Z.
  replace (n <? 0) with false by (symmetry; apply Z.ltb_ge; lia).
  destruct (show_nonneg_spec n H0) as (V & A & N).
  unfold parse_u64. rewrite parse_uint_digits, V by done.
  by rewrite (proj2 (Z.leb_le _ _) H1).
Qed.
#[export] Hint Resolve parse_u64_show : rust.

Lemma parse_uint_range max s v : parse_uint max s = Some v -> v <= max.
Proof. unfold parse_uint. case_match; [|done]. intros [= <-]. to_prop. lia. Qed.

Lemma digits_value_nonneg s : forallb is_ascii_digit s = true -> 0 <= digits_value s.
Proof.
  induction s as [|c s IH] using rev_ind; [done|]. rewrite forallb_app. intros H.
  apply andb_true_iff in H as [A C]. simpl in C. rewrite andb_true_r in C.
  apply is_ascii_digit_range in C. rewrite digits_value_app. specialize (IH A). lia.
Qed.

Lemma parse_u64_range s v : parse_u64 s = Some v -> u64_range v.
Proof.
  unfold parse_u64. intros H. pose proof (parse_uint_range _ _ _ H).
  unfold parse_uint in H. case_match eqn:E; [|done]. injection H as <-. to_prop.
  split; [|done]. by apply digits_value_nonneg.
Qed.

(** Decoding accepts only encodings. *)
Lemma is_cont_range b : is_cont b = true -> 128 <= b <= 191.
Proof. unfold is_cont. intros. to_prop. lia. Qed.

Lemma utf8_char_2 a b :
  194 <= a <= 223 -> 128 <= b <= 191 -> utf8_char ((a - 192) * 64 + (b - 128)) = [a; b].
Proof.
  intros Ha Hb. set (c := (a - 192) * 64 + (b - 128)). unfold utf8_char. utf8_arith c.
  rewrite (proj2 (Z.ltb_ge c 0x80)), (proj2 (Z.ltb_lt c 0x800)) by lia.
  repeat f_equal; lia.
Qed.

Lemma utf8_char_3 a b c :
  128 <= b <= 191 -> 128 <= c <= 191 -> a <= 239 ->
  let v := (a - 224) * 4096 + (b - 128) * 64 + (c - 128) in
  0x800 <= v -> utf8_char v = [a; b; c].
Proof.
  intros Hb Hc Ha v Hv. unfold utf8_char. utf8_arith v.
  rewrite (proj2 (Z.ltb_ge v 0x80)), (proj2 (Z.ltb_ge v 0x800)), (proj2 (Z.ltb_lt v 0x10000)) by lia.
  repeat f_equal; lia.
Qed.

Lemma utf8_char_4 a b c d :
  128 <= b <= 191 -> 128 <= c <= 191 -> 128 <= d <= 191 ->
  let v := (a - 240) * 262144 + (b - 128) * 4096 + (c - 128) * 64 + (d - 128) in
  0x10000 <= v -> utf8_char v = [a; b; c; d].
Proof.
  intros Hb Hc Hd v Hv. unfold utf8_char. utf8_arith v.
  rewrite (proj2 (Z.ltb_ge v 0x80)), (proj2 (Z.ltb_ge v 0x800)), (proj2 (Z.ltb_ge v 0x10000)) by lia.
  repeat f_equal; lia.
Qed.

Lemma from_utf8_inv l s : from_utf8 l = Some s -> utf8 s = l /\ wf_str s.
Proof.
  remember (length l) as n eqn:Hn. revert l s Hn.
  induction (lt_wf n) as [n _ IH]. intros l s -> H.
  assert (K : forall v (rest : bytes), (length rest < length l)%nat ->
            cons v <$> from_utf8 rest = Some s -> is_scalar v = true ->
            utf8_char v ++ rest = l -> utf8 s = l /\ wf_str s).
  { intros v rest Hl E V Q. destruct (from_utf8 rest) as [t|] eqn:F; [|done].
    injection E as <-. destruct (IH _ Hl rest t eq_refl F) as [<- W].
    rewrite utf8_cons. split; [done|by constructor]. }
  destruct l as [|a l1]; [injection H as <-; split; [done|constructor]|]. cbn [from_utf8] in H.
  destruct ((0 <=? a) && (a <? 128)) eqn:E1.
  { apply (K a l1); simpl; [lia|done|..].
    - apply is_ascii_scalar. done.
    - unfold utf8_char. to_prop. by rewrite (proj2 (Z.ltb_lt a 0x80)). }
  destruct l1 as [|b l2]; [done|]. destruct ((194 <=? a) && _ && _) eqn:E2.
  { to_prop. pose proof (is_cont_range b ltac:(done)).
    apply (K _ l2 ltac:(simpl; lia) H).
    - unfold is_scalar. apply orb_true_iff. left. apply andb_true_iff. rewrite !Z.leb_le. lia.
    - by rewrite utf8_char_2. }
  destruct l2 as [|c l3]; [done|]. destruct ((224 <=? a) && _ && _ && _ && _ && _) eqn:E3.
  { to_prop. pose proof (is_cont_range b ltac:(done)). pose proof (is_cont_range c ltac:(done)).
    apply (K _ l3 ltac:(simpl; lia) H); [done|]. by rewrite utf8_char_3. }
  destruct l3 as [|d l4]; [done|]. case_if_in H; [|done].
  to_prop. pose proof (is_cont_range b ltac:(done)). pose proof (is_cont_range c ltac:(done)).
  pose proof (is_cont_range d ltac:(done)).
  apply (K _ l4 ltac:(simpl; lia) H); [done|]. by rewrite utf8_char_4.
Qed.

(** ASCII tests on the bytes and on the chars agree. *)
Lemma forallb_utf8_digit s : forallb is_ascii_digit (utf8 s) = forallb is_ascii_digit s.
Proof.
  induction s as [|c s IH]; [done|]. rewrite utf8_cons, forallb_app, IH.
  assert (E : forallb is_ascii_digit (utf8_char c) = is_ascii_digit c); [|by rewrite E].
  assert (D : forall x, 58 <= x -> is_ascii_digit x = false).
  { intros x Hx. unfold is_ascii_digit. apply andb_false_iff. right. apply Z.leb_gt. lia. }
  unfold utf8_char. repeat case_match; to_prop; simpl.
  - by rewrite andb_true_r.
  - rewrite (D c), (D (192 + _)); [done| |lia]. assert (0 <= c / 64) by (apply Z.div_pos; lia). lia.
  - rewrite (D c), (D (224 + _)); [done| |lia]. assert (0 <= c / 4096) by (apply Z.div_pos; lia). lia.
  - rewrite (D c), (D (240 + _)); [done| |lia]. assert (0 <= c / 262144) by (apply Z.div_pos; lia). lia.
Qed.

(** Laws of the string operations. *)
Lemma strip_prefix_some p s r : strip_prefix p s = Some r <-> s = p ++ r.
Proof.
  revert s. induction p as [|x p IH]; intros s; simpl.
  - split; [by intros [= ->]|by intros ->].
  - destruct s as [|y s]; [done|]. destruct (x =? y) eqn:E; to_prop.
    + subst. rewrite IH. split; [by intros ->|by intros [= ->]].
    + split; [done|]. intros [= -> _]. done.
Qed.

Lemma starts_with_iff p s : starts_with p s = true <-> exists r, s = p ++ r.
Proof.
  unfold starts_with. destruct (strip_prefix p s) as [r|] eqn:E; simpl.
  - apply strip_prefix_some in E. split; [eauto|done].
  - split; [done|]. intros [r Hr]. apply strip_prefix_some in Hr. congruence.
Qed.

Lemma contains_iff p s : contains p s = true <-> exists a b, s = a ++ p ++ b.
Proof.
  induction s as [|x s IH]; simpl.
  - rewrite orb_false_r, starts_with_iff. split.
    + intros [r E]. by exists [], r.
    + intros (a & b & E). symmetry in E. apply app_eq_nil in E as [-> E]. by exists b.
  - rewrite orb_true_iff, starts_with_iff, IH. split.
    + intros [[r E]|(a & b & ->)]; [by exists [], r|by exists (x :: a), b].
    + intros ([|y a] & b & E); [by left; exists b|]. right.
      injection E as -> ->. by exists a, b.
Qed.

Lemma contains_char_iff c s : contains_char c s = true <-> c ∈ s.
Proof.
  unfold contains_char. rewrite existsb_true_iff. split.
  - intros (x & Hx & E). to_prop. by subst.
  - intros H. exists c. by rewrite Z.eqb_refl.
Qed.

Lemma split_once_prefix c p s :
  c ∉ p -> split_once c (p ++ s) = match split_once c s with Some (a, b) => Some (p ++ a, b) | None => None end.
Proof.
  induction p as [|x p IH]; intros N; cbn [app].
  - by destruct (split_once c s) as [[]|].
  - cbn [split_once]. rewrite (proj2 (Z.eqb_neq x c)) by set_solver.
    rewrite IH by set_solver. by destruct (split_once c s) as [[]|].
Qed.

Lemma split_once_app c a b : c ∉ a -> split_once c (a ++ c :: b) = Some (a, b).
Proof.
  intros N. rewrite split_once_prefix by done. cbn [split_once]. rewrite Z.eqb_refl.
  by rewrite app_nil_r.
Qed.

Lemma split_once_none c s : split_once c s = None <-> c ∉ s.
Proof.
  induction s as [|x s IH]; cbn [split_once].
  - split; [set_solver|done].
  - destruct (x =? c) eqn:E; to_prop; [subst; split; [done|set_solver]|].
    rewrite not_elem_of_cons, <- IH. destruct (split_once c s) as [[]|]; naive_solver.
Qed.

Lemma split_once_some c s a b : split_once c s = Some (a, b) -> s = a ++ c :: b /\ c ∉ a.
Proof.
  revert a. induction s as [|x s IH]; intros a; cbn [split_once]; [done|].
  destruct (x =? c) eqn:E; to_prop.
  - intros [= <- <-]. subst. split; [done|set_solver].
  - destruct (split_once c s) as [[a' b']|]; [|done]. intros [= <- <-].
    destruct (IH a' eq_refl) as [-> N]. split; [done|set_solver].
Qed.

Lemma parse_uint_nonneg max s v : parse_uint max s = Some v -> 0 <= v.
Proof.
  unfold parse_uint. case_match eqn:E; [|done]. intros [= <-]. to_prop. by apply digits_value_nonneg.
Qed.

Lemma split_char_nonempty c s : split_char c s <> [].
Proof. destruct s; simpl; [done|]. repeat case_match; done. Qed.

Lemma join_cons sep x l : l <> [] -> join sep (x :: l) = x ++ sep ++ join sep l.
Proof. by destruct l. Qed.

Lemma split_char_join c s : join [c] (split_char c s) = s.
Proof.
  induction s as [|x s IH]; [done|]. simpl. destruct (x =? c) eqn:E; to_prop.
  - rewrite join_cons by apply split_char_nonempty. simpl. by rewrite IH, E.
  - destruct (split_char c s) as [|w ws] eqn:S; [by apply split_char_nonempty in S|].
    destruct ws as [|w' ws]; simpl in *; by rewrite IH.
Qed.

Lemma split_char_none c s : c ∉ s -> split_char c s = [s].
Proof.
  induction s as [|x s IH]; intros H; [done|]. apply not_elem_of_cons in H as [H1 H2].
  simpl. rewrite IH by done. destruct (x =? c) eqn:E; [to_prop; congruence|done].
Qed.

Lemma split_char_app c a b : c ∉ a -> split_char c (a ++ c :: b) = a :: split_char c b.
Proof.
  induction a as [|x a IH]; intros H; simpl; [by rewrite Z.eqb_refl|].
  apply not_elem_of_cons in H as [H1 H2]. rewrite IH by done.
  destruct (x =? c) eqn:E; [to_prop; congruence|done].
Qed.

Lemma digit_not_in c s : is_ascii_digit c = false -> forallb is_ascii_digit s = true -> c ∉ s.
Proof. intros Hc H Hin. rewrite forallb_true_iff in H. rewrite H in Hc; done. Qed.

(** Trimming. *)
Lemma drop_while_length {A} (f : A -> bool) l : zlen (drop_while f l) <= zlen l.
Proof. induction l as [|x l IH]; simpl; [lia|]. case_match; autorewrite with zlen in *; lia. Qed.

Lemma drop_while_forallb {A} (f g : A -> bool) l :
  forallb g l = true -> forallb g (drop_while f l) = true.
Proof.
  induction l as [|x l IH]; simpl; [done|]. rewrite andb_true_iff. intros [Hx Hl].
  case_match; simpl; [by apply IH|by rewrite Hx, Hl].
Qed.

Lemma drop_while_head {A} (f : A -> bool) l x r : drop_while f l = x :: r -> f x = false.
Proof. induction l as [|y l IH]; simpl; [done|]. case_match eqn:E; [done|]. by intros [= <- <-]. Qed.

Lemma drop_while_id {A} (f : A -> bool) x l : f x = false -> drop_while f (x :: l) = x :: l.
Proof. simpl. by intros ->. Qed.

Lemma drop_while_idem {A} (f : A -> bool) l : drop_while f (drop_while f l) = drop_while f l.
Proof.
  destruct (drop_while f l) as [|x r] eqn:E; [done|]. apply drop_while_id.
  by eapply drop_while_head.
Qed.

Lemma drop_while_split {A} (f : A -> bool) l :
  exists p, l = p ++ drop_while f l /\ forallb f p = true.
Proof.
  induction l as [|x l (p & E & F)]; simpl; [by exists []|]. destruct (f x) eqn:X.
  - exists (x :: p). simpl. by rewrite X, <- E.
  - by exists [].
Qed.

Lemma forallb_reverse {A} (g : A -> bool) l : forallb g (reverse l) = forallb g l.
Proof.
  apply eq_true_iff_eq. rewrite !forallb_true_iff. by setoid_rewrite elem_of_reverse.
Qed.

Lemma trim_end_matches_forallb f g s :
  forallb g s = true -> forallb g (trim_end_matches f s) = true.
Proof.
  intros H. unfold trim_end_matches. rewrite forallb_reverse.
  apply drop_while_forallb. by rewrite forallb_reverse.
Qed.

Lemma trim_end_matches_split f s :
  exists p, s = trim_end_matches f s ++ p /\ forallb f p = true.
Proof.
  destruct (drop_while_split f (reverse s)) as (p & E & F).
  exists (reverse p). unfold trim_end_matches. rewrite forallb_reverse. split; [|done].
  by rewrite <- reverse_app, <- E, reverse_involutive.
Qed.

Lemma trim_end_matches_last f s l c : trim_end_matches f s = l ++ [c] -> f c = false.
Proof.
  unfold trim_end_matches. intros E. apply (f_equal reverse) in E.
  rewrite reverse_involutive, reverse_app, reverse_singleton in E. by eapply drop_while_head.
Qed.

Lemma trim_end_matches_idem f s :
  trim_end_matches f (trim_end_matches f s) = trim_end_matches f s.
Proof. unfold trim_end_matches. by rewrite reverse_involutive, drop_while_idem. Qed.

Lemma trim_end_matches_length f s : zlen (trim_end_matches f s) <= zlen s.
Proof.
  destruct (trim_end_matches_split f s) as (p & E & _). rewrite E at 2.
  rewrite zlen_app. pose proof (zlen_nonneg p). lia.
Qed.

(** Values of digit strings. *)
Lemma parse_uint_digits_inv max s v : parse_uint max s = Some v ->
  exists d, (s = d \/ s = 43 :: d) /\ forallb is_ascii_digit d = true /\ d <> [] /\ v = digits_value d.
Proof.
  unfold parse_uint. set (d := match s with 43 :: d => d | _ => s end). intros H.
  case_if_in H; [|done]. injection H as <-. to_prop. exists d. split_and!; [|done|by destruct d|done].
  subst d. destruct s as [|c s]; [by left|]. destruct (decide (c = 43)) as [->|N]; [by right|left].
  destruct c as [|p|p]; try done. do 6 (try destruct p as [p|p|]); done.
Qed.

Lemma parse_uint_no_dot max s v : parse_uint max s = Some v -> 46 ∉ s.
Proof.
  intros (d & [-> | ->] & D & _)%parse_uint_digits_inv; [by apply digit_not_in|].
  apply not_elem_of_cons. split; [done|]. by apply digit_not_in.
Qed.

Lemma parse_int_no_dot min max s v : parse_int min max s = Some v -> 46 ∉ s.
Proof.
  destruct s as [|c s]; [by intros _ []%elem_of_nil|]. destruct (decide (c = 45)) as [->|N].
  - cbn. intros H. case_if_in H; [|done]. to_prop. apply not_elem_of_cons. split; [done|].
    by apply digit_not_in.
  - intros H. apply (parse_uint_no_dot max _ v). rewrite <- H. unfold parse_int.
    destruct c as [|p|p]; try done. do 6 (try destruct p as [p|p|]); done.
Qed.

Lemma digits_value_concat a b :
  digits_value (a ++ b) = digits_value a * 10 ^ zlen b + digits_value b.
Proof.
  induction b as [|c b IH] using rev_ind.
  - rewrite app_nil_r. unfold digits_value at 3, zlen. simpl. lia.
  - rewrite app_assoc, !digits_value_app, IH, zlen_app.
    rewrite Z.pow_add_r by apply zlen_nonneg. change (10 ^ zlen [c]) with 10. lia.
Qed.

Lemma digits_value_bound s :
  forallb is_ascii_digit s = true -> 0 <= digits_value s < 10 ^ zlen s.
Proof.
  induction s as [|c s IH] using rev_ind; [done|]. rewrite forallb_app. intros H.
  apply andb_true_iff in H as [A C]. simpl in C. rewrite andb_true_r in C.
  apply is_ascii_digit_range in C. specialize (IH A).
  rewrite digits_value_app, zlen_app, Z.pow_add_r by (apply zlen_nonneg || done).
  change (10 ^ zlen [c]) with 10. lia.
Qed.

(** Equal lengths and values: equal digit strings. *)
Lemma digits_value_inj a b :
  forallb is_ascii_digit a = true -> forallb is_ascii_digit b = true ->
  length a = length b -> digits_value a = digits_value b -> a = b.
Proof.
  revert b. induction a as [|x a IH] using rev_ind; intros b Ha Hb L V.
  - by destruct b.
  - destruct b as [|y b _] using rev_ind; [rewrite length_app in L; simpl in L; lia|].
    rewrite forallb_app in Ha, Hb. simpl in Ha, Hb. rewrite andb_true_r in Ha, Hb.
    apply andb_true_iff in Ha as [Ha Hx], Hb as [Hb Hy].
    apply is_ascii_digit_range in Hx, Hy. rewrite !digits_value_app in V.
    rewrite !length_app in L. simpl in L.
    assert (digits_value a = digits_value b /\ x = y) as [V' ->] by lia.
    f_equal. apply IH; [done..|lia|done].
Qed.

End RustText.
Export RustText.
