(* ===== verification/Values.v ===== *)
(** Canonical typed values and their internal encoding
    (src-tauri/src/db/data_tasks/value.rs).

    [DataValue] and [CanonicalRow] with their canonical byte encoding, the
    strict decoder [decode_row], the exact-decimal normaliser and the size
    accounting used by the snapshot budget. *)
From S2P Require Import Prelude RustText.

Module Values.

(** ** Data *)

Inductive DataValue : Type :=
| VNull
| VBool (v : bool)
| VInt (v : Z)
| VUInt (v : Z)
| VDecimal (v : str)
| VFloat (bits : Z)
| VText (v : str)
| VBinary (v : bytes)
| VTemporal (kind value : str)
| VUuid (v : bytes)
| VJson (v : str).

Record CanonicalRow : Type := mkRow {
  table : str;
  key : list DataValue;
  values : list DataValue;
}.

#[export] Instance DataValue_eq_dec : EqDecision DataValue.
Proof. solve_decision. Defined.
#[export] Instance CanonicalRow_eq_dec : EqDecision CanonicalRow.
Proof. solve_decision. Defined.

(** ** Text normalisation *)

Definition is_zero_char (c : char) : bool := c =? 48.

Definition normalize_mysql_temporal (input : str) : str :=
  match split_once 46 input with
  | Some (whole, fraction) =>
    if forallb is_ascii_digit (utf8 fraction) then
      let fraction := trim_end_matches is_zero_char fraction in
      if is_empty fraction then whole else whole ++ [46] ++ fraction
    else input
  | None => input
  end.

Definition bad_decimal : str := u "unsupported_capability: 无效的精确小数".

Definition normalize_decimal (input : str) : result str str :=
  let '(negative, digits) :=
    match strip_prefix [45] input with
    | Some s => (true, s)
    | None => (false, default input (strip_prefix [43] input))
    end in
  let parts := split_char 46 digits in
  let whole := default [] (parts !! 0%nat) in
  let fraction := default [] (parts !! 1%nat) in
  if is_some (parts !! 2%nat) || is_empty whole
     || negb (forallb is_ascii_digit (utf8 whole))
     || negb (forallb is_ascii_digit (utf8 fraction))
  then Err bad_decimal
  else
    let whole := trim_start_matches is_zero_char whole in
    let whole := if is_empty whole then [48] else whole in
    let fraction := trim_end_matches is_zero_char fraction in
    let sign := if negative && (negb (str_eqb whole [48]) || negb (is_empty fraction))
                then [45] else [] in
    Ok (if is_empty fraction then sign ++ whole else sign ++ whole ++ [46] ++ fraction).

(** ** Encoding *)

(** [uN::to_be_bytes] and [from_be_bytes]. *)
Fixpoint be_bytes (n : nat) (w : Z) : bytes :=
  match n with O => [] | S n => be_bytes n (w / 256) ++ [w mod 256] end.
Definition be_value (l : bytes) : Z := fold_left (fun v b => v * 256 + b) l 0.
(** The two's complement reading of a 64-bit word. *)
Definition to_signed (w : Z) : Z := if 9223372036854775808 <=? w then w - 18446744073709551616 else w.

Definition field (b : bytes) : bytes := be_bytes 8 (zlen b) ++ b.

Definition value_canonical_bytes (v : DataValue) : result bytes str :=
  match v with
  | VNull => Ok [0]
  | VBool v => Ok [1; if v then 1 else 0]
  | VInt v => Ok (2 :: be_bytes 8 (wrap64 v))
  | VUInt v => Ok (3 :: be_bytes 8 v)
  | VDecimal v => let? d := normalize_decimal v in Ok (4 :: field (utf8 d))
  | VFloat v => Ok (5 :: be_bytes 8 v)
  | VText v => Ok (6 :: field (utf8 v))
  | VBinary v => Ok (7 :: field v)
  | VTemporal k v => Ok (8 :: field (utf8 k) ++ field (utf8 v))
  | VUuid v => Ok (9 :: v)
  | VJson v => Ok (10 :: field (utf8 v))
  end.

Definition values_bytes (vs : list DataValue) : result bytes str :=
  let? enc := traverse value_canonical_bytes vs in
  Ok (be_bytes 8 (zlen vs) ++ concat (map field enc)).

Definition key_bytes (r : CanonicalRow) : result bytes str :=
  let? k := values_bytes (key r) in Ok (field (utf8 (table r)) ++ k).

Definition canonical_bytes (r : CanonicalRow) : result bytes str :=
  let? k := key_bytes r in let? v := values_bytes (values r) in Ok (k ++ v).

Definition new_row (t : str) (k v : list DataValue) : result CanonicalRow str :=
  let row := mkRow t k v in check? canonical_bytes row in Ok row.

Definition is_null (v : DataValue) : bool := match v with VNull => true | _ => false end.

(** ** Sizes *)

Definition value_encoded_size (v : DataValue) : Z :=
  match v with
  | VNull => 1
  | VBool _ => 2
  | VInt _ | VUInt _ | VFloat _ => 9
  | VUuid _ => 17
  | VText s | VDecimal s | VJson s => sat_add 9 (str_len s)
  | VBinary b => sat_add 9 (zlen b)
  | VTemporal k v => sat_add (sat_add 17 (str_len k)) (str_len v)
  end.

Definition encoded_size (r : CanonicalRow) : Z :=
  fold_left (fun n v => sat_add (sat_add n 8) (value_encoded_size v))
    (key r ++ values r) (sat_add 24 (str_len (table r))).

(** [capacity()] and [size_of] are fixed by the allocator and the layout, not
    by the value. *)
Section MemorySize.
Context (str_capacity : str -> Z) (bytes_capacity : bytes -> Z)
          (vec_capacity : list DataValue -> Z) (size_of_value size_of_row : Z).

Definition heap_size (v : DataValue) : Z :=
    match v with
    | VText v | VDecimal v | VJson v => str_capacity v
    | VBinary v => bytes_capacity v
    | VTemporal k v => sat_add (str_capacity k) (str_capacity v)
    | _ => 0
    end.

Definition memory_size (r : CanonicalRow) : Z :=
    sat_add
      (sat_add
         (sat_add (sat_add size_of_row (str_capacity (table r)))
            (sat_mul (vec_capacity (key r)) size_of_value))
         (sat_mul (vec_capacity (values r)) size_of_value))
      (fold_left (fun n v => sat_add n (heap_size v)) (key r ++ values r) 0).
End MemorySize.

(** ** Decoding *)

Record Reader : Type := mkReader { data : bytes; pos : Z }.

Definition r_take (n : Z) (r : Reader) : result (bytes * Reader) str :=
  let? stop := ok_or (checked_add (pos r) n) (u "resource_limit: 快照记录长度无效") in
  if stop <=? zlen (data r)
  then Ok (take (Z.to_nat n) (drop (Z.to_nat (pos r)) (data r)), mkReader (data r) stop)
  else Err (u "resource_limit: 快照记录损坏").

Definition r_number (r : Reader) : result (Z * Reader) str :=
  let? (b, r) := r_take 8 r in Ok (be_value b, r).

(** [usize::try_from] cannot fail on a 64-bit target. *)
Definition r_field (r : Reader) : result (bytes * Reader) str :=
  let? (n, r) := r_number r in r_take n r.

Definition r_string (r : Reader) : result (str * Reader) str :=
  let? (b, r) := r_field r in
  let? s := ok_or (from_utf8 b) (u "resource_limit: 快照文本损坏") in
  Ok (s, r).

Definition r_value (v : Reader) : result (DataValue * Reader) str :=
  let? (tag, v) := r_take 1 v in
  match default 0 (tag !! 0%nat) with
  | 0 => Ok (VNull, v)
  | 1 =>
    let? (b, v) := r_take 1 v in
    match default 0 (b !! 0%nat) with
    | 0 => Ok (VBool false, v)
    | 1 => Ok (VBool true, v)
    | _ => Err (u "resource_limit: 布尔记录损坏")
    end
  | 2 => let? (b, v) := r_take 8 v in Ok (VInt (to_signed (be_value b)), v)
  | 3 => let? (n, v) := r_number v in Ok (VUInt n, v)
  | 4 => let? (s, v) := r_string v in Ok (VDecimal s, v)
  | 5 => let? (n, v) := r_number v in Ok (VFloat n, v)
  | 6 => let? (s, v) := r_string v in Ok (VText s, v)
  | 7 => let? (b, v) := r_field v in Ok (VBinary b, v)
  | 8 => let? (k, v) := r_string v in let? (s, v) := r_string v in Ok (VTemporal k s, v)
  | 9 => let? (b, v) := r_take 16 v in Ok (VUuid b, v)
  | 10 => let? (s, v) := r_string v in Ok (VJson s, v)
  | _ => Err (u "resource_limit: 快照类型损坏")
  end.

Fixpoint r_values_loop (n : nat) (r : Reader) : result (list DataValue * Reader) str :=
  match n with
  | O => Ok ([], r)
  | S n =>
    let? (f, r) := r_field r in
    let? (value, v) := r_value (mkReader f 0) in
    if negb (pos v =? zlen (data v)) then Err (u "resource_limit: 快照字段尾部损坏")
    else let? (rest, r) := r_values_loop n r in Ok (value :: rest, r)
  end.

Definition r_values (r : Reader) : result (list DataValue * Reader) str :=
  let? (n, r) := r_number r in
  if zlen (data r) / 9 <? n then Err (u "resource_limit: 快照字段数无效")
  else r_values_loop (Z.to_nat n) r.

Definition decode_row (input : bytes) : result CanonicalRow str :=
  let r := mkReader input 0 in
  let? (t, r) := r_string r in
  let? (k, r) := r_values r in
  let? (v, r) := r_values r in
  if negb (pos r =? zlen input) then Err (u "resource_limit: 快照记录尾部损坏")
  else Ok (mkRow t k v).

(** ** Specification: the encoding without decimal normalisation *)

Definition norm_value (v : DataValue) : DataValue :=
  match v with
  | VDecimal d => VDecimal (match normalize_decimal d with Ok x => x | Err _ => d end)
  | _ => v
  end.
Definition norm_row (r : CanonicalRow) : CanonicalRow :=
  mkRow (table r) (map norm_value (key r)) (map norm_value (values r)).

Definition raw_value (v : DataValue) : bytes :=
  match v with
  | VNull => [0]
  | VBool v => [1; if v then 1 else 0]
  | VInt v => 2 :: be_bytes 8 (wrap64 v)
  | VUInt v => 3 :: be_bytes 8 v
  | VDecimal v => 4 :: field (utf8 v)
  | VFloat v => 5 :: be_bytes 8 v
  | VText v => 6 :: field (utf8 v)
  | VBinary v => 7 :: field v
  | VTemporal k v => 8 :: field (utf8 k) ++ field (utf8 v)
  | VUuid v => 9 :: v
  | VJson v => 10 :: field (utf8 v)
  end.
Definition raw_values (vs : list DataValue) : bytes :=
  be_bytes 8 (zlen vs) ++ concat (map (fun v => field (raw_value v)) vs).
Definition raw_row (r : CanonicalRow) : bytes :=
  field (utf8 (table r)) ++ raw_values (key r) ++ raw_values (values r).

(** The ranges of the Rust types. *)
Definition wf_value (v : DataValue) : Prop :=
  match v with
  | VNull | VBool _ => True
  | VInt v => i64_range v
  | VUInt v | VFloat v => u64_range v
  | VDecimal v | VText v | VJson v => wf_str v
  | VBinary v => Forall byte_range v
  | VTemporal k v => wf_str k /\ wf_str v
  | VUuid v => Forall byte_range v /\ zlen v = 16
  end.
Definition wf_row (r : CanonicalRow) : Prop :=
  wf_str (table r) /\ Forall wf_value (key r) /\ Forall wf_value (values r).

(** ** Specification: decimal texts as numbers

    A decimal text is an optional sign, integer digits and optionally a point
    and fraction digits; it denotes [digits_value (w ++ f) / 10 ^ |f|]. *)

Definition decimal_sign (neg : bool) (sign : str) : Prop :=
  if neg then sign = [45] else sign = [] \/ sign = [43].

Definition decimal_shape (s : str) (neg : bool) (w f : str) : Prop :=
  exists sign rest,
    s = sign ++ w ++ rest /\ decimal_sign neg sign /\ w <> [] /\
    forallb is_ascii_digit w = true /\ forallb is_ascii_digit f = true /\
    (rest = [] /\ f = [] \/ rest = 46 :: f).

Definition signed (neg : bool) (n : Z) : Z := if neg then - n else n.

(** Cross-multiplied equality of two such numbers. *)
Definition same_number (n1 : bool) (w1 f1 : str) (n2 : bool) (w2 f2 : str) : Prop :=
  signed n1 (digits_value (w1 ++ f1)) * 10 ^ zlen f2 =
  signed n2 (digits_value (w2 ++ f2)) * 10 ^ zlen f1.

Definition canon_whole (w : str) : str :=
  let w := trim_start_matches is_zero_char w in if is_empty w then [48] else w.
Definition canon_fraction (f : str) : str := trim_end_matches is_zero_char f.
Definition canon_sign (neg : bool) (w f : str) : bool :=
  neg && (negb (str_eqb w [48]) || negb (is_empty f)).
Definition render_decimal (neg : bool) (w f : str) : str :=
  (if neg then [45] else []) ++ w ++ (if is_empty f then [] else 46 :: f).

(** The canonical digits: no leading zero, no trailing zero, no minus zero. *)
Definition canonical_digits (neg : bool) (w f : str) : Prop :=
  forallb is_ascii_digit w = true /\ forallb is_ascii_digit f = true /\
  (w = [48] \/ exists c r, w = c :: r /\ c <> 48) /\
  (forall l c, f = l ++ [c] -> c <> 48) /\
  (neg = true -> ~ (w = [48] /\ f = [])).

(** ** Big-endian words *)

Lemma be_bytes_length n w : zlen (be_bytes n w) = Z.of_nat n.
Proof.
  revert w. induction n as [|n IH]; intros w; [done|].
  simpl be_bytes. autorewrite with zlen. rewrite IH. lia.
Qed.

Lemma be_value_app l b : be_value (l ++ [b]) = be_value l * 256 + b.
Proof. unfold be_value. by rewrite fold_left_app. Qed.

Lemma be_value_bytes n w : 0 <= w < 256 ^ Z.of_nat n -> be_value (be_bytes n w) = w.
Proof.
  revert w. induction n as [|n IH]; intros w Hw.
  - simpl in *. unfold be_value. simpl. lia.
  - simpl be_bytes. rewrite be_value_app, IH.
    + pose proof (Z.div_mod w 256). lia.
    + rewrite Nat2Z.inj_succ, Z.pow_succ_r in Hw by lia.
      split; [apply Z.div_pos; lia|]. apply Z.div_lt_upper_bound; lia.
Qed.

Lemma be_bytes_value l : Forall byte_range l -> be_bytes (length l) (be_value l) = l.
Proof.
  induction l as [|b l IH] using rev_ind; intros H; [done|].
  apply Forall_app in H as [Hl Hb]. inversion_clear Hb as [|? ? Hb' _].
  unfold byte_range in Hb'. rewrite length_app, Nat.add_1_r, be_value_app. cbn [be_bytes].
  rewrite Z.div_add_l, (Z.div_small b), Z.add_0_r, IH by (done || lia). f_equal. f_equal.
  rewrite Z.add_comm, Z.mod_add, Z.mod_small; lia.
Qed.

Lemma be_value_u64 w : u64_range w -> be_value (be_bytes 8 w) = w.
Proof. unfold u64_range, u64_max. intros. apply be_value_bytes. simpl. lia. Qed.

Lemma be_value_range l : Forall byte_range l -> 0 <= be_value l < 256 ^ zlen l.
Proof.
  induction l as [|b l IH] using rev_ind; intros H; [done|].
  apply Forall_app in H as [Hl Hb]. inversion_clear Hb as [|? ? Hb' _].
  specialize (IH Hl). unfold byte_range in Hb'. rewrite be_value_app.
  autorewrite with zlen. rewrite Z.pow_add_r by (try lia; apply zlen_nonneg).
  rewrite Z.add_0_r. change (256 ^ 1) with 256. lia.
Qed.

Lemma to_signed_wrap v : i64_range v -> to_signed (wrap64 v) = v.
Proof.
  unfold i64_range, to_signed, wrap64. intros H. destruct (decide (0 <= v)).
  - rewrite Z.mod_small by lia. case_match; to_prop; lia.
  - rewrite <- (Z.mod_add v 1), Z.mod_small by lia. case_match; to_prop; lia.
Qed.

Lemma wrap_to_signed w : u64_range w -> wrap64 (to_signed w) = w.
Proof.
  unfold u64_range, to_signed, wrap64, u64_max. intros H. case_match; to_prop.
  - rewrite <- (Z.mod_add _ 1), Z.mod_small by lia. lia.
  - apply Z.mod_small. lia.
Qed.

Lemma field_length b : zlen (field b) = 8 + zlen b.
Proof. unfold field. autorewrite with zlen. by rewrite be_bytes_length. Qed.
Lemma field_eq b : field b = be_bytes 8 (zlen b) ++ b.
Proof. done. Qed.
#[export] Hint Rewrite field_length be_bytes_length : zlen.

#[global] Opaque be_bytes field.
#[global] Arguments r_take : simpl never.

(** ** The reader *)

(** [r] stands before [rest] in a buffer that fits in memory. *)
Definition reads (r : Reader) (rest : bytes) : Prop :=
  exists pre, data r = pre ++ rest /\ pos r = zlen pre /\ zlen (data r) <= usize_max.

Lemma reads_start l : zlen l <= usize_max -> reads (mkReader l 0) l.
Proof. exists []. done. Qed.

Lemma reads_end r : reads r [] -> pos r = zlen (data r).
Proof. intros (pre & -> & -> & _). by rewrite app_nil_r. Qed.

Lemma reads_stop r rest : reads r rest -> pos r = zlen (data r) -> rest = [].
Proof.
  intros (pre & D & -> & _) E. rewrite D, zlen_app in E. unfold zlen in E.
  apply nil_length_inv. lia.
Qed.

Lemma r_take_reads r x rest :
  reads r (x ++ rest) ->
  exists r', r_take (zlen x) r = Ok (x, r') /\ reads r' rest /\ data r' = data r.
Proof.
  intros (pre & D & P & L). unfold r_take, checked_add. rewrite D, P in *.
  autorewrite with zlen in L. rewrite (zlen_app pre), (zlen_app x).
  pose proof (zlen_nonneg rest). unfold usize_max in L.
  rewrite (proj2 (Z.leb_le _ _)) by lia. simpl.
  rewrite (proj2 (Z.leb_le _ _)) by lia. unfold zlen. rewrite !Nat2Z.id, drop_app_length, take_app_length.
  eexists. split; [done|]. split; [|done]. exists (pre ++ x). simpl.
  rewrite <- app_assoc. split; [done|]. unfold zlen in *. unfold usize_max. rewrite !length_app. lia.
Qed.

Lemma r_take_inv r rest n x r' :
  reads r rest -> 0 <= n -> r_take n r = Ok (x, r') ->
  exists rest', rest = x ++ rest' /\ zlen x = n /\ reads r' rest' /\ data r' = data r.
Proof.
  intros (pre & D & P & L) Hn. unfold r_take, checked_add. rewrite P.
  case_match eqn:E1; simpl; [|done]. case_match eqn:E2; [|done]. to_prop.
  intros [= <- <-]. rewrite D in *. autorewrite with zlen in *.
  unfold zlen. rewrite Nat2Z.id, drop_app_length.
  exists (drop (Z.to_nat n) rest). rewrite take_drop. split; [done|].
  split; [rewrite length_take; unfold zlen in *; lia|]. split; [|done].
  exists (pre ++ take (Z.to_nat n) rest). simpl. rewrite <- app_assoc, take_drop.
  split; [done|]. unfold zlen in *. rewrite !length_app, length_take. lia.
Qed.

Lemma r_number_reads r w rest :
  u64_range w -> reads r (be_bytes 8 w ++ rest) ->
  exists r', r_number r = Ok (w, r') /\ reads r' rest /\ data r' = data r.
Proof.
  intros Hw H. apply r_take_reads in H as (r' & H & R & D).
  rewrite be_bytes_length in H. unfold r_number. change (Z.of_nat 8) with 8 in H.
  rewrite H. simpl. rewrite be_value_u64 by done. eauto.
Qed.

Lemma r_field_reads r b rest :
  reads r (field b ++ rest) ->
  exists r', r_field r = Ok (b, r') /\ reads r' rest /\ data r' = data r.
Proof.
  intros H. rewrite field_eq, <- app_assoc in H.
  assert (u64_range (zlen b)) as U.
  { destruct H as (pre & D & _ & L). rewrite D in L. autorewrite with zlen in L.
    pose proof (zlen_nonneg pre). pose proof (zlen_nonneg rest). pose proof (zlen_nonneg b).
    unfold u64_range, usize_max in *. lia. }
  apply r_number_reads in H as (r1 & H1 & R1 & D1); [|done].
  apply r_take_reads in R1 as (r2 & H2 & R2 & D2).
  unfold r_field. rewrite H1. simpl. rewrite H2. eexists. split; [done|]. split; congruence.
Qed.

Lemma r_string_reads r s rest :
  wf_str s -> reads r (field (utf8 s) ++ rest) ->
  exists r', r_string r = Ok (s, r') /\ reads r' rest /\ data r' = data r.
Proof.
  intros Hs H. apply r_field_reads in H as (r1 & H1 & R1 & D1).
  unfold r_string. rewrite H1. simpl. rewrite from_utf8_utf8 by done. simpl. eauto.
Qed.

Lemma r_number_inv r rest w r' :
  Forall byte_range rest -> reads r rest -> r_number r = Ok (w, r') ->
  exists rest', rest = be_bytes 8 w ++ rest' /\ u64_range w /\ reads r' rest' /\ data r' = data r.
Proof.
  intros B R H. unfold r_number in H. inv_ok. destruct x as [b r1]. inv_ok.
  apply (r_take_inv _ rest) in Hx as (rest' & -> & L & R' & D); [|done..].
  apply Forall_app in B as [B _]. pose proof (be_value_range _ B) as V. rewrite L in V.
  exists rest'. split.
  - f_equal. rewrite <- (be_bytes_value b) at 1 by done.
    f_equal. unfold zlen in L. lia.
  - unfold u64_range, u64_max. split; [simpl in V; lia|done].
Qed.

Lemma r_field_inv r rest b r' :
  Forall byte_range rest -> reads r rest -> r_field r = Ok (b, r') ->
  exists rest', rest = field b ++ rest' /\ reads r' rest' /\ data r' = data r.
Proof.
  intros B R H. unfold r_field in H. inv_ok. destruct x as [n r1].
  apply (r_number_inv _ rest) in Hx as (rest1 & -> & U & R1 & D1); [|done..].
  unfold u64_range in U. apply (r_take_inv _ rest1) in H as (rest2 & -> & <- & R2 & D2); [|done|lia].
  exists rest2. rewrite field_eq, <- app_assoc. split; [done|]. split; congruence.
Qed.

Lemma r_string_inv r rest s r' :
  Forall byte_range rest -> reads r rest -> r_string r = Ok (s, r') ->
  exists rest', rest = field (utf8 s) ++ rest' /\ wf_str s /\ reads r' rest' /\ data r' = data r.
Proof.
  intros B R H. unfold r_string in H. inv_ok. destruct x as [b r1]. inv_ok.
  apply (r_field_inv _ rest) in Hx as (rest1 & -> & R1 & D1); [|done..].
  apply from_utf8_inv in Hx0 as [<- W]. eauto.
Qed.

(** ** One value *)

Lemma reads_app_nil r l : reads r l -> reads r (l ++ []).
Proof. by rewrite app_nil_r. Qed.

Lemma r_value_raw v :
  wf_value v -> zlen (raw_value v) <= usize_max ->
  exists r, r_value (mkReader (raw_value v) 0) = Ok (v, r) /\ pos r = zlen (data r).
Proof.
  intros W L. set (r0 := mkReader (raw_value v) 0).
  assert (R : reads r0 (raw_value v)) by by apply reads_start.
  assert (T : raw_value v = [default 0 (head (raw_value v))] ++ tail (raw_value v)) by by destruct v.
  rewrite T in R. apply r_take_reads in R as (r1 & E1 & R1 & _). change (zlen [_]) with 1 in E1.
  unfold r_value. rewrite E1. clear T E1. simpl.
  assert (F : forall r, reads r [] -> forall x : DataValue,
            exists r', Ok (x, r) = @Ok (DataValue * Reader) str (x, r') /\ pos r' = zlen (data r')).
  { intros r Hr x. exists r. split; [done|by apply reads_end]. }
  destruct v; simpl in W; cbn [raw_value tail head default] in R1 |- *; simpl; try apply reads_app_nil in R1.
  - rewrite app_nil_r in R1. auto.
  - apply r_take_reads in R1 as (r2 & E2 & R2 & _). change (zlen [_]) with 1 in E2.
    rewrite E2. simpl. destruct v; simpl; auto.
  - apply r_take_reads in R1 as (r2 & E2 & R2 & _). rewrite be_bytes_length in E2.
    change (Z.of_nat 8) with 8 in E2. rewrite E2. simpl. rewrite be_value_u64, to_signed_wrap by auto with rust. auto.
  - apply r_number_reads in R1 as (r2 & -> & R2 & _); simpl; auto.
  - apply r_string_reads in R1 as (r2 & -> & R2 & _); simpl; auto.
  - apply r_number_reads in R1 as (r2 & -> & R2 & _); simpl; auto.
  - apply r_string_reads in R1 as (r2 & -> & R2 & _); simpl; auto.
  - apply r_field_reads in R1 as (r2 & -> & R2 & _); simpl; auto.
  - destruct W as [Wk Wv]. rewrite <- app_assoc in R1.
    apply r_string_reads in R1 as (r2 & -> & R2 & _); [|done]. simpl.
    apply r_string_reads in R2 as (r3 & -> & R3 & _); simpl; auto.
  - destruct W as [_ <-]. apply r_take_reads in R1 as (r2 & -> & R2 & _); simpl; auto.
  - apply r_string_reads in R1 as (r2 & -> & R2 & _); simpl; auto.
Qed.

Lemma r_value_inv b v r :
  Forall byte_range b -> zlen b <= usize_max ->
  r_value (mkReader b 0) = Ok (v, r) -> pos r = zlen (data r) -> b = raw_value v /\ wf_value v.
Proof.
  intros B L H P. pose proof (reads_start b L) as R0.
  unfold r_value in H. inv_ok. destruct x as [tag r1].
  apply (r_take_inv _ b) in Hx as (b1 & -> & L1 & R1 & _); [|done|lia].
  apply Forall_app in B as [Btag B].
  destruct tag as [|t [|]]; try (unfold zlen in L1; simpl in L1; lia). simpl default in H.
  assert (S : forall rest, reads r rest -> rest = []).
  { intros rest Hr. by apply (reads_stop r). }
  assert (t = 0 \/ t = 1 \/ t = 2 \/ t = 3 \/ t = 4 \/ t = 5 \/ t = 6 \/ t = 7 \/ t = 8 \/ t = 9
          \/ t = 10) as Ht.
  { destruct t as [|t|t]; [lia| |done]. do 4 (try destruct t as [t|t|]); done || lia. }
  clear P Btag L1.
  destruct_or! Ht; subst t; simpl in H; inv_ok; try (destruct x as [w r2]); inv_ok.
  - by rewrite (S _ R1).
  - apply (r_take_inv _ b1) in Hx as (rest & -> & L2 & R2 & _); [|done|lia].
    apply Forall_app in B as [B _].
    destruct w as [|w [|]]; try (unfold zlen in L2; simpl in L2; lia). simpl default in H.
    assert (w = 0 \/ w = 1) as Hw by (destruct w as [|[w|w|]|w]; auto; done).
    destruct Hw; subst; inv_ok; by rewrite (S _ R2).
  - apply (r_take_inv _ b1) in Hx as (rest & -> & L2 & R2 & _); [|done|lia].
    apply Forall_app in B as [B _]. pose proof (be_value_range _ B) as V. rewrite L2 in V.
    assert (u64_range (be_value w)) by (unfold u64_range, u64_max; simpl in V; lia).
    rewrite (S _ R2), app_nil_r. simpl. split.
    + rewrite wrap_to_signed by done. f_equal.
      rewrite <- (be_bytes_value w) at 1 by done. f_equal. unfold zlen in L2. lia.
    + unfold i64_range, to_signed, u64_range, u64_max in *. case_match; to_prop; lia.
  - apply (r_number_inv _ b1) in Hx as (rest & -> & U & R2 & _); [|done..].
    by rewrite (S _ R2), app_nil_r.
  - apply (r_string_inv _ b1) in Hx as (rest & -> & W & R2 & _); [|done..].
    by rewrite (S _ R2), app_nil_r.
  - apply (r_number_inv _ b1) in Hx as (rest & -> & U & R2 & _); [|done..].
    by rewrite (S _ R2), app_nil_r.
  - apply (r_string_inv _ b1) in Hx as (rest & -> & W & R2 & _); [|done..].
    by rewrite (S _ R2), app_nil_r.
  - apply (r_field_inv _ b1) in Hx as (rest & -> & R2 & _); [|done..].
    rewrite (S _ R2), app_nil_r in *. split; [done|]. simpl.
    rewrite field_eq in B. by apply Forall_app in B as [_ B].
  - destruct x as [s r3]. inv_ok.
    apply (r_string_inv _ b1) in Hx as (rest & -> & W & R2 & _); [|done..].
    apply Forall_app in B as [_ B].
    apply (r_string_inv _ rest) in Hx0 as (rest' & -> & W' & R3 & _); [|done..].
    by rewrite (S _ R3), app_nil_r.
  - apply (r_take_inv _ b1) in Hx as (rest & -> & L2 & R2 & _); [|done|lia].
    rewrite (S _ R2), app_nil_r in *. done.
  - apply (r_string_inv _ b1) in Hx as (rest & -> & W & R2 & _); [|done..].
    by rewrite (S _ R2), app_nil_r.
Qed.

(** ** Lists of values and rows *)

Lemma raw_value_nonempty v : 1 <= zlen (raw_value v).
Proof.
  destruct v; simpl; rewrite zlen_cons;
    match goal with |- context [zlen ?l] => pose proof (zlen_nonneg l) end; lia.
Qed.

Lemma raw_values_cons v vs :
  concat (map (fun v => field (raw_value v)) (v :: vs)) =
  field (raw_value v) ++ concat (map (fun v => field (raw_value v)) vs).
Proof. done. Qed.

(** Nine bytes at least per encoded value: the decoder's count check never
    rejects an encoding. *)
Lemma raw_values_length vs : 9 * zlen vs <= zlen (concat (map (fun v => field (raw_value v)) vs)).
Proof.
  induction vs as [|v vs IH]; [done|]. rewrite raw_values_cons.
  autorewrite with zlen. pose proof (raw_value_nonempty v). lia.
Qed.

Lemma reads_bound r b rest : reads r (b ++ rest) -> zlen b <= zlen (data r) <= usize_max.
Proof.
  intros (pre & D & _ & L). rewrite D in *. autorewrite with zlen in *.
  pose proof (zlen_nonneg pre). pose proof (zlen_nonneg rest). lia.
Qed.

Lemma r_values_loop_raw vs r rest :
  Forall wf_value vs -> reads r (concat (map (fun v => field (raw_value v)) vs) ++ rest) ->
  exists r', r_values_loop (length vs) r = Ok (vs, r') /\ reads r' rest /\ data r' = data r.
Proof.
  intros W. revert r. induction W as [|v vs Wv _ IH]; intros r R; [by eauto|].
  rewrite raw_values_cons, <- app_assoc in R. cbn [r_values_loop length]. pose proof (reads_bound _ _ _ R) as L.
  autorewrite with zlen in L.
  apply r_field_reads in R as (r1 & -> & R1 & D1). simpl.
  destruct (r_value_raw v Wv) as (rv & Ev & Pv); [lia|].
  rewrite Ev. simpl. rewrite Pv, Z.eqb_refl. simpl.
  apply IH in R1 as (r2 & -> & R2 & D2). simpl. eexists. split; [done|]. split; congruence.
Qed.

Lemma r_values_raw vs r rest :
  Forall wf_value vs -> reads r (raw_values vs ++ rest) ->
  exists r', r_values r = Ok (vs, r') /\ reads r' rest /\ data r' = data r.
Proof.
  intros W R. unfold raw_values in R. rewrite <- app_assoc in R.
  pose proof R as (pre & D & _ & L). rewrite D in L. autorewrite with zlen in L.
  pose proof (raw_values_length vs). pose proof (zlen_nonneg pre). pose proof (zlen_nonneg rest).
  pose proof (zlen_nonneg vs).
  apply r_number_reads in R as (r1 & E1 & R1 & D1); [|unfold u64_range, usize_max in *; lia].
  unfold r_values. rewrite E1. simpl.
  replace (zlen (data r1) / 9 <? zlen vs) with false.
  2:{ symmetry. apply Z.ltb_ge. apply Z.div_le_lower_bound; [lia|].
      rewrite D1, D. autorewrite with zlen. lia. }
  unfold zlen. rewrite Nat2Z.id.
  apply r_values_loop_raw in R1 as (r2 & -> & R2 & D2); [|done]. eexists. split; [done|].
  split; congruence.
Qed.

(** Decoding a raw encoding of a well-typed row yields the row. *)
Lemma decode_raw_row r :
  wf_row r -> zlen (raw_row r) <= usize_max -> decode_row (raw_row r) = Ok r.
Proof.
  intros (Wt & Wk & Wv) L. unfold decode_row.
  pose proof (reads_start _ L) as R. unfold raw_row in R at 2.
  apply r_string_reads in R as (r1 & -> & R & D1); [|done]. cbn [rbind].
  apply r_values_raw in R as (r2 & -> & R & D2); [|done]. cbn [rbind].
  apply reads_app_nil, r_values_raw in R as (r3 & -> & R & D3); [|done]. cbn [rbind].
  rewrite (reads_end _ R), D3, D2, D1. cbn [data]. rewrite Z.eqb_refl. by destruct r.
Qed.

Lemma r_values_loop_inv n r rest vs r' :
  Forall byte_range rest -> reads r rest -> r_values_loop n r = Ok (vs, r') ->
  exists rest', rest = concat (map (fun v => field (raw_value v)) vs) ++ rest' /\
    length vs = n /\ Forall wf_value vs /\ reads r' rest' /\ data r' = data r.
Proof.
  revert r rest vs. induction n as [|n IH]; intros r rest vs B R H; cbn [r_values_loop] in H.
  - inv_ok. exists rest. repeat split; auto.
  - inv_ok. destruct x as [f r1]. inv_ok. destruct x as [v rv].
    apply (r_field_inv _ rest) in Hx as (rest1 & -> & R1 & D1); [|done..].
    pose proof (reads_bound _ _ _ R) as L. autorewrite with zlen in L.
    apply Forall_app in B as [Bf B]. rewrite field_eq in Bf. apply Forall_app in Bf as [_ Bf].
    case_if_in H; [done|]. to_prop. inv_ok. destruct x as [vs' r2]. inv_ok.
    apply r_value_inv in Hx0 as [-> Wv]; [|done|lia|done].
    destruct (IH _ _ _ B R1 Hx) as (rest2 & -> & <- & W & R2 & D2).
    exists rest2. rewrite raw_values_cons, <- app_assoc.
    split; [done|]. split; [done|]. split; [by constructor|]. split; [done|congruence].
Qed.

Lemma r_values_inv r rest vs r' :
  Forall byte_range rest -> reads r rest -> r_values r = Ok (vs, r') ->
  exists rest', rest = raw_values vs ++ rest' /\ Forall wf_value vs /\ reads r' rest' /\
    data r' = data r.
Proof.
  intros B R H. unfold r_values in H. inv_ok. destruct x as [n r1].
  apply (r_number_inv _ rest) in Hx as (rest1 & -> & U & R1 & D1); [|done..].
  apply Forall_app in B as [_ B]. case_if_in H; [done|].
  apply (r_values_loop_inv _ _ rest1) in H as (rest2 & -> & L & W & R2 & D2); [|done..].
  exists rest2. unfold raw_values. rewrite <- app_assoc.
  assert (zlen vs = n) as -> by (unfold zlen, u64_range in *; lia).
  split; [done|]. split; [done|]. split; [done|congruence].
Qed.

(** ** Exact decimals *)

Lemma not_dot_in s : forallb is_ascii_digit s = true -> 46 ∉ s.
Proof. by apply digit_not_in. Qed.

Lemma decimal_split neg sign w rest f :
  decimal_sign neg sign -> w <> [] -> forallb is_ascii_digit w = true ->
  forallb is_ascii_digit f = true -> (rest = [] /\ f = [] \/ rest = 46 :: f) ->
  let digits := w ++ rest in
  match strip_prefix [45] (sign ++ digits) with
  | Some s => (true, s)
  | None => (false, default (sign ++ digits) (strip_prefix [43] (sign ++ digits)))
  end = (neg, digits) /\
  split_char 46 digits = if is_empty rest then [w] else [w; f].
Proof.
  intros Hs Hw Dw Df Hr digits. split.
  - destruct w as [|c w]; [done|]. simpl in Dw. apply andb_true_iff in Dw as [Dc _].
    apply is_ascii_digit_range in Dc. unfold digits.
    destruct neg; simpl in Hs; [by subst|]. destruct Hs as [-> | ->]; [|done].
    cbn [app strip_prefix]. rewrite !(proj2 (Z.eqb_neq _ c)) by lia. done.
  - unfold digits. destruct Hr as [[-> ->] | ->].
    + rewrite app_nil_r. by apply split_char_none, not_dot_in.
    + rewrite split_char_app by by apply not_dot_in. simpl.
      by rewrite split_char_none by by apply not_dot_in.
Qed.

Lemma normalize_decimal_shape s neg w f :
  decimal_shape s neg w f ->
  normalize_decimal s =
    Ok (render_decimal (canon_sign neg (canon_whole w) (canon_fraction f))
          (canon_whole w) (canon_fraction f)).
Proof.
  intros (sign & rest & -> & Hs & Hw & Dw & Df & Hr).
  destruct (decimal_split neg sign w rest f Hs Hw Dw Df Hr) as [E1 E2].
  unfold normalize_decimal. cbn zeta in E1, E2. rewrite E1, E2, !forallb_utf8_digit.
  assert (E3 : forallb is_ascii_digit
                 (default [] ((if is_empty rest then [w] else [w; f]) !! 1%nat)) = true /\
               default [] ((if is_empty rest then [w] else [w; f]) !! 1%nat) = f /\
               default [] ((if is_empty rest then [w] else [w; f]) !! 0%nat) = w /\
               is_some ((if is_empty rest then [w] else [w; f]) !! 2%nat) = false).
  { destruct Hr as [[-> ->] | ->]; simpl; auto. }
  destruct E3 as (-> & -> & -> & ->). rewrite Dw.
  replace (is_empty w) with false by by destruct w. simpl.
  unfold render_decimal, canon_sign, canon_whole, canon_fraction.
  destruct (is_empty (trim_end_matches is_zero_char f)); rewrite ?app_nil_r; done.
Qed.

Lemma normalize_decimal_inv s out :
  normalize_decimal s = Ok out -> exists neg w f, decimal_shape s neg w f.
Proof.
  unfold normalize_decimal.
  destruct (match strip_prefix [45] s with Some s0 => _ | None => _ end) as [neg digits] eqn:E.
  intros H. case_if_in H; [done|]. clear H. rewrite !forallb_utf8_digit in E0. to_prop.
  exists neg, (default [] (split_char 46 digits !! 0%nat)), (default [] (split_char 46 digits !! 1%nat)).
  assert (S : exists sign, s = sign ++ digits /\ decimal_sign neg sign).
  { clear - E. destruct (strip_prefix [45] s) eqn:P; apply pair_equal_spec in E as [<- <-].
    - apply strip_prefix_some in P. by exists [45].
    - destruct (strip_prefix [43] s) as [t|] eqn:P'.
      + apply strip_prefix_some in P'. exists [43]. split; [exact P'|by right].
      + exists []. split; [done|by left]. }
  destruct S as (sign & -> & Hs). pose proof (split_char_join 46 digits) as J.
  pose proof (split_char_nonempty 46 digits).
  destruct (split_char 46 digits) as [|w [|f [|g l]]]; [congruence| | |discriminate]; simpl in *.
  - exists sign, []. subst digits. rewrite app_nil_r. repeat split; auto. by destruct w.
  - exists sign, (46 :: f). subst digits. repeat split; auto. by destruct w.
Qed.

Lemma digits_value_zeros p : forallb is_zero_char p = true -> digits_value p = 0.
Proof.
  induction p as [|c p IH] using rev_ind; [done|]. rewrite forallb_app. intros H.
  apply andb_true_iff in H as [A C]. simpl in C. rewrite andb_true_r in C.
  unfold is_zero_char in C. to_prop. rewrite digits_value_app, IH by done. lia.
Qed.

Lemma canon_whole_value w : digits_value (canon_whole w) = digits_value w.
Proof.
  unfold canon_whole, trim_start_matches.
  destruct (drop_while_split is_zero_char w) as (p & E & F).
  apply (f_equal digits_value) in E. rewrite digits_value_concat, (digits_value_zeros p F) in E.
  destruct (drop_while is_zero_char w); simpl; [|lia].
  rewrite E. done.
Qed.

Lemma canon_fraction_value f :
  digits_value f * 10 ^ zlen (canon_fraction f) = digits_value (canon_fraction f) * 10 ^ zlen f.
Proof.
  unfold canon_fraction. destruct (trim_end_matches_split is_zero_char f) as (p & E & F).
  set (t := trim_end_matches is_zero_char f) in *. rewrite E, digits_value_concat, zlen_app.
  rewrite (digits_value_zeros p F), Z.pow_add_r by apply zlen_nonneg. lia.
Qed.

Lemma canon_digits_value w f :
  digits_value (w ++ f) * 10 ^ zlen (canon_fraction f) =
  digits_value (canon_whole w ++ canon_fraction f) * 10 ^ zlen f.
Proof.
  rewrite !digits_value_concat, canon_whole_value. pose proof (canon_fraction_value f). lia.
Qed.

(** Canonical digits are determined by the number. *)
Lemma whole_lower w :
  forallb is_ascii_digit w = true -> (exists c r, w = c :: r /\ c <> 48) ->
  10 ^ (zlen w - 1) <= digits_value w.
Proof.
  intros D (c & r & -> & Hc). change (c :: r) with ([c] ++ r) in *.
  rewrite forallb_app in D. apply andb_true_iff in D as [Dc Dr]. simpl in Dc.
  rewrite andb_true_r in Dc. apply is_ascii_digit_range in Dc.
  rewrite digits_value_concat, zlen_app. pose proof (digits_value_bound r Dr).
  change (zlen [c]) with 1. replace (1 + zlen r - 1) with (zlen r) by lia.
  replace (digits_value [c]) with (c - 48) by (unfold digits_value; simpl; lia). nia.
Qed.

Lemma pow10_le a b : 0 <= a <= b -> 10 ^ a <= 10 ^ b.
Proof. intros. apply Z.pow_le_mono_r; lia. Qed.

Lemma whole_unique w1 w2 :
  forallb is_ascii_digit w1 = true -> forallb is_ascii_digit w2 = true ->
  (w1 = [48] \/ exists c r, w1 = c :: r /\ c <> 48) ->
  (w2 = [48] \/ exists c r, w2 = c :: r /\ c <> 48) ->
  digits_value w1 = digits_value w2 -> w1 = w2.
Proof.
  intros D1 D2 C1 C2 V. pose proof (digits_value_bound _ D1). pose proof (digits_value_bound _ D2).
  assert (P : forall w, (exists c r, w = c :: r /\ c <> 48) -> 0 < 10 ^ (zlen w - 1)).
  { intros w (c & r & -> & _). apply Z.pow_pos_nonneg; [lia|].
    autorewrite with zlen. pose proof (zlen_nonneg r). lia. }
  destruct C1 as [-> | C1], C2 as [-> | C2]; [done|..].
  - pose proof (whole_lower _ D2 C2). pose proof (P _ C2). exfalso.
    unfold digits_value at 1 in V. simpl in V. lia.
  - pose proof (whole_lower _ D1 C1). pose proof (P _ C1). exfalso.
    unfold digits_value at 2 in V. simpl in V. lia.
  - apply digits_value_inj; [done..| |done].
    pose proof (whole_lower _ D1 C1). pose proof (whole_lower _ D2 C2).
    pose proof (zlen_nonneg w1). pose proof (zlen_nonneg w2). unfold zlen in *.
    destruct (lt_eq_lt_dec (length w1) (length w2)) as [[L|L]|L]; [exfalso|done|exfalso].
    + pose proof (pow10_le (Z.of_nat (length w1)) (Z.of_nat (length w2) - 1)). lia.
    + pose proof (pow10_le (Z.of_nat (length w2)) (Z.of_nat (length w1) - 1)). lia.
Qed.

Lemma fraction_not_shorter f1 f2 :
  forallb is_ascii_digit f2 = true -> (forall l c, f2 = l ++ [c] -> c <> 48) ->
  digits_value f1 * 10 ^ zlen f2 = digits_value f2 * 10 ^ zlen f1 ->
  zlen f2 <= zlen f1.
Proof.
  intros D N V. destruct (Z.le_gt_cases (zlen f2) (zlen f1)) as [L|L]; [done|exfalso].
  pose proof (zlen_nonneg f1). destruct f2 as [|c f2 _] using rev_ind; [unfold zlen in L; simpl in L; lia|].
  specialize (N f2 c eq_refl). rewrite forallb_app in D. simpl in D.
  rewrite andb_true_r in D. apply andb_true_iff in D as [_ Dc]. apply is_ascii_digit_range in Dc.
  set (n2 := zlen (f2 ++ [c])) in *. rewrite digits_value_app in V.
  replace n2 with (zlen f1 + (1 + (n2 - zlen f1 - 1))) in V by lia.
  rewrite !Z.pow_add_r in V by lia. change (10 ^ 1) with 10 in V.
  assert (0 < 10 ^ zlen f1) by (apply Z.pow_pos_nonneg; lia).
  assert (V' : digits_value f1 * (10 * 10 ^ (n2 - zlen f1 - 1)) = digits_value f2 * 10 + (c - 48)) by nia.
  pose proof (Z.mod_mul (digits_value f1 * 10 ^ (n2 - zlen f1 - 1) - digits_value f2) 10).
  replace ((digits_value f1 * 10 ^ (n2 - zlen f1 - 1) - digits_value f2) * 10) with (c - 48) in * by lia.
  rewrite Z.mod_small in *; lia.
Qed.

Lemma canonical_unique n1 w1 f1 n2 w2 f2 :
  canonical_digits n1 w1 f1 -> canonical_digits n2 w2 f2 ->
  same_number n1 w1 f1 n2 w2 f2 -> n1 = n2 /\ w1 = w2 /\ f1 = f2.
Proof.
  intros (W1 & F1 & C1 & L1 & N1) (W2 & F2 & C2 & L2 & N2) S. unfold same_number in S.
  pose proof (digits_value_bound _ W1). pose proof (digits_value_bound _ W2).
  pose proof (digits_value_bound _ F1) as B1. pose proof (digits_value_bound _ F2) as B2.
  assert (0 < 10 ^ zlen f1 /\ 0 < 10 ^ zlen f2) as [P1 P2] by lia.
  rewrite !digits_value_concat in S.
  set (v1 := digits_value w1) in *. set (v2 := digits_value w2) in *.
  set (g1 := digits_value f1) in *. set (g2 := digits_value f2) in *.
  set (p1 := 10 ^ zlen f1) in *. set (p2 := 10 ^ zlen f2) in *.
  assert (M : (v1 * p1 + g1) * p2 = (v2 * p2 + g2) * p1 -> w1 = w2 /\ f1 = f2).
  { intros M.
    assert (v1 = v2 /\ g1 * p2 = g2 * p1) as [V G].
    { apply (Z.div_mod_unique (p1 * p2)); [left; nia..|].
      transitivity ((v1 * p1 + g1) * p2); [ring|]. rewrite M. ring. }
    split; [by apply whole_unique|].
    pose proof (fraction_not_shorter f1 f2 F2 L2 G).
    pose proof (fraction_not_shorter f2 f1 F1 L1 (eq_sym G)).
    apply digits_value_inj; [done..|unfold zlen in *; lia|].
    assert (p1 = p2) as Ep by (unfold p1, p2; f_equal; lia). rewrite Ep in G.
    apply Z.mul_reg_r in G; [done|lia]. }
  assert (Z0 : forall w f, (w = [48] \/ exists c r, w = c :: r /\ c <> 48) ->
            forallb is_ascii_digit w = true -> forallb is_ascii_digit f = true ->
            (forall l c, f = l ++ [c] -> c <> 48) ->
            digits_value w = 0 -> digits_value f = 0 -> w = [48] /\ f = []).
  { intros w f Cw Dw Df Lf Vw Vf. split.
    - apply whole_unique; auto.
    - assert (zlen f <= zlen (@nil Z)) by (apply fraction_not_shorter; auto; rewrite Vf; done).
      destruct f; [done|]. autorewrite with zlen in *. pose proof (zlen_nonneg f). lia. }
  destruct n1, n2; simpl in S.
  - destruct M; [lia|auto].
  - exfalso. apply (N1 eq_refl). apply Z0; auto; fold v1 g1; nia.
  - exfalso. apply (N2 eq_refl). apply Z0; auto; fold v2 g2; nia.
  - destruct M; [lia|auto].
Qed.

Lemma canonical_canon neg w f :
  w <> [] -> forallb is_ascii_digit w = true -> forallb is_ascii_digit f = true ->
  canonical_digits (canon_sign neg (canon_whole w) (canon_fraction f))
    (canon_whole w) (canon_fraction f).
Proof.
  intros Hw Dw Df. split; [|split; [|split; [|split]]].
  - unfold canon_whole. case_match; [done|]. by apply drop_while_forallb.
  - by apply trim_end_matches_forallb.
  - unfold canon_whole, trim_start_matches. destruct (drop_while is_zero_char w) eqn:E; [by left|].
    right. eexists _, _. split; [done|]. apply drop_while_head in E.
    unfold is_zero_char in E. by to_prop.
  - intros l c E. apply trim_end_matches_last in E. unfold is_zero_char in E. by to_prop.
  - unfold canon_sign. intros H [E1 E2]. rewrite E1, E2, str_eqb_refl in H. simpl in H.
    by rewrite andb_false_r in H.
Qed.

Lemma canonical_fixed neg w f :
  canonical_digits neg w f ->
  canon_whole w = w /\ canon_fraction f = f /\ canon_sign neg w f = neg.
Proof.
  intros (Dw & Df & Cw & Lf & N). split; [|split].
  - unfold canon_whole, trim_start_matches. destruct Cw as [-> |(c & r & -> & Hc)]; [done|].
    by rewrite drop_while_id by (unfold is_zero_char; by apply Z.eqb_neq).
  - unfold canon_fraction. destruct (trim_end_matches_split is_zero_char f) as (p & E & F).
    destruct p as [|c p _] using rev_ind; [by rewrite app_nil_r in E|].
    rewrite forallb_app in F. simpl in F. rewrite andb_true_r in F.
    apply andb_true_iff in F as [_ F]. unfold is_zero_char in F. to_prop.
    rewrite app_assoc in E. by apply Lf in E.
  - unfold canon_sign. destruct neg; [|done]. simpl.
    destruct (str_eqb w [48]) eqn:E; [|done]. apply str_eqb_eq in E.
    destruct f; [|done]. by destruct N.
Qed.

Lemma canonical_shape neg w f :
  canonical_digits neg w f -> decimal_shape (render_decimal neg w f) neg w f.
Proof.
  intros (Dw & Df & Cw & _). unfold render_decimal.
  exists (if neg then [45] else []), (if is_empty f then [] else 46 :: f).
  split; [done|]. split; [destruct neg; [done|by left]|].
  split; [by destruct Cw as [-> |(c & r & -> & _)]|].
  split; [done|]. split; [done|]. destruct f; [by left|by right].
Qed.

Lemma render_canonical neg w f :
  canonical_digits neg w f -> normalize_decimal (render_decimal neg w f) = Ok (render_decimal neg w f).
Proof.
  intros C. rewrite (normalize_decimal_shape _ _ _ _ (canonical_shape _ _ _ C)).
  apply canonical_fixed in C as (-> & -> & ->). done.
Qed.

Lemma decimal_shape_unique s n1 w1 f1 n2 w2 f2 :
  decimal_shape s n1 w1 f1 -> decimal_shape s n2 w2 f2 -> n1 = n2 /\ w1 = w2 /\ f1 = f2.
Proof.
  intros (s1 & r1 & E1 & S1 & W1 & D1 & F1 & R1) (s2 & r2 & E2 & S2 & W2 & D2 & F2 & R2).
  destruct (decimal_split n1 s1 w1 r1 f1 S1 W1 D1 F1 R1) as [P1 Q1].
  destruct (decimal_split n2 s2 w2 r2 f2 S2 W2 D2 F2 R2) as [P2 Q2].
  cbn zeta in *. rewrite <- E1 in P1. rewrite <- E2 in P2. rewrite P1 in P2.
  apply pair_equal_spec in P2 as [-> E]. rewrite E, Q2 in Q1. split; [done|].
  destruct R1 as [[-> ->] | ->], R2 as [[-> ->] | ->]; simpl in Q1; by simplify_eq.
Qed.

Lemma canon_same_number neg w f :
  same_number neg w f (canon_sign neg (canon_whole w) (canon_fraction f))
    (canon_whole w) (canon_fraction f).
Proof.
  unfold same_number. pose proof (canon_digits_value w f) as V.
  destruct neg; [|exact V]. unfold canon_sign.
  destruct (_ || _) eqn:E; simpl; [lia|].
  to_prop. apply str_eqb_eq in H. destruct (canon_fraction f) eqn:Ef; [|done].
  rewrite H in *. unfold digits_value at 2 in V. unfold digits_value at 2. simpl in *. lia.
Qed.

Lemma same_number_sym n1 w1 f1 n2 w2 f2 :
  same_number n1 w1 f1 n2 w2 f2 -> same_number n2 w2 f2 n1 w1 f1.
Proof. unfold same_number. lia. Qed.

Lemma same_number_trans n1 w1 f1 n2 w2 f2 n3 w3 f3 :
  same_number n1 w1 f1 n2 w2 f2 -> same_number n2 w2 f2 n3 w3 f3 -> same_number n1 w1 f1 n3 w3 f3.
Proof.
  unfold same_number. intros H1 H2.
  assert (0 < 10 ^ zlen f2) by (apply Z.pow_pos_nonneg; [lia|apply zlen_nonneg]).
  apply (Z.mul_reg_r _ _ (10 ^ zlen f2)); [lia|].
  transitivity (signed n1 (digits_value (w1 ++ f1)) * 10 ^ zlen f2 * 10 ^ zlen f3); [ring|].
  rewrite H1.
  transitivity (signed n2 (digits_value (w2 ++ f2)) * 10 ^ zlen f3 * 10 ^ zlen f1); [ring|].
  rewrite H2. ring.
Qed.

(** Normal forms are equal exactly for texts of the same number. *)
Lemma normalize_decimal_eq_iff s1 s2 x1 x2 n1 w1 f1 n2 w2 f2 :
  normalize_decimal s1 = Ok x1 -> normalize_decimal s2 = Ok x2 ->
  decimal_shape s1 n1 w1 f1 -> decimal_shape s2 n2 w2 f2 ->
  x1 = x2 <-> same_number n1 w1 f1 n2 w2 f2.
Proof.
  intros E1 E2 S1 S2. rewrite (normalize_decimal_shape _ _ _ _ S1) in E1.
  rewrite (normalize_decimal_shape _ _ _ _ S2) in E2. injection E1 as <-. injection E2 as <-.
  destruct S1 as (? & ? & _ & _ & W1 & D1 & F1 & _), S2 as (? & ? & _ & _ & W2 & D2 & F2 & _).
  pose proof (canonical_canon n1 w1 f1 W1 D1 F1) as C1.
  pose proof (canonical_canon n2 w2 f2 W2 D2 F2) as C2.
  pose proof (canon_same_number n1 w1 f1) as V1. pose proof (canon_same_number n2 w2 f2) as V2.
  split; intros H.
  - pose proof (canonical_shape _ _ _ C1) as R1. rewrite H in R1.
    destruct (decimal_shape_unique _ _ _ _ _ _ _ R1 (canonical_shape _ _ _ C2)) as (A & B & C).
    rewrite A, B, C in V1. eapply same_number_trans; [exact V1|]. by apply same_number_sym.
  - apply same_number_sym in V1.
    destruct (canonical_unique _ _ _ _ _ _ C1 C2) as (-> & -> & ->); [|done].
    eauto using same_number_trans.
Qed.

Lemma normalize_decimal_fixed s x : normalize_decimal s = Ok x -> normalize_decimal x = Ok x.
Proof.
  intros E. destruct (normalize_decimal_inv _ _ E) as (n & w & f & S1).
  rewrite (normalize_decimal_shape _ _ _ _ S1) in E. apply Ok_inj in E as <-.
  destruct S1 as (? & ? & _ & _ & W & Dw & Df & _). by apply render_canonical, canonical_canon.
Qed.

Lemma digit_scalar c : is_ascii_digit c = true -> is_scalar c = true.
Proof.
  intros H. apply is_ascii_digit_range in H. apply is_ascii_scalar. unfold is_ascii.
  apply andb_true_iff. rewrite Z.leb_le, Z.ltb_lt. lia.
Qed.

Lemma digits_wf s : forallb is_ascii_digit s = true -> wf_str s.
Proof.
  rewrite forallb_true_iff. intros H. apply list.Forall_forall. intros c Hc.
  by apply digit_scalar, H.
Qed.

Lemma normalize_decimal_wf s x : normalize_decimal s = Ok x -> wf_str x.
Proof.
  intros E. destruct (normalize_decimal_inv _ _ E) as (n & w & f & S).
  rewrite (normalize_decimal_shape _ _ _ _ S) in E. injection E as <-.
  destruct S as (? & ? & _ & _ & W & Dw & Df & _).
  destruct (canonical_canon n w f W Dw Df) as (Dw' & Df' & _). unfold render_decimal.
  repeat apply Forall_app_2; [by case_match; repeat constructor|by apply digits_wf|].
  case_match; [constructor|]. constructor; [done|by apply digits_wf].
Qed.

Lemma zlen_utf8_digits s : forallb is_ascii_digit s = true -> str_len s = zlen s.
Proof.
  induction s as [|c s IH]; [done|]. simpl. intros H. apply andb_true_iff in H as [Hc Hs].
  apply is_ascii_digit_range in Hc. rewrite str_len_cons, zlen_cons, IH by done.
  unfold utf8_char. by rewrite (proj2 (Z.ltb_lt c 0x80)) by lia.
Qed.

(** Normalisation never lengthens a text. *)
Lemma normalize_decimal_length s x : normalize_decimal s = Ok x -> str_len x <= str_len s.
Proof.
  intros E. destruct (normalize_decimal_inv _ _ E) as (n & w & f & S).
  rewrite (normalize_decimal_shape _ _ _ _ S) in E. injection E as <-.
  destruct S as (sign & rest & -> & Hs & W & Dw & Df & Hr).
  destruct (canonical_canon n w f W Dw Df) as (Dw' & Df' & _). unfold render_decimal.
  rewrite !str_len_app, (zlen_utf8_digits w), (zlen_utf8_digits (canon_whole w)) by done.
  assert (zlen (canon_whole w) <= zlen w).
  { unfold canon_whole, trim_start_matches. pose proof (drop_while_length is_zero_char w).
    case_match; [|done]. destruct w; [done|]. autorewrite with zlen in *.
    pose proof (zlen_nonneg w). change (zlen [48]) with 1. lia. }
  assert (str_len (if canon_sign n (canon_whole w) (canon_fraction f) then [45] else []) <= str_len sign).
  { unfold canon_sign. destruct n; simpl in *; [subst|apply str_len_nonneg].
    case_match; [done|apply str_len_nonneg]. }
  assert (str_len (if is_empty (canon_fraction f) then [] else 46 :: canon_fraction f) <= str_len rest).
  { pose proof (trim_end_matches_length is_zero_char f) as L. fold (canon_fraction f) in L.
    destruct Hr as [[-> ->] | ->]; [done|].
    destruct (is_empty (canon_fraction f)); [apply str_len_nonneg|].
    rewrite !str_len_cons, !zlen_utf8_digits by done. lia. }
  lia.
Qed.

(** ** The canonical encoding *)

Lemma value_canonical_raw v b : value_canonical_bytes v = Ok b -> b = raw_value (norm_value v).
Proof.
  destruct v; simpl; intros H; try by injection H as <-.
  inv_ok. by rewrite Hx.
Qed.

Lemma values_bytes_raw vs b : values_bytes vs = Ok b -> b = raw_values (map norm_value vs).
Proof.
  unfold values_bytes. intros H. inv_ok. apply traverse_ok_inv in Hx.
  unfold raw_values. rewrite zlen_map, map_map. f_equal. f_equal.
  induction Hx as [|v b vs bs Hv _ IH]; [done|]. cbn [map].
  by rewrite (value_canonical_raw _ _ Hv), IH.
Qed.

Definition raw_key (r : CanonicalRow) : bytes := field (utf8 (table r)) ++ raw_values (key r).

Lemma key_bytes_raw r b : key_bytes r = Ok b -> b = raw_key (norm_row r).
Proof. unfold key_bytes. intros H. inv_ok. by apply values_bytes_raw in Hx as ->. Qed.

Lemma canonical_bytes_raw r b : canonical_bytes r = Ok b -> b = raw_row (norm_row r).
Proof.
  unfold canonical_bytes. intros H. inv_ok. apply key_bytes_raw in Hx as ->.
  apply values_bytes_raw in Hx0 as ->. unfold raw_key, raw_row. by rewrite <- app_assoc.
Qed.

Lemma norm_value_wf v : wf_value v -> wf_value (norm_value v).
Proof.
  destruct v; simpl; auto. intros W. destruct (normalize_decimal v) eqn:E; [|done].
  by eapply normalize_decimal_wf.
Qed.

Lemma norm_value_canonical v b : value_canonical_bytes v = Ok b ->
  value_canonical_bytes (norm_value v) = Ok b /\ norm_value (norm_value v) = norm_value v.
Proof.
  destruct v as [| | | |d| | | | | |]; intros E; try done. cbn [value_canonical_bytes norm_value] in *.
  apply rbind_ok_inv in E as (x & Hx & E). rewrite Hx. rewrite (normalize_decimal_fixed _ _ Hx). done.
Qed.

Lemma traverse_norm vs bs : traverse value_canonical_bytes vs = Ok bs ->
  traverse value_canonical_bytes (map norm_value vs) = Ok bs /\ map norm_value (map norm_value vs) = map norm_value vs.
Proof.
  revert bs. induction vs as [|v vs IH]; intros bs E; [done|]. cbn [traverse map] in *.
  apply rbind_ok_inv in E as (b & Hb & E). apply rbind_ok_inv in E as (bs' & Hbs & E).
  destruct (norm_value_canonical v b Hb) as [-> N], (IH _ Hbs) as [E1 N1]. cbn [rbind]. rewrite E1. cbn [rbind].
  split; [done|]. by rewrite N, N1.
Qed.

(** The normal form of a row encodes as the row, and is its own normal form. *)
Lemma norm_row_canonical r b : canonical_bytes r = Ok b ->
  canonical_bytes (norm_row r) = Ok b /\ norm_row (norm_row r) = norm_row r.
Proof.
  intros E. unfold canonical_bytes, key_bytes, values_bytes in *.
  apply rbind_ok_inv in E as (k & K & E). apply rbind_ok_inv in K as (k1 & K1 & K). apply rbind_ok_inv in K1 as (ek & Ek & K1).
  apply rbind_ok_inv in E as (v & V & E). apply rbind_ok_inv in V as (ev & Ev & V).
  destruct (traverse_norm _ _ Ek) as [F1 N1], (traverse_norm _ _ Ev) as [F2 N2].
  unfold norm_row in *. cbn [key values table] in *. rewrite F1, F2, N1, N2. split; [|done]. rewrite !zlen_map.
  cbn [rbind]. apply Ok_inj in K1, K, V, E. subst. done.
Qed.

Lemma norm_row_wf r : wf_row r -> wf_row (norm_row r).
Proof.
  intros (T & K & V). split; [done|]. split; apply list.Forall_fmap;
    (eapply list.Forall_impl; [eassumption|exact norm_value_wf]).
Qed.

Lemma decode_row_raw_inv b r :
  Forall byte_range b -> zlen b <= usize_max -> decode_row b = Ok r -> b = raw_row r /\ wf_row r.
Proof.
  intros B L H. unfold decode_row in H. inv_ok. destruct x as [t r1]. inv_ok.
  destruct x as [k r2]. inv_ok. destruct x as [v r3]. case_if_in H; [done|]. inv_ok. to_prop.
  apply (r_string_inv _ b) in Hx as (b1 & -> & Wt & R1 & D1); [|done|by apply reads_start].
  apply Forall_app in B as [_ B].
  apply (r_values_inv _ b1) in Hx0 as (b2 & -> & Wk & R2 & D2); [|done..].
  apply Forall_app in B as [_ B].
  apply (r_values_inv _ b2) in Hx1 as (b3 & -> & Wv & R3 & D3); [|done..].
  rewrite (reads_stop _ b3 R3), app_nil_r by (rewrite D3, D2, D1; done). done.
Qed.

Lemma raw_key_reads r rest rd :
  wf_str (table r) -> Forall wf_value (key r) -> reads rd (raw_key r ++ rest) ->
  exists r1 r2, r_string rd = Ok (table r, r1) /\ r_values r1 = Ok (key r, r2) /\ reads r2 rest /\
    data r2 = data rd.
Proof.
  intros T K R. unfold raw_key in R. rewrite <- app_assoc in R.
  apply r_string_reads in R as (r1 & E1 & R & D1); [|done].
  apply r_values_raw in R as (r2 & E2 & R & D2); [|done].
  exists r1, r2. repeat split; [done..|congruence].
Qed.

Lemma raw_key_prefix r1 r2 x y :
  wf_row r1 -> wf_row r2 -> zlen (raw_key r1 ++ x) <= usize_max ->
  raw_key r1 ++ x = raw_key r2 ++ y -> table r1 = table r2 /\ key r1 = key r2 /\ x = y.
Proof.
  intros (T1 & K1 & _) (T2 & K2 & _) L E. pose proof (reads_start _ L) as R.
  destruct (raw_key_reads r1 x _ T1 K1 R) as (a1 & b1 & A1 & B1 & R1 & D1).
  rewrite E in R at 2. destruct (raw_key_reads r2 y _ T2 K2 R) as (a2 & b2 & A2 & B2 & R2 & D2).
  rewrite A1 in A2. apply Ok_inj, pair_equal_spec in A2 as [Et <-].
  rewrite B1 in B2. apply Ok_inj, pair_equal_spec in B2 as [Ek <-].
  split; [done|]. split; [done|].
  destruct R1 as (p1 & Q1 & P1 & _), R2 as (p2 & Q2 & P2 & _).
  rewrite Q1 in Q2. apply app_inj_1 in Q2 as [_ ->]; [done|]. unfold zlen in *. lia.
Qed.

(** ** Sizes *)

Lemma sat_add_ge a b c : c <= a + b -> c <= u64_max -> c <= sat_add a b.
Proof. unfold sat_add. lia. Qed.

Lemma value_encoded_size_bound v b :
  wf_value v -> value_canonical_bytes v = Ok b -> zlen b <= u64_max -> zlen b <= value_encoded_size v.
Proof.
  destruct v; cbn [value_canonical_bytes value_encoded_size wf_value]; intros W H L;
    inv_ok; autorewrite with zlen in L |- *; try done;
    try (apply sat_add_ge; unfold str_len; lia).
  - apply normalize_decimal_length in Hx. unfold str_len in Hx.
    apply sat_add_ge; unfold str_len; lia.
  - pose proof (zlen_nonneg (utf8 value)). unfold str_len, sat_add. lia.
  - lia.
Qed.

Lemma value_encoded_size_nonneg v : 0 <= value_encoded_size v.
Proof.
  destruct v; simpl; try lia; unfold sat_add, u64_max; try pose proof (str_len_nonneg v);
    try pose proof (zlen_nonneg v); try lia.
  pose proof (str_len_nonneg kind). pose proof (str_len_nonneg value). lia.
Qed.

Lemma values_encoded_bound vs enc n m :
  Forall wf_value vs -> Forall2 (fun v b => value_canonical_bytes v = Ok b) vs enc ->
  0 <= n <= m -> n + zlen (concat (map field enc)) <= u64_max ->
  n + zlen (concat (map field enc)) <=
    fold_left (fun n v => sat_add (sat_add n 8) (value_encoded_size v)) vs m.
Proof.
  intros W F. revert n m W. induction F as [|v b vs enc Hv _ IH]; intros n m W Hn L.
  - simpl. rewrite zlen_nil in *. lia.
  - inversion_clear W as [|? ? Wv W']. cbn [map concat fold_left] in *.
    autorewrite with zlen in *. pose proof (zlen_nonneg (concat (map field enc))).
    pose proof (zlen_nonneg b).
    pose proof (value_encoded_size_bound v b Wv Hv ltac:(lia)) as Sv.
    replace (n + (8 + zlen b + zlen (concat (map field enc)))) with
      (n + 8 + zlen b + zlen (concat (map field enc))) in * by lia.
    apply IH; [done| |lia]. unfold sat_add. lia.
Qed.

Lemma canonical_bytes_parts r b :
  canonical_bytes r = Ok b ->
  exists ek ev, Forall2 (fun v b => value_canonical_bytes v = Ok b) (key r) ek /\
    Forall2 (fun v b => value_canonical_bytes v = Ok b) (values r) ev /\
    zlen b = 24 + str_len (table r) + zlen (concat (map field (ek ++ ev))).
Proof.
  unfold canonical_bytes, key_bytes, values_bytes. intros H. inv_ok.
  repeat match goal with H : traverse _ _ = Ok _ |- _ => apply traverse_ok_inv in H end.
  eexists _, _. split; [eassumption|]. split; [eassumption|].
  rewrite map_app, concat_app. autorewrite with zlen. unfold str_len. lia.
Qed.

(** ** Properties *)

(** C30: what the snapshot stores is read back unchanged: decoding the
    canonical bytes of a row gives the row, with each exact decimal replaced
    by its normal form. *)
Theorem decode_canonical r b :
  wf_row r -> canonical_bytes r = Ok b -> zlen b <= usize_max -> decode_row b = Ok (norm_row r).
Proof.
  intros W E L. apply canonical_bytes_raw in E as ->.
  apply decode_raw_row; [by apply norm_row_wf|done].
Qed.

(** The decoder accepts exactly the encodings of well-typed rows: no
    trailing bytes, no second spelling of a row, no ill-formed text. *)
Theorem decode_row_iff b r :
  Forall byte_range b -> zlen b <= usize_max ->
  decode_row b = Ok r <-> b = raw_row r /\ wf_row r.
Proof.
  intros B L. split.
  - by apply decode_row_raw_inv.
  - intros [-> W]. by apply decode_raw_row.
Qed.

(** Key bytes identify the key: if the key bytes of one row are a prefix
    of those of another (in particular if they are equal), the rows have the
    same table and the same normalised key. *)
Theorem key_bytes_injective r1 r2 k1 k2 x :
  wf_row r1 -> wf_row r2 -> key_bytes r1 = Ok k1 -> key_bytes r2 = Ok k2 ->
  zlen k2 <= usize_max -> k1 ++ x = k2 ->
  table r1 = table r2 /\ map norm_value (key r1) = map norm_value (key r2) /\ x = [].
Proof.
  intros W1 W2 E1 E2 L E. apply key_bytes_raw in E1, E2. subst k1.
  pose proof (raw_key_prefix (norm_row r1) (norm_row r2) x []) as P.
  rewrite app_nil_r, <- E2, E in P. destruct P as (T & K & X); auto using norm_row_wf.
Qed.

(** Two decimal texts normalise to the same text exactly when they denote
    the same number (arbitrary precision, no floating point), and normal
    forms are fixed points. *)
Theorem normalize_decimal_canonical s1 s2 x1 x2 :
  normalize_decimal s1 = Ok x1 -> normalize_decimal s2 = Ok x2 ->
  exists n1 w1 f1 n2 w2 f2,
    decimal_shape s1 n1 w1 f1 /\ decimal_shape s2 n2 w2 f2 /\
    (x1 = x2 <-> same_number n1 w1 f1 n2 w2 f2) /\ normalize_decimal x1 = Ok x1.
Proof.
  intros E1 E2. destruct (normalize_decimal_inv _ _ E1) as (n1 & w1 & f1 & S1).
  destruct (normalize_decimal_inv _ _ E2) as (n2 & w2 & f2 & S2).
  exists n1, w1, f1, n2, w2, f2. split; [done|]. split; [done|].
  split; [by eapply normalize_decimal_eq_iff|].
  rewrite (normalize_decimal_shape _ _ _ _ S1) in E1. apply Ok_inj in E1 as <-.
  destruct S1 as (? & ? & _ & _ & W & Dw & Df & _). by apply render_canonical, canonical_canon.
Qed.

(** The size used for budget checks before encoding bounds the encoding:
    a row admitted by [encoded_size] never encodes to more bytes. *)
Theorem encoded_size_bounds_encoding r b :
  wf_row r -> canonical_bytes r = Ok b -> zlen b <= usize_max -> zlen b <= encoded_size r.
Proof.
  intros (_ & Wk & Wv) E L. destruct (canonical_bytes_parts r b E) as (ek & ev & Fk & Fv & Z).
  unfold usize_max in L. rewrite Z in *. pose proof (zlen_nonneg (concat (map field (ek ++ ev)))).
  pose proof (str_len_nonneg (table r)).
  apply values_encoded_bound; [by apply Forall_app| |unfold sat_add; lia|done].
  by apply Forall2_app.
Qed.

(** *** Witnesses *)

Definition sample_row : CanonicalRow :=
  mkRow (u "t") [VInt (-1); VText (u "é")] [VDecimal (u "-01.50"); VBinary [0; 255]; VNull].
Definition sample_bytes : bytes := raw_row (norm_row sample_row).

Lemma sample_wf : wf_row sample_row.
Proof. repeat split; repeat constructor; vm_compute; intuition congruence. Qed.

Lemma decode_canonical_witness : decode_row sample_bytes = Ok (norm_row sample_row).
Proof.
  apply (decode_canonical sample_row); [apply sample_wf|vm_compute; reflexivity|].
  vm_compute. congruence.
Defined.

Lemma decode_row_iff_witness :
  decode_row sample_bytes = Ok (norm_row sample_row) <->
  sample_bytes = raw_row (norm_row sample_row) /\ wf_row (norm_row sample_row).
Proof.
  apply decode_row_iff; [|vm_compute; congruence].
  apply (bool_decide_unpack (Forall byte_range sample_bytes)). vm_compute. exact I.
Defined.

Lemma key_bytes_injective_witness :
  table sample_row = table sample_row /\
  map norm_value (key sample_row) = map norm_value (key sample_row) /\ ([] : bytes) = [].
Proof.
  apply (key_bytes_injective sample_row sample_row
           (raw_key (norm_row sample_row)) (raw_key (norm_row sample_row)));
    [apply sample_wf|apply sample_wf|vm_compute; reflexivity|vm_compute; reflexivity|
     vm_compute; congruence|apply app_nil_r].
Defined.

Lemma normalize_decimal_canonical_witness :
  exists n1 w1 f1 n2 w2 f2,
    decimal_shape (u "-01.50") n1 w1 f1 /\ decimal_shape (u "-1.5") n2 w2 f2 /\
    (u "-1.5" = u "-1.5" <-> same_number n1 w1 f1 n2 w2 f2) /\
    normalize_decimal (u "-1.5") = Ok (u "-1.5").
Proof. apply normalize_decimal_canonical; vm_compute; reflexivity. Defined.

Lemma encoded_size_bounds_encoding_witness :
  zlen sample_bytes <= encoded_size sample_row.
Proof.
  apply encoded_size_bounds_encoding; [apply sample_wf|vm_compute; reflexivity|].
  vm_compute. congruence.
Defined.

End Values.
