(* ===== verification/DataTypes.v ===== *)
(** The data-task protocol types (src-tauri/src/models/data_tasks.rs) and the
    [DatabaseType] of src-tauri/src/models/types.rs, with the request
    validation.

    Field names carry a short prefix naming their struct.  Row counters travel
    as decimal strings, as in the source. *)
From S2P Require Import Prelude RustText.

Module DataTypes.

(** ** Data *)

Inductive DatabaseType : Type := MySql | Postgres | Sqlite | SqlServer | ClickHouse.

Definition PROTOCOL_VERSION : Z := 1.

Record DataEndpoint : Type := mkEndpoint { ep_saved_connection_id : str; ep_database : str }.

Inductive DataTaskKind : Type := RowSync | Transfer.
Inductive DataTaskMode : Type := Merge | Mirror | Append | Replace.

Record ColumnMapping : Type := mkColumnMapping { cm_source_column : str; cm_target_column : str }.
Record TableMapping : Type := mkTableMapping {
  tm_source_table : str; tm_target_table : str; tm_columns : list ColumnMapping }.

Record DataTaskRequest : Type := mkRequest {
  rq_protocol_version : Z;
  rq_kind : DataTaskKind;
  rq_source : DataEndpoint;
  rq_target : DataEndpoint;
  rq_mappings : list TableMapping;
  rq_mode : DataTaskMode;
}.

Record DataTaskError : Type := mkError { err_code : str; err_message : str }.

Record DataTaskBlocker : Type := mkBlocker {
  bl_code : str; bl_message : str; bl_table : option str }.
Record DataTaskObject : Type := mkObject { ob_table : str; ob_columns : list str }.
Record DataTaskCapabilities : Type := mkCapabilities {
  cap_row_sync : bool;
  cap_transfer : bool;
  cap_supported_modes : list DataTaskMode;
  cap_blockers : list DataTaskBlocker;
  cap_source_tables : list DataTaskObject;
  cap_target_tables : list DataTaskObject;
}.
Record DataTaskRisk : Type := mkRisk { rk_id : str; rk_message : str; rk_required : bool }.

Record DataTaskCounts : Type := mkCounts {
  ct_source_rows : str; ct_target_rows : str; ct_inserted : str; ct_updated : str;
  ct_deleted : str; ct_unchanged : str; ct_retained : str; ct_written : str; ct_verified : str }.
Definition default_counts : DataTaskCounts :=
  let z := u "0" in mkCounts z z z z z z z z z.

Record DataTablePreview : Type := mkTablePreview {
  tp_table_id : str; tp_source_table : str; tp_target_table : str; tp_counts : DataTaskCounts }.

Record DataTaskPreview : Type := mkPreview {
  pv_task_id : str;
  pv_plan_id : str;
  pv_fingerprint : str;
  pv_source : DataEndpoint;
  pv_target : DataEndpoint;
  pv_kind : DataTaskKind;
  pv_mode : DataTaskMode;
  pv_tables : list DataTablePreview;
  pv_source_captured_at : str;
  pv_target_captured_at : str;
  pv_expires_at : str;
  pv_risks : list DataTaskRisk;
  pv_blockers : list DataTaskBlocker;
  pv_can_execute : bool;
  pv_sql_examples : list str;
}.

Inductive DataDiffOperation : Type := Insert | Update | Delete | Retain.
Record DataValuePreview : Type := mkValuePreview {
  vp_value_type : str; vp_display : str; vp_original_bytes : str; vp_truncated : bool }.
Record DataColumnDiff : Type := mkColumnDiff {
  cd_column : str; cd_old : option DataValuePreview; cd_new : option DataValuePreview }.
Record DataDiffItem : Type := mkDiffItem {
  di_operation : DataDiffOperation; di_key : list DataValuePreview; di_changes : list DataColumnDiff }.
Record DataDiffPage : Type := mkDiffPage {
  dp_plan_id : str; dp_table_id : str; dp_items : list DataDiffItem; dp_next_cursor : option str }.

Record ExecuteDataTaskInput : Type := mkExecute {
  ex_plan_id : str; ex_fingerprint : str; ex_execution_id : str; ex_accepted_risk_ids : list str }.

Inductive DataTaskStatus : Type :=
| Created | Validating | Reading | Comparing | Ready | Executing | Verifying | Committing
| Cancelling | Succeeded | Failed | Cancelled | Expired | Interrupted | OutcomeUnknown | Partial.

Definition is_terminal (s : DataTaskStatus) : bool :=
  match s with
  | Succeeded | Failed | Cancelled | Expired | Interrupted | OutcomeUnknown | Partial => true
  | _ => false
  end.

Inductive DataCommitState : Type := CsNone | CsCommitted | CsRolledBack | CsUnknown | CsPartial.

Record DataTaskResult : Type := mkResult {
  rs_status : DataTaskStatus;
  rs_commit_state : DataCommitState;
  rs_tables : list DataTablePreview;
  rs_error : option DataTaskError;
  rs_cleanup_errors : list str;
  rs_requires_target_refresh : bool;
}.

Record DataTaskSnapshot : Type := mkSnapshot {
  sn_task_id : str;
  sn_execution_id : option str;
  sn_sequence : str;
  sn_status : DataTaskStatus;
  sn_request : DataTaskRequest;
  sn_created_at : str;
  sn_updated_at : str;
  sn_read_rows : str;
  sn_written_rows : str;
  sn_verified_rows : str;
  sn_bytes : str;
  sn_elapsed_ms : str;
  sn_preview : option DataTaskPreview;
  sn_result : option DataTaskResult;
}.

(** The derived [PartialEq]s. *)
#[export] Instance DatabaseType_eq_dec : EqDecision DatabaseType.
Proof. solve_decision. Defined.
#[export] Instance DataEndpoint_eq_dec : EqDecision DataEndpoint.
Proof. solve_decision. Defined.
#[export] Instance DataTaskKind_eq_dec : EqDecision DataTaskKind.
Proof. solve_decision. Defined.
#[export] Instance DataTaskMode_eq_dec : EqDecision DataTaskMode.
Proof. solve_decision. Defined.
#[export] Instance ColumnMapping_eq_dec : EqDecision ColumnMapping.
Proof. solve_decision. Defined.
#[export] Instance TableMapping_eq_dec : EqDecision TableMapping.
Proof. solve_decision. Defined.
#[export] Instance DataTaskRequest_eq_dec : EqDecision DataTaskRequest.
Proof. solve_decision. Defined.
#[export] Instance ExecuteDataTaskInput_eq_dec : EqDecision ExecuteDataTaskInput.
Proof. solve_decision. Defined.
#[export] Instance DataTaskStatus_eq_dec : EqDecision DataTaskStatus.
Proof. solve_decision. Defined.
#[export] Instance DataCommitState_eq_dec : EqDecision DataCommitState.
Proof. solve_decision. Defined.
#[export] Instance DataDiffOperation_eq_dec : EqDecision DataDiffOperation.
Proof. solve_decision. Defined.

#[export] Instance DataTaskError_eq_dec : EqDecision DataTaskError.
Proof. solve_decision. Defined.
#[export] Instance DataTaskBlocker_eq_dec : EqDecision DataTaskBlocker.
Proof. solve_decision. Defined.
#[export] Instance DataTaskRisk_eq_dec : EqDecision DataTaskRisk.
Proof. solve_decision. Defined.
#[export] Instance DataTaskCounts_eq_dec : EqDecision DataTaskCounts.
Proof. solve_decision. Defined.
#[export] Instance DataTablePreview_eq_dec : EqDecision DataTablePreview.
Proof. solve_decision. Defined.
#[export] Instance DataTaskPreview_eq_dec : EqDecision DataTaskPreview.
Proof. solve_decision. Defined.
#[export] Instance DataTaskResult_eq_dec : EqDecision DataTaskResult.
Proof. solve_decision. Defined.
#[export] Instance DataTaskSnapshot_eq_dec : EqDecision DataTaskSnapshot.
Proof. solve_decision. Defined.

Definition status_eqb (a b : DataTaskStatus) : bool := bool_decide (a = b).

(** ** Request validation *)

Definition new_error (code message : String.string) : DataTaskError := mkError (u code) (u message).
Arguments new_error (code message)%_string.

Definition kind_mode_matches (k : DataTaskKind) (m : DataTaskMode) : bool :=
  match k, m with
  | RowSync, (Merge | Mirror) | Transfer, (Append | Replace) => true
  | _, _ => false
  end.

(** The inner loop over the columns: [sources] and [columns] are the two hash
    sets. *)
Fixpoint validate_columns (cs : list ColumnMapping) (sources columns : gset str) : bool :=
  match cs with
  | [] => true
  | c :: cs =>
    if is_empty (cm_source_column c) || is_empty (cm_target_column c)
       || bool_decide (cm_source_column c ∈ sources)
       || bool_decide (cm_target_column c ∈ columns)
    then false
    else validate_columns cs ({[cm_source_column c]} ∪ sources) ({[cm_target_column c]} ∪ columns)
  end.

Fixpoint validate_tables (ts : list TableMapping) (targets : gset str) : result unit DataTaskError :=
  match ts with
  | [] => Ok tt
  | t :: ts =>
    if is_empty (tm_source_table t) || is_empty (tm_target_table t)
       || is_empty (tm_columns t) || bool_decide (tm_target_table t ∈ targets)
    then Err (new_error "invalid_mapping" "表映射为空或目标表重复")
    else if negb (validate_columns (tm_columns t) ∅ ∅)
    then Err (new_error "invalid_mapping" "字段映射必须是一对一且非空")
    else validate_tables ts ({[tm_target_table t]} ∪ targets)
  end.

Definition validate (r : DataTaskRequest) : result unit DataTaskError :=
  if negb (rq_protocol_version r =? PROTOCOL_VERSION)
  then Err (new_error "unsupported_capability" "数据任务协议版本不受支持")
  else if negb (kind_mode_matches (rq_kind r) (rq_mode r))
  then Err (new_error "unsupported_capability" "任务类型与模式不匹配")
  else if is_empty (trim (ep_saved_connection_id (rq_source r)))
       || is_empty (trim (ep_saved_connection_id (rq_target r)))
       || is_empty (trim (ep_database (rq_source r)))
       || is_empty (trim (ep_database (rq_target r)))
       || is_empty (rq_mappings r)
       || (100 <? zlen (rq_mappings r))
  then Err (new_error "invalid_mapping" "请选择有效端点及 1 至 100 张表")
  else validate_tables (rq_mappings r) ∅.

(** ** Specification *)

(** A mapping whose columns are a non-empty one-to-one correspondence between
    non-empty names. *)
Definition columns_one_to_one (cs : list ColumnMapping) : Prop :=
  Forall (fun c => cm_source_column c <> [] /\ cm_target_column c <> []) cs /\
  NoDup (map cm_source_column cs) /\ NoDup (map cm_target_column cs).

Definition table_mapping_ok (t : TableMapping) : Prop :=
  tm_source_table t <> [] /\ tm_target_table t <> [] /\ tm_columns t <> [] /\
  columns_one_to_one (tm_columns t).

Definition blank (s : str) : Prop := trim s = [].

Record valid_request (r : DataTaskRequest) : Prop := {
  vr_version : rq_protocol_version r = 1;
  vr_mode : match rq_kind r with
            | RowSync => rq_mode r = Merge \/ rq_mode r = Mirror
            | Transfer => rq_mode r = Append \/ rq_mode r = Replace
            end;
  vr_source_conn : ~ blank (ep_saved_connection_id (rq_source r));
  vr_target_conn : ~ blank (ep_saved_connection_id (rq_target r));
  vr_source_db : ~ blank (ep_database (rq_source r));
  vr_target_db : ~ blank (ep_database (rq_target r));
  vr_count : 1 <= zlen (rq_mappings r) <= 100;
  vr_tables : Forall table_mapping_ok (rq_mappings r);
  vr_targets : NoDup (map tm_target_table (rq_mappings r));
}.

(** A merge of one table, for the examples of the clients. *)
Definition sample_request : DataTaskRequest :=
  mkRequest 1 RowSync (mkEndpoint (u "source") (u "main")) (mkEndpoint (u "target") (u "main"))
    [mkTableMapping (u "t") (u "t") [mkColumnMapping (u "id") (u "id")]] Merge.

Definition sample_snapshot_at (id : str) (status : DataTaskStatus) (time : Z) : DataTaskSnapshot :=
  mkSnapshot id None (u "1") status sample_request (u "50") (show_Z time) (u "0") (u "0") (u "0")
    (u "0") (u "0") None None.
Definition sample_snapshot (id : str) (status : DataTaskStatus) : DataTaskSnapshot :=
  sample_snapshot_at id status 100.

(** ** Proofs *)

Lemma is_empty_iff {A} (l : list A) : is_empty l = true <-> l = [].
Proof. by destruct l. Qed.
Lemma is_empty_false {A} (l : list A) : is_empty l = false <-> l <> [].
Proof. by destruct l. Qed.

Lemma validate_columns_iff (cs : list ColumnMapping) (s t : gset str) :
  validate_columns cs s t = true <->
  columns_one_to_one cs /\
  Forall (fun c => (cm_source_column c ∉ s) /\ (cm_target_column c ∉ t)) cs.
Proof.
  revert s t. induction cs as [|c cs IH]; intros s t; simpl.
  - split; [|done]. intros _. repeat constructor.
  - unfold columns_one_to_one. simpl. rewrite !list.Forall_cons, !NoDup_cons.
    rewrite !list_elem_of_fmap.
    destruct (is_empty (cm_source_column c) || _ || _ || _) eqn:E.
    + split; [done|]. intros [(([F1 F2] & _) & _) ([H1 H2] & _)]. exfalso.
      apply is_empty_false in F1, F2. rewrite F1, F2 in E. simpl in E.
      apply orb_true_iff in E as [E|E]; by apply bool_decide_eq_true in E.
    + to_prop. rewrite IH. unfold columns_one_to_one. rewrite <- !is_empty_false.
      rewrite !list.Forall_forall. split.
      * intros [(F & N1 & N2) H3]. split_and!; auto.
        -- intros (c' & Ec & Hc). destruct (H3 c' Hc). set_solver.
        -- intros (c' & Ec & Hc). destruct (H3 c' Hc). set_solver.
        -- intros c' Hc. destruct (H3 c' Hc). set_solver.
      * intros (([_ F] & [N1 D1] & [N2 D2]) & [_ H3]). split; [done|].
        intros c' Hc. destruct (H3 c' Hc). split.
        -- intros [Q%elem_of_singleton|Q]%elem_of_union; [|done]. eauto.
        -- intros [Q%elem_of_singleton|Q]%elem_of_union; [|done]. eauto.
Qed.

Lemma validate_tables_iff (ts : list TableMapping) (s : gset str) :
  validate_tables ts s = Ok tt <->
  Forall table_mapping_ok ts /\ NoDup (map tm_target_table ts) /\
  Forall (fun t => tm_target_table t ∉ s) ts.
Proof.
  revert s. induction ts as [|t ts IH]; intros s; simpl.
  - split; [|done]. intros _. repeat constructor.
  - rewrite !list.Forall_cons, !NoDup_cons, list_elem_of_fmap. unfold table_mapping_ok at 1.
    assert (V : validate_columns (tm_columns t) ∅ ∅ = true <-> columns_one_to_one (tm_columns t)).
    { rewrite validate_columns_iff. split; [by intros [? _]|]. intros H. split; [done|].
      apply list.Forall_forall. set_solver. }
    rewrite <- V, <- !is_empty_false. clear V.
    destruct (is_empty (tm_source_table t)), (is_empty (tm_target_table t)), (is_empty (tm_columns t));
      simpl; try (split; [done|]; intros [[(? & ? & ? & _) _] _]; done).
    destruct (bool_decide (tm_target_table t ∈ s)) eqn:E; simpl; to_prop.
    { split; [done|]. intros (_ & _ & ? & _). done. }
    destruct (validate_columns (tm_columns t) ∅ ∅); simpl.
    2:{ split; [done|]. intros [[(_ & _ & _ & ?) _] _]. done. }
    rewrite IH, !list.Forall_forall. split.
    + intros (F & N & H). split_and!; try done.
      * intros (t' & Et & Ht). apply (H t' Ht). set_solver.
      * intros t' Ht. pose proof (H t' Ht). set_solver.
    + intros ([_ F] & [N D] & _ & H). split_and!; try done.
      intros t' Ht. pose proof (H t' Ht).
      intros [Q%elem_of_singleton|Q]%elem_of_union; [|done]. eauto.
Qed.

Lemma kind_mode_matches_iff k m :
  kind_mode_matches k m = true <->
  match k with RowSync => m = Merge \/ m = Mirror | Transfer => m = Append \/ m = Replace end.
Proof. destruct k, m; simpl; intuition congruence. Qed.

Lemma validate_ok_iff r : validate r = Ok tt <-> valid_request r.
Proof.
  unfold validate, PROTOCOL_VERSION.
  destruct (rq_protocol_version r =? 1) eqn:V; to_prop; simpl; [|split; [done|by intros []]].
  destruct (kind_mode_matches _ _) eqn:M; simpl.
  2:{ split; [done|]. intros H. apply not_true_iff_false in M. destruct M.
      by apply kind_mode_matches_iff, vr_mode. }
  apply kind_mode_matches_iff in M.
  destruct (_ || _ || _ || _ || _ || _) eqn:E; to_prop.
  - split; [done|]. intros []. exfalso. unfold blank in *.
    rewrite !orb_true_iff, !is_empty_iff, Z.ltb_lt in E.
    intuition; [|lia]. by destruct (rq_mappings r).
  - rewrite !is_empty_false in *. rewrite validate_tables_iff. split.
    + intros (T & N & _). split; try done.
      destruct (rq_mappings r) as [|m ms]; [done|]. autorewrite with zlen in *.
      pose proof (zlen_nonneg ms). lia.
    + intros []. split_and!; auto. apply list.Forall_forall. set_solver.
Qed.

(** The request validator accepts exactly the valid requests: protocol
    version 1, a mode of the task kind, non-blank endpoints, 1 to 100 tables
    with distinct targets, and one-to-one column mappings. *)
Theorem validate_iff r : validate r = Ok tt <-> valid_request r.
Proof. apply validate_ok_iff. Qed.

End DataTypes.
