(* ===== verification/History.v ===== *)
(** Task history (src-tauri/src/db/data_tasks/history.rs): the summaries kept
    on disk, their atomic replacement, and the recovery of unfinished tasks
    when the application starts.

    The file system and the JSON codec are not code of the repository: they are
    the [FileSystem] interface and the parameters of the sections below. *)
From S2P Require Import Prelude RustText DataTypes.
Import DataTypes.

Module History.

(** ** The file system interface *)

Record FileNode : Type := mkNode { is_file : bool; is_symlink : bool; content : bytes }.
Abbreviation FS := (gmap str FileNode) (only parsing).

(** What [symlink_metadata] reports. *)
Inductive Metadata : Type := MetaOk (n : FileNode) | NotFound | MetaErr.

Record FileOps : Type := mkFileOps {
  symlink_metadata : FS -> str -> Metadata;
  read_file : FS -> str -> option bytes;
  create_secure_file : FS -> str -> FS * bool;
  write_and_sync : FS -> str -> bytes -> FS * bool;
  rename : FS -> str -> str -> FS * bool;
  remove_file : FS -> str -> FS;
}.

(** The documented behaviour [save_history] and [load_history] rely on: an
    operation changes only the paths it names; a rename is atomic. *)
Class FileSystem (ops : FileOps) : Prop := {
  metadata_found fs p n : fs !! p = Some n -> symlink_metadata ops fs p = MetaOk n;
  metadata_missing fs p : fs !! p = None -> symlink_metadata ops fs p = NotFound;
  read_found fs p n : fs !! p = Some n -> is_file n = true -> read_file ops fs p = Some (content n);
  create_frame fs p q : q <> p -> (create_secure_file ops fs p).1 !! q = fs !! q;
  create_done fs p fs' : create_secure_file ops fs p = (fs', true) ->
    fs' !! p = Some (mkNode true false []);
  write_frame fs p b q : q <> p -> (write_and_sync ops fs p b).1 !! q = fs !! q;
  write_done fs p b fs' : fs !! p = Some (mkNode true false []) ->
    write_and_sync ops fs p b = (fs', true) -> fs' !! p = Some (mkNode true false b);
  rename_frame fs p q r : r <> p -> r <> q -> (rename ops fs p q).1 !! r = fs !! r;
  rename_done fs p q fs' : p <> q -> rename ops fs p q = (fs', true) ->
    fs' !! q = fs !! p /\ fs' !! p = None;
  rename_failed fs p q fs' : rename ops fs p q = (fs', false) -> fs' = fs;
  remove_frame fs p q : q <> p -> remove_file ops fs p !! q = fs !! q;
}.

(** ** The operations *)

Definition history_error : DataTaskError :=
  new_error "history_unavailable" "数据任务历史无法读写，请检查应用目录权限".

Definition max_history_bytes : Z := 2 * 1024 * 1024.

Definition summary_result (r : DataTaskResult) : DataTaskResult :=
  mkResult (rs_status r) (rs_commit_state r) (rs_tables r)
    (option_map (fun e => mkError (err_code e) (u "任务未完成，请根据错误码重新预览或核对目标"))
       (rs_error r))
    (map (fun _ => u "资源清理失败") (rs_cleanup_errors r))
    (rs_requires_target_refresh r).

Definition clear_columns (r : DataTaskRequest) : DataTaskRequest :=
  mkRequest (rq_protocol_version r) (rq_kind r) (rq_source r) (rq_target r)
    (map (fun m => mkTableMapping (tm_source_table m) (tm_target_table m) []) (rq_mappings r))
    (rq_mode r).

Definition summary (s : DataTaskSnapshot) : DataTaskSnapshot :=
  mkSnapshot (sn_task_id s) (sn_execution_id s) (sn_sequence s) (sn_status s)
    (clear_columns (sn_request s)) (sn_created_at s) (sn_updated_at s) (sn_read_rows s)
    (sn_written_rows s) (sn_verified_rows s) (sn_bytes s) (sn_elapsed_ms s) None
    (option_map summary_result (sn_result s)).

(** [parse::<u64>().unwrap_or(0)] *)
Definition parse_or_zero (s : str) : Z := default 0 (parse_u64 s).

Definition newest_first (f : DataTaskSnapshot -> str) : DataTaskSnapshot -> DataTaskSnapshot -> comparison :=
  cmp_on (fun s => parse_or_zero (f s)) (cmp_rev Z.compare).

Definition history_items (snapshots : list DataTaskSnapshot) : list DataTaskSnapshot :=
  take 100 (sort_by (newest_first sn_updated_at) (map summary snapshots)).

(** [iter().enumerate()] of the mappings of an unfinished task. *)
Fixpoint interrupted_tables (i : Z) (ms : list TableMapping) : list DataTablePreview :=
  match ms with
  | [] => []
  | m :: ms =>
    mkTablePreview (show_Z i) (tm_source_table m) (tm_target_table m) default_counts
      :: interrupted_tables (i + 1) ms
  end.

(** The body of the loop of [load_history]. *)
Definition recover (s : DataTaskSnapshot) : DataTaskSnapshot :=
  if is_terminal (sn_status s)
  then mkSnapshot (sn_task_id s) (sn_execution_id s) (sn_sequence s) (sn_status s) (sn_request s)
         (sn_created_at s) (sn_updated_at s) (sn_read_rows s) (sn_written_rows s)
         (sn_verified_rows s) (sn_bytes s) (sn_elapsed_ms s) None (sn_result s)
  else
    let unknown := is_some (sn_execution_id s) in
    let status := if unknown then OutcomeUnknown else Interrupted in
    let result :=
      mkResult status (if unknown then CsUnknown else CsNone)
        (interrupted_tables 0 (rq_mappings (sn_request s)))
        (Some (if unknown
               then new_error "outcome_unknown" "应用退出前执行结果未确认，请核对目标，禁止直接重放"
               else new_error "interrupted" "应用退出中断了预览，请重新预览"))
        [] unknown in
    mkSnapshot (sn_task_id s) (sn_execution_id s)
      (show_Z (wrap64 (parse_or_zero (sn_sequence s) + 1))) status (sn_request s)
      (sn_created_at s) (sn_updated_at s) (sn_read_rows s) (sn_written_rows s)
      (sn_verified_rows s) (sn_bytes s) (sn_elapsed_ms s) None (Some result).

Section Files.
Context (ops : FileOps).
(** [serde_json::to_vec] and [from_slice] at [Vec<DataTaskSnapshot>]. *)
Variable to_vec : list DataTaskSnapshot -> option bytes.
Variable from_slice : bytes -> option (list DataTaskSnapshot).

(** The closure [operation]; [temporary] is the path with the fresh UUID. *)
Definition replace_file (fs : FS) (temporary path : str) (data : bytes) :
  FS * result unit DataTaskError :=
  let '(fs, ok) := create_secure_file ops fs temporary in
  if negb ok then (fs, Err history_error)
  else
    let '(fs, ok) := write_and_sync ops fs temporary data in
    if negb ok then (fs, Err history_error)
    else
      let '(fs, ok) := rename ops fs temporary path in
      if negb ok then (fs, Err history_error) else (fs, Ok tt).

Definition save_history (fs : FS) (temporary path : str) (snapshots : list DataTaskSnapshot) :
  FS * result unit DataTaskError :=
  if match symlink_metadata ops fs path with
     | MetaOk m => negb (is_file m) || is_symlink m
     | _ => false
     end
  then (fs, Err history_error)
  else
    let items := history_items snapshots in
    match to_vec items with
    | None => (fs, Err history_error)
    | Some data =>
      if max_history_bytes <? zlen data then (fs, Err history_error)
      else
        let '(fs, operation) := replace_file fs temporary path data in
        match operation with
        | Err e => (remove_file ops fs temporary, Err e)
        | Ok _ => (fs, Ok tt)
        end
    end.

Definition load_history (fs : FS) (path : str) : result (list DataTaskSnapshot) DataTaskError :=
  match symlink_metadata ops fs path with
  | NotFound => Ok []
  | MetaErr => Err history_error
  | MetaOk metadata =>
    if negb (is_file metadata) || is_symlink metadata
       || (max_history_bytes <? zlen (content metadata))
    then Err history_error
    else
      let? data := ok_or (read_file ops fs path) history_error in
      let? items := ok_or (from_slice data) history_error in
      Ok (map recover (take 100 items))
  end.
End Files.

(** A snapshot as [load_history] leaves it. *)
Definition recovered (s : DataTaskSnapshot) : Prop :=
  is_terminal (sn_status s) = true /\ sn_preview s = None.

(** A concrete file system in which everything succeeds except writing to the
    paths of [broken]. *)
Definition sample_ops (broken : str) : FileOps := {|
  symlink_metadata fs p := match fs !! p with Some n => MetaOk n | None => NotFound end;
  read_file fs p := content <$> fs !! p;
  create_secure_file fs p := (<[p := mkNode true false []]> fs, true);
  write_and_sync fs p b :=
    if str_eqb p broken then (<[p := mkNode true false []]> fs, false)
    else (<[p := mkNode true false b]> fs, true);
  rename fs p q :=
    match fs !! p with Some n => (<[q := n]> (delete p fs), true) | None => (fs, false) end;
  remove_file fs p := delete p fs;
|}.

(** A codec for one particular file. *)
Definition sample_items : list DataTaskSnapshot := history_items [sample_snapshot (u "a") Reading].
Definition sample_to_vec (items : list DataTaskSnapshot) : option bytes :=
  if bool_decide (items = sample_items) then Some [91; 93] else None.
Definition sample_from_slice (b : bytes) : option (list DataTaskSnapshot) := Some sample_items.

(** ** Proofs *)

#[export] Instance newest_first_total f : TotalCmp (newest_first f).
Proof. unfold newest_first. apply _. Qed.

Lemma recover_recovered s : recovered (recover s).
Proof.
  unfold recovered, recover. destruct (is_terminal (sn_status s)) eqn:E; [done|].
  simpl. by destruct (is_some _).
Qed.

Lemma history_items_length l : zlen (history_items l) <= 100.
Proof. unfold zlen, history_items. rewrite length_take. lia. Qed.

(** The kept summaries are the newest ones. *)
Lemma sorted_take_drop {A} (cmp : A -> A -> comparison) (n : nat) l x y :
  StronglySorted (cmp_le cmp) l -> x ∈ take n l -> y ∈ drop n l -> cmp_le cmp x y.
Proof.
  intros H. revert n. induction H as [|a l Hl IH Ha]; intros [|n]; simpl; try set_solver.
  intros [->|Hx]%elem_of_cons Hy; [|eauto].
  rewrite list.Forall_forall in Ha. apply Ha. rewrite <- (take_drop n l). set_solver.
Qed.

#[export] Instance sample_ops_fs b : FileSystem (sample_ops b).
Proof.
  split; unfold sample_ops; cbn.
  - by intros fs p n ->.
  - by intros fs p ->.
  - by intros fs p n ->.
  - intros fs p q H. by rewrite lookup_insert_ne by done.
  - intros fs p fs' [= <-]. by rewrite lookup_insert_eq.
  - intros fs p d q H. case_match; simpl; by rewrite lookup_insert_ne by done.
  - intros fs p d fs' _. case_match; intros [= <-]. by rewrite lookup_insert_eq.
  - intros fs p q r H1 H2. case_match; simpl; [|done].
    by rewrite lookup_insert_ne, lookup_delete_ne.
  - intros fs p q fs' H. case_match eqn:E; intros [= <-].
    split; [by rewrite lookup_insert_eq|]. by rewrite lookup_insert_ne, lookup_delete_eq by done.
  - intros fs p q fs'. case_match; by intros [= <-].
  - intros. by rewrite lookup_delete_ne.
Qed.

Section FileProofs.
Context (ops : FileOps) `{!FileSystem ops}.
Variable to_vec : list DataTaskSnapshot -> option bytes.
Variable from_slice : bytes -> option (list DataTaskSnapshot).

Lemma replace_file_spec fs temporary path data fs' r :
  temporary <> path -> replace_file ops fs temporary path data = (fs', r) ->
  match r with
  | Ok _ => fs' !! path = Some (mkNode true false data) /\ fs' !! temporary = None
  | Err e => fs' !! path = fs !! path /\ e = history_error
  end /\ forall q, q <> path -> q <> temporary -> fs' !! q = fs !! q.
Proof.
  intros D. unfold replace_file.
  destruct (create_secure_file ops fs temporary) as [fs1 ok1] eqn:E1.
  pose proof (fun q => create_frame (ops:=ops) fs temporary q) as F1.
  rewrite E1 in F1. simpl in F1.
  destruct ok1; simpl; [|intros [= <- <-]; auto].
  apply create_done in E1.
  destruct (write_and_sync ops fs1 temporary data) as [fs2 ok2] eqn:E2.
  pose proof (fun q => write_frame (ops:=ops) fs1 temporary data q) as F2.
  rewrite E2 in F2. simpl in F2.
  destruct ok2; simpl.
  2:{ intros [= <- <-]. split; [split; [|done]|intros q Hp Ht]; by rewrite F2, F1. }
  apply write_done in E2; [|done].
  destruct (rename ops fs2 temporary path) as [fs3 ok3] eqn:E3.
  pose proof (fun q => rename_frame (ops:=ops) fs2 temporary path q) as F3.
  rewrite E3 in F3. simpl in F3.
  destruct ok3; simpl; intros [= <- <-].
  - apply rename_done in E3 as [-> ->]; [|done]. split; [done|].
    intros q Hp Ht. by rewrite F3, F2, F1.
  - apply rename_failed in E3 as ->.
    split; [split; [|done]|intros q Hp Ht]; by rewrite F2, F1.
Qed.

(** Saving the history is atomic and loading reads back what was saved.
    On success the next load returns the recovered form of the newest (at most
    100) summaries; on failure the history file is what it was before.  No
    other file is touched, apart from the temporary one. *)
Theorem save_then_load_history fs temporary path snapshots fs' r :
  temporary <> path ->
  (forall items data, to_vec items = Some data -> from_slice data = Some items) ->
  save_history ops to_vec fs temporary path snapshots = (fs', r) ->
  match r with
  | Ok _ =>
      load_history ops from_slice fs' path = Ok (map recover (history_items snapshots))
  | Err e => fs' !! path = fs !! path /\ e = history_error
  end /\ forall q, q <> path -> q <> temporary -> fs' !! q = fs !! q.
Proof.
  intros D J. unfold save_history.
  destruct (match symlink_metadata ops fs path with
            | MetaOk m => negb (is_file m) || is_symlink m | _ => false end);
    [intros [= <- <-]; auto|].
  destruct (to_vec (history_items snapshots)) as [data|] eqn:T; [|intros [= <- <-]; auto].
  destruct (max_history_bytes <? zlen data) eqn:L; [intros [= <- <-]; auto|].
  destruct (replace_file ops fs temporary path data) as [fs1 op] eqn:E.
  apply replace_file_spec in E as [E F]; [|done].
  destruct op as [u'|e]; intros [= <- <-].
  - destruct E as [E _]. split; [|done]. unfold load_history.
    rewrite (metadata_found _ _ _ E). cbn -[max_history_bytes].
    rewrite L, (read_found _ _ _ E); [|done]. cbn. rewrite (J _ _ T). cbn.
    rewrite take_ge; [done|]. pose proof (history_items_length snapshots). unfold zlen in *. lia.
  - destruct E as [E1 ->]. split; [split; [|done]|]; intros; rewrite remove_frame; auto.
Qed.

Lemma load_history_recovered fs path items :
  load_history ops from_slice fs path = Ok items -> Forall recovered items.
Proof.
  unfold load_history. intros H.
  destruct (symlink_metadata ops fs path); [|apply Ok_inj in H as <-; constructor|done].
  case_if_in H; [done|]. inv_ok. apply list.Forall_fmap, list.Forall_forall.
  intros s _. apply recover_recovered.
Qed.
End FileProofs.

Definition sample_save (broken : str) : FS * result unit DataTaskError :=
  save_history (sample_ops broken) sample_to_vec ∅ (u "tmp") (u "history.json")
    [sample_snapshot (u "a") Reading].

Lemma save_then_load_history_witness :
  let '(fs, r) := sample_save (u "none") in
  r = Ok tt /\
  load_history (sample_ops (u "none")) sample_from_slice fs (u "history.json")
    = Ok (map recover sample_items) /\
  map sn_status (map recover sample_items) = [Interrupted] /\
  (sample_save (u "tmp")).1 !! u "history.json" = None.
Proof.
  pose proof (save_then_load_history (sample_ops (u "none")) sample_to_vec sample_from_slice ∅
    (u "tmp") (u "history.json") [sample_snapshot (u "a") Reading]) as H.
  pose proof (save_then_load_history (sample_ops (u "tmp")) sample_to_vec sample_from_slice ∅
    (u "tmp") (u "history.json") [sample_snapshot (u "a") Reading]) as K.
  assert (J : forall items data, sample_to_vec items = Some data -> sample_from_slice data = Some items).
  { unfold sample_to_vec, sample_from_slice. intros items data.
    destruct (bool_decide_reflect (items = sample_items)) as [->|]; [done|discriminate]. }
  unfold sample_save.
  destruct (save_history _ _ _ _ _ _) as [fs r] eqn:E.
  destruct (save_history (sample_ops (u "tmp")) _ _ _ _ _) as [fs2 r2] eqn:E2.
  assert (r = Ok tt) as -> by (apply (f_equal snd) in E; vm_compute in E; done).
  assert (r2 = Err history_error) as -> by (apply (f_equal snd) in E2; vm_compute in E2; done).
  destruct (H fs (Ok tt)) as [H1 _]; [by vm_compute|exact J|done|].
  destruct (K fs2 (Err history_error)) as [[K1 _] _]; [by vm_compute|exact J|done|].
  split; [done|]. split; [exact H1|]. split; [vm_compute; reflexivity|exact K1].
Defined.

(** The summaries [save_history] keeps are the most recently updated
    ones: every summary it drops is at most as recent as every one it keeps. *)
Theorem history_items_newest snapshots x y :
  x ∈ history_items snapshots ->
  y ∈ map summary snapshots -> y ∉ history_items snapshots ->
  parse_or_zero (sn_updated_at y) <= parse_or_zero (sn_updated_at x).
Proof.
  unfold history_items. intros Hx Hy Ny.
  rewrite <- (sort_by_elem (newest_first sn_updated_at)) in Hy.
  rewrite <- (take_drop 100 (sort_by _ _)) in Hy.
  apply elem_of_app in Hy as [Hy|Hy]; [done|].
  pose proof (sorted_take_drop _ _ _ _ _ (sort_by_sorted _ _) Hx Hy) as H.
  unfold cmp_le, newest_first, cmp_on, cmp_rev in H. by rewrite Z.compare_le_iff in H.
Qed.

Definition sample_many : list DataTaskSnapshot :=
  sample_snapshot_at (u "old") Reading 50 :: repeat (sample_snapshot (u "a") Reading) 100.

Lemma history_items_newest_witness :
  parse_or_zero (sn_updated_at (summary (sample_snapshot_at (u "old") Reading 50)))
    <= parse_or_zero (sn_updated_at (summary (sample_snapshot (u "a") Reading))).
Proof.
  apply (history_items_newest sample_many);
    [apply (bool_decide_eq_true_1 _) | apply (bool_decide_eq_true_1 _)
    |apply (bool_decide_eq_false_1 _)]; vm_compute; reflexivity.
Defined.

End History.
