(* ===== verification/Registry.v ===== *)
(** The task registry (src-tauri/src/db/data_tasks/registry.rs, with the
    callback and clock types of db/data_tasks/mod.rs).

    Every method takes the registry's mutex for its whole body, so a method is
    one atomic step on [State]; [discard] takes it twice and is modelled with
    the interference in between.  An [Arc<AtomicBool>] is an address in the
    heap [tokens], shared by the record and everyone who holds a clone.  A
    step reads the clock and the iteration order of the hash map from [Env]. *)
From S2P Require Import Prelude RustText DataTypes History.
Import DataTypes History.

Module Registry.

(** ** State *)

Record ProgressUpdate : Type := mkProgress {
  up_status : DataTaskStatus; up_read_rows : Z; up_written_rows : Z; up_verified_rows : Z; up_bytes : Z }.

Definition Cancellation : Type := nat.

Record Entry : Type := mkEntry {
  snapshot_of : DataTaskSnapshot;
  cancel_token : Cancellation;
  execution : option ExecuteDataTaskInput;
  plan_id : option str;
  pending_cleanup_errors : list str;
}.

Record State : Type := mkState {
  records : gmap str Entry;
  cancelled_before_register : gset str;
  writer : option str;
  tokens : list bool;
}.

Definition initial : State := mkState ∅ ∅ None [].

(** The readings of the clock a step makes: [now_ms] in [expire], at the
    creation of a record, and the two of [touch] per task; and the order in
    which the hash map iterates. *)
Record Env : Type := mkEnv {
  env_now : Z;
  env_created : Z;
  env_touch : str -> Z * Z;
  env_order : gmap str Entry -> list (str * Entry);
}.

Record wf_env (e : Env) : Prop := {
  wf_now : u64_range (env_now e);
  wf_created : u64_range (env_created e);
  wf_touch id : u64_range (env_touch e id).1 /\ u64_range (env_touch e id).2;
  wf_order m : env_order e m ≡ₚ map_to_list m;
}.

Definition load (tokens : list bool) (t : Cancellation) : bool := default false (tokens !! t).
Definition store (t : Cancellation) (tokens : list bool) : list bool := <[t := true]> tokens.

(** ** Helpers *)

Definition missing : DataTaskError := new_error "task_not_found" "数据任务不存在".

Definition touch (e : Env) (s : DataTaskSnapshot) : DataTaskSnapshot :=
  let '(t1, t2) := env_touch e (sn_task_id s) in
  mkSnapshot (sn_task_id s) (sn_execution_id s) (show_Z (wrap64 (parse_or_zero (sn_sequence s) + 1)))
    (sn_status s) (sn_request s) (sn_created_at s) (show_Z t1) (sn_read_rows s) (sn_written_rows s)
    (sn_verified_rows s) (sn_bytes s) (show_Z (sat_sub t2 (parse_or_zero (sn_created_at s))))
    (sn_preview s) (sn_result s).

(** Assignments to [status], [preview] and [result] of a snapshot. *)
Definition set_outcome (st : DataTaskStatus) (p : option DataTaskPreview) (r : option DataTaskResult)
  (s : DataTaskSnapshot) : DataTaskSnapshot :=
  mkSnapshot (sn_task_id s) (sn_execution_id s) (sn_sequence s) st (sn_request s) (sn_created_at s)
    (sn_updated_at s) (sn_read_rows s) (sn_written_rows s) (sn_verified_rows s) (sn_bytes s)
    (sn_elapsed_ms s) p r.

Definition cancel_result : DataTaskResult :=
  mkResult Cancelled CsNone [] (Some (new_error "cancelled" "任务已取消")) [] false.

Definition add_cleanup (r : DataTaskResult) (errors : list str) : DataTaskResult :=
  mkResult (rs_status r) (rs_commit_state r) (rs_tables r) (rs_error r)
    (rs_cleanup_errors r ++ errors) (rs_requires_target_refresh r).

Definition phase (s : DataTaskStatus) : Z :=
  match s with
  | Created => 0 | Validating => 1 | Reading => 2 | Comparing => 3 | Ready => 4
  | Executing => 5 | Verifying => 6 | Committing => 7 | _ => 8
  end.

Definition terminal (r : Entry) : bool := is_terminal (sn_status (snapshot_of r)).

Definition due (now : Z) (r : Entry) : bool :=
  status_eqb (sn_status (snapshot_of r)) Ready
  && is_some_and (fun p => parse_or_zero (pv_expires_at p) <=? now) (sn_preview (snapshot_of r)).

Definition plan_expired : DataTaskError := new_error "plan_expired" "预览已过期，请重新预览".

(** The body of the loop of [expire] for one record. *)
Definition expire_record (e : Env) (r : Entry) : Entry :=
  if due (env_now e) r
  then mkEntry
         (touch e (set_outcome Expired None
            (Some (mkResult Expired CsNone [] (Some plan_expired) (pending_cleanup_errors r) false))
            (snapshot_of r)))
         (cancel_token r) (execution r) (plan_id r) []
  else r.

Definition expire (e : Env) (st : State) : State :=
  mkState (expire_record e <$> records st) (cancelled_before_register st) (writer st)
    (fold_left (fun ts r => if due (env_now e) r then store (cancel_token r) ts else ts)
       (map snd (env_order e (records st))) (tokens st)).

(** [trim]: the oldest terminal records above one hundred are removed. *)
Definition trim (e : Env) (st : State) : State :=
  let terminal := map (fun '(id, r) => (id, parse_or_zero (sn_updated_at (snapshot_of r))))
                    (filter (fun '(_, r) => terminal r = true) (env_order e (records st))) in
  let terminal := sort_by (cmp_on snd Z.compare) terminal in
  let count := (length terminal - 100)%nat in
  mkState (fold_left (fun m id => delete id m) (map fst (take count terminal)) (records st))
    (cancelled_before_register st) (writer st) (tokens st).

Definition set_records (st : State) (m : gmap str Entry) : State :=
  mkState m (cancelled_before_register st) (writer st) (tokens st).

(** ** Operations *)

Definition new_snapshot (e : Env) (task_id : str) (request : DataTaskRequest) (cancelled : bool) :
  DataTaskSnapshot :=
  let now := show_Z (env_created e) in
  mkSnapshot task_id None (u "1") (if cancelled then Cancelled else Created) request now now
    (u "0") (u "0") (u "0") (u "0") (u "0") None
    (if cancelled then Some cancel_result else None).

(** A record counting against the limit of three previews. *)
Definition is_preview (r : Entry) : bool :=
  negb (terminal r) && negb (is_some (sn_execution_id (snapshot_of r))).

Definition register_preview (e : Env) (st : State) (task_id : str) (request : DataTaskRequest) :
  State * result (DataTaskSnapshot * bool * Cancellation) DataTaskError :=
  match validate request with
  | Err err => (st, Err err)
  | Ok _ =>
    if is_empty (RustText.trim task_id) || (128 <? str_len task_id)
    then (st, Err (new_error "invalid_task_id" "任务标识无效"))
    else
      let st := expire e st in
      match records st !! task_id with
      | Some record =>
        if bool_decide (sn_request (snapshot_of record) <> request)
        then (st, Err (new_error "task_conflict" "此任务标识已用于其他请求"))
        else (st, Ok (snapshot_of record, false, cancel_token record))
      | None =>
        if 3 <=? zlen (filter (fun r => is_preview r = true) (map snd (env_order e (records st))))
        then (st, Err (new_error "resource_limit" "最多保留三个预览，请关闭旧预览"))
        else
          let cancelled := bool_decide (task_id ∈ cancelled_before_register st) in
          let cancel := length (tokens st) in
          let snapshot := new_snapshot e task_id request cancelled in
          let st := mkState (<[task_id := mkEntry snapshot cancel None None []]> (records st))
                      (cancelled_before_register st ∖ {[task_id]}) (writer st)
                      (tokens st ++ [cancelled]) in
          (trim e st, Ok (snapshot, negb cancelled, cancel))
      end
  end.

Definition set_ready (e : Env) (st : State) (task_id : str) (preview : DataTaskPreview) :
  State * result DataTaskSnapshot DataTaskError :=
  match records st !! task_id with
  | None => (st, Err missing)
  | Some record =>
    if load (tokens st) (cancel_token record) || terminal record
    then (st, Err (new_error "cancelled" "预览已取消"))
    else if negb (str_eqb (pv_task_id preview) task_id) || is_some (sn_execution_id (snapshot_of record))
    then (st, Err (new_error "plan_stale" "预览不属于此任务"))
    else
      let s := touch e (set_outcome Ready (Some preview) (sn_result (snapshot_of record))
                          (snapshot_of record)) in
      let record := mkEntry s (cancel_token record) (execution record)
                      (Some (pv_plan_id preview)) (pending_cleanup_errors record) in
      (set_records st (<[task_id := record]> (records st)), Ok s)
  end.

Definition stale (message : String.string) : DataTaskError := new_error "plan_stale" message.
Arguments stale message%_string.

Section Begin.
(** [uuid::Uuid::parse_str(..).is_ok()] of the uuid crate. *)
Variable valid_uuid : str -> bool.

(** The checks of [begin_execution] on the record of the plan, from the
    second look-up to the writer check. *)
Definition begin_checks (st : State) (record : Entry) (input : ExecuteDataTaskInput) :
  result unit DataTaskError :=
  if status_eqb (sn_status (snapshot_of record)) Expired then Err plan_expired
  else if is_some (execution record) then Err (stale "此预览已经启动过，请重新预览")
  else
    let? preview := ok_or (sn_preview (snapshot_of record)) (stale "预览已失效") in
    if negb (status_eqb (sn_status (snapshot_of record)) Ready)
       || negb (str_eqb (pv_fingerprint preview) (ex_fingerprint input))
       || negb (pv_can_execute preview)
    then Err (stale "预览不可执行或指纹不匹配")
    else if existsb (fun r => rk_required r && negb (bool_decide (rk_id r ∈ ex_accepted_risk_ids input)))
              (pv_risks preview)
    then Err (new_error "risk_confirmation_required" "请先确认全部破坏性操作风险")
    else if is_some (writer st) then Err (new_error "task_busy" "已有写入任务正在执行")
    else Ok tt.

Definition set_executing (execution_id : str) (s : DataTaskSnapshot) : DataTaskSnapshot :=
  mkSnapshot (sn_task_id s) (Some execution_id) (sn_sequence s) Executing (sn_request s)
    (sn_created_at s) (sn_updated_at s) (sn_read_rows s) (sn_written_rows s) (sn_verified_rows s)
    (sn_bytes s) (sn_elapsed_ms s) (sn_preview s) (sn_result s).

Definition has_execution_id (id : str) (r : Entry) : bool :=
  is_some_and (fun x => str_eqb (ex_execution_id x) id) (execution r).
Definition has_plan (id : str) (r : Entry) : bool :=
  bool_decide (plan_id r = Some id)
  || is_some_and (fun x => str_eqb (ex_plan_id x) id) (execution r).

Definition begin_execution (e : Env) (st : State) (input : ExecuteDataTaskInput) :
  State * result (DataTaskSnapshot * bool * Cancellation) DataTaskError :=
  if negb (valid_uuid (ex_execution_id input))
  then (st, Err (new_error "invalid_execution_id" "执行标识必须为 UUID"))
  else
    let st := expire e st in
    match find_first (has_execution_id (ex_execution_id input)) (map snd (env_order e (records st))) with
    | Some record =>
      if bool_decide (execution record <> Some input)
      then (st, Err (stale "执行标识与原请求不匹配"))
      else (st, Ok (snapshot_of record, false, cancel_token record))
    | None =>
      match find_first (fun '(_, r) => has_plan (ex_plan_id input) r) (env_order e (records st)) with
      | None =>
        if existsb (fun r => status_eqb (sn_status (snapshot_of r)) Expired)
             (map snd (env_order e (records st)))
        then (st, Err plan_expired)
        else (st, Err (stale "预览不存在或已失效"))
      | Some (task_id, _) =>
        match records st !! task_id with
        | None => (st, Err missing)
        | Some record =>
          match begin_checks st record input with
          | Err err => (st, Err err)
          | Ok _ =>
            let s := touch e (set_executing (ex_execution_id input) (snapshot_of record)) in
            let record := mkEntry s (cancel_token record) (Some input) (plan_id record)
                            (pending_cleanup_errors record) in
            (mkState (<[task_id := record]> (records st)) (cancelled_before_register st)
               (Some task_id) (tokens st),
             Ok (s, true, cancel_token record))
          end
        end
      end
    end.
End Begin.

Definition cancel (e : Env) (st : State) (task_id : str) : State * result DataTaskSnapshot DataTaskError :=
  match records st !! task_id with
  | None =>
    let st := if negb (is_empty task_id) && (str_len task_id <=? 128)
                 && (Z.of_nat (size (cancelled_before_register st)) <? 1000)
              then mkState (records st) ({[task_id]} ∪ cancelled_before_register st) (writer st) (tokens st)
              else st in
    (st, Err missing)
  | Some record =>
    let s := snapshot_of record in
    if is_terminal (sn_status s) || status_eqb (sn_status s) Committing then (st, Ok s)
    else
      let '(s, pending) :=
        if status_eqb (sn_status s) Ready || status_eqb (sn_status s) Created
        then (set_outcome Cancelled None
                (Some (add_cleanup cancel_result (pending_cleanup_errors record))) s, [])
        else (set_outcome Cancelling (sn_preview s) (sn_result s) s, pending_cleanup_errors record) in
      let s := touch e s in
      (mkState (<[task_id := mkEntry s (cancel_token record) (execution record) (plan_id record) pending]>
                  (records st))
         (cancelled_before_register st) (writer st) (store (cancel_token record) (tokens st)),
       Ok s)
  end.

Definition snapshot (e : Env) (st : State) (task_id : str) : State * result DataTaskSnapshot DataTaskError :=
  let st := expire e st in
  (st, ok_or (snapshot_of <$> records st !! task_id) missing).

Definition max_text (n : Z) (s : str) : str := show_Z (Z.max n (parse_or_zero s)).

Definition progress (e : Env) (st : State) (task_id : str) (update : ProgressUpdate) : State :=
  match records st !! task_id with
  | None => st
  | Some record =>
    let s := snapshot_of record in
    if is_terminal (sn_status s) || status_eqb (sn_status s) Cancelling
       || is_terminal (up_status update) || (phase (up_status update) <? phase (sn_status s))
    then st
    else
      let s := mkSnapshot (sn_task_id s) (sn_execution_id s) (sn_sequence s) (up_status update)
                 (sn_request s) (sn_created_at s) (sn_updated_at s)
                 (max_text (up_read_rows update) (sn_read_rows s))
                 (max_text (up_written_rows update) (sn_written_rows s))
                 (max_text (up_verified_rows update) (sn_verified_rows s))
                 (max_text (up_bytes update) (sn_bytes s))
                 (sn_elapsed_ms s) (sn_preview s) (sn_result s) in
      set_records st (<[task_id := mkEntry (touch e s) (cancel_token record) (execution record)
                                     (plan_id record) (pending_cleanup_errors record)]> (records st))
  end.

Definition finish (e : Env) (st : State) (task_id : str) (res : DataTaskResult) :
  State * result DataTaskSnapshot DataTaskError :=
  if negb (is_terminal (rs_status res)) then (st, Err (new_error "invalid_state" "结果必须为终态"))
  else
    match records st !! task_id with
    | None => (st, Err missing)
    | Some record =>
      if terminal record then (st, Ok (snapshot_of record))
      else
        let res := add_cleanup res (pending_cleanup_errors record) in
        let s := touch e (set_outcome (rs_status res) None (Some res) (snapshot_of record)) in
        let st := mkState (<[task_id := mkEntry s (cancel_token record) (execution record)
                                          (plan_id record) []]> (records st))
                    (cancelled_before_register st)
                    (if bool_decide (writer st = Some task_id) then None else writer st) (tokens st) in
        (trim e st, Ok s)
    end.

Definition list_tasks (e : Env) (st : State) : State * list DataTaskSnapshot :=
  let st := expire e st in
  (st, sort_by (newest_first sn_created_at) (map (fun '(_, r) => snapshot_of r) (env_order e (records st)))).

(** [discard] releases the lock between [list] and [cancel]: [other] is what
    the other threads do in between. *)
Definition discard (e1 : Env) (other : State -> State) (e2 : Env) (st : State) (plan : str) :
  State * result (option DataTaskSnapshot) DataTaskError :=
  let '(st, tasks) := list_tasks e1 st in
  let st := other st in
  match find_first (fun s => is_some_and (fun p => str_eqb (pv_plan_id p) plan) (sn_preview s)) tasks with
  | None => (st, Ok None)
  | Some s =>
    if is_some (sn_execution_id s) then (st, Err (new_error "task_busy" "运行中计划不能被丢弃"))
    else
      let '(st, r) := cancel e2 st (sn_task_id s) in
      (st, let? s := r in Ok (Some s))
  end.

Definition has_active (e : Env) (st : State) : State * bool :=
  let '(st, tasks) := list_tasks e st in
  (st, existsb (fun s => negb (is_terminal (sn_status s)) && negb (status_eqb (sn_status s) Ready)) tasks).

(** [entry(..).or_insert(..)] of one snapshot: the record, with its fresh
    token, is built even when the entry is occupied. *)
Definition restore_one (st : State) (s : DataTaskSnapshot) : State :=
  let st' := mkState (records st) (cancelled_before_register st) (writer st) (tokens st ++ [true]) in
  match records st !! sn_task_id s with
  | Some _ => st'
  | None => set_records st' (<[sn_task_id s := mkEntry s (length (tokens st)) None None []]> (records st))
  end.

Definition restore (st : State) (snapshots : list DataTaskSnapshot) : State :=
  fold_left restore_one (take 100 snapshots) st.

Definition append_cleanup_error (e : Env) (st : State) (task_id message : str) : State :=
  match records st !! task_id with
  | None => st
  | Some record =>
    let s := snapshot_of record in
    let record :=
      if is_terminal (sn_status s)
      then
        let r := default (mkResult (sn_status s) CsNone [] None [] false) (sn_result s) in
        let r := add_cleanup r (pending_cleanup_errors record ++ [message]) in
        mkEntry (touch e (set_outcome (sn_status s) (sn_preview s) (Some r) s)) (cancel_token record)
          (execution record) (plan_id record) []
      else mkEntry s (cancel_token record) (execution record) (plan_id record)
             (pending_cleanup_errors record ++ [message]) in
    set_records st (<[task_id := record]> (records st))
  end.

(** ** The transition system

    Any thread may call any method with any arguments; the executor reads the
    tokens only and sets one when it cannot persist its progress.  [restore]
    is called with the recovered history. *)
Inductive step (valid_uuid : str -> bool) : State -> State -> Prop :=
| StepRegister e st id request :
    wf_env e -> step valid_uuid st (register_preview e st id request).1
| StepReady e st id preview : wf_env e -> step valid_uuid st (set_ready e st id preview).1
| StepBegin e st input : wf_env e -> step valid_uuid st (begin_execution valid_uuid e st input).1
| StepCancel e st id : wf_env e -> step valid_uuid st (cancel e st id).1
| StepSnapshot e st id : wf_env e -> step valid_uuid st (snapshot e st id).1
| StepProgress e st id update : wf_env e -> step valid_uuid st (progress e st id update)
| StepFinish e st id res : wf_env e -> step valid_uuid st (finish e st id res).1
| StepList e st : wf_env e -> step valid_uuid st (list_tasks e st).1
| StepActive e st : wf_env e -> step valid_uuid st (has_active e st).1
| StepRestore st snapshots : Forall recovered snapshots -> step valid_uuid st (restore st snapshots)
| StepCleanup e st id message : wf_env e -> step valid_uuid st (append_cleanup_error e st id message)
| StepStore st t : step valid_uuid st
    (mkState (records st) (cancelled_before_register st) (writer st) (store t (tokens st))).

Definition reachable (valid_uuid : str -> bool) : State -> Prop := rtc (step valid_uuid) initial.

(** A concrete run: a preview is registered, becomes ready and is started. *)
Definition sample_env : Env := mkEnv 1000 1000 (fun _ => (1000, 1001)) map_to_list.
Definition sample_uuid (s : str) : bool := str_eqb s (u "e1").
Definition sample_preview : DataTaskPreview :=
  mkPreview (u "a") (u "p1") (u "f") (mkEndpoint (u "source") (u "main"))
    (mkEndpoint (u "target") (u "main")) RowSync Merge [] (u "1") (u "1") (u "2000")
    [mkRisk (u "k") (u "delete") true] [] true [].
Definition sample_input : ExecuteDataTaskInput := mkExecute (u "p1") (u "f") (u "e1") [u "k"].
Definition sample_st1 : State := (register_preview sample_env initial (u "a") sample_request).1.
Definition sample_st2 : State := (set_ready sample_env sample_st1 (u "a") sample_preview).1.
Definition sample_st3 : State := (begin_execution sample_uuid sample_env sample_st2 sample_input).1.
Definition sample_failed : DataTaskResult := mkResult Failed CsRolledBack [] None [] false.
Definition sample_st4 : State := (finish sample_env sample_st3 (u "a") sample_failed).1.

(** ** Specification *)

(** The outcome of a terminal task is final: only cleanup errors are added. *)
Definition outcome_kept (o o' : option DataTaskResult) : Prop :=
  match o with None => True | Some x => exists errors, o' = Some (add_cleanup x errors) end.

(** What the start of the execution [s] has checked of its task's record and
    preview [p], and what it leaves. *)
Definition properly_started (e : Env) (st : State) (input : ExecuteDataTaskInput) (st' : State) (s : DataTaskSnapshot)
  (tok : Cancellation) (p : DataTaskPreview) : Prop := exists r,
  records st !! sn_task_id s = Some r /\ has_plan (ex_plan_id input) r = true /\
  sn_status (snapshot_of r) = Ready /\ sn_preview (snapshot_of r) = Some p /\
  env_now e < parse_or_zero (pv_expires_at p) /\
  pv_fingerprint p = ex_fingerprint input /\ pv_can_execute p = true /\
  (forall k, k ∈ pv_risks p -> rk_required k = true -> rk_id k ∈ ex_accepted_risk_ids input) /\
  writer st = None /\ execution r = None /\
  writer st' = Some (sn_task_id s) /\ tok = cancel_token r /\
  sn_status s = Executing /\ sn_execution_id s = Some (ex_execution_id input) /\
  exists r', records st' !! sn_task_id s = Some r' /\ snapshot_of r' = s /\ execution r' = Some input.

(** A task in a phase before [Executing]. *)
Definition not_started (r : Entry) : Prop := phase (sn_status (snapshot_of r)) <= 4.

(** What a step other than a start of execution does to a record. *)
Record evolves (r r' : Entry) : Prop := {
  ev_id : sn_task_id (snapshot_of r') = sn_task_id (snapshot_of r);
  ev_token : cancel_token r' = cancel_token r;
  ev_exec : execution r' = execution r;
  ev_exec_id : sn_execution_id (snapshot_of r') = sn_execution_id (snapshot_of r);
  ev_terminal : terminal r = true ->
    sn_status (snapshot_of r') = sn_status (snapshot_of r) /\
    outcome_kept (sn_result (snapshot_of r)) (sn_result (snapshot_of r'));
  ev_live : terminal r = false -> execution r <> None -> terminal r' = false \/ not_started r;
  ev_start : not_started r' -> execution r = None \/ not_started r;
}.

(** Every record evolves; terminal ones may be removed; none appears. *)
Definition shrinks (m m' : gmap str Entry) : Prop := forall id,
  match m !! id, m' !! id with
  | Some r, Some r' => evolves r r'
  | Some r, None => terminal r = true
  | None, None => True
  | None, Some _ => False
  end.

Definition previews (m : gmap str Entry) : gset str :=
  dom (filter (fun '(_, r) => is_preview r = true) m).

Record Inv (st : State) : Prop := {
  inv_key id r : records st !! id = Some r -> sn_task_id (snapshot_of r) = id;
  inv_exec id r : records st !! id = Some r -> terminal r = false ->
    sn_execution_id (snapshot_of r) = ex_execution_id <$> execution r;
  inv_idle id r : records st !! id = Some r -> not_started r -> execution r = None;
  inv_writer id r : records st !! id = Some r -> terminal r = false -> execution r <> None ->
    writer st = Some id;
  inv_live id : writer st = Some id ->
    exists r, records st !! id = Some r /\ terminal r = false /\ execution r <> None;
  inv_previews : (size (previews (records st)) <= 3)%nat;
  inv_alloc id r : records st !! id = Some r -> (cancel_token r < length (tokens st))%nat;
  inv_tokens id id' r r' : records st !! id = Some r -> records st !! id' = Some r' ->
    cancel_token r = cancel_token r' -> id = id';
}.

(** ** Proofs *)

Lemma size_list_to_set_le (l : list str) : (size (list_to_set l : gset str) <= length l)%nat.
Proof.
  induction l as [|x l IH]; [by rewrite list_to_set_nil, size_empty|].
  rewrite list_to_set_cons, size_union_alt, size_singleton. cbn [length].
  assert (size (list_to_set l ∖ {[x]} : gset str) <= size (list_to_set l : gset str))%nat
    by (apply subseteq_size; set_solver). lia.
Qed.

Lemma elem_of_previews m id :
  id ∈ previews m <-> exists r, m !! id = Some r /\ is_preview r = true.
Proof.
  unfold previews. rewrite elem_of_dom. split.
  - intros [r H]. apply map_lookup_filter_Some in H. eauto.
  - intros (r & H & P). exists r. by apply map_lookup_filter_Some.
Qed.

Lemma order_elem e m id r : wf_env e -> (id, r) ∈ env_order e m <-> m !! id = Some r.
Proof. intros W. rewrite (wf_order e W m). apply elem_of_map_to_list. Qed.

Lemma order_snd e m r : wf_env e -> r ∈ map snd (env_order e m) -> exists id, m !! id = Some r.
Proof.
  intros W H. apply list_elem_of_fmap in H as ([id r'] & -> & H). apply order_elem in H; eauto.
Qed.

Lemma previews_count e m : wf_env e ->
  Z.of_nat (size (previews m)) <= zlen (filter (fun r => is_preview r = true) (map snd (env_order e m))).
Proof.
  intros W. set (l := filter (fun '(_, r) => is_preview r = true) (env_order e m)).
  assert (length (filter (fun r => is_preview r = true) (map snd (env_order e m))) = length l) as E.
  { subst l. induction (env_order e m) as [|[i r] k IH]; [done|]. cbn [map]. rewrite !filter_cons.
    cbn [snd]. destruct (decide (is_preview r = true)); cbn [length]; lia. }
  unfold zlen. rewrite E. apply inj_le. rewrite <- (length_map fst l).
  etransitivity; [|apply size_list_to_set_le]. apply subseteq_size.
  intros id (r & Hr & P)%elem_of_previews. apply elem_of_list_to_set, list_elem_of_fmap.
  exists (id, r). split; [done|]. subst l. apply list_elem_of_filter. split; [done|].
  by apply order_elem.
Qed.

Lemma add_cleanup_nil x : add_cleanup x [] = x.
Proof. destruct x. unfold add_cleanup. simpl. by rewrite app_nil_r. Qed.

Lemma outcome_kept_refl o : outcome_kept o o.
Proof. destruct o as [x|]; simpl; [|done]. exists []. by rewrite add_cleanup_nil. Qed.

Lemma evolves_refl r : evolves r r.
Proof. split; auto using outcome_kept_refl. Qed.
#[export] Hint Resolve evolves_refl outcome_kept_refl : rust.

Lemma evolves_preview r r' : evolves r r' -> is_preview r' = true -> is_preview r = true.
Proof.
  intros [? ? ? Hid HT _ _]. unfold is_preview. rewrite Hid. intros [T P]%andb_true_iff.
  apply andb_true_iff. split; [|done]. apply negb_true_iff. apply negb_true_iff in T.
  destruct (terminal r) eqn:E; [|done]. destruct (HT eq_refl) as [S _].
  unfold terminal in *. congruence.
Qed.

Lemma shrinks_refl m : shrinks m m.
Proof. intros id. destruct (m !! id); auto with rust. Qed.

(** Replacing one record by one it evolves to. *)
Lemma shrinks_insert m id r r' : m !! id = Some r -> evolves r r' -> shrinks m (<[id := r']> m).
Proof.
  intros H E id'. destruct (decide (id = id')) as [<-|].
  - by rewrite H, lookup_insert_eq.
  - rewrite lookup_insert_ne by done. apply shrinks_refl.
Qed.

Lemma shrinks_sub m m' id r' :
  shrinks m m' -> m' !! id = Some r' -> exists r, m !! id = Some r /\ evolves r r'.
Proof. intros H E. specialize (H id). rewrite E in H. destruct (m !! id); [eauto|done]. Qed.

Lemma shrinks_previews m m' : shrinks m m' -> previews m' ⊆ previews m.
Proof.
  intros H id (r' & Hr & P)%elem_of_previews. destruct (shrinks_sub _ _ _ _ H Hr) as (r & Hm & E).
  apply elem_of_previews. exists r. split; [done|]. by eapply evolves_preview.
Qed.

Lemma evolves_nonterminal r r' : evolves r r' -> terminal r' = false -> terminal r = false.
Proof.
  intros E T. destruct (terminal r) eqn:R; [|done]. destruct (ev_terminal _ _ E R) as [S _].
  unfold terminal in *. congruence.
Qed.

(** Only what can change the writer needs more than [shrinks]. *)
Lemma shrinks_inv st st' :
  Inv st -> shrinks (records st) (records st') -> writer st' = writer st ->
  (length (tokens st) <= length (tokens st'))%nat -> Inv st'.
Proof.
  intros I S W T. split.
  - intros id r' H. destruct (shrinks_sub _ _ _ _ S H) as (r & Hr & E).
    rewrite (ev_id _ _ E). by apply (inv_key st).
  - intros id r' H NT. destruct (shrinks_sub _ _ _ _ S H) as (r & Hr & E).
    rewrite (ev_exec_id _ _ E), (ev_exec _ _ E). apply (inv_exec st I id); [done|].
    by eapply evolves_nonterminal.
  - intros id r' H N. destruct (shrinks_sub _ _ _ _ S H) as (r & Hr & E).
    rewrite (ev_exec _ _ E). destruct (ev_start _ _ E N); [done|]. by eapply (inv_idle st).
  - intros id r' H NT X. destruct (shrinks_sub _ _ _ _ S H) as (r & Hr & E).
    rewrite (ev_exec _ _ E) in X. rewrite W. eapply (inv_writer st); eauto using evolves_nonterminal.
  - intros id H. rewrite W in H. destruct (inv_live st I id H) as (r & Hr & NT & X).
    specialize (S id). rewrite Hr in S. destruct (records st' !! id) as [r'|]; [|congruence].
    exists r'. split; [done|]. rewrite (ev_exec _ _ S). split; [|done].
    destruct (ev_live _ _ S NT X) as [|N]; [done|]. by rewrite (inv_idle st I id r) in X.
  - etransitivity; [|apply (inv_previews st I)]. by apply subseteq_size, shrinks_previews.
  - intros id r' H. destruct (shrinks_sub _ _ _ _ S H) as (r & Hr & E).
    rewrite (ev_token _ _ E). pose proof (inv_alloc st I id r Hr). lia.
  - intros id id' r1 r2 H1 H2. destruct (shrinks_sub _ _ _ _ S H1) as (q1 & Q1 & E1).
    destruct (shrinks_sub _ _ _ _ S H2) as (q2 & Q2 & E2).
    rewrite (ev_token _ _ E1), (ev_token _ _ E2). by apply (inv_tokens st I).
Qed.

(** *** [touch], [expire] and [trim] *)

Lemma touch_fields e s :
  sn_task_id (touch e s) = sn_task_id s /\ sn_execution_id (touch e s) = sn_execution_id s /\
  sn_status (touch e s) = sn_status s /\ sn_request (touch e s) = sn_request s /\
  sn_preview (touch e s) = sn_preview s /\ sn_result (touch e s) = sn_result s.
Proof. unfold touch. destruct (env_touch e (sn_task_id s)). done. Qed.

Ltac touch_simpl :=
  repeat match goal with
  | |- context [touch ?e ?s] =>
      let H := fresh in
      pose proof (touch_fields e s) as H; destruct H as (? & ? & ? & ? & ? & ?);
      generalize dependent (touch e s); intros
  end.

Lemma due_status now r : due now r = true -> sn_status (snapshot_of r) = Ready.
Proof. unfold due, status_eqb. intros H. by to_prop. Qed.

Lemma expire_record_evolves e r : evolves r (expire_record e r).
Proof.
  unfold expire_record. destruct (due (env_now e) r) eqn:D; [|auto with rust].
  apply due_status in D. touch_simpl. split; simpl in *; try congruence.
  - unfold terminal. rewrite D. done.
  - intros _ _. right. unfold not_started. by rewrite D.
  - intros _. right. unfold not_started. by rewrite D.
Qed.

Lemma expire_lookup e st id : records (expire e st) !! id = expire_record e <$> records st !! id.
Proof. unfold expire. cbn [records]. apply lookup_fmap. Qed.

Lemma expire_shrinks e st : shrinks (records st) (records (expire e st)).
Proof.
  intros id. rewrite expire_lookup. destruct (records st !! id); simpl; [|done].
  apply expire_record_evolves.
Qed.

Lemma store_length t ts : length (store t ts) = length ts.
Proof. unfold store. apply length_insert. Qed.

Lemma store_length_le t ts : (length ts <= length (store t ts))%nat.
Proof. by rewrite store_length. Qed.
#[export] Hint Resolve store_length_le : rust.

Lemma expire_tokens_length e st : length (tokens (expire e st)) = length (tokens st).
Proof.
  unfold expire. cbn [tokens]. generalize (tokens st).
  induction (map snd (env_order e (records st))) as [|r l IH]; intros ts; simpl; [done|].
  rewrite IH. destruct (due (env_now e) r); [apply store_length|done].
Qed.

Lemma expire_inv e st : Inv st -> Inv (expire e st).
Proof.
  intros I. eapply shrinks_inv; [exact I|apply expire_shrinks|done|]. by rewrite expire_tokens_length.
Qed.

Lemma delete_all_lookup (ids : list str) (m : gmap str Entry) id :
  fold_left (fun m id => delete id m) ids m !! id = if bool_decide (id ∈ ids) then None else m !! id.
Proof.
  revert m. induction ids as [|x ids IH]; intros m; simpl; [done|]. rewrite IH.
  destruct (decide (id = x)) as [->|N].
  - rewrite lookup_delete_eq, (bool_decide_eq_true_2 (x ∈ x :: ids)) by left. by case_bool_decide.
  - rewrite lookup_delete_ne by done. do 2 case_bool_decide; set_solver.
Qed.

Definition terminal_ids (m : gmap str Entry) : gset str :=
  dom (filter (fun '(_, r) => terminal r = true) m).

Lemma elem_of_terminal_ids m id :
  id ∈ terminal_ids m <-> exists r, m !! id = Some r /\ terminal r = true.
Proof.
  unfold terminal_ids. rewrite elem_of_dom. split.
  - intros [r H]. apply map_lookup_filter_Some in H. eauto.
  - intros (r & H & P). exists r. by apply map_lookup_filter_Some.
Qed.

Section Trim.
Context (e : Env) (W : wf_env e) (st : State).

Definition terminal_times : list (str * Z) :=
  sort_by (cmp_on snd Z.compare)
    (map (fun '(id, r) => (id, parse_or_zero (sn_updated_at (snapshot_of r))))
       (filter (fun '(_, r) => terminal r = true) (env_order e (records st)))).
Definition trimmed_ids : list str := map fst (take (length terminal_times - 100) terminal_times).

Lemma trim_lookup id :
  records (trim e st) !! id = if bool_decide (id ∈ trimmed_ids) then None else records st !! id.
Proof. unfold trim. cbn [records]. apply delete_all_lookup. Qed.

Lemma terminal_times_elem id t :
  (id, t) ∈ terminal_times <->
  exists r, records st !! id = Some r /\ terminal r = true /\
    t = parse_or_zero (sn_updated_at (snapshot_of r)).
Proof.
  unfold terminal_times. rewrite sort_by_elem, list_elem_of_fmap. split.
  - intros ([i r] & [= -> ->] & H). apply list_elem_of_filter in H as [T H].
    exists r. split; [|done]. by apply (order_elem e).
  - intros (r & H & T & ->). exists (id, r). split; [done|].
    apply list_elem_of_filter. split; [done|]. by apply order_elem.
Qed.

Lemma trimmed_terminal id : id ∈ trimmed_ids -> exists r, records st !! id = Some r /\ terminal r = true.
Proof.
  intros H. apply list_elem_of_fmap in H as ([i t] & -> & H).
  assert ((i, t) ∈ terminal_times) as (r & Hr & T & _)%terminal_times_elem
    by (rewrite <- (take_drop (length terminal_times - 100) terminal_times); set_solver).
  eauto.
Qed.

Lemma terminal_times_length : (length terminal_times <= size (terminal_ids (records st)))%nat.
Proof.
  assert (ND : NoDup (map fst terminal_times)).
  { unfold terminal_times. rewrite sort_by_perm, map_map.
    rewrite (wf_order e W). pose proof (NoDup_fst_map_to_list (records st)) as N.
    induction (map_to_list (records st)) as [|[i r] l IH]; [constructor|].
    cbn in N. apply NoDup_cons in N as [N1 N2]. rewrite filter_cons.
    destruct (decide (terminal r = true)); [|by apply IH]. cbn. apply NoDup_cons. split; [|by apply IH].
    intros H. destruct N1. apply list_elem_of_fmap in H as ([j q] & -> & H).
    apply list_elem_of_fmap. exists (j, q). apply list_elem_of_filter in H. by destruct H. }
  rewrite <- (length_map fst), <- (size_list_to_set (C:=gset str)) by done.
  apply subseteq_size. intros id H%elem_of_list_to_set. apply list_elem_of_fmap in H as ([i t] & -> & H).
  apply terminal_times_elem in H as (r & H & R & _). apply elem_of_terminal_ids. eauto.
Qed.

Lemma trim_shrinks : shrinks (records st) (records (trim e st)).
Proof.
  intros id. rewrite trim_lookup. case_bool_decide as H.
  - destruct (trimmed_terminal id H) as (r & -> & T). done.
  - destruct (records st !! id); auto with rust.
Qed.

Lemma trim_inv : Inv st -> Inv (trim e st).
Proof. intros I. eapply shrinks_inv; [exact I|apply trim_shrinks|done|done]. Qed.
End Trim.

(** Trimming keeps at most one hundred finished tasks, never removes an
    unfinished one, changes no record it keeps, removes nothing while there
    are at most a hundred, and removes the least recently updated. *)
Theorem trim_keeps_newest e st :
  wf_env e ->
  let m := records st in
  let m' := records (trim e st) in
  (size (terminal_ids m') <= 100)%nat /\
  (forall id r, m !! id = Some r -> terminal r = false -> m' !! id = Some r) /\
  (forall id r, m' !! id = Some r -> m !! id = Some r) /\
  ((size (terminal_ids m) <= 100)%nat -> m' = m) /\
  (forall id r id' r', m !! id = Some r -> m' !! id = None -> m' !! id' = Some r' ->
     terminal r' = true ->
     parse_or_zero (sn_updated_at (snapshot_of r)) <= parse_or_zero (sn_updated_at (snapshot_of r'))).
Proof.
  intros W m m'. subst m m'. set (T := terminal_times e st).
  assert (D : forall id r, records (trim e st) !! id = Some r -> terminal r = true ->
    exists t, (id, t) ∈ drop (length T - 100) T /\ t = parse_or_zero (sn_updated_at (snapshot_of r))).
  { intros id r. rewrite trim_lookup. case_bool_decide as N; [done|]. intros H R.
    exists (parse_or_zero (sn_updated_at (snapshot_of r))). split; [|done].
    assert ((id, parse_or_zero (sn_updated_at (snapshot_of r))) ∈ T) as E
      by (apply terminal_times_elem; eauto).
    rewrite <- (take_drop (length T - 100) T) in E. apply elem_of_app in E as [E|E]; [|done].
    destruct N. unfold trimmed_ids. apply list_elem_of_fmap. by eexists (id, _). }
  split_and!.
  - transitivity (length (map fst (drop (length T - 100) T))).
    2:{ rewrite length_map, length_drop. lia. }
    etransitivity; [|apply size_list_to_set_le]. apply subseteq_size.
    intros id (r & H & R)%elem_of_terminal_ids. destruct (D id r H R) as (t & Ht & _).
    apply elem_of_list_to_set, list_elem_of_fmap. by exists (id, t).
  - intros id r H R. rewrite trim_lookup. case_bool_decide as N; [|done].
    destruct (trimmed_terminal e W st id N) as (r' & ? & ?). congruence.
  - intros id r. rewrite trim_lookup. by case_bool_decide.
  - intros S. apply map_eq. intros id. rewrite trim_lookup. case_bool_decide as N; [|done]. exfalso.
    assert (length T <= size (terminal_ids (records st)))%nat as L by apply (terminal_times_length e W st).
    unfold trimmed_ids in N. fold T in N. replace (length T - 100)%nat with 0%nat in N by lia.
    simpl in N. set_solver.
  - intros id r id' r' H N H' R'. destruct (D id' r' H' R') as (t' & Ht & ->).
    rewrite trim_lookup in N. case_bool_decide as Q; [|congruence].
    apply list_elem_of_fmap in Q as ([i t] & -> & Q).
    assert ((i, t) ∈ T) as (r2 & H2 & _ & ->)%terminal_times_elem
      by (rewrite <- (take_drop (length T - 100) T); set_solver); [|done].
    cbn [fst] in H. rewrite H in H2. injection H2 as <-.
    pose proof (sorted_take_drop (cmp_on snd Z.compare) _ _ _ _ (sort_by_sorted _ _) Q Ht) as C.
    unfold cmp_le, cmp_on in C. cbn [snd] in C. by rewrite Z.compare_le_iff in C.
Qed.

(** *** What every step guarantees *)

Definition keeps_terminal (m m' : gmap str Entry) : Prop := forall id r,
  m !! id = Some r -> terminal r = true ->
  m' !! id = None \/ exists r', m' !! id = Some r' /\
    sn_status (snapshot_of r') = sn_status (snapshot_of r) /\
    outcome_kept (sn_result (snapshot_of r)) (sn_result (snapshot_of r')).

Definition sticky (ts ts' : list bool) : Prop := forall t, load ts t = true -> load ts' t = true.

Record Good (st st' : State) : Prop := {
  good_inv : Inv st';
  good_terminal : keeps_terminal (records st) (records st');
  good_tokens : sticky (tokens st) (tokens st');
}.

Lemma shrinks_keeps m m' : shrinks m m' -> keeps_terminal m m'.
Proof.
  intros S id r H T. specialize (S id). rewrite H in S. destruct (m' !! id) as [r'|]; [|by left].
  right. exists r'. split; [done|]. by apply (ev_terminal _ _ S).
Qed.

Lemma add_cleanup_app x a b : add_cleanup (add_cleanup x a) b = add_cleanup x (a ++ b).
Proof. unfold add_cleanup. simpl. by rewrite app_assoc. Qed.

Lemma outcome_kept_trans a b c : outcome_kept a b -> outcome_kept b c -> outcome_kept a c.
Proof.
  destruct a as [x|]; simpl; [|done]. intros [e1 ->]. simpl. intros [e2 ->]. exists (e1 ++ e2).
  by rewrite add_cleanup_app.
Qed.

(** Composition: a record removed by the first part must not come back. *)
Lemma keeps_terminal_trans m m1 m2 :
  (forall id, m1 !! id = None -> m2 !! id = None \/ m !! id = None) ->
  keeps_terminal m m1 -> keeps_terminal m1 m2 -> keeps_terminal m m2.
Proof.
  intros N K1 K2 id r H T. destruct (K1 id r H T) as [E|(r1 & H1 & S1 & O1)].
  - left. destruct (N id E); congruence.
  - destruct (K2 id r1 H1) as [|(r2 & H2 & S2 & O2)]; [|by left|].
    { unfold terminal in *. congruence. }
    right. exists r2. split; [done|]. split; [congruence|]. by eapply outcome_kept_trans.
Qed.

Lemma sticky_refl ts : sticky ts ts.
Proof. by intros t. Qed.
Lemma sticky_trans a b c : sticky a b -> sticky b c -> sticky a c.
Proof. unfold sticky. auto. Qed.
Lemma sticky_app ts k : sticky ts (ts ++ k).
Proof.
  intros t. unfold load. destruct (ts !! t) as [b|] eqn:E; [|done].
  by rewrite (lookup_app_l_Some _ _ _ _ E).
Qed.
Lemma load_store ts t t' :
  load (store t ts) t' = if bool_decide (t = t' /\ (t < length ts)%nat) then true else load ts t'.
Proof.
  unfold load, store. case_bool_decide as H.
  - destruct H as [<- H]. by rewrite list_lookup_insert_eq.
  - destruct (decide (t = t')) as [<-|]; [|by rewrite list_lookup_insert_ne].
    rewrite list_insert_ge; [done|]. apply Nat.nlt_ge. intros ?. by apply H.
Qed.
Lemma sticky_store t ts : sticky ts (store t ts).
Proof. intros t' H. rewrite load_store. by case_bool_decide. Qed.
#[export] Hint Resolve sticky_refl sticky_app sticky_store shrinks_keeps shrinks_refl expire_inv trim_inv
  expire_shrinks trim_shrinks : rust.

Lemma expire_sticky e st : sticky (tokens st) (tokens (expire e st)).
Proof.
  unfold expire. cbn [tokens]. generalize (tokens st).
  induction (map snd (env_order e (records st))) as [|r l IH]; intros ts; simpl; [by intros t|].
  eapply sticky_trans; [|apply IH]. destruct (due (env_now e) r); auto with rust.
Qed.

Lemma good_refl st : Inv st -> Good st st.
Proof. intros I. split; auto with rust. Qed.

(** A step that only lets records evolve. *)
Lemma good_shrinks st st' :
  Inv st -> shrinks (records st) (records st') -> writer st' = writer st ->
  (length (tokens st) <= length (tokens st'))%nat -> sticky (tokens st) (tokens st') -> Good st st'.
Proof. intros. split; auto with rust. by eapply shrinks_inv. Qed.

Lemma good_expire e st : Inv st -> Good st (expire e st).
Proof.
  intros I. apply good_shrinks; auto with rust; [by rewrite expire_tokens_length|apply expire_sticky].
Qed.

Lemma good_trim e st st' : wf_env e -> Good st st' -> Good st (trim e st').
Proof.
  intros W [I K T]. split; auto with rust.
  eapply keeps_terminal_trans; [|exact K|auto with rust].
  intros id H. left. pose proof (trim_shrinks e W st' id) as S. rewrite H in S.
  by destruct (records (trim e st') !! id).
Qed.

Lemma good_after_expire e st st' : Inv st -> Good (expire e st) st' -> Good st st'.
Proof.
  intros I [I' K T]. split; [done| |].
  - eapply keeps_terminal_trans; [|auto with rust|exact K].
    intros id. rewrite expire_lookup. intros H. right. by destruct (records st !! id).
  - eapply sticky_trans; [apply expire_sticky|done].
Qed.

(** One record evolves. *)
Lemma good_insert st st' id r r' :
  Inv st -> records st !! id = Some r -> evolves r r' -> records st' = <[id := r']> (records st) ->
  writer st' = writer st -> (length (tokens st) <= length (tokens st'))%nat ->
  sticky (tokens st) (tokens st') -> Good st st'.
Proof.
  intros I H E R ? ? ?. apply good_shrinks; auto. rewrite R. by eapply shrinks_insert.
Qed.

(** *** The operations *)

Lemma register_good e st id request :
  wf_env e -> Inv st -> Good st (register_preview e st id request).1.
Proof.
  intros W I. unfold register_preview.
  destruct (validate request); [|by apply good_refl].
  destruct (_ || _); [by apply good_refl|]. apply (good_after_expire e); [done|].
  pose proof (expire_inv e st I) as I1. set (st1 := expire e st) in *. clearbody st1.
  destruct (records st1 !! id) as [r|] eqn:H.
  { destruct (bool_decide _); by apply good_refl. }
  destruct (3 <=? _) eqn:L; [by apply good_refl|]. to_prop.
  cbn [fst]. apply good_trim; [done|].
  set (c := bool_decide (id ∈ _)). set (r := mkEntry (new_snapshot e id request c) _ None None []).
  assert (Fr : forall id' q, records st1 !! id' = Some q -> id' <> id) by (intros ? ? ? ->; congruence).
  split; cbn [records tokens].
  2:{ intros id' q Hq T. right. exists q. pose proof (Fr _ _ Hq).
      rewrite lookup_insert_ne by done. auto with rust. }
  2:{ apply sticky_app. }
  split; cbn [records tokens writer].
  - intros id' q [[<- <-]|[? Hq]]%lookup_insert_Some; [done|]. by apply (inv_key st1).
  - intros id' q [[<- <-]|[? Hq]]%lookup_insert_Some; [done|]. by apply (inv_exec st1 I1 id').
  - intros id' q [[<- <-]|[? Hq]]%lookup_insert_Some; [done|]. by apply (inv_idle st1 I1 id').
  - intros id' q [[<- <-]|[? Hq]]%lookup_insert_Some; [done|]. by apply (inv_writer st1 I1 id').
  - intros id' Hw. destruct (inv_live st1 I1 id' Hw) as (q & Hq & P). exists q.
    rewrite lookup_insert_ne; [done|]. intros ->. congruence.
  - assert (size (previews (records st1)) <= 2)%nat
      by (pose proof (previews_count e (records st1) W); lia).
    transitivity (size ({[id]} ∪ previews (records st1))).
    + apply subseteq_size. intros id' (q & Hq & P)%elem_of_previews.
      apply lookup_insert_Some in Hq as [[<- _]|[_ Hq]]; [set_solver|].
      apply elem_of_union_r, elem_of_previews. eauto.
    + rewrite size_union_alt, size_singleton.
      assert (size (previews (records st1) ∖ {[id]}) <= size (previews (records st1)))%nat
        by (apply subseteq_size; set_solver). lia.
  - intros id' q. rewrite length_app. cbn [length].
    intros [[<- <-]|[? Hq]]%lookup_insert_Some; [subst r; simpl; lia|].
    pose proof (inv_alloc st1 I1 _ _ Hq). lia.
  - intros i j q1 q2 [[<- <-]|[? H1]]%lookup_insert_Some [[<- <-]|[? H2]]%lookup_insert_Some E.
    + done.
    + pose proof (inv_alloc st1 I1 _ _ H2). subst r. simpl in E. lia.
    + pose proof (inv_alloc st1 I1 _ _ H1). subst r. simpl in E. lia.
    + by apply (inv_tokens st1 I1 i j q1 q2).
Qed.

Lemma set_ready_good e st id preview : Inv st -> Good st (set_ready e st id preview).1.
Proof.
  intros I. unfold set_ready. destruct (records st !! id) as [r|] eqn:H; [|by apply good_refl].
  destruct (_ || terminal r) eqn:T; [by apply good_refl|]. to_prop.
  destruct (negb _ || _) eqn:B; [by apply good_refl|]. to_prop.
  pose proof (inv_exec st I id r H) as X. unfold is_some in *.
  destruct (sn_execution_id (snapshot_of r)) eqn:N; [done|].
  assert (execution r = None) as E.
  { destruct (execution r); [|done]. specialize (X ltac:(done)). discriminate. }
  touch_simpl. eapply good_insert; [exact I|exact H| |reflexivity|..]; auto with rust.
  split; simpl in *; try congruence. by left.
Qed.

Lemma good_progress e st id update : Inv st -> Good st (progress e st id update).
Proof.
  intros I. unfold progress. destruct (records st !! id) as [r|] eqn:H; [|by apply good_refl].
  destruct (_ || _ || _ || _) eqn:B; [by apply good_refl|]. to_prop.
  touch_simpl. eapply good_insert; [exact I|exact H| |reflexivity|..]; auto with rust.
  split; simpl in *; try congruence.
  - unfold terminal. congruence.
  - intros _ _. left. unfold terminal. simpl. congruence.
  - unfold not_started. simpl. intros P. right.
    replace (sn_status d) with (up_status update) in P by congruence. lia.
Qed.

Lemma cancel_good e st id : Inv st -> Good st (cancel e st id).1.
Proof.
  intros I. unfold cancel. destruct (records st !! id) as [r|] eqn:H.
  2:{ destruct (_ && _); [|by apply good_refl]. destruct I. by repeat (split; auto with rust). }
  destruct (_ || _) eqn:B; [by apply good_refl|]. to_prop.
  destruct (status_eqb _ Ready || _) eqn:N; touch_simpl;
    (eapply good_insert; [exact I|exact H| |reflexivity|..]; cbn; auto with rust); split; simpl in *; try congruence; unfold terminal, not_started; simpl; try congruence.
  - intros _ _. right. unfold status_eqb in N.
    apply orb_true_iff in N as [N|N]; apply bool_decide_eq_true in N; by rewrite N.
  - replace (sn_status d) with Cancelled by congruence. simpl. lia.
  - intros _ _. left. by replace (sn_status d) with Cancelling by congruence.
  - replace (sn_status d) with Cancelling by congruence. simpl. lia.
Qed.

Lemma begin_checks_ok st r input :
  begin_checks st r input = Ok tt <->
  exists p, sn_preview (snapshot_of r) = Some p /\ sn_status (snapshot_of r) = Ready /\
    execution r = None /\ pv_fingerprint p = ex_fingerprint input /\ pv_can_execute p = true /\
    (forall k, k ∈ pv_risks p -> rk_required k = true -> rk_id k ∈ ex_accepted_risk_ids input) /\
    writer st = None.
Proof.
  unfold begin_checks, status_eqb, is_some. split.
  - intros H. case_if_in H; [done|]. case_if_in H; [done|]. inv_ok.
    exists x. split; [done|]. case_if_in H; [done|]. case_if_in H; [done|]. case_if_in H; [done|].
    to_prop. unfold str_eqb in *. to_prop.
    destruct (execution r); [done|]. destruct (writer st); [done|]. split_and!; try done.
    intros k Hk Rk. rewrite existsb_false_iff in E2. specialize (E2 k Hk). rewrite Rk in E2.
    cbn in E2. by to_prop.
  - intros (p & -> & -> & -> & F & C & R & ->). cbn. unfold str_eqb. rewrite (bool_decide_eq_true_2 _ F), C.
    cbn. destruct (existsb _ _) eqn:X; [|done]. apply existsb_true_iff in X as (k & Hk & X).
    to_prop. destruct H0. auto.
Qed.

(** The successful start of an execution, after [expire]. *)
Lemma begin_execution_ok valid_uuid e st input st' s tok :
  wf_env e -> begin_execution valid_uuid e st input = (st', Ok (s, true, tok)) ->
  exists id r, let st1 := expire e st in
    records st1 !! id = Some r /\ has_plan (ex_plan_id input) r = true /\
    begin_checks st1 r input = Ok tt /\
    s = touch e (set_executing (ex_execution_id input) (snapshot_of r)) /\ tok = cancel_token r /\
    st' = mkState (<[id := mkEntry s tok (Some input) (plan_id r) (pending_cleanup_errors r)]> (records st1))
            (cancelled_before_register st1) (Some id) (tokens st1) /\
    (forall id' r', records st1 !! id' = Some r' -> has_execution_id (ex_execution_id input) r' = false).
Proof.
  intros W. unfold begin_execution. destruct (negb (valid_uuid _)); [congruence|].
  destruct (find_first (has_execution_id _) _) as [q|] eqn:F1; [destruct (bool_decide _); congruence|].
  destruct (find_first (fun '(_, r) => _) _) as [[id q]|] eqn:F2; [|destruct (existsb _ _); congruence].
  apply find_first_some in F2 as [Hin HP]. apply order_elem in Hin; [|done]. rewrite Hin.
  destruct (begin_checks _ q input) as [[]|] eqn:B; [|congruence]. intros [= <- <- <-].
  exists id, q. split_and!; try done. intros id' r' H'.
  eapply find_first_none; [exact F1|]. apply list_elem_of_fmap. exists (id', r'). split; [done|].
  by apply order_elem.
Qed.

Lemma begin_good valid_uuid e st input :
  wf_env e -> Inv st -> Good st (begin_execution valid_uuid e st input).1.
Proof.
  intros W I. destruct (begin_execution valid_uuid e st input) as [st' [[[s b] tok]|err]] eqn:E.
  2:{ cbn. revert E. unfold begin_execution. destruct (negb (valid_uuid _)); [intros [= <- _]; by apply good_refl|].
      repeat case_match; intros [= <- _]; by apply good_expire. }
  destruct b.
  2:{ cbn. revert E. unfold begin_execution. destruct (negb (valid_uuid _)); [congruence|].
      repeat case_match; intros [= <- _]; by apply good_expire. }
  apply begin_execution_ok in E as (id & r & H & _ & C & -> & -> & -> & _); [|done].
  cbn [fst]. apply (good_after_expire e); [done|]. pose proof (expire_inv e st I) as I1.
  set (st1 := expire e st) in *. clearbody st1.
  apply begin_checks_ok in C as (p & P & S & X & _ & _ & _ & Wr).
  assert (NT : terminal r = false) by (unfold terminal; by rewrite S).
  touch_simpl. unfold set_executing in *. simpl in *.
  split; cbn [records tokens].
  2:{ intros id' q Hq T. right. exists q. rewrite lookup_insert_ne by congruence. auto with rust. }
  2:{ auto with rust. }
  assert (V : forall id' q, records st1 !! id' = Some q -> terminal q = false -> execution q = None).
  { intros id' q Hq Tq. destruct (execution q) eqn:Q; [|done].
    rewrite (inv_writer st1 I1 id' q) in Wr; congruence. }
  split; cbn [records tokens writer].
  - intros id' q [[<- <-]|[? Hq]]%lookup_insert_Some; [|by apply (inv_key st1)].
    simpl. rewrite <- (inv_key st1 I1 id r H). congruence.
  - intros id' q [[<- <-]|[? Hq]]%lookup_insert_Some; [done|]. by apply (inv_exec st1 I1 id').
  - intros id' q [[<- <-]|[? Hq]]%lookup_insert_Some; [|by apply (inv_idle st1 I1 id')].
    unfold not_started. simpl. replace (sn_status d) with Executing by congruence. simpl. lia.
  - intros id' q [[<- <-]|[? Hq]]%lookup_insert_Some; [done|]. intros Tq Xq. by rewrite (V id' q) in Xq.
  - intros id' [= <-]. eexists. rewrite lookup_insert_eq. split; [done|]. split; [|done].
    unfold terminal. simpl. by replace (sn_status d) with Executing by congruence.
  - etransitivity; [|apply (inv_previews st1 I1)]. apply subseteq_size.
    intros id' (q & Hq & Pq)%elem_of_previews. apply elem_of_previews.
    apply lookup_insert_Some in Hq as [[<- <-]|[_ Hq]]; [|eauto].
    exfalso. unfold is_preview in Pq. simpl in Pq.
    replace (sn_execution_id d) with (Some (ex_execution_id input)) in Pq by congruence.
    by rewrite andb_false_r in Pq.
  - intros id' q [[<- <-]|[? Hq]]%lookup_insert_Some; [|by apply (inv_alloc st1 I1 id')].
    by apply (inv_alloc st1 I1 id r).
  - intros i j q1 q2 [[<- <-]|[? Q1]]%lookup_insert_Some [[<- <-]|[? Q2]]%lookup_insert_Some Eq.
    + done.
    + by apply (inv_tokens st1 I1 id j r q2).
    + by apply (inv_tokens st1 I1 i id q1 r).
    + by apply (inv_tokens st1 I1 i j q1 q2).
Qed.

Lemma finish_good e st id res : wf_env e -> Inv st -> Good st (finish e st id res).1.
Proof.
  intros W I. unfold finish. destruct (is_terminal (rs_status res)) eqn:T; [|by apply good_refl].
  cbn [negb]. destruct (records st !! id) as [r|] eqn:H; [|by apply good_refl].
  destruct (terminal r) eqn:R; [by apply good_refl|]. cbn [fst]. apply good_trim; [done|].
  touch_simpl. simpl in *.
  assert (Td : is_terminal (sn_status d) = true) by congruence.
  split; cbn [records tokens]; [|intros id' q Hq Tq; right; exists q; rewrite lookup_insert_ne by congruence;
    auto with rust|auto with rust].
  split; cbn [records tokens writer].
  - intros id' q [[<- <-]|[? Hq]]%lookup_insert_Some; [|by apply (inv_key st)].
    simpl. rewrite <- (inv_key st I id r H). congruence.
  - intros id' q [[<- <-]|[? Hq]]%lookup_insert_Some; [|by apply (inv_exec st I id')].
    unfold terminal. simpl. congruence.
  - intros id' q [[<- <-]|[? Hq]]%lookup_insert_Some; [|by apply (inv_idle st I id')].
    unfold not_started. simpl. destruct (sn_status d); try done; simpl; lia.
  - intros id' q [[<- <-]|[? Hq]]%lookup_insert_Some.
    { unfold terminal. simpl. congruence. }
    intros Tq X. rewrite (inv_writer st I id' q Hq Tq X).
    rewrite bool_decide_eq_false_2; [done|]. congruence.
  - intros id'. case_bool_decide as D; [done|]. intros Hw.
    destruct (inv_live st I id' Hw) as (q & Hq & P). exists q.
    rewrite lookup_insert_ne; [done|]. congruence.
  - etransitivity; [|apply (inv_previews st I)]. apply subseteq_size.
    intros id' (q & Hq & Pq)%elem_of_previews. apply elem_of_previews.
    apply lookup_insert_Some in Hq as [[<- <-]|[_ Hq]]; [|eauto].
    exfalso. unfold is_preview, terminal in Pq. simpl in Pq. by rewrite Td in Pq.
  - intros id' q [[<- <-]|[? Hq]]%lookup_insert_Some; [|by apply (inv_alloc st I id')].
    by apply (inv_alloc st I id r).
  - intros i j q1 q2 [[<- <-]|[? Q1]]%lookup_insert_Some [[<- <-]|[? Q2]]%lookup_insert_Some Eq.
    + done.
    + by apply (inv_tokens st I id j r q2).
    + by apply (inv_tokens st I i id q1 r).
    + by apply (inv_tokens st I i j q1 q2).
Qed.

Lemma append_good e st id message : Inv st -> Good st (append_cleanup_error e st id message).
Proof.
  intros I. unfold append_cleanup_error. destruct (records st !! id) as [r|] eqn:H; [|by apply good_refl].
  eapply good_insert; [exact I|exact H| |reflexivity|..]; cbn; auto with rust.
  destruct (is_terminal _) eqn:T.
  - touch_simpl. simpl in *. split; simpl; try congruence.
    + intros _. split; [done|].
      destruct (sn_result (snapshot_of r)) as [x|] eqn:X; [|done].
      cbn in *. eexists. eassumption.
    + unfold terminal. congruence.
    + unfold not_started. simpl. intros. right. congruence.
  - split; simpl; try congruence; auto with rust.
Qed.

Lemma restore_one_good st s : recovered s -> Inv st -> Good st (restore_one st s).
Proof.
  intros [T _] I. unfold restore_one. destruct (records st !! sn_task_id s) as [r|] eqn:H.
  { apply good_shrinks; cbn; auto with rust. rewrite length_app. lia. }
  unfold set_records. set (id := sn_task_id s) in *.
  split; cbn [records tokens cancelled_before_register writer].
  2:{ intros id' q Hq Tq. right. exists q. rewrite lookup_insert_ne by congruence. auto with rust. }
  2:{ auto with rust. }
  split; cbn [records tokens writer].
  - intros id' q [[<- <-]|[? Hq]]%lookup_insert_Some; [done|]. by apply (inv_key st).
  - intros id' q [[<- <-]|[? Hq]]%lookup_insert_Some; [|by apply (inv_exec st I id')].
    unfold terminal. simpl. congruence.
  - intros id' q [[<- <-]|[? Hq]]%lookup_insert_Some; [done|]. by apply (inv_idle st I id').
  - intros id' q [[<- <-]|[? Hq]]%lookup_insert_Some; [done|]. by apply (inv_writer st I id').
  - intros id' Hw. destruct (inv_live st I id' Hw) as (q & Hq & P). exists q.
    rewrite lookup_insert_ne; [done|]. congruence.
  - etransitivity; [|apply (inv_previews st I)]. apply subseteq_size.
    intros id' (q & Hq & Pq)%elem_of_previews. apply elem_of_previews.
    apply lookup_insert_Some in Hq as [[<- <-]|[_ Hq]]; [|eauto].
    exfalso. unfold is_preview, terminal in Pq. simpl in Pq. by rewrite T in Pq.
  - intros id' q. rewrite length_app. cbn [length].
    intros [[<- <-]|[? Hq]]%lookup_insert_Some; [simpl; lia|].
    pose proof (inv_alloc st I _ _ Hq). lia.
  - intros i j q1 q2 [[<- <-]|[? H1]]%lookup_insert_Some [[<- <-]|[? H2]]%lookup_insert_Some E; [done|..].
    + pose proof (inv_alloc st I _ _ H2). simpl in E. lia.
    + pose proof (inv_alloc st I _ _ H1). simpl in E. lia.
    + by apply (inv_tokens st I i j q1 q2).
Qed.

Lemma restore_one_keeps st s id : records st !! id <> None -> records (restore_one st s) !! id <> None.
Proof.
  unfold restore_one, set_records. destruct (records st !! sn_task_id s) eqn:E; cbn; [done|].
  intros H. destruct (decide (sn_task_id s = id)) as [<-|].
  - by rewrite lookup_insert_eq.
  - by rewrite lookup_insert_ne.
Qed.

Lemma restore_good st snapshots : Forall recovered snapshots -> Inv st -> Good st (restore st snapshots).
Proof.
  intros F. unfold restore. assert (F' : Forall recovered (take 100 snapshots)) by by apply Forall_take.
  revert st. induction F' as [|s l Hs _ IH]; intros st I; [by apply good_refl|].
  cbn [fold_left]. pose proof (restore_one_good st s Hs I) as G. destruct G as [I1 K1 T1].
  destruct (IH _ I1) as [I2 K2 T2]. split; [done| |by eapply sticky_trans].
  eapply keeps_terminal_trans; [|exact K1|exact K2].
  intros id E. right. destruct (records st !! id) eqn:Q; [|done].
  destruct (restore_one_keeps st s id); congruence.
Qed.

Lemma step_good valid_uuid st st' : step valid_uuid st st' -> Inv st -> Good st st'.
Proof.
  intros S I. destruct S.
  - by apply register_good.
  - by apply set_ready_good.
  - by apply begin_good.
  - by apply cancel_good.
  - by apply good_expire.
  - by apply good_progress.
  - by apply finish_good.
  - by apply good_expire.
  - by apply good_expire.
  - by apply restore_good.
  - by apply append_good.
  - apply good_shrinks; cbn; auto with rust.
Qed.

Lemma initial_inv : Inv initial.
Proof.
  assert (P : size (previews (records initial)) = 0%nat).
  { unfold previews, initial. cbn [records]. by rewrite map_filter_empty, dom_empty_L, size_empty. }
  split; try (intros *; cbn; rewrite ?lookup_empty; done). rewrite P. lia.
Qed.

Lemma reachable_inv valid_uuid st : reachable valid_uuid st -> Inv st.
Proof.
  intros R. unfold reachable in R. eapply (rtc_ind_r (fun s => Inv s)); [apply initial_inv| |exact R].
  intros y z _ S I. eapply good_inv, step_good; eauto.
Qed.

(** C31: mutual exclusion of writing tasks.  In every reachable state at most
    one task is executing (started and not finished), and it is exactly the
    registered writer. *)
Theorem single_writer valid_uuid st id r :
  reachable valid_uuid st ->
  records st !! id = Some r -> terminal r = false ->
  sn_execution_id (snapshot_of r) <> None ->
  writer st = Some id /\
  forall id' r', records st !! id' = Some r' -> terminal r' = false ->
    sn_execution_id (snapshot_of r') <> None -> id' = id.
Proof.
  intros R%reachable_inv H T X.
  assert (V : forall i q, records st !! i = Some q -> terminal q = false ->
    sn_execution_id (snapshot_of q) <> None -> writer st = Some i).
  { intros i q Hq Tq Xq. rewrite (inv_exec st R i q Hq Tq) in Xq.
    apply (inv_writer st R i q); try done. intros E. by rewrite E in Xq. }
  split; [eauto|]. intros id' r' H' T' X'. pose proof (V _ _ H T X). pose proof (V _ _ H' T' X'). congruence.
Qed.

(** A finished task stays finished: along any run of the registry its
    record is removed, or its status, commit state, tables and error are
    final and only cleanup errors are added to its result.  Cancellation
    tokens never return to false. *)
Theorem terminal_is_final valid_uuid st st' :
  reachable valid_uuid st -> step valid_uuid st st' ->
  (forall id r, records st !! id = Some r -> terminal r = true ->
    records st' !! id = None \/
    exists r', records st' !! id = Some r' /\
      sn_status (snapshot_of r') = sn_status (snapshot_of r) /\
      outcome_kept (sn_result (snapshot_of r)) (sn_result (snapshot_of r'))) /\
  (forall t, load (tokens st) t = true -> load (tokens st') t = true).
Proof. intros R%reachable_inv S. destruct (step_good _ _ _ S R). done. Qed.

(** The registry never holds more than three unfinished previews. *)
Theorem at_most_three_previews valid_uuid st :
  reachable valid_uuid st -> (size (previews (records st)) <= 3)%nat.
Proof. intros R%reachable_inv. apply (inv_previews st R). Qed.

Lemma expire_record_id e r : terminal r = true \/ sn_status (snapshot_of r) <> Ready -> expire_record e r = r.
Proof.
  intros H. unfold expire_record. destruct (due _ _) eqn:D; [|done]. apply due_status in D.
  unfold terminal in H. rewrite D in H. by destruct H.
Qed.

Lemma expire_record_ready e r p :
  sn_status (snapshot_of (expire_record e r)) = Ready -> sn_preview (snapshot_of (expire_record e r)) = Some p ->
  expire_record e r = r /\ sn_status (snapshot_of r) = Ready /\ env_now e < parse_or_zero (pv_expires_at p).
Proof.
  unfold expire_record. destruct (due _ _) eqn:D.
  { cbn. touch_simpl. simpl in *. congruence. }
  intros S P. split; [done|]. split; [done|]. unfold due, status_eqb in D.
  rewrite S, P in D. rewrite bool_decide_eq_true_2 in D by done. cbn in D. by to_prop.
Qed.

Lemma begin_guarded valid_uuid e st input st' s tok :
  wf_env e -> reachable valid_uuid st ->
  begin_execution valid_uuid e st input = (st', Ok (s, true, tok)) ->
  valid_uuid (ex_execution_id input) = true /\ exists p, properly_started e st input st' s tok p.
Proof.
  intros W R%reachable_inv E.
  assert (valid_uuid (ex_execution_id input) = true) as U.
  { unfold begin_execution in E. by destruct (valid_uuid _). }
  split; [done|]. apply begin_execution_ok in E as (id & r & H & P & C & -> & -> & -> & _); [|done].
  apply begin_checks_ok in C as (p & Hp & S & X & F & K & Q & Wr). rewrite expire_lookup in H.
  destruct (records st !! id) as [r0|] eqn:H0; [|done]. injection H as <-.
  destruct (expire_record_ready e r0 p S Hp) as (Er & S' & L). rewrite Er in *.
  pose proof (touch_fields e (set_executing (ex_execution_id input) (snapshot_of r0))) as (T1 & T2 & T3 & _).
  assert (Id : sn_task_id (snapshot_of r0) = id) by by apply (inv_key st R).
  exists p, r0. rewrite T1. cbn [sn_task_id set_executing]. rewrite Id. split_and!; try done.
  eexists. cbn [records]. rewrite lookup_insert_eq. done.
Qed.

(** An execution starts only with a valid UUID on an executable preview that is
    ready, unexpired, of the same plan and fingerprint, with every required
    risk accepted and no other writer; the task then is the writer. *)
Theorem begin_execution_guarded valid_uuid e st input st' s tok :
  wf_env e -> reachable valid_uuid st ->
  begin_execution valid_uuid e st input = (st', Ok (s, true, tok)) ->
  valid_uuid (ex_execution_id input) = true /\ exists p, properly_started e st input st' s tok p.
Proof. apply begin_guarded. Qed.

(** Starting is idempotent: repeating the request of a started execution
    starts nothing; it returns the current snapshot and the same token, and
    leaves every record as [expire] leaves it.  The same execution id with
    other arguments is refused. *)
Theorem begin_execution_idempotent valid_uuid e st input st1 s tok e2 input2 :
  wf_env e -> wf_env e2 -> reachable valid_uuid st ->
  begin_execution valid_uuid e st input = (st1, Ok (s, true, tok)) ->
  ex_execution_id input2 = ex_execution_id input ->
  begin_execution valid_uuid e2 st1 input2 =
    (expire e2 st1,
     if bool_decide (input2 = input) then Ok (s, false, tok)
     else Err (stale "执行标识与原请求不匹配")).
Proof.
  intros W W2 R E Eid.
  assert (valid_uuid (ex_execution_id input) = true) as U.
  { unfold begin_execution in E. by destruct (valid_uuid _). }
  apply begin_execution_ok in E as (id & r & H & P & C & -> & -> & -> & N); [|done].
  set (r' := mkEntry _ _ _ _ _). set (st1 := mkState _ _ _ _).
  assert (X : expire_record e2 r' = r').
  { apply expire_record_id. right. subst r'. cbn. touch_simpl. simpl in *. congruence. }
  assert (L : records (expire e2 st1) !! id = Some r').
  { rewrite expire_lookup. subst st1. cbn [records]. rewrite lookup_insert_eq. cbn. by rewrite X. }
  unfold begin_execution. rewrite Eid, U. cbn [negb].
  destruct (find_first_exists (has_execution_id (ex_execution_id input))
              (map snd (env_order e2 (records (expire e2 st1)))) r') as [q F].
  { apply list_elem_of_fmap. exists (id, r'). split; [done|]. by apply order_elem. }
  { unfold has_execution_id. subst r'. cbn. unfold str_eqb. by rewrite bool_decide_eq_true_2. }
  rewrite F. apply find_first_some in F as [F Fq]. apply order_snd in F as [id' F]; [|done].
  assert (q = r') as ->.
  { rewrite expire_lookup in F. subst st1. cbn [records] in F.
    destruct (decide (id = id')) as [<-|D].
    - rewrite lookup_insert_eq in F. cbn [fmap option_fmap option_map] in F. congruence.
    - rewrite lookup_insert_ne in F by done.
      destruct (records (expire e st) !! id') as [q0|] eqn:Q; [|done]. injection F as <-.
      specialize (N id' q0 Q). unfold has_execution_id in *.
      rewrite (ev_exec _ _ (expire_record_evolves e2 q0)) in Fq. congruence. }
  subst r'. cbn [execution snapshot_of cancel_token].
  destruct (decide (input2 = input)) as [->|D].
  - rewrite bool_decide_eq_false_2, bool_decide_eq_true_2; [done|done|]. intros []. done.
  - rewrite bool_decide_eq_true_2, bool_decide_eq_false_2; [done|done|]. congruence.
Qed.

(** Cancellation is effective.  Cancelling a task that is neither finished nor
    committing sets its token, ends a waiting task at once and marks a working
    one; a preview can then no longer become ready, nor be started.  A task
    cancelled before its registration is registered as cancelled, with its
    token set, and is not to be started. *)
Theorem cancel_effective valid_uuid e e2 st id :
  wf_env e2 -> reachable valid_uuid st ->
  match records st !! id with
  | Some r =>
      terminal r = false -> sn_status (snapshot_of r) <> Committing ->
      exists st' s, cancel e st id = (st', Ok s) /\
        load (tokens st') (cancel_token r) = true /\
        sn_status s = (if bool_decide (sn_status (snapshot_of r) = Ready \/ sn_status (snapshot_of r) = Created)
                       then Cancelled else Cancelling) /\
        (exists r', records st' !! id = Some r' /\ snapshot_of r' = s) /\
        forall p, set_ready e2 st' id p = (st', Err (new_error "cancelled" "预览已取消"))
  | None =>
      id <> [] -> str_len id <= 128 -> (size (cancelled_before_register st) < 1000)%nat ->
      exists st', cancel e st id = (st', Err missing) /\
        forall request st'' s start tok,
          register_preview e2 st' id request = (st'', Ok (s, start, tok)) ->
          start = false /\ sn_status s = Cancelled /\ load (tokens st'') tok = true
  end.
Proof.
  intros W R%reachable_inv. unfold cancel.
  destruct (records st !! id) as [r|] eqn:H.
  - intros T NC. unfold terminal in T. rewrite T. cbn [orb]. unfold status_eqb at 1.
    rewrite bool_decide_eq_false_2 by done.
    pose proof (inv_alloc st R id r H) as Al.
    assert (Lt : load (store (cancel_token r) (tokens st)) (cancel_token r) = true).
    { rewrite load_store, bool_decide_eq_true_2; done. }
    unfold status_eqb. rewrite <- bool_decide_or.
    case_bool_decide as B; (eexists _, _; split; [reflexivity|]; split; [exact Lt|]; cbn [records tokens];
      split; [by rewrite (proj1 (proj2 (proj2 (touch_fields _ _))))|];
      split; [eexists; split; [by rewrite lookup_insert_eq|done]|];
      intros p; unfold set_ready; cbn [records tokens]; rewrite lookup_insert_eq; cbn [cancel_token];
      by rewrite Lt).
  - intros Ne Le Sz. rewrite (proj2 (is_empty_false id) Ne). rewrite (proj2 (Z.leb_le _ _) Le).
    rewrite (proj2 (Z.ltb_lt (Z.of_nat _) 1000)) by lia. cbn [negb andb].
    eexists. split; [reflexivity|]. intros request st'' s start tok. unfold register_preview.
    destruct (validate request); [|congruence]. destruct (_ || (_ <? _)); [congruence|].
    rewrite expire_lookup. cbn [records]. rewrite H. cbn [fmap option_fmap option_map].
    destruct (3 <=? _); [congruence|]. cbn [expire cancelled_before_register].
    rewrite bool_decide_eq_true_2 by set_solver. cbn [negb]. intros [= <- <- <- <-].
    split; [done|]. split; [done|]. unfold trim. cbn [tokens]. unfold load.
    by rewrite list_lookup_middle.
Qed.

(** ** Witnesses *)

Lemma sample_env_wf : wf_env sample_env.
Proof. by split. Qed.

Lemma sample_reachable : reachable sample_uuid sample_st2 /\ reachable sample_uuid sample_st3.
Proof.
  assert (R2 : reachable sample_uuid sample_st2).
  { eapply rtc_l; [apply (StepRegister _ sample_env _ (u "a") sample_request sample_env_wf)|].
    eapply rtc_l; [apply (StepReady _ sample_env _ (u "a") sample_preview sample_env_wf)|].
    apply rtc_refl. }
  split; [done|]. eapply rtc_r; [exact R2|]. apply (StepBegin _ sample_env _ sample_input sample_env_wf).
Qed.

Lemma trim_keeps_newest_witness :
  (size (terminal_ids (records (trim sample_env sample_st4))) <= 100)%nat /\ terminal_ids (records sample_st4) = {[u "a"]}.
Proof.
  split; [|vm_compute; reflexivity]. apply (trim_keeps_newest sample_env sample_st4 sample_env_wf).
Defined.

Lemma single_writer_witness : writer sample_st3 = Some (u "a").
Proof.
  destruct (records sample_st3 !! u "a") as [r|] eqn:E; [|vm_compute in E; discriminate E].
  apply (single_writer sample_uuid sample_st3 (u "a") r (proj2 sample_reachable) E);
    vm_compute in E; injection E as <-; vm_compute; [reflexivity|discriminate].
Defined.

Lemma terminal_is_final_witness :
  (forall t, load (tokens sample_st3) t = true -> load (tokens sample_st4) t = true) /\
  option_map terminal (records sample_st4 !! u "a") = Some true.
Proof.
  split; [|vm_compute; reflexivity].
  apply (terminal_is_final sample_uuid sample_st3 sample_st4 (proj2 sample_reachable)
    (StepFinish _ sample_env _ (u "a") sample_failed sample_env_wf)).
Defined.

Lemma at_most_three_previews_witness :
  (size (previews (records sample_st2)) <= 3)%nat /\ previews (records sample_st2) = {[u "a"]}.
Proof.
  split; [apply (at_most_three_previews sample_uuid sample_st2 (proj1 sample_reachable))|].
  vm_compute. reflexivity.
Defined.

Lemma begin_execution_guarded_witness :
  match begin_execution sample_uuid sample_env sample_st2 sample_input with
  | (st', Ok (s, true, tok)) => sample_uuid (ex_execution_id sample_input) = true /\ sn_status s = Executing
  | _ => False
  end.
Proof.
  destruct (begin_execution sample_uuid sample_env sample_st2 sample_input) as [st' [[[s b] tok]|err]] eqn:E.
  2:{ apply (f_equal snd) in E. vm_compute in E. discriminate E. }
  destruct b.
  2:{ apply (f_equal snd) in E. vm_compute in E. discriminate E. }
  destruct (begin_execution_guarded _ _ _ _ _ _ _ sample_env_wf (proj1 sample_reachable) E)
    as (U & p & r & H). split; [exact U|]. apply H.
Defined.

Lemma begin_execution_idempotent_witness :
  begin_execution sample_uuid sample_env sample_st3 (mkExecute (u "p2") (u "f") (u "e1") [])
  = (expire sample_env sample_st3, Err (stale "执行标识与原请求不匹配")).
Proof.
  destruct (begin_execution sample_uuid sample_env sample_st2 sample_input) as [st' [[[s b] tok]|err]] eqn:E.
  2:{ apply (f_equal snd) in E. vm_compute in E. discriminate E. }
  destruct b.
  2:{ apply (f_equal snd) in E. vm_compute in E. discriminate E. }
  pose proof (f_equal fst E) as E'. cbn [fst] in E'. change (sample_st3 = st') in E'. rewrite E'.
  exact (begin_execution_idempotent sample_uuid sample_env sample_st2 sample_input st' s tok sample_env
    (mkExecute (u "p2") (u "f") (u "e1") []) sample_env_wf sample_env_wf (proj1 sample_reachable) E eq_refl).
Defined.

Lemma cancel_effective_witness :
  exists st' s, cancel sample_env sample_st3 (u "a") = (st', Ok s) /\ sn_status s = Cancelling.
Proof.
  pose proof (cancel_effective sample_uuid sample_env sample_env sample_st3 (u "a") sample_env_wf
    (proj2 sample_reachable)) as H.
  destruct (records sample_st3 !! u "a") as [r|] eqn:E; [|vm_compute in E; discriminate E].
  assert (S : sn_status (snapshot_of r) = Executing) by (vm_compute in E; by injection E as <-).
  destruct H as (st' & s & H1 & _ & H2 & _).
  - unfold terminal. by rewrite S.
  - rewrite S. discriminate.
  - exists st', s. rewrite S in H2. split; [exact H1|exact H2].
Defined.

End Registry.
