(* ===== verification/MetaTypes.v ===== *)
(** The schema metadata of the data tasks: the data types of
    src-tauri/src/db/data_tasks/metadata.rs, shared by the type mapping and
    the mapping validation. *)
From S2P Require Import Prelude RustText DataTypes.
Import DataTypes.

Module MetaTypes.

Record DataColumn : Type := mkColumn {
  dc_name : str;
  dc_declared_type : str;
  dc_nullable : bool;
  dc_default_sql : option str;
  dc_generated : bool;
  dc_primary_key_ordinal : Z;
  dc_collation : option str;
  dc_identity : bool;
  dc_generator_safe : bool;
}.

Record DataForeignKey : Type := mkForeignKey {
  fk_from_columns : list str;
  fk_parent_table : str;
  fk_parent_columns : list str;
  fk_on_update : str;
  fk_on_delete : str;
}.

Record DataTable : Type := mkTable {
  tb_name : str;
  tb_create_sql : str;
  tb_columns : list DataColumn;
  tb_foreign_keys : list DataForeignKey;
  tb_enabled_user_triggers : bool;
  tb_physical : bool;
}.

Record DataMetadataSnapshot : Type := mkMetadata {
  md_database_type : DatabaseType;
  md_tables : list DataTable;
  md_read_only : bool;
  md_permissions_verified : bool;
  md_consistent_snapshot : bool;
  md_protected_write : bool;
  md_schema_fingerprint : str;
  md_configuration_fingerprint : str;
}.

Record ValidatedTableMapping : Type := mkValidatedTable {
  vt_source_table : str;
  vt_target_table : str;
  vt_source_columns : list str;
  vt_target_columns : list str;
  vt_key_indices : list nat;
}.

Record ValidatedMapping : Type := mkValidated {
  vm_tables : list ValidatedTableMapping;
  vm_insert_order : list str;
  vm_delete_order : list str;
}.

Definition find_table (tables : list DataTable) (name : str) : option DataTable :=
  find_first (fun t => str_eqb (tb_name t) name) tables.
Definition find_column (columns : list DataColumn) (name : str) : option DataColumn :=
  find_first (fun c => str_eqb (dc_name c) name) columns.

Lemma find_table_some tables name t :
  find_table tables name = Some t -> t ∈ tables /\ tb_name t = name.
Proof. intros [H E]%find_first_some. split; [done|]. by apply str_eqb_eq. Qed.
Lemma find_column_some columns name c :
  find_column columns name = Some c -> c ∈ columns /\ dc_name c = name.
Proof. intros [H E]%find_first_some. split; [done|]. by apply str_eqb_eq. Qed.

End MetaTypes.
