(* ===== verification/TypeMapping.v ===== *)
(** Type compatibility and value conversion of cross-database transfers
    (src-tauri/src/db/data_tasks/type_mapping.rs). *)
From S2P Require Import Prelude RustText DataTypes Values MetaTypes.
Import DataTypes Values MetaTypes.

Module TypeMapping.

(** ** Declared types *)

Inductive TypeCompatibility : Type := Compatible | Unsupported.

Inductive DataType : Type :=
| TInteger (bits : Z) (unsigned : bool)
| TDecimal (precision scale : Z)
| TText (limit : option Z)
| TBinary (limit : option Z)
| TBoolean
| TFloat (bits : Z)
| TTemporal (kind : str) (precision : Z)
| TUuid
| TJson.

#[export] Instance TypeCompatibility_eq_dec : EqDecision TypeCompatibility.
Proof. solve_decision. Defined.
#[export] Instance DataType_eq_dec : EqDecision DataType.
Proof. solve_decision. Defined.

(** The closure [args]: the text between the parentheses after [prefix]. *)
Definition type_args (t prefix : str) : option str :=
  match strip_prefix prefix t with
  | Some r => match strip_prefix [40] r with Some r => strip_suffix [41] r | None => None end
  | None => None
  end.

Definition integer_bits (base : str) : option Z :=
  if one_of base ["TINYINT"; "INT1"] then Some 8
  else if one_of base ["SMALLINT"; "INT2"] then Some 16
  else if one_of base ["MEDIUMINT"] then Some 24
  else if one_of base ["INT"; "INTEGER"; "INT4"] then Some 32
  else if one_of base ["BIGINT"; "INT8"] then Some 64
  else None.

Definition parse_decimal_args (p : str) : option DataType :=
  match map trim (split_char 44 p) with
  | [a; b] =>
    match parse_u16 a, parse_u16 b with
    | Some precision, Some scale =>
      if (0 <? precision) && (precision <=? 76) && (scale <=? precision)
      then Some (TDecimal precision scale) else None
    | _, _ => None
    end
  | _ => None
  end.

(** The loop over the temporal kinds, from the first that applies. *)
Fixpoint parse_temporal (kinds : list str) (t : str) : option DataType :=
  match kinds with
  | [] => None
  | kind :: kinds =>
    if str_eqb t kind then Some (TTemporal kind 6)
    else
      match type_args t kind with
      | None => parse_temporal kinds t
      | Some n =>
        match parse_u8 n with
        | None => None
        | Some precision =>
          if precision <=? 9 then Some (TTemporal kind precision) else parse_temporal kinds t
        end
      end
  end.

Definition temporal_kinds : list str :=
  map u ["TIMESTAMP WITH TIME ZONE"; "TIMESTAMP WITHOUT TIME ZONE"; "DATETIMEOFFSET"; "TIMESTAMP";
         "DATETIME2"; "DATETIME"; "TIME"; "DATE"]%string.

(** The first prefix of the list with arguments. *)
Fixpoint first_args (prefixes : list str) (t : str) : option str :=
  match prefixes with
  | [] => None
  | p :: ps => match type_args t p with Some n => Some n | None => first_args ps t end
  end.

Definition parse (t : str) : option DataType :=
  let upper := to_ascii_uppercase (trim t) in
  let t := join [32] (split_whitespace upper) in
  let unsigned := ends_with (u " UNSIGNED") t in
  let base := default t (strip_suffix (u " UNSIGNED") t) in
  match integer_bits base with
  | Some bits => Some (TInteger bits unsigned)
  | None =>
    if unsigned then None
    else
      match first_args [u "DECIMAL"; u "NUMERIC"] t with
      | Some p => parse_decimal_args p
      | None =>
        if one_of t ["TEXT"; "CLOB"; "LONGTEXT"; "MEDIUMTEXT"; "NVARCHAR(MAX)"; "VARCHAR(MAX)"]
        then Some (TText None)
        else
          match first_args [u "VARCHAR"; u "NVARCHAR"; u "CHAR"; u "NCHAR"; u "CHARACTER VARYING"] t with
          | Some n => match parse_u64 n with Some n => Some (TText (Some n)) | None => None end
          | None =>
            if one_of t ["BLOB"; "LONGBLOB"; "MEDIUMBLOB"; "BYTEA"; "VARBINARY(MAX)"]
            then Some (TBinary None)
            else
              match first_args [u "VARBINARY"; u "BINARY"] t with
              | Some n => match parse_u64 n with Some n => Some (TBinary (Some n)) | None => None end
              | None =>
                if one_of t ["BOOL"; "BOOLEAN"; "BIT"] then Some TBoolean
                else if one_of t ["REAL"; "FLOAT"; "DOUBLE"; "DOUBLE PRECISION"] then Some (TFloat 64)
                else if one_of t ["FLOAT4"] then Some (TFloat 32)
                else if one_of t ["UUID"; "UNIQUEIDENTIFIER"] then Some TUuid
                else if one_of t ["JSON"] then Some TJson
                else parse_temporal temporal_kinds t
              end
          end
      end
  end.

(** Does a bounded length fit the other bound? *)
Definition limit_fits (a b : option Z) : bool :=
  match a, b with
  | _, None => true
  | Some a, Some b => a <=? b
  | None, Some _ => false
  end.

Definition compatible (s t : DataType) : bool :=
  match s, t with
  | TInteger a au, TInteger b bu => if Bool.eqb au bu then a <=? b else au && negb bu && (a <? b)
  | TDecimal a sa, TDecimal b sb => (sa <=? sb) && (a - sa <=? b - sb)
  | TText a, TText b | TBinary a, TBinary b => limit_fits a b
  | TFloat a, TFloat b => a <=? b
  | TBoolean, TBoolean | TUuid, TUuid | TJson, TJson => true
  | TTemporal a pa, TTemporal b pb => str_eqb a b && (pa <=? pb)
  | _, _ => false
  end.

Definition resolve_transfer_type (source target : str) : TypeCompatibility :=
  match parse source, parse target with
  | Some s, Some t => if compatible s t then Compatible else Unsupported
  | _, _ => Unsupported
  end.

(** ** Database-specific names *)

Definition clickhouse_name (upper : str) : option str :=
  let native := default upper
    match strip_prefix (u "NULLABLE(") upper with Some v => strip_suffix [41] v | None => None end in
  if one_of native ["INT8"] then Some (u "TINYINT")
  else if one_of native ["INT16"] then Some (u "SMALLINT")
  else if one_of native ["INT32"] then Some (u "INTEGER")
  else if one_of native ["INT64"] then Some (u "BIGINT")
  else if one_of native ["UINT8"] then Some (u "TINYINT UNSIGNED")
  else if one_of native ["UINT16"] then Some (u "SMALLINT UNSIGNED")
  else if one_of native ["UINT32"] then Some (u "INTEGER UNSIGNED")
  else if one_of native ["UINT64"] then Some (u "BIGINT UNSIGNED")
  else if one_of native ["STRING"] then Some (u "LONGBLOB")
  else None.

Definition is_db (a b : DatabaseType) : bool := bool_decide (a = b).

(** Names whose meaning differs across databases. *)
Definition cross_refused (database : DatabaseType) (upper : str) : bool :=
  (negb (is_db database SqlServer) && str_eqb upper (u "BIT"))
  || (is_db database MySql && one_of upper ["BOOL"; "BOOLEAN"])
  || (is_db database MySql && starts_with (u "TIMESTAMP") upper)
  || (is_db database SqlServer && one_of upper ["DATETIME"; "SMALLDATETIME"; "TIMESTAMP"; "ROWVERSION"])
  || contains (u "WITH TIME ZONE") upper
  || starts_with (u "DATETIMEOFFSET") upper.

(** The temporal names of the cross-database branch: [None] falls through,
    [Some r] returns [r]. *)
Definition cross_temporal (database : DatabaseType) (upper : str) : option (option str) :=
  let naive := default upper (strip_suffix (u " WITHOUT TIME ZONE") upper) in
  let base := default [] (split_char 40 naive !! 0%nat) in
  if str_eqb base (u "DATE") then Some (Some (u "DATE(0)"))
  else
    let kind :=
      if (is_db database Postgres && str_eqb base (u "TIMESTAMP"))
         || (is_db database MySql && str_eqb base (u "DATETIME"))
         || (is_db database SqlServer && str_eqb base (u "DATETIME2"))
      then Some (u "TIMESTAMP")
      else if str_eqb base (u "TIME") then Some (u "TIME") else None in
    match kind with
    | None => None
    | Some kind =>
      let default_precision :=
        match database with MySql => 0 | SqlServer => 7 | _ => 6 end in
      let precision :=
        if str_eqb naive base then Some default_precision
        else match type_args naive base with Some n => parse_u8 n | None => None end in
      match precision with
      | None => Some None
      | Some precision =>
        if (if is_db database SqlServer then 7 else 6) <? precision then Some None
        else Some (Some (kind ++ [40] ++ show_Z precision ++ [41]))
      end
    end.

Definition is_temporal_type (t : option DataType) : bool :=
  match t with Some (TTemporal _ _) => true | _ => false end.

(** From the [Sqlite] test to the end of the function. *)
Definition local_name (database : DatabaseType) (upper : str) (cross target : bool) : option str :=
  if is_db database Sqlite && contains (u "INT") upper then Some (u "BIGINT")
  else if is_db database Sqlite && one_of upper ["BOOL"; "BOOLEAN"] then Some (u "BOOLEAN")
  else if is_db database Sqlite && cross
          && (starts_with (u "NUMERIC") upper || starts_with (u "DECIMAL") upper
              || is_temporal_type (parse upper))
  then None
  else if is_db database SqlServer && str_eqb upper (u "TINYINT") then Some (u "TINYINT UNSIGNED")
  else if (is_db database Postgres || is_db database SqlServer) && str_eqb upper (u "REAL")
  then Some (u "FLOAT4")
  else if is_db database MySql && one_of upper ["DATETIME"; "TIMESTAMP"; "TIME"]
  then Some (upper ++ u "(0)")
  else if is_db database MySql && cross && target && one_of upper ["TEXT"; "TINYTEXT"; "BLOB"; "TINYBLOB"]
  then None
  else if is_db database MySql && str_eqb upper (u "FLOAT") then Some (u "FLOAT4")
  else Some upper.

Definition database_type_name (database : DatabaseType) (declared : str) (cross target : bool) : option str :=
  let upper := to_ascii_uppercase (trim declared) in
  if is_db database ClickHouse then clickhouse_name upper
  else if cross && cross_refused database upper then None
  else
    match (if cross && (is_db database Postgres || is_db database MySql || is_db database SqlServer)
           then cross_temporal database upper else None) with
    | Some r => r
    | None => local_name database upper cross target
    end.

(** The pairs of kinds accepted across databases. *)
Definition cross_pair (s t : option DataType) : bool :=
  match s, t with
  | Some (TInteger _ _), Some (TInteger _ _) | Some (TText _), Some (TText _)
  | Some (TBinary _), Some (TBinary _) | Some (TDecimal _ _), Some (TDecimal _ _)
  | Some TBoolean, Some TBoolean | Some TBoolean, Some (TInteger _ _)
  | Some (TTemporal _ _), Some (TTemporal _ _) => true
  | _, _ => false
  end.
Definition boolean_to_integer (s t : option DataType) : bool :=
  match s, t with Some TBoolean, Some (TInteger _ _) => true | _, _ => false end.

Definition resolve_database_transfer_type (source_db : DatabaseType) (source : str)
  (target_db : DatabaseType) (target : str) : TypeCompatibility :=
  if is_db target_db ClickHouse then Unsupported
  else
    let cross := negb (is_db source_db target_db) in
    match database_type_name source_db source cross false, database_type_name target_db target cross true with
    | Some source, Some target =>
      if cross && negb (cross_pair (parse source) (parse target)) then Unsupported
      else if cross && boolean_to_integer (parse source) (parse target) then Compatible
      else resolve_transfer_type source target
    | _, _ => Unsupported
    end.

(** ** Values *)

Definition temporal_error : str := u "unsupported_capability: 日期时间超出目标范围、精度或无时区语义".

Definition slice (a b : nat) (s : str) : str := take (b - a) (drop a s).
Definition char_at (i : nat) (c : char) (s : str) : bool := bool_decide (s !! i = Some c).

(** [format!("{s:0<width$}")] *)
Definition pad_right (width : Z) (s : str) : str := s ++ repeat 48 (Z.to_nat (width - zlen s)).

(** The split of the input into date and clock. *)
Definition split_temporal (kind input : str) : option (option str * option str) :=
  if str_eqb kind (u "DATE") then Some (Some input, None)
  else if str_eqb kind (u "TIMESTAMP") && (11 <? zlen input) && (char_at 10 32 input || char_at 10 84 input)
  then Some (Some (take 10 input), Some (drop 11 input))
  else if str_eqb kind (u "TIME") then Some (None, Some input)
  else None.

Section Temporal.
(** [time::Month::try_from] followed by [time::Date::from_calendar_date] of
    the time crate: does the calendar date exist? *)
Variable calendar_date : Z -> Z -> Z -> bool.

Definition check_date (date : str) (target_db : DatabaseType) : result unit str :=
  if negb (zlen date =? 10) || negb (char_at 4 45 date) || negb (char_at 7 45 date)
  then Err temporal_error
  else
    let? year := ok_or (parse_i32 (take 4 date)) temporal_error in
    let? month := ok_or (parse_u8 (slice 5 7 date)) temporal_error in
    let? day := ok_or (parse_u8 (drop 8 date)) temporal_error in
    if negb ((1 <=? year) && (year <=? 9999)) || (is_db target_db MySql && (year <? 1000))
    then Err temporal_error
    else if calendar_date year month day then Ok tt else Err temporal_error.

(** The clock with the fraction's trailing zeros removed. *)
Definition check_clock (clock : str) (precision : Z) : result (str * str) str :=
  let '(whole, fraction) := default (clock, []) (split_once 46 clock) in
  if negb (zlen whole =? 8) || negb (char_at 2 58 whole) || negb (char_at 5 58 whole)
  then Err temporal_error
  else
    let? hour := ok_or (parse_u8 (take 2 whole)) temporal_error in
    let? minute := ok_or (parse_u8 (slice 3 5 whole)) temporal_error in
    let? second := ok_or (parse_u8 (drop 6 whole)) temporal_error in
    if (23 <? hour) || (59 <? minute) || (59 <? second) || negb (forallb is_ascii_digit fraction)
    then Err temporal_error
    else
      let fraction := trim_end_matches is_zero_char fraction in
      if precision <? zlen fraction then Err temporal_error else Ok (whole, fraction).

Definition normalize_temporal (input kind : str) (precision : Z) (target_db : DatabaseType) :
  result DataValue str :=
  if negb (forallb is_ascii input) then Err temporal_error
  else
    let? (date, clock) := ok_or (split_temporal kind input) temporal_error in
    check? match date with Some date => check_date date target_db | None => Ok tt end in
    let value := default [] date in
    let? value :=
      match clock with
      | None => Ok value
      | Some clock =>
        let? (whole, fraction) := check_clock clock precision in
        let value := if is_some date
                     then value ++ (if is_db target_db SqlServer then [84] else [32]) else value in
        let value := value ++ whole in
        let fraction :=
          if is_db target_db Postgres || (is_db target_db SqlServer && is_empty fraction)
          then fraction else pad_right precision fraction in
        Ok (if is_empty fraction then value else value ++ [46] ++ fraction)
      end in
    let kind :=
      if str_eqb kind (u "DATE") then u "date"
      else if str_eqb kind (u "TIME") then u "time"
      else if is_db target_db Postgres then u "timestamp"
      else if is_db target_db SqlServer then u "datetime2"
      else u "datetime" in
    Ok (VTemporal kind (if is_db target_db MySql then normalize_mysql_temporal value else value)).
End Temporal.

Definition lossy : str := u "unsupported_capability: 源快照值无法无损表示为目标类型".
Definition decimal_overflow : str := u "unsupported_capability: 精确小数超出目标精度或小数位".

(** [f64::from_bits(bits).is_finite()]: the exponent is not all ones. *)
Definition is_finite (bits : Z) : bool := negb ((bits / 2 ^ 52) mod 2 ^ 11 =? 2047).

Definition option_le (n : Z) (limit : option Z) : bool :=
  match limit with Some m => n <=? m | None => true end.

Definition convert_decimal (v : str) (precision scale : Z) : result DataValue str :=
  let? v := normalize_decimal v in
  let unsigned := default v (strip_prefix [45] v) in
  let '(whole, fraction) := default (unsigned, []) (split_once 46 unsigned) in
  if (precision - scale <? zlen (trim_start_matches is_zero_char whole)) || (scale <? zlen fraction)
  then Err decimal_overflow
  else Ok (VDecimal v).

Section Convert.
Variable calendar_date : Z -> Z -> Z -> bool.

(** The [match] on the taken value and the target kind. *)
Definition convert_value (source_db target_db : DatabaseType) (value : DataValue) (kind : DataType) :
  result DataValue str :=
  match value, kind with
  | VBool v, TBoolean => Ok (if is_db target_db Sqlite then VInt (Z.b2z v) else VBool v)
  | VInt v, TBoolean =>
    if is_db source_db Sqlite && ((v =? 0) || (v =? 1)) then Ok (VBool (v =? 1)) else Err lossy
  | VBool v, TInteger _ true =>
    Ok (if is_db target_db SqlServer then VInt (Z.b2z v) else VUInt (Z.b2z v))
  | VBool v, TInteger _ false => Ok (VInt (Z.b2z v))
  | VUInt v, TInteger bits false =>
    if v <=? (if bits =? 64 then 9223372036854775807 else Z.shiftl 1 (bits - 1) - 1)
    then Ok (VInt v) else Err lossy
  | VInt v, TInteger bits false =>
    if (bits =? 64) || ((- Z.shiftl 1 (bits - 1) <=? v) && (v <? Z.shiftl 1 (bits - 1)))
    then Ok (VInt v) else Err lossy
  | VUInt v, TInteger bits true =>
    if (bits =? 64) || (v <? Z.shiftl 1 bits)
    then
      if is_db target_db SqlServer
      then if v <=? 9223372036854775807 then Ok (VInt v)
           else Err (u "unsupported_capability: 目标有符号表示溢出")
      else Ok (VUInt v)
    else Err lossy
  | VInt v, TInteger bits true =>
    if (0 <=? v) && ((bits =? 64) || (v <? Z.shiftl 1 bits))
    then Ok (if is_db target_db SqlServer then VInt v else VUInt v)
    else Err lossy
  | VText v, TText limit => if option_le (zlen v) limit then Ok (VText v) else Err lossy
  | VBinary v, TBinary limit => if option_le (zlen v) limit then Ok (VBinary v) else Err lossy
  | VDecimal v, TDecimal precision scale => convert_decimal v precision scale
  | VFloat bits, TFloat _ => if is_finite bits then Ok (VFloat bits) else Err lossy
  | VTemporal _ value, TTemporal kind precision =>
    normalize_temporal calendar_date value kind precision target_db
  | VUuid v, TUuid => Ok (VUuid v)
  | _, _ => Err lossy
  end.

(** Is the source column at [index] a BOOLEAN?  Indexing past the mapped
    columns panics; the lookup happens once the source table has a column. *)
Definition panic_index : str := u "index out of bounds".
Definition source_is_boolean (source : DataMetadataSnapshot) (mapped : ValidatedTableMapping)
  (index : nat) : result bool str :=
  match find_table (md_tables source) (vt_source_table mapped) with
  | None => Ok false
  | Some t =>
    if is_empty (tb_columns t) then Ok false
    else
      let? name := ok_or (vt_source_columns mapped !! index) panic_index in
      Ok (is_some_and (fun c => bool_decide (parse (dc_declared_type c) = Some TBoolean))
            (find_column (tb_columns t) name))
  end.

Definition zero_or_one (v : DataValue) : bool :=
  match v with VInt n => (n =? 0) || (n =? 1) | VBool _ => true | _ => false end.

(** The loop body for one value. *)
Definition convert_cell (source target : DataMetadataSnapshot) (mapped : ValidatedTableMapping)
  (columns : list DataColumn) (index : nat) (value : DataValue) (name : str) : result DataValue str :=
  let? column := ok_or (find_column columns name) (u "invalid_mapping: 跨类型目标字段不存在") in
  if is_null value
  then if dc_nullable column then Ok value
       else Err (u "invalid_mapping: 源快照包含目标非空列无法接受的 NULL")
  else
    let? declared := ok_or (database_type_name (md_database_type target) (dc_declared_type column) true true)
                       (u "unsupported_capability: 目标类型尚未通过无损转换验收") in
    let? kind := ok_or (parse declared) (u "unsupported_capability: 跨类型目标值类型不受支持") in
    let? boolean := (if is_db (md_database_type source) Sqlite
                     then source_is_boolean source mapped index else Ok false) in
    if boolean && negb (zero_or_one value)
    then Err (u "unsupported_capability: SQLite BOOLEAN 只能无损传输整数 0/1")
    else convert_value (md_database_type source) (md_database_type target) value kind.

Fixpoint convert_cells (source target : DataMetadataSnapshot) (mapped : ValidatedTableMapping)
  (columns : list DataColumn) (index : nat) (values : list DataValue) (names : list str) :
  result (list DataValue) str :=
  match values, names with
  | v :: values, name :: names =>
    let? v := convert_cell source target mapped columns index v name in
    let? vs := convert_cells source target mapped columns (S index) values names in
    Ok (v :: vs)
  | _, _ => Ok values
  end.

Definition normalize_transfer_row (row : CanonicalRow) (source target : DataMetadataSnapshot)
  (mapping : ValidatedMapping) : result CanonicalRow str :=
  if is_db (md_database_type source) (md_database_type target) then Ok row
  else
    let? mapped := ok_or (find_first (fun m => str_eqb (vt_target_table m) (table row)) (vm_tables mapping))
                     (u "invalid_mapping: 跨类型值没有对应表映射") in
    let? t := ok_or (find_table (md_tables target) (table row)) (u "invalid_mapping: 跨类型目标表不存在") in
    if negb (zlen (values row) =? zlen (vt_target_columns mapped))
    then Err (u "invalid_mapping: 跨类型行形状与映射不一致")
    else
      let? vs := convert_cells source target mapped (tb_columns t) 0 (values row) (vt_target_columns mapped) in
      Ok (mkRow (table row) [] vs).
End Convert.

(** ** Specification *)

(** The binary32 values among the binary64 bit patterns. *)
Definition is_binary32 (bits : Z) : bool :=
  let e := (bits / 2 ^ 52) mod 2 ^ 11 in
  let m := bits mod 2 ^ 52 in
  if e =? 0 then m =? 0
  else if e =? 2047 then m mod 2 ^ 29 =? 0
  else if (897 <=? e) && (e <=? 1150) then m mod 2 ^ 29 =? 0
  else if (874 <=? e) && (e <=? 896) then m mod 2 ^ (29 + 897 - e) =? 0
  else false.

(** The number of fraction digits of a clock text. *)
Definition fraction_digits (value : str) : Z :=
  match split_once 46 value with Some (_, f) => zlen f | None => 0 end.

(** The values a declared type can hold, whatever integer representation
    carries them. *)
Definition fits (t : DataType) (v : DataValue) : Prop :=
  match t, v with
  | TInteger bits true, (VInt n | VUInt n) => 0 <= n < 2 ^ bits
  | TInteger bits false, (VInt n | VUInt n) => - 2 ^ (bits - 1) <= n < 2 ^ (bits - 1)
  | TDecimal precision scale, VDecimal d =>
      exists neg w f, normalize_decimal d = Ok (render_decimal neg w f) /\ canonical_digits neg w f /\
        zlen (trim_start_matches is_zero_char w) <= precision - scale /\ zlen f <= scale
  | TText limit, VText s => option_le (zlen s) limit = true
  | TBinary limit, VBinary b => option_le (zlen b) limit = true
  | TBoolean, VBool _ => True
  | TFloat 32, VFloat bits => is_binary32 bits = true
  | TFloat _, VFloat _ => True
  | TTemporal kind precision, VTemporal k value => k = kind /\ fraction_digits value <= precision
  | TUuid, VUuid b => zlen b = 16
  | TJson, VJson _ => True
  | _, _ => False
  end.

(** What [parse] can return. *)
Definition wf_type (t : DataType) : Prop :=
  match t with
  | TInteger bits _ => bits ∈ [8; 16; 24; 32; 64]
  | TDecimal precision scale => 0 <= scale <= precision /\ 0 < precision
  | TText (Some n) | TBinary (Some n) => 0 <= n
  | TFloat bits => bits = 32 \/ bits = 64
  | TTemporal _ precision => 0 <= precision
  | _ => True
  end.

(** The same datum under the representation changes a transfer makes. *)
Definition as_integer (v : DataValue) : option Z :=
  match v with VInt n | VUInt n => Some n | VBool b => Some (Z.b2z b) | _ => None end.

(** The date and clock up to the separator, and the significant fraction
    digits, of a temporal text. *)
Definition temporal_parts (value : str) : str * str :=
  let '(w, f) := default (value, []) (split_once 46 value) in
  (map (fun c => if c =? 84 then 32 else c) w, trim_end_matches is_zero_char f).

Definition same_datum (v w : DataValue) : Prop :=
  match v, w with
  | VDecimal a, VDecimal b => normalize_decimal a = Ok b
  | VTemporal _ a, VTemporal _ b => temporal_parts a = temporal_parts b
  | _, _ =>
    match as_integer v, as_integer w with
    | Some a, Some b => a = b
    | None, None => v = w
    | _, _ => False
    end
  end.

(** What a converted value satisfies for the target's declared type. *)
Definition holds (t : DataType) (w : DataValue) : Prop :=
  match t, w with
  | TTemporal _ precision, VTemporal _ value => fraction_digits value <= precision
  | TBoolean, VInt n => n = 0 \/ n = 1
  | TFloat _, VFloat bits => is_finite bits = true
  | _, _ => fits t w
  end.

(** ** Proofs: declared types *)

Lemma parse_decimal_args_wf p t : parse_decimal_args p = Some t -> wf_type t.
Proof.
  unfold parse_decimal_args. destruct (map trim (split_char 44 p)) as [|a [|b [|]]]; try done.
  destruct (parse_u16 a) as [x|] eqn:A; [|done]. destruct (parse_u16 b) as [y|] eqn:B; [|done].
  destruct (_ && _ && _) eqn:E; [|done]. intros [= <-]. to_prop.
  apply parse_uint_nonneg in B. simpl. lia.
Qed.

Lemma parse_temporal_wf kinds t ty : parse_temporal kinds t = Some ty -> wf_type ty.
Proof.
  induction kinds as [|k kinds IH]; cbn [parse_temporal]; [done|].
  destruct (str_eqb t k); [intros [= <-]; simpl; lia|].
  destruct (type_args t k); [|done]. destruct (parse_u8 l) eqn:P; [|done].
  destruct (z <=? 9); [|done]. intros [= <-]. by apply parse_uint_nonneg in P.
Qed.

Lemma integer_bits_wf base bits : integer_bits base = Some bits -> bits ∈ [8; 16; 24; 32; 64].
Proof. unfold integer_bits. repeat case_match; intros [=]; subst; set_solver. Qed.

Lemma parse_wf s t : parse s = Some t -> wf_type t.
Proof.
  unfold parse. set (x := join _ _). clearbody x.
  destruct (integer_bits _) eqn:E; [intros [= <-]; by eapply integer_bits_wf|]. clear E.
  destruct (ends_with _ _); [done|].
  destruct (first_args _ x); [apply parse_decimal_args_wf|].
  destruct (one_of _ _); [by intros [= <-]|].
  destruct (first_args _ x).
  { destruct (parse_u64 _) eqn:P; [|done]. intros [= <-]. by apply parse_uint_nonneg in P. }
  destruct (one_of _ _); [by intros [= <-]|].
  destruct (first_args _ x).
  { destruct (parse_u64 _) eqn:P; [|done]. intros [= <-]. by apply parse_uint_nonneg in P. }
  destruct (one_of _ _); [by intros [= <-]|].
  destruct (one_of _ _); [intros [= <-]; by right|].
  destruct (one_of _ _); [intros [= <-]; by left|].
  destruct (one_of _ _); [by intros [= <-]|].
  destruct (one_of _ _); [by intros [= <-]|]. apply parse_temporal_wf.
Qed.

Lemma pow2_bound a : a ∈ [8; 16; 24; 32; 64] -> 0 < 2 ^ (a - 1) /\ 2 ^ a = 2 * 2 ^ (a - 1).
Proof. rewrite !elem_of_cons. intros H. destruct_or!; subst; try lia. set_solver. Qed.

Lemma zlen_repeat {A} (x : A) n : zlen (repeat x n) = Z.of_nat n.
Proof. unfold zlen. by rewrite repeat_length. Qed.
#[local] Hint Rewrite @zlen_repeat : zlen.

Lemma repeat_forallb {A} (f : A -> bool) x n : f x = true -> forallb f (repeat x n) = true.
Proof. intros H. induction n; simpl; [done|]. by rewrite H. Qed.

Lemma trim_zeros_id w : w <> [48] -> (w = [48] \/ exists c r, w = c :: r /\ c <> 48) ->
  trim_start_matches is_zero_char w = w.
Proof.
  intros N [|(c & r & -> & H)]; [done|]. unfold trim_start_matches.
  apply drop_while_id. unfold is_zero_char. by apply Z.eqb_neq.
Qed.

(** The decomposition in [fits] is unique. *)
Lemma fits_decimal p s neg w f :
  canonical_digits neg w f ->
  fits (TDecimal p s) (VDecimal (render_decimal neg w f)) <->
  zlen (trim_start_matches is_zero_char w) <= p - s /\ zlen f <= s.
Proof.
  intros C. simpl. rewrite (render_canonical _ _ _ C). split.
  - intros (n' & w' & f' & E & C' & H). apply Ok_inj in E.
    pose proof (canonical_shape _ _ _ C) as S. rewrite E in S.
    destruct (decimal_shape_unique _ _ _ _ _ _ _ S (canonical_shape _ _ _ C')) as (-> & -> & ->). done.
  - intros H. by exists neg, w, f.
Qed.

Lemma canonical_tenth n : (0 < n)%nat -> canonical_digits false [48] (repeat 48 (n - 1) ++ [49]).
Proof.
  intros Hn. split; [done|]. split.
  { rewrite forallb_app, repeat_forallb by done. done. }
  split; [by left|]. split; [|done]. intros l c E. apply app_inj_tail in E as [_ <-]. done.
Qed.
Lemma canonical_ones n : (0 < n)%nat -> canonical_digits false (repeat 49 n) [].
Proof.
  intros Hn. split; [by rewrite repeat_forallb|]. split; [done|]. split.
  { right. destruct n; [lia|]. by eexists _, _. }
  split; [|done]. intros l c E. by destruct l.
Qed.
Lemma canonical_zero : canonical_digits false [48] [].
Proof. split; [done|]. split; [done|]. split; [by left|]. split; [|done]. intros l c E. by destruct l. Qed.

(** Every type has a value, and values of different kinds of types differ. *)
Definition inhabitant (t : DataType) : DataValue :=
  match t with
  | TInteger _ _ => VInt 0
  | TDecimal _ _ => VDecimal [48]
  | TText _ => VText []
  | TBinary _ => VBinary []
  | TBoolean => VBool false
  | TFloat _ => VFloat 0
  | TTemporal k _ => VTemporal k []
  | TUuid => VUuid (repeat 0 16)
  | TJson => VJson []
  end.

Lemma inhabitant_fits t : wf_type t -> fits t (inhabitant t).
Proof.
  destruct t as [b []|p s|[n|]|[n|]| |b|k p| |]; simpl; try done.
  - intros H%pow2_bound. lia.
  - intros H%pow2_bound. lia.
  - intros [H _]. exists false, [48], []. split; [done|]. split; [apply canonical_zero|].
    change (trim_start_matches is_zero_char [48]) with (@nil Z). change (zlen (@nil Z)) with 0. lia.
  - intros H. by apply Z.leb_le.
  - intros H. by apply Z.leb_le.
  - by intros [-> | ->].
Qed.

Definition values_included (s t : DataType) : Prop := forall v, fits s v -> fits t v.

Lemma included_integer a au b bu :
  a ∈ [8; 16; 24; 32; 64] -> b ∈ [8; 16; 24; 32; 64] ->
  compatible (TInteger a au) (TInteger b bu) = true <-> values_included (TInteger a au) (TInteger b bu).
Proof.
  intros Ha Hb. pose proof (pow2_bound a Ha) as [A1 A2]. pose proof (pow2_bound b Hb) as [B1 B2].
  assert (M : forall x y, 0 <= x -> x <= y -> 2 ^ x <= 2 ^ y) by (intros; apply Z.pow_le_mono_r; lia).
  assert (S : forall x y, 0 <= y -> x < y -> 2 ^ x < 2 ^ y) by (intros; apply Z.pow_lt_mono_r; lia).
  assert (0 <= a - 1 /\ 0 <= b - 1) as [P Q] by (split; [clear -Ha|clear -Hb]; set_solver by lia).
  unfold compatible, values_included. destruct au, bu; cbn [Bool.eqb andb negb].
  - rewrite Z.leb_le. split.
    + intros H [] F; simpl in *; try done; pose proof (M a b); lia.
    + intros H. specialize (H (VInt (2 ^ a - 1))). simpl in H.
      destruct (Z.le_gt_cases a b) as [|G]; [done|]. pose proof (S b a). lia.
  - rewrite Z.ltb_lt. split.
    + intros H [] F; simpl in *; try done; pose proof (M a (b - 1)); lia.
    + intros H. specialize (H (VInt (2 ^ a - 1))). simpl in H.
      destruct (Z.lt_ge_cases a b) as [|G]; [done|]. pose proof (S (b - 1) a). lia.
  - split; [done|]. intros H. specialize (H (VInt (-1))). simpl in H. lia.
  - rewrite Z.leb_le. split.
    + intros H [] F; simpl in *; try done; pose proof (M (a - 1) (b - 1)); lia.
    + intros H. specialize (H (VInt (2 ^ (a - 1) - 1))). simpl in H.
      destruct (Z.le_gt_cases a b) as [|G]; [done|]. pose proof (S (b - 1) (a - 1)). lia.
Qed.

Lemma included_decimal a sa b sb :
  0 <= sa <= a -> 0 < a ->
  compatible (TDecimal a sa) (TDecimal b sb) = true <-> values_included (TDecimal a sa) (TDecimal b sb).
Proof.
  intros H1 H2. unfold compatible, values_included. rewrite andb_true_iff, !Z.leb_le. split.
  - intros [L1 L2] [] F; try done. destruct F as (neg & w & f & E & C & K1 & K2).
    exists neg, w, f. split_and!; try done; lia.
  - intros H.
    assert (L1 : sa <= sb).
    { destruct (Z.le_gt_cases sa sb) as [|G]; [done|]. exfalso.
      destruct (Z.le_gt_cases sa 0) as [|P].
      - specialize (H (VDecimal [48])).
        destruct (fits_decimal a sa false [48] [] canonical_zero) as [_ K].
        destruct (fits_decimal b sb false [48] [] canonical_zero) as [Q _].
        specialize (Q (H (K ltac:(change (trim_start_matches is_zero_char [48]) with (@nil Z);
          change (zlen (@nil Z)) with 0; lia)))). change (zlen (@nil Z)) with 0 in Q. lia.
      - pose proof (canonical_tenth (Z.to_nat sa) ltac:(lia)) as C.
        set (f := repeat 48 (Z.to_nat sa - 1) ++ [49]) in *.
        assert (zlen f = sa) as Lf by (subst f; autorewrite with zlen; lia).
        destruct (fits_decimal a sa false [48] f C) as [_ K].
        destruct (fits_decimal b sb false [48] f C) as [Q _].
        specialize (Q (H _ (K ltac:(change (trim_start_matches is_zero_char [48]) with (@nil Z);
          change (zlen (@nil Z)) with 0; lia)))). lia. }
    split; [done|]. destruct (Z.le_gt_cases (a - sa) (b - sb)) as [|G]; [done|]. exfalso.
    destruct (Z.le_gt_cases (a - sa) 0) as [P|P].
    + pose proof canonical_zero as C.
      destruct (fits_decimal a sa false [48] [] C) as [_ K].
      destruct (fits_decimal b sb false [48] [] C) as [Q _].
      specialize (Q (H _ (K ltac:(change (trim_start_matches is_zero_char [48]) with (@nil Z);
          change (zlen (@nil Z)) with 0; lia)))).
      change (trim_start_matches is_zero_char [48]) with (@nil Z) in Q.
      change (zlen (@nil Z)) with 0 in Q. lia.
    + pose proof (canonical_ones (Z.to_nat (a - sa)) ltac:(lia)) as C.
      set (w := repeat 49 (Z.to_nat (a - sa))) in *.
      assert (zlen w = a - sa) as Lw by (subst w; autorewrite with zlen; lia).
      assert (trim_start_matches is_zero_char w = w) as T.
      { apply trim_zeros_id; [|right]; subst w; destruct (Z.to_nat (a - sa)) eqn:Ea; try lia;
          [discriminate|]. by eexists _, _. }
      destruct (fits_decimal a sa false w [] C) as [_ K].
      destruct (fits_decimal b sb false w [] C) as [Q _]. rewrite T in *.
      specialize (Q (H _ (K ltac:(change (zlen (@nil Z)) with 0; lia)))). lia.
Qed.

Lemma limit_included (a b : option Z) :
  match a with Some n => 0 <= n | None => True end ->
  limit_fits a b = true <-> (forall n, 0 <= n -> option_le n a = true -> option_le n b = true).
Proof.
  destruct a as [a|], b as [b|]; cbn; intros Ha; try done.
  - rewrite Z.leb_le. split; [intros H n Hn; rewrite !Z.leb_le; lia|].
    intros H. specialize (H a Ha). rewrite !Z.leb_le in H. lia.
  - split; [done|]. intros H. specialize (H (Z.max 0 (b + 1))). rewrite Z.leb_le in H. lia.
Qed.

Lemma included_temporal a pa b pb : 0 <= pa ->
  compatible (TTemporal a pa) (TTemporal b pb) = true <-> values_included (TTemporal a pa) (TTemporal b pb).
Proof.
  intros Hp. cbn [compatible]. unfold values_included. rewrite andb_true_iff, str_eqb_eq, Z.leb_le. split.
  - intros [-> L] []; try done. simpl. intros [-> H]. split; [done|lia].
  - intros H. specialize (H (VTemporal a (46 :: repeat 48 (Z.to_nat pa)))). simpl in H.
    unfold fraction_digits in H. simpl in H. autorewrite with zlen in H.
    destruct H as [-> H]; [split; [done|lia]|]. split; [done|lia].
Qed.

Lemma included_float a b : (a = 32 \/ a = 64) -> (b = 32 \/ b = 64) ->
  compatible (TFloat a) (TFloat b) = true <-> values_included (TFloat a) (TFloat b).
Proof.
  unfold compatible, values_included.
  intros [-> | ->] [-> | ->]; cbn; split; intros H; try done; try (intros []; done).
  specialize (H (VFloat 1) I). done.
Qed.

Lemma compatible_included s t : wf_type s -> wf_type t ->
  compatible s t = true <-> values_included s t.
Proof.
  intros Hs Ht. destruct s, t; try (split; [done|]; intros H; specialize (H _ (inhabitant_fits _ Hs));
    first [by destruct H | by match goal with b : bool |- _ => destruct b; destruct H end | by destruct Ht as [-> | ->]; destruct H]); try (by split; [intros _ v H|]).
  - by apply included_integer.
  - apply included_decimal; apply Hs.
  - cbn [compatible]. rewrite limit_included by by destruct limit. split.
    + intros H []; try done. simpl. apply H. apply zlen_nonneg.
    + intros H n Hn Hl. specialize (H (VText (repeat 97 (Z.to_nat n)))). simpl in H.
      autorewrite with zlen in H. rewrite Z2Nat.id in H by done. auto.
  - cbn [compatible]. rewrite limit_included by by destruct limit. split.
    + intros H []; try done. simpl. apply H. apply zlen_nonneg.
    + intros H n Hn Hl. specialize (H (VBinary (repeat 97 (Z.to_nat n)))). simpl in H.
      autorewrite with zlen in H. rewrite Z2Nat.id in H by done. auto.
  - by apply included_float.
  - by apply included_temporal.
Qed.

Lemma resolve_included source target s t :
  parse source = Some s -> parse target = Some t ->
  resolve_transfer_type source target = Compatible <-> values_included s t.
Proof.
  intros Hs Ht. unfold resolve_transfer_type. rewrite Hs, Ht.
  rewrite <- (compatible_included s t (parse_wf _ _ Hs) (parse_wf _ _ Ht)).
  by destruct (compatible s t).
Qed.

(** The type compatibility check is exact: two declared types that parse
    are compatible if and only if every value the source type can hold also
    fits the target type. *)
Theorem resolve_transfer_type_exact source target s t :
  parse source = Some s -> parse target = Some t ->
  resolve_transfer_type source target = Compatible <-> (forall v, fits s v -> fits t v).
Proof. apply resolve_included. Qed.

Lemma resolve_transfer_type_exact_witness :
  (forall v, fits (TDecimal 10 2) v -> fits (TDecimal 12 4) v) /\
  ~ (forall v, fits (TInteger 32 true) v -> fits (TInteger 32 false) v).
Proof.
  assert (P1 : parse (u "decimal(10, 2)") = Some (TDecimal 10 2)) by (vm_compute; reflexivity).
  assert (P2 : parse (u "NUMERIC(12,4)") = Some (TDecimal 12 4)) by (vm_compute; reflexivity).
  assert (P3 : parse (u "INT UNSIGNED") = Some (TInteger 32 true)) by (vm_compute; reflexivity).
  assert (P4 : parse (u "integer") = Some (TInteger 32 false)) by (vm_compute; reflexivity).
  split.
  - refine (proj1 (resolve_transfer_type_exact _ _ _ _ P1 P2) _). vm_compute. reflexivity.
  - intros H. pose proof (proj2 (resolve_transfer_type_exact _ _ _ _ P3 P4) H) as R.
    vm_compute in R. discriminate R.
Defined.

(** ** Proofs: values *)

Lemma date_pieces (s : str) :
  s !! 4%nat = Some 45 -> s !! 7%nat = Some 45 -> s = take 4 s ++ 45 :: slice 5 7 s ++ 45 :: drop 8 s.
Proof.
  intros H4 H7. rewrite <- (take_drop_middle s 4 45 H4) at 1. f_equal. f_equal. unfold slice.
  assert (H : drop 5 s !! 2%nat = Some 45) by (by rewrite lookup_drop).
  rewrite <- (take_drop_middle (drop 5 s) 2 45 H) at 1. f_equal. f_equal. by rewrite drop_drop.
Qed.

Lemma char_at_eq i c s : char_at i c s = true -> s !! i = Some c.
Proof. unfold char_at. intros. by to_prop. Qed.

Section TemporalProofs.
Variable calendar_date : Z -> Z -> Z -> bool.

Lemma check_date_no_dot date db : check_date calendar_date date db = Ok tt -> 46 ∉ date.
Proof.
  unfold check_date. intros H. case_if_in H; [done|]. inv_ok. to_prop.
  rewrite (date_pieces date) by (by apply char_at_eq).
  rewrite !not_elem_of_app, !not_elem_of_cons, !not_elem_of_app, !not_elem_of_cons.
  split_and!; try done; [by eapply parse_int_no_dot|by eapply parse_uint_no_dot..].
Qed.

Lemma check_clock_ok clock precision whole fraction :
  check_clock clock precision = Ok (whole, fraction) ->
  (46 ∉ whole) /\ zlen fraction <= precision /\
  (exists f, fraction = trim_end_matches is_zero_char f /\
     (clock = (whole ++ 46 :: f) \/ (clock = whole /\ f = []))) /\
  forallb is_ascii_digit fraction = true.
Proof.
  unfold check_clock. destruct (default (clock, []) (split_once 46 clock)) as [w f] eqn:S. intros H.
  case_if_in H; [done|]. inv_ok. case_if_in H; [done|]. cbn zeta in H. case_if_in H; [done|]. inv_ok.
  to_prop. destruct (split_once 46 clock) as [[w' f']|] eqn:S'; cbn in S;
    apply pair_equal_spec in S as [? ?]; subst; rename S' into S.
  - apply split_once_some in S as [-> N]. split; [done|]. split; [done|].
    split; [exists f; auto|]. by apply trim_end_matches_forallb.
  - apply split_once_none in S. split; [done|]. split; [done|]. split; [exists []; auto|done].
Qed.

Lemma parts_split w f : 46 ∉ w -> temporal_parts (w ++ 46 :: f) =
  (map (fun c => if c =? 84 then 32 else c) w, trim_end_matches is_zero_char f).
Proof. intros N. unfold temporal_parts. by rewrite split_once_app. Qed.
Lemma parts_whole w : 46 ∉ w -> temporal_parts w = (map (fun c => if c =? 84 then 32 else c) w, []).
Proof. intros N. unfold temporal_parts. apply split_once_none in N. by rewrite N. Qed.

Lemma trim_zeros_pad f n :
  trim_end_matches is_zero_char (f ++ repeat 48 n) = trim_end_matches is_zero_char f.
Proof.
  unfold trim_end_matches. rewrite reverse_app. f_equal.
  replace (reverse (repeat 48 n)) with (repeat 48 n).
  - induction n; simpl; done.
  - induction n; [done|]. cbn [repeat]. rewrite reverse_cons, <- IHn. clear.
    induction n; [done|]. cbn [repeat app]. by f_equal.
Qed.

(** The assembled text: [p] is the date with its separator, or nothing. *)
Definition assemble (p whole fraction : str) : str :=
  if is_empty fraction then p ++ whole else (p ++ whole) ++ [46] ++ fraction.

Lemma assemble_parts p whole fraction : 46 ∉ p -> 46 ∉ whole ->
  temporal_parts (assemble p whole fraction) =
    (map (fun c => if c =? 84 then 32 else c) (p ++ whole), trim_end_matches is_zero_char fraction) /\
  fraction_digits (assemble p whole fraction) = zlen fraction.
Proof.
  intros Np Nw. assert (N : 46 ∉ p ++ whole) by set_solver. unfold assemble, fraction_digits.
  destruct fraction as [|c f]; cbn [is_empty].
  - rewrite parts_whole by done. apply split_once_none in N. by rewrite N.
  - change ([46] ++ c :: f) with (46 :: c :: f). rewrite parts_split, split_once_app by done. done.
Qed.

Lemma mysql_parts v :
  temporal_parts (normalize_mysql_temporal v) = temporal_parts v /\
  fraction_digits (normalize_mysql_temporal v) <= fraction_digits v.
Proof.
  unfold normalize_mysql_temporal. destruct (split_once 46 v) as [[w f]|] eqn:S; [|by split].
  destruct (forallb _ _); [|by split]. pose proof S as S'. apply split_once_some in S' as [-> N].
  change (if is_empty (trim_end_matches is_zero_char f) then w
          else w ++ [46] ++ trim_end_matches is_zero_char f)
    with (assemble [] w (trim_end_matches is_zero_char f)).
  destruct (assemble_parts [] w (trim_end_matches is_zero_char f)) as [-> ->]; [set_solver|done|].
  rewrite parts_split by done. rewrite trim_end_matches_idem. split; [done|].
  unfold fraction_digits. rewrite S. apply trim_end_matches_length.
Qed.

Lemma normalize_temporal_sound input kind precision db w :
  0 <= precision -> normalize_temporal calendar_date input kind precision db = Ok w ->
  exists k value, w = VTemporal k value /\
    temporal_parts input = temporal_parts value /\ fraction_digits value <= precision.
Proof.
  intros Hp. unfold normalize_temporal. intros H. case_if_in H; [done|]. inv_ok.
  destruct x as [date clock]. inv_ok.
  assert (K : temporal_parts input = temporal_parts x0 /\ fraction_digits x0 <= precision).
  { clear E. assert (D : forall d, date = Some d -> 46 ∉ d).
    { intros d ->. destruct x. by eapply check_date_no_dot. }
    destruct clock as [clock|].
    - inv_ok. destruct x1 as [whole fraction]. apply check_clock_ok in Hx2 as (Nw & Lf & (f & -> & Hc) & Df).
      assert (P : exists p q, x0 = assemble q whole
          (if is_db db Postgres || (is_db db SqlServer && is_empty (trim_end_matches is_zero_char f))
           then trim_end_matches is_zero_char f
           else pad_right precision (trim_end_matches is_zero_char f)) /\ input = p ++ clock /\
          (46 ∉ p) /\ (46 ∉ q) /\ map (fun c => if c =? 84 then 32 else c) p = map (fun c => if c =? 84 then 32 else c) q).
      { unfold split_temporal in Hx. case_if_in Hx; [done|]. case_if_in Hx.
        - injection Hx as <- E1. subst clock. cbn in Hx1. to_prop.
          assert (exists c, input = take 10 input ++ c :: drop 11 input /\ (c = 32 \/ c = 84)) as (c & Ei & Hc').
          { apply orb_true_iff in H0 as [H0|H0]; apply char_at_eq in H0; eexists;
              (split; [symmetry; by apply take_drop_middle|auto]). }
          exists (take 10 input ++ [c]), (take 10 input ++ (if is_db db SqlServer then [84] else [32])).
          specialize (D _ eq_refl). split; [by apply Ok_inj in Hx1|].
          split; [by rewrite <- app_assoc|].
          split; [set_solver|]. split; [destruct (is_db db SqlServer); set_solver|].
          rewrite !map_app. f_equal. by destruct Hc' as [-> | ->], (is_db db SqlServer).
        - case_if_in Hx; [|done]. injection Hx as <- ->. exists [], []. apply Ok_inj in Hx1.
          split; [done|]. split; [done|]. split_and!; set_solver. }
      destruct P as (p & q & -> & -> & Np & Nq & Epq).
      set (fr := if _ || _ then _ else _).
      destruct (assemble_parts q whole fr Nq Nw) as [-> ->].
      assert (trim_end_matches is_zero_char fr = trim_end_matches is_zero_char f) as ->.
      { subst fr. destruct (_ || _); [|unfold pad_right; rewrite trim_zeros_pad]; apply trim_end_matches_idem. }
      split.
      + rewrite map_app, <- Epq, <- map_app.
        destruct Hc as [-> |[-> ->]].
        * rewrite app_assoc. apply parts_split. set_solver.
        * apply parts_whole. set_solver.
      + subst fr. destruct (_ || _); [done|]. unfold pad_right. autorewrite with zlen. lia.
    - apply Ok_inj in Hx1 as <-. unfold split_temporal in Hx. case_if_in Hx.
      + injection Hx as <-. cbn. specialize (D _ eq_refl). split; [done|].
        unfold fraction_digits. apply split_once_none in D. by rewrite D.
      + case_if_in Hx; [done|]. case_if_in Hx; done. }
  destruct K as [K1 K2]. eexists _, _. split; [done|].
  destruct (is_db db MySql); [|done]. destruct (mysql_parts x0) as [-> L]. split; [done|lia].
Qed.
End TemporalProofs.

Lemma normalized_parts s d : normalize_decimal s = Ok d ->
  exists neg w f, d = render_decimal neg w f /\ canonical_digits neg w f.
Proof.
  intros H. destruct (normalize_decimal_inv _ _ H) as (neg & w & f & S).
  rewrite (normalize_decimal_shape _ _ _ _ S) in H. apply Ok_inj in H as <-.
  destruct S as (sign & rest & _ & _ & Hw & Dw & Df & _).
  eexists _, _, _. split; [reflexivity|]. by apply canonical_canon.
Qed.

Lemma render_unsigned neg w f : canonical_digits neg w f ->
  default (render_decimal neg w f) (strip_prefix [45] (render_decimal neg w f)) =
    w ++ (if is_empty f then [] else 46 :: f).
Proof.
  intros (Dw & _ & Cw & _). unfold render_decimal. destruct neg; [done|].
  assert (exists c r, w = c :: r) as (c & r & ->).
  { destruct Cw as [-> |(c & r & -> & _)]; eauto. }
  apply andb_true_iff in Dw as [Dc _]. apply is_ascii_digit_range in Dc.
  destruct (strip_prefix [45] _) eqn:E; [|done].
  apply strip_prefix_some in E. injection E as -> _. lia.
Qed.

Lemma convert_decimal_sound v p s w : convert_decimal v p s = Ok w ->
  same_datum (VDecimal v) w /\ fits (TDecimal p s) w.
Proof.
  unfold convert_decimal. intros H. inv_ok.
  destruct (normalized_parts _ _ Hx) as (neg & d & f & -> & C). pose proof C as (Dd & _).
  rewrite (render_unsigned _ _ _ C) in H.
  assert (E : default (d ++ (if is_empty f then [] else 46 :: f), [])
                (split_once 46 (d ++ (if is_empty f then [] else 46 :: f))) = (d, f)).
  { pose proof (digit_not_in 46 d eq_refl Dd) as N. destruct f; cbn [is_empty].
    - rewrite app_nil_r. apply split_once_none in N. by rewrite N.
    - by rewrite split_once_app. }
  rewrite E in H. case_if_in H; [done|]. inv_ok. to_prop. split; [done|].
  by apply fits_decimal.
Qed.

Lemma shiftl_1 n : 0 <= n -> Z.shiftl 1 n = 2 ^ n.
Proof. intros. by rewrite Z.shiftl_mul_pow2, Z.mul_1_l. Qed.

Lemma bits_nonneg b : b ∈ [8; 16; 24; 32; 64] -> 0 <= b - 1.
Proof. set_solver by lia. Qed.

Lemma b2z_range v : 0 <= Z.b2z v <= 1.
Proof. destruct v; simpl; lia. Qed.

Section ConvertProofs.
Variable calendar_date : Z -> Z -> Z -> bool.

Lemma convert_value_sound sdb tdb v kind w :
  wf_type kind -> wf_value v -> convert_value calendar_date sdb tdb v kind = Ok w ->
  same_datum v w /\ holds kind w.
Proof.
  intros Wk Wv.
  assert (B : forall b u, kind = TInteger b u ->
    0 < 2 ^ (b - 1) /\ 2 ^ b = 2 * 2 ^ (b - 1) /\ 0 <= b - 1 /\ 2 <= 2 ^ (b - 1)).
  { intros b u ->. cbn in Wk. pose proof (pow2_bound b Wk) as [? ?]. pose proof (bits_nonneg b Wk).
    split_and!; try done. rewrite !elem_of_cons in Wk. destruct_or!; subst; try lia. set_solver. }
  destruct v, kind; cbn [convert_value]; intros H; try done.
  - destruct unsigned; inv_ok; [destruct (is_db tdb SqlServer)|]; (split; [done|]);
      destruct (B _ _ eq_refl) as (? & ? & ? & ?); pose proof (b2z_range v); cbn; lia.
  - inv_ok. destruct (is_db tdb Sqlite); (split; [done|]); [|done]. cbn. destruct v; auto.
  - destruct (B _ _ eq_refl) as (B1 & B2 & B3 & B4). cbn in Wv. unfold i64_range in Wv. destruct unsigned.
    + case_if_in H; [|done]. inv_ok. to_prop. rewrite shiftl_1 in H0 by lia.
      assert (0 <= v < 2 ^ bits).
      { apply orb_true_iff in H0 as [H0|H0]; to_prop; [subst|]; lia. }
      destruct (is_db tdb SqlServer); by split.
    + case_if_in H; [|done]. inv_ok. rewrite shiftl_1 in E by lia. split; [done|]. cbn.
      apply orb_true_iff in E as [E|E]; to_prop; [subst; lia|lia].
  - case_if_in H; [|done]. inv_ok. to_prop. split; [|done].
    apply orb_true_iff in H0 as [E|E]; to_prop; by subst.
  - destruct (B _ _ eq_refl) as (B1 & B2 & B3 & B4). cbn in Wv. unfold u64_range, u64_max in Wv. destruct unsigned.
    + case_if_in H; [|done]. rewrite shiftl_1 in E by lia.
      assert (0 <= v < 2 ^ bits).
      { apply orb_true_iff in E as [E|E]; to_prop; [subst|]; lia. }
      destruct (is_db tdb SqlServer); [case_if_in H; [|done]|]; inv_ok; by split.
    + case_if_in H; [|done]. inv_ok. split; [done|]. cbn. to_prop.
      destruct (bits =? 64) eqn:B64; to_prop; [subst; lia|]. rewrite shiftl_1 in E by lia. lia.
  - apply convert_decimal_sound in H as [H1 H2]. split; [done|]. cbn. by destruct w.
  - case_if_in H; [|done]. by inv_ok.
  - case_if_in H; [|done]. by inv_ok.
  - case_if_in H; [|done]. by inv_ok.
  - apply normalize_temporal_sound in H as (k & x & -> & P & L); [|done]. by split.
  - inv_ok. by destruct Wv.
Qed.

(** A converted cell. *)
Definition cell_ok (tdb : DatabaseType) (columns : list DataColumn) (name : str) (v w : DataValue) : Prop :=
  exists column, find_column columns name = Some column /\
    if is_null v then w = VNull /\ dc_nullable column = true
    else same_datum v w /\
      exists declared kind, database_type_name tdb (dc_declared_type column) true true = Some declared /\
        parse declared = Some kind /\ holds kind w.

Lemma convert_cell_sound source target mapped columns i v name w :
  wf_value v -> convert_cell calendar_date source target mapped columns i v name = Ok w ->
  cell_ok (md_database_type target) columns name v w.
Proof.
  intros Wv. unfold convert_cell. intros H. inv_ok. exists x. split; [done|].
  destruct (is_null v) eqn:N.
  - case_if_in H; [|done]. inv_ok. by destruct w.
  - inv_ok. case_if_in H; [done|]. pose proof (parse_wf _ _ Hx1) as Wk.
    apply convert_value_sound in H as [S K]; [|done|done]. split; [done|]. eauto.
Qed.

Lemma convert_cells_sound source target mapped columns i vs names ws :
  Forall wf_value vs -> length vs = length names ->
  convert_cells calendar_date source target mapped columns i vs names = Ok ws ->
  Forall2 (fun '(v, name) w => cell_ok (md_database_type target) columns name v w) (zip vs names) ws.
Proof.
  intros F. revert i names ws. induction F as [|v vs Hv F IH]; intros i [|name names] ws; try done.
  - intros _ H. apply Ok_inj in H as <-. constructor.
  - intros [= L] H. cbn [convert_cells] in H. inv_ok. cbn [zip zip_with]. constructor.
    + by eapply convert_cell_sound.
    + by eapply IH.
Qed.
End ConvertProofs.

(** ** A converted row is well formed *)

Lemma wf_repeat_zero n : wf_str (repeat 48 n).
Proof. induction n; constructor; [done|assumption]. Qed.
Lemma wf_trim_end p s : wf_str s -> wf_str (trim_end_matches p s).
Proof.
  intros W. destruct (trim_end_matches_split p s) as (t & E & _). rewrite E in W. apply Forall_app in W as [W _]. exact W.
Qed.
Lemma wf_split_once c s a b : wf_str s -> split_once c s = Some (a, b) -> wf_str a /\ wf_str b.
Proof.
  intros W E. apply split_once_some in E as [-> _]. apply Forall_app in W as [Wa W]. inversion_clear W. done.
Qed.
Lemma normalize_mysql_temporal_wf s : wf_str s -> wf_str (normalize_mysql_temporal s).
Proof.
  intros W. unfold normalize_mysql_temporal. destruct (split_once 46 s) as [[a b]|] eqn:E; [|done].
  apply wf_split_once in E as [Wa Wb]; [|done]. case_match; [|done]. case_match; [done|].
  apply Forall_app. split; [done|]. constructor; [done|by apply wf_trim_end].
Qed.
Lemma check_clock_wf clock precision whole fraction : wf_str clock ->
  check_clock clock precision = Ok (whole, fraction) -> wf_str whole /\ wf_str fraction.
Proof.
  intros W. unfold check_clock.
  destruct (default (clock, []) (split_once 46 clock)) as [a b] eqn:E.
  assert (Wab : wf_str a /\ wf_str b).
  { destruct (split_once 46 clock) as [[x y]|] eqn:S; cbn in E; injection E as <- <-; [by eapply wf_split_once|].
    split; [done|constructor]. }
  intros H. case_if_in H; [done|]. inv_ok. case_if_in H; [done|]. case_if_in H; [done|]. inv_ok.
  destruct Wab. split; [done|by apply wf_trim_end].
Qed.
Lemma split_temporal_wf kind input date clock : wf_str input -> split_temporal kind input = Some (date, clock) ->
  (forall d, date = Some d -> wf_str d) /\ (forall c, clock = Some c -> wf_str c).
Proof.
  intros W. unfold split_temporal.
  repeat case_match; try done; intros [= <- <-]; (split; intros ? [= <-]); by (apply Forall_take || apply Forall_drop || idtac).
Qed.

Lemma half_le_i64 bits : bits ∈ [8; 16; 24; 32; 64] -> 0 < 2 ^ (bits - 1) <= 9223372036854775808.
Proof. rewrite !elem_of_cons. intros [->|[->|[->|[->|[->|[]%elem_of_nil]]]]]; done. Qed.

Section ConvertedWf.
Context (calendar_date : Z -> Z -> Z -> bool).

Lemma normalize_temporal_wf input kind precision tdb w : wf_str input ->
  normalize_temporal calendar_date input kind precision tdb = Ok w -> wf_value w.
Proof.
  intros W. unfold normalize_temporal. intros H. case_if_in H; [done|]. apply rbind_ok_inv in H as ([date clock] & Sp & H).
  apply ok_or_ok_inv, split_temporal_wf in Sp as [Wd Wc]; [|done]. apply rbind_ok_inv in H as (? & _ & H).
  apply rbind_ok_inv in H as (value & V & H). apply Ok_inj in H as <-. cbn [wf_value].
  assert (Wv0 : wf_str (default [] date)) by (destruct date; [by apply Wd|constructor]).
  assert (Wv : wf_str value).
  { destruct clock as [c|]; [|by apply Ok_inj in V as <-].
    apply rbind_ok_inv in V as ([whole fraction] & C & V). apply check_clock_wf in C as [Ww Wf]; [|by apply Wc].
    apply Ok_inj in V as <-.
    assert (Wb : wf_str ((if is_some date then default [] date ++ (if is_db tdb SqlServer then [84] else [32]) else default [] date) ++ whole)).
    { apply Forall_app. split; [|done]. destruct (is_some date); [|done]. apply Forall_app. split; [done|].
      by destruct (is_db tdb SqlServer); repeat constructor. }
    match goal with |- wf_str (if is_empty ?f then _ else _) => assert (Wfr : wf_str f); [|destruct (is_empty f)] end.
    - destruct (is_db tdb Postgres || _); [done|]. apply Forall_app. split; [done|apply wf_repeat_zero].
    - done.
    - apply Forall_app. split; [done|]. by constructor. }
  split.
  - repeat case_match; apply (bool_decide_unpack (Forall _ _)); vm_compute; exact I.
  - destruct (is_db tdb MySql); [by apply normalize_mysql_temporal_wf|done].
Qed.

Lemma convert_value_wf sdb tdb v kind w : wf_type kind -> wf_value v ->
  convert_value calendar_date sdb tdb v kind = Ok w -> wf_value w.
Proof.
  intros Wk Wv H. pose proof (convert_value_sound calendar_date sdb tdb v kind w Wk Wv H) as [_ Hh].
  destruct v, kind; cbn [convert_value] in H; try done.
  - destruct unsigned; inv_ok; [destruct (is_db tdb SqlServer)|]; destruct v; cbn; unfold i64_range, u64_range, u64_max; lia.
  - inv_ok. destruct (is_db tdb Sqlite); [destruct v; cbn; unfold i64_range; lia|done].
  - destruct unsigned; (case_if_in H; [|done]); inv_ok; [|done]. to_prop.
    destruct (is_db tdb SqlServer); [done|]. cbn in *. unfold i64_range, u64_range, u64_max in *. lia.
  - case_if_in H; [|done]. by inv_ok.
  - cbn in Wv. unfold u64_range, u64_max in Wv. destruct unsigned.
    + case_if_in H; [|done]. destruct (is_db tdb SqlServer); [case_if_in H; [|done]|]; inv_ok; cbn; unfold i64_range, u64_range, u64_max; to_prop; lia.
    + case_if_in H; [|done]. inv_ok. cbn in Hh, Wk. pose proof (half_le_i64 bits Wk).
      cbn. unfold i64_range. lia.
  - unfold convert_decimal in H. inv_ok. case_match. case_if_in H; [done|]. inv_ok. by eapply normalize_decimal_wf.
  - case_if_in H; [|done]. by inv_ok.
  - case_if_in H; [|done]. by inv_ok.
  - case_if_in H; [|done]. by inv_ok.
  - eapply normalize_temporal_wf; [|exact H]. apply Wv.
  - by inv_ok.
Qed.

Lemma convert_cells_wf source target mapped columns i vs names ws : Forall wf_value vs ->
  convert_cells calendar_date source target mapped columns i vs names = Ok ws -> Forall wf_value ws.
Proof.
  intros F. revert i names ws. induction F as [|v vs Wv F IH]; intros i [|name names] ws H; cbn [convert_cells] in H;
    try (apply Ok_inj in H as <-; by constructor).
  apply rbind_ok_inv in H as (w & Cw & H). apply rbind_ok_inv in H as (ws' & Cs & H). apply Ok_inj in H as <-.
  constructor; [|by eapply IH]. unfold convert_cell in Cw. inv_ok. destruct (is_null v).
  - case_if_in Cw; [|done]. by inv_ok.
  - inv_ok. case_if_in Cw; [done|]. by eapply convert_value_wf; [eapply parse_wf| |].
Qed.

(** A converted row is well formed when the source's row is. *)
Lemma normalize_transfer_row_wf row source target mapping row' : wf_row row ->
  normalize_transfer_row calendar_date row source target mapping = Ok row' -> wf_row row'.
Proof.
  intros (Wt & Wk & Wv). unfold normalize_transfer_row. intros H. case_if_in H; [by inv_ok|]. inv_ok. case_if_in H; [done|]. inv_ok.
  split; [done|]. split; [constructor|]. by eapply convert_cells_wf.
Qed.
End ConvertedWf.


(** Across databases a type pair is accepted only when both declared
    names have one meaning there, and then every source value fits the target
    type, or the source is a boolean stored as an integer.  ClickHouse is
    never a target. *)
Theorem resolve_database_sound sdb source tdb target :
  resolve_database_transfer_type sdb source tdb target = Compatible ->
  tdb <> ClickHouse /\
  exists s t S T,
    database_type_name sdb source (negb (is_db sdb tdb)) false = Some s /\
    database_type_name tdb target (negb (is_db sdb tdb)) true = Some t /\
    parse s = Some S /\ parse t = Some T /\
    ((forall v, fits S v -> fits T v) \/ (sdb <> tdb /\ S = TBoolean /\ exists b un, T = TInteger b un)) /\
    (sdb <> tdb -> ~ (exists b, S = TFloat b) /\ S <> TUuid /\ S <> TJson).
Proof.
  unfold resolve_database_transfer_type. destruct (is_db tdb ClickHouse) eqn:C; [done|].
  unfold is_db in C. to_prop.
  destruct (database_type_name sdb _ _ _) as [s|] eqn:Hs; [|done].
  destruct (database_type_name tdb _ _ _) as [t|] eqn:Ht; [|done].
  intros H. split; [done|].
  assert (X : exists S T, parse s = Some S /\ parse t = Some T /\
    ((forall v, fits S v -> fits T v) \/ (sdb <> tdb /\ S = TBoolean /\ exists b un, T = TInteger b un)) /\
    (sdb <> tdb -> cross_pair (Some S) (Some T) = true)).
  { destruct (decide (sdb = tdb)) as [E|E].
    - unfold is_db in H. rewrite bool_decide_eq_true_2 in H by done. cbn [negb andb] in H.
      pose proof H as R. unfold resolve_transfer_type in H.
      destruct (parse s) as [S|] eqn:PS; [|done]. destruct (parse t) as [T|] eqn:PT; [|done].
      exists S, T. split_and!; try done. left. by apply (resolve_included s t).
    - unfold is_db in H. rewrite bool_decide_eq_false_2 in H by done. cbn [negb andb] in H.
      destruct (cross_pair (parse s) (parse t)) eqn:CP; [|done]. cbn [negb] in H.
      destruct (parse s) as [S|] eqn:PS; [|done].
      destruct (parse t) as [T|] eqn:PT; [|by destruct S].
      exists S, T. split_and!; try done. destruct (boolean_to_integer _ _) eqn:BI.
      + right. split; [done|]. destruct S, T; try done. eauto.
      + left. by apply (resolve_included s t). }
  destruct X as (S & T & PS & PT & K & N). exists s, t, S, T. split_and!; try done.
  intros E. specialize (N E). split; [intros [b ->]; done|]. split; intros ->; done.
Qed.

(** ** Witnesses *)

(** The proleptic Gregorian calendar. *)
Definition gregorian (y m d : Z) : bool :=
  let leap := (y mod 4 =? 0) && (negb (y mod 100 =? 0) || (y mod 400 =? 0)) in
  let days := nth (Z.to_nat (m - 1))
                [31; if leap then 29 else 28; 31; 30; 31; 30; 31; 31; 30; 31; 30; 31] 0 in
  (1 <=? m) && (m <=? 12) && (1 <=? d) && (d <=? days).

Definition sample_column (name type : str) : DataColumn :=
  mkColumn name type true None false 0 None false true.
Definition sample_metadata (db : DatabaseType) (types : list str) : DataMetadataSnapshot :=
  mkMetadata db
    [mkTable (u "t") [] (map (fun '(n, t) => sample_column n t) (zip [u "a"; u "b"; u "c"] types)) [] false true]
    false true true true [] [].
Definition sample_mapping : ValidatedMapping :=
  mkValidated [mkValidatedTable (u "t") (u "t") [u "a"; u "b"; u "c"] [u "a"; u "b"; u "c"] []] [u "t"] [u "t"].
Definition sample_source := sample_metadata Postgres [u "bigint"; u "timestamp(6)"; u "numeric(10,2)"].
Definition sample_target := sample_metadata MySql [u "bigint unsigned"; u "datetime(3)"; u "decimal(12,3)"].
Definition sample_row : CanonicalRow :=
  mkRow (u "t") [] [VInt 7; VTemporal (u "timestamp") (u "2024-02-29 10:00:00.120000"); VDecimal (u "01.50")].


Lemma resolve_database_sound_witness :
  resolve_database_transfer_type Postgres (u "boolean") MySql (u "tinyint") = Compatible /\ MySql <> ClickHouse.
Proof.
  assert (E : resolve_database_transfer_type Postgres (u "boolean") MySql (u "tinyint") = Compatible)
    by (vm_compute; reflexivity).
  split; [exact E|]. exact (proj1 (resolve_database_sound _ _ _ _ E)).
Defined.

End TypeMapping.
