(* ===== verification/Metadata.v ===== *)
(** Capabilities, mapping validation and endpoint resolution of the data tasks
    (src-tauri/src/db/data_tasks/metadata.rs).

    [validate_mapping] checks a request against the metadata of both endpoints
    and orders the target tables by their foreign keys. *)
From S2P Require Import Prelude RustText DataTypes MetaTypes TypeMapping.
Import DataTypes MetaTypes TypeMapping.

Module Metadata.

Definition CLICKHOUSE_TARGET_BLOCKER : str :=
  u "ClickHouse 目标追加暂未开放：无法原子绑定已预览的物理表和写入依赖，可能写入重建表或触发新物化视图".

Definition transaction_database (database : DatabaseType) : bool :=
  match database with Sqlite | Postgres | MySql | SqlServer => true | ClickHouse => false end.

Definition capabilities (source target : DatabaseType) (read_only safe : bool) : DataTaskCapabilities :=
  let supported := transaction_database target && safe && negb read_only in
  let row_sync := supported && is_db source target in
  let modes :=
    if negb supported then []
    else if is_db source ClickHouse then [Append]
    else if row_sync then [Merge; Mirror; Append; Replace]
    else [Append; Replace] in
  mkCapabilities row_sync supported modes
    (if supported then []
     else [mkBlocker (if read_only then u "read_only_target" else u "unsupported_capability")
             (if is_db target ClickHouse then CLICKHOUSE_TARGET_BLOCKER
              else if read_only then u "目标连接或实例只读"
              else u "无法验证数据库完整读取权限、目标一致快照或受保护写入") None])
    [] [].

Definition get_capabilities (source target : DataMetadataSnapshot) : DataTaskCapabilities :=
  capabilities (md_database_type source) (md_database_type target) (md_read_only target)
    ((md_consistent_snapshot source || is_db (md_database_type source) ClickHouse)
     && md_consistent_snapshot target && md_protected_write target
     && md_permissions_verified source && md_permissions_verified target).

(** ** Columns and keys *)

Definition key_is_float (t : str) : bool :=
  let t := to_ascii_uppercase (trim t) in
  one_of (default [] (split_char 40 t !! 0%nat))
    ["FLOAT"; "REAL"; "DOUBLE"; "DOUBLE PRECISION"; "FLOAT4"; "FLOAT8"].

Definition key_is_text (t : str) : bool :=
  let t := to_ascii_uppercase t in
  contains (u "CHAR") t || contains (u "TEXT") t || contains (u "CLOB") t.

Definition is_kind (a b : DataTaskKind) : bool := bool_decide (a = b).
Definition is_mode (a b : DataTaskMode) : bool := bool_decide (a = b).

(** One mapped column: the names of the source and target column. *)
Definition map_column (sdb tdb : DatabaseType) (s t : DataTable) (column : ColumnMapping) :
  result (str * str) str :=
  let? sc := ok_or (find_column (tb_columns s) (cm_source_column column)) (u "invalid_mapping: 源字段不存在") in
  let? tc := ok_or (find_column (tb_columns t) (cm_target_column column)) (u "invalid_mapping: 目标字段不存在") in
  if dc_generated tc then Err (u "invalid_mapping: 生成字段不能作为写入目标")
  else if dc_identity tc && negb (dc_generator_safe tc)
  then Err (u "unsupported_capability: 无法安全保留自增键或维护生成器高水位")
  else if negb (bool_decide (resolve_database_transfer_type sdb (dc_declared_type sc) tdb (dc_declared_type tc)
                             = Compatible))
  then Err (u "unsupported_capability: 字段类型不能证明无损兼容")
  else Ok (dc_name sc, dc_name tc).

(** A target column that a row cannot leave out. *)
Definition required_column (c : DataColumn) : bool :=
  negb (dc_generated c) && negb (dc_nullable c) && negb (is_some (dc_default_sql c)) && negb (dc_identity c).

Definition primary_key (t : DataTable) : list DataColumn :=
  sort_by (cmp_on dc_primary_key_ordinal Z.compare)
    (filter (fun c => 0 < dc_primary_key_ordinal c) (tb_columns t)).

Definition is_binary_collation (c : DataColumn) : bool := bool_decide (dc_collation c = Some (u "BINARY")).

(** The loop body over the zipped primary keys. *)
Definition key_index (columns : list (str * str)) (k : DataColumn * DataColumn) : result nat str :=
  let '(sc, tc) := k in
  if key_is_float (dc_declared_type sc) || key_is_float (dc_declared_type tc)
  then Err (u "unsupported_capability: 浮点主键的零和特殊值不能证明与数据库唯一性语义一致")
  else if dc_nullable sc || dc_nullable tc then Err (u "invalid_mapping: 同步定位键不能为空")
  else
    let? index := ok_or (position (fun '(source, target) =>
                           str_eqb source (dc_name sc) && str_eqb target (dc_name tc)) columns)
                    (u "invalid_mapping: 主键映射不完整或顺序不一致") in
    if (key_is_text (dc_declared_type sc) || key_is_text (dc_declared_type tc))
       && (negb (is_binary_collation sc) || negb (is_binary_collation tc))
    then Err (u "unsupported_capability: 无法证明字符串主键排序规则一致")
    else Ok index.

Definition key_indices (s t : DataTable) (columns : list (str * str)) : result (list nat) str :=
  let sk := primary_key s in
  let tk := primary_key t in
  if is_empty sk || negb (zlen sk =? zlen tk) then Err (u "invalid_mapping: 同步要求双方拥有完整真实主键")
  else traverse (key_index columns) (zip sk tk).

(** The loop body of [validate_mapping] for one table mapping. *)
Definition map_table (kind : DataTaskKind) (source target : DataMetadataSnapshot) (mapping : TableMapping) :
  result ValidatedTableMapping str :=
  let? s := ok_or (find_table (md_tables source) (tm_source_table mapping)) (u "invalid_mapping: 源表不存在") in
  let? t := ok_or (find_table (md_tables target) (tm_target_table mapping))
              (u "invalid_mapping: 目标表不存在，请先使用数据库结构同步") in
  if negb (tb_physical s) || negb (tb_physical t) then Err (u "unsupported_capability: 仅支持普通物理表")
  else if tb_enabled_user_triggers t then Err (u "unsupported_capability: 目标表存在启用的写触发器")
  else
    let? columns := traverse (map_column (md_database_type source) (md_database_type target) s t)
                      (sort_by (cmp_on cm_target_column str_cmp) (tm_columns mapping)) in
    let target_columns := map snd columns in
    if existsb (fun c => required_column c && negb (bool_decide (dc_name c ∈ target_columns))) (tb_columns t)
    then Err (u "invalid_mapping: 目标非空无默认值字段缺少映射")
    else
      let? keys := (if is_kind kind RowSync then key_indices s t columns else Ok []) in
      Ok (mkValidatedTable (tb_name s) (tb_name t) (map fst columns) target_columns keys).

(** ** Foreign keys

    [dependencies] is a BTreeMap: an association list sorted by table name;
    the BTreeSets it holds are used as sets only. *)

Abbreviation Dependencies := (list (str * gset str)) (only parsing).

Definition restricted_action (action : str) : bool :=
  one_of (to_ascii_uppercase action) ["NO ACTION"; "RESTRICT"].

Definition add_dependency (name parent : str) (deps : Dependencies) : Dependencies :=
  map (fun '(k, v) => if str_eqb k name then (k, {[parent]} ∪ v) else (k, v)) deps.

Fixpoint add_foreign_keys (selected : list str) (name : str) (fks : list DataForeignKey) (deps : Dependencies) :
  result Dependencies str :=
  match fks with
  | [] => Ok deps
  | fk :: fks =>
    if bool_decide (name ∈ selected) || bool_decide (fk_parent_table fk ∈ selected)
    then
      if negb (bool_decide (name ∈ selected)) || negb (bool_decide (fk_parent_table fk ∈ selected))
      then Err (u "unsupported_capability: 目标范围存在外部表外键依赖")
      else if negb (restricted_action (fk_on_update fk)) || negb (restricted_action (fk_on_delete fk))
      then Err (u "unsupported_capability: 不支持可能级联写入的外键")
      else add_foreign_keys selected name fks (add_dependency name (fk_parent_table fk) deps)
    else add_foreign_keys selected name fks deps
  end.

Fixpoint add_tables (selected : list str) (tables : list DataTable) (deps : Dependencies) :
  result Dependencies str :=
  match tables with
  | [] => Ok deps
  | t :: tables =>
    let? deps := add_foreign_keys selected (tb_name t) (tb_foreign_keys t) deps in
    add_tables selected tables deps
  end.

(** [dependencies.remove(&name)], then [dep.remove(&name)] for every value. *)
Definition remove_ready (deps : Dependencies) (name : str) : Dependencies :=
  map (fun '(k, v) => (k, v ∖ {[name]})) (filter (fun '(k, _) => k <> name) deps).

Definition cycle_error : str := u "unsupported_capability: 目标外键存在循环依赖".
Definition out_of_fuel : str := u "out of fuel".

(** The [while] loop.  Every round removes a table, so the number of tables is
    enough fuel. *)
Fixpoint order_tables (fuel : nat) (deps : Dependencies) : result (list str) str :=
  match deps with
  | [] => Ok []
  | _ =>
    match fuel with
    | O => Err out_of_fuel
    | S fuel =>
      let ready := map fst (filter (fun '(_, v) => v = ∅) deps) in
      if is_empty ready then Err cycle_error
      else
        let? rest := order_tables fuel (fold_left remove_ready ready deps) in
        Ok (ready ++ rest)
    end
  end.

(** [collect::<BTreeSet<_>>()] *)
Definition btree_set (l : list str) : list str := sort_by str_cmp (remove_dups l).

Definition validate_mapping (request : DataTaskRequest) (source target : DataMetadataSnapshot) :
  result ValidatedMapping str :=
  check? map_err (fun e => err_code e ++ u ": " ++ err_message e) (validate request) in
  if is_db (md_database_type target) ClickHouse
  then Err (u "unsupported_capability: " ++ CLICKHOUSE_TARGET_BLOCKER)
  else if is_db (md_database_type source) ClickHouse
          && (negb (is_kind (rq_kind request) Transfer) || negb (is_mode (rq_mode request) Append))
  then Err (u "unsupported_capability: ClickHouse 源仅支持追加传输")
  else if md_read_only target then Err (u "read_only_target: 目标连接或实例只读")
  else if negb (md_permissions_verified source) || negb (md_permissions_verified target)
  then Err (u "unsupported_capability: 无法验证完整读取与写入权限，或存在行级安全策略")
  else if (negb (md_consistent_snapshot source) && negb (is_db (md_database_type source) ClickHouse))
          || negb (md_consistent_snapshot target) || negb (md_protected_write target)
  then Err (u "unsupported_capability: 数据库不能提供一致快照或受保护写入")
  else if negb (is_db (md_database_type source) (md_database_type target)) && is_kind (rq_kind request) RowSync
  then Err (u "unsupported_capability: 跨类型不支持行同步")
  else
    (* Every database type is one of the accepted ones. *)
    let? output := traverse (map_table (rq_kind request) source target) (rq_mappings request) in
    let selected := btree_set (map vt_target_table output) in
    let? dependencies := add_tables selected (md_tables target) (map (fun name => (name, ∅)) selected) in
    let? insert_order := order_tables (length dependencies) dependencies in
    Ok (mkValidated (sort_by (cmp_on vt_target_table str_cmp) output) insert_order (reverse insert_order)).

(** ** Endpoints *)

Record EndpointIdentity : Type := mkIdentity {
  ei_database_type : DatabaseType;
  ei_instance : option str;
  ei_database : str;
  ei_sqlite_path : option str;
}.

Section Endpoints.
(** [std::fs::canonicalize] and [same_file::is_same_file]. *)
Variable canonicalize : str -> option str.
Variable is_same_file : str -> str -> option bool.

Definition resolve_endpoints (request : DataTaskRequest) (source target : EndpointIdentity) :
  result unit str :=
  if is_db (ei_database_type source) Sqlite && is_db (ei_database_type target) Sqlite
  then
    let? a := ok_or (ei_sqlite_path source) (u "same_physical_target: 无法确认源文件身份") in
    let? b := ok_or (ei_sqlite_path target) (u "same_physical_target: 无法确认目标文件身份") in
    let? ac := ok_or (canonicalize a) (u "same_physical_target: 无法确认源文件身份") in
    let? bc := ok_or (canonicalize b) (u "same_physical_target: 无法确认目标文件身份") in
    let? same := (if str_eqb ac bc then Ok true
                  else ok_or (is_same_file ac bc)
                         (u "same_physical_target: 无法验证 SQLite 物理文件身份")) in
    if same : bool then Err (u "same_physical_target: 源和目标指向同一个 SQLite 文件") else Ok tt
  else if is_db (ei_database_type source) (ei_database_type target)
  then
    match ei_instance source, ei_instance target with
    | Some a, Some b =>
      if str_eqb a b
         && eq_ignore_ascii_case (ei_database source) (ei_database target)
         && existsb (fun m => existsb (fun n =>
              eq_ignore_ascii_case (tm_source_table m) (tm_target_table n)) (rq_mappings request))
              (rq_mappings request)
      then Err (u "same_physical_target: 源和目标包含同一物理表") else Ok tt
    | _, _ => Err (u "same_physical_target: 无法验证源目标服务实例身份")
    end
  else Ok tt.
End Endpoints.

(** ** Specification *)

(** [p] comes before [k]. *)
Definition before (p k : str) (l : list str) : Prop := exists a b c, l = a ++ p :: b ++ k :: c.

(** A validated table against its mapping. *)
Record table_valid (kind : DataTaskKind) (source target : DataMetadataSnapshot) (m : TableMapping)
  (v : ValidatedTableMapping) (s t : DataTable) : Prop := {
  tv_source : find_table (md_tables source) (tm_source_table m) = Some s;
  tv_target : find_table (md_tables target) (tm_target_table m) = Some t;
  tv_names : vt_source_table v = tm_source_table m /\ vt_target_table v = tm_target_table m;
  tv_physical : tb_physical s = true /\ tb_physical t = true /\ tb_enabled_user_triggers t = false;
  tv_columns : zip (vt_source_columns v) (vt_target_columns v)
                 ≡ₚ map (fun c => (cm_source_column c, cm_target_column c)) (tm_columns m);
  tv_lengths : length (vt_source_columns v) = length (vt_target_columns v);
  tv_types : forall c, c ∈ tm_columns m -> exists sc tc,
    find_column (tb_columns s) (cm_source_column c) = Some sc /\
    find_column (tb_columns t) (cm_target_column c) = Some tc /\
    dc_generated tc = false /\ (dc_identity tc = true -> dc_generator_safe tc = true) /\
    resolve_database_transfer_type (md_database_type source) (dc_declared_type sc)
      (md_database_type target) (dc_declared_type tc) = Compatible;
  tv_required : forall c, c ∈ tb_columns t -> required_column c = true -> dc_name c ∈ vt_target_columns v;
  tv_keys : match kind with
            | RowSync =>
                vt_key_indices v <> [] /\
                map (fun i => vt_source_columns v !! i) (vt_key_indices v)
                  = map (fun c => Some (dc_name c)) (primary_key s) /\
                map (fun i => vt_target_columns v !! i) (vt_key_indices v)
                  = map (fun c => Some (dc_name c)) (primary_key t) /\
                Forall (fun c => dc_nullable c = false) (primary_key s ++ primary_key t)
            | Transfer => vt_key_indices v = []
            end;
}.

(** ** Proofs: the insertion order *)

Lemma remove_all_ready (ready : list str) (deps : Dependencies) :
  fold_left remove_ready ready deps =
  map (fun '(k, v) => (k, v ∖ list_to_set ready)) (filter (fun '(k, _) => k ∉ ready) deps).
Proof.
  revert deps. induction ready as [|x ready IH]; intros deps; cbn [fold_left].
  - induction deps as [|[k v] deps IHd]; [done|]. rewrite filter_cons. case_decide as D; [|set_solver].
    cbn [map]. rewrite <- IHd. f_equal. f_equal. set_solver.
  - rewrite IH. clear IH. unfold remove_ready. induction deps as [|[k v] deps IHd]; [done|].
    rewrite !(filter_cons _ (k, v)).
    destruct (decide (k = x)) as [->|N].
    + case_decide as D1; [done|]. case_decide as D2; [set_solver|]. exact IHd.
    + case_decide as D1; [|done]. cbn [map]. rewrite filter_cons.
      case_decide as D2; case_decide as D3; [|set_solver|set_solver|exact IHd].
      cbn [map]. rewrite IHd. f_equal. f_equal. rewrite list_to_set_cons. set_solver.
Qed.

(** The keys are distinct and every dependency is a key. *)
Definition closed (deps : Dependencies) : Prop :=
  NoDup (map fst deps) /\ forall k v p, (k, v) ∈ deps -> p ∈ v -> p ∈ map fst deps.

Section Round.
Context (deps : Dependencies) (C : closed deps).
Definition ready_of : list str := map fst (filter (fun '(_, v) => v = ∅) deps).
Definition next_of : Dependencies := fold_left remove_ready ready_of deps.

Lemma ready_elem k : k ∈ ready_of <-> (k, ∅) ∈ deps.
Proof.
  unfold ready_of. rewrite list_elem_of_fmap. split.
  - intros ([k' v] & -> & H). apply list_elem_of_filter in H as [-> H]. done.
  - intros H. exists (k, ∅). split; [done|]. by apply list_elem_of_filter.
Qed.

Lemma next_elem k v : (k, v) ∈ next_of <->
  exists w, (k, w) ∈ deps /\ (k ∉ ready_of) /\ v = w ∖ list_to_set ready_of.
Proof.
  unfold next_of. rewrite remove_all_ready, list_elem_of_fmap. split.
  - intros ([k' w] & [= -> ->] & H). apply list_elem_of_filter in H as [N H]. eauto.
  - intros (w & H & N & ->). exists (k, w). split; [done|]. by apply list_elem_of_filter.
Qed.

Lemma next_keys : map fst next_of = filter (fun k => k ∉ ready_of) (map fst deps).
Proof.
  unfold next_of. rewrite remove_all_ready. generalize ready_of. intros r. clear.
  induction deps as [|[k v] d IH]; [done|]. cbn [map fst]. rewrite !filter_cons.
  case_decide; case_decide; try done. cbn [map fst]. by rewrite IH.
Qed.

Lemma next_closed : closed next_of.
Proof.
  destruct C as [C1 C2]. split.
  - rewrite next_keys. by apply NoDup_filter.
  - intros k v p H Hp. apply next_elem in H as (w & H & N & ->). rewrite next_keys.
    apply list_elem_of_filter. split; [set_solver|]. eapply C2; [exact H|set_solver].
Qed.

Lemma ready_nodup : NoDup ready_of.
Proof.
  destruct C as [C1 _]. unfold ready_of. clear - C1. induction deps as [|[k v] d IH]; [constructor|].
  cbn in C1. apply NoDup_cons in C1 as [N C1]. rewrite filter_cons. case_decide; [|by apply IH].
  cbn. apply NoDup_cons. split; [|by apply IH]. intros Hk. destruct N.
  apply list_elem_of_fmap in Hk as (y & -> & Hy). apply list_elem_of_filter in Hy as [_ Hy].
  apply list_elem_of_fmap. eauto.
Qed.

Lemma round_keys : ready_of ++ map fst next_of ≡ₚ map fst deps.
Proof.
  destruct C as [C1 _]. apply NoDup_Permutation; [|done|].
  - rewrite next_keys. apply NoDup_app. split; [apply ready_nodup|]. split; [|by apply NoDup_filter].
    intros x Hx H. by apply list_elem_of_filter in H as [].
  - intros x. rewrite elem_of_app, next_keys, list_elem_of_filter. split.
    + intros [H|[_ H]]; [|done]. apply ready_elem in H. apply list_elem_of_fmap. by exists (x, ∅).
    + intros H. destruct (decide (x ∈ ready_of)); [by left|by right].
Qed.
End Round.

(** With a ready table, a round gets smaller. *)
Lemma next_smaller deps : closed deps -> ready_of deps <> [] -> (length (next_of deps) < length deps)%nat.
Proof.
  intros C N. pose proof (Permutation_length (round_keys deps C)) as L.
  rewrite length_app, !length_map in L. destruct (ready_of deps); [done|]. cbn in L. lia.
Qed.

Lemma order_tables_unfold fuel deps : deps <> [] ->
  order_tables (S fuel) deps =
  if is_empty (ready_of deps) then Err cycle_error
  else let? rest := order_tables fuel (next_of deps) in Ok (ready_of deps ++ rest).
Proof. by destruct deps. Qed.

Definition topological (deps : Dependencies) (l : list str) : Prop :=
  l ≡ₚ map fst deps /\ forall k v p, (k, v) ∈ deps -> p ∈ v -> before p k l.

(** A set of tables each of which depends on one of the set. *)
Definition cyclic (deps : Dependencies) : Prop := exists k0 (cycle : gset str),
  k0 ∈ cycle /\ forall k, k ∈ cycle -> exists v p, (k, v) ∈ deps /\ p ∈ v /\ p ∈ cycle.

Lemma before_app_l p k a l : before p k l -> before p k (a ++ l).
Proof. intros (x & y & z & ->). exists (a ++ x), y, z. by rewrite app_assoc. Qed.
Lemma before_app p k a l : p ∈ a -> k ∈ l -> before p k (a ++ l).
Proof.
  intros (x & y & ->)%list_elem_of_split (z & w & ->)%list_elem_of_split.
  exists x, (y ++ z), w. by rewrite <- !app_assoc.
Qed.

Lemma order_tables_spec fuel deps : closed deps -> (length deps <= fuel)%nat ->
  (exists l, order_tables fuel deps = Ok l /\ topological deps l) \/
  (order_tables fuel deps = Err cycle_error /\ cyclic deps).
Proof.
  revert deps. induction fuel as [|fuel IH]; intros deps C L.
  { destruct deps; [|cbn in L; lia]. left. exists []. split; [done|]. split; [done|]. set_solver. }
  destruct (decide (deps = [])) as [->|N].
  { left. exists []. split; [done|]. split; [done|]. set_solver. }
  rewrite order_tables_unfold by done. destruct (is_empty (ready_of deps)) eqn:E.
  { apply is_empty_iff in E. right. split; [done|]. destruct deps as [|[k0 v0] d] eqn:D; [done|].
    rewrite <- D in *. exists k0, (list_to_set (map fst deps)). split.
    { rewrite D. set_solver. }
    intros k Hk. apply elem_of_list_to_set, list_elem_of_fmap in Hk as ([k' v] & -> & Hk). cbn.
    destruct (set_choose_or_empty v) as [[p Hp]|V].
    - exists v, p. split; [done|]. split; [done|]. apply elem_of_list_to_set. by eapply C.
    - apply leibniz_equiv in V. subst v. apply ready_elem in Hk. rewrite E in Hk. set_solver. }
  apply is_empty_false in E. pose proof (next_smaller deps C E) as S.
  destruct (IH (next_of deps) (next_closed deps C)) as [(l & -> & T1 & T2)|[-> (k0 & cycle & K0 & K)]]; [lia|..].
  - left. eexists. split; [reflexivity|]. split; [by rewrite T1, round_keys|].
    intros k v p Hk Hp. assert (Nk : k ∉ ready_of deps).
    { intros R%ready_elem. destruct C as [C1 _].
      assert (v = ∅) as ->; [|set_solver].
      clear - C1 R Hk. induction deps as [|[k' v'] d IHd]; [set_solver|]. cbn in C1.
      apply NoDup_cons in C1 as [C0 C1].
      assert (forall w, (k, w) ∈ d -> k ∈ map fst d) by (intros; apply list_elem_of_fmap; by exists (k, w)).
      apply elem_of_cons in R as [[= -> ->]|R], Hk as [[= ->]|Hk]; try done; try (by subst);
        try (subst; exfalso; eauto; done). by apply IHd. }
    assert (Hn : (k, v ∖ list_to_set (ready_of deps)) ∈ next_of deps) by (apply next_elem; eauto).
    destruct (decide (p ∈ ready_of deps)) as [R|R].
    + apply before_app; [done|]. rewrite T1. apply list_elem_of_fmap. by eexists (k, _).
    + apply before_app_l. eapply T2; [exact Hn|]. set_solver.
  - right. split; [done|]. exists k0, cycle. split; [done|]. intros k Hk.
    destruct (K k Hk) as (v & p & Hv & Hp & Hc). apply next_elem in Hv as (w & Hw & _ & ->).
    exists w, p. split; [done|]. set_solver.
Qed.

(** ** Proofs: the foreign keys *)

(** What a foreign key requires of the selected tables and the dependencies. *)
Definition fk_done (selected : list str) (name : str) (fk : DataForeignKey) (deps : Dependencies) : Prop :=
  name ∈ selected \/ fk_parent_table fk ∈ selected ->
  name ∈ selected /\ fk_parent_table fk ∈ selected /\
  restricted_action (fk_on_update fk) = true /\ restricted_action (fk_on_delete fk) = true /\
  exists v, (name, v) ∈ deps /\ fk_parent_table fk ∈ v.

Definition extends (deps deps' : Dependencies) : Prop :=
  map fst deps' = map fst deps /\
  forall k v, (k, v) ∈ deps -> exists v', (k, v') ∈ deps' /\ v ⊆ v'.

Definition inside (selected : list str) (deps : Dependencies) : Prop :=
  map fst deps = selected /\ forall k v p, (k, v) ∈ deps -> p ∈ v -> p ∈ selected.

Lemma extends_refl deps : extends deps deps.
Proof. split; [done|]. eauto. Qed.
Lemma extends_trans a b c : extends a b -> extends b c -> extends a c.
Proof.
  intros [K1 H1] [K2 H2]. split; [congruence|]. intros k v H.
  destruct (H1 k v H) as (v1 & Hv & S1). destruct (H2 k v1 Hv) as (v2 & Hv2 & S2).
  exists v2. split; [done|]. set_solver.
Qed.
Lemma fk_done_extends selected name fk a b : extends a b -> fk_done selected name fk a -> fk_done selected name fk b.
Proof.
  intros [_ E] H D. destruct (H D) as (? & ? & ? & ? & v & Hv & Hp). split_and!; try done.
  destruct (E _ _ Hv) as (v' & Hv' & S). exists v'. split; [done|]. set_solver.
Qed.

Lemma add_dependency_spec selected name parent deps :
  inside selected deps -> name ∈ selected -> parent ∈ selected ->
  inside selected (add_dependency name parent deps) /\ extends deps (add_dependency name parent deps) /\
  exists v, (name, v) ∈ add_dependency name parent deps /\ parent ∈ v.
Proof.
  intros [K I] Hn Hp. unfold add_dependency.
  assert (F : map fst (map (fun '(k, v) => if str_eqb k name then (k, {[parent]} ∪ v) else (k, v)) deps)
            = map fst deps).
  { rewrite map_map. apply map_ext. intros [k v]. by destruct (str_eqb k name). }
  assert (E : forall k v, (k, v) ∈ deps -> ((k, if str_eqb k name then {[parent]} ∪ v else v) ∈
    map (fun '(k, v) => if str_eqb k name then (k, {[parent]} ∪ v) else (k, v)) deps)).
  { intros k v H. apply list_elem_of_fmap. exists (k, v). split; [by destruct (str_eqb k name)|done]. }
  split_and!.
  - split; [congruence|]. intros k v p H Hv. apply list_elem_of_fmap in H as ([k' w] & Ek & H).
    destruct (str_eqb k' name); injection Ek as -> ->; [|by eapply I].
    apply elem_of_union in Hv as [->%elem_of_singleton|Hv]; [done|]. by eapply I.
  - split; [done|]. intros k v H. eexists. split; [by apply E|]. destruct (str_eqb k name); set_solver.
  - rewrite <- K in Hn. apply list_elem_of_fmap in Hn as ([k v] & -> & H). cbn.
    eexists. split; [by apply E|]. cbn. rewrite str_eqb_refl. set_solver.
Qed.

Lemma add_foreign_keys_spec selected name fks deps deps' :
  inside selected deps -> add_foreign_keys selected name fks deps = Ok deps' ->
  inside selected deps' /\ extends deps deps' /\
  forall fk, fk ∈ fks -> fk_done selected name fk deps'.
Proof.
  revert deps. induction fks as [|fk fks IH]; intros deps I H; cbn [add_foreign_keys] in H.
  { apply Ok_inj in H as <-. split; [done|]. split; [apply extends_refl|]. set_solver. }
  destruct (bool_decide (name ∈ selected) || bool_decide (fk_parent_table fk ∈ selected)) eqn:D.
  - case_if_in H; [done|]. case_if_in H; [done|]. to_prop.
    destruct (add_dependency_spec selected name (fk_parent_table fk) deps) as (I1 & E1 & v & Hv & Hp); [done..|].
    destruct (IH _ I1 H) as (I2 & E2 & F). split; [done|]. split; [by eapply extends_trans|].
    intros fk' [->|Hin]%elem_of_cons; [|auto]. eapply fk_done_extends; [exact E2|].
    intros _. split_and!; try done. eauto.
  - destruct (IH _ I H) as (I2 & E2 & F). split; [done|]. split; [done|]. to_prop.
    intros fk' [->|Hin]%elem_of_cons; [|auto]. intros []; done.
Qed.

Lemma add_tables_spec selected tables deps deps' :
  inside selected deps -> add_tables selected tables deps = Ok deps' ->
  inside selected deps' /\ extends deps deps' /\
  forall t fk, t ∈ tables -> fk ∈ tb_foreign_keys t -> fk_done selected (tb_name t) fk deps'.
Proof.
  revert deps. induction tables as [|t tables IH]; intros deps I H; cbn [add_tables] in H.
  { apply Ok_inj in H as <-. split; [done|]. split; [apply extends_refl|]. set_solver. }
  inv_ok. destruct (add_foreign_keys_spec _ _ _ _ _ I Hx) as (I1 & E1 & F1).
  destruct (IH _ I1 H) as (I2 & E2 & F2). split; [done|]. split; [by eapply extends_trans|].
  intros t' fk [->|Ht]%elem_of_cons Hfk; [|auto]. eapply fk_done_extends; eauto.
Qed.

Lemma btree_set_nodup l : NoDup (btree_set l).
Proof. unfold btree_set. rewrite sort_by_perm. apply NoDup_remove_dups. Qed.
Lemma btree_set_elem l x : x ∈ btree_set l <-> x ∈ l.
Proof. unfold btree_set. rewrite sort_by_elem. apply elem_of_remove_dups. Qed.
Lemma btree_set_perm l : NoDup l -> btree_set l ≡ₚ l.
Proof. intros N. apply NoDup_Permutation; [apply btree_set_nodup|done|]. apply btree_set_elem. Qed.

(** ** Proofs: the table mappings *)

Lemma map_column_ok sdb tdb s t c p : map_column sdb tdb s t c = Ok p ->
  p = (cm_source_column c, cm_target_column c) /\ exists sc tc,
    find_column (tb_columns s) (cm_source_column c) = Some sc /\
    find_column (tb_columns t) (cm_target_column c) = Some tc /\
    dc_generated tc = false /\ (dc_identity tc = true -> dc_generator_safe tc = true) /\
    resolve_database_transfer_type sdb (dc_declared_type sc) tdb (dc_declared_type tc) = Compatible.
Proof.
  unfold map_column. intros H. inv_ok. case_if_in H; [done|]. case_if_in H; [done|]. case_if_in H; [done|].
  inv_ok. to_prop. destruct (find_column_some _ _ _ Hx) as [_ ->].
  destruct (find_column_some _ _ _ Hx0) as [_ ->]. split; [done|]. exists x, x0. split_and!; try done.
  intros I. rewrite I in E0. cbn in E0. by apply negb_false_iff in E0.
Qed.

Lemma key_index_ok columns sc tc i : key_index columns (sc, tc) = Ok i ->
  columns !! i = Some (dc_name sc, dc_name tc) /\ dc_nullable sc = false /\ dc_nullable tc = false.
Proof.
  unfold key_index. intros H. case_if_in H; [done|]. case_if_in H; [done|]. inv_ok.
  case_if_in H; [done|]. inv_ok. to_prop. apply position_some in Hx as ([a b] & Hi & Hp). to_prop.
  rewrite str_eqb_eq in *. by subst.
Qed.

Lemma key_indices_ok s t columns keys : key_indices s t columns = Ok keys ->
  keys <> [] /\
  map (fun i => map fst columns !! i) keys = map (fun c => Some (dc_name c)) (primary_key s) /\
  map (fun i => map snd columns !! i) keys = map (fun c => Some (dc_name c)) (primary_key t) /\
  Forall (fun c => dc_nullable c = false) (primary_key s ++ primary_key t).
Proof.
  unfold key_indices. generalize (primary_key s) (primary_key t). intros sk tk H. case_if_in H; [done|].
  to_prop. rewrite is_empty_false in *. apply traverse_ok_inv in H.
  assert (L : length sk = length tk) by (unfold zlen in *; lia). clear H1.
  assert (K : map (fun i => map fst columns !! i) keys = map (fun c => Some (dc_name c)) sk /\
    map (fun i => map snd columns !! i) keys = map (fun c => Some (dc_name c)) tk /\
    Forall (fun c => dc_nullable c = false) (sk ++ tk)).
  { clear H0. revert tk keys L H. induction sk as [|sc sk IH]; intros [|tc tk] keys L H; try done.
    { inversion H. by split_and!. }
    cbn [zip zip_with] in H. inversion H as [|? i ? keys' Hi H']; subst.
    injection L as L. destruct (IH tk keys' L H') as (K1 & K2 & K3).
    apply key_index_ok in Hi as (Hi & N1 & N2). cbn [map]. rewrite !list_lookup_fmap, Hi, K1, K2. cbn.
    split; [done|]. split; [done|]. apply list.Forall_cons. split; [done|].
    apply Forall_app in K3 as [K3 K4]. apply Forall_app. split; [done|]. by apply list.Forall_cons. }
  split; [|done]. destruct K as [K _]. intros ->. by destruct sk.
Qed.

Lemma zip_fst_snd {A B} (l : list (A * B)) : zip (map fst l) (map snd l) = l.
Proof. induction l as [|[a b] l IH]; [done|]. cbn. by rewrite IH. Qed.

Lemma map_table_ok kind source target m v :
  map_table kind source target m = Ok v -> exists s t, table_valid kind source target m v s t.
Proof.
  unfold map_table. intros H. inv_ok. rename x into s, x0 into t.
  case_if_in H; [done|]. case_if_in H; [done|]. inv_ok. rename x into columns.
  case_if_in H; [done|]. inv_ok. rename x into keys. to_prop.
  apply traverse_ok_inv in Hx1. exists s, t.
  set (f := fun c => (cm_source_column c, cm_target_column c)).
  assert (Ec : columns = map f (sort_by (cmp_on cm_target_column str_cmp) (tm_columns m)) /\
    Forall (fun c => exists p, map_column (md_database_type source) (md_database_type target) s t c = Ok p)
      (sort_by (cmp_on cm_target_column str_cmp) (tm_columns m))).
  { clear - Hx1. induction Hx1 as [|c p l k Hc _ IH]; [by split|]. destruct IH as [-> F].
    pose proof Hc as Hc'. apply map_column_ok in Hc' as [-> _]. split; [done|]. constructor; eauto. }
  destruct Ec as [Ec Fc].
  split; cbn.
  - done.
  - done.
  - by destruct (find_table_some _ _ _ Hx), (find_table_some _ _ _ Hx0).
  - done.
  - rewrite zip_fst_snd, Ec. by rewrite sort_by_perm.
  - by rewrite !length_map.
  - intros c Hc. rewrite list.Forall_forall in Fc. destruct (Fc c) as [p Hp]; [by rewrite sort_by_elem|].
    by apply map_column_ok in Hp as [_ Hp].
  - intros c Hc R. rewrite existsb_false_iff in E1. specialize (E1 c Hc). rewrite R in E1. cbn in E1.
    by to_prop.
  - unfold is_kind in Hx2. destruct kind; [|by apply Ok_inj in Hx2].
    by apply key_indices_ok in Hx2.
Qed.

(** ** The validation *)

Lemma supported_mode request source target :
  match rq_kind request with
  | RowSync => rq_mode request = Merge \/ rq_mode request = Mirror
  | Transfer => rq_mode request = Append \/ rq_mode request = Replace
  end ->
  is_db (md_database_type target) ClickHouse = false ->
  is_db (md_database_type source) ClickHouse
    && (negb (is_kind (rq_kind request) Transfer) || negb (is_mode (rq_mode request) Append)) = false ->
  md_read_only target = false ->
  negb (md_permissions_verified source) || negb (md_permissions_verified target) = false ->
  (negb (md_consistent_snapshot source) && negb (is_db (md_database_type source) ClickHouse))
    || negb (md_consistent_snapshot target) || negb (md_protected_write target) = false ->
  negb (is_db (md_database_type source) (md_database_type target)) && is_kind (rq_kind request) RowSync = false ->
  rq_mode request ∈ cap_supported_modes (get_capabilities source target).
Proof.
  unfold get_capabilities, capabilities. cbn [cap_supported_modes].
  intros M T S R P Q K. to_prop.
  assert (X : (md_consistent_snapshot source || is_db (md_database_type source) ClickHouse) = true).
  { destruct (md_consistent_snapshot source); [done|]. cbn in *. by apply negb_false_iff. }
  replace (md_permissions_verified source) with true by done.
  replace (md_permissions_verified target) with true by done.
  replace (md_consistent_snapshot target) with true by done.
  replace (md_protected_write target) with true by done. rewrite X, R.
  assert (Tt : transaction_database (md_database_type target) = true)
    by (unfold is_db in T; by destruct (md_database_type target)).
  rewrite Tt. cbn [andb negb]. unfold is_kind, is_mode in *.
  destruct (is_db (md_database_type source) ClickHouse); cbn [andb] in S.
  - apply orb_false_iff in S as [_ S]. apply negb_false_iff, bool_decide_eq_true in S. rewrite S. set_solver.
  - destruct (is_db (md_database_type source) (md_database_type target)).
    + destruct (rq_kind request); destruct M as [-> | ->]; set_solver.
    + destruct (rq_kind request); [done|]. destruct M as [-> | ->]; set_solver.
Qed.

Lemma validate_mapping_parts request source target vm :
  validate_mapping request source target = Ok vm ->
  valid_request request /\ rq_mode request ∈ cap_supported_modes (get_capabilities source target) /\
  exists output deps,
    Forall2 (fun m v => exists s t, table_valid (rq_kind request) source target m v s t)
      (rq_mappings request) output /\
    add_tables (btree_set (map vt_target_table output)) (md_tables target)
      (map (fun name => (name, ∅)) (btree_set (map vt_target_table output))) = Ok deps /\
    order_tables (length deps) deps = Ok (vm_insert_order vm) /\
    vm_tables vm = sort_by (cmp_on vt_target_table str_cmp) output /\
    vm_delete_order vm = reverse (vm_insert_order vm).
Proof.
  unfold validate_mapping. intros H. apply rbind_ok_inv in H as ([] & V & H). apply map_err_ok_inv in V.
  apply validate_ok_iff in V. destruct (is_db (md_database_type target) ClickHouse) eqn:E1; [done|].
  case_if_in H; [done|]. case_if_in H; [done|]. case_if_in H; [done|]. case_if_in H; [done|].
  case_if_in H; [done|]. inv_ok. split; [done|]. split.
  - apply supported_mode; try done. apply (vr_mode _ V).
  - exists x, x0. split_and!; try done.
    apply traverse_ok_inv in Hx. eapply Forall2_impl; [exact Hx|]. intros m v. apply map_table_ok.
Qed.

Lemma validated_tables_perm request source target vm output :
  Forall2 (fun m v => exists s t, table_valid (rq_kind request) source target m v s t)
    (rq_mappings request) output ->
  vm_tables vm = sort_by (cmp_on vt_target_table str_cmp) output ->
  valid_request request ->
  NoDup (map vt_target_table output) /\ map vt_target_table (vm_tables vm) ≡ₚ map vt_target_table output.
Proof.
  intros F E V. split; [|by rewrite E, sort_by_perm].
  replace (map vt_target_table output) with (map tm_target_table (rq_mappings request)); [apply V|].
  clear - F. induction F as [|m v ms vs (s & t & H) _ IH]; [done|]. cbn. rewrite IH.
  by destruct (tv_names _ _ _ _ _ _ _ H) as [_ ->].
Qed.


(** The validated orders respect the foreign keys: the insertion order
    lists every target table once, parents strictly before the tables that
    reference them; deletion is the reverse; and every foreign key touching a
    target stays inside the targets and restricts updates and deletes. *)
Theorem insert_order_topological request source target vm :
  validate_mapping request source target = Ok vm ->
  let selected := map vt_target_table (vm_tables vm) in
  NoDup (vm_insert_order vm) /\ vm_insert_order vm ≡ₚ selected /\
  vm_delete_order vm = reverse (vm_insert_order vm) /\
  forall t fk, t ∈ md_tables target -> fk ∈ tb_foreign_keys t ->
    tb_name t ∈ selected \/ fk_parent_table fk ∈ selected ->
    tb_name t ∈ selected /\ fk_parent_table fk ∈ selected /\
    restricted_action (fk_on_update fk) = true /\ restricted_action (fk_on_delete fk) = true /\
    before (fk_parent_table fk) (tb_name t) (vm_insert_order vm).
Proof.
  intros H selected. apply validate_mapping_parts in H as (V & _ & output & deps & F & A & O & E & D).
  destruct (validated_tables_perm _ _ _ _ _ F E V) as [N P].
  set (sel := btree_set (map vt_target_table output)) in *.
  assert (K : map fst (map (fun name : str => (name, ∅ : gset str)) sel) = sel).
  { rewrite map_map. cbn. apply map_id. }
  assert (I0 : inside sel (map (fun name => (name, ∅)) sel)).
  { split; [done|]. intros k v p Hk. apply list_elem_of_fmap in Hk as (y & [= _ ->] & _). set_solver. }
  destruct (add_tables_spec _ _ _ _ I0 A) as ([K1 I1] & _ & FK).
  assert (C : closed deps).
  { split; rewrite K1; [apply btree_set_nodup|]. intros k v p Hk Hp. by eapply I1. }
  destruct (order_tables_spec _ deps C (le_n _)) as [(l & O' & T1 & T2)|[O' _]]; rewrite O' in O; [|done].
  apply Ok_inj in O. subst l. rewrite K1 in T1.
  assert (S : sel ≡ₚ selected) by (unfold sel, selected; rewrite btree_set_perm by done; by symmetry).
  split; [rewrite T1; apply btree_set_nodup|]. split; [by rewrite T1|]. split; [done|].
  intros t fk Ht Hfk. rewrite <- !S. intros R. destruct (FK t fk Ht Hfk R) as (? & ? & ? & ? & v & Hv & Hp).
  split_and!; try done. by eapply T2.
Qed.

(** The ordering loop terminates and is complete: on a closed dependency
    map it either returns a topological order or reports a cycle, and a
    reported cycle is a non-empty set of tables each depending on one of the
    set.  The number of tables is enough fuel. *)
Theorem order_tables_complete deps :
  closed deps ->
  (exists l, order_tables (length deps) deps = Ok l /\ topological deps l) \/
  (order_tables (length deps) deps = Err cycle_error /\ cyclic deps).
Proof. intros C. by apply order_tables_spec. Qed.

(** Accepted endpoints cannot be one physical object: two SQLite files
    have known, different canonical paths and file identities; two endpoints
    of one server type have known instances, and differ in instance, database
    or every pair of source and target table. *)
Theorem resolve_endpoints_distinct canonicalize is_same_file request source target :
  resolve_endpoints canonicalize is_same_file request source target = Ok tt ->
  ei_database_type source = ei_database_type target ->
  match ei_database_type source with
  | Sqlite => exists a b ac bc,
      ei_sqlite_path source = Some a /\ ei_sqlite_path target = Some b /\
      canonicalize a = Some ac /\ canonicalize b = Some bc /\ ac <> bc /\
      is_same_file ac bc = Some false
  | _ => exists a b, ei_instance source = Some a /\ ei_instance target = Some b /\
      (a = b -> eq_ignore_ascii_case (ei_database source) (ei_database target) = true ->
       forall m n, m ∈ rq_mappings request -> n ∈ rq_mappings request ->
         eq_ignore_ascii_case (tm_source_table m) (tm_target_table n) = false)
  end.
Proof.
  unfold resolve_endpoints. intros H E. rewrite <- E in H.
  assert (X : is_db (ei_database_type source) (ei_database_type source) = true)
    by (unfold is_db; by apply bool_decide_eq_true_2).
  rewrite X in H.
  assert (S : forall st, (match ei_instance source, ei_instance target with
    | Some a, Some b =>
      if str_eqb a b && eq_ignore_ascii_case (ei_database source) (ei_database target)
         && existsb (fun m => existsb (fun n =>
              eq_ignore_ascii_case (tm_source_table m) (tm_target_table n)) (rq_mappings request))
              (rq_mappings request)
      then Err st else Ok tt
    | _, _ => Err (u "same_physical_target: 无法验证源目标服务实例身份")
    end = Ok tt) -> exists a b, ei_instance source = Some a /\ ei_instance target = Some b /\
      (a = b -> eq_ignore_ascii_case (ei_database source) (ei_database target) = true ->
       forall m n, m ∈ rq_mappings request -> n ∈ rq_mappings request ->
         eq_ignore_ascii_case (tm_source_table m) (tm_target_table n) = false)).
  { intros st K. destruct (ei_instance source) as [a|], (ei_instance target) as [b|]; try done.
    case_if_in K; [done|]. exists a, b. split_and!; try done. intros -> D m n Hm Hn.
    rewrite str_eqb_refl, D in E0. cbn [andb] in E0. rewrite existsb_false_iff in E0.
    specialize (E0 m Hm). rewrite existsb_false_iff in E0. by apply E0. }
  destruct (ei_database_type source); try exact (S _ H).
  rewrite X in H. cbn [andb] in H. inv_ok. case_if_in H; [done|]. subst. exists x, x0, x1, x2.
  destruct (str_eqb x1 x2) eqn:Q; [done|]. apply str_eqb_neq in Q. inv_ok. done.
Qed.

(** ** Witnesses *)

Definition sample_key : DataColumn := mkColumn (u "id") (u "INTEGER") false None false 1 None false true.
Definition sample_ref : DataColumn := mkColumn (u "p_id") (u "INTEGER") true None false 0 None false true.
Definition sample_fk : DataForeignKey :=
  mkForeignKey [u "p_id"] (u "p") [u "id"] (u "no action") (u "RESTRICT").
Definition sample_endpoint : DataMetadataSnapshot :=
  mkMetadata Sqlite
    [mkTable (u "c") [] [sample_key; sample_ref] [sample_fk] false true;
     mkTable (u "p") [] [sample_key] [] false true]
    false true true true [] [].
Definition sample_tables_request : DataTaskRequest :=
  mkRequest 1 RowSync (mkEndpoint (u "s") (u "main")) (mkEndpoint (u "t") (u "main"))
    [mkTableMapping (u "p") (u "p") [mkColumnMapping (u "id") (u "id")];
     mkTableMapping (u "c") (u "c") [mkColumnMapping (u "p_id") (u "p_id"); mkColumnMapping (u "id") (u "id")]]
    Merge.
Definition sample_validated : ValidatedMapping :=
  mkValidated
    [mkValidatedTable (u "c") (u "c") [u "id"; u "p_id"] [u "id"; u "p_id"] [0%nat];
     mkValidatedTable (u "p") (u "p") [u "id"] [u "id"] [0%nat]]
    [u "p"; u "c"] [u "c"; u "p"].

Lemma sample_validates : validate_mapping sample_tables_request sample_endpoint sample_endpoint = Ok sample_validated.
Proof. vm_compute. reflexivity. Qed.


Lemma insert_order_topological_witness : before (u "p") (u "c") (vm_insert_order sample_validated).
Proof.
  pose proof (insert_order_topological _ _ _ _ sample_validates) as (_ & _ & _ & H).
  refine (proj2 (proj2 (proj2 (proj2
    (H (mkTable (u "c") [] [sample_key; sample_ref] [sample_fk] false true) sample_fk _ _ _))))).
  - left.
  - left.
  - left. apply (bool_decide_eq_true_1 _). vm_compute. reflexivity.
Defined.

Definition sample_cycle : list (str * gset str) := [(u "a", {[u "b"]}); (u "b", {[u "a"]})].

Lemma order_tables_complete_witness :
  order_tables 2 sample_cycle = Err cycle_error /\ cyclic sample_cycle.
Proof.
  assert (C : closed sample_cycle).
  { split; [apply (bool_decide_eq_true_1 _); vm_compute; reflexivity|].
    unfold sample_cycle. generalize (u "a") (u "b"). intros a b k v p H Hp.
    apply elem_of_cons in H as [H|H]; [|apply elem_of_cons in H as [H|H]; [|by apply elem_of_nil in H]];
      apply pair_equal_spec in H as [-> ->]; apply elem_of_singleton in Hp as ->; set_solver. }
  assert (E : order_tables 2 sample_cycle = Err cycle_error) by (vm_compute; reflexivity).
  split; [exact E|].
  destruct (order_tables_complete sample_cycle C) as [(l & O & _)|[_ K]]; [|exact K].
  change (length sample_cycle) with 2%nat in O. rewrite E in O. discriminate O.
Defined.

Definition sample_identity (path : str) : EndpointIdentity := mkIdentity Sqlite None (u "main") (Some path).

Lemma resolve_endpoints_distinct_witness :
  exists a b ac bc, ei_sqlite_path (sample_identity (u "x")) = Some a /\ ei_sqlite_path (sample_identity (u "y")) = Some b /\
    Some a = Some ac /\ Some b = Some bc /\ ac <> bc /\ Some (str_eqb ac bc) = Some false.
Proof.
  refine (resolve_endpoints_distinct Some (fun a b => Some (str_eqb a b)) sample_tables_request
    (sample_identity (u "x")) (sample_identity (u "y")) _ _); reflexivity.
Defined.

End Metadata.
