(* ===== verification/Spool.v ===== *)
(** Encrypted snapshots (src-tauri/src/db/data_tasks/spool.rs): the resource
    budget, the append-only writer with its index, and the cursors.

    A spool is a data file of length-prefixed encrypted blocks, one per row,
    and an index file of encrypted offsets.  AES-GCM is the aes-gcm crate: a
    parameter with its functional contract.  The budget's atomics are the
    [Counters]; every function that touches them takes and returns them. *)
From S2P Require Import Prelude RustText Values.
Import Values.

Module Spool.

Definition ERROR : str := u "resource_limit: 加密快照读写失败或认证无效".

(** ** Resource budget *)

(** The limits, fixed at creation, and the counters that clones share. *)
Record ResourceBudget : Type := mkBudget {
  max_row_bytes : Z; memory_bytes : Z; sort_run_bytes : Z; disk_bytes : Z }.
Record Counters : Type := mkCounters {
  used : Z; cancelled : bool; memory_used : Z; disk_peak : Z; memory_peak : Z }.

Definition default_budget : ResourceBudget :=
  mkBudget (8 * 1024 * 1024) (64 * 1024 * 1024) (16 * 1024 * 1024) (5 * 1024 * 1024 * 1024).
Definition fresh_counters (cancelled : bool) : Counters := mkCounters 0 cancelled 0 0 0.

Definition check (c : Counters) : result unit str :=
  if cancelled c then Err (u "cancelled: 数据快照已取消") else Ok tt.

(** [fetch_update] with [checked_add] and the limit as filter. *)
Definition try_add (limit v n : Z) : option Z :=
  match checked_add v n with
  | Some m => if m <=? limit then Some m else None
  | None => None
  end.

Definition reserve_memory (b : ResourceBudget) (n : Z) (c : Counters) : result Counters str :=
  check? check c in
  match try_add (memory_bytes b) (memory_used c) n with
  | None => Err (u "resource_limit: 数据任务超过共享内存预算")
  | Some m => Ok (mkCounters (used c) (cancelled c) m (disk_peak c)
                    (Z.max (memory_peak c) (wrap64 (memory_used c + n))))
  end.

(** [Drop for MemoryLease]; [fetch_sub] wraps. *)
Definition drop_lease (n : Z) (c : Counters) : Counters :=
  mkCounters (used c) (cancelled c) (wrap64 (memory_used c - n)) (disk_peak c) (memory_peak c).

Definition reserve (b : ResourceBudget) (n : Z) (c : Counters) : result Counters str :=
  check? check c in
  match try_add (disk_bytes b) (used c) n with
  | None => Err (u "resource_limit: 临时数据超过磁盘配额")
  | Some m => Ok (mkCounters m (cancelled c) (memory_used c)
                    (Z.max (disk_peak c) (wrap64 (used c + n))) (memory_peak c))
  end.

(** ** Spools *)

(** [Inner] without its paths: a handle's files are its own. *)
Record Inner : Type := mkInner {
  i_key : bytes;
  i_prefix : bytes;
  i_budget : ResourceBudget;
  i_bytes : Z;
  i_data_bytes : Z;
  i_rows : Z;
  i_captured_at_ms : Z;
}.

Record SpoolWriter : Type := mkWriter {
  w_file : bytes;
  w_index_file : bytes;
  w_inner : Inner;
  w_failed : bool;
}.

(** A finished spool with the contents of its two files. *)
Record SpoolHandle : Type := mkHandle { h_inner : Inner; h_file : bytes; h_index_file : bytes }.

(** A cursor holds the rest of the data file from its position. *)
Record SpoolCursor : Type := mkCursor { c_handle : SpoolHandle; c_file : bytes; c_index : Z }.

(** [Drop for Inner]: the disk bytes go back to the budget. *)
Definition drop_inner (i : Inner) (c : Counters) : Counters :=
  mkCounters (wrap64 (used c - i_bytes i)) (cancelled c) (memory_used c) (disk_peak c) (memory_peak c).

(** What the environment decides for a new writer: the creation of the
    directory and the two files, and the random key and prefix. *)
Definition new_writer (b : ResourceBudget) (files_ok : bool) (key prefix : bytes) (c : Counters) :
  result SpoolWriter str :=
  check? check c in
  if (memory_bytes b <? 1024) || (max_row_bytes b =? 0) || (sort_run_bytes b =? 0)
  then Err (u "resource_limit: 无效的内存预算")
  else if negb files_ok then Err ERROR
  else Ok (mkWriter [] [] (mkInner key prefix b 0 0 0 0) false).

(** A writer whose rows may be [extra] bytes longer. *)
Definition writer_with_overhead (b : ResourceBudget) (extra : Z) (files_ok : bool) (key prefix : bytes) (c : Counters) :
  result SpoolWriter str :=
  let? m := ok_or (checked_add (max_row_bytes b) extra) ERROR in
  new_writer (mkBudget m (memory_bytes b) (sort_run_bytes b) (disk_bytes b)) files_ok key prefix c.

(** The two nonces of row [i]; the index nonce flips a bit of the prefix. *)
Definition nonce (prefix : bytes) (i : Z) : bytes := prefix ++ be_bytes 8 i.
Definition index_nonce (prefix : bytes) (i : Z) : bytes :=
  match prefix ++ be_bytes 8 i with
  | b :: rest => Z.lxor b 128 :: rest
  | [] => []
  end.
Definition row_aad (i length : Z) : bytes := be_bytes 8 i ++ be_bytes 8 length.

(** Layout-dependent sizes, as in [Values.memory_size]. *)
Record Layout : Type := mkLayout {
  str_capacity : str -> Z; bytes_capacity : bytes -> Z; vec_capacity : list DataValue -> Z;
  size_of_value : Z; size_of_row : Z }.
Definition row_memory (l : Layout) (r : CanonicalRow) : Z :=
  memory_size (str_capacity l) (bytes_capacity l) (vec_capacity l) (size_of_value l) (size_of_row l) r.

(** AES-256-GCM of the aes-gcm crate: [encrypt key nonce aad plaintext]
    yields the ciphertext with its 16-byte tag. *)
Record Aead : Type := mkAead {
  encrypt : bytes -> bytes -> bytes -> bytes -> option bytes;
  decrypt : bytes -> bytes -> bytes -> bytes -> option bytes;
}.
Class AeadLaws (a : Aead) : Prop := {
  encrypt_length key n aad p ct : encrypt a key n aad p = Some ct -> zlen ct = zlen p + 16;
  decrypt_encrypt key n aad p ct : encrypt a key n aad p = Some ct -> decrypt a key n aad ct = Some p;
}.

(** The outcome of the two file writes of a push: [None] is success, otherwise
    the bytes that still reached the file. *)
Record PushIo : Type := mkIo { io_file : option bytes; io_index : option bytes }.

Section Aead.
Context (a : Aead) (layout : Layout).

Definition set_inner (w : SpoolWriter) (i : Inner) : SpoolWriter :=
  mkWriter (w_file w) (w_index_file w) i (w_failed w).
Definition add_file (w : SpoolWriter) (b : bytes) : SpoolWriter :=
  mkWriter (w_file w ++ b) (w_index_file w) (w_inner w) (w_failed w).
Definition add_index (w : SpoolWriter) (b : bytes) : SpoolWriter :=
  mkWriter (w_file w) (w_index_file w ++ b) (w_inner w) (w_failed w).
Definition set_bytes (i : Inner) (bytes data_bytes rows : Z) : Inner :=
  mkInner (i_key i) (i_prefix i) (i_budget i) bytes data_bytes rows (i_captured_at_ms i).

Definition row_too_large : str := u "resource_limit: 单行超过快照或内存预算".

(** [push_inner] from the encoding on, while the memory lease is held. *)
Definition push_leased (io : PushIo) (w : SpoolWriter) (row : CanonicalRow) (c : Counters) :
  SpoolWriter * Counters * result unit str :=
  let i := w_inner w in
  let b := i_budget i in
  match canonical_bytes row with
  | Err e => (w, c, Err e)
  | Ok plain =>
    if (max_row_bytes b <? zlen plain) || (memory_bytes b <? sat_mul (zlen plain) 4)
    then (w, c, Err row_too_large)
    else
      let length := zlen plain + 16 in
      match encrypt a (i_key i) (nonce (i_prefix i) (i_rows i)) (row_aad (i_rows i) length) plain,
            encrypt a (i_key i) (index_nonce (i_prefix i) (i_rows i)) (be_bytes 8 (i_rows i))
              (be_bytes 8 (i_data_bytes i)) with
      | Some block, Some offset =>
        let size := length + 8 + 24 in
        match reserve b size c with
        | Err e => (w, c, Err e)
        | Ok c =>
          let w := set_inner w (set_bytes i (i_bytes i + size) (i_data_bytes i) (i_rows i)) in
          match io_file io with
          | Some partial => (add_file w partial, c, Err ERROR)
          | None =>
            let w := add_file w (be_bytes 8 length ++ block) in
            match io_index io with
            | Some partial => (add_index w partial, c, Err ERROR)
            | None =>
              let w := add_index w offset in
              let i := w_inner w in
              match checked_add (i_rows i) 1 with
              | None => (set_inner w (set_bytes i (i_bytes i) (i_data_bytes i + (length + 8)) (i_rows i)), c, Err ERROR)
              | Some rows =>
                (set_inner w (set_bytes i (i_bytes i) (i_data_bytes i + (length + 8)) rows), c, Ok tt)
              end
            end
          end
        end
      | _, _ => (w, c, Err ERROR)
      end
  end.

Definition push_inner (io : PushIo) (w : SpoolWriter) (row : CanonicalRow) (c : Counters) :
  SpoolWriter * Counters * result unit str :=
  let b := i_budget (w_inner w) in
  match check c with
  | Err e => (w, c, Err e)
  | Ok _ =>
    if (memory_bytes b / 4 <? row_memory layout row) || (max_row_bytes b <? encoded_size row)
       || (memory_bytes b <? sat_mul (encoded_size row) 4)
    then (w, c, Err row_too_large)
    else
      let lease := sat_mul (encoded_size row) 2 in
      match reserve_memory b lease c with
      | Err e => (w, c, Err e)
      | Ok c => let '(w, c, r) := push_leased io w row c in (w, drop_lease lease c, r)
      end
  end.

Definition push (io : PushIo) (w : SpoolWriter) (row : CanonicalRow) (c : Counters) :
  SpoolWriter * Counters * result unit str :=
  if w_failed w then (w, c, Err ERROR)
  else
    let '(w, c, r) := push_inner io w row c in
    (if is_ok r then w else mkWriter (w_file w) (w_index_file w) (w_inner w) true, c, r).

(** [push_batch]: the rows with the outcome of their writes. *)
Fixpoint push_batch (w : SpoolWriter) (rows : list (PushIo * CanonicalRow)) (c : Counters) :
  SpoolWriter * Counters * result unit str :=
  match rows with
  | [] => (w, c, Ok tt)
  | (io, row) :: rows =>
    let '(w, c, r) := push io w row c in
    match r with Err e => (w, c, Err e) | Ok _ => push_batch w rows c end
  end.

Definition finish (flush_ok : bool) (now : Z) (w : SpoolWriter) (c : Counters) : result SpoolHandle str :=
  if w_failed w then Err ERROR
  else
    check? check c in
    if negb flush_ok then Err ERROR
    else
      let i := w_inner w in
      Ok (mkHandle (mkInner (i_key i) (i_prefix i) (i_budget i) (i_bytes i) (i_data_bytes i) (i_rows i) now)
            (w_file w) (w_index_file w)).

(** *** Reading *)

Definition read_exact (n : Z) (file : bytes) : result (bytes * bytes) str :=
  if zlen file <? n then Err ERROR else Ok (take (Z.to_nat n) file, drop (Z.to_nat n) file).

Definition cursor (h : SpoolHandle) (c : Counters) : result SpoolCursor str :=
  check? check c in
  if negb (zlen (h_file h) =? i_data_bytes (h_inner h)) then Err ERROR
  else Ok (mkCursor h (h_file h) 0).

Definition cursor_at (h : SpoolHandle) (index : Z) (c : Counters) : result SpoolCursor str :=
  let i := h_inner h in
  if i_rows i <? index then Err (u "resource_limit: 快照游标越界")
  else
    let? cu := cursor h c in
    if index =? i_rows i then Ok (mkCursor h (c_file cu) index)
    else if negb (zlen (h_index_file h) =? i_rows i * 24) then Err ERROR
    else
      let? (sealed, _) := read_exact 24 (drop (Z.to_nat (index * 24)) (h_index_file h)) in
      let? offset := ok_or (decrypt a (i_key i) (index_nonce (i_prefix i) index) (be_bytes 8 index) sealed) ERROR in
      (* [try_into] of the slice into eight bytes *)
      if negb (zlen offset =? 8) then Err ERROR
      else if i_data_bytes i <=? be_value offset then Err ERROR
      else Ok (mkCursor h (drop (Z.to_nat (be_value offset)) (c_file cu)) index).

(** [next_row] after the length is read, while the memory lease is held. *)
Definition next_leased (cu : SpoolCursor) (len : Z) (file : bytes) : SpoolCursor * result (option CanonicalRow) str :=
  let i := h_inner (c_handle cu) in
  match read_exact len file with
  | Err e => (cu, Err e)
  | Ok (sealed, rest) =>
    let cu := mkCursor (c_handle cu) rest (c_index cu) in
    match decrypt a (i_key i) (nonce (i_prefix i) (c_index cu)) (row_aad (c_index cu) len) sealed with
    | None => (cu, Err ERROR)
    | Some plain =>
      (mkCursor (c_handle cu) rest (c_index cu + 1), let? row := decode_row plain in Ok (Some row))
    end
  end.

Definition next_row (cu : SpoolCursor) (c : Counters) :
  SpoolCursor * Counters * result (option CanonicalRow) str :=
  let i := h_inner (c_handle cu) in
  match check c with
  | Err e => (cu, c, Err e)
  | Ok _ =>
    if c_index cu =? i_rows i then (cu, c, Ok None)
    else
      match read_exact 8 (c_file cu) with
      | Err e => (cu, c, Err e)
      | Ok (head, file) =>
        let len := be_value head in
        let cu := mkCursor (c_handle cu) file (c_index cu) in
        if (len <? 16) || (max_row_bytes (i_budget i) + 16 <? len) then (cu, c, Err ERROR)
        else
          let lease := sat_mul len 2 in
          match reserve_memory (i_budget i) lease c with
          | Err e => (cu, c, Err e)
          | Ok c => let '(cu, r) := next_leased cu len file in (cu, drop_lease lease c, r)
          end
      end
  end.

(** The loop every reader runs: [while let Some(row) = cursor.next_row()?]. *)
Fixpoint read_rows (fuel : nat) (cu : SpoolCursor) (c : Counters) :
  Counters * result (list CanonicalRow) str :=
  match fuel with
  | O => (c, Err (u "out of fuel"))
  | S fuel =>
    let '(cu, c, r) := next_row cu c in
    match r with
    | Err e => (c, Err e)
    | Ok None => (c, Ok [])
    | Ok (Some row) => let '(c, rest) := read_rows fuel cu c in (c, let? rows := rest in Ok (row :: rows))
    end
  end.
End Aead.

(** ** Specification *)

Section Spec.
Context (a : Aead).

(** [file] is the sequence of sealed blocks of [rows], the first of which is
    row number [k] of the spool. *)
Inductive sealed_from (i : Inner) : Z -> list CanonicalRow -> bytes -> Prop :=
| sealed_nil k : sealed_from i k [] []
| sealed_cons k row plain block rows rest :
    canonical_bytes row = Ok plain -> zlen plain <= max_row_bytes (i_budget i) ->
    encrypt a (i_key i) (nonce (i_prefix i) k) (row_aad k (zlen plain + 16)) plain = Some block ->
    sealed_from i (k + 1) rows rest ->
    sealed_from i k (row :: rows) (be_bytes 8 (zlen plain + 16) ++ block ++ rest).

(** The contents of a spool's files after [rows] were pushed. *)
Record written (i : Inner) (file index : bytes) (rows : list CanonicalRow) : Prop := {
  wr_sealed : sealed_from i 0 rows file;
  wr_data : i_data_bytes i = zlen file;
  wr_rows : i_rows i = zlen rows;
  wr_index_length : zlen index = 24 * zlen rows;
  wr_index n : (n < length rows)%nat -> exists pre rest offset,
    file = pre ++ rest /\ sealed_from i (Z.of_nat n) (drop n rows) rest /\
    take 24 (drop (24 * n) index) = offset /\
    encrypt a (i_key i) (index_nonce (i_prefix i) (Z.of_nat n)) (be_bytes 8 (Z.of_nat n))
      (be_bytes 8 (zlen pre)) = Some offset;
}.
End Spec.

(** Sane limits: the sums of the code stay in range. *)
Record wf_budget (b : ResourceBudget) : Prop := {
  wf_row_bytes : 0 <= max_row_bytes b <= 4611686018427387904;
  wf_memory_bytes : 0 <= memory_bytes b <= u64_max;
  wf_disk_bytes : 0 <= disk_bytes b <= u64_max;
}.
Definition wf_counters (b : ResourceBudget) (c : Counters) : Prop :=
  0 <= used c <= disk_bytes b /\ 0 <= memory_used c <= memory_bytes b.

(** A reader can run: not cancelled, and room for the largest row. *)
Definition can_read (b : ResourceBudget) (c : Counters) : Prop :=
  cancelled c = false /\ 0 <= memory_used c /\
  memory_used c + 2 * (max_row_bytes b + 16) <= memory_bytes b.

(** ** Proofs *)

Lemma check_ok c : check c = Ok tt <-> cancelled c = false.
Proof. unfold check. by destruct (cancelled c). Qed.

Lemma try_add_some limit v n m : try_add limit v n = Some m -> m = v + n /\ m <= limit.
Proof.
  unfold try_add, checked_add. destruct (v + n <=? u64_max); [|done].
  destruct (v + n <=? limit) eqn:E; [|done]. intros [= <-]. to_prop. done.
Qed.
Lemma try_add_ok limit v n : limit <= u64_max -> v + n <= limit -> try_add limit v n = Some (v + n).
Proof.
  intros. unfold try_add, checked_add. rewrite (proj2 (Z.leb_le (v + n) u64_max)) by lia.
  by rewrite (proj2 (Z.leb_le (v + n) limit)) by lia.
Qed.

Lemma reserve_memory_inv b n c c' : reserve_memory b n c = Ok c' ->
  cancelled c = false /\ used c' = used c /\ memory_used c' = memory_used c + n /\
  memory_used c' <= memory_bytes b /\ cancelled c' = cancelled c.
Proof.
  unfold reserve_memory. intros H. inv_ok. destruct x. apply check_ok in Hx.
  destruct (try_add _ _ _) eqn:T; [|done]. apply try_add_some in T as [-> L].
  apply Ok_inj in H as <-. done.
Qed.

Lemma reserve_inv b n c c' : reserve b n c = Ok c' ->
  used c' = used c + n /\ used c' <= disk_bytes b /\ memory_used c' = memory_used c /\
  cancelled c' = cancelled c.
Proof.
  unfold reserve. intros H. inv_ok. destruct (try_add _ _ _) eqn:T; [|done].
  apply try_add_some in T as [-> L]. apply Ok_inj in H as <-. done.
Qed.

Lemma take_drop_app_length {A} (l k : list A) n : n = length l -> take n (l ++ k) = l /\ drop n (l ++ k) = k.
Proof. intros ->. by rewrite take_app_length, drop_app_length. Qed.

Lemma read_exact_app n l rest : zlen l = n -> read_exact n (l ++ rest) = Ok (l, rest).
Proof.
  intros H. unfold read_exact. autorewrite with zlen. pose proof (zlen_nonneg rest).
  rewrite (proj2 (Z.ltb_ge _ _)) by lia. unfold zlen in H.
  destruct (take_drop_app_length l rest (Z.to_nat n)) as [-> ->]; [lia|done].
Qed.

Lemma be8_length w : zlen (be_bytes 8 w) = 8.
Proof. by rewrite be_bytes_length. Qed.

Lemma sealed_snoc a i k rows file row plain block :
  sealed_from a i k rows file ->
  canonical_bytes row = Ok plain -> zlen plain <= max_row_bytes (i_budget i) ->
  encrypt a (i_key i) (nonce (i_prefix i) (k + zlen rows)) (row_aad (k + zlen rows) (zlen plain + 16)) plain
    = Some block ->
  sealed_from a i k (rows ++ [row]) (file ++ be_bytes 8 (zlen plain + 16) ++ block).
Proof.
  intros S C L E. induction S as [k|k row' plain' block' rows rest C' L' E' S IH].
  - cbn [app]. change (zlen (@nil CanonicalRow)) with 0 in E. rewrite Z.add_0_r in E.
    rewrite <- (app_nil_r block). econstructor; try done. constructor.
  - rewrite <- !app_assoc. cbn [app]. econstructor; try done. apply IH.
    autorewrite with zlen in E. by rewrite Z.add_assoc in E.
Qed.

(** The files depend on the inner record through its keys and limits only. *)
Definition same_spool (i j : Inner) : Prop :=
  i_key i = i_key j /\ i_prefix i = i_prefix j /\ i_budget i = i_budget j.

Lemma sealed_same a i j k rows file : same_spool i j -> sealed_from a i k rows file -> sealed_from a j k rows file.
Proof.
  intros (K & P & B) S. induction S; [constructor|]. rewrite K, P, B in *. by econstructor.
Qed.

Lemma push_ok a `{!AeadLaws a} layout io w row c w' c' rows :
  written a (w_inner w) (w_file w) (w_index_file w) rows ->
  push a layout io w row c = (w', c', Ok tt) ->
  written a (w_inner w') (w_file w') (w_index_file w') (rows ++ [row]) /\
  same_spool (w_inner w) (w_inner w') /\ w_failed w' = false.
Proof.
  intros W. unfold push. destruct (w_failed w) eqn:F; [congruence|].
  destruct (push_inner a layout io w row c) as [[w1 c1] r] eqn:E. intros [= <- <- ->].
  unfold push_inner in E. destruct (check c); [|congruence].
  destruct (_ || _ || _); [congruence|]. destruct (reserve_memory _ _ _) as [c2|]; [|congruence].
  destruct (push_leased a io w row c2) as [[w2 c3] r2] eqn:L. injection E as -> <- ->.
  cbn [is_ok]. unfold push_leased in L.
  destruct (canonical_bytes row) as [plain|] eqn:C; [|congruence].
  destruct (_ || _) eqn:Big; [congruence|]. to_prop.
  destruct (encrypt _ _ _ _ plain) as [block|] eqn:E1; [|congruence].
  destruct (encrypt _ _ _ _ (be_bytes 8 (i_data_bytes _))) as [off|] eqn:E2; [|congruence].
  destruct (reserve _ _ _) as [c4|]; [|congruence].
  destruct (io_file io); [congruence|]. destruct (io_index io); [congruence|].
  destruct (checked_add _ 1) as [n|] eqn:N; [|congruence]. injection L as <- <-.
  cbn [set_inner add_file add_index w_inner w_file w_index_file w_failed set_bytes i_rows i_data_bytes
       i_key i_prefix i_budget] in *.
  unfold checked_add in N. destruct (_ <=? _) in N; [|done]. injection N as <-.
  destruct W as [Ws Wd Wr Wl Wi]. rewrite Wr, Wd in *.
  assert (Lb : zlen block = zlen plain + 16) by (by eapply encrypt_length).
  assert (Lo : zlen off = 24) by (apply encrypt_length in E2; rewrite be8_length in E2; lia).
  set (j := set_bytes (set_bytes _ _ _ _) _ _ _). assert (Sj : same_spool (w_inner w) j) by (by unfold same_spool).
  assert (Snew : sealed_from a j 0 (rows ++ [row]) (w_file w ++ be_bytes 8 (zlen plain + 16) ++ block)).
  { eapply sealed_same; [exact Sj|]. eapply sealed_snoc; eauto. }
  split; [|done]. split; subst j; cbn [set_bytes i_rows i_data_bytes i_key i_prefix i_budget].
  - done.
  - autorewrite with zlen. lia.
  - autorewrite with zlen. lia.
  - autorewrite with zlen. lia.
  - intros k Hk. rewrite length_app in Hk. cbn in Hk.
    assert (Li : length (w_index_file w) = (24 * length rows)%nat) by (unfold zlen in Wl; lia).
    destruct (decide (k < length rows)%nat) as [Q|Q].
    + destruct (Wi k Q) as (pre & rest & o & -> & Sr & T & En).
      exists pre, (rest ++ be_bytes 8 (zlen plain + 16) ++ block), o. rewrite <- app_assoc.
      split; [done|]. split.
      * rewrite drop_app_le by lia. eapply sealed_same; [exact Sj|].
        eapply sealed_snoc; try done.
        replace (Z.of_nat k + zlen (drop k rows)) with (zlen rows)
          by (unfold zlen; rewrite length_drop; lia). done.
      * split; [|done]. rewrite drop_app_le by lia. rewrite take_app_le; [done|].
        rewrite length_drop. lia.
    + assert (k = length rows) as -> by lia. change (Z.of_nat (length rows)) with (zlen rows).
      exists (w_file w), (be_bytes 8 (zlen plain + 16) ++ block), off. split; [done|]. split.
      * rewrite drop_app_length. rewrite <- (app_nil_r block). eapply sealed_same; [exact Sj|].
        econstructor; try done. constructor.
      * split; [|done]. rewrite <- Li, drop_app_length. apply take_ge. unfold zlen in Lo. lia.
Qed.

Lemma push_batch_ok a `{!AeadLaws a} layout rows w c w' c' done_rows :
  written a (w_inner w) (w_file w) (w_index_file w) done_rows -> w_failed w = false ->
  push_batch a layout w rows c = (w', c', Ok tt) ->
  written a (w_inner w') (w_file w') (w_index_file w') (done_rows ++ map snd rows) /\
  same_spool (w_inner w) (w_inner w') /\ w_failed w' = false.
Proof.
  revert w c done_rows. induction rows as [|[io row] rows IH]; intros w c dr W F H; cbn [push_batch] in H.
  - injection H as <- <-. rewrite app_nil_r. done.
  - destruct (push a layout io w row c) as [[w1 c1] r] eqn:P. destruct r as [[]|]; [|congruence].
    apply (push_ok a) with (rows := dr) in P as (W1 & S1 & F1); [|done].
    destruct (IH _ _ _ W1 F1 H) as (W2 & (K & Q & B) & F2).
    destruct S1 as (K1 & Q1 & B1). cbn [map]. rewrite <- app_assoc in W2. split; [done|].
    split; [|done]. unfold same_spool. by rewrite K1, Q1, B1.
Qed.

(** *** Reading back *)

Lemma canonical_decode row plain : wf_row row -> canonical_bytes row = Ok plain -> zlen plain <= usize_max ->
  decode_row plain = Ok (norm_row row).
Proof. intros W E L. apply canonical_bytes_raw in E as ->. apply decode_raw_row; [by apply norm_row_wf|exact L]. Qed.

Lemma reserve_read b n c : wf_budget b -> can_read b c -> 0 <= n <= 2 * (max_row_bytes b + 16) ->
  exists c', reserve_memory b n c = Ok c' /\ cancelled c' = false /\ memory_used c' = memory_used c + n.
Proof.
  intros [[_ R] [_ M] _] (C & P & Q) N. unfold reserve_memory, check. rewrite C. cbn [rbind].
  rewrite try_add_ok by lia. eexists. split; [reflexivity|]. split; reflexivity.
Qed.

Lemma drop_lease_back b n c c' : wf_budget b -> can_read b c -> 0 <= n -> cancelled c' = false ->
  memory_used c' = memory_used c + n -> memory_used c + n <= memory_bytes b ->
  can_read b (drop_lease n c') /\ memory_used (drop_lease n c') = memory_used c.
Proof.
  intros [_ [_ M] _] (C & P & Q) N C' E L. unfold can_read, drop_lease. cbn. rewrite E.
  replace (memory_used c + n - n) with (memory_used c) by lia.
  rewrite wrap64_id by (unfold u64_range; lia). done.
Qed.

Section Read.
Context (a : Aead) `{!AeadLaws a} (h : SpoolHandle).
Abbreviation i := (h_inner h).
Abbreviation b := (i_budget i).
Context (Wb : wf_budget b).

(** One step of a cursor in front of row [k]. *)
Lemma next_row_sealed k row rows file c :
  0 <= k -> k < i_rows i -> wf_row row -> can_read b c ->
  sealed_from a i k (row :: rows) file -> exists file' c',
    next_row a (mkCursor h file k) c = (mkCursor h file' (k + 1), c', Ok (Some (norm_row row))) /\
    sealed_from a i (k + 1) rows file' /\ can_read b c' /\ memory_used c' = memory_used c.
Proof.
  intros K1 K2 Wr Cr S. inversion S as [|? ? plain block ? rest C L E S']; subst.
  pose proof (zlen_nonneg plain) as Pn. pose proof Wb as [[_ Mr] Mb _].
  unfold next_row. cbn [c_handle c_index c_file]. pose proof Cr as (Cc & Cm & Cl).
  unfold check. rewrite Cc. rewrite (proj2 (Z.eqb_neq k _)) by lia.
  rewrite read_exact_app by apply be8_length. rewrite be_value_u64 by (unfold u64_range, u64_max; lia).
  rewrite (proj2 (Z.ltb_ge _ 16)) by lia. rewrite (proj2 (Z.ltb_ge _ (zlen plain + 16))) by lia. cbn [orb].
  assert (Sm : sat_mul (zlen plain + 16) 2 = 2 * (zlen plain + 16)) by (unfold sat_mul, u64_max; lia).
  rewrite Sm. destruct (reserve_read b (2 * (zlen plain + 16)) c Wb Cr) as (c1 & -> & C1 & M1); [lia|].
  assert (Lb : zlen block = zlen plain + 16) by (by eapply encrypt_length).
  unfold next_leased. cbn [c_handle c_index]. rewrite read_exact_app by done.
  rewrite (decrypt_encrypt _ _ _ _ _ E), (canonical_decode row plain Wr C) by (unfold usize_max, u64_max; lia).
  cbn [rbind]. eexists _, _. split; [reflexivity|]. split; [done|].
  apply (drop_lease_back b (2 * (zlen plain + 16)) c c1); try done; lia.
Qed.

Lemma read_rows_sealed rows k file c fuel :
  0 <= k -> k + zlen rows = i_rows i -> Forall wf_row rows -> can_read b c ->
  (rows <> [] -> sealed_from a i k rows file) -> (length rows < fuel)%nat ->
  exists c', read_rows a fuel (mkCursor h file k) c = (c', Ok (map norm_row rows)) /\
    memory_used c' = memory_used c.
Proof.
  revert k file c fuel. induction rows as [|row rows IH]; intros k file c fuel K E F Cr S L;
    destruct fuel as [|fuel]; try (cbn in L; lia).
  - cbn [read_rows]. unfold next_row. cbn [c_handle c_index]. pose proof Cr as (Cc & _).
    unfold check. rewrite Cc. change (zlen (@nil CanonicalRow)) with 0 in E.
    rewrite (proj2 (Z.eqb_eq k _)) by lia. eauto.
  - apply list.Forall_cons in F as [Wr F]. autorewrite with zlen in E. pose proof (zlen_nonneg rows).
    destruct (next_row_sealed k row rows file c) as (file' & c' & N & S' & Cr' & M); try done; [lia|by apply S|].
    cbn [read_rows]. rewrite N. cbn in L.
    destruct (IH (k + 1) file' c' fuel) as (c2 & R & M2); try done; [lia|lia|lia|].
    rewrite R. cbn [rbind]. eexists. split; [reflexivity|]. congruence.
Qed.

Lemma cursor_at_sealed rows n c :
  written a i (h_file h) (h_index_file h) rows -> (n <= length rows)%nat -> zlen (h_file h) <= u64_max ->
  can_read b c ->
  exists file, cursor_at a h (Z.of_nat n) c = Ok (mkCursor h file (Z.of_nat n)) /\
    (drop n rows <> [] -> sealed_from a i (Z.of_nat n) (drop n rows) file).
Proof.
  intros W Hn Hf (Cc & _ & _). pose proof W as [Ws Wd Wr Wl Wi]. unfold cursor_at.
  rewrite Wr. rewrite (proj2 (Z.ltb_ge (zlen rows) _)) by (unfold zlen; lia).
  unfold cursor, check. rewrite Cc, Wd, Z.eqb_refl. cbn [rbind negb c_file].
  destruct (decide (n = length rows)) as [->|N].
  { change (Z.of_nat (length rows)) with (zlen rows). rewrite Z.eqb_refl. eexists. split; [reflexivity|].
    rewrite drop_all. done. }
  rewrite (proj2 (Z.eqb_neq (Z.of_nat n) (zlen rows))) by (unfold zlen; lia).
  rewrite (proj2 (Z.eqb_eq (zlen (h_index_file h)) _)) by lia. cbn [negb].
  destruct (Wi n ltac:(lia)) as (pre & rest & offset & Ef & Sr & T & En).
  replace (Z.to_nat (Z.of_nat n * 24)) with (24 * n)%nat by lia.
  assert (Ld : length (drop (24 * n) (h_index_file h)) = (24 * length rows - 24 * n)%nat).
  { rewrite length_drop. unfold zlen in Wl. lia. }
  unfold read_exact. rewrite (proj2 (Z.ltb_ge _ 24)) by (unfold zlen; lia). cbn [rbind].
  change (Z.to_nat 24) with 24%nat. rewrite T, (decrypt_encrypt _ _ _ _ _ En). cbn [ok_or rbind].
  rewrite be8_length, Z.eqb_refl. cbn [negb].
  pose proof (zlen_nonneg pre). pose proof (zlen_nonneg rest).
  assert (zlen (h_file h) = zlen pre + zlen rest) as Lf by (rewrite Ef; by autorewrite with zlen).
  rewrite be_value_u64 by (unfold u64_range; lia).
  assert (0 < zlen rest).
  { destruct (drop n rows) as [|r rs] eqn:D.
    - apply (f_equal length) in D. rewrite length_drop in D. cbn in D. lia.
    - inversion Sr. autorewrite with zlen. pose proof (zlen_nonneg block). pose proof (zlen_nonneg rest0). lia. }
  rewrite (proj2 (Z.leb_gt _ (zlen pre))) by lia. eexists. split; [reflexivity|]. intros _.
  rewrite Ef. unfold zlen. by rewrite Nat2Z.id, drop_app_length.
Qed.
End Read.

(** C37: a spool reads back what was written.  After a successful batch and
    finish, a cursor placed at any row [n] of the spool reads exactly the rows
    from [n] on, in order and with decimals in normal form, then the end; the
    reader returns all the memory it leased. *)
Theorem spool_roundtrip a layout b key prefix files_ok flush_ok now w0 w c0 c1 batch h n cr :
  AeadLaws a -> wf_budget b -> Forall wf_row (map snd batch) ->
  new_writer b files_ok key prefix c0 = Ok w0 ->
  push_batch a layout w0 batch c0 = (w, c1, Ok tt) ->
  finish flush_ok now w c1 = Ok h ->
  zlen (h_file h) <= u64_max -> (n <= length batch)%nat -> can_read b cr ->
  exists cu c', cursor_at a h (Z.of_nat n) cr = Ok cu /\
    read_rows a (S (length batch - n)) cu cr = (c', Ok (map norm_row (drop n (map snd batch)))) /\
    memory_used c' = memory_used cr.
Proof.
  intros La Wb F N P Fin Lf Ln Cr. unfold new_writer in N. inv_ok. case_if_in N; [done|].
  case_if_in N; [done|]. apply Ok_inj in N as <-.
  apply (push_batch_ok a) with (done_rows := []) in P as (W & (K & Q & B) & Fl); [|split; cbn; try done|done].
  2:{ constructor. }
  2:{ intros m Hm. cbn in Hm. lia. }
  cbn [app w_inner i_key i_prefix i_budget] in *.
  unfold finish in Fin. rewrite Fl in Fin. inv_ok. case_if_in Fin; [done|]. apply Ok_inj in Fin as <-.
  cbn [h_file] in Lf. set (h := mkHandle _ _ _).
  assert (Wh : written a (h_inner h) (h_file h) (h_index_file h) (map snd batch)).
  { destruct W as [Ws Wd Wr Wl Wi].
    assert (Sm : same_spool (w_inner w) (h_inner h)) by (by unfold same_spool, h).
    split; cbn; try done; [by eapply sealed_same|].
    intros m Hm. destruct (Wi m Hm) as (pre & rest & o & X1 & X2 & X3 & X4).
    exists pre, rest, o. split_and!; try done. by eapply sealed_same. }
  assert (Eb : i_budget (h_inner h) = b) by (subst h; cbn; congruence).
  rewrite <- Eb in Wb, Cr.
  destruct (cursor_at_sealed a h (map snd batch) n cr Wh) as (file & Ecu & Sd); [by rewrite length_map|done|done|].
  destruct (read_rows_sealed a h Wb (drop n (map snd batch)) (Z.of_nat n) file cr (S (length batch - n)))
    as (c' & R & M); try done.
  - lia.
  - rewrite (wr_rows _ _ _ _ _ Wh). unfold zlen. rewrite length_drop, length_map. lia.
  - by apply Forall_drop.
  - rewrite length_drop, length_map. lia.
  - exists (mkCursor h file (Z.of_nat n)), c'. done.
Qed.

(** No nonce of a spool is used twice under its key: the data nonces of
    different rows differ, so do the index nonces, and no data nonce is an
    index nonce. *)
Theorem nonces_distinct prefix i j :
  zlen prefix = 4 -> Forall byte_range prefix -> u64_range i -> u64_range j ->
  (nonce prefix i = nonce prefix j -> i = j) /\
  (index_nonce prefix i = index_nonce prefix j -> i = j) /\
  nonce prefix i <> index_nonce prefix j.
Proof.
  intros L B Hi Hj.
  assert (I : forall x y, x = y -> be_value x = be_value y) by (by intros x y ->).
  destruct prefix as [|p prefix]; [done|]. unfold nonce, index_nonce. cbn [app].
  split_and!.
  - intros E. injection E as E. apply app_inv_head, I in E. rewrite !be_value_u64 in E; done.
  - intros E. injection E as E. apply app_inv_head, I in E. rewrite !be_value_u64 in E; done.
  - intros E. injection E as E _. apply (f_equal (fun z => Z.lxor z p)) in E.
    rewrite Z.lxor_nilpotent, (Z.lxor_comm p 128), Z.lxor_assoc, Z.lxor_nilpotent in E. done.
Qed.

(** *** Accounting *)

(** The effect of an operation on the shared counters and the bytes charged
    to the writer. *)
Record accounted (b : ResourceBudget) (w w' : SpoolWriter) (c c' : Counters) : Prop := {
  ac_memory : memory_used c' = memory_used c;
  ac_disk : used c' - used c = i_bytes (w_inner w') - i_bytes (w_inner w);
  ac_grows : used c <= used c';
  ac_limit : used c' <= disk_bytes b;
  ac_budget : i_budget (w_inner w') = i_budget (w_inner w);
}.

Lemma accounted_refl b w c : used c <= disk_bytes b -> accounted b w w c c.
Proof. intros. split; try done; lia. Qed.
Lemma accounted_trans b w1 w2 w3 c1 c2 c3 :
  accounted b w1 w2 c1 c2 -> accounted b w2 w3 c2 c3 -> accounted b w1 w3 c1 c3.
Proof. intros [] []. split; try congruence; lia. Qed.

Lemma push_leased_accounted a io w row c w' c' r :
  used c <= disk_bytes (i_budget (w_inner w)) ->
  push_leased a io w row c = (w', c', r) -> accounted (i_budget (w_inner w)) w w' c c'.
Proof.
  intros Wc. pose proof (accounted_refl (i_budget (w_inner w)) w c Wc) as R. unfold push_leased.
  destruct (canonical_bytes row) as [plain|]; [|congruence]. pose proof (zlen_nonneg plain).
  destruct (_ || _); [congruence|].
  destruct (encrypt _ _ _ _ plain); [|congruence]. destruct (encrypt _ _ _ _ (be_bytes 8 (i_data_bytes _))); [|congruence].
  destruct (reserve _ _ _) as [c1|] eqn:E; [|congruence]. apply reserve_inv in E as (U & L & M & _).
  assert (X : forall f k i fl, i_bytes i = i_bytes (w_inner w) + (zlen plain + 16 + 8 + 24) ->
    i_budget i = i_budget (w_inner w) -> accounted (i_budget (w_inner w)) w (mkWriter f k i fl) c c1).
  { intros f k i fl Hb Hd. split; cbn [w_inner]; try done; try lia. }
  destruct (io_file io); [intros [= <- <- _]; by apply X|].
  destruct (io_index io); [intros [= <- <- _]; by apply X|].
  destruct (checked_add _ 1); intros [= <- <- _]; by apply X.
Qed.

Lemma push_accounted a layout io w row c w' c' r :
  wf_budget (i_budget (w_inner w)) -> wf_counters (i_budget (w_inner w)) c -> 0 <= encoded_size row ->
  push a layout io w row c = (w', c', r) -> accounted (i_budget (w_inner w)) w w' c c'.
Proof.
  intros [_ [_ Wm] _] [[U0 U1] [M0 M1]] Hs. pose proof (accounted_refl _ w c U1) as R. unfold push.
  destruct (w_failed w); [congruence|].
  destruct (push_inner a layout io w row c) as [[w1 c1] r1] eqn:E. intros H.
  assert (X : accounted (i_budget (w_inner w)) w w1 c c1).
  2:{ injection H as <- <- _. destruct (is_ok r1); [done|]. by destruct X. }
  clear H. unfold push_inner in E. destruct (check c); [|congruence].
  destruct (_ || _ || _); [congruence|]. destruct (reserve_memory _ _ _) as [c2|] eqn:Rm; [|congruence].
  apply reserve_memory_inv in Rm as (_ & Hu & Hm & Hl & _).
  destruct (push_leased a io w row c2) as [[w2 c3] r2] eqn:L. injection E as <- <- _.
  apply push_leased_accounted in L; [|lia]. destruct L as [Am Ad Ag Al Ab]. split; cbn; try done; try lia.
  rewrite Am, Hm. rewrite wrap64_id; [lia|]. unfold u64_range.
  assert (0 <= sat_mul (encoded_size row) 2) by (unfold sat_mul, u64_max; lia). lia.
Qed.

Lemma encoded_size_nonneg row : 0 <= encoded_size row.
Proof.
  unfold encoded_size. pose proof (str_len_nonneg (table row)).
  assert (0 <= sat_add 24 (str_len (table row))) as H0 by (unfold sat_add, u64_max; lia). revert H0.
  generalize (sat_add 24 (str_len (table row))). induction (key row ++ values row) as [|v l IH]; intros n Hn; [done|].
  cbn [fold_left]. apply IH. pose proof (value_encoded_size_nonneg v). unfold sat_add, u64_max. lia.
Qed.

(** Disk and memory accounting is exact on every outcome.  However a batch
    ends - success, refusal, failed write or cancellation - all leased memory
    is returned, the shared disk counter grew by exactly the bytes charged to
    the writer and stays within its quota, and dropping the writer gives
    exactly these bytes back. *)
Theorem push_batch_accounts a layout w batch c w' c' r :
  wf_budget (i_budget (w_inner w)) -> wf_counters (i_budget (w_inner w)) c ->
  0 <= i_bytes (w_inner w) <= used c ->
  push_batch a layout w batch c = (w', c', r) ->
  memory_used c' = memory_used c /\
  used c' - used c = i_bytes (w_inner w') - i_bytes (w_inner w) /\
  used c' <= disk_bytes (i_budget (w_inner w)) /\
  used (drop_inner (w_inner w') c') = used c - i_bytes (w_inner w).
Proof.
  intros Wb Wc Hb P.
  assert (A : accounted (i_budget (w_inner w)) w w' c c').
  { revert w c Wb Wc Hb P. induction batch as [|[io row] batch IH]; intros w c Wb Wc Hb P; cbn [push_batch] in P.
    - injection P as <- <- _. apply accounted_refl. apply Wc.
    - destruct (push a layout io w row c) as [[w1 c1] r1] eqn:E.
      apply push_accounted in E as A1; [|done|done|apply encoded_size_nonneg].
      destruct r1; [|by injection P as <- <- _]. pose proof A1 as [Am Ad Ag Al Ab].
      apply accounted_trans with w1 c1; [done|]. rewrite <- Ab. apply IH; rewrite ?Ab; try done; [|lia].
      destruct Wc as [[? ?] [? ?]]. split; [lia|]. rewrite Am. lia. }
  destruct A as [Am Ad Ag Al Ab]. split_and!; try done. unfold drop_inner. cbn [used].
  destruct Wb as [_ _ [_ ?]]. rewrite wrap64_id by (unfold u64_range; lia). lia.
Qed.

(** ** Witnesses *)

Definition sample_aead : Aead := mkAead
  (fun _ _ _ p => Some (p ++ repeat 0 16)) (fun _ _ _ ct => Some (take (length ct - 16) ct)).
#[export] Instance sample_aead_laws : AeadLaws sample_aead.
Proof.
  split; intros key n aad p ct; cbn; intros [= <-].
  - autorewrite with zlen. reflexivity.
  - rewrite length_app. cbn [repeat length]. rewrite Nat.add_sub. by rewrite take_app_length.
Qed.
Definition sample_layout : Layout := mkLayout str_len zlen zlen 32 72.
Definition no_fault : PushIo := mkIo None None.
Definition sample_batch : list (PushIo * CanonicalRow) :=
  [(no_fault, sample_row); (no_fault, mkRow (u "t") [VInt 5] [VText (u "x")])].
Definition sample_writer : SpoolWriter := mkWriter [] [] (mkInner [] [1; 2; 3; 4] default_budget 0 0 0 0) false.
Definition sample_pushed := push_batch sample_aead sample_layout sample_writer sample_batch (fresh_counters false).
Definition sample_handle : SpoolHandle :=
  let w := sample_pushed.1.1 in
  mkHandle (mkInner [] [1; 2; 3; 4] default_budget (i_bytes (w_inner w)) (i_data_bytes (w_inner w))
              (i_rows (w_inner w)) 7) (w_file w) (w_index_file w).

Lemma default_budget_wf : wf_budget default_budget.
Proof. split; vm_compute; split; discriminate. Qed.

Lemma sample_batch_wf : Forall wf_row (map snd sample_batch).
Proof.
  constructor; [apply sample_wf|]. constructor; [|constructor].
  repeat split; repeat constructor; vm_compute; intuition congruence.
Qed.

Lemma spool_roundtrip_witness :
  exists cu c', cursor_at sample_aead sample_handle 1 (fresh_counters false) = Ok cu /\
    read_rows sample_aead 2 cu (fresh_counters false) = (c', Ok [mkRow (u "t") [VInt 5] [VText (u "x")]]) /\
    memory_used c' = 0.
Proof.
  refine (spool_roundtrip sample_aead sample_layout default_budget [] [1; 2; 3; 4] true true 7 sample_writer
    sample_pushed.1.1 (fresh_counters false) sample_pushed.1.2 sample_batch sample_handle 1 (fresh_counters false)
    _ default_budget_wf sample_batch_wf _ _ _ _ _ _).
  - vm_compute. reflexivity.
  - vm_compute. reflexivity.
  - vm_compute. reflexivity.
  - vm_compute. discriminate.
  - cbn. lia.
  - split; [reflexivity|]. vm_compute. split; discriminate.
Defined.

Lemma nonces_distinct_witness : nonce [1; 2; 3; 4] 7 <> index_nonce [1; 2; 3; 4] 7.
Proof.
  refine (proj2 (proj2 (nonces_distinct [1; 2; 3; 4] 7 7 eq_refl _ _ _))).
  - repeat constructor; discriminate.
  - split; discriminate.
  - split; discriminate.
Defined.

Lemma push_batch_accounts_witness :
  used (drop_inner (w_inner sample_pushed.1.1) sample_pushed.1.2) = 0 /\ 0 < used sample_pushed.1.2.
Proof.
  split; [|vm_compute; reflexivity].
  refine (proj2 (proj2 (proj2 (push_batch_accounts sample_aead sample_layout sample_writer sample_batch
    (fresh_counters false) sample_pushed.1.1 sample_pushed.1.2 sample_pushed.2 default_budget_wf _ _ _)))).
  - vm_compute. repeat split; discriminate.
  - vm_compute. repeat split; discriminate.
  - vm_compute. reflexivity.
Defined.

End Spool.
