(* ===== verification/SpoolSort.v ===== *)
(** The external merge sort of the snapshots ([compare], [merge] and
    [external_sort] of src-tauri/src/db/data_tasks/spool.rs).

    The sort sees a finished spool through its cursors only, so here a spool
    is the list of rows its cursor reads.  [SpoolStore] is the interface: what
    a writer stores is read back, normalised, and every row it accepted
    encodes; [Spool] implements it. *)
From S2P Require Import Prelude RustText Values Spool.
Import Values Spool.

Module SpoolSort.

(** ** The interface *)

Abbreviation Rows := (list CanonicalRow) (only parsing).

(** [write rows]: create a writer, push the rows and finish; the result is
    what cursors over the new spool read. *)
Class SpoolStore (write : Rows -> result Rows str) : Prop := {
  write_reads rows s : Forall wf_row rows -> write rows = Ok s -> s = map norm_row rows;
  write_encodes rows s : Forall wf_row rows -> write rows = Ok s ->
    Forall (fun r => exists b, canonical_bytes r = Ok b /\ zlen b <= usize_max) rows;
}.

(** ** The order *)

(** [.expect("validated row")]: rows read from a spool always encode. *)
Definition expect_bytes (r : result bytes str) : bytes := match r with Ok b => b | Err _ => [] end.

Definition compare : CanonicalRow -> CanonicalRow -> comparison :=
  cmp_then (cmp_on (fun r => expect_bytes (key_bytes r)) (lex Z.compare))
           (cmp_on (fun r => expect_bytes (canonical_bytes r)) (lex Z.compare)).
#[global] Typeclasses Opaque compare.

Definition is_le (c : comparison) : bool := match c with Gt => false | _ => true end.

(** The merge loop over two cursors. *)
Fixpoint merge_rows (a : Rows) : Rows -> Rows :=
  fix go (b : Rows) : Rows :=
    match a, b with
    | [], _ => b
    | _, [] => a
    | x :: a', y :: b' => if is_le (compare x y) then x :: merge_rows a' b else y :: go b'
    end.

(** [format!("{:x}", Sha256)] over the length-prefixed encodings. *)
Definition digest_input (rows : Rows) : bytes :=
  concat (map (fun r => let b := expect_bytes (canonical_bytes r) in be_bytes 8 (zlen b) ++ b) rows).

Record SortedSpool : Type := mkSorted { spool : Rows; digest : str }.

Section Sort.
Context (write : Rows -> result Rows str).
Context (layout : Layout) (b : ResourceBudget).
(** The hex digest of the sha2 crate. *)
Context (sha256_hex : bytes -> str).

Definition merge (x y : Rows) : result Rows str := write (merge_rows x y).

Definition run_limit : Z := Z.min (sort_run_bytes b) (memory_bytes b / 2).
Definition row_cost (r : CanonicalRow) : Z := sat_add (row_memory layout r) (size_of_row layout).

(** The inner loop: one run and what the cursor (with [pending]) still has. *)
Fixpoint take_run (first : bool) (size : Z) (rows : Rows) : Rows * Rows :=
  match rows with
  | [] => ([], [])
  | row :: rest =>
    let n := row_cost row in
    if negb first && (run_limit <? wrap64 (size + n)) then ([], rows)
    else let '(run, rest) := take_run false (wrap64 (size + n)) rest in (row :: run, rest)
  end.

(** The [levels] loop: a binary counter of runs. *)
Fixpoint insert_run (levels : list (option Rows)) (run : Rows) : result (list (option Rows)) str :=
  match levels with
  | [] => Ok [Some run]
  | None :: levels => Ok (Some run :: levels)
  | Some other :: levels =>
    let? run := merge other run in
    let? levels := insert_run levels run in
    Ok (None :: levels)
  end.

(** The outer loop.  A run is not empty, so the number of rows is enough fuel. *)
Fixpoint sort_runs (fuel : nat) (rows : Rows) (levels : list (option Rows)) : result (list (option Rows)) str :=
  match take_run true 0 rows with
  | ([], _) => Ok levels
  | (run, rest) =>
    match fuel with
    | O => Err (u "out of fuel")
    | S fuel =>
      let? run := write (sort_by compare run) in
      let? levels := insert_run levels run in
      sort_runs fuel rest levels
    end
  end.

Fixpoint merge_levels (merged : option Rows) (levels : list (option Rows)) : result (option Rows) str :=
  match levels with
  | [] => Ok merged
  | None :: levels => merge_levels merged levels
  | Some run :: levels =>
    let? merged := match merged with Some other => merge other run | None => Ok run end in
    merge_levels (Some merged) levels
  end.

Definition external_sort (c : Counters) (s : Rows) : result SortedSpool str :=
  check? reserve_memory b (memory_bytes b / 2) c in
  let? levels := sort_runs (length s) s [] in
  let? merged := merge_levels None levels in
  let? spool := match merged with Some s => Ok s | None => write [] end in
  Ok (mkSorted spool (sha256_hex (digest_input spool))).
End Sort.

(** ** Specification *)

(** A row as cursors return it. *)
Record stored (r : CanonicalRow) : Prop := {
  st_wf : wf_row r;
  st_norm : norm_row r = r;
  st_bytes : exists b, canonical_bytes r = Ok b /\ zlen b <= usize_max;
}.

Definition sorted (rows : Rows) : Prop := StronglySorted (cmp_le compare) rows.

(** ** Proofs *)

#[export] Instance compare_total : TotalCmp compare.
Proof. unfold compare. apply _. Qed.

(** On stored rows the order is strict: equal rows are the same row. *)
Lemma compare_eq x y : stored x -> stored y -> compare x y = Eq -> x = y.
Proof.
  intros [Wx Nx (bx & Cx & Lx)] [Wy Ny (by_ & Cy & Ly)] E. unfold compare, cmp_then, cmp_on in E.
  destruct (lex Z.compare (expect_bytes (key_bytes x)) _); try done.
  apply cmp_eq_iff in E. rewrite Cx, Cy in E. cbn in E. subst by_.
  pose proof (canonical_decode x bx Wx Cx Lx) as Dx. pose proof (canonical_decode y bx Wy Cy Ly) as Dy.
  rewrite Dx in Dy. apply Ok_inj in Dy. congruence.
Qed.

Lemma sorted_unique l k : Forall stored l -> sorted l -> sorted k -> l ≡ₚ k -> l = k.
Proof.
  intros F Hl. revert k. induction Hl as [|x l Hl IH Hx]; intros k Hk P.
  { by apply Permutation_nil in P. }
  destruct Hk as [|y k Hk Hy]; [by apply Permutation_sym, Permutation_nil in P|].
  assert (Fk : Forall stored (y :: k)) by by rewrite <- P.
  apply list.Forall_cons in F as [Fx F]. apply list.Forall_cons in Fk as [Fy Fk].
  assert (x = y) as ->.
  { assert (x ∈ y :: k) as Hxk by (rewrite <- P; left).
    assert (y ∈ x :: l) as Hyl by (rewrite P; left).
    apply elem_of_cons in Hxk as [->|Hxk]; [done|].
    apply elem_of_cons in Hyl as [->|Hyl]; [done|].
    rewrite list.Forall_forall in Hx, Hy. specialize (Hx _ Hyl). specialize (Hy _ Hxk).
    apply compare_eq; try done. unfold cmp_le in *. rewrite (cmp_antisym (cmp:=compare) x y) in Hy.
    destruct (compare x y); done. }
  f_equal. apply IH; try done. by apply Permutation_cons_inv in P.
Qed.

Lemma merge_rows_perm a b : merge_rows a b ≡ₚ a ++ b.
Proof.
  revert b. induction a as [|x a IHa]; intros b; [by destruct b|].
  induction b as [|y b IHb]; [by rewrite app_nil_r|].
  cbn [merge_rows]. destruct (is_le (compare x y)).
  - by rewrite IHa.
  - cbn [merge_rows] in IHb. rewrite IHb. by rewrite Permutation_middle.
Qed.

Lemma merge_rows_sorted a b : sorted a -> sorted b -> sorted (merge_rows a b).
Proof.
  intros Ha. revert b. induction Ha as [|x a Ha IHa Hx]; intros b Hb; [by destruct b|].
  induction Hb as [|y b Hb IHb Hy]; [by constructor|].
  cbn [merge_rows]. cbn [merge_rows] in IHb.
  assert (T : forall u v w, cmp_le compare u v -> cmp_le compare v w -> cmp_le compare u w)
    by (intros u v w; apply cmp_trans_le).
  rewrite list.Forall_forall in Hx, Hy.
  destruct (is_le (compare x y)) eqn:E.
  - assert (L : cmp_le compare x y) by (unfold cmp_le; by destruct (compare x y)).
    constructor; [apply IHa; constructor; [done|by apply list.Forall_forall]|].
    apply list.Forall_forall. intros z. rewrite merge_rows_perm, elem_of_app, elem_of_cons.
    intros [Hz|[->|Hz]]; eauto.
  - assert (L : cmp_le compare y x).
    { apply cmp_gt_le; [apply _|]. by destruct (compare x y). }
    constructor; [exact IHb|].
    apply list.Forall_forall. intros z. change (merge_rows (x :: a) b) with
      ((fix go (b : Rows) := match b with [] => x :: a | y :: b' =>
         if is_le (compare x y) then x :: merge_rows a b else y :: go b' end) b).
    pose proof (merge_rows_perm (x :: a) b) as P. cbn [merge_rows] in P. rewrite P.
    rewrite elem_of_app, elem_of_cons. intros [[->|Hz]|Hz]; eauto.
Qed.

Lemma norm_stored rows : Forall stored rows -> map norm_row rows = rows.
Proof. induction 1 as [|r rows H _ IH]; [done|]. cbn. rewrite IH. f_equal. apply H. Qed.
Lemma stored_wf rows : Forall stored rows -> Forall wf_row rows.
Proof. intros F. eapply list.Forall_impl; [exact F|]. apply st_wf. Qed.

Definition run_ok (r : option Rows) : Prop :=
  match r with Some run => sorted run /\ Forall stored run | None => True end.
Definition contents (levels : list (option Rows)) : Rows :=
  concat (map (fun r => match r with Some run => run | None => [] end) levels).

Section SortProofs.
Context (write : Rows -> result Rows str) `{!SpoolStore write}.
Context (layout : Layout) (b : ResourceBudget) (sha256_hex : bytes -> str).

(** What a writer returns is stored. *)
Lemma write_all_stored rows s : Forall wf_row rows -> write rows = Ok s -> s = map norm_row rows /\ Forall stored s.
Proof.
  intros F H. pose proof (write_encodes rows s F H) as E. rewrite (write_reads rows s F H). split; [done|].
  apply list.Forall_fmap. rewrite list.Forall_forall in *. intros r Hr. destruct (E r Hr) as (b' & C & L).
  destruct (norm_row_canonical r b' C) as [C' N]. split; [by apply norm_row_wf, F|exact N|by exists b'].
Qed.
Lemma write_stored rows s : Forall stored rows -> write rows = Ok s -> s = rows.
Proof. intros F H. rewrite (write_reads _ _ (stored_wf _ F) H). by apply norm_stored. Qed.

Lemma merge_ok x y m : run_ok (Some x) -> run_ok (Some y) -> merge write x y = Ok m ->
  run_ok (Some m) /\ m ≡ₚ x ++ y.
Proof.
  intros [Sx Fx] [Sy Fy] H. unfold merge in H.
  assert (F : Forall stored (merge_rows x y)) by (rewrite merge_rows_perm; by apply Forall_app).
  apply write_stored in H as ->; [|done]. split; [|apply merge_rows_perm].
  split; [by apply merge_rows_sorted|done].
Qed.

Lemma insert_run_ok levels run levels' :
  Forall run_ok levels -> run_ok (Some run) -> insert_run write levels run = Ok levels' ->
  Forall run_ok levels' /\ contents levels' ≡ₚ run ++ contents levels.
Proof.
  revert run levels'. induction levels as [|[other|] levels IH]; intros run levels' F R H; cbn in H.
  - apply Ok_inj in H as <-. split; [by apply list.Forall_cons|done].
  - apply list.Forall_cons in F as [Fo F]. inv_ok. apply merge_ok in Hx as [Rx Px]; [|done|done].
    apply IH in Hx0 as [F0 P0]; [|done|done]. split; [by constructor|].
    unfold contents in *. cbn. rewrite P0, Px. rewrite <- app_assoc. apply Permutation_app_swap_app.
  - apply list.Forall_cons in F as [_ F]. apply Ok_inj in H as <-. split; [by constructor|]. done.
Qed.

Lemma take_run_spec first size rows run rest :
  take_run layout b first size rows = (run, rest) ->
  rows = run ++ rest /\ (first = true -> rows <> [] -> run <> []).
Proof.
  revert first size run rest. induction rows as [|row rows IH]; intros first size run rest H; cbn [take_run] in H.
  - injection H as <- <-. done.
  - destruct (negb first && _) eqn:E.
    + injection H as <- <-. split; [done|]. intros ->. done.
    + destruct (take_run layout b false _ rows) as [r1 r2] eqn:T. injection H as <- <-.
      destruct (IH _ _ _ _ T) as [-> _]. done.
Qed.

Lemma sort_runs_ok fuel rows levels levels' :
  Forall stored rows -> Forall run_ok levels -> (length rows <= fuel)%nat ->
  sort_runs write layout b fuel rows levels = Ok levels' ->
  Forall run_ok levels' /\ contents levels' ≡ₚ rows ++ contents levels.
Proof.
  revert rows levels. induction fuel as [|fuel IH]; intros rows levels F R L H; cbn [sort_runs] in H;
    destruct (take_run layout b true 0 rows) as [run rest] eqn:T;
    destruct (take_run_spec _ _ _ _ _ T) as [-> N].
  - assert (run = []) as -> by (rewrite length_app in L; destruct run; [done|cbn in L; lia]).
    apply Ok_inj in H as <-. destruct rest; [done|]. by destruct N.
  - destruct run as [|x run].
    { apply Ok_inj in H as <-. destruct rest; [done|]. by destruct N. }
    inv_ok. apply Forall_app in F as [Fr F].
    assert (Fs : Forall stored (sort_by compare (x :: run))) by by rewrite sort_by_perm.
    apply write_stored in Hx as ->; [|done].
    apply insert_run_ok in Hx0 as [R1 P1]; [|done|split; [apply sort_by_sorted; apply _|done]].
    apply IH in H as [R2 P2]; [|done|done|rewrite length_app in L; cbn in L; lia].
    split; [done|]. rewrite P2, P1, sort_by_perm. rewrite <- (app_assoc (x :: run)).
    apply Permutation_app_swap_app.
Qed.

(** The sort cannot run out of fuel. *)
Lemma sort_runs_fuel fuel rows levels :
  (length rows <= fuel)%nat -> (forall r, exists s, write r = Ok s) ->
  exists levels', sort_runs write layout b fuel rows levels = Ok levels'.
Proof.
  intros L Wt. assert (I : forall levels run, exists l, insert_run write levels run = Ok l).
  { induction levels0 as [|[o|] ls IHl]; intros run; cbn; eauto.
    unfold merge. destruct (Wt (merge_rows o run)) as [m ->]. cbn.
    destruct (IHl m) as [l ->]. cbn. eauto. }
  revert rows levels L. induction fuel as [|fuel IH]; intros rows levels L; cbn [sort_runs];
    destruct (take_run layout b true 0 rows) as [run rest] eqn:T;
    destruct (take_run_spec _ _ _ _ _ T) as [-> N]; destruct run as [|x run]; eauto.
  - rewrite length_app in L. cbn in L. lia.
  - destruct (Wt (sort_by compare (x :: run))) as [w ->]. cbn [rbind].
    destruct (I levels w) as [l ->]. cbn [rbind]. apply IH.
    rewrite length_app in L. cbn in L. lia.
Qed.

Lemma merge_levels_ok merged levels out :
  Forall run_ok levels -> run_ok merged -> merge_levels write merged levels = Ok out ->
  run_ok out /\ contents [out] ≡ₚ contents (merged :: levels).
Proof.
  revert merged. induction levels as [|[run|] levels IH]; intros merged F R H; cbn [merge_levels] in H.
  - apply Ok_inj in H as <-. done.
  - apply list.Forall_cons in F as [Fr F]. inv_ok.
    assert (K : run_ok (Some x) /\ x ≡ₚ match merged with Some o => o | None => [] end ++ run).
    { destruct merged as [o|]; [by apply merge_ok in Hx|]. by apply Ok_inj in Hx as <-. }
    destruct K as [K P]. apply IH in H as [Ho Po]; [|done|done]. split; [done|].
    rewrite Po. unfold contents. cbn. rewrite P. destruct merged; cbn; by rewrite <- ?app_assoc.
  - apply list.Forall_cons in F as [_ F]. apply IH in H as [Ho Po]; [|done|done]. split; [done|].
    rewrite Po. unfold contents. cbn. by destruct merged.
Qed.

Lemma external_sort_ok c s out : Forall stored s -> external_sort write layout b sha256_hex c s = Ok out ->
  sorted (spool out) /\ spool out ≡ₚ s /\ Forall stored (spool out) /\
  digest out = sha256_hex (digest_input (spool out)).
Proof.
  intros F H. unfold external_sort in H. inv_ok. cbn [spool digest].
  apply sort_runs_ok in Hx0 as [R P]; [|done|constructor|done]. unfold contents in P at 2. cbn in P.
  rewrite app_nil_r in P. apply merge_levels_ok in Hx1 as [Ro Po]; [|done|done].
  assert (K : run_ok (Some x2) /\ x2 ≡ₚ s).
  { unfold contents in P, Po. cbn in P, Po. rewrite P in Po. destruct x1 as [m|].
    - apply Ok_inj in Hx2 as <-. rewrite app_nil_r in Po. done.
    - apply Permutation_nil in Po. subst s. apply write_stored in Hx2 as ->; [|done].
      split; [split; [constructor|done]|done]. }
  destruct K as [[S Fo] Pm]. done.
Qed.

Lemma external_sort_unique c c' s s' out out' : Forall stored s -> s ≡ₚ s' ->
  external_sort write layout b sha256_hex c s = Ok out ->
  external_sort write layout b sha256_hex c' s' = Ok out' -> out = out'.
Proof.
  intros F P H H'. assert (F' : Forall stored s') by by rewrite <- P.
  apply external_sort_ok in H as (S1 & P1 & F1 & D1); [|done].
  apply external_sort_ok in H' as (S2 & P2 & F2 & D2); [|done].
  assert (E : spool out = spool out') by (apply sorted_unique; try done; by rewrite P1, P2).
  destruct out, out'. cbn in *. congruence.
Qed.


End SortProofs.

(** ** The implementation of the interface *)

(** Writing and reading back through [Spool]: a fresh writer, all pushes
    without faults, then a cursor over the whole spool. *)
Definition spool_write (a : Aead) (layout : Layout) (b : ResourceBudget) (key prefix : bytes) (now : Z)
  (c : Counters) (rows : Rows) : result Rows str :=
  let? w := new_writer b true key prefix c in
  let '(w, c, r) := push_batch a layout w (map (fun row => (no_fault, row)) rows) c in
  check? r in
  let? h := finish true now w c in
  let? cu := cursor_at a h 0 c in
  (read_rows a (S (length rows)) cu c).2.

Lemma sealed_encodes a i k rows file : sealed_from a i k rows file -> max_row_bytes (i_budget i) <= usize_max ->
  Forall (fun r => exists b, canonical_bytes r = Ok b /\ zlen b <= usize_max) rows.
Proof. intros S M. induction S as [|k row plain block rows rest C L _ _ IH]; constructor; [exists plain; split; [done|lia]|done]. Qed.
Lemma max_row_usize b : wf_budget b -> max_row_bytes b <= usize_max.
Proof. intros []. unfold usize_max, u64_max. lia. Qed.

(** The encrypted spool implements the interface, for any key and counters
    that leave room for a reader. *)
#[export] Instance spool_store a `{!AeadLaws a} layout b key prefix now c :
  wf_budget b -> (forall rows w c', push_batch a layout
      (mkWriter [] [] (mkInner key prefix b 0 0 0 0) false) rows c = (w, c', Ok tt) ->
      can_read b c' /\ zlen (w_file w) <= u64_max) ->
  SpoolStore (spool_write a layout b key prefix now c).
Proof.
  intros Wb Room.
  assert (K : forall rows s, Forall wf_row rows -> spool_write a layout b key prefix now c rows = Ok s ->
    s = map norm_row rows /\ Forall (fun r => exists b, canonical_bytes r = Ok b /\ zlen b <= usize_max) rows).
  2: { split; intros rows s F H; by apply (K rows s). }
  intros rows s F H. unfold spool_write in H. apply rbind_ok_inv in H as (w0 & N & H).
  destruct (push_batch _ _ _ _ _) as [[w c1] r] eqn:P. apply rbind_ok_inv in H as ([] & -> & H).
  apply rbind_ok_inv in H as (h & Fin & H). apply rbind_ok_inv in H as (cu & Cu & H).
  assert (W0 : w0 = mkWriter [] [] (mkInner key prefix b 0 0 0 0) false).
  { unfold new_writer in N. inv_ok. case_if_in N; [done|]. cbn [negb] in N. by apply Ok_inj in N. }
  subst w0. destruct (Room _ _ _ P) as [Cr Lf].
  assert (W : written a (w_inner w) (w_file w) (w_index_file w) rows /\ i_budget (w_inner w) = b /\ w_failed w = false).
  { apply (push_batch_ok a) with (done_rows := []) in P as (W & (_ & _ & B) & Fl); [|split; cbn; try done|done].
    - rewrite map_map in W. cbn in W. rewrite map_id in W. done.
    - constructor.
    - intros m Hm. cbn in Hm. lia. }
  destruct W as ([Ws Wd Wr Wl Wi] & B & Fl).
  unfold finish in Fin. rewrite Fl in Fin. inv_ok. case_if_in Fin; [done|]. apply Ok_inj in Fin as <-.
  set (h := mkHandle _ _ _) in *.
  assert (Sm : same_spool (w_inner w) (h_inner h)) by (by unfold same_spool, h).
  assert (Wh : written a (h_inner h) (h_file h) (h_index_file h) rows).
  { split; cbn; try done; [by eapply sealed_same|].
    intros m Hm. destruct (Wi m Hm) as (pre & rest & o & X1 & X2 & X3 & X4).
    exists pre, rest, o. split_and!; try done. by eapply sealed_same. }
  assert (Eb : i_budget (h_inner h) = b) by done. rewrite <- Eb in Wb, Cr.
  destruct (cursor_at_sealed a h rows 0 c1 Wh) as (file & Ecu & Sd); [lia|done|done|].
  change (Z.of_nat 0) with 0 in *. rewrite Ecu in Cu. apply Ok_inj in Cu as <-.
  destruct (read_rows_sealed a h Wb rows 0 file c1 (S (length rows))) as (c2 & R & _);
    [lia|by rewrite (wr_rows _ _ _ _ _ Wh)|done|done|exact Sd|lia|].
  rewrite R in H. cbn [snd] in H. apply Ok_inj in H as <-. split; [done|].
  eapply sealed_encodes; [exact (wr_sealed _ _ _ _ _ Wh)|]. by apply max_row_usize.
Qed.

(** A store without a budget, and a sort of three rows in runs of one. *)
Definition encodes (r : CanonicalRow) : bool := match canonical_bytes r with Ok b => zlen b <=? usize_max | Err _ => false end.
Definition plain_write (rows : Rows) : result Rows str :=
  if forallb encodes rows then Ok (map norm_row rows) else Err (u "io").
#[export] Instance plain_store : SpoolStore plain_write.
Proof.
  split; intros rows s _; unfold plain_write; (destruct (forallb encodes rows) eqn:E; [|discriminate]); intros [= <-]; [done|].
  rewrite forallb_true_iff in E. apply list.Forall_forall. intros r Hr. specialize (E r Hr). unfold encodes in E.
  destruct (canonical_bytes r) as [x|]; [|done]. exists x. split; [done|by to_prop].
Qed.

Definition small_budget : ResourceBudget := mkBudget 1024 4096 1 4096.
Definition int_row (n : Z) : CanonicalRow := mkRow (u "t") [VInt n] [VInt n].
Definition sample_rows : Rows := [int_row 3; int_row 1; int_row 2].

Lemma sample_rows_stored : Forall stored sample_rows.
Proof.
  assert (X : forall n, n ∈ [3; 1; 2] -> stored (int_row n)).
  { intros n Hn. assert (-9 <= n <= 9) as Rn by (rewrite !elem_of_cons in Hn; destruct Hn as [->|[->|[->|[]%elem_of_nil]]]; lia).
    split; [|done|].
    - split; [apply (bool_decide_unpack (Forall _ _)); vm_compute; exact I|].
      split; (constructor; [cbn; unfold i64_range; lia|constructor]).
    - rewrite !elem_of_cons in Hn. destruct Hn as [->|[->|[->|[]%elem_of_nil]]];
        (eexists; split; [vm_compute; reflexivity|vm_compute; discriminate]). }
  unfold sample_rows. do 3 (apply list.Forall_cons; split; [apply X; set_solver|]). constructor.
Qed.

Definition sample_sorted : result SortedSpool str :=
  external_sort plain_write sample_layout small_budget (fun _ => u "d") (fresh_counters false) sample_rows.


End SpoolSort.
