(* ===== verification/Plan.v ===== *)
(** The plan of a data task (src-tauri/src/db/data_tasks/plan.rs): the merge
    of the sorted snapshots into operations, counts and the expected target,
    the risks and fingerprint, and the paging of the differences.

    Spools are the rows their cursors read ([SpoolSort]); writing one is an
    instance of [SpoolStore].  serde_json, sha2 and uuid are parameters. *)
From S2P Require Import Prelude RustText DataTypes MetaTypes Values Spool SpoolSort TypeMapping Metadata.
Import DataTypes MetaTypes Values Spool SpoolSort TypeMapping Metadata.

Module Plan.

(** ** Operations *)

Record Operation : Type := mkOperation {
  op_kind : DataDiffOperation; op_old : option CanonicalRow; op_new : option CanonicalRow }.

Definition operation_name (kind : DataDiffOperation) : str :=
  match kind with
  | Insert => u "insert" | Update => u "update" | Delete => u "delete" | Retain => u "retain"
  end.

Definition parse_operation (s : str) : option DataDiffOperation :=
  if str_eqb s (u "insert") then Some Insert
  else if str_eqb s (u "update") then Some Update
  else if str_eqb s (u "delete") then Some Delete
  else if str_eqb s (u "retain") then Some Retain
  else None.

Definition from_row (row : CanonicalRow) : result Operation str :=
  let? kind :=
    match key row with
    | VText s :: _ => ok_or (parse_operation s) (u "invalid_mapping: 差异操作损坏")
    | _ => Err (u "invalid_mapping: 差异记录损坏")
    end in
  match key row !! 1%nat with
  | Some (VUInt _) =>
    let payload := mkRow (table row) (drop 2 (key row)) (values row) in
    Ok match kind with
       | Insert => mkOperation kind None (Some payload)
       | Update => mkOperation kind (Some (mkRow (table payload) (key payload) [])) (Some payload)
       | _ => mkOperation kind (Some payload) None
       end
  | _ => Err (u "invalid_mapping: 差异定位损坏")
  end.

(** [operation]: the record pushed for an operation. *)
Definition operation_row (kind : DataDiffOperation) (row : CanonicalRow) (target_index : Z) : CanonicalRow :=
  mkRow (table row) (VText (operation_name kind) :: VUInt target_index :: key row) (values row).

(** ** Counts *)

Record Counts : Type := mkCounts {
  n_source : Z; n_target : Z; n_insert : Z; n_update : Z; n_delete : Z; n_unchanged : Z;
  n_retained : Z; n_expected : Z }.
Definition zero_counts : Counts := mkCounts 0 0 0 0 0 0 0 0.
Definition add_counts (c d : Counts) : Counts :=
  mkCounts (n_source c + n_source d) (n_target c + n_target d) (n_insert c + n_insert d)
    (n_update c + n_update d) (n_delete c + n_delete d) (n_unchanged c + n_unchanged d)
    (n_retained c + n_retained d) (n_expected c + n_expected d).

Definition ipc (c : Counts) : DataTaskCounts :=
  DataTypes.mkCounts (show_Z (n_source c)) (show_Z (n_target c)) (show_Z (n_insert c)) (show_Z (n_update c))
    (show_Z (n_delete c)) (show_Z (n_unchanged c)) (show_Z (n_retained c))
    (show_Z (n_insert c + n_update c + n_delete c)) (show_Z (n_expected c)).

(** The BTreeMap of counts: sorted by table. *)
Abbreviation CountsMap := (list (str * Counts)) (only parsing).
Definition panic_unwrap : str := u "called `Option::unwrap()` on a `None` value".

(** [counts[&table]]; only asked for counted tables. *)
Definition counts_of (m : CountsMap) (k : str) : Counts :=
  match find_first (fun '(k', _) => str_eqb k' k) m with Some (_, c) => c | None => zero_counts end.

(** [counts.get_mut(&table).unwrap()] and the increments. *)
Fixpoint bump (t : str) (d : Counts) (m : CountsMap) : result CountsMap str :=
  match m with
  | [] => Err panic_unwrap
  | (k, c) :: m =>
    if str_eqb k t then Ok ((k, add_counts c d) :: m)
    else let? m := bump t d m in Ok ((k, c) :: m)
  end.

Definition d_insert : Counts := mkCounts 1 0 1 0 0 0 0 1.
Definition d_update : Counts := mkCounts 1 1 0 1 0 0 0 1.
Definition d_unchanged : Counts := mkCounts 1 1 0 0 0 1 0 1.
Definition d_delete : Counts := mkCounts 0 1 0 0 1 0 0 0.
Definition d_retain : Counts := mkCounts 0 1 0 0 0 0 1 1.

(** ** The checks of the snapshots *)

Definition unsafe_key (v : DataValue) : bool :=
  match v with VFloat _ | VJson _ | VTemporal _ _ => true | _ => false end.

(** The loop over the key indices. *)
Fixpoint check_key (row_values : list DataValue) (indices : list nat) (key : list DataValue) : result unit str :=
  match indices, key with
  | i :: indices, v :: key =>
    let? w := ok_or (row_values !! i) panic_index in
    let? x := value_canonical_bytes w in
    let? y := value_canonical_bytes v in
    if negb (list_eqb x y) then Err (u "invalid_mapping: 快照定位键不匹配")
    else check_key row_values indices key
  | _, _ => Ok tt
  end.

Fixpoint check_rows (rows : Rows) (mapping : ValidatedMapping) (unique : bool) (previous : option bytes) :
  result unit str :=
  match rows with
  | [] => Ok tt
  | row :: rows =>
    let? t := ok_or (find_first (fun t => str_eqb (vt_target_table t) (table row)) (vm_tables mapping))
                (u "invalid_mapping: 快照包含未选择表") in
    if negb (zlen (values row) =? zlen (vt_target_columns t)) || negb (zlen (key row) =? zlen (vt_key_indices t))
    then Err (u "invalid_mapping: 快照投影与映射不一致")
    else
      check? check_key (values row) (vt_key_indices t) (key row) in
      if unique
      then
        if is_empty (key row) || existsb is_null (key row) then Err (u "invalid_mapping: 同步定位键为空")
        else if existsb unsafe_key (key row)
        then Err (u "unsupported_capability: 无法证明浮点或 JSON 定位键与数据库唯一性语义一致")
        else
          let? k := key_bytes row in
          if bool_decide (previous = Some k) then Err (u "invalid_mapping: 同步定位键重复")
          else check_rows rows mapping unique (Some k)
      else check_rows rows mapping unique previous
  end.

(** ** The merge

    What a step appends: operation rows, expected rows, and the counts. *)
Record Diff : Type := mkDiff { df_operations : Rows; df_expected : Rows; df_counts : CountsMap }.

Definition emit (t : str) (d : Counts) (ops expected : Rows) (counts : CountsMap)
  (k : CountsMap -> result Diff str) : result Diff str :=
  let? counts := bump t d counts in
  let? rest := k counts in
  Ok (mkDiff (ops ++ df_operations rest) (expected ++ df_expected rest) (df_counts rest)).

(** The loop of a row sync over the two cursors; [ti] is the index of [t] in
    the target.  Each round consumes a row. *)
Fixpoint sync_loop (fuel : nat) (mirror : bool) (s t : Rows) (ti : Z) (counts : CountsMap) : result Diff str :=
  match fuel with
  | O => match s, t with [], [] => Ok (mkDiff [] [] counts) | _, _ => Err out_of_fuel end
  | S fuel =>
    let insert_step r s' :=
      emit (table r) d_insert [operation_row Insert r u64_max] [r] counts (sync_loop fuel mirror s' t ti) in
    let target_step r t' :=
      if mirror
      then emit (table r) d_delete [operation_row Delete r ti] [] counts (sync_loop fuel mirror s t' (ti + 1))
      else emit (table r) d_retain [operation_row Retain r ti] [r] counts (sync_loop fuel mirror s t' (ti + 1)) in
    match s, t with
    | [], [] => Ok (mkDiff [] [] counts)
    | r :: s', [] => insert_step r s'
    | [], r :: t' => target_step r t'
    | r :: s', old :: t' =>
      let? ks := key_bytes r in
      let? kt := key_bytes old in
      match lex Z.compare ks kt with
      | Lt => insert_step r s'
      | Eq =>
        let? x := canonical_bytes r in
        let? y := canonical_bytes old in
        if list_eqb x y
        then emit (table r) d_unchanged [] [r] counts (sync_loop fuel mirror s' t' (ti + 1))
        else emit (table r) d_update [operation_row Update r ti] [r] counts (sync_loop fuel mirror s' t' (ti + 1))
      | Gt => target_step old t'
      end
    end
  end.

(** The two loops of a transfer. *)
Fixpoint transfer_target (replace : bool) (t : Rows) (ti : Z) (counts : CountsMap) : result Diff str :=
  match t with
  | [] => Ok (mkDiff [] [] counts)
  | r :: t =>
    if replace
    then emit (table r) d_delete [operation_row Delete r ti] [] counts (transfer_target replace t (ti + 1))
    else emit (table r) d_retain [] [r] counts (transfer_target replace t (ti + 1))
  end.
Fixpoint transfer_source (replace : bool) (s t : Rows) (counts : CountsMap) : result Diff str :=
  match s with
  | [] => transfer_target replace t 0 counts
  | r :: s => emit (table r) d_insert [operation_row Insert r u64_max] [r] counts (transfer_source replace s t)
  end.

Definition diff (kind : DataTaskKind) (mode : DataTaskMode) (s t : Rows) (counts : CountsMap) : result Diff str :=
  if is_kind kind RowSync
  then sync_loop (length s + length t) (is_mode mode Mirror) s t 0 counts
  else transfer_source (is_mode mode Replace) s t counts.

(** ** The plan *)

Record StoredDataPlan : Type := mkPlan {
  sp_request : DataTaskRequest;
  sp_mapping : ValidatedMapping;
  sp_preview : DataTaskPreview;
  sp_source : SortedSpool;
  sp_target : SortedSpool;
  sp_target_full : SortedSpool;
  sp_operations : Rows;
  sp_expected : SortedSpool;
  sp_source_metadata : DataMetadataSnapshot;
  sp_target_metadata : DataMetadataSnapshot;
}.

(** A finished spool: what its cursors read, and when it was captured (kept by
    the external sort). *)
Record Captured : Type := mkCaptured { ss_rows : Rows; ss_captured_at : Z }.

Definition risk (id message : str) (required : bool) : DataTaskRisk := mkRisk id message required.

Definition empty_sources (counts : CountsMap) : list DataTaskRisk :=
  map (fun '(name, c) =>
         risk (u "empty_source:" ++ name)
              (u "源表为空，将清空目标表 " ++ name ++ u " 的 " ++ show_Z (n_target c) ++ u " 行") true)
      (filter (fun '(_, c) => ((n_source c =? 0) && (0 <? n_target c)) = true) counts).

Definition risks (mode : DataTaskMode) (mapping : ValidatedMapping) (source target : DataMetadataSnapshot)
  (counts : CountsMap) : list DataTaskRisk :=
  (if is_db (md_database_type source) ClickHouse
   then [risk (u "source_without_transaction_snapshot")
              (u "ClickHouse 源仅提供单次集合读取语义，不保证跨表事务一致快照；目标写入仍由完整事务保护") true]
   else []) ++
  (if is_mode mode Mirror || is_mode mode Replace
   then risk (u "destructive_write") (u "此模式会删除预览范围内的目标数据") true :: empty_sources counts
   else []) ++
  (if existsb (fun t => existsb (fun m => str_eqb (vt_target_table m) (tb_name t)) (vm_tables mapping)
                        && existsb dc_identity (tb_columns t)) (md_tables target)
   then [risk (u "generator_gaps") (u "数据库自增或序列计数可能在回滚后留下间隙，但不会回退") false]
   else []).

(** [collect] into a BTreeMap: the last entry of a key stays, keys sorted. *)
Definition initial_counts (mapping : ValidatedMapping) : CountsMap :=
  map (fun t => (t, zero_counts)) (sort_by str_cmp (remove_dups (map vt_target_table (vm_tables mapping)))).

Definition table_previews (mapping : ValidatedMapping) (counts : CountsMap) : list DataTablePreview :=
  map (fun m => mkTablePreview (vt_target_table m) (vt_source_table m) (vt_target_table m)
                  (ipc (counts_of counts (vt_target_table m)))) (vm_tables mapping).

Definition sql_example : str :=
  u "以下为参数化操作样本，实际标识符由后端校验并按方言引用：INSERT INTO <目标表> (<映射列>) VALUES (?, …)".

(** ** The fingerprint *)

(** [{:?}] of a [Vec<String>]; [escapes] are the characters the standard
    library prints as [\u{…}]. *)
Definition debug_char (escapes : char -> bool) (c : char) : str :=
  if c =? 0 then u "\0"
  else if c =? 9 then u "\t"
  else if c =? 13 then u "\r"
  else if c =? 10 then u "\n"
  else if c =? 34 then [92; 34]
  else if c =? 92 then u "\\"
  else if escapes c then u "\u{" ++ show_hex c ++ u "}"
  else [c].
Definition debug_str (escapes : char -> bool) (s : str) : str :=
  [34] ++ concat (map (debug_char escapes) s) ++ [34].
Definition debug_strs (escapes : char -> bool) (l : list str) : str :=
  u "[" ++ join (u ", ") (map (debug_str escapes) l) ++ u "]".

Definition sort_request (r : DataTaskRequest) : DataTaskRequest :=
  mkRequest (rq_protocol_version r) (rq_kind r) (rq_source r) (rq_target r)
    (map (fun m => mkTableMapping (tm_source_table m) (tm_target_table m)
                     (sort_by (cmp_on cm_target_column str_cmp) (tm_columns m)))
         (sort_by (cmp_on tm_target_table str_cmp) (rq_mappings r)))
    (rq_mode r).

Definition fk_sort_key (escapes : char -> bool) (f : DataForeignKey) : str :=
  fk_parent_table f ++ u ":" ++ debug_strs escapes (fk_from_columns f).
Definition sort_table (escapes : char -> bool) (t : DataTable) : DataTable :=
  mkTable (tb_name t) (tb_create_sql t) (sort_by (cmp_on dc_name str_cmp) (tb_columns t))
    (sort_by (cmp_on (fk_sort_key escapes) str_cmp) (tb_foreign_keys t))
    (tb_enabled_user_triggers t) (tb_physical t).
Definition sort_metadata (escapes : char -> bool) (m : DataMetadataSnapshot) : DataMetadataSnapshot :=
  mkMetadata (md_database_type m)
    (map (sort_table escapes) (sort_by (cmp_on tb_name str_cmp) (md_tables m)))
    (md_read_only m) (md_permissions_verified m) (md_consistent_snapshot m) (md_protected_write m)
    (md_schema_fingerprint m) (md_configuration_fingerprint m).

(** What is serialised and hashed. *)
Definition FingerprintInput : Type :=
  DataTaskRequest * DataMetadataSnapshot * DataMetadataSnapshot * list str * list DataTaskRisk.
Definition fingerprint_input (escapes : char -> bool) (p : StoredDataPlan) : FingerprintInput :=
  (sort_request (sp_request p), sort_metadata escapes (sp_source_metadata p), sort_metadata escapes (sp_target_metadata p),
   [digest (sp_source p); digest (sp_target p); digest (sp_target_full p); digest (sp_expected p)],
   pv_risks (sp_preview p)).

Section Build.
(** Writers on the snapshots' budget and with 128 more bytes per row, sizes,
    budget, and the counters when each of the four sorts starts. *)
Context (write write_operations : Rows -> result Rows str) (layout : Layout) (b : ResourceBudget) (counters : nat -> Counters).
(** sha2 (hex), serde_json, uuid, the clock, and the standard library's escapes. *)
Context (sha256_hex : bytes -> str) (encode_mapping : ValidatedMapping -> option bytes)
  (encode_fingerprint : FingerprintInput -> option bytes) (plan_id : str) (now : Z) (escapes : char -> bool).

Definition fingerprint (p : StoredDataPlan) : result str str :=
  let? bytes := ok_or (encode_fingerprint (fingerprint_input escapes p)) (u "invalid_mapping: 计划指纹编码失败") in
  Ok (sha256_hex bytes).

Definition make_preview (task_id : str) (request : DataTaskRequest) (mapping : ValidatedMapping)
  (source_at target_at : Z) (counts : CountsMap) (rs : list DataTaskRisk) (fp : str) : DataTaskPreview :=
  mkPreview task_id plan_id fp (rq_source request) (rq_target request) (rq_kind request) (rq_mode request)
    (table_previews mapping counts) (show_Z source_at) (show_Z target_at) (show_Z (sat_add now (15 * 60 * 1000)))
    rs [] true [sql_example].

Definition with_preview (p : StoredDataPlan) (v : DataTaskPreview) : StoredDataPlan :=
  mkPlan (sp_request p) (sp_mapping p) v (sp_source p) (sp_target p) (sp_target_full p) (sp_operations p)
    (sp_expected p) (sp_source_metadata p) (sp_target_metadata p).

Definition build_plan (task_id : str) (request : DataTaskRequest) (mapping : ValidatedMapping)
  (source_metadata target_metadata : DataMetadataSnapshot) (source target target_full : Captured) :
  result StoredDataPlan str :=
  let? verified := validate_mapping request source_metadata target_metadata in
  let? x := ok_or (encode_mapping verified) (u "invalid_mapping: 映射编码失败") in
  let? y := ok_or (encode_mapping mapping) (u "invalid_mapping: 映射编码失败") in
  if negb (list_eqb x y) then Err (u "invalid_mapping: 映射未通过后端验证")
  else
    let? s := external_sort write layout b sha256_hex (counters 0%nat) (ss_rows source) in
    let? t := external_sort write layout b sha256_hex (counters 1%nat) (ss_rows target) in
    let? f := external_sort write layout b sha256_hex (counters 2%nat) (ss_rows target_full) in
    let unique := is_kind (rq_kind request) RowSync in
    check? check_rows (spool s) mapping unique None in
    check? check_rows (spool t) mapping unique None in
    let? d := diff (rq_kind request) (rq_mode request) (spool s) (spool t) (initial_counts mapping) in
    let? operations := write_operations (df_operations d) in
    let? expected := write (df_expected d) in
    let? e := external_sort write layout b sha256_hex (counters 3%nat) expected in
    let rs := risks (rq_mode request) mapping source_metadata target_metadata (df_counts d) in
    let preview := make_preview task_id request mapping (ss_captured_at source) (ss_captured_at target)
                     (df_counts d) rs in
    let plan := mkPlan request mapping (preview []) s t f operations e source_metadata target_metadata in
    let? fp := fingerprint plan in
    Ok (with_preview plan (preview fp)).
End Build.

(** ** Specification: executing the operations *)

(** The [Update] or [Delete] recorded for the target row number [i]. *)
Definition changes_at (i : Z) (o : CanonicalRow) : bool :=
  match key o with
  | VText k :: VUInt j :: _ => (j =? i) && (str_eqb k (u "update") || str_eqb k (u "delete"))
  | _ => false
  end.

(** The fate of a target row under the operations. *)
Definition write_target (ops : Rows) (i : Z) (row : CanonicalRow) : Rows :=
  match find_first (changes_at i) ops with
  | None => [row]
  | Some o =>
    match from_row o with
    | Ok op => match op_new op with Some new => [new] | None => [] end
    | Err _ => [row]
    end
  end.
Fixpoint write_targets (ops : Rows) (i : Z) (target : Rows) : Rows :=
  match target with [] => [] | r :: target => write_target ops i r ++ write_targets ops (i + 1) target end.

Definition inserted (o : CanonicalRow) : Rows :=
  match from_row o with
  | Ok op => match op_kind op, op_new op with Insert, Some new => [new] | _, _ => [] end
  | Err _ => []
  end.

(** The target after a task executed its operations. *)
Definition execute (ops target : Rows) : Rows := write_targets ops 0 target ++ concat (map inserted ops).

(** Rows in strictly increasing key order: sorted snapshots with unique keys. *)
Definition key_of (r : CanonicalRow) : bytes := expect_bytes (key_bytes r).
Definition increasing (rows : Rows) : Prop :=
  StronglySorted (fun x y => lex Z.compare (key_of x) (key_of y) = Lt) rows.

(** A row as the mapping projects it: as many values as target columns, and
    the locator key is the values at the key indices. *)
Definition projected (mapping : ValidatedMapping) (r : CanonicalRow) : Prop :=
  exists t, t ∈ vm_tables mapping /\ vt_target_table t = table r /\
    zlen (values r) = zlen (vt_target_columns t) /\
    map (fun i => values r !! i) (vt_key_indices t) = map Some (key r).

(** A usable synchronisation key: not empty, and its values are not null and
    of types whose equality is the database's. *)
Definition usable_key (r : CanonicalRow) : Prop :=
  key r <> [] /\ Forall (fun v => is_null v = false /\ unsafe_key v = false) (key r).

(** What each mode promises. *)
Definition promised (mode : DataTaskMode) (s t : Rows) : Rows :=
  match mode with
  | Merge => s ++ filter (fun r => key_of r ∉ map key_of s) t
  | Mirror | Replace => s
  | Append => s ++ t
  end.

(** The counters of a table as tallies of rows and operations. *)
Definition rows_of (k : str) (rows : Rows) : Z := zlen (filter (fun r => table r = k) rows).
Definition has_kind (kind : DataDiffOperation) (o : CanonicalRow) : bool :=
  match key o with VText n :: _ => str_eqb n (operation_name kind) | _ => false end.
Definition ops_of (kind : DataDiffOperation) (k : str) (ops : Rows) : Z :=
  zlen (filter (fun o => has_kind kind o = true) (filter (fun o => table o = k) ops)).

Definition tally (k : str) (s t : Rows) (d : Diff) : Counts :=
  let ins := ops_of Insert k (df_operations d) in
  let upd := ops_of Update k (df_operations d) in
  let del := ops_of Delete k (df_operations d) in
  let unchanged := rows_of k s - ins - upd in
  mkCounts (rows_of k s) (rows_of k t) ins upd del unchanged
    (rows_of k t - upd - unchanged - del) (rows_of k (df_expected d)).

(** The operation [o] is about a row of [s], or about the row of [t] whose
    recorded index is its target index; an update keeps the key. *)
Definition at_index (t : Rows) (ti i : Z) (r : CanonicalRow) : Prop :=
  ti <= i /\ t !! Z.to_nat (i - ti) = Some r.
Definition op_ok (s t : Rows) (ti : Z) (o : CanonicalRow) : Prop :=
  exists kind r i, o = operation_row kind r i /\
    match kind with
    | Insert => r ∈ s /\ i = u64_max
    | Update => r ∈ s /\ exists old, at_index t ti i old /\ key_of old = key_of r
    | _ => at_index t ti i r
    end.

(** A diff of [s] against [t], whose first row has target index [ti]. *)
Record good_diff (s t : Rows) (ti : Z) (counts : CountsMap) (d : Diff) : Prop := {
  gd_counts k : k ∈ map fst counts ->
    counts_of (df_counts d) k = add_counts (counts_of counts k) (tally k s t d);
  gd_keys : map fst (df_counts d) = map fst counts;
  gd_ops : Forall (op_ok s t ti) (df_operations d);
  gd_execute : write_targets (df_operations d) ti t ++ concat (map inserted (df_operations d))
                 ≡ₚ df_expected d;
}.

(** ** Proofs *)

Lemma operation_round_trip kind row i : from_row (operation_row kind row i) = Ok
  match kind with
  | Insert => mkOperation kind None (Some row)
  | Update => mkOperation kind (Some (mkRow (table row) (key row) [])) (Some row)
  | _ => mkOperation kind (Some row) None
  end.
Proof. destruct row. by destruct kind. Qed.

Lemma changes_at_operation i kind row j :
  changes_at i (operation_row kind row j) =
  (j =? i) && match kind with Update | Delete => true | _ => false end.
Proof. unfold changes_at, operation_row. cbn [key]. by destruct kind. Qed.

Lemma has_kind_operation kind kind' row j :
  has_kind kind (operation_row kind' row j) = bool_decide (kind' = kind).
Proof. unfold has_kind, operation_row. cbn [key]. by destruct kind, kind'. Qed.

Lemma inserted_operation kind row i :
  inserted (operation_row kind row i) = match kind with Insert => [row] | _ => [] end.
Proof. unfold inserted. rewrite operation_round_trip. by destruct kind. Qed.

Lemma bump_ok t d m : t ∈ map fst m -> exists m',
  bump t d m = Ok m' /\ map fst m' = map fst m /\
  forall k, counts_of m' k = if str_eqb t k then add_counts (counts_of m k) d else counts_of m k.
Proof.
  induction m as [|[k c] m IH]; [by intros []%elem_of_nil|]. cbn [bump map fst]. intros H.
  destruct (str_eqb k t) eqn:E.
  - apply str_eqb_eq in E as ->. eexists. split; [reflexivity|]. split; [done|]. intros k'.
    unfold counts_of. cbn [find_first]. by destruct (str_eqb t k').
  - apply str_eqb_neq in E. apply elem_of_cons in H as [H|H]; [congruence|].
    destruct (IH H) as (m' & -> & K & C). cbn [rbind]. eexists. split; [reflexivity|].
    split; [cbn; by rewrite K|]. intros k'. specialize (C k'). unfold counts_of in *. cbn [find_first].
    destruct (str_eqb k k') eqn:Ek; [|exact C]. apply str_eqb_eq in Ek as <-.
    by rewrite (proj2 (str_eqb_neq t k)) by congruence.
Qed.

Lemma emit_ok t d ops expected counts k rest m :
  bump t d counts = Ok m -> k m = Ok rest ->
  emit t d ops expected counts k =
    Ok (mkDiff (ops ++ df_operations rest) (expected ++ df_expected rest) (df_counts rest)).
Proof. intros E K. unfold emit. rewrite E. cbn [rbind]. by rewrite K. Qed.

Lemma add_counts_assoc a b c : add_counts (add_counts a b) c = add_counts a (add_counts b c).
Proof. unfold add_counts. cbn. f_equal; lia. Qed.

Lemma rows_of_cons k r rows : rows_of k (r :: rows) = (if str_eqb (table r) k then 1 else 0) + rows_of k rows.
Proof.
  unfold rows_of, str_eqb. rewrite filter_cons. destruct (decide (table r = k)) as [E|E].
  - rewrite bool_decide_eq_true_2 by done. by autorewrite with zlen.
  - by rewrite bool_decide_eq_false_2.
Qed.
Lemma ops_of_cons kind k kind' r i ops :
  ops_of kind k (operation_row kind' r i :: ops) =
  (if str_eqb (table r) k && bool_decide (kind' = kind) then 1 else 0) + ops_of kind k ops.
Proof.
  unfold ops_of, str_eqb. rewrite filter_cons. change (table (operation_row kind' r i)) with (table r).
  destruct (decide (table r = k)) as [E|E].
  - rewrite (bool_decide_eq_true_2 (table r = k)) by done. rewrite filter_cons, has_kind_operation. cbn [andb].
    destruct (bool_decide (kind' = kind)); cbn [decide]; case_decide; try done; by autorewrite with zlen.
  - by rewrite (bool_decide_eq_false_2 (table r = k)).
Qed.
Lemma rows_of_nil k : rows_of k [] = 0.
Proof. done. Qed.
Create Rewrite HintDb tally.
#[local] Hint Rewrite rows_of_cons ops_of_cons rows_of_nil : tally.

(** Rows at or after [ti] are not touched by operations on earlier indices. *)
Lemma write_targets_skip o ops i t :
  (forall j, i <= j -> changes_at j o = false) -> write_targets (o :: ops) i t = write_targets ops i t.
Proof.
  revert i. induction t as [|r t IH]; intros i H; [done|]. cbn [write_targets]. rewrite IH by (intros; apply H; lia).
  f_equal. unfold write_target. cbn [find_first]. by rewrite H by lia.
Qed.

Lemma write_target_none ops i r : (forall o, o ∈ ops -> changes_at i o = false) -> write_target ops i r = [r].
Proof.
  intros H. unfold write_target. destruct (find_first (changes_at i) ops) as [o|] eqn:F; [|done].
  apply find_first_some in F as [Ho C]. by rewrite H in C.
Qed.

Lemma at_index_cons x t ti i r : at_index t (ti + 1) i r -> at_index (x :: t) ti i r.
Proof.
  intros [L E]. split; [lia|]. replace (Z.to_nat (i - ti)) with (S (Z.to_nat (i - (ti + 1)))) by lia. done.
Qed.
Lemma at_index_head x t ti : at_index (x :: t) ti ti x.
Proof. split; [lia|]. by rewrite Z.sub_diag. Qed.
Lemma op_ok_source x s t ti o : op_ok s t ti o -> op_ok (x :: s) t ti o.
Proof.
  intros (kind & r & i & -> & H). exists kind, r, i. split; [done|].
  destruct kind; try done; (split; [right|]; by apply H).
Qed.
Lemma op_ok_target x s t ti o : op_ok s t (ti + 1) o -> op_ok s (x :: t) ti o.
Proof.
  intros (kind & r & i & -> & H). exists kind, r, i. split; [done|]. destruct kind; try by apply at_index_cons.
  - done.
  - destruct H as (Hr & old & A & K). split; [done|]. exists old. split; [by apply at_index_cons|done].
Qed.
Lemma ops_source x s t ti ops : Forall (op_ok s t ti) ops -> Forall (op_ok (x :: s) t ti) ops.
Proof. intros F. eapply list.Forall_impl; [exact F|]. intros o. apply op_ok_source. Qed.
Lemma ops_target x s t ti ops : Forall (op_ok s t (ti + 1)) ops -> Forall (op_ok s (x :: t) ti) ops.
Proof. intros F. eapply list.Forall_impl; [exact F|]. intros o. apply op_ok_target. Qed.

Lemma op_ok_index s t ti o i : op_ok s t ti o -> changes_at i o = true -> ti <= i.
Proof.
  intros (kind & r & j & -> & H) C. rewrite changes_at_operation in C. to_prop.
  destruct kind; try done; [destruct H as (_ & old & [] & _)|destruct H]; lia.
Qed.
Lemma ops_untouched s t ti ops : Forall (op_ok s t (ti + 1)) ops ->
  forall o, o ∈ ops -> changes_at ti o = false.
Proof.
  intros F o Ho. rewrite list.Forall_forall in F. destruct (changes_at ti o) eqn:C; [|done].
  pose proof (op_ok_index _ _ _ _ _ (F o Ho) C). lia.
Qed.

(** The arithmetic of one step's counters. *)
Ltac tally_step H B k :=
  let Hk := fresh in intros Hk;
  rewrite H by congruence; rewrite (B k);
  unfold tally; cbn [df_operations df_expected df_counts app];
  autorewrite with tally;
  try match goal with T : table _ = table _ |- _ => rewrite ?T end;
  repeat match goal with |- context [bool_decide (@eq DataDiffOperation ?a ?b)] =>
    let v := eval vm_compute in (bool_decide (@eq DataDiffOperation a b)) in
    change (bool_decide (@eq DataDiffOperation a b)) with v end;
  destruct (str_eqb _ k); unfold add_counts;
  cbn [n_source n_target n_insert n_update n_delete n_unchanged n_retained n_expected andb
       d_insert d_update d_unchanged d_delete d_retain]; f_equal; lia.

Section Steps.
Context (s t : Rows) (ti : Z) (counts counts' : CountsMap) (rest : Diff).

Lemma bump_keys tb d : bump tb d counts = Ok counts' -> tb ∈ map fst counts ->
  map fst counts' = map fst counts /\
  forall k, counts_of counts' k = if str_eqb tb k then add_counts (counts_of counts k) d else counts_of counts k.
Proof. intros B H. destruct (bump_ok tb d counts H) as (m & E & K & C). rewrite B in E. apply Ok_inj in E as <-. done. Qed.

Lemma step_insert r :
  bump (table r) d_insert counts = Ok counts' -> table r ∈ map fst counts -> good_diff s t ti counts' rest ->
  good_diff (r :: s) t ti counts
    (mkDiff ([operation_row Insert r u64_max] ++ df_operations rest) ([r] ++ df_expected rest) (df_counts rest)).
Proof.
  intros B Ht [Gc Gk Gi Ge]. destruct (bump_keys _ _ B Ht) as [K C]. split; cbn [df_counts df_operations df_expected].
  - intros k. tally_step Gc C k.
  - congruence.
  - cbn [app]. constructor; [|by apply ops_source].
    exists Insert, r, u64_max. split; [done|]. split; [left|done].
  - cbn [app]. rewrite write_targets_skip by (intros; rewrite changes_at_operation; apply andb_false_r).
    cbn [map concat]. rewrite inserted_operation. cbn [app]. rewrite <- Permutation_middle. by rewrite Ge.
Qed.

Lemma step_same r :
  bump (table r) d_unchanged counts = Ok counts' -> table r ∈ map fst counts -> good_diff s t (ti + 1) counts' rest ->
  good_diff (r :: s) (r :: t) ti counts
    (mkDiff ([] ++ df_operations rest) ([r] ++ df_expected rest) (df_counts rest)).
Proof.
  intros B Ht [Gc Gk Gi Ge]. destruct (bump_keys _ _ B Ht) as [K C]. split; cbn [df_counts df_operations df_expected].
  - intros k. tally_step Gc C k.
  - congruence.
  - cbn [app]. by apply ops_source, ops_target.
  - cbn [app write_targets]. rewrite write_target_none; [cbn [app]; by rewrite Ge|]. by eapply ops_untouched.
Qed.

Lemma step_update r old :
  table old = table r -> key_of old = key_of r ->
  bump (table r) d_update counts = Ok counts' -> table r ∈ map fst counts -> good_diff s t (ti + 1) counts' rest ->
  good_diff (r :: s) (old :: t) ti counts
    (mkDiff ([operation_row Update r ti] ++ df_operations rest) ([r] ++ df_expected rest) (df_counts rest)).
Proof.
  intros To Ko B Ht [Gc Gk Gi Ge]. destruct (bump_keys _ _ B Ht) as [K C]. split; cbn [df_counts df_operations df_expected].
  - intros k. tally_step Gc C k.
  - congruence.
  - cbn [app]. constructor; [|by apply ops_source, ops_target].
    exists Update, r, ti. split; [done|]. split; [left|]. exists old. split; [apply at_index_head|done].
  - cbn [app write_targets]. rewrite write_targets_skip.
    2:{ intros j Hj. rewrite changes_at_operation, andb_true_r. apply Z.eqb_neq. lia. }
    unfold write_target at 1. cbn [find_first]. rewrite changes_at_operation, Z.eqb_refl. cbn [andb].
    rewrite operation_round_trip. cbn [op_new app map concat]. rewrite inserted_operation. cbn [app]. by rewrite Ge.
Qed.

Lemma step_delete old :
  bump (table old) d_delete counts = Ok counts' -> table old ∈ map fst counts -> good_diff s t (ti + 1) counts' rest ->
  good_diff s (old :: t) ti counts
    (mkDiff ([operation_row Delete old ti] ++ df_operations rest) ([] ++ df_expected rest) (df_counts rest)).
Proof.
  intros B Ht [Gc Gk Gi Ge]. destruct (bump_keys _ _ B Ht) as [K C]. split; cbn [df_counts df_operations df_expected].
  - intros k. tally_step Gc C k.
  - congruence.
  - cbn [app]. constructor; [|by apply ops_target].
    exists Delete, old, ti. split; [done|apply at_index_head].
  - cbn [app write_targets]. rewrite write_targets_skip.
    2:{ intros j Hj. rewrite changes_at_operation, andb_true_r. apply Z.eqb_neq. lia. }
    unfold write_target at 1. cbn [find_first]. rewrite changes_at_operation, Z.eqb_refl. cbn [andb].
    rewrite operation_round_trip. cbn [op_new app map concat]. rewrite inserted_operation. cbn [app]. by rewrite Ge.
Qed.

(** A retained row, recorded ([row] syncs) or not (transfers). *)
Lemma step_retain old (recorded : bool) :
  bump (table old) d_retain counts = Ok counts' -> table old ∈ map fst counts -> good_diff s t (ti + 1) counts' rest ->
  good_diff s (old :: t) ti counts
    (mkDiff ((if recorded then [operation_row Retain old ti] else []) ++ df_operations rest)
       ([old] ++ df_expected rest) (df_counts rest)).
Proof.
  intros B Ht [Gc Gk Gi Ge]. destruct (bump_keys _ _ B Ht) as [K C].
  pose proof (ops_untouched _ _ _ _ Gi) as N.
  split; cbn [df_counts df_operations df_expected].
  - intros k. destruct recorded; tally_step Gc C k.
  - congruence.
  - destruct recorded; cbn [app]; [constructor|]; try by apply ops_target.
    exists Retain, old, ti. split; [done|apply at_index_head].
  - assert (X : write_targets ((if recorded then [operation_row Retain old ti] else []) ++ df_operations rest) ti (old :: t)
              = old :: write_targets (df_operations rest) (ti + 1) t).
    { destruct recorded; cbn [app].
      - rewrite write_targets_skip by (intros; rewrite changes_at_operation; apply andb_false_r).
        cbn [write_targets]. by rewrite write_target_none.
      - cbn [write_targets]. by rewrite write_target_none. }
    rewrite X. destruct recorded; cbn [app map concat]; rewrite ?inserted_operation; cbn [app]; by rewrite Ge.
Qed.
End Steps.

(** ** Keys *)

Lemma stored_key r : stored r -> key_bytes r = Ok (key_of r) /\ key_of r = raw_key r /\ zlen (raw_key r) <= usize_max.
Proof.
  intros [W N (b & C & L)]. unfold canonical_bytes in C. inv_ok. unfold key_of. rewrite Hx. cbn [expect_bytes].
  pose proof (key_bytes_raw _ _ Hx) as E. rewrite N in E. split_and!; [done..|]. subst x.
  rewrite zlen_app in L. pose proof (zlen_nonneg x0). lia.
Qed.

Lemma stored_canonical r : stored r -> exists b, canonical_bytes r = Ok b.
Proof. intros [_ _ (b & C & _)]. eauto. Qed.

(** A key names its table. *)
Lemma key_of_table r1 r2 : stored r1 -> stored r2 -> key_of r1 = key_of r2 -> table r1 = table r2.
Proof.
  intros S1 S2 E. destruct (stored_key r1 S1) as (_ & K1 & L1), (stored_key r2 S2) as (_ & K2 & _).
  rewrite K1, K2 in E. assert (L : zlen (raw_key r1 ++ []) <= usize_max) by by rewrite app_nil_r.
  assert (E' : raw_key r1 ++ [] = raw_key r2 ++ []) by by rewrite E.
  exact (proj1 (raw_key_prefix r1 r2 [] [] (st_wf _ S1) (st_wf _ S2) L E')).
Qed.

Lemma canonical_key r1 r2 b : stored r1 -> stored r2 ->
  canonical_bytes r1 = Ok b -> canonical_bytes r2 = Ok b -> r1 = r2.
Proof.
  intros [W1 N1 (b1 & C1 & L1)] [W2 N2 (b2 & C2 & L2)] E1 E2.
  rewrite C1 in E1. rewrite C2 in E2. apply Ok_inj in E1, E2. subst b1 b2.
  pose proof (canonical_decode r1 b W1 C1 L1) as D1. rewrite (canonical_decode r2 b W2 C2 L2) in D1.
  apply Ok_inj in D1. congruence.
Qed.

Lemma increasing_cons r rows : increasing (r :: rows) <->
  increasing rows /\ Forall (fun x => lex Z.compare (key_of r) (key_of x) = Lt) rows.
Proof. unfold increasing. split; [by inversion 1|intros []; by constructor]. Qed.

(** Below the head of an increasing list, below all of it. *)
Lemma increasing_below k r rows : increasing (r :: rows) -> lex Z.compare k (key_of r) = Lt ->
  k ∉ map key_of (r :: rows).
Proof.
  intros [_ F]%increasing_cons L. rewrite list.Forall_forall in F.
  intros (x & -> & Hx)%list_elem_of_fmap. apply elem_of_cons in Hx as [->|Hx].
  - by rewrite cmp_refl in L.
  - specialize (F x Hx). by rewrite (cmp_lt_gt (lex Z.compare)), L in F.
Qed.

Lemma increasing_head r rows : increasing (r :: rows) -> key_of r ∉ map key_of rows.
Proof.
  intros [_ F]%increasing_cons (x & E & Hx)%list_elem_of_fmap. rewrite list.Forall_forall in F.
  specialize (F x Hx). by rewrite E, cmp_refl in F.
Qed.

(** The target rows that no source row replaces. *)
Definition unmatched (s t : Rows) : Rows := filter (fun r => key_of r ∉ map key_of s) t.

Lemma unmatched_cons r s t : key_of r ∉ map key_of t -> unmatched (r :: s) t = unmatched s t.
Proof.
  unfold unmatched. induction t as [|x t IH]; intros H; [done|]. rewrite !filter_cons.
  assert (D : key_of x ∉ map key_of (r :: s) <-> key_of x ∉ map key_of s).
  { cbn [map]. rewrite not_elem_of_cons. split; [by intros []|]. intros Hx. split; [|done].
    intros E. apply H. rewrite <- E. left. }
  assert (key_of r ∉ map key_of t) by (intros X; apply H; by right).
  destruct (decide (key_of x ∉ map key_of (r :: s))), (decide (key_of x ∉ map key_of s)); try tauto.
  f_equal. by apply IH.
Qed.

(** ** The merge is correct *)

Lemma emit_good tb d ops expected counts (k : CountsMap -> result Diff str) (P : Diff -> Prop) (Q : CountsMap -> Diff -> Prop) :
  tb ∈ map fst counts ->
  (forall m, map fst m = map fst counts -> exists rest, k m = Ok rest /\ Q m rest) ->
  (forall m rest, bump tb d counts = Ok m -> Q m rest ->
     P (mkDiff (ops ++ df_operations rest) (expected ++ df_expected rest) (df_counts rest))) ->
  exists diff, emit tb d ops expected counts k = Ok diff /\ P diff.
Proof.
  intros Hin Hk HP. destruct (bump_ok tb d counts Hin) as (m & B & K & _).
  destruct (Hk m K) as (rest & E & HQ). eexists. split; [by apply emit_ok with (m := m)|eauto].
Qed.

Lemma good_diff_nil ti counts : good_diff [] [] ti counts (mkDiff [] [] counts).
Proof.
  split; [|done|constructor|done]. intros k _. change (tally k [] [] _) with zero_counts. cbn [df_counts].
  destruct (counts_of counts k). unfold add_counts, zero_counts. cbn. f_equal; lia.
Qed.

(** Every row belongs to a counted table. *)
Definition counted (counts : CountsMap) (rows : Rows) : Prop := Forall (fun r => table r ∈ map fst counts) rows.

Lemma counted_same counts m rows : map fst m = map fst counts -> counted counts rows -> counted m rows.
Proof. unfold counted. by intros ->. Qed.

Definition sync_promised (mirror : bool) (s t : Rows) : Rows := if mirror then s else s ++ unmatched s t.

Lemma sync_promised_insert mirror r s t rest :
  key_of r ∉ map key_of t -> rest ≡ₚ sync_promised mirror s t -> [r] ++ rest ≡ₚ sync_promised mirror (r :: s) t.
Proof.
  intros N ->. unfold sync_promised. destruct mirror; [done|]. cbn [app]. by rewrite unmatched_cons.
Qed.

Lemma sync_promised_match mirror r old s t rest :
  key_of old = key_of r -> key_of r ∉ map key_of t ->
  rest ≡ₚ sync_promised mirror s t -> [r] ++ rest ≡ₚ sync_promised mirror (r :: s) (old :: t).
Proof.
  intros E N ->. unfold sync_promised. destruct mirror; [done|]. cbn [app].
  assert (X : unmatched (r :: s) (old :: t) = unmatched s t); [|by rewrite X].
  rewrite <- (unmatched_cons r s t N). unfold unmatched at 1. rewrite filter_cons.
  destruct (decide _) as [D|D]; [|done]. exfalso. apply D. rewrite E. left.
Qed.

Lemma sync_promised_target mirror old s t rest :
  key_of old ∉ map key_of s -> rest ≡ₚ sync_promised mirror s t ->
  (if mirror then [] else [old]) ++ rest ≡ₚ sync_promised mirror s (old :: t).
Proof.
  intros N ->. unfold sync_promised. destruct mirror; [done|]. cbn [app].
  assert (X : unmatched s (old :: t) = old :: unmatched s t); [|by rewrite X, <- Permutation_middle].
  unfold unmatched. rewrite filter_cons. by destruct (decide _).
Qed.

(** What the merge of [s] and [t] yields. *)
Definition merge_ok (mirror : bool) (s t : Rows) (ti : Z) (counts : CountsMap) (d : Diff) : Prop :=
  good_diff s t ti counts d /\ df_expected d ≡ₚ sync_promised mirror s t.

Lemma key_lt_not_below x y rows : lex Z.compare (key_of x) (key_of y) = Gt -> increasing (x :: rows) ->
  key_of y ∉ map key_of (x :: rows).
Proof. intros G I. apply increasing_below; [done|]. by apply (cmp_lt_gt (lex Z.compare)). Qed.

Lemma sync_loop_good mirror fuel s t ti counts :
  (length s + length t <= fuel)%nat -> Forall stored s -> Forall stored t -> increasing s -> increasing t ->
  counted counts s -> counted counts t ->
  exists d, sync_loop fuel mirror s t ti counts = Ok d /\ merge_ok mirror s t ti counts d.
Proof.
  revert s t ti counts. induction fuel as [|fuel IH]; intros s t ti counts L Fs Ft Is It Cs Ct.
  { destruct s, t; cbn in L; try lia. eexists. split; [done|]. split; [apply good_diff_nil|].
    by destruct mirror. }
  assert (Ins : forall r s', s = r :: s' -> key_of r ∉ map key_of t -> exists d,
    emit (table r) d_insert [operation_row Insert r u64_max] [r] counts (sync_loop fuel mirror s' t ti) = Ok d /\
    merge_ok mirror s t ti counts d).
  { intros r s' -> N. apply list.Forall_cons in Fs as [_ Fs'], Cs as [Cr Cs']. apply increasing_cons in Is as [Is' _].
    apply emit_good with (Q := fun m d => merge_ok mirror s' t ti m d); [done| |].
    - intros m K. apply IH; try done; [cbn in L; lia|by eapply counted_same..].
    - intros m rest B [G E]. split; [by eapply step_insert|]. by apply sync_promised_insert. }
  assert (Tgt : forall r t', t = r :: t' -> key_of r ∉ map key_of s -> exists d,
    (if mirror
     then emit (table r) d_delete [operation_row Delete r ti] [] counts (sync_loop fuel mirror s t' (ti + 1))
     else emit (table r) d_retain [operation_row Retain r ti] [r] counts (sync_loop fuel mirror s t' (ti + 1))) = Ok d /\
    merge_ok mirror s t ti counts d).
  { intros r t' -> N. apply list.Forall_cons in Ft as [_ Ft'], Ct as [Cr Ct']. apply increasing_cons in It as [It' _].
    assert (X : forall m, map fst m = map fst counts -> exists d,
      sync_loop fuel mirror s t' (ti + 1) m = Ok d /\ merge_ok mirror s t' (ti + 1) m d).
    { intros m K. apply IH; try done; [cbn in L; lia|by eapply counted_same..]. }
    pose proof (sync_promised_target mirror r s t') as Pt. clear IH.
    destruct mirror;
      [apply emit_good with (Q := fun m d => merge_ok true s t' (ti + 1) m d)
      |apply emit_good with (Q := fun m d => merge_ok false s t' (ti + 1) m d)]; try done;
      intros m rest B [G E]; (split; [|by apply Pt]).
    - by eapply step_delete.
    - by apply (step_retain s t' ti counts m rest r true). }
  assert (Eqs : forall r old s' t' (u : bool), s = r :: s' -> t = old :: t' -> key_of r = key_of old -> (u = true -> r = old) ->
    exists d, (if u
     then emit (table r) d_unchanged [] [r] counts (sync_loop fuel mirror s' t' (ti + 1))
     else emit (table r) d_update [operation_row Update r ti] [r] counts (sync_loop fuel mirror s' t' (ti + 1))) = Ok d /\
    merge_ok mirror s t ti counts d).
  { intros r old s' t' u -> -> Ek Eu.
    assert (N : key_of r ∉ map key_of t') by (rewrite Ek; by apply increasing_head).
    apply list.Forall_cons in Fs as [Sr Fs'], Ft as [So Ft'], Cs as [Cr Cs'], Ct as [Co Ct'].
    apply increasing_cons in Is as [Is' _], It as [It' _].
    assert (X : forall m, map fst m = map fst counts -> exists d,
      sync_loop fuel mirror s' t' (ti + 1) m = Ok d /\ merge_ok mirror s' t' (ti + 1) m d).
    { intros m K. apply IH; try done; [cbn in L; lia|by eapply counted_same..]. }
    destruct u; apply emit_good with (Q := fun m d => merge_ok mirror s' t' (ti + 1) m d); try done;
      intros m rest B [G E]; (split; [|by apply sync_promised_match]).
    - rewrite <- (Eu eq_refl). by eapply step_same.
    - eapply step_update; [symmetry; by apply key_of_table|done..]. }
  cbn [sync_loop]. destruct s as [|r s'], t as [|old t'].
  - eexists. split; [done|]. split; [apply good_diff_nil|by destruct mirror].
  - apply Tgt; [done|by apply not_elem_of_nil].
  - apply Ins; [done|by apply not_elem_of_nil].
  - assert (Sr : stored r) by by apply list.Forall_cons in Fs as [? _].
    assert (So : stored old) by by apply list.Forall_cons in Ft as [? _].
    destruct (stored_key r Sr) as (-> & _), (stored_key old So) as (-> & _). cbn [rbind].
    destruct (lex Z.compare (key_of r) (key_of old)) eqn:C.
    + destruct (stored_canonical r Sr) as (x & Cx), (stored_canonical old So) as (y & Cy).
      rewrite Cx, Cy. cbn [rbind]. apply (Eqs r old s' t' (list_eqb x y)); [done..|by apply cmp_eq_iff in C|].
      intros U. apply bool_decide_eq_true in U. subst y. by apply (canonical_key r old x).
    + apply Ins; [done|]. by apply increasing_below.
    + apply Tgt; [done|]. by apply key_lt_not_below.
Qed.

Lemma transfer_target_good replace t ti counts : counted counts t ->
  exists d, transfer_target replace t ti counts = Ok d /\ good_diff [] t ti counts d /\
    df_expected d ≡ₚ (if replace then [] else t).
Proof.
  revert ti counts. induction t as [|r t IH]; intros ti counts Ct; cbn [transfer_target].
  { eexists. split; [done|]. split; [apply good_diff_nil|by destruct replace]. }
  apply list.Forall_cons in Ct as [Cr Ct].
  assert (X : forall m, map fst m = map fst counts -> exists d, transfer_target replace t (ti + 1) m = Ok d /\
    (good_diff [] t (ti + 1) m d /\ df_expected d ≡ₚ (if replace then [] else t))).
  { intros m K. apply IH. by eapply counted_same. }
  destruct replace;
    [apply emit_good with (Q := fun m d => good_diff [] t (ti + 1) m d /\ df_expected d ≡ₚ [])
    |apply emit_good with (Q := fun m d => good_diff [] t (ti + 1) m d /\ df_expected d ≡ₚ t)]; try done;
    intros m rest B [G E].
  - split; [by eapply step_delete|done].
  - split; [by apply (step_retain [] t ti counts m rest r false)|]. cbn [app df_expected]. by rewrite E.
Qed.

Lemma transfer_source_good replace s t counts : counted counts s -> counted counts t ->
  exists d, transfer_source replace s t counts = Ok d /\ good_diff s t 0 counts d /\
    df_expected d ≡ₚ (if replace then s else s ++ t).
Proof.
  revert counts. induction s as [|r s IH]; intros counts Cs Ct; cbn [transfer_source].
  { destruct (transfer_target_good replace t 0 counts Ct) as (d & E & G & P). exists d. by destruct replace. }
  apply list.Forall_cons in Cs as [Cr Cs].
  apply emit_good with (Q := fun m d => good_diff s t 0 m d /\ df_expected d ≡ₚ (if replace then s else s ++ t)); [done| |].
  - intros m K. apply IH; by eapply counted_same.
  - intros m rest B [G E]. split; [by eapply step_insert|]. cbn [app df_expected].
    rewrite E. by destruct replace.
Qed.

(** ** The checks are sound *)

Lemma elem_concat_length (f : bytes -> bytes) (l : list bytes) x : x ∈ l -> zlen (f x) <= zlen (concat (map f l)).
Proof.
  induction l as [|y l IH]; [by intros []%elem_of_nil|]. cbn [map concat]. rewrite zlen_app.
  pose proof (zlen_nonneg (f y)). pose proof (zlen_nonneg (concat (map f l))).
  intros [->|Hx]%elem_of_cons; [lia|]. specialize (IH Hx). lia.
Qed.

Lemma stored_value r v : stored r -> v ∈ key r ++ values r ->
  exists b, value_canonical_bytes v = Ok b /\ b = raw_value v /\ wf_value v /\ zlen (raw_value v) <= usize_max.
Proof.
  intros [W N (b & C & L)] Hv. apply canonical_bytes_parts in C as (ek & ev & Fk & Fv & Lb).
  pose proof (Forall2_app Fk Fv) as F.
  apply list_elem_of_lookup in Hv as (i & Hi). destruct (Forall2_lookup_l _ _ _ _ _ F Hi) as (x & Hx & E).
  exists x. assert (Nv : norm_value v = v).
  { assert (X : map norm_value (key r ++ values r) = key r ++ values r).
    { rewrite map_app. pose proof (f_equal key N) as N1. pose proof (f_equal values N) as N2. cbn in N1, N2. congruence. }
    pose proof (f_equal (fun l => l !! i) X) as Y. cbn in Y. rewrite list_lookup_fmap, Hi in Y. cbn in Y. congruence. }
  pose proof (value_canonical_raw _ _ E) as R. rewrite Nv in R. split_and!; [done..| |].
  - destruct W as (_ & Wk & Wv). pose proof (proj2 (list.Forall_app _ _ _) (conj Wk Wv)) as Wl.
    rewrite list.Forall_lookup in Wl. by apply (Wl i).
  - rewrite <- R. pose proof (elem_concat_length field (ek ++ ev) x (list_elem_of_lookup_2 _ _ _ Hx)) as X.
    rewrite field_length in X. pose proof (str_len_nonneg (table r)). lia.
Qed.

Lemma raw_value_inj v w : wf_value v -> wf_value w -> zlen (raw_value v) <= usize_max -> raw_value v = raw_value w -> v = w.
Proof.
  intros Wv Ww L E. destruct (r_value_raw v Wv L) as (r1 & E1 & _).
  rewrite E in L. destruct (r_value_raw w Ww L) as (r2 & E2 & _). rewrite E, E2 in E1.
  apply Ok_inj, pair_equal_spec in E1 as [<- _]. done.
Qed.

Lemma check_key_ok r indices k :
  stored r -> (forall v, v ∈ k -> v ∈ key r) -> length indices = length k ->
  check_key (values r) indices k = Ok tt -> map (fun i => values r !! i) indices = map Some k.
Proof.
  intros S. revert k. induction indices as [|i indices IH]; intros [|v k] Sub Ln H; cbn in Ln; try done; try lia.
  cbn [check_key] in H. apply rbind_ok_inv in H as (w & Hw & H). apply ok_or_ok_inv in Hw.
  apply rbind_ok_inv in H as (x & Hx & H). apply rbind_ok_inv in H as (y & Hy & H).
  case_if_in H; [done|]. to_prop. unfold list_eqb in E. apply bool_decide_eq_true in E. subst y.
  cbn [map]. rewrite Hw. f_equal; [|apply IH; [intros z Hz; apply Sub; by right|lia|done]].
  f_equal. destruct (stored_value r w S) as (b1 & E1 & R1 & W1 & L1).
  { apply elem_of_app. right. by eapply list_elem_of_lookup_2. }
  destruct (stored_value r v S) as (b2 & E2 & R2 & W2 & L2).
  { apply elem_of_app. left. apply Sub. left. }
  apply raw_value_inj; congruence.
Qed.

Definition keys_ok (unique : bool) (previous : option bytes) (rows : Rows) : Prop :=
  unique = true -> Forall usable_key rows /\
    (sorted rows -> match previous with Some k => Forall (fun r => lex Z.compare k (key_of r) <> Gt) rows | None => True end ->
     increasing rows /\ match previous with Some k => Forall (fun r => lex Z.compare k (key_of r) = Lt) rows | None => True end).

Lemma sorted_keys r rows : sorted (r :: rows) -> sorted rows /\ Forall (fun x => lex Z.compare (key_of r) (key_of x) <> Gt) rows.
Proof.
  intros S. inversion S as [|? ? S' F]; subst. split; [done|]. eapply list.Forall_impl; [exact F|]. intros x C.
  unfold cmp_le, compare, cmp_then, cmp_on in C. unfold key_of. by destruct (lex Z.compare _ _).
Qed.

Lemma check_rows_ok rows mapping unique previous :
  Forall stored rows -> check_rows rows mapping unique previous = Ok tt ->
  Forall (projected mapping) rows /\ keys_ok unique previous rows.
Proof.
  revert previous. induction rows as [|r rows IH]; intros previous F H.
  { split; [constructor|]. intros _. split; [constructor|]. intros _ _. split; [constructor|]. by destruct previous. }
  apply list.Forall_cons in F as [S F]. cbn [check_rows] in H. apply rbind_ok_inv in H as (t & Ht & H).
  apply ok_or_ok_inv, find_first_some in Ht as [Ht Et]. apply str_eqb_eq in Et.
  case_if_in H; [done|]. to_prop. apply rbind_ok_inv in H as ([] & K & H).
  assert (P : projected mapping r).
  { exists t. split_and!; try done. eapply check_key_ok; try done. unfold zlen in *. lia. }
  destruct unique.
  - case_if_in H; [done|]. to_prop. case_if_in H; [done|]. apply rbind_ok_inv in H as (k & Hk & H).
    case_if_in H; [done|]. to_prop. apply IH in H as [Fp Ko]; [|done].
    destruct (stored_key r S) as (Kr & _). rewrite Kr in Hk. apply Ok_inj in Hk as <-.
    split; [by constructor|]. intros _. destruct (Ko eq_refl) as [Fu Inc]. split.
    + constructor; [|done]. split; [by destruct (key r)|]. rewrite list.Forall_forall. intros v Hv.
      rewrite existsb_false_iff in *. auto.
    + intros So Hp. apply sorted_keys in So as [So Fk]. destruct (Inc So Fk) as [I Fl].
      split; [by apply increasing_cons|]. destruct previous as [p|]; [|done].
      apply list.Forall_cons in Hp as [Hp _].
      assert (Lt1 : lex Z.compare p (key_of r) = Lt).
      { destruct (lex Z.compare p (key_of r)) eqn:C; [|done|done]. apply cmp_eq_iff in C. congruence. }
      constructor; [done|]. eapply list.Forall_impl; [exact Fl|]. intros x Hx. exact (cmp_lt_trans (lex Z.compare) _ _ _ Lt1 Hx).
  - apply IH in H as [Fp _]; [|done]. split; [by constructor|]. by intros.
Qed.

(** ** Properties *)

Lemma diff_good kind mode s t counts :
  kind_mode_matches kind mode = true -> Forall stored s -> Forall stored t ->
  counted counts s -> counted counts t -> (kind = RowSync -> increasing s /\ increasing t) ->
  exists d, diff kind mode s t counts = Ok d /\ good_diff s t 0 counts d /\ df_expected d ≡ₚ promised mode s t.
Proof.
  intros M Fs Ft Cs Ct I. unfold diff. destruct kind; cbn [is_kind bool_decide decide].
  - destruct (I eq_refl) as [Is It].
    destruct (sync_loop_good (is_mode mode Mirror) (length s + length t) s t 0 counts) as (d & E & G & P); try done.
    exists d. split; [exact E|]. split; [done|]. rewrite P. by destruct mode.
  - destruct (transfer_source_good (is_mode mode Replace) s t counts Cs Ct) as (d & E & G & P).
    exists d. split; [exact E|]. split; [done|]. rewrite P. by destruct mode.
Qed.

#[export] Instance promised_proper mode : Proper ((≡ₚ) ==> (≡ₚ) ==> (≡ₚ)) (promised mode).
Proof.
  intros s s' Ps t t' Pt. destruct mode; cbn [promised]; try done; [|by rewrite Ps, Pt].
  rewrite Ps, Pt. apply Permutation_app_head. erewrite list_filter_iff; [reflexivity|].
  intros x. cbn. by rewrite Ps.
Qed.

Lemma promised_forall mode (P : CanonicalRow -> Prop) s t : Forall P s -> Forall P t -> Forall P (promised mode s t).
Proof.
  intros Fs Ft. destruct mode; cbn [promised]; try done; apply list.Forall_app; (split; [done|]); [|done].
  rewrite list.Forall_forall in *. intros x [_ Hx]%list_elem_of_filter. auto.
Qed.

Lemma initial_counts_keys mapping t : t ∈ map fst (initial_counts mapping) <-> t ∈ map vt_target_table (vm_tables mapping).
Proof.
  unfold initial_counts. rewrite map_map. cbn. rewrite map_id, sort_by_elem. apply elem_of_remove_dups.
Qed.
Lemma initial_counts_zero mapping k : counts_of (initial_counts mapping) k = zero_counts.
Proof.
  unfold initial_counts, counts_of. induction (sort_by _ _) as [|x l IH]; [done|]. cbn [map find_first].
  by destruct (str_eqb x k).
Qed.

Lemma projected_counted mapping rows : Forall (projected mapping) rows -> counted (initial_counts mapping) rows.
Proof.
  intros F. eapply list.Forall_impl; [exact F|]. intros r (t & Ht & Et & _).
  apply initial_counts_keys. rewrite <- Et. apply list_elem_of_fmap. eauto.
Qed.

Lemma operation_name_wf kind : wf_str (operation_name kind).
Proof. apply (bool_decide_unpack _). destruct kind; vm_compute; exact I. Qed.

Lemma operation_row_wf kind r i : wf_row r -> u64_range i -> wf_row (operation_row kind r i).
Proof.
  intros (T & K & V) Hi. split; [done|]. split; [|done]. constructor; [apply operation_name_wf|]. by constructor.
Qed.
Lemma operation_row_norm kind r i : norm_row r = r -> norm_row (operation_row kind r i) = operation_row kind r i.
Proof.
  intros N. unfold norm_row, operation_row in *. cbn. destruct r. cbn in *. congruence.
Qed.

(** Stored rows give operations that a spool keeps as they are. *)
Lemma ops_written w `{!SpoolStore w} s t ops out : Forall stored s -> Forall stored t -> zlen t <= u64_max ->
  Forall (op_ok s t 0) ops -> w ops = Ok out -> out = ops.
Proof.
  intros Fs Ft L F W. rewrite list.Forall_forall in Fs, Ft.
  assert (X : forall o, o ∈ ops -> wf_row o /\ norm_row o = o).
  { intros o Ho. rewrite list.Forall_forall in F. destruct (F o Ho) as (kind & r & i & -> & H).
    assert (A : forall x, at_index t 0 i x -> stored x /\ u64_range i).
    { intros x [P E]. split; [apply Ft; by eapply list_elem_of_lookup_2|].
      apply lookup_lt_Some in E. unfold zlen in L. split; lia. }
    assert (Sr : stored r /\ u64_range i).
    { destruct kind; try by apply A.
      - destruct H as [H ->]. split; [by apply Fs|]. split; [discriminate|reflexivity].
      - destruct H as (H & old & Ao & _). split; [by apply Fs|by apply (A old)]. }
    destruct Sr as [[Wr Nr _] Ri]. split; [by apply operation_row_wf|by apply operation_row_norm]. }
  rewrite (write_reads ops out) by (done || (apply list.Forall_forall; intros o Ho; by apply X)).
  rewrite <- (map_id ops) at 2. apply map_ext_in. intros o Ho. apply X. by apply list_elem_of_In.
Qed.

Lemma increasing_nodup rows : increasing rows -> NoDup (map key_of rows).
Proof.
  induction rows as [|r rows IH]; intros I; cbn [map]; constructor; [by apply increasing_head|].
  apply IH. by apply increasing_cons in I as [I _].
Qed.

Lemma NoDup_perm {A} (l k : list A) : l ≡ₚ k -> NoDup l -> NoDup k.
Proof. by intros ->. Qed.

Lemma rows_of_perm k rows rows' : rows ≡ₚ rows' -> rows_of k rows = rows_of k rows'.
Proof. intros P. unfold rows_of, zlen. by rewrite P. Qed.

Lemma counts_of_elem m k : k ∈ map fst m -> (k, counts_of m k) ∈ m.
Proof.
  intros (x & -> & Hx)%list_elem_of_fmap. unfold counts_of.
  destruct (find_first_exists (fun '(k', _) => str_eqb k' x.1) m x Hx) as (y & Y).
  { destruct x. apply str_eqb_refl. }
  rewrite Y. destruct y as [k c]. apply find_first_some in Y as [Hy E]. apply str_eqb_eq in E. congruence.
Qed.

Section BuildProofs.
Context (write write_operations : Rows -> result Rows str) `{!SpoolStore write, !SpoolStore write_operations}.
Context (layout : Layout) (b : ResourceBudget) (counters : nat -> Counters).
Context (sha256_hex : bytes -> str) (encode_mapping : ValidatedMapping -> option bytes)
  (encode_fingerprint : FingerprintInput -> option bytes) (plan_id : str) (now : Z) (escapes : char -> bool).
Context (task_id : str) (request : DataTaskRequest) (mapping : ValidatedMapping)
  (source_metadata target_metadata : DataMetadataSnapshot) (source target target_full : Captured).

Abbreviation build := (build_plan write write_operations layout b counters sha256_hex encode_mapping
  encode_fingerprint plan_id now escapes task_id request mapping source_metadata target_metadata
  source target target_full) (only parsing).

Hypothesis source_stored : Forall stored (ss_rows source).
Hypothesis target_stored : Forall stored (ss_rows target).
Hypothesis target_length : zlen (ss_rows target) <= u64_max.

(** The digest of a sorted spool. *)
Definition digested (s : SortedSpool) : Prop :=
  Forall stored (spool s) /\ digest s = sha256_hex (digest_input (spool s)).

(** What a plan that was built consists of. *)
Lemma build_plan_inv p : build = Ok p ->
  exists verified d, validate_mapping request source_metadata target_metadata = Ok verified /\
    encode_mapping verified = encode_mapping mapping /\
    spool (sp_source p) ≡ₚ ss_rows source /\ spool (sp_target p) ≡ₚ ss_rows target /\
    sorted (spool (sp_source p)) /\ sorted (spool (sp_target p)) /\ sorted (spool (sp_expected p)) /\
    check_rows (spool (sp_source p)) mapping (is_kind (rq_kind request) RowSync) None = Ok tt /\
    check_rows (spool (sp_target p)) mapping (is_kind (rq_kind request) RowSync) None = Ok tt /\
    diff (rq_kind request) (rq_mode request) (spool (sp_source p)) (spool (sp_target p)) (initial_counts mapping) = Ok d /\
    good_diff (spool (sp_source p)) (spool (sp_target p)) 0 (initial_counts mapping) d /\
    df_expected d ≡ₚ promised (rq_mode request) (ss_rows source) (ss_rows target) /\
    sp_operations p = df_operations d /\ spool (sp_expected p) ≡ₚ df_expected d /\
    sp_mapping p = mapping /\ sp_request p = request /\
    sp_source_metadata p = source_metadata /\ sp_target_metadata p = target_metadata /\
    pv_risks (sp_preview p) = risks (rq_mode request) mapping source_metadata target_metadata (df_counts d) /\
    pv_tables (sp_preview p) = table_previews mapping (df_counts d) /\
    fingerprint sha256_hex encode_fingerprint escapes p = Ok (pv_fingerprint (sp_preview p)) /\
    digested (sp_source p) /\ digested (sp_target p) /\ digested (sp_expected p) /\
    (Forall stored (ss_rows target_full) ->
      digested (sp_target_full p) /\ spool (sp_target_full p) ≡ₚ ss_rows target_full).
Proof.
  unfold build_plan. intros H. apply rbind_ok_inv in H as (verified & V & H).
  apply rbind_ok_inv in H as (x & Hx & H). apply ok_or_ok_inv in Hx.
  apply rbind_ok_inv in H as (y & Hy & H). apply ok_or_ok_inv in Hy.
  case_if_in H; [done|]. to_prop. unfold list_eqb in E. apply bool_decide_eq_true in E. subst y.
  apply rbind_ok_inv in H as (s & Hs & H). apply external_sort_ok in Hs as (Ss & Ps & Fs & Ds); [|done|done].
  apply rbind_ok_inv in H as (t & Ht & H). apply external_sort_ok in Ht as (St & Pt & Ft & Dt); [|done|done].
  apply rbind_ok_inv in H as (f & Hfull & H).
  apply rbind_ok_inv in H as ([] & Cs & H). apply rbind_ok_inv in H as ([] & Ct & H).
  apply rbind_ok_inv in H as (d & D & H). apply rbind_ok_inv in H as (ops & O & H).
  apply rbind_ok_inv in H as (ex & Ex & H). apply rbind_ok_inv in H as (e & He & H).
  apply rbind_ok_inv in H as (fp & Hf & H). apply Ok_inj in H as <-.
  assert (M : kind_mode_matches (rq_kind request) (rq_mode request) = true).
  { apply validate_mapping_parts in V as (V & _). by apply kind_mode_matches_iff, (vr_mode _ V). }
  destruct (check_rows_ok _ _ _ _ Fs Cs) as [Qs Ks], (check_rows_ok _ _ _ _ Ft Ct) as [Qt Kt].
  destruct (diff_good (rq_kind request) (rq_mode request) (spool s) (spool t) (initial_counts mapping))
    as (d' & D' & G & P); try done; [by apply projected_counted..| |].
  { intros R. rewrite R in *. split; [by apply Ks|by apply Kt]. }
  rewrite D in D'. apply Ok_inj in D' as <-.
  assert (Fe : Forall stored (df_expected d)) by (rewrite P; by apply promised_forall).
  apply (write_stored _ _ _ Fe) in Ex as ->.
  apply external_sort_ok in He as (Se & Pe & Fe' & De); [|done|done].
  assert (Eo : ops = df_operations d).
  { apply (ops_written write_operations (spool s) (spool t)); try done; [|apply G].
    unfold zlen. by rewrite Pt. }
  subst ops. exists verified, d. cbn. split_and!; try done; [congruence|by rewrite P, Ps, Pt|].
  intros Fu. by apply external_sort_ok in Hfull as (_ & Pf & Ff & Df).
Qed.

Lemma plan_executes_aux p : build = Ok p ->
  execute (sp_operations p) (spool (sp_target p)) ≡ₚ spool (sp_expected p) /\
  spool (sp_expected p) ≡ₚ promised (rq_mode request) (ss_rows source) (ss_rows target) /\
  Forall (op_ok (spool (sp_source p)) (spool (sp_target p)) 0) (sp_operations p).
Proof.
  intros (v & d & _ & _ & _ & _ & _ & _ & _ & _ & _ & _ & G & P & -> & E & _)%build_plan_inv.
  rewrite E. split_and!; [apply G|exact P|apply G].
Qed.

(** C12: executing the operations of a plan turns the target snapshot into the
    plan's expected rows, and these are what the mode promises: a merge is the
    source and the unmatched target rows, a mirror or replacement is the
    source, and an append is both; and every operation is about a source row,
    or about the target row at its recorded index, an update keeping the key. *)
Theorem plan_executes p : build = Ok p ->
  execute (sp_operations p) (spool (sp_target p)) ≡ₚ spool (sp_expected p) /\
  spool (sp_expected p) ≡ₚ promised (rq_mode request) (ss_rows source) (ss_rows target) /\
  Forall (op_ok (spool (sp_source p)) (spool (sp_target p)) 0) (sp_operations p).
Proof. apply plan_executes_aux. Qed.

(** A plan is only built on checked snapshots: the mapping is, as
    serialised, the one the backend validates; every row belongs to a mapped
    table, has a value per target column, and its locator key is the projection
    of its values; and in a row sync the keys of each snapshot are usable and
    unique. *)
Theorem plan_checked p : build = Ok p ->
  (exists verified, validate_mapping request source_metadata target_metadata = Ok verified /\
     encode_mapping verified = encode_mapping mapping) /\
  Forall (projected mapping) (ss_rows source ++ ss_rows target) /\
  (rq_kind request = RowSync -> Forall usable_key (ss_rows source ++ ss_rows target) /\
     NoDup (map key_of (ss_rows source)) /\ NoDup (map key_of (ss_rows target))).
Proof.
  intros (v & d & V & Em & Ps & Pt & Ss & St & _ & Cs & Ct & _)%build_plan_inv.
  assert (Fs : Forall stored (spool (sp_source p))) by by rewrite Ps.
  assert (Ft : Forall stored (spool (sp_target p))) by by rewrite Pt.
  destruct (check_rows_ok _ _ _ _ Fs Cs) as [Qs Ks], (check_rows_ok _ _ _ _ Ft Ct) as [Qt Kt].
  assert (App : forall P, Forall P (spool (sp_source p)) -> Forall P (spool (sp_target p)) ->
    Forall P (ss_rows source ++ ss_rows target)).
  { intros P F1 F2. apply list.Forall_app. split; [by rewrite <- Ps|by rewrite <- Pt]. }
  split; [eauto|]. split; [by apply App|]. intros R. rewrite R in *.
  destruct (Ks eq_refl) as [Us Is], (Kt eq_refl) as [Ut It].
  destruct (Is Ss I) as [Is' _], (It St I) as [It' _].
  split; [by apply App|]. apply increasing_nodup in Is', It'.
  split; (eapply NoDup_perm; [by apply (Permutation_map key_of)|done]).
Qed.

(** The previewed counters are exact and data loss is announced: each
    table's counters are the decimal tallies of its snapshot rows, operations
    and expected rows, and a mirror or replacement carries a required risk,
    and one more for each mapped table it would empty. *)
Theorem plan_preview_exact p : build = Ok p ->
  let total t := tally t (ss_rows source) (ss_rows target) (mkDiff (sp_operations p) (spool (sp_expected p)) []) in
  pv_tables (sp_preview p) =
    map (fun m => mkTablePreview (vt_target_table m) (vt_source_table m) (vt_target_table m)
                    (ipc (total (vt_target_table m)))) (vm_tables mapping) /\
  (rq_mode request = Mirror \/ rq_mode request = Replace ->
     (exists message, mkRisk (u "destructive_write") message true ∈ pv_risks (sp_preview p)) /\
     forall m, m ∈ vm_tables mapping -> rows_of (vt_target_table m) (ss_rows source) = 0 ->
       0 < rows_of (vt_target_table m) (ss_rows target) ->
       exists message, mkRisk (u "empty_source:" ++ vt_target_table m) message true ∈ pv_risks (sp_preview p)).
Proof.
  intros (v & d & _ & _ & Ps & Pt & _ & _ & _ & _ & _ & _ & G & _ & Eo & Ee & _ & _ & _ & _ & Er & Et)%build_plan_inv.
  intros total. destruct Et as [Et _].
  assert (C : forall m, m ∈ vm_tables mapping -> counts_of (df_counts d) (vt_target_table m) = total (vt_target_table m)).
  { intros m Hm. rewrite (gd_counts _ _ _ _ _ G) by (apply initial_counts_keys, list_elem_of_fmap; eauto).
    rewrite initial_counts_zero. unfold total, tally. cbn [df_operations df_expected].
    rewrite (rows_of_perm _ _ _ Ps), (rows_of_perm _ _ _ Pt), (rows_of_perm _ _ _ Ee), Eo.
    unfold add_counts, zero_counts. cbn. f_equal; lia. }
  split.
  - rewrite Et. unfold table_previews. apply map_ext_in. intros m Hm%list_elem_of_In. by rewrite C.
  - intros M. rewrite Er. unfold risks.
    assert (X : is_mode (rq_mode request) Mirror || is_mode (rq_mode request) Replace = true).
    { by destruct M as [-> | ->]. }
    rewrite X. split.
    + eexists. rewrite !elem_of_app. right. left. left.
    + intros m Hm Es Ht. eexists. rewrite !elem_of_app. right. left. right.
      unfold empty_sources. apply list_elem_of_fmap.
      assert (Hc : (vt_target_table m, counts_of (df_counts d) (vt_target_table m)) ∈ df_counts d).
      { apply counts_of_elem. rewrite (gd_keys _ _ _ _ _ G). apply initial_counts_keys, list_elem_of_fmap. eauto. }
      exists (vt_target_table m, counts_of (df_counts d) (vt_target_table m)). split; [reflexivity|].
      apply list_elem_of_filter. split; [|exact Hc]. rewrite (C m Hm). unfold total, tally. cbn [n_source n_target].
      rewrite Es. cbn [Z.eqb andb]. by apply Z.ltb_lt.
Qed.
End BuildProofs.

(** Planning is total and exact on checked snapshots: on stored rows of
    counted tables, with increasing keys in a row sync, the merge returns
    operations which turn the target into what the mode promises, the expected
    rows are those, and each table's counters grow by the exact tallies. *)
Theorem diff_total kind mode s t counts :
  kind_mode_matches kind mode = true -> Forall stored s -> Forall stored t ->
  counted counts s -> counted counts t -> (kind = RowSync -> increasing s /\ increasing t) ->
  exists d, diff kind mode s t counts = Ok d /\
    execute (df_operations d) t ≡ₚ promised mode s t /\ df_expected d ≡ₚ promised mode s t /\
    forall k, k ∈ map fst counts -> counts_of (df_counts d) k = add_counts (counts_of counts k) (tally k s t d).
Proof.
  intros M Fs Ft Cs Ct I. destruct (diff_good kind mode s t counts M Fs Ft Cs Ct I) as (d & D & G & P).
  exists d. split_and!; [exact D|rewrite <- P; apply G|exact P|apply G].
Qed.

(** ** Witnesses *)

Definition pair_row (id : Z) (v : str) : CanonicalRow := mkRow (u "t") [VInt id] [VInt id; VText v].
Definition source_rows : Rows := [pair_row 2 (u "B"); pair_row 1 (u "A")].
Definition target_rows : Rows := [pair_row 3 (u "C"); pair_row 2 (u "old")].

Lemma pair_row_stored id v : 0 <= id <= 9 -> one_of v ["A"; "B"; "C"; "old"] = true -> stored (pair_row id v).
Proof.
  intros Hid Hv.
  assert (Ids : id ∈ [0; 1; 2; 3; 4; 5; 6; 7; 8; 9]).
  { rewrite !elem_of_cons. lia. }
  assert (V : v ∈ [u "A"; u "B"; u "C"; u "old"]).
  { unfold one_of in Hv. apply existsb_true_iff in Hv as (x & Hx & E). apply str_eqb_eq in E as ->.
    rewrite !elem_of_cons in Hx. destruct Hx as [->|[->|[->|[->|[]%elem_of_nil]]]]; rewrite !elem_of_cons; tauto. }
  assert (Wv : wf_str v).
  { rewrite !elem_of_cons in V. destruct V as [->|[->|[->|[->|[]%elem_of_nil]]]];
      (apply (bool_decide_unpack _); vm_compute; exact I). }
  assert (Wi : wf_value (VInt id)) by (cbn; unfold i64_range; lia).
  split; [|done|].
  - split; [apply (bool_decide_unpack (Forall _ _)); vm_compute; exact I|].
    split; [by constructor|]. constructor; [done|]. by constructor.
  - rewrite !elem_of_cons in Ids. rewrite !elem_of_cons in V.
    destruct V as [->|[->|[->|[->|[]%elem_of_nil]]]];
      destruct Ids as [->|[->|[->|[->|[->|[->|[->|[->|[->|[->|[]%elem_of_nil]]]]]]]]]];
      (eexists; split; [vm_compute; reflexivity|vm_compute; discriminate]).
Qed.

Lemma source_rows_stored : Forall stored source_rows.
Proof. constructor; [by apply pair_row_stored|]. constructor; [by apply pair_row_stored|constructor]. Qed.
Lemma target_rows_stored : Forall stored target_rows.
Proof. constructor; [by apply pair_row_stored|]. constructor; [by apply pair_row_stored|constructor]. Qed.

Definition pair_columns : list DataColumn :=
  [mkColumn (u "id") (u "INTEGER") false None false 1 None false true;
   mkColumn (u "v") (u "TEXT") true None false 0 None false true].
Definition pair_metadata : DataMetadataSnapshot :=
  mkMetadata Sqlite [mkTable (u "t") [] pair_columns [] false true] false true true true [] [].
Definition pair_request (mode : DataTaskMode) : DataTaskRequest :=
  mkRequest 1 RowSync (mkEndpoint (u "s") (u "main")) (mkEndpoint (u "t") (u "main"))
    [mkTableMapping (u "t") (u "t") [mkColumnMapping (u "id") (u "id"); mkColumnMapping (u "v") (u "v")]] mode.
Definition pair_mapping : ValidatedMapping :=
  mkValidated [mkValidatedTable (u "t") (u "t") [u "id"; u "v"] [u "id"; u "v"] [0%nat]] [u "t"] [u "t"].

(** A plan over plain stores, with toy encoders. *)
Definition plan_of (mode : DataTaskMode) (s t : Rows) : result StoredDataPlan str :=
  build_plan plain_write plain_write sample_layout small_budget (fun _ => fresh_counters false)
    (fun b => map (fun x => x mod 128) b) (fun m => Some (concat (vm_insert_order m))) (fun _ => Some [1]) (u "plan") 5
    (fun _ => false) (u "task") (pair_request mode) pair_mapping pair_metadata pair_metadata
    (mkCaptured s 1) (mkCaptured t 2) (mkCaptured t 2).

Definition plan_of_ok (mode : DataTaskMode) (s t : Rows) : bool := is_ok (plan_of mode s t).

Lemma sample_plan : exists p, plan_of Merge source_rows target_rows = Ok p.
Proof.
  assert (H : plan_of_ok Merge source_rows target_rows = true) by (vm_compute; reflexivity).
  unfold plan_of_ok in H. destruct (plan_of _ _ _) as [p|e]; [by exists p|done].
Qed.
Lemma empty_plan : exists p, plan_of Mirror [] target_rows = Ok p.
Proof.
  assert (H : plan_of_ok Mirror [] target_rows = true) by (vm_compute; reflexivity).
  unfold plan_of_ok in H. destruct (plan_of _ _ _) as [p|e]; [by exists p|done].
Qed.

Lemma target_rows_length : zlen target_rows <= u64_max.
Proof. vm_compute. discriminate. Qed.

Lemma plan_executes_witness : exists p, plan_of Merge source_rows target_rows = Ok p /\
  execute (sp_operations p) (spool (sp_target p)) ≡ₚ spool (sp_expected p).
Proof.
  destruct sample_plan as [p E]. exists p. split; [exact E|].
  exact (proj1 (plan_executes plain_write plain_write sample_layout small_budget _ _ _ _ _ _ _ _ _ _ _ _
    (mkCaptured source_rows 1) (mkCaptured target_rows 2) _ source_rows_stored target_rows_stored target_rows_length p E)).
Defined.

Lemma plan_checked_witness : exists p, plan_of Merge source_rows target_rows = Ok p /\
  NoDup (map key_of source_rows).
Proof.
  destruct sample_plan as [p E]. exists p. split; [exact E|].
  exact (proj1 (proj2 (proj2 (proj2 (plan_checked plain_write plain_write sample_layout small_budget _ _ _ _ _ _ _ _ _ _ _ _
    (mkCaptured source_rows 1) (mkCaptured target_rows 2) _ source_rows_stored target_rows_stored target_rows_length p E))
    eq_refl))).
Defined.

Lemma plan_preview_exact_witness : exists p, plan_of Mirror [] target_rows = Ok p /\
  exists message, mkRisk (u "empty_source:" ++ u "t") message true ∈ pv_risks (sp_preview p).
Proof.
  destruct empty_plan as [p E]. exists p. split; [exact E|].
  pose proof (proj2 (plan_preview_exact plain_write plain_write sample_layout small_budget _ _ _ _ _ _ _ _ _ _ _ _
    (mkCaptured [] 1) (mkCaptured target_rows 2) _ (List.Forall_nil _) target_rows_stored target_rows_length p E)
    (or_introl eq_refl)) as [_ H].
  refine (H (mkValidatedTable (u "t") (u "t") [u "id"; u "v"] [u "id"; u "v"] [0%nat]) _ _ _); [left|reflexivity|reflexivity].
Defined.

Lemma diff_total_witness : exists d,
  diff Transfer Append source_rows target_rows (initial_counts pair_mapping) = Ok d /\
  df_expected d ≡ₚ source_rows ++ target_rows.
Proof.
  assert (C : forall rows, forallb (fun r => str_eqb (table r) (u "t")) rows = true -> counted (initial_counts pair_mapping) rows).
  { intros rows H. apply list.Forall_forall. intros r Hr. rewrite forallb_true_iff in H. apply H, str_eqb_eq in Hr as ->.
    apply initial_counts_keys. left. }
  destruct (diff_total Transfer Append source_rows target_rows (initial_counts pair_mapping) eq_refl
    source_rows_stored target_rows_stored (C source_rows eq_refl) (C target_rows eq_refl) ltac:(discriminate)) as (d & D & _ & P & _).
  exists d. split; [exact D|exact P].
Defined.

End Plan.
