(* ===== verification/PlanApproval.v ===== *)
(** What approving a plan's fingerprint approves ([fingerprint] of
    src-tauri/src/db/data_tasks/plan.rs; the user confirms the fingerprint and
    the registry compares it before an execution starts): two plans with one
    fingerprint execute the same operations on the same snapshots, and the
    order of the request's mappings does not change it. *)
From S2P Require Import Prelude RustText DataTypes MetaTypes Values Spool SpoolSort TypeMapping Metadata Plan.
Import DataTypes MetaTypes Values Spool SpoolSort TypeMapping Metadata Plan.

Module PlanApproval.

(** ** Specification *)

(** The hash function does not collide on the given inputs. *)
Definition collision_free (hash : bytes -> str) (inputs : list bytes) : Prop :=
  forall x y, x ∈ inputs -> y ∈ inputs -> hash x = hash y -> x = y.

(** What is hashed for a plan: its spools and its encoded fingerprint. *)
Definition hashed (encode : FingerprintInput -> option bytes) (escapes : char -> bool) (p : StoredDataPlan) : list bytes :=
  map (fun s => digest_input (spool s)) [sp_source p; sp_target p; sp_target_full p; sp_expected p] ++
  match encode (fingerprint_input escapes p) with Some b => [b] | None => [] end.

(** Requests equal up to the order of tables, and of columns in a table. *)
Definition same_table_mapping (m m' : TableMapping) : Prop :=
  tm_source_table m = tm_source_table m' /\ tm_target_table m = tm_target_table m' /\ tm_columns m ≡ₚ tm_columns m'.
Definition same_request (r r' : DataTaskRequest) : Prop :=
  rq_protocol_version r = rq_protocol_version r' /\ rq_kind r = rq_kind r' /\ rq_source r = rq_source r' /\
  rq_target r = rq_target r' /\ rq_mode r = rq_mode r' /\
  exists ms, rq_mappings r ≡ₚ ms /\ Forall2 same_table_mapping ms (rq_mappings r').

(** ** Proofs *)

Lemma field_inj b1 b2 x y : u64_range (zlen b1) -> u64_range (zlen b2) ->
  field b1 ++ x = field b2 ++ y -> b1 = b2 /\ x = y.
Proof.
  intros R1 R2 E. rewrite !field_eq, <- !app_assoc in E.
  apply app_inj_1 in E as [L E].
  2:{ pose proof (be_bytes_length 8 (zlen b1)). pose proof (be_bytes_length 8 (zlen b2)). unfold zlen in *. lia. }
  apply (f_equal be_value) in L. rewrite !be_value_u64 in L by done.
  apply app_inj_1 in E as [-> ->]; [done|]. unfold zlen in L. lia.
Qed.

Lemma digest_input_inj l k : Forall stored l -> Forall stored k -> digest_input l = digest_input k -> l = k.
Proof.
  intros Fl. revert k. induction Fl as [|x l Sx Fl IH]; intros k Fk E.
  { destruct k as [|y k]; [done|]. exfalso. unfold digest_input in E. cbn [map concat] in E. rewrite <- field_eq in E.
    apply (f_equal zlen) in E. autorewrite with zlen in E. pose proof (zlen_nonneg (expect_bytes (canonical_bytes y))).
    pose proof (zlen_nonneg (concat (map (fun r => be_bytes 8 (zlen (expect_bytes (canonical_bytes r))) ++ expect_bytes (canonical_bytes r)) k))). lia. }
  destruct k as [|y k].
  { exfalso. unfold digest_input in E. cbn [map concat] in E. rewrite <- field_eq in E.
    apply (f_equal zlen) in E. autorewrite with zlen in E. pose proof (zlen_nonneg (expect_bytes (canonical_bytes x))).
    pose proof (zlen_nonneg (concat (map (fun r => be_bytes 8 (zlen (expect_bytes (canonical_bytes r))) ++ expect_bytes (canonical_bytes r)) l))). lia. }
  apply list.Forall_cons in Fk as [Sy Fk]. unfold digest_input in E. cbn [map concat] in E. rewrite <- !field_eq in E.
  destruct Sx as [Wx Nx (bx & Cx & Lx)] eqn:Qx, Sy as [Wy Ny (y' & Cy & Ly)] eqn:Qy.
  rewrite Cx, Cy in E. cbn [expect_bytes] in E. pose proof (zlen_nonneg bx). pose proof (zlen_nonneg y').
  apply field_inj in E as [-> E]; [|unfold u64_range, usize_max in *; lia..].
  f_equal; [|by apply IH]. apply (canonical_key x y y'); try done; by split; eauto.
Qed.

(** The operations do not depend on the counters. *)
Lemma emit_inv tb d ops expected counts k diff : emit tb d ops expected counts k = Ok diff ->
  exists m rest, k m = Ok rest /\ df_operations diff = ops ++ df_operations rest.
Proof.
  unfold emit. intros H. apply rbind_ok_inv in H as (m & _ & H). apply rbind_ok_inv in H as (rest & E & H).
  apply Ok_inj in H as <-. eauto.
Qed.

(** Two runs of one step, from any counters. *)
Lemma emit_same tb d d' ops expected expected' counts counts' k diff diff' :
  (forall m m' r r', k m = Ok r -> k m' = Ok r' -> df_operations r = df_operations r') ->
  emit tb d ops expected counts k = Ok diff -> emit tb d' ops expected' counts' k = Ok diff' ->
  df_operations diff = df_operations diff'.
Proof.
  intros K (m & r & E & ->)%emit_inv (m' & r' & E' & ->)%emit_inv. by rewrite (K m m' r r' E E').
Qed.

Lemma sync_loop_operations fuel mirror s t ti m m' d d' :
  sync_loop fuel mirror s t ti m = Ok d -> sync_loop fuel mirror s t ti m' = Ok d' ->
  df_operations d = df_operations d'.
Proof.
  revert s t ti m m' d d'. induction fuel as [|fuel IH]; intros s t ti m m' d d'; cbn [sync_loop].
  { by destruct s, t; intros H H'; inv_ok. }
  destruct s as [|r s], t as [|old t].
  - by intros ?%Ok_inj ?%Ok_inj; subst.
  - destruct mirror; apply emit_same; intros; by eapply IH.
  - apply emit_same; intros; by eapply IH.
  - destruct (key_bytes r) as [ks|]; [|done]. destruct (key_bytes old) as [kt|]; [|done]. cbn [rbind].
    destruct (lex Z.compare ks kt).
    + destruct (canonical_bytes r) as [x|]; [|done]. destruct (canonical_bytes old) as [y|]; [|done]. cbn [rbind].
      destruct (list_eqb x y); apply emit_same; intros; by eapply IH.
    + apply emit_same; intros; by eapply IH.
    + destruct mirror; apply emit_same; intros; by eapply IH.
Qed.

Lemma transfer_target_operations replace t ti m m' d d' :
  transfer_target replace t ti m = Ok d -> transfer_target replace t ti m' = Ok d' ->
  df_operations d = df_operations d'.
Proof.
  revert ti m m' d d'. induction t as [|r t IH]; intros ti m m' d d'; cbn [transfer_target].
  - by intros ?%Ok_inj ?%Ok_inj; subst.
  - destruct replace; apply emit_same; intros; by eapply IH.
Qed.
Lemma transfer_source_operations replace s t m m' d d' :
  transfer_source replace s t m = Ok d -> transfer_source replace s t m' = Ok d' ->
  df_operations d = df_operations d'.
Proof.
  revert m m' d d'. induction s as [|r s IH]; intros m m' d d'; cbn [transfer_source].
  - apply transfer_target_operations.
  - apply emit_same; intros; by eapply IH.
Qed.
Lemma diff_operations kind mode s t m m' d d' :
  diff kind mode s t m = Ok d -> diff kind mode s t m' = Ok d' -> df_operations d = df_operations d'.
Proof.
  unfold diff. destruct (is_kind kind RowSync); [apply sync_loop_operations|apply transfer_source_operations].
Qed.

(** Equal sorted requests. *)
Definition sort_mapping (m : TableMapping) : TableMapping :=
  mkTableMapping (tm_source_table m) (tm_target_table m) (sort_by (cmp_on cm_target_column str_cmp) (tm_columns m)).

Lemma sort_mapping_same l l' : map sort_mapping l = map sort_mapping l' -> Forall2 same_table_mapping l l'.
Proof.
  revert l'. induction l as [|m l IH]; intros [|m' l'] E; try done.
  cbn [map] in E. injection E as A1 A2 A3 E. constructor; [|by apply IH]. split_and!; try done.
  rewrite <- (sort_by_perm (cmp_on cm_target_column str_cmp) (tm_columns m)), A3. apply sort_by_perm.
Qed.

Lemma sort_request_same r r' : sort_request r = sort_request r' -> same_request r r'.
Proof.
  intros E. unfold sort_request in E. injection E as E1 E2 E3 E4 E5 E6. split_and!; try done.
  pose proof (sort_by_perm (cmp_on tm_target_table str_cmp) (rq_mappings r)) as P.
  pose proof (sort_by_perm (cmp_on tm_target_table str_cmp) (rq_mappings r')) as P'.
  destruct (Permutation.Permutation_Forall2 P' (List.Forall2_flip (sort_mapping_same _ _ E5))) as (ms & Pm & Fm).
  exists ms. split; [by rewrite <- P|by apply List.Forall2_flip in Fm].
Qed.

(** Metadata equal up to the order of tables. *)
Definition same_metadata (m m' : DataMetadataSnapshot) : Prop :=
  md_database_type m = md_database_type m' /\ md_tables m ≡ₚ md_tables m' /\
  md_read_only m = md_read_only m' /\ md_permissions_verified m = md_permissions_verified m' /\
  md_consistent_snapshot m = md_consistent_snapshot m' /\ md_protected_write m = md_protected_write m' /\
  md_schema_fingerprint m = md_schema_fingerprint m' /\
  md_configuration_fingerprint m = md_configuration_fingerprint m'.

Lemma same_metadata_sort escapes m m' : NoDup (map tb_name (md_tables m)) -> same_metadata m m' ->
  sort_metadata escapes m = sort_metadata escapes m'.
Proof.
  intros N (E1 & P & E2 & E3 & E4 & E5 & E6 & E7). unfold sort_metadata.
  by rewrite E1, E2, E3, E4, E5, E6, E7, (sort_by_on_perm tb_name str_cmp _ _ N P).
Qed.

Lemma same_mappings_refl l : Forall2 same_table_mapping l l.
Proof. induction l; constructor; [by split_and!|done]. Qed.

Lemma same_mappings_sorted l l' : Forall2 same_table_mapping l l' ->
  Forall (fun m => NoDup (map cm_target_column (tm_columns m))) l ->
  map tm_target_table l = map tm_target_table l' /\ map sort_mapping l = map sort_mapping l'.
Proof.
  induction 1 as [|m m' l l' (E1 & E2 & P) _ IH]; [done|]. intros [N F]%list.Forall_cons.
  destruct (IH F) as [T S]. cbn [map]. split; [by rewrite E2, T|].
  rewrite S. unfold sort_mapping at 1 3. by rewrite E1, E2, (sort_by_on_perm cm_target_column str_cmp _ _ N P).
Qed.

(** Sorting by target commutes with a pointwise relation of the mappings. *)
Lemma insert_by_same m m' l l' : same_table_mapping m m' -> Forall2 same_table_mapping l l' ->
  Forall2 same_table_mapping (insert_by (cmp_on tm_target_table str_cmp) m l) (insert_by (cmp_on tm_target_table str_cmp) m' l').
Proof.
  intros M F. induction F as [|x y l l' X F IH]; cbn [insert_by].
  { constructor; [exact M|constructor]. }
  pose proof M as (_ & E2 & _). pose proof X as (_ & X2 & _). unfold cmp_on in *. rewrite E2, X2.
  destruct (str_cmp _ _); (constructor; [done|]); [by constructor|by constructor|done].
Qed.
Lemma sort_by_same l l' : Forall2 same_table_mapping l l' ->
  Forall2 same_table_mapping (sort_by (cmp_on tm_target_table str_cmp) l) (sort_by (cmp_on tm_target_table str_cmp) l').
Proof. induction 1; cbn [sort_by]; [constructor|]. by apply insert_by_same. Qed.

Lemma same_request_sort r r' : valid_request r -> same_request r r' -> sort_request r = sort_request r'.
Proof.
  intros V (E1 & E2 & E3 & E4 & E5 & ms & P & F). unfold sort_request. rewrite E1, E2, E3, E4, E5. f_equal.
  rewrite (sort_by_on_perm tm_target_table str_cmp _ _ (vr_targets _ V) P).
  assert (Fn : Forall (fun m => NoDup (map cm_target_column (tm_columns m))) (sort_by (cmp_on tm_target_table str_cmp) ms)).
  { rewrite sort_by_perm, <- P. eapply list.Forall_impl; [exact (vr_tables _ V)|]. intros m Hm. apply Hm. }
  exact (proj2 (same_mappings_sorted _ _ (sort_by_same _ _ F) Fn)).
Qed.

(** ** Properties *)

Section Approval.
Context (write write_operations : Rows -> result Rows str) `{!SpoolStore write, !SpoolStore write_operations}.
Context (layout : Layout) (b : ResourceBudget).
Context (sha256_hex : bytes -> str) (encode_mapping : ValidatedMapping -> option bytes)
  (encode_fingerprint : FingerprintInput -> option bytes) (escapes : char -> bool).

(** serde_json writes different values differently. *)
Hypothesis encode_fingerprint_inj : forall x y e,
  encode_fingerprint x = Some e -> encode_fingerprint y = Some e -> x = y.

Abbreviation build counters id now task request mapping sm tm s t f :=
  (build_plan write write_operations layout b counters sha256_hex encode_mapping encode_fingerprint id now escapes
     task request mapping sm tm s t f) (only parsing).

Definition all_stored (s t f : Captured) : Prop :=
  Forall stored (ss_rows s) /\ Forall stored (ss_rows t) /\ Forall stored (ss_rows f) /\ zlen (ss_rows t) <= u64_max.

Lemma digested_inj x y inputs : collision_free sha256_hex inputs ->
  digest_input (spool x) ∈ inputs -> digest_input (spool y) ∈ inputs ->
  digested sha256_hex x -> digested sha256_hex y -> digest x = digest y -> spool x = spool y.
Proof.
  intros C Ix Iy [Fx Dx] [Fy Dy] E. apply digest_input_inj; [done..|]. apply C; [done..|congruence].
Qed.

(** C25: the fingerprint a user approves determines what is executed.  Two
    plans with one fingerprint, while the hash does not collide on what they
    hash, have the same request up to the order of mappings, the same
    normalised metadata and risks, the same rows in every snapshot and the
    same expected rows, and the same list of operations. *)
Theorem fingerprint_binds c1 id1 now1 task1 r1 m1 sm1 tm1 s1 t1 f1 p1 c2 id2 now2 task2 r2 m2 sm2 tm2 s2 t2 f2 p2 :
  build c1 id1 now1 task1 r1 m1 sm1 tm1 s1 t1 f1 = Ok p1 -> build c2 id2 now2 task2 r2 m2 sm2 tm2 s2 t2 f2 = Ok p2 ->
  all_stored s1 t1 f1 -> all_stored s2 t2 f2 ->
  collision_free sha256_hex (hashed encode_fingerprint escapes p1 ++ hashed encode_fingerprint escapes p2) ->
  pv_fingerprint (sp_preview p1) = pv_fingerprint (sp_preview p2) ->
  same_request r1 r2 /\ sort_metadata escapes sm1 = sort_metadata escapes sm2 /\
  sort_metadata escapes tm1 = sort_metadata escapes tm2 /\
  pv_risks (sp_preview p1) = pv_risks (sp_preview p2) /\
  ss_rows s1 ≡ₚ ss_rows s2 /\ ss_rows t1 ≡ₚ ss_rows t2 /\ ss_rows f1 ≡ₚ ss_rows f2 /\
  sp_operations p1 = sp_operations p2 /\ spool (sp_expected p1) = spool (sp_expected p2).
Proof.
  intros H1 H2 (Ss1 & St1 & Sf1 & L1) (Ss2 & St2 & Sf2 & L2) C E.
  apply build_plan_inv in H1 as (v1 & d1 & _ & _ & Ps1 & Pt1 & _ & _ & _ & _ & _ & D1 & _ & _ & Eo1 & _ & _ & Er1 & Em1 & En1 & _ & _ & F1 & Gs1 & Gt1 & Ge1 & Gf1); try done.
  apply build_plan_inv in H2 as (v2 & d2 & _ & _ & Ps2 & Pt2 & _ & _ & _ & _ & _ & D2 & _ & _ & Eo2 & _ & _ & Er2 & Em2 & En2 & _ & _ & F2 & Gs2 & Gt2 & Ge2 & Gf2); try done.
  destruct (Gf1 Sf1) as [Gff1 Pf1], (Gf2 Sf2) as [Gff2 Pf2].
  unfold fingerprint in F1, F2. apply rbind_ok_inv in F1 as (x & Hx & F1), F2 as (x0 & Hx0 & F2).
  apply ok_or_ok_inv in Hx, Hx0. apply Ok_inj in F1, F2. unfold hashed in C. rewrite Hx, Hx0 in C.
  assert (X : x = x0).
  { apply C; [..|congruence]; rewrite !elem_of_app; cbn [map]; set_solver. }
  subst x0. pose proof (encode_fingerprint_inj _ _ _ Hx Hx0) as I.
  apply pair_equal_spec in I as [I Irisks]. apply pair_equal_spec in I as [I Idig].
  apply pair_equal_spec in I as [I Itm]. apply pair_equal_spec in I as [Ireq Ism].
  injection Idig as Is It If Ie. rewrite Er1, Er2 in Ireq. rewrite Em1, Em2 in Ism. rewrite En1, En2 in Itm.
  pose proof (sort_request_same _ _ Ireq) as Rq.
  assert (In : forall x y, digested sha256_hex x -> digested sha256_hex y -> digest x = digest y ->
    x ∈ [sp_source p1; sp_target p1; sp_target_full p1; sp_expected p1] ->
    y ∈ [sp_source p2; sp_target p2; sp_target_full p2; sp_expected p2] -> spool x = spool y).
  { intros y z Dy Dz Eq Iy Iz. eapply digested_inj; [exact C|..]; try done; rewrite !elem_of_app.
    - left. left. by apply (list_elem_of_fmap_2 (fun s => digest_input (spool s))).
    - right. left. by apply (list_elem_of_fmap_2 (fun s => digest_input (spool s))). }
  assert (Es : spool (sp_source p1) = spool (sp_source p2)) by (apply In; try done; set_solver).
  assert (Et : spool (sp_target p1) = spool (sp_target p2)) by (apply In; try done; set_solver).
  assert (Ef : spool (sp_target_full p1) = spool (sp_target_full p2)) by (apply In; try done; set_solver).
  assert (Ee : spool (sp_expected p1) = spool (sp_expected p2)) by (apply In; try done; set_solver).
  split_and!; try done.
  - by rewrite <- Ps1, <- Ps2, Es.
  - by rewrite <- Pt1, <- Pt2, Et.
  - by rewrite <- Pf1, <- Pf2, Ef.
  - destruct Rq as (_ & Ek & _ & _ & Emd & _). rewrite Eo1, Eo2. rewrite Es, Et, Ek, Emd in D1.
    by eapply diff_operations.
Qed.
End Approval.

(** The fingerprint does not depend on the order in which a valid request
    lists its tables, or the columns of a table, nor on the order in which
    the metadata lists tables. *)
Theorem fingerprint_order_insensitive hash encode escapes p p' :
  valid_request (sp_request p) -> same_request (sp_request p) (sp_request p') ->
  NoDup (map tb_name (md_tables (sp_source_metadata p))) -> NoDup (map tb_name (md_tables (sp_target_metadata p))) ->
  same_metadata (sp_source_metadata p) (sp_source_metadata p') ->
  same_metadata (sp_target_metadata p) (sp_target_metadata p') ->
  map digest [sp_source p; sp_target p; sp_target_full p; sp_expected p] =
  map digest [sp_source p'; sp_target p'; sp_target_full p'; sp_expected p'] ->
  pv_risks (sp_preview p) = pv_risks (sp_preview p') ->
  fingerprint hash encode escapes p = fingerprint hash encode escapes p'.
Proof.
  intros V R Ns Nt Ms Mt D K. unfold fingerprint, fingerprint_input. cbn [map] in D. injection D as D1 D2 D3 D4.
  by rewrite (same_request_sort _ _ V R), (same_metadata_sort escapes _ _ Ns Ms), (same_metadata_sort escapes _ _ Nt Mt), D1, D2, D3, D4, K.
Qed.

(** ** Witnesses *)

#[export] Instance DataColumn_eq_dec : EqDecision DataColumn.
Proof. solve_decision. Defined.
#[export] Instance DataForeignKey_eq_dec : EqDecision DataForeignKey.
Proof. solve_decision. Defined.
#[export] Instance DataTable_eq_dec : EqDecision DataTable.
Proof. solve_decision. Defined.
#[export] Instance DataMetadataSnapshot_eq_dec : EqDecision DataMetadataSnapshot.
Proof. solve_decision. Defined.
#[export] Instance FingerprintInput_eq_dec : EqDecision FingerprintInput.
Proof. unfold FingerprintInput. apply _. Defined.

(** A hash function without collisions (the input itself), and an encoder of
    the request's source connection. *)
Definition toy_hash (b : bytes) : str := b.
Definition toy_encode (x : FingerprintInput) : option bytes :=
  let '(r, _, _, _, _) := x in Some (ep_saved_connection_id (rq_source r)).
Definition swap_mappings (r : DataTaskRequest) : DataTaskRequest :=
  mkRequest (rq_protocol_version r) (rq_kind r) (rq_source r) (rq_target r) (reverse (rq_mappings r)) (rq_mode r).
Definition tables_plan (r : DataTaskRequest) : StoredDataPlan :=
  mkPlan r sample_validated
    (make_preview (u "plan") 5 (u "task") r sample_validated 1 2 [] [] []) (mkSorted [] (u "a")) (mkSorted [] (u "b"))
    (mkSorted [] (u "c")) [] (mkSorted [] (u "d")) sample_endpoint sample_endpoint.

Lemma fingerprint_order_insensitive_witness :
  fingerprint toy_hash toy_encode (fun _ => false) (tables_plan sample_tables_request) =
  fingerprint toy_hash toy_encode (fun _ => false) (tables_plan (swap_mappings sample_tables_request)).
Proof.
  assert (V : valid_request sample_tables_request) by (apply validate_ok_iff; vm_compute; reflexivity).
  assert (N : NoDup (map tb_name (md_tables sample_endpoint))).
  { apply (bool_decide_eq_true_1 _). vm_compute. reflexivity. }
  refine (fingerprint_order_insensitive toy_hash toy_encode (fun _ => false) (tables_plan sample_tables_request)
    (tables_plan (swap_mappings sample_tables_request)) V _ N N _ _ eq_refl eq_refl).
  - split_and!; [reflexivity..|]. exists (reverse (rq_mappings sample_tables_request)).
    split; [symmetry; apply reverse_Permutation|]. apply same_mappings_refl.
  - by split_and!.
  - by split_and!.
Defined.

Lemma plan_stored s t : Forall stored s -> Forall stored t -> zlen t <= u64_max ->
  all_stored (mkCaptured s 1) (mkCaptured t 2) (mkCaptured t 2).
Proof. intros Fs Ft L. exact (conj Fs (conj Ft (conj Ft L))). Qed.

(** An encoder of one input, which is therefore injective, and a plan it encodes. *)
Definition only_encode (x0 x : FingerprintInput) : option bytes :=
  if decide (x = x0) then Some [1] else None.
Definition approved_plan (encode : FingerprintInput -> option bytes) : result StoredDataPlan str :=
  build_plan plain_write plain_write sample_layout small_budget (fun _ => fresh_counters false)
    toy_hash (fun m => Some (concat (vm_insert_order m))) encode (u "plan") 5
    (fun _ => false) (u "task") (pair_request Merge) pair_mapping pair_metadata pair_metadata
    (mkCaptured source_rows 1) (mkCaptured target_rows 2) (mkCaptured target_rows 2).
Definition approved_input : FingerprintInput :=
  match approved_plan (fun _ => Some [1]) with
  | Ok p => fingerprint_input (fun _ => false) p
  | Err _ => (pair_request Merge, pair_metadata, pair_metadata, [], [])
  end.

Lemma approved : exists p, approved_plan (only_encode approved_input) = Ok p.
Proof.
  assert (H : is_ok (approved_plan (only_encode approved_input)) = true) by (vm_compute; reflexivity).
  destruct (approved_plan _) as [p|e]; [by exists p|done].
Qed.

Lemma fingerprint_binds_witness : exists p, approved_plan (only_encode approved_input) = Ok p /\
  sp_operations p = sp_operations p.
Proof.
  destruct approved as [p E]. exists p. split; [exact E|].
  assert (J : forall x y e, only_encode approved_input x = Some e -> only_encode approved_input y = Some e -> x = y).
  { unfold only_encode. intros x y e Hx Hy. destruct (decide (x = approved_input)); [|done].
    destruct (decide (y = approved_input)); [congruence|done]. }
  assert (St : all_stored (mkCaptured source_rows 1) (mkCaptured target_rows 2) (mkCaptured target_rows 2)).
  { apply plan_stored; [exact source_rows_stored|exact target_rows_stored|exact target_rows_length]. }
  refine (proj1 (proj2 (proj2 (proj2 (proj2 (proj2 (proj2 (proj2 (fingerprint_binds plain_write plain_write
    sample_layout small_budget toy_hash (fun m => Some (concat (vm_insert_order m))) (only_encode approved_input)
    (fun _ => false) J _ _ _ _ _ _ _ _ _ _ _ p _ _ _ _ _ _ _ _ _ _ _ p E E St St _ eq_refl))))))))).
  by intros x y _ _ H.
Defined.

End PlanApproval.
