(* ===== verification/PlanPages.v ===== *)
(** Paging the differences of a plan ([StoredDataPlan::read_operation],
    [diff_page] and [value_preview] of src-tauri/src/db/data_tasks/plan.rs).

    A cursor over a spool is the rows it still has; the length of a serialised
    item and the decimal text of a float are parameters. *)
From S2P Require Import Prelude RustText DataTypes MetaTypes Values Spool SpoolSort TypeMapping Metadata Plan.
Import DataTypes MetaTypes Values Spool SpoolSort TypeMapping Metadata Plan.

Module PlanPages.

(** [cursor_at(index)?.next_row()?] *)
Definition row_at (rows : Rows) (index : Z) : result (option CanonicalRow) str :=
  if zlen rows <? index then Err (u "resource_limit: 快照游标越界")
  else Ok (rows !! Z.to_nat index).

(** [o.map(f).transpose()?] *)
Definition transpose {A B} (f : A -> result B str) (o : option A) : result (option B) str :=
  match o with Some x => let? y := f x in Ok (Some y) | None => Ok None end.

Definition read_operation (target : Rows) (row : CanonicalRow) : result Operation str :=
  let? op := from_row row in
  match op_kind op, key row !! 1%nat with
  | Update, Some (VUInt index) =>
    let? old := row_at target index in
    let? x := transpose key_bytes old in
    let? y := transpose key_bytes (op_new op) in
    if negb (bool_decide (x = y)) then Err (u "invalid_mapping: 差异定位失效")
    else Ok (mkOperation (op_kind op) old (op_new op))
  | _, _ => Ok op
  end.

(** [str::is_char_boundary] of the text with these bytes. *)
Definition is_char_boundary (b : bytes) (i : nat) : bool :=
  (i =? 0)%nat || match b !! i with Some x => negb (is_cont x) | None => (i =? length b)%nat end.

(** [while !text.is_char_boundary(end) { end -= 1 }]: stops at 0. *)
Fixpoint floor_boundary (b : bytes) (e : nat) : nat :=
  if is_char_boundary b e then e
  else match e with O => O | S e => floor_boundary b e end.

Section Pages.
(** [f64::to_string] of the bits, and the length of [serde_json::to_vec]. *)
Context (show_f64 : Z -> str) (json_size : DataDiffItem -> option Z).

Definition preview_parts (value : DataValue) : str * str * Z :=
  match value with
  | VNull => (u "null", u "NULL", 0)
  | VBool v => (u "bool", if v then u "true" else u "false", 1)
  | VInt v => (u "int", show_Z v, 8)
  | VUInt v => (u "uint", show_Z v, 8)
  | VDecimal v => (u "decimal", v, str_len v)
  | VFloat v => (u "float", show_f64 v, 8)
  | VText v => (u "text", v, str_len v)
  | VBinary v => (u "binary", concat (map hex_byte (take 128 v)), zlen v)
  | VTemporal _ v => (u "temporal", v, str_len v)
  | VUuid v => (u "uuid", concat (map hex_byte v), 16)
  | VJson v => (u "json", v, str_len v)
  end.

Definition value_preview (value : DataValue) : DataValuePreview :=
  let '(kind, text, len) := preview_parts value in
  let b := utf8 text in
  let e := floor_boundary b (Nat.min (length b) 256) in
  (* [text[..end]]: [end] is a boundary, so the slice is valid UTF-8. *)
  mkValuePreview kind (default [] (from_utf8 (take e b))) (show_Z len)
    ((Z.of_nat e <? zlen b) || (str_eqb kind (u "binary") && (128 <? len))).

(** The loop over the target columns; [i] indexes both rows' values. *)
Fixpoint column_changes (columns : list str) (i : nat) (old new : option CanonicalRow) : result (list DataColumnDiff) str :=
  match columns with
  | [] => Ok []
  | column :: columns =>
    let o := r ← old; values r !! i in
    let n := r ← new; values r !! i in
    let? x := transpose value_canonical_bytes o in
    let? y := transpose value_canonical_bytes n in
    let? rest := column_changes columns (S i) old new in
    Ok (if bool_decide (x = y) then rest
        else mkColumnDiff column (value_preview <$> o) (value_preview <$> n) :: rest)
  end.

Definition diff_item (columns : list str) (op : Operation) : result DataDiffItem str :=
  let? payload := ok_or (match op_new op with Some r => Some r | None => op_old op end) (u "invalid_mapping: 空差异操作") in
  let? changes := column_changes columns 0 (op_old op) (op_new op) in
  Ok (mkDiffItem (op_kind op) (map value_preview (key payload)) changes).

Definition page_bytes : Z := 1024 * 1024 - 4096.

(** The loop over the cursor: the items of the page and the position after it.
    [items] is what the page has so far and [bytes] their size. *)
Fixpoint page_loop (target : Rows) (table_id : str) (columns : list str) (page_size : Z)
  (rows : Rows) (position : Z) (items : list DataDiffItem) (bytes : Z) : result (list DataDiffItem * Z) str :=
  match rows with
  | [] => Ok (items, position)
  | row :: rows =>
    if negb (str_eqb (table row) table_id)
    then page_loop target table_id columns page_size rows (position + 1) items bytes
    else
      let? op := read_operation target row in
      let? item := diff_item columns op in
      let? size := ok_or (json_size item) (u "resource_limit: 差异分页编码失败") in
      if page_bytes <? size then Err (u "resource_limit: 单行差异字段数超过 IPC 预算")
      else if negb (is_empty items) && (page_bytes <? bytes + size) then Ok (items, position)
      else if zlen (items ++ [item]) =? page_size then Ok (items ++ [item], position + 1)
      else page_loop target table_id columns page_size rows (position + 1) (items ++ [item]) (bytes + size)
  end.

Definition diff_page (b : ResourceBudget) (c : Counters) (p : StoredDataPlan) (table_id : str)
  (cursor : option str) (page_size : Z) : result DataDiffPage str :=
  check? reserve_memory b (memory_bytes b / 2) c in
  if (page_size =? 0) || (200 <? page_size) then Err (u "resource_limit: 每页差异数量须在 1 至 200 之间")
  else
    let? mapping := ok_or (find_first (fun m => str_eqb (vt_target_table m) table_id) (vm_tables (sp_mapping p)))
                      (u "invalid_mapping: 差异表不存在") in
    let? start := match cursor with
                  | Some s => ok_or (parse_u64 s) (u "invalid_mapping: 差异游标无效")
                  | None => Ok 0
                  end in
    let count := zlen (sp_operations p) in
    if count <? start then Err (u "invalid_mapping: 差异游标越界")
    else
      let? (items, position) :=
        page_loop (spool (sp_target p)) table_id (vt_target_columns mapping) page_size
          (drop (Z.to_nat start) (sp_operations p)) start [] 0 in
      Ok (mkDiffPage (pv_plan_id (sp_preview p)) table_id items
            (if position <? count then Some (show_Z position) else None)).
End Pages.

(** ** Specification: all differences of a table *)

Section Spec.
Context (show_f64 : Z -> str) (json_size : DataDiffItem -> option Z).
Context (target : Rows) (table_id : str) (columns : list str).

Definition item_of (row : CanonicalRow) : result DataDiffItem str :=
  let? op := read_operation target row in diff_item show_f64 columns op.
Definition items_of (operations : Rows) : result (list DataDiffItem) str :=
  traverse item_of (filter (fun r => table r = table_id) operations).

(** Following the cursors from [cursor] on. *)
Fixpoint read_pages (b : ResourceBudget) (c : Counters) (p : StoredDataPlan) (fuel : nat) (cursor : option str)
  (page_size : Z) : result (list DataDiffItem) str :=
  match fuel with
  | O => Err out_of_fuel
  | S fuel =>
    let? page := diff_page show_f64 json_size b c p table_id cursor page_size in
    match dp_next_cursor page with
    | None => Ok (dp_items page)
    | Some next =>
      let? rest := read_pages b c p fuel (Some next) page_size in
      Ok (dp_items page ++ rest)
    end
  end.

(** The item can be sent. *)
Definition sendable (item : DataDiffItem) : Prop := exists size, json_size item = Some size /\ size <= page_bytes.

(** The page a user sees respects the limits of the protocol. *)
Definition total_size (items : list DataDiffItem) : Z := fold_right (fun i n => default 0 (json_size i) + n) 0 items.
End Spec.

(** ** Proofs *)

Lemma traverse_app {A B} (f : A -> result B str) l k x y :
  traverse f l = Ok x -> traverse f k = Ok y -> traverse f (l ++ k) = Ok (x ++ y).
Proof.
  revert x. induction l as [|a l IH]; intros x; cbn [traverse app].
  - by intros <-%Ok_inj.
  - intros H K. apply rbind_ok_inv in H as (b & -> & H). apply rbind_ok_inv in H as (bs & E & H).
    apply Ok_inj in H as <-. cbn [rbind]. by rewrite (IH _ E K).
Qed.
Lemma traverse_app_inv {A B} (f : A -> result B str) l k z :
  traverse f (l ++ k) = Ok z -> exists x y, traverse f l = Ok x /\ traverse f k = Ok y /\ z = x ++ y.
Proof.
  revert z. induction l as [|a l IH]; intros z; cbn [traverse app].
  - intros H. by exists [], z.
  - intros H. apply rbind_ok_inv in H as (b & -> & H). apply rbind_ok_inv in H as (bs & E & H).
    apply Ok_inj in H as <-. destruct (IH _ E) as (x & y & -> & -> & ->). by exists (b :: x), y.
Qed.

Lemma total_size_app json l k : total_size json (l ++ k) = total_size json l + total_size json k.
Proof. unfold total_size in *. induction l as [|i l IH]; cbn [app fold_right]; [done|]. rewrite IH. lia. Qed.

Section PageProofs.
Context (show_f64 : Z -> str) (json_size : DataDiffItem -> option Z).
Context (target : Rows) (table_id : str) (columns : list str).

Abbreviation item_of' := (item_of show_f64 target columns) (only parsing).
Abbreviation items_of' := (items_of show_f64 target table_id columns) (only parsing).

Lemma items_of_split ops n all : items_of' ops = Ok all ->
  exists l r, items_of' (take n ops) = Ok l /\ items_of' (drop n ops) = Ok r /\ all = l ++ r.
Proof.
  intros H. rewrite <- (take_drop n ops) in H. unfold items_of in *. rewrite filter_app in H.
  by apply traverse_app_inv in H.
Qed.

Lemma page_loop_spec page_size rows position items bytes all :
  zlen items < page_size -> bytes = total_size json_size items -> bytes <= page_bytes ->
  items_of' rows = Ok all -> Forall (sendable json_size) all ->
  exists n l, (n <= length rows)%nat /\
    page_loop show_f64 json_size target table_id columns page_size rows position items bytes =
      Ok (items ++ l, position + Z.of_nat n) /\
    items_of' (take n rows) = Ok l /\ (items = [] -> rows <> [] -> (1 <= n)%nat) /\
    zlen (items ++ l) <= page_size /\ total_size json_size (items ++ l) <= page_bytes.
Proof.
  intros L Eb Bb. revert position items bytes all L Eb Bb.
  induction rows as [|row rows IH]; intros position items bytes all L Eb Bb A S.
  { exists 0%nat, []. cbn [page_loop length take]. rewrite app_nil_r, Z.add_0_r. split_and!; try done; lia. }
  unfold items_of in A. rewrite filter_cons in A. cbn [page_loop]. unfold str_eqb.
  destruct (decide (table row = table_id)) as [T|T].
  2:{ rewrite bool_decide_eq_false_2 by done. cbn [negb].
      destruct (IH (position + 1) items bytes all L Eb Bb A S) as (n & l & Hn & -> & E & _ & R).
      exists (Datatypes.S n), l. split; [cbn; lia|]. split; [do 2 f_equal; lia|]. split.
      - unfold items_of. cbn [take]. rewrite filter_cons. by destruct (decide _).
      - split; [lia|done]. }
  rewrite bool_decide_eq_true_2 by done. cbn [negb]. cbn [traverse] in A.
  apply rbind_ok_inv in A as (item & Hi & A). apply rbind_ok_inv in A as (rest & Hr & A). apply Ok_inj in A as <-.
  apply list.Forall_cons in S as [(size & Hs & Ls) S].
  assert (Hi' := Hi). unfold item_of in Hi'. apply rbind_ok_inv in Hi' as (op & -> & Hi'). cbn [rbind].
  rewrite Hi'. cbn [rbind]. rewrite Hs. cbn [ok_or rbind]. rewrite (proj2 (Z.ltb_ge _ _)) by done.
  assert (Th : forall n l, items_of' (take n rows) = Ok l -> items_of' (take (Datatypes.S n) (row :: rows)) = Ok (item :: l)).
  { intros n l E. unfold items_of in *. cbn [take]. rewrite filter_cons. destruct (decide _); [|done].
    cbn [traverse]. rewrite Hi. cbn [rbind]. by rewrite E. }
  assert (Ts : total_size json_size (items ++ [item]) = bytes + size).
  { rewrite total_size_app, Eb. cbn. rewrite Hs. cbn. lia. }
  destruct (negb (is_empty items) && (page_bytes <? bytes + size)) eqn:Full.
  { to_prop. exists 0%nat, []. rewrite app_nil_r, Z.add_0_r. split_and!; try done; try lia. by intros ->. }
  assert (Bs : bytes + size <= page_bytes).
  { apply andb_false_iff in Full as [Full|Full]; to_prop; [|done].
    destruct items; [|done]. cbn in Eb. lia. }
  destruct (zlen (items ++ [item]) =? page_size) eqn:Last.
  { to_prop. exists 1%nat, [item]. split_and!; try done; [cbn; lia|by apply (Th 0%nat [])|lia..]. }
  to_prop. rewrite zlen_app in Last. change (zlen [item]) with 1 in Last.
  destruct (IH (position + 1) (items ++ [item]) (bytes + size) rest) as (n & l & Hn & -> & E & _ & R1 & R2); try done.
  { rewrite zlen_app. change (zlen [item]) with 1. lia. }
  exists (Datatypes.S n), (item :: l). rewrite <- app_assoc in *. cbn [app] in *.
  split_and!; try done; [cbn; lia|do 2 f_equal; lia|by apply Th|lia].
Qed.
(** ** Reading planned operations *)

Lemma row_at_index t i r : at_index t 0 i r -> row_at t i = Ok (Some r).
Proof.
  intros [P E]. rewrite Z.sub_0_r in E. pose proof (lookup_lt_Some _ _ _ E) as L. unfold row_at, zlen.
  rewrite (proj2 (Z.ltb_ge _ _)) by lia. by rewrite E.
Qed.

(** What reading an operation returns, by its kind. *)
Definition reads_as (s t : Rows) (op : Operation) : Prop :=
  match op_kind op with
  | Insert => op_old op = None /\ exists r, op_new op = Some r /\ r ∈ s
  | Update => exists old r, op_old op = Some old /\ old ∈ t /\ op_new op = Some r /\ r ∈ s /\ key_of old = key_of r
  | _ => op_new op = None /\ exists old, op_old op = Some old /\ old ∈ t
  end.

Lemma read_operation_ok s t o : Forall stored s -> Forall stored t -> op_ok s t 0 o ->
  exists op, read_operation t o = Ok op /\ reads_as s t op.
Proof.
  intros Fs Ft (kind & r & i & -> & H). unfold read_operation. rewrite operation_round_trip. cbn [rbind].
  rewrite list.Forall_forall in Fs, Ft.
  destruct kind; cbn [op_kind op_new op_old].
  - eexists. split; [reflexivity|]. split; [done|]. exists r. by destruct H.
  - destruct H as (Hr & old & A & K). cbn [operation_row key lookup list_lookup]. rewrite (row_at_index _ _ _ A). cbn [rbind transpose].
    pose proof (list_elem_of_lookup_2 _ _ _ (proj2 A)) as Ho.
    destruct (stored_key old (Ft _ Ho)) as (-> & _), (stored_key r (Fs _ Hr)) as (-> & _). cbn [rbind].
    rewrite bool_decide_eq_true_2 by by rewrite K. cbn [negb]. eexists. split; [reflexivity|]. exists old, r. done.
  - eexists. split; [reflexivity|]. split; [done|]. exists r. split; [done|]. by eapply list_elem_of_lookup_2, (proj2 H).
  - eexists. split; [reflexivity|]. split; [done|]. exists r. split; [done|]. by eapply list_elem_of_lookup_2, (proj2 H).
Qed.

Definition stored_opt (o : option CanonicalRow) : Prop := match o with Some r => stored r | None => True end.

Lemma transpose_values (o : option CanonicalRow) i : stored_opt o ->
  exists x, transpose value_canonical_bytes (r ← o; values r !! i) = Ok x.
Proof.
  intros S. destruct o as [r|]; cbn [mbind option_bind]; [|by eexists].
  destruct (values r !! i) as [v|] eqn:E; [|by eexists].
  destruct (stored_value r v S) as (x & X & _); [apply elem_of_app; right; by eapply list_elem_of_lookup_2|].
  cbn [transpose]. rewrite X. cbn [rbind]. by eexists.
Qed.

Lemma column_changes_total cs i old new : stored_opt old -> stored_opt new ->
  exists l, column_changes show_f64 cs i old new = Ok l.
Proof.
  intros So Sn. revert i. induction cs as [|c cs IH]; intros i; cbn [column_changes]; [by eexists|].
  destruct (transpose_values old i So) as [x ->], (transpose_values new i Sn) as [y ->]. cbn [rbind].
  destruct (IH (S i)) as [l ->]. cbn [rbind]. by eexists.
Qed.

Lemma items_total s ops : Forall stored s -> Forall stored target -> Forall (op_ok s target 0) ops ->
  exists all, items_of' ops = Ok all.
Proof.
  intros Fs Ft F. unfold items_of.
  assert (F' : Forall (op_ok s target 0) (filter (fun r => table r = table_id) ops)).
  { rewrite list.Forall_forall in *. intros o [_ Ho]%list_elem_of_filter. auto. }
  induction F' as [|o l Ho _ IH]; cbn [traverse]; [by eexists|].
  assert (X : exists item, item_of' o = Ok item).
  { unfold item_of. destruct (read_operation_ok s target o Fs Ft Ho) as (op & -> & R). cbn [rbind]. unfold diff_item.
    rewrite list.Forall_forall in Fs, Ft.
    assert (P : stored_opt (op_old op) /\ stored_opt (op_new op) /\
      exists r, (match op_new op with Some r => Some r | None => op_old op end) = Some r).
    { unfold reads_as in R. destruct (op_kind op).
      - destruct R as (-> & r & -> & Hr). split_and!; [done|by apply Fs|by eexists].
      - destruct R as (old & r & -> & Hold & -> & Hr & _). split_and!; [by apply Ft|by apply Fs|by eexists].
      - destruct R as (-> & r & -> & Hr). split_and!; [by apply Ft|done|by eexists].
      - destruct R as (-> & r & -> & Hr). split_and!; [by apply Ft|done|by eexists]. }
    destruct P as (So & Sn & r & ->). cbn [ok_or rbind].
    destruct (column_changes_total columns 0 _ _ So Sn) as [l' ->]. cbn [rbind]. by eexists. }
  destruct X as [item ->], IH as [rest ->]. cbn [rbind]. by eexists.
Qed.
End PageProofs.

(** ** Character boundaries *)

(** The first byte of a character is no continuation byte, the others are. *)
Lemma utf8_char_shape c : is_scalar c = true ->
  exists x rest, utf8_char c = x :: rest /\ is_cont x = false /\ Forall (fun y => is_cont y = true) rest.
Proof.
  intros Hc. pose proof (is_scalar_range c Hc). unfold utf8_char.
  destruct (c <? 0x80) eqn:E1; [|destruct (c <? 0x800) eqn:E2; [|destruct (c <? 0x10000) eqn:E3]];
    to_prop; utf8_arith c; eexists _, _; (split; [reflexivity|]);
    (split; [apply andb_false_iff; rewrite Z.leb_gt, Z.leb_gt; lia|]);
    repeat (constructor; [solve_test|]); constructor.
Qed.

Lemma boundary_at d r : wf_str r -> is_char_boundary (utf8 (d ++ r)) (length (utf8 d)) = true.
Proof.
  intros W. unfold is_char_boundary. apply orb_true_iff. right. rewrite utf8_app, lookup_app_r, Nat.sub_diag by lia.
  destruct r as [|c r]; [rewrite app_nil_r; apply Nat.eqb_refl|]. apply list.Forall_cons in W as [Hc _].
  destruct (utf8_char_shape c Hc) as (x & rest & E & Nx & _). rewrite utf8_cons, E. cbn. by rewrite Nx.
Qed.

Lemma boundary_inv s i : wf_str s -> is_char_boundary (utf8 s) i = true ->
  exists d r, s = d ++ r /\ i = length (utf8 d).
Proof.
  intros W. revert i. induction W as [|c s Hc W IH]; intros i H.
  { exists [], []. split; [done|]. unfold is_char_boundary in H. by destruct i. }
  destruct (decide (i = 0%nat)) as [->|Ni]; [by exists [], (c :: s)|].
  destruct (utf8_char_shape c Hc) as (x & rest & E & _ & Fr).
  destruct (decide (i < length (utf8_char c))%nat) as [L|L].
  - exfalso. unfold is_char_boundary in H. rewrite (proj2 (Nat.eqb_neq i 0) Ni) in H. cbn [orb] in H.
    rewrite utf8_cons, lookup_app_l in H by done. rewrite E in H, L. destruct i as [|i]; [done|]. cbn in L.
    change ((x :: rest) !! S i) with (rest !! i) in H.
    destruct (lookup_lt_is_Some_2 rest i) as [y Hy]; [lia|]. rewrite Hy in H.
    rewrite list.Forall_lookup in Fr. by rewrite (Fr _ _ Hy) in H.
  - destruct (IH (i - length (utf8_char c))%nat) as (d & r & -> & Ei).
    + unfold is_char_boundary in H |- *. rewrite (proj2 (Nat.eqb_neq i 0) Ni) in H. cbn [orb] in H.
      rewrite utf8_cons, lookup_app_r in H by lia. apply orb_true_iff. right.
      destruct (utf8 s !! _); [done|]. rewrite length_app in H. to_prop. apply Nat.eqb_eq in H. apply Nat.eqb_eq. lia.
    + exists (c :: d), r. split; [done|]. rewrite utf8_cons, length_app. lia.
Qed.

Lemma floor_boundary_spec b e : let r := floor_boundary b e in
  is_char_boundary b r = true /\ (r <= e)%nat /\ forall i, (r < i <= e)%nat -> is_char_boundary b i = false.
Proof.
  induction e as [|e IH]; cbn [floor_boundary].
  - destruct (is_char_boundary b 0) eqn:E; [|done]. split_and!; [done|lia|lia].
  - destruct (is_char_boundary b (S e)) eqn:E; [split_and!; [done|lia|lia]|].
    destruct IH as (B & L & M). split_and!; [done|lia|]. intros i Hi.
    destruct (decide (i = S e)) as [->|]; [done|]. apply M. lia.
Qed.

(** ** Properties *)

(** A previewed value shows the longest prefix of its text that has at
    most 256 bytes, cut between characters, and says whether something is
    missing: [truncated] exactly when the text goes on, or when a binary value
    has more than the 128 bytes shown; the original length is kept. *)
Theorem value_preview_prefix show_f64 v kind text len :
  preview_parts show_f64 v = (kind, text, len) -> wf_str text ->
  let pv := value_preview show_f64 v in
  exists rest, text = vp_display pv ++ rest /\ str_len (vp_display pv) <= 256 /\
    (forall c more, rest = c :: more -> 256 < str_len (vp_display pv ++ [c])) /\
    vp_truncated pv = (negb (is_empty rest) || (str_eqb kind (u "binary") && (128 <? len))) /\
    vp_value_type pv = kind /\ vp_original_bytes pv = show_Z len.
Proof.
  intros E W pv. unfold pv, value_preview. rewrite E. cbn [vp_display vp_truncated vp_value_type vp_original_bytes].
  destruct (floor_boundary_spec (utf8 text) (Nat.min (length (utf8 text)) 256)) as (B & L & M).
  destruct (boundary_inv text _ W B) as (d & r & Et & El). set (e := floor_boundary _ _) in *.
  assert (T : from_utf8 (take e (utf8 text)) = Some d).
  { rewrite Et, utf8_app, El, take_app_length. apply from_utf8_utf8. rewrite Et in W. apply list.Forall_app in W as [Wd _]. exact Wd. }
  rewrite T. change (default [] (Some d)) with d. exists r. split; [done|]. split; [unfold str_len, zlen; lia|]. split; [|split; [|done]].
  - intros c more ->. destruct (decide (str_len (d ++ [c]) <= 256)) as [X|]; [exfalso|lia].
    assert (Y : text = (d ++ [c]) ++ more) by by rewrite <- app_assoc.
    pose proof (str_len_app d [c]) as A1. pose proof (utf8_char_length c) as A2. rewrite (str_len_cons c []) in A1.
    change (str_len []) with 0 in A1.
    assert (Z1 : is_char_boundary (utf8 text) (length (utf8 (d ++ [c]))) = false).
    { apply M. assert (Lt : (length (utf8 text) = length (utf8 (d ++ [c])) + length (utf8 more))%nat).
      { by rewrite Y, (utf8_app (d ++ [c]) more), length_app. }
      unfold str_len, zlen in *. lia. }
    rewrite Y, boundary_at in Z1; [done|]. rewrite Y in W. apply list.Forall_app in W as [_ Wm]. exact Wm.
  - f_equal. rewrite Et, utf8_app, zlen_app. destruct r as [|c r]; cbn [is_empty negb].
    + apply Z.ltb_ge. change (zlen (utf8 [])) with 0. unfold zlen. lia.
    + apply Z.ltb_lt. rewrite utf8_cons, zlen_app. pose proof (utf8_char_length c). pose proof (zlen_nonneg (utf8 r)).
      unfold zlen in *. lia.
Qed.

Section PagesOf.
Context (show_f64 : Z -> str) (json_size : DataDiffItem -> option Z).
Context (b : ResourceBudget) (c : Counters) (p : StoredDataPlan) (table_id : str) (page_size : Z) (mapping : ValidatedTableMapping).
Hypothesis memory : exists c1, reserve_memory b (memory_bytes b / 2) c = Ok c1.
Hypothesis size : 1 <= page_size <= 200.
Hypothesis mapped : find_first (fun m => str_eqb (vt_target_table m) table_id) (vm_tables (sp_mapping p)) = Some mapping.
Hypothesis count : zlen (sp_operations p) <= u64_max.

Abbreviation all_items := (items_of show_f64 (spool (sp_target p)) table_id (vt_target_columns mapping)) (only parsing).
Abbreviation page cursor := (diff_page show_f64 json_size b c p table_id cursor page_size) (only parsing).

(** The position a cursor stands for. *)
Definition cursor_start (cursor : option str) (n : nat) : Prop :=
  match cursor with Some s => parse_u64 s = Some (Z.of_nat n) | None => n = 0%nat end.

Lemma diff_page_spec cursor n all : cursor_start cursor n -> (n <= length (sp_operations p))%nat ->
  all_items (drop n (sp_operations p)) = Ok all -> Forall (sendable json_size) all ->
  exists k items rest, page cursor = Ok (mkDiffPage (pv_plan_id (sp_preview p)) table_id items
      (if Z.of_nat (n + k) <? zlen (sp_operations p) then Some (show_Z (Z.of_nat (n + k))) else None)) /\
    (n + k <= length (sp_operations p))%nat /\ (drop n (sp_operations p) <> [] -> (1 <= k)%nat) /\
    all = items ++ rest /\ all_items (drop (n + k) (sp_operations p)) = Ok rest /\
    zlen items <= page_size /\ total_size json_size items <= page_bytes.
Proof.
  intros Cu Hn A S. destruct memory as [c1 M]. unfold diff_page. rewrite M. cbn [rbind].
  rewrite (proj2 (orb_false_iff _ _)) by (split; [apply Z.eqb_neq|apply Z.ltb_ge]; lia).
  rewrite mapped. cbn [ok_or rbind].
  assert (E : (match cursor with Some s => ok_or (parse_u64 s) (u "invalid_mapping: 差异游标无效") | None => Ok 0 end) = Ok (Z.of_nat n)).
  { destruct cursor as [s|]; unfold cursor_start in Cu; [by rewrite Cu|by rewrite Cu]. }
  rewrite E. cbn [rbind]. rewrite (proj2 (Z.ltb_ge _ _)) by (unfold zlen; lia). rewrite Nat2Z.id.
  destruct (page_loop_spec show_f64 json_size (spool (sp_target p)) table_id (vt_target_columns mapping) page_size
    (drop n (sp_operations p)) (Z.of_nat n) [] 0 all) as (k & l & Hk & -> & El & Pr & L1 & L2); try done.
  { rewrite zlen_nil. lia. }
  cbn [app] in *. cbn [rbind]. rewrite length_drop in Hk.
  destruct (items_of_split _ _ _ _ _ k _ A) as (l' & r & El' & Er & ->). rewrite El in El'. apply Ok_inj in El' as <-.
  exists k, l, r. rewrite Nat2Z.inj_add. split; [done|]. split; [lia|]. split; [auto|]. split; [done|].
  split; [by rewrite drop_drop in Er|done].
Qed.

Lemma read_pages_spec fuel cursor n all : cursor_start cursor n -> (n <= length (sp_operations p))%nat ->
  (length (sp_operations p) - n < fuel)%nat ->
  all_items (drop n (sp_operations p)) = Ok all -> Forall (sendable json_size) all ->
  read_pages show_f64 json_size table_id b c p fuel cursor page_size = Ok all.
Proof.
  revert cursor n all. induction fuel as [|fuel IH]; intros cursor n all Cu Hn F A S; [lia|]. cbn [read_pages].
  destruct (diff_page_spec cursor n all Cu Hn A S) as (k & items & rest & -> & Hk & Pr & -> & Er & _).
  cbn [rbind dp_next_cursor dp_items]. destruct (Z.of_nat (n + k) <? zlen (sp_operations p)) eqn:E; to_prop.
  - assert (Sk : (1 <= k)%nat).
    { apply Pr. intros D. apply (f_equal length) in D. rewrite length_drop in D. cbn in D. unfold zlen in E. lia. }
    rewrite (IH _ (n + k)%nat rest); [done| |done|lia|done|by apply list.Forall_app in S as [_ S]].
    apply parse_u64_show. split; [lia|]. unfold zlen in *. lia.
  - unfold zlen in E. rewrite drop_ge in Er by lia. apply Ok_inj in Er as <-. by rewrite app_nil_r.
Qed.

(** Paging a plan's differences shows all of them: following the cursors
    of [diff_page] returns exactly the table's items, each once and in order,
    in at most one page per operation and one more; and no page exceeds its
    row limit or the byte limit of the protocol, from any valid cursor. *)
Theorem pages_complete :
  Forall stored (spool (sp_source p)) -> Forall stored (spool (sp_target p)) ->
  Forall (op_ok (spool (sp_source p)) (spool (sp_target p)) 0) (sp_operations p) ->
  exists all, all_items (sp_operations p) = Ok all /\
    (Forall (sendable json_size) all ->
     read_pages show_f64 json_size table_id b c p (S (length (sp_operations p))) None page_size = Ok all /\
     forall cursor n, cursor_start cursor n -> (n <= length (sp_operations p))%nat ->
       exists pg, page cursor = Ok pg /\ zlen (dp_items pg) <= page_size /\ total_size json_size (dp_items pg) <= page_bytes).
Proof.
  intros Fs Ft F. destruct (items_total show_f64 (spool (sp_target p)) table_id (vt_target_columns mapping) _ _ Fs Ft F) as (all & A).
  exists all. split; [exact A|]. intros S. split.
  - apply (read_pages_spec _ None 0); [done|lia|lia|done|done].
  - intros cursor n Cu Hn. destruct (items_of_split _ _ _ _ _ n _ A) as (l & r & _ & Er & ->).
    apply list.Forall_app in S as [_ S].
    destruct (diff_page_spec cursor n r Cu Hn Er S) as (k & items & rest & -> & _ & _ & _ & _ & L1 & L2). eauto.
Qed.
End PagesOf.

(** ** Witnesses *)

Definition paged_plan : StoredDataPlan :=
  mkPlan (pair_request Merge) pair_mapping
    (make_preview (u "plan") 5 (u "task") (pair_request Merge) pair_mapping 1 2 [] [] [])
    (mkSorted [pair_row 1 (u "A"); pair_row 2 (u "B")] []) (mkSorted [pair_row 2 (u "old"); pair_row 3 (u "C")] [])
    (mkSorted [] [])
    [operation_row Insert (pair_row 1 (u "A")) u64_max; operation_row Update (pair_row 2 (u "B")) 0;
     operation_row Retain (pair_row 3 (u "C")) 1]
    (mkSorted [] []) pair_metadata pair_metadata.

Lemma pages_complete_witness : exists all,
  read_pages (fun _ => []) (fun _ => Some 100) (u "t") small_budget (fresh_counters false) paged_plan 4 None 2 = Ok all /\
  length all = 3%nat.
Proof.
  assert (M : exists c1, reserve_memory small_budget (memory_bytes small_budget / 2) (fresh_counters false) = Ok c1).
  { eexists. vm_compute. reflexivity. }
  assert (C : zlen (sp_operations paged_plan) <= u64_max) by (vm_compute; discriminate).
  assert (Fs : Forall stored (spool (sp_source paged_plan))).
  { constructor; [by apply pair_row_stored|]. constructor; [by apply pair_row_stored|constructor]. }
  assert (Ft : Forall stored (spool (sp_target paged_plan))).
  { constructor; [by apply pair_row_stored|]. constructor; [by apply pair_row_stored|constructor]. }
  assert (F : Forall (op_ok (spool (sp_source paged_plan)) (spool (sp_target paged_plan)) 0) (sp_operations paged_plan)).
  { constructor; [|constructor; [|constructor; [|constructor]]].
    - exists Insert, (pair_row 1 (u "A")), u64_max. split; [reflexivity|]. split; [left|reflexivity].
    - exists Update, (pair_row 2 (u "B")), 0. split; [reflexivity|]. split; [right; left|].
      exists (pair_row 2 (u "old")). split; [apply at_index_head|]. vm_compute. reflexivity.
    - exists Retain, (pair_row 3 (u "C")), 1. split; [reflexivity|]. split; [lia|reflexivity]. }
  destruct (pages_complete (fun _ => []) (fun _ => Some 100) small_budget (fresh_counters false) paged_plan (u "t") 2
    (mkValidatedTable (u "t") (u "t") [u "id"; u "v"] [u "id"; u "v"] [0%nat]) M ltac:(lia) eq_refl C Fs Ft F)
    as (all & A & R).
  assert (S : Forall (sendable (fun _ => Some 100)) all).
  { apply list.Forall_forall. intros i _. exists 100. split; [reflexivity|]. unfold page_bytes. lia. }
  exists all. split; [exact (proj1 (R S))|]. clear R S. vm_compute in A. apply Ok_inj in A. subst all. reflexivity.
Defined.

Lemma value_preview_prefix_witness :
  vp_truncated (value_preview (fun _ => []) (VText (u "text"))) = false.
Proof.
  destruct (value_preview_prefix (fun _ => []) (VText (u "text")) (u "text") (u "text") 4 eq_refl) as (r & Er & _ & _ & T & _).
  { apply (bool_decide_unpack _). vm_compute. exact I. }
  assert (r = []) as ->.
  { apply (f_equal length) in Er. rewrite length_app in Er. vm_compute in Er. destruct r; [reflexivity|discriminate Er]. }
  exact T.
Defined.

End PlanPages.
