(* ===== verification/SqlDialect.v ===== *)
(** The SQL dialects of the connections (src-tauri/src/db/dialect.rs): quoting
    of identifiers and literals, the paginated and counting queries, and the
    guard that decides which statements the editor may send over a read-only
    connection, with the scanners it uses for WITH statements.

    The scanners work on the UTF-8 bytes of the upper-cased text, by index, as
    the source does. *)
From S2P Require Import Prelude RustText.

Module SqlDialect.

Inductive Engine : Type := MySqlDialect | PostgresDialect | SqliteDialect | SqlServerDialect.

(** ** Quoting *)

Definition mysql_identifier (name : str) : str := [96] ++ replace_char 96 [96; 96] name ++ [96].
Definition mysql_string_literal (value : str) : str :=
  [39] ++ replace_char 39 [39; 39] (replace_char 92 [92; 92] value) ++ [39].
Definition postgres_identifier (name : str) : str := [34] ++ replace_char 34 [34; 34] name ++ [34].
Definition postgres_string_literal (value : str) : str := [39] ++ replace_char 39 [39; 39] value ++ [39].
Definition sqlite_identifier (name : str) : str := [34] ++ replace_char 34 [34; 34] name ++ [34].
Definition sqlite_string_literal (value : str) : str := [39] ++ replace_char 39 [39; 39] value ++ [39].
Definition sqlserver_identifier (name : str) : str := [91] ++ replace_char 93 [93; 93] name ++ [93].
Definition sqlserver_string_literal (value : str) : str := [39] ++ replace_char 39 [39; 39] value ++ [39].

Definition identifier (d : Engine) : str -> str :=
  match d with
  | MySqlDialect => mysql_identifier | PostgresDialect => postgres_identifier
  | SqliteDialect => sqlite_identifier | SqlServerDialect => sqlserver_identifier
  end.
Definition string_literal (d : Engine) : str -> str :=
  match d with
  | MySqlDialect => mysql_string_literal | PostgresDialect => postgres_string_literal
  | SqliteDialect => sqlite_string_literal | SqlServerDialect => sqlserver_string_literal
  end.

(** ** Queries *)

Definition table_ref (d : Engine) (schema table : str) : str := identifier d schema ++ u "." ++ identifier d table.
Definition count_query (d : Engine) (schema table where_sql : str) : str :=
  (match d with SqlServerDialect => u "SELECT COUNT_BIG(*) as cnt FROM " | _ => u "SELECT COUNT(*) as cnt FROM " end)
  ++ table_ref d schema table ++ where_sql.
Definition sqlite_paginated_select (columns_sql schema table where_sql order_sql : str) (limit offset : Z) : str :=
  u "SELECT " ++ columns_sql ++ u " FROM " ++ table_ref SqliteDialect schema table ++ where_sql ++ order_sql
  ++ u " LIMIT " ++ show_Z limit ++ u " OFFSET " ++ show_Z offset.
Definition sqlserver_paginated_select (columns_sql schema table where_sql order_sql : str) (limit offset : Z) : str :=
  let order_sql := if is_empty (trim order_sql) then u " ORDER BY (SELECT 0)" else order_sql in
  u "SELECT " ++ columns_sql ++ u " FROM " ++ table_ref SqlServerDialect schema table ++ where_sql ++ order_sql
  ++ u " OFFSET " ++ show_Z offset ++ u " ROWS FETCH NEXT " ++ show_Z limit ++ u " ROWS ONLY".

(** ** Scanners *)

Definition is_char_boundary (sql : bytes) (idx : nat) : bool :=
  match sql !! idx with Some b => negb (is_cont b) | None => bool_decide (idx = length sql) end.
Definition is_word (b : byte) : bool := is_ascii_alphanumeric b || (b =? 95).

Definition consume_keyword (sql : bytes) (idx : nat) (keyword : str) : option nat :=
  if negb (is_char_boundary sql idx) then None
  else if negb (starts_with (utf8 keyword) (drop idx sql)) then None
  else
    let end_ := (idx + length (utf8 keyword))%nat in
    match sql !! end_ with
    | Some b => if is_word b then None else Some end_
    | None => Some end_
    end.

(** The index after the bytes that satisfy [f], from [idx]. *)
Definition skip_while (f : byte -> bool) (sql : bytes) (idx : nat) : nat :=
  (idx + length (take_while f (drop idx sql)))%nat.
Definition skip_ws : bytes -> nat -> nat := skip_while is_ascii_whitespace.

(** The loop of [skip_quoted] over the bytes after the opening quote; a doubled
    closing quote stands for itself when [doubled] says so. *)
Fixpoint quoted_end (doubled : bool) (q : byte) (rest : bytes) (i : nat) : option nat :=
  match rest with
  | [] => None
  | c :: rest =>
    if c =? q then
      match rest with
      | c' :: rest' => if doubled && (c' =? q) then quoted_end doubled q rest' (2 + i) else Some (S i)
      | [] => Some (S i)
      end
    else quoted_end doubled q rest (S i)
  end.
Definition skip_quoted (sql : bytes) (idx : nat) (quote : byte) : option nat :=
  if bool_decide (sql !! idx = Some quote) then quoted_end true quote (drop (S idx) sql) (S idx) else None.
Definition sqlite_skip_bracket_quoted (sql : bytes) (idx : nat) : option nat :=
  if bool_decide (sql !! idx = Some 91) then quoted_end false 93 (drop (S idx) sql) (S idx) else None.
Definition sqlserver_skip_bracket_quoted (sql : bytes) (idx : nat) : option nat :=
  if bool_decide (sql !! idx = Some 91) then quoted_end true 93 (drop (S idx) sql) (S idx) else None.

(** What the two scanning dialects differ in: the quotes of identifiers, those
    of any token, and the brackets. *)
Section Scanner.
Context (identifier_quotes quotes : list byte) (skip_bracket_quoted : bytes -> nat -> option nat).

Definition skip_identifier (sql : bytes) (idx : nat) : option nat :=
  match sql !! idx with
  | None => None
  | Some b =>
    if existsb (Z.eqb b) identifier_quotes then skip_quoted sql idx b
    else if b =? 91 then skip_bracket_quoted sql idx
    else
      let end_ := skip_while (fun b => is_word b || (b =? 36)) sql idx in
      if Nat.eqb end_ idx then None else Some end_
  end.

(** Every round advances, so the length is enough fuel. *)
Fixpoint parentheses (fuel : nat) (sql : bytes) (i depth : nat) : option nat :=
  match fuel with
  | O => None
  | S fuel =>
    match sql !! i with
    | None => None
    | Some b =>
      if existsb (Z.eqb b) quotes then i ← skip_quoted sql i b; parentheses fuel sql i depth
      else if b =? 91 then i ← skip_bracket_quoted sql i; parentheses fuel sql i depth
      else if b =? 40 then parentheses fuel sql (S i) (S depth)
      else if b =? 41 then
        match depth with
        | O => None
        | S O => Some (S i)
        | S depth => parentheses fuel sql (S i) depth
        end
      else parentheses fuel sql (S i) depth
    end
  end.
Definition skip_balanced_parentheses (sql : bytes) (idx : nat) : option nat :=
  if bool_decide (sql !! idx = Some 40) then parentheses (S (length sql)) sql idx 0 else None.
End Scanner.

Definition sqlite_skip_identifier : bytes -> nat -> option nat := skip_identifier [34; 96] sqlite_skip_bracket_quoted.
Definition sqlserver_skip_identifier : bytes -> nat -> option nat := skip_identifier [34; 39] sqlserver_skip_bracket_quoted.
Definition sqlite_skip_balanced_parentheses : bytes -> nat -> option nat :=
  skip_balanced_parentheses [39; 34; 96] sqlite_skip_bracket_quoted.
Definition sqlserver_skip_balanced_parentheses : bytes -> nat -> option nat :=
  skip_balanced_parentheses [39; 34] sqlserver_skip_bracket_quoted.

(** The optional column list and the keyword AS of a common table expression. *)
Definition expression_head (identifier_end : bytes -> nat -> option nat) (parentheses_end : bytes -> nat -> option nat)
  (sql : bytes) (idx : nat) : option nat :=
  let idx := skip_ws sql idx in
  next ← identifier_end sql idx;
  let idx := skip_ws sql next in
  idx ← (if bool_decide (sql !! idx = Some 40) then next ← parentheses_end sql idx; Some (skip_ws sql next) else Some idx);
  next ← consume_keyword sql idx (u "AS");
  Some (skip_ws sql next).

(** [NOT MATERIALIZED], [MATERIALIZED] or nothing. *)
Definition materialized (sql : bytes) (idx : nat) : option nat :=
  match consume_keyword sql idx (u "NOT") with
  | Some next =>
    next ← consume_keyword sql (skip_ws sql next) (u "MATERIALIZED");
    Some (skip_ws sql next)
  | None =>
    match consume_keyword sql idx (u "MATERIALIZED") with
    | Some next => Some (skip_ws sql next)
    | None => Some idx
    end
  end.

(** The list of common table expressions: the index of the main statement.
    Every round consumes a parenthesis at least. *)
Fixpoint expressions (head body : bytes -> nat -> option nat) (parentheses_end : bytes -> nat -> option nat)
  (fuel : nat) (sql : bytes) (idx : nat) : option nat :=
  match fuel with
  | O => None
  | S fuel =>
    idx ← head sql idx;
    idx ← body sql idx;
    next ← parentheses_end sql idx;
    let idx := skip_ws sql next in
    if bool_decide (sql !! idx = Some 44) then expressions head body parentheses_end fuel sql (S idx) else Some idx
  end.

(** [sql[idx..].trim_start()]; the index follows an ASCII byte, so the slice is text. *)
Definition main_statement (sql : bytes) (idx : nat) : str := trim_start (default [] (from_utf8 (drop idx sql))).

Definition sqlite_with_statement_main_is_select (upper_sql : str) : bool :=
  let sql := utf8 upper_sql in
  let main :=
    idx ← consume_keyword sql 0 (u "WITH");
    let idx := skip_ws sql idx in
    let idx := match consume_keyword sql idx (u "RECURSIVE") with Some next => skip_ws sql next | None => idx end in
    expressions (expression_head sqlite_skip_identifier sqlite_skip_balanced_parentheses) materialized
      sqlite_skip_balanced_parentheses (S (length sql)) sql idx in
  match main with Some idx => starts_with (u "SELECT") (main_statement sql idx) | None => false end.

(** The main statement, when it is a SELECT. *)
Definition sqlserver_with_statement_main_select (upper_sql : str) : option str :=
  let sql := utf8 upper_sql in
  idx ← consume_keyword sql 0 (u "WITH");
  idx ← expressions (expression_head sqlserver_skip_identifier sqlserver_skip_balanced_parentheses) (fun _ idx => Some idx)
          sqlserver_skip_balanced_parentheses (S (length sql)) sql idx;
  let main_sql := main_statement sql idx in
  if is_some (consume_keyword (utf8 main_sql) 0 (u "SELECT")) then Some main_sql else None.

(** ** The guard of read-only connections *)

Definition markers (verbs : list String.string) : list str :=
  concat (map (fun prefix => map (fun v => prefix ++ u v ++ u " ") verbs)
            [u " AS ("; u " AS MATERIALIZED ("; u " AS NOT MATERIALIZED ("]).
Definition compacted (upper_sql : str) : str := replace (u "( ") (u "(") (join (u " ") (split_whitespace upper_sql)).
Definition postgres_with_statement_contains_write (upper_sql : str) : bool :=
  existsb (fun marker => contains marker (compacted upper_sql)) (markers ["INSERT"; "UPDATE"; "DELETE"; "MERGE"]%string).
Definition sqlite_with_statement_contains_write (upper_sql : str) : bool :=
  existsb (fun marker => contains marker (compacted upper_sql)) (markers ["INSERT"; "UPDATE"; "DELETE"; "REPLACE"]%string).
Definition sqlserver_with_statement_contains_write (upper_sql : str) : bool :=
  existsb (fun marker => contains marker (compacted upper_sql)) (markers ["INSERT"; "UPDATE"; "DELETE"; "MERGE"]%string).
Definition select_statement_contains_write (upper_sql : str) : bool :=
  contains (u " INTO ") (u " " ++ join (u " ") (split_whitespace upper_sql) ++ u " ").

Definition starts_with_any (prefixes : list String.string) (s : str) : bool := existsb (fun p => starts_with (u p) s) prefixes.

Section Guard.
Context (upper_char : char -> str).

Definition mysql_is_use_statement (sql : str) : bool :=
  let upper := to_uppercase upper_char (trim sql) in
  starts_with (u "USE ") upper || str_eqb upper (u "USE").
Definition mysql_sql_editor_returns_result_set (sql : str) : bool :=
  let upper := to_uppercase upper_char (trim sql) in
  starts_with_any ["SELECT"; "SHOW"; "DESCRIBE"; "DESC"; "WITH"; "EXPLAIN"; "TABLE "] upper.
Definition mysql_allowed (sql : str) : bool := mysql_sql_editor_returns_result_set sql || mysql_is_use_statement sql.

Definition postgres_allowed (sql : str) : bool :=
  let upper := to_uppercase upper_char (trim sql) in
  if starts_with (u "WITH") upper then negb (postgres_with_statement_contains_write upper)
  else starts_with_any ["SELECT"; "SHOW"; "EXPLAIN"; "TABLE "; "VALUES"] upper.

Definition is_readonly_pragma (upper_sql : str) : bool :=
  starts_with_any ["PRAGMA DATABASE_LIST"; "PRAGMA TABLE_LIST"; "PRAGMA TABLE_INFO"; "PRAGMA TABLE_XINFO"; "PRAGMA INDEX_LIST";
                   "PRAGMA INDEX_INFO"; "PRAGMA INDEX_XINFO"; "PRAGMA FOREIGN_KEY_LIST"; "PRAGMA QUICK_CHECK";
                   "PRAGMA INTEGRITY_CHECK"] upper_sql.
Definition sqlite_allowed (sql : str) : bool :=
  let upper := to_uppercase upper_char (trim sql) in
  if starts_with (u "WITH") upper
  then sqlite_with_statement_main_is_select upper && negb (sqlite_with_statement_contains_write upper)
  else starts_with (u "SELECT") upper || starts_with (u "EXPLAIN") upper || is_readonly_pragma upper.

Definition trim_leading_statement_separators (sql : str) : str :=
  trim_start (trim_start_matches (Z.eqb 59) (trim_start sql)).
Definition starts_with_keyword (sql keyword : str) : bool := is_some (consume_keyword (utf8 sql) 0 keyword).
(** The statements of the text, trimmed. *)
Definition statements (upper_sql : str) : list str :=
  filter (fun s => is_empty s = false) (map trim (split_char 59 upper_sql)).
(** The statements between the two SET SHOWPLAN statements. *)
Definition showplan_inner (upper_sql : str) : option str :=
  let ss := statements upper_sql in
  if (length ss <? 3)%nat then None
  else
    let first := default [] (head ss) in
    let last := default [] (last ss) in
    if str_eqb first (u "SET SHOWPLAN_TEXT ON") && str_eqb last (u "SET SHOWPLAN_TEXT OFF")
       || str_eqb first (u "SET SHOWPLAN_XML ON") && str_eqb last (u "SET SHOWPLAN_XML OFF")
    then Some (join (u "; ") (take (length ss - 2) (drop 1 ss))) else None.
(** The inner text is shorter: [fuel] bounds the nesting by the length. *)
Fixpoint sqlserver_returns_result_set (fuel : nat) (sql : str) : bool :=
  match fuel with
  | O => false
  | S fuel =>
    let upper := to_uppercase upper_char (trim_leading_statement_separators sql) in
    if is_empty upper then false
    else if match showplan_inner upper with Some inner => sqlserver_returns_result_set fuel inner | None => false end then true
    else if starts_with_keyword upper (u "WITH") then
      match sqlserver_with_statement_main_select upper with
      | None => false
      | Some main => negb (sqlserver_with_statement_contains_write upper) && negb (select_statement_contains_write main)
      end
    else if starts_with_keyword upper (u "SELECT") then negb (select_statement_contains_write upper)
    else starts_with_keyword upper (u "EXPLAIN")
  end.
Definition sqlserver_allowed (sql : str) : bool := sqlserver_returns_result_set (S (length sql)) sql.

(** [sql_editor_allowed_on_read_only_connection] *)
Definition allowed_on_read_only (d : Engine) : str -> bool :=
  match d with
  | MySqlDialect => mysql_allowed | PostgresDialect => postgres_allowed
  | SqliteDialect => sqlite_allowed | SqlServerDialect => sqlserver_allowed
  end.
End Guard.

(** ** Specification *)

(** How the engines read quoted text: up to the closing quote, a doubled one
    standing for itself. *)
Definition open_quote (d : Engine) : char := match d with MySqlDialect => 96 | SqlServerDialect => 91 | _ => 34 end.
Definition close_quote (d : Engine) : char := match d with MySqlDialect => 96 | SqlServerDialect => 93 | _ => 34 end.
Definition unescape (c : char) : char :=
  if c =? 48 then 0 else if c =? 98 then 8 else if c =? 110 then 10 else if c =? 114 then 13 else if c =? 116 then 9
  else if c =? 90 then 26 else c.
(** [backslash]: MySQL's escapes inside string literals. *)
Fixpoint read_quoted (backslash : bool) (q : char) (s : str) : option (str * str) :=
  match s with
  | [] => None
  | c :: s' =>
    if backslash && (c =? 92) then
      match s' with
      | [] => None
      | e :: s'' => (fun '(n, r) => (unescape e :: n, r)) <$> read_quoted backslash q s''
      end
    else if c =? q then
      match s' with
      | c' :: s'' => if c' =? q then (fun '(n, r) => (q :: n, r)) <$> read_quoted backslash q s'' else Some ([], s')
      | [] => Some ([], [])
      end
    else (fun '(n, r) => (c :: n, r)) <$> read_quoted backslash q s'
  end.
Definition read_identifier (d : Engine) (s : str) : option (str * str) :=
  match s with c :: s => if c =? open_quote d then read_quoted false (close_quote d) s else None | [] => None end.
Definition read_literal (d : Engine) (s : str) : option (str * str) :=
  match s with
  | c :: s => if c =? 39 then read_quoted (match d with MySqlDialect => true | _ => false end) 39 s else None
  | [] => None
  end.

(** The text the guard looks at, and statements that write. *)
Definition leading (d : Engine) (sql : str) : str :=
  match d with SqlServerDialect => trim_leading_statement_separators sql | _ => trim sql end.
Definition write_verbs : list String.string :=
  ["INSERT"; "UPDATE"; "DELETE"; "MERGE"; "REPLACE"; "DROP"; "ALTER"; "CREATE"; "TRUNCATE"; "RENAME"; "GRANT"; "REVOKE";
   "EXEC"; "CALL"; "ATTACH"; "DETACH"; "VACUUM"; "REINDEX"; "LOAD"; "COPY"; "BULK"]%string.

(** ** Proofs *)

Lemma read_quoted_doubled q n rest : head rest <> Some q ->
  read_quoted false q (replace_char q [q; q] n ++ q :: rest) = Some (n, rest).
Proof.
  intros H. induction n as [|c n IH].
  - change (replace_char q [q; q] []) with (@nil Z). cbn [app read_quoted andb]. rewrite Z.eqb_refl.
    destruct rest as [|c rest]; [done|]. destruct (c =? q) eqn:E; to_prop; [|done]. cbn in H. congruence.
  - unfold replace_char in *. cbn [map concat]. destruct (c =? q) eqn:E.
    + to_prop. subst c. cbn [app read_quoted andb]. rewrite Z.eqb_refl. by rewrite IH.
    + cbn [app read_quoted andb]. rewrite E. by rewrite IH.
Qed.

Lemma read_quoted_escaped n rest : head rest <> Some 39 ->
  read_quoted true 39 (replace_char 39 [39; 39] (replace_char 92 [92; 92] n) ++ 39 :: rest) = Some (n, rest).
Proof.
  intros H. induction n as [|c n IH].
  - change (replace_char 39 [39; 39] (replace_char 92 [92; 92] [])) with (@nil Z). cbn [app read_quoted andb Z.eqb Pos.eqb].
    destruct rest as [|c rest]; [done|]. destruct (c =? 39) eqn:E; to_prop; [|done]. cbn in H. congruence.
  - unfold replace_char in *. cbn [map concat]. destruct (c =? 92) eqn:E.
    + to_prop. subst c. cbn [app map concat Z.eqb Pos.eqb read_quoted andb]. by rewrite IH.
    + cbn [app map concat]. destruct (c =? 39) eqn:E'.
      * to_prop. subst c. cbn [app read_quoted andb Z.eqb Pos.eqb]. by rewrite IH.
      * cbn [app read_quoted andb]. rewrite E, E'. by rewrite IH.
Qed.

(** C39: what an engine reads back from a quoted identifier or literal is the
    name or the value it quotes, and nothing of what follows, whatever they
    contain. *)
Theorem quoting_scans d text rest :
  (head rest <> Some (close_quote d) -> read_identifier d (identifier d text ++ rest) = Some (text, rest)) /\
  (head rest <> Some 39 -> read_literal d (string_literal d text ++ rest) = Some (text, rest)).
Proof.
  split; intros H.
  - pose proof (read_quoted_doubled (close_quote d) text rest H) as Q.
    destruct d; cbn [identifier close_quote mysql_identifier postgres_identifier sqlite_identifier sqlserver_identifier] in *;
      unfold mysql_identifier, postgres_identifier, sqlite_identifier, sqlserver_identifier;
      rewrite <- !app_assoc; cbn [app read_identifier open_quote]; exact Q.
  - pose proof (read_quoted_doubled 39 text rest H) as Q. pose proof (read_quoted_escaped text rest H) as E.
    destruct d; cbn [string_literal];
      unfold mysql_string_literal, postgres_string_literal, sqlite_string_literal, sqlserver_string_literal;
      rewrite <- !app_assoc; cbn [app read_literal]; [exact E|exact Q..].
Qed.

(** *** Text that starts with a verb *)

Lemma starts_with_comparable p q s : starts_with p s = true -> starts_with q s = true ->
  starts_with p q = true \/ starts_with q p = true.
Proof.
  revert p q. induction s as [|c s IH]; intros [|x p] [|y q]; unfold starts_with; cbn; try done; try (by auto).
  destruct (x =? c) eqn:Ex; [|done]. destruct (y =? c) eqn:Ey; [|done]. to_prop. subst. intros Hp Hq.
  rewrite !Z.eqb_refl. by apply IH.
Qed.

(** No readable prefix starts a text that starts with [verb]. *)
Definition apart (verb p : str) : bool := negb (starts_with verb p) && negb (starts_with p verb).
Lemma apart_false verb p s : apart verb p = true -> starts_with verb s = true -> starts_with p s = false.
Proof.
  unfold apart. rewrite andb_true_iff, !negb_true_iff. intros [A B] V. apply not_true_is_false. intros P.
  destruct (starts_with_comparable _ _ _ V P); congruence.
Qed.

Lemma verb_apart verb p : (verb ∈ write_verbs) ->
  p ∈ ["SELECT"; "SHOW"; "DESCRIBE"; "DESC"; "WITH"; "EXPLAIN"; "TABLE "; "USE "; "USE"; "VALUES"; "PRAGMA "]%string ->
  apart (u verb) (u p) = true.
Proof.
  intros Hv Hp. assert (X : forallb (fun v => forallb (fun p => apart (u v) (u p))
    ["SELECT"; "SHOW"; "DESCRIBE"; "DESC"; "WITH"; "EXPLAIN"; "TABLE "; "USE "; "USE"; "VALUES"; "PRAGMA "]%string) write_verbs = true)
    by (vm_compute; reflexivity).
  rewrite forallb_true_iff in X. specialize (X _ Hv). rewrite forallb_true_iff in X. by apply X.
Qed.

Lemma starts_with_trans p q s : starts_with p q = true -> starts_with q s = true -> starts_with p s = true.
Proof. rewrite !starts_with_iff. intros [r ->] [r' ->]. exists (r ++ r'). by rewrite app_assoc. Qed.

Lemma any_false verb ps s : Forall (fun p => apart (u verb) (u p) = true) ps -> starts_with (u verb) s = true ->
  starts_with_any ps s = false.
Proof.
  intros F V. induction F as [|p ps A F IH]; [done|]. unfold starts_with_any in *. cbn [existsb].
  by rewrite (apart_false _ _ _ A V), IH.
Qed.

Lemma keyword_prefix s kw i : consume_keyword (utf8 s) 0 kw = Some i -> starts_with (utf8 kw) (utf8 s) = true.
Proof.
  unfold consume_keyword. destruct (negb (is_char_boundary _ _)); [done|]. change (drop 0 (utf8 s)) with (utf8 s).
  by destruct (starts_with (utf8 kw) (utf8 s)).
Qed.

Lemma starts_with_utf8 p s : starts_with p s = true -> starts_with (utf8 p) (utf8 s) = true.
Proof. rewrite !starts_with_iff. intros [r ->]. exists (utf8 r). apply utf8_app. Qed.

Lemma trim_end_prefix p r : Forall (fun c => is_whitespace c = false) p -> exists r', trim_end (p ++ r) = p ++ r'.
Proof.
  intros F. destruct (trim_end_matches_split is_whitespace (p ++ r)) as (w & E & W). unfold trim_end.
  apply app_eq_inv in E as [(k & E1 & E2)|(k & E1 & E2)]; [|by exists k].
  exists []. rewrite app_nil_r. rewrite E1, list.Forall_app in F. destruct F as [_ F].
  destruct k as [|c k]; [by rewrite app_nil_r in E1|]. apply list.Forall_cons in F as [Fc _].
  rewrite E2 in W. cbn in W. by rewrite Fc in W.
Qed.

(** The first statement of a text that starts with a verb starts with it. *)
Lemma first_statement p s : p <> [] -> Forall (fun c => is_whitespace c = false /\ c <> 59) p -> starts_with p s = true ->
  exists first rest, statements s = first :: rest /\ starts_with p first = true.
Proof.
  intros N F [r ->]%starts_with_iff.
  assert (S : exists a l, split_char 59 (p ++ r) = (p ++ a) :: l).
  { clear N. induction F as [|c p [_ Fc] F IH].
    - destruct (split_char 59 ([] ++ r)) as [|a l] eqn:E; [by apply split_char_nonempty in E|]. by exists a, l.
    - destruct IH as (a & l & E). exists a, l. cbn [app split_char].
      destruct (c =? 59) eqn:Ec; to_prop; [done|]. by rewrite E. }
  destruct S as (a & l & E). unfold statements. rewrite E. cbn [map].
  assert (T : exists r', trim (p ++ a) = p ++ r').
  { unfold trim. assert (H : trim_start (p ++ a) = p ++ a).
    { destruct p as [|c p]; [done|]. apply list.Forall_cons in F as [[F _] _]. by apply drop_while_id. }
    rewrite H. apply trim_end_prefix. eapply list.Forall_impl; [exact F|]. by intros c []. }
  destruct T as (r' & T). rewrite T, filter_cons_True; [|destruct p; [done|reflexivity]].
  eexists _, _. split; [reflexivity|]. apply starts_with_iff. by exists r'.
Qed.

Section GuardProofs.
Context (upper_char : char -> str).

Lemma verb_chars verb : verb ∈ write_verbs ->
  u verb <> [] /\ Forall (fun c => is_whitespace c = false /\ c <> 59) (u verb) /\
  apart (u verb) (u "SET SHOWPLAN_TEXT ON") = true /\ apart (u verb) (u "SET SHOWPLAN_XML ON") = true.
Proof.
  intros Hv. assert (X : forallb (fun v => negb (is_empty (u v)) && forallb (fun c => negb (is_whitespace c) && negb (c =? 59)) (u v) &&
    (apart (u v) (u "SET SHOWPLAN_TEXT ON") && apart (u v) (u "SET SHOWPLAN_XML ON"))) write_verbs = true)
    by (vm_compute; reflexivity).
  rewrite forallb_true_iff in X. specialize (X _ Hv). rewrite !andb_true_iff, negb_true_iff, forallb_true_iff in X.
  destruct X as [[X1 X2] [X3 X4]]. split_and!; [by destruct (u verb)| |done|done].
  apply list.Forall_forall. intros c Hc. specialize (X2 c Hc). to_prop. by split.
Qed.

Lemma verb_not_showplan verb s : verb ∈ write_verbs -> starts_with (u verb) s = true -> showplan_inner s = None.
Proof.
  intros Hv V. destruct (verb_chars verb Hv) as (N & F & A1 & A2).
  destruct (first_statement _ _ N F V) as (first & rest & E & S). unfold showplan_inner. rewrite E.
  destruct (_ <? 3)%nat; [done|]. cbn [head]. change (default [] (Some first)) with first.
  assert (X : forall t, apart (u verb) t = true -> str_eqb first t = false).
  { intros t A. apply not_true_is_false. intros ->%str_eqb_eq. unfold apart in A. by rewrite S in A. }
  by rewrite (X _ A1), (X _ A2).
Qed.

Lemma verb_no_keyword verb kw s : verb ∈ write_verbs -> kw ∈ ["SELECT"; "WITH"; "EXPLAIN"]%string ->
  starts_with (u verb) s = true -> starts_with_keyword s (u kw) = false.
Proof.
  intros Hv Hk V. unfold starts_with_keyword. destruct (consume_keyword _ _ _) as [i|] eqn:E; [|done].
  apply keyword_prefix in E. apply starts_with_utf8 in V.
  assert (X : forallb (fun v => forallb (fun k => apart (utf8 (u v)) (utf8 (u k))) ["SELECT"; "WITH"; "EXPLAIN"]%string) write_verbs = true)
    by (vm_compute; reflexivity).
  rewrite forallb_true_iff in X. specialize (X _ Hv). rewrite forallb_true_iff in X. specialize (X _ Hk).
  pose proof (apart_false _ _ _ X V). congruence.
Qed.

#[local] Ltac in_list := rewrite !elem_of_cons; tauto.
#[local] Ltac sub_list := intros ?; rewrite !elem_of_cons; tauto.

(** C40: on a read-only connection no engine's guard lets a statement through
    that starts with a verb that writes, whatever its case, the blanks before it
    and, for SQL Server, the separators. *)
Theorem read_only_refuses_writes d sql verb : verb ∈ write_verbs ->
  starts_with (u verb) (to_uppercase upper_char (leading d sql)) = true ->
  allowed_on_read_only upper_char d sql = false.
Proof.
  intros Hv V. assert (P : forall ps, ps ⊆ ["SELECT"; "SHOW"; "DESCRIBE"; "DESC"; "WITH"; "EXPLAIN"; "TABLE "; "USE "; "USE"; "VALUES"; "PRAGMA "]%string ->
    Forall (fun p => apart (u verb) (u p) = true) ps).
  { intros ps S. apply list.Forall_forall. intros p Hp. apply verb_apart; auto. }
  assert (Q : forall p, p ∈ ["SELECT"; "SHOW"; "DESCRIBE"; "DESC"; "WITH"; "EXPLAIN"; "TABLE "; "USE "; "USE"; "VALUES"; "PRAGMA "]%string ->
    starts_with (u p) (to_uppercase upper_char (leading d sql)) = false).
  { intros p Hp. eapply apart_false; [|exact V]. by apply verb_apart. }
  destruct d; cbn [allowed_on_read_only leading] in *.
  - unfold mysql_allowed, mysql_sql_editor_returns_result_set, mysql_is_use_statement.
    rewrite (any_false verb); [|apply P; sub_list|done]. cbn [orb]. rewrite (Q "USE "%string) by in_list.
    cbn [orb]. apply not_true_is_false. intros E%str_eqb_eq. pose proof (Q "USE"%string ltac:(in_list)) as X.
    rewrite E in X. by vm_compute in X.
  - unfold postgres_allowed. rewrite (Q "WITH"%string) by in_list. rewrite (any_false verb); [done|apply P; sub_list|done].
  - unfold sqlite_allowed. rewrite (Q "WITH"%string), (Q "SELECT"%string), (Q "EXPLAIN"%string) by in_list. cbn [orb].
    unfold is_readonly_pragma, starts_with_any. apply not_true_is_false. intros (p & Hp & S)%existsb_true_iff.
    assert (X : starts_with (u "PRAGMA ") (u p) = true).
    { clear S Q P V. revert p Hp. assert (X : forallb (fun p => starts_with (u "PRAGMA ") (u p)) ["PRAGMA DATABASE_LIST"; "PRAGMA TABLE_LIST"; "PRAGMA TABLE_INFO"; "PRAGMA TABLE_XINFO"; "PRAGMA INDEX_LIST";
                   "PRAGMA INDEX_INFO"; "PRAGMA INDEX_XINFO"; "PRAGMA FOREIGN_KEY_LIST"; "PRAGMA QUICK_CHECK";
                   "PRAGMA INTEGRITY_CHECK"]%string = true) by (vm_compute; reflexivity).
      rewrite forallb_true_iff in X. exact X. }
    pose proof (starts_with_trans _ _ _ X S). pose proof (Q "PRAGMA "%string ltac:(in_list)). congruence.
  - unfold sqlserver_allowed. cbn [sqlserver_returns_result_set].
    destruct (is_empty _); [done|]. rewrite (verb_not_showplan verb) by done. cbn iota.
    rewrite !(verb_no_keyword verb) by (done || in_list). done.
Qed.
End GuardProofs.

(** ** What the guard does not catch *)

(** A statement whose common table expressions only read but which itself
    writes, and an EXPLAIN that executes what it explains. *)
Lemma postgres_read_only_gap : Forall (fun sql => allowed_on_read_only (fun c => [c]) PostgresDialect (u sql) = true)
  ["WITH x AS (SELECT 1) DELETE FROM users"; "EXPLAIN ANALYZE DELETE FROM users"]%string /\
  allowed_on_read_only (fun c => [c]) SqliteDialect (u "WITH x AS (SELECT 1) DELETE FROM users") = false.
Proof. split; [repeat constructor|reflexivity]. Qed.
Lemma mysql_read_only_gap :
  allowed_on_read_only (fun c => [c]) MySqlDialect (u "WITH x AS (SELECT 1) DELETE FROM users") = true.
Proof. reflexivity. Qed.
(** Only the first statement of a text is looked at. *)
Lemma sqlserver_read_only_gap :
  allowed_on_read_only (fun c => [c]) SqlServerDialect (u "SELECT 1; DROP TABLE users") = true.
Proof. reflexivity. Qed.

(** ** Witnesses *)

Lemma quoting_scans_witness :
  read_literal MySqlDialect (string_literal MySqlDialect (u "\'; DROP TABLE t --") ++ u ", 1") = Some (u "\'; DROP TABLE t --", u ", 1").
Proof. apply quoting_scans. vm_compute. discriminate. Defined.

Lemma read_only_refuses_writes_witness :
  allowed_on_read_only (fun c => [c]) SqlServerDialect (u " ;; delete from users") = false.
Proof.
  refine (read_only_refuses_writes (fun c => [c]) SqlServerDialect (u " ;; delete from users") "DELETE"%string _ eq_refl); do 2 right; left.
Defined.

End SqlDialect.
