(* ===== verification/SqlScript.v ===== *)
(** Splitting a SQL script into statements (src-tauri/src/db/sql_script.rs):
    semicolons separate, except inside quotes, dollar quotes and comments. *)
From S2P Require Import Prelude RustText.

Module SqlScript.

(** The flags of the scanner. *)
Record Scan : Type := mkScan {
  in_single : bool; in_double : bool; in_backtick : bool; dollar_quote_tag : option str;
  in_line_comment : bool; in_block_comment : bool; escaped : bool }.
Definition start : Scan := mkScan false false false None false false false.

Definition with_dollar (s : Scan) (t : option str) : Scan :=
  mkScan (in_single s) (in_double s) (in_backtick s) t (in_line_comment s) (in_block_comment s) (escaped s).
Definition with_line (s : Scan) (v : bool) : Scan :=
  mkScan (in_single s) (in_double s) (in_backtick s) (dollar_quote_tag s) v (in_block_comment s) (escaped s).
Definition with_block (s : Scan) (v : bool) : Scan :=
  mkScan (in_single s) (in_double s) (in_backtick s) (dollar_quote_tag s) (in_line_comment s) v (escaped s).
Definition with_escaped (s : Scan) (v : bool) : Scan :=
  mkScan (in_single s) (in_double s) (in_backtick s) (dollar_quote_tag s) (in_line_comment s) (in_block_comment s) v.
Definition with_quotes (s : Scan) (single double backtick : bool) : Scan :=
  mkScan single double backtick (dollar_quote_tag s) (in_line_comment s) (in_block_comment s) (escaped s).

Definition not_dollar (c : char) : bool := negb (c =? 36).
(** The chars from a dollar on: the tag, with both its dollars. *)
Definition parse_dollar_quote_tag (chars : str) : option str :=
  match chars with
  | 36 :: rest =>
    let tag_body := take_while not_dollar rest in
    if (length rest <=? length tag_body)%nat then None
    else
      let valid := match tag_body with
                   | [] => true
                   | c :: _ => (is_ascii_alphabetic c || (c =? 95)) && forallb (fun c => is_ascii_alphanumeric c || (c =? 95)) tag_body
                   end in
      if valid then Some ([36] ++ tag_body ++ [36]) else None
  | _ => None
  end.

(** One round of the loop over the chars [c :: rest]: what is appended to the
    current statement, or the end of a statement, and where to go on. *)
Inductive Step : Type :=
| Push (pushed rest : str) (s : Scan)
| Cut (rest : str).

(** The last branch: quotes that close, then the char. *)
Definition quoted_char (s : Scan) (c : char) (rest : str) : Step :=
  Push [c] rest (with_quotes s (in_single s && negb (c =? 39)) (in_double s && negb (c =? 34)) (in_backtick s && negb (c =? 96))).

(** Outside quotes. *)
Definition plain_char (s : Scan) (c : char) (rest : str) : Step :=
  if (c =? 45) && starts_with [45] rest then Push [45; 45] (drop 1 rest) (with_line s true)
  else if c =? 35 then Push [c] rest (with_line s true)
  else if (c =? 47) && starts_with [42] rest then Push [47; 42] (drop 1 rest) (with_block s true)
  else if c =? 39 then Push [c] rest (with_quotes s true (in_double s) (in_backtick s))
  else if c =? 34 then Push [c] rest (with_quotes s (in_single s) true (in_backtick s))
  else if c =? 96 then Push [c] rest (with_quotes s (in_single s) (in_double s) true)
  else
    match (if c =? 36 then parse_dollar_quote_tag (c :: rest) else None) with
    | Some tag => Push tag (drop (length tag) (c :: rest)) (with_dollar s (Some tag))
    | None => if c =? 59 then Cut rest else Push [c] rest s
    end.

Definition step (s : Scan) (c : char) (rest : str) : Step :=
  match dollar_quote_tag s with
  | Some tag =>
    if starts_with tag (c :: rest) then Push tag (drop (length tag) (c :: rest)) (with_dollar s None) else Push [c] rest s
  | None =>
    if in_line_comment s then Push [c] rest (with_line s (negb (c =? 10)))
    else if in_block_comment s then
      if (c =? 42) && starts_with [47] rest then Push [42; 47] (drop 1 rest) (with_block s false) else Push [c] rest s
    else if escaped s then Push [c] rest (with_escaped s false)
    else if (c =? 92) && (in_single s || in_double s) then Push [c] rest (with_escaped s true)
    else if negb (in_single s) && negb (in_double s) && negb (in_backtick s) then plain_char s c rest
    else quoted_char s c rest
  end.

Definition finish_statement (current : str) : list str := let t := trim current in if is_empty t then [] else [t].

(** Every round consumes a char at least. *)
Fixpoint split_loop (fuel : nat) (s : Scan) (current chars : str) : list str :=
  match fuel, chars with
  | S fuel, c :: rest =>
    match step s c rest with
    | Push pushed rest s => split_loop fuel s (current ++ pushed) rest
    | Cut rest => finish_statement current ++ split_loop fuel s [] rest
    end
  | _, _ => finish_statement current
  end.

Definition split_sql_statements (sql : str) : list str :=
  let trimmed := trim sql in
  if is_empty trimmed then [] else split_loop (length trimmed) start [] trimmed.

(** ** Specification *)

(** The state after a text without a separator; [None] when there is one. *)
Fixpoint scan (fuel : nat) (s : Scan) (chars : str) : option Scan :=
  match fuel, chars with
  | S fuel, c :: rest => match step s c rest with Push _ rest s => scan fuel s rest | Cut _ => None end
  | _, _ => Some s
  end.
(** A statement: trimmed, not empty, its quotes and comments closed, without a
    separator outside them. *)
Definition statement (s : str) : Prop := s <> [] /\ trim s = s /\ scan (length s) start s = Some start.

(** ** Proofs *)

Lemma take_while_stop {A} (f : A -> bool) l r : (length (take_while f l) < length l)%nat ->
  take_while f (l ++ r) = take_while f l.
Proof. induction l as [|y l IH]; cbn; [lia|]. case_match; cbn; [|done]. intros L. rewrite IH; [done|lia]. Qed.
Lemma take_while_all {A} (f : A -> bool) l : (length l <= length (take_while f l))%nat -> take_while f l = l /\ forallb f l = true.
Proof. induction l as [|y l IH]; cbn; [done|]. case_match; cbn; [|lia]. intros. destruct IH as [-> ->]; [lia|done]. Qed.
Lemma take_while_app_all {A} (f : A -> bool) l r : forallb f l = true -> take_while f (l ++ r) = l ++ take_while f r.
Proof. induction l as [|y l IH]; cbn; [done|]. destruct (f y); [|done]. intros H. by rewrite IH. Qed.
Lemma take_while_prefix {A} (f : A -> bool) l : exists r, l = take_while f l ++ r.
Proof. induction l as [|y l [r E]]; cbn; [by exists []|]. case_match; [exists r; cbn; by rewrite <- E|by exists (y :: l)]. Qed.

Lemma take_while_head {A} (f : A -> bool) l d r : l = take_while f l ++ d :: r -> f d = false.
Proof. induction l as [|y l IH]; cbn; [done|]. destruct (f y) eqn:Y; cbn; [intros [= E]; by apply IH|by intros [= <- _]]. Qed.

Definition tag_char (c : char) : bool := is_ascii_alphanumeric c || (c =? 95).

(** The tags the scanner holds contain no separator. *)
Definition tag_ok (t : str) : Prop := t <> [] /\ 59 ∉ t.
Definition ok (s : Scan) : Prop := forall t, dollar_quote_tag s = Some t -> tag_ok t.

Lemma parse_tag_ok chars tag : parse_dollar_quote_tag chars = Some tag -> tag_ok tag /\ exists r, chars = tag ++ r.
Proof.
  unfold parse_dollar_quote_tag. destruct chars as [|c rest]; [done|]. destruct (decide (c = 36)) as [->|N].
  2: { intros H. exfalso. repeat (case_match; try done). }
  destruct (take_while_prefix not_dollar rest) as (r & E). set (body := take_while _ rest) in *.
  destruct (length rest <=? length body)%nat eqn:L; [done|]. apply Nat.leb_gt in L.
  match goal with |- (if ?v then _ else _) = _ -> _ => destruct v eqn:V end; [|done]. intros [= <-].
  assert (F : forallb tag_char body = true).
  { destruct body; [done|]. apply andb_true_iff in V as [_ V]. exact V. }
  split.
  - split; [done|]. rewrite !elem_of_cons, elem_of_app, list_elem_of_singleton. intros [X|[X|X]]; try lia.
    rewrite forallb_true_iff in F. specialize (F 59 X). vm_compute in F. discriminate.
  - destruct r as [|d r]; [rewrite app_nil_r in E; subst body; rewrite <- E in L; lia|].
    exists r. cbn [app]. f_equal. rewrite E at 1.
    assert (D : d = 36).
    { apply take_while_head in E. unfold not_dollar in E. by to_prop. }
    subst d. by rewrite <- app_assoc.
Qed.

Lemma parse_tag_app c rest t : parse_dollar_quote_tag (c :: rest ++ 59 :: t) = parse_dollar_quote_tag (c :: rest).
Proof.
  destruct (decide (c = 36)) as [->|N].
  2: { unfold parse_dollar_quote_tag. repeat (case_match; try done). }
  unfold parse_dollar_quote_tag. destruct (length rest <=? length (take_while not_dollar rest))%nat eqn:L.
  - apply Nat.leb_le in L. destruct (take_while_all _ _ L) as [_ A]. rewrite take_while_app_all by done.
    case_match; [done|]. change (take_while not_dollar (59 :: t)) with (59 :: take_while not_dollar t).
    assert (X : forall l, forallb (fun c => is_ascii_alphanumeric c || (c =? 95)) (rest ++ 59 :: l) = false).
    { intros l. apply not_true_is_false. rewrite forallb_true_iff. intros F. specialize (F 59 ltac:(set_solver)). by vm_compute in F. }
    specialize (X (take_while not_dollar t)). destruct rest as [|d rest]; [reflexivity|]. cbn [app] in X |- *. rewrite X. by rewrite andb_false_r.
  - apply Nat.leb_gt in L. rewrite take_while_stop by done.
    assert (X : (length (rest ++ 59%Z :: t) <=? length (take_while not_dollar rest))%nat = false).
    { apply Nat.leb_gt. rewrite length_app. cbn. lia. }
    by rewrite X.
Qed.

Lemma starts_with_app_sep tag s t : 59 ∉ tag -> starts_with tag (s ++ 59 :: t) = starts_with tag s.
Proof.
  unfold starts_with. revert s. induction tag as [|x tag IH]; intros [|y s] N; try done; cbn; rewrite not_elem_of_cons in N.
  - destruct (x =? 59) eqn:E; [to_prop; lia|done].
  - case_match; [by apply IH, N|done].
Qed.
Lemma starts_with_drop tag s : starts_with tag s = true -> s = tag ++ drop (length tag) s.
Proof. rewrite starts_with_iff. intros [r ->]. by rewrite drop_app_length. Qed.
Lemma drop_prefix_app tag (s t : str) : starts_with tag s = true -> drop (length tag) (s ++ t) = drop (length tag) s ++ t.
Proof. rewrite starts_with_iff. intros [r ->]. by rewrite <- app_assoc, !drop_app_length. Qed.

(** A round that does not cut: it pushes what it consumes, and it is the same
    when a separator and more text follow. *)
Definition local (s : Scan) (c : char) (rest : str) : Prop := forall p r s', step s c rest = Push p r s' ->
  ok s' /\ p ++ r = c :: rest /\ p <> [] /\ forall t, step s c (rest ++ 59 :: t) = Push p (r ++ 59 :: t) s'.

Lemma one_ahead x (rest t : str) : x <> 59 -> starts_with [x] (rest ++ 59 :: t) = starts_with [x] rest.
Proof. intros N. apply starts_with_app_sep. rewrite list_elem_of_singleton. done. Qed.

Lemma ok_no_tag s s' : dollar_quote_tag s' = None -> ok s -> ok s'.
Proof. intros E _ t. by rewrite E. Qed.

Lemma plain_local s c rest : dollar_quote_tag s = None -> forall p r s', plain_char s c rest = Push p r s' ->
  ok s' /\ p ++ r = c :: rest /\ p <> [] /\ forall t, plain_char s c (rest ++ 59 :: t) = Push p (r ++ 59 :: t) s'.
Proof.
  intros T p r s'. unfold plain_char.
  assert (A : forall x, x <> 59 -> forall t, starts_with [x] (rest ++ 59 :: t) = starts_with [x] rest) by (intros; by apply one_ahead).
  assert (D : forall x, starts_with [x] rest = true -> x :: drop 1 rest = rest /\ forall t, drop 1 (rest ++ 59 :: t) = drop 1 rest ++ 59 :: t).
  { intros x H. split; [symmetry; exact (starts_with_drop [x] rest H)|]. intros t. exact (drop_prefix_app [x] rest _ H). }
  assert (O : forall s', dollar_quote_tag s' = None -> ok s') by (intros s1 E t; by rewrite E).
  destruct ((c =? 45) && starts_with [45] rest) eqn:E1.
  { intros [= <- <- <-]. to_prop. subst c. destruct (D 45) as [D1 D2]; [done|]. split_and!; [by apply O|cbn; by rewrite D1|done|].
    intros t. rewrite A, D2 by done. by replace (starts_with [45] rest) with true. }
  destruct (c =? 35) eqn:E2.
  { intros [= <- <- <-]. split_and!; [by apply O|done|done|]. intros t. rewrite A by done. by rewrite E1. }
  destruct ((c =? 47) && starts_with [42] rest) eqn:E3.
  { intros [= <- <- <-]. to_prop. subst c. destruct (D 42) as [D1 D2]; [done|]. split_and!; [by apply O|cbn; by rewrite D1|done|].
    intros t. rewrite !A, D2 by done. cbn [Z.eqb Pos.eqb andb]. by replace (starts_with [42] rest) with true. }
  destruct (c =? 39) eqn:E4.
  { intros [= <- <- <-]. split_and!; [by apply O|done|done|]. intros t. rewrite !A by done. by rewrite E1, E3. }
  destruct (c =? 34) eqn:E5.
  { intros [= <- <- <-]. split_and!; [by apply O|done|done|]. intros t. rewrite !A by done. by rewrite E1, E3. }
  destruct (c =? 96) eqn:E6.
  { intros [= <- <- <-]. split_and!; [by apply O|done|done|]. intros t. rewrite !A by done. by rewrite E1, E3. }
  assert (X : forall t, (if c =? 36 then parse_dollar_quote_tag (c :: rest ++ 59 :: t) else None) =
                        (if c =? 36 then parse_dollar_quote_tag (c :: rest) else None)).
  { intros t. by rewrite parse_tag_app. }
  destruct (if c =? 36 then parse_dollar_quote_tag (c :: rest) else None) as [tag|] eqn:P.
  - intros [= <- <- <-]. destruct (c =? 36); [|done]. destruct (parse_tag_ok _ _ P) as [K [r0 E]].
    split_and!; [by intros t [= <-]|rewrite E; by rewrite drop_app_length|apply K|].
    intros t. rewrite !A by done. rewrite E1, E3, X. f_equal.
    rewrite (app_comm_cons rest), E, <- app_assoc, !drop_app_length. done.
  - destruct (c =? 59) eqn:E7; [done|]. intros [= <- <- <-]. split_and!; [by apply O|done|done|].
    intros t. rewrite !A by done. by rewrite E1, E3, X.
Qed.

Lemma step_local s c rest : ok s -> local s c rest.
Proof.
  intros K p r s'. unfold step. destruct (dollar_quote_tag s) as [tag|] eqn:T.
  { destruct (K tag T) as [Kn K59].
    assert (X : forall t, starts_with tag ((c :: rest) ++ 59 :: t) = starts_with tag (c :: rest)) by (intros; by apply starts_with_app_sep).
    destruct (starts_with tag (c :: rest)) eqn:E; intros [= <- <- <-].
    - split_and!; [by intros ?|by rewrite <- starts_with_drop|done|]. intros t. rewrite app_comm_cons, X. by rewrite drop_prefix_app.
    - split_and!; [done|done|done|]. intros t. by rewrite app_comm_cons, X. }
  assert (O : forall s', dollar_quote_tag s' = None -> ok s') by (intros s1 E t; by rewrite E).
  destruct (in_line_comment s). { intros [= <- <- <-]. split_and!; [by apply O|done|done|done]. }
  destruct (in_block_comment s).
  { destruct ((c =? 42) && starts_with [47] rest) eqn:E; intros [= <- <- <-].
    - to_prop. subst c. split_and!; [by apply O| |done|].
      + cbn [app]. f_equal. symmetry. by apply (starts_with_drop [47]).
      + intros t. rewrite one_ahead by done. replace (starts_with [47] rest) with true by done. cbn [Z.eqb Pos.eqb andb]. f_equal.
        by apply (drop_prefix_app [47]).
    - split_and!; [by apply O|done|done|]. intros t. rewrite one_ahead by done. by rewrite E. }
  destruct (escaped s). { intros [= <- <- <-]. split_and!; [by apply O|done|done|done]. }
  destruct (_ && _). { intros [= <- <- <-]. split_and!; [by apply O|done|done|done]. }
  destruct (_ && _); [by apply plain_local|]. intros [= <- <- <-]. split_and!; [by apply O|done|done|done].
Qed.

Lemma step_cut s c rest r : step s c rest = Cut r -> r = rest.
Proof.
  unfold step, plain_char, quoted_char. intros H. repeat (case_match; try done); injection H; done.
Qed.

(** Fuel does not matter. *)
Lemma split_loop_fuel n m s current chars : ok s -> (length chars <= n)%nat -> (length chars <= m)%nat ->
  split_loop n s current chars = split_loop m s current chars.
Proof.
  revert m s current chars. induction n as [|n IH]; intros m s current chars K Hn Hm.
  { destruct chars; [by destruct m|cbn in Hn; lia]. }
  destruct chars as [|c rest]; [by destruct m|]. destruct m as [|m]; [cbn in Hm; lia|]. cbn [split_loop].
  cbn in Hn, Hm. destruct (step s c rest) as [p r s'|r] eqn:E.
  - destruct (step_local s c rest K _ _ _ E) as (K' & P & N & _).
    apply (f_equal length) in P. rewrite length_app in P. cbn in P. destruct p; [done|]. cbn in P. apply IH; [done|lia..].
  - apply step_cut in E as ->. f_equal. apply IH; [done|lia..].
Qed.
Definition split_from (s : Scan) (current chars : str) : list str := split_loop (length chars) s current chars.

(** A text without separators is appended to the current statement. *)
Lemma split_through fuel s s' text current t : ok s -> (length text <= fuel)%nat -> scan fuel s text = Some s' ->
  split_from s current (text ++ 59 :: t) = split_from s' (current ++ text) (59 :: t) /\
  split_from s current text = finish_statement (current ++ text).
Proof.
  revert s text current. induction fuel as [|fuel IH]; intros s text current K L H.
  { destruct text; [|cbn in L; lia]. injection H as <-. by rewrite app_nil_r. }
  destruct text as [|c rest]; [injection H as <-; by rewrite app_nil_r|]. cbn [scan] in H.
  destruct (step s c rest) as [p r s1|r] eqn:E; [|done]. destruct (step_local s c rest K _ _ _ E) as (K1 & P & N & S).
  assert (Lr : (length r <= length rest)%nat).
  { apply (f_equal length) in P. rewrite length_app in P. destruct p; [done|]. cbn in P. lia. }
  cbn in L. destruct (IH s1 r (current ++ p) K1 ltac:(lia) H) as [I1 I2].
  rewrite <- app_assoc, P in I1, I2. split.
  - rewrite <- I1. unfold split_from. cbn [app length]. cbn [split_loop]. rewrite S.
    apply split_loop_fuel; [done| |lia]. rewrite !length_app. cbn. lia.
  - rewrite <- I2. unfold split_from. cbn [length split_loop]. rewrite E. apply split_loop_fuel; [done|lia..].
Qed.
Lemma start_ok : ok start.
Proof. by intros t. Qed.

Lemma blank_step c rest : is_whitespace c = true -> step start c rest = Push [c] rest start.
Proof.
  intros W. assert (N : forall x, is_whitespace x = false -> (c =? x) = false).
  { intros x Hx. apply Z.eqb_neq. intros ->. congruence. }
  unfold step, plain_char. cbn [start dollar_quote_tag in_line_comment in_block_comment escaped in_single in_double in_backtick negb andb orb].
  rewrite andb_false_r. cbn iota. by rewrite !N.
Qed.
Lemma blank_scan ws current t : forallb is_whitespace ws = true -> split_from start current (ws ++ t) = split_from start (current ++ ws) t.
Proof.
  revert current. induction ws as [|c ws IH]; intros current H; cbn in H; [by rewrite app_nil_r|].
  apply andb_true_iff in H as [W H]. unfold split_from in *. cbn [app length split_loop]. rewrite blank_step by done.
  rewrite IH by done. by rewrite <- app_assoc.
Qed.

Lemma trim_blank ws s : forallb is_whitespace ws = true -> trim (ws ++ s) = trim s.
Proof.
  intros H. unfold trim. f_equal. unfold trim_start, trim_start_matches. induction ws as [|c ws IH]; [done|].
  cbn in *. apply andb_true_iff in H as [-> H]. by apply IH.
Qed.
Lemma trim_ends s : trim s = s -> s <> [] ->
  (exists c r, s = c :: r /\ is_whitespace c = false) /\ (exists l c, s = l ++ [c] /\ is_whitespace c = false).
Proof.
  intros E N. split.
  - destruct s as [|c r]; [done|]. exists c, r. split; [done|]. apply not_true_is_false. intros W.
    assert (L : zlen (trim (c :: r)) <= zlen r).
    { unfold trim, trim_start, trim_start_matches. cbn [drop_while]. rewrite W. etransitivity; [apply trim_end_matches_length|apply drop_while_length]. }
    rewrite E in L. rewrite zlen_cons in L. lia.
  - destruct s as [|c l _] using rev_ind; [done|]. exists l, c. split; [done|].
    unfold trim in E. exact (trim_end_matches_last _ _ _ _ E).
Qed.
Lemma trim_bracketed a s b x y : is_whitespace x = false -> is_whitespace y = false -> a = x :: s -> a = b ++ [y] -> trim a = a.
Proof.
  intros Hx Hy E E'. unfold trim, trim_start, trim_start_matches. rewrite E at 1. cbn [drop_while]. rewrite Hx, <- E.
  rewrite E'. unfold trim_end, trim_end_matches. rewrite reverse_snoc. cbn [drop_while]. rewrite Hy. by rewrite reverse_cons, reverse_involutive.
Qed.

Lemma finish_statement_some ws s : forallb is_whitespace ws = true -> statement s -> finish_statement (ws ++ s) = [s].
Proof. intros W (N & T & _). unfold finish_statement. rewrite trim_blank, T by done. by destruct s. Qed.

Lemma split_joined ws ss current : forallb is_whitespace ws = true -> forallb is_whitespace current = true -> ss <> [] -> Forall statement ss ->
  split_from start current (join (59 :: ws) ss) = ss.
Proof.
  intros W. revert current. induction ss as [|s ss IH]; intros current C N F; [done|]. apply list.Forall_cons in F as [Fs F].
  pose proof Fs as (Ns & Ts & Ss). destruct ss as [|s' ss].
  - cbn [join]. rewrite (proj2 (split_through (length s) start start s current [] start_ok (le_n _) Ss)). by apply finish_statement_some.
  - rewrite join_cons by done. cbn [app]. rewrite (proj1 (split_through (length s) start start s current _ start_ok (le_n _) Ss)).
    unfold split_from at 1. cbn [length]. cbn [app split_loop]. change (step start 59 ?r) with (Cut r). cbn iota.
    rewrite finish_statement_some by done. cbn [app]. f_equal.
    change (split_loop (length (ws ++ join (59 :: ws) (s' :: ss))) start [] (ws ++ join (59 :: ws) (s' :: ss)))
      with (split_from start [] (ws ++ join (59 :: ws) (s' :: ss))).
    rewrite blank_scan by done. cbn [app]. by apply IH.
Qed.

Lemma join_ends ws ss : ss <> [] -> Forall statement ss -> trim (join (59 :: ws) ss) = join (59 :: ws) ss /\ join (59 :: ws) ss <> [].
Proof.
  intros N F. destruct ss as [|s ss]; [done|]. apply list.Forall_cons in F as [(Ns & Ts & _) F].
  destruct (trim_ends s Ts Ns) as [(c & r & E & Wc) _].
  assert (A : exists l d, join (59 :: ws) (s :: ss) = l ++ [d] /\ is_whitespace d = false).
  { clear N c r E Wc. revert s Ns Ts. induction F as [|s' ss (N' & T' & _) F IH]; intros s Ns Ts.
    - destruct (trim_ends s Ts Ns) as [_ (l & d & E & Wd)]. by exists l, d.
    - destruct (IH s' N' T') as (l & d & E & Wd). exists (s ++ (59 :: ws) ++ l), d. split; [|done].
      rewrite join_cons by done. by rewrite E, !app_assoc. }
  destruct A as (l & d & A & Wd). split; [|by destruct (join (59 :: ws) (s :: ss)), l].
  assert (B : exists r', join (59 :: ws) (s :: ss) = c :: r').
  { destruct ss; [exists r; by rewrite E|]. rewrite join_cons by done. rewrite E. by eexists. }
  destruct B as [r' B]. exact (trim_bracketed _ r' l c d Wc Wd B A).
Qed.

Lemma trim_trimmed s : trim (trim s) = trim s.
Proof.
  destruct (trim s) as [|c r] eqn:E; [done|].
  assert (Wc : is_whitespace c = false).
  { unfold trim in E. destruct (trim_end_matches_split is_whitespace (trim_start s)) as (p & S & _).
    unfold trim_end in E. rewrite E in S. cbn [app] in S. exact (drop_while_head _ _ _ _ S). }
  destruct (exists_last (l := c :: r)) as (l & d & L); [done|].
  assert (Wd : is_whitespace d = false).
  { unfold trim in E. rewrite L in E. exact (trim_end_matches_last _ _ _ _ E). }
  exact (trim_bracketed _ r l c d Wc Wd eq_refl L).
Qed.

Definition trimmed (s : str) : Prop := s <> [] /\ trim s = s.
Lemma finish_trimmed current : Forall trimmed (finish_statement current).
Proof.
  unfold finish_statement. destruct (trim current) eqn:E; cbn [is_empty]; constructor; [|done].
  split; [done|]. rewrite <- E. apply trim_trimmed.
Qed.
Lemma split_loop_trimmed fuel s current chars : Forall trimmed (split_loop fuel s current chars).
Proof.
  revert s current chars. induction fuel as [|fuel IH]; intros s current [|c rest]; try apply finish_trimmed.
  cbn [split_loop]. destruct (step s c rest); [apply IH|]. apply list.Forall_app. split; [apply finish_trimmed|apply IH].
Qed.

(** Splitting undoes joining: statements whose quotes and comments are
    closed, joined by a separator and any blanks, are the statements of the
    script, whatever separators they quote; and the statements of any script
    are trimmed and not empty. *)
Theorem split_join ws ss : forallb is_whitespace ws = true -> Forall statement ss ->
  split_sql_statements (join (59 :: ws) ss) = ss /\ forall sql, Forall trimmed (split_sql_statements sql).
Proof.
  intros W F. split.
  - unfold split_sql_statements. destruct (decide (ss = [])) as [->|N]; [reflexivity|].
    destruct (join_ends ws ss N F) as [T Nj]. rewrite T. destruct (join (59 :: ws) ss) as [|c r] eqn:E; [done|]. cbn [is_empty].
    rewrite <- E. exact (split_joined ws ss [] W eq_refl N F).
  - intros sql. unfold split_sql_statements. destruct (is_empty (trim sql)); [constructor|apply split_loop_trimmed].
Qed.

(** ** Witness *)

Definition sample_statements : list str := [u "INSERT INTO t VALUES ('a;''b', $$ ; $$)"; u "SELECT 1 /* ; */ + `c;`"].
Lemma split_join_witness : split_sql_statements (join (u "; ") sample_statements) = sample_statements.
Proof.
  refine (proj1 (split_join (u " ") sample_statements eq_refl _)).
  repeat (apply list.Forall_cons; split; [split_and!; [discriminate|vm_compute; reflexivity|vm_compute; reflexivity]|]). constructor.
Defined.

End SqlScript.
