(* ===== verification/Batch.v ===== *)
(** Parameterised write batches (src-tauri/src/db/data_tasks/adapters/batch.rs):
    quoting, placeholders and the INSERT, UPDATE and DELETE statements of the
    planned rows.  Values only travel as parameters. *)
From S2P Require Import Prelude RustText DataTypes Values.
Import DataTypes Values.

Module Batch.

Inductive Dialect : Type := DSqlite | DPostgres | DMySql | DSqlServer | DClickHouse.

Record WriteBatch : Type := mkBatch {
  wb_sql : str;
  wb_params : list DataValue;
  wb_parameter_columns : list nat;
  wb_table : str;
  wb_kind : DataDiffOperation;
  wb_columns : list str;
}.

Definition parameter_limit (d : Dialect) : Z :=
  match d with DSqlite => 999 | DSqlServer => 2100 | _ => 65535 end.

(** [format!("`{}`", name.replace('`', "``"))] and its variants. *)
Definition identifier (d : Dialect) (name : str) : str :=
  match d with
  | DMySql | DClickHouse => [96] ++ replace_char 96 [96; 96] name ++ [96]
  | DSqlServer => [91] ++ replace_char 93 [93; 93] name ++ [93]
  | _ => [34] ++ replace_char 34 [34; 34] name ++ [34]
  end.

Definition placeholder (d : Dialect) (n : Z) : str :=
  match d with
  | DPostgres => u "$" ++ show_Z n
  | DSqlServer => u "@P" ++ show_Z n
  | _ => u "?"
  end.

(** [usize] arithmetic. *)
Definition parameters_per_row (columns keys : Z) (kind : DataDiffOperation) : Z :=
  match kind with
  | Insert => columns
  | Delete => keys
  | Update => wrap64 (wrap64 (wrap64 (columns - keys) * wrap64 (keys + 1)) + keys)
  | Retain => 0
  end.

(** The two vectors that [bind] fills. *)
Record Binds : Type := mkBinds { b_params : list DataValue; b_columns : list nat }.

(** A closure over the vectors, mapped over a list in order. *)
Fixpoint map_state {A B S} (f : A -> S -> B * S) (l : list A) (s : S) : list B * S :=
  match l with
  | [] => ([], s)
  | x :: l =>
    let '(y, s) := f x s in
    let '(ys, s) := map_state f l s in
    (y :: ys, s)
  end.

(** The guards make every index valid. *)
Definition cell (r : list DataValue) (i : nat) : DataValue := default VNull (r !! i).
Definition name_at (names : list str) (i : nat) : str := default [] (names !! i).

Definition bind (d : Dialect) (column : nat) (v : DataValue) (b : Binds) : str * Binds :=
  let b := mkBinds (b_params b ++ [v]) (b_columns b ++ [column]) in
  (placeholder d (zlen (b_params b)), b).

Definition key_equals (d : Dialect) (names : list str) (r : list DataValue) (i : nat) (b : Binds) : str * Binds :=
  let '(p, b) := bind d i (cell r i) b in (name_at names i ++ u " = " ++ p, b).
Definition predicate (d : Dialect) (names : list str) (keys : list nat) (r : list DataValue) (b : Binds) : str * Binds :=
  let '(parts, b) := map_state (key_equals d names r) keys b in (join (u " AND ") parts, b).

(** [(pred)] of a row, for the conditions. *)
Definition condition (d : Dialect) (names : list str) (keys : list nat) (r : list DataValue) (b : Binds) : str * Binds :=
  let '(p, b) := predicate d names keys r b in (u "(" ++ p ++ u ")", b).
Definition conditions (d : Dialect) (names : list str) (keys : list nat) (rows : list (list DataValue)) (b : Binds) : str * Binds :=
  let '(parts, b) := map_state (condition d names keys) rows b in (join (u " OR ") parts, b).

Definition tuple (d : Dialect) (r : list DataValue) (b : Binds) : str * Binds :=
  let '(parts, b) := map_state (fun '(index, v) b => bind d index v b) (imap pair r) b in
  (u "(" ++ join (u ",") parts ++ u ")", b).

Definition case_of (d : Dialect) (names : list str) (keys : list nat) (index : nat) (r : list DataValue) (b : Binds) : str * Binds :=
  let '(p, b) := predicate d names keys r b in
  let '(v, b) := bind d index (cell r index) b in
  (u "WHEN " ++ p ++ u " THEN " ++ v, b).

Definition assignment (d : Dialect) (names : list str) (keys : list nat) (rows : list (list DataValue)) (index : nat) (b : Binds) : str * Binds :=
  let '(cases, b) := map_state (case_of d names keys index) rows b in
  (name_at names index ++ u " = CASE " ++ join (u " ") cases ++ u " ELSE " ++ name_at names index ++ u " END", b).

(** The columns of the [for] loop that are not skipped. *)
Definition value_columns (columns : nat) (keys : list nat) : list nat := filter (fun i => i ∉ keys) (seq 0 columns).

Definition statement (d : Dialect) (target : str) (names : list str) (keys : list nat) (kind : DataDiffOperation)
  (rows : list (list DataValue)) : result (str * Binds) str :=
  let b := mkBinds [] [] in
  match kind with
  | Insert =>
    let '(tuples, b) := map_state (tuple d) rows b in
    Ok (u "INSERT INTO " ++ target ++ u " (" ++ join (u ",") names ++ u ") VALUES " ++ join (u ",") tuples, b)
  | Delete =>
    let '(c, b) := conditions d names keys rows b in
    Ok (u "DELETE FROM " ++ target ++ u " WHERE " ++ c, b)
  | Update =>
    let '(assignments, b) := map_state (assignment d names keys rows) (value_columns (length names) keys) b in
    let '(c, b) := conditions d names keys rows b in
    Ok (u "UPDATE " ++ target ++ u " SET " ++ join (u ",") assignments ++ u " WHERE " ++ c, b)
  | Retain => Err (u "保留行不能生成 DML")
  end.

(** [HashSet::len] against the list's length. *)
Definition distinct {A} `{EqDecision A} (l : list A) : bool := zlen (remove_dups l) =? zlen l.

Definition checked_mul (a b : Z) : option Z := if a * b <=? usize_max then Some (a * b) else None.

Definition build_batch (d : Dialect) (schema table : str) (columns : list str) (key_indices : list nat)
  (kind : DataDiffOperation) (rows : list (list DataValue)) : result WriteBatch str :=
  if is_empty columns || is_empty rows || (500 <? zlen rows) || negb (distinct columns)
     || existsb (fun i => zlen columns <=? Z.of_nat i) key_indices || negb (distinct key_indices)
     || existsb (fun r => negb (zlen r =? zlen columns)) rows
  then Err (u "集合写入字段、行形状或批次大小无效")
  else if negb (bool_decide (kind = Insert))
          && (is_empty key_indices || existsb (fun r => existsb (fun i => is_null (cell r i)) key_indices) rows)
  then Err (u "集合更新及删除必须具有非空主键")
  else
    let? required := ok_or (checked_mul (parameters_per_row (zlen columns) (zlen key_indices) kind) (zlen rows))
                       (u "参数数量溢出") in
    if (required =? 0) || (parameter_limit d <? required) then Err (u "集合写入超过方言参数预算")
    else
      let? (sql, b) := statement d (identifier d schema ++ u "." ++ identifier d table) (map (identifier d) columns)
                         key_indices kind rows in
      Ok (mkBatch sql (b_params b) (b_columns b) table kind columns).

(** ** Specification *)

(** The delimiters of a dialect, and the lexical rule of quoted identifiers:
    up to the closing delimiter, a doubled one standing for itself. *)
Definition open_quote (d : Dialect) : char := match d with DMySql | DClickHouse => 96 | DSqlServer => 91 | _ => 34 end.
Definition close_quote (d : Dialect) : char := match d with DMySql | DClickHouse => 96 | DSqlServer => 93 | _ => 34 end.
Fixpoint scan_quoted (q : char) (s : str) : option (str * str) :=
  match s with
  | [] => None
  | c :: s' =>
    if c =? q
    then match s' with
         | c' :: s'' => if c' =? q then (fun '(n, r) => (q :: n, r)) <$> scan_quoted q s'' else Some ([], s')
         | [] => Some ([], [])
         end
    else (fun '(n, r) => (c :: n, r)) <$> scan_quoted q s'
  end.
Definition scan_identifier (d : Dialect) (s : str) : option (str * str) :=
  match s with c :: s => if c =? open_quote d then scan_quoted (close_quote d) s else None | [] => None end.

(** The parameters a statement needs, with their columns. *)
Definition key_cells (keys : list nat) (r : list DataValue) : list (DataValue * nat) := map (fun i => (cell r i, i)) keys.
Definition expected_binds (columns : nat) (keys : list nat) (kind : DataDiffOperation) (rows : list (list DataValue)) :
  list (DataValue * nat) :=
  let by_key := concat (map (key_cells keys) rows) in
  match kind with
  | Insert => concat (map (fun r => map (fun p => (p.2, p.1)) (imap pair r)) rows)
  | Delete => by_key
  | Update =>
    concat (map (fun i => concat (map (fun r => key_cells keys r ++ [(cell r i, i)]) rows)) (value_columns columns keys))
    ++ by_key
  | Retain => []
  end.

(** ** Proofs *)

Lemma scan_quoted_closed q n rest : head rest <> Some q ->
  scan_quoted q (replace_char q [q; q] n ++ q :: rest) = Some (n, rest).
Proof.
  intros H. induction n as [|c n IH].
  - change (replace_char q [q; q] []) with (@nil Z). cbn [app scan_quoted]. rewrite Z.eqb_refl. destruct rest as [|c rest]; [done|].
    destruct (c =? q) eqn:E; to_prop; [|done]. cbn in H. congruence.
  - unfold replace_char in *. cbn [map concat]. destruct (c =? q) eqn:E.
    + to_prop. subst c. cbn [app scan_quoted]. rewrite Z.eqb_refl. by rewrite IH.
    + cbn [app scan_quoted]. rewrite E. by rewrite IH.
Qed.

(** How many parameters have been bound. *)
Definition bound (b : Binds) : Z := zlen (b_params b).
Definition pairs (b : Binds) : list (DataValue * nat) := zip (b_params b) (b_columns b).
Definition aligned (b : Binds) : Prop := length (b_params b) = length (b_columns b).

(** [f] appends [spec x] to the binds. *)
Definition appends {A B} (f : A -> Binds -> B * Binds) (spec : A -> list (DataValue * nat)) (x : A) : Prop :=
  forall b, aligned b -> aligned (f x b).2 /\ pairs (f x b).2 = pairs b ++ spec x.

Lemma bind_appends d i v : forall b, aligned b -> aligned (bind d i v b).2 /\ pairs (bind d i v b).2 = pairs b ++ [(v, i)].
Proof.
  intros b A. unfold bind, aligned, pairs in *. cbn. rewrite !length_app. split; [cbn; lia|]. by rewrite zip_with_app.
Qed.

Lemma map_state_appends {A B} (f : A -> Binds -> B * Binds) spec l :
  Forall (appends f spec) l -> forall b, aligned b ->
  aligned (map_state f l b).2 /\ pairs (map_state f l b).2 = pairs b ++ concat (map spec l).
Proof.
  induction 1 as [|x l Hx _ IH]; intros b Ha; cbn [map_state map concat snd].
  { by rewrite app_nil_r. }
  destruct (Hx b Ha) as [A1 E1]. destruct (f x b) as [y b1]. cbn in A1, E1.
  destruct (IH b1 A1) as [A2 E2]. destruct (map_state f l b1) as [ys b2]. cbn in A2, E2 |- *.
  split; [done|]. by rewrite E2, E1, <- app_assoc.
Qed.

Lemma concat_singletons {A B} (f : A -> B) l : concat (map (fun i => [f i]) l) = map f l.
Proof. induction l; cbn; congruence. Qed.

Lemma predicate_appends d names keys r : appends (predicate d names keys) (key_cells keys) r.
Proof.
  intros b A. unfold predicate.
  assert (F : Forall (appends (key_equals d names r) (fun i => [(cell r i, i)])) keys).
  { apply list.Forall_forall. intros i _ b' A'. unfold key_equals.
    pose proof (bind_appends d i (cell r i) b' A') as H. by destruct (bind d i (cell r i) b'). }
  destruct (map_state_appends _ _ _ F b A) as [A1 E1]. rewrite concat_singletons in E1. by destruct (map_state _ keys b).
Qed.
Lemma condition_appends d names keys r : appends (condition d names keys) (key_cells keys) r.
Proof.
  intros b A. unfold condition. pose proof (predicate_appends d names keys r b A) as H. by destruct (predicate _ _ _ _ _).
Qed.
Lemma conditions_appends d names keys rows :
  appends (conditions d names keys) (fun rows => concat (map (key_cells keys) rows)) rows.
Proof.
  intros b A. unfold conditions.
  assert (F : Forall (appends (condition d names keys) (key_cells keys)) rows).
  { apply list.Forall_forall. intros r _. apply condition_appends. }
  pose proof (map_state_appends _ _ _ F b A) as H. by destruct (map_state _ _ _).
Qed.

Lemma tuple_appends d r : appends (tuple d) (fun r => map (fun p => (p.2, p.1)) (imap pair r)) r.
Proof.
  intros b A. unfold tuple.
  assert (F : Forall (appends (fun '(i, v) b => bind d i v b) (fun p => [(p.2, p.1)])) (imap pair r)).
  { apply list.Forall_forall. intros [i v] _ b'. apply bind_appends. }
  pose proof (map_state_appends _ _ _ F b A) as [A1 E1]. rewrite concat_singletons in E1. by destruct (map_state _ _ _).
Qed.

Lemma case_appends d names keys index r :
  appends (case_of d names keys index) (fun r => key_cells keys r ++ [(cell r index, index)]) r.
Proof.
  intros b A. unfold case_of. pose proof (predicate_appends d names keys r b A) as [A1 E1].
  destruct (predicate _ _ _ _ _) as [p b1]. cbn in A1, E1. pose proof (bind_appends d index (cell r index) b1 A1) as [A2 E2].
  destruct (bind _ _ _ _) as [v b2]. cbn in *. split; [done|]. by rewrite E2, E1, <- app_assoc.
Qed.

Lemma assignment_appends d names keys rows index :
  appends (assignment d names keys rows) (fun i => concat (map (fun r => key_cells keys r ++ [(cell r i, i)]) rows)) index.
Proof.
  intros b A. unfold assignment.
  assert (F : Forall (appends (case_of d names keys index) (fun r => key_cells keys r ++ [(cell r index, index)])) rows).
  { apply list.Forall_forall. intros r _. apply case_appends. }
  pose proof (map_state_appends _ _ _ F b A) as H. by destruct (map_state _ _ _).
Qed.

Lemma statement_binds d target names keys kind rows sql b : statement d target names keys kind rows = Ok (sql, b) ->
  aligned b /\ pairs b = expected_binds (length names) keys kind rows.
Proof.
  assert (A0 : aligned (mkBinds [] [])) by done. unfold statement. destruct kind; [| | |done].
  - assert (F : Forall (appends (tuple d) (fun r => map (fun p => (p.2, p.1)) (imap pair r))) rows).
    { apply list.Forall_forall. intros r _. apply tuple_appends. }
    destruct (map_state_appends _ _ _ F _ A0) as [A1 E1]. destruct (map_state _ _ _) as [ts b1].
    intros [= _ <-]. done.
  - assert (F : Forall (appends (assignment d names keys rows) (fun i => concat (map (fun r => key_cells keys r ++ [(cell r i, i)]) rows)))
        (value_columns (length names) keys)).
    { apply list.Forall_forall. intros i _. apply assignment_appends. }
    destruct (map_state_appends _ _ _ F _ A0) as [A1 E1]. destruct (map_state _ _ _) as [ts b1]. cbn in A1, E1.
    destruct (conditions_appends d names keys rows b1 A1) as [A2 E2]. destruct (conditions _ _ _ _ _) as [c b2]. cbn in A2, E2.
    intros [= _ <-]. split; [done|]. by rewrite E2, E1.
  - destruct (conditions_appends d names keys rows _ A0) as [A2 E2]. destruct (conditions _ _ _ _ _) as [c b2]. cbn in A2, E2.
    intros [= _ <-]. done.
Qed.

(** ** The text does not depend on the values *)

(** Two closures that write the same text and bind as many parameters. *)
Definition same_text {A B} (f : A -> Binds -> B * Binds) (x y : A) : Prop :=
  forall b b', bound b = bound b' -> (f x b).1 = (f y b').1 /\ bound (f x b).2 = bound (f y b').2.

Lemma bind_same d i v v' : forall b b', bound b = bound b' ->
  (bind d i v b).1 = (bind d i v' b').1 /\ bound (bind d i v b).2 = bound (bind d i v' b').2.
Proof. intros b b' E. unfold bind, bound in *. cbn. rewrite !zlen_app. change (zlen [v]) with 1. change (zlen [v']) with 1. by rewrite E. Qed.

Lemma map_state_same {A B} (f : A -> Binds -> B * Binds) l k : Forall2 (same_text f) l k ->
  forall b b', bound b = bound b' ->
  (map_state f l b).1 = (map_state f k b').1 /\ bound (map_state f l b).2 = bound (map_state f k b').2.
Proof.
  induction 1 as [|x y l k Hx _ IH]; intros b b' E; cbn [map_state]; [done|].
  destruct (Hx b b' E) as [T1 E1]. destruct (f x b) as [p b1], (f y b') as [q b2]. cbn in T1, E1. subst q.
  destruct (IH b1 b2 E1) as [T2 E2]. destruct (map_state f l b1), (map_state f k b2). cbn in *. by subst.
Qed.

Lemma key_equals_same d names r r' i : forall b b', bound b = bound b' ->
  (key_equals d names r i b).1 = (key_equals d names r' i b').1 /\
  bound (key_equals d names r i b).2 = bound (key_equals d names r' i b').2.
Proof.
  intros b b' E. unfold key_equals. destruct (bind_same d i (cell r i) (cell r' i) b b' E) as [T1 E1].
  destruct (bind d i (cell r i) b), (bind d i (cell r' i) b'). cbn in *. by subst.
Qed.

Lemma predicate_same d names keys r r' : same_text (predicate d names keys) r r'.
Proof.
  intros b b' E. unfold predicate.
  assert (X : (map_state (key_equals d names r) keys b).1 = (map_state (key_equals d names r') keys b').1 /\
    bound (map_state (key_equals d names r) keys b).2 = bound (map_state (key_equals d names r') keys b').2).
  { revert b b' E. induction keys as [|i ks IH]; intros b b' E; cbn [map_state]; [done|].
    destruct (key_equals_same d names r r' i b b' E) as [T1 E1].
    destruct (key_equals d names r i b) as [p b1], (key_equals d names r' i b') as [q b2]. cbn in T1, E1. subst q.
    destruct (IH b1 b2 E1) as [T2 E2]. destruct (map_state _ ks b1), (map_state _ ks b2). cbn in *. by subst. }
  destruct X as [T1 E1]. destruct (map_state _ keys b), (map_state _ keys b'). cbn in *. by subst.
Qed.

Lemma condition_same d names keys r r' : same_text (condition d names keys) r r'.
Proof.
  intros b b' E. unfold condition. destruct (predicate_same d names keys r r' b b' E) as [T1 E1].
  destruct (predicate _ _ _ _ b), (predicate _ _ _ _ b'). cbn in *. by subst.
Qed.

Lemma all_same {A B} (f : A -> Binds -> B * Binds) l k : (forall x y, same_text f x y) -> length l = length k ->
  Forall2 (same_text f) l k.
Proof. intros H. revert k. induction l as [|x l IH]; intros [|y k] E; try done; constructor; auto. Qed.

Lemma conditions_same d names keys rows rows' : length rows = length rows' -> forall b b', bound b = bound b' ->
  (conditions d names keys rows b).1 = (conditions d names keys rows' b').1 /\
  bound (conditions d names keys rows b).2 = bound (conditions d names keys rows' b').2.
Proof.
  intros L b b' E. unfold conditions.
  destruct (map_state_same _ _ _ (all_same _ _ _ (condition_same d names keys) L) b b' E) as [T1 E1].
  destruct (map_state _ rows b), (map_state _ rows' b'). cbn in *. by subst.
Qed.

Lemma tuple_same d r r' : length r = length r' -> same_text (tuple d) r r'.
Proof.
  intros L b b' E. unfold tuple.
  assert (F : Forall2 (same_text (fun '(i, v) b => bind d i v b)) (imap pair r) (imap pair r')).
  { apply Forall2_same_length_lookup_2; [by rewrite !length_imap|]. intros i [i1 v1] [i2 v2] H1 H2.
    rewrite list_lookup_imap in H1, H2. destruct (r !! i), (r' !! i); cbn in H1, H2; try done.
    injection H1 as <- _. injection H2 as <- _. intros c c'. apply bind_same. }
  destruct (map_state_same _ _ _ F b b' E) as [T1 E1]. destruct (map_state _ _ b), (map_state _ _ b'). cbn in *. by subst.
Qed.

Lemma case_same d names keys index r r' : same_text (case_of d names keys index) r r'.
Proof.
  intros b b' E. unfold case_of. destruct (predicate_same d names keys r r' b b' E) as [T1 E1].
  destruct (predicate _ _ _ _ b) as [p b1], (predicate _ _ _ _ b') as [q b2]. cbn in T1, E1. subst q.
  destruct (bind_same d index (cell r index) (cell r' index) b1 b2 E1) as [T2 E2].
  destruct (bind _ _ _ b1), (bind _ _ _ b2). cbn in *. by subst.
Qed.

Lemma assignment_same d names keys rows rows' index : length rows = length rows' -> forall b b', bound b = bound b' ->
  (assignment d names keys rows index b).1 = (assignment d names keys rows' index b').1 /\
  bound (assignment d names keys rows index b).2 = bound (assignment d names keys rows' index b').2.
Proof.
  intros L b b' E. unfold assignment.
  destruct (map_state_same _ _ _ (all_same _ _ _ (case_same d names keys index) L) b b' E) as [T1 E1].
  destruct (map_state _ rows b), (map_state _ rows' b'). cbn in *. by subst.
Qed.

Lemma assignments_same d names keys rows rows' ixs : length rows = length rows' -> forall b b', bound b = bound b' ->
  (map_state (assignment d names keys rows) ixs b).1 = (map_state (assignment d names keys rows') ixs b').1 /\
  bound (map_state (assignment d names keys rows) ixs b).2 = bound (map_state (assignment d names keys rows') ixs b').2.
Proof.
  intros L. induction ixs as [|i ixs IH]; intros b b' E; cbn [map_state]; [done|].
  destruct (assignment_same d names keys rows rows' i L b b' E) as [T1 E1].
  destruct (assignment d names keys rows i b) as [p b1], (assignment d names keys rows' i b') as [q b2]. cbn in T1, E1. subst q.
  destruct (IH b1 b2 E1) as [T2 E2]. destruct (map_state _ ixs b1), (map_state _ ixs b2). cbn in *. by subst.
Qed.

Lemma statement_same d target names keys kind rows rows' sql sql' b b' :
  Forall2 (fun r r' => length r = length r') rows rows' ->
  statement d target names keys kind rows = Ok (sql, b) -> statement d target names keys kind rows' = Ok (sql', b') -> sql = sql'.
Proof.
  intros F. pose proof (Forall2_length _ _ _ F) as L. set (b0 := mkBinds [] []).
  unfold statement. fold b0. destruct kind; [| | |done].
  - assert (F' : Forall2 (same_text (tuple d)) rows rows') by (eapply Forall2_impl; [exact F|]; apply tuple_same).
    destruct (map_state_same _ _ _ F' b0 b0 eq_refl) as [T _].
    destruct (map_state _ rows b0), (map_state _ rows' b0). cbn in T. subst. intros [= <- _] [= <- _]. done.
  - destruct (assignments_same d names keys rows rows' (value_columns (length names) keys) L b0 b0 eq_refl) as [T E].
    destruct (map_state (assignment d names keys rows) _ b0) as [x b1], (map_state (assignment d names keys rows') _ b0) as [x' b2].
    cbn in T, E. subst x'. destruct (conditions_same d names keys rows rows' L b1 b2 E) as [T _].
    destruct (conditions _ _ _ rows b1), (conditions _ _ _ rows' b2). cbn in T. subst. intros [= <- _] [= <- _]. done.
  - destruct (conditions_same d names keys rows rows' L b0 b0 eq_refl) as [T _].
    destruct (conditions _ _ _ rows b0), (conditions _ _ _ rows' b0). cbn in T. subst. intros [= <- _] [= <- _]. done.
Qed.

(** ** Counting parameters *)

Lemma distinct_nodup {A} `{EqDecision A} (l : list A) : distinct l = true -> NoDup l.
Proof.
  assert (L : forall l : list A, (length (remove_dups l) <= length l)%nat).
  { induction l0 as [|x l0 IH]; cbn [remove_dups length]; [lia|]. case_decide; cbn [length]; lia. }
  unfold distinct. intros H. to_prop. unfold zlen in H. induction l as [|x l IH]; [constructor|].
  cbn [remove_dups length] in H. specialize (L l). case_decide as D; cbn [length] in H; [lia|].
  constructor; [done|]. apply IH. lia.
Qed.

Lemma value_columns_length n keys : NoDup keys -> Forall (fun i => i < n)%nat keys ->
  zlen (value_columns n keys) = Z.of_nat n - zlen keys.
Proof.
  intros N F. unfold value_columns.
  assert (P : filter (fun i => i ∈ keys) (seq 0 n) ≡ₚ keys).
  { apply NoDup_Permutation; [apply NoDup_filter, NoDup_seq|done|]. intros i.
    rewrite list_elem_of_filter, elem_of_seq. rewrite list.Forall_forall in F. split; [by intros []|].
    intros H. specialize (F i H). split; [done|lia]. }
  assert (T : forall l : list nat, (length (filter (fun i => i ∉ keys) l) + length (filter (fun i => i ∈ keys) l) = length l)%nat).
  { induction l as [|i l IH]; [done|]. rewrite !filter_cons. destruct (decide (i ∈ keys)), (decide (i ∉ keys)); cbn; try done; lia. }
  specialize (T (seq 0 n)). apply Permutation_length in P. rewrite length_seq in T. unfold zlen. lia.
Qed.

Lemma concat_length_const {A} (ls : list (list A)) n : Forall (fun l => zlen l = n) ls -> zlen (concat ls) = zlen ls * n.
Proof. induction 1 as [|l ls Hl _ IH]; [done|]. cbn [concat]. autorewrite with zlen. lia. Qed.

Lemma map_concat_const {A B} (f : A -> list B) l n : (forall x, x ∈ l -> zlen (f x) = n) -> zlen (concat (map f l)) = zlen l * n.
Proof.
  intros H. rewrite (concat_length_const _ n), zlen_map; [done|].
  apply list.Forall_forall. intros y (x & -> & Hx)%list_elem_of_fmap. auto.
Qed.

(** The exact number of parameters, without wrap-around. *)
Definition parameter_count (columns keys : Z) (kind : DataDiffOperation) : Z :=
  match kind with Insert => columns | Delete => keys | Update => (columns - keys) * (keys + 1) + keys | Retain => 0 end.

Lemma expected_binds_length n keys kind rows :
  NoDup keys -> Forall (fun i => i < n)%nat keys -> Forall (fun r => length r = n) rows ->
  zlen (expected_binds n keys kind rows) = parameter_count (Z.of_nat n) (zlen keys) kind * zlen rows.
Proof.
  intros N Fk Fr. rewrite list.Forall_forall in Fr.
  assert (K : forall r, zlen (key_cells keys r) = zlen keys) by (intros; apply zlen_map).
  assert (Kc : zlen (concat (map (key_cells keys) rows)) = zlen rows * zlen keys) by (apply map_concat_const; intros; apply K).
  destruct kind; cbn [expected_binds parameter_count].
  - rewrite (map_concat_const _ _ (Z.of_nat n)); [lia|]. intros r Hr. rewrite zlen_map. unfold zlen.
    rewrite length_imap. by rewrite (Fr r Hr).
  - rewrite zlen_app, Kc. rewrite (map_concat_const _ _ (zlen rows * (zlen keys + 1))).
    + rewrite value_columns_length by done. lia.
    + intros i _. apply map_concat_const. intros r _. rewrite zlen_app, K. done.
  - rewrite Kc. lia.
  - done.
Qed.

Lemma parameters_exact columns keys kind : 0 <= keys <= columns -> columns <= u32_max ->
  parameters_per_row columns keys kind = parameter_count columns keys kind.
Proof.
  intros K C. unfold u32_max in C. destruct kind; cbn [parameters_per_row parameter_count]; try done.
  assert (0 <= (columns - keys) * (keys + 1) <= 4294967295 * 4294967296) by nia.
  assert (R : forall z, 0 <= z <= 4294967295 * 4294967296 + 4294967295 -> wrap64 z = z).
  { intros z Hz. apply wrap64_id. unfold u64_range, u64_max. lia. }
  rewrite (R (columns - keys)), (R (keys + 1)) by lia. rewrite (R ((columns - keys) * (keys + 1))) by lia. apply R. lia.
Qed.

(** ** Properties *)

(** A quoted identifier is read back as the name, whatever the name
    contains, and what follows is untouched: no name can end the quoting. *)
Theorem identifier_scans d name rest : head rest <> Some (close_quote d) ->
  scan_identifier d (identifier d name ++ rest) = Some (name, rest).
Proof.
  intros H. pose proof (scan_quoted_closed (close_quote d) name rest H) as Q.
  destruct d; cbn [identifier close_quote] in *; rewrite <- !app_assoc; cbn [app scan_identifier open_quote]; exact Q.
Qed.

(** The shape that [build_batch] accepts. *)
Record accepted (d : Dialect) (columns : list str) (keys : list nat) (kind : DataDiffOperation) (rows : list (list DataValue)) : Prop := {
  ac_columns : columns <> [] /\ NoDup columns;
  ac_rows : 1 <= zlen rows <= 500;
  ac_shape : Forall (fun r => length r = length columns) rows;
  ac_keys : NoDup keys /\ Forall (fun i => i < length columns)%nat keys;
  ac_located : kind <> Insert -> keys <> [] /\ Forall (fun r => Forall (fun i => is_null (cell r i) = false) keys) rows;
}.

Lemma build_batch_inv d schema tb columns keys kind rows w :
  build_batch d schema tb columns keys kind rows = Ok w ->
  accepted d columns keys kind rows /\
  parameters_per_row (zlen columns) (zlen keys) kind * zlen rows <= parameter_limit d /\
  exists b, statement d (identifier d schema ++ u "." ++ identifier d tb) (map (identifier d) columns) keys kind rows =
              Ok (wb_sql w, b) /\ wb_params w = b_params b /\ wb_parameter_columns w = b_columns b /\
    wb_table w = tb /\ wb_kind w = kind /\ wb_columns w = columns.
Proof.
  unfold build_batch. intros H. case_if_in H; [done|]. case_if_in H; [done|]. to_prop.
  apply rbind_ok_inv in H as (required & R & H). apply ok_or_ok_inv in R. case_if_in H; [done|]. to_prop.
  apply rbind_ok_inv in H as ([sql b] & Ss & H). apply Ok_inj in H as <-. cbn.
  unfold checked_mul in R. case_if_in R; [|done]. injection R as <-. to_prop.
  split; [|split; [lia|by exists b]].
  assert (Sh : Forall (fun r => length r = length columns) rows).
  { apply list.Forall_forall. intros r Hr. match goal with H : existsb (fun r => negb (zlen r =? _)) _ = false |- _ => rewrite existsb_false_iff in H; specialize (H r Hr) end.
    to_prop. unfold zlen in *. lia. }
  split; try done.
  - split; [by destruct columns|]. by apply distinct_nodup.
  - destruct rows as [|r rows]; [done|]. rewrite zlen_cons in *. pose proof (zlen_nonneg rows). lia.
  - split; [by apply distinct_nodup|]. apply list.Forall_forall. intros i Hi.
    match goal with H : existsb (fun i => zlen columns <=? _) _ = false |- _ => rewrite existsb_false_iff in H; specialize (H i Hi) end.
    to_prop. unfold zlen in *. lia.
  - intros K. match goal with H : _ && _ = false |- _ => apply andb_false_iff in H as [H|H] end.
    + exfalso. to_prop. done.
    + to_prop. split; [by destruct keys|]. apply list.Forall_forall. intros r Hr. apply list.Forall_forall. intros i Hi.
      match goal with H : existsb (fun r => existsb _ keys) rows = false |- _ =>
        rewrite existsb_false_iff in H; specialize (H r Hr); rewrite existsb_false_iff in H; exact (H i Hi) end.
Qed.

(** A statement that changes rows of a table, and nothing else. *)
Definition data_statement (sql : str) : bool := starts_with (u "INSERT") sql || starts_with (u "UPDATE") sql || starts_with (u "DELETE") sql.

Lemma starts_with_app p s r : starts_with p s = true -> starts_with p (s ++ r) = true.
Proof. rewrite !starts_with_iff. intros [x ->]. exists (x ++ r). by rewrite app_assoc. Qed.
Lemma data_statement_app s r : data_statement s = true -> data_statement (s ++ r) = true.
Proof.
  unfold data_statement. intros H. apply orb_true_iff in H as [H|H]; [apply orb_true_iff in H as [H|H]|];
    rewrite (starts_with_app _ _ r H), ?orb_true_r; done.
Qed.
Lemma build_batch_data d schema tb columns keys kind rows w :
  build_batch d schema tb columns keys kind rows = Ok w -> data_statement (wb_sql w) = true.
Proof.
  intros (_ & _ & b & H & _)%build_batch_inv. unfold statement in H. destruct kind; [..|done].
  1-3: repeat (match type of H with context [let '(_, _) := ?x in _] => destruct x end).
  all: apply Ok_inj, (f_equal fst) in H; cbn [fst] in H; rewrite <- H; by apply data_statement_app.
Qed.

(** A batch carries exactly the planned values, and only as parameters.
    An accepted batch has well-shaped rows with, for updates and deletions,
    non-null keys; its parameters are, in order and with their columns, the
    values the statement needs; their number is the advertised one and within
    the dialect's limit; and its text is the same for any other values. *)
Theorem build_batch_exact d schema tb columns keys kind rows w :
  zlen columns <= u32_max -> build_batch d schema tb columns keys kind rows = Ok w ->
  accepted d columns keys kind rows /\
  length (wb_params w) = length (wb_parameter_columns w) /\
  zip (wb_params w) (wb_parameter_columns w) = expected_binds (length columns) keys kind rows /\
  zlen (wb_params w) = parameters_per_row (zlen columns) (zlen keys) kind * zlen rows /\
  zlen (wb_params w) <= parameter_limit d /\
  forall rows' w', length rows' = length rows -> build_batch d schema tb columns keys kind rows' = Ok w' ->
    wb_sql w' = wb_sql w.
Proof.
  intros C H. apply build_batch_inv in H as (A & L & b & Ss & Ep & Ec & _).
  destruct (statement_binds _ _ _ _ _ _ _ _ Ss) as [Al E]. unfold aligned, pairs in *. rewrite length_map in E.
  rewrite Ep, Ec. pose proof (ac_keys _ _ _ _ _ A) as [Nk Fk].
  assert (Ln : zlen keys <= zlen columns).
  { pose proof (value_columns_length _ _ Nk Fk) as V. pose proof (zlen_nonneg (value_columns (length columns) keys)). unfold zlen in *. lia. }
  assert (N : zlen (b_params b) = parameters_per_row (zlen columns) (zlen keys) kind * zlen rows).
  { pose proof (zlen_nonneg keys) as Pk. rewrite parameters_exact by lia.
    pose proof (expected_binds_length (length columns) keys kind rows Nk Fk (ac_shape _ _ _ _ _ A)) as X.
    rewrite <- E in X. unfold zlen in X |- *. rewrite length_zip_with in X. lia. }
  split_and!; try done; [lia|].
  intros rows' w' Lr H'. apply build_batch_inv in H' as (A' & _ & b' & Ss' & _).
  eapply statement_same; [|exact Ss'|exact Ss]. pose proof (ac_shape _ _ _ _ _ A) as S1. pose proof (ac_shape _ _ _ _ _ A') as S2.
  rewrite list.Forall_lookup in S1, S2. apply Forall2_same_length_lookup_2; [done|].
  intros i r r' H1 H2. by rewrite (S2 _ _ H1), (S1 _ _ H2).
Qed.

(** ** Witnesses *)

Definition sample_batch_rows : list (list DataValue) := [[VInt 1; VText (u "a'b")]; [VInt 2; VNull]].
Definition sample_batch_columns : list str := [u "id"; u "v"].

Lemma identifier_scans_witness : scan_identifier DMySql (identifier DMySql (u "a`b") ++ u " = ?") = Some (u "a`b", u " = ?").
Proof. apply (identifier_scans DMySql (u "a`b") (u " = ?")). vm_compute. discriminate. Defined.

Lemma build_batch_exact_witness : exists w,
  build_batch DPostgres (u "main") (u "t") sample_batch_columns [0%nat] Update sample_batch_rows = Ok w /\
  zlen (wb_params w) = 6.
Proof.
  destruct (build_batch DPostgres (u "main") (u "t") sample_batch_columns [0%nat] Update sample_batch_rows) as [w|e] eqn:E.
  - exists w. split; [reflexivity|].
    assert (C : zlen sample_batch_columns <= u32_max) by (vm_compute; discriminate).
    exact (proj1 (proj2 (proj2 (proj2 (build_batch_exact DPostgres (u "main") (u "t") sample_batch_columns [0%nat] Update
      sample_batch_rows w C E))))).
  - vm_compute in E. discriminate E.
Defined.

End Batch.
