(* ===== verification/Executor.v ===== *)
(** The transactional execution of a plan over database sessions
    ([execute_network] and what it calls in
    src-tauri/src/db/data_tasks/executor.rs).

    A session is the [DataSession] trait: a record of operations on an
    abstract world, which also holds the clocks, the cancellation flag, the
    budget's counters and whatever the progress callback does.  The worker
    threads run to completion where they are awaited.  A spool is the rows its
    cursors read, as in [Plan]. *)
From S2P Require Import Prelude RustText DataTypes Registry MetaTypes Values Spool SpoolSort TypeMapping Metadata Plan Batch.
Import DataTypes MetaTypes Values Spool SpoolSort TypeMapping Metadata Plan Batch.

Module Executor.

(** ** Errors *)

(** [message.split_once(": ")] *)
Fixpoint split_code (s : str) : option (str * str) :=
  match strip_prefix (u ": ") s with
  | Some rest => Some ([], rest)
  | None => match s with c :: s => (fun '(a, b) => (c :: a, b)) <$> split_code s | [] => None end
  end.

Definition error_codes : list String.string :=
  ["plan_stale"; "cancelled"; "invalid_mapping"; "unsupported_capability"; "resource_limit"; "read_only_target";
   "same_physical_target"; "validation_failed"; "constraint_conflict"; "plan_expired"; "lock_timeout"; "outcome_unknown"]%string.

Definition error (message : str) : DataTaskError :=
  let '(code, body) := default (u "database_error", message) (split_code message) in
  mkError (if one_of code error_codes then code else u "database_error") body.

(** ** Projections *)

Record Projection : Type := mkProjection {
  pj_table : str; pj_output_table : str; pj_columns : list str; pj_key_indices : list nat }.

Definition projections (mapping : ValidatedMapping) (source : bool) : list Projection :=
  map (fun m => mkProjection (if source then vt_source_table m else vt_target_table m) (vt_target_table m)
                  (if source then vt_source_columns m else vt_target_columns m) (vt_key_indices m)) (vm_tables mapping).

Definition full_projections (mapping : ValidatedMapping) (metadata : DataMetadataSnapshot) : result (list Projection) str :=
  traverse (fun m =>
    let? t := ok_or (find_table (md_tables metadata) (vt_target_table m)) (u "plan_stale: 目标物理表已不存在") in
    Ok (mkProjection (tb_name t) (tb_name t) (map dc_name (tb_columns t)) [])) (vm_tables mapping).

Definition projected_row (row : CanonicalRow) (full projected : Projection) : result CanonicalRow str :=
  let? vs := traverse (fun name => ok_or (i ← position (fun c => str_eqb c name) (pj_columns full); values row !! i)
                                     (u "plan_stale: 目标映射字段已不存在")) (pj_columns projected) in
  let? k := traverse (fun i => ok_or (vs !! i) panic_index) (pj_key_indices projected) in
  new_row (pj_output_table projected) k vs.

(** ** Sizes of bound parameters *)

Section Sizes.
Context (layout : Layout).

Definition value_memory (v : DataValue) : Z := sat_add (size_of_value layout) (value_encoded_size v).
(** [sum::<usize>()] wraps. *)
Definition sum_usize (l : list Z) : Z := fold_left (fun a n => wrap64 (a + n)) l 0.
Definition parameter_memory (row : list DataValue) (mapping : ValidatedTableMapping) (kind : DataDiffOperation) : Z :=
  let keys := sum_usize (map (fun i => value_memory (cell row i)) (vt_key_indices mapping)) in
  match kind with
  | Insert => sum_usize (map value_memory row)
  | Delete => keys
  | Update =>
    sat_add (sum_usize (map (fun i => sat_add keys (value_memory (cell row i)))
                          (value_columns (length row) (vt_key_indices mapping)))) keys
  | Retain => 0
  end.
End Sizes.

(** ** Reading the planned operations in batches *)

Record PreparedBatch : Type := mkPrepared { pb_batch : WriteBatch; pb_rows : Z; pb_memory : Z }.

(** [cursor]: the operations it still has; [pending]: a row and its lease. *)
Record BatchReader : Type := mkReader {
  br_kind : DataDiffOperation; br_table_index : nat; br_cursor : option Rows; br_pending : option (CanonicalRow * Z) }.

Definition kind_eqb (a b : DataDiffOperation) : bool := bool_decide (a = b).

(** The inner loop over the cursor. *)
Fixpoint next_data (tb : str) (kind : DataDiffOperation) (ops : Rows) : result (option CanonicalRow * Rows) str :=
  match ops with
  | [] => Ok (None, [])
  | row :: ops =>
    if negb (str_eqb (table row) tb) then next_data tb kind ops
    else
      let? op := from_row row in
      if negb (kind_eqb (op_kind op) kind) then next_data tb kind ops
      else Ok (if kind_eqb kind Delete then op_old op else op_new op, ops)
  end.

Definition drop_leases (leases : list Z) (c : Counters) : Counters := fold_right drop_lease c leases.

Section Reader.
Context (layout : Layout) (b : ResourceBudget) (d : Dialect) (schema : str) (mapping_tables : ValidatedMapping).
Context (operations : Rows) (cancelled_now : bool).

Definition order_of (kind : DataDiffOperation) : list str :=
  if kind_eqb kind Delete then vm_delete_order mapping_tables else vm_insert_order mapping_tables.
Definition encoded_multiplier : Z := match d with DClickHouse => 8 | _ => 2 end.
Definition batch_bytes : Z := 4 * 1024 * 1024.

(** What a batch has collected. *)
Record Filled : Type := mkFilled {
  f_cursor : Rows; f_pending : option (CanonicalRow * Z); f_rows : list (list DataValue); f_leases : list Z; f_bytes : Z }.

(** The lease of a row: the pending one, or a new one. *)
Definition lease_for (row : CanonicalRow) (held : option Z) (c : Counters) : result (Z * Counters) str :=
  match held with
  | Some n => Ok (n, c)
  | None => let n := row_memory layout row in let? c := reserve_memory b n c in Ok (n, c)
  end.

Definition checked_flag : result unit str := if cancelled_now then Err (u "cancelled: 数据任务已取消") else Ok tt.

(** The loop that fills a batch.  Every round consumes the pending row or an
    operation.  A failure releases every lease held. *)
Fixpoint fill (fuel : nat) (tm : ValidatedTableMapping) (kind : DataDiffOperation) (limit : Z) (st : Filled) (c : Counters) :
  result Filled str * Counters :=
  match fuel with
  | O => (Err out_of_fuel, c)
  | S fuel =>
    let fail e held c := (Err e, drop_leases (held ++ f_leases st) c) in
    match checked_flag with
    | Err e => fail e (match f_pending st with Some (_, n) => [n] | None => [] end) c
    | Ok _ =>
      match (match f_pending st with
             | Some (row, n) => Ok (Some row, f_cursor st, Some n)
             | None => let? (data, rest) := next_data (vt_target_table tm) kind (f_cursor st) in Ok (data, rest, None)
             end) with
      | Err e => fail e [] c
      | Ok (None, rest, _) => (Ok (mkFilled rest None (f_rows st) (f_leases st) (f_bytes st)), c)
      | Ok (Some data, rest, held) =>
        let leases_of_held := match held with Some n => [n] | None => [] end in
        let size := parameter_memory layout (values data) tm kind in
        if negb (is_empty (f_rows st)) && ((limit <=? zlen (f_rows st)) || (batch_bytes <? sat_add (f_bytes st) size))
        then
          match lease_for data held c with
          | Err e => fail e [] c
          | Ok (n, c) => (Ok (mkFilled rest (Some (data, n)) (f_rows st) (f_leases st) (f_bytes st)), c)
          end
        else if memory_bytes b / 2 <? sat_mul size encoded_multiplier
        then fail (u "resource_limit: 单行绑定参数超过共享内存预算") leases_of_held c
        else
          match lease_for data held c with
          | Err e => fail e [] c
          | Ok (n, c) =>
            fill fuel tm kind limit
              (mkFilled rest None (f_rows st ++ [values data]) (f_leases st ++ [n]) (wrap64 (f_bytes st + size))) c
          end
      end
    end
  end.

(** The outer loop over the tables; a round without a batch advances the table. *)
Fixpoint next_batch (fuel : nat) (r : BatchReader) (c : Counters) : result (option PreparedBatch * BatchReader) str * Counters :=
  match fuel with
  | O => (Err out_of_fuel, c)
  | S fuel =>
    match order_of (br_kind r) !! br_table_index r with
    | None => (Ok (None, r), c)
    | Some tb =>
      match find_first (fun m => str_eqb (vt_target_table m) tb) (vm_tables mapping_tables) with
      | None => (Err (u "差异表不存在"), c)
      | Some tm =>
        let parameters := parameters_per_row (zlen (vt_target_columns tm)) (zlen (vt_key_indices tm)) (br_kind r) in
        let next := mkReader (br_kind r) (S (br_table_index r)) in
        if parameters =? 0 then next_batch fuel (next (br_cursor r) (br_pending r)) c
        else
          let limit := Z.min 500 (parameter_limit d / parameters) in
          if limit =? 0 then (Err (u "resource_limit: 单行参数超过目标数据库预算"), c)
          else
            let cursor := default operations (br_cursor r) in
            match fill (S (S (length cursor))) tm (br_kind r) limit (mkFilled cursor (br_pending r) [] [] 0) c with
            | (Err e, c) => (Err e, c)
            | (Ok f, c) =>
              if is_empty (f_rows f) then next_batch fuel (next None (f_pending f)) c
              else
                let memory := sat_add (sat_mul (f_bytes f) encoded_multiplier) (1024 * 1024) in
                let held := match f_pending f with Some (_, n) => [n] | None => [] end in
                match reserve_memory b memory c with
                | Err e => (Err e, drop_leases (held ++ f_leases f) c)
                | Ok c =>
                  match build_batch d schema (vt_target_table tm) (vt_target_columns tm) (vt_key_indices tm) (br_kind r) (f_rows f) with
                  | Err e => (Err e, drop_leases (held ++ memory :: f_leases f) c)
                  | Ok batch =>
                    (Ok (Some (mkPrepared batch (zlen (f_rows f)) memory),
                         mkReader (br_kind r) (br_table_index r) (Some (f_cursor f)) (f_pending f)),
                     drop_leases (f_leases f) c)
                  end
                end
            end
      end
    end
  end.

(** Every batch is one that [build_batch] built. *)
Lemma next_batch_data fuel r c p r' c' : next_batch fuel r c = (Ok (Some p, r'), c') -> data_statement (wb_sql (pb_batch p)) = true.
Proof.
  revert r c. induction fuel as [|fuel IH]; intros r c; cbn [next_batch]; [done|].
  destruct (_ !! _); [|done]. destruct (find_first _ _) as [tm|]; [|done]. destruct (_ =? 0); [apply IH|].
  destruct (_ =? 0); [done|]. destruct (fill _ _ _ _ _ _) as [[f|e] c1]; [|done]. destruct (is_empty _); [apply IH|].
  destruct (reserve_memory _ _ _); [|done]. destruct (build_batch _ _ _ _ _ _ _) eqn:E; [|done].
  apply build_batch_data in E. by intros [= <- _ _].
Qed.
End Reader.

End Executor.
