(* ===== verification/Execution.v ===== *)
(** The orchestration of a task over two sessions ([network_snapshot],
    [prepare_network], [execute_network_transaction] and [execute_network] of
    src-tauri/src/db/data_tasks/executor.rs), and what it guarantees about the
    target database whatever the sessions do, as long as they are
    transactional.

    [W] is the world outside the executor: databases, clocks, the cancellation
    flag, the budget's counters and the receiver of the progress. *)
From S2P Require Import Prelude RustText DataTypes Registry MetaTypes Values Spool SpoolSort TypeMapping Metadata Plan Batch Executor.
Import DataTypes MetaTypes Values Spool SpoolSort TypeMapping Metadata Plan Batch Executor.

Module Execution.

(** ** The world and the sessions *)

Record Environment (W : Type) : Type := mkEnvironment {
  e_cancelled : W -> bool;
  (** [Instant::now] in milliseconds and [now_ms]. *)
  e_instant : W -> Z;
  e_now_ms : W -> Z;
  (** The progress callback, panics caught. *)
  e_callback : Registry.ProgressUpdate -> W -> W;
  e_counters : W -> Counters;
  e_set_counters : Counters -> W -> W;
}.
Arguments e_cancelled {W}. Arguments e_instant {W}. Arguments e_now_ms {W}. Arguments e_callback {W}.
Arguments e_counters {W}. Arguments e_set_counters {W}.

(** [trait DataSession].  [stream_rows] yields the rows it sent and its own
    result; [commit] and [rollback_in_time] run under the ten-second timeout,
    [None] being its expiry. *)
Record DataSession (W : Type) : Type := mkSession {
  supports_transaction : W -> bool;
  endpoint_identity : W -> option EndpointIdentity;
  take_cleanup_errors : W -> list str * W;
  dialect : Dialect;
  begin_read : W -> result unit str * W;
  begin_protected_write : list str -> W -> result unit str * W;
  load_metadata : W -> result DataMetadataSnapshot str * W;
  stream_rows : list Projection -> W -> Rows * result Z str * W;
  write_batch : WriteBatch -> W -> result Z str * W;
  delete_all : str -> W -> result Z str * W;
  maintain_generators : list ValidatedTableMapping -> W -> result unit str * W;
  commit : W -> option (result unit str) * W;
  rollback : W -> result unit str * W;
  rollback_in_time : W -> option (result unit str) * W;
}.
Arguments supports_transaction {W}. Arguments endpoint_identity {W}. Arguments take_cleanup_errors {W}. Arguments dialect {W}.
Arguments begin_read {W}. Arguments begin_protected_write {W}. Arguments load_metadata {W}. Arguments stream_rows {W}.
Arguments write_batch {W}. Arguments delete_all {W}. Arguments maintain_generators {W}. Arguments commit {W}.
Arguments rollback {W}. Arguments rollback_in_time {W}.

(** [Progress]: the counters, the last status and when it was sent. *)
Record Progress : Type := mkProgress {
  p_last : Z; p_status : DataTaskStatus; p_read : Z; p_written : Z; p_verified : Z; p_bytes : Z }.
Definition set_read (p : Progress) (n : Z) : Progress := mkProgress (p_last p) (p_status p) n (p_written p) (p_verified p) (p_bytes p).
Definition set_written (p : Progress) (n : Z) : Progress := mkProgress (p_last p) (p_status p) (p_read p) n (p_verified p) (p_bytes p).
Definition set_verified (p : Progress) (n : Z) : Progress := mkProgress (p_last p) (p_status p) (p_read p) (p_written p) n (p_bytes p).
Definition set_bytes (p : Progress) (n : Z) : Progress := mkProgress (p_last p) (p_status p) (p_read p) (p_written p) (p_verified p) n.

Record State (W : Type) : Type := mkState { s_world : W; s_progress : Progress }.
Arguments mkState {W}. Arguments s_world {W}. Arguments s_progress {W}.

(** ** The monad of the asynchronous functions: state and error *)

Definition M (W A : Type) : Type := State W -> result A str * State W.
Definition mret {W A} (x : A) : M W A := fun s => (Ok x, s).
Definition mfail {W A} (e : str) : M W A := fun s => (Err e, s).
Definition mbind {W A B} (m : M W A) (f : A -> M W B) : M W B :=
  fun s => match m s with (Ok x, s) => f x s | (Err e, s) => (Err e, s) end.
Definition lift {W A} (r : result A str) : M W A := fun s => (r, s).
Definition call {W A} (f : W -> result A str * W) : M W A :=
  fun s => let '(r, w) := f (s_world s) in (r, mkState w (s_progress s)).
Definition get_world {W} : M W W := fun s => (Ok (s_world s), s).
Definition modify {W} (f : Progress -> Progress) : M W unit := fun s => (Ok tt, mkState (s_world s) (f (s_progress s))).

Declare Scope exec_scope.
Delimit Scope exec_scope with exec.
Notation "'do!' x := m 'in' k" := (mbind m (fun x => k)) (at level 10, x pattern, m at level 100, k at level 200) : exec_scope.
Notation "'run!' m 'in' k" := (mbind m (fun _ => k)) (at level 10, m at level 100, k at level 200) : exec_scope.
Open Scope exec_scope.

Section Tasks.
Context {W : Type} (env : Environment W).
(** The store of the spools and the bytes of a stored spool. *)
Context (write : Rows -> result Rows str) (byte_count : Rows -> Z).
Context (layout : Layout) (b : ResourceBudget) (sha256_hex : bytes -> str).
(** [time::Date::from_calendar_date] succeeds. *)
Context (calendar_date : Z -> Z -> Z -> bool).

Definition checked : M W unit :=
  fun s => (if e_cancelled env (s_world s) then Err (u "cancelled: 数据任务已取消") else Ok tt, s).

Definition new_progress (w : W) : Progress := mkProgress (e_instant env w - 1000) Created 0 0 0 0.

Definition emit (status : DataTaskStatus) (force : bool) : M W unit := fun s =>
  let p := s_progress s in
  if force || negb (status_eqb status (p_status p)) || (200 <=? e_instant env (s_world s) - p_last p)
  then
    let update := Registry.mkProgress status (p_read p) (p_written p) (p_verified p) (p_bytes p) in
    (Ok tt, mkState (e_callback env update (s_world s))
              (mkProgress (e_instant env (s_world s)) status (p_read p) (p_written p) (p_verified p) (p_bytes p)))
  else (Ok tt, s).

(** ** Snapshots *)

Record SnapshotOutput : Type := mkOutput { so_full : Rows; so_projected : option Rows }.
Definition Conversion : Type := DataMetadataSnapshot * DataMetadataSnapshot * ValidatedMapping.

Definition convert_row (conversion : option Conversion) (row : CanonicalRow) : result CanonicalRow str :=
  match conversion with
  | Some (source, target, mapping) => normalize_transfer_row calendar_date row source target mapping
  | None => Ok row
  end.

(** The projection of a row, while a lease of its size is held. *)
Definition project_row (full : list Projection) (projected : option (list Projection)) (row : CanonicalRow) (c : Counters) :
  result (option CanonicalRow) str :=
  match projected with
  | None => Ok None
  | Some projections =>
    let? index := ok_or (position (fun p => str_eqb (pj_output_table p) (table row)) full) (u "集合快照表索引无效") in
    let? f := ok_or (full !! index) panic_index in
    let? p := ok_or (projections !! index) panic_index in
    let? r := projected_row row f p in
    check? reserve_memory b (row_memory layout r) c in
    Ok (Some r)
  end.

(** The worker's loop over the received rows: what it pushed to its two writers. *)
Fixpoint receive (full : list Projection) (projected : option (list Projection)) (conversion : option Conversion)
  (status : DataTaskStatus) (rows : Rows) (pushed pushed_projected : Rows) : M W (Rows * Rows) :=
  match rows with
  | [] => mret (pushed, pushed_projected)
  | row :: rows =>
    run! checked in
    do! row := lift (convert_row conversion row) in
    do! w := get_world in
    do! p := lift (project_row full projected row (e_counters env w)) in
    run! modify (fun p => set_bytes (set_read p (wrap64 (p_read p + 1))) (sat_add (p_bytes p) (encoded_size row))) in
    run! emit status false in
    receive full projected conversion status rows (pushed ++ [row]) (pushed_projected ++ match p with Some r => [r] | None => [] end)
  end.

(** The worker has its own [Progress], started from the task's counters. *)
Definition worker (full : list Projection) (projected : option (list Projection)) (conversion : option Conversion)
  (status : DataTaskStatus) (rows : Rows) : M W SnapshotOutput := fun s =>
  let p := s_progress s in
  let own := mkProgress (e_instant env (s_world s) - 1000) Created (p_read p) (p_written p) (p_verified p) (p_bytes p) in
  let '(r, s') := (do! x := receive full projected conversion status rows [] [] in
                   do! stored := lift (write x.1) in
                   do! stored_projected := lift (match projected with
                                                 | Some _ => let? r := write x.2 in Ok (Some r)
                                                 | None => Ok None end) in
                   mret (mkOutput stored stored_projected)) (mkState (s_world s) own) in
  (r, mkState (s_world s') p).

Definition network_snapshot (session : DataSession W) (full : list Projection) (projected : option (list Projection))
  (status : DataTaskStatus) (conversion : option Conversion) : M W SnapshotOutput := fun s =>
  let '(rows, read_result, w) := stream_rows session full (s_world s) in
  (do! output := worker full projected conversion status rows in
   do! count := lift read_result in
   run! modify (fun p => set_bytes (set_read p (wrap64 (p_read p + count))) (sat_add (p_bytes p) (byte_count (so_full output)))) in
   run! checked in
   mret output) (mkState w (s_progress s)).

(** ** Comparing sorted spools *)

Fixpoint equal_rows (l r : Rows) : M W bool :=
  run! checked in
  match l, r with
  | [], [] => mret true
  | x :: l, y :: r =>
    do! bx := lift (canonical_bytes x) in
    do! by_ := lift (canonical_bytes y) in
    if list_eqb bx by_ then equal_rows l r else mret false
  | _, _ => mret false
  end.
Definition equal_sorted (left right : SortedSpool) : M W bool :=
  if negb (str_eqb (digest left) (digest right)) || negb (zlen (spool left) =? zlen (spool right))
  then mret false
  else equal_rows (spool left) (spool right).
Definition sort_compare (snapshot : Rows) (expected : SortedSpool) : M W (bool * Z) :=
  do! w := get_world in
  do! sorted := lift (external_sort write layout b sha256_hex (e_counters env w) snapshot) in
  do! equal := equal_sorted sorted expected in
  mret (equal, zlen snapshot).

(** ** Writing *)

(** One round of [write_network_kind]: [None] ends the loop. *)
Definition read_batch (session : DataSession W) (plan : StoredDataPlan) (r : BatchReader) :
  M W (option PreparedBatch * BatchReader) := fun s =>
  let '(x, c) := next_batch layout b (dialect session) (ep_database (rq_target (sp_request plan))) (sp_mapping plan)
                   (sp_operations plan) (e_cancelled env (s_world s))
                   (S (length (order_of (sp_mapping plan) (br_kind r)) - br_table_index r)) r (e_counters env (s_world s)) in
  (x, mkState (e_set_counters env c (s_world s)) (s_progress s)).

(** The lease of the batch ends with the round, on every path. *)
Definition release {A} (n : Z) (m : M W A) : M W A := fun s =>
  let '(r, s) := m s in
  (r, mkState (e_set_counters env (drop_lease n (e_counters env (s_world s))) (s_world s)) (s_progress s)).

(** Every batch holds at least one operation, so their number is enough fuel. *)
Fixpoint write_batches (fuel : nat) (session : DataSession W) (plan : StoredDataPlan) (r : BatchReader) : M W unit :=
  do! x := read_batch session plan r in
  match x with
  | (None, _) => mret tt
  | (Some prepared, r) =>
    match fuel with
    | O => mfail out_of_fuel
    | S fuel =>
      run! release (pb_memory prepared)
        (run! checked in
         do! affected := call (write_batch session (pb_batch prepared)) in
         if negb (affected =? pb_rows prepared)
         then mfail (u "validation_failed: 批量写入影响行数与计划不一致")
         else
           run! modify (fun p => set_written p (wrap64 (p_written p + affected))) in
           run! emit Executing false in
           checked) in
      write_batches fuel session plan r
    end
  end.

Definition write_network_kind (session : DataSession W) (plan : StoredDataPlan) (kind : DataDiffOperation) : M W unit :=
  write_batches (length (sp_operations plan)) session plan (mkReader kind 0 None None).

Fixpoint delete_tables (session : DataSession W) (tables : list str) : M W unit :=
  match tables with
  | [] => mret tt
  | t :: tables =>
    run! checked in
    do! n := call (delete_all session t) in
    run! modify (fun p => set_written p (wrap64 (p_written p + n))) in
    delete_tables session tables
  end.

(** ** The transaction *)

Context (canonicalize : str -> option str) (is_same_file : str -> str -> option bool).

Definition execute_network_transaction (session : DataSession W) (source_identity : EndpointIdentity) (plan : StoredDataPlan) :
  M W unit :=
  run! checked in
  do! current := call (load_metadata session) in
  if negb (str_eqb (md_schema_fingerprint current) (md_schema_fingerprint (sp_target_metadata plan)))
  then mfail (u "plan_stale: 目标结构已变化，请重新预览")
  else
    do! w := get_world in
    do! target_identity := lift (ok_or (endpoint_identity session w) (u "same_physical_target: 无法确认目标真实身份")) in
    run! lift (resolve_endpoints canonicalize is_same_file (sp_request plan) source_identity target_identity) in
    run! lift (validate_mapping (sp_request plan) (sp_source_metadata plan) current) in
    do! full := lift (full_projections (sp_mapping plan) current) in
    do! reread := network_snapshot session full None Executing None in
    do! same := sort_compare (so_full reread) (sp_target_full plan) in
    if negb same.1 then mfail (u "plan_stale: 目标内容已变化，请重新预览")
    else
      run! emit Executing true in
      run! (if is_mode (rq_mode (sp_request plan)) Replace
            then delete_tables session (vm_delete_order (sp_mapping plan))
            else write_network_kind session plan Delete) in
      run! write_network_kind session plan Update in
      run! write_network_kind session plan Insert in
      run! call (maintain_generators session (vm_tables (sp_mapping plan))) in
      run! emit Verifying true in
      run! checked in
      do! final_rows := network_snapshot session (projections (sp_mapping plan) false) None Verifying None in
      do! equal := sort_compare (so_full final_rows) (sp_expected plan) in
      run! modify (fun p => set_verified p equal.2) in
      if negb equal.1 then mfail (u "validation_failed: 最终集合校验不一致，已拒绝提交")
      else checked.

Definition failed_result (plan : StoredDataPlan) (status : DataTaskStatus) (state : DataCommitState)
  (e : option DataTaskError) (cleanup : list str) (refresh : bool) : DataTaskResult :=
  mkResult status state (pv_tables (sp_preview plan)) e cleanup refresh.

Definition rollback_network_failure (target : DataSession W) (plan : StoredDataPlan) (message : str) (s : State W) :
  DataTaskResult * State W :=
  let e := if e_cancelled env (s_world s) then new_error "cancelled" "数据任务已取消" else error message in
  let '(r, w) := rollback_in_time target (s_world s) in
  let s := mkState w (s_progress s) in
  match r with
  | Some (Ok _) =>
    (failed_result plan (if e_cancelled env w then Cancelled else Failed) CsRolledBack (Some e) [] false, s)
  | _ =>
    (failed_result plan OutcomeUnknown CsUnknown (Some e) [u "目标回滚尚未确认，需要核对目标"] true, s)
  end.

(** [result.cleanup_errors.extend(target.take_cleanup_errors())] *)
Definition collect_cleanup (target : DataSession W) (x : DataTaskResult * State W) : DataTaskResult * State W :=
  let '(r, s) := x in
  let '(errors, w) := take_cleanup_errors target (s_world s) in
  (mkResult (rs_status r) (rs_commit_state r) (rs_tables r) (rs_error r) (rs_cleanup_errors r ++ errors)
     (rs_requires_target_refresh r), mkState w (s_progress s)).

(** The configurations: the type of the target and both fingerprints; opening
    the sessions. *)
Context (target_type : DatabaseType) (source_fingerprint target_fingerprint : str).
Context (open_source open_target : DataEndpoint -> W -> result (DataSession W) str * W).

Definition preflight (plan : StoredDataPlan) : M W (DataSession W * DataSession W) :=
  run! checked in
  if is_db target_type ClickHouse then mfail (u "unsupported_capability: " ++ CLICKHOUSE_TARGET_BLOCKER)
  else
    do! w := get_world in
    if negb (is_some_and (fun e => e_now_ms env w <? e) (parse_u64 (pv_expires_at (sp_preview plan))))
    then mfail (u "plan_expired: 预览已过期")
    else if negb (str_eqb source_fingerprint (md_configuration_fingerprint (sp_source_metadata plan)))
            || negb (str_eqb target_fingerprint (md_configuration_fingerprint (sp_target_metadata plan)))
    then mfail (u "plan_stale: 已保存连接配置发生变化")
    else
      do! source := call (open_source (rq_source (sp_request plan))) in
      run! call (begin_read source) in
      do! metadata := call (load_metadata source) in
      if negb (str_eqb (md_schema_fingerprint metadata) (md_schema_fingerprint (sp_source_metadata plan)))
      then mfail (u "plan_stale: 源结构已变化")
      else
        run! call (rollback source) in
        do! target := call (open_target (rq_target (sp_request plan))) in
        do! w := get_world in
        if negb (supports_transaction target w) then mfail (u "unsupported_capability: 目标会话不支持整任务事务")
        else mret (source, target).

Definition execute_network (plan : StoredDataPlan) (w : W) : DataTaskResult * State W :=
  match preflight plan (mkState w (new_progress w)) with
  | (Err e, s) =>
    (failed_result plan (if e_cancelled env (s_world s) then Cancelled else Failed) CsNone (Some (error e)) [] false, s)
  | (Ok (source, target), s) =>
    match call (begin_protected_write target (vm_insert_order (sp_mapping plan))) s with
    | (Err message, s) => collect_cleanup target (rollback_network_failure target plan message s)
    | (Ok _, s) =>
      match endpoint_identity source (s_world s) with
      | None =>
        let '(_, w) := rollback target (s_world s) in
        (failed_result plan Failed CsNone (Some (new_error "same_physical_target" "无法确认源端真实身份")) [] false,
         mkState w (s_progress s))
      | Some source_identity =>
        collect_cleanup target
          match (run! execute_network_transaction target source_identity plan in
                 run! emit Committing true in checked) s with
          | (Err message, s) => rollback_network_failure target plan message s
          | (Ok _, s) =>
            let '(r, w) := commit target (s_world s) in
            let s := mkState w (s_progress s) in
            match r with
            | Some (Ok _) =>
              let '(_, s) := emit Succeeded true s in
              (failed_result plan Succeeded CsCommitted None [] true, s)
            | _ =>
              (failed_result plan OutcomeUnknown CsUnknown
                 (Some (new_error "outcome_unknown" "提交响应未确认，不会自动重试；请核对目标")) [] true, s)
            end
          end
      end
    end
  end.
End Tasks.

(** ** Specification: what the sessions guarantee *)

(** A row as an adapter builds it: well typed, and it encodes. *)
Definition streamed (r : CanonicalRow) : Prop := wf_row r /\ exists b, canonical_bytes r = Ok b /\ zlen b <= usize_max.

(** Projections whose names and keys have lengths of 32 bits. *)
Definition fits (p : Projection) : Prop :=
  wf_str (pj_output_table p) /\ str_len (pj_output_table p) <= u32_max /\ zlen (pj_key_indices p) <= u32_max.

Section Laws.
Context {W D : Type} (env : Environment W).
(** The committed state of the target, what its session sees, whether its
    session has a transaction open, and the rows that a list of projections
    reads. *)
Context (db work : W -> D) (open : W -> bool) (content : D -> list Projection -> Rows).

(** What the executor's own effects must leave alone. *)
Definition observed (w : W) : D * D * bool := (db w, work w, open w).

(** [f] leaves the committed state alone; everything alone; the committed state
    of an open transaction alone, and the transaction open when it succeeds. *)
Definition keeps {A} (f : W -> A * W) : Prop := forall w r w', f w = (r, w') -> db w' = db w.
Definition keeps_all {A} (f : W -> A * W) : Prop := forall w r w', f w = (r, w') -> observed w' = observed w.
(** What a failed read leaves behind is only known of the committed state. *)
Definition reads {A} (f : W -> result A str * W) : Prop := forall w r w', open w = true -> f w = (r, w') ->
  db w' = db w /\ (forall x, r = Ok x -> observed w' = observed w).
Definition inside {A} (f : W -> result A str * W) : Prop := forall w r w', open w = true -> f w = (r, w') ->
  db w' = db w /\ (forall x, r = Ok x -> open w' = true).

(** The executor's own effects do not touch the target. *)
Class Neutral : Prop := {
  neutral_callback p w : observed (e_callback env p w) = observed w;
  neutral_counters c w : observed (e_set_counters env c w) = observed w;
  (** A cancellation is never taken back. *)
  sticky_callback p w : e_cancelled env w = true -> e_cancelled env (e_callback env p w) = true;
  sticky_counters c w : e_cancelled env w = true -> e_cancelled env (e_set_counters env c w) = true;
}.

(** A target session is transactional: inside a transaction only the commit
    changes the committed state, all at once; the lock makes a session without a
    transaction see the committed state; reads return the session's state; a
    snapshot may lose the session when the task was cancelled meanwhile.
    [open] is a transaction that can still commit, [idle] a session that has
    not begun one. *)
Class Transactional (idle : W -> Prop) (t : DataSession W) : Prop := {
  tx_begin ts w r w' : idle w -> begin_protected_write t ts w = (r, w') -> db w' = db w;
  tx_locked ts w w' : idle w -> begin_protected_write t ts w = (Ok tt, w') -> work w' = db w' /\ open w' = true;
  tx_metadata : reads (load_metadata t);
  tx_stream ps w rows r w' : open w = true -> stream_rows t ps w = (rows, r, w') ->
    db w' = db w /\ (forall n, r = Ok n -> observed w' = observed w \/ e_cancelled env w' = true);
  tx_rows ps w rows n w' : open w = true -> Forall fits ps -> stream_rows t ps w = (rows, Ok n, w') ->
    Forall streamed rows /\ rows ≡ₚ content (work w) ps;
  tx_write x : data_statement (wb_sql x) = true -> inside (write_batch t x);
  tx_delete x : inside (delete_all t x);
  tx_maintain x : inside (maintain_generators t x);
  tx_commit w r w' : open w = true -> commit t w = (r, w') ->
    (r = Some (Ok tt) -> db w' = work w) /\ (db w' = db w \/ db w' = work w);
  tx_rollback : keeps (rollback t);
  tx_rollback_in_time : keeps (rollback_in_time t);
  tx_cleanup : keeps (take_cleanup_errors t);
}.

(** Opening sessions and the source session do not change the target. *)
Class Preflight (open_source open_target : DataEndpoint -> W -> result (DataSession W) str * W) : Prop := {
  pf_source e : keeps (open_source e);
  pf_target e : keeps (open_target e);
  pf_target_session e w t w' : open_target e w = (Ok t, w') -> exists idle, Transactional idle t /\ idle w';
  pf_source_session e w s w' : open_source e w = (Ok s, w') -> keeps (begin_read s) /\ keeps (load_metadata s) /\ keeps (rollback s);
}.
End Laws.
Arguments tx_begin {W D} env db work open content {idle} t {Transactional}.
Arguments tx_locked {W D} env db work open content {idle} t {Transactional}.
Arguments tx_metadata {W D} env db work open content {idle} t {Transactional}.
Arguments tx_stream {W D} env db work open content {idle} t {Transactional}.
Arguments tx_rows {W D} env db work open content {idle} t {Transactional}.
Arguments tx_write {W D} env db work open content {idle} t {Transactional}.
Arguments tx_delete {W D} env db work open content {idle} t {Transactional}.
Arguments tx_maintain {W D} env db work open content {idle} t {Transactional}.
Arguments tx_commit {W D} env db work open content {idle} t {Transactional}.
Arguments tx_rollback {W D} env db work open content {idle} t {Transactional}.
Arguments tx_rollback_in_time {W D} env db work open content {idle} t {Transactional}.
Arguments tx_cleanup {W D} env db work open content {idle} t {Transactional}.

(** ** Proofs *)

Lemma streamed_stored r : streamed r -> stored (norm_row r).
Proof.
  intros [Wr (b & C & L)]. destruct (norm_row_canonical r b C) as [C' N].
  split; [by apply norm_row_wf|exact N|by exists b].
Qed.

Lemma mbind_ok {W A B} (m : M W A) (f : A -> M W B) s y s' : mbind m f s = (Ok y, s') ->
  exists x s1, m s = (Ok x, s1) /\ f x s1 = (Ok y, s').
Proof. unfold mbind. destruct (m s) as [[x|e] s1]; [|done]. eauto. Qed.

Lemma lift_ok {W A} (r : result A str) (s s' : State W) x : lift r s = (Ok x, s') -> r = Ok x /\ s' = s.
Proof. unfold lift. intros [= -> <-]. done. Qed.
Lemma call_ok {W A} (f : W -> result A str * W) s x s' : call f s = (Ok x, s') ->
  f (s_world s) = (Ok x, s_world s') /\ s_progress s' = s_progress s.
Proof. unfold call. destruct (f (s_world s)) as [r w]. by intros [= -> <-]. Qed.

Lemma call_ok_or {W A} (f : W -> result A str * W) s r s' : call f s = (r, s') ->
  f (s_world s) = (r, s_world s') /\ s_progress s' = s_progress s.
Proof. unfold call. destruct (f (s_world s)) as [x w]. by intros [= -> <-]. Qed.

(** Preservation of a function of the world, by combinators. *)
Section Preserve.
Context {W P : Type} (obs : W -> P).

Class Keeps {A} (m : M W A) : Prop := keeps_obs s r s' : m s = (r, s') -> obs (s_world s') = obs (s_world s).

#[global] Instance keeps_ret {A} (x : A) : Keeps (mret x).
Proof. by intros s r s' [= <- <-]. Qed.
#[global] Instance keeps_fail {A} e : Keeps (mfail (A := A) e).
Proof. by intros s r s' [= <- <-]. Qed.
#[global] Instance keeps_lift {A} (x : result A str) : Keeps (lift x).
Proof. by intros s r s' [= <- <-]. Qed.
#[global] Instance keeps_world : Keeps get_world.
Proof. by intros s r s' [= <- <-]. Qed.
#[global] Instance keeps_modify f : Keeps (modify f).
Proof. by intros s r s' [= <- <-]. Qed.
#[global] Instance keeps_bind {A B} (m : M W A) (f : A -> M W B) : Keeps m -> (forall x, Keeps (f x)) -> Keeps (mbind m f).
Proof.
  intros Km Kf s r s'. unfold mbind. destruct (m s) as [[x|e] s1] eqn:E.
  - intros H. by rewrite (Kf x _ _ _ H), (Km _ _ _ E).
  - intros [= <- <-]. exact (Km _ _ _ E).
Qed.
#[global] Instance keeps_if {A} (c : bool) (m n : M W A) : Keeps m -> Keeps n -> Keeps (if c then m else n).
Proof. by destruct c. Qed.
Lemma keeps_call {A} (f : W -> result A str * W) : (forall w r w', f w = (r, w') -> obs w' = obs w) -> Keeps (call f).
Proof. intros H s r s'. unfold call. destruct (f (s_world s)) as [x w] eqn:E. intros [= <- <-]. by eapply H. Qed.

Context (env : Environment W).
#[global] Instance keeps_checked : Keeps (checked env).
Proof. by intros s r s' [= <- <-]. Qed.

Hypothesis callback : forall p w, obs (e_callback env p w) = obs w.
Hypothesis counters : forall c w, obs (e_set_counters env c w) = obs w.

Lemma keeps_emit status force : Keeps (emit env status force).
Proof. intros s r s'. unfold emit. case_match; intros [= <- <-]; cbn; [apply callback|done]. Qed.

Lemma keeps_release {A} n (m : M W A) : Keeps m -> Keeps (release env n m).
Proof. intros K s r s'. unfold release. destruct (m s) as [x s1] eqn:E. intros [= <- <-]. cbn. rewrite counters. by eapply K. Qed.

Lemma keeps_read_batch layout b session plan r : Keeps (read_batch env layout b session plan r).
Proof.
  intros s x s'. unfold read_batch. destruct (next_batch _ _ _ _ _ _ _ _ _ _) as [y c]. intros [= <- <-]. cbn. apply counters.
Qed.

Lemma keeps_receive layout b cal full projected conversion status rows pushed pp :
  Keeps (receive env layout b cal full projected conversion status rows pushed pp).
Proof.
  revert pushed pp. induction rows as [|row rows IH]; intros pushed pp; cbn [receive]; [apply _|].
  pose proof (keeps_emit status false). apply _.
Qed.

Lemma keeps_worker write layout b cal full projected conversion status rows :
  Keeps (worker env write layout b cal full projected conversion status rows).
Proof.
  intros s r s'. unfold worker. set (s0 := mkState _ _).
  pose proof (keeps_receive layout b cal full projected conversion status rows [] []) as K.
  match goal with |- context [let '(_, _) := ?m s0 in _] => assert (Km : Keeps m) by apply _; destruct (m s0) as [x s1] eqn:E end.
  intros [= <- <-]. cbn. exact (Km _ _ _ E).
Qed.

Lemma keeps_equal_rows l r : Keeps (equal_rows env l r).
Proof.
  revert r. induction l as [|x l IH]; intros [|y r]; cbn [equal_rows]; apply _.
Qed.
Lemma keeps_sort_compare write layout b sha x y : Keeps (sort_compare env write layout b sha x y).
Proof.
  unfold sort_compare, equal_sorted. apply keeps_bind; [apply _|]. intros w. apply keeps_bind; [apply _|]. intros s.
  apply keeps_bind; [|apply _]. apply keeps_if; [apply _|apply keeps_equal_rows].
Qed.
End Preserve.

Section Guarantee.
Context {W D : Type} (env : Environment W) (db work : W -> D) (open : W -> bool) (content : D -> list Projection -> Rows).
Context (write : Rows -> result Rows str) `{!SpoolStore write} (byte_count : Rows -> Z).
Context (layout : Layout) (b : ResourceBudget) (sha256_hex : bytes -> str) (cal : Z -> Z -> Z -> bool).
Context `{!Neutral env db work open}.

Abbreviation obs := (observed db work open) (only parsing).
Abbreviation TransactionalTarget idle t := (Transactional env db work open content idle t) (only parsing).

Lemma obs_callback p w : obs (e_callback env p w) = obs w.
Proof. apply neutral_callback; apply _. Qed.
Lemma obs_counters c w : obs (e_set_counters env c w) = obs w.
Proof. apply neutral_counters; apply _. Qed.

(** [m] stays inside an open transaction. *)
Class Inside {A} (m : M W A) : Prop := inside_run s r s' : open (s_world s) = true -> m s = (r, s') ->
  db (s_world s') = db (s_world s) /\ (forall x, r = Ok x -> open (s_world s') = true).

Lemma inside_keeps {A} (m : M W A) : Keeps obs m -> Inside m.
Proof. intros K s r s' O H. apply K in H. injection H as H1 _ H2. split; [done|]. intros. congruence. Qed.
#[export] Instance inside_bind {A B} (m : M W A) (f : A -> M W B) : Inside m -> (forall x, Inside (f x)) -> Inside (mbind m f).
Proof.
  intros Im If s r s' O. unfold mbind. destruct (m s) as [[x|e] s1] eqn:E; destruct (Im _ _ _ O E) as [E1 O1].
  - intros H. destruct (If x _ _ _ (O1 x eq_refl) H) as [E2 O2]. split; [congruence|done].
  - intros [= <- <-]. by split.
Qed.
Lemma inside_bind_post {A B} (m : M W A) (f : A -> M W B) (P : A -> Prop) : Inside m -> (forall x s s', m s = (Ok x, s') -> P x) ->
  (forall x, P x -> Inside (f x)) -> Inside (mbind m f).
Proof.
  intros Im Hp If s r s' O. unfold mbind. destruct (m s) as [[x|e] s1] eqn:E; destruct (Im _ _ _ O E) as [E1 O1].
  - intros H. destruct (If x (Hp _ _ _ E) _ _ _ (O1 x eq_refl) H) as [E2 O2]. split; [congruence|done].
  - intros [= <- <-]. by split.
Qed.
#[export] Instance inside_if {A} (c : bool) (m n : M W A) : Inside m -> Inside n -> Inside (if c then m else n).
Proof. by destruct c. Qed.
Lemma inside_call {A} (f : W -> result A str * W) : inside db open f -> Inside (call f).
Proof. intros I s r s' O. unfold call. destruct (f (s_world s)) as [x w] eqn:E. intros [= <- <-]. by eapply I. Qed.
Lemma inside_reads {A} (f : W -> result A str * W) : reads db work open f -> Inside (call f).
Proof.
  intros I. apply inside_call. intros w r w' O H. destruct (I w r w' O H) as [E X]. split; [done|]. intros x Hx.
  specialize (X x Hx). injection X as _ _ X. congruence.
Qed.
Lemma inside_release {A} n (m : M W A) : Inside m -> Inside (release env n m).
Proof.
  intros I s r s' O. unfold release. destruct (m s) as [x s1] eqn:E. intros [= <- <-]. cbn [s_world].
  destruct (I _ _ _ O E) as [E1 O1]. pose proof (obs_counters (drop_lease n (e_counters env (s_world s1))) (s_world s1)) as X.
  injection X as X1 _ X2. split; [congruence|]. intros y Hy. rewrite X2. by eapply O1.
Qed.
#[export] Instance inside_ret {A} (x : A) : Inside (mret x).
Proof. intros s r s' O H. injection H as <- <-. by split. Qed.
#[export] Instance inside_fail {A} e : Inside (mfail (A := A) e).
Proof. intros s r s' O H. injection H as <- <-. by split. Qed.
#[export] Instance inside_lift {A} (x : result A str) : Inside (lift x).
Proof. intros s r s' O H. injection H as <- <-. by split. Qed.
#[export] Instance inside_world : Inside get_world.
Proof. intros s r s' O H. injection H as <- <-. by split. Qed.
#[export] Instance inside_modify f : Inside (modify f).
Proof. intros s r s' O H. injection H as <- <-. by split. Qed.
#[export] Instance inside_checked : Inside (checked env).
Proof. intros s r s' O H. injection H as <- <-. by split. Qed.
#[export] Instance inside_emit status force : Inside (emit env status force) := inside_keeps _ (keeps_emit obs env obs_callback status force).

Lemma emit_obs status force s r s' : emit env status force s = (r, s') -> obs (s_world s') = obs (s_world s).
Proof. apply (keeps_emit obs env obs_callback status force). Qed.

(** ** A cancellation lasts *)

Class Persists {A} (m : M W A) : Prop := persists_cancelled s r s' : m s = (r, s') ->
  e_cancelled env (s_world s) = true -> e_cancelled env (s_world s') = true.
Lemma persists_bind {A B} (m : M W A) (f : A -> M W B) : Persists m -> (forall x, Persists (f x)) -> Persists (mbind m f).
Proof.
  intros Pm Pf s r s'. unfold mbind. destruct (m s) as [[x|e] s1] eqn:E.
  - intros H C. exact (Pf x _ _ _ H (Pm _ _ _ E C)).
  - intros [= <- <-]. exact (Pm _ _ _ E).
Qed.
Lemma persists_pure {A} (m : M W A) : (forall s, s_world (m s).2 = s_world s) -> Persists m.
Proof. intros H s r s' E C. specialize (H s). rewrite E in H. cbn [snd] in H. by rewrite H. Qed.
Lemma persists_emit status force : Persists (emit env status force).
Proof.
  intros s r s'. unfold emit. case_match; intros [= <- <-] C; cbn [s_world]; [|done].
  by apply (sticky_callback env db work open).
Qed.
Lemma persists_receive full projected conversion status rows pushed pp :
  Persists (receive env layout b cal full projected conversion status rows pushed pp).
Proof.
  revert pushed pp. induction rows as [|row rows IH]; intros pushed pp; cbn [receive]; [by apply persists_pure|].
  apply persists_bind; [by apply persists_pure|]. intros []. apply persists_bind; [by apply persists_pure|]. intros r.
  apply persists_bind; [by apply persists_pure|]. intros w. apply persists_bind; [by apply persists_pure|]. intros o.
  apply persists_bind; [by apply persists_pure|]. intros []. apply persists_bind; [apply persists_emit|]. intros []. apply IH.
Qed.
Lemma persists_worker full projected conversion status rows :
  Persists (worker env write layout b cal full projected conversion status rows).
Proof.
  intros s r s'. unfold worker. set (s0 := mkState _ _).
  match goal with |- context [let '(_, _) := ?m s0 in _] => assert (Km : Persists m); [|destruct (m s0) as [x s1] eqn:E] end.
  { apply persists_bind; [apply persists_receive|]. intros x. apply persists_bind; [by apply persists_pure|]. intros y.
    apply persists_bind; by intros; apply persists_pure. }
  intros [= <- <-]. cbn. exact (Km _ _ _ E).
Qed.

(** ** Snapshots read the session's state *)

(** Without projection or conversion the worker stores the received rows. *)
Lemma receive_plain full status rows pushed pp s x s' :
  receive env layout b cal full None None status rows pushed pp s = (Ok x, s') -> x = (pushed ++ rows, pp).
Proof.
  revert pushed pp s. induction rows as [|row rows IH]; intros pushed pp s; cbn [receive].
  - intros [= <- _]. by rewrite app_nil_r.
  - intros H. apply mbind_ok in H as (? & s1 & _ & H). apply mbind_ok in H as (r & s2 & R & H).
    apply lift_ok in R as [[= <-] ->]. apply mbind_ok in H as (w & s3 & _ & H). apply mbind_ok in H as (o & s4 & O & H).
    apply lift_ok in O as [[= <-] ->]. apply mbind_ok in H as (? & s5 & _ & H). apply mbind_ok in H as (? & s6 & _ & H).
    apply IH in H. by rewrite H, <- app_assoc, app_nil_r.
Qed.

Lemma worker_plain full status rows s out s' : Forall streamed rows ->
  worker env write layout b cal full None None status rows s = (Ok out, s') -> so_full out = map norm_row rows.
Proof.
  intros F. unfold worker. set (s0 := mkState _ _). intros H.
  match type of H with (let '(_, _) := ?m s0 in _) = _ => destruct (m s0) as [x s1] eqn:E end.
  injection H as -> <-. apply mbind_ok in E as (pr & s2 & R & E). apply receive_plain in R as ->. cbn [app] in E.
  apply mbind_ok in E as (st & s3 & Ws & E). apply lift_ok in Ws as [Ws ->]. apply mbind_ok in E as (sp & s4 & _ & E).
  injection E as <- <-. cbn [so_full fst] in *. apply (write_reads rows st); [|done].
  eapply list.Forall_impl; [exact F|]. by intros r [].
Qed.

Lemma snapshot_obs {idle} t full projected status conversion s r s' : TransactionalTarget idle t -> open (s_world s) = true ->
  network_snapshot env write byte_count layout b cal t full projected status conversion s = (r, s') ->
  db (s_world s') = db (s_world s) /\ (forall x, r = Ok x -> obs (s_world s') = obs (s_world s)).
Proof.
  intros T O. unfold network_snapshot. destruct (stream_rows t full (s_world s)) as [[rows rr] w] eqn:E.
  destruct (tx_stream env db work open content t _ _ _ _ _ O E) as [E1 E2].
  intros H. match type of H with ?m ?s0 = _ => assert (Km : Keeps obs m) end.
  { pose proof (keeps_worker obs env obs_callback write layout b cal full projected conversion status rows). apply _. }
  pose proof (Km _ _ _ H) as K. split.
  - injection K as K _ _. by rewrite K.
  - intros x ->. apply mbind_ok in H as (o & s1 & Wk & H). apply mbind_ok in H as (n & s2 & Rn & H).
    apply lift_ok in Rn as [-> ->]. rewrite K. destruct (E2 n eq_refl) as [E3|C]; [done|]. exfalso.
    pose proof (persists_worker _ _ _ _ _ _ _ _ Wk C) as Wc. apply mbind_ok in H as (? & s3 & [= _ <-] & H).
    apply mbind_ok in H as (? & s4 & Ck & _). unfold checked in Ck. cbn [s_world] in Ck. by rewrite Wc in Ck.
Qed.
Lemma snapshot_inside {idle} t full projected status conversion : TransactionalTarget idle t ->
  Inside (network_snapshot env write byte_count layout b cal t full projected status conversion).
Proof.
  intros T s r s' O E. apply (snapshot_obs _ _ _ _ _ _ _ _ T O) in E as [E X]. split; [done|]. intros x Hx. specialize (X x Hx).
  injection X as _ _ X. congruence.
Qed.

Lemma snapshot_content {idle} t full status s out s' : TransactionalTarget idle t -> open (s_world s) = true -> Forall fits full ->
  network_snapshot env write byte_count layout b cal t full None status None s = (Ok out, s') ->
  Forall stored (so_full out) /\ so_full out ≡ₚ map norm_row (content (work (s_world s)) full).
Proof.
  intros T O Ff. unfold network_snapshot. destruct (stream_rows t full (s_world s)) as [[rows rr] w] eqn:E.
  intros H. apply mbind_ok in H as (o & s1 & Wk & H).
  apply mbind_ok in H as (n & s2 & Rn & H). apply lift_ok in Rn as [-> ->].
  destruct (tx_rows env db work open content t _ _ _ _ _ O Ff E) as (F & P). apply worker_plain in Wk; [|done].
  apply mbind_ok in H as (? & s3 & _ & H). apply mbind_ok in H as (? & s4 & _ & H). injection H as <- <-.
  rewrite Wk. split.
  - apply list.Forall_forall. intros r0 (r1 & -> & Hx)%list_elem_of_fmap. rewrite list.Forall_forall in F.
    by apply streamed_stored, F.
  - by rewrite P.
Qed.

(** ** Comparison is exact *)

Lemma equal_rows_ok l r s s' : Forall stored l -> Forall stored r -> equal_rows env l r s = (Ok true, s') -> l = r.
Proof.
  intros Fl. revert r s. induction Fl as [|x l Sx Fl IH]; intros r s Fr H; destruct Fr as [|y r Sy Fr]; cbn [equal_rows] in H;
    apply mbind_ok in H as (? & s1 & _ & H); try done.
  apply mbind_ok in H as (bx & s2 & Bx & H). apply lift_ok in Bx as [Bx ->].
  apply mbind_ok in H as (by' & s3 & By & H). apply lift_ok in By as [By ->].
  destruct (list_eqb bx by') eqn:E; [|done]. apply bool_decide_eq_true in E. subst by'.
  f_equal; [by apply (canonical_key x y bx)|by eapply IH].
Qed.

Lemma sort_compare_ok rows expected n s s' : Forall stored rows -> Forall stored (spool expected) ->
  sort_compare env write layout b sha256_hex rows expected s = (Ok (true, n), s') -> rows ≡ₚ spool expected.
Proof.
  intros Fr Fe H. unfold sort_compare in H. apply mbind_ok in H as (w & s1 & _ & H).
  apply mbind_ok in H as (so & s2 & So & H). apply lift_ok in So as [So ->].
  apply external_sort_ok in So as (_ & P & F & _); [|done|done].
  apply mbind_ok in H as (eq & s3 & Q & H). injection H as -> _ _.
  unfold equal_sorted in Q. case_match; [done|]. apply equal_rows_ok in Q; [|done|done]. by rewrite <- P, Q.
Qed.

(** ** Writing stays inside the transaction *)

Lemma read_batch_data session plan r s x s' : read_batch env layout b session plan r s = (Ok x, s') ->
  forall p, x.1 = Some p -> data_statement (wb_sql (pb_batch p)) = true.
Proof.
  unfold read_batch. destruct (next_batch _ _ _ _ _ _ _ _ _ _) as [y c] eqn:E. intros [= -> _] p Hp.
  destruct x as [o r']. simpl in Hp. subst o. by eapply next_batch_data.
Qed.
Lemma write_batches_inside {idle} t plan fuel r : TransactionalTarget idle t -> Inside (write_batches env layout b fuel t plan r).
Proof.
  intros T. revert r. induction fuel as [|fuel IH]; intros r; cbn [write_batches];
    (apply (inside_bind_post _ _ (fun x => forall p, x.1 = Some p -> data_statement (wb_sql (pb_batch p)) = true));
      [apply inside_keeps, keeps_read_batch, obs_counters|intros x s s'; apply read_batch_data|]);
    intros [[p|] r'] Dp; try apply _.
  apply inside_bind; [|intros _; apply IH]. apply inside_release.
  pose proof (inside_call (write_batch t (pb_batch p)) (tx_write env db work open content t (pb_batch p) (Dp p eq_refl))). apply _.
Qed.
Lemma write_kind_inside {idle} t plan kind : TransactionalTarget idle t -> Inside (write_network_kind env layout b t plan kind).
Proof. intros T. exact (write_batches_inside t plan _ _ T). Qed.
Lemma delete_tables_inside {idle} t tables : TransactionalTarget idle t -> Inside (delete_tables env t tables).
Proof.
  intros T. induction tables as [|x tables IH]; cbn [delete_tables]; [apply _|].
  pose proof (inside_call (delete_all t x) (tx_delete env db work open content t x)). apply _.
Qed.

Context (canonicalize : str -> option str) (is_same_file : str -> str -> option bool).
Abbreviation transaction := (execute_network_transaction env write byte_count layout b sha256_hex cal canonicalize is_same_file) (only parsing).

Lemma transaction_inside {idle} t identity plan : TransactionalTarget idle t -> Inside (transaction t identity plan).
Proof.
  intros T. unfold execute_network_transaction.
  pose proof (inside_reads (load_metadata t) (tx_metadata env db work open content t)).
  pose proof (fun full pr st cv => snapshot_inside t full pr st cv T).
  pose proof (fun x y => inside_keeps _ (keeps_sort_compare obs env write layout b sha256_hex x y)).
  pose proof (fun k => write_kind_inside t plan k T). pose proof (fun l => delete_tables_inside t l T).
  pose proof (inside_call (maintain_generators t (vm_tables (sp_mapping plan))) (tx_maintain env db work open content t _)).
  apply _.
Qed.

Lemma checked_ok s x s' : checked env s = (Ok x, s') -> s' = s.
Proof. unfold checked. by case_match; intros [= <- <-]. Qed.

Lemma sort_compare_obs rows expected s r s' : sort_compare env write layout b sha256_hex rows expected s = (r, s') ->
  obs (s_world s') = obs (s_world s).
Proof. apply (keeps_sort_compare obs env write layout b sha256_hex rows expected). Qed.

(** What the target must be for the preview to be current, and what a commit promises. *)
Definition previewed (plan : StoredDataPlan) (d : D) : Prop := exists current full,
  md_schema_fingerprint current = md_schema_fingerprint (sp_target_metadata plan) /\
  full_projections (sp_mapping plan) current = Ok full /\
  map norm_row (content d full) ≡ₚ spool (sp_target_full plan).
Definition delivered (plan : StoredDataPlan) (d : D) : Prop :=
  map norm_row (content d (projections (sp_mapping plan) false)) ≡ₚ spool (sp_expected plan).

(** A snapshot found equal to a stored spool: the session sees that content. *)
Lemma compared {idle} t full status expected out n s s1 s' : TransactionalTarget idle t -> open (s_world s) = true -> Forall fits full ->
  Forall stored (spool expected) ->
  network_snapshot env write byte_count layout b cal t full None status None s = (Ok out, s1) ->
  sort_compare env write layout b sha256_hex (so_full out) expected s1 = (Ok (true, n), s') ->
  map norm_row (content (work (s_world s)) full) ≡ₚ spool expected /\ obs (s_world s') = obs (s_world s).
Proof.
  intros T O Ft Fe Sn C. split.
  - destruct (snapshot_content _ _ _ _ _ _ T O Ft Sn) as [Fo P]. rewrite <- P. by eapply sort_compare_ok.
  - rewrite (sort_compare_obs _ _ _ _ _ C). apply (snapshot_obs _ _ _ _ _ _ _ _ T O) in Sn as [_ Sn]. by eapply Sn.
Qed.

(** The writes between the two comparisons. *)
Definition writes t plan : M W unit :=
  run! emit env Executing true in
  run! (if is_mode (rq_mode (sp_request plan)) Replace
        then delete_tables env t (vm_delete_order (sp_mapping plan))
        else write_network_kind env layout b t plan Delete) in
  run! write_network_kind env layout b t plan Update in
  run! write_network_kind env layout b t plan Insert in
  run! call (maintain_generators t (vm_tables (sp_mapping plan))) in
  run! emit env Verifying true in checked env.
Lemma writes_inside {idle} t plan : TransactionalTarget idle t -> Inside (writes t plan).
Proof.
  intros T. unfold writes. pose proof (fun k => write_kind_inside t plan k T). pose proof (fun l => delete_tables_inside t l T).
  pose proof (inside_call (maintain_generators t (vm_tables (sp_mapping plan))) (tx_maintain env db work open content t _)).
  apply _.
Qed.

Definition plan_fits (plan : StoredDataPlan) : Prop := Forall fits (projections (sp_mapping plan) false).
Lemma full_fits mapping metadata full : full_projections mapping metadata = Ok full -> Forall fits (projections mapping false) ->
  Forall fits full.
Proof.
  unfold full_projections, projections. intros H F. apply traverse_ok_inv in H. rewrite list.Forall_fmap in F.
  induction H as [|m p ms ps H _ IH]; [constructor|]. apply list.Forall_cons in F as [(Fw & Fm & _) F]. constructor; [|by apply IH].
  apply rbind_ok_inv in H as (tb & Tb & H). apply ok_or_ok_inv, find_table_some in Tb as [_ Tb]. apply Ok_inj in H as <-.
  split_and!; cbn; [by rewrite Tb..|]. vm_compute. discriminate.
Qed.

Lemma transaction_ok {idle} t identity plan s s' x : TransactionalTarget idle t -> open (s_world s) = true -> plan_fits plan ->
  Forall stored (spool (sp_expected plan)) -> Forall stored (spool (sp_target_full plan)) ->
  transaction t identity plan s = (Ok x, s') ->
  previewed plan (work (s_world s)) /\ delivered plan (work (s_world s')).
Proof.
  intros T O Fp Fe Ff H. unfold execute_network_transaction in H.
  apply mbind_ok in H as (? & s1 & C%checked_ok & H). subst s1.
  apply mbind_ok in H as (current & s2 & [L _]%call_ok & H).
  apply (tx_metadata env db work open content t) in L as [_ L]; [|done]. specialize (L _ eq_refl). injection L as _ L2 L3.
  destruct (str_eqb _ _) eqn:Ef; [apply str_eqb_eq in Ef|done]. cbn [negb] in H.
  apply mbind_ok in H as (w & s3 & [= _ <-] & H). apply mbind_ok in H as (ti & s4 & [_ ->]%lift_ok & H).
  apply mbind_ok in H as (? & s5 & [_ ->]%lift_ok & H). apply mbind_ok in H as (? & s6 & [_ ->]%lift_ok & H).
  apply mbind_ok in H as (full & s7 & [Hf ->]%lift_ok & H). apply mbind_ok in H as (reread & s8 & Sn & H).
  apply mbind_ok in H as ([same n] & s9 & Cp & H). cbn [fst] in H. destruct same; [|done]. cbn [negb] in H.
  destruct (compared t _ _ _ _ _ _ _ _ T ltac:(rewrite L3; exact O) (full_fits _ _ _ Hf Fp) Ff Sn Cp) as [P B]. rewrite L2 in P.
  split; [by exists current, full|]. injection B as _ _ O9. rewrite L3, O in O9.
  clear Sn Cp P Hf L2 L3 Ef full reread.
  assert (Q : exists s10, writes t plan s9 = (Ok tt, s10) /\
    (do! final_rows := network_snapshot env write byte_count layout b cal t (projections (sp_mapping plan) false) None Verifying None in
     do! equal := sort_compare env write layout b sha256_hex (so_full final_rows) (sp_expected plan) in
     run! modify (fun p => set_verified p equal.2) in
     if negb equal.1 then mfail (u "validation_failed: 最终集合校验不一致，已拒绝提交") else checked env) s10 = (Ok x, s')).
  { do 7 (apply mbind_ok in H as ([] & ? & ? & H)). eexists. split; [|exact H]. unfold writes.
    repeat (unfold mbind at 1; match goal with E : ?m ?s = (Ok tt, _) |- context [match ?m ?s with _ => _ end] => rewrite E end).
    done. }
  clear H. destruct Q as (s10 & Wr & H). apply (writes_inside t plan T _ _ _ O9) in Wr as [_ O10]. specialize (O10 tt eq_refl).
  apply mbind_ok in H as (final & s11 & Sn & H).
  apply mbind_ok in H as ([equal m] & s12 & Cp & H). apply mbind_ok in H as (? & s13 & [= _ <-] & H). cbn [fst] in H.
  destruct equal; [|done]. cbn [negb] in H. apply checked_ok in H as ->. cbn [s_world].
  destruct (compared t _ _ _ _ _ _ _ _ T O10 Fp Fe Sn Cp) as [P B]. injection B as _ B _. unfold delivered. by rewrite B.
Qed.

Context (target_type : DatabaseType) (source_fingerprint target_fingerprint : str).
Context (open_source open_target : DataEndpoint -> W -> result (DataSession W) str * W).
Context `{!Preflight env db work open content open_source open_target}.

Lemma preflight_db plan : Keeps db (preflight env target_type source_fingerprint target_fingerprint open_source open_target plan).
Proof.
  unfold preflight. apply keeps_bind; [apply _|]. intros _. apply keeps_if; [apply _|].
  apply keeps_bind; [apply _|]. intros w. do 2 (apply keeps_if; [apply _|]).
  intros s r s' H. unfold mbind at 1 in H. destruct (call (open_source _) s) as [[so|e] s1] eqn:E.
  - assert (E1 : db (s_world s1) = db (s_world s)).
    { exact (keeps_call db _ (pf_source env db work open content _) s _ s1 E). }
    rewrite <- E1. apply call_ok in E as [E _].
    destruct (pf_source_session env db work open content _ _ _ _ E) as (K1 & K2 & K3).
    pose proof (keeps_call db _ K1). pose proof (keeps_call db _ K2). pose proof (keeps_call db _ K3).
    pose proof (keeps_call db _ (pf_target env db work open content (rq_target (sp_request plan)))).
    match type of H with ?m s1 = _ => assert (Km : Keeps db m) by apply _ end. exact (Km _ _ _ H).
  - injection H as _ <-. exact (keeps_call db _ (pf_source env db work open content _) s _ s1 E).
Qed.
Lemma preflight_target plan s so t s' :
  preflight env target_type source_fingerprint target_fingerprint open_source open_target plan s = (Ok (so, t), s') ->
  exists idle, TransactionalTarget idle t /\ idle (s_world s').
Proof.
  unfold preflight. intros H. apply mbind_ok in H as (? & s1 & _ & H). case_match; [done|].
  apply mbind_ok in H as (? & ? & _ & H). do 2 (case_match; [done|]). do 3 apply mbind_ok in H as (? & ? & _ & H).
  case_match; [done|]. apply mbind_ok in H as (? & ? & _ & H). apply mbind_ok in H as (t' & s2 & O & H).
  apply mbind_ok in H as (w & ? & [= _ <-] & H). case_match; [done|]. injection H as _ <- <-.
  apply call_ok in O as [O _]. by eapply (pf_target_session env db work open content).
Qed.

(** The outcome of a task against the target before and after it. *)
Definition truthful (plan : StoredDataPlan) (before : D) (x : DataTaskResult * State W) : Prop :=
  let '(r, s) := x in
  (rs_status r = Succeeded <-> rs_commit_state r = CsCommitted) /\
  match rs_commit_state r with
  | CsCommitted => previewed plan before /\ delivered plan (db (s_world s))
  | CsUnknown => rs_status r = OutcomeUnknown /\ rs_requires_target_refresh r = true /\
      (db (s_world s) = before \/ previewed plan before /\ delivered plan (db (s_world s)))
  | CsPartial => False
  | CsNone | CsRolledBack => (rs_status r = Failed \/ rs_status r = Cancelled) /\ db (s_world s) = before
  end.
(** A task that did not commit says why. *)
Definition explained (r : DataTaskResult) : Prop := rs_error r = None <-> rs_commit_state r = CsCommitted.
Definition honest (plan : StoredDataPlan) (before : D) (x : DataTaskResult * State W) : Prop :=
  truthful plan before x /\ explained x.1.

Lemma honest_cleanup {idle} plan before t x : TransactionalTarget idle t ->
  honest plan before x -> honest plan before (collect_cleanup t x).
Proof.
  intros T. destruct x as [r s]. unfold collect_cleanup. destruct (take_cleanup_errors t (s_world s)) as [es w] eqn:E.
  apply (tx_cleanup env db work open content t) in E. unfold honest. cbn. by rewrite E.
Qed.

Lemma explained_some r e : rs_error r = Some e -> rs_commit_state r <> CsCommitted -> explained r.
Proof. intros E N. split; [congruence|done]. Qed.

Lemma honest_failure {idle} plan t message s : TransactionalTarget idle t ->
  honest plan (db (s_world s)) (rollback_network_failure env t plan message s).
Proof.
  intros T. unfold rollback_network_failure. destruct (rollback_in_time t (s_world s)) as [r w] eqn:E.
  apply (tx_rollback_in_time env db work open content t) in E.
  destruct r as [[[]|e]|]; (split; [|eapply explained_some; [reflexivity|discriminate]]); unfold truthful;
    cbn [rs_status rs_commit_state rs_requires_target_refresh failed_result s_world]; rewrite E.
  - split_and!; [by destruct (e_cancelled env w)|by destruct (e_cancelled env w); [right|left]|done].
  - split_and!; try done. by left.
  - split_and!; try done. by left.
Qed.

Abbreviation run_task := (execute_network env write byte_count layout b sha256_hex cal canonicalize is_same_file
  target_type source_fingerprint target_fingerprint open_source open_target) (only parsing).

Lemma task_honest plan w : plan_fits plan ->
  Forall stored (spool (sp_expected plan)) -> Forall stored (spool (sp_target_full plan)) ->
  honest plan (db w) (run_task plan w).
Proof.
  intros Fp Fe Ff. unfold execute_network.
  destruct (preflight _ _ _ _ _ _ plan _) as [[[so t]|e] s] eqn:Pf; cycle 1.
  { apply preflight_db in Pf. split; [|eapply explained_some; [reflexivity|discriminate]]. unfold truthful.
    cbn [rs_status rs_commit_state failed_result s_world] in *. split_and!; [by case_match|by case_match; [right|left]|done]. }
  destruct (preflight_target _ _ _ _ _ Pf) as (idle & T & Shut). apply preflight_db in Pf. cbn [s_world] in Pf. rewrite <- Pf. clear Pf.
  destruct (call (begin_protected_write t _) s) as [[[]|m] s1] eqn:B.
  2: { apply call_ok_or in B as [B _]. apply (tx_begin env db work open content t) in B; [|done]. rewrite <- B.
       apply (honest_cleanup _ _ _ _ T). exact (honest_failure _ _ _ _ T). }
  assert (L : work (s_world s1) = db (s_world s1) /\ open (s_world s1) = true).
  { apply call_ok in B as [B _]. exact (tx_locked env db work open content t _ _ _ Shut B). }
  apply call_ok_or in B as [B _]. apply (tx_begin env db work open content t) in B; [|done]. rewrite <- B. clear B. destruct L as [L O].
  destruct (endpoint_identity so (s_world s1)) as [identity|]; cycle 1.
  { destruct (rollback t (s_world s1)) as [r w1] eqn:E. apply (tx_rollback env db work open content t) in E.
    split; [|eapply explained_some; [reflexivity|discriminate]]. unfold truthful. cbn [rs_status rs_commit_state failed_result s_world].
    split_and!; [done|by left|done]. }
  apply (honest_cleanup _ _ _ _ T).
  destruct (mbind _ _ s1) as [[[]|m] s2] eqn:E.
  - apply mbind_ok in E as (? & s3 & Tr & E). destruct (transaction_ok t identity plan _ _ _ T O Fp Fe Ff Tr) as [P Q].
    apply (transaction_inside t identity plan T) in Tr; [|done]. destruct Tr as [Tr O3]. specialize (O3 _ eq_refl). rewrite L in P.
    apply mbind_ok in E as (? & s4 & Em & E%checked_ok). subst s4. apply emit_obs in Em. injection Em as Ed Ew Eo.
    rewrite <- Ew in Q. clear Ew. rewrite O3 in Eo.
    destruct (commit t (s_world s2)) as [r w2] eqn:C. destruct (tx_commit env db work open content t _ _ _ Eo C) as [C1 C2].
    destruct r as [[[]|e]|].
    + destruct (emit env Succeeded true (mkState w2 (s_progress s2))) as [r' s5] eqn:Es. apply emit_obs in Es.
      injection Es as Es _ _. split; [|done]. unfold truthful. cbn [rs_status rs_commit_state failed_result].
      rewrite Es. cbn [s_world]. rewrite (C1 eq_refl). by split_and!.
    + split; [|eapply explained_some; [reflexivity|discriminate]]. unfold truthful.
      cbn [rs_status rs_commit_state rs_requires_target_refresh failed_result s_world].
      split_and!; try done. destruct C2 as [-> | ->]; [left; congruence|by right].
    + split; [|eapply explained_some; [reflexivity|discriminate]]. unfold truthful.
      cbn [rs_status rs_commit_state rs_requires_target_refresh failed_result s_world].
      split_and!; try done. destruct C2 as [-> | ->]; [left; congruence|by right].
  - pose proof (transaction_inside t identity plan T).
    match type of E with ?f s1 = _ => assert (K : Inside f) by apply _ end.
    apply K in E; [|done]. destruct E as [E _]. rewrite <- E. exact (honest_failure _ _ _ _ T).
Qed.

(** C5: a task over two sessions reports the truth about a target whose session
    is transactional, on every path: it says committed exactly when it says
    succeeded, and then the target was the previewed one and now holds the
    plan's expected rows; a task that failed, was cancelled or rolled back left
    the target as it was; and when the outcome is unknown, it says so, asks for
    a refresh, and the target is one of these two. *)
Theorem execute_network_honest plan w : plan_fits plan ->
  Forall stored (spool (sp_expected plan)) -> Forall stored (spool (sp_target_full plan)) ->
  honest plan (db w) (run_task plan w).
Proof. apply task_honest. Qed.

(** From the snapshots to the target, planning and execution composed: when
    a task whose plan was built from the snapshots of the source and the target
    reports a commit, the target held exactly the snapshot's rows before, and
    holds exactly the rows the mode promises after. *)
Theorem planned_task_delivers plan_budget write_operations `{!SpoolStore write_operations} counters encode_mapping encode_fingerprint
  plan_id now escapes task_id request mapping source_metadata target_metadata source target target_full plan w r s' :
  Forall stored (ss_rows source) -> Forall stored (ss_rows target) -> Forall stored (ss_rows target_full) ->
  Forall fits (projections mapping false) -> zlen (ss_rows target) <= u64_max ->
  build_plan write write_operations layout plan_budget counters sha256_hex encode_mapping encode_fingerprint plan_id now escapes task_id
    request mapping source_metadata target_metadata source target target_full = Ok plan ->
  run_task plan w = (r, s') -> rs_commit_state r = CsCommitted ->
  map norm_row (content (db (s_world s')) (projections mapping false)) ≡ₚ
    promised (rq_mode request) (ss_rows source) (ss_rows target) /\
  exists current full, md_schema_fingerprint current = md_schema_fingerprint target_metadata /\
    full_projections mapping current = Ok full /\ map norm_row (content (db w) full) ≡ₚ ss_rows target_full.
Proof.
  intros Fs Ft Ff Fp L B R C.
  apply build_plan_inv in B as (v & d & _ & _ & _ & _ & _ & _ & _ & _ & _ & _ & _ & Pe & _ & Ee & Em & _ & _ & Et & _ & _ & _
    & _ & _ & [De _] & Df); try done.
  destruct (Df Ff) as [[Sf _] Pf]. assert (Fp' : plan_fits plan) by (unfold plan_fits; by rewrite Em).
  pose proof (task_honest plan w Fp' De Sf) as H. rewrite R in H. destruct H as [[_ H] _].
  rewrite C in H. destruct H as (P & Q). unfold delivered in Q. rewrite Em in Q. split.
  - by rewrite Q, Ee, Pe.
  - destruct P as (current & full & E1 & E2 & E3). exists current, full. rewrite Et in E1. rewrite Em in E2.
    split_and!; [done..|]. by rewrite E3.
Qed.

End Guarantee.

(** ** Witnesses: two sessions over a world of the committed and the uncommitted rows *)

Record Toy : Type := mkToy { toy_db : Rows; toy_work : Rows; toy_open_tx : bool; toy_counters : Counters }.
Definition toy_environment : Environment Toy :=
  mkEnvironment Toy (fun _ => false) (fun _ => 0) (fun _ => 7) (fun _ w => w) toy_counters
    (fun c w => mkToy (toy_db w) (toy_work w) (toy_open_tx w) c).
(** Applies the INSERT batches of [pair_mapping]: two parameters a row. *)
Fixpoint toy_rows (l : list DataValue) : Rows :=
  match l with k :: v :: l => mkRow (u "t") [k] [k; v] :: toy_rows l | _ => [] end.
Definition toy_session (path : str) (commits : bool) : DataSession Toy := {|
  supports_transaction _ := true;
  endpoint_identity _ := Some (sample_identity path);
  take_cleanup_errors w := ([], w);
  dialect := DSqlite;
  begin_read w := (Ok tt, w);
  begin_protected_write _ w := (Ok tt, mkToy (toy_db w) (toy_db w) true (toy_counters w));
  load_metadata w := (Ok pair_metadata, w);
  stream_rows _ w := (if forallb (fun r => bool_decide (r ∈ [pair_row 1 (u "A"); pair_row 2 (u "B")])) (toy_work w)
                      then (toy_work w, Ok 0, w) else ([], Err (u "io"), w));
  write_batch x w := (Ok (zlen (wb_params x) / 2),
                      mkToy (toy_db w) (toy_work w ++ toy_rows (wb_params x)) (toy_open_tx w) (toy_counters w));
  delete_all _ w := (Ok (zlen (toy_work w)), mkToy (toy_db w) [] (toy_open_tx w) (toy_counters w));
  maintain_generators _ w := (Ok tt, w);
  commit w := if commits then (Some (Ok tt), mkToy (toy_work w) (toy_work w) false (toy_counters w)) else (None, w);
  rollback w := (Ok tt, mkToy (toy_db w) (toy_db w) false (toy_counters w));
  rollback_in_time w := (Some (Ok tt), mkToy (toy_db w) (toy_db w) false (toy_counters w));
|}.
Definition toy_open (path : str) (commits : bool) : DataEndpoint -> Toy -> result (DataSession Toy) str * Toy :=
  fun _ w => (Ok (toy_session path commits), mkToy (toy_db w) (toy_work w) false (toy_counters w)).
Definition toy_world : Toy := mkToy [] [] false (fresh_counters false).
Definition toy_run (commits : bool) (plan : StoredDataPlan) : DataTaskResult * State Toy :=
  execute_network toy_environment plain_write zlen sample_layout default_budget (fun b => map (fun x => x mod 128) b)
    (fun _ _ _ => true) Some (fun a b => Some (str_eqb a b)) Sqlite [] [] (toy_open (u "x") commits) (toy_open (u "y") commits)
    plan toy_world.
Definition committed_as (commits : bool) (state : DataCommitState) : bool :=
  match plan_of Mirror source_rows [] with
  | Ok p => bool_decide (rs_commit_state (toy_run commits p).1 = state)
  | Err _ => false
  end.

#[export] Instance toy_neutral : Neutral toy_environment toy_db toy_work toy_open_tx.
Proof. by split. Qed.
Lemma toy_streams w rows n w' ps path commits : stream_rows (toy_session path commits) ps w = (rows, Ok n, w') ->
  Forall streamed rows /\ rows ≡ₚ toy_work w.
Proof.
  cbn [stream_rows toy_session]. destruct (forallb _ (toy_work w)) eqn:E; [|done]. intros [= <- <- <-]. split; [|done].
  rewrite forallb_true_iff in E. apply list.Forall_forall. intros x Hx. apply E, bool_decide_eq_true_1 in Hx.
  rewrite !elem_of_cons in Hx.
  destruct Hx as [->|[->|[]%elem_of_nil]]; (edestruct pair_row_stored as [Wf _ En]; [| |split; [exact Wf|exact En]]);
    [lia|reflexivity|lia|reflexivity].
Qed.
Lemma toy_transactional path commits : Transactional toy_environment toy_db toy_work toy_open_tx (fun d _ => d) (fun _ => True) (toy_session path commits).
Proof.
  split.
  - by intros ts w r w' _ [= <- <-].
  - by intros ts w w' _ [= <-].
  - by intros w r w' _ [= <- <-].
  - intros ps w rows r w' _. cbn. destruct (forallb _ (toy_work w)); intros [= <- <- <-]; split; auto; discriminate.
  - intros ps w rows n w' _ _. apply toy_streams.
  - by intros x _ w r w' O [= <- <-].
  - by intros x w r w' O [= <- <-].
  - by intros x w r w' O [= <- <-].
  - intros w r w' _. cbn. destruct commits; intros [= <- <-]; split; auto; discriminate.
  - by intros w r w' [= <- <-].
  - by intros w r w' [= <- <-].
  - by intros w r w' [= <- <-].
Qed.
#[export] Instance toy_preflight : Preflight toy_environment toy_db toy_work toy_open_tx (fun d _ => d) (toy_open (u "x") true) (toy_open (u "y") true).
Proof.
  split; unfold toy_open.
  - by intros e w r w' [= <- <-].
  - by intros e w r w' [= <- <-].
  - intros e w t w' [= <- <-]. exists (fun _ => True). split; [apply toy_transactional|done].
  - intros e w s w' [= <- <-]. split_and!; by intros ? ? ? [= <- <-].
Qed.

Lemma committed_plan : exists p, plan_of Mirror source_rows [] = Ok p /\ rs_commit_state (toy_run true p).1 = CsCommitted.
Proof.
  assert (H : committed_as true CsCommitted = true) by (vm_compute; reflexivity).
  unfold committed_as in H. destruct (plan_of _ _ _) as [p|e]; [|done]. exists p. split; [done|]. by apply bool_decide_eq_true_1 in H.
Qed.

Lemma pair_fits : Forall fits (projections pair_mapping false).
Proof.
  constructor; [|constructor]. split_and!; [apply (bool_decide_unpack (Forall _ _)); vm_compute; exact I|vm_compute; discriminate..].
Qed.

Lemma execute_network_honest_witness : exists p, plan_of Mirror source_rows [] = Ok p /\
  honest toy_db (fun d _ => d) p [] (toy_run true p).
Proof.
  destruct committed_plan as (p & E & _). exists p. split; [exact E|].
  assert (D : digested (fun b => map (fun x => x mod 128) b) (sp_expected p) /\
              digested (fun b => map (fun x => x mod 128) b) (sp_target_full p)).
  { pose proof E as B. apply build_plan_inv in B as (v & d & B); [|apply _|apply _|exact source_rows_stored|constructor|vm_compute; discriminate].
    split; [apply B|]. apply B. constructor. }
  assert (F : plan_fits p).
  { pose proof E as B. apply build_plan_inv in B as (v & d & B); [|apply _|apply _|exact source_rows_stored|constructor|vm_compute; discriminate].
    unfold plan_fits. destruct B as (_ & _ & _ & _ & _ & _ & _ & _ & _ & _ & _ & _ & _ & _ & B & _). rewrite B. exact pair_fits. }
  exact (execute_network_honest toy_environment toy_db toy_work toy_open_tx (fun d _ => d) plain_write zlen sample_layout default_budget
    _ _ Some _ Sqlite [] [] (toy_open (u "x") true) (toy_open (u "y") true) p toy_world F (proj1 (proj1 D)) (proj1 (proj2 D))).
Defined.

Lemma planned_task_delivers_witness : exists p, plan_of Mirror source_rows [] = Ok p /\
  map norm_row (toy_db (s_world (toy_run true p).2)) ≡ₚ source_rows.
Proof.
  destruct committed_plan as (p & E & C). exists p. split; [exact E|].
  destruct (toy_run true p) as [r s'] eqn:R.
  exact (proj1 (planned_task_delivers toy_environment toy_db toy_work toy_open_tx (fun d _ => d) plain_write zlen sample_layout
    default_budget _ _ Some _ Sqlite [] [] (toy_open (u "x") true) (toy_open (u "y") true) small_budget plain_write _ _ _ _ _ _ _ _ _ _ _
    (mkCaptured source_rows 1) (mkCaptured [] 2) (mkCaptured [] 2) p toy_world r s'
    source_rows_stored (List.Forall_nil _) (List.Forall_nil _) pair_fits ltac:(vm_compute; discriminate) E R C)).
Defined.

End Execution.
