(* ===== verification/SqliteAdapter.v ===== *)
(** The SQLite data channel: reading rows and binding values
    (src-tauri/src/db/data_tasks/adapters/sqlite.rs), sending rows under the
    memory budget (adapters/mod.rs) and the session of a dedicated thread
    (adapters/sqlite_async.rs), which is shown to be the transactional session
    that the orchestration relies on.

    rusqlite and the database behind it are a [Connection]: what its calls
    return in a world, and the world after. *)
From S2P Require Import Prelude RustText DataTypes MetaTypes Values Spool SpoolSort TypeMapping Metadata Plan Batch Executor Execution SqlDialect.
Import DataTypes MetaTypes Values Spool SpoolSort TypeMapping Metadata Plan Batch Executor Execution SqlDialect.

Module SqliteAdapter.

(** ** The driver *)

(** [rusqlite::types::ValueRef] and [Value]. *)
Inductive ValueRef : Type := RNull | RInteger (v : Z) | RReal (bits : Z) | RText (v : bytes) | RBlob (v : bytes).
Inductive Value : Type := BNull | BInteger (v : Z) | BReal (bits : Z) | BText (v : str) | BBlob (v : bytes).
#[export] Instance ValueRef_eq_dec : EqDecision ValueRef.
Proof. solve_decision. Defined.

(** A query yields rows, then its end ([true]) or an error; [None] when it
    could not start. *)
Record Connection (W : Type) : Type := mkConnection {
  execute_batch : str -> W -> bool * W;
  execute : str -> list Value -> W -> option Z * W;
  query : str -> W -> option (list (list ValueRef) * bool) * W;
  clear_progress_handler : W -> bool * W;
  is_autocommit : W -> bool;
}.
Arguments execute_batch {W}. Arguments execute {W}. Arguments query {W}. Arguments clear_progress_handler {W}. Arguments is_autocommit {W}.

Definition db_error : str := u "SQLite 数据任务操作失败，请检查约束、权限及数据库锁".
Definition row_limit : Z := 8 * 1024 * 1024.

(** ** Loading the schema *)

(** [row.get::<_, i64>] and [row.get::<_, u32>]: only integers, in range. *)
Definition get_i64 (row : list ValueRef) (i : nat) : result Z str :=
  match row !! i with Some (RInteger v) => Ok v | _ => Err db_error end.
Definition get_u32 (row : list ValueRef) (i : nat) : result Z str :=
  let? v := get_i64 row i in if (0 <=? v) && (v <=? u32_max) then Ok v else Err db_error.
Definition get_string (row : list ValueRef) (i : nat) : result str str :=
  match row !! i with Some (RText v) => ok_or (from_utf8 v) db_error | _ => Err db_error end.
Definition get_optional_string (row : list ValueRef) (i : nat) : result (option str) str :=
  match row !! i with Some RNull => Ok None | _ => let? s := get_string row i in Ok (Some s) end.

Definition with_columns (t : DataTable) (columns : list DataColumn) : DataTable :=
  mkTable (tb_name t) (tb_create_sql t) columns (tb_foreign_keys t) (tb_enabled_user_triggers t) (tb_physical t).
(** [column.identity = false; column.generator_safe = false; column.nullable = ..] *)
Definition without_identity (nullable : bool) (c : DataColumn) : DataColumn :=
  mkColumn (dc_name c) (dc_declared_type c) nullable (dc_default_sql c) (dc_generated c) (dc_primary_key_ordinal c)
    (dc_collation c) false false.
Definition with_collation (collation : option str) (c : DataColumn) : DataColumn :=
  mkColumn (dc_name c) (dc_declared_type c) (dc_nullable c) (dc_default_sql c) (dc_generated c) (dc_primary_key_ordinal c)
    collation (dc_identity c) (dc_generator_safe c).

(** The two maps of the first query. *)
Record Loaded : Type := mkLoaded { ld_tables : gmap str DataTable; ld_nullable : gmap (str * str) bool }.
Definition declared_nullable (l : Loaded) (name column : str) : bool := default false (ld_nullable l !! (name, column)).

Definition load_column (l : Loaded) (row : list ValueRef) : result Loaded str :=
  let? name := get_string row 0 in
  let? sql := get_string row 1 in
  let? kind := get_string row 2 in
  let? wr := get_i64 row 3 in
  let without_rowid := negb (wr =? 0) in
  let? column := get_string row 4 in
  let? declared_type := get_string row 5 in
  let? notnull := get_i64 row 6 in
  let? default_sql := get_optional_string row 7 in
  let? pk := get_u32 row 8 in
  let? hidden := get_i64 row 9 in
  let identity := (0 <? pk) && eq_ignore_ascii_case declared_type (u "INTEGER") && negb without_rowid in
  let declared := (notnull =? 0) && negb (without_rowid && (0 <? pk)) in
  let t := default (mkTable name sql [] [] false (str_eqb kind (u "table"))) (ld_tables l !! name) in
  let c := mkColumn column declared_type ((notnull =? 0) && negb identity && negb (without_rowid && (0 <? pk))) default_sql
             (negb (hidden =? 0)) pk (Some (u "BINARY")) identity identity in
  Ok (mkLoaded (<[name := with_columns t (tb_columns t ++ [c])]> (ld_tables l)) (<[(name, column) := declared]> (ld_nullable l))).

(** Only a sole primary key column is an alias of the rowid. *)
Definition key_columns (columns : list DataColumn) : list DataColumn := filter (fun c => 0 < dc_primary_key_ordinal c) columns.
Definition reset_composite (l : Loaded) (t : DataTable) : DataTable :=
  if (length (key_columns (tb_columns t)) =? 1)%nat then t
  else with_columns t (map (fun c => if dc_identity c then without_identity (declared_nullable l (tb_name t) (dc_name c)) c else c)
                         (tb_columns t)).

Definition load_foreign_key (m : gmap (str * Z) DataForeignKey) (row : list ValueRef) : result (gmap (str * Z) DataForeignKey) str :=
  let? name := get_string row 0 in
  let? id := get_i64 row 1 in
  let? parent := get_string row 3 in
  let? on_update := get_string row 6 in
  let? on_delete := get_string row 7 in
  let fk := default (mkForeignKey [] parent [] on_update on_delete) (m !! (name, id)) in
  let? from := get_string row 4 in
  let? to := get_optional_string row 5 in
  Ok (<[(name, id) := mkForeignKey (fk_from_columns fk ++ [from]) (fk_parent_table fk) (fk_parent_columns fk ++ [default [] to])
                        (fk_on_update fk) (fk_on_delete fk)]> m).
(** The order of a [BTreeMap<(String, i64), _>]. *)
Definition key_cmp : str * Z -> str * Z -> comparison := cmp_then (cmp_on fst str_cmp) (cmp_on snd Z.compare).
Definition add_foreign_key (tables : gmap str DataTable) (entry : (str * Z) * DataForeignKey) : gmap str DataTable :=
  alter (fun t => mkTable (tb_name t) (tb_create_sql t) (tb_columns t) (tb_foreign_keys t ++ [entry.2]) (tb_enabled_user_triggers t)
                    (tb_physical t)) entry.1.1 tables.

(** The schema's objects: what the hasher is fed, triggers and indexes. *)
Definition load_object (x : gmap str DataTable * bytes) (row : list ValueRef) : result (gmap str DataTable * bytes) str :=
  let '(tables, hashed) := x in
  let? kind := get_string row 0 in
  let? name := get_string row 1 in
  let? table_name := get_string row 2 in
  let? sql := get_string row 3 in
  let hashed := hashed ++ concat (map (fun part => field (utf8 part)) [kind; name; table_name; sql]) in
  let tables := if str_eqb kind (u "trigger")
                then alter (fun t => mkTable (tb_name t) (tb_create_sql t) (tb_columns t) (tb_foreign_keys t) true (tb_physical t)) table_name tables
                else tables in
  let tables := if str_eqb kind (u "index")
                then alter (fun t => mkTable (tb_name t) (tb_create_sql t ++ [10] ++ u "-- index: " ++ sql) (tb_columns t) (tb_foreign_keys t)
                                       (tb_enabled_user_triggers t) (tb_physical t)) table_name tables
                else tables in
  Ok (tables, hashed).

(** [iter_mut().find(..)]: the first column of that name. *)
Fixpoint update_first (f : DataColumn -> DataColumn) (name : option str) (columns : list DataColumn) : list DataColumn :=
  match columns with
  | [] => []
  | c :: columns => if bool_decide (Some (dc_name c) = name) then f c :: columns else c :: update_first f name columns
  end.
Definition load_collation (l : Loaded) (tables : gmap str DataTable) (row : list ValueRef) : result (gmap str DataTable) str :=
  let? table_name := get_string row 0 in
  let? origin := get_string row 2 in
  let? column_name := get_optional_string row 3 in
  let? collation := get_optional_string row 4 in
  if negb (str_eqb origin (u "pk")) then Ok tables
  else
    let? is_key := get_i64 row 5 in
    if is_key =? 0 then Ok tables
    else
      Ok (alter (fun t => with_columns t (update_first (fun c =>
                   let c := with_collation collation c in
                   if dc_identity c then without_identity (declared_nullable l table_name (dc_name c)) c else c)
                   column_name (tb_columns t))) table_name tables).

Definition tables_sql : str :=
  u "SELECT s.name, s.sql, l.type, l.wr, x.name, x.type, x." ++ [34] ++ u "notnull" ++ [34]
  ++ u ", x.dflt_value, x.pk, x.hidden FROM main.sqlite_schema s JOIN pragma_table_list l ON l.schema='main' AND l.name=s.name JOIN pragma_table_xinfo(s.name,'main') x WHERE s.type='table' AND s.name NOT GLOB 'sqlite_*' ORDER BY s.name,x.cid".
Definition foreign_keys_sql : str :=
  u "SELECT s.name,f.id,f.seq,f." ++ [34] ++ u "table" ++ [34] ++ u ",f." ++ [34] ++ u "from" ++ [34] ++ u ",f." ++ [34] ++ u "to" ++ [34]
  ++ u ",f.on_update,f.on_delete FROM main.sqlite_schema s JOIN pragma_foreign_key_list(s.name,'main') f WHERE s.type='table' AND s.name NOT GLOB 'sqlite_*' ORDER BY s.name,f.id,f.seq".
Definition objects_sql : str := u "SELECT type,name,tbl_name,COALESCE(sql,'') FROM main.sqlite_schema ORDER BY type,name,tbl_name".
Definition indexes_sql : str :=
  u "SELECT s.name,i.name,i.origin,x.name,x.coll,x.key FROM main.sqlite_schema s JOIN pragma_index_list(s.name,'main') i JOIN pragma_index_xinfo(i.name,'main') x WHERE s.type='table' AND s.name NOT GLOB 'sqlite_*' ORDER BY s.name,i.name,x.seqno".

Fixpoint fold_rows {A B} (f : A -> B -> result A str) (x : A) (rows : list B) : result A str :=
  match rows with [] => Ok x | r :: rows => let? x := f x r in fold_rows f x rows end.
(** The four queries in order; an error of the driver ends the loading. *)
Definition query_rows {W A} (c : Connection W) (sql : str) (f : list (list ValueRef) -> W -> result A str * W) (w : W) : result A str * W :=
  match query c sql w with
  | (Some (rows, true), w) => f rows w
  | (_, w) => (Err db_error, w)
  end.
Definition try_ {W A B} (r : result A str) (f : A -> W -> result B str * W) (w : W) : result B str * W :=
  match r with Ok x => f x w | Err e => (Err e, w) end.
Definition sqlite_load_metadata {W} (sha256_hex : bytes -> str) (c : Connection W) : W -> result (list DataTable * str) str * W :=
  query_rows c tables_sql (fun columns =>
    try_ (fold_rows load_column (mkLoaded ∅ ∅) columns) (fun l =>
      let tables := reset_composite l <$> ld_tables l in
      query_rows c foreign_keys_sql (fun keys =>
        try_ (fold_rows load_foreign_key ∅ keys) (fun foreign =>
          let tables := fold_left add_foreign_key (sort_by (cmp_on fst key_cmp) (map_to_list foreign)) tables in
          query_rows c objects_sql (fun objects =>
            try_ (fold_rows load_object (tables, []) objects) (fun x =>
              query_rows c indexes_sql (fun indexes w =>
                (let? tables := fold_rows (load_collation l) x.1 indexes in
                 Ok (map snd (sort_by (cmp_on fst str_cmp) (map_to_list tables)), sha256_hex x.2), w)))))))).

(** ** The snapshot query *)

(** [while p.columns.iter().any(|c| c.eq_ignore_ascii_case(&size_alias))]:
    every round rules out a column, so their number is enough fuel. *)
Fixpoint size_alias (fuel : nat) (columns : list str) (alias : str) : str :=
  match fuel with
  | O => alias
  | S fuel => if existsb (fun c => eq_ignore_ascii_case c alias) columns then size_alias fuel columns (alias ++ u "_") else alias
  end.
Definition width_of (projections : list Projection) : nat := foldr Nat.max 0%nat (map (fun p => length (pj_columns p)) projections).
Definition table_sql (width index : nat) (p : Projection) : str :=
  let size := sqlite_identifier (size_alias (S (length (pj_columns p))) (pj_columns p) (u "__db_connect_bytes")) in
  let raw := map sqlite_identifier (pj_columns p) in
  let sum := join (u " + ") (map (fun c => u "COALESCE(octet_length(" ++ sqlite_identifier c ++ u "),0)") (pj_columns p)) in
  let columns := map (fun c => u "CASE WHEN " ++ size ++ u " > 8388608 THEN NULL ELSE " ++ c ++ u " END") raw in
  let columns := take width columns ++ replicate (width - length columns) (u "NULL") in
  u "SELECT " ++ show_Z (Z.of_nat index) ++ u " AS __data_table, " ++ join (u ",") columns ++ u ",CASE WHEN " ++ size
  ++ u " > 8388608 THEN 1 ELSE 0 END AS __data_oversized FROM (SELECT " ++ join (u ",") raw ++ u ",(" ++ sum ++ u ") AS " ++ size
  ++ u " FROM main." ++ sqlite_identifier (pj_table p) ++ u ")".
Definition snapshot_sql (projections : list Projection) : result str str :=
  if is_empty projections || (100 <? zlen projections) then Err (u "集合快照必须包含 1 至 100 张物理表")
  else
    let width := width_of projections in
    if (width =? 0)%nat then Err (u "集合快照字段不能为空")
    else
      let sql := join (u " UNION ALL ") (imap (table_sql width) projections) in
      if 1024 * 1024 <? str_len sql then Err (u "集合快照 SQL 超过 1 MiB，请拆分任务") else Ok sql.

(** ** Reading rows *)

Definition too_long : str := u "resource_limit: 单行超过 8 MiB 上限".
(** A value and the bytes counted so far. *)
Definition read_value (cell : ValueRef) (bytes : Z) : result (DataValue * Z) str :=
  let? r := match cell with
            | RNull => Ok (VNull, bytes)
            | RInteger v => Ok (VInt v, bytes)
            | RReal v => Ok (VFloat v, bytes)
            | RText v =>
              if row_limit <? sat_add (sat_add bytes (zlen v)) 16 then Err too_long
              else let? s := ok_or (from_utf8 v) (u "SQLite 文本不是有效 UTF-8，不能无损传输") in Ok (VText s, wrap64 (bytes + zlen v))
            | RBlob v =>
              if row_limit <? sat_add (sat_add bytes (zlen v)) 16 then Err too_long
              else Ok (VBinary v, wrap64 (bytes + zlen v))
            end in
  let bytes := wrap64 (r.2 + 16) in
  if row_limit <? bytes then Err (u "单行超过 8 MiB 上限") else Ok (r.1, bytes).
(** The cells after the table index; a missing one is the driver's error. *)
Fixpoint read_values (count : nat) (cells : list ValueRef) (bytes : Z) : result (list DataValue) str :=
  match count with
  | O => Ok []
  | S count =>
    match cells with
    | [] => Err db_error
    | c :: cells => let? x := read_value c bytes in let? vs := read_values count cells x.2 in Ok (x.1 :: vs)
    end
  end.

Definition read_row (projections : list Projection) (width : nat) (row : list ValueRef) : result CanonicalRow str :=
  let? oversized := get_i64 row (S width) in
  if negb (oversized =? 0) then Err too_long
  else
    let? index := get_u32 row 0 in
    let? p := ok_or (projections !! Z.to_nat index) (u "集合快照表序号无效") in
    let? vs := read_values (length (pj_columns p)) (drop 1 row) 0 in
    let? k := traverse (fun i => ok_or (vs !! i) (u "定位键索引无效")) (pj_key_indices p) in
    new_row (pj_output_table p) k vs.

Section Stream.
Context {W S : Type} (c : Connection W).
(** The state of the caller: the world, and what [push] has gathered. *)
Context (world : S -> W) (set_world : W -> S -> S) (cancelled : S -> bool) (push : CanonicalRow -> S -> result unit str * S).

(** The loop over the rows: how many were pushed. *)
Fixpoint stream_loop (projections : list Projection) (width : nat) (rows : list (list ValueRef)) (complete : bool) (count : Z)
  (s : S) : result Z str * S :=
  match rows with
  | [] => (if complete then Ok count else Err db_error, s)
  | row :: rows =>
    if cancelled s then (Err (u "cancelled"), s)
    else
      match read_row projections width row with
      | Err e => (Err e, s)
      | Ok r =>
        match push r s with
        | (Err e, s) => (Err e, s)
        | (Ok _, s) => stream_loop projections width rows complete (count + 1) s
        end
      end
  end.
Definition stream_rows (projections : list Projection) (s : S) : result Z str * S :=
  match snapshot_sql projections with
  | Err e => (Err e, s)
  | Ok sql =>
    let '(r, w) := query c sql (world s) in
    let s := set_world w s in
    match r with
    | None => (Err db_error, s)
    | Some (rows, complete) => stream_loop projections (width_of projections) rows complete 0 s
    end
  end.
End Stream.

(** ** Binding values *)

(** [f64::is_finite] on the bits. *)
Definition is_finite (bits : Z) : bool := negb (Z.land (Z.shiftr bits 52) 2047 =? 2047).
Definition bind_value (v : DataValue) : result Value str :=
  match v with
  | VNull => Ok BNull
  | VBool v => Ok (BInteger (if v then 1 else 0))
  | VInt v => Ok (BInteger v)
  | VUInt v => if v <=? 9223372036854775807 then Ok (BInteger v) else Err (u "SQLite 不支持超出 i64 范围的整数")
  | VFloat bits => if is_finite bits then Ok (BReal bits) else Err (u "SQLite 不支持无损写入 NaN/Infinity")
  | VText v => Ok (BText v)
  | VBinary v => Ok (BBlob v)
  | _ => Err (u "SQLite 值绑定类型未经无损验证")
  end.

(** ** Sending rows *)

Section Session.
Context {W : Type} (env : Environment W) (layout : Layout) (b : ResourceBudget).
(** The sleep of ten milliseconds, and the channel: whether the receiver took
    the row. *)
Context (sleep : W -> W) (deliver : CanonicalRow -> W -> bool * W).

(** The lease, or the error; [polls] bounds the waiting. *)
Fixpoint reserve_decode (polls : nat) (n : Z) (w : W) : result unit str * W :=
  if cancelled (e_counters env w) then (Err (u "cancelled: 数据快照已取消"), w)
  else
    match reserve_memory b n (e_counters env w) with
    | Ok c => (Ok tt, e_set_counters env c w)
    | Err _ => match polls with O => (Err out_of_fuel, w) | Datatypes.S polls => reserve_decode polls n (sleep w) end
    end.
(** The receiver drops the lease with the envelope. *)
Definition send (polls : nat) (row : CanonicalRow) (w : W) : result unit str * W :=
  let n := row_memory layout row in
  if memory_bytes b <? n then (Err (u "resource_limit: 单行解码超过共享内存预算"), w)
  else
    match reserve_decode polls n w with
    | (Err e, w) => (Err e, w)
    | (Ok _, w) =>
      let '(taken, w) := deliver row w in
      let w := e_set_counters env (drop_lease n (e_counters env w)) w in
      (if taken then Ok tt else Err (u "cancelled: 数据快照通道已关闭"), w)
    end.

(** ** The session *)

Record Worker : Type := mkWorker {
  wk_connection : Connection W; wk_writable : bool; wk_identity : EndpointIdentity; wk_configuration_fingerprint : str }.
Context (sha256_hex : bytes -> str).

Definition on_batch (k : Worker) (sql e : str) (w : W) : result unit str * W :=
  let '(ok, w) := execute_batch (wk_connection k) sql w in (if ok then Ok tt else Err e, w).

Definition session_begin_protected_write (k : Worker) (tables : list str) (w : W) : result unit str * W :=
  if is_empty tables || (100 <? zlen tables) then (Err (u "invalid_mapping: SQLite 目标范围无效"), w)
  else if negb (wk_writable k) then (Err (u "read_only_target: SQLite 目标文件或连接只读"), w)
  else on_batch k (u "BEGIN IMMEDIATE") (u "lock_timeout: 无法在 10 秒内锁定 SQLite 目标") w.
Definition session_load_metadata (k : Worker) (w : W) : result DataMetadataSnapshot str * W :=
  let '(r, w) := sqlite_load_metadata sha256_hex (wk_connection k) w in
  (let? m := r in
   Ok (mkMetadata Sqlite m.1 (negb (wk_writable k)) true true (wk_writable k) m.2 (wk_configuration_fingerprint k)), w).
(** The rows that the receiver took, with the result of the reader. *)
Definition session_stream_rows (polls : nat) (k : Worker) (projections : list Projection) (w : W) : Rows * result Z str * W :=
  let '(r, (rows, w)) := stream_rows (wk_connection k) snd (fun w s => (s.1, w)) (fun s => e_cancelled env s.2)
      (fun row s => let '(x, w) := send polls row s.2 in (x, (if is_ok x then s.1 ++ [row] else s.1, w))) projections ([], w) in
  (rows, r, w).
Definition session_write_batch (k : Worker) (batch : WriteBatch) (w : W) : result Z str * W :=
  if e_cancelled env w then (Err (u "cancelled: 数据任务已取消"), w)
  else
    match traverse bind_value (wb_params batch) with
    | Err e => (Err e, w)
    | Ok vs =>
      let '(n, w) := execute (wk_connection k) (wb_sql batch) vs w in
      (ok_or n (u "constraint_conflict: SQLite 批量写入约束或权限校验失败"), w)
    end.
Definition session_delete_all (k : Worker) (table : str) (w : W) : result Z str * W :=
  if e_cancelled env w then (Err (u "cancelled: 数据任务已取消"), w)
  else
    let '(n, w) := execute (wk_connection k) (u "DELETE FROM main." ++ sqlite_identifier table) [] w in
    (ok_or n (u "constraint_conflict: SQLite 目标删除失败"), w).
Definition session_rollback (k : Worker) (w : W) : result unit str * W :=
  let '(ok, w) := clear_progress_handler (wk_connection k) w in
  if ok then on_batch k (u "ROLLBACK") (u "SQLite 回滚响应未确认") w else (Err (u "无法关闭 SQLite 取消回调"), w).

(** Whether a call returns within the timeout is up to the world. *)
Context (in_time : W -> bool).
Definition timed {A} (f : W -> A * W) (w : W) : option A * W :=
  let '(x, w') := f w in (if in_time w then Some x else None, w').
Definition sqlite_session (polls : nat) (k : Worker) : DataSession W := {|
  supports_transaction _ := true;
  endpoint_identity _ := Some (wk_identity k);
  take_cleanup_errors w := ([], w);
  dialect := DSqlite;
  begin_read := on_batch k (u "BEGIN DEFERRED") (u "无法建立 SQLite 读取事务");
  begin_protected_write := session_begin_protected_write k;
  load_metadata := session_load_metadata k;
  Execution.stream_rows := session_stream_rows polls k;
  write_batch := session_write_batch k;
  delete_all := session_delete_all k;
  maintain_generators _ w := (Ok tt, w);
  commit := timed (on_batch k (u "COMMIT") (u "SQLite 提交响应未确认"));
  rollback := session_rollback k;
  rollback_in_time := timed (session_rollback k);
|}.
End Session.

(** ** Specification *)

(** The bytes of text and blobs. *)
Definition payload (v : DataValue) : Z := match v with VText s => str_len s | VBinary b => zlen b | _ => 0 end.
Definition payloads (vs : list DataValue) : Z := foldr (fun v n => payload v + 16 + n) 0 vs.
Definition wf_cell (c : ValueRef) : Prop :=
  match c with
  | RNull => True | RInteger v => i64_range v | RReal v => u64_range v | RText v | RBlob v => Forall byte_range v
  end.
(** The types SQLite can hold. *)
Definition native (v : DataValue) : Prop :=
  match v with VNull | VInt _ | VFloat _ | VText _ | VBinary _ => True | _ => False end.

(** What a row read for the projections is. *)
Record row_of (projections : list Projection) (r : CanonicalRow) : Prop := {
  ro_native : Forall native (values r);
  ro_wf : Forall wf_value (values r) /\ Forall wf_value (key r);
  ro_payload : payloads (values r) <= row_limit;
  ro_projection : exists p, p ∈ projections /\ table r = pj_output_table p /\ length (values r) = length (pj_columns p) /\
    Forall2 (fun i v => values r !! i = Some v) (pj_key_indices p) (key r);
  ro_encodes : exists b, canonical_bytes r = Ok b;
}.

(** ** Proofs: reading *)

Lemma row_limit_value : row_limit = 8388608.
Proof. reflexivity. Qed.

Lemma sat_add_fits n k : 0 <= n -> 0 <= k -> sat_add (sat_add n k) 16 <= 8388608 -> n + k + 16 <= 8388608.
Proof. unfold sat_add, u64_max. lia. Qed.

Lemma read_value_ok c n v n' : wf_cell c -> 0 <= n <= row_limit -> read_value c n = Ok (v, n') ->
  native v /\ wf_value v /\ n' = n + payload v + 16 /\ n' <= row_limit /\ 0 <= payload v.
Proof.
  rewrite row_limit_value. intros W N. unfold read_value. rewrite row_limit_value. intros H.
  apply rbind_ok_inv in H as ([v0 m] & H & K). cbn [fst snd] in K. destruct (_ <? wrap64 (m + 16)) eqn:Lm; [discriminate K|].
  apply Ok_inj in K. apply pair_equal_spec in K as [<- <-]. to_prop.
  assert (W64 : forall k, 0 <= k <= 20000000 -> wrap64 k = k).
  { intros k Hk. apply wrap64_id. unfold u64_range, u64_max. lia. }
  assert (G : forall v1 k, v1 = v0 -> wrap64 (n + k) = m -> payload v1 = k -> 0 <= k -> (k = 0 \/ n + k + 16 <= 8388608) ->
    native v1 -> wf_value v1 ->
    native v0 /\ wf_value v0 /\ wrap64 (m + 16) = n + payload v0 + 16 /\ wrap64 (m + 16) <= 8388608 /\ 0 <= payload v0).
  { intros v1 k <- <- Pk K0 Lk Nv Wv. pose proof (W64 (n + k) ltac:(lia)) as E1. pose proof (W64 (n + k + 16) ltac:(lia)) as E2.
    rewrite E1, E2 in Lm. rewrite E1, E2. split_and!; [done|done|lia..]. }
  assert (Z0 : wrap64 (n + 0) = n) by (rewrite Z.add_0_r; apply W64; lia).
  destruct c as [|x|x|x|x]; cbn [wf_cell] in W.
  1-3: (apply Ok_inj, pair_equal_spec in H as [H1 H2]; eapply (G _ 0 H1); [congruence|done|lia|by left|done|done]).
  - destruct (_ <? sat_add _ _) eqn:E; [discriminate H|]. to_prop. apply rbind_ok_inv in H as (t & T & H). apply ok_or_ok_inv in T.
    apply from_utf8_inv in T as [T Wt]. pose proof (sat_add_fits n (zlen x) (proj1 N) (zlen_nonneg x) E) as E3.
    apply Ok_inj, pair_equal_spec in H as [H1 H2].
    eapply (G _ (zlen x) H1); [done|cbn; unfold str_len; by rewrite T|apply zlen_nonneg|right; exact E3|done|done].
  - destruct (_ <? sat_add _ _) eqn:E; [discriminate H|]. to_prop. pose proof (sat_add_fits n (zlen x) (proj1 N) (zlen_nonneg x) E) as E3.
    apply Ok_inj, pair_equal_spec in H as [H1 H2]. eapply (G _ (zlen x) H1); [done|done|apply zlen_nonneg|right; exact E3|done|done].
Qed.

Lemma read_values_ok count cells n vs : Forall wf_cell cells -> 0 <= n <= row_limit -> read_values count cells n = Ok vs ->
  Forall native vs /\ Forall wf_value vs /\ n + payloads vs <= row_limit /\ length vs = count /\ Forall (fun v => 0 <= payload v) vs.
Proof.
  revert cells n vs. induction count as [|count IH]; intros cells n vs F N H; cbn [read_values] in H.
  { apply Ok_inj in H as <-. cbn. split_and!; [done..|lia|done|done]. }
  destruct cells as [|c cells]; [done|]. apply list.Forall_cons in F as [Fc F].
  apply rbind_ok_inv in H as ([v n'] & V & H). apply rbind_ok_inv in H as (ws & R & H). apply Ok_inj in H as <-. cbn [fst snd] in *.
  apply read_value_ok in V as (V1 & V2 & -> & V4 & V5); [|done..].
  apply IH in R as (R1 & R2 & R3 & R4 & R5); [|done|lia]. cbn [payloads foldr]. fold (payloads ws).
  split_and!; [by constructor..|lia|cbn; by rewrite R4|by constructor].
Qed.

Lemma read_row_ok projections width row r : Forall wf_cell row -> read_row projections width row = Ok r -> row_of projections r.
Proof.
  intros F H. unfold read_row in H. apply rbind_ok_inv in H as (o & _ & H). destruct (negb _); [done|].
  apply rbind_ok_inv in H as (index & _ & H). apply rbind_ok_inv in H as (p & P & H). apply ok_or_ok_inv in P.
  apply rbind_ok_inv in H as (vs & V & H). apply rbind_ok_inv in H as (k & K & H).
  unfold new_row in H. apply rbind_ok_inv in H as (bytes & C & H). apply Ok_inj in H as <-.
  apply read_values_ok in V as (V1 & V2 & V3 & V4 & _); [|by apply Forall_drop|vm_compute; done].
  apply traverse_ok_inv in K.
  assert (K' : Forall2 (fun i v => vs !! i = Some v) (pj_key_indices p) k).
  { eapply list.Forall2_impl; [exact K|]. intros i v Hv. by apply ok_or_ok_inv in Hv. }
  split; cbn [values key table].
  - done.
  - split; [done|]. apply list.Forall_lookup_2. intros i v Hv. apply (Forall2_lookup_r _ _ _ _ _ K') in Hv as (j & _ & Hj).
    by eapply (list.Forall_lookup_1 _ _ _ _ V2).
  - lia.
  - exists p. split; [by eapply list_elem_of_lookup_2|]. by split_and!.
  - by exists bytes.
Qed.

(** The encoding of native values is short. *)
Lemma native_length v b : native v -> value_canonical_bytes v = Ok b -> zlen b <= 9 + payload v.
Proof.
  destruct v; cbn [native value_canonical_bytes payload]; try done; intros _ H; apply Ok_inj in H as <-;
    autorewrite with zlen; unfold str_len; lia.
Qed.
Lemma natives_length vs enc : Forall native vs -> Forall2 (fun v b => value_canonical_bytes v = Ok b) vs enc ->
  zlen (concat (map field enc)) <= foldr (fun v n => payload v + 17 + n) 0 vs.
Proof.
  intros N F. induction F as [|v b vs enc H _ IH]; [done|]. apply list.Forall_cons in N as [Nv N]. cbn [map concat foldr].
  rewrite zlen_app, field_length. pose proof (native_length v b Nv H). specialize (IH N). lia.
Qed.
Lemma payload_le vs v : Forall (fun v => 0 <= payload v) vs -> v ∈ vs -> payload v <= payloads vs /\ 0 <= payloads vs.
Proof.
  induction vs as [|x vs IH]; [by intros _ ?%elem_of_nil|]. intros [P F]%list.Forall_cons. cbn [payloads foldr]. fold (payloads vs).
  assert (0 <= payloads vs).
  { clear -F. induction F as [|y l Hy _ IH]; [done|]. cbn [payloads foldr]. fold (payloads l). lia. }
  rewrite elem_of_cons. intros [->|V]; [lia|]. destruct (IH F V). lia.
Qed.

Lemma row_of_streamed projections r : Forall fits projections -> row_of projections r -> streamed r.
Proof.
  intros F [N [Wv Wk] P (p & Hp & T & L & K) [b C]]. rewrite list.Forall_forall in F. destruct (F p Hp) as (F0 & F1 & F2).
  split; [split; [by rewrite T|done]|]. exists b. split; [done|].
  destruct (canonical_bytes_parts r b C) as (ek & ev & Ek & Ev & Z). rewrite Z, map_app, concat_app, zlen_app.
  assert (Nk : Forall native (key r)).
  { apply list.Forall_lookup_2. intros i v Hv. apply (Forall2_lookup_r _ _ _ _ _ K) in Hv as (j & _ & Hj).
    by eapply (list.Forall_lookup_1 _ _ _ _ N). }
  assert (P0 : Forall (fun v => 0 <= payload v) (values r)).
  { apply list.Forall_forall. intros v _. destruct v; cbn; try lia; [apply str_len_nonneg|apply zlen_nonneg]. }
  pose proof (natives_length _ _ Nk Ek) as Lk. pose proof (natives_length _ _ N Ev) as Lw.
  assert (P16 : 16 * zlen (values r) <= payloads (values r)).
  { clear -P0. induction P0 as [|x l Hx _ IH]; [done|]. cbn [payloads foldr]. fold (payloads l). rewrite zlen_cons. lia. }
  assert (A : foldr (fun v n => payload v + 17 + n) 0 (values r) <= payloads (values r) + zlen (values r)).
  { generalize (values r). intros l. induction l as [|x l IH]; [done|]. cbn [payloads foldr]. fold (payloads l). rewrite zlen_cons. lia. }
  assert (B : foldr (fun v n => payload v + 17 + n) 0 (key r) <= zlen (key r) * (row_limit + 17)).
  { clear Lk. assert (X : Forall (fun v => payload v <= row_limit) (key r)).
    { apply list.Forall_lookup_2. intros i v Hv. apply (Forall2_lookup_r _ _ _ _ _ K) in Hv as (j & _ & Hj).
      apply list_elem_of_lookup_2 in Hj. pose proof (payload_le _ _ P0 Hj). lia. }
    revert X. generalize (key r). intros l X. induction X as [|x l Hx _ IH]; [done|]. cbn [foldr]. rewrite zlen_cons. lia. }
  assert (Lk' : zlen (key r) = zlen (pj_key_indices p)) by (unfold zlen; f_equal; symmetry; by apply Forall2_length in K).
  rewrite T. rewrite row_limit_value in *. unfold usize_max, u64_max, u32_max in *. lia.
Qed.

(** ** The laws of the driver *)

Section Laws.
Context {W D : Type} (env : Environment W) (db work : W -> D) (open : W -> bool).
(** The rows that a query reads from a state. *)
Context (answers : D -> str -> list (list ValueRef)).
Abbreviation obs := (observed db work open) (only parsing).

(** What SQLite documents of the statements the session sends: a transaction
    that holds the write lock sees the committed state; inside it statements
    change only the session's state; a commit publishes it or nothing; a
    rollback publishes nothing; a query reads the session's state, and
    delivers well-formed cells. *)
Class SqliteLaws (c : Connection W) : Prop := {
  sl_begin w ok w' : execute_batch c (u "BEGIN IMMEDIATE") w = (ok, w') ->
    db w' = db w /\ (ok = true -> work w' = db w' /\ open w' = true);
  sl_commit w ok w' : open w = true -> execute_batch c (u "COMMIT") w = (ok, w') ->
    (ok = true -> db w' = work w) /\ (db w' = db w \/ db w' = work w) /\
    (ok = false -> is_autocommit c w' = false -> db w' = db w);
  sl_rollback w ok w' : execute_batch c (u "ROLLBACK") w = (ok, w') -> db w' = db w;
  sl_execute sql vs w n w' : open w = true -> execute c sql vs w = (n, w') ->
    db w' = db w /\ (n <> None -> open w' = true);
  sl_query sql w r w' : query c sql w = (r, w') -> obs w' = obs w;
  sl_rows sql w rows complete w' : open w = true -> query c sql w = (Some (rows, complete), w') ->
    Forall (Forall wf_cell) rows /\ (complete = true -> rows ≡ₚ answers (work w) sql);
  sl_clear w ok w' : clear_progress_handler c w = (ok, w') -> obs w' = obs w /\ is_autocommit c w' = is_autocommit c w;
}.

(** The waiting and the channel do not touch the target. *)
Class Quiet (sleep : W -> W) (deliver : CanonicalRow -> W -> bool * W) : Prop := {
  quiet_sleep w : obs (sleep w) = obs w;
  quiet_deliver r w x w' : deliver r w = (x, w') -> obs w' = obs w;
}.

(** The rows of a state as the session reads them. *)
Definition read_ok (projections : list Projection) (row : list ValueRef) : option CanonicalRow :=
  match read_row projections (width_of projections) row with Ok r => Some r | Err _ => None end.
Definition sqlite_content (d : D) (projections : list Projection) : Rows :=
  match snapshot_sql projections with Ok sql => omap (read_ok projections) (answers d sql) | Err _ => [] end.

Context (layout : Layout) (b : ResourceBudget) (sleep : W -> W) (deliver : CanonicalRow -> W -> bool * W) (sha256_hex : bytes -> str)
  (in_time : W -> bool).
Context `{!Neutral env db work open, !Quiet sleep deliver}.

Lemma reserve_decode_obs polls n w r w' : reserve_decode env b sleep polls n w = (r, w') -> obs w' = obs w.
Proof.
  revert w. induction polls as [|polls IH]; intros w; cbn [reserve_decode]; destruct (cancelled _); try (by intros [= <- <-]);
    destruct (reserve_memory _ _ _); intros H.
  - injection H as <- <-. apply (neutral_counters env db work open).
  - by injection H as <- <-.
  - injection H as <- <-. apply (neutral_counters env db work open).
  - apply IH in H. by rewrite H, quiet_sleep.
Qed.
Lemma send_obs polls row w r w' : send env layout b sleep deliver polls row w = (r, w') -> obs w' = obs w.
Proof.
  unfold send. destruct (_ <? _); [by intros [= <- <-]|].
  destruct (reserve_decode _ _ _ _ _ _) as [[[]|e] w1] eqn:R; apply reserve_decode_obs in R; [|by intros [= <- <-]].
  destruct (deliver row w1) as [x w2] eqn:V. intros [= <- <-]. apply quiet_deliver in V.
  rewrite <- R, <- V. apply (neutral_counters env db work open).
Qed.

Abbreviation push polls := (fun row (s : Rows * W) =>
  let '(x, w) := send env layout b sleep deliver polls row s.2 in (x, (if is_ok x then s.1 ++ [row] else s.1, w))) (only parsing).

(** Streaming into a caller's state, which gathers the rows it accepts. *)
Section Streaming.
Context {S : Type} (c : Connection W) (world : S -> W) (set_world : W -> S -> S) (stop : S -> bool)
  (accept : CanonicalRow -> S -> result unit str * S) (gathered : S -> Rows).
Hypothesis world_set : forall w s, world (set_world w s) = w.
Hypothesis gathered_set : forall w s, gathered (set_world w s) = gathered s.
Hypothesis accepts : forall row s x s', accept row s = (x, s') ->
  obs (world s') = obs (world s) /\ gathered s' = gathered s ++ (if is_ok x then [row] else []).

#[local] Ltac stop_here := let H := fresh in intros H; apply pair_equal_spec in H as [<- <-];
  split; [done|]; exists []; rewrite app_nil_r; split_and!; [done|constructor|try discriminate].

Lemma stream_loop_gathers ps rows complete count s r s' : Forall (Forall wf_cell) rows ->
  stream_loop stop accept ps (width_of ps) rows complete count s = (r, s') ->
  obs (world s') = obs (world s) /\ exists l, gathered s' = gathered s ++ l /\ Forall (row_of ps) l /\
    forall n, r = Ok n -> complete = true /\ l = omap (read_ok ps) rows.
Proof.
  intros F. revert count s. induction F as [|row rows Fr F IH]; intros count s; cbn [stream_loop].
  { destruct complete; stop_here. done. }
  destruct (stop s); [stop_here|].
  destruct (read_row ps (width_of ps) row) as [x|e] eqn:R; [|stop_here].
  destruct (accept x s) as [y s1] eqn:Ac. apply accepts in Ac as [E G]. destruct y as [[]|e]; cbn [is_ok] in G.
  2: { intros H. apply pair_equal_spec in H as [<- <-]. split; [done|]. exists []. rewrite G. split_and!; [done|constructor|discriminate]. }
  intros H. apply IH in H as (E' & l & E2 & Fl & C). split; [congruence|]. exists (x :: l). rewrite E2, G, <- app_assoc.
  split_and!; [done| |].
  - constructor; [by eapply read_row_ok|done].
  - intros n Hn. destruct (C n Hn) as [-> ->]. split; [done|]. cbn [omap list_omap]. unfold read_ok at 2. by rewrite R.
Qed.

Context `{!SqliteLaws c}.
Lemma stream_rows_gathers ps s r s' : open (world s) = true -> stream_rows c world set_world stop accept ps s = (r, s') ->
  obs (world s') = obs (world s) /\ exists l, gathered s' = gathered s ++ l /\ Forall (row_of ps) l /\
    forall n, r = Ok n -> l ≡ₚ sqlite_content (work (world s)) ps.
Proof.
  intros O. unfold stream_rows, sqlite_content. destruct (snapshot_sql ps) as [sql|e]; [|stop_here].
  destruct (query c sql (world s)) as [q w1] eqn:Q. pose proof (sl_query _ _ _ _ Q) as Eq. destruct q as [[cells complete]|].
  2: { intros H. apply pair_equal_spec in H as [<- <-]. rewrite world_set, gathered_set. split; [done|]. exists [].
       rewrite app_nil_r. split_and!; [done|constructor|discriminate]. }
  destruct (sl_rows _ _ _ _ _ O Q) as [Fc Pc]. intros L.
  apply stream_loop_gathers in L as (E & l & G & Fl & C); [|done]. rewrite world_set in E. rewrite gathered_set in G.
  split; [congruence|]. exists l. split_and!; [done|done|]. intros n Hn. destruct (C n Hn) as [-> ->]. by rewrite (Pc eq_refl).
Qed.
End Streaming.

Section Schema.
Context (c : Connection W) `{!SqliteLaws c}.
Lemma query_rows_obs {A} sql (f : list (list ValueRef) -> W -> result A str * W) :
  (forall rows, keeps_all db work open (f rows)) -> keeps_all db work open (query_rows c sql f).
Proof.
  intros Kf w r w'. unfold query_rows. destruct (query _ sql w) as [q w1] eqn:Q. apply sl_query in Q.
  destruct q as [[rows []]|]; [|by intros [= <- <-]..]. intros H. apply Kf in H. congruence.
Qed.
Lemma try_obs {A B} (x : result A str) (f : A -> W -> result B str * W) :
  (forall y, keeps_all db work open (f y)) -> keeps_all db work open (try_ x f).
Proof. intros Kf w r w'. destruct x; [apply Kf|by intros [= <- <-]]. Qed.
Lemma load_metadata_obs : keeps_all db work open (sqlite_load_metadata sha256_hex c).
Proof.
  unfold sqlite_load_metadata. apply query_rows_obs. intros columns. apply try_obs. intros l. apply query_rows_obs. intros keys.
  apply try_obs. intros foreign. apply query_rows_obs. intros objects. apply try_obs. intros x. apply query_rows_obs.
  by intros indexes w r w' [= <- <-].
Qed.
End Schema.

Section One.
Context (k : Worker (W := W)) `{!SqliteLaws (wk_connection k)}.
Abbreviation session polls := (sqlite_session env layout b sleep deliver sha256_hex in_time polls k) (only parsing).

Lemma stream_obs polls ps w rows r w' : open w = true ->
  session_stream_rows env layout b sleep deliver polls k ps w = (rows, r, w') ->
  obs w' = obs w /\ Forall (row_of ps) rows /\ forall n, r = Ok n -> rows ≡ₚ sqlite_content (work w) ps.
Proof.
  intros O. unfold session_stream_rows. destruct (stream_rows _ _ _ _ _ _ _) as [r' [rows' w2]] eqn:L. intros [= <- <- <-].
  eapply (stream_rows_gathers _ _ _ _ _ fst) in L; [|done|done| |exact _|done].
  - destruct L as (E & l & G & F & C). cbn [fst app] in G. subst l. done.
  - intros row [acc w0] x [acc' w']. cbn [fst snd]. destruct (send _ _ _ _ _ _ _ _) as [y w3] eqn:Sn. intros [= <- <- <-].
    apply send_obs in Sn. split; [done|]. destruct (is_ok y); [done|by rewrite app_nil_r].
Qed.

Lemma on_batch_db sql e w r w' : (forall ok, execute_batch (wk_connection k) sql w = (ok, w') -> db w' = db w) ->
  on_batch k sql e w = (r, w') -> db w' = db w.
Proof. unfold on_batch. intros H. destruct (execute_batch _ sql w) as [ok w1] eqn:E. intros [= _ <-]. by eapply H. Qed.
Lemma rollback_db : keeps db (session_rollback k).
Proof.
  intros w r w'. unfold session_rollback. destruct (clear_progress_handler _ w) as [[] w1] eqn:C; apply sl_clear in C as [C _]; injection C as C _ _.
  - intros H. rewrite <- C. eapply on_batch_db; [|exact H]. intros ok. apply sl_rollback.
  - by intros [= <- <-].
Qed.

Lemma session_transactional polls : Transactional env db work open sqlite_content (fun _ => True) (session polls).
Proof.
  split.
  - intros ts w r w' _. cbn [sqlite_session begin_protected_write load_metadata write_batch delete_all commit rollback_in_time]. unfold session_begin_protected_write. destruct (_ || _); [by intros [= <- <-]|].
    destruct (negb _); [by intros [= <- <-]|]. apply on_batch_db. intros ok H. by apply sl_begin in H as [? _].
  - intros ts w w' _. cbn [sqlite_session begin_protected_write load_metadata write_batch delete_all commit rollback_in_time]. unfold session_begin_protected_write. destruct (_ || _); [discriminate|]. destruct (negb _); [discriminate|].
    unfold on_batch. destruct (execute_batch _ _ w) as [[] w1] eqn:E; [|discriminate]. intros [= <-]. apply sl_begin in E as [_ E]. by apply E.
  - intros w r w' _. cbn [sqlite_session begin_protected_write load_metadata write_batch delete_all commit rollback_in_time]. unfold session_load_metadata. destruct (sqlite_load_metadata _ _ w) as [x w1] eqn:L.
    intros [= _ <-]. apply load_metadata_obs in L; [|done]. split; [by injection L|done].
  - intros ps w rows r w' O H. apply stream_obs in H as [H _]; [|done]. split; [by injection H|by left].
  - intros ps w rows n w' O F H. apply stream_obs in H as (_ & R & P); [|done]. split; [|by eapply P].
    eapply list.Forall_impl; [exact R|]. intros x. by apply row_of_streamed.
  - intros x _ w r w' O. cbn [sqlite_session begin_protected_write load_metadata write_batch delete_all commit rollback_in_time]. unfold session_write_batch. destruct (e_cancelled _ _); [by intros [= <- <-]|].
    destruct (traverse _ _) as [vs|]; [|by intros [= <- <-]]. destruct (execute _ _ vs w) as [n w1] eqn:E. intros [= <- <-].
    apply sl_execute in E as [E1 E2]; [|done]. split; [done|]. intros y Hy. apply E2. destruct n; [discriminate|discriminate Hy].
  - intros x w r w' O. cbn [sqlite_session begin_protected_write load_metadata write_batch delete_all commit rollback_in_time]. unfold session_delete_all. destruct (e_cancelled _ _); [by intros [= <- <-]|].
    destruct (execute _ _ _ w) as [n w1] eqn:E. intros [= <- <-].
    apply sl_execute in E as [E1 E2]; [|done]. split; [done|]. intros y Hy. apply E2. destruct n; [discriminate|discriminate Hy].
  - by intros x w r w' O [= <- <-].
  - intros w r w' O. cbn [sqlite_session begin_protected_write load_metadata write_batch delete_all commit rollback_in_time]. unfold timed, on_batch. destruct (execute_batch _ _ w) as [ok w1] eqn:E. intros [= <- <-].
    destruct (sl_commit _ _ _ O E) as (C1 & C2 & _). split; [|done]. destruct (in_time w); [|discriminate]. destruct ok; [intros _; by apply C1|discriminate].
  - exact rollback_db.
  - intros w r w'. cbn [sqlite_session begin_protected_write load_metadata write_batch delete_all commit rollback_in_time]. unfold timed. destruct (session_rollback k w) as [x w1] eqn:E. intros [= _ <-]. by apply rollback_db in E.
  - by intros w r w' [= <- <-].
Qed.


End One.
End Laws.

(** ** Witnesses: a driver over a committed and a working list of rows *)

Record Store : Type := mkStore { st_committed : list (list ValueRef); st_working : list (list ValueRef); st_open : bool }.
Definition store_rows : list (list ValueRef) := [[RInteger 0; RInteger 5; RText (utf8 (u "x")); RInteger 0]].
Definition store_connection : Connection Store := {|
  execute_batch sql w :=
    if str_eqb sql (u "BEGIN IMMEDIATE") then (true, mkStore (st_committed w) (st_committed w) true)
    else if str_eqb sql (u "COMMIT") then (true, mkStore (st_working w) (st_working w) false)
    else if str_eqb sql (u "ROLLBACK") then (true, mkStore (st_committed w) (st_committed w) false)
    else (false, w);
  execute _ _ w := (Some 0, mkStore (st_committed w) [] (st_open w));
  query _ w := (if bool_decide (st_working w = store_rows) then Some (st_working w, true) else None, w);
  clear_progress_handler w := (true, w);
  is_autocommit w := negb (st_open w);
|}.
Definition store_environment : Environment Store :=
  mkEnvironment Store (fun _ => false) (fun _ => 0) (fun _ => 7) (fun _ w => w) (fun _ => fresh_counters false) (fun _ w => w).
Definition store_worker : Worker := mkWorker store_connection true (sample_identity (u "x")) [].
Definition store_session : DataSession Store :=
  sqlite_session store_environment sample_layout default_budget (fun w => w) (fun _ w => (true, w)) (fun b => b) (fun _ => true) 3
    store_worker.
#[export] Instance store_neutral : Neutral store_environment st_committed st_working st_open.
Proof. by split. Qed.
#[export] Instance store_quiet : Quiet st_committed st_working st_open (fun w => w) (fun _ w => (true, w)).
Proof. split; [done|]. by intros r w x w' [= <- <-]. Qed.

Lemma store_rows_wf : Forall (Forall wf_cell) store_rows.
Proof.
  constructor; [|constructor]. apply list.Forall_cons; split; [unfold wf_cell, i64_range; lia|].
  apply list.Forall_cons; split; [unfold wf_cell, i64_range; lia|].
  apply list.Forall_cons; split; [apply (bool_decide_unpack (Forall byte_range _)); vm_compute; exact I|].
  apply list.Forall_cons; split; [unfold wf_cell, i64_range; lia|constructor].
Qed.
#[export] Instance store_laws : SqliteLaws st_committed st_working st_open (fun d _ => d) (wk_connection store_worker).
Proof.
  change (wk_connection store_worker) with store_connection. split.
  - intros w ok w' H. change (execute_batch _ _ w) with (true, mkStore (st_committed w) (st_committed w) true) in H.
    injection H as <- <-. done.
  - intros w ok w' _ H.
    assert (E : execute_batch store_connection (u "COMMIT") w = (true, mkStore (st_working w) (st_working w) false))
      by (vm_compute; reflexivity).
    rewrite E in H. injection H as <- <-. split_and!; [done|by right|discriminate].
  - intros w ok w' H.
    assert (E : execute_batch store_connection (u "ROLLBACK") w = (true, mkStore (st_committed w) (st_committed w) false))
      by (vm_compute; reflexivity).
    rewrite E in H. by injection H as <- <-.
  - by intros sql vs w n w' O [= <- <-].
  - by intros sql w r w' [= <- <-].
  - intros sql w rows complete w' _. cbn [query store_connection]. case_bool_decide; [|discriminate]. intros [= <- <- <-].
    split; [|done]. rewrite H. exact store_rows_wf.
  - by intros w ok w' [= <- <-].
Qed.


Definition store_projection : Projection := mkProjection (u "t") (u "t") [u "id"; u "v"] [0%nat].

End SqliteAdapter.
