(* ===== verification/Connections.v ===== *)
(** Saved connections: their data and redaction (src-tauri/src/models/types.rs),
    the operations on the stored connections and groups
    (src-tauri/src/commands/connection.rs), and the look-up and checks of the
    commands that open two of them (src-tauri/src/commands/temporary_database.rs). *)
From S2P Require Import Prelude RustText DataTypes.
Import DataTypes.

Module Connections.

(** ** Data *)

Record SshConfig : Type := mkSsh {
  ssh_host : str; ssh_port : Z; ssh_username : str; ssh_password : option str; ssh_private_key_path : option str }.

Record ConnectionConfig : Type := mkConnection {
  cc_id : option str;
  cc_database_type : DatabaseType;
  cc_name : str;
  cc_host : str;
  cc_port : Z;
  cc_username : str;
  cc_password : option str;
  cc_database : option str;
  cc_sqlite_path : option str;
  cc_ssh : option SshConfig;
  cc_ssl_mode : option str;
  cc_ssl_ca_path : option str;
  cc_ssl_pkcs12_path : option str;
  cc_ssl_pkcs12_password : option str;
  cc_ssl_tls_hostname : option str;
  cc_client_charset : option str;
  cc_session_init_commands : option (list str);
  cc_read_only : option bool;
  cc_skip_dangerous_sql_confirm : option bool;
  cc_group_id : option str;
}.

Record ConnectionGroup : Type := mkGroup { gr_id : str; gr_name : str; gr_collapsed : bool }.

Record ConnectionStorageData : Type := mkStorage { sg_connections : list ConnectionConfig; sg_groups : list ConnectionGroup }.

#[export] Instance SshConfig_eq_dec : EqDecision SshConfig.
Proof. solve_decision. Defined.
#[export] Instance ConnectionConfig_eq_dec : EqDecision ConnectionConfig.
Proof. solve_decision. Defined.
#[export] Instance ConnectionGroup_eq_dec : EqDecision ConnectionGroup.
Proof. solve_decision. Defined.

(** Assignments to the fields the operations change. *)
Definition with_password (p : option str) (s : SshConfig) : SshConfig :=
  mkSsh (ssh_host s) (ssh_port s) (ssh_username s) p (ssh_private_key_path s).
Definition with_secrets (password : option str) (ssh : option SshConfig) (pkcs12 : option str) (c : ConnectionConfig) : ConnectionConfig :=
  mkConnection (cc_id c) (cc_database_type c) (cc_name c) (cc_host c) (cc_port c) (cc_username c) password (cc_database c)
    (cc_sqlite_path c) ssh (cc_ssl_mode c) (cc_ssl_ca_path c) (cc_ssl_pkcs12_path c) pkcs12 (cc_ssl_tls_hostname c)
    (cc_client_charset c) (cc_session_init_commands c) (cc_read_only c) (cc_skip_dangerous_sql_confirm c) (cc_group_id c).
Definition with_place (id group : option str) (c : ConnectionConfig) : ConnectionConfig :=
  mkConnection id (cc_database_type c) (cc_name c) (cc_host c) (cc_port c) (cc_username c) (cc_password c) (cc_database c)
    (cc_sqlite_path c) (cc_ssh c) (cc_ssl_mode c) (cc_ssl_ca_path c) (cc_ssl_pkcs12_path c) (cc_ssl_pkcs12_password c)
    (cc_ssl_tls_hostname c) (cc_client_charset c) (cc_session_init_commands c) (cc_read_only c) (cc_skip_dangerous_sql_confirm c) group.
Definition with_group (group : option str) (c : ConnectionConfig) : ConnectionConfig := with_place (cc_id c) group c.

(** ** Redaction *)

Definition bullet : char := 8226.
Definition PASSWORD_REDACTED : str := [bullet; bullet; bullet; bullet; bullet; bullet; bullet; bullet].
Definition redacted (p : option str) : bool := bool_decide (p = Some PASSWORD_REDACTED).

Definition redact_secret (value : option str) : option str :=
  match value with
  | Some p => if negb (is_empty p) && negb (str_eqb p PASSWORD_REDACTED) then Some PASSWORD_REDACTED else None
  | None => None
  end.
Definition redact_value (value : option str) : option str := if is_some (redact_secret value) then Some PASSWORD_REDACTED else value.
Definition redact_connection_secrets (c : ConnectionConfig) : ConnectionConfig :=
  with_secrets (redact_value (cc_password c)) ((fun s => with_password (redact_value (ssh_password s)) s) <$> cc_ssh c)
    (redact_value (cc_ssl_pkcs12_password c)) c.
Definition mask_passwords : ConnectionConfig -> ConnectionConfig := redact_connection_secrets.

(** The list the interface shows. *)
Definition list_saved_connections (s : ConnectionStorageData) : list ConnectionConfig := map mask_passwords (sg_connections s).

(** [secrets.dedup()] *)
Fixpoint dedup (l : list str) : list str :=
  match l with
  | x :: k => match dedup k with y :: r => if str_eqb x y then y :: r else x :: y :: r | [] => [x] end
  | [] => []
  end.
Definition secrets_of (c : ConnectionConfig) : list str :=
  omap id [cc_password c; s ← cc_ssh c; ssh_password s; cc_ssl_pkcs12_password c].
Definition longest_first : str -> str -> comparison := cmp_then (cmp_on str_len (cmp_rev Z.compare)) str_cmp.
Definition redact_error_text (error : str) (saved : list ConnectionConfig) : str :=
  let secrets := filter (fun s => negb (is_empty s) && negb (str_eqb s PASSWORD_REDACTED) = true) (concat (map secrets_of saved)) in
  fold_left (fun e secret => replace secret PASSWORD_REDACTED e) (dedup (sort_by longest_first secrets)) error.

(** ** Two saved connections *)

Definition has_id (id : str) (c : ConnectionConfig) : bool := bool_decide (cc_id c = Some id).
Definition find_saved_connection (saved : list ConnectionConfig) (connection_id : str) (side : str) : result ConnectionConfig str :=
  ok_or (find_first (has_id connection_id) saved) (side ++ u "保存连接不存在或已删除").
Definition validate_endpoint_configs (source target : ConnectionConfig) : result unit str :=
  if bool_decide (cc_id source = cc_id target) then Err (u "源端和目标端不能使用同一个保存连接")
  else if negb (bool_decide (cc_database_type source = cc_database_type target)) then Err (u "源端和目标端的数据库类型必须一致")
  else Ok tt.
Definition validate_sync_target (target : ConnectionConfig) : result unit str :=
  if bool_decide (cc_read_only target = Some true) then Err (u "目标端保存连接配置为只读，不能执行数据库同步") else Ok tt.
Definition merge_operation_with_cleanup_errors {T} (operation : result T str) (cleanup_errors : list str) : result T str :=
  match operation, is_empty cleanup_errors with
  | Ok value, true => Ok value
  | Ok _, false => Err (u "释放数据库对比临时连接失败: " ++ join (u "；") cleanup_errors)
  | Err error, true => Err error
  | Err error, false => Err (error ++ u "；清理临时连接失败: " ++ join (u "；") cleanup_errors)
  end.
Definition cleanup_error (side : str) (r : result unit str) : list str :=
  match r with Err e => [side ++ u ": " ++ e] | Ok _ => [] end.
Definition merge_operation_and_cleanup {T} (operation : result T str) (source target : result unit str) : result T str :=
  merge_operation_with_cleanup_errors operation (cleanup_error (u "源端") source ++ cleanup_error (u "目标端") target).
Definition merge_single_operation_and_cleanup {T} (operation : result T str) (side : str) (cleanup : result unit str) : result T str :=
  merge_operation_with_cleanup_errors operation (cleanup_error side cleanup).

(** ** The storage's operations *)

(** [iter_mut().find(p)] and an assignment through it. *)
Fixpoint update_first {A} (p : A -> bool) (f : A -> A) (l : list A) : list A :=
  match l with [] => [] | x :: l => if p x then f x :: l else x :: update_first p f l end.

(** What an edit keeps of the stored connection. *)
Definition keep_secrets (existing config : ConnectionConfig) : ConnectionConfig :=
  with_secrets (if redacted (cc_password config) then cc_password existing else cc_password config)
    (match cc_ssh config, cc_ssh existing with
     | Some new, Some old => Some (if redacted (ssh_password new) then with_password (ssh_password old) new else new)
     | ssh, _ => ssh
     end) (cc_ssl_pkcs12_password config) config.
Definition set_connections (s : ConnectionStorageData) (l : list ConnectionConfig) : ConnectionStorageData := mkStorage l (sg_groups s).
Definition set_groups (s : ConnectionStorageData) (l : list ConnectionGroup) : ConnectionStorageData := mkStorage (sg_connections s) l.

Definition save_connection (uuid : str) (s : ConnectionStorageData) (config : ConnectionConfig) : ConnectionStorageData :=
  match cc_id config with
  | None => set_connections s (sg_connections s ++ [with_place (Some uuid) (cc_group_id config) config])
  | Some id =>
    if existsb (has_id id) (sg_connections s)
    then set_connections s (update_first (has_id id) (fun existing => keep_secrets existing config) (sg_connections s))
    else set_connections s (sg_connections s ++ [config])
  end.
Definition delete_saved_connection (s : ConnectionStorageData) (id : str) : ConnectionStorageData :=
  set_connections s (filter (fun c => cc_id c <> Some id) (sg_connections s)).

Definition find_group_index (s : ConnectionStorageData) (id : str) : option nat :=
  position (fun g => str_eqb (gr_id g) id) (sg_groups s).
Definition validate_group_name (name : str) : result str str :=
  let trimmed := trim name in if is_empty trimmed then Err (u "分组名称不能为空") else Ok trimmed.
Definition no_group : str := u "连接分组不存在".

Definition create_group_in_storage (uuid : str) (s : ConnectionStorageData) (name : str) :
  result (ConnectionGroup * ConnectionStorageData) str :=
  let? name := validate_group_name name in
  let group := mkGroup uuid name false in
  Ok (group, set_groups s (group :: sg_groups s)).
Definition rename_group_in_storage (s : ConnectionStorageData) (id name : str) : result ConnectionStorageData str :=
  let? name := validate_group_name name in
  let? index := ok_or (find_group_index s id) no_group in
  Ok (set_groups s (alter (fun g => mkGroup (gr_id g) name (gr_collapsed g)) index (sg_groups s))).
Definition delete_group_from_storage (s : ConnectionStorageData) (id : str) : result ConnectionStorageData str :=
  let? index := ok_or (find_group_index s id) no_group in
  Ok (mkStorage (map (fun c => if bool_decide (cc_group_id c = Some id) then with_group None c else c) (sg_connections s))
        (delete index (sg_groups s))).
Definition set_group_collapsed_in_storage (s : ConnectionStorageData) (id : str) (collapsed : bool) : result ConnectionStorageData str :=
  let? index := ok_or (find_group_index s id) no_group in
  Ok (set_groups s (alter (fun g => mkGroup (gr_id g) (gr_name g) collapsed) index (sg_groups s))).

(** The listed elements in their order, then the others; those without a key
    are kept or dropped. *)
Definition keyed {A} (key : A -> option str) (id : str) (x : A) : bool := bool_decide (key x = Some id).
Definition unlisted {A} (key : A -> option str) (keep : bool) (ids : list str) (x : A) : bool :=
  match key x with Some id => negb (bool_decide (id ∈ ids)) | None => keep end.
Definition reorder {A} (key : A -> option str) (keep : bool) (ids : list str) (l : list A) : list A :=
  omap (fun id => find_first (keyed key id) l) ids
  ++ filter (fun x => unlisted key keep ids x = true) l.

Definition reorder_groups_in_storage (s : ConnectionStorageData) (ids : list str) : ConnectionStorageData :=
  if is_empty ids then s else set_groups s (reorder (fun g => Some (gr_id g)) false ids (sg_groups s)).
Definition reorder_connections (s : ConnectionStorageData) (ids : list str) : ConnectionStorageData :=
  if is_empty ids then s else set_connections s (reorder cc_id false ids (sg_connections s)).
Definition move_connection_to_group_in_storage (s : ConnectionStorageData) (connection_id : str) (group : option str) (ids : list str) :
  result ConnectionStorageData str :=
  if is_some_and (fun id => negb (is_some (find_group_index s id))) group then Err no_group
  else if negb (existsb (has_id connection_id) (sg_connections s)) then Err (u "连接配置不存在")
  else
    let moved := update_first (has_id connection_id) (with_group group) (sg_connections s) in
    Ok (set_connections s (if is_empty ids then moved else reorder cc_id true ids moved)).

(** The merge of an imported file; [uuid] yields the fresh identifiers in turn. *)
Definition ConnectionImportResult : Type := Z * Z.
Definition import_group (uuid : nat -> str) (i : nat) (g : ConnectionGroup) : ConnectionGroup :=
  mkGroup (uuid i) (gr_name g) (gr_collapsed g).
Definition group_id_map (uuid : nat -> str) (groups : list ConnectionGroup) : gmap str str :=
  fold_left (fun m '(i, g) => <[gr_id g := uuid i]> m) (imap pair groups) ∅.
Definition merge_imported (uuid : nat -> str) (s imported : ConnectionStorageData) : ConnectionImportResult * ConnectionStorageData :=
  let n := length (sg_groups imported) in
  let ids := group_id_map uuid (sg_groups imported) in
  ((zlen (sg_connections imported), zlen (sg_groups imported)),
   mkStorage
     (sg_connections s ++ imap (fun i c => with_place (Some (uuid (n + i)%nat)) (g ← cc_group_id c; ids !! g) c) (sg_connections imported))
     (sg_groups s ++ imap (import_group uuid) (sg_groups imported))).

(** ** Specification *)

(** Identifiers are unique and every group a connection names exists. *)
Record wf_storage (s : ConnectionStorageData) : Prop := {
  ws_ids : NoDup (omap cc_id (sg_connections s));
  ws_groups : NoDup (map gr_id (sg_groups s));
  ws_refs c g : c ∈ sg_connections s -> cc_group_id c = Some g -> g ∈ map gr_id (sg_groups s);
}.

(** The operations, with what their callers provide: fresh identifiers, a
    group that exists, and orders that list no identifier twice.  The label is
    the connection an operation replaces or deletes. *)
Inductive storage_step : option str -> ConnectionStorageData -> ConnectionStorageData -> Prop :=
| StepSave s uuid config : uuid ∉ omap cc_id (sg_connections s) ->
    (forall g, cc_group_id config = Some g -> g ∈ map gr_id (sg_groups s)) ->
    storage_step (cc_id config) s (save_connection uuid s config)
| StepDelete s id : storage_step (Some id) s (delete_saved_connection s id)
| StepReorder s ids : NoDup ids -> storage_step None s (reorder_connections s ids)
| StepCreateGroup s uuid name g s' : uuid ∉ map gr_id (sg_groups s) ->
    create_group_in_storage uuid s name = Ok (g, s') -> storage_step None s s'
| StepRenameGroup s id name s' : rename_group_in_storage s id name = Ok s' -> storage_step None s s'
| StepDeleteGroup s id s' : delete_group_from_storage s id = Ok s' -> storage_step None s s'
| StepCollapse s id c s' : set_group_collapsed_in_storage s id c = Ok s' -> storage_step None s s'
| StepReorderGroups s ids : NoDup ids -> storage_step None s (reorder_groups_in_storage s ids)
| StepMove s id group ids s' : NoDup ids -> move_connection_to_group_in_storage s id group ids = Ok s' -> storage_step None s s'
| StepImport s uuid imported :
    (forall i j, uuid i = uuid j -> i = j) -> (forall i, uuid i ∉ omap cc_id (sg_connections s)) ->
    (forall i, uuid i ∉ map gr_id (sg_groups s)) ->
    storage_step None s (merge_imported uuid s imported).2.

(** The connection is still there, possibly in another group. *)
Definition survives (c : ConnectionConfig) (s : ConnectionStorageData) : Prop := exists g, with_group g c ∈ sg_connections s.

(** ** Proofs: redaction *)

Definition disjoint (p to : str) : Prop := forall c, c ∈ p -> c ∉ to.

(** One pass of [replace], as a relation. *)
Inductive replaces (p to : str) : str -> str -> Prop :=
| replaces_nil : replaces p to [] []
| replaces_match rest out : replaces p to rest out -> replaces p to (p ++ rest) (to ++ out)
| replaces_skip c s out : starts_with p (c :: s) = false -> replaces p to s out -> replaces p to (c :: s) (c :: out).

Lemma replace_fuel_replaces n p to s : p <> [] -> (length s <= n)%nat -> replaces p to s (replace_fuel n p to s).
Proof.
  intros Np. revert s. induction n as [|n IH]; intros [|c s] L; cbn [replace_fuel length] in *; [constructor|lia|constructor|].
  destruct (strip_prefix p (c :: s)) as [rest|] eqn:E.
  - pose proof E as Ep. apply strip_prefix_some in Ep. rewrite Ep. constructor. apply IH.
    assert (length (c :: s) = (length p + length rest)%nat) as Le by (by rewrite Ep, length_app).
    destruct p; [done|]. cbn [length] in Le. lia.
  - constructor; [unfold starts_with; by rewrite E|]. apply IH. lia.
Qed.
Lemma replace_replaces p to s : p <> [] -> replaces p to s (replace p to s).
Proof. intros. by apply replace_fuel_replaces. Qed.

(** A text without replacement characters at the head of the output was at the
    head of the input. *)
Lemma replaces_head p to s out t : to <> [] -> replaces p to s out -> disjoint t to -> starts_with t out = true -> starts_with t s = true.
Proof.
  intros Nt R. revert t. induction R as [|rest out R IH|c s out E R IH]; intros t D; [done| |].
  - destruct t as [|x t]; [done|]. intros (r & H)%starts_with_iff. exfalso. destruct to as [|y to]; [done|].
    injection H as <- _. by apply (D y); left.
  - destruct t as [|x t]; [done|]. intros (r & H)%starts_with_iff. injection H as <- H. apply starts_with_iff.
    destruct (proj1 (starts_with_iff t s)) as [r' ->]; [|by exists r'].
    apply IH; [intros z Hz; apply D; by right|]. apply starts_with_iff. by exists r.
Qed.
Lemma contains_skip q to s : q <> [] -> disjoint q to -> contains q (to ++ s) = contains q s.
Proof.
  intros Nq D. assert (G : forall l, (forall c, c ∈ l -> c ∈ to) -> contains q (l ++ s) = contains q s); [|by apply G].
  induction l as [|c l IH]; intros Hl; [done|]. cbn [app contains]. rewrite IH by (intros z Hz; apply Hl; by right).
  destruct (starts_with q (c :: l ++ s)) eqn:E; [|done]. exfalso. apply starts_with_iff in E as (r & E). destruct q as [|x q]; [done|].
  injection E as <- _. apply (D c); [by left|]. apply Hl. by left.
Qed.
Lemma contains_cons q c s : contains q (c :: s) = starts_with q (c :: s) || contains q s.
Proof. done. Qed.
Lemma contains_suffix q a s : contains q (a ++ s) = false -> contains q s = false.
Proof.
  induction a as [|c a IH]; [done|]. cbn [app]. rewrite contains_cons, orb_false_iff. intros [_ H]. by apply IH.
Qed.

(** The pattern is gone, and nothing that was absent appears. *)
Lemma replaces_removes p to s out : p <> [] -> to <> [] -> disjoint p to -> replaces p to s out -> contains p out = false.
Proof.
  intros Np Nt D R. induction R as [|rest out R IH|c s out E R IH].
  - destruct p; [done|]. reflexivity.
  - by rewrite contains_skip.
  - rewrite contains_cons, IH, orb_false_r. destruct (starts_with p (c :: out)) eqn:F; [|done].
    apply (replaces_head p to (c :: s)) in F; [congruence|done| |done]. by constructor.
Qed.
Lemma replaces_absent p q to s out : q <> [] -> to <> [] -> disjoint q to -> replaces p to s out ->
  contains q s = false -> contains q out = false.
Proof.
  intros Nq Nt D R. induction R as [|rest out R IH|c s out E R IH]; intros H; [done| |].
  - rewrite contains_skip by done. by apply IH, (contains_suffix q p).
  - rewrite contains_cons in *. apply orb_false_iff in H as [H1 H2]. rewrite (IH H2), orb_false_r.
    destruct (starts_with q (c :: out)) eqn:F; [|done].
    apply (replaces_head p to (c :: s)) in F; [congruence|done| |done]. by constructor.
Qed.

Lemma dedup_elem x l : x ∈ dedup l <-> x ∈ l.
Proof.
  induction l as [|y l IH]; [done|]. cbn [dedup]. rewrite elem_of_cons, <- IH. destruct (dedup l) as [|z k].
  - rewrite list_elem_of_singleton. set_solver.
  - destruct (str_eqb y z) eqn:E; [apply str_eqb_eq in E as ->|]; set_solver.
Qed.

Lemma redacted_absent q secrets : q <> [] -> disjoint q PASSWORD_REDACTED -> Forall (fun x => x <> []) secrets -> forall e,
  q ∈ secrets \/ contains q e = false ->
  contains q (fold_left (fun e secret => replace secret PASSWORD_REDACTED e) secrets e) = false.
Proof.
  intros Nq D F. induction F as [|x secrets Nx F IH]; intros e H; cbn [fold_left].
  - destruct H as [[]%elem_of_nil|H]; done.
  - apply IH. pose proof (replace_replaces x PASSWORD_REDACTED e Nx) as R. destruct H as [[->|H]%elem_of_cons|H]; [right| by left|right].
    + by apply (replaces_removes x PASSWORD_REDACTED e).
    + by apply (replaces_absent x q PASSWORD_REDACTED e).
Qed.

(** No password of a saved connection survives in an error text shown to
    the user: after [redact_error_text] the text contains no database, SSH or
    PKCS#12 password of any saved connection, wherever and however often they
    occurred, even when one is part of another.  (A password that itself
    contains the bullet of the placeholder is the exception.) *)
Theorem redact_error_text_clean error saved c secret :
  c ∈ saved -> secret ∈ secrets_of c -> secret <> [] -> bullet ∉ secret ->
  contains secret (redact_error_text error saved) = false.
Proof.
  intros Hc Hs Ns Nb. unfold redact_error_text. set (l := filter _ _).
  assert (D : disjoint secret PASSWORD_REDACTED).
  { intros x Hx Hr. assert (x = bullet) as -> by (unfold PASSWORD_REDACTED in Hr; set_solver). done. }
  apply redacted_absent; [done|done| |left].
  - apply list.Forall_forall. intros x Hx. rewrite dedup_elem, sort_by_elem in Hx. apply list_elem_of_filter in Hx as [H _].
    apply andb_true_iff in H as [H _]. apply negb_true_iff in H. by apply is_empty_false.
  - rewrite dedup_elem, sort_by_elem. apply list_elem_of_filter. split.
    + apply andb_true_iff. split; [by apply negb_true_iff, is_empty_false|]. apply negb_true_iff, str_eqb_neq. intros ->.
      apply Nb. by left.
    + apply list_elem_of_In, in_concat. exists (secrets_of c). split; [apply in_map|]; by apply list_elem_of_In.
Qed.

(** ** Proofs: editing through the masked list *)

Lemma redact_value_cases p : redact_value p = p \/ redact_value p = Some PASSWORD_REDACTED /\ p <> Some PASSWORD_REDACTED.
Proof.
  unfold redact_value, redact_secret. destruct p as [p|]; [|by left]. destruct (is_empty p); [by left|]. cbn [negb andb].
  destruct (str_eqb p PASSWORD_REDACTED) eqn:E; [by left|]. right. split; [done|]. apply str_eqb_neq in E. congruence.
Qed.
(** A masked value left as it was shown is restored. *)
Lemma restored p : (if redacted (redact_value p) then p else redact_value p) = p.
Proof.
  unfold redacted. destruct (redact_value_cases p) as [E|[E _]]; rewrite E; [by case_bool_decide|].
  by rewrite bool_decide_eq_true_2.
Qed.

Lemma keep_masked c : redact_secret (cc_ssl_pkcs12_password c) = None -> keep_secrets c (mask_passwords c) = c.
Proof.
  intros R. destruct c as [? ? ? ? ? ? pw ? ? ssh ? ? ? pk ? ? ? ? ? ?]. unfold keep_secrets, mask_passwords, redact_connection_secrets, with_secrets.
  cbn [cc_ssl_pkcs12_password cc_password cc_ssh cc_id cc_database_type cc_name cc_host cc_port cc_username cc_database cc_sqlite_path cc_ssl_mode
    cc_ssl_ca_path cc_ssl_pkcs12_path cc_ssl_tls_hostname cc_client_charset cc_session_init_commands cc_read_only
    cc_skip_dangerous_sql_confirm cc_group_id] in *.
  rewrite restored. assert (Epk : redact_value pk = pk) by (unfold redact_value; by rewrite R). rewrite Epk. f_equal. destruct ssh as [[h po us p k]|]; [|done].
  cbn. f_equal. pose proof (restored p) as E. unfold with_password. cbn. destruct (redacted (redact_value p)); by rewrite ?E.
Qed.

Lemma update_first_elem {A} (p : A -> bool) f l x : x ∈ l -> p x = false -> x ∈ update_first p f l.
Proof.
  induction l as [|y l IH]; [done|]. cbn [update_first]. intros [->|H]%elem_of_cons N.
  - rewrite N. left.
  - destruct (p y); right; auto.
Qed.
Lemma update_first_inv {A} (p : A -> bool) f l x : x ∈ update_first p f l -> x ∈ l \/ exists y, y ∈ l /\ p y = true /\ x = f y.
Proof.
  induction l as [|y l IH]; [by left|]. cbn [update_first]. destruct (p y) eqn:E.
  - intros [->|H]%elem_of_cons; [right; exists y; by split_and!; [left|..]|left; by right].
  - intros [->|H]%elem_of_cons; [by left; left|]. destruct (IH H) as [?|(z & ? & ? & ->)]; [left; by right|].
    right. exists z. split; [by right|done].
Qed.
Lemma update_first_hit {A} (p : A -> bool) f l x : x ∈ l -> p x = true -> (forall y, y ∈ l -> p y = true -> y = x) -> f x ∈ update_first p f l.
Proof.
  induction l as [|y l IH]; [by intros []%elem_of_nil|]. cbn [update_first]. intros Hx Px U. destruct (p y) eqn:E.
  - rewrite (U y) by (done || by left). by left.
  - right. apply elem_of_cons in Hx as [->|Hx]; [congruence|]. apply IH; [done|done|]. intros z Hz. apply U. by right.
Qed.
Lemma update_first_id {A} (p : A -> bool) f l : (forall y, y ∈ l -> p y = true -> f y = y) -> update_first p f l = l.
Proof.
  induction l as [|y l IH]; intros U; [done|]. cbn [update_first]. destruct (p y) eqn:E.
  - rewrite U; [done|by left|done].
  - rewrite IH; [done|]. intros z Hz. apply U. by right.
Qed.
Lemma omap_head {A B} (f : A -> option B) x l : omap f (x :: l) = match f x with Some y => y :: omap f l | None => omap f l end.
Proof. done. Qed.
Lemma unique_id s c d id : wf_storage s -> c ∈ sg_connections s -> d ∈ sg_connections s ->
  cc_id c = Some id -> cc_id d = Some id -> d = c.
Proof.
  intros [U _ _]. induction (sg_connections s) as [|x l IH]; [by intros []%elem_of_nil|]. rewrite omap_head in U.
  intros Hc Hd Ec Ed. apply elem_of_cons in Hc, Hd. assert (U' : NoDup (omap cc_id l)).
  { destruct (cc_id x); [by apply NoDup_cons in U as [_ U]|done]. }
  assert (N : forall y, y ∈ l -> cc_id y = Some id -> cc_id x <> Some id).
  { intros y Hy Ey Ex. rewrite Ex in U. apply NoDup_cons in U as [U _]. apply U, list_elem_of_omap. by exists y. }
  destruct Hc as [->|Hc], Hd as [->|Hd]; [done| | |by apply IH]; exfalso; [by apply (N d)|by apply (N c)].
Qed.

(** What the interface may change in a connection it got from the list. *)
Definition secrets_untouched (shown e : ConnectionConfig) : Prop :=
  cc_id e = cc_id shown /\ cc_password e = cc_password shown /\ cc_ssl_pkcs12_password e = cc_ssl_pkcs12_password shown /\
  (ssh_password <$> cc_ssh e) = (ssh_password <$> cc_ssh shown).

(** C32: a connection edited through the masked list keeps its passwords:
    saving it with the placeholders the list showed stores the database and
    SSH passwords it had, and changes no other connection.  The PKCS#12
    password is the exception: it survives exactly when the list did not mask
    it, since [save_connection] does not restore it. *)
Theorem masked_edit_keeps_secrets uuid s c id e :
  wf_storage s -> c ∈ sg_connections s -> cc_id c = Some id -> secrets_untouched (mask_passwords c) e ->
  let s' := save_connection uuid s e in
  (exists c', c' ∈ sg_connections s' /\ cc_id c' = Some id /\ cc_name c' = cc_name e /\ cc_host c' = cc_host e /\
     cc_password c' = cc_password c /\ (ssh_password <$> cc_ssh c') = (ssh_password <$> cc_ssh c) /\
     (cc_ssl_pkcs12_password c' = cc_ssl_pkcs12_password c <-> redact_secret (cc_ssl_pkcs12_password c) = None)) /\
  (forall d, cc_id d <> Some id -> d ∈ sg_connections s' <-> d ∈ sg_connections s) /\
  (e = mask_passwords c -> redact_secret (cc_ssl_pkcs12_password c) = None -> s' = s).
Proof.
  intros Wf Hc Ec (Ei & Ep & Ek & Es) s'. subst s'. cbn [mask_passwords redact_connection_secrets cc_id with_secrets] in Ei.
  rewrite Ec in Ei. unfold save_connection. rewrite Ei.
  assert (H : existsb (has_id id) (sg_connections s) = true).
  { apply existsb_true_iff. exists c. split; [done|]. unfold has_id. by rewrite bool_decide_eq_true_2. }
  rewrite H. cbn [sg_connections set_connections]. assert (P : forall d, has_id id d = true <-> cc_id d = Some id).
  { intros d. unfold has_id. by rewrite bool_decide_eq_true. }
  assert (Sh : forall sh, cc_ssh e = Some sh -> exists o, cc_ssh c = Some o /\ ssh_password sh = redact_value (ssh_password o)).
  { intros sh Eh. rewrite Eh in Es. cbn in Es. destruct (cc_ssh c) as [o|]; [|discriminate]. injection Es as Es. by exists o. }
  assert (K : cc_password (keep_secrets c e) = cc_password c /\ (ssh_password <$> cc_ssh (keep_secrets c e)) = (ssh_password <$> cc_ssh c)).
  { unfold keep_secrets. cbn [cc_password cc_ssh with_secrets]. split; [rewrite Ep; apply restored|].
    destruct (cc_ssh e) as [sh|] eqn:Eh.
    - destruct (Sh sh eq_refl) as (o & -> & Eo). cbn. rewrite Eo. f_equal. pose proof (restored (ssh_password o)) as R.
      destruct (redacted _); cbn; [done|]. by rewrite Eo.
    - cbn in Es. by destruct (cc_ssh c). }
  split_and!.
  - exists (keep_secrets c e). destruct K as [K1 K2]. split_and!; try done.
    + apply (update_first_hit (has_id id) (fun existing => keep_secrets existing e)); [done|by apply P|]. intros y Hy Py. apply P in Py. by eapply unique_id.
    + cbn [keep_secrets with_secrets cc_ssl_pkcs12_password]. rewrite Ek. cbn [mask_passwords redact_connection_secrets with_secrets cc_ssl_pkcs12_password].
      unfold redact_value. destruct (redact_secret (cc_ssl_pkcs12_password c)) as [x|] eqn:R; [|done]. cbn. split; [|done].
      intros E. exfalso. rewrite <- E in R. unfold redact_secret in R. cbn in R. rewrite (proj2 (str_eqb_eq _ _) eq_refl) in R. discriminate.
  - intros d Nd. split.
    + intros [Hd|(y & Hy & Py & ->)]%update_first_inv; [done|]. exfalso. apply Nd. by cbn.
    + intros Hd. apply update_first_elem; [done|]. unfold has_id. by rewrite bool_decide_eq_false_2.
  - intros -> R. unfold set_connections. rewrite update_first_id; [by destruct s|]. intros y Hy Py. apply P in Py.
    rewrite (unique_id s c y id) by done. by apply keep_masked.
Qed.

(** ** Proofs: the storage stays well formed *)

Lemma omap_filter_elem {A B} (f : A -> option B) (P : A -> Prop) `{!forall x, Decision (P x)} (l : list A) (y : B) :
  y ∈ omap f (filter P l) -> y ∈ omap f l.
Proof.
  rewrite !list_elem_of_omap. intros (x & Hf%list_elem_of_filter & E). exists x. by destruct Hf.
Qed.
Lemma NoDup_omap_filter {A B} (f : A -> option B) (P : A -> Prop) `{!forall x, Decision (P x)} (l : list A) :
  NoDup (omap f l) -> NoDup (omap f (filter P l)).
Proof.
  induction l as [|x l IH]; [done|]. rewrite omap_head, filter_cons. intros U. destruct (decide (P x)).
  - rewrite omap_head. destruct (f x) as [y|]; [|by apply IH]. apply NoDup_cons in U as [N U]. apply NoDup_cons.
    split; [|by apply IH]. by intros ?%omap_filter_elem.
  - apply IH. destruct (f x); [by apply NoDup_cons in U as [_ U]|done].
Qed.

(** [reorder] permutes what it keeps. *)
Section Reorder.
Context {A : Type} (key : A -> option str).
Abbreviation keyed := (keyed key) (only parsing).
Definition kept (keep : bool) (x : A) : bool := match key x with Some _ => true | None => keep end.

Lemma find_without a x b id : key x <> Some id -> find_first (keyed id) (a ++ x :: b) = find_first (keyed id) (a ++ b).
Proof.
  intros N. induction a as [|y a IH]; cbn [app find_first].
  - unfold keyed at 1. by rewrite bool_decide_eq_false_2.
  - destruct (keyed id y); [done|exact IH].
Qed.
Lemma omap_find_without a x b (ids : list str) : (forall id, id ∈ ids -> key x <> Some id) ->
  omap (fun id => find_first (keyed id) (a ++ x :: b)) ids = omap (fun id => find_first (keyed id) (a ++ b)) ids.
Proof.
  induction ids as [|id ids IH]; intros N; [done|]. rewrite !omap_head, find_without by (apply N; by left).
  rewrite IH; [done|]. intros i Hi. apply N. by right.
Qed.

Lemma filter_same (f g : A -> bool) (l : list A) : (forall x, x ∈ l -> f x = g x) ->
  filter (fun x => f x = true) l = filter (fun x => g x = true) l.
Proof.
  induction l as [|x l IH]; intros H; [done|]. rewrite !filter_cons, (H x), IH; [done| |by left]. intros y Hy. apply H. by right.
Qed.
Lemma unlisted_cons keep ids id x : key x <> Some id -> unlisted key keep (id :: ids) x = unlisted key keep ids x.
Proof.
  intros N. unfold unlisted. destruct (key x) as [k|]; [|done]. f_equal. apply bool_decide_ext. rewrite elem_of_cons.
  split; [intros [->|]; done|by right].
Qed.

Lemma reorder_perm keep ids (l : list A) : NoDup ids -> NoDup (omap key l) -> reorder key keep ids l ≡ₚ filter (fun x => kept keep x = true) l.
Proof.
  intros U. revert l. induction U as [|id ids Ni U IH]; intros l K; unfold reorder.
  - cbn [omap list_omap app]. erewrite filter_same; [reflexivity|]. intros x _. unfold unlisted, kept.
    destruct (key x); [|done]. by rewrite bool_decide_eq_false_2 by (by intros []%elem_of_nil).
  - rewrite omap_head. destruct (find_first (keyed id) l) as [x|] eqn:F.
    + apply find_first_some in F as [Hx Kx]. apply bool_decide_eq_true_1 in Kx.
      apply list_elem_of_split in Hx as (a & b & ->).
      assert (K' : NoDup (id :: omap key (a ++ b))).
      { rewrite <- Permutation_middle, omap_head, Kx in K. exact K. }
      apply NoDup_cons in K' as [Nk K']. pose proof (IH _ K') as P. unfold reorder in P.
      rewrite (omap_find_without a x b ids) by (intros i Hi E; congruence).
      rewrite <- !(Permutation_middle a b x), !filter_cons.
      rewrite decide_False by (unfold unlisted; rewrite Kx, bool_decide_eq_true_2 by (by left); done).
      rewrite decide_True by (unfold kept; by rewrite Kx). cbn [app]. rewrite <- P. f_equiv. f_equiv.
      erewrite filter_same; [reflexivity|]. intros y Hy. apply unlisted_cons. intros E. apply Nk, list_elem_of_omap. by exists y.
    + rewrite <- (IH l K). unfold reorder. f_equiv. erewrite filter_same; [reflexivity|]. intros y Hy. apply unlisted_cons.
      intros E. pose proof (find_first_none _ _ F y Hy) as F'. clear F. rename F' into F. unfold keyed in F. by rewrite bool_decide_eq_true_2 in F.
Qed.
End Reorder.

Lemma with_group_same c : with_group (cc_group_id c) c = c.
Proof. by destruct c. Qed.
Lemma survives_same c s : c ∈ sg_connections s -> survives c s.
Proof. exists (cc_group_id c). by rewrite with_group_same. Qed.
#[local] Hint Resolve survives_same : core.

(** What is shown of every step. *)
Definition preserved (t : option str) (s s' : ConnectionStorageData) : Prop :=
  wf_storage s' /\ forall c id, c ∈ sg_connections s -> cc_id c = Some id -> t <> Some id -> survives c s'.

Lemma map_alter {A B} (g : A -> B) f i (l : list A) : (forall x, g (f x) = g x) -> map g (alter f i l) = map g l.
Proof. intros H. revert i. induction l as [|x l IH]; intros [|i]; cbn; [done..|by rewrite H|by f_equal]. Qed.
Lemma omap_update_first {A B} (key : A -> option B) p f (l : list A) : (forall x, x ∈ l -> p x = true -> key (f x) = key x) ->
  omap key (update_first p f l) = omap key l.
Proof.
  induction l as [|x l IH]; intros H; [done|]. cbn [update_first]. destruct (p x) eqn:E; rewrite !omap_head.
  - rewrite (H x); [done|by left|done].
  - rewrite IH; [done|]. intros y Hy. apply H. by right.
Qed.

Lemma save_preserved s uuid config : wf_storage s -> uuid ∉ omap cc_id (sg_connections s) ->
  (forall g, cc_group_id config = Some g -> g ∈ map gr_id (sg_groups s)) -> preserved (cc_id config) s (save_connection uuid s config).
Proof.
  intros [U G R] F K. unfold save_connection.
  assert (App : forall d id, cc_id d = Some id -> id ∉ omap cc_id (sg_connections s) -> cc_group_id d = cc_group_id config ->
    preserved (cc_id config) s (set_connections s (sg_connections s ++ [d]))).
  { intros d id Ed Nd Eg. split.
    - split; cbn; [|done|].
      + rewrite omap_app. cbn. rewrite Ed. apply NoDup_app. split_and!; [done| |apply NoDup_singleton].
        intros x Hx ->%list_elem_of_singleton. done.
      + intros c g [H| ->%list_elem_of_singleton]%elem_of_app; [by apply R|]. rewrite Eg. apply K.
    - intros c i Hc _ _. apply survives_same. cbn. apply elem_of_app. by left. }
  destruct (cc_id config) as [id|] eqn:E; [|by apply (App _ uuid)].
  destruct (existsb (has_id id) (sg_connections s)) eqn:X; cycle 1.
  { apply (App config id); [done| |done]. intros (c & Hc & Ec)%list_elem_of_omap. rewrite existsb_false_iff in X. specialize (X c Hc).
    unfold has_id in X. by apply bool_decide_eq_false_1 in X. }
  split.
  - split; cbn; [|done|].
    + rewrite omap_update_first; [done|]. intros c _ P. apply bool_decide_eq_true_1 in P. cbn. congruence.
    + intros c g [H|(y & Hy & _ & ->)]%update_first_inv; [by apply R|]. cbn. apply K.
  - intros c i Hc Ec Ne. apply survives_same. cbn. apply update_first_elem; [done|]. unfold has_id.
    apply bool_decide_eq_false_2. congruence.
Qed.

Lemma same_connections_preserved t s s' : wf_storage s -> sg_connections s' = sg_connections s ->
  NoDup (map gr_id (sg_groups s')) -> (forall g, g ∈ map gr_id (sg_groups s) -> g ∈ map gr_id (sg_groups s')) -> preserved t s s'.
Proof.
  intros [U G R] E U' Sub. split; [split; rewrite ?E; try done|].
  - intros c g Hc Hg. by eapply Sub, R.
  - intros c i Hc _ _. apply survives_same. by rewrite E.
Qed.

Lemma delete_preserved s id : wf_storage s -> preserved (Some id) s (delete_saved_connection s id).
Proof.
  intros [U G R]. split.
  - split; cbn; [by apply NoDup_omap_filter|done|]. intros c g [_ H]%list_elem_of_filter. by apply R.
  - intros c i Hc Ec Ne. apply survives_same. cbn. apply list_elem_of_filter. split; [congruence|done].
Qed.

Lemma reordered_elem {A} (key : A -> option str) keep ids (l : list A) x : NoDup ids -> NoDup (omap key l) ->
  x ∈ reorder key keep ids l <-> x ∈ l /\ kept key keep x = true.
Proof. intros U K. rewrite (reorder_perm key keep ids l U K), list_elem_of_filter. tauto. Qed.
Lemma reordered_nodup {A} (key : A -> option str) keep ids (l : list A) : NoDup ids -> NoDup (omap key l) ->
  NoDup (omap key (reorder key keep ids l)).
Proof. intros U K. rewrite (reorder_perm key keep ids l U K). by apply NoDup_omap_filter. Qed.

Lemma reorder_preserved s ids : wf_storage s -> NoDup ids -> preserved None s (reorder_connections s ids).
Proof.
  intros [U G R] N. unfold reorder_connections.
  destruct (is_empty ids); [by apply same_connections_preserved|]. split.
  - split; cbn; [by apply reordered_nodup|done|]. intros c g [H _]%reordered_elem; [by apply R|done|done].
  - intros c i Hc Ec _. apply survives_same. cbn. apply reordered_elem; [done|done|]. split; [done|]. unfold kept. by rewrite Ec.
Qed.

Lemma omap_key_some {A} (f : A -> str) (l : list A) : omap (fun x => Some (f x)) l = map f l.
Proof. induction l as [|x l IH]; [done|]. rewrite omap_head. cbn [map]. by f_equal. Qed.
Lemma reorder_groups_preserved s ids : wf_storage s -> NoDup ids -> preserved None s (reorder_groups_in_storage s ids).
Proof.
  intros W N. pose proof W as [U G R]. unfold reorder_groups_in_storage. destruct (is_empty ids); [by apply same_connections_preserved|].
  rewrite <- omap_key_some in G. pose proof (reordered_nodup (fun g => Some (gr_id g)) false ids _ N G) as G'.
  rewrite omap_key_some in G'. apply same_connections_preserved; [done|done|done|]. cbn. intros g (x & -> & Hx)%list_elem_of_fmap.
  apply list_elem_of_fmap. exists x. split; [done|]. by apply reordered_elem.
Qed.

Lemma group_index_some s id i : find_group_index s id = Some i -> exists g, sg_groups s !! i = Some g /\ gr_id g = id.
Proof. intros (g & H & E)%position_some. exists g. split; [done|]. by apply str_eqb_eq. Qed.
Lemma omap_map_key {A B} (key : A -> option B) f (l : list A) : (forall x, key (f x) = key x) -> omap key (map f l) = omap key l.
Proof. intros H. induction l as [|x l IH]; [done|]. cbn [map]. rewrite !omap_head, H, IH. done. Qed.
Lemma delete_group_preserved s id s' : wf_storage s -> delete_group_from_storage s id = Ok s' -> preserved None s s'.
Proof.
  intros [U G R] H. unfold delete_group_from_storage in H. inv_ok. apply group_index_some in Hx as (g & Lg & Eg). rename x into i.
  assert (P : NoDup (id :: map gr_id (delete i (sg_groups s)))).
  { rewrite <- Eg. change (NoDup (map gr_id (g :: delete i (sg_groups s)))). by rewrite <- (delete_Permutation _ _ _ Lg). }
  set (f := fun c : ConnectionConfig => _). assert (Fi : forall c, cc_id (f c) = cc_id c) by (intros c; unfold f; by case_bool_decide).
  split.
  - split; cbn.
    + by rewrite omap_map_key.
    + by apply NoDup_cons in P as [_ P].
    + intros c k (d & -> & Hd)%list_elem_of_fmap Ec. unfold f in Ec. case_bool_decide as D; [done|].
      assert (Hk : k ∈ id :: map gr_id (delete i (sg_groups s))).
      { rewrite <- Eg. change (k ∈ map gr_id (g :: delete i (sg_groups s))). rewrite <- (delete_Permutation _ _ _ Lg). by apply (R d). }
      apply elem_of_cons in Hk as [->|Hk]; [done|exact Hk].
  - intros c k Hc _ _. exists (cc_group_id (f c)). cbn. apply list_elem_of_fmap. exists c. split; [|done]. unfold f.
    case_bool_decide; [done|]. by destruct c.
Qed.

Lemma move_preserved s id group ids s' : wf_storage s -> NoDup ids -> move_connection_to_group_in_storage s id group ids = Ok s' ->
  preserved None s s'.
Proof.
  intros [U G R] N. unfold move_connection_to_group_in_storage. intros H. case_if_in H; [done|]. case_if_in H; [done|]. inv_ok.
  rename E into Eg.
  set (moved := update_first _ _ _).
  assert (Um : NoDup (omap cc_id moved)) by (subst moved; by rewrite omap_update_first).
  assert (Rm : forall c g, c ∈ moved -> cc_group_id c = Some g -> g ∈ map gr_id (sg_groups s)).
  { intros c g [Hc|(d & Hd & _ & ->)]%update_first_inv E; [by eapply R|]. cbn in E. subst group. cbn in Eg.
    destruct (find_group_index s g) as [i|] eqn:Ei; [|done]. apply group_index_some in Ei as (x & Lx & <-).
    apply list_elem_of_fmap. exists x. split; [done|]. by eapply list_elem_of_lookup_2. }
  assert (Sm : forall c, c ∈ sg_connections s -> exists g, with_group g c ∈ moved).
  { intros c Hc. subst moved. clear - Hc. induction (sg_connections s) as [|x l IH]; [by apply elem_of_nil in Hc|]. cbn [update_first].
    apply elem_of_cons in Hc as [->|Hc]; destruct (has_id id _).
    - exists group. left.
    - exists (cc_group_id x). rewrite with_group_same. left.
    - exists (cc_group_id c). rewrite with_group_same. by right.
    - destruct (IH Hc) as [g Hg]. exists g. by right. }
  assert (K : forall c, c ∈ moved -> cc_id c <> None -> c ∈ (if is_empty ids then moved else reorder cc_id true ids moved)).
  { intros c Hc _. destruct (is_empty ids); [done|]. apply reordered_elem; [done|done|]. split; [done|]. unfold kept. by destruct (cc_id c). }
  split.
  - split; cbn; [destruct (is_empty ids); [done|by apply reordered_nodup]|done|].
    intros c g Hc. apply Rm. destruct (is_empty ids); [done|]. by apply reordered_elem in Hc as [Hc _].
  - intros c i Hc Ec _. destruct (Sm c Hc) as [g Hg]. exists g. cbn. apply K; [done|]. cbn. congruence.
Qed.

Lemma import_groups uuid (groups : list ConnectionGroup) k g i : group_id_map uuid groups !! k = Some g ->
  i = length groups -> exists j, (j < i)%nat /\ g = uuid j.
Proof.
  intros H ->. unfold group_id_map in H.
  assert (K : forall (l : list (nat * ConnectionGroup)) (m : gmap str str) b, Forall (fun x => (x.1 < b)%nat) l ->
    (forall v, m !! k = Some v -> exists j, (j < b)%nat /\ v = uuid j) ->
    forall v, fold_left (fun m '(i, g) => <[gr_id g := uuid i]> m) l m !! k = Some v -> exists j, (j < b)%nat /\ v = uuid j).
  { induction l as [|[j x] l IH]; intros m b F M v; cbn [fold_left]; [apply M|]. apply list.Forall_cons in F as [Fj F].
    apply IH; [done|]. intros w. destruct (decide (gr_id x = k)) as [<-|D].
    - rewrite lookup_insert_eq. intros [= <-]. by exists j.
    - rewrite lookup_insert_ne by done. apply M. }
  eapply K; [| |exact H].
  - apply list.Forall_forall. intros [j x] Hx. apply elem_of_lookup_imap in Hx as (a & b & [= -> ->] & L). cbn.
    by apply lookup_lt_Some in L.
  - intros v. by rewrite lookup_empty.
Qed.
Lemma map_imap {A B C} (g : B -> C) (f : nat -> A -> B) (l : list A) : map g (imap f l) = imap (fun i x => g (f i x)) l.
Proof. revert f. induction l as [|x l IH]; intros f; [done|]. cbn. f_equal. apply IH. Qed.
Lemma imap_nodup {A} (uuid : nat -> str) (l : list A) : (forall i j, uuid i = uuid j -> i = j) -> NoDup (imap (fun i _ => uuid i) l).
Proof.
  intros I. apply NoDup_alt. intros i j x Hi Hj. rewrite list_lookup_imap in Hi, Hj.
  destruct (l !! i); [|done]. destruct (l !! j); [|done]. cbn in *. apply I. congruence.
Qed.
Lemma omap_placed (h : nat -> str) (group : ConnectionConfig -> option str) (l : list ConnectionConfig) :
  omap cc_id (imap (fun i c => with_place (Some (h i)) (group c) c) l) = imap (fun i _ => h i) l.
Proof.
  revert h. induction l as [|c l IH]; intros h; [done|]. cbn [imap]. rewrite omap_head. cbn [with_place cc_id].
  f_equal. exact (IH (fun i => h (S i))).
Qed.
Lemma import_preserved s uuid imported : wf_storage s -> (forall i j, uuid i = uuid j -> i = j) ->
  (forall i, uuid i ∉ omap cc_id (sg_connections s)) -> (forall i, uuid i ∉ map gr_id (sg_groups s)) ->
  preserved None s (merge_imported uuid s imported).2.
Proof.
  intros [U G R] I Fc Fg. unfold merge_imported. cbn [snd]. set (n := length (sg_groups imported)). set (ids := group_id_map _ _).
  set (conns := imap _ (sg_connections imported)).
  assert (Ec : omap cc_id conns = imap (fun i _ => uuid (n + i)%nat) (sg_connections imported)).
  { apply (omap_placed (fun i => uuid (n + i)%nat) (fun c => g ← cc_group_id c; ids !! g)). }
  assert (Eg : map gr_id (imap (import_group uuid) (sg_groups imported)) = imap (fun i _ => uuid i) (sg_groups imported))
    by exact (map_imap gr_id (import_group uuid) (sg_groups imported)).
  split.
  - split; cbn.
    + rewrite omap_app, Ec. apply NoDup_app. split_and!; [done| |apply (imap_nodup (fun i => uuid (n + i)%nat)); intros i j E; apply I in E; lia].
      intros x Hx (i & y & -> & _)%elem_of_lookup_imap. by apply (Fc (n + i)%nat).
    + rewrite map_app, Eg. apply NoDup_app. split_and!; [done| |by apply imap_nodup].
      intros x Hx (i & y & -> & _)%elem_of_lookup_imap. by apply (Fg i).
    + intros c g Hc E. rewrite map_app, Eg. apply elem_of_app. apply elem_of_app in Hc as [Hc|Hc]; [left; by eapply R|right].
      apply elem_of_lookup_imap in Hc as (i & d & -> & _). cbn in E. destruct (cc_group_id d) as [k|]; [|done]. cbn in E.
      apply (import_groups uuid _ k g n) in E as (j & Lj & ->); [|done]. subst n.
      destruct (lookup_lt_is_Some_2 (sg_groups imported) j Lj) as [x Lx]. eapply elem_of_lookup_imap_2 in Lx. exact Lx.
  - intros c i Hc _ _. apply survives_same. cbn. apply elem_of_app. by left.
Qed.

(** No operation breaks or loses the saved connections.  Saving, deleting,
    reordering, grouping and importing keep identifiers unique and every
    connection's group existing; and every connection with an identifier,
    except the one the operation was asked to replace or delete, is still
    stored with all its data, its group aside. *)
Theorem storage_operations_sound t s s' : wf_storage s -> storage_step t s s' ->
  wf_storage s' /\ forall c id, c ∈ sg_connections s -> cc_id c = Some id -> t <> Some id -> survives c s'.
Proof.
  intros W S. enough (P : preserved t s s') by exact P. pose proof W as [U G R]. destruct S as [s uuid config F K|s id|s ids N|s uuid name g s' F H|s id name s' H|s id s' H|s id c s' H|s ids N|s id group ids s' N H|s uuid imported I Fc Fg].
  - by apply save_preserved.
  - by apply delete_preserved.
  - by apply reorder_preserved.
  - unfold create_group_in_storage in H. inv_ok. apply same_connections_preserved; [done|done| |]; cbn; [by constructor|by right].
  - unfold rename_group_in_storage in H. inv_ok. apply same_connections_preserved; [done|done| |]; cbn; by rewrite map_alter.
  - by eapply delete_group_preserved.
  - unfold set_group_collapsed_in_storage in H. inv_ok. apply same_connections_preserved; [done|done| |]; cbn; by rewrite map_alter.
  - by apply reorder_groups_preserved.
  - exact (move_preserved s id group ids s' W N H).
  - by apply import_preserved.
Qed.

(** A connection stored without an identifier, as old files may hold, is
    dropped by [reorder_connections]; moving connections keeps it. *)
Lemma reorder_drops_unidentified c ids : cc_id c = None -> ids <> [] ->
  sg_connections (reorder_connections (mkStorage [c] []) ids) = [].
Proof.
  intros E N. unfold reorder_connections. destruct ids as [|id ids]; [done|]. cbn [is_empty sg_connections set_connections].
  unfold reorder. assert (F : forall k, find_first (keyed cc_id k) [c] = None).
  { intros k. cbn [find_first]. unfold keyed. by rewrite E, bool_decide_eq_false_2. }
  rewrite filter_cons, decide_False by (unfold unlisted; by rewrite E). rewrite app_nil_r.
  clear N. induction (id :: ids) as [|x l IH]; [done|]. by rewrite omap_head, F.
Qed.

(** ** Witnesses *)

Definition sample_connection : ConnectionConfig :=
  mkConnection (Some (u "c1")) Postgres (u "main") (u "db.example") 5432 (u "app") (Some (u "hunter2")) None None
    (Some (mkSsh (u "bastion") 22 (u "ops") (Some (u "hunter22")) None)) None None None None None None None None None (Some (u "g1")).
Definition sample_storage : ConnectionStorageData := mkStorage [sample_connection] [mkGroup (u "g1") (u "team") false].
Lemma sample_storage_wf : wf_storage sample_storage.
Proof.
  split; cbn; [apply NoDup_singleton..|]. intros c g ->%list_elem_of_singleton. cbn. intros [= <-]. by left.
Qed.

Lemma redact_error_text_clean_witness :
  contains (u "hunter2") (redact_error_text (u "password hunter2 or hunter22 rejected: hunter2") [sample_connection]) = false /\
  redact_error_text (u "no hunter22!") [sample_connection] = u "no " ++ PASSWORD_REDACTED ++ u "!".
Proof.
  split; [|vm_compute; reflexivity].
  apply (redact_error_text_clean _ _ sample_connection); [by left|by left|discriminate|].
  apply (bool_decide_unpack _). vm_compute. exact I.
Defined.
Definition renamed : ConnectionConfig :=
  let m := mask_passwords sample_connection in
  mkConnection (cc_id m) (cc_database_type m) (u "renamed") (cc_host m) (cc_port m) (cc_username m) (cc_password m) (cc_database m)
    (cc_sqlite_path m) (cc_ssh m) (cc_ssl_mode m) (cc_ssl_ca_path m) (cc_ssl_pkcs12_path m) (cc_ssl_pkcs12_password m)
    (cc_ssl_tls_hostname m) (cc_client_charset m) (cc_session_init_commands m) (cc_read_only m) (cc_skip_dangerous_sql_confirm m)
    (cc_group_id m).
Lemma masked_edit_keeps_secrets_witness :
  cc_password renamed = Some PASSWORD_REDACTED /\
  exists c', c' ∈ sg_connections (save_connection (u "x") sample_storage renamed) /\ cc_name c' = u "renamed" /\
    cc_password c' = Some (u "hunter2").
Proof.
  split; [reflexivity|].
  destruct (masked_edit_keeps_secrets (u "x") sample_storage sample_connection (u "c1") renamed sample_storage_wf) as [(c' & H) _].
  - by left.
  - reflexivity.
  - split_and!; reflexivity.
  - exists c'. destruct H as (H1 & _ & H2 & _ & H3 & _). split; [exact H1|]. split; [exact H2|exact H3].
Defined.
Lemma storage_operations_sound_witness :
  wf_storage (reorder_connections sample_storage [u "c2"; u "c1"]) /\
  reorder_connections sample_storage [u "c2"; u "c1"] = sample_storage.
Proof.
  split; [|vm_compute; reflexivity].
  refine (proj1 (storage_operations_sound None sample_storage _ sample_storage_wf (StepReorder sample_storage [u "c2"; u "c1"] _))).
  apply (bool_decide_unpack _). vm_compute. exact I.
Defined.
End Connections.
