(* ===== verification/ConnectionStore.v ===== *)
(** The files of the saved connections: their encryption
    (src-tauri/src/crypto/mod.rs), the stored file with its migration, and the
    encrypted export and import (src-tauri/src/commands/connection.rs).

    serde_json, aes-gcm, base64, pbkdf2, the keyring and the file system are
    parameters; [W] is the world they act on.  Where a message quotes the error
    of the keyring, the cipher or the file system, the model keeps the code's
    own words. *)
From S2P Require Import Prelude RustText DataTypes Connections.
Import DataTypes Connections.

#[local] Set Warnings "-register-all".

Module ConnectionStore.

(** ** The libraries *)

(** [serde_json::Value]; of a number only [as_u64] is read. *)
Inductive Json : Type :=
| JNull | JBool (b : bool) | JNumber (as_u64 : option Z) | JString (s : str) | JArray (l : list Json) | JObject (entries : list (str * Json)).
Definition get (key : str) (o : list (str * Json)) : option Json := snd <$> find_first (fun '(k, _) => str_eqb k key) o.
Definition contains_key (key : String.string) (o : list (str * Json)) : bool := is_some (get (u key) o).
Arguments contains_key key%_string o.

Record StorageFile : Type := mkFile { sf_version : Z; sf_data : str }.
Record ConnectionTransferFile : Type := mkTransfer {
  tf_format : option str; tf_version : option Z; tf_connections : list ConnectionConfig; tf_groups : list ConnectionGroup }.
Record EncryptedConnectionTransferFile : Type := mkEncrypted {
  en_format : str; en_version : Z; en_kdf : str; en_iterations : Z; en_salt : str; en_nonce : str; en_data : str }.

Record Serde : Type := mkSerde {
  json_value : str -> result Json str;
  json_connections : str -> result (list ConnectionConfig) str;
  json_storage : str -> result ConnectionStorageData str;
  json_transfer : str -> result ConnectionTransferFile str;
  json_encrypted : str -> result EncryptedConnectionTransferFile str;
  value_file : Json -> result StorageFile str;
  storage_vec : ConnectionStorageData -> result bytes str;
  file_pretty : StorageFile -> result str str;
  transfer_pretty : ConnectionTransferFile -> result str str;
  encrypted_pretty : EncryptedConnectionTransferFile -> result str str;
}.

(** AES-256-GCM, Base64 and PBKDF2. *)
Record Cipher : Type := mkCipher {
  aes_encrypt : bytes -> bytes -> bytes -> option bytes;
  aes_decrypt : bytes -> bytes -> bytes -> option bytes;
  base64_encode : bytes -> str;
  base64_decode : str -> option bytes;
  pbkdf2 : str -> bytes -> Z -> bytes;
}.

(** The keyring entry and the files. *)
Record System (W : Type) : Type := mkSystem {
  get_password : W -> option str;
  set_password : str -> W -> bool * W;
  exists_file : W -> str -> bool;
  read_to_string : W -> str -> result str str;
  create_new : str -> W -> bool * W;
  write_all : str -> bytes -> W -> bool * W;
  sync_all : str -> W -> bool * W;
  rename : str -> str -> W -> bool * W;
  remove_file : str -> W -> W;
  write_file : str -> bytes -> W -> bool * W;
  set_permissions : str -> W -> bool * W;
}.
Arguments get_password {W}. Arguments set_password {W}. Arguments exists_file {W}. Arguments read_to_string {W}.
Arguments create_new {W}. Arguments write_all {W}. Arguments sync_all {W}. Arguments rename {W}. Arguments remove_file {W}.
Arguments write_file {W}. Arguments set_permissions {W}.

Section Store.
Context {W : Type} (serde : Serde) (cipher : Cipher) (sys : System W).

(** ** crypto *)

Definition NONCE_SIZE : Z := 12.
Definition KEY_SIZE : Z := 32.
Definition no_key : str := u "保存密钥失败".

(** [fresh] is the random key drawn when the keyring has none. *)
Definition get_or_create_key (fresh : bytes) (w : W) : result bytes str * W :=
  match get_password sys w with
  | Some encoded =>
    match base64_decode cipher encoded with
    | None => (Err (u "解码密钥失败"), w)
    | Some decoded =>
      if zlen decoded =? KEY_SIZE then (Ok decoded, w)
      else let '(ok, w) := set_password sys (base64_encode cipher fresh) w in (if ok then Ok fresh else Err no_key, w)
    end
  | None => let '(ok, w) := set_password sys (base64_encode cipher fresh) w in (if ok then Ok fresh else Err no_key, w)
  end.
Definition encrypt_with_key (nonce plaintext key : bytes) : result str str :=
  let? ciphertext := ok_or (aes_encrypt cipher key nonce plaintext) (u "加密失败") in
  Ok (base64_encode cipher (nonce ++ ciphertext)).
Definition decrypt_with_key (encoded : str) (key : bytes) : result bytes str :=
  let? combined := ok_or (base64_decode cipher encoded) (u "解码密文失败") in
  if zlen combined <? NONCE_SIZE then Err (u "密文格式无效")
  else ok_or (aes_decrypt cipher key (take 12 combined) (drop 12 combined)) (u "解密失败: 密文可能已损坏或密钥不匹配").

(** The random draws of one encryption. *)
Record Draws : Type := mkDraws { d_key : bytes; d_nonce : bytes }.
Definition encrypt (d : Draws) (plaintext : bytes) (w : W) : result str str * W :=
  let '(key, w) := get_or_create_key (d_key d) w in
  (let? key := key in encrypt_with_key (d_nonce d) plaintext key, w).
Definition decrypt (d : Draws) (encoded : str) (w : W) : result bytes str * W :=
  let '(key, w) := get_or_create_key (d_key d) w in
  (let? key := key in decrypt_with_key encoded key, w).

(** ** The stored file *)

Definition parse_error (e : str) : str := u "解析配置失败: " ++ e.
Definition file_error (e : str) : str := u "解析配置文件失败: " ++ e.
Definition empty_storage : ConnectionStorageData := mkStorage [] [].

Definition parse_connection_storage_json (content : str) : result ConnectionStorageData str :=
  match json_connections serde content with
  | Ok connections => Ok (mkStorage connections [])
  | Err _ => map_err parse_error (json_storage serde content)
  end.

Definition atomic_replace_file_at_temp_with (path temp_path : str) (content : bytes) (w : W) : result unit str * W :=
  let '(ok, w) := create_new sys temp_path w in
  if negb ok then (Err (u "创建临时配置文件失败"), w)
  else
    let failed e w := (Err e, remove_file sys temp_path w) in
    let '(ok, w) := write_all sys temp_path content w in
    if negb ok then failed (u "写入临时配置文件失败") w
    else
      let '(ok, w) := sync_all sys temp_path w in
      if negb ok then failed (u "同步临时配置文件失败") w
      else
        let '(ok, w) := rename sys temp_path path w in
        if negb ok then failed (u "替换配置文件失败") w else (Ok tt, w).

(** Is the stored value encrypted; is it a plain file of version 1? *)
Definition stored_format (value : Json) : bool * bool :=
  match value with
  | JArray _ => (false, true)
  | JObject object =>
    let has_nonlegacy_version := match get (u "version") object with
      | None => false
      | Some (JNumber (Some 1)) => false
      | Some _ => true
      end in
    (contains_key "data" object || has_nonlegacy_version, contains_key "connections" object || contains_key "groups" object)
  | _ => (false, false)
  end.

Definition load_encrypted (d : Draws) (value : Json) (w : W) : result ConnectionStorageData str * W :=
  match map_err file_error (value_file serde value) with
  | Err e => (Err e, w)
  | Ok storage =>
    if negb (sf_version storage =? 2) then (Err (u "不支持的配置文件版本: " ++ show_Z (sf_version storage)), w)
    else
      let '(decrypted, w) := decrypt d (sf_data storage) w in
      (let? decrypted := decrypted in
       let? text := ok_or (from_utf8 decrypted) (u "解密数据编码错误") in
       parse_connection_storage_json text, w)
  end.

(** A file of version 1 is returned as it was once its encrypted form replaced it. *)
Definition migrate (d : Draws) (path temp_path content : str) (w : W) : result ConnectionStorageData str * W :=
  match (let? legacy := map_err file_error (parse_connection_storage_json content) in
         let? plaintext := map_err (fun e => u "序列化配置失败: " ++ e) (storage_vec serde legacy) in Ok (legacy, plaintext)) with
  | Err e => (Err e, w)
  | Ok (legacy, plaintext) =>
    let '(encrypted, w) := encrypt d plaintext w in
    match (let? encrypted := encrypted in
           map_err (fun e => u "序列化存储文件失败: " ++ e) (file_pretty serde (mkFile 2 encrypted))) with
    | Err e => (Err e, w)
    | Ok migrated =>
      let '(replaced, w) := atomic_replace_file_at_temp_with path temp_path (utf8 migrated) w in
      (let? _ := replaced in Ok legacy, w)
    end
  end.

Definition load_connection_storage (d : Draws) (path temp_path : str) (w : W) : result ConnectionStorageData str * W :=
  if negb (exists_file sys w path) then (Ok empty_storage, w)
  else
    match map_err (fun e => u "读取配置文件失败: " ++ e) (read_to_string sys w path) with
    | Err e => (Err e, w)
    | Ok content =>
      let content := trim content in
      if is_empty content then (Ok empty_storage, w)
      else
        match map_err file_error (json_value serde content) with
        | Err e => (Err e, w)
        | Ok value =>
          let '(looks_encrypted, is_legacy) := stored_format value in
          if looks_encrypted then load_encrypted d value w
          else if negb is_legacy then (Err (u "配置文件格式不正确"), w)
          else migrate d path temp_path content w
        end
    end.

Definition save_connection_storage_to_file (d : Draws) (path : str) (storage : ConnectionStorageData) (w : W) : result unit str * W :=
  match map_err (fun e => u "序列化配置失败: " ++ e) (storage_vec serde storage) with
  | Err e => (Err e, w)
  | Ok json =>
    let '(encrypted, w) := encrypt d json w in
    match (let? encrypted := encrypted in
           map_err (fun e => u "序列化存储文件失败: " ++ e) (file_pretty serde (mkFile 2 encrypted))) with
    | Err e => (Err e, w)
    | Ok content =>
      let '(ok, w) := write_file sys path (utf8 content) w in
      if negb ok then (Err (u "写入配置文件失败"), w)
      else let '(ok, w) := set_permissions sys path w in (if ok then Ok tt else Err (u "设置文件权限失败"), w)
    end
  end.

(** ** Export and import *)

Definition CONNECTION_EXPORT_FORMAT : str := u "db-connect.connections".
Definition CONNECTION_EXPORT_ENCRYPTED_FORMAT : str := u "db-connect.connections.encrypted".
Definition CONNECTION_EXPORT_KDF : str := u "pbkdf2-sha256".
Definition CONNECTION_EXPORT_KDF_ITERATIONS : Z := 100000.
Definition bad_format : str := u "导入文件格式不正确".
Definition newer_version : str := u "导入文件版本过高，请升级应用后重试".
Definition bad_parameters : str := u "导入文件加密参数无效".
Definition import_error (e : str) : str := u "解析导入文件失败: " ++ e.

Definition parse_connection_transfer_json (content : str) : result ConnectionStorageData str :=
  let? value := map_err import_error (json_value serde content) in
  match value with
  | JArray _ => parse_connection_storage_json content
  | JObject object =>
    if contains_key "connections" object || contains_key "groups" object || contains_key "format" object
    then
      let? transfer := map_err import_error (json_transfer serde content) in
      if is_some_and (fun f => negb (str_eqb f CONNECTION_EXPORT_FORMAT)) (tf_format transfer) then Err bad_format
      else if is_some_and (fun v => 1 <? v) (tf_version transfer) then Err newer_version
      else Ok (mkStorage (tf_connections transfer) (tf_groups transfer))
    else Err bad_format
  | _ => Err bad_format
  end.
Definition export_connection_storage_json (storage : ConnectionStorageData) : result str str :=
  map_err (fun e => u "序列化导出文件失败: " ++ e)
    (transfer_pretty serde (mkTransfer (Some CONNECTION_EXPORT_FORMAT) (Some 1) (sg_connections storage) (sg_groups storage))).
Definition validate_transfer_password (password : str) : result str str :=
  if is_empty (trim password) then Err (u "导入导出密码不能为空") else Ok password.
Definition derive_transfer_key (password : str) (salt : bytes) (iterations : Z) : result bytes str :=
  if iterations =? 0 then Err bad_parameters else Ok (pbkdf2 cipher password salt iterations).

Definition export_connection_storage_encrypted_json (salt nonce : bytes) (storage : ConnectionStorageData) (password : str) : result str str :=
  let? password := validate_transfer_password password in
  let? plaintext := export_connection_storage_json storage in
  let? key := derive_transfer_key password salt CONNECTION_EXPORT_KDF_ITERATIONS in
  let? ciphertext := ok_or (aes_encrypt cipher key nonce (utf8 plaintext)) (u "导出加密失败") in
  map_err (fun e => u "序列化导出文件失败: " ++ e)
    (encrypted_pretty serde (mkEncrypted CONNECTION_EXPORT_ENCRYPTED_FORMAT 2 CONNECTION_EXPORT_KDF CONNECTION_EXPORT_KDF_ITERATIONS
       (base64_encode cipher salt) (base64_encode cipher nonce) (base64_encode cipher ciphertext))).

Definition decrypt_connection_transfer_json (content password : str) : result str str :=
  let? password := validate_transfer_password password in
  let? envelope := map_err (fun _ => u "导入文件格式不正确或未加密") (json_encrypted serde content) in
  if negb (str_eqb (en_format envelope) CONNECTION_EXPORT_ENCRYPTED_FORMAT) then Err bad_format
  else if 2 <? en_version envelope then Err newer_version
  else if negb (str_eqb (en_kdf envelope) CONNECTION_EXPORT_KDF) then Err (u "导入文件加密参数不受支持")
  else
    let? salt := ok_or (base64_decode cipher (en_salt envelope)) bad_parameters in
    let? nonce := ok_or (base64_decode cipher (en_nonce envelope)) bad_parameters in
    let? ciphertext := ok_or (base64_decode cipher (en_data envelope)) bad_parameters in
    if negb (zlen nonce =? 12) then Err bad_parameters
    else
      let? key := derive_transfer_key password salt (en_iterations envelope) in
      let? plaintext := ok_or (aes_decrypt cipher key nonce ciphertext) (u "解密失败：密码错误或导入文件已损坏") in
      ok_or (from_utf8 plaintext) (u "解密后的导入文件编码无效").

Definition import_connection_storage_json (uuid : nat -> str) (storage : ConnectionStorageData) (content : str) :
  result (ConnectionImportResult * ConnectionStorageData) str :=
  let content := trim content in
  if is_empty content then Err (u "导入文件为空")
  else let? imported := parse_connection_transfer_json content in Ok (merge_imported uuid storage imported).
Definition import_encrypted_connection_storage_json (uuid : nat -> str) (storage : ConnectionStorageData) (content password : str) :
  result (ConnectionImportResult * ConnectionStorageData) str :=
  let? decrypted := decrypt_connection_transfer_json content password in
  import_connection_storage_json uuid storage decrypted.

(** ** The commands: load, change, save *)

Definition update_storage {A} (d1 d2 : Draws) (path temp_path : str)
  (change : ConnectionStorageData -> result (A * ConnectionStorageData) str) (w : W) : result A str * W :=
  let '(loaded, w) := load_connection_storage d1 path temp_path w in
  match (let? storage := loaded in change storage) with
  | Err e => (Err e, w)
  | Ok (x, storage) =>
    let '(saved, w) := save_connection_storage_to_file d2 path storage w in
    (let? _ := saved in Ok x, w)
  end.
Definition export_connections (d : Draws) (salt nonce : bytes) (path temp_path target password : str) (w : W) : result Z str * W :=
  let '(loaded, w) := load_connection_storage d path temp_path w in
  match (let? storage := loaded in
         let? content := export_connection_storage_encrypted_json salt nonce storage password in Ok (storage, content)) with
  | Err e => (Err e, w)
  | Ok (storage, content) =>
    let '(ok, w) := write_file sys target (utf8 content) w in
    if negb ok then (Err (u "写入导出文件失败"), w)
    else let '(ok, w) := set_permissions sys target w in
         (if ok then Ok (zlen (sg_connections storage)) else Err (u "设置文件权限失败"), w)
  end.
Definition import_connections (uuid : nat -> str) (d1 d2 : Draws) (path temp_path source password : str) (w : W) :
  result ConnectionImportResult str * W :=
  match map_err (fun e => u "读取导入文件失败: " ++ e) (read_to_string sys w source) with
  | Err e => (Err e, w)
  | Ok content =>
    update_storage d1 d2 path temp_path (fun s => import_encrypted_connection_storage_json uuid s content password) w
  end.
End Store.

(** ** Specification: what the libraries promise *)

Class SerdeLaws (serde : Serde) : Prop := {
  ser_storage s v : storage_vec serde s = Ok v -> exists t e, from_utf8 v = Some t /\ json_connections serde t = Err e /\ json_storage serde t = Ok s;
  ser_file f t : file_pretty serde f = Ok t -> wf_str t /\ trim t = t /\ t <> [] /\
    exists o, json_value serde t = Ok (JObject o) /\ contains_key "data" o = true /\ value_file serde (JObject o) = Ok f;
  ser_transfer f t : transfer_pretty serde f = Ok t -> wf_str t /\ trim t = t /\ t <> [] /\
    exists o, json_value serde t = Ok (JObject o) /\ contains_key "connections" o = true /\ json_transfer serde t = Ok f;
  ser_encrypted f t : encrypted_pretty serde f = Ok t -> json_encrypted serde t = Ok f;
}.
Class CipherLaws (cipher : Cipher) : Prop := {
  ci_aes k n p c : aes_encrypt cipher k n p = Some c -> aes_decrypt cipher k n c = Some p;
  ci_base64 b : base64_decode cipher (base64_encode cipher b) = Some b;
}.
(** The contents of the files and of the keyring entry. *)
Class SystemLaws {W} (sys : System W) (file : W -> str -> option bytes) (key : W -> option str) : Prop := {
  sy_get w : get_password sys w = key w;
  sy_set x w ok w' : set_password sys x w = (ok, w') -> (forall p, file w' p = file w p) /\ (ok = true -> key w' = Some x);
  sy_exists w p : exists_file sys w p = is_some (file w p);
  sy_read w p b t : file w p = Some b -> from_utf8 b = Some t -> read_to_string sys w p = Ok t;
  sy_create p w ok w' : create_new sys p w = (ok, w') -> key w' = key w /\ (forall q, q <> p -> file w' q = file w q) /\
    (ok = true -> file w' p = Some []);
  sy_write p b w ok w' : write_all sys p b w = (ok, w') -> key w' = key w /\ (forall q, q <> p -> file w' q = file w q) /\
    (ok = true -> file w p = Some [] -> file w' p = Some b);
  sy_sync p w ok w' : sync_all sys p w = (ok, w') -> key w' = key w /\ forall q, file w' q = file w q;
  sy_rename p q w ok w' : rename sys p q w = (ok, w') -> key w' = key w /\
    if ok then p <> q -> file w' q = file w p else forall r, file w' r = file w r;
  sy_remove p w : key (remove_file sys p w) = key w /\ forall q, q <> p -> file (remove_file sys p w) q = file w q;
  sy_write_file p b w ok w' : write_file sys p b w = (ok, w') -> key w' = key w /\ (ok = true -> file w' p = Some b);
  sy_permissions p w ok w' : set_permissions sys p w = (ok, w') -> key w' = key w /\ forall q, file w' q = file w q;
}.

(** ** Proofs *)

Section Laws.
Context {W : Type} (serde : Serde) `{!SerdeLaws serde} (cipher : Cipher) `{!CipherLaws cipher} (sys : System W)
  (file : W -> str -> option bytes) (key : W -> option str) `{!SystemLaws sys file key}.

Definition well_drawn (d : Draws) : Prop := zlen (d_key d) = 32 /\ zlen (d_nonce d) = 12.
(** The key in the keyring. *)
Definition holds_key (w : W) (k : bytes) : Prop := exists e, key w = Some e /\ base64_decode cipher e = Some k /\ zlen k = 32.

Lemma get_key_stable fresh w k : holds_key w k -> get_or_create_key cipher sys fresh w = (Ok k, w).
Proof.
  intros (e & E & D & L). unfold get_or_create_key. rewrite (sy_get w), E, D. unfold KEY_SIZE. by rewrite L.
Qed.
Lemma set_key fresh w r w' : zlen fresh = 32 ->
  (let '(ok, w) := set_password sys (base64_encode cipher fresh) w in (if ok then Ok fresh else Err no_key, w)) = (r, w') ->
  (forall p, file w' p = file w p) /\ forall k, r = Ok k -> holds_key w' k.
Proof.
  intros L. destruct (set_password _ _ w) as [ok w1] eqn:S. apply sy_set in S as [F K]. intros [= <- <-]. split; [done|].
  intros k. destruct ok; [|done]. intros [= <-]. eexists. split_and!; [by apply K|apply ci_base64|done].
Qed.
Lemma get_key fresh w r w' : zlen fresh = 32 -> get_or_create_key cipher sys fresh w = (r, w') ->
  (forall p, file w' p = file w p) /\ forall k, r = Ok k -> holds_key w' k.
Proof.
  intros L. unfold get_or_create_key. rewrite (sy_get w). destruct (key w) as [e|] eqn:E; [|by apply set_key].
  destruct (base64_decode cipher e) as [k|] eqn:D; [|by intros [= <- <-]].
  destruct (zlen k =? KEY_SIZE) eqn:Z; [|by apply set_key]. intros [= <- <-]. split; [done|]. intros k' [= <-].
  exists e. split_and!; [done|done|]. by apply Z.eqb_eq in Z.
Qed.

Lemma encrypt_ok d p w r w' : well_drawn d -> encrypt cipher sys d p w = (r, w') ->
  (forall q, file w' q = file w q) /\ forall e, r = Ok e -> exists k, holds_key w' k /\ decrypt_with_key cipher e k = Ok p.
Proof.
  intros [Lk Ln] H. unfold encrypt in H. destruct (get_or_create_key _ _ _ _) as [k w1] eqn:G. injection H as <- <-.
  apply get_key in G as [F K]; [|done]. split; [done|]. intros e H. apply rbind_ok_inv in H as (kk & -> & H). exists kk. split; [by apply K|].
  unfold encrypt_with_key in H. inv_ok. unfold decrypt_with_key. rewrite ci_base64. cbn [ok_or rbind].
  rewrite zlen_app, Ln. unfold NONCE_SIZE. destruct (12 + zlen x <? 12) eqn:T; [to_prop; pose proof (zlen_nonneg x); lia|].
  assert (N : length (d_nonce d) = 12%nat) by (unfold zlen in Ln; lia).
  rewrite take_app_length', drop_app_length' by done. by erewrite ci_aes.
Qed.

(** A file that [load] reads as [storage]. *)
Definition stores (w : W) (path : str) (storage : ConnectionStorageData) : Prop :=
  exists v e t k, storage_vec serde storage = Ok v /\ file_pretty serde (mkFile 2 e) = Ok t /\ file w path = Some (utf8 t) /\
    holds_key w k /\ decrypt_with_key cipher e k = Ok v.

Lemma load_stores d path temp w storage : stores w path storage ->
  load_connection_storage serde cipher sys d path temp w = (Ok storage, w).
Proof.
  intros (v & e & t & k & V & P & F & K & D). apply ser_file in P as (Wt & T & N & o & J & C & Fv).
  unfold load_connection_storage. rewrite (sy_exists w path), F. cbn [is_some is_some_and negb].
  rewrite (sy_read w path (utf8 t) t F) by (by apply from_utf8_utf8). cbn [map_err]. rewrite T.
  rewrite (proj2 (is_empty_false t) N), J. cbn [map_err stored_format]. rewrite C. cbn [orb].
  unfold load_encrypted. rewrite Fv. cbn [map_err sf_version sf_data]. cbn [Z.eqb Pos.eqb negb].
  unfold decrypt. rewrite (get_key_stable (d_key d) w k K). cbn [rbind]. rewrite D. cbn [rbind].
  apply ser_storage in V as (x & er & X1 & X2 & X3). rewrite X1. cbn [ok_or rbind]. unfold parse_connection_storage_json. by rewrite X2, X3.
Qed.

Lemma replace_atomic path temp content w r w' : temp <> path ->
  atomic_replace_file_at_temp_with sys path temp content w = (r, w') ->
  key w' = key w /\ match r with Ok _ => file w' path = Some content | Err _ => file w' path = file w path end.
Proof.
  intros N. unfold atomic_replace_file_at_temp_with.
  destruct (create_new sys temp w) as [ok w1] eqn:C. apply sy_create in C as (K1 & F1 & C1). destruct ok; cycle 1.
  { intros [= <- <-]. split; [done|]. by apply F1. }
  destruct (write_all sys temp content w1) as [ok w2] eqn:Wr. apply sy_write in Wr as (K2 & F2 & C2). destruct ok; cycle 1.
  { intros [= <- <-]. destruct (sy_remove temp w2) as [K F]. split; [congruence|]. by rewrite F, F2, F1. }
  destruct (sync_all sys temp w2) as [ok w3] eqn:Sy. apply sy_sync in Sy as (K3 & F3). destruct ok; cycle 1.
  { intros [= <- <-]. destruct (sy_remove temp w3) as [K F]. split; [congruence|]. by rewrite F, F3, F2, F1. }
  destruct (rename sys temp path w3) as [ok w4] eqn:R. apply sy_rename in R as (K4 & F4). destruct ok; intros [= <- <-].
  - split; [congruence|]. rewrite F4 by done. rewrite F3. apply C2; [done|]. by apply C1.
  - destruct (sy_remove temp w4) as [K F]. split; [congruence|]. by rewrite F, F4, F3, F2, F1.
Qed.

Lemma decrypt_files d e w r w' : well_drawn d -> decrypt cipher sys d e w = (r, w') -> forall p, file w' p = file w p.
Proof.
  intros [L _] H. unfold decrypt in H. destruct (get_or_create_key _ _ _ _) as [k w1] eqn:G. injection H as _ <-.
  by apply get_key in G as [F _].
Qed.

Lemma migrate_safe d path temp content w r w' : well_drawn d -> temp <> path -> migrate serde cipher sys d path temp content w = (r, w') ->
  file w' path = file w path \/ exists storage, r = Ok storage /\ stores w' path storage.
Proof.
  intros Wd N. unfold migrate. destruct (rbind _ _) as [[legacy plaintext]|e] eqn:L; [|intros [= _ <-]; by left].
  apply rbind_ok_inv in L as (x & _ & L). apply rbind_ok_inv in L as (v & V & L). injection L as -> ->.
  assert (V' : storage_vec serde legacy = Ok plaintext) by (by destruct (storage_vec serde legacy); [injection V as ->|discriminate]).
  destruct (encrypt _ _ _ _ _) as [enc w1] eqn:En. apply encrypt_ok in En as [F E]; [|done].
  destruct (rbind enc _) as [t|e] eqn:P; [|intros [= _ <-]; left; by rewrite F].
  apply rbind_ok_inv in P as (e & -> & P). specialize (E e eq_refl) as (k & K & D).
  assert (P' : file_pretty serde (mkFile 2 e) = Ok t) by (by destruct (file_pretty _ _); [injection P as ->|discriminate]).
  destruct (atomic_replace_file_at_temp_with _ _ _ _ _) as [rep w2] eqn:A. apply replace_atomic in A as [Kk A]; [|done].
  intros [= <- <-]. destruct rep as [[]|er]; [right|left; by rewrite A, F]. exists legacy. split; [done|].
  exists plaintext, e, t, k. split_and!; try done. unfold holds_key in *. by rewrite Kk.
Qed.

(** C33: the saved connections survive their storage.  After a successful save,
    loading returns exactly what was saved and rewrites nothing; and loading
    never loses the file: it leaves it as it was, or has replaced a file of
    the old plain format, all at once, by an encrypted one that loads as the
    connections it just returned. *)
Theorem saved_connections_survive d path storage w w' : well_drawn d ->
  (save_connection_storage_to_file serde cipher sys d path storage w = (Ok tt, w') ->
   forall d2 temp, load_connection_storage serde cipher sys d2 path temp w' = (Ok storage, w')) /\
  (forall temp r, temp <> path -> load_connection_storage serde cipher sys d path temp w = (r, w') ->
   file w' path = file w path \/
   exists loaded, r = Ok loaded /\ forall d2 temp2, load_connection_storage serde cipher sys d2 path temp2 w' = (Ok loaded, w')).
Proof.
  intros Wd. split.
  - intros H d2 temp. apply load_stores. unfold save_connection_storage_to_file in H.
    destruct (storage_vec serde storage) as [v|] eqn:V; cbn [map_err] in H; [|discriminate].
    destruct (encrypt _ _ _ _ _) as [enc w1] eqn:En. apply encrypt_ok in En as [F E]; [|done].
    destruct (rbind enc _) as [t|er] eqn:P; [|discriminate]. apply rbind_ok_inv in P as (e & -> & P).
    specialize (E e eq_refl) as (k & K & D).
    assert (P' : file_pretty serde (mkFile 2 e) = Ok t) by (by destruct (file_pretty _ _); [injection P as ->|discriminate]).
    destruct (write_file sys path (utf8 t) w1) as [ok w2] eqn:Wr. apply sy_write_file in Wr as [K2 F2].
    destruct ok; [|discriminate]. cbn [negb] in H. destruct (set_permissions sys path w2) as [ok w3] eqn:Sp.
    apply sy_permissions in Sp as [K3 F3]. destruct ok; [|discriminate]. injection H as <-.
    exists v, e, t, k. split_and!; try done; [rewrite F3; by apply F2|]. unfold holds_key in *. by rewrite K3, K2.
  - intros temp r N. unfold load_connection_storage. destruct (negb _); [intros [= _ <-]; by left|].
    destruct (map_err _ (read_to_string _ _ _)) as [content|e]; [|intros [= _ <-]; by left].
    destruct (is_empty (trim content)); [intros [= _ <-]; by left|].
    destruct (map_err _ (json_value _ _)) as [value|e]; [|intros [= _ <-]; by left].
    destruct (stored_format value) as [enc legacy]. destruct enc.
    + unfold load_encrypted. destruct (map_err _ (value_file _ _)) as [sf|e]; [|intros [= _ <-]; by left].
      destruct (negb _); [intros [= _ <-]; by left|]. destruct (decrypt _ _ _ _ _) as [x w1] eqn:D.
      intros [= _ <-]. left. by eapply decrypt_files.
    + destruct (negb legacy); [intros [= _ <-]; by left|]. intros H. apply migrate_safe in H as [H|(x & -> & H)]; [by left|right|done|done].
      exists x. split; [done|]. intros d2 temp2. by apply load_stores.
Qed.

(** Exporting and importing with the same password brings every connection
    and group over: the import succeeds, adds as many of each as the export
    held, keeps those that were there, and every exported connection arrives
    with all its data, passwords included, under a new identifier. *)
Theorem export_import_roundtrip salt nonce storage password content uuid other : zlen nonce = 12 ->
  export_connection_storage_encrypted_json serde cipher salt nonce storage password = Ok content ->
  exists merged,
    import_encrypted_connection_storage_json serde cipher uuid other content password =
      Ok ((zlen (sg_connections storage), zlen (sg_groups storage)), merged) /\
    (exists added, sg_connections merged = sg_connections other ++ added /\ length added = length (sg_connections storage) /\
       forall i c, sg_connections storage !! i = Some c -> exists g,
         added !! i = Some (with_place (Some (uuid (length (sg_groups storage) + i)%nat)) g c)) /\
    exists groups, sg_groups merged = sg_groups other ++ groups /\ length groups = length (sg_groups storage).
Proof.
  intros Ln H. unfold export_connection_storage_encrypted_json in H. apply rbind_ok_inv in H as (pw & Pw & H).
  assert (pw = password) as -> by (unfold validate_transfer_password in Pw; destruct (is_empty _); [discriminate|by injection Pw]).
  apply rbind_ok_inv in H as (plain & Pl & H). apply rbind_ok_inv in H as (k & K & H). apply rbind_ok_inv in H as (ct & Ct & H).
  apply ok_or_ok_inv in Ct. destruct (encrypted_pretty _ _) as [c|] eqn:En; [|discriminate]. injection H as ->. apply ser_encrypted in En.
  unfold export_connection_storage_json in Pl. destruct (transfer_pretty _ _) as [t|] eqn:Tp; [|discriminate]. injection Pl as ->.
  apply ser_transfer in Tp as (Wt & Tr & Nt & o & J & C & Jt).
  assert (D : decrypt_connection_transfer_json serde cipher content password = Ok plain).
  { unfold decrypt_connection_transfer_json. rewrite Pw, En. cbn [rbind map_err en_format en_version en_kdf en_salt en_nonce en_data en_iterations].
    rewrite !(proj2 (str_eqb_eq _ _) eq_refl). cbn [negb Z.ltb Z.compare Pos.compare Pos.compare_cont]. rewrite !ci_base64. cbn [ok_or rbind].
    rewrite Ln. cbn [Z.eqb Pos.eqb negb]. rewrite K. cbn [rbind]. rewrite (ci_aes _ _ _ _ Ct). cbn [ok_or rbind].
    by rewrite from_utf8_utf8. }
  unfold import_encrypted_connection_storage_json, import_connection_storage_json. rewrite D. cbn [rbind]. rewrite Tr.
  rewrite (proj2 (is_empty_false plain) Nt). unfold parse_connection_transfer_json. rewrite J. cbn [map_err rbind]. rewrite C. cbn [orb].
  rewrite Jt. cbn [map_err rbind tf_format tf_version is_some_and tf_connections tf_groups].
  rewrite (proj2 (str_eqb_eq _ _) eq_refl). cbn [negb Z.ltb Z.compare Pos.compare Pos.compare_cont rbind].
  unfold merge_imported. cbn [sg_connections sg_groups]. eexists. split; [reflexivity|]. cbn [sg_connections sg_groups]. split.
  - eexists. split; [reflexivity|]. split; [by rewrite length_imap|]. intros i c L. rewrite list_lookup_imap, L. cbn. eauto.
  - eexists. split; [reflexivity|]. by rewrite length_imap.
Qed.
End Laws.

(** ** Witnesses: a codec for one storage, a disk of a map *)

#[export] Instance StorageFile_eq_dec : EqDecision StorageFile.
Proof. solve_decision. Defined.
#[export] Instance Transfer_eq_dec : EqDecision ConnectionTransferFile.
Proof. solve_decision. Defined.
#[export] Instance Encrypted_eq_dec : EqDecision EncryptedConnectionTransferFile.
Proof. solve_decision. Defined.
#[export] Instance Storage_eq_dec : EqDecision ConnectionStorageData.
Proof. solve_decision. Defined.

Definition zeros : bytes := replicate 12 0.
Definition sample_draws : Draws := mkDraws (replicate 32 7) zeros.
Definition sample_file : StorageFile := mkFile 2 (zeros ++ u "S").
Definition sample_transfer : ConnectionTransferFile :=
  mkTransfer (Some CONNECTION_EXPORT_FORMAT) (Some 1) (sg_connections sample_storage) (sg_groups sample_storage).
Definition sample_encrypted : EncryptedConnectionTransferFile :=
  mkEncrypted CONNECTION_EXPORT_ENCRYPTED_FORMAT 2 CONNECTION_EXPORT_KDF CONNECTION_EXPORT_KDF_ITERATIONS [1] zeros (u "T").
Definition only {A} `{EqDecision A} (x : A) (t : String.string) (y : A) : result str str := if bool_decide (y = x) then Ok (u t) else Err [].
Definition sample_serde : Serde := {|
  json_value t := if str_eqb t (u "F") then Ok (JObject [(u "data", JNull)]) else
                  if str_eqb t (u "T") then Ok (JObject [(u "connections", JNull)]) else Err [];
  json_connections _ := Err [];
  json_storage _ := Ok sample_storage;
  json_transfer _ := Ok sample_transfer;
  json_encrypted _ := Ok sample_encrypted;
  value_file _ := Ok sample_file;
  storage_vec x := only sample_storage "S" x;
  file_pretty := only sample_file "F";
  transfer_pretty := only sample_transfer "T";
  encrypted_pretty := only sample_encrypted "E";
|}.
Definition sample_cipher : Cipher :=
  mkCipher (fun _ _ p => Some p) (fun _ _ c => Some c) (fun b => b) Some (fun _ _ _ => replicate 32 7).
Definition Disk : Type := gmap str bytes * option str.
Definition put (p : str) (b : bytes) (w : Disk) : bool * Disk := (true, (<[p := b]> w.1, w.2)).
Definition sample_system : System Disk := {|
  get_password w := w.2;
  set_password x w := (true, (w.1, Some x));
  exists_file w p := is_some (w.1 !! p);
  read_to_string w p := ok_or (b ← w.1 !! p; from_utf8 b) [];
  create_new p := put p [];
  write_all p b := put p b;
  sync_all _ w := (true, w);
  rename p q w := match w.1 !! p with Some b => (true, (<[q := b]> (delete p w.1), w.2)) | None => (false, w) end;
  remove_file p w := (delete p w.1, w.2);
  write_file p b := put p b;
  set_permissions _ w := (true, w);
|}.

#[export] Instance sample_serde_laws : SerdeLaws sample_serde.
Proof.
  assert (O : forall A `{EqDecision A} (x y : A) t s, only x t y = Ok s -> y = x /\ s = u t).
  { intros A ? x y t s. unfold only. case_bool_decide; [|discriminate]. by intros [= <-]. }
  split.
  - intros s v [-> ->]%O. exists (u "S"), []. split_and!; vm_compute; reflexivity.
  - intros f t [-> ->]%O. split_and!; [by repeat constructor|vm_compute; reflexivity|discriminate|].
    exists [(u "data", JNull)]. split_and!; vm_compute; reflexivity.
  - intros f t [-> ->]%O. split_and!; [by repeat constructor|vm_compute; reflexivity|discriminate|].
    exists [(u "connections", JNull)]. split_and!; vm_compute; reflexivity.
  - by intros f t [-> ->]%O.
Qed.
#[export] Instance sample_cipher_laws : CipherLaws sample_cipher.
Proof. split; [by intros k n p c [= ->]|done]. Qed.
#[export] Instance sample_system_laws : SystemLaws sample_system (fun w p => w.1 !! p) snd.
Proof.
  split; cbn; unfold put.
  - done.
  - by intros x w ok w' [= <- <-].
  - done.
  - intros w p b t -> E. cbn. by rewrite E.
  - intros p w ok w' [= <- <-]. cbn. split_and!; [done| |by rewrite lookup_insert_eq]. intros q N. by rewrite lookup_insert_ne.
  - intros p b w ok w' [= <- <-]. cbn. split_and!; [done| |by rewrite lookup_insert_eq]. intros q N. by rewrite lookup_insert_ne.
  - by intros p w ok w' [= <- <-].
  - intros p q w ok w'. destruct (w.1 !! p) eqn:E; intros [= <- <-]; cbn; [|done]. split; [done|]. intros _. by rewrite lookup_insert_eq.
  - intros p w. split; [done|]. intros q N. by rewrite lookup_delete_ne.
  - intros p b w ok w' [= <- <-]. cbn. split; [done|]. intros _. by rewrite lookup_insert_eq.
  - by intros p w ok w' [= <- <-].
Qed.

Lemma saved_connections_survive_witness : exists w',
  save_connection_storage_to_file sample_serde sample_cipher sample_system sample_draws (u "p") sample_storage (∅, None) = (Ok tt, w') /\
  load_connection_storage sample_serde sample_cipher sample_system sample_draws (u "p") (u "t") w' = (Ok sample_storage, w').
Proof.
  destruct (save_connection_storage_to_file sample_serde sample_cipher sample_system sample_draws (u "p") sample_storage (∅, None))
    as [r w'] eqn:E.
  assert (R : r = Ok tt) by (apply (f_equal fst) in E; cbn [fst] in E; rewrite <- E; vm_compute; reflexivity). subst r.
  exists w'. split; [reflexivity|].
  apply (proj1 (saved_connections_survive sample_serde sample_cipher sample_system (fun w p => w.1 !! p) snd sample_draws (u "p") sample_storage
    (∅, None) w' (conj eq_refl eq_refl))). exact E.
Defined.
Lemma export_import_roundtrip_witness : exists content merged,
  export_connection_storage_encrypted_json sample_serde sample_cipher [1] zeros sample_storage (u "pw") = Ok content /\
  import_encrypted_connection_storage_json sample_serde sample_cipher (fun i => [Z.of_nat i]) empty_storage content (u "pw") =
    Ok ((1, 1), merged) /\ length (sg_connections merged) = 1%nat.
Proof.
  assert (E : export_connection_storage_encrypted_json sample_serde sample_cipher [1] zeros sample_storage (u "pw") = Ok (u "E"))
    by (vm_compute; reflexivity).
  destruct (export_import_roundtrip sample_serde sample_cipher [1] zeros sample_storage (u "pw") (u "E") (fun i => [Z.of_nat i]) empty_storage
    eq_refl E) as (merged & I & (added & A & L & _) & _).
  exists (u "E"), merged. split; [exact E|]. split; [exact I|]. rewrite A. exact L.
Defined.
End ConnectionStore.
