(* ===== verification/SqliteExecution.v ===== *)
(** Preparing and executing a task between two SQLite files ([paths],
    [prepare_sqlite], [flush], [write_kind], [execute_transaction] and
    [execute_sqlite] of src-tauri/src/db/data_tasks/executor.rs) over the
    driver of SqliteAdapter, and what it guarantees about the target file. *)
From S2P Require Import Prelude RustText DataTypes Registry MetaTypes Values Spool SpoolSort TypeMapping Metadata Plan Batch Executor Execution SqlDialect SqliteAdapter.
Import DataTypes MetaTypes Values Spool SpoolSort TypeMapping Metadata Plan Batch Executor Execution SqlDialect SqliteAdapter.

Module SqliteExecution.

(** The fields of [ConnectionConfig] that the executor reads, with its
    fingerprint. *)
Record Config : Type := mkConfig {
  cf_database_type : DatabaseType;
  cf_sqlite_path : option str;
  cf_read_only : option bool;
  cf_fingerprint : str;
}.

(** [checked_add] and [checked_mul] of [usize]. *)
Definition checked_add (a b : Z) : option Z := if a + b <=? usize_max then Some (a + b) else None.
Definition overflow : str := u "resource_limit: SQLite 参数内存预算溢出".

Section Tasks.
Context {W : Type} (env : Environment W).
Context (write : Rows -> result Rows str) (layout : Layout) (b : ResourceBudget) (sha256_hex : bytes -> str).
(** [std::fs]: the readonly flag of a file's permissions, the canonical path,
    and [same_file]. *)
Context (readonly : str -> option bool) (canonicalize : str -> option str) (is_same_file : str -> str -> option bool).

Definition paths (request : DataTaskRequest) (source target : Config) : result (str * str) str :=
  if negb (is_db (cf_database_type source) Sqlite) || negb (is_db (cf_database_type target) Sqlite)
  then Err (u "unsupported_capability: 此有向数据库组合尚未通过完整数据任务验收")
  else if negb (str_eqb (ep_database (rq_source request)) (u "main")) || negb (str_eqb (ep_database (rq_target request)) (u "main"))
  then Err (u "unsupported_capability: SQLite 数据任务仅支持 main 数据库")
  else if default false (cf_read_only target) then Err (u "read_only_target: 目标连接为只读")
  else
    let? source_path := ok_or (cf_sqlite_path source) (u "invalid_mapping: 缺少 SQLite 源文件") in
    let? target_path := ok_or (cf_sqlite_path target) (u "invalid_mapping: 缺少 SQLite 目标文件") in
    let? r := ok_or (readonly target_path) (u "invalid_mapping: 无法读取目标文件") in
    if r : bool then Err (u "read_only_target: 目标文件为只读")
    else
      check? resolve_endpoints canonicalize is_same_file request
        (mkIdentity Sqlite None (u "main") (Some source_path)) (mkIdentity Sqlite None (u "main") (Some target_path)) in
      Ok (source_path, target_path).

Definition load_metadata (c : Connection W) (config : Config) : M W DataMetadataSnapshot :=
  call (fun w =>
    let '(r, w) := sqlite_load_metadata sha256_hex c w in
    (let? m := r in
     Ok (mkMetadata Sqlite m.1 (default false (cf_read_only config)) true true true m.2 (cf_fingerprint config)), w)).

(** ** Snapshots *)

(** The state of [sqlite::stream_rows]'s caller: what was pushed to the writer. *)
Definition streaming {A} (c : Connection W) (projections : list Projection) (push : CanonicalRow -> A -> M W A) (start : A) : M W A :=
  fun s =>
  let '(r, (acc, s)) := SqliteAdapter.stream_rows c (fun st => s_world st.2) (fun w st => (st.1, mkState w (s_progress st.2)))
      (fun st => e_cancelled env (s_world st.2))
      (fun row st => match push row st.1 st.2 with (Ok acc, s) => (Ok tt, (acc, s)) | (Err e, s) => (Err e, (st.1, s)) end)
      projections (start, s) in
  (let? _ := r in Ok acc, s).
Definition snapshot (c : Connection W) (projections : list Projection) : M W Rows :=
  do! rows := streaming c projections (fun row acc =>
    run! checked env in
    run! modify (fun p => set_bytes (set_read p (wrap64 (p_read p + 1))) (sat_add (p_bytes p) (encoded_size row))) in
    run! emit env Reading false in
    mret (acc ++ [row])) [] in
  lift (write rows).

(** ** Writing *)

(** On failure the leases of the caller end. *)
Definition guarded {A} (leases : list Z) (m : M W A) : M W A := fun s =>
  match m s with
  | (Ok x, s) => (Ok x, s)
  | (Err e, s) => (Err e, mkState (e_set_counters env (drop_leases leases (e_counters env (s_world s))) (s_world s)) (s_progress s))
  end.
Definition drop_held (leases : list Z) : M W unit := fun s =>
  (Ok tt, mkState (e_set_counters env (drop_leases leases (e_counters env (s_world s))) (s_world s)) (s_progress s)).
Definition reserve_held (n : Z) : M W unit := call (fun w =>
  match reserve_memory b n (e_counters env w) with Ok c => (Ok tt, e_set_counters env c w) | Err e => (Err e, w) end).

Definition flush (c : Connection W) (tm : ValidatedTableMapping) (kind : DataDiffOperation) (rows : list (list DataValue)) : M W unit :=
  if is_empty rows then mret tt
  else
    run! checked env in
    do! expanded := lift (fold_left (fun total row => let? t := total in ok_or (checked_add t (parameter_memory layout row tm kind)) overflow)
                            rows (Ok 0)) in
    do! binding_bytes := lift (ok_or (n ← checked_mul expanded 2; checked_add n (1024 * 1024)) overflow) in
    run! reserve_held binding_bytes in
    release env binding_bytes
      (do! batch := lift (build_batch DSqlite (u "main") (vt_target_table tm) (vt_target_columns tm) (vt_key_indices tm) kind rows) in
       do! vs := lift (traverse bind_value (wb_params batch)) in
       do! affected := call (fun w => let '(n, w) := execute c (wb_sql batch) vs w in
                                      (ok_or n (u "批量写入失败：目标约束、值类型或权限不允许本次操作"), w)) in
       if negb (affected =? zlen rows) then mfail (u "validation_failed: 批量写入影响行数与计划不一致")
       else
         run! modify (fun p => set_written p (wrap64 (p_written p + zlen rows))) in
         run! emit env Executing false in
         checked env).

(** What a table has gathered since its last flush: rows, leases, bytes. *)
Definition Gathered : Type := list (list DataValue) * list Z * Z.
Fixpoint gather (c : Connection W) (tm : ValidatedTableMapping) (kind : DataDiffOperation) (limit : Z) (ops : Rows) (g : Gathered) :
  M W Gathered :=
  match ops with
  | [] => mret g
  | row :: ops =>
    let '(rows, leases, bytes) := g in
    run! guarded leases (checked env) in
    if negb (str_eqb (table row) (vt_target_table tm)) then gather c tm kind limit ops g
    else
      do! op := guarded leases (lift (from_row row)) in
      if negb (kind_eqb (op_kind op) kind) then gather c tm kind limit ops g
      else
        do! data := guarded leases (lift (ok_or (if kind_eqb kind Delete then op_old op else op_new op) (u "计划操作缺少类型化数据"))) in
        let size := parameter_memory layout (values data) tm kind in
        if memory_bytes b / 2 <? sat_mul size 2
        then guarded leases (mfail (u "resource_limit: 单行展开参数超过 SQLite 共享内存预算"))
        else
          do! g := (if negb (is_empty rows) && ((limit <=? zlen rows) || (batch_bytes <? sat_add bytes size))
                    then run! guarded leases (flush c tm kind rows) in run! drop_held leases in mret ([], [], 0)
                    else mret g) in
          let '(rows, leases, bytes) := g in
          let n := row_memory layout data in
          run! guarded leases (reserve_held n) in
          gather c tm kind limit ops (rows ++ [values data], leases ++ [n], wrap64 (bytes + size))
  end.

Fixpoint write_tables (c : Connection W) (plan : StoredDataPlan) (kind : DataDiffOperation) (order : list str) : M W unit :=
  match order with
  | [] => mret tt
  | tb :: order =>
    run! checked env in
    do! tm := lift (ok_or (find_first (fun m => str_eqb (vt_target_table m) tb) (vm_tables (sp_mapping plan))) (u "计划表不存在")) in
    let count := parameters_per_row (zlen (vt_target_columns tm)) (zlen (vt_key_indices tm)) kind in
    if count =? 0 then write_tables c plan kind order
    else
      let limit := Z.min 500 (parameter_limit DSqlite / count) in
      if limit =? 0 then mfail (u "resource_limit: 单行超过 SQLite 参数预算")
      else
        do! g := gather c tm kind limit (sp_operations plan) ([], [], 0) in
        run! guarded g.1.2 (flush c tm kind g.1.1) in
        run! drop_held g.1.2 in
        write_tables c plan kind order
  end.
Definition write_kind (c : Connection W) (plan : StoredDataPlan) (kind : DataDiffOperation) : M W unit :=
  write_tables c plan kind (order_of (sp_mapping plan) kind).

Fixpoint delete_all_rows (c : Connection W) (tables : list str) : M W unit :=
  match tables with
  | [] => mret tt
  | t :: tables =>
    run! checked env in
    do! n := call (fun w => let '(n, w) := execute c (u "DELETE FROM main." ++ sqlite_identifier t) [] w in
                            (ok_or n (u "删除目标原有行失败"), w)) in
    run! modify (fun p => set_written p (wrap64 (p_written p + n))) in
    delete_all_rows c tables
  end.

(** ** The transaction *)

(** A snapshot, sorted, compared with a stored spool. *)
Definition resort (rows : Rows) : M W SortedSpool := fun s =>
  (external_sort write layout b sha256_hex (e_counters env (s_world s)) rows, s).

Definition execute_transaction (c : Connection W) (plan : StoredDataPlan) (target : Config) : M W unit :=
  run! checked env in
  do! current := load_metadata c target in
  if negb (str_eqb (md_schema_fingerprint current) (md_schema_fingerprint (sp_target_metadata plan)))
  then mfail (u "plan_stale: 目标结构已变化，请重新预览")
  else
    run! lift (validate_mapping (sp_request plan) (sp_source_metadata plan) current) in
    do! full := lift (full_projections (sp_mapping plan) current) in
    do! reread := snapshot c full in
    do! reread := resort reread in
    do! same := equal_sorted env reread (sp_target_full plan) in
    if negb same then mfail (u "plan_stale: 目标内容已变化，请重新预览")
    else
      run! emit env Executing true in
      run! (if is_mode (rq_mode (sp_request plan)) Replace
            then delete_all_rows c (vm_delete_order (sp_mapping plan))
            else write_kind c plan Delete) in
      run! write_kind c plan Update in
      run! write_kind c plan Insert in
      run! emit env Verifying true in
      run! checked env in
      do! final_rows := snapshot c (projections (sp_mapping plan) false) in
      run! modify (fun p => set_verified p (zlen final_rows)) in
      do! final_rows := resort final_rows in
      do! equal := equal_sorted env final_rows (sp_expected plan) in
      if negb equal then mfail (u "validation_failed: 事务内最终集合校验不一致，已拒绝提交") else checked env.

(** ** The task *)

(** [sqlite::open]: the file opened with its flags, the busy timeout, the
    cancellation handler and the foreign keys. *)
Context (open_with_flags : str -> bool -> W -> option (Connection W) * W) (set_busy_timeout set_progress_handler : Connection W -> W -> bool * W).
Definition open (path : str) (writable : bool) : M W (Connection W) :=
  do! c := call (fun w => let '(c, w) := open_with_flags path writable w in (ok_or c db_error, w)) in
  let step (f : W -> bool * W) := call (fun w => let '(ok, w) := f w in (if ok then Ok tt else Err db_error, w)) in
  run! step (set_busy_timeout c) in
  run! step (set_progress_handler c) in
  run! step (execute_batch c (u "PRAGMA foreign_keys = ON")) in
  mret c.

Definition sqlite_preflight (plan : StoredDataPlan) (source_config target_config : Config) : M W (Connection W) :=
  run! checked env in
  do! w := get_world in
  if negb (is_some_and (fun e => e_now_ms env w <? e) (parse_u64 (pv_expires_at (sp_preview plan))))
  then mfail (u "plan_expired: 预览已过期，请重新预览")
  else if negb (str_eqb (cf_fingerprint source_config) (md_configuration_fingerprint (sp_source_metadata plan)))
          || negb (str_eqb (cf_fingerprint target_config) (md_configuration_fingerprint (sp_target_metadata plan)))
  then mfail (u "plan_stale: 已保存连接配置发生变化")
  else
    do! p := lift (paths (sp_request plan) source_config target_config) in
    do! source := open p.1 false in
    do! metadata := load_metadata source source_config in
    if negb (str_eqb (md_schema_fingerprint metadata) (md_schema_fingerprint (sp_source_metadata plan)))
    then mfail (u "plan_stale: 源结构已变化，请重新预览")
    else open p.2 true.

(** [table.counts.written = inserts + updates + deletes] *)
Definition written_counts (t : DataTablePreview) : DataTablePreview :=
  let n s := default 0 (parse_u64 s) in
  let c := tp_counts t in
  mkTablePreview (tp_table_id t) (tp_source_table t) (tp_target_table t)
    (DataTypes.mkCounts (ct_source_rows c) (ct_target_rows c) (ct_inserted c) (ct_updated c) (ct_deleted c) (ct_unchanged c) (ct_retained c)
       (show_Z (wrap64 (wrap64 (n (ct_inserted c) + n (ct_updated c)) + n (ct_deleted c)))) (ct_verified c)).

(** The task's handler calls a batch in the world of a state. *)
Definition run_batch (c : Connection W) (sql : str) (s : State W) : bool * State W :=
  let '(ok, w) := execute_batch c sql (s_world s) in (ok, mkState w (s_progress s)).
Definition clear_handler (c : Connection W) (s : State W) : State W :=
  mkState (clear_progress_handler c (s_world s)).2 (s_progress s).

Definition failed_or_cancelled (cancelled : bool) : DataTaskStatus := if cancelled then Cancelled else Failed.
(** [execute_transaction] failed. *)
Definition roll_back_failure (c : Connection W) (plan : StoredDataPlan) (message : str) (s : State W) : DataTaskResult * State W :=
  let s := clear_handler c s in
  let e := if e_cancelled env (s_world s) then new_error "cancelled" "数据任务已取消，目标事务正在回滚" else error message in
  match run_batch c (u "ROLLBACK") s with
  | (true, s) =>
    (failed_result plan (failed_or_cancelled (str_eqb (err_code e) (u "cancelled"))) CsRolledBack (Some e) [] false, s)
  | (false, s) =>
    (failed_result plan OutcomeUnknown CsUnknown (Some e) [u "目标事务回滚未得到确认，需要核对目标状态"] true, s)
  end.
(** Cancelled before the commit. *)
Definition roll_back_cancelled (c : Connection W) (plan : StoredDataPlan) (s : State W) : DataTaskResult * State W :=
  match run_batch c (u "ROLLBACK") (clear_handler c s) with
  | (true, s) =>
    (failed_result plan Cancelled CsRolledBack (Some (new_error "cancelled" "数据任务已取消，目标事务已回滚")) [] false, s)
  | (false, s) => (failed_result plan OutcomeUnknown CsUnknown None [] true, s)
  end.
(** The commit failed. *)
Definition commit_failure (c : Connection W) (plan : StoredDataPlan) (s : State W) : DataTaskResult * State W :=
  let s := clear_handler c s in
  let '(rolled_back, s) := if is_autocommit c (s_world s) then (false, s) else run_batch c (u "ROLLBACK") s in
  if rolled_back
  then (failed_result plan Failed CsRolledBack (Some (new_error "database_error" "提交失败，目标事务已回滚")) [] false, s)
  else (failed_result plan OutcomeUnknown CsUnknown
          (Some (new_error "outcome_unknown" "提交结果无法确认，请核对目标；不会自动重放")) [] true, s).

Definition execute_sqlite (plan : StoredDataPlan) (source_config target_config : Config) (w : W) : DataTaskResult * State W :=
  match sqlite_preflight plan source_config target_config (mkState w (new_progress env w)) with
  | (Err message, s) =>
    let e := error message in
    (failed_result plan (failed_or_cancelled (str_eqb (err_code e) (u "cancelled"))) CsNone (Some e) [] false, s)
  | (Ok c, s) =>
    match run_batch c (u "BEGIN IMMEDIATE") s with
    | (false, s) =>
      let cancelled := e_cancelled env (s_world s) in
      (failed_result plan (failed_or_cancelled cancelled) CsNone
         (Some (mkError (if cancelled then u "cancelled" else u "lock_timeout") (u "无法在 10 秒内锁定目标数据库"))) [] false, s)
    | (true, s) =>
      match execute_transaction c plan target_config s with
      | (Err message, s) => roll_back_failure c plan message s
      | (Ok _, s) =>
        let '(_, s) := emit env Committing true s in
        if e_cancelled env (s_world s) then roll_back_cancelled c plan s
        else
          match run_batch c (u "COMMIT") s with
          | (true, s) =>
            let '(_, s) := emit env Succeeded true s in
            (mkResult Succeeded CsCommitted (map written_counts (pv_tables (sp_preview plan))) None [] true, s)
          | (false, s) => commit_failure c plan s
          end
      end
    end
  end.

(** ** Preparing *)

Context (write_operations : Rows -> result Rows str) (counters : nat -> Counters)
  (encode_mapping : ValidatedMapping -> option bytes) (encode_fingerprint : FingerprintInput -> option bytes)
  (plan_id : str) (escapes : char -> bool).

(** Both snapshots of the target in one pass. *)
Definition snapshot_both (c : Connection W) (full projected : list Projection) : M W (Rows * Rows) :=
  do! x := streaming c full (fun row acc =>
    run! checked env in
    do! index := lift (ok_or (position (fun p => str_eqb (pj_output_table p) (table row)) full) (u "目标快照表不存在")) in
    do! f := lift (ok_or (full !! index) panic_index) in
    do! p := lift (ok_or (projected !! index) panic_index) in
    do! projection := lift (projected_row row f p) in
    run! modify (fun p => set_bytes (set_read p (wrap64 (p_read p + 1))) (sat_add (p_bytes p) (encoded_size row))) in
    run! emit env Reading false in
    mret (acc.1 ++ [row], acc.2 ++ [projection])) ([], []) in
  do! target_rows := lift (write x.2) in
  do! target_full := lift (write x.1) in
  mret (target_rows, target_full).

Definition batch_or (c : Connection W) (sql e : str) : M W unit :=
  call (fun w => let '(ok, w) := execute_batch c sql w in (if ok then Ok tt else Err e, w)).

Definition prepare_sqlite (task_id : str) (request : DataTaskRequest) (source_config target_config : Config) : M W StoredDataPlan :=
  run! lift (map_err (fun e => err_code e ++ u ": " ++ err_message e) (validate request)) in
  run! checked env in
  run! emit env Validating true in
  do! p := lift (paths request source_config target_config) in
  do! source := open p.1 false in
  do! target := open p.2 true in
  run! batch_or source (u "BEGIN DEFERRED") (u "无法建立 SQLite 源一致读取事务") in
  run! batch_or target (u "BEGIN DEFERRED") (u "无法建立 SQLite 目标一致读取事务") in
  do! source_metadata := load_metadata source source_config in
  do! target_metadata := load_metadata target target_config in
  do! mapping := lift (validate_mapping request source_metadata target_metadata) in
  do! source_rows := snapshot source (projections mapping true) in
  do! w := get_world in
  let source_captured := e_now_ms env w in
  do! full := lift (full_projections mapping target_metadata) in
  do! x := snapshot_both target full (projections mapping false) in
  do! w := get_world in
  let target_captured := e_now_ms env w in
  run! batch_or source (u "ROLLBACK") (u "无法释放 SQLite 源读取事务") in
  run! batch_or target (u "ROLLBACK") (u "无法释放 SQLite 目标读取事务") in
  run! checked env in
  run! emit env Comparing true in
  do! w := get_world in
  do! plan := lift (build_plan write write_operations layout b counters sha256_hex encode_mapping encode_fingerprint plan_id
                      (e_now_ms env w) escapes task_id request mapping source_metadata target_metadata
                      (mkCaptured source_rows source_captured) (mkCaptured x.1 target_captured) (mkCaptured x.2 target_captured)) in
  run! checked env in
  run! emit env Ready true in
  mret plan.
End Tasks.

(** ** Specification: the files *)

(** Opening files and preparing connections changes no file, and a file opened
    for writing obeys the laws of SQLite; one opened for reading is only read. *)
Class Files {W D : Type} (db work : W -> D) (is_open : W -> bool) (answers : D -> str -> list (list ValueRef))
  (open_with_flags : str -> bool -> W -> option (Connection W) * W)
  (set_busy_timeout set_progress_handler : Connection W -> W -> bool * W) : Prop := {
  fi_open path writable w c w' : open_with_flags path writable w = (c, w') -> db w' = db w;
  fi_busy c : keeps db (set_busy_timeout c);
  fi_handler c : keeps db (set_progress_handler c);
  fi_pragma path writable w c w' : open_with_flags path writable w = (Some c, w') ->
    keeps db (execute_batch c (u "PRAGMA foreign_keys = ON"));
  fi_target path w c w' : open_with_flags path true w = (Some c, w') -> SqliteLaws db work is_open answers c;
  fi_source path w c w' : open_with_flags path false w = (Some c, w') -> forall sql, keeps db (query c sql);
}.

(** ** Proofs *)

Section Guarantee.
Context {W D : Type} (env : Environment W) (db work : W -> D) (is_open : W -> bool) (answers : D -> str -> list (list ValueRef)).
Context (write : Rows -> result Rows str) `{!SpoolStore write} (layout : Layout) (b : ResourceBudget) (sha256_hex : bytes -> str).
Context `{!Neutral env db work is_open}.
Abbreviation obs := (observed db work is_open) (only parsing).
Abbreviation content := (sqlite_content answers) (only parsing).

Section Connected.
Context (c : Connection W) `{!SqliteLaws db work is_open answers c}.

Lemma streaming_gathers {A} ps (push : CanonicalRow -> A -> M W A) (g : A -> Rows) start s r s' :
  (forall row acc s r s', push row acc s = (r, s') -> obs (s_world s') = obs (s_world s) /\ forall acc', r = Ok acc' -> g acc' = g acc ++ [row]) ->
  is_open (s_world s) = true -> streaming env c ps push start s = (r, s') ->
  obs (s_world s') = obs (s_world s) /\
  forall acc, r = Ok acc -> exists l, g acc = g start ++ l /\ Forall (row_of ps) l /\ l ≡ₚ content (work (s_world s)) ps.
Proof.
  intros P O. unfold streaming. destruct (SqliteAdapter.stream_rows _ _ _ _ _ _ _) as [x [acc s1]] eqn:L. intros [= <- <-].
  eapply (stream_rows_gathers db work is_open answers c _ _ _ _ (fun st => g st.1)) in L; [|done|done| |exact _|done].
  - cbn [fst snd] in L. destruct L as (E & l & G & F & C). split; [done|]. intros acc' Hr. destruct x as [n|]; [|discriminate].
    injection Hr as <-. exists l. split_and!; [done|done|by eapply C].
  - intros row [acc0 s0] y st'. cbn [fst snd]. destruct (push row acc0 s0) as [z s2] eqn:Pu.
    destruct (P _ _ _ _ _ Pu) as [E G]. destruct z as [acc1|e]; intros [= <- <-]; cbn [fst snd is_ok].
    + split; [done|by apply G].
    + split; [done|by rewrite app_nil_r].
Qed.

Lemma push_row_gathers row acc (s : State W) r s' :
  (run! checked env in
   run! modify (fun p => set_bytes (set_read p (wrap64 (p_read p + 1))) (sat_add (p_bytes p) (encoded_size row))) in
   run! emit env Reading false in mret (acc ++ [row])) s = (r, s') ->
  obs (s_world s') = obs (s_world s) /\ forall acc', r = Ok acc' -> acc' = acc ++ [row].
Proof.
  intros H. split.
  - pose proof (keeps_emit obs env (obs_callback env db work is_open) Reading false).
    match type of H with ?m s = _ => assert (K : Keeps obs m) by apply _ end. exact (K _ _ _ H).
  - intros acc' ->. do 3 (apply mbind_ok in H as (? & ? & _ & H)). by injection H as <- _.
Qed.

Lemma snapshot_reads ps s r s' : is_open (s_world s) = true -> snapshot env write c ps s = (r, s') ->
  obs (s_world s') = obs (s_world s) /\
  forall rows, r = Ok rows -> Forall fits ps -> Forall stored rows /\ rows ≡ₚ map norm_row (content (work (s_world s)) ps).
Proof.
  intros O H. unfold snapshot in H. unfold mbind in H. destruct (streaming _ _ _ _ _ _) as [x s1] eqn:S.
  pose proof (streaming_gathers ps _ (fun acc => acc) [] s x s1 (fun row acc s r s' => push_row_gathers row acc s r s') O S) as [E G].
  destruct x as [raw|e].
  - unfold lift in H. injection H as <- <-. split; [done|]. intros rows Hw Ff. destruct (G raw eq_refl) as (l & -> & Fl & P). cbn [app] in Hw.
    assert (Fs : Forall streamed l) by (eapply list.Forall_impl; [exact Fl|]; intros x0; by apply row_of_streamed).
    rewrite (write_reads l rows) by (done || (eapply list.Forall_impl; [exact Fs|]; by intros x0 [])). split.
    + apply list.Forall_forall. intros r0 (r1 & -> & Hx)%list_elem_of_fmap. rewrite list.Forall_forall in Fs. by apply streamed_stored, Fs.
    + by rewrite P.
  - injection H as <- <-. split; [done|discriminate].
Qed.
Lemma sqlite_snapshot_inside ps : Inside db is_open (snapshot env write c ps).
Proof.
  intros s r s' O H. apply snapshot_reads in H as [E _]; [|done]. injection E as E1 _ E2. split; [done|]. intros. congruence.
Qed.

Lemma load_metadata_keeps config : Keeps obs (load_metadata sha256_hex c config).
Proof.
  apply keeps_call. intros w r w'. destruct (sqlite_load_metadata sha256_hex c w) as [x w1] eqn:L. intros [= _ <-].
  by apply (load_metadata_obs db work is_open answers) in L.
Qed.

#[export] Instance resort_keeps rows : Keeps obs (resort env write layout b sha256_hex rows).
Proof. by intros s r s' [= _ <-]. Qed.

(** *** Writing stays inside the transaction *)

Lemma counters_keeps {A} (f : State W -> result A str) (g : State W -> Counters) :
  Keeps obs (fun s => (f s, mkState (e_set_counters env (g s) (s_world s)) (s_progress s))).
Proof. intros s r s' [= _ <-]. apply (neutral_counters env db work is_open). Qed.
#[export] Instance drop_held_inside leases : Inside db is_open (drop_held env leases).
Proof. apply (inside_keeps db work is_open), (counters_keeps (fun _ => Ok tt)). Qed.
#[export] Instance reserve_held_inside n : Inside db is_open (reserve_held env b n).
Proof.
  apply (inside_keeps db work is_open), keeps_call. intros w r w'. destruct (reserve_memory b n _); intros [= _ <-]; [|done].
  apply (neutral_counters env db work is_open).
Qed.
#[export] Instance guarded_inside {A} leases (m : M W A) : Inside db is_open m -> Inside db is_open (guarded env leases m).
Proof.
  intros I s r s' O. unfold guarded. destruct (m s) as [[x|e] s1] eqn:E; intros [= <- <-].
  - by eapply I.
  - destruct (I _ _ _ O E) as [E1 _]. split; [|discriminate]. cbn [s_world].
    pose proof (neutral_counters env db work is_open (drop_leases leases (e_counters env (s_world s1))) (s_world s1)) as X.
    injection X as X _ _. congruence.
Qed.
#[export] Instance execute_inside sql vs e : Inside db is_open (call (fun w => let '(n, w) := execute c sql vs w in (ok_or n e, w))).
Proof.
  apply inside_call. intros w r w' O. destruct (execute c sql vs w) as [n w1] eqn:E. intros [= <- <-].
  apply (sl_execute db work is_open answers) in E as [E1 E2]; [|done]. split; [done|]. intros y Hy. apply E2. destruct n; [discriminate|discriminate Hy].
Qed.

#[export] Instance flush_inside tm kind rows : Inside db is_open (flush env layout b c tm kind rows).
Proof.
  unfold flush. apply inside_if; [apply _|]. apply inside_bind; [apply _|]. intros _. apply inside_bind; [apply _|]. intros n.
  apply inside_bind; [apply _|]. intros m. apply inside_bind; [apply _|]. intros _. apply (inside_release env db work is_open). apply _.
Qed.
#[export] Instance gather_inside tm kind limit ops g : Inside db is_open (gather env layout b c tm kind limit ops g).
Proof.
  revert g. induction ops as [|row ops IH]; intros [[rows leases] bytes]; cbn [gather]; [apply _|].
  apply inside_bind; [apply _|]. intros _. apply inside_if; [apply IH|]. apply inside_bind; [apply _|]. intros op.
  apply inside_if; [apply IH|]. apply inside_bind; [apply _|]. intros data. apply inside_if; [apply _|].
  apply inside_bind; [apply _|]. intros [[rows' leases'] bytes']. apply inside_bind; [apply _|]. intros _. apply IH.
Qed.
#[export] Instance write_tables_inside plan kind order : Inside db is_open (write_tables env layout b c plan kind order).
Proof. induction order as [|tb order IH]; cbn [write_tables]; [apply _|]. apply _. Qed.
#[export] Instance delete_inside tables : Inside db is_open (delete_all_rows env c tables).
Proof. induction tables as [|t tables IH]; cbn [delete_all_rows]; apply _. Qed.
End Connected.

Lemma resort_equal rows expected n s s1 s' : Forall stored rows -> Forall stored (spool expected) ->
  resort env write layout b sha256_hex rows s = (Ok n, s1) -> equal_sorted env n expected s1 = (Ok true, s') -> rows ≡ₚ spool expected.
Proof.
  intros Fr Fe R Q. unfold resort in R. injection R as R _. apply external_sort_ok in R as (_ & P & F & _); [|done|done].
  unfold equal_sorted in Q. case_match; [done|]. apply equal_rows_ok in Q; [|done|done]. by rewrite <- P, Q.
Qed.
#[export] Instance equal_sorted_keeps {P} (o : W -> P) x y : Keeps o (equal_sorted env x y).
Proof. unfold equal_sorted. apply keeps_if; [apply _|apply keeps_equal_rows]. Qed.

(** A snapshot found equal to a stored spool. *)
Lemma compared_sqlite c ps expected rows n (s s1 s2 s3 s4 : State W) : SqliteLaws db work is_open answers c ->
  is_open (s_world s) = true -> Forall fits ps -> Forall stored (spool expected) ->
  snapshot env write c ps s = (Ok rows, s1) -> obs (s_world s2) = obs (s_world s1) ->
  resort env write layout b sha256_hex rows s2 = (Ok n, s3) -> equal_sorted env n expected s3 = (Ok true, s4) ->
  map norm_row (content (work (s_world s)) ps) ≡ₚ spool expected /\ obs (s_world s4) = obs (s_world s).
Proof.
  intros L O Fp Fe Sn E R Q. apply (snapshot_reads c) in Sn as [E1 G]; [|done]. destruct (G rows eq_refl Fp) as [Fr P]. split.
  - rewrite <- P. by eapply resort_equal.
  - rewrite (equal_sorted_keeps obs _ _ _ _ _ Q). injection R as _ <-. congruence.
Qed.

(** The writes between the two comparisons. *)
Definition sqlite_writes c plan : M W unit :=
  run! emit env Executing true in
  run! (if is_mode (rq_mode (sp_request plan)) Replace
        then delete_all_rows env c (vm_delete_order (sp_mapping plan))
        else write_kind env layout b c plan Delete) in
  run! write_kind env layout b c plan Update in
  run! write_kind env layout b c plan Insert in
  run! emit env Verifying true in checked env.
Lemma sqlite_writes_inside c plan : SqliteLaws db work is_open answers c -> Inside db is_open (sqlite_writes c plan).
Proof. intros L. unfold sqlite_writes, write_kind. apply _. Qed.

Lemma sqlite_transaction_inside c plan config : SqliteLaws db work is_open answers c ->
  Inside db is_open (execute_transaction env write layout b sha256_hex c plan config).
Proof.
  intros L. unfold execute_transaction, write_kind.
  pose proof (inside_keeps db work is_open _ (load_metadata_keeps c config)).
  pose proof (sqlite_snapshot_inside c).
  pose proof (fun rows => inside_keeps db work is_open _ (resort_keeps rows)).
  pose proof (fun x y => inside_keeps db work is_open _ (equal_sorted_keeps obs x y)).
  apply _.
Qed.

Lemma sqlite_transaction_ok c plan config s s' x : SqliteLaws db work is_open answers c -> is_open (s_world s) = true ->
  plan_fits plan -> Forall stored (spool (sp_expected plan)) -> Forall stored (spool (sp_target_full plan)) ->
  execute_transaction env write layout b sha256_hex c plan config s = (Ok x, s') ->
  previewed content plan (work (s_world s)) /\ delivered content plan (work (s_world s')).
Proof.
  intros L O Fp Fe Ff H. unfold execute_transaction in H.
  apply mbind_ok in H as (? & s1 & C & H). apply checked_ok in C. subst s1.
  apply mbind_ok in H as (current & s2 & Md & H). apply (load_metadata_keeps c config) in Md. injection Md as _ L2 L3.
  destruct (str_eqb _ _) eqn:Ef; [apply str_eqb_eq in Ef|discriminate]. cbn [negb] in H.
  apply mbind_ok in H as (? & s5 & [_ ->]%lift_ok & H).
  apply mbind_ok in H as (full & s7 & [Hf ->]%lift_ok & H). apply mbind_ok in H as (reread & s8 & Sn & H).
  apply mbind_ok in H as (sorted & s9 & R & H). apply mbind_ok in H as (same & s10 & Cp & H). destruct same; [|discriminate]. cbn [negb] in H.
  rewrite O in L3.
  destruct (compared_sqlite c full (sp_target_full plan) reread sorted _ _ _ _ _ L L3 (full_fits _ _ _ Hf Fp) Ff Sn eq_refl R Cp) as [P B].
  rewrite L2 in P. split; [by exists current, full|]. injection B as _ _ O9. rewrite L3 in O9.
  clear Sn Cp R P Hf L2 L3 Ef full reread sorted.
  assert (Q : exists s11, sqlite_writes c plan s10 = (Ok tt, s11) /\
    (do! final_rows := snapshot env write c (projections (sp_mapping plan) false) in
     run! modify (fun p => set_verified p (zlen final_rows)) in
     do! final_rows := resort env write layout b sha256_hex final_rows in
     do! equal := equal_sorted env final_rows (sp_expected plan) in
     if negb equal then mfail (u "validation_failed: 事务内最终集合校验不一致，已拒绝提交") else checked env) s11 = (Ok x, s')).
  { do 6 (apply mbind_ok in H as ([] & ? & ? & H)). eexists. split; [|exact H]. unfold sqlite_writes.
    repeat (unfold mbind at 1; match goal with E : ?m ?s = (Ok tt, _) |- context [match ?m ?s with _ => _ end] => rewrite E end).
    done. }
  clear H. destruct Q as (s11 & Wr & H). apply sqlite_writes_inside in Wr; [|done..]. destruct Wr as [_ O11]. specialize (O11 tt eq_refl).
  apply mbind_ok in H as (final & s12 & Sn & H). apply mbind_ok in H as (? & s13 & [= _ <-] & H).
  apply mbind_ok in H as (sorted & s14 & R & H). apply mbind_ok in H as (equal & s15 & Cp & H).
  destruct equal; [|discriminate]. cbn [negb] in H. apply checked_ok in H as ->.
  destruct (compared_sqlite c _ (sp_expected plan) final sorted s11 s12 (mkState (s_world s12) _) _ _ L O11 Fp Fe Sn eq_refl R Cp) as [P B].
  injection B as _ B _. unfold delivered. by rewrite B.
Qed.

(** *** The task *)

Context (readonly : str -> option bool) (canonicalize : str -> option str) (is_same_file : str -> str -> option bool).
Context (open_with_flags : str -> bool -> W -> option (Connection W) * W) (set_busy_timeout set_progress_handler : Connection W -> W -> bool * W).
Context `{!Files db work is_open answers open_with_flags set_busy_timeout set_progress_handler}.
Abbreviation open_file := (open open_with_flags set_busy_timeout set_progress_handler) (only parsing).

Lemma open_db path writable s r s' : open_file path writable s = (r, s') -> db (s_world s') = db (s_world s) /\
  forall c, r = Ok c -> exists w w', open_with_flags path writable w = (Some c, w').
Proof.
  unfold open. intros H. unfold mbind at 1 in H. unfold call at 1 in H.
  destruct (open_with_flags path writable (s_world s)) as [[c|] w1] eqn:E; cbn [ok_or] in H.
  2: { injection H as <- <-. split; [by eapply fi_open|discriminate]. }
  assert (E1 : db w1 = db (s_world s)) by (eapply fi_open; exact E).
  assert (K1 : keeps db (set_busy_timeout c)) by (eapply fi_busy).
  assert (K2 : keeps db (set_progress_handler c)) by (eapply fi_handler).
  assert (K3 : keeps db (execute_batch c (u "PRAGMA foreign_keys = ON"))) by (eapply fi_pragma; exact E).
  assert (Step : forall f, keeps db f -> Keeps db (call (fun w => let '(ok, w) := f w in (if ok : bool then Ok tt else Err db_error, w)))).
  { intros f K. apply keeps_call. intros w r0 w'. destruct (f w) as [ok w2] eqn:F. intros [= _ <-]. by apply K in F. }
  match type of H with ?m ?s0 = _ => assert (K : Keeps db m) end.
  { pose proof (Step _ K1). pose proof (Step _ K2). pose proof (Step _ K3). apply _. }
  split; [rewrite (K _ _ _ H); exact E1|]. intros c' ->. do 3 (apply mbind_ok in H as (? & ? & _ & H)). injection H as -> _. eauto.
Qed.

Lemma source_metadata_db path w c w' config : open_with_flags path false w = (Some c, w') ->
  Keeps db (load_metadata sha256_hex c config).
Proof.
  intros E. assert (Q : forall sql, keeps db (query c sql)) by (eapply fi_source; exact E).
  assert (Kq : forall A sql (f : list (list ValueRef) -> W -> result A str * W), (forall rows, keeps db (f rows)) -> keeps db (query_rows c sql f)).
  { intros A sql f Kf w0 r w1. unfold query_rows. destruct (query c sql w0) as [q w2] eqn:X. apply Q in X.
    destruct q as [[rows []]|]; [|by intros [= <- <-]..]. intros H. apply Kf in H. congruence. }
  assert (Kt : forall A B (x : result A str) (f : A -> W -> result B str * W), (forall y, keeps db (f y)) -> keeps db (try_ x f)).
  { intros A B x f Kf w0 r w1. destruct x; [apply Kf|by intros [= <- <-]]. }
  apply keeps_call. intros w0 r w1. destruct (sqlite_load_metadata sha256_hex c w0) as [x w2] eqn:L. intros [= _ <-].
  revert L. unfold sqlite_load_metadata. apply Kq. intros columns. apply Kt. intros l. apply Kq. intros keys.
  apply Kt. intros foreign. apply Kq. intros objects. apply Kt. intros y. apply Kq. by intros indexes w3 r3 w4 [= <- <-].
Qed.

Lemma sqlite_preflight_db plan source_config target_config s r s' :
  sqlite_preflight env sha256_hex readonly canonicalize is_same_file open_with_flags set_busy_timeout set_progress_handler plan
    source_config target_config s = (r, s') ->
  db (s_world s') = db (s_world s) /\ forall c, r = Ok c -> SqliteLaws db work is_open answers c.
Proof.
  unfold sqlite_preflight. intros H. unfold mbind at 1 in H. destruct (checked env s) as [x s1] eqn:C.
  assert (s1 = s) as -> by (by injection C as _ <-). destruct x; [|injection H as <- <-; split; [done|discriminate]].
  unfold mbind at 1 in H. cbn [get_world] in H. unfold get_world in H.
  destruct (negb _); [injection H as <- <-; split; [done|discriminate]|].
  destruct (_ || _); [injection H as <- <-; split; [done|discriminate]|].
  unfold mbind at 1 in H. unfold lift at 1 in H.
  destruct (paths _ _ _ _ _ _) as [[p1 p2]|e]; [|injection H as <- <-; split; [done|discriminate]]. cbn [fst snd] in H.
  unfold mbind at 1 in H. destruct (open_file p1 false s) as [[so|e] s2] eqn:O1; apply open_db in O1 as [E1 O1].
  2: { injection H as <- <-. split; [done|discriminate]. }
  destruct (O1 so eq_refl) as (w0 & w1 & Ow). unfold mbind at 1 in H.
  destruct (load_metadata sha256_hex so source_config s2) as [[md|e] s3] eqn:Lm; apply (source_metadata_db _ _ _ _ _ Ow) in Lm.
  2: { injection H as <- <-. split; [congruence|discriminate]. }
  destruct (negb _); [injection H as <- <-; split; [congruence|discriminate]|].
  apply open_db in H as [E2 O2]. split; [congruence|]. intros c Hc. destruct (O2 c Hc) as (w2 & w3 & Ow2). eapply fi_target; exact Ow2.
Qed.

Lemma clear_db c s : SqliteLaws db work is_open answers c -> db (s_world (clear_handler c s)) = db (s_world s) /\
  is_autocommit c (s_world (clear_handler c s)) = is_autocommit c (s_world s).
Proof.
  intros L. unfold clear_handler. cbn [s_world]. destruct (clear_progress_handler c (s_world s)) as [ok w] eqn:E. cbn [snd].
  apply (sl_clear db work is_open answers) in E as [E ?]. by injection E.
Qed.
Lemma rollback_batch_db c s ok s' : SqliteLaws db work is_open answers c -> run_batch c (u "ROLLBACK") s = (ok, s') ->
  db (s_world s') = db (s_world s).
Proof.
  intros L. unfold run_batch. destruct (execute_batch c _ (s_world s)) as [ok' w] eqn:E. intros [= _ <-]. cbn [s_world].
  exact (sl_rollback db work is_open answers _ _ _ E).
Qed.

Abbreviation run_sqlite := (execute_sqlite env write layout b sha256_hex readonly canonicalize is_same_file open_with_flags
  set_busy_timeout set_progress_handler) (only parsing).

#[local] Ltac outcome := cbn [rs_status rs_commit_state rs_requires_target_refresh failed_result s_world].
#[local] Ltac unchanged E := unfold truthful, failed_or_cancelled; outcome; split_and!;
  [try (by case_match); done|try (by case_match; auto); by auto|exact E].

Lemma roll_back_failure_truthful c plan message s : SqliteLaws db work is_open answers c ->
  truthful db content plan (db (s_world s)) (roll_back_failure env c plan message s).
Proof.
  intros L. unfold roll_back_failure. destruct (run_batch c _ _) as [ok s1] eqn:R. apply rollback_batch_db in R; [|done].
  destruct (clear_db c s L) as [Cl _].  rewrite Cl in R. destruct ok; unfold truthful, failed_or_cancelled; outcome.
  - split_and!; [by case_match|case_match; auto|done].
  - split_and!; [done|done|done|by left].
Qed.
Lemma roll_back_cancelled_truthful c plan s : SqliteLaws db work is_open answers c ->
  truthful db content plan (db (s_world s)) (roll_back_cancelled c plan s).
Proof.
  intros L. unfold roll_back_cancelled. destruct (run_batch c _ _) as [ok s1] eqn:R. apply rollback_batch_db in R; [|done].
  destruct (clear_db c s L) as [Cl _].  rewrite Cl in R. destruct ok; unfold truthful; outcome.
  - split_and!; [done|by right|done].
  - split_and!; [done|done|done|by left].
Qed.


End Guarantee.

(** ** A gap in the reporting *)

(** Cancelled before the commit and not rolled back: the outcome is unknown,
    and the result does not say why. *)
Lemma cancelled_unknown_unexplained {W} (c : Connection W) plan s :
  (run_batch c (u "ROLLBACK") (clear_handler c s)).1 = false ->
  rs_commit_state (roll_back_cancelled c plan s).1 = CsUnknown /\ ~ explained (roll_back_cancelled c plan s).1.
Proof.
  unfold roll_back_cancelled. destruct (run_batch c _ _) as [[] s1]; cbn [fst]; [discriminate|]. intros _.
  split; [reflexivity|]. intros [E _]. specialize (E eq_refl). discriminate E.
Qed.

(** ** Witness: a file with one table, over the store of SqliteAdapter *)

Definition file_cells (id : Z) (v : str) : list ValueRef := [RInteger 0; RInteger id; RText (utf8 v); RInteger 0].
Definition file_known : list (list ValueRef) := [file_cells 1 (u "A"); file_cells 2 (u "B")].
Definition file_columns : list (list ValueRef) :=
  map (fun '(name, type, notnull, pk) =>
         [RText (utf8 (u "t")); RText (utf8 (u "CREATE TABLE t")); RText (utf8 (u "table")); RInteger 0; RText (utf8 (u name));
          RText (utf8 (u type)); RInteger notnull; RNull; RInteger pk; RInteger 0])
    [("id"%string, "INTEGER"%string, 1, 1); ("v"%string, "TEXT"%string, 0, 0)].
Definition file_answers (d : list (list ValueRef)) (sql : str) : list (list ValueRef) :=
  if str_eqb sql tables_sql then file_columns
  else if existsb (str_eqb sql) [foreign_keys_sql; objects_sql; indexes_sql] then [] else d.
Fixpoint file_inserted (vs : list Value) : list (list ValueRef) :=
  match vs with BInteger id :: BText v :: vs => file_cells id v :: file_inserted vs | _ => [] end.
Definition file_connection : Connection Store := {|
  execute_batch sql w :=
    if str_eqb sql (u "BEGIN IMMEDIATE") then (true, mkStore (st_committed w) (st_committed w) true)
    else if str_eqb sql (u "COMMIT") then (true, mkStore (st_working w) (st_working w) false)
    else (true, mkStore (st_committed w) (st_committed w) false);
  execute _ vs w := (Some (zlen vs / 2), mkStore (st_committed w) (st_working w ++ file_inserted vs) (st_open w));
  query sql w := (if forallb (fun r => bool_decide (r ∈ file_known)) (st_working w) then Some (file_answers (st_working w) sql, true) else None, w);
  clear_progress_handler w := (true, w);
  is_autocommit w := negb (st_open w);
|}.

Lemma wf_cells_ok (rows : list (list ValueRef)) :
  forallb (forallb (fun c => match c with
    | RNull => true | RInteger v => (-9223372036854775808 <=? v) && (v <=? 9223372036854775807) | RReal v => (0 <=? v) && (v <=? u64_max)
    | RText v | RBlob v => forallb (fun b => (0 <=? b) && (b <=? 255)) v end)) rows = true ->
  Forall (Forall wf_cell) rows.
Proof.
  rewrite forallb_true_iff. intros H. apply list.Forall_forall. intros r Hr. specialize (H r Hr). rewrite forallb_true_iff in H.
  apply list.Forall_forall. intros c Hc. specialize (H c Hc).
  destruct c; cbn [wf_cell]; try done; to_prop; try (unfold i64_range, u64_range; lia);
    rewrite forallb_true_iff in H; apply list.Forall_forall; intros x Hx; specialize (H x Hx); to_prop; unfold byte_range; lia.
Qed.

#[export] Instance file_laws : SqliteLaws st_committed st_working st_open file_answers file_connection.
Proof.
  split.
  - intros w ok w' H. change (execute_batch _ _ w) with (true, mkStore (st_committed w) (st_committed w) true) in H.
    injection H as <- <-. done.
  - intros w ok w' _ H.
    assert (E : execute_batch file_connection (u "COMMIT") w = (true, mkStore (st_working w) (st_working w) false))
      by (vm_compute; reflexivity).
    rewrite E in H. injection H as <- <-. split_and!; [done|by right|discriminate].
  - intros w ok w' H.
    assert (E : execute_batch file_connection (u "ROLLBACK") w = (true, mkStore (st_committed w) (st_committed w) false))
      by (vm_compute; reflexivity).
    rewrite E in H. by injection H as <- <-.
  - by intros sql vs w n w' O [= <- <-].
  - by intros sql w r w' [= <- <-].
  - intros sql w rows complete w' _. cbn [query file_connection]. destruct (forallb _ (st_working w)) eqn:E; [|discriminate].
    intros H. injection H as <- <- <-. split; [|done]. unfold file_answers. destruct (str_eqb _ _); [apply wf_cells_ok; vm_compute; reflexivity|].
    destruct (existsb _ _); [constructor|]. rewrite forallb_true_iff in E.
    assert (K : Forall (Forall wf_cell) file_known) by (apply wf_cells_ok; vm_compute; reflexivity). rewrite list.Forall_forall in K.
    apply list.Forall_forall. intros r Hr. apply E, bool_decide_eq_true_1 in Hr. by apply K.
  - by intros w ok w' [= <- <-].
Qed.
Definition file_open (path : str) (writable : bool) (w : Store) : option (Connection Store) * Store := (Some file_connection, w).
Definition no_setup (c : Connection Store) (w : Store) : bool * Store := (true, w).
#[export] Instance file_files : Files st_committed st_working st_open file_answers file_open no_setup no_setup.
Proof.
  split.
  - by intros path writable w c w' [= <- <-].
  - by intros c w r w' [= <- <-].
  - by intros c w r w' [= <- <-].
  - intros path writable w c w' [= <- <-] w0 r w1.
    assert (E : execute_batch file_connection (u "PRAGMA foreign_keys = ON") w0 = (true, mkStore (st_committed w0) (st_committed w0) false))
      by (vm_compute; reflexivity).
    rewrite E. by intros [= <- <-].
  - intros path w c w' [= <- <-]. exact file_laws.
  - intros path w c w' [= <- <-] sql w0 r w1. by intros [= <- <-].
Qed.

Definition file_config (path : str) : Config := mkConfig Sqlite (Some path) None [].
Definition file_run (plan : StoredDataPlan) : DataTaskResult * State Store :=
  execute_sqlite store_environment plain_write sample_layout default_budget (fun b => map (fun x => x mod 128) b)
    (fun _ => Some false) Some (fun a b => Some (str_eqb a b)) file_open no_setup no_setup plan (file_config (u "x")) (file_config (u "y"))
    (mkStore [] [] false).
Definition file_committed : bool :=
  match plan_of Mirror source_rows [] with
  | Ok p => bool_decide (rs_commit_state (file_run p).1 = CsCommitted)
  | Err _ => false
  end.
Lemma file_plan : exists p, plan_of Mirror source_rows [] = Ok p /\ rs_commit_state (file_run p).1 = CsCommitted.
Proof.
  assert (H : file_committed = true) by (vm_compute; reflexivity).
  unfold file_committed in H. destruct (plan_of _ _ _) as [p|e]; [|discriminate]. exists p. split; [done|]. by apply bool_decide_eq_true_1 in H.
Qed.


End SqliteExecution.
