(* ===== verification/Preparation.v ===== *)
(** Preparing a task over two sessions and choosing between the two executors
    ([open_session], [inspect_endpoints], [resolve_network_identity],
    [prepare_network], [prepare_task] and [execute_plan] of
    src-tauri/src/db/data_tasks/executor.rs), and the whole life of a task:
    what a committed task delivered, in terms of the contents of the two
    databases when it was prepared. *)
From S2P Require Import Prelude RustText DataTypes Registry MetaTypes Values Spool SpoolSort TypeMapping Metadata Plan Batch Executor Execution SqliteAdapter SqliteExecution.
Import DataTypes MetaTypes Values Spool SpoolSort TypeMapping Metadata Plan Batch Executor Execution SqliteAdapter SqliteExecution.

Module Preparation.

(** The opening functions of the five adapters. *)
Definition Opening (W : Type) : Type := Config -> DataEndpoint -> W -> result (DataSession W) str * W.
Record Adapters (W : Type) : Type := mkAdapters {
  open_sqlite : Opening W; open_postgres : Opening W; open_mysql : Opening W; open_sqlserver : Opening W; open_clickhouse : Opening W }.
Arguments open_sqlite {W}. Arguments open_postgres {W}. Arguments open_mysql {W}. Arguments open_sqlserver {W}. Arguments open_clickhouse {W}.

Section Tasks.
Context {W : Type} (env : Environment W) (adapters : Adapters W).
Context (write write_operations : Rows -> result Rows str) (byte_count : Rows -> Z).
Context (layout : Layout) (b : ResourceBudget) (sha256_hex : bytes -> str) (calendar_date : Z -> Z -> Z -> bool).
Context (canonicalize : str -> option str) (is_same_file : str -> str -> option bool).
Context (counters : nat -> Counters) (encode_mapping : ValidatedMapping -> option bytes)
  (encode_fingerprint : FingerprintInput -> option bytes) (plan_id : str) (escapes : char -> bool).

Definition open_session (config : Config) : DataEndpoint -> W -> result (DataSession W) str * W :=
  match cf_database_type config with
  | Sqlite => open_sqlite adapters config
  | Postgres => open_postgres adapters config
  | MySql => open_mysql adapters config
  | SqlServer => open_sqlserver adapters config
  | ClickHouse => open_clickhouse adapters config
  end.

(** [.map_err(error)] at the end of a run. *)
Definition coded {A} (m : M W A) (s : State W) : result A DataTaskError * State W :=
  let '(r, s) := m s in (map_err error r, s).

Definition inspect_endpoints (source_config : Config) (source_endpoint : DataEndpoint) (target_config : Config)
  (target_endpoint : DataEndpoint) : State W -> result (DataMetadataSnapshot * DataMetadataSnapshot) DataTaskError * State W :=
  coded
    (do! source := call (open_session source_config source_endpoint) in
     do! target := call (open_session target_config target_endpoint) in
     run! call (begin_read source) in
     run! call (begin_read target) in
     do! s := call (Execution.load_metadata source) in
     do! t := call (Execution.load_metadata target) in
     run! call (rollback source) in
     run! call (rollback target) in
     mret (s, t)).

Definition resolve_network_identity (request : DataTaskRequest) (source target : DataSession W) : M W unit :=
  do! w := get_world in
  do! s := lift (ok_or (endpoint_identity source w) (u "same_physical_target: 无法验证源端真实实例身份")) in
  do! t := lift (ok_or (endpoint_identity target w) (u "same_physical_target: 无法验证目标端真实实例身份")) in
  lift (resolve_endpoints canonicalize is_same_file request s t).

Definition conversion_of (source target : DataMetadataSnapshot) (mapping : ValidatedMapping) : option Conversion :=
  if is_db (md_database_type source) (md_database_type target) then None else Some (source, target, mapping).

(** Both snapshots, each in its read transaction, and their comparison. *)
Definition prepare_network (task_id : str) (request : DataTaskRequest) (source_config target_config : Config) : M W StoredDataPlan :=
  run! lift (map_err (fun e => err_code e ++ u ": " ++ err_message e) (validate request)) in
  run! checked env in
  if negb (is_db (cf_database_type source_config) (cf_database_type target_config)) && is_kind (rq_kind request) RowSync
  then mfail (u "unsupported_capability: 跨类型不支持行同步")
  else if default false (cf_read_only target_config) then mfail (u "read_only_target: 目标保存连接为只读")
  else
    run! emit env Validating true in
    do! source := call (open_session source_config (rq_source request)) in
    do! target := call (open_session target_config (rq_target request)) in
    run! call (begin_read source) in
    run! call (begin_read target) in
    do! source_metadata := call (Execution.load_metadata source) in
    do! target_metadata := call (Execution.load_metadata target) in
    run! resolve_network_identity request source target in
    do! mapping := lift (validate_mapping request source_metadata target_metadata) in
    do! source_output := network_snapshot env write byte_count layout b calendar_date source (projections mapping true) None Reading
                           (conversion_of source_metadata target_metadata mapping) in
    do! source_at := get_world in
    do! full := lift (full_projections mapping target_metadata) in
    do! target_output := network_snapshot env write byte_count layout b calendar_date target full (Some (projections mapping false))
                           Reading None in
    do! target_at := get_world in
    run! call (rollback source) in
    run! call (rollback target) in
    run! checked env in
    run! emit env Comparing true in
    do! w := get_world in
    do! projected := lift (ok_or (so_projected target_output) (u "目标映射快照缺失")) in
    do! plan := lift (build_plan write write_operations layout b counters sha256_hex encode_mapping encode_fingerprint plan_id
                        (e_now_ms env w) escapes task_id request mapping source_metadata target_metadata
                        (mkCaptured (so_full source_output) (e_now_ms env source_at))
                        (mkCaptured projected (e_now_ms env target_at)) (mkCaptured (so_full target_output) (e_now_ms env target_at))) in
    run! checked env in
    run! emit env Ready true in
    mret plan.

(** [tokio::task::spawn_blocking(f).await]: [None] when the worker panicked. *)
Context (spawn_blocking : forall A, (State W -> A * State W) -> State W -> option A * State W).
(** The SQLite driver. *)
Context (readonly : str -> option bool) (open_with_flags : str -> bool -> W -> option (Connection W) * W)
  (set_busy_timeout set_progress_handler : Connection W -> W -> bool * W).

Definition both_sqlite (source_config target_config : Config) : bool :=
  is_db (cf_database_type source_config) Sqlite && is_db (cf_database_type target_config) Sqlite.

Definition prepare_task (task_id : str) (request : DataTaskRequest) (source_config target_config : Config) (w : W) :
  result StoredDataPlan DataTaskError * State W :=
  let s := mkState w (new_progress env w) in
  if negb (both_sqlite source_config target_config)
  then coded (prepare_network task_id request source_config target_config) s
  else
    let '(r, s) := spawn_blocking _ (coded (prepare_sqlite env write layout b sha256_hex readonly canonicalize is_same_file
                     open_with_flags set_busy_timeout set_progress_handler write_operations counters encode_mapping
                     encode_fingerprint plan_id escapes task_id request source_config target_config)) s in
    (default (Err (new_error "database_error" "数据任务工作线程中断")) r, s).

Definition interrupted_result (plan : StoredDataPlan) : DataTaskResult :=
  failed_result plan OutcomeUnknown CsUnknown
    (Some (new_error "outcome_unknown" "数据任务工作线程中断，需要核对目标状态")) [] true.

Definition execute_plan (plan : StoredDataPlan) (source_config target_config : Config) (w : W) : DataTaskResult * State W :=
  if negb (both_sqlite source_config target_config)
  then execute_network env write byte_count layout b sha256_hex calendar_date canonicalize is_same_file
         (cf_database_type target_config) (cf_fingerprint source_config) (cf_fingerprint target_config)
         (open_session source_config) (open_session target_config) plan w
  else
    let '(r, s) := spawn_blocking _ (fun s => execute_sqlite env write layout b sha256_hex readonly canonicalize is_same_file
                     open_with_flags set_busy_timeout set_progress_handler plan source_config target_config (s_world s))
                     (mkState w (new_progress env w)) in
    (default (interrupted_result plan) r, s).
End Tasks.

(** ** Specification: what preparing relies on *)

(** A database during a preparation: its committed content, and the content a
    read transaction of the session sees; [others] is everything else. *)
Section Reading.
Context {W D P : Type} (db : W -> D) (view : W -> option D) (others : W -> P) (content : D -> list Projection -> Rows).

(** A session reads one state of the database: the one committed when its
    read transaction began; it changes nothing. *)
Class Reader (s : DataSession W) : Prop := {
  rd_begin w r w' : begin_read s w = (r, w') ->
    db w' = db w /\ others w' = others w /\ (r = Ok tt -> view w' = Some (db w));
  rd_metadata w r w' : Execution.load_metadata s w = (r, w') -> (db w', view w', others w') = (db w, view w, others w);
  rd_stream ps w rows r w' : Execution.stream_rows s ps w = (rows, r, w') -> (db w', view w', others w') = (db w, view w, others w);
  rd_rows ps w rows n w' d : view w = Some d -> Forall fits ps -> Execution.stream_rows s ps w = (rows, Ok n, w') ->
    Forall wf_row rows /\ rows ≡ₚ content d ps;
  rd_rollback w r w' : Execution.rollback s w = (r, w') -> db w' = db w /\ others w' = others w;
}.
End Reading.

Section Sides.
Context {W DS DT : Type} (sdb : W -> DS) (sview : W -> option DS) (tdb : W -> DT) (tview : W -> option DT).
Context (scontent : DS -> list Projection -> Rows) (tcontent : DT -> list Projection -> Rows).
Definition source_side (w : W) : DS * option DS := (sdb w, sview w).
Definition target_side (w : W) : DT * option DT := (tdb w, tview w).
Definition sides (w : W) : DS * option DS * (DT * option DT) := (sdb w, sview w, target_side w).

Class Readable (env : Environment W) (open_source open_target : DataEndpoint -> W -> result (DataSession W) str * W) : Prop := {
  re_callback p w : sides (e_callback env p w) = sides w;
  re_counters c w : sides (e_set_counters env c w) = sides w;
  re_open_source e w r w' : open_source e w = (r, w') -> sdb w' = sdb w /\ tdb w' = tdb w /\
    forall s, r = Ok s -> Reader sdb sview target_side scontent s;
  re_open_target e w r w' : open_target e w = (r, w') -> sdb w' = sdb w /\ tdb w' = tdb w /\
    forall s, r = Ok s -> Reader tdb tview source_side tcontent s;
}.
End Sides.

(** The projection of a row of the full snapshot to the mapped columns. *)
Definition mapped_row (full projected : list Projection) (row : CanonicalRow) : result CanonicalRow str :=
  let? index := ok_or (position (fun p => str_eqb (pj_output_table p) (table row)) full) (u "集合快照表索引无效") in
  let? f := ok_or (full !! index) panic_index in
  let? p := ok_or (projected !! index) panic_index in
  projected_row row f p.

(** ** Proofs *)

Lemma traverse_cons_ok {A B E} (f : A -> result B E) x l y k :
  f x = Ok y -> traverse f l = Ok k -> traverse f (x :: l) = Ok (y :: k).
Proof. intros Hx Hl. cbn [traverse]. by rewrite Hx, Hl. Qed.

Lemma new_row_wf t k v r : wf_str t -> Forall wf_value k -> Forall wf_value v -> new_row t k v = Ok r -> wf_row r.
Proof. intros Wt Wk Wv H. unfold new_row in H. inv_ok. done. Qed.

Lemma projected_row_wf row f p r : wf_row row -> wf_str (pj_output_table p) -> projected_row row f p = Ok r -> wf_row r.
Proof.
  intros (_ & _ & Wv) Wt H. unfold projected_row in H. apply rbind_ok_inv in H as (vs & Vs & H).
  apply rbind_ok_inv in H as (k & K & H).
  assert (Fv : Forall wf_value vs).
  { apply traverse_ok_inv in Vs. clear H K. induction Vs as [|c v cs vs Hc _ IH]; [constructor|]. constructor; [|exact IH].
    apply ok_or_ok_inv in Hc. destruct (position _ _) as [i|]; [|discriminate]. cbn in Hc.
    rewrite list.Forall_forall in Wv. apply Wv. by eapply list_elem_of_lookup_2. }
  eapply new_row_wf; [exact Wt| |exact Fv|exact H]. apply traverse_ok_inv in K. clear H Vs.
  induction K as [|i v ids ks Hi _ IH]; [constructor|]. constructor; [|exact IH]. apply ok_or_ok_inv in Hi.
  rewrite list.Forall_forall in Fv. apply Fv. by eapply list_elem_of_lookup_2.
Qed.

Section Snapshots.
Context {W : Type} (env : Environment W) (write : Rows -> result Rows str) `{!SpoolStore write} (byte_count : Rows -> Z).
Context (layout : Layout) (b : ResourceBudget) (cal : Z -> Z -> Z -> bool).

Lemma project_row_ok full projected row c o : project_row layout b full projected row c = Ok o ->
  match projected with None => o = None | Some ps => exists r, o = Some r /\ mapped_row full ps row = Ok r end.
Proof.
  unfold project_row, mapped_row. destruct projected as [ps|]; [|by intros [= <-]]. intros H.
  apply rbind_ok_inv in H as (i & Hi & H). rewrite Hi. cbn [rbind].
  apply rbind_ok_inv in H as (f & Hf & H). rewrite Hf. cbn [rbind].
  apply rbind_ok_inv in H as (p & Hp & H). rewrite Hp. cbn [rbind].
  apply rbind_ok_inv in H as (r & Hr & H). apply rbind_ok_inv in H as (? & _ & H). apply Ok_inj in H as <-. eauto.
Qed.

Definition projections_of (full : list Projection) (projected : option (list Projection)) (rows prows : Rows) : Prop :=
  match projected with None => prows = [] | Some ps => traverse (mapped_row full ps) rows = Ok prows end.

Lemma receive_rows full projected conversion status rows pushed pp s x s' :
  receive env layout b cal full projected conversion status rows pushed pp s = (Ok x, s') ->
  exists converted prows, traverse (convert_row cal conversion) rows = Ok converted /\
    projections_of full projected converted prows /\ x = (pushed ++ converted, pp ++ prows).
Proof.
  revert pushed pp s. induction rows as [|row rows IH]; intros pushed pp s; cbn [receive].
  - intros [= <- _]. exists [], []. rewrite !app_nil_r. split_and!; [done| |done]. by destruct projected.
  - intros H. apply mbind_ok in H as (? & s1 & _ & H). apply mbind_ok in H as (r & s2 & [R ->]%lift_ok & H).
    apply mbind_ok in H as (w & s3 & _ & H). apply mbind_ok in H as (o & s4 & [O ->]%lift_ok & H).
    apply mbind_ok in H as (? & s5 & _ & H). apply mbind_ok in H as (? & s6 & _ & H).
    apply IH in H as (converted & prows & C & Pr & ->). apply project_row_ok in O.
    exists (r :: converted), (match o with Some r => [r] | None => [] end ++ prows). rewrite <- !app_assoc.
    split_and!; [by apply traverse_cons_ok| |done].
    destruct projected as [ps|]; [|by subst o]. destruct O as (r' & -> & O). by apply traverse_cons_ok.
Qed.

Lemma worker_rows full projected conversion status rows s out s' :
  worker env write layout b cal full projected conversion status rows s = (Ok out, s') ->
  exists converted prows, traverse (convert_row cal conversion) rows = Ok converted /\
    projections_of full projected converted prows /\ write converted = Ok (so_full out) /\
    forall pr, so_projected out = Some pr -> write prows = Ok pr.
Proof.
  unfold worker. set (s0 := mkState _ _). intros H.
  match type of H with (let '(_, _) := ?m s0 in _) = _ => destruct (m s0) as [x s1] eqn:E end.
  injection H as -> <-. apply mbind_ok in E as (pr & s2 & R & E). apply receive_rows in R as (converted & prows & C & Pr & ->).
  apply mbind_ok in E as (st & s3 & [Ws ->]%lift_ok & E). apply mbind_ok in E as (sp & s4 & [Wp ->]%lift_ok & E).
  injection E as <- <-. cbn [app fst snd so_full so_projected] in *. exists converted, prows. split_and!; try done.
  intros pr ->. destruct projected; [|done]. apply rbind_ok_inv in Wp as (y & Wp & [= <-]). done.
Qed.

Lemma snapshot_rows (t : DataSession W) full projected conversion status s out s' :
  network_snapshot env write byte_count layout b cal t full projected status conversion s = (Ok out, s') ->
  exists rows n w converted prows, Execution.stream_rows t full (s_world s) = (rows, Ok n, w) /\
    traverse (convert_row cal conversion) rows = Ok converted /\
    projections_of full projected converted prows /\ write converted = Ok (so_full out) /\
    forall pr, so_projected out = Some pr -> write prows = Ok pr.
Proof.
  unfold network_snapshot. destruct (Execution.stream_rows t full (s_world s)) as [[rows rr] w] eqn:E. intros H.
  apply mbind_ok in H as (o & s1 & Wk & H). apply mbind_ok in H as (n & s2 & [-> ->]%lift_ok & H).
  apply mbind_ok in H as (? & s3 & _ & H). apply mbind_ok in H as (? & s4 & _ & H). injection H as <- <-.
  apply worker_rows in Wk as (converted & prows & C & Pr & Wf & Wp). exists rows, n, w, converted, prows. by split_and!.
Qed.

Lemma converted_wf conversion rows converted : Forall wf_row rows -> traverse (convert_row cal conversion) rows = Ok converted ->
  Forall wf_row converted.
Proof.
  intros F H. apply traverse_ok_inv in H. induction H as [|r r' rows rows' H _ IH]; [constructor|].
  apply list.Forall_cons in F as [Wr F]. constructor; [|by apply IH]. unfold convert_row in H.
  destruct conversion as [[[sm tm] m]|]; [by eapply normalize_transfer_row_wf|]. by apply Ok_inj in H as <-.
Qed.
Lemma mapped_wf full ps rows prows : Forall fits ps -> Forall wf_row rows -> traverse (mapped_row full ps) rows = Ok prows ->
  Forall wf_row prows.
Proof.
  intros Fp F H. apply traverse_ok_inv in H. induction H as [|r r' rows rows' H _ IH]; [constructor|].
  apply list.Forall_cons in F as [Wr F]. constructor; [|by apply IH]. unfold mapped_row in H.
  apply rbind_ok_inv in H as (i & _ & H). apply rbind_ok_inv in H as (f & _ & H). apply rbind_ok_inv in H as (p & Hp & H).
  apply ok_or_ok_inv in Hp. eapply projected_row_wf; [exact Wr| |exact H]. rewrite list.Forall_forall in Fp.
  apply list_elem_of_lookup_2 in Hp. by apply (Fp p).
Qed.

Lemma snapshot_keeps {P} (obs : W -> P) (t : DataSession W) full projected conversion status :
  (forall p w, obs (e_callback env p w) = obs w) ->
  (forall w rows r w', Execution.stream_rows t full w = (rows, r, w') -> obs w' = obs w) ->
  Keeps obs (network_snapshot env write byte_count layout b cal t full projected status conversion).
Proof.
  intros Cb St s r s'. unfold network_snapshot. destruct (Execution.stream_rows t full (s_world s)) as [[rows rr] w] eqn:E.
  apply St in E. intros H. match type of H with ?m ?s0 = _ => assert (Km : Keeps obs m) end.
  { pose proof (keeps_worker obs env Cb write layout b cal full projected conversion status rows). apply _. }
  by rewrite (Km _ _ _ H).
Qed.
End Snapshots.

(** ** What a prepared plan is about *)

Section Delivery.
Context {W DS DT : Type} (sdb : W -> DS) (sview : W -> option DS) (tdb : W -> DT) (tview : W -> option DT).
Context (scontent : DS -> list Projection -> Rows) (tcontent : DT -> list Projection -> Rows).
Context (env : Environment W) (adapters : Adapters W).
Context (write write_operations : Rows -> result Rows str) `{!SpoolStore write, !SpoolStore write_operations} (byte_count : Rows -> Z).
Context (layout : Layout) (b : ResourceBudget) (sha256_hex : bytes -> str) (cal : Z -> Z -> Z -> bool).
Context (canonicalize : str -> option str) (is_same_file : str -> str -> option bool).
Context (counters : nat -> Counters) (encode_mapping : ValidatedMapping -> option bytes)
  (encode_fingerprint : FingerprintInput -> option bytes) (plan_id : str) (escapes : char -> bool).
Context (source_config target_config : Config).
Context `{!Readable sdb sview tdb tview scontent tcontent env (open_session adapters source_config) (open_session adapters target_config)}.

Abbreviation prepare := (prepare_network env adapters write write_operations byte_count layout b sha256_hex cal canonicalize
  is_same_file counters encode_mapping encode_fingerprint plan_id escapes) (only parsing).
Abbreviation obs := (sides sdb sview tdb tview) (only parsing).
Abbreviation contents w := (sdb w, tdb w) (only parsing).

(** The rows a plan transfers: a state of the source, converted to the target's types. *)
Definition of_source (d : DS) (p : StoredDataPlan) (converted : Rows) : Prop := exists rows,
  rows ≡ₚ scontent d (projections (sp_mapping p) true) /\
  traverse (convert_row cal (conversion_of (sp_source_metadata p) (sp_target_metadata p) (sp_mapping p))) rows = Ok converted.
(** The target it was compared with: the complete rows of a state, and their mapped columns. *)
Definition of_target (d : DT) (p : StoredDataPlan) (full_rows mapped : Rows) : Prop := exists full,
  full_projections (sp_mapping p) (sp_target_metadata p) = Ok full /\ full_rows ≡ₚ tcontent d full /\
  traverse (mapped_row full (projections (sp_mapping p) false)) full_rows = Ok mapped.

Lemma source_fits mapping : Forall fits (projections mapping false) -> Forall fits (projections mapping true).
Proof. unfold projections. rewrite !list.Forall_fmap. intros F. eapply list.Forall_impl; [exact F|]. by intros m. Qed.

Abbreviation open_source := (open_session adapters source_config) (only parsing).
Abbreviation open_target := (open_session adapters target_config) (only parsing).
Lemma callback_sides p w : obs (e_callback env p w) = obs w.
Proof. eapply re_callback, Readable0. Qed.
Lemma source_opened e w r w' : open_source e w = (r, w') -> sdb w' = sdb w /\ tdb w' = tdb w /\
  forall s, r = Ok s -> Reader sdb sview (target_side tdb tview) scontent s.
Proof. eapply re_open_source, Readable0. Qed.
Lemma target_opened e w r w' : open_target e w = (r, w') -> sdb w' = sdb w /\ tdb w' = tdb w /\
  forall s, r = Ok s -> Reader tdb tview (source_side sdb sview) tcontent s.
Proof. eapply re_open_target, Readable0. Qed.
Lemma obs_emit status force s r s' : emit env status force s = (r, s') -> obs (s_world s') = obs (s_world s).
Proof. apply (keeps_emit obs env), callback_sides. Qed.

(** The snapshot of either side. *)
Lemma side_snapshot {D P} (db : W -> D) (view : W -> option D) (others : W -> P) (content : D -> list Projection -> Rows)
  (t : DataSession W) full projected conversion s out s' d :
  (forall p w, (db (e_callback env p w), view (e_callback env p w), others (e_callback env p w)) = (db w, view w, others w)) ->
  Reader db view others content t -> view (s_world s) = Some d -> Forall fits full ->
  network_snapshot env write byte_count layout b cal t full projected Reading conversion s = (Ok out, s') ->
  (db (s_world s'), view (s_world s'), others (s_world s')) = (db (s_world s), view (s_world s), others (s_world s)) /\
  exists rows converted prows, rows ≡ₚ content d full /\ traverse (convert_row cal conversion) rows = Ok converted /\
    projections_of full projected converted prows /\ Forall wf_row converted /\ write converted = Ok (so_full out) /\
    forall pr, so_projected out = Some pr -> write prows = Ok pr.
Proof.
  intros Cb R V F H. split.
  - revert H. apply (snapshot_keeps env write byte_count layout b cal (fun w => (db w, view w, others w))); [exact Cb|].
    intros w rows r w' St. exact (rd_stream db view others content full w rows r w' St).
  - apply snapshot_rows in H as (rows & n & w & converted & prows & St & C & Pr & Wf & Wp).
    destruct (rd_rows db view others content _ _ _ _ _ _ V F St) as [Fr Pm]. exists rows, converted, prows.
    split_and!; try done. by eapply converted_wf.
Qed.

Lemma prepare_network_ok task_id request w pr p s' :
  prepare task_id request source_config target_config (mkState w pr) = (Ok p, s') ->
  Forall fits (projections (sp_mapping p) false) -> (forall ps, zlen (tcontent (tdb w) ps) <= u64_max) ->
  sp_request p = request /\ Forall stored (spool (sp_expected p)) /\ Forall stored (spool (sp_target_full p)) /\
  exists converted full_rows mapped, of_source (sdb w) p converted /\ of_target (tdb w) p full_rows mapped /\
    spool (sp_target_full p) ≡ₚ map norm_row full_rows /\
    spool (sp_expected p) ≡ₚ promised (rq_mode request) (map norm_row converted) (map norm_row mapped).
Proof.
  intros H Fp L. unfold prepare_network in H. apply mbind_ok in H as (? & s1 & [_ ->]%lift_ok & H).
  apply mbind_ok in H as (? & s2 & C%checked_ok & H). subst s2. do 2 (case_match; [done|]).
  apply mbind_ok in H as (? & s3 & E3%obs_emit & H). cbn [s_world] in E3.
  apply mbind_ok in H as (src & s4 & [O4 _]%call_ok & H). apply source_opened in O4 as (S4 & T4 & R4).
  specialize (R4 _ eq_refl). apply mbind_ok in H as (tgt & s5 & [O5 _]%call_ok & H).
  apply target_opened in O5 as (S5 & T5 & R5). specialize (R5 _ eq_refl).
  apply mbind_ok in H as ([] & s6 & [B6 _]%call_ok & H). apply (rd_begin sdb sview _ scontent) in B6 as (S6 & T6 & V6). specialize (V6 eq_refl).
  apply mbind_ok in H as ([] & s7 & [B7 _]%call_ok & H). apply (rd_begin tdb tview _ tcontent) in B7 as (T7 & S7 & V7). specialize (V7 eq_refl).
  apply mbind_ok in H as (sm & s8 & [M8 _]%call_ok & H). apply (rd_metadata sdb sview _ scontent) in M8.
  apply mbind_ok in H as (tm & s9 & [M9 _]%call_ok & H). apply (rd_metadata tdb tview _ tcontent) in M9.
  assert (E : sview (s_world s9) = Some (sdb w) /\ tview (s_world s9) = Some (tdb w)).
  { unfold sides, target_side, source_side in *. split; congruence. }
  clear E3 S4 T4 S5 T5 S6 T6 V6 S7 T7 V7 M8 M9. destruct E as [Vs Vt].
  apply mbind_ok in H as (? & s10 & I & H). assert (s10 = s9) as ->.
  { unfold resolve_network_identity in I. apply mbind_ok in I as (? & ? & [= _ <-] & I).
    do 2 (apply mbind_ok in I as (? & ? & [_ ->]%lift_ok & I)). by apply lift_ok in I as [_ ->]. }
  clear I. apply mbind_ok in H as (mapping & s11 & [V ->]%lift_ok & H). apply mbind_ok in H as (so & s12 & Sn & H).
  apply mbind_ok in H as (w1 & s13 & [= _ <-] & H). apply mbind_ok in H as (full & s14 & [Fl ->]%lift_ok & H).
  apply mbind_ok in H as (ta & s15 & Tn & H). apply mbind_ok in H as (w2 & s16 & [= _ <-] & H).
  do 4 (apply mbind_ok in H as (? & ? & _ & H)). apply mbind_ok in H as (w3 & s17 & [= _ <-] & H).
  apply mbind_ok in H as (projected & s18 & [Pj ->]%lift_ok & H). apply ok_or_ok_inv in Pj.
  apply mbind_ok in H as (plan & s19 & [B ->]%lift_ok & H). do 2 (apply mbind_ok in H as (? & ? & _ & H)). injection H as <- _.
  assert (Em : sp_mapping plan = mapping /\ sp_source_metadata plan = sm /\ sp_target_metadata plan = tm).
  { clear - B. unfold build_plan in B. do 3 (apply rbind_ok_inv in B as (? & _ & B)). case_match; [done|].
    do 9 (apply rbind_ok_inv in B as (? & _ & B)). apply rbind_ok_inv in B as (? & _ & B). apply Ok_inj in B as <-. done. }
  destruct Em as (Em & Es & Et). rewrite Em in Fp.
  eapply (side_snapshot sdb sview (target_side tdb tview)) with (d := sdb w) in Sn as [E12 (rows & converted & ? & Pr & Cv & _ & Wc & Wr & _)];
    [|apply callback_sides|done|done|by apply source_fits].
  eapply (side_snapshot tdb tview (source_side sdb sview)) with (d := tdb w) in Tn
    as [_ (trows & tconv & mapped & Pt & Ct & Mp & Wt & Wtr & Wpr)];
    [|intros up z; pose proof (callback_sides up z) as K; unfold sides, target_side, source_side in *; congruence
     |done|unfold target_side in E12; congruence|by eapply full_fits].
  assert (tconv = trows) as ->. { clear - Ct. apply traverse_ok_inv in Ct. by induction Ct as [|x y xs ys [= ->] _ ->]. }
  cbn [projections_of] in Mp.
  assert (Wm : Forall wf_row mapped) by (by eapply mapped_wf; [exact Fp|exact Wt|exact Mp]).
  apply write_all_stored in Wr as [Ew Fw]; [|done|done]. apply write_all_stored in Wtr as [Etw Ftw]; [|done|done].
  specialize (Wpr _ Pj). apply write_all_stored in Wpr as [Epw Fpw]; [|done|done].
  assert (Lm : zlen projected <= u64_max).
  { rewrite Epw. unfold zlen. rewrite length_map. apply traverse_ok_inv, Forall2_length in Mp. rewrite <- Mp.
    rewrite (Permutation_length Pt). apply L. }
  apply build_plan_inv in B as (v & d & _ & _ & _ & _ & _ & _ & _ & _ & _ & _ & _ & Pe & _ & Ee & _ & Er & _ & _ & _ & _ & _
    & _ & _ & [De _] & Df); [|done..].
  destruct (Df Ftw) as [[Sf _] Pf]. cbn [ss_rows] in *. split_and!; [done|done|done|].
  exists converted, trows, mapped. split_and!.
  - exists rows. rewrite Em, Es, Et. by split.
  - exists full. rewrite Em, Et. by split_and!.
  - by rewrite Pf, Etw.
  - by rewrite Ee, Pe, Ew, Epw.
Qed.

Context (work : W -> DT) (open : W -> bool) `{!Neutral env tdb work open}.
Context `{!Preflight env tdb work open tcontent (open_session adapters source_config) (open_session adapters target_config)}.
Context (spawn_blocking : forall A, (State W -> A * State W) -> State W -> option A * State W).
Context (readonly : str -> option bool) (open_with_flags : str -> bool -> W -> option (Connection W) * W)
  (set_busy_timeout set_progress_handler : Connection W -> W -> bool * W).
Abbreviation prepare_any := (prepare_task env adapters write write_operations byte_count layout b sha256_hex cal canonicalize
  is_same_file counters encode_mapping encode_fingerprint plan_id escapes spawn_blocking readonly open_with_flags set_busy_timeout
  set_progress_handler) (only parsing).
Abbreviation execute_any := (execute_plan env adapters write byte_count layout b sha256_hex cal canonicalize is_same_file
  spawn_blocking readonly open_with_flags set_busy_timeout set_progress_handler) (only parsing).

End Delivery.

(** ** Every execution ends *)

Section Terminal.
Context {W : Type} (env : Environment W).

Lemma rollback_terminal (t : DataSession W) plan message s :
  is_terminal (rs_status (rollback_network_failure env t plan message s).1) = true.
Proof.
  unfold rollback_network_failure. destruct (rollback_in_time t (s_world s)) as [[[]|] w]; cbn [fst]; try done.
  unfold failed_result. cbn [rs_status]. by destruct (e_cancelled env w).
Qed.
Lemma cleanup_terminal (t : DataSession W) x : is_terminal (rs_status x.1) = true -> is_terminal (rs_status (collect_cleanup t x).1) = true.
Proof. destruct x as [r s]. unfold collect_cleanup. by destruct (take_cleanup_errors t (s_world s)). Qed.

Lemma execute_network_terminal write byte_count layout b sha cal canon same ty sf tf os ot plan w :
  is_terminal (rs_status (execute_network env write byte_count layout b sha cal canon same ty sf tf os ot plan w).1) = true.
Proof.
  unfold execute_network. destruct (preflight _ _ _ _ _ _ _ _) as [[[source target]|e] s]; cycle 1.
  { cbn. by destruct (e_cancelled env (s_world s)). }
  destruct (call _ s) as [[[]|m] s1]; [|apply cleanup_terminal, rollback_terminal].
  destruct (endpoint_identity source (s_world s1)) as [i|]; [|by destruct (Execution.rollback target (s_world s1))].
  apply cleanup_terminal. destruct (mbind _ _ s1) as [[[]|m] s2]; [|apply rollback_terminal].
  destruct (commit target (s_world s2)) as [[[[]|]|] w2]; [|done..]. by destruct (emit env Succeeded true _).
Qed.

Lemma failed_or_cancelled_terminal c : is_terminal (failed_or_cancelled c) = true.
Proof. by destruct c. Qed.
Lemma run_batch_split (c : Connection W) sql s : exists ok s', run_batch c sql s = (ok, s').
Proof. destruct (run_batch c sql s) as [ok s']. eauto. Qed.

Lemma execute_sqlite_terminal write layout b sha readonly canon same opens busy handler plan sc tc w :
  is_terminal (rs_status (execute_sqlite env write layout b sha readonly canon same opens busy handler plan sc tc w).1) = true.
Proof.
  unfold execute_sqlite. destruct (sqlite_preflight _ _ _ _ _ _ _ _ _ _ _ _) as [[c|m] s]; [|apply failed_or_cancelled_terminal].
  destruct (run_batch_split c (u "BEGIN IMMEDIATE") s) as (ok & s1 & ->). destruct ok; [|apply failed_or_cancelled_terminal].
  destruct (execute_transaction _ _ _ _ _ _ _ _ _) as [[[]|m] s2].
  - destruct (emit env Committing true s2) as [y s3]. destruct (e_cancelled env (s_world s3)).
    + unfold roll_back_cancelled. destruct (run_batch_split c (u "ROLLBACK") (clear_handler c s3)) as ([] & s4 & ->); done.
    + destruct (run_batch_split c (u "COMMIT") s3) as ([] & s4 & ->); [by destruct (emit env Succeeded true s4)|].
      unfold commit_failure. destruct (if is_autocommit _ _ then _ else _) as [[] s5]; done.
  - unfold roll_back_failure. destruct (run_batch_split c (u "ROLLBACK") (clear_handler c s2)) as ([] & s3 & ->); [|done].
    apply failed_or_cancelled_terminal.
Qed.

(** What tokio promises of [spawn_blocking]: the result is the closure's. *)
Class Spawns (spawn_blocking : forall A, (State W -> A * State W) -> State W -> option A * State W) : Prop :=
  spawned A f s x s' : spawn_blocking A f s = (Some x, s') -> f s = (x, s').

(** Whatever happens, an execution ends with a terminal status. *)
Lemma execute_plan_terminal adapters write byte_count layout b sha cal canon same spawn `{!Spawns spawn} readonly opens busy handler
  plan sc tc w :
  is_terminal (rs_status (execute_plan env adapters write byte_count layout b sha cal canon same spawn readonly opens busy handler
    plan sc tc w).1) = true.
Proof.
  unfold execute_plan. destruct (negb _); [apply execute_network_terminal|].
  destruct (spawn _ _ _) as [[r|] s] eqn:E; [|done]. apply spawned in E. cbn [fst default] in *.
  pose proof (execute_sqlite_terminal write layout b sha readonly canon same opens busy handler plan sc tc w) as T.
  cbn [s_world] in E. rewrite E in T. exact T.
Qed.
End Terminal.


(** ** Witness: a source and a target in one world *)

Record Two : Type := mkTwo {
  tw_source : Rows; tw_source_view : option Rows; tw_target : Rows; tw_target_view : option Rows; tw_work : Rows; tw_open : bool;
  tw_counters : Counters }.
Definition two_environment : Environment Two :=
  mkEnvironment Two (fun _ => false) (fun _ => 0) (fun _ => 7) (fun _ w => w) tw_counters
    (fun c w => mkTwo (tw_source w) (tw_source_view w) (tw_target w) (tw_target_view w) (tw_work w) (tw_open w) c).
Definition known_rows : Rows := [pair_row 1 (u "A"); pair_row 2 (u "B"); pair_row 2 (u "old"); pair_row 3 (u "C")].
Definition two_stream (rows : option Rows) (w : Two) : Rows * result Z str * Two :=
  match rows with
  | Some rows => if forallb (fun r => bool_decide (r ∈ known_rows)) rows then (rows, Ok 0, w) else ([], Err (u "io"), w)
  | None => ([], Err (u "io"), w)
  end.
Definition source_session : DataSession Two := {|
  supports_transaction _ := true; endpoint_identity _ := Some (sample_identity (u "x")); take_cleanup_errors w := ([], w); dialect := DSqlite;
  begin_read w := (Ok tt, mkTwo (tw_source w) (Some (tw_source w)) (tw_target w) (tw_target_view w) (tw_work w) (tw_open w) (tw_counters w));
  begin_protected_write _ w := (Err (u "io"), w);
  Execution.load_metadata w := (Ok pair_metadata, w);
  Execution.stream_rows _ w := two_stream (tw_source_view w) w;
  write_batch _ w := (Err (u "io"), w); delete_all _ w := (Err (u "io"), w); maintain_generators _ w := (Err (u "io"), w);
  commit w := (None, w);
  Execution.rollback w := (Ok tt, mkTwo (tw_source w) None (tw_target w) (tw_target_view w) (tw_work w) (tw_open w) (tw_counters w));
  rollback_in_time w := (None, w);
|}.
Definition set_target (target : Rows) (view : option Rows) (work : Rows) (open : bool) (w : Two) : Two :=
  mkTwo (tw_source w) (tw_source_view w) target view work open (tw_counters w).
(** Applies DELETE and INSERT batches of [pair_mapping]: one and two parameters a row. *)
Fixpoint without_ids (ids : list DataValue) (rows : Rows) : Rows :=
  match ids with i :: ids => without_ids ids (filter (fun r => key r <> [i]) rows) | [] => rows end.
Definition apply_batch (x : WriteBatch) (rows : Rows) : Rows :=
  if starts_with (u "DELETE") (wb_sql x) then without_ids (wb_params x) rows else rows ++ toy_rows (wb_params x).
Definition batch_count (x : WriteBatch) : Z :=
  if starts_with (u "DELETE") (wb_sql x) then zlen (wb_params x) else zlen (wb_params x) / 2.
Definition target_session : DataSession Two := {|
  supports_transaction _ := true; endpoint_identity _ := Some (sample_identity (u "y")); take_cleanup_errors w := ([], w); dialect := DSqlite;
  begin_read w := (Ok tt, set_target (tw_target w) (Some (tw_target w)) (tw_work w) false w);
  begin_protected_write _ w := (Ok tt, set_target (tw_target w) None (tw_target w) true w);
  Execution.load_metadata w := (Ok pair_metadata, w);
  Execution.stream_rows _ w :=
    two_stream (match tw_open w, tw_target_view w with true, None => Some (tw_work w) | false, v => v | _, _ => None end) w;
  write_batch x w := (Ok (batch_count x), set_target (tw_target w) (tw_target_view w) (apply_batch x (tw_work w)) (tw_open w) w);
  delete_all _ w := (Ok (zlen (tw_work w)), set_target (tw_target w) (tw_target_view w) [] (tw_open w) w);
  maintain_generators _ w := (Ok tt, w);
  commit w := (Some (Ok tt), set_target (tw_work w) None (tw_work w) false w);
  Execution.rollback w := (Ok tt, set_target (tw_target w) None (tw_target w) false w);
  rollback_in_time w := (Some (Ok tt), set_target (tw_target w) None (tw_target w) false w);
|}.
Definition two_adapters : Adapters Two :=
  let opening : Opening Two := fun config _ w =>
    if bool_decide (cf_sqlite_path config = Some (u "x")) then (Ok source_session, w)
    else (Ok target_session, set_target (tw_target w) (tw_target_view w) (tw_work w) false w) in
  mkAdapters Two opening opening opening opening opening.
Definition two_source : Config := mkConfig MySql (Some (u "x")) None [].
Definition two_target : Config := mkConfig MySql (Some (u "y")) None [].
Definition run_now (A : Type) (f : State Two -> A * State Two) (s : State Two) : option A * State Two :=
  let '(x, s) := f s in (Some x, s).
Definition no_file (path : str) (writable : bool) (w : Two) : option (Connection Two) * Two := (None, w).
Definition no_step (c : Connection Two) (w : Two) : bool * Two := (true, w).

Definition two_prepare (w : Two) : result StoredDataPlan DataTaskError * State Two :=
  prepare_task two_environment two_adapters plain_write plain_write zlen sample_layout default_budget
    (fun b => map (fun x => x mod 128) b) (fun _ _ _ => true) Some (fun a b => Some (str_eqb a b)) (fun _ => fresh_counters false)
    (fun m => Some (concat (vm_insert_order m))) (fun _ => Some [1]) (u "plan") (fun _ => false) run_now (fun _ => Some false) no_file
    no_step no_step (u "task") (pair_request Mirror) two_source two_target w.
Definition two_execute (p : StoredDataPlan) (w : Two) : DataTaskResult * State Two :=
  execute_plan two_environment two_adapters plain_write zlen sample_layout default_budget
    (fun b => map (fun x => x mod 128) b) (fun _ _ _ => true) Some (fun a b => Some (str_eqb a b)) run_now (fun _ => Some false) no_file
    no_step no_step p two_source two_target w.
Definition two_world : Two := mkTwo source_rows None [pair_row 3 (u "C")] None [] false (fresh_counters false).

(** The task prepares, executes and commits, and the target mirrors the source. *)
Definition two_run : bool :=
  match two_prepare two_world with
  | (Ok p, s) =>
    let '(r, s) := two_execute p (s_world s) in
    bool_decide (rs_commit_state r = CsCommitted) && bool_decide (tw_target (s_world s) = [pair_row 1 (u "A"); pair_row 2 (u "B")])
  | (Err e, _) => false
  end.
Definition two_mapping : option ValidatedMapping :=
  match two_prepare two_world with (Ok p, _) => Some (sp_mapping p) | (Err _, _) => None end.
Lemma two_runs : two_run = true.
Proof. vm_compute. reflexivity. Qed.
Lemma two_mapped : two_mapping = Some pair_mapping.
Proof. vm_compute. reflexivity. Qed.


Lemma known_stored r : r ∈ known_rows -> stored r.
Proof.
  unfold known_rows. rewrite !elem_of_cons. intros [->|[->|[->|[->|[]%elem_of_nil]]]]; (apply pair_row_stored; [lia|reflexivity]).
Qed.
Lemma two_stream_known rows w l n w' : two_stream rows w = (l, Ok n, w') -> rows = Some l /\ Forall stored l.
Proof.
  unfold two_stream. destruct rows as [rows|]; [|discriminate]. destruct (forallb _ rows) eqn:E; [|discriminate].
  intros H. injection H as <- _ _. split; [done|]. rewrite forallb_true_iff in E. apply list.Forall_forall.
  intros r Hr. apply known_stored. specialize (E r Hr). by apply bool_decide_eq_true_1 in E.
Qed.
Lemma two_stream_world rows w l r w' : two_stream rows w = (l, r, w') -> w' = w.
Proof.
  unfold two_stream. destruct rows as [rows|]; [destruct (forallb _ rows)|]; intros H; injection H as _ _ <-; reflexivity.
Qed.
Lemma stored_wf_rows l : Forall stored l -> Forall wf_row l.
Proof. intros F. eapply list.Forall_impl; [exact F|]. by intros r []. Qed.

Abbreviation two_source_side := (source_side tw_source tw_source_view) (only parsing).
Abbreviation two_target_side := (target_side tw_target tw_target_view) (only parsing).
Abbreviation any_projection := (fun (d : Rows) (_ : list Projection) => d) (only parsing).

Lemma source_reader : Reader tw_source tw_source_view two_target_side any_projection source_session.
Proof.
  split.
  - intros w r w' H. injection H as <- <-. done.
  - intros w r w' H. injection H as <- <-. done.
  - intros ps w rows r w' H%two_stream_world. by rewrite H.
  - intros ps w rows n w' d V _ H. apply two_stream_known in H as [E F]. rewrite V in E. injection E as ->.
    split; [by apply stored_wf_rows|done].
  - intros w r w' H. injection H as <- <-. done.
Qed.
Lemma target_reader : Reader tw_target tw_target_view two_source_side any_projection target_session.
Proof.
  split.
  - intros w r w' H. injection H as <- <-. done.
  - intros w r w' H. injection H as <- <-. done.
  - intros ps w rows r w' H%two_stream_world. by rewrite H.
  - intros ps w rows n w' d V _ H. apply two_stream_known in H as [E F]. rewrite V in E. destruct (tw_open w); [discriminate|].
    injection E as ->. split; [by apply stored_wf_rows|done].
  - intros w r w' H. injection H as <- <-. done.
Qed.
#[export] Instance two_readable : Readable tw_source tw_source_view tw_target tw_target_view any_projection any_projection
  two_environment (open_session two_adapters two_source) (open_session two_adapters two_target).
Proof.
  split; try done.
  - intros e w r w' H. injection H as <- <-. split_and!; [done..|]. intros s H. injection H as <-. exact source_reader.
  - intros e w r w' H. injection H as <- <-. split_and!; [done..|]. intros s H. injection H as <-. exact target_reader.
Qed.
#[export] Instance two_neutral : Neutral two_environment tw_target tw_work tw_open.
Proof. by split. Qed.
Lemma target_transactional : Transactional two_environment tw_target tw_work tw_open any_projection (fun _ => True) target_session.
Proof.
  split.
  - intros ts w r w' _ H. by injection H as <- <-.
  - intros ts w w' _ H. by injection H as <-.
  - intros w r w' _ H. by injection H as <- <-.
  - intros ps w rows r w' _ H%two_stream_world. rewrite H. by split; [|left].
  - intros ps w rows n w' O _ H. apply two_stream_known in H as [E F]. rewrite O in E. destruct (tw_target_view w); [discriminate|].
    injection E as <-. split; [|done]. eapply list.Forall_impl; [exact F|]. intros r []. by split.
  - intros x _ w r w' O H. by injection H as <- <-.
  - intros x w r w' O H. by injection H as <- <-.
  - intros x w r w' O H. by injection H as <- <-.
  - intros w r w' _ H. injection H as <- <-. split; [done|by right].
  - intros w r w' H. by injection H as <- <-.
  - intros w r w' H. by injection H as <- <-.
  - intros w r w' H. by injection H as <- <-.
Qed.
#[export] Instance two_preflight : Preflight two_environment tw_target tw_work tw_open any_projection
  (open_session two_adapters two_source) (open_session two_adapters two_target).
Proof.
  split.
  - intros e w r w' H. by injection H as <- <-.
  - intros e w r w' H. by injection H as <- <-.
  - intros e w t w' H. injection H as <- <-. exists (fun _ => True). split; [exact target_transactional|done].
  - intros e w t w' H. injection H as <- <-. split_and!; intros z r z' H; by injection H as <- <-.
Qed.


End Preparation.
