(* ===== verification/WireRows.v ===== *)
(** What the snapshots of the network databases have in common
    (src-tauri/src/db/data_tasks/adapters/{mysql,postgres,sqlserver,clickhouse}.rs):
    a row arrives as one text, a list of tagged fields, with bytes in
    hexadecimal.  serde_json reads the texts that are JSON; what the adapters
    use of its [Value] is the interface [Documents]. *)
From S2P Require Import Prelude RustText MetaTypes Values Executor.
Import MetaTypes Values Executor.

Module WireRows.

(** ** Documents *)

(** [from_str], [as_array], [value["name"]], [as_str], [is_null]. *)
Class Documents (J : Type) : Type := {
  from_str : str -> option J;
  as_array : J -> option (list J);
  member : String.string -> J -> J;
  text_of : J -> option str;
  is_null_json : J -> bool;
}.

(** The document is the array of these tagged values; [None] is null. *)
Definition shows_field {J} `{Documents J} (j : J) (f : str * option str) : Prop :=
  text_of (member "t"%string j) = Some f.1 /\
  match f.2 with
  | Some v => text_of (member "v"%string j) = Some v /\ is_null_json (member "v"%string j) = false
  | None => text_of (member "v"%string j) = None /\ is_null_json (member "v"%string j) = true
  end.
Definition shows {J} `{Documents J} (j : J) (fields : list (str * option str)) : Prop :=
  exists l, as_array j = Some l /\ Forall2 shows_field l fields.

(** What a parsed text holds is no longer than the text, and well formed. *)
Class DocumentLaws {J : Type} `{Documents J} : Prop := {
  document_fields s j l : from_str s = Some j -> as_array j = Some l -> zlen l <= str_len s;
  document_text s j l x t : from_str s = Some j -> as_array j = Some l -> x ∈ l -> text_of (member "v"%string x) = Some t ->
    str_len t <= str_len s;
  document_wf (j : J) t : text_of j = Some t -> wf_str t;
}.
#[global] Arguments DocumentLaws J {_}.

(** Documents for witnesses: one text, the array of the given fields. *)
Inductive Sample : Type := SArray (l : list (str * option str)) | SField (f : str * option str) | SText (s : str) | SNull.
Definition sample_documents (text : str) (fields : list (str * option str)) : Documents Sample := {|
  from_str s := if str_eqb s text then Some (SArray fields) else None;
  as_array j := match j with SArray l => Some (map SField l) | _ => None end;
  member name j := match j with
                   | SField f => if String.eqb name "t" then SText f.1 else match f.2 with Some s => SText s | None => SNull end
                   | _ => SNull
                   end;
  text_of j := match j with SText s => if bool_decide (wf_str s) then Some s else None | _ => None end;
  is_null_json j := match j with SNull => true | _ => false end;
|}.
(** The fields are well formed, and no longer than the text. *)
Definition sample_field (text : str) (f : str * option str) : bool :=
  bool_decide (wf_str f.1) && match f.2 with Some v => bool_decide (wf_str v) && (str_len v <=? str_len text) | None => true end.
Definition sample_ok (text : str) (fields : list (str * option str)) : bool :=
  forallb (sample_field text) fields && (zlen fields <=? str_len text).
Lemma sample_parses text fields : @from_str Sample (sample_documents text fields) text = Some (SArray fields).
Proof. cbn. by rewrite str_eqb_refl. Qed.
Lemma sample_shows text fields : sample_ok text fields = true -> @shows Sample (sample_documents text fields) (SArray fields) fields.
Proof.
  unfold sample_ok. rewrite andb_true_iff, forallb_true_iff. intros [F _]. exists (map SField fields). split; [done|].
  assert (F' : Forall (fun f => sample_field text f = true) fields) by by apply list.Forall_forall. clear F.
  induction F' as [|f l Hf _ IH]; constructor; [|exact IH]. unfold sample_field in Hf. apply andb_true_iff in Hf as [H1 H2].
  unfold shows_field. cbn. rewrite H1. split; [done|]. destruct (f.2) as [v|]; [|done]. apply andb_true_iff in H2 as [H2 _]. by rewrite H2.
Qed.
Lemma sample_laws text fields : sample_ok text fields = true -> @DocumentLaws Sample (sample_documents text fields).
Proof.
  unfold sample_ok. rewrite andb_true_iff, forallb_true_iff. intros [F N]. split.
  - intros s j l. cbn. destruct (str_eqb s text) eqn:E; [|done]. apply str_eqb_eq in E as ->. intros [= <-] [= <-].
    rewrite zlen_map. lia.
  - intros s j l x t. cbn. destruct (str_eqb s text) eqn:E; [|done]. apply str_eqb_eq in E as ->. intros [= <-] [= <-].
    intros (f & -> & Hf)%list_elem_of_fmap. specialize (F f Hf). unfold sample_field in F. apply andb_true_iff in F as [_ F].
    destruct (f.2) as [v|]; [|done]. apply andb_true_iff in F as [_ F]. case_bool_decide; [|done]. intros [= <-]. lia.
  - intros j t. cbn. destruct j; try done. case_bool_decide; [|done]. by intros [= <-].
Qed.

(** ** Hexadecimal bytes *)

Definition hex_value (c : byte) : option Z :=
  if is_ascii_digit c then Some (c - 48)
  else if (97 <=? c) && (c <=? 102) then Some (c - 87)
  else if (65 <=? c) && (c <=? 70) then Some (c - 55) else None.
(** [u8::from_str_radix] of two bytes: a leading plus is allowed. *)
Definition radix16 (a b : byte) : option byte :=
  if a =? 43 then hex_value b else x ← hex_value a; y ← hex_value b; Some (16 * x + y).

(** [chunks_exact(2)], then every pair. *)
Fixpoint unhex_pairs (l : bytes) : option bytes :=
  match l with
  | a :: b :: l => x ← radix16 a b; r ← unhex_pairs l; Some (x :: r)
  | _ => Some []
  end.
Definition unhex_with (odd bad : str) (text : str) : result bytes str :=
  let l := utf8 text in
  if negb (zlen l mod 2 =? 0) then Err odd else ok_or (unhex_pairs l) bad.

(** *** Digits *)

Definition upper_hex_digit (d : Z) : char := if d <? 10 then 48 + d else 55 + d.
(** The HEX of a server; [hex_byte] has small letters. *)
Definition upper_hex (l : bytes) : str := concat (map (fun b => [upper_hex_digit (b / 16); upper_hex_digit (b mod 16)]) l).
Definition lower_hex (l : bytes) : str := concat (map hex_byte l).

Lemma hex_value_upper d : 0 <= d < 16 -> hex_value (upper_hex_digit d) = Some d /\ 48 <= upper_hex_digit d < 128.
Proof.
  intros D. assert (H : Forall (fun d => hex_value (upper_hex_digit d) = Some d /\ 48 <= upper_hex_digit d < 128) (map Z.of_nat (seq 0 16))).
  { apply (bool_decide_unpack _). by vm_compute. }
  rewrite list.Forall_forall in H. apply H, list_elem_of_fmap. exists (Z.to_nat d). split; [lia|]. apply elem_of_seq. lia.
Qed.
Lemma hex_value_lower d : 0 <= d < 16 -> hex_value (hex_digit d) = Some d /\ 48 <= hex_digit d < 128.
Proof.
  intros D. assert (H : Forall (fun d => hex_value (hex_digit d) = Some d /\ 48 <= hex_digit d < 128) (map Z.of_nat (seq 0 16))).
  { apply (bool_decide_unpack _). by vm_compute. }
  rewrite list.Forall_forall in H. apply H, list_elem_of_fmap. exists (Z.to_nat d). split; [lia|]. apply elem_of_seq. lia.
Qed.

(** Reading what a server writes with either digits. *)
Lemma unhex_pairs_digits (digit : Z -> char) l :
  (forall d, 0 <= d < 16 -> hex_value (digit d) = Some d /\ 48 <= digit d < 128) -> Forall byte_range l ->
  unhex_pairs (concat (map (fun b => [digit (b / 16); digit (b mod 16)]) l)) = Some l.
Proof.
  intros D F. induction F as [|b l B F IH]; [done|]. unfold byte_range in B. cbn [map concat app unhex_pairs]. rewrite IH.
  destruct (D (b / 16) ltac:(split; [apply Z.div_pos; lia|apply Z.div_lt_upper_bound; lia])) as [H1 R1].
  destruct (D (b mod 16) ltac:(apply Z.mod_pos_bound; lia)) as [H2 _].
  unfold radix16. replace (digit (b / 16) =? 43) with false by lia. rewrite H1, H2. cbn. do 2 f_equal.
  pose proof (Z.div_mod b 16 ltac:(lia)). lia.
Qed.
Lemma utf8_ascii s : Forall (fun c => 0 <= c < 128) s -> utf8 s = s.
Proof.
  induction 1 as [|c s C F IH]; [done|]. rewrite utf8_cons, IH. unfold utf8_char. by replace (c <? 128) with true by lia.
Qed.
Lemma hex_ascii (digit : Z -> char) l :
  (forall d, 0 <= d < 16 -> hex_value (digit d) = Some d /\ 48 <= digit d < 128) -> Forall byte_range l ->
  Forall (fun c => 0 <= c < 128) (concat (map (fun b => [digit (b / 16); digit (b mod 16)]) l)).
Proof.
  intros D F. induction F as [|b l B F IH]; [constructor|]. unfold byte_range in B. cbn [map concat app].
  destruct (D (b / 16) ltac:(split; [apply Z.div_pos; lia|apply Z.div_lt_upper_bound; lia])) as [_ R1].
  destruct (D (b mod 16) ltac:(apply Z.mod_pos_bound; lia)) as [_ R2].
  constructor; [lia|]. constructor; [lia|exact IH].
Qed.
Lemma hex_even (digit : Z -> char) l : zlen (concat (map (fun b => [digit (b / 16); digit (b mod 16)]) l)) mod 2 = 0.
Proof.
  replace (zlen _) with (zlen l * 2); [apply Z.mod_mul; lia|].
  induction l as [|b l IH]; [done|]. cbn [map concat app]. rewrite !zlen_cons. lia.
Qed.

Lemma unhex_digits (digit : Z -> char) odd bad l :
  (forall d, 0 <= d < 16 -> hex_value (digit d) = Some d /\ 48 <= digit d < 128) -> Forall byte_range l ->
  unhex_with odd bad (concat (map (fun b => [digit (b / 16); digit (b mod 16)]) l)) = Ok l.
Proof.
  intros D F. unfold unhex_with. rewrite utf8_ascii by (by apply hex_ascii). rewrite hex_even. cbn [negb Z.eqb].
  by rewrite unhex_pairs_digits.
Qed.
Lemma unhex_upper odd bad l : Forall byte_range l -> unhex_with odd bad (upper_hex l) = Ok l.
Proof. apply (unhex_digits upper_hex_digit), hex_value_upper. Qed.
Lemma unhex_lower odd bad l : Forall byte_range l -> unhex_with odd bad (lower_hex l) = Ok l.
Proof. apply (unhex_digits hex_digit), hex_value_lower. Qed.

Lemma hex_value_range c x : hex_value c = Some x -> 0 <= x < 16.
Proof.
  unfold hex_value, is_ascii_digit. repeat case_match; intros [= <-]; to_prop; lia.
Qed.
Lemma unhex_bytes odd bad text l : unhex_with odd bad text = Ok l -> Forall byte_range l.
Proof.
  unfold unhex_with. destruct (negb _); [done|]. intros H. apply ok_or_ok_inv in H. revert H. generalize (utf8 text). intros t.
  assert (G : forall n t l, (length t <= n)%nat -> unhex_pairs t = Some l -> Forall byte_range l).
  { clear. intros n. induction n as [|n IH]; intros [|a [|b t]] l L H; cbn [unhex_pairs length] in *; try (injection H as <-; constructor); try lia.
    destruct (radix16 a b) as [x|] eqn:X; [|done]. cbn in H. destruct (unhex_pairs t) as [r|] eqn:R; [|done]. injection H as <-.
    constructor; [|eapply IH; [|exact R]; lia]. unfold radix16 in X. unfold byte_range. destruct (a =? 43).
    - apply hex_value_range in X. lia.
    - destruct (hex_value a) as [p|] eqn:Pa; [|done]. cbn in X. destruct (hex_value b) as [q|] eqn:Pb; [|done]. injection X as <-.
      apply hex_value_range in Pa, Pb. lia. }
  intros H. by eapply G.
Qed.

(** ** Keys *)

(** The cells of a row that locate it. *)
Definition select_key (e : str) (indices : list nat) (values : list DataValue) : result (list DataValue) str :=
  traverse (fun i => ok_or (values !! i) e) indices.

Definition key_of (indices : list nat) (values : list DataValue) : list DataValue := omap (fun i => values !! i) indices.
Lemma select_key_ok e indices values : Forall (fun i => i < length values)%nat indices ->
  select_key e indices values = Ok (key_of indices values).
Proof.
  intros F. unfold select_key, key_of. induction F as [|i l Hi F IH]; [done|]. cbn [traverse omap list_omap].
  destruct (values !! i) as [v|] eqn:E; [|by apply lookup_ge_None in E; lia]. cbn [ok_or rbind]. by rewrite IH.
Qed.

Lemma select_key_inv e indices values key : select_key e indices values = Ok key ->
  Forall2 (fun i v => values !! i = Some v) indices key.
Proof.
  intros H%traverse_ok_inv. eapply list.Forall2_impl; [exact H|]. intros i v Hv. by apply ok_or_ok_inv in Hv.
Qed.
Lemma select_key_forall (P : DataValue -> Prop) e indices values key : select_key e indices values = Ok key ->
  Forall P values -> Forall P key.
Proof.
  intros H%select_key_inv F. apply list.Forall_lookup_2. intros i v Hv.
  apply (Forall2_lookup_r _ _ _ _ _ H) in Hv as (k & _ & Hk). by eapply (list.Forall_lookup_1 _ _ _ _ F).
Qed.

(** ** Texts of values *)

Lemma utf8_range s : wf_str s -> Forall byte_range (utf8 s).
Proof.
  induction 1 as [|c s C F IH]; [constructor|]. rewrite utf8_cons. apply Forall_app. split; [|exact IH].
  apply is_scalar_range in C. unfold utf8_char, byte_range.
  destruct (c <? 128) eqn:A1; [|destruct (c <? 2048) eqn:A2; [|destruct (c <? 65536) eqn:A3]]; repeat constructor;
    Z.div_mod_to_equations; lia.
Qed.

Lemma show_Z_ascii n : Forall (fun c => 0 <= c < 128) (show_Z n).
Proof.
  assert (H : forall m, 0 <= m -> Forall (fun c => 0 <= c < 128) (show_nonneg m)).
  { intros m M. destruct (show_nonneg_spec m M) as (_ & D & _). apply list.Forall_forall. intros c Hc.
    rewrite forallb_true_iff in D. specialize (D c Hc). apply is_ascii_digit_range in D. lia. }
  unfold show_Z. destruct (n <? 0) eqn:E; [constructor; [lia|]|]; apply H; lia.
Qed.
Lemma ascii_wf s : Forall (fun c => 0 <= c < 128) s -> wf_str s.
Proof. intros F. eapply list.Forall_impl; [exact F|]. intros c Hc. cbn beta in Hc. apply is_ascii_scalar. unfold is_ascii.
  apply andb_true_iff. rewrite Z.leb_le, Z.ltb_lt. lia.
Qed.
Lemma parse_i64_range s n : parse_i64 s = Some n -> i64_range n.
Proof.
  unfold parse_i64, i64_range. intros H.
  assert (G : forall t, parse_uint 9223372036854775807 t = Some n -> -9223372036854775808 <= n <= 9223372036854775807).
  { intros t Ht. pose proof (parse_uint_range _ _ _ Ht). pose proof (parse_uint_nonneg _ _ _ Ht). lia. }
  destruct s as [|c s]; [by apply (G [])|]. destruct (decide (c = 45)) as [->|N].
  - cbn [parse_int] in H. destruct (_ && _) eqn:E; [|done]. injection H as <-. to_prop.
    pose proof (digits_value_nonneg s ltac:(done)). lia.
  - apply (G (c :: s)). rewrite <- H. unfold parse_int. destruct c as [|q|q]; try done.
    repeat (destruct q as [q|q|]; try done).
Qed.
Lemma parse_i64_show n : i64_range n -> parse_i64 (show_Z n) = Some n.
Proof.
  intros N. unfold i64_range in N. unfold show_Z, parse_i64. destruct (n <? 0) eqn:E.
  - destruct (show_nonneg_spec (- n) ltac:(lia)) as (V & A & Ne). cbn [parse_int]. rewrite A, V.
    replace (negb (is_empty (show_nonneg (- n)))) with true by (by destruct (show_nonneg (- n))).
    replace (_ <=? _) with true by lia. cbn. f_equal. lia.
  - destruct (show_nonneg_spec n ltac:(lia)) as (V & A & Ne).
    assert (H : parse_int (-9223372036854775808) 9223372036854775807 (show_nonneg n) = parse_uint 9223372036854775807 (show_nonneg n)).
    { destruct (show_nonneg n) as [|c s]; [done|]. cbn [forallb] in A. apply andb_true_iff in A as [A _].
      apply is_ascii_digit_range in A. unfold parse_int. destruct c as [|q|q]; try done.
      repeat (destruct q as [q|q|]; try done; try lia). }
    rewrite H, parse_uint_digits, V by done. by replace (n <=? 9223372036854775807) with true by lia.
Qed.

(** *** Rows that encode *)

Definition encodable (v : DataValue) : Prop := match v with VDecimal d => is_ok (normalize_decimal d) = true | _ => True end.
Lemma values_bytes_total vs : Forall encodable vs -> exists b, values_bytes vs = Ok b.
Proof.
  intros F. unfold values_bytes. assert (H : exists l, traverse value_canonical_bytes vs = Ok l).
  { induction F as [|v vs V F [l IH]]; [by exists []|]. cbn [traverse]. rewrite IH. destruct v; cbn; eauto.
    cbn in V. destruct (normalize_decimal _); [|done]. cbn. eauto. }
  destruct H as [l ->]. cbn. eauto.
Qed.
Lemma new_row_total t k vs : Forall encodable k -> Forall encodable vs -> new_row t k vs = Ok (mkRow t k vs).
Proof.
  intros K F. unfold new_row, canonical_bytes, key_bytes. cbn [table key values].
  destruct (values_bytes_total k K) as [bk ->], (values_bytes_total vs F) as [bv ->]. done.
Qed.
Lemma key_of_forall (P : DataValue -> Prop) indices vs : Forall P vs -> Forall P (key_of indices vs).
Proof.
  intros F. apply list.Forall_forall. intros v (i & _ & Hv)%list_elem_of_omap. by eapply (list.Forall_lookup_1 _ _ _ _ F).
Qed.

(** Decoding a document field by field. *)
Lemma decode_fields {J A : Type} `{Documents J} (decode : J -> result DataValue str) (field : A -> str * option str)
  (got : A -> DataValue) (P : A -> Prop) (l : list J) (vs : list A) :
  (forall j v, P v -> shows_field j (field v) -> decode j = Ok (got v)) -> Forall P vs -> Forall2 shows_field l (map field vs) ->
  traverse decode l = Ok (map got vs).
Proof.
  intros D. revert vs. induction l as [|j l IH]; intros [|v vs] Pv F; cbn [map] in F; [done|by inversion F|by inversion F|].
  inversion F as [|? ? ? ? Fj Fl]; subst. apply list.Forall_cons in Pv as [Pv Pvs]. cbn [traverse map].
  by rewrite (D _ _ Pv Fj), (IH vs Pvs Fl).
Qed.

Lemma traverse_forall {A : Type} (decode : A -> result DataValue str) (P : DataValue -> Prop) l vs :
  (forall x v, decode x = Ok v -> P v) -> traverse decode l = Ok vs -> Forall P vs.
Proof.
  intros D H%traverse_ok_inv. induction H as [|x v l vs Hx _ IH]; constructor; [by eapply D|exact IH].
Qed.

(** The same for values related to the fields. *)
Lemma decode_related {X F : Type} (sees : X -> F -> Prop) (decode : X -> result DataValue str) (wire : DataValue -> F -> Prop)
  (l : list X) (fields : list F) (vs : list DataValue) :
  (forall x f v, sees x f -> wire v f -> decode x = Ok v) -> Forall2 sees l fields -> Forall2 wire vs fields -> traverse decode l = Ok vs.
Proof.
  intros D S. revert vs. induction S as [|x f l fields Sx S IH]; intros vs Ws; inversion Ws as [|v ? vs' ? Wv Wvs]; subst; [done|].
  cbn [traverse]. by rewrite (D _ _ _ Sx Wv), (IH vs' Wvs).
Qed.

(** *** Lengths *)

Definition text_size (v : DataValue) : Z :=
  match v with
  | VText s | VDecimal s | VJson s => str_len s
  | VBinary l | VUuid l => zlen l
  | VTemporal k s => str_len k + str_len s
  | _ => 0
  end.
Lemma text_size_bound v b : value_canonical_bytes v = Ok b -> zlen b <= 17 + text_size v.
Proof.
  destruct v; cbn [value_canonical_bytes text_size]; intros C; inv_ok; autorewrite with zlen; unfold str_len in *; try lia.
  apply normalize_decimal_length in Hx. unfold str_len in Hx. lia.
Qed.
(** A row of not too many fields, none too long, encodes. *)
Lemma row_fits r b (limit : Z) : canonical_bytes r = Ok b -> 0 <= limit <= 268435456 -> zlen (values r) <= 268435456 -> zlen (key r) <= u32_max ->
  str_len (table r) <= u32_max -> Forall (fun v => text_size v <= limit) (values r) -> Forall (fun v => text_size v <= limit) (key r) ->
  zlen b <= usize_max.
Proof.
  intros C L Nv Nk Nt Fv Fk. destruct (canonical_bytes_parts r b C) as (ek & ev & Ek & Ev & Z). rewrite Z, map_app, concat_app, zlen_app.
  assert (B : forall vs enc, Forall2 (fun v b => value_canonical_bytes v = Ok b) vs enc -> Forall (fun v => text_size v <= limit) vs ->
    zlen (concat (map field enc)) <= zlen vs * (25 + limit)).
  { intros vs enc F. induction F as [|v x vs enc Hx F IH]; intros Fs; cbn [map concat]; [done|].
    apply list.Forall_cons in Fs as [Fx Fs]. specialize (IH Fs). apply text_size_bound in Hx. rewrite zlen_app, field_length, zlen_cons. lia. }
  pose proof (B _ _ Ev Fv) as B1. pose proof (B _ _ Ek Fk) as B2. pose proof (zlen_nonneg (values r)). pose proof (zlen_nonneg (key r)).
  assert (zlen (values r) * (25 + limit) <= 268435456 * 268435481) by (apply Z.mul_le_mono_nonneg; lia).
  assert (zlen (key r) * (25 + limit) <= u32_max * 268435481) by (apply Z.mul_le_mono_nonneg; lia).
  unfold usize_max, u64_max, u32_max in *. lia.
Qed.

Lemma one_of_short s l : one_of s l = true -> Forall (fun x => bool_decide (wf_str (u x)) && (str_len (u x) <=? 32) = true) l ->
  wf_str s /\ str_len s <= 32.
Proof.
  intros K F. unfold one_of in K. apply existsb_true_iff in K as (x & Hx & ->%str_eqb_eq). rewrite list.Forall_forall in F.
  specialize (F x Hx). apply andb_true_iff in F as [F1%bool_decide_eq_true_1 F2]. split; [done|lia].
Qed.
(** A row of values that came out of a payload is well typed and fits. *)
Lemma row_typed e indices tbl vs k bs : wf_str tbl -> str_len tbl <= u32_max -> zlen indices <= u32_max -> zlen vs <= 33554432 ->
  Forall (fun v => wf_value v /\ text_size v <= 32 + 33554432) vs -> select_key e indices vs = Ok k ->
  canonical_bytes (mkRow tbl k vs) = Ok bs ->
  wf_row (mkRow tbl k vs) /\ exists b, canonical_bytes (mkRow tbl k vs) = Ok b /\ zlen b <= usize_max.
Proof.
  intros Wt Lt Lk Lv G K C. pose proof (select_key_forall _ _ _ _ _ K G) as Gk.
  assert (Wv : forall l, Forall (fun v => wf_value v /\ text_size v <= 32 + 33554432) l -> Forall wf_value l /\ Forall (fun v => text_size v <= 33554464) l).
  { intros l0 F0. split; (eapply list.Forall_impl; [exact F0|]); intros v [? ?]; [done|lia]. }
  destruct (Wv _ G) as [G1 G2]. destruct (Wv _ Gk) as [G3 G4].
  split; [split; [done|by split]|]. exists bs. split; [done|]. apply select_key_inv, Forall2_length in K.
  apply (row_fits _ bs 33554464 C); cbn [values key table]; [lia|lia| |done|done|done].
  unfold zlen in *. lia.
Qed.

Lemma unhex_length odd bad text l : unhex_with odd bad text = Ok l -> zlen l <= str_len text.
Proof.
  unfold unhex_with, str_len. destruct (negb _); [done|]. intros H. apply ok_or_ok_inv in H. revert H. generalize (utf8 text). intros t.
  assert (G : forall n t l, (length t <= n)%nat -> unhex_pairs t = Some l -> zlen l <= zlen t).
  { clear. intros n. induction n as [|n IH]; intros [|a [|b t]] l L H; cbn [unhex_pairs length] in *; try (injection H as <-; apply (zlen_nonneg (A := byte))); try lia.
    destruct (radix16 a b) as [x|]; [|done]. cbn in H. destruct (unhex_pairs t) as [r|] eqn:R; [|done]. injection H as <-.
    apply IH in R; [|lia]. rewrite !zlen_cons. lia. }
  intros H. by eapply G.
Qed.

(** *** Short rows *)

Lemma sat_add_small a b : sat_add a b < u64_max -> sat_add a b = a + b.
Proof. unfold sat_add. lia. Qed.
Lemma value_size_small v b : wf_value v -> value_canonical_bytes v = Ok b -> value_encoded_size v < u64_max ->
  zlen b <= value_encoded_size v.
Proof.
  intros Wv C L. assert (U : 17 <= u64_max) by (by vm_compute). apply value_encoded_size_bound; [exact Wv|exact C|].
  destruct v; cbn [value_canonical_bytes value_encoded_size wf_value] in Wv, C, L; inv_ok; autorewrite with zlen;
    try (apply sat_add_small in L as L'; unfold str_len in *); try lia.
  - apply normalize_decimal_length in Hx. unfold str_len in Hx. lia.
  - pose proof (zlen_nonneg (utf8 value)). assert (sat_add 17 (zlen (utf8 kind)) < u64_max) as K by lia.
    apply sat_add_small in K. lia.
Qed.
Lemma sizes_small vs enc n : Forall wf_value vs -> Forall2 (fun v b => value_canonical_bytes v = Ok b) vs enc -> 0 <= n ->
  fold_left (fun n v => sat_add (sat_add n 8) (value_encoded_size v)) vs n < u64_max ->
  n + zlen (concat (map field enc)) <= fold_left (fun n v => sat_add (sat_add n 8) (value_encoded_size v)) vs n.
Proof.
  intros Wf F. revert n. induction F as [|v b vs enc C F IH]; intros n N L; cbn [fold_left map concat] in *; [rewrite zlen_nil; lia|].
  apply list.Forall_cons in Wf as [Wv Wf]. pose proof (value_encoded_size_nonneg v) as Sn.
  assert (M : forall (l : list DataValue) m, m <= u64_max -> m <= fold_left (fun n v => sat_add (sat_add n 8) (value_encoded_size v)) l m).
  { intros l. induction l as [|x l IHl]; intros m Hm; cbn [fold_left]; [lia|]. pose proof (value_encoded_size_nonneg x).
    etransitivity; [|apply IHl; unfold sat_add; lia]. unfold sat_add. lia. }
  set (m := sat_add (sat_add n 8) (value_encoded_size v)) in *.
  pose proof (M vs m ltac:(unfold m, sat_add; lia)) as Mm. assert (E : m = n + 8 + value_encoded_size v) by (unfold m, sat_add in *; lia).
  pose proof (value_size_small v b Wv C ltac:(lia)) as Sv. rewrite zlen_app, field_length.
  specialize (IH Wf m ltac:(lia) L). lia.
Qed.
Lemma row_size_small r b : wf_row r -> canonical_bytes r = Ok b -> encoded_size r < u64_max -> zlen b <= encoded_size r.
Proof.
  intros (_ & Wk & Wv) C L. destruct (canonical_bytes_parts r b C) as (ek & ev & Fk & Fv & Z). rewrite Z.
  unfold encoded_size in *. pose proof (str_len_nonneg (table r)).
  assert (S : sat_add 24 (str_len (table r)) = 24 + str_len (table r)).
  { destruct (Z.le_gt_cases (24 + str_len (table r)) u64_max) as [Hle|Hgt]; [unfold sat_add; lia|]. exfalso.
    replace (sat_add 24 (str_len (table r))) with u64_max in L by (unfold sat_add; lia).
    assert (M : forall (l : list DataValue), fold_left (fun n v => sat_add (sat_add n 8) (value_encoded_size v)) l u64_max = u64_max).
    { intros l. induction l as [|x l IHl]; cbn [fold_left]; [done|]. pose proof (value_encoded_size_nonneg x).
      replace (sat_add (sat_add u64_max 8) (value_encoded_size x)) with u64_max by (unfold sat_add; lia). done. }
    rewrite M in L. lia. }
  rewrite S in *. apply sizes_small; [by apply Forall_app|by apply Forall2_app|lia|done].
Qed.

End WireRows.
