(* ===== verification/NetworkChannel.v ===== *)
(** What the channels to the network databases share
    (src-tauri/src/db/data_tasks/adapters/{mysql,postgres,sqlserver}.rs): the
    rows of a driver, the queries that load a schema one after the other, and
    the loop that forwards the rows of a snapshot under the memory budget.

    A driver is a record of calls over the world; what its rows hold is read
    through [Columns], whose conversions are the driver's own. *)
From S2P Require Import Prelude RustText MetaTypes Values Spool SpoolSort Batch Executor Execution SqliteAdapter WireRows.
Import MetaTypes Values Spool SpoolSort Executor Execution WireRows.

Module NetworkChannel.

(** ** Rows of a driver *)

Inductive IntType : Type := U8 | U32 | U64 | I32 | I64.
(** [None]: the column is missing or does not convert. *)
Class Columns (R : Type) : Type := {
  string_at : R -> nat -> option str;
  optional_string_at : R -> nat -> option (option str);
  integer_at : IntType -> R -> nat -> option Z;
  optional_integer_at : IntType -> R -> nat -> option (option Z);
  bool_at : R -> nat -> option bool;
  strings_at : R -> nat -> option (list str);
}.

(** [list.get(n as usize)]. *)
Definition get_index {A} (l : list A) (n : Z) : option A := if n <? 0 then None else l !! Z.to_nat n.

(** [n as u32] of an [i32]. *)
Definition as_u32 (n : Z) : Z := n mod 4294967296.

(** ** Queries in sequence *)

(** A function that asks the server, reads the rows, and goes on: [failed]
    turns the driver's error into the text of the source. *)
Inductive Catalog (R E A : Type) : Type :=
| Done (r : result A str)
| Ask (sql : str) (arguments : list str) (failed : E -> str) (next : list R -> Catalog R E A).
Arguments Done {R E A}. Arguments Ask {R E A}.

Section Catalogs.
Context {R E : Type}.

Fixpoint and_then {A B : Type} (p : Catalog R E A) (k : A -> Catalog R E B) : Catalog R E B :=
  match p with
  | Done (Ok x) => k x
  | Done (Err e) => Done (Err e)
  | Ask sql arguments failed next => Ask sql arguments failed (fun rows => and_then (next rows) k)
  end.

(** Against a driver, and against fixed answers. *)
Fixpoint run {W A : Type} (query : str -> list str -> W -> result (list R) E * W) (p : Catalog R E A) (w : W) : result A str * W :=
  match p with
  | Done r => (r, w)
  | Ask sql arguments failed next =>
    match query sql arguments w with
    | (Ok rows, w) => run query (next rows) w
    | (Err e, w) => (Err (failed e), w)
    end
  end.
Fixpoint eval {A : Type} (answers : str -> list str -> list R) (p : Catalog R E A) : result A str :=
  match p with
  | Done r => r
  | Ask sql arguments _ next => eval answers (next (answers sql arguments))
  end.
(** Every statement it may send. *)
Fixpoint asks {A : Type} (P : str -> Prop) (p : Catalog R E A) : Prop :=
  match p with
  | Done _ => True
  | Ask sql _ _ next => P sql /\ forall rows, asks P (next rows)
  end.

Lemma asks_weaken {A : Type} (P Q : str -> Prop) (p : Catalog R E A) : (forall sql, P sql -> Q sql) -> asks P p -> asks Q p.
Proof. intros PQ. induction p as [r|sql arguments failed next IH]; [done|]. intros [H N]. split; [by apply PQ|]. intros rows. by apply IH. Qed.
Lemma asks_and_then {A B : Type} (P : str -> Prop) (p : Catalog R E A) (k : A -> Catalog R E B) :
  asks P p -> (forall x, asks P (k x)) -> asks P (and_then p k).
Proof.
  intros H K. induction p as [[x|e]|sql arguments failed next IH]; cbn [and_then]; [apply K|done|].
  destruct H as [H N]. split; [done|]. intros rows. by apply IH.
Qed.
Lemma run_and_then {W A B : Type} query (p : Catalog R E A) (k : A -> Catalog R E B) (w : W) : run query (and_then p k) w =
  match run query p w with (Ok x, w) => run query (k x) w | (Err e, w) => (Err e, w) end.
Proof.
  revert w. induction p as [[x|e]|sql arguments failed next IH]; intros w; [done..|]. cbn [and_then run].
  destruct (query sql arguments w) as [[rows|e] w1]; [apply IH|done].
Qed.
End Catalogs.

Declare Scope catalog_scope.
Delimit Scope catalog_scope with catalog.
Notation "'try!' x := m 'in' k" := (match m with Ok x => k | Err e => Done (Err e) end)
  (at level 10, x pattern, m at level 100, k at level 200) : catalog_scope.
Notation "'ask!' x := sql , arguments 'with' failed 'in' k" := (Ask sql arguments failed (fun x => k))
  (at level 10, x name, sql at level 100, arguments at level 100, failed at level 100, k at level 200) : catalog_scope.

(** ** Maps of tables *)

(** [BTreeMap::into_values]. *)
Definition into_values (m : gmap str DataTable) : list DataTable := map snd (sort_by (cmp_on fst str_cmp) (map_to_list m)).
Definition set_columns (t : DataTable) (create_sql : str) (columns : list DataColumn) : DataTable :=
  mkTable (tb_name t) create_sql columns (tb_foreign_keys t) (tb_enabled_user_triggers t) (tb_physical t).
Definition push_sql (t : DataTable) (text : str) : DataTable :=
  mkTable (tb_name t) (tb_create_sql t ++ text) (tb_columns t) (tb_foreign_keys t) (tb_enabled_user_triggers t) (tb_physical t).
Definition push_foreign_key (t : DataTable) (fk : DataForeignKey) : DataTable :=
  mkTable (tb_name t) (tb_create_sql t) (tb_columns t) (tb_foreign_keys t ++ [fk]) (tb_enabled_user_triggers t) (tb_physical t).
Definition with_triggers (t : DataTable) (enabled : bool) : DataTable :=
  mkTable (tb_name t) (tb_create_sql t) (tb_columns t) (tb_foreign_keys t) enabled (tb_physical t).

(** [{:?}] of an [Option]. *)
Definition debug_option (shown : option str) : str := match shown with Some s => u "Some(" ++ s ++ u ")" | None => u "None" end.
Definition show_bool (b : bool) : str := if b then u "true" else u "false".

(** ** Forwarding rows *)

(** A row of a snapshot: the bytes to reserve while it is decoded, and the
    decoded row, or the error met before. *)
Definition Item : Type := result (Z * result CanonicalRow str) str.

Section Forward.
Context {W : Type} (env : Environment W) (layout : Layout) (b : ResourceBudget).
Context (sleep : W -> W) (deliver : CanonicalRow -> W -> bool * W).
(** Waiting for the next row, and whether the cancellation ends a wait. *)
Context (fetch : W -> W) (interrupted : W -> bool).

Definition checked (w : W) : result unit str * W :=
  (if e_cancelled env w then Err (u "cancelled: 数据任务已取消") else Ok tt, w).
(** [RowSender::reserve_decode], and the lease's end. *)
Definition decode_lease (polls : nat) (n : Z) (w : W) : result unit str * W :=
  if memory_bytes b <? n then (Err (u "resource_limit: 单行解码超过共享内存预算"), w)
  else SqliteAdapter.reserve_decode env b sleep polls n w.
Definition drop_decode (n : Z) (w : W) : W := e_set_counters env (drop_lease n (e_counters env w)) w.

(** One row: the lease covers its decoding; the sending may be interrupted, and
    [sent] is what becomes of its error. *)
Definition forward (polls : nat) (sending : option str) (sent : str -> str) (item : Item) (w : W) : result CanonicalRow str * W :=
  match item with
  | Err e => (Err e, w)
  | Ok (n, decoded) =>
    match decode_lease polls n w with
    | (Err e, w) => (Err e, w)
    | (Ok _, w) =>
      let w := drop_decode n w in
      match decoded with
      | Err e => (Err e, w)
      | Ok row =>
        match sending with
        | Some e => if interrupted w then (Err e, w) else
                    let '(r, w) := SqliteAdapter.send env layout b sleep deliver polls row w in ((let? _ := map_err sent r in Ok row), w)
        | None => let '(r, w) := SqliteAdapter.send env layout b sleep deliver polls row w in ((let? _ := map_err sent r in Ok row), w)
        end
      end
    end
  end.
(** The rows the receiver took, and how many there were: the stream ends with
    its last row ([complete]) or with an error. *)
Fixpoint forward_rows {R : Type} (item : R -> Item) (polls : nat) (waiting sending : option str) (sent : str -> str) (failed : str)
  (rows : list R) (complete : bool) (taken : Rows) (w : W) : Rows * result Z str * W :=
  let w := fetch w in
  match (if interrupted w then waiting else None) with
  | Some e => (taken, Err e, w)
  | None =>
    match rows with
    | [] => (taken, (if complete then Ok (zlen taken) else Err failed), w)
    | row :: rows =>
      match checked w with
      | (Err e, w) => (taken, Err e, w)
      | (Ok _, w) =>
        match forward polls sending sent (item row) w with
        | (Err e, w) => (taken, Err e, w)
        | (Ok r, w) => forward_rows item polls waiting sending sent failed rows complete (taken ++ [r]) w
        end
      end
    end
  end.
End Forward.

(** ** What the reading leaves alone *)

(** Statements that only read. *)
Definition read_statement (sql : str) : Prop := starts_with (u "SELECT ") sql = true \/ starts_with (u "SHOW ") sql = true.

(** A snapshot query is a union of SELECTs. *)
Lemma union_reads {A : Type} (part : nat -> A -> result str str) (sep : str) ps parts :
  (forall i p s, part i p = Ok s -> starts_with (u "SELECT ") s = true) -> is_empty ps = false ->
  traverse (fun '(i, p) => part i p) (imap pair ps) = Ok parts -> read_statement (join sep parts).
Proof.
  intros S. destruct ps as [|p ps]; [done|]. intros _ T. left. cbn [imap traverse] in T.
  apply rbind_ok_inv in T as (first & Fs%S & T). apply rbind_ok_inv in T as (rest & _ & T). apply Ok_inj in T as <-.
  destruct rest as [|s rest]; [exact Fs|]. rewrite join_cons by done. by apply Batch.starts_with_app.
Qed.

(** The rows that the items of a snapshot decode to. *)
Definition decoded_of (item : Item) : option CanonicalRow := match item with Ok (_, Ok r) => Some r | _ => None end.

Section Laws.
Context {W D R : Type} (env : Environment W) (db work : W -> D) (open : W -> bool).
Abbreviation obs := (observed db work open) (only parsing).

(** A query that succeeds leaves the session as it was. *)
Class QueryLaws {E : Type} (query : str -> list str -> W -> result (list R) E * W) : Prop := {
  query_reads sql arguments w r w' : read_statement sql -> open w = true -> query sql arguments w = (r, w') ->
    db w' = db w /\ (forall rows, r = Ok rows -> obs w' = obs w);
}.

Context (layout : Layout) (b : ResourceBudget) (sleep fetch : W -> W) (deliver : CanonicalRow -> W -> bool * W)
  (interrupted : W -> bool).
Context `{!Neutral env db work open, !SqliteAdapter.Quiet db work open sleep deliver}.
Hypothesis fetch_quiet : forall w, obs (fetch w) = obs w.

Lemma decode_lease_obs polls n w r w' : decode_lease env b sleep polls n w = (r, w') -> obs w' = obs w.
Proof. unfold decode_lease. destruct (_ <? _); [by intros [= <- <-]|]. apply (SqliteAdapter.reserve_decode_obs env db work open b sleep deliver). Qed.
Lemma drop_decode_obs n w : obs (drop_decode env n w) = obs w.
Proof. apply (neutral_counters env db work open). Qed.

Lemma forward_obs polls sending sent item w r w' : forward env layout b sleep deliver interrupted polls sending sent item w = (r, w') ->
  obs w' = obs w /\ forall x, r = Ok x -> decoded_of item = Some x.
Proof.
  unfold forward. destruct item as [[n decoded]|e]; [|by intros [= <- <-]].
  destruct (decode_lease _ _ _ _ _ _) as [[[]|e] w1] eqn:L; apply decode_lease_obs in L; [|by intros [= <- <-]].
  pose proof (drop_decode_obs n w1) as Dd. destruct decoded as [row|e]; [|intros [= <- <-]; by rewrite Dd].
  assert (S : forall w1, obs w1 = obs w -> (let '(r, w2) := SqliteAdapter.send env layout b sleep deliver polls row w1 in
                                          ((let? _ := map_err sent r in Ok row), w2)) = (r, w') ->
    obs w' = obs w /\ forall x, r = Ok x -> Some row = Some x).
  { intros w2 E2. destruct (SqliteAdapter.send _ _ _ _ _ _ _ _) as [x w3] eqn:Sn. pose proof (SqliteAdapter.send_obs env db work open layout b sleep deliver _ _ _ _ _ Sn) as Es.
    intros [= <- <-]. split; [congruence|]. intros y. destruct x; cbn; [by intros [= <-]|done]. }
  cbn [decoded_of]. destruct sending as [e|]; [|apply S; congruence].
  destruct (interrupted _); [intros [= <- <-]; split; [congruence|done]|apply S; congruence].
Qed.

Lemma forward_rows_obs (item : R -> Item) polls waiting sending sent failed rows complete taken w out r w' :
  forward_rows env layout b sleep deliver fetch interrupted item polls waiting sending sent failed rows complete taken w = (out, r, w') ->
  obs w' = obs w /\ (exists l, out = taken ++ l /\ Forall (fun x => Exists (fun row => decoded_of (item row) = Some x) rows) l) /\
  forall n, r = Ok n -> complete = true /\ out = taken ++ omap (fun row => decoded_of (item row)) rows /\ n = zlen out.
Proof.
  revert taken w. induction rows as [|row rows IH]; intros taken w; cbn [forward_rows]; pose proof (fetch_quiet w) as Fw.
  - destruct (if interrupted (fetch w) then waiting else None) as [e|].
    + intros [= <- <- <-]. split; [done|]. split; [exists []; by rewrite app_nil_r|done].
    + intros [= <- <- <-]. split; [done|]. split; [exists []; by rewrite app_nil_r|]. intros n. destruct complete; [|done].
      intros [= <-]. by rewrite app_nil_r.
  - destruct (if interrupted (fetch w) then waiting else None) as [e|].
    { intros [= <- <- <-]. split; [done|]. split; [exists []; by rewrite app_nil_r|done]. }
    unfold checked. destruct (e_cancelled env (fetch w)).
    { intros [= <- <- <-]. split; [done|]. split; [exists []; by rewrite app_nil_r|done]. }
    destruct (forward _ _ _ _ _ _ _ _ _ (item row) (fetch w)) as [[x|e] w1] eqn:Fd; apply forward_obs in Fd as [E1 X1].
    2: { intros [= <- <- <-]. split; [congruence|]. split; [exists []; by rewrite app_nil_r|done]. }
    specialize (X1 x eq_refl). intros Hf. apply IH in Hf as (E2 & (l & -> & Fl) & C). split; [congruence|]. split.
    + exists (x :: l). rewrite <- app_assoc. split; [done|]. constructor; [by left|].
      eapply list.Forall_impl; [exact Fl|]. intros y Hy. by right.
    + intros n Hn. destruct (C n Hn) as (Cc & Co & Cn). split; [done|]. cbn [omap list_omap]. rewrite X1. split; [|done].
      rewrite Co, <- app_assoc. done.
Qed.

(** ** Running a catalog *)

Lemma run_reads {E A : Type} (query : str -> list str -> W -> result (list R) E * W)
  `{!QueryLaws query} (p : Catalog R E A) w r w' :
  asks read_statement p -> open w = true -> run query p w = (r, w') ->
  db w' = db w /\ (forall x, r = Ok x -> obs w' = obs w).
Proof.
  revert w. induction p as [x|sql arguments failed next IH]; intros w As O; cbn [run]; [by intros [= <- <-]|].
  destruct As as [Rd As]. destruct (query sql arguments w) as [[rows|e] w1] eqn:Q; destruct (query_reads _ _ _ _ _ Rd O Q) as [E1 X1].
  - specialize (X1 rows eq_refl). intros Hr. apply IH in Hr as [E2 X2]; [|apply As|injection X1 as _ _ X1; congruence].
    split; [congruence|]. intros x Hx. rewrite (X2 x Hx). done.
  - intros [= <- <-]. split; [done|discriminate].
Qed.

(** Statements whose answers are determined by the session's state. *)
Lemma run_eval {E A : Type} (answers : D -> str -> list str -> list R) (query : str -> list str -> W -> result (list R) E * W)
  `{!QueryLaws query} (P : str -> Prop) (p : Catalog R E A) w x w' :
  (forall sql arguments w rows w', P sql -> open w = true -> query sql arguments w = (Ok rows, w') -> rows = answers (work w) sql arguments) ->
  asks (fun sql => read_statement sql /\ P sql) p -> open w = true -> run query p w = (Ok x, w') -> eval (answers (work w)) p = Ok x.
Proof.
  intros L. revert w. induction p as [r|sql arguments failed next IH]; intros w As O; cbn [run eval]; [by intros [= -> _]|].
  destruct As as [[Rd Ps] As]. destruct (query sql arguments w) as [[rows|e] w1] eqn:Q; [|done].
  destruct (query_reads _ _ _ _ _ Rd O Q) as [_ X1]. specialize (X1 rows eq_refl). injection X1 as _ X1 X2.
  intros Hr. apply IH in Hr; [|apply As|congruence]. rewrite X1 in Hr. by rewrite <- (L _ _ _ _ _ Ps O Q).
Qed.
End Laws.

(** ** A session's state in the world *)

#[export] Instance DataColumn_eq_dec : EqDecision DataColumn.
Proof. solve_decision. Defined.
#[export] Instance DataForeignKey_eq_dec : EqDecision DataForeignKey.
Proof. solve_decision. Defined.
#[export] Instance DataTable_eq_dec : EqDecision DataTable.
Proof. solve_decision. Defined.

Section Sessions.
Context {W D S : Type} (env : Environment W) (db work : W -> D) (tx : W -> bool).
(** The fields of the session, the tables it has loaded, and the tables that a
    state of the database has. *)
Context (state : W -> S) (set_state : S -> W -> W) (known : S -> option (list DataTable)) (schema : D -> result (list DataTable) str).

(** The loaded tables are those of the state the session works on. *)
Definition coherent (s : S) (d : D) : bool :=
  match known s with None => true | Some tables => bool_decide (schema d = Ok tables) end.
(** A transaction that can commit, in a session that knows its tables. *)
Definition open_session (w : W) : bool := tx w && coherent (state w) (work w).
Definition idle_session (w : W) : Prop := tx w = false /\ known (state w) = None.

Lemma observed_open w w' : observed db work tx w' = observed db work tx w -> state w' = state w ->
  observed db work open_session w' = observed db work open_session w.
Proof. intros O E. injection O as O1 O2 O3. unfold observed, open_session. by rewrite O1, O2, O3, E. Qed.
Lemma open_inv w : open_session w = true -> tx w = true /\ forall tables, known (state w) = Some tables -> schema (work w) = Ok tables.
Proof.
  intros [T C]%andb_true_iff. split; [done|]. intros tables K. unfold coherent in C. rewrite K in C. by apply bool_decide_eq_true_1 in C.
Qed.
Lemma open_intro w : tx w = true -> (forall tables, known (state w) = Some tables -> schema (work w) = Ok tables) -> open_session w = true.
Proof.
  intros T C. apply andb_true_iff. split; [done|]. unfold coherent. destruct (known (state w)) as [tables|]; [|done].
  apply bool_decide_eq_true_2. by apply C.
Qed.

Context (sleep fetch : W -> W) (deliver : CanonicalRow -> W -> bool * W).
(** The session's fields are its own, and apart from the database. *)
Class Frame : Prop := {
  frame_get s w : state (set_state s w) = s;
  frame_set s w : observed db work tx (set_state s w) = observed db work tx w;
  frame_sticky s w : e_cancelled env w = true -> e_cancelled env (set_state s w) = true;
  frame_callback p w : state (e_callback env p w) = state w;
  frame_counters c w : state (e_set_counters env c w) = state w;
  frame_sleep w : state (sleep w) = state w;
  frame_fetch w : state (fetch w) = state w;
  frame_deliver r w x w' : deliver r w = (x, w') -> state w' = state w;
  frame_waits w : observed db work tx (fetch w) = observed db work tx w;
}.
Context `{!Frame, !Neutral env db work tx, !SqliteAdapter.Quiet db work tx sleep deliver}.

Lemma neutral_open : Neutral env db work open_session.
Proof.
  split.
  - intros p w. apply observed_open; [apply (neutral_callback env db work tx)|apply frame_callback].
  - intros c w. apply observed_open; [apply (neutral_counters env db work tx)|apply frame_counters].
  - intros p w. apply (sticky_callback env db work tx).
  - intros c w. apply (sticky_counters env db work tx).
Qed.
Lemma quiet_open : SqliteAdapter.Quiet db work open_session sleep deliver.
Proof.
  split.
  - intros w. apply observed_open; [eapply SqliteAdapter.quiet_sleep; apply _|apply frame_sleep].
  - intros r w x w' Dl. apply observed_open; [by eapply SqliteAdapter.quiet_deliver|by eapply frame_deliver].
Qed.
Lemma fetch_open w : observed db work open_session (fetch w) = observed db work open_session w.
Proof. apply observed_open; [apply frame_waits|apply frame_fetch]. Qed.
(** Fields may change as long as the known tables do not. *)
Lemma set_open s w : known s = known (state w) -> observed db work open_session (set_state s w) = observed db work open_session w.
Proof.
  intros K. pose proof (frame_set s w) as F. injection F as F1 F2 F3. unfold observed, open_session, coherent.
  by rewrite F1, F2, F3, frame_get, K.
Qed.
End Sessions.

End NetworkChannel.
