(* ===== verification/MysqlWire.v ===== *)
(** What travels between the MySQL channel and the server
    (src-tauri/src/db/data_tasks/adapters/mysql.rs): the statements it builds,
    the versions and grants it accepts, the rows it decodes and the values it
    binds. *)
From S2P Require Import Prelude RustText DataTypes MetaTypes Values TypeMapping Batch Executor SqliteAdapter WireRows.
Import DataTypes MetaTypes Values TypeMapping Batch Executor SqliteAdapter WireRows.

Module MysqlWire.

Definition DATABASE_ERROR : str := u "MySQL/MariaDB 数据任务失败，请检查权限、事务表、约束及数据库连接".
Definition id (name : str) : str := identifier DMySql name.

(** ** Statements *)

Definition protected_write_sql (database : str) (tables : list str) : result str str :=
  if is_empty tables || (100 <? zlen tables) then Err (u "invalid_mapping: 受保护写入必须包含 1 至 100 张表")
  else
    let names := remove_dups (sort_by str_cmp tables) in
    Ok (u "SET SESSION innodb_lock_wait_timeout=10; SET SESSION lock_wait_timeout=10; SET autocommit=0; LOCK TABLES "
        ++ join (u ",") (map (fun t => id database ++ u "." ++ id t ++ u " WRITE") names)).

(** ** Versions *)

(** [tail.bytes().all(|b| b.is_ascii_digit())], not empty. *)
Definition all_digits (s : str) : bool := negb (is_empty s) && forallb is_ascii_digit (utf8 s).
Definition parse_u32 : str -> option Z := parse_uint u32_max.
Definition at_least (minimum : Z) (patch : str) : bool :=
  all_digits patch && is_some_and (fun n => minimum <=? n) (parse_u32 patch).
Definition without_log (s : str) : str := default s (strip_suffix (u "-log") s).
(** [str::split_once] of a string. *)
Fixpoint split_once_str (p s : str) : option (str * str) :=
  match strip_prefix p s with
  | Some r => Some ([], r)
  | None => match s with [] => None | c :: s => (fun '(a, b) => (c :: a, b)) <$> split_once_str p s end
  end.

Definition minimum_patch (major minor : Z) : option Z :=
  if (major =? 10) && (0 <=? minor) && (minor <=? 11)
  then [10; 8; 6; 7; 6; 4; 3; 3; 3; 2; 2; 2] !! Z.to_nat minor
  else if ((major =? 11) && (0 <=? minor) && (minor <=? 8)) || ((major =? 12) && (0 <=? minor) && (minor <=? 3)) then Some 2
  else None.
Definition codenames : list String.string :=
  ["wheezy"; "jessie"; "stretch"; "buster"; "bullseye"; "bookworm"; "trixie"; "precise"; "trusty"; "xenial"; "bionic"; "focal";
   "jammy"; "noble"]%string.
Definition distribution_tail (tail : bytes) : bool :=
  is_some_and is_ascii_digit (head tail) && forallb (fun c => is_ascii_alphanumeric c || (c =? 46) || (c =? 43) || (c =? 126)) tail.
Definition release_parts (release : str) : option (list Z) :=
  mapM (fun part => if all_digits part then parse_u32 part else None) (split_char 46 release).
Definition mariadb_suffix_verified (release suffix : str) : bool :=
  let suffix := without_log suffix in
  if is_empty suffix then true
  else
    match strip_prefix [45] suffix with
    | None => false
    | Some distribution =>
      let package := match strip_prefix (u "1:" ++ release ++ u "+maria~") distribution with
                     | Some d => Some d
                     | None => strip_prefix (u "1~") distribution
                     end in
      let distribution := default distribution package in
      if is_some package && one_of distribution codenames then true
      else existsb (fun prefix => is_some_and (fun tail => distribution_tail (utf8 tail)) (strip_prefix (u prefix) distribution))
             ["ubu"; "deb"; "0+deb"; "0ubuntu"]%string
    end.
Definition mariadb_version_verified (version : str) : bool :=
  let version := default version (strip_prefix (u "5.5.5-") version) in
  match split_once_str (u "-MariaDB") version with
  | None => false
  | Some (release, suffix) =>
    match release_parts release with
    | Some [major; minor; patch] =>
      match minimum_patch major minor with
      | None => false
      | Some minimum => if patch <? minimum then false else mariadb_suffix_verified release suffix
      end
    | _ => false
    end
  end.
Definition server_version_verified (version : str) : bool :=
  if contains (u "-MariaDB") version then mariadb_version_verified version
  else
    let native := without_log version in
    match strip_prefix (u "5.5.") native with
    | Some patch => at_least 8 (if str_eqb patch (u "25a") then u "25" else patch)
    | None =>
      match strip_prefix (u "5.6.") native with
      | Some patch => at_least 10 patch
      | None =>
        match strip_prefix (u "5.7.") version with
        | Some patch => at_least 8 (without_log patch)
        | None =>
          match strip_prefix (u "8.4.") version with
          | Some patch => all_digits patch
          | None =>
            match strip_prefix (u "8.0.") version with
            | Some patch => at_least 11 (without_log patch)
            | None =>
              match strip_prefix (u "9.7.") version with
              | Some patch => all_digits (without_log patch)
              | None => false
              end
            end
          end
        end
      end
    end.

(** The driver's version: major, minor, patch. *)
Definition server_facts_sql (version : Z * Z * Z) : str :=
  let wsrep := if (10 <=? version.1.1) && (version.1.1 <=? 12)
    then u "(SELECT COUNT(*) FROM information_schema.GLOBAL_VARIABLES WHERE VARIABLE_NAME='WSREP_ON' AND UPPER(VARIABLE_VALUE) NOT IN ('0','OFF'))"
    else u "0" in
  u "SELECT @@version,CAST(@@global.read_only AS CHAR) NOT IN ('0','OFF'),@@innodb_table_locks,@@lower_case_table_names,@@hostname,@@port,@@server_id,DATABASE(),"
  ++ wsrep.

(** ** Grants *)

Definition write_permissions : list String.string :=
  ["SELECT"; "INSERT"; "UPDATE"; "DELETE"; "LOCK TABLES"; "TRIGGER"; "REFERENCES"]%string.
(** [GRANT privileges ON scope TO ..] *)
Definition parse_grant (grant : str) : option (str * str) :=
  s ← strip_prefix (u "GRANT ") grant; x ← split_once_str (u " ON ") s; y ← split_once_str (u " TO ") x.2; Some (x.1, y.1).
Definition all_scope : str := u "*.*".
Definition listed (privileges : str) : list str := map (fun p => to_ascii_uppercase (trim p)) (split_char 44 privileges).

(** The loop: [None] is its early return. *)
Fixpoint grants_loop (database : str) (grants : list str) (permissions : list str) (global_select : bool) : option (list str * bool) :=
  match grants with
  | [] => Some (permissions, global_select)
  | grant :: grants =>
    match parse_grant grant with
    | None => grants_loop database grants permissions global_select
    | Some (privileges, scope) =>
      if negb (str_eqb scope all_scope) && negb (str_eqb scope (id database ++ u ".*"))
      then grants_loop database grants permissions global_select
      else if str_eqb privileges (u "ALL PRIVILEGES") then
        if str_eqb scope all_scope then None
        else grants_loop database grants (permissions ++ map u write_permissions) global_select
      else
        grants_loop database grants (permissions ++ listed privileges)
          (global_select || (str_eqb scope all_scope && bool_decide (u "SELECT" ∈ listed privileges)))
    end
  end.
Definition verify_grants (grants : list str) (database : str) (read_only : bool) : bool :=
  if existsb (starts_with (u "REVOKE ")) grants then false
  else
    match grants_loop database grants [] false with
    | None => true
    | Some (permissions, global_select) =>
      (read_only || global_select)
      && forallb (fun p => bool_decide (u p ∈ permissions)) (if read_only then ["SELECT"]%string else write_permissions)
    end.

(** ** Types *)

Definition wire_type (declared : str) : result str str :=
  let upper := to_ascii_uppercase declared in
  let base := take_while (fun c => negb ((c =? 40) || (c =? 32))) upper in
  if one_of base ["TINYINT"; "SMALLINT"; "MEDIUMINT"; "INT"; "INTEGER"; "BIGINT"]%string
  then Ok (if contains (u "UNSIGNED") upper then u "uint" else u "int")
  else if one_of base ["DECIMAL"; "NUMERIC"]%string then Ok (u "decimal")
  else if one_of base ["CHAR"; "VARCHAR"; "TINYTEXT"; "TEXT"; "MEDIUMTEXT"; "LONGTEXT"]%string then Ok (u "text")
  else if one_of base ["BINARY"; "VARBINARY"; "TINYBLOB"; "BLOB"; "MEDIUMBLOB"; "LONGBLOB"]%string then Ok (u "binary")
  else if one_of base ["DATE"]%string then Ok (u "date")
  else if one_of base ["DATETIME"]%string then Ok (u "datetime")
  else if one_of base ["TIMESTAMP"]%string then Ok (u "timestamp")
  else if one_of base ["TIME"]%string then Ok (u "time")
  else Err (u "unsupported_capability: MySQL 字段类型尚未通过无损验收").

(** ** The snapshot *)

Definition quote : str := [34].
Definition field_sql (name kind : str) : str :=
  let column := id name in
  let value := if str_eqb kind (u "binary") then column else u "CAST(" ++ column ++ u " AS CHAR CHARACTER SET utf8mb4)" in
  u "CASE WHEN " ++ column ++ u " IS NULL THEN '{" ++ quote ++ u "t" ++ quote ++ u ":" ++ quote ++ u "null" ++ quote ++ u ","
  ++ quote ++ u "v" ++ quote ++ u ":null}' ELSE CONCAT('{" ++ quote ++ u "t" ++ quote ++ u ":" ++ quote ++ kind ++ quote ++ u ","
  ++ quote ++ u "v" ++ quote ++ u ":" ++ quote ++ u "',HEX(" ++ value ++ u "),'" ++ quote ++ u "}') END".
Definition select_sql (database : str) (tables : list DataTable) (index : nat) (p : Projection) : result str str :=
  let? t := ok_or (find_first (fun t => str_eqb (tb_name t) (pj_table p) && tb_physical t) tables)
              (u "invalid_mapping: 快照表不存在或不是 InnoDB 物理表") in
  if is_empty (pj_columns p) then Err (u "invalid_mapping: 快照列不能为空")
  else
    let? fields := traverse (fun name =>
        let? c := ok_or (find_column (tb_columns t) name) (u "invalid_mapping: 快照列不存在") in
        let? kind := wire_type (dc_declared_type c) in
        Ok (field_sql name kind)) (pj_columns p) in
    Ok (u "SELECT " ++ show_Z (Z.of_nat index) ++ u " AS __data_table,CONCAT('['," ++ join (u ",',',") fields
        ++ u ",']') AS __data_payload FROM " ++ id database ++ u "." ++ id (pj_table p)).
Definition snapshot_of (database : str) (projections : list Projection) (tables : list DataTable) : result str str :=
  if is_empty projections || (100 <? zlen projections) then Err (u "resource_limit: 集合快照须包含 1 至 100 张表")
  else
    let? selects := traverse (fun '(index, p) => select_sql database tables index p) (imap pair projections) in
    let sql := join (u " UNION ALL ") selects in
    if 1024 * 1024 <? str_len sql then Err (u "resource_limit: 集合快照 SQL 超过 1 MiB，请拆分任务") else Ok sql.
Definition snapshot_sql (database : str) (projections : list Projection) (metadata : DataMetadataSnapshot) : result str str :=
  snapshot_of database projections (md_tables metadata).

(** ** Binding *)

Inductive Value : Type := NULL | Int (v : Z) | UInt (v : Z) | Bytes (v : bytes).
Definition bind_value (v : DataValue) : result Value str :=
  match v with
  | VNull => Ok NULL
  | VBool v => Ok (Int (if v then 1 else 0))
  | VInt v => Ok (Int v)
  | VUInt v => Ok (UInt v)
  | VDecimal v => Ok (Bytes (utf8 v))
  | VText v => Ok (Bytes (utf8 v))
  | VBinary v => Ok (Bytes v)
  | VTemporal _ v => Ok (Bytes (utf8 v))
  | _ => Err (u "unsupported_capability: MySQL 绑定类型尚未通过无损验收")
  end.

(** ** Decoding *)

Definition payload_limit : Z := 32 * 1024 * 1024.
Definition row_too_long : str := u "resource_limit: 单行超过 8 MiB 上限".

Section Decode.
Context {J : Type} `{Documents J}.

Definition decode_value (kind : str) (raw : bytes) : result DataValue str :=
  let text := ok_or (from_utf8 raw) (u "MySQL 文本不是有效 UTF-8") in
  if str_eqb kind (u "null") then Ok VNull
  else if str_eqb kind (u "int") then let? t := text in let? n := ok_or (parse_i64 t) (u "MySQL 有符号整数溢出") in Ok (VInt n)
  else if str_eqb kind (u "uint") then let? t := text in let? n := ok_or (parse_u64 t) (u "MySQL 无符号整数溢出") in Ok (VUInt n)
  else if str_eqb kind (u "decimal") then let? t := text in let? d := normalize_decimal t in Ok (VDecimal d)
  else if str_eqb kind (u "text") then let? t := text in Ok (VText t)
  else if str_eqb kind (u "binary") then Ok (VBinary raw)
  else if one_of kind ["date"; "datetime"; "timestamp"; "time"]%string
  then let? t := text in Ok (VTemporal kind (normalize_mysql_temporal t))
  else Err (u "unsupported_capability: MySQL 值类型未经无损验收").
Definition decode_field (field : J) : result DataValue str :=
  let? kind := ok_or (text_of (member "t" field)) (u "MySQL 集合快照类型缺失") in
  let? raw := (if str_eqb kind (u "null") then
                 if negb (is_null_json (member "v" field)) then Err (u "MySQL NULL 载荷无效") else Ok []
               else
                 let? encoded := ok_or (text_of (member "v" field)) (u "MySQL 集合快照值必须采用十六进制字符串") in
                 unhex_with (u "MySQL 十六进制长度无效") (u "MySQL 十六进制编码无效") encoded) in
  decode_value kind raw.
Definition decode_payload (table : str) (key_indices : list nat) (payload : str) : result CanonicalRow str :=
  if payload_limit <? str_len payload then Err row_too_long
  else
    let? json := ok_or (from_str payload) (u "MySQL 集合快照编码无效") in
    let? fields := ok_or (as_array json) (u "MySQL 集合快照形状无效") in
    let? values := traverse decode_field fields in
    let? key := select_key (u "MySQL 定位键索引无效") key_indices values in
    let? row := new_row table key values in
    if SqliteAdapter.row_limit <? encoded_size row then Err row_too_long else Ok row.
End Decode.

(** ** Specification: what the snapshot query returns for stored values *)

(** The tag and the text that the server writes for a value. *)
Definition wire_kind (v : DataValue) : str :=
  match v with
  | VInt _ => u "int" | VUInt _ => u "uint" | VDecimal _ => u "decimal" | VText _ => u "text" | VBinary _ => u "binary"
  | VTemporal k _ => k | _ => u "null"
  end.
Definition wire_bytes (v : DataValue) : bytes :=
  match v with
  | VInt n | VUInt n => utf8 (show_Z n) | VDecimal s | VText s | VTemporal _ s => utf8 s | VBinary l => l | _ => []
  end.
Definition wire_field (v : DataValue) : str * option str :=
  match v with VNull => (u "null", None) | _ => (wire_kind v, Some (upper_hex (wire_bytes v))) end.
Definition mysql_value (v : DataValue) : Prop :=
  wf_value v /\
  match v with
  | VNull | VInt _ | VUInt _ | VText _ | VBinary _ => True
  | VDecimal d => is_ok (normalize_decimal d) = true
  | VTemporal k _ => one_of k ["date"; "datetime"; "timestamp"; "time"]%string = true
  | _ => False
  end.
(** A decimal in its normal form, a time without the zeros of its fraction. *)
Definition received (v : DataValue) : DataValue :=
  match v with
  | VDecimal d => norm_value (VDecimal d)
  | VTemporal k s => VTemporal k (normalize_mysql_temporal s)
  | v => v
  end.

(** ** Proofs *)

Lemma temporal_kind k : one_of k ["date"; "datetime"; "timestamp"; "time"]%string = true ->
  Forall (fun x => str_eqb k (u x) = false) ["null"; "int"; "uint"; "decimal"; "text"; "binary"]%string.
Proof.
  intros K. unfold one_of in K. apply existsb_true_iff in K as (x & Hx & ->%str_eqb_eq).
  rewrite !elem_of_cons in Hx. destruct Hx as [->|[->|[->|[->|[]%elem_of_nil]]]]; (apply (bool_decide_unpack _); vm_compute; exact I).
Qed.
Lemma temporal_kind_wf k : one_of k ["date"; "datetime"; "timestamp"; "time"]%string = true -> wf_str k.
Proof.
  intros K. unfold one_of in K. apply existsb_true_iff in K as (x & Hx & ->%str_eqb_eq).
  rewrite !elem_of_cons in Hx. destruct Hx as [->|[->|[->|[->|[]%elem_of_nil]]]]; (apply (bool_decide_unpack _); vm_compute; exact I).
Qed.
Lemma decode_value_received v : mysql_value v -> v <> VNull -> decode_value (wire_kind v) (wire_bytes v) = Ok (received v).
Proof.
  intros [Wv M] N. destruct v; cbn [wf_value wire_kind wire_bytes received] in *; try done.
  - change ((let? t := ok_or (from_utf8 (utf8 (show_Z v))) (u "MySQL 文本不是有效 UTF-8") in
            let? n := ok_or (parse_i64 t) (u "MySQL 有符号整数溢出") in Ok (VInt n)) = Ok (VInt v)).
    rewrite from_utf8_utf8 by apply ascii_wf, show_Z_ascii. cbn [ok_or rbind]. by rewrite parse_i64_show.
  - change ((let? t := ok_or (from_utf8 (utf8 (show_Z v))) (u "MySQL 文本不是有效 UTF-8") in
            let? n := ok_or (parse_u64 t) (u "MySQL 无符号整数溢出") in Ok (VUInt n)) = Ok (VUInt v)).
    rewrite from_utf8_utf8 by apply ascii_wf, show_Z_ascii. cbn [ok_or rbind]. by rewrite parse_u64_show.
  - change ((let? t := ok_or (from_utf8 (utf8 v)) (u "MySQL 文本不是有效 UTF-8") in
            let? d := normalize_decimal t in Ok (VDecimal d)) = Ok (norm_value (VDecimal v))).
    rewrite from_utf8_utf8 by done. cbn [ok_or rbind norm_value]. by destruct (normalize_decimal v).
  - change ((let? t := ok_or (from_utf8 (utf8 v)) (u "MySQL 文本不是有效 UTF-8") in Ok (VText t)) = Ok (VText v)).
    by rewrite from_utf8_utf8.
  - destruct Wv as [Wk Ws]. unfold decode_value. apply temporal_kind in M as K. rewrite !list.Forall_cons in K.
    destruct K as (-> & -> & -> & -> & -> & -> & _). rewrite M, from_utf8_utf8 by done. done.
Qed.

Lemma decode_field_received {J : Type} `{Documents J} (j : J) v : mysql_value v -> shows_field j (wire_field v) ->
  decode_field j = Ok (received v).
Proof.
  intros M [T V]. unfold decode_field. rewrite T. cbn [ok_or rbind].
  destruct (decide (v = VNull)) as [->|Nn].
  { cbn [wire_field fst snd] in *. destruct V as [_ V]. rewrite str_eqb_refl, V. cbn [negb rbind]. unfold decode_value.
    by rewrite str_eqb_refl. }
  assert (E : wire_field v = (wire_kind v, Some (upper_hex (wire_bytes v)))) by (by destruct v).
  rewrite E in T, V |- *. cbn [fst snd] in *. destruct V as [V _].
  assert (K : str_eqb (wire_kind v) (u "null") = false).
  { destruct M as [_ M]. destruct v; try done; try (vm_compute; reflexivity). apply temporal_kind in M.
    apply list.Forall_cons in M as [M _]. exact M. }
  rewrite K, V. cbn [ok_or rbind]. rewrite unhex_upper; [cbn [rbind]; by apply decode_value_received|].
  destruct M as [Wv M]. destruct v; cbn [wf_value wire_bytes] in *; try done; try (by apply utf8_range).
  - apply utf8_range, ascii_wf, show_Z_ascii.
  - apply utf8_range, ascii_wf, show_Z_ascii.
  - apply utf8_range, Wv.
Qed.

Lemma received_encodable v : mysql_value v -> encodable (received v).
Proof.
  intros [_ M]. destruct v; try done. cbn [received norm_value encodable]. destruct (normalize_decimal v) as [d|e] eqn:E; [|done].
  by rewrite (normalize_decimal_fixed _ _ E).
Qed.

(** The MySQL snapshot is lossless: for the document that the snapshot query
    makes of stored values of the supported types, decoding the payload gives
    exactly those values, with decimals in normal form and times without
    trailing zeros, keyed by the projection's key columns; the only other
    outcome is the error about a row of more than 8 MiB. *)
Theorem decode_payload_lossless {J : Type} `{Documents J} table keys payload (j : J) vs :
  str_len payload <= payload_limit -> from_str payload = Some j -> shows j (map wire_field vs) -> Forall mysql_value vs ->
  Forall (fun i => i < length vs)%nat keys ->
  let row := mkRow table (key_of keys (map received vs)) (map received vs) in
  decode_payload table keys payload = if SqliteAdapter.row_limit <? encoded_size row then Err row_too_long else Ok row.
Proof.
  intros L P (l & A & F) M K row. unfold decode_payload. replace (payload_limit <? str_len payload) with false by lia.
  rewrite P. cbn [ok_or rbind]. rewrite A. cbn [ok_or rbind].
  rewrite (decode_fields decode_field wire_field received mysql_value l vs) by (done || apply decode_field_received).
  cbn [rbind]. rewrite select_key_ok by (by rewrite length_map). cbn [rbind].
  assert (En : Forall encodable (map received vs)).
  { apply list.Forall_fmap. eapply list.Forall_impl; [exact M|]. intros v. apply received_encodable. }
  rewrite new_row_total by (done || by apply key_of_forall). done.
Qed.

(** Whatever the payload, a decoded row is well typed and short. *)
Lemma decode_value_wf kind raw v : Forall byte_range raw -> decode_value kind raw = Ok v -> wf_value v.
Proof.
  intros B. unfold decode_value. set (text := ok_or (from_utf8 raw) _).
  assert (T : forall s, text = Ok s -> wf_str s) by (intros s Hs%ok_or_ok_inv; apply from_utf8_inv in Hs as [_ Hs]; exact Hs).
  destruct (str_eqb kind (u "null")); [by intros [= <-]|].
  destruct (str_eqb kind (u "int")).
  { intros X. apply rbind_ok_inv in X as (t & _ & X). apply rbind_ok_inv in X as (n & N%ok_or_ok_inv & X). apply Ok_inj in X as <-.
    by eapply parse_i64_range. }
  destruct (str_eqb kind (u "uint")).
  { intros X. apply rbind_ok_inv in X as (t & _ & X). apply rbind_ok_inv in X as (n & N%ok_or_ok_inv & X). apply Ok_inj in X as <-.
    by eapply parse_u64_range. }
  destruct (str_eqb kind (u "decimal")).
  { intros X. apply rbind_ok_inv in X as (t & _ & X). apply rbind_ok_inv in X as (n & N & X). apply Ok_inj in X as <-.
    by eapply normalize_decimal_wf. }
  destruct (str_eqb kind (u "text")).
  { intros X. apply rbind_ok_inv in X as (t & Ht & X). apply Ok_inj in X as <-. by apply T. }
  destruct (str_eqb kind (u "binary")); [intros X; by apply Ok_inj in X as <-|].
  destruct (one_of _ _) eqn:K; [|discriminate]. intros X. apply rbind_ok_inv in X as (t & Ht & X). apply Ok_inj in X as <-.
  split; [|apply normalize_mysql_temporal_wf; by apply T]. by apply temporal_kind_wf.
Qed.
Lemma decode_field_wf {J : Type} `{Documents J} (j : J) v : decode_field j = Ok v -> wf_value v.
Proof.
  unfold decode_field. intros X. apply rbind_ok_inv in X as (kind & _ & X). apply rbind_ok_inv in X as (raw & R & X).
  eapply decode_value_wf; [|exact X]. destruct (str_eqb kind (u "null")).
  - destruct (negb _); [done|]. by apply Ok_inj in R as <-.
  - apply rbind_ok_inv in R as (e & _ & R). by eapply unhex_bytes.
Qed.
Lemma mysql_decode_payload_typed {J : Type} `{Documents J} t keys payload r : wf_str t -> decode_payload t keys payload = Ok r ->
  wf_row r /\ (exists b, canonical_bytes r = Ok b) /\ encoded_size r <= SqliteAdapter.row_limit.
Proof.
  intros Wt. unfold decode_payload. destruct (_ <? _); [done|]. intros X. apply rbind_ok_inv in X as (j & _ & X).
  apply rbind_ok_inv in X as (l & _ & X). apply rbind_ok_inv in X as (vs & V & X). apply rbind_ok_inv in X as (k & K & X).
  apply rbind_ok_inv in X as (row & N & X). destruct (_ <? _) eqn:L; [done|]. apply Ok_inj in X as <-.
  unfold new_row in N. apply rbind_ok_inv in N as (b & C & N). apply Ok_inj in N as <-.
  assert (Wv : Forall wf_value vs) by (eapply traverse_forall; [|exact V]; apply decode_field_wf).
  split; [|split; [by exists b|lia]]. split; [done|]. split; [|done]. by eapply select_key_forall.
Qed.

(** What is bound for a value is what the server would send back for it. *)
Lemma bind_value_bytes v x : mysql_value v -> bind_value v = Ok x ->
  match x with NULL => v = VNull | Int n | UInt n => wire_bytes v = utf8 (show_Z n) | Bytes l => wire_bytes v = l end.
Proof. intros [_ M] B. by destruct v; try done; apply Ok_inj in B as <-. Qed.

(** ** Grants *)

(** The permission is written in a grant on this database or on all of them. *)
Definition permitted (grants : list str) (scopes : list str) (p : str) : Prop := exists grant privileges scope,
  grant ∈ grants /\ parse_grant grant = Some (privileges, scope) /\ scope ∈ scopes /\
  (privileges = u "ALL PRIVILEGES" \/ p ∈ listed privileges).

Lemma permitted_cons g grants scopes p : permitted grants scopes p -> permitted (g :: grants) scopes p.
Proof. intros (x & a & b & H & R). exists x, a, b. split; [by right|exact R]. Qed.

Lemma grants_loop_sound database grants permissions global_select :
  match grants_loop database grants permissions global_select with
  | None => forall p, permitted grants [all_scope] p
  | Some (ps, g) =>
    (forall p, p ∈ ps -> p ∈ permissions \/ permitted grants [all_scope; id database ++ u ".*"] p) /\
    (g = true -> global_select = true \/ permitted grants [all_scope] (u "SELECT"))
  end.
Proof.
  revert permissions global_select. induction grants as [|grant grants IH]; intros permissions global_select; cbn [grants_loop].
  { split; [by left|]. intros ->. by left. }
  assert (Skip : forall ps g, (forall p, p ∈ ps -> p ∈ permissions \/ permitted (grant :: grants) [all_scope; id database ++ u ".*"] p) ->
    (g = true -> global_select = true \/ permitted (grant :: grants) [all_scope] (u "SELECT")) ->
    match grants_loop database grants ps g with
    | None => forall p, permitted (grant :: grants) [all_scope] p
    | Some (ps', g') =>
      (forall p, p ∈ ps' -> p ∈ permissions \/ permitted (grant :: grants) [all_scope; id database ++ u ".*"] p) /\
      (g' = true -> global_select = true \/ permitted (grant :: grants) [all_scope] (u "SELECT"))
    end).
  { intros ps g Hp Hg. specialize (IH ps g). destruct (grants_loop database grants ps g) as [[ps' g']|].
    - destruct IH as [I1 I2]. split.
      + intros p [Hq|Hq]%I1; [by apply Hp|]. right. by apply permitted_cons.
      + intros [Hq|Hq]%I2; [by apply Hg|right; by apply permitted_cons].
    - intros p. by apply permitted_cons. }
  destruct (parse_grant grant) as [[privileges scope]|] eqn:P; [|apply Skip; [by left|by left]].
  destruct (str_eqb scope all_scope) eqn:A; [apply str_eqb_eq in A|apply str_eqb_neq in A].
  - cbn [negb andb]. destruct (str_eqb privileges (u "ALL PRIVILEGES")) eqn:All.
    + apply str_eqb_eq in All. intros p. exists grant, privileges, scope. split; [by left|]. split; [done|].
      split; [rewrite A; by left|by left].
    + apply Skip.
      * intros p [Hp|Hp]%elem_of_app; [by left|]. right. exists grant, privileges, scope. split; [by left|].
        split; [done|]. split; [rewrite A; by left|by right].
      * cbn [andb]. intros [Hg|Hg]%orb_true_iff; [by left|]. apply bool_decide_eq_true_1 in Hg. right.
        exists grant, privileges, scope. split; [by left|]. split; [done|]. split; [rewrite A; by left|by right].
  - cbn [negb andb]. destruct (str_eqb scope (id database ++ u ".*")) eqn:B; cbn [negb]; [apply str_eqb_eq in B|apply Skip; [by left|by left]].
    destruct (str_eqb privileges (u "ALL PRIVILEGES")) eqn:All; [apply str_eqb_eq in All|].
    + apply Skip; [|by left]. intros p [Hp|_]%elem_of_app; [by left|]. right. exists grant, privileges, scope.
      split; [by left|]. split; [done|]. split; [rewrite B; right; by left|by left].
    + apply Skip.
      * intros p [Hp|Hp]%elem_of_app; [by left|]. right. exists grant, privileges, scope. split; [by left|].
        split; [done|]. split; [rewrite B; right; by left|by right].
      * intros Hg. rewrite orb_false_r in Hg. by left.
Qed.


(** *** Witnesses *)

Definition sample_values : list DataValue :=
  [VInt (-5); VText (u "é"); VDecimal (u "+01.50"); VNull; VBinary [0; 255]; VTemporal (u "time") (u "10:00:00.500000")].
Lemma sample_mysql : Forall mysql_value sample_values.
Proof.
  assert (T : forall s, forallb is_scalar s = true -> wf_str s).
  { intros s Hs. rewrite forallb_true_iff in Hs. by apply list.Forall_forall. }
  unfold sample_values. repeat (apply list.Forall_cons; split); [..|constructor]; (split; [|done || (vm_compute; reflexivity)]).
  - unfold wf_value, i64_range. lia.
  - apply T. vm_compute. reflexivity.
  - apply T. vm_compute. reflexivity.
  - done.
  - apply (bool_decide_unpack (Forall byte_range _)). vm_compute. exact I.
  - split; apply T; vm_compute; reflexivity.
Qed.
Definition sample_text : str := u "[a text of the server with all of its fields]".
Lemma decode_payload_lossless_witness :
  @decode_payload Sample (sample_documents sample_text (map wire_field sample_values)) (u "t") [0%nat] sample_text =
    Ok (mkRow (u "t") [VInt (-5)]
          [VInt (-5); VText (u "é"); VDecimal (u "1.5"); VNull; VBinary [0; 255]; VTemporal (u "time") (u "10:00:00.5")]).
Proof.
  etransitivity; [eapply (@decode_payload_lossless Sample (sample_documents sample_text (map wire_field sample_values)) (u "t") [0%nat]
    sample_text (SArray (map wire_field sample_values)) sample_values)|].
  - vm_compute. discriminate.
  - apply sample_parses.
  - apply sample_shows. vm_compute. reflexivity.
  - exact sample_mysql.
  - constructor; [cbn; lia|constructor].
  - vm_compute. reflexivity.
Defined.


End MysqlWire.
