(* ===== verification/MysqlCatalog.v ===== *)
(** How the MySQL channel loads a schema
    ([metadata_inner] of src-tauri/src/db/data_tasks/adapters/mysql.rs): the
    facts about the server, then the columns, foreign keys, triggers and indexes
    of the database, each read by one query, and the grants. *)
From S2P Require Import Prelude RustText DataTypes MetaTypes Values Plan Batch SqliteAdapter NetworkChannel MysqlWire.
Import DataTypes MetaTypes Values Batch NetworkChannel MysqlWire.

Module MysqlCatalog.

Definition columns_sql : str := u "SELECT t.TABLE_NAME,t.TABLE_TYPE,COALESCE(t.ENGINE,''),c.COLUMN_NAME,c.COLUMN_TYPE,c.IS_NULLABLE,c.COLUMN_DEFAULT,c.EXTRA,c.COLLATION_NAME,COALESCE(k.ORDINAL_POSITION,0) FROM information_schema.TABLES t JOIN information_schema.COLUMNS c ON c.TABLE_SCHEMA=t.TABLE_SCHEMA AND c.TABLE_NAME=t.TABLE_NAME LEFT JOIN information_schema.KEY_COLUMN_USAGE k ON k.TABLE_SCHEMA=c.TABLE_SCHEMA AND k.TABLE_NAME=c.TABLE_NAME AND k.COLUMN_NAME=c.COLUMN_NAME AND k.CONSTRAINT_NAME='PRIMARY' WHERE t.TABLE_SCHEMA=? ORDER BY t.TABLE_NAME,c.ORDINAL_POSITION".
Definition foreign_keys_sql : str := u "SELECT k.TABLE_NAME,k.CONSTRAINT_NAME,k.COLUMN_NAME,k.REFERENCED_TABLE_SCHEMA,k.REFERENCED_TABLE_NAME,k.REFERENCED_COLUMN_NAME,r.UPDATE_RULE,r.DELETE_RULE,k.TABLE_SCHEMA FROM information_schema.KEY_COLUMN_USAGE k JOIN information_schema.REFERENTIAL_CONSTRAINTS r ON r.CONSTRAINT_SCHEMA=k.CONSTRAINT_SCHEMA AND r.TABLE_NAME=k.TABLE_NAME AND r.CONSTRAINT_NAME=k.CONSTRAINT_NAME WHERE (k.TABLE_SCHEMA=? OR k.REFERENCED_TABLE_SCHEMA=?) AND k.REFERENCED_TABLE_NAME IS NOT NULL ORDER BY k.TABLE_SCHEMA,k.TABLE_NAME,k.CONSTRAINT_NAME,k.ORDINAL_POSITION".
Definition triggers_sql : str := u "SELECT EVENT_OBJECT_TABLE,TRIGGER_NAME,ACTION_TIMING,EVENT_MANIPULATION,ACTION_STATEMENT FROM information_schema.TRIGGERS WHERE TRIGGER_SCHEMA=? ORDER BY EVENT_OBJECT_TABLE,TRIGGER_NAME".
Definition indexes_sql : str := u "SELECT TABLE_NAME,INDEX_NAME,NON_UNIQUE,SEQ_IN_INDEX,COLUMN_NAME,INDEX_TYPE,SUB_PART,COLLATION FROM information_schema.STATISTICS WHERE TABLE_SCHEMA=? ORDER BY TABLE_NAME,INDEX_NAME,SEQ_IN_INDEX".
Definition grants_sql : str := u "SHOW GRANTS FOR CURRENT_USER()".

(** VIRTUAL, PERSISTENT or STORED among the words of [extra]. *)
Fixpoint words (s cur : str) : list str :=
  match s with
  | [] => if is_empty cur then [] else [cur]
  | c :: s => if is_ascii_whitespace c then (if is_empty cur then [] else [cur]) ++ words s [] else words s (cur ++ [c])
  end.
Definition is_generated_column (extra : str) : bool :=
  existsb (fun part => one_of (to_ascii_uppercase part) ["VIRTUAL"; "PERSISTENT"; "STORED"]%string) (words extra []).

Definition integer_types : list String.string := ["tinyint"; "smallint"; "mediumint"; "int"; "integer"; "bigint"]%string.
(** The display width of an integer is no precision. *)
Definition declared_type_of (original : str) : str :=
  let base := take_while (fun c => negb ((c =? 40) || (c =? 32))) original in
  if one_of base integer_types then to_ascii_uppercase base ++ (if contains (u "unsigned") original then u " UNSIGNED" else [])
  else to_ascii_uppercase original.

Section Rows.
Context {R : Type} `{Columns R}.
(** [serde_json::to_string] of a column, [serde_json::to_vec] of the tables;
    Unicode's lower case and what [{:?}] escapes. *)
Context (column_json : DataColumn -> option str) (tables_json : list DataTable -> option bytes).
Context (to_lowercase : str -> str) (escapes : char -> bool) (sha256_hex : bytes -> str).

Definition cell {A : Type} (x : option A) : result A str := ok_or x DATABASE_ERROR.
Definition failed (e : unit) : str := DATABASE_ERROR.

Definition load_column (tables : gmap str DataTable) (row : R) : result (gmap str DataTable) str :=
  let? name := cell (string_at row 0) in
  let? kind := cell (string_at row 1) in
  let? engine := cell (string_at row 2) in
  let physical := str_eqb kind (u "BASE TABLE") && eq_ignore_ascii_case engine (u "InnoDB") in
  let t := default (mkTable name (kind ++ u ":" ++ engine) [] [] false physical) (tables !! name) in
  let? extra := cell (string_at row 7) in
  let identity := contains (u "auto_increment") extra in
  let? original_type := cell (string_at row 4) in
  let? column := cell (string_at row 3) in
  let? nullable := cell (string_at row 5) in
  let? default_sql := cell (optional_string_at row 6) in
  let? pk := cell (integer_at U32 row 9) in
  let? collation := cell (optional_string_at row 8) in
  let c := mkColumn column (declared_type_of original_type) (str_eqb nullable (u "YES")) default_sql (is_generated_column extra) pk
             collation identity (identity && physical) in
  let? json := cell (column_json c) in
  Ok (<[name := set_columns t (tb_create_sql t ++ [10] ++ json) (tb_columns t ++ [c])]> tables).

(** Names outside the database are qualified. *)
Definition qualified (database schema name : str) : str := if str_eqb schema database then name else schema ++ u "." ++ name.
Definition load_foreign_key (database : str) (m : gmap (str * str) DataForeignKey) (row : R) : result (gmap (str * str) DataForeignKey) str :=
  let? child_schema := cell (string_at row 8) in
  let? child_name := cell (string_at row 0) in
  let? parent_schema := cell (string_at row 3) in
  let? parent := cell (string_at row 4) in
  let? constraint := cell (string_at row 1) in
  let? on_update := cell (string_at row 6) in
  let? on_delete := cell (string_at row 7) in
  let k := (qualified database child_schema child_name, constraint) in
  let fk := default (mkForeignKey [] (qualified database parent_schema parent) [] on_update on_delete) (m !! k) in
  let? from := cell (string_at row 2) in
  let? to := cell (string_at row 5) in
  Ok (<[k := mkForeignKey (fk_from_columns fk ++ [from]) (fk_parent_table fk) (fk_parent_columns fk ++ [to]) (fk_on_update fk)
               (fk_on_delete fk)]> m).
Definition key_cmp : str * str -> str * str -> comparison := cmp_then (cmp_on fst str_cmp) (cmp_on snd str_cmp).
Definition external_table (name : str) : DataTable := mkTable name (u "external foreign key dependent") [] [] false false.
Definition add_foreign_key (tables : gmap str DataTable) (entry : (str * str) * DataForeignKey) : gmap str DataTable :=
  <[entry.1.1 := push_foreign_key (default (external_table entry.1.1) (tables !! entry.1.1)) entry.2]> tables.
Definition add_foreign_keys (foreign : gmap (str * str) DataForeignKey) (tables : gmap str DataTable) : gmap str DataTable :=
  fold_left add_foreign_key (sort_by (cmp_on fst key_cmp) (map_to_list foreign)) tables.

Definition load_trigger (tables : gmap str DataTable) (row : R) : result (gmap str DataTable) str :=
  let? name := cell (string_at row 0) in
  match tables !! name with
  | None => Ok tables
  | Some t =>
    let? parts := traverse (fun i => cell (string_at row i)) [1; 2; 3; 4]%nat in
    Ok (<[name := push_sql (with_triggers t true) (concat (map (fun part => [10] ++ u "trigger:" ++ part) parts))]> tables)
  end.

Definition load_index (tables : gmap str DataTable) (row : R) : result (gmap str DataTable) str :=
  let? name := cell (string_at row 0) in
  match tables !! name with
  | None => Ok tables
  | Some t =>
    let? index := cell (string_at row 1) in
    let? non_unique := cell (integer_at U64 row 2) in
    let? seq := cell (integer_at U64 row 3) in
    let? column := cell (optional_string_at row 4) in
    let? kind := cell (string_at row 5) in
    let? sub_part := cell (optional_integer_at U64 row 6) in
    let? collation := cell (optional_string_at row 7) in
    Ok (<[name := push_sql t ([10] ++ u "index:" ++ index ++ u ":" ++ show_Z non_unique ++ u ":" ++ show_Z seq ++ u ":"
            ++ debug_option (Plan.debug_str escapes <$> column) ++ u ":" ++ kind ++ u ":" ++ debug_option (show_Z <$> sub_part) ++ u ":"
            ++ debug_option (Plan.debug_str escapes <$> collation))]> tables)
  end.

(** ** The queries *)

Open Scope catalog_scope.

Record Facts : Type := mkFacts { f_instance : str; f_database : str; f_read_only : bool; f_locking : bool }.
Definition read_facts (facts : R) : result Facts str :=
  let? version := cell (string_at facts 0) in
  if negb (server_version_verified version)
  then Err (u "unsupported_capability: 数据任务支持 MySQL 5.5（至少 5.5.8）、5.6（至少 5.6.10）、5.7（至少 5.7.8）、8.0（至少 8.0.11）、8.4、9.7 与 MariaDB 10.0–10.11（各系列首个 GA 起）、11.0–11.8、12.0–12.3（各系列至少 x.y.2 稳定版）原生会话")
  else
    let? hostname := cell (string_at facts 4) in
    let? port := cell (integer_at U64 facts 5) in
    let? server := cell (integer_at U64 facts 6) in
    let? actual := cell (string_at facts 7) in
    let? lower := cell (integer_at U8 facts 3) in
    let? read_only := cell (integer_at U8 facts 1) in
    let? locks := cell (integer_at U8 facts 2) in
    let? wsrep := cell (integer_at U8 facts 8) in
    Ok (mkFacts (u "mysql:" ++ hostname ++ u ":" ++ show_Z port ++ u ":" ++ show_Z server)
          (if negb (lower =? 0) then to_lowercase actual else actual) (negb (read_only =? 0)) ((locks =? 1) && (wsrep =? 0))).
Definition facts_program (version : Z * Z * Z) : Catalog R unit Facts :=
  ask! rows := server_facts_sql version, [] with failed in
  Done (let? facts := ok_or (head rows) DATABASE_ERROR in read_facts facts).

Definition tables_program (database : str) : Catalog R unit (list DataTable) :=
  ask! columns := columns_sql, [database] with failed in
  try! tables := SqliteAdapter.fold_rows load_column ∅ columns in
  ask! keys := foreign_keys_sql, [database; database] with failed in
  try! foreign := SqliteAdapter.fold_rows (load_foreign_key database) ∅ keys in
  let tables := add_foreign_keys foreign tables in
  ask! triggers := triggers_sql, [database] with failed in
  try! tables := SqliteAdapter.fold_rows load_trigger tables triggers in
  ask! indexes := indexes_sql, [database] with failed in
  Done (let? tables := SqliteAdapter.fold_rows load_index tables indexes in Ok (into_values tables)).
Definition grants_program : Catalog R unit (list str) :=
  ask! rows := grants_sql, [] with failed in Done (Ok (omap (fun row => string_at row 0) rows)).

(** [config.read_only] and the fingerprint of the configuration. *)
Definition metadata_program (database : str) (config_read_only : bool) (fingerprint : str) (version : Z * Z * Z) :
  Catalog R unit (Facts * DataMetadataSnapshot) :=
  and_then (facts_program version) (fun facts =>
  and_then (tables_program database) (fun tables =>
  and_then grants_program (fun grants =>
    Done (let permissions := verify_grants grants database config_read_only in
          let? json := cell (tables_json tables) in
          Ok (facts, mkMetadata MySql tables (f_read_only facts || config_read_only) permissions true (f_locking facts)
                       (sha256_hex json) fingerprint))))).

(** ** Every statement reads *)

Lemma mysql_sql_reads : Forall read_statement [columns_sql; foreign_keys_sql; triggers_sql; indexes_sql; grants_sql].
Proof.
  apply list.Forall_forall. intros sql. rewrite !elem_of_cons.
  intros [->|[->|[->|[->|[->|[]%elem_of_nil]]]]]; [left|left|left|left|right]; vm_compute; reflexivity.
Qed.
Lemma facts_reads version : read_statement (server_facts_sql version).
Proof. left. unfold server_facts_sql. apply starts_with_app. vm_compute. reflexivity. Qed.

Definition tables_sql : list str := [columns_sql; foreign_keys_sql; triggers_sql; indexes_sql].
Lemma mysql_tables_asks database : asks (fun sql => read_statement sql /\ sql ∈ tables_sql) (tables_program database).
Proof.
  pose proof mysql_sql_reads as F. rewrite !list.Forall_cons in F. destruct F as (F1 & F2 & F3 & F4 & _). unfold tables_program.
  split; [split; [done|by left]|]. intros columns. destruct (SqliteAdapter.fold_rows load_column ∅ columns); [|exact I].
  split; [split; [done|right; by left]|]. intros keys. destruct (SqliteAdapter.fold_rows _ ∅ keys); [|exact I].
  split; [split; [done|do 2 right; by left]|]. intros triggers. destruct (SqliteAdapter.fold_rows load_trigger _ triggers); [|exact I].
  split; [split; [done|do 3 right; by left]|]. done.
Qed.
Lemma metadata_asks database read_only fingerprint version :
  asks read_statement (metadata_program database read_only fingerprint version).
Proof.
  unfold metadata_program. apply asks_and_then; [split; [apply facts_reads|done]|]. intros facts. apply asks_and_then.
  { eapply asks_weaken; [|apply mysql_tables_asks]. by intros sql []. }
  intros tables. apply asks_and_then; [|done]. split; [|done]. pose proof mysql_sql_reads as F. rewrite !list.Forall_cons in F.
  destruct F as (_ & _ & _ & _ & F & _). exact F.
Qed.

End Rows.
End MysqlCatalog.
