(* ===== verification/MysqlChannel.v ===== *)
(** The session of the MySQL channel ([MySqlSession] of
    src-tauri/src/db/data_tasks/adapters/mysql.rs): locking the target, loading
    its metadata, streaming a snapshot, writing, committing and releasing the
    locks, which is shown to be the transactional session that the
    orchestration relies on. *)
From S2P Require Import Prelude RustText DataTypes MetaTypes Values Spool SpoolSort TypeMapping Metadata Plan Batch Executor.
From S2P Require Import Execution SqliteAdapter WireRows NetworkChannel MysqlWire MysqlCatalog.
Import DataTypes MetaTypes Values Spool SpoolSort TypeMapping Metadata Batch Executor Execution WireRows NetworkChannel MysqlWire MysqlCatalog.

Module MysqlChannel.

(** ** The driver *)

Record Connection (W R : Type) : Type := mkConnection {
  server_version : W -> Z * Z * Z;
  query_drop : str -> W -> bool * W;
  (** [query_drop], then [affected_rows]. *)
  query_affected : str -> W -> option Z * W;
  query : str -> list str -> W -> result (list R) unit * W;
  (** The rows until the end ([true]) or an error. *)
  query_iter : str -> W -> option (list R * bool) * W;
  exec_drop : str -> list Value -> W -> option Z * W;
  disconnect_immediately : W -> W;
}.
Arguments server_version {W R}. Arguments query_drop {W R}. Arguments query_affected {W R}. Arguments query {W R}.
Arguments query_iter {W R}. Arguments exec_drop {W R}. Arguments disconnect_immediately {W R}.

(** ** The session *)

(** The fields that change; [connected] is [conn.is_some()]. *)
Record Session : Type := mkSession {
  connected : bool; s_metadata : option DataMetadataSnapshot; locked : bool; s_instance : option str; actual_database : str;
  cleanup_errors : list str }.
Definition set_connected (s : Session) (b : bool) : Session :=
  mkSession b (s_metadata s) (locked s) (s_instance s) (actual_database s) (cleanup_errors s).
Definition set_locked (s : Session) (b : bool) : Session :=
  mkSession (connected s) (s_metadata s) b (s_instance s) (actual_database s) (cleanup_errors s).
Definition set_errors (s : Session) (l : list str) : Session :=
  mkSession (connected s) (s_metadata s) (locked s) (s_instance s) (actual_database s) l.
Definition set_loaded (s : Session) (f : Facts) (m : DataMetadataSnapshot) : Session :=
  mkSession (connected s) (Some m) (locked s) (Some (f_instance f)) (f_database f) (cleanup_errors s).

Definition closed_error : str := u "MySQL 任务会话已关闭，事务结果需核对".
Definition unlock_sql : str := u "UNLOCK TABLES; SET autocommit=1".
Definition interrupted_error : str := u "cancelled: 数据任务已取消，正在关闭专属会话".

Section Channel.
Context {W R J : Type} `{Columns R} `{Documents J} (env : Environment W) (layout : Layout) (b : ResourceBudget).
Context (sleep fetch : W -> W) (deliver : CanonicalRow -> W -> bool * W) (interrupted in_time : W -> bool).
Context (column_json : DataColumn -> option str) (tables_json : list DataTable -> option bytes) (to_lowercase : str -> str)
  (escapes : char -> bool) (sha256_hex : bytes -> str).
Context (c : Connection W R) (state : W -> Session) (set_state : Session -> W -> W).
(** The endpoint, and what the configuration says. *)
Context (database : str) (config_read_only : bool) (fingerprint : str).

Definition update (f : Session -> Session) (w : W) : W := set_state (f (state w)) w.
(** [checked(&self.cancel)?], [self.connection()?] *)
Definition checking {A : Type} (f : W -> result A str * W) (w : W) : result A str * W :=
  if e_cancelled env w then (Err (u "cancelled: 数据任务已取消"), w) else f w.
Definition connection {A : Type} (f : W -> result A str * W) (w : W) : result A str * W :=
  if connected (state w) then f w else (Err closed_error, w).
Definition drop_query (sql : str) (w : W) : result unit str * W :=
  let '(ok, w) := query_drop c sql w in (if ok then Ok tt else Err DATABASE_ERROR, w).

Definition read_sql (version : Z * Z * Z) : str :=
  let '(major, minor, patch) := version in
  let since_5_6_5 := (5 <? major) || ((5 =? major) && ((6 <? minor) || ((6 =? minor) && (5 <=? patch)))) in
  u "SET TRANSACTION ISOLATION LEVEL REPEATABLE READ; START TRANSACTION WITH CONSISTENT SNAPSHOT"
  ++ (if since_5_6_5 then u ", READ ONLY" else []).
Definition session_begin_read : W -> result unit str * W :=
  checking (connection (fun w => drop_query (read_sql (server_version c w)) w)).
Definition session_begin_protected_write (tables : list str) : W -> result unit str * W :=
  checking (fun w =>
    if config_read_only then (Err (u "read_only_target: 目标保存连接为只读"), w)
    else
      match protected_write_sql database tables with
      | Err e => (Err e, w)
      | Ok sql => connection (fun w => let '(r, w) := drop_query sql w in
                                       match r with Ok _ => (Ok tt, update (fun s => set_locked s true) w) | Err e => (Err e, w) end) w
      end).
Definition session_load_metadata : W -> result DataMetadataSnapshot str * W :=
  checking (connection (fun w =>
    match run (query c) (metadata_program column_json tables_json to_lowercase escapes sha256_hex database config_read_only fingerprint
                           (server_version c w)) w with
    | (Ok (facts, m), w) => (Ok m, update (fun s => set_loaded s facts m) w)
    | (Err e, w) => (Err e, w)
    end)).

(** A row of the snapshot: the table's index and the payload. *)
Definition item (projections : list Projection) (row : R) : Item :=
  let? index := cell (integer_at U64 row 0) in
  let? p := ok_or (get_index projections index) (u "MySQL 集合表序号无效") in
  let? payload := cell (string_at row 1) in
  if payload_limit <? str_len payload then Err (u "resource_limit: MySQL 行载荷超过上限")
  else Ok (sat_mul (str_len payload) 3, decode_payload (J := J) (pj_output_table p) (pj_key_indices p) payload).
Definition session_stream_rows (polls : nat) (projections : list Projection) (w : W) : Rows * result Z str * W :=
  if e_cancelled env w then ([], Err (u "cancelled: 数据任务已取消"), w)
  else
    match (let? m := ok_or (s_metadata (state w)) (u "必须先批量读取元数据") in snapshot_sql database projections m) with
    | Err e => ([], Err e, w)
    | Ok sql =>
      if negb (connected (state w)) then ([], Err DATABASE_ERROR, w)
      else
        let '(rows, r, w) :=
          (let '(q, w) := query_iter c sql w in
           if interrupted w then ([], Err interrupted_error, w)
           else
             match q with
             | None => ([], Err DATABASE_ERROR, w)
             | Some (rows, complete) =>
               forward_rows env layout b sleep deliver fetch interrupted (item projections) polls (Some interrupted_error)
                 (Some (u "cancelled: 数据任务已取消")) (fun e => e) DATABASE_ERROR rows complete [] w
             end) in
        (** A cancelled session does not come back. *)
        let w := if e_cancelled env w then update (fun s => set_connected s false) (disconnect_immediately c w) else w in
        (rows, r, w)
    end.

Definition session_write_batch (batch : WriteBatch) : W -> result Z str * W :=
  checking (fun w =>
    match traverse bind_value (wb_params batch) with
    | Err e => (Err e, w)
    | Ok vs => connection (fun w => let '(n, w) := exec_drop c (wb_sql batch) vs w in (ok_or n DATABASE_ERROR, w)) w
    end).
Definition delete_sql (table : str) : str := u "DELETE FROM " ++ id database ++ u "." ++ id table.
Definition session_delete_all (table : str) : W -> result Z str * W :=
  checking (connection (fun w => let '(n, w) := query_affected c (delete_sql table) w in (ok_or n DATABASE_ERROR, w))).

Fixpoint check_generators (tables : list DataTable) (mapping : list ValidatedTableMapping) : result unit str :=
  match mapping with
  | [] => Ok tt
  | m :: mapping =>
    let? t := ok_or (find_table tables (vt_target_table m)) (u "目标表不存在") in
    if existsb (fun c => dc_identity c && negb (dc_generator_safe c)) (tb_columns t)
    then Err (u "unsupported_capability: 自增生成器不安全") else check_generators tables mapping
  end.
Definition session_maintain_generators (mapping : list ValidatedTableMapping) : W -> result unit str * W :=
  checking (fun w => ((let? m := ok_or (s_metadata (state w)) (u "缺少 MySQL 元数据") in check_generators (md_tables m) mapping), w)).

Definition release_locks_after_confirmed_outcome (w : W) : W :=
  if negb (locked (state w)) then w
  else
    let w := update (fun s => set_locked s false) w in
    let '(released, w) := if connected (state w) then query_drop c unlock_sql w else (false, w) in
    if released then w
    else
      let w := if connected (state w) then update (fun s => set_connected s false) (disconnect_immediately c w) else w in
      update (fun s => set_errors s (cleanup_errors s ++ [u "事务结果已确认，但释放 MySQL 会话锁失败；已关闭专属连接"])) w.
Definition session_end (sql : str) : W -> result unit str * W :=
  connection (fun w => let '(r, w) := drop_query sql w in
                       match r with Ok _ => (Ok tt, release_locks_after_confirmed_outcome w) | Err e => (Err e, w) end).

Definition mysql_session (polls : nat) : DataSession W := {|
  supports_transaction _ := true;
  endpoint_identity w := Some (mkIdentity MySql (s_instance (state w)) (actual_database (state w)) None);
  take_cleanup_errors w := (cleanup_errors (state w), update (fun s => set_errors s []) w);
  dialect := DMySql;
  begin_read := session_begin_read;
  begin_protected_write := session_begin_protected_write;
  load_metadata := session_load_metadata;
  Execution.stream_rows := session_stream_rows polls;
  write_batch := session_write_batch;
  delete_all := session_delete_all;
  maintain_generators := session_maintain_generators;
  commit := SqliteAdapter.timed in_time (session_end (u "COMMIT"));
  rollback := session_end (u "ROLLBACK");
  rollback_in_time := SqliteAdapter.timed in_time (session_end (u "ROLLBACK"));
|}.
End Channel.

(** ** What MySQL documents *)

Section Laws.
Context {W D R J : Type} `{Columns R} `{Documents J} (env : Environment W) (layout : Layout) (b : ResourceBudget).
Context (sleep fetch : W -> W) (deliver : CanonicalRow -> W -> bool * W) (interrupted in_time : W -> bool).
Context (column_json : DataColumn -> option str) (tables_json : list DataTable -> option bytes) (to_lowercase : str -> str)
  (escapes : char -> bool) (sha256_hex : bytes -> str).
Context (c : Connection W R) (state : W -> Session) (set_state : Session -> W -> W).
Context (database : str) (config_read_only : bool) (fingerprint : str).
(** The committed state, what the session sees, whether a transaction with its
    locks is open; the answers of the catalog and of a snapshot query. *)
Context (db work : W -> D) (tx : W -> bool).
Context (answers : D -> str -> list str -> list R) (selects : D -> str -> list R).

Definition schema (d : D) : result (list DataTable) str := eval (answers d) (tables_program column_json escapes database).
Definition known (s : Session) : option (list DataTable) := md_tables <$> s_metadata s.
Abbreviation open := (open_session work tx state known schema) (only parsing).
Abbreviation obs := (observed db work tx) (only parsing).

(** The rows of a state as the session reads them. *)
Definition mysql_content (d : D) (ps : list Projection) : Rows :=
  match (let? tables := schema d in snapshot_of database ps tables) with
  | Ok sql => omap (fun row => decoded_of (item (J := J) ps row)) (selects d sql)
  | Err _ => []
  end.

(** LOCK TABLES without autocommit sees the committed state and keeps others
    out; inside it statements change only the session's state, and data
    statements no table's definition; COMMIT publishes it or nothing; without a
    transaction UNLOCK TABLES publishes nothing, nor does ROLLBACK or losing the
    connection; queries read the session's state. *)
Class MysqlLaws : Prop := {
  ml_lock tables sql w ok w' : protected_write_sql database tables = Ok sql -> tx w = false -> query_drop c sql w = (ok, w') ->
    db w' = db w /\ (ok = true -> work w' = db w' /\ tx w' = true);
  ml_commit w ok w' : tx w = true -> query_drop c (u "COMMIT") w = (ok, w') ->
    (ok = true -> db w' = work w /\ tx w' = false) /\ (db w' = db w \/ db w' = work w);
  ml_rollback w ok w' : query_drop c (u "ROLLBACK") w = (ok, w') -> db w' = db w /\ (ok = true -> tx w' = false);
  ml_unlock w ok w' : tx w = false -> query_drop c unlock_sql w = (ok, w') -> db w' = db w;
  ml_exec sql vs w n w' : data_statement sql = true -> tx w = true -> exec_drop c sql vs w = (n, w') ->
    db w' = db w /\ (n <> None -> tx w' = true /\ schema (work w') = schema (work w));
  ml_affected sql w n w' : data_statement sql = true -> tx w = true -> query_affected c sql w = (n, w') ->
    db w' = db w /\ (n <> None -> tx w' = true /\ schema (work w') = schema (work w));
  ml_query :: QueryLaws db work tx (query c);
  ml_answers sql arguments w rows w' : sql ∈ tables_sql -> tx w = true -> query c sql arguments w = (Ok rows, w') ->
    rows = answers (work w) sql arguments;
  ml_iter sql w r w' : read_statement sql -> tx w = true -> query_iter c sql w = (r, w') ->
    db w' = db w /\ forall rows complete, r = Some (rows, complete) ->
      obs w' = obs w /\ (complete = true -> rows ≡ₚ selects (work w) sql);
  ml_disconnect w : db (disconnect_immediately c w) = db w;
}.
(** The driver's calls do not touch the session's fields. *)
Class MysqlFrame : Prop := {
  mf_drop sql w ok w' : query_drop c sql w = (ok, w') -> state w' = state w;
  mf_affected sql w n w' : query_affected c sql w = (n, w') -> state w' = state w;
  mf_query sql arguments w r w' : query c sql arguments w = (r, w') -> state w' = state w;
  mf_iter sql w r w' : query_iter c sql w = (r, w') -> state w' = state w;
  mf_exec sql vs w n w' : exec_drop c sql vs w = (n, w') -> state w' = state w;
  mf_disconnect w : state (disconnect_immediately c w) = state w;
  mf_sticky w : e_cancelled env w = true -> e_cancelled env (disconnect_immediately c w) = true;
}.
Context `{!MysqlLaws, !MysqlFrame, !Frame env db work tx state set_state sleep fetch deliver,
  !Neutral env db work tx, !SqliteAdapter.Quiet db work tx sleep deliver}.

Lemma mysql_update_obs f w : obs (update state set_state f w) = obs w.
Proof. apply (frame_set env db work tx state set_state sleep fetch deliver). Qed.
Lemma mysql_update_get f w : state (update state set_state f w) = f (state w).
Proof. apply (frame_get env db work tx state set_state sleep fetch deliver). Qed.
Lemma mysql_update_db f w : db (update state set_state f w) = db w.
Proof. pose proof (mysql_update_obs f w) as E. by injection E. Qed.

(** *** Reading the schema *)

Lemma mysql_run_state {A : Type} (p : Catalog R unit A) w r w' : run (query c) p w = (r, w') -> state w' = state w.
Proof.
  revert w. induction p as [x|sql arguments failed next IH]; intros w; cbn [run]; [by intros [= <- <-]|].
  destruct (query c sql arguments w) as [[rows|e] w1] eqn:Q; apply mf_query in Q.
  - intros Hr. apply IH in Hr. congruence.
  - by intros [= <- <-].
Qed.

Abbreviation program := (metadata_program column_json tables_json to_lowercase escapes sha256_hex database config_read_only fingerprint)
  (only parsing).
Lemma metadata_tables version w facts m w' : tx w = true -> run (query c) (program version) w = (Ok (facts, m), w') ->
  schema (work w) = Ok (md_tables m).
Proof.
  intros T. unfold metadata_program. rewrite run_and_then. destruct (run (query c) (facts_program _ version) w) as [[f|e] w1] eqn:Rf; [|done].
  assert (A1 : asks read_statement (facts_program (R := R) to_lowercase version)) by (split; [apply facts_reads|done]).
  destruct (run_reads db work tx (query c) _ _ _ _ A1 T Rf) as [_ E1]. specialize (E1 f eq_refl). injection E1 as _ E1 E2.
  rewrite run_and_then. destruct (run (query c) (tables_program column_json escapes database) w1) as [[tables|e] w2] eqn:Rt; [|done].
  assert (S : schema (work w1) = Ok tables).
  { eapply (run_eval db work tx answers (query c) (fun sql => sql ∈ tables_sql)); [apply ml_answers|apply mysql_tables_asks|congruence|exact Rt]. }
  rewrite E1 in S. rewrite S. rewrite run_and_then. destruct (run (query c) grants_program w2) as [[grants|e] w3]; [|done].
  cbn [run]. intros X. apply pair_equal_spec in X as [X _]. apply rbind_ok_inv in X as (json & _ & X). apply Ok_inj in X.
  apply pair_equal_spec in X as [_ <-]. done.
Qed.

Abbreviation mysql polls := (mysql_session (J := J) env layout b sleep fetch deliver interrupted in_time column_json tables_json to_lowercase
  escapes sha256_hex c state set_state database config_read_only fingerprint polls) (only parsing).

Lemma mysql_load_metadata_reads : reads db work open (session_load_metadata env column_json tables_json to_lowercase escapes sha256_hex c
  state set_state database config_read_only fingerprint).
Proof.
  intros w r w' O. destruct (open_inv _ _ _ _ _ _ O) as [T _]. unfold session_load_metadata, checking, connection.
  destruct (e_cancelled env w); [by intros [= <- <-]|]. destruct (connected (state w)); [|by intros [= <- <-]].
  destruct (run _ _ w) as [[[facts m]|e] w1] eqn:Rn.
  - intros [= <- <-]. pose proof (metadata_tables _ _ _ _ _ T Rn) as S.
    destruct (run_reads db work tx (query c) _ _ _ _ (metadata_asks _ _ _ _ _ _ _ _ _) T Rn) as [E1 X].
    specialize (X _ eq_refl). pose proof (mysql_update_obs (fun s => set_loaded s facts m) w1) as U. rewrite X in U.
    injection U as U1 U2 U3. split; [congruence|]. intros _ _. unfold observed. rewrite U1, U2, O. f_equal.
    apply open_intro; [congruence|]. rewrite mysql_update_get, U2. by intros tables [= <-].
  - intros [= <- <-]. destruct (run_reads db work tx (query c) _ _ _ _ (metadata_asks _ _ _ _ _ _ _ _ _) T Rn) as [E1 _].
    by split.
Qed.

(** *** Streaming *)

Lemma mysql_snapshot_select ps tables sql : snapshot_of database ps tables = Ok sql -> read_statement sql.
Proof.
  unfold snapshot_of. destruct (_ || _) eqn:E; [done|]. apply orb_false_iff in E as [E _]. intros X.
  apply rbind_ok_inv in X as (parts & T & X). destruct (_ <? _); [done|]. apply Ok_inj in X as <-.
  eapply union_reads; [|exact E|exact T]. intros i p s Fs.
  unfold select_sql in Fs. apply rbind_ok_inv in Fs as (t & _ & Fs). destruct (is_empty (pj_columns p)); [done|].
  apply rbind_ok_inv in Fs as (fields & _ & Fs). apply Ok_inj in Fs as <-. apply starts_with_app. vm_compute. reflexivity.
Qed.

Lemma mysql_item_typed ps row x : Forall fits ps -> decoded_of (item (J := J) ps row) = Some x -> streamed x.
Proof.
  intros F. unfold item. destruct (cell _) as [index|]; [|done]. cbn [rbind]. destruct (get_index ps index) as [p|] eqn:P; [|done].
  cbn [ok_or rbind]. destruct (cell (string_at row 1)) as [payload|]; [|done]. cbn [rbind]. destruct (_ <? _); [done|].
  cbn [decoded_of]. destruct (decode_payload _ _ payload) as [r|e] eqn:Dp; [|done]. intros [= <-].
  assert (Hp : p ∈ ps) by (unfold get_index in P; destruct (index <? 0); [done|by eapply list_elem_of_lookup_2]).
  rewrite list.Forall_forall in F. destruct (F p Hp) as (Wt & _ & _).
  apply mysql_decode_payload_typed in Dp as (Wr & [bs Cb] & L); [|done]. split; [done|]. exists bs. split; [done|].
  assert (Small : SqliteAdapter.row_limit < u64_max) by (by vm_compute).
  pose proof (row_size_small r bs Wr Cb ltac:(lia)). unfold usize_max. lia.
Qed.

Lemma mysql_stream_obs polls ps w rows r w' : open w = true ->
  session_stream_rows (J := J) env layout b sleep fetch deliver interrupted c state set_state database polls ps w = (rows, r, w') ->
  db w' = db w /\ (forall n, r = Ok n -> observed db work open w' = observed db work open w \/ e_cancelled env w' = true) /\
  forall n, r = Ok n -> rows ≡ₚ mysql_content (work w) ps.
Proof.
  intros O. destruct (open_inv _ _ _ _ _ _ O) as [T K]. unfold session_stream_rows. destruct (e_cancelled env w); [by intros [= <- <- <-]|].
  destruct (rbind _ _) as [sql|e] eqn:Q; [|by intros [= <- <- <-]]. apply rbind_ok_inv in Q as (m & M%ok_or_ok_inv & Q).
  assert (S : schema (work w) = Ok (md_tables m)) by (apply K; unfold known; by rewrite M).
  destruct (negb _); [by intros [= <- <- <-]|]. destruct (query_iter c sql w) as [q w1] eqn:I.
  pose proof (mf_iter _ _ _ _ I) as S1. apply ml_iter in I as [E1 X1]; [|by eapply mysql_snapshot_select|done].
  set (inner := if interrupted w1 then _ else _). destruct inner as [[rows0 r0] w2] eqn:L. subst inner.
  assert (G : db w2 = db w /\ (forall n, r0 = Ok n -> observed db work open w2 = observed db work open w) /\
    forall n, r0 = Ok n -> rows0 ≡ₚ mysql_content (work w) ps).
  { destruct (interrupted w1); [by injection L as <- <- <-|]. destruct q as [[cells complete]|]; [|by injection L as <- <- <-].
    destruct (X1 cells complete eq_refl) as [E2 P].
    pose proof (neutral_open env db work tx state set_state known schema sleep fetch deliver).
    pose proof (quiet_open env db work tx state set_state known schema sleep fetch deliver).
    pose proof (fetch_open env db work tx state set_state known schema sleep fetch deliver) as Fo.
    apply (forward_rows_obs env db work open layout b sleep fetch deliver interrupted Fo) in L as (E3 & _ & C).
    pose proof (observed_open db work tx state known schema _ _ E2 S1) as E4. rewrite E4 in E3. split; [by injection E3|].
    split; [done|]. intros n Hn. destruct (C n Hn) as (Cc & -> & _). unfold mysql_content. rewrite S. cbn [rbind app].
    unfold snapshot_sql in Q. rewrite Q. by rewrite (P Cc). }
  destruct G as (G1 & G2 & G3). destruct (e_cancelled env w2) eqn:Cn; intros [= <- <- <-].
  - rewrite mysql_update_db, ml_disconnect. split; [done|]. split; [|done]. intros n Hn. right.
    by apply (frame_sticky env db work tx state set_state sleep fetch deliver), mf_sticky.
  - split; [done|]. split; [|done]. intros n Hn. left. by eapply G2.
Qed.

(** *** Writing and ending *)

Lemma write_inside f (after : option Z -> result Z str) w r w' :
  (forall w n w', tx w = true -> f w = (n, w') -> state w' = state w /\ db w' = db w /\
     (n <> None -> tx w' = true /\ schema (work w') = schema (work w))) ->
  (forall x, after None <> Ok x) -> open w = true ->
  connection state (fun w => let '(n, w) := f w in (after n, w)) w = (r, w') ->
  db w' = db w /\ forall x, r = Ok x -> open w' = true.
Proof.
  intros F A O. destruct (open_inv _ _ _ _ _ _ O) as [T K]. unfold connection. destruct (connected _); [|by intros [= <- <-]].
  destruct (f w) as [n w1] eqn:E. apply F in E as (E1 & E2 & E3); [|done]. intros [= <- <-]. split; [done|].
  intros x Hx. destruct n as [n|]; [|by apply A in Hx]. destruct (E3 ltac:(done)) as [T1 S1].
  apply open_intro; [done|]. rewrite E1, S1. exact K.
Qed.

Lemma release_db w : tx w = false -> db (release_locks_after_confirmed_outcome c state set_state w) = db w.
Proof.
  intros T. unfold release_locks_after_confirmed_outcome. destruct (negb _); [done|].
  set (w1 := update state set_state _ w). assert (T1 : tx w1 = false).
  { unfold w1. pose proof (mysql_update_obs (fun s => set_locked s false) w) as U. injection U as _ _ U. congruence. }
  assert (D1 : db w1 = db w) by apply mysql_update_db.
  destruct (if connected (state w1) then _ else _) as [released w2] eqn:U.
  assert (D2 : db w2 = db w1).
  { destruct (connected (state w1)); [by eapply ml_unlock|by injection U as <- <-]. }
  destruct released; [congruence|]. rewrite mysql_update_db. destruct (connected (state w2)); [rewrite mysql_update_db, ml_disconnect|]; congruence.
Qed.
Lemma mysql_rollback_db w r w' : session_end c state set_state (u "ROLLBACK") w = (r, w') -> db w' = db w.
Proof.
  unfold session_end, connection. destruct (connected _); [|by intros [= <- <-]]. unfold drop_query.
  destruct (query_drop c (u "ROLLBACK") w) as [ok w1] eqn:Q. apply ml_rollback in Q as [E1 X1]. destruct ok.
  - intros [= <- <-]. rewrite release_db; [done|by apply X1].
  - by intros [= <- <-].
Qed.
Lemma commit_db w r w' : tx w = true -> session_end c state set_state (u "COMMIT") w = (r, w') ->
  (r = Ok tt -> db w' = work w) /\ (db w' = db w \/ db w' = work w).
Proof.
  intros T. unfold session_end, connection. destruct (connected _); [|intros [= <- <-]; split; [discriminate|by left]]. unfold drop_query.
  destruct (query_drop c (u "COMMIT") w) as [ok w1] eqn:Q. apply ml_commit in Q as [X1 X2]; [|done]. destruct ok.
  - intros [= <- <-]. destruct (X1 eq_refl) as [E1 T1]. rewrite release_db by done. split; [by intros _|by right].
  - intros [= <- <-]. split; [discriminate|done].
Qed.

Lemma delete_data table : data_statement (delete_sql database table) = true.
Proof. unfold delete_sql. apply data_statement_app. vm_compute. reflexivity. Qed.

Lemma mysql_transactional polls : Transactional env db work open mysql_content (idle_session tx state known) (mysql polls).
Proof.
  split.
  - intros ts w r w' [T _]. cbn [mysql_session begin_protected_write]. unfold session_begin_protected_write, checking, connection.
    destruct (e_cancelled env w); [by intros [= <- <-]|]. destruct config_read_only; [by intros [= <- <-]|].
    destruct (protected_write_sql database ts) as [sql|e] eqn:P; [|by intros [= <- <-]]. destruct (connected _); [|by intros [= <- <-]].
    unfold drop_query. destruct (query_drop c sql w) as [ok w1] eqn:Q. destruct (ml_lock _ _ _ _ _ P T Q) as [E _].
    destruct ok; intros [= <- <-]; [by rewrite mysql_update_db|done].
  - intros ts w w' [T Kn]. cbn [mysql_session begin_protected_write]. unfold session_begin_protected_write, checking, connection.
    destruct (e_cancelled env w); [done|]. destruct config_read_only; [done|].
    destruct (protected_write_sql database ts) as [sql|e] eqn:P; [|done]. destruct (connected _); [|done].
    unfold drop_query. destruct (query_drop c sql w) as [ok w1] eqn:Q. destruct (ml_lock _ _ _ _ _ P T Q) as [_ E].
    apply mf_drop in Q. destruct ok; [|done]. destruct (E eq_refl) as [E1 E2]. intros [= <-].
    pose proof (mysql_update_obs (fun s => set_locked s true) w1) as U. injection U as U1 U2 U3. split; [congruence|].
    apply open_intro; [congruence|]. rewrite mysql_update_get. unfold known. cbn [set_locked s_metadata]. fold (known (state w1)).
    rewrite Q, Kn. done.
  - apply mysql_load_metadata_reads.
  - intros ps w rows r w' O Hs. cbn [mysql_session Execution.stream_rows] in Hs. apply mysql_stream_obs in Hs as (E1 & E2 & _); done.
  - intros ps w rows n w' O F Hs. cbn [mysql_session Execution.stream_rows] in Hs. pose proof Hs as Hs'.
    apply mysql_stream_obs in Hs as (_ & _ & E); [|done]. specialize (E n eq_refl). split; [|done]. rewrite E.
    apply list.Forall_forall. intros x Hx. unfold mysql_content in Hx. destruct (rbind _ _); [|by apply elem_of_nil in Hx].
    apply list_elem_of_omap in Hx as (row & _ & Hx). by eapply mysql_item_typed.
  - intros x Dx w r w' O. cbn [mysql_session write_batch]. unfold session_write_batch, checking.
    destruct (e_cancelled env w); [by intros [= <- <-]|]. destruct (traverse _ _) as [vs|e]; [|by intros [= <- <-]].
    apply (write_inside (exec_drop c (wb_sql x) vs) (fun n => ok_or n DATABASE_ERROR)); [|done|done].
    intros w1 n w2 T Ex. split; [by eapply mf_exec|]. by eapply ml_exec.
  - intros x w r w' O. cbn [mysql_session delete_all]. unfold session_delete_all, checking.
    destruct (e_cancelled env w); [by intros [= <- <-]|].
    apply (write_inside (query_affected c (delete_sql database x)) (fun n => ok_or n DATABASE_ERROR)); [|done|done].
    intros w1 n w2 T Ex. split; [by eapply mf_affected|]. eapply ml_affected; [apply delete_data|done|done].
  - intros x w r w' O. cbn [mysql_session maintain_generators]. unfold session_maintain_generators, checking.
    destruct (e_cancelled env w); by intros [= <- <-].
  - intros w r w' O. destruct (open_inv _ _ _ _ _ _ O) as [T _]. cbn [mysql_session commit]. unfold SqliteAdapter.timed.
    destruct (session_end _ _ _ _ w) as [x w1] eqn:E. apply commit_db in E as [E1 E2]; [|done]. intros [= <- <-]. split; [|done].
    destruct (in_time w); [|discriminate]. intros [= ->]. by apply E1.
  - exact mysql_rollback_db.
  - intros w r w'. cbn [mysql_session rollback_in_time]. unfold SqliteAdapter.timed.
    destruct (session_end _ _ _ _ w) as [x w1] eqn:E. intros [= _ <-]. by eapply mysql_rollback_db.
  - intros w r w'. cbn [mysql_session take_cleanup_errors]. intros [= _ <-]. apply mysql_update_db.
Qed.

(** C8: the session of the MySQL channel is the transactional session the
    orchestration is verified against: with the server and its driver behaving
    as documented, every guarantee of [Transactional] holds of it, for the rows
    that its snapshot query reads of the tables it loaded. *)
Theorem mysql_session_transactional polls :
  Transactional env db work open mysql_content (idle_session tx state known) (mysql polls).
Proof. apply mysql_transactional. Qed.
End Laws.

(** ** Witness: a server with one table, a committed and a working list of rows *)

#[export] Instance text_columns : Columns (list (option str)) := {|
  string_at row i := mjoin (row !! i);
  optional_string_at row i := row !! i;
  integer_at _ row i := mjoin (row !! i) ≫= parse_u64;
  optional_integer_at _ row i := match row !! i with Some (Some s) => Some <$> parse_u64 s | Some None => Some None | None => None end;
  bool_at _ _ := None;
  strings_at _ _ := None;
|}.
Record Store : Type := mkStore {
  st_committed : list (list (option str)); st_working : list (list (option str)); st_open : bool; st_session : Session }.
Definition store_answers (sql : str) : list (list (option str)) :=
  if str_eqb sql columns_sql
  then [map (fun s => Some (u s)) ["t"; "BASE TABLE"; "InnoDB"; "v"; "int"; "NO"; ""; ""; ""; "1"]%string]
  else if starts_with (u "SELECT @@version") sql
  then [map (fun s => Some (u s)) ["8.0.36"; "0"; "1"; "0"; "h"; "3306"; "1"; "shop"; "0"]%string]
  else if str_eqb sql grants_sql then [[Some (u "GRANT ALL PRIVILEGES ON *.* TO `a`@`%`")]]
  else [].
Definition store_connection : Connection Store (list (option str)) := {|
  server_version _ := (8, 0, 36);
  query_drop sql w :=
    if str_eqb sql (u "COMMIT") then (true, mkStore (st_working w) (st_working w) false (st_session w))
    else if str_eqb sql (u "ROLLBACK") then (true, mkStore (st_committed w) (st_committed w) false (st_session w))
    else if str_eqb sql unlock_sql then (true, w)
    else (true, mkStore (st_committed w) (st_committed w) true (st_session w));
  query_affected _ w := (Some 0, mkStore (st_committed w) [] (st_open w) (st_session w));
  query sql _ w := (Ok (store_answers sql), w);
  query_iter _ w := (Some (st_working w, true), w);
  exec_drop _ _ w := (Some 0, mkStore (st_committed w) [] (st_open w) (st_session w));
  disconnect_immediately w := mkStore (st_committed w) (st_committed w) false (st_session w);
|}.
Definition store_environment : Environment Store :=
  mkEnvironment Store (fun _ => false) (fun _ => 0) (fun _ => 7) (fun _ w => w) (fun _ => fresh_counters false) (fun _ w => w).
Definition store_set (s : Session) (w : Store) : Store := mkStore (st_committed w) (st_working w) (st_open w) s.
Definition no_json (c : DataColumn) : option str := Some [].
Abbreviation store_session := (@mysql_session Store (list (option str)) Sample _ (sample_documents (u "[7]") [wire_field (VInt 7)]) store_environment
  sample_layout default_budget (fun w => w) (fun w => w) (fun _ w => (true, w)) (fun _ => false) (fun _ => true) no_json (fun _ => Some [])
  (fun s => s) (fun _ => false) (fun b => b) store_connection st_session store_set (u "shop") false [] 3) (only parsing).

#[export] Instance store_neutral : Neutral store_environment st_committed st_working st_open.
Proof. by split. Qed.
#[export] Instance store_quiet : SqliteAdapter.Quiet st_committed st_working st_open (fun w => w) (fun _ w => (true, w)).
Proof. split; [done|]. by intros r w x w' [= <- <-]. Qed.
#[export] Instance store_frame : Frame store_environment st_committed st_working st_open st_session store_set (fun w => w) (fun w => w)
  (fun _ w => (true, w)).
Proof. split; try done. by intros r w x w' [= <- <-]. Qed.
#[export] Instance store_mysql_frame : MysqlFrame store_environment store_connection st_session.
Proof.
  split; cbn [query_drop query_affected query query_iter exec_drop disconnect_immediately store_connection]; try done.
  - intros sql w ok w'. repeat case_match; by intros [= _ <-].
  - by intros sql w n w' [= _ <-].
  - by intros sql l w r w' [= _ <-].
  - by intros sql w r w' [= _ <-].
  - by intros sql vs w n w' [= _ <-].
Qed.
Lemma lock_distinct database tables sql : protected_write_sql database tables = Ok sql ->
  str_eqb sql (u "COMMIT") = false /\ str_eqb sql (u "ROLLBACK") = false /\ str_eqb sql unlock_sql = false.
Proof.
  unfold protected_write_sql. destruct (_ || _); [done|]. intros X. apply Ok_inj in X as <-.
  assert (D : forall p x, head (u p) = Some 83 -> head x <> Some 83 -> forall y, str_eqb (u p ++ y) x = false).
  { intros p x Hp Hx y. apply str_eqb_neq. intros <-. destruct (u p); [done|]. by apply Hx. }
  split_and!; apply D; by vm_compute.
Qed.
#[export] Instance store_laws : MysqlLaws no_json (fun _ => false) store_connection (u "shop") st_committed st_working st_open
  (fun _ sql _ => store_answers sql) (fun d _ => d).
Proof.
  split; cbn [query_drop query_affected query query_iter exec_drop disconnect_immediately store_connection]; try done.
  - intros ts sql w ok w' P _. destruct (lock_distinct _ _ _ P) as (-> & -> & ->). by intros [= <- <-].
  - intros w ok w' _. rewrite str_eqb_refl. intros [= <- <-]. split; [done|by right].
  - intros w ok w'. replace (str_eqb (u "ROLLBACK") (u "COMMIT")) with false by (by vm_compute). rewrite str_eqb_refl.
    by intros [= <- <-].
  - intros w ok w' _. replace (str_eqb unlock_sql (u "COMMIT")) with false by (by vm_compute).
    replace (str_eqb unlock_sql (u "ROLLBACK")) with false by (by vm_compute). rewrite str_eqb_refl. by intros [= <- <-].
  - by intros sql vs w n w' _ T [= <- <-].
  - by intros sql w n w' _ T [= <- <-].
  - split. by intros sql l w r w' _ _ [= <- <-].
  - by intros sql l w rows w' _ _ [= <- _].
  - intros sql w r w' _ _ [= <- <-]. split; [done|]. intros rows complete [= <- <-]. by split.
Qed.

Definition store_row : list (option str) := [Some (u "0"); Some (u "[7]")].
Definition store_projection : Projection := mkProjection (u "t") (u "t") [u "v"] [0%nat].
(** The metadata that the session itself loads. *)
Definition store_metadata : DataMetadataSnapshot :=
  match (load_metadata store_session (mkStore [store_row] [store_row] true (mkSession true None true None [] []))).1 with
  | Ok m => m
  | Err _ => mkMetadata MySql [] false false false false [] []
  end.
Definition store_world : Store := mkStore [store_row] [store_row] true (mkSession true (Some store_metadata) true None [] []).

Lemma mysql_session_transactional_witness :
  Execution.stream_rows store_session [store_projection] store_world = ([mkRow (u "t") [VInt 7] [VInt 7]], Ok 1, store_world) /\
  Forall streamed [mkRow (u "t") [VInt 7] [VInt 7]].
Proof.
  assert (S : Execution.stream_rows store_session [store_projection] store_world = ([mkRow (u "t") [VInt 7] [VInt 7]], Ok 1, store_world))
    by (vm_compute; reflexivity).
  split; [exact S|].
  refine (proj1 (tx_rows store_environment st_committed st_working _ _ _ (Transactional := @mysql_session_transactional Store _ (list (option str)) Sample _
    (sample_documents (u "[7]") [wire_field (VInt 7)]) store_environment sample_layout default_budget (fun w => w) (fun w => w) (fun _ w => (true, w))
    (fun _ => false) (fun _ => true) no_json (fun _ => Some []) (fun s => s) (fun _ => false) (fun b => b) store_connection st_session
    store_set (u "shop") false [] st_committed st_working st_open (fun _ sql _ => store_answers sql) (fun d _ => d) _ _ _ _ _ 3)
    [store_projection] store_world _ _ _ _ _ S)).
  - vm_compute. reflexivity.
  - constructor; [|constructor]. split_and!; [apply (bool_decide_unpack (Forall _ _)); vm_compute; exact I|vm_compute; discriminate..].
Defined.

End MysqlChannel.
