(* ===== verification/PostgresWire.v ===== *)
(** What travels between the PostgreSQL channel and the server
    (src-tauri/src/db/data_tasks/adapters/postgres.rs): the statements it
    builds, the versions it accepts, the rows it decodes and the values it
    binds.

    The floating point conversions of the standard library are parameters: the
    bits that a text parses to, and the text of the bits. *)
From S2P Require Import Prelude RustText DataTypes MetaTypes Values SqlDialect Batch Executor SqliteAdapter WireRows.
Import DataTypes MetaTypes Values SqlDialect Batch Executor WireRows.

Module PostgresWire.

Definition DB_ERROR : str := u "PostgreSQL 数据任务失败，请检查权限、约束、事务锁及数据库连接".
Definition id (name : str) : str := identifier DPostgres name.

(** ** Versions *)

Definition package_char (c : byte) : bool := is_ascii_alphanumeric c || (c =? 46) || (c =? 43) || (c =? 126) || (c =? 45).
Definition server_version_verified (version : Z) (release : str) : bool :=
  if negb ((100000 <=? version) && (version <? 190000)) then false
  else
    let stable := show_Z (version / 10000) ++ u "." ++ show_Z (version mod 10000) in
    match strip_prefix stable release with
    | None => false
    | Some suffix =>
      if is_empty suffix || str_eqb suffix (u " (Homebrew)") then true
      else
        let s := match strip_prefix (u " (Debian ") suffix with Some s => Some s | None => strip_prefix (u " (Ubuntu ") suffix end in
        match (x ← s; y ← strip_suffix (u ")") x; z ← strip_prefix stable y; strip_prefix (u "-") z) with
        | None => false
        | Some package => negb (is_empty package) && forallb package_char (utf8 package)
        end
    end.

(** ** Catalog statements *)

Definition column_metadata_sql (version : Z) : str :=
  let generated := if 120000 <=? version then u "a.attgenerated<>''" else u "false" in
  let generated_kind := if 120000 <=? version then u "a.attgenerated::text" else u "''::text" in
  u "SELECT c.relname,c.relkind::text,c.relrowsecurity OR c.relforcerowsecurity,a.attname,pg_catalog.format_type(a.atttypid,a.atttypmod),a.attnotnull,pg_get_expr(d.adbin,d.adrelid)," ++ (generated
  ++ u ",a.attidentity<>'',COALESCE((SELECT k.ordinality::int FROM pg_index i CROSS JOIN LATERAL unnest(i.indkey) WITH ORDINALITY k(attnum,ordinality) WHERE i.indrelid=c.oid AND i.indisprimary AND k.attnum=a.attnum),0),COALESCE(coll.collname,''),has_table_privilege(c.oid,'SELECT'),has_table_privilege(c.oid,'INSERT') AND has_table_privilege(c.oid,'UPDATE') AND has_table_privilege(c.oid,'DELETE'),a.atttypid::regtype::text,EXISTS(SELECT 1 FROM pg_inherits inh WHERE inh.inhrelid=c.oid OR inh.inhparent=c.oid),"
  ++ generated_kind
  ++ u " FROM pg_class c JOIN pg_namespace n ON n.oid=c.relnamespace JOIN pg_attribute a ON a.attrelid=c.oid AND a.attnum>0 AND NOT a.attisdropped LEFT JOIN pg_attrdef d ON d.adrelid=c.oid AND d.adnum=a.attnum LEFT JOIN pg_collation coll ON coll.oid=a.attcollation WHERE n.nspname=$1 AND c.relkind IN ('r','p','v','m','f') ORDER BY c.relname,a.attnum").
Definition constraint_metadata_sql (version : Z) : str :=
  let properties := if 180000 <=? version then u "con.conenforced,con.conperiod" else u "true,false" in
  u "SELECT c.relname,con.contype::text,con.conname,pg_get_constraintdef(con.oid,true),con.convalidated,COALESCE(pn.nspname,''),COALESCE(pc.relname,''),COALESCE((SELECT array_agg(a.attname::text ORDER BY k.ord) FROM unnest(con.conkey) WITH ORDINALITY k(num,ord) JOIN pg_attribute a ON a.attrelid=con.conrelid AND a.attnum=k.num),ARRAY[]::text[]),COALESCE((SELECT array_agg(a.attname::text ORDER BY k.ord) FROM unnest(con.confkey) WITH ORDINALITY k(num,ord) JOIN pg_attribute a ON a.attrelid=con.confrelid AND a.attnum=k.num),ARRAY[]::text[]),con.confupdtype::text,con.confdeltype::text,n.nspname," ++ (properties
  ++ u " FROM pg_constraint con JOIN pg_class c ON c.oid=con.conrelid JOIN pg_namespace n ON n.oid=c.relnamespace LEFT JOIN pg_class pc ON pc.oid=con.confrelid LEFT JOIN pg_namespace pn ON pn.oid=pc.relnamespace WHERE n.nspname=$1 OR (con.contype='f' AND pn.nspname=$1) UNION ALL SELECT c.relname,'index',i.relname,pg_get_indexdef(ix.indexrelid),ix.indisvalid,'','',ARRAY[]::text[],ARRAY[]::text[],'','',n.nspname,true,false FROM pg_index ix JOIN pg_class c ON c.oid=ix.indrelid JOIN pg_namespace n ON n.oid=c.relnamespace JOIN pg_class i ON i.oid=ix.indexrelid WHERE n.nspname=$1 ORDER BY 1,2,3").

(** ** Types *)

Definition wire_type (declared : str) : result str str :=
  let upper := to_ascii_uppercase declared in
  let base := take_while (fun c => negb (c =? 40)) upper in
  if one_of base ["SMALLINT"; "INTEGER"; "BIGINT"]%string then Ok (u "int")
  else if one_of base ["NUMERIC"; "DECIMAL"]%string then Ok (u "decimal")
  else if one_of base ["REAL"]%string then Ok (u "float4")
  else if one_of base ["DOUBLE PRECISION"]%string then Ok (u "float")
  else if one_of base ["BOOLEAN"]%string then Ok (u "bool")
  else if one_of base ["TEXT"; "CHARACTER VARYING"; "CHARACTER"]%string then Ok (u "text")
  else if one_of base ["BYTEA"]%string then Ok (u "binary")
  else if one_of base ["DATE"]%string then Ok (u "date")
  else if one_of base ["TIMESTAMP WITHOUT TIME ZONE"]%string then Ok (u "timestamp")
  else if one_of base ["TIMESTAMP WITH TIME ZONE"]%string then Ok (u "timestamptz")
  else if one_of base ["TIME WITHOUT TIME ZONE"]%string then Ok (u "time")
  else if one_of base ["UUID"]%string then Ok (u "uuid")
  else if starts_with (u "TIMESTAMP(") upper && ends_with (u "WITH TIME ZONE") upper then Ok (u "timestamptz")
  else if starts_with (u "TIMESTAMP(") upper then Ok (u "timestamp")
  else if starts_with (u "TIME(") upper then Ok (u "time")
  else Err (u "unsupported_capability: PostgreSQL 字段类型尚未通过无损验收").

(** ** The snapshot *)

Definition length_sql (column kind : str) : str :=
  if str_eqb kind (u "binary") then u "COALESCE(octet_length(" ++ column ++ u "),0)"
  else u "COALESCE(octet_length(" ++ column ++ u "::text),0)".
Definition cell_sql (column kind : str) : str :=
  let value := if str_eqb kind (u "binary") then u "encode(" ++ column ++ u ",'hex')"
               else if str_eqb kind (u "text") then u "encode(convert_to(" ++ column ++ u ",'UTF8'),'hex')"
               else column ++ u "::text" in
  let kind := if str_eqb kind (u "text") then u "text_hex" else kind in
  u "CASE WHEN " ++ column ++ u " IS NULL THEN json_build_object('t','null','v',NULL) ELSE json_build_object('t','" ++ kind
  ++ u "','v'," ++ value ++ u ") END".
(** [slice::chunks]. *)
Fixpoint chunks_fuel {A : Type} (fuel n : nat) (l : list A) : list (list A) :=
  match fuel, l with
  | O, _ | _, [] => []
  | S fuel, _ => take n l :: chunks_fuel fuel n (drop n l)
  end.
Definition chunks {A : Type} (n : nat) (l : list A) : list (list A) := chunks_fuel (length l) n l.
Definition quote : str := [34].
Definition part_sql (schema : str) (tables : list DataTable) (index : nat) (p : Projection) : result str str :=
  let? t := ok_or (find_first (fun t => str_eqb (tb_name t) (pj_table p) && tb_physical t) tables)
              (u "invalid_mapping: PostgreSQL 快照表不是普通物理表") in
  let? columns := traverse (fun name =>
      let? c := ok_or (find_column (tb_columns t) name) (u "invalid_mapping: PostgreSQL 快照字段不存在") in
      let? kind := wire_type (dc_declared_type c) in
      Ok (id name, kind)) (pj_columns p) in
  if is_empty columns then Err (u "invalid_mapping: PostgreSQL 快照字段不能为空")
  else
    let lengths := map (fun x => length_sql x.1 x.2) columns in
    let cells := map (fun x => cell_sql x.1 x.2) columns in
    let payload := join (u " || ") (map (fun chunk => u "jsonb_build_array(" ++ join (u ",") chunk ++ u ")") (chunks 64 cells)) in
    Ok (u "SELECT " ++ show_Z (Z.of_nat index) ++ u "::bigint AS __data_table,CASE WHEN " ++ join (u " + ") lengths
        ++ u " > 8388608 THEN '{" ++ quote ++ u "resource_limit" ++ quote ++ u ":true}' ELSE (" ++ payload
        ++ u ")::text END AS __data_payload FROM " ++ id schema ++ u "." ++ id (pj_table p)).
Definition snapshot_of (schema : str) (projections : list Projection) (tables : list DataTable) : result str str :=
  if is_empty projections || (100 <? zlen projections) then Err (u "resource_limit: 集合快照须包含 1 至 100 张表")
  else
    let? parts := traverse (fun '(index, p) => part_sql schema tables index p) (imap pair projections) in
    let sql := join (u " UNION ALL ") parts in
    if 1024 * 1024 <? str_len sql then Err (u "resource_limit: 集合快照 SQL 超过 1 MiB") else Ok sql.
Definition snapshot_sql (schema : str) (projections : list Projection) (metadata : DataMetadataSnapshot) : result str str :=
  snapshot_of schema projections (md_tables metadata).

(** ** Binding *)

(** The types of the driver that [accepts] names. *)
Inductive PgType : Type :=
| BOOL | INT2 | INT4 | INT8 | NUMERIC | FLOAT4 | FLOAT8 | TEXT | VARCHAR | BPCHAR | BYTEA | DATE | TIME | TIMESTAMP | TIMESTAMPTZ | UUID
| OTHER (oid : Z).
#[export] Instance PgType_eq_dec : EqDecision PgType.
Proof. solve_decision. Defined.
Definition is_type (ty : PgType) (l : list PgType) : bool := bool_decide (ty ∈ l).
Definition accepts (ty : PgType) : bool :=
  is_type ty [BOOL; INT2; INT4; INT8; NUMERIC; FLOAT4; FLOAT8; TEXT; VARCHAR; BPCHAR; BYTEA; DATE; TIME; TIMESTAMP; TIMESTAMPTZ; UUID].

Section Bind.
(** [f64::to_string] on the bits. *)
Context (show_f64 : Z -> str).
Definition bad_parameter : str := u "PostgreSQL 参数值与目标原生类型不兼容".
(** [None] is the null parameter. *)
Definition to_sql (v : DataValue) (ty : PgType) : result (option str) str :=
  match v with
  | VNull => Ok None
  | VBool v => if is_type ty [BOOL] then Ok (Some (if v then u "true" else u "false")) else Err bad_parameter
  | VInt v | VUInt v => if is_type ty [INT2; INT4; INT8; NUMERIC] then Ok (Some (show_Z v)) else Err bad_parameter
  | VDecimal v => if is_type ty [NUMERIC] then let? d := normalize_decimal v in Ok (Some d) else Err bad_parameter
  | VFloat bits =>
    if is_type ty [FLOAT4; FLOAT8]
    then if SqliteAdapter.is_finite bits then Ok (Some (show_f64 bits)) else Err (u "非有限浮点数未经验证")
    else Err bad_parameter
  | VText v => if is_type ty [TEXT; VARCHAR; BPCHAR] then Ok (Some v) else Err bad_parameter
  | VBinary v => if is_type ty [BYTEA] then Ok (Some ([92; 120] ++ lower_hex v)) else Err bad_parameter
  | VTemporal _ v => if is_type ty [DATE; TIME; TIMESTAMP; TIMESTAMPTZ] then Ok (Some v) else Err bad_parameter
  | VUuid v => if is_type ty [UUID] then Ok (Some (lower_hex v)) else Err bad_parameter
  | VJson _ => Err bad_parameter
  end.
End Bind.

(** [str::replacen(p, to, 1)]. *)
Fixpoint replace_first (p to s : str) : str :=
  match strip_prefix p s with
  | Some r => to ++ r
  | None => match s with [] => [] | c :: s => c :: replace_first p to s end
  end.
(** Values for identity columns must override the generator. *)
Definition overriding (metadata : option DataMetadataSnapshot) (batch : WriteBatch) : bool :=
  bool_decide (wb_kind batch = Insert)
  && is_some_and (fun t => existsb (fun c => dc_identity c && bool_decide (dc_name c ∈ wb_columns batch)) (tb_columns t))
       (metadata ≫= fun m => find_table (md_tables m) (wb_table batch)).
Definition batch_sql (metadata : option DataMetadataSnapshot) (batch : WriteBatch) : str :=
  if overriding metadata batch then replace_first (u " VALUES ") (u " OVERRIDING SYSTEM VALUE VALUES ") (wb_sql batch) else wb_sql batch.

(** ** Decoding *)

Definition payload_limit : Z := 32 * 1024 * 1024.
Definition unhex (value : str) : result bytes str := unhex_with (u "PostgreSQL 二进制编码无效") (u "PostgreSQL 二进制编码无效") value.
Definition limit_mark : str := u "{" ++ quote ++ u "resource_limit" ++ quote ++ u ":".

Section Decode.
Context {J : Type} `{Documents J}.
(** [parse::<f64>] and [f64::from(parse::<f32>)], on the bits. *)
Context (parse_f64 parse_f32 : str -> option Z).

Definition decode_text (kind : str) (text : result str str) : result DataValue str :=
  if str_eqb kind (u "null") then Ok VNull
  else if str_eqb kind (u "int") then let? t := text in let? n := ok_or (parse_i64 t) (u "PostgreSQL 整数溢出") in Ok (VInt n)
  else if str_eqb kind (u "decimal") then let? t := text in let? d := normalize_decimal t in Ok (VDecimal d)
  else if one_of kind ["float"; "float4"]%string then
    let? t := text in
    let? bits := ok_or (if str_eqb kind (u "float4") then parse_f32 t else parse_f64 t) (u "PostgreSQL 浮点编码无效") in
    if SqliteAdapter.is_finite bits then Ok (VFloat bits) else Err (u "unsupported_capability: 非有限浮点数尚未验收")
  else if str_eqb kind (u "bool") then
    let? t := text in
    if one_of t ["true"; "t"]%string then Ok (VBool true)
    else if one_of t ["false"; "f"]%string then Ok (VBool false) else Err (u "PostgreSQL 布尔编码无效")
  else if str_eqb kind (u "text") then let? t := text in Ok (VText t)
  else if str_eqb kind (u "text_hex") then
    let? t := text in let? raw := unhex t in let? s := ok_or (from_utf8 raw) (u "PostgreSQL 文本不是有效UTF-8") in Ok (VText s)
  else if str_eqb kind (u "binary") then let? t := text in let? raw := unhex t in Ok (VBinary raw)
  else if one_of kind ["date"; "timestamp"; "timestamptz"; "time"]%string then let? t := text in Ok (VTemporal kind t)
  else if str_eqb kind (u "uuid") then
    let? t := text in
    let? raw := unhex (replace_char 45 [] t) in
    if zlen raw =? 16 then Ok (VUuid raw) else Err (u "PostgreSQL UUID 长度无效")
  else Err (u "unsupported_capability: PostgreSQL 值类型未验证").
Definition decode_field (field : J) : result DataValue str :=
  let? kind := ok_or (text_of (member "t" field)) (u "PostgreSQL 值类型缺失") in
  decode_text kind (ok_or (text_of (member "v" field)) (u "PostgreSQL 值必须通过无损字符串编码")).
Definition decode_payload (p : Projection) (payload : str) : result CanonicalRow str :=
  if payload_limit <? str_len payload then Err (u "resource_limit: PostgreSQL 载荷超过内存预算")
  else if starts_with limit_mark payload then Err (u "resource_limit: PostgreSQL 单行超过8MiB上限")
  else
    let? json := ok_or (from_str payload) (u "PostgreSQL 集合载荷编码无效") in
    let? fields := ok_or (as_array json) (u "PostgreSQL 集合载荷形状无效") in
    if negb (zlen fields =? zlen (pj_columns p)) then Err (u "PostgreSQL 集合字段数量变化")
    else
      let? values := traverse decode_field fields in
      let? key := select_key (u "PostgreSQL 定位键索引无效") (pj_key_indices p) values in
      new_row (pj_output_table p) key values.
End Decode.

(** ** Specification: what the snapshot query returns for stored values *)

Section Lossless.
Context {J : Type} `{Documents J} (parse_f64 parse_f32 : str -> option Z).

(** The field of a stored value: text in hexadecimal, numbers by their text,
    an identifier with its hyphens. *)
Inductive wire : DataValue -> str * option str -> Prop :=
| wire_null : wire VNull (u "null", None)
| wire_int n : i64_range n -> wire (VInt n) (u "int", Some (show_Z n))
| wire_decimal d d' : normalize_decimal d = Ok d' -> wire (VDecimal d') (u "decimal", Some d)
| wire_float bits t : SqliteAdapter.is_finite bits = true -> parse_f64 t = Some bits -> wire (VFloat bits) (u "float", Some t)
| wire_float4 bits t : SqliteAdapter.is_finite bits = true -> parse_f32 t = Some bits -> wire (VFloat bits) (u "float4", Some t)
| wire_bool (v : bool) : wire (VBool v) (u "bool", Some (if v then u "true" else u "false"))
| wire_text s : wf_str s -> wire (VText s) (u "text_hex", Some (lower_hex (utf8 s)))
| wire_binary l : Forall byte_range l -> wire (VBinary l) (u "binary", Some (lower_hex l))
| wire_temporal (k : String.string) s : k ∈ ["date"; "timestamp"; "timestamptz"; "time"]%string -> wire (VTemporal (u k) s) (u k, Some s)
| wire_uuid l t : Forall byte_range l -> zlen l = 16 -> replace_char 45 [] t = lower_hex l -> wire (VUuid l) (u "uuid", Some t).

Lemma decode_field_wire j f v : shows_field j f -> wire v f -> decode_field parse_f64 parse_f32 j = Ok v.
Proof.
  intros [T V] Hw. unfold decode_field. rewrite T. cbn [ok_or rbind].
  destruct Hw; cbn [fst snd] in *; destruct V as [V V0]; rewrite V; cbn [ok_or].
  - reflexivity.
  - change ((let? k := ok_or (parse_i64 (show_Z n)) (u "PostgreSQL 整数溢出") in Ok (VInt k)) = Ok (VInt n)). by rewrite parse_i64_show.
  - change ((let? k := normalize_decimal d in Ok (VDecimal k)) = Ok (VDecimal d')). by rewrite H0.
  - change ((let? k := ok_or (parse_f64 t) (u "PostgreSQL 浮点编码无效") in
            if SqliteAdapter.is_finite k then Ok (VFloat k) else Err (u "unsupported_capability: 非有限浮点数尚未验收")) = Ok (VFloat bits)).
    rewrite H1. cbn [ok_or rbind]. by rewrite H0.
  - change ((let? k := ok_or (parse_f32 t) (u "PostgreSQL 浮点编码无效") in
            if SqliteAdapter.is_finite k then Ok (VFloat k) else Err (u "unsupported_capability: 非有限浮点数尚未验收")) = Ok (VFloat bits)).
    rewrite H1. cbn [ok_or rbind]. by rewrite H0.
  - by destruct v.
  - change ((let? raw := unhex (lower_hex (utf8 s)) in let? x := ok_or (from_utf8 raw) (u "PostgreSQL 文本不是有效UTF-8") in Ok (VText x)) = Ok (VText s)).
    unfold unhex. rewrite unhex_lower by by apply utf8_range. cbn [rbind]. by rewrite from_utf8_utf8.
  - change ((let? raw := unhex (lower_hex l) in Ok (VBinary raw)) = Ok (VBinary l)). unfold unhex. by rewrite unhex_lower.
  - rewrite !elem_of_cons in H0. destruct H0 as [->|[->|[->|[->|[]%elem_of_nil]]]]; reflexivity.
  - change ((let? raw := unhex (replace_char 45 [] t) in if zlen raw =? 16 then Ok (VUuid raw) else Err (u "PostgreSQL UUID 长度无效")) = Ok (VUuid l)).
    rewrite H2. unfold unhex. rewrite unhex_lower by done. cbn [rbind]. by rewrite H1.
Qed.

Lemma wire_encodable v f : wire v f -> encodable v.
Proof. destruct 1; try done. cbn [encodable]. by rewrite (normalize_decimal_fixed _ _ H0). Qed.

End Lossless.

(** ** Whatever the payload, a decoded row is well typed and fits *)

Section Typed.
Context {J : Type} `{Documents J} `{!DocumentLaws J} (parse_f64 parse_f32 : str -> option Z).
Hypothesis f64_range : forall s v, parse_f64 s = Some v -> u64_range v.
Hypothesis f32_range : forall s v, parse_f32 s = Some v -> u64_range v.

Lemma decode_text_typed kind text v (limit : Z) : (forall t, text = Ok t -> wf_str t /\ str_len t <= limit) -> 0 <= limit ->
  decode_text parse_f64 parse_f32 kind text = Ok v -> wf_value v /\ text_size v <= 32 + limit.
Proof.
  intros T L. unfold decode_text.
  destruct (str_eqb kind (u "null")); [intros [= <-]; cbn; split; [done|lia]|].
  destruct (str_eqb kind (u "int")).
  { intros X. inv_ok. cbn [wf_value text_size]. split; [by eapply parse_i64_range|lia]. }
  destruct (str_eqb kind (u "decimal")).
  { intros X. inv_ok. cbn [wf_value text_size]. split; [by eapply normalize_decimal_wf|]. destruct (T _ eq_refl) as [_ T2].
    apply normalize_decimal_length in Hx0. lia. }
  destruct (one_of kind _).
  { intros X. inv_ok. destruct (SqliteAdapter.is_finite _); [|done]. apply Ok_inj in X as <-. cbn [wf_value text_size]. split; [|lia].
    destruct (str_eqb kind (u "float4")); eauto. }
  destruct (str_eqb kind (u "bool")).
  { intros X. inv_ok. destruct (one_of x _); [apply Ok_inj in X as <-; cbn; split; [done|lia]|].
    destruct (one_of x _); [apply Ok_inj in X as <-; cbn; split; [done|lia]|done]. }
  destruct (str_eqb kind (u "text")).
  { intros X. inv_ok. cbn [wf_value text_size]. destruct (T _ eq_refl). split; [done|lia]. }
  destruct (str_eqb kind (u "text_hex")).
  { intros X. inv_ok. cbn [wf_value text_size]. destruct (T _ eq_refl). apply unhex_length in Hx0. apply from_utf8_inv in Hx1 as [E Wx].
    split; [done|]. unfold str_len at 1. rewrite E. lia. }
  destruct (str_eqb kind (u "binary")).
  { intros X. inv_ok. cbn [wf_value text_size]. destruct (T _ eq_refl). split; [by eapply unhex_bytes|]. apply unhex_length in Hx0. lia. }
  destruct (one_of kind _) eqn:K.
  { intros X. inv_ok. cbn [wf_value text_size]. destruct (T _ eq_refl). apply one_of_short in K as [K1 K2]; [split; [done|lia]|].
    apply (bool_decide_unpack _). vm_compute. exact I. }
  destruct (str_eqb kind (u "uuid")); [|done].
  intros X. inv_ok. destruct (zlen x0 =? 16) eqn:Z; [|done]. apply Ok_inj in X as <-. cbn [wf_value text_size].
  split; [split; [by eapply unhex_bytes|lia]|lia].
Qed.

Lemma pg_decode_payload_typed p payload r : wf_str (pj_output_table p) -> str_len (pj_output_table p) <= u32_max ->
  zlen (pj_key_indices p) <= u32_max -> decode_payload parse_f64 parse_f32 p payload = Ok r ->
  wf_row r /\ exists b, canonical_bytes r = Ok b /\ zlen b <= usize_max.
Proof.
  intros Wt Lt Lk. unfold decode_payload. destruct (_ <? str_len payload) eqn:Lp; [done|]. destruct (starts_with _ _); [done|]. intros X.
  apply rbind_ok_inv in X as (j & P%ok_or_ok_inv & X). apply rbind_ok_inv in X as (l & A%ok_or_ok_inv & X). destruct (negb _); [done|].
  apply rbind_ok_inv in X as (vs & V & X). apply rbind_ok_inv in X as (k & K & X).
  unfold new_row in X. apply rbind_ok_inv in X as (bs & C & X). apply Ok_inj in X as <-.
  assert (Lim : str_len payload <= 33554432) by (unfold payload_limit in Lp; lia).
  assert (G : Forall (fun v => wf_value v /\ text_size v <= 32 + 33554432) vs).
  { apply traverse_ok_inv in V. apply list.Forall_lookup_2. intros i v Hv. destruct (Forall2_lookup_r _ _ _ _ _ V Hv) as (x & Hx & D).
    unfold decode_field in D. apply rbind_ok_inv in D as (kind & _ & D). eapply decode_text_typed; [|lia|exact D].
    intros t Ht%ok_or_ok_inv. split; [by eapply document_wf|].
    pose proof (document_text payload j l x t P A ltac:(by eapply list_elem_of_lookup_2) Ht). lia. }
  apply traverse_ok_inv, Forall2_length in V. pose proof (document_fields payload j l P A) as Nf.
  eapply row_typed; [done..| |exact G|exact K|exact C]. unfold zlen in *. lia.
Qed.
End Typed.

(** ** Inserting into identity columns *)

Definition values_keyword : str := u " VALUES ".
Definition overriding_keyword : str := u " OVERRIDING SYSTEM VALUE VALUES ".

Lemma strip_prefix_before (p a y : str) : 41 ∉ p -> contains p a = false -> strip_prefix p (a ++ 41 :: y) = None.
Proof.
  intros N C. destruct (strip_prefix p (a ++ 41 :: y)) as [r|] eqn:E; [|done]. exfalso. apply strip_prefix_some in E.
  assert (K : forall k, a = p ++ k -> False).
  { intros k ->. assert (contains p (p ++ k) = true) by (apply contains_iff; by exists [], k). congruence. }
  apply app_eq_inv in E as [(k & Ek & _)|(k & Ek & E)]; [by eapply K|]. destruct k as [|x k].
  - rewrite app_nil_r in Ek. apply (K []). by rewrite app_nil_r.
  - injection E as <- _. apply N. rewrite Ek. apply elem_of_app. right. by left.
Qed.
(** The first occurrence, when nothing before it and its parenthesis is one. *)
Lemma replace_first_after (p to a b : str) : 41 ∉ p -> p <> [] -> contains p a = false ->
  replace_first p to (a ++ 41 :: p ++ b) = a ++ 41 :: to ++ b.
Proof.
  intros N Ne. induction a as [|c a IH]; intros C; cbn [app].
  - change (replace_first p to (41 :: p ++ b)) with
      (match strip_prefix p ([] ++ 41 :: p ++ b) with Some r => to ++ r | None => 41 :: replace_first p to (p ++ b) end).
    rewrite strip_prefix_before by done. f_equal. assert (S : strip_prefix p (p ++ b) = Some b) by by apply strip_prefix_some.
    destruct (p ++ b) as [|x l]; cbn [replace_first]; by rewrite S.
  - change (replace_first p to (c :: a ++ 41 :: p ++ b)) with
      (match strip_prefix p ((c :: a) ++ 41 :: p ++ b) with Some r => to ++ r | None => c :: replace_first p to (a ++ 41 :: p ++ b) end).
    rewrite strip_prefix_before by done. f_equal. apply IH. cbn [contains] in C. by apply orb_false_iff in C as [_ C].
Qed.
Lemma replace_first_data to s : data_statement s = true -> data_statement (replace_first values_keyword to s) = true.
Proof.
  assert (G : forall k p r, 32 ∉ k -> replace_first (32 :: p) to (k ++ r) = k ++ replace_first (32 :: p) to r).
  { intros k p r. induction k as [|c k IH]; intros N; [done|]. cbn [app replace_first strip_prefix].
    destruct (32 =? c) eqn:E; [exfalso; apply N; apply Z.eqb_eq in E as <-; by left|]. f_equal. apply IH. intros Hk. apply N. by right. }
  assert (V : exists p, values_keyword = 32 :: p) by (vm_compute; eauto). destruct V as [p ->].
  unfold data_statement. intros D. apply orb_true_iff in D as [D|D]; [apply orb_true_iff in D as [D|D]|];
    apply starts_with_iff in D as [r ->]; (rewrite G by (apply (bool_decide_unpack (_ ∉ _)); vm_compute; exact I));
    match goal with |- context [?k ++ replace_first ?p ?t ?x] => rewrite (starts_with_app k k (replace_first p t x)) by (by vm_compute) end;
    by rewrite ?orb_true_r.
Qed.
Lemma batch_sql_data metadata batch : data_statement (wb_sql batch) = true -> data_statement (batch_sql metadata batch) = true.
Proof. unfold batch_sql. destruct (overriding _ _); [apply replace_first_data|done]. Qed.


(** A value is only sent for a type the driver was told to accept. *)
Lemma to_sql_accepted show_f64 v ty t : to_sql show_f64 v ty = Ok (Some t) -> accepts ty = true.
Proof.
  assert (G : forall l, is_type ty l = true -> Forall (fun x => accepts x = true) l -> accepts ty = true).
  { intros l K%bool_decide_eq_true_1 F. rewrite list.Forall_forall in F. by apply F. }
  destruct v; cbn [to_sql]; try done; destruct (is_type ty _) eqn:K; try done; intros _; apply (G _ K);
    repeat constructor; vm_compute; reflexivity.
Qed.

(** *** Witnesses *)

Definition sample_fields : list (str * option str) :=
  [(u "int", Some (u "-5")); (u "text_hex", Some (u "c3a9")); (u "decimal", Some (u "01.50")); (u "null", None);
   (u "binary", Some (u "00ff")); (u "float", Some (u "1.5")); (u "bool", Some (u "true")); (u "date", Some (u "2024-01-02"));
   (u "uuid", Some (u "00000000-0000-0000-0000-0000000000ff"))].
Definition sample_uuid : bytes := replicate 15 0 ++ [255].
Definition sample_vs : list DataValue :=
  [VInt (-5); VText (u "é"); VDecimal (u "1.5"); VNull; VBinary [0; 255]; VFloat 4609434218613702656; VBool true;
   VTemporal (u "date") (u "2024-01-02"); VUuid sample_uuid].
Definition sample_f64 (s : str) : option Z := if str_eqb s (u "1.5") then Some 4609434218613702656 else None.
Definition sample_columns : Projection :=
  mkProjection (u "t") (u "t") (map u ["a"; "b"; "c"; "d"; "e"; "f"; "g"; "h"; "i"]%string) [0%nat].
Lemma sample_wire : Forall2 (wire sample_f64 sample_f64) sample_vs sample_fields.
Proof.
  assert (T : forall (P : DataValue * (str * option str) -> Prop) a f f', f = f' -> P (a, f) -> P (a, f')) by (by intros P a f f' ->).
  unfold sample_vs, sample_fields.
  apply list.Forall2_cons; split; [apply (wire_int _ _ (-5)); unfold i64_range; lia|].
  apply list.Forall2_cons; split.
  { apply (T (fun x => wire sample_f64 sample_f64 x.1 x.2) _ (u "text_hex", Some (lower_hex (utf8 (u "é"))))); [vm_compute; reflexivity|].
    apply wire_text. apply (bool_decide_unpack (wf_str _)). vm_compute. exact I. }
  apply list.Forall2_cons; split; [apply wire_decimal; vm_compute; reflexivity|].
  apply list.Forall2_cons; split; [apply wire_null|].
  apply list.Forall2_cons; split.
  { apply (T (fun x => wire sample_f64 sample_f64 x.1 x.2) _ (u "binary", Some (lower_hex [0; 255]))); [vm_compute; reflexivity|].
    apply wire_binary. apply (bool_decide_unpack (Forall _ _)). vm_compute. exact I. }
  apply list.Forall2_cons; split; [apply wire_float; vm_compute; reflexivity|].
  apply list.Forall2_cons; split; [apply (wire_bool _ _ true)|].
  apply list.Forall2_cons; split; [apply (wire_temporal _ _ "date"); by left|].
  apply list.Forall2_cons; split; [|constructor].
  apply wire_uuid; [apply (bool_decide_unpack (Forall _ _)); vm_compute; exact I|reflexivity|vm_compute; reflexivity].
Qed.
Definition sample_text : str := u "[a text of the server with all of its fields]".

Definition identity_metadata : DataMetadataSnapshot :=
  mkMetadata Postgres [mkTable (u "t") [] [mkColumn (u "k") (u "INTEGER") false None false 1 None true true] [] false true]
    false true true true [] [].

End PostgresWire.
