(* ===== verification/PostgresCatalog.v ===== *)
(** How the PostgreSQL channel loads a schema
    ([metadata_inner] of src-tauri/src/db/data_tasks/adapters/postgres.rs): the
    identity of the instance, the columns, constraints, triggers and sequences of
    the schema, each read by one query, and the locks on the sequences of the
    locked tables. *)
From S2P Require Import Prelude RustText DataTypes MetaTypes Values Plan Batch SqliteAdapter NetworkChannel PostgresWire.
Import DataTypes MetaTypes Values Batch NetworkChannel PostgresWire.

Module PostgresCatalog.

Definition facts_sql : str := u "SELECT system_identifier::text,current_database(),pg_is_in_recovery(),current_setting('default_transaction_read_only')='on',current_setting('server_version_num'),has_schema_privilege($1,'USAGE'),current_setting('server_version') FROM pg_control_system()".
Definition triggers_sql : str := u "SELECT c.relname,t.tgname,t.tgenabled::text,pg_get_triggerdef(t.oid,true) FROM pg_trigger t JOIN pg_class c ON c.oid=t.tgrelid JOIN pg_namespace n ON n.oid=c.relnamespace WHERE n.nspname=$1 AND NOT t.tgisinternal UNION ALL SELECT c.relname,r.rulename,r.ev_enabled::text,pg_get_ruledef(r.oid,true) FROM pg_rewrite r JOIN pg_class c ON c.oid=r.ev_class JOIN pg_namespace n ON n.oid=c.relnamespace WHERE n.nspname=$1 AND r.ev_type<>'1' ORDER BY 1,2,4".
Definition sequences_sql : str := u "SELECT c.relname,a.attname,sn.nspname,s.relname,p.seqincrement,p.seqcache,p.seqcycle,pg_has_role(s.relowner,'MEMBER'),has_sequence_privilege(s.oid,'USAGE,SELECT,UPDATE'),(SELECT count(*) FROM pg_depend x WHERE x.refobjid=s.oid AND x.classid='pg_attrdef'::regclass),p.seqstart,p.seqmin,p.seqmax,pg_get_userbyid(s.relowner) FROM pg_class s JOIN pg_namespace sn ON sn.oid=s.relnamespace JOIN pg_sequence p ON p.seqrelid=s.oid JOIN pg_depend dep ON dep.objid=s.oid AND dep.classid='pg_class'::regclass AND dep.deptype IN ('a','i') JOIN pg_class c ON c.oid=dep.refobjid JOIN pg_namespace n ON n.oid=c.relnamespace JOIN pg_attribute a ON a.attrelid=c.oid AND a.attnum=dep.refobjsubid WHERE n.nspname=$1 ORDER BY c.relname,a.attnum".

Record Sequence : Type := mkSequence {
  sq_table : str; sq_column : str; sq_schema : str; sq_name : str; sq_safe : bool; sq_owner : str }.

Section Rows.
Context {R : Type} `{Columns R}.
Context (column_json : DataColumn -> option str) (tables_json : list DataTable -> option bytes) (sha256_hex : bytes -> str).
(** [self.schema] *)
Context (schema : str).

Definition cell {A : Type} (x : option A) : result A str := ok_or x DB_ERROR.
Definition failed (e : unit) : str := DB_ERROR.

(** ** The instance *)

Record Facts : Type := mkFacts { f_version : Z; f_read_only : bool; f_instance : str; f_database : str }.
Definition read_facts (facts : R) : result Facts str :=
  let? number := cell (string_at facts 4) in
  let? version := ok_or (parse_uint u32_max number) (u "PostgreSQL 版本无效") in
  let? release := cell (string_at facts 6) in
  if negb (server_version_verified version release)
  then Err (u "unsupported_capability: PostgreSQL 数据任务支持10–18正式版本系列，预发布及未知分支暂未开放")
  else
    let? recovery := cell (bool_at facts 2) in
    let? default_read_only := (if recovery then Ok true else cell (bool_at facts 3)) in
    let? instance := cell (string_at facts 0) in
    let? database := cell (string_at facts 1) in
    Ok (mkFacts version (recovery || default_read_only) instance database).
Definition identity_error : str := u "unsupported_capability: 需要读取 PostgreSQL 实例身份以防止网络别名指向同一物理目标".
(** [query_one]: exactly one row.  The privilege is read after the columns. *)
Definition facts_program : Catalog R unit (Facts * R) :=
  Ask facts_sql [schema] (fun _ => identity_error) (fun rows =>
    Done (match rows with [facts] => let? f := read_facts facts in Ok (f, facts) | _ => Err identity_error end)).

(** ** Columns *)

Record Loaded : Type := mkLoaded { ld_tables : gmap str DataTable; ld_permissions : bool; ld_writable : bool }.
Definition load_column (l : Loaded) (row : R) : result Loaded str :=
  let? name := cell (string_at row 0) in
  let? kind := cell (string_at row 1) in
  let? rls := cell (bool_at row 2) in
  let? readable := cell (bool_at row 11) in
  let? writable := cell (bool_at row 12) in
  let? default_sql := cell (optional_string_at row 6) in
  let? generated_identity := cell (bool_at row 8) in
  let identity := generated_identity || is_some_and (contains (u "nextval(")) default_sql in
  let? collation := cell (string_at row 10) in
  let? raw_type := cell (string_at row 13) in
  let? inherited := cell (bool_at row 14) in
  let t := default (mkTable name (u "relkind:" ++ kind ++ u ";rls:" ++ show_bool rls ++ u ";inherited:" ++ show_bool inherited) [] [] false
                      (str_eqb kind (u "r") && negb inherited)) (ld_tables l !! name) in
  let? column := cell (string_at row 3) in
  let? declared_type := cell (string_at row 4) in
  let? not_null := cell (bool_at row 5) in
  let? generated := cell (bool_at row 7) in
  let? pk := cell (integer_at I32 row 9) in
  let c := mkColumn column (to_ascii_uppercase declared_type) (negb not_null) default_sql generated (as_u32 pk)
             (Some (if negb (str_eqb raw_type (u "character")) && one_of collation ["C"; "POSIX"]%string then u "BINARY" else collation))
             identity false in
  let? generated_kind := cell (string_at row 15) in
  let? json := cell (column_json c) in
  Ok (mkLoaded
        (<[name := set_columns t (tb_create_sql t ++ [10] ++ u "collation:" ++ collation ++ u ";generated_kind:" ++ generated_kind ++ u ";" ++ json)
                     (tb_columns t ++ [c])]> (ld_tables l))
        (ld_permissions l && readable && negb rls) (ld_writable l && writable && negb rls)).

(** ** Constraints *)

Definition external_name (namespace name : str) : str := [0] ++ u "external:" ++ namespace ++ u "." ++ name.
Definition external_table (name : str) : DataTable := mkTable name [] [] [] false false.
Definition action (s : str) : str :=
  if str_eqb s (u "a") then u "NO ACTION" else if str_eqb s (u "r") then u "RESTRICT" else if str_eqb s (u "c") then u "CASCADE"
  else if str_eqb s (u "n") then u "SET NULL" else if str_eqb s (u "d") then u "SET DEFAULT" else u "UNKNOWN".
Definition load_constraint (tables : gmap str DataTable) (row : R) : result (gmap str DataTable) str :=
  let? relname := cell (string_at row 0) in
  let? namespace := cell (string_at row 11) in
  let inside := str_eqb namespace schema in
  let name := if inside then relname else external_name namespace relname in
  let tables := if inside then tables else match tables !! name with Some _ => tables | None => <[name := external_table name]> tables end in
  match tables !! name with
  | None => Ok tables
  | Some t =>
    let? kind := cell (string_at row 1) in
    let? conname := cell (string_at row 2) in
    let? def := cell (string_at row 3) in
    let? validated := cell (bool_at row 4) in
    let? enforced := cell (bool_at row 12) in
    let? period := cell (bool_at row 13) in
    let t := push_sql t ([10] ++ kind ++ u ":" ++ conname ++ u ":" ++ def ++ u ":" ++ show_bool validated ++ u ";enforced:" ++ show_bool enforced
                         ++ u ";period:" ++ show_bool period) in
    if negb (str_eqb kind (u "f")) then Ok (<[name := t]> tables)
    else
      let? parent_schema := cell (string_at row 5) in
      let? parent := cell (string_at row 6) in
      let? from := cell (strings_at row 7) in
      let? to := cell (strings_at row 8) in
      let? on_update := cell (string_at row 9) in
      let? on_delete := cell (string_at row 10) in
      Ok (<[name := push_foreign_key t
               (mkForeignKey from (if str_eqb parent_schema schema then parent else external_name parent_schema parent) to
                  (action on_update) (action on_delete))]> tables)
  end.

(** ** Triggers and rules *)

Definition load_trigger (tables : gmap str DataTable) (row : R) : result (gmap str DataTable) str :=
  let? name := cell (string_at row 0) in
  match tables !! name with
  | None => Ok tables
  | Some t =>
    let? enabled := cell (string_at row 2) in
    let? trigger := cell (string_at row 1) in
    let? def := cell (string_at row 3) in
    Ok (<[name := push_sql (with_triggers t (tb_enabled_user_triggers t || negb (str_eqb enabled (u "D"))))
                    ([10] ++ u "write_effect:" ++ trigger ++ u ":" ++ enabled ++ u ":" ++ def)]> tables)
  end.

(** ** Sequences *)

(** [columns.iter_mut().find(..)] *)
Fixpoint set_safe (column : str) (safe : bool) (columns : list DataColumn) : list DataColumn :=
  match columns with
  | [] => []
  | c :: columns =>
    if str_eqb (dc_name c) column
    then mkColumn (dc_name c) (dc_declared_type c) (dc_nullable c) (dc_default_sql c) (dc_generated c) (dc_primary_key_ordinal c)
           (dc_collation c) (dc_identity c) safe :: columns
    else c :: set_safe column safe columns
  end.
Definition is_safe (row : R) : result bool str :=
  let? increment := cell (integer_at I64 row 4) in
  if negb (increment =? 1) then Ok false else
  let? cache := cell (integer_at I64 row 5) in
  if negb (cache =? 1) then Ok false else
  let? cycle := cell (bool_at row 6) in
  if cycle then Ok false else
  let? member := cell (bool_at row 7) in
  if negb member then Ok false else
  let? privilege := cell (bool_at row 8) in
  if negb privilege then Ok false else
  let? users := cell (integer_at I64 row 9) in
  Ok (users <=? 1).
Definition read_sequence (row : R) : result Sequence str :=
  let? table := cell (string_at row 0) in
  let? column := cell (string_at row 1) in
  let? safe := is_safe row in
  let? namespace := cell (string_at row 2) in
  let? name := cell (string_at row 3) in
  let? owner := cell (string_at row 13) in
  Ok (mkSequence table column namespace name safe owner).
Definition note_sequence (tables : gmap str DataTable) (q : Sequence) (row : R) : result (gmap str DataTable) str :=
  match tables !! sq_table q with
  | None => Ok tables
  | Some t =>
    let? increment := cell (integer_at I64 row 4) in
    let? cache := cell (integer_at I64 row 5) in
    let? cycle := cell (bool_at row 6) in
    let? start := cell (integer_at I64 row 10) in
    let? minimum := cell (integer_at I64 row 11) in
    let? maximum := cell (integer_at I64 row 12) in
    Ok (<[sq_table q := set_columns t
            (tb_create_sql t ++ [10] ++ u "sequence:" ++ sq_schema q ++ u ":" ++ sq_name q ++ u ":" ++ show_Z increment ++ u ":" ++ show_Z cache
             ++ u ":" ++ show_bool cycle ++ u ":" ++ show_Z start ++ u ":" ++ show_Z minimum ++ u ":" ++ show_Z maximum)
            (set_safe (sq_column q) (sq_safe q) (tb_columns t))]> tables)
  end.
(** The sequences pushed so far, and the tables or the error. *)
Fixpoint load_sequences (rows : list R) (sequences : list Sequence) (tables : gmap str DataTable) :
  list Sequence * result (gmap str DataTable) str :=
  match rows with
  | [] => (sequences, Ok tables)
  | row :: rows =>
    match read_sequence row with
    | Err e => (sequences, Err e)
    | Ok q =>
      let sequences := sequences ++ [q] in
      match note_sequence tables q row with Err e => (sequences, Err e) | Ok tables => load_sequences rows sequences tables end
    end
  end.

(** ** The queries *)

Open Scope catalog_scope.

Definition columns_program (version : Z) (usage : result bool str) : Catalog R unit Loaded :=
  ask! columns := column_metadata_sql version, [schema] with failed in
  try! usage := usage in
  try! l := SqliteAdapter.fold_rows load_column (mkLoaded ∅ usage usage) columns in
  ask! constraints := constraint_metadata_sql version, [schema] with failed in
  try! tables := SqliteAdapter.fold_rows load_constraint (ld_tables l) constraints in
  ask! triggers := triggers_sql, [schema] with failed in
  Done (let? tables := SqliteAdapter.fold_rows load_trigger tables triggers in Ok (mkLoaded tables (ld_permissions l) (ld_writable l))).
(** With the sequences, the tables are complete. *)
Definition tables_program (version : Z) (usage : result bool str) :
  Catalog R unit (Loaded * (list Sequence * result (gmap str DataTable) str)) :=
  and_then (columns_program version usage) (fun l =>
    ask! sequences := sequences_sql, [schema] with failed in Done (Ok (l, load_sequences sequences [] (ld_tables l)))).

(** The tables a schema has, whatever the privileges. *)
Definition tables_of (r : result (Loaded * (list Sequence * result (gmap str DataTable) str)) str) : result (list DataTable) str :=
  let? x := r in let? tables := x.2.2 in Ok (into_values tables).

Lemma fold_columns_tables rows l l' l2 : ld_tables l' = ld_tables l -> SqliteAdapter.fold_rows load_column l rows = Ok l2 ->
  exists l2', SqliteAdapter.fold_rows load_column l' rows = Ok l2' /\ ld_tables l2' = ld_tables l2.
Proof.
  revert l l'. induction rows as [|row rows IH]; intros l l' E X; cbn [SqliteAdapter.fold_rows] in *; [apply Ok_inj in X as <-; eauto|].
  apply rbind_ok_inv in X as (l1 & X1 & X). assert (Y : exists l1', load_column l' row = Ok l1' /\ ld_tables l1' = ld_tables l1).
  { unfold load_column in X1 |- *. rewrite E. repeat (apply rbind_ok_inv in X1 as (? & Hx & X1); rewrite Hx; cbn [rbind]; clear Hx).
    apply Ok_inj in X1 as <-. eauto. }
  destruct Y as (l1' & -> & E1). cbn [rbind]. by eapply IH.
Qed.
(** The privilege does not matter for the tables. *)
Lemma tables_usage answers version usage usage' x tables : eval answers (tables_program version (Ok usage)) = Ok x ->
  x.2.2 = Ok tables -> tables_of (eval answers (tables_program version (Ok usage'))) = Ok (into_values tables).
Proof.
  unfold tables_program, columns_program. cbn [and_then eval].
  destruct (SqliteAdapter.fold_rows load_column (mkLoaded ∅ usage usage) _) as [l|] eqn:F; [|done].
  apply (fold_columns_tables _ _ (mkLoaded ∅ usage' usage')) in F as (l' & -> & E); [|done]. cbn [and_then eval]. rewrite E.
  destruct (SqliteAdapter.fold_rows load_constraint _ _) as [t|]; [|done]. cbn [and_then eval].
  destruct (SqliteAdapter.fold_rows load_trigger _ _) as [t'|]; [|done]. cbn [rbind and_then eval ld_tables].
  intros X T. apply Ok_inj in X as <-. cbn [fst snd] in T. unfold tables_of. cbn [rbind fst snd]. by rewrite T.
Qed.

(** ** Locking the sequences *)

Fixpoint sequence_locks (locked_tables : list str) (sequences : list Sequence) : result (list str) str :=
  match sequences with
  | [] => Ok []
  | q :: sequences =>
    if bool_decide (sq_table q ∈ locked_tables) then
      if negb (sq_safe q) then Err (u "unsupported_capability: PostgreSQL 序列不满足专属、递增、CACHE 1及权限条件")
      else
        let? locks := sequence_locks locked_tables sequences in
        Ok ((u "ALTER SEQUENCE " ++ id (sq_schema q) ++ u "." ++ id (sq_name q) ++ u " OWNER TO " ++ id (sq_owner q)) :: locks)
    else sequence_locks locked_tables sequences
  end.

(** ** Every statement reads *)

Definition catalog_sql (version : Z) : list str :=
  [column_metadata_sql version; constraint_metadata_sql version; triggers_sql; sequences_sql].
Lemma pg_sql_reads version : Forall read_statement (facts_sql :: catalog_sql version).
Proof.
  apply list.Forall_forall. intros sql. unfold catalog_sql. rewrite !elem_of_cons.
  intros [->|[->|[->|[->|[->|[]%elem_of_nil]]]]]; left; try (apply starts_with_app); vm_compute; reflexivity.
Qed.
Lemma pg_tables_asks version usage : asks (fun sql => read_statement sql /\ sql ∈ catalog_sql version) (tables_program version usage).
Proof.
  pose proof (pg_sql_reads version) as F. unfold catalog_sql in F. rewrite !list.Forall_cons in F. destruct F as (_ & F1 & F2 & F3 & F4 & _).
  unfold tables_program. apply asks_and_then.
  - unfold columns_program. split; [split; [done|by left]|]. intros columns. destruct usage as [usage|]; [|exact I].
    destruct (SqliteAdapter.fold_rows load_column _ columns) as [l|]; [|exact I]. split; [split; [done|right; by left]|].
    intros constraints. destruct (SqliteAdapter.fold_rows load_constraint _ constraints); [|exact I].
    split; [split; [done|do 2 right; by left]|]. done.
  - intros l. split; [split; [done|do 3 right; by left]|]. done.
Qed.

Lemma lock_text locked sequences locks : sequence_locks locked sequences = Ok locks ->
  Forall (fun sql => starts_with (u "ALTER SEQUENCE ") sql = true) locks.
Proof.
  revert locks. induction sequences as [|q sequences IH]; intros locks; cbn [sequence_locks]; [by intros [= <-]|].
  case_bool_decide; [|apply IH]. destruct (negb _); [done|]. intros X. apply rbind_ok_inv in X as (l & L & X). apply Ok_inj in X as <-.
  constructor; [apply starts_with_app; vm_compute; reflexivity|by apply IH].
Qed.

End Rows.
End PostgresCatalog.
