(* ===== verification/PostgresChannel.v ===== *)
(** The session of the PostgreSQL channel ([PgSession] of
    src-tauri/src/db/data_tasks/adapters/postgres.rs): every operation but the
    commit and the rollback can be interrupted by a cancellation, which asks the
    server to stop.  The session is shown to be the transactional session that
    the orchestration relies on. *)
From S2P Require Import Prelude RustText DataTypes MetaTypes Values Spool SpoolSort TypeMapping Metadata Plan SqlDialect Batch.
From S2P Require Import Executor Execution SqliteAdapter WireRows NetworkChannel PostgresWire PostgresCatalog.
Import DataTypes MetaTypes Values Spool SpoolSort TypeMapping Metadata Batch Executor Execution WireRows NetworkChannel PostgresWire
  PostgresCatalog.

Module PostgresChannel.

(** ** The driver *)

(** A parameter is converted once the server has named its type. *)
Definition Parameter_ : Type := PgType -> result (option str) str.
Record Client (W R : Type) : Type := mkClient {
  batch_execute : str -> W -> bool * W;
  query : str -> list str -> W -> result (list R) unit * W;
  (** The rows until the end ([true]) or an error. *)
  query_raw : str -> W -> option (list R * bool) * W;
  execute : str -> list Parameter_ -> W -> option Z * W;
  (** The cancellation request and the waiting for its answer. *)
  request_cancel : W -> W;
}.
Arguments batch_execute {W R}. Arguments query {W R}. Arguments query_raw {W R}. Arguments execute {W R}. Arguments request_cancel {W R}.

(** ** The session *)

(** The fields that change; the client is there until the session is dropped. *)
Record Session : Type := mkSession {
  s_metadata : option DataMetadataSnapshot; s_identity : option EndpointIdentity; s_sequences : list Sequence; s_locked : list str }.
Definition set_metadata (s : Session) (m : DataMetadataSnapshot) : Session := mkSession (Some m) (s_identity s) (s_sequences s) (s_locked s).
Definition set_identity (s : Session) (i : EndpointIdentity) : Session := mkSession (s_metadata s) (Some i) (s_sequences s) (s_locked s).
Definition set_sequences (s : Session) (l : list Sequence) : Session := mkSession (s_metadata s) (s_identity s) l (s_locked s).
Definition set_locked (s : Session) (l : list str) : Session := mkSession (s_metadata s) (s_identity s) (s_sequences s) l.

Section Channel.
Context {W R J : Type} `{Columns R} `{Documents J} (env : Environment W) (layout : Layout) (b : ResourceBudget).
Context (sleep fetch : W -> W) (deliver : CanonicalRow -> W -> bool * W) (interrupted in_time : W -> bool).
Context (column_json : DataColumn -> option str) (tables_json : list DataTable -> option bytes) (sha256_hex : bytes -> str)
  (show_f64 : Z -> str) (parse_f64 parse_f32 : str -> option Z).
Context (c : Client W R) (state : W -> Session) (set_state : Session -> W -> W).
(** The endpoint's schema, and what the configuration says. *)
Context (schema : str) (config_read_only : bool) (fingerprint : str).

Definition update (f : Session -> Session) (w : W) : W := set_state (f (state w)) w.
Definition cancelled_error : str := u "cancelled: 数据任务已取消".
(** The operation until it ends, or until the cancellation ends the waiting; the
    operation may have ended all the same. *)
Definition interruptible {A : Type} (f : W -> result A str * W) (w : W) : result A str * W :=
  if e_cancelled env w then (Err cancelled_error, w)
  else
    let '(r, w) := f w in
    if interrupted w then (Err (u "cancelled: PostgreSQL 数据任务已取消"), request_cancel c w) else (r, w).
Definition checking {A : Type} (f : W -> result A str * W) (w : W) : result A str * W :=
  if e_cancelled env w then (Err cancelled_error, w) else f w.
Definition batch (sql : str) (w : W) : result unit str * W :=
  let '(ok, w) := batch_execute c sql w in (if ok then Ok tt else Err DB_ERROR, w).

Definition session_begin_read : W -> result unit str * W :=
  interruptible (checking (batch (u "BEGIN ISOLATION LEVEL REPEATABLE READ READ ONLY"))).
Definition lock_sql (names : list str) : str :=
  u "BEGIN ISOLATION LEVEL READ COMMITTED; SET LOCAL lock_timeout='10s'; LOCK TABLE "
  ++ join (u ",") (map (fun t => id schema ++ u "." ++ id t) names) ++ u " IN ACCESS EXCLUSIVE MODE".
Definition session_begin_protected_write (tables : list str) : W -> result unit str * W :=
  interruptible (checking (fun w =>
    if config_read_only then (Err (u "read_only_target: 目标保存连接为只读"), w)
    else if is_empty tables || (100 <? zlen tables) then (Err (u "invalid_mapping: 目标表范围无效"), w)
    else
      let names := remove_dups (sort_by str_cmp tables) in
      let '(r, w) := batch (lock_sql names) w in
      match r with Ok _ => (Ok tt, update (fun s => set_locked s names) w) | Err e => (Err e, w) end)).

(** Locking the sequences, then keeping the metadata. *)
Definition finish_metadata (f : Facts) (l : Loaded) (tables : gmap str DataTable) (w : W) : result DataMetadataSnapshot str * W :=
  match sequence_locks (s_locked (state w)) (s_sequences (state w)) with
  | Err e => (Err e, w)
  | Ok locks =>
    let '(r, w) := if is_empty locks then (Ok tt, w) else batch (join (u "; ") locks) w in
    match r with
    | Err e => (Err e, w)
    | Ok _ =>
      match tables_json (into_values tables) with
      | None => (Err DB_ERROR, w)
      | Some json =>
        let m := mkMetadata Postgres (into_values tables) (f_read_only f || config_read_only) (ld_permissions l) true (ld_writable l)
                   (sha256_hex json) fingerprint in
        (Ok m, update (fun s => set_metadata s m) w)
      end
    end
  end.
Definition metadata_inner : W -> result DataMetadataSnapshot str * W :=
  checking (fun w =>
    match run (query c) (facts_program schema) w with
    | (Err e, w) => (Err e, w)
    | (Ok (f, row), w) =>
      let w := update (fun s => set_identity s (mkIdentity Postgres (Some (f_instance f)) (f_database f ++ u "." ++ schema) None)) w in
      match run (query c) (tables_program column_json schema (f_version f) (cell (bool_at row 5))) w with
      | (Err e, w) => (Err e, w)
      | (Ok (l, (sequences, r)), w) =>
        let w := update (fun s => set_sequences s sequences) w in
        match r with Err e => (Err e, w) | Ok tables => finish_metadata f l tables w end
      end
    end).
Definition session_load_metadata : W -> result DataMetadataSnapshot str * W := interruptible metadata_inner.

Definition item (projections : list Projection) (row : R) : Item :=
  let? index := cell (integer_at I64 row 0) in
  let? p := ok_or (get_index projections index) (u "PostgreSQL 集合表序号无效") in
  let? payload := cell (string_at row 1) in
  Ok (sat_mul (str_len payload) 3, decode_payload (J := J) parse_f64 parse_f32 p payload).
Definition stream_inner (polls : nat) (projections : list Projection) (w : W) : Rows * result Z str * W :=
  if e_cancelled env w then ([], Err cancelled_error, w)
  else
    match (let? m := ok_or (s_metadata (state w)) (u "必须先批量加载 PostgreSQL 元数据") in snapshot_sql schema projections m) with
    | Err e => ([], Err e, w)
    | Ok sql =>
      let '(q, w) := query_raw c sql w in
      match q with
      | None => ([], Err DB_ERROR, w)
      | Some (rows, complete) =>
        forward_rows env layout b sleep deliver fetch interrupted (item projections) polls None None
          (fun _ => u "数据快照通道已关闭") DB_ERROR rows complete [] w
      end
    end.
Definition session_stream_rows (polls : nat) (projections : list Projection) (w : W) : Rows * result Z str * W :=
  if e_cancelled env w then ([], Err cancelled_error, w)
  else
    let '(rows, r, w) := stream_inner polls projections w in
    if interrupted w then (rows, Err (u "cancelled: PostgreSQL 数据任务已取消"), request_cancel c w) else (rows, r, w).

Definition session_write_batch (x : WriteBatch) : W -> result Z str * W :=
  interruptible (checking (fun w =>
    let '(n, w) := execute c (batch_sql (s_metadata (state w)) x) (map (fun v => to_sql show_f64 v) (wb_params x)) w in
    (ok_or n DB_ERROR, w))).
Definition delete_sql (table : str) : str := u "DELETE FROM " ++ id schema ++ u "." ++ id table.
Definition session_delete_all (table : str) : W -> result Z str * W :=
  interruptible (checking (fun w => let '(n, w) := execute c (delete_sql table) [] w in (ok_or n DB_ERROR, w))).

Definition advance_sql (q : Sequence) : str :=
  let name := id (sq_schema q) ++ u "." ++ id (sq_name q) in
  let table := id schema ++ u "." ++ id (sq_table q) in
  let column := id (sq_column q) in
  u "SELECT CASE WHEN max(" ++ (column ++ u ") IS NULL THEN NULL ELSE setval(" ++ SqlDialect.postgres_string_literal name ++ u "::regclass,GREATEST(max("
  ++ column ++ u ")::bigint,(SELECT last_value FROM " ++ name ++ u ")),true) END FROM " ++ table).
Fixpoint advances (mapping : list ValidatedTableMapping) (sequences : list Sequence) : result (list str) str :=
  match sequences with
  | [] => Ok []
  | q :: sequences =>
    if existsb (fun m => str_eqb (vt_target_table m) (sq_table q) && bool_decide (sq_column q ∈ vt_target_columns m)) mapping
    then
      if negb (sq_safe q) then Err (u "unsupported_capability: PostgreSQL 序列不能安全推进")
      else let? parts := advances mapping sequences in Ok (advance_sql q :: parts)
    else advances mapping sequences
  end.
Definition session_maintain_generators (mapping : list ValidatedTableMapping) : W -> result unit str * W :=
  interruptible (checking (fun w =>
    match advances mapping (s_sequences (state w)) with
    | Err e => (Err e, w)
    | Ok [] => (Ok tt, w)
    | Ok parts => let '(r, w) := query c (join (u " UNION ALL ") parts) [] w in
                  (match r with Ok _ => Ok tt | Err _ => Err DB_ERROR end, w)
    end)).

Definition session_end (sql : str) (w : W) : result unit str * W :=
  let '(r, w) := batch sql w in
  match r with Ok _ => (Ok tt, update (fun s => set_locked s []) w) | Err e => (Err e, w) end.

Definition postgres_session (polls : nat) : DataSession W := {|
  supports_transaction _ := true;
  endpoint_identity w := s_identity (state w);
  take_cleanup_errors w := ([], w);
  dialect := DPostgres;
  begin_read := session_begin_read;
  begin_protected_write := session_begin_protected_write;
  load_metadata := session_load_metadata;
  Execution.stream_rows := session_stream_rows polls;
  write_batch := session_write_batch;
  delete_all := session_delete_all;
  maintain_generators := session_maintain_generators;
  commit := SqliteAdapter.timed in_time (session_end (u "COMMIT"));
  rollback := session_end (u "ROLLBACK");
  rollback_in_time := SqliteAdapter.timed in_time (session_end (u "ROLLBACK"));
|}.
End Channel.

(** ** What PostgreSQL documents *)

Section Laws.
Context {W D R J : Type} `{Columns R} `{Documents J} `{!DocumentLaws J} (env : Environment W) (layout : Layout) (b : ResourceBudget).
Context (sleep fetch : W -> W) (deliver : CanonicalRow -> W -> bool * W) (interrupted in_time : W -> bool).
Context (column_json : DataColumn -> option str) (tables_json : list DataTable -> option bytes) (sha256_hex : bytes -> str)
  (show_f64 : Z -> str) (parse_f64 parse_f32 : str -> option Z).
Context (c : Client W R) (state : W -> Session) (set_state : Session -> W -> W).
Context (schema : str) (config_read_only : bool) (fingerprint : str).
(** The committed state, what the session sees, whether a transaction is open;
    the answers of the catalog and of a snapshot query; the server's version.
    The positions of the sequences are no part of a state. *)
Context (db work : W -> D) (tx : W -> bool).
Context (answers : D -> str -> list str -> list R) (selects : D -> str -> list R) (version : Z).

Definition schema_of (d : D) : result (list DataTable) str := tables_of (eval (answers d) (tables_program column_json schema version (Ok true))).
Definition known (s : Session) : option (list DataTable) := md_tables <$> s_metadata s.
Abbreviation open := (open_session work tx state known schema_of) (only parsing).
Abbreviation obs := (observed db work tx) (only parsing).

Definition postgres_content (d : D) (ps : list Projection) : Rows :=
  match (let? tables := schema_of d in snapshot_of schema ps tables) with
  | Ok sql => omap (fun row => decoded_of (item (J := J) parse_f64 parse_f32 ps row)) (selects d sql)
  | Err _ => []
  end.

(** A transaction that has locked its tables sees the committed state; inside it
    statements change only the session's state, and data statements no table's
    definition; COMMIT publishes it or nothing; ROLLBACK and a cancellation
    request publish nothing; queries read the session's state; giving a
    sequence to the owner it has locks it and changes nothing. *)
Class PostgresLaws : Prop := {
  pl_lock names w ok w' : tx w = false -> batch_execute c (lock_sql schema names) w = (ok, w') ->
    db w' = db w /\ (ok = true -> work w' = db w' /\ tx w' = true);
  pl_commit w ok w' : tx w = true -> batch_execute c (u "COMMIT") w = (ok, w') ->
    (ok = true -> db w' = work w) /\ (db w' = db w \/ db w' = work w);
  pl_rollback w ok w' : batch_execute c (u "ROLLBACK") w = (ok, w') -> db w' = db w;
  pl_sequences locked sequences locks w ok w' : sequence_locks locked sequences = Ok locks -> tx w = true ->
    batch_execute c (join (u "; ") locks) w = (ok, w') -> db w' = db w /\ (ok = true -> obs w' = obs w);
  pl_execute sql l w n w' : data_statement sql = true -> tx w = true -> execute c sql l w = (n, w') ->
    db w' = db w /\ (n <> None -> tx w' = true /\ schema_of (work w') = schema_of (work w));
  pl_query :: QueryLaws db work tx (query c);
  pl_answers sql arguments w rows w' : sql ∈ catalog_sql version -> tx w = true -> query c sql arguments w = (Ok rows, w') ->
    rows = answers (work w) sql arguments;
  pl_version w w' row : query c facts_sql [schema] w = (Ok [row], w') -> string_at row 4 = Some (show_Z version);
  pl_version_range : 0 <= version <= u32_max;
  pl_raw sql w r w' : read_statement sql -> tx w = true -> query_raw c sql w = (r, w') ->
    db w' = db w /\ forall rows complete, r = Some (rows, complete) ->
      obs w' = obs w /\ (complete = true -> rows ≡ₚ selects (work w) sql);
  pl_cancel w : db (request_cancel c w) = db w;
  pl_f64 s v : parse_f64 s = Some v -> u64_range v;
  pl_f32 s v : parse_f32 s = Some v -> u64_range v;
}.
Class PostgresFrame : Prop := {
  pf_batch sql w ok w' : batch_execute c sql w = (ok, w') -> state w' = state w;
  pf_query sql arguments w r w' : query c sql arguments w = (r, w') -> state w' = state w;
  pf_raw sql w r w' : query_raw c sql w = (r, w') -> state w' = state w;
  pf_execute sql l w n w' : execute c sql l w = (n, w') -> state w' = state w;
}.
Context `{!PostgresLaws, !PostgresFrame, !Frame env db work tx state set_state sleep fetch deliver,
  !Neutral env db work tx, !SqliteAdapter.Quiet db work tx sleep deliver}.

Lemma pg_update_obs f w : obs (update state set_state f w) = obs w.
Proof. apply (frame_set env db work tx state set_state sleep fetch deliver). Qed.
Lemma pg_update_get f w : state (update state set_state f w) = f (state w).
Proof. apply (frame_get env db work tx state set_state sleep fetch deliver). Qed.
Lemma pg_update_db f w : db (update state set_state f w) = db w.
Proof. pose proof (pg_update_obs f w) as E. by injection E. Qed.
Lemma pg_run_state {A : Type} (p : Catalog R unit A) w r w' : run (query c) p w = (r, w') -> state w' = state w.
Proof.
  revert w. induction p as [x|sql arguments failed next IH]; intros w; cbn [run]; [by intros [= <- <-]|].
  destruct (query c sql arguments w) as [[rows|e] w1] eqn:Q; apply pf_query in Q.
  - intros Hr. apply IH in Hr. congruence.
  - by intros [= <- <-].
Qed.

(** An interrupted operation fails; another is what it is. *)
Lemma interruptible_inv {A : Type} (f : W -> result A str * W) w r w' : interruptible env interrupted c f w = (r, w') ->
  (exists e, r = Err e) /\ db w' = db w \/ exists r0 w0, f w = (r0, w0) /\ (db w0 = db w -> db w' = db w) /\
    forall x, r = Ok x -> r0 = Ok x /\ w0 = w'.
Proof.
  unfold interruptible. destruct (e_cancelled env w); [intros [= <- <-]; left; eauto|]. destruct (f w) as [r0 w0].
  intros X. right. exists r0, w0. split; [done|]. destruct (interrupted w0); injection X as <- <-; [|by split].
  split; [by rewrite pl_cancel|discriminate].
Qed.

(** *** Reading the schema *)

Lemma facts_version w f row w' : run (query c) (facts_program schema) w = (Ok (f, row), w') -> f_version f = version.
Proof.
  unfold facts_program. cbn [run]. destruct (query c facts_sql [schema] w) as [[rows|e] w1] eqn:Q; [|done].
  intros X. apply pair_equal_spec in X as [X _]. destruct rows as [|facts [|]]; try done. apply pl_version in Q.
  apply rbind_ok_inv in X as (f' & Rf & X). apply Ok_inj in X. apply pair_equal_spec in X as [-> _]. unfold read_facts in Rf. rewrite Q in Rf.
  cbn [cell ok_or rbind] in Rf. pose proof pl_version_range as V.
  assert (P : parse_uint u32_max (show_Z version) = Some version).
  { unfold show_Z. replace (version <? 0) with false by lia. destruct (show_nonneg_spec version ltac:(lia)) as (Vv & Dg & Ne).
    rewrite parse_uint_digits by done. rewrite Vv. by replace (version <=? u32_max) with true by lia. }
  unfold cell in Rf. cbn [ok_or rbind] in Rf. rewrite P in Rf. cbn [ok_or rbind] in Rf. inv_ok. destruct (negb _); [done|]. by inv_ok.
Qed.
Lemma facts_asks : asks read_statement (facts_program (R := R) schema).
Proof. pose proof (pg_sql_reads version) as F. apply list.Forall_cons in F as [F _]. by split. Qed.

Lemma pg_load_metadata_reads : reads db work open (session_load_metadata env interrupted column_json tables_json sha256_hex c
  state set_state schema config_read_only fingerprint).
Proof.
  assert (G : forall w r w', open w = true -> metadata_inner env column_json tables_json sha256_hex c state set_state schema config_read_only
    fingerprint w = (r, w') -> db w' = db w /\ (forall x, r = Ok x -> observed db work open w' = observed db work open w)).
  { intros w r w' O. destruct (open_inv _ _ _ _ _ _ O) as [T _]. unfold metadata_inner, checking.
    destruct (e_cancelled env w); [by intros [= <- <-]|].
    destruct (run (query c) (facts_program schema) w) as [[[f row]|e] w1] eqn:Rf;
      destruct (run_reads db work tx (query c) _ _ _ _ facts_asks T Rf) as [E1 X1]; [|by intros [= <- <-]].
    specialize (X1 _ eq_refl). apply facts_version in Rf as Vf. rewrite Vf.
    set (w2 := update state set_state _ w1). assert (X2 : obs w2 = obs w) by (unfold w2; by rewrite pg_update_obs).
    assert (T2 : tx w2 = true) by (injection X2 as _ _ X2; congruence).
    assert (A2 : forall usage, asks read_statement (tables_program (R := R) column_json schema version usage)).
    { intros usage. eapply asks_weaken; [|apply pg_tables_asks]. by intros sql []. }
    destruct (run (query c) (tables_program _ _ _ (cell (bool_at row 5))) w2) as [[[l [sequences x]]|e] w3] eqn:Rt;
      destruct (run_reads db work tx (query c) _ _ _ _ (A2 _) T2 Rt) as [E3 X3].
    2: { intros [= <- <-]. injection X2 as X2 _ _. split; [congruence|discriminate]. }
    specialize (X3 _ eq_refl). rewrite X2 in X3.
    assert (S : forall tables, x = Ok tables -> schema_of (work w) = Ok (into_values tables)).
    { intros tables ->. assert (Ev : eval (answers (work w2)) (tables_program column_json schema version (cell (bool_at row 5))) = Ok (l, (sequences, Ok tables))).
      { eapply (run_eval db work tx answers (query c) (fun sql => sql ∈ catalog_sql version)); [apply pl_answers|apply pg_tables_asks|done|exact Rt]. }
      injection X2 as _ X2 _. rewrite X2 in Ev. destruct (cell (bool_at row 5)) as [usage|e] eqn:U.
      - by apply (tables_usage column_json schema _ _ usage true _ tables Ev).
      - cbn in Ev. discriminate Ev. }
    set (w4 := update state set_state _ w3). assert (X4 : obs w4 = obs w) by (unfold w4; by rewrite pg_update_obs).
    destruct x as [tables|e]; [|intros [= <- <-]; injection X4 as X4 _ _; by split].
    specialize (S tables eq_refl). unfold finish_metadata. destruct (sequence_locks _ _) as [locks|e] eqn:Sl.
    2: { intros [= <- <-]. injection X4 as X4 _ _. by split. }
    destruct (if is_empty locks then _ else _) as [r5 w5] eqn:Lk.
    assert (X5 : db w5 = db w /\ (r5 = Ok tt -> obs w5 = obs w)).
    { destruct (is_empty locks); [injection Lk as <- <-; injection X4 as X4 Y4 Z4; split; [done|]; intros _; unfold observed; congruence|].
      unfold batch in Lk. destruct (batch_execute c _ w4) as [ok w6] eqn:B. injection X4 as X4 Y4 Z4.
      apply (pl_sequences _ _ _ _ _ _ Sl) in B as [B1 B2]; [|congruence]. injection Lk as <- <-. split; [congruence|].
      destruct ok; [|discriminate]. intros _. rewrite (B2 eq_refl). unfold observed. congruence. }
    destruct X5 as [D5 X5]. destruct r5 as [[]|e]; [|by intros [= <- <-]]. specialize (X5 eq_refl).
    destruct (tables_json _) as [json|]; [|by intros [= <- <-]]. intros [= <- <-].
    match goal with |- context [update state set_state ?f w5] => pose proof (pg_update_obs f w5) as U; pose proof (pg_update_get f w5) as Gs end.
    rewrite X5 in U. injection U as U1 U2 U3. split; [done|]. intros _ _. unfold observed. rewrite U1, U2, O. f_equal.
    apply open_intro; [congruence|]. rewrite Gs, U2. by intros ts [= <-]. }
  intros w r w' O X. apply interruptible_inv in X as [([e ->] & E)|(r0 & w0 & X & E & K)]; [by split|].
  apply G in X as [X1 X2]; [|done]. split; [by apply E|]. intros x Hx. destruct (K x Hx) as [-> ->]. by eapply X2.
Qed.

(** *** Streaming *)

Lemma pg_snapshot_select ps tables sql : snapshot_of schema ps tables = Ok sql -> read_statement sql.
Proof.
  unfold snapshot_of. destruct (_ || _) eqn:E; [done|]. apply orb_false_iff in E as [E _]. intros X.
  apply rbind_ok_inv in X as (parts & T & X). destruct (_ <? _); [done|]. apply Ok_inj in X as <-.
  eapply union_reads; [|exact E|exact T]. intros i p s Fs.
  unfold part_sql in Fs. apply rbind_ok_inv in Fs as (t & _ & Fs). apply rbind_ok_inv in Fs as (columns & _ & Fs).
  destruct (is_empty columns); [done|]. apply Ok_inj in Fs as <-. apply starts_with_app. vm_compute. reflexivity.
Qed.
Lemma pg_item_typed ps row x : Forall fits ps -> decoded_of (item (J := J) parse_f64 parse_f32 ps row) = Some x -> streamed x.
Proof.
  intros F. unfold item. destruct (cell (integer_at I64 row 0)) as [index|]; [|done]. cbn [rbind]. destruct (get_index ps index) as [p|] eqn:P; [|done].
  cbn [ok_or rbind]. destruct (cell (string_at row 1)) as [payload|]; [|done]. cbn [rbind decoded_of].
  destruct (decode_payload _ _ p payload) as [r|e] eqn:Dp; [|done]. intros [= <-].
  assert (Hp : p ∈ ps) by (unfold get_index in P; destruct (index <? 0); [done|by eapply list_elem_of_lookup_2]).
  rewrite list.Forall_forall in F. destruct (F p Hp) as (Wt & Lt & Lk). split.
  - eapply pg_decode_payload_typed in Dp as [Wr _]; [exact Wr|apply pl_f64|apply pl_f32|done|done|done].
  - eapply pg_decode_payload_typed in Dp as [_ E]; [exact E|apply pl_f64|apply pl_f32|done|done|done].
Qed.

Lemma pg_stream_obs polls ps w rows r w' : open w = true ->
  session_stream_rows (J := J) env layout b sleep fetch deliver interrupted parse_f64 parse_f32 c state schema polls ps w = (rows, r, w') ->
  db w' = db w /\ (forall n, r = Ok n -> observed db work open w' = observed db work open w) /\
  forall n, r = Ok n -> rows ≡ₚ postgres_content (work w) ps.
Proof.
  intros O. destruct (open_inv _ _ _ _ _ _ O) as [T K]. unfold session_stream_rows. destruct (e_cancelled env w); [by intros [= <- <- <-]|].
  destruct (stream_inner _ _ _ _ _ _ _ _ _ _ _ _ _ _ w) as [[rows0 r0] w0] eqn:I.
  assert (G : db w0 = db w /\ (forall n, r0 = Ok n -> observed db work open w0 = observed db work open w) /\
    forall n, r0 = Ok n -> rows0 ≡ₚ postgres_content (work w) ps).
  { unfold stream_inner in I. destruct (e_cancelled env w); [by injection I as <- <- <-|].
    destruct (rbind _ _) as [sql|e] eqn:Q; [|by injection I as <- <- <-]. apply rbind_ok_inv in Q as (m & M%ok_or_ok_inv & Q).
    assert (S : schema_of (work w) = Ok (md_tables m)) by (apply K; unfold known; by rewrite M).
    destruct (query_raw c sql w) as [q w1] eqn:Qr. pose proof (pf_raw _ _ _ _ Qr) as S1.
    apply pl_raw in Qr as [E1 X1]; [|by eapply pg_snapshot_select|done].
    destruct q as [[cells complete]|]; [|by injection I as <- <- <-]. destruct (X1 cells complete eq_refl) as [E2 P].
    pose proof (neutral_open env db work tx state set_state known schema_of sleep fetch deliver).
    pose proof (quiet_open env db work tx state set_state known schema_of sleep fetch deliver).
    pose proof (fetch_open env db work tx state set_state known schema_of sleep fetch deliver) as Fo.
    apply (forward_rows_obs env db work open layout b sleep fetch deliver interrupted Fo) in I as (E3 & _ & C).
    pose proof (observed_open db work tx state known schema_of _ _ E2 S1) as E4. rewrite E4 in E3. split; [by injection E3|].
    split; [done|]. intros n Hn. destruct (C n Hn) as (Cc & -> & _). unfold postgres_content. rewrite S. cbn [rbind app].
    unfold snapshot_sql in Q. rewrite Q. by rewrite (P Cc). }
  destruct G as (G1 & G2 & G3). destruct (interrupted w0); intros [= <- <- <-]; [|by split_and!].
  split_and!; [by rewrite pl_cancel|discriminate|discriminate].
Qed.

(** *** Writing and ending *)

Lemma execute_inside (sql : W -> str) (l : list Parameter_) : (forall w, data_statement (sql w) = true) ->
  inside db open (interruptible env interrupted c (checking env (fun w => let '(n, w) := execute c (sql w) l w in (ok_or n DB_ERROR, w)))).
Proof.
  intros Ds w r w' O X. destruct (open_inv _ _ _ _ _ _ O) as [T K].
  apply interruptible_inv in X as [([e ->] & E)|(r0 & w0 & X & E & Kx)]; [by split|]. unfold checking in X.
  destruct (e_cancelled env w); [injection X as <- <-; split; [by apply E|]; intros x Hx; by destruct (Kx x Hx)|].
  destruct (execute c (sql w) l w) as [n w1] eqn:Ex. injection X as <- <-.
  pose proof (pf_execute _ _ _ _ _ Ex) as S1. apply pl_execute in Ex as [E1 E2]; [|apply Ds|done]. split; [by apply E|].
  intros x Hx. destruct (Kx x Hx) as [N <-]. destruct n as [n|]; [|done]. destruct (E2 ltac:(done)) as [T1 Sc].
  apply open_intro; [done|]. rewrite S1, Sc. exact K.
Qed.
Lemma advance_reads mapping sequences parts : advances schema mapping sequences = Ok parts ->
  parts <> [] -> read_statement (join (u " UNION ALL ") parts).
Proof.
  intros A. assert (F : Forall (fun sql => starts_with (u "SELECT ") sql = true) parts).
  { revert parts A. induction sequences as [|q sequences IH]; intros parts; cbn [advances]; [intros [= <-]; constructor|].
    destruct (existsb _ mapping); [|apply IH]. destruct (negb _); [done|]. intros X. apply rbind_ok_inv in X as (l & L & X).
    apply Ok_inj in X as <-. constructor; [unfold advance_sql; apply starts_with_app; vm_compute; reflexivity|by apply IH]. }
  intros N. left. destruct F as [|x l Fx F]; [done|]. destruct l as [|y l]; [exact Fx|]. rewrite join_cons by done. by apply starts_with_app.
Qed.
Lemma maintain_inside mapping : inside db open (session_maintain_generators env interrupted c state schema mapping).
Proof.
  intros w r w' O X. destruct (open_inv _ _ _ _ _ _ O) as [T K].
  apply interruptible_inv in X as [([e ->] & E)|(r0 & w0 & X & E & Kx)]; [by split|]. unfold checking in X.
  destruct (e_cancelled env w); [injection X as <- <-; split; [by apply E|]; intros x Hx; by destruct (Kx x Hx)|].
  destruct (advances schema mapping (s_sequences (state w))) as [parts|e] eqn:A.
  2: { injection X as <- <-. split; [by apply E|]. intros x Hx. by destruct (Kx x Hx). }
  destruct parts as [|p parts].
  { injection X as <- <-. split; [by apply E|]. intros x Hx. destruct (Kx x Hx) as [_ <-]. done. }
  destruct (query c _ [] w) as [q w1] eqn:Q. injection X as <- <-. pose proof (pf_query _ _ _ _ _ Q) as S1.
  destruct (query_reads db work tx _ _ _ _ _ (advance_reads _ _ _ A ltac:(done)) T Q) as [E1 X1]. split; [by apply E|].
  intros x Hx. destruct (Kx x Hx) as [N <-]. destruct q as [rows|e]; [|done]. specialize (X1 rows eq_refl). injection X1 as _ X1 X2.
  apply open_intro; [congruence|]. rewrite S1, X1. exact K.
Qed.
Lemma end_db sql w r w' : session_end c state set_state sql w = (r, w') -> exists ok w1, batch_execute c sql w = (ok, w1) /\ db w' = db w1 /\
  (r = Ok tt -> ok = true).
Proof.
  unfold session_end, batch. destruct (batch_execute c sql w) as [ok w1]. intros X. exists ok, w1. split; [done|].
  destruct ok; injection X as <- <-; [by rewrite pg_update_db|by split].
Qed.

Abbreviation postgres polls := (postgres_session (J := J) env layout b sleep fetch deliver interrupted in_time column_json tables_json
  sha256_hex show_f64 parse_f64 parse_f32 c state set_state schema config_read_only fingerprint polls) (only parsing).

Lemma begin_inner ts w r w' : tx w = false -> begin_protected_write (postgres 0) ts w = (r, w') ->
  db w' = db w /\ (r = Ok tt -> work w' = db w' /\ tx w' = true /\ known (state w') = known (state w)).
Proof.
  intros T X. cbn [postgres_session begin_protected_write] in X. unfold session_begin_protected_write in X.
  apply interruptible_inv in X as [([e ->] & E)|(r0 & w0 & X & E & Kx)]; [by split|]. unfold checking in X.
  destruct (e_cancelled env w); [injection X as <- <-; split; [by apply E|]; intros Hx; by destruct (Kx tt Hx)|].
  destruct config_read_only; [injection X as <- <-; split; [by apply E|]; intros Hx; by destruct (Kx tt Hx)|].
  destruct (_ || _); [injection X as <- <-; split; [by apply E|]; intros Hx; by destruct (Kx tt Hx)|].
  unfold batch in X. destruct (batch_execute c _ w) as [ok w1] eqn:B. pose proof (pf_batch _ _ _ _ B) as S1.
  apply pl_lock in B as [B1 B2]; [|done]. destruct ok; injection X as <- <-.
  - match goal with Kx : forall x, r = Ok x -> _ /\ ?u = w' |- _ => assert (U : db u = db w1 /\ work u = work w1 /\ tx u = tx w1 /\ known (state u) = known (state w1)) end.
    { match goal with |- context [update state set_state ?f w1] => pose proof (pg_update_obs f w1) as U; rewrite (pg_update_get f w1) end.
      injection U as U1 U2 U3. by split_and!. }
    destruct U as (U1 & U2 & U3 & U4). split; [apply E; congruence|]. intros Hx. destruct (Kx tt Hx) as [_ <-].
    destruct (B2 eq_refl) as [B3 B4]. split_and!; congruence.
  - split; [by apply E|]. intros Hx. by destruct (Kx tt Hx).
Qed.

Lemma postgres_transactional polls : Transactional env db work open postgres_content (idle_session tx state known) (postgres polls).
Proof.
  split.
  - intros ts w r w' [T _] X. by apply (begin_inner ts) in X as [E _].
  - intros ts w w' [T Kn] X. apply (begin_inner ts) in X as [_ E]; [|done]. destruct (E eq_refl) as (E1 & E2 & E3). split; [done|].
    apply open_intro; [done|]. rewrite E3, Kn. done.
  - apply pg_load_metadata_reads.
  - intros ps w rows r w' O Hs. cbn [postgres_session Execution.stream_rows] in Hs. apply pg_stream_obs in Hs as (E1 & E2 & _); [|done].
    split; [done|]. intros n Hn. left. by eapply E2.
  - intros ps w rows n w' O F Hs. cbn [postgres_session Execution.stream_rows] in Hs. apply pg_stream_obs in Hs as (_ & _ & E); [|done].
    specialize (E n eq_refl). split; [|done]. rewrite E.
    apply list.Forall_forall. intros x Hx. unfold postgres_content in Hx. destruct (rbind _ _); [|by apply elem_of_nil in Hx].
    apply list_elem_of_omap in Hx as (row & _ & Hx). by eapply pg_item_typed.
  - intros x Dx. cbn [postgres_session write_batch]. unfold session_write_batch.
    apply (execute_inside (fun w => batch_sql (s_metadata (state w)) x)). intros w. by apply batch_sql_data.
  - intros x. cbn [postgres_session delete_all]. unfold session_delete_all. apply (execute_inside (fun _ => delete_sql schema x)).
    intros _. unfold delete_sql. apply data_statement_app. vm_compute. reflexivity.
  - apply maintain_inside.
  - intros w r w' O. destruct (open_inv _ _ _ _ _ _ O) as [T _]. cbn [postgres_session commit]. unfold SqliteAdapter.timed.
    destruct (session_end _ _ _ _ w) as [x w1] eqn:E. apply end_db in E as (ok & w2 & B & E & Ok1). apply pl_commit in B as [B1 B2]; [|done].
    intros [= <- <-]. rewrite E. split; [|done]. destruct (in_time w); [|discriminate]. intros [= ->]. by apply B1, Ok1.
  - intros w r w'. cbn [postgres_session rollback]. intros E. apply end_db in E as (ok & w2 & B & E & _). apply pl_rollback in B. congruence.
  - intros w r w'. cbn [postgres_session rollback_in_time]. unfold SqliteAdapter.timed.
    destruct (session_end _ _ _ _ w) as [x w1] eqn:E. apply end_db in E as (ok & w2 & B & E & _). apply pl_rollback in B.
    intros [= _ <-]. congruence.
  - by intros w r w' [= _ <-].
Qed.

(** C9: the session of the PostgreSQL channel is the transactional session the
    orchestration is verified against, although a cancellation may interrupt
    any of its operations halfway: with the server and its driver behaving as
    documented, every guarantee of [Transactional] holds of it, for the rows that
    its snapshot query reads of the tables it loaded. *)
Theorem postgres_session_transactional polls :
  Transactional env db work open postgres_content (idle_session tx state known) (postgres polls).
Proof. apply postgres_transactional. Qed.
End Laws.

(** ** Witness: a server with one table, a committed and a working list of rows *)

#[export] Instance text_columns : Columns (list (option str)) := {|
  string_at row i := mjoin (row !! i);
  optional_string_at row i := row !! i;
  integer_at _ row i := mjoin (row !! i) ≫= parse_u64;
  optional_integer_at _ row i := match row !! i with Some (Some s) => Some <$> parse_u64 s | Some None => Some None | None => None end;
  bool_at row i := s ← mjoin (row !! i); Some (str_eqb s (u "t"));
  strings_at _ _ := None;
|}.
Record Store : Type := mkStore {
  st_committed : list (list (option str)); st_working : list (list (option str)); st_open : bool; st_session : Session }.
Definition store_answers (sql : str) : list (list (option str)) :=
  if str_eqb sql facts_sql then [map (fun s => Some (u s)) ["7"; "shop"; "f"; "f"; "160002"; "t"; "16.2"]%string]
  else if str_eqb sql (column_metadata_sql 160002)
  then [map (fun s => Some (u s)) ["t"; "r"; "f"; "v"; "integer"; "t"; ""; "f"; "f"; "1"; ""; "t"; "t"; "integer"; "f"; ""]%string]
  else [].
Definition store_client : Client Store (list (option str)) := {|
  batch_execute sql w :=
    if str_eqb sql (u "COMMIT") then (true, mkStore (st_working w) (st_working w) false (st_session w))
    else if str_eqb sql (u "ROLLBACK") then (true, mkStore (st_committed w) (st_committed w) false (st_session w))
    else if starts_with (u "BEGIN ISOLATION LEVEL READ COMMITTED") sql then (true, mkStore (st_committed w) (st_committed w) true (st_session w))
    else (true, w);
  query sql _ w := (Ok (store_answers sql), w);
  query_raw _ w := (Some (st_working w, true), w);
  execute _ _ w := (Some 0, mkStore (st_committed w) [] (st_open w) (st_session w));
  request_cancel w := w;
|}.
Definition store_environment : Environment Store :=
  mkEnvironment Store (fun _ => false) (fun _ => 0) (fun _ => 7) (fun _ w => w) (fun _ => fresh_counters false) (fun _ w => w).
Definition store_set (s : Session) (w : Store) : Store := mkStore (st_committed w) (st_working w) (st_open w) s.
Definition no_json (c : DataColumn) : option str := Some [].
Definition no_float (s : str) : option Z := None.
Abbreviation store_documents := (sample_documents (u "[7]") [(u "int", Some (u "7"))]) (only parsing).
Abbreviation store_session := (@postgres_session Store (list (option str)) Sample _ store_documents store_environment
  sample_layout default_budget (fun w => w) (fun w => w) (fun _ w => (true, w)) (fun _ => false) (fun _ => true) no_json (fun _ => Some [])
  (fun b => b) (fun _ => []) no_float no_float store_client st_session store_set (u "public") false [] 3) (only parsing).

#[export] Instance store_neutral : Neutral store_environment st_committed st_working st_open.
Proof. by split. Qed.
#[export] Instance store_quiet : SqliteAdapter.Quiet st_committed st_working st_open (fun w => w) (fun _ w => (true, w)).
Proof. split; [done|]. by intros r w x w' [= <- <-]. Qed.
#[export] Instance store_frame : Frame store_environment st_committed st_working st_open st_session store_set (fun w => w) (fun w => w)
  (fun _ w => (true, w)).
Proof. split; try done. by intros r w x w' [= <- <-]. Qed.
#[export] Instance store_postgres_frame : PostgresFrame store_client st_session.
Proof.
  split; cbn [batch_execute query query_raw execute store_client].
  - intros sql w ok w'. repeat case_match; by intros [= _ <-].
  - by intros sql l w r w' [= _ <-].
  - by intros sql w r w' [= _ <-].
  - by intros sql l w n w' [= _ <-].
Qed.
Lemma apart (p x y : str) a b : head p = Some a -> head x = Some b -> a <> b -> str_eqb (p ++ y) x = false.
Proof. intros Hp Hx N. apply str_eqb_neq. intros <-. destruct p as [|c p]; [done|]. cbn in *. congruence. Qed.
Lemma locks_apart locked sequences locks : sequence_locks locked sequences = Ok locks ->
  starts_with (u "BEGIN ISOLATION LEVEL READ COMMITTED") (join (u "; ") locks) = false /\
  str_eqb (join (u "; ") locks) (u "COMMIT") = false /\ str_eqb (join (u "; ") locks) (u "ROLLBACK") = false.
Proof.
  intros F%lock_text. destruct F as [|x l Fx _]; [by vm_compute|].
  assert (H : exists r, join (u "; ") (x :: l) = u "ALTER SEQUENCE " ++ r).
  { apply starts_with_iff in Fx as [r ->]. destruct l as [|y l]; [by exists r|]. rewrite join_cons by done. eexists. by rewrite <- app_assoc. }
  destruct H as [r ->]. split; [|split; [apply (apart _ _ _ 65 67)|apply (apart _ _ _ 65 82)]; done || by vm_compute].
  unfold starts_with. destruct (strip_prefix _ _) as [t|] eqn:E; [|done]. apply strip_prefix_some in E. exfalso.
  apply (f_equal head) in E. vm_compute in E. discriminate E.
Qed.
#[export] Instance store_laws : PostgresLaws no_json no_float no_float store_client (u "public") st_committed st_working st_open
  (fun _ sql _ => store_answers sql) (fun d _ => d) 160002.
Proof.
  split; cbn [batch_execute query query_raw execute request_cancel store_client]; try done.
  - intros names w ok w' _. unfold lock_sql.
    rewrite (apart _ (u "COMMIT") _ 66 67), (apart _ (u "ROLLBACK") _ 66 82) by (done || by vm_compute).
    rewrite (starts_with_app _ _ _) by (by vm_compute). by intros [= <- <-].
  - intros w ok w' _. rewrite str_eqb_refl. intros [= <- <-]. split; [done|by right].
  - intros w ok w'. replace (str_eqb (u "ROLLBACK") (u "COMMIT")) with false by (by vm_compute). rewrite str_eqb_refl. by intros [= <- <-].
  - intros locked sequences locks w ok w' L _. destruct (locks_apart _ _ _ L) as (-> & -> & ->). by intros [= <- <-].
  - by intros sql l w n w' _ T [= <- <-].
  - split. by intros sql l w r w' _ _ [= <- <-].
  - by intros sql l w rows w' _ _ [= <- _].
  - intros w w' row. unfold store_answers. rewrite str_eqb_refl. intros [= <- _]. by vm_compute.
  - intros sql w r w' _ _ [= <- <-]. split; [done|]. intros rows complete [= <- <-]. by split.
Qed.
#[export] Instance store_document_laws : @DocumentLaws Sample store_documents.
Proof. apply sample_laws. vm_compute. reflexivity. Qed.

Definition store_row : list (option str) := [Some (u "0"); Some (u "[7]")].
Definition store_projection : Projection := mkProjection (u "t") (u "t") [u "v"] [0%nat].
(** The metadata that the session itself loads. *)
Definition store_metadata : DataMetadataSnapshot :=
  match (load_metadata store_session (mkStore [store_row] [store_row] true (mkSession None None [] []))).1 with
  | Ok m => m
  | Err _ => mkMetadata Postgres [] false false false false [] []
  end.
Definition store_world : Store := mkStore [store_row] [store_row] true (mkSession (Some store_metadata) None [] []).

Lemma postgres_session_transactional_witness :
  Execution.stream_rows store_session [store_projection] store_world = ([mkRow (u "t") [VInt 7] [VInt 7]], Ok 1, store_world) /\
  Forall streamed [mkRow (u "t") [VInt 7] [VInt 7]].
Proof.
  assert (S : Execution.stream_rows store_session [store_projection] store_world = ([mkRow (u "t") [VInt 7] [VInt 7]], Ok 1, store_world))
    by (vm_compute; reflexivity).
  split; [exact S|].
  refine (proj1 (tx_rows store_environment st_committed st_working _ _ _ (Transactional := @postgres_session_transactional Store _
    (list (option str)) Sample _ store_documents _ store_environment sample_layout default_budget (fun w => w) (fun w => w) (fun _ w => (true, w))
    (fun _ => false) (fun _ => true) no_json (fun _ => Some []) (fun b => b) (fun _ => []) no_float no_float store_client st_session
    store_set (u "public") false [] st_committed st_working st_open (fun _ sql _ => store_answers sql) (fun d _ => d) 160002 _ _ _ _ _ 3)
    [store_projection] store_world _ _ _ _ _ S)).
  - vm_compute. reflexivity.
  - constructor; [|constructor]. split_and!; [apply (bool_decide_unpack (Forall _ _)); vm_compute; exact I|vm_compute; discriminate..].
Defined.

End PostgresChannel.
