(* ===== verification/SqlServerWire.v ===== *)
(** What travels between the SQL Server channel and the server
    (src-tauri/src/db/data_tasks/adapters/sqlserver.rs): the statements it
    builds, the versions it accepts, the rows it decodes and the values it
    binds.  The parsers of floating point numbers and of UUIDs, and serde's
    reading of a payload into tagged fields, are parameters. *)
From S2P Require Import Prelude RustText DataTypes MetaTypes Values Batch Executor SqliteAdapter WireRows.
Import DataTypes MetaTypes Values Batch Executor WireRows.

Module SqlServerWire.

Definition DB_ERROR : str := u "SQL Server 数据任务失败，请检查连接、隔离配置、权限及目标约束".
(** On the error's code. *)
Definition db_error (code : option Z) : str :=
  match code with
  | Some code =>
    if bool_decide (code ∈ [2601; 2627; 547; 515]) then u "constraint_conflict: SQL Server 目标约束不允许本次写入"
    else if code =? 1222 then u "lock_timeout: SQL Server 目标锁等待超时" else DB_ERROR
  | None => DB_ERROR
  end.
Definition id (name : str) : str := identifier DSqlServer name.

(** ** Versions *)

Definition parse_u32 : str -> option Z := parse_uint u32_max.
Definition all_digits (s : str) : bool := negb (is_empty s) && forallb is_ascii_digit (utf8 s).
Definition number_part (part : str) : option Z := if all_digits part then parse_u32 part else None.
Definition level_verified (level : str) : bool :=
  str_eqb level (u "RTM")
  || is_some_and (fun n => all_digits n && is_some_and (fun v => 0 <? v) (parse_u32 n)) (strip_prefix (u "SP") level).
Definition minimum_build (major : Z) : option (Z * Z) :=
  if major =? 14 then Some (1000, 169) else if major =? 15 then Some (2000, 5) else if major =? 16 then Some (1000, 6)
  else if major =? 17 then Some (1000, 7) else None.
Definition server_version_verified (major : Z) (version level : str) (engine : Z) : bool :=
  if negb ((2 <=? engine) && (engine <=? 4) && level_verified level) then false
  else
    match mapM number_part (split_char 46 version) with
    | Some [a; b; c; d] =>
      if negb (a =? major) || negb (b =? 0) then false
      else match minimum_build major with
           | Some (x, y) => (x <? c) || ((c =? x) && (y <=? d))
           | None => false
           end
    | _ => false
    end.

Definition column_metadata_sql (major : Z) : str :=
  let ledger := if 16 <=? major then u "ISNULL(st.ledger_type,0)<>0 OR ISNULL(st.is_dropped_ledger_table,0)=1" else u "1=0" in
  u "SELECT t.name,t.type,CAST(t.is_ms_shipped AS int),c.name,ty.name,CAST(c.max_length AS int),CAST(c.precision AS int),CAST(c.scale AS int),CAST(c.is_nullable AS int),dc.definition,CAST(c.is_computed AS int),CAST(c.generated_always_type AS int),CAST(c.is_identity AS int),CAST(ISNULL(pk.key_ordinal,0) AS int),c.collation_name,CAST(ty.is_user_defined AS int),CONVERT(nvarchar(100),ic.seed_value),CONVERT(nvarchar(100),ic.increment_value),CAST(ISNULL(HAS_PERMS_BY_NAME(QUOTENAME(s.name)+N'.'+QUOTENAME(t.name),N'OBJECT',N'ALTER'),0) AS int),CAST(ISNULL(st.is_memory_optimized,0) AS int),CAST(ISNULL(st.temporal_type,0) AS int),CAST(CASE WHEN ISNULL(st.is_node,0)=1 OR ISNULL(st.is_edge,0)=1 OR " ++ (ledger
  ++ u " THEN 1 ELSE 0 END AS int) FROM sys.objects t LEFT JOIN sys.tables st ON st.object_id=t.object_id JOIN sys.schemas s ON s.schema_id=t.schema_id JOIN sys.columns c ON c.object_id=t.object_id JOIN sys.types ty ON ty.user_type_id=c.user_type_id LEFT JOIN sys.default_constraints dc ON dc.object_id=c.default_object_id LEFT JOIN sys.identity_columns ic ON ic.object_id=c.object_id AND ic.column_id=c.column_id LEFT JOIN (SELECT i.object_id,ic.column_id,ic.key_ordinal FROM sys.indexes i JOIN sys.index_columns ic ON ic.object_id=i.object_id AND ic.index_id=i.index_id WHERE i.is_primary_key=1) pk ON pk.object_id=c.object_id AND pk.column_id=c.column_id WHERE s.name=@P1 AND t.type IN ('U','V') ORDER BY t.name,c.column_id").

(** ** Types *)

Definition wire_type (declared : str) : result str str :=
  let t := to_ascii_uppercase declared in
  let base := take_while (fun c => negb (c =? 40)) t in
  if one_of base ["TINYINT"; "SMALLINT"; "INT"; "INTEGER"; "BIGINT"]%string then Ok (u "int")
  else if one_of base ["BIT"; "BOOLEAN"]%string then Ok (u "bool")
  else if one_of base ["DECIMAL"; "NUMERIC"]%string then Ok (u "decimal")
  else if one_of base ["FLOAT"; "REAL"]%string then Ok (u "float")
  else if one_of base ["CHAR"; "NCHAR"; "VARCHAR"; "NVARCHAR"; "TEXT"; "NTEXT"]%string then Ok (u "text")
  else if one_of base ["BINARY"; "VARBINARY"; "IMAGE"; "ROWVERSION"; "TIMESTAMP"]%string then Ok (u "binary")
  else if one_of base ["DATE"]%string then Ok (u "date")
  else if one_of base ["TIME"]%string then Ok (u "time")
  else if one_of base ["DATETIME"; "SMALLDATETIME"]%string then Ok (u "datetime")
  else if one_of base ["DATETIME2"]%string then Ok (u "datetime2")
  else if one_of base ["DATETIMEOFFSET"]%string then Ok (u "datetimeoffset")
  else if one_of base ["UNIQUEIDENTIFIER"; "UUID"]%string then Ok (u "uuid")
  else Err (u "unsupported_capability: SQL Server 字段类型尚未通过无损验收").

(** ** Statements *)

Definition frame_sql (c kind : str) : str :=
  let value := if str_eqb kind (u "binary") then u "CONVERT(varchar(max)," ++ c ++ u ",2)"
               else if str_eqb kind (u "float") then u "CONVERT(varchar(max)," ++ c ++ u ",3)"
               else if str_eqb kind (u "datetimeoffset") then u "CONVERT(nvarchar(max)," ++ c ++ u ",126)"
               else if one_of kind ["date"; "time"; "datetime"; "datetime2"]%string then u "CONVERT(nvarchar(max)," ++ c ++ u ",126)"
               else u "CONVERT(nvarchar(max)," ++ c ++ u ")" in
  u "(SELECT CASE WHEN " ++ c ++ u " IS NULL THEN N'null' ELSE N'" ++ kind ++ u "' END AS [t],CASE WHEN " ++ c
  ++ u " IS NULL THEN NULL ELSE " ++ value ++ u " END AS [v] FOR JSON PATH,INCLUDE_NULL_VALUES,WITHOUT_ARRAY_WRAPPER)".
Definition select_sql (schema : str) (tables : list DataTable) (index : nat) (p : Projection) : result str str :=
  let? t := ok_or (find_first (fun t => str_eqb (tb_name t) (pj_table p) && tb_physical t) tables)
              (u "invalid_mapping: SQL Server 快照表不是受支持物理表") in
  if is_empty (pj_columns p) then Err (u "invalid_mapping: 快照投影不能为空")
  else
    let? frames := traverse (fun name =>
        let? c := ok_or (find_column (tb_columns t) name) (u "invalid_mapping: SQL Server 快照列不存在") in
        let? kind := wire_type (dc_declared_type c) in
        Ok (frame_sql (id name) kind)) (pj_columns p) in
    Ok (u "SELECT CAST(" ++ show_Z (Z.of_nat index) ++ u " AS int) AS __data_table,CONVERT(nvarchar(max),N'[')+" ++ join (u "+N','+") frames
        ++ u "+N']' AS __data_payload FROM " ++ id schema ++ u "." ++ id (pj_table p)).
Definition snapshot_of (schema : str) (projections : list Projection) (tables : list DataTable) : result str str :=
  if is_empty projections || (100 <? zlen projections) then Err (u "resource_limit: 集合快照须包含 1 至 100 张表")
  else
    let? selects := traverse (fun '(index, p) => select_sql schema tables index p) (imap pair projections) in
    let sql := join (u " UNION ALL ") selects in
    if 1024 * 1024 <? str_len sql then Err (u "resource_limit: 集合 SQL 超过 1 MiB，请拆分任务") else Ok sql.
Definition snapshot_sql (schema : str) (projections : list Projection) (metadata : DataMetadataSnapshot) : result str str :=
  snapshot_of schema projections (md_tables metadata).

Definition protected_write_sql (schema : str) (tables : list str) : result str str :=
  if is_empty tables || (100 <? zlen tables) then Err (u "invalid_mapping: SQL Server 受保护写入须选择 1 至 100 张表")
  else
    let tables := remove_dups (sort_by str_cmp tables) in
    let locks := imap (fun i t => u "SELECT " ++ show_Z (Z.of_nat i) ++ u " AS __data_table,COUNT_BIG(*) AS __locked_rows FROM " ++ id schema
                                  ++ u "." ++ id t ++ u " WITH (TABLOCKX,HOLDLOCK)") tables in
    Ok (u "SET LOCK_TIMEOUT 10000; SET TRANSACTION ISOLATION LEVEL SERIALIZABLE; BEGIN TRANSACTION; " ++ join (u " UNION ALL ") locks).

(** ** Binding *)

(** What the driver is given: a typed null or a value. *)
Inductive NullType : Type := NullBytes | NullI64 | NullBool | NullF64 | NullUuid | NullString.
Inductive Bound : Type :=
| BoundNull (t : NullType) | BoundBool (v : bool) | BoundI64 (v : Z) | BoundString (v : str) | BoundF64 (bits : Z) | BoundBytes (v : bytes)
| BoundUuid (v : bytes).
Definition null_type (kind : str) : NullType :=
  if str_eqb kind (u "binary") then NullBytes else if str_eqb kind (u "int") then NullI64 else if str_eqb kind (u "bool") then NullBool
  else if str_eqb kind (u "float") then NullF64 else if str_eqb kind (u "uuid") then NullUuid else NullString.
Definition bind (v : DataValue) (declared_type : str) : result Bound str :=
  match v with
  | VNull => let? kind := wire_type declared_type in Ok (BoundNull (null_type kind))
  | VBool v => Ok (BoundBool v)
  | VInt v => Ok (BoundI64 v)
  | VUInt v => if v <=? 9223372036854775807 then Ok (BoundI64 v) else Err (u "unsupported_capability: SQL Server 无符号值超过 BIGINT 范围")
  | VDecimal v => let? d := normalize_decimal v in Ok (BoundString d)
  | VFloat v => if SqliteAdapter.is_finite v then Ok (BoundF64 v) else Err (u "unsupported_capability: SQL Server 不能绑定非有限浮点数")
  | VText v => Ok (BoundString v)
  | VBinary v => Ok (BoundBytes v)
  | VTemporal _ v => Ok (BoundString v)
  | VUuid v => Ok (BoundUuid v)
  | VJson _ => Err (u "unsupported_capability: SQL Server JSON 映射尚未验收")
  end.

(** ** Decoding *)

Definition payload_limit : Z := 32 * 1024 * 1024.
Section Decode.
Context (parse_fields : str -> option (list (str * option str))) (parse_f64 : str -> option Z) (parse_uuid : str -> option bytes).

Definition decode_field (field : str * option str) : result DataValue str :=
  let v := ok_or field.2 (u "SQL Server 非空载荷缺少字符串值") in
  let kind := field.1 in
  if str_eqb kind (u "null") then Ok VNull
  else if str_eqb kind (u "int") then let? t := v in let? n := ok_or (parse_i64 t) (u "SQL Server 整数超出无损范围") in Ok (VInt n)
  else if str_eqb kind (u "bool") then
    let? t := v in
    if str_eqb t (u "0") then Ok (VBool false) else if str_eqb t (u "1") then Ok (VBool true) else Err (u "SQL Server 布尔值无效")
  else if str_eqb kind (u "decimal") then let? t := v in let? d := normalize_decimal t in Ok (VDecimal d)
  else if str_eqb kind (u "float") then
    let? t := v in
    let? bits := ok_or (parse_f64 t) (u "SQL Server 浮点载荷无效") in
    if SqliteAdapter.is_finite bits then Ok (VFloat bits) else Err (u "unsupported_capability: SQL Server 非有限浮点数未验收")
  else if str_eqb kind (u "text") then let? t := v in Ok (VText t)
  else if str_eqb kind (u "binary") then
    let? t := v in let? raw := unhex_with (u "SQL Server 二进制载荷无效") (u "SQL Server 二进制编码无效") t in Ok (VBinary raw)
  else if str_eqb kind (u "uuid") then let? t := v in let? raw := ok_or (parse_uuid t) (u "SQL Server UUID 编码无效") in Ok (VUuid raw)
  else if one_of kind ["date"; "time"; "datetime"; "datetime2"; "datetimeoffset"]%string then let? t := v in Ok (VTemporal kind t)
  else Err (u "unsupported_capability: SQL Server 载荷类型未经无损验收").
Definition decode_payload (table : str) (keys : list nat) (payload : str) : result CanonicalRow str :=
  if payload_limit <? str_len payload then Err (u "resource_limit: SQL Server 单行载荷超过内存预算")
  else
    let? fields := ok_or (parse_fields payload) (u "SQL Server 集合载荷编码无效") in
    let? values := traverse decode_field fields in
    let? key := select_key (u "invalid_mapping: SQL Server 定位键索引无效") keys values in
    new_row table key values.
End Decode.

(** ** Specification: what the snapshot query returns for stored values *)

Section Lossless.
Context (parse_fields : str -> option (list (str * option str))) (parse_f64 : str -> option Z) (parse_uuid : str -> option bytes).

Definition temporal_kinds : list String.string := ["date"; "time"; "datetime"; "datetime2"; "datetimeoffset"]%string.
(** The field of a stored value, as CONVERT writes it. *)
Inductive wire : DataValue -> str * option str -> Prop :=
| wire_null : wire VNull (u "null", None)
| wire_int n : i64_range n -> wire (VInt n) (u "int", Some (show_Z n))
| wire_bool (v : bool) : wire (VBool v) (u "bool", Some (if v then u "1" else u "0"))
| wire_decimal d d' : normalize_decimal d = Ok d' -> wire (VDecimal d') (u "decimal", Some d)
| wire_float bits t : SqliteAdapter.is_finite bits = true -> parse_f64 t = Some bits -> wire (VFloat bits) (u "float", Some t)
| wire_text s : wire (VText s) (u "text", Some s)
| wire_binary l : Forall byte_range l -> wire (VBinary l) (u "binary", Some (upper_hex l))
| wire_uuid l t : parse_uuid t = Some l -> wire (VUuid l) (u "uuid", Some t)
| wire_temporal (k : String.string) s : k ∈ temporal_kinds -> wire (VTemporal (u k) s) (u k, Some s).

Lemma decode_field_wired v f : wire v f -> decode_field parse_f64 parse_uuid f = Ok v.
Proof.
  destruct 1 as [|n R|v|d d' N|bits t F P|s|l B|l t P|k s K].
  - reflexivity.
  - change ((let? k := ok_or (parse_i64 (show_Z n)) (u "SQL Server 整数超出无损范围") in Ok (VInt k)) = Ok (VInt n)). by rewrite parse_i64_show.
  - by destruct v.
  - change ((let? k := normalize_decimal d in Ok (VDecimal k)) = Ok (VDecimal d')). by rewrite N.
  - change ((let? k := ok_or (parse_f64 t) (u "SQL Server 浮点载荷无效") in
            if SqliteAdapter.is_finite k then Ok (VFloat k) else Err (u "unsupported_capability: SQL Server 非有限浮点数未验收")) = Ok (VFloat bits)).
    rewrite P. cbn [ok_or rbind]. by rewrite F.
  - reflexivity.
  - change ((let? raw := unhex_with (u "SQL Server 二进制载荷无效") (u "SQL Server 二进制编码无效") (upper_hex l) in Ok (VBinary raw)) = Ok (VBinary l)).
    by rewrite unhex_upper.
  - change ((let? raw := ok_or (parse_uuid t) (u "SQL Server UUID 编码无效") in Ok (VUuid raw)) = Ok (VUuid l)). by rewrite P.
  - unfold temporal_kinds in K. rewrite !elem_of_cons in K. destruct K as [->|[->|[->|[->|[->|[]%elem_of_nil]]]]]; reflexivity.
Qed.
Lemma wired_encodable v f : wire v f -> encodable v.
Proof. destruct 1 as [| | |d d' N| | | | |]; try done. cbn [encodable]. by rewrite (normalize_decimal_fixed _ _ N). Qed.

(** The SQL Server snapshot is lossless: for the document that the snapshot
    query makes of a row of stored values, decoding the payload succeeds and
    gives exactly those values, keyed by the projection's columns. *)
Theorem sqlserver_payload_lossless table keys payload fields vs :
  str_len payload <= payload_limit -> parse_fields payload = Some fields -> Forall2 wire vs fields ->
  Forall (fun i => i < length vs)%nat keys ->
  decode_payload parse_fields parse_f64 parse_uuid table keys payload = Ok (mkRow table (key_of keys vs) vs).
Proof.
  intros L P Ws K. unfold decode_payload. replace (payload_limit <? str_len payload) with false by lia.
  rewrite P. cbn [ok_or rbind].
  assert (T : traverse (decode_field parse_f64 parse_uuid) fields = Ok vs).
  { clear P K. induction Ws as [|v f vs fields Hw _ IH]; [done|]. cbn [traverse]. rewrite (decode_field_wired v f Hw). cbn [rbind].
    by rewrite IH. }
  rewrite T. cbn [rbind]. rewrite select_key_ok by done. cbn [rbind].
  assert (En : Forall encodable vs).
  { clear -Ws. induction Ws; constructor; [by eapply wired_encodable|done]. }
  apply new_row_total; [by apply key_of_forall|done].
Qed.
End Lossless.

(** ** Whatever the payload, a decoded row is well typed and fits *)

(** What serde reads of a payload fits in the payload. *)
Class FieldLaws (parse_fields : str -> option (list (str * option str))) (parse_f64 : str -> option Z)
  (parse_uuid : str -> option bytes) : Prop := {
  fields_count payload l : parse_fields payload = Some l -> zlen l <= str_len payload;
  fields_text payload l f t : parse_fields payload = Some l -> f ∈ l -> f.2 = Some t -> wf_str t /\ str_len t <= str_len payload;
  parsed_f64 s v : parse_f64 s = Some v -> u64_range v;
  parsed_uuid s l : parse_uuid s = Some l -> Forall byte_range l /\ zlen l = 16;
}.

Section Typed.
Context (parse_fields : str -> option (list (str * option str))) (parse_f64 : str -> option Z) (parse_uuid : str -> option bytes).
Context `{!FieldLaws parse_fields parse_f64 parse_uuid}.

Lemma decode_field_typed f v (limit : Z) : (forall t, f.2 = Some t -> wf_str t /\ str_len t <= limit) -> 0 <= limit ->
  decode_field parse_f64 parse_uuid f = Ok v -> wf_value v /\ text_size v <= 32 + limit.
Proof.
  intros T L. unfold decode_field. destruct f as [kind text]. cbn [fst snd] in *.
  assert (T' : forall t (e : str), ok_or text e = Ok t -> wf_str t /\ str_len t <= limit) by (intros t e X%ok_or_ok_inv; by apply T).
  destruct (str_eqb kind (u "null")); [intros [= <-]; cbn; split; [done|lia]|].
  destruct (str_eqb kind (u "int")).
  { intros X. inv_ok. cbn [wf_value text_size]. split; [by eapply parse_i64_range|lia]. }
  destruct (str_eqb kind (u "bool")).
  { intros X. apply rbind_ok_inv in X as (t & _ & X). destruct (str_eqb t (u "0")); [apply Ok_inj in X as <-; cbn; split; [done|lia]|].
    destruct (str_eqb t (u "1")); [apply Ok_inj in X as <-; cbn; split; [done|lia]|done]. }
  destruct (str_eqb kind (u "decimal")).
  { intros X. apply rbind_ok_inv in X as (t & Ht & X). apply rbind_ok_inv in X as (d & Hd & X). apply Ok_inj in X as <-.
    cbn [wf_value text_size]. split; [by eapply normalize_decimal_wf|]. destruct (T' _ _ Ht) as [_ T2]. apply normalize_decimal_length in Hd. lia. }
  destruct (str_eqb kind (u "float")).
  { intros X. inv_ok. destruct (SqliteAdapter.is_finite _); [|done]. apply Ok_inj in X as <-. cbn [wf_value text_size]. split; [|lia].
    by eapply parsed_f64. }
  destruct (str_eqb kind (u "text")).
  { intros X. apply rbind_ok_inv in X as (t & Ht & X). apply Ok_inj in X as <-. cbn [wf_value text_size]. destruct (T' _ _ Ht). split; [done|lia]. }
  destruct (str_eqb kind (u "binary")).
  { intros X. apply rbind_ok_inv in X as (t & Ht & X). apply rbind_ok_inv in X as (raw & Hr & X). apply Ok_inj in X as <-.
    cbn [wf_value text_size]. destruct (T' _ _ Ht). split; [by eapply unhex_bytes|]. apply unhex_length in Hr. lia. }
  destruct (str_eqb kind (u "uuid")).
  { intros X. apply rbind_ok_inv in X as (t & Ht & X). apply rbind_ok_inv in X as (raw & Hr & X). apply Ok_inj in X as <-.
    apply ok_or_ok_inv, parsed_uuid in Hr as [Hr Lr]. cbn [wf_value text_size]. split; [by split|lia]. }
  destruct (one_of kind _) eqn:K; [|done].
  intros X. apply rbind_ok_inv in X as (t & Ht & X). apply Ok_inj in X as <-. cbn [wf_value text_size]. destruct (T' _ _ Ht).
  apply one_of_short in K as [K1 K2]; [split; [done|lia]|]. apply (bool_decide_unpack _). vm_compute. exact I.
Qed.

Lemma sqlserver_payload_typed table keys payload r : wf_str table -> str_len table <= u32_max -> zlen keys <= u32_max ->
  decode_payload parse_fields parse_f64 parse_uuid table keys payload = Ok r ->
  wf_row r /\ exists b, canonical_bytes r = Ok b /\ zlen b <= usize_max.
Proof.
  intros Wt Lt Lk. unfold decode_payload. destruct (_ <? str_len payload) eqn:Lp; [done|]. intros X.
  apply rbind_ok_inv in X as (l & P%ok_or_ok_inv & X). apply rbind_ok_inv in X as (vs & V & X).
  apply rbind_ok_inv in X as (k & K & X).
  unfold new_row in X. apply rbind_ok_inv in X as (bs & C & X). apply Ok_inj in X as <-.
  assert (Lim : str_len payload <= 33554432) by (unfold payload_limit in Lp; lia).
  assert (G : Forall (fun v => wf_value v /\ text_size v <= 32 + 33554432) vs).
  { apply traverse_ok_inv in V. apply list.Forall_lookup_2. intros i v Hv. destruct (Forall2_lookup_r _ _ _ _ _ V Hv) as (x & Hx & Dx).
    eapply decode_field_typed; [|lia|exact Dx]. intros t Ht.
    destruct (fields_text payload l x t P ltac:(by eapply list_elem_of_lookup_2) Ht). split; [done|lia]. }
  apply traverse_ok_inv, Forall2_length in V. pose proof (fields_count payload l P) as Nf.
  eapply row_typed; [done..| |exact G|exact K|exact C]. unfold zlen in *. lia.
Qed.
End Typed.

(** *** Witness *)

Definition sample_payload : str := u "[a text of the server with its fields]".
Definition sample_uuid : bytes := replicate 15 0 ++ [255].
Definition sample_pairs : list (DataValue * (str * option str)) :=
  [(VInt (-5), (u "int", Some (u "-5"))); (VText (u "é"), (u "text", Some (u "é"))); (VDecimal (u "1.5"), (u "decimal", Some (u "01.50")));
   (VNull, (u "null", None)); (VBinary [0; 255], (u "binary", Some (u "00FF"))); (VFloat 4609434218613702656, (u "float", Some (u "1.5")));
   (VBool true, (u "bool", Some (u "1"))); (VTemporal (u "datetime2") (u "2024-01-02T03:04:05"), (u "datetime2", Some (u "2024-01-02T03:04:05")));
   (VUuid sample_uuid, (u "uuid", Some (u "00000000-0000-0000-0000-0000000000FF")))].
Definition sample_fields (s : str) : option (list (str * option str)) := if str_eqb s sample_payload then Some (map snd sample_pairs) else None.
Definition sample_f64 (s : str) : option Z := if str_eqb s (u "1.5") then Some 4609434218613702656 else None.
Definition sample_parse_uuid (s : str) : option bytes :=
  if str_eqb s (u "00000000-0000-0000-0000-0000000000FF") then Some sample_uuid else None.
Lemma sample_wired : Forall2 (wire sample_f64 sample_parse_uuid) (map fst sample_pairs) (map snd sample_pairs).
Proof.
  assert (T : forall v k t t', t = t' -> wire sample_f64 sample_parse_uuid v (k, Some t) -> wire sample_f64 sample_parse_uuid v (k, Some t'))
    by (by intros v k t t' ->).
  unfold sample_pairs. cbn [map fst snd].
  apply list.Forall2_cons; split; [apply (wire_int _ _ (-5)); unfold i64_range; lia|].
  apply list.Forall2_cons; split; [apply wire_text|].
  apply list.Forall2_cons; split; [apply wire_decimal; vm_compute; reflexivity|].
  apply list.Forall2_cons; split; [apply wire_null|].
  apply list.Forall2_cons; split.
  { apply (T _ _ (upper_hex [0; 255])); [vm_compute; reflexivity|]. apply wire_binary. apply (bool_decide_unpack (Forall _ _)). vm_compute. exact I. }
  apply list.Forall2_cons; split; [apply wire_float; vm_compute; reflexivity|].
  apply list.Forall2_cons; split; [apply (wire_bool _ _ true)|].
  apply list.Forall2_cons; split; [apply (wire_temporal _ _ "datetime2"); apply (bool_decide_unpack (_ ∈ _)); vm_compute; exact I|].
  apply list.Forall2_cons; split; [|constructor]. apply wire_uuid. vm_compute. reflexivity.
Qed.
Lemma sqlserver_payload_lossless_witness :
  decode_payload sample_fields sample_f64 sample_parse_uuid (u "t") [0%nat] sample_payload =
    Ok (mkRow (u "t") [VInt (-5)] (map fst sample_pairs)).
Proof.
  apply (sqlserver_payload_lossless sample_fields sample_f64 sample_parse_uuid (u "t") [0%nat] sample_payload (map snd sample_pairs)
    (map fst sample_pairs)).
  - vm_compute. discriminate.
  - vm_compute. reflexivity.
  - exact sample_wired.
  - constructor; [cbn; lia|constructor].
Defined.

End SqlServerWire.
