(* ===== verification/SqlServerCatalog.v ===== *)
(** How the SQL Server channel loads a schema
    ([metadata_inner] of src-tauri/src/db/data_tasks/adapters/sqlserver.rs): the
    facts about the server and the privileges, then the columns, foreign keys,
    triggers, indexes, checks and security policies of the schema, each read by
    one query. *)
From S2P Require Import Prelude RustText DataTypes MetaTypes Values Plan Batch SqliteAdapter NetworkChannel SqlServerWire.
Import DataTypes MetaTypes Values Batch NetworkChannel SqlServerWire.

Module SqlServerCatalog.

Definition facts_sql : str := u "SELECT CAST(SERVERPROPERTY(N'ServerName') AS nvarchar(256)),DB_NAME(),CAST(DATABASEPROPERTYEX(DB_NAME(),N'Updateability') AS nvarchar(32)),CAST(d.snapshot_isolation_state AS int),CAST(ISNULL(IS_SRVROLEMEMBER(N'sysadmin'),0) AS int),CAST(ISNULL(IS_MEMBER(N'db_owner'),0) AS int),CAST(ISNULL(HAS_PERMS_BY_NAME(@P1,N'SCHEMA',N'VIEW DEFINITION'),0) AS int),CAST(ISNULL(HAS_PERMS_BY_NAME(@P1,N'SCHEMA',N'SELECT'),0) AS int),CAST(ISNULL(HAS_PERMS_BY_NAME(@P1,N'SCHEMA',N'INSERT'),0) AS int),CAST(ISNULL(HAS_PERMS_BY_NAME(@P1,N'SCHEMA',N'UPDATE'),0) AS int),CAST(ISNULL(HAS_PERMS_BY_NAME(@P1,N'SCHEMA',N'DELETE'),0) AS int),CAST(SERVERPROPERTY(N'ProductMajorVersion') AS int),CAST(ISNULL(HAS_PERMS_BY_NAME(DB_NAME(),N'DATABASE',N'VIEW DEFINITION'),0) AS int),CAST(CASE WHEN EXISTS(SELECT 1 FROM sys.database_permissions p JOIN sys.user_token u ON u.principal_id=p.grantee_principal_id WHERE p.state=N'D' AND p.class IN (0,1,3) AND p.permission_name IN (N'VIEW DEFINITION',N'VIEW SECURITY DEFINITION',N'VIEW PERFORMANCE DEFINITION',N'CONTROL')) THEN 1 ELSE 0 END AS int),CAST(SERVERPROPERTY(N'ProductVersion') AS nvarchar(128)),CAST(SERVERPROPERTY(N'ProductLevel') AS nvarchar(128)),CAST(SERVERPROPERTY(N'EngineEdition') AS int) FROM sys.databases d WHERE d.database_id=DB_ID()".
Definition foreign_keys_sql : str := u "SELECT s.name,t.name,fk.name,ps.name,pt.name,c.name,pc.name,fk.update_referential_action_desc,fk.delete_referential_action_desc,CAST(fk.is_disabled AS int),CAST(fk.is_not_trusted AS int) FROM sys.foreign_keys fk JOIN sys.objects t ON t.object_id=fk.parent_object_id JOIN sys.schemas s ON s.schema_id=t.schema_id JOIN sys.objects pt ON pt.object_id=fk.referenced_object_id JOIN sys.schemas ps ON ps.schema_id=pt.schema_id JOIN sys.foreign_key_columns fkc ON fkc.constraint_object_id=fk.object_id JOIN sys.columns c ON c.object_id=t.object_id AND c.column_id=fkc.parent_column_id JOIN sys.columns pc ON pc.object_id=pt.object_id AND pc.column_id=fkc.referenced_column_id WHERE s.name=@P1 OR ps.name=@P1 ORDER BY s.name,t.name,fk.name,fkc.constraint_column_id".
Definition triggers_sql : str := u "SELECT t.name,tr.name,CAST(tr.is_disabled AS int),OBJECT_DEFINITION(tr.object_id) FROM sys.triggers tr JOIN sys.objects t ON t.object_id=tr.parent_id JOIN sys.schemas s ON s.schema_id=t.schema_id WHERE s.name=@P1 ORDER BY t.name,tr.name".
Definition indexes_sql : str := u "SELECT t.name,i.name,CAST(i.index_id AS int),CAST(i.is_unique AS int),CAST(i.is_disabled AS int),i.filter_definition,CAST(ic.index_column_id AS int),CAST(ic.key_ordinal AS int),CAST(ic.is_included_column AS int),c.name FROM sys.objects t JOIN sys.schemas s ON s.schema_id=t.schema_id JOIN sys.indexes i ON i.object_id=t.object_id JOIN sys.index_columns ic ON ic.object_id=i.object_id AND ic.index_id=i.index_id JOIN sys.columns c ON c.object_id=ic.object_id AND c.column_id=ic.column_id WHERE s.name=@P1 ORDER BY t.name,i.index_id,ic.index_column_id".
Definition checks_sql : str := u "SELECT t.name,c.name,c.definition,CAST(c.is_disabled AS int),CAST(c.is_not_trusted AS int) FROM sys.check_constraints c JOIN sys.objects t ON t.object_id=c.parent_object_id JOIN sys.schemas s ON s.schema_id=t.schema_id WHERE s.name=@P1 ORDER BY t.name,c.name".
Definition policies_sql : str := u "SELECT COUNT_BIG(*) FROM sys.security_predicates p JOIN sys.security_policies policy ON policy.object_id=p.object_id JOIN sys.objects t ON t.object_id=p.target_object_id JOIN sys.schemas s ON s.schema_id=t.schema_id WHERE s.name=@P1 AND policy.is_enabled=1".

(** [a? && b?] and [a? || b?]: the second is read when the first does not decide. *)
Definition and_also (x y : result bool str) : result bool str := let? a := x in if a then y else Ok false.
Definition or_else (x y : result bool str) : result bool str := let? a := x in if a then Ok true else y.
Definition in_range (min max : Z) (s : str) : bool := is_some_and (fun v => 0 <=? v) (parse_int min max s).
Definition i128_min : Z := - 2 ^ 127.
Definition i128_max : Z := 2 ^ 127 - 1.

Section Rows.
Context {R : Type} `{Columns R}.
(** [serde_json::to_string] of a column, [serde_json::to_vec] of the tables, and
    what [{:?}] escapes. *)
Context (column_json : DataColumn -> option str) (tables_json : list DataTable -> option bytes) (escapes : char -> bool)
  (sha256_hex : bytes -> str).
(** The endpoint's schema. *)
Context (schema : str).

Definition text (row : R) (i : nat) : result str str := ok_or (string_at row i) DB_ERROR.
Definition optional_text (row : R) (i : nat) : result (option str) str := ok_or (optional_string_at row i) DB_ERROR.
Definition integer (row : R) (i : nat) : result Z str := ok_or (integer_at I32 row i) DB_ERROR.
Definition is_value (n : Z) (row : R) (i : nat) : result bool str := let? x := integer row i in Ok (x =? n).
Definition debug_text (x : option str) : str := debug_option (Plan.debug_str escapes <$> x).

(** ** The facts *)

Record Facts : Type := mkFacts { f_major : Z; f_instance : str; f_database : str; f_read_only : bool; f_consistent : bool; f_owner : bool;
  f_permissions : bool; f_writable : bool }.
Definition read_facts (config_read_only : bool) (f : R) : result Facts str :=
  let? major := integer f 11 in
  let? version := text f 14 in
  let? level := text f 15 in
  let? engine := integer f 16 in
  if negb (server_version_verified major version level engine)
  then Err (u "unsupported_capability: SQL Server 数据任务支持 2017、2019、2022、2025 正式版本，不支持预发布或其他数据库引擎")
  else
    let? instance := text f 0 in
    let? database := text f 1 in
    let? updateability := text f 2 in
    let read_only := negb (str_eqb updateability (u "READ_WRITE")) || config_read_only in
    let? consistent := is_value 1 f 3 in
    let? owner := or_else (is_value 1 f 4) (is_value 1 f 5) in
    let? visible := and_also (or_else (Ok owner) (is_value 1 f 12)) (is_value 0 f 13) in
    if negb visible
    then Err (u "unsupported_capability: SQL Server 需要数据库级 VIEW DEFINITION，且当前用户及角色不能存在目录 DENY，才能验证外部外键和行级安全策略")
    else
      let? permissions := or_else (Ok owner) (and_also (is_value 1 f 6) (is_value 1 f 7)) in
      let? writable := or_else (Ok owner) (and_also (is_value 1 f 8) (and_also (is_value 1 f 9) (is_value 1 f 10))) in
      Ok (mkFacts major instance database read_only consistent owner permissions writable).

(** ** Columns *)

Definition width (row : R) (f : Z -> Z) : result str str :=
  let? n := integer row 5 in Ok (if n <? 0 then u "MAX" else show_Z (f n)).
Definition declared_type_of (base : str) (row : R) : result str str :=
  let? custom := integer row 15 in
  if negb (custom =? 0) then Ok (u "CUSTOM:" ++ base)
  else if one_of base ["NVARCHAR"; "NCHAR"]%string then let? n := width row (fun n => n / 2) in Ok (base ++ u "(" ++ n ++ u ")")
  else if one_of base ["VARCHAR"; "CHAR"; "VARBINARY"; "BINARY"]%string then let? n := width row (fun n => n) in Ok (base ++ u "(" ++ n ++ u ")")
  else if one_of base ["DECIMAL"; "NUMERIC"]%string then
    let? precision := integer row 6 in
    let? scale := integer row 7 in
    Ok (base ++ u "(" ++ show_Z precision ++ u "," ++ show_Z scale ++ u ")")
  else if one_of base ["DATETIME2"; "DATETIMEOFFSET"; "TIME"]%string then let? scale := integer row 7 in Ok (base ++ u "(" ++ show_Z scale ++ u ")")
  else Ok base.
(** A user table of the ordinary kind. *)
Definition is_physical (row : R) : result bool str :=
  and_also (let? kind := text row 1 in Ok (str_eqb (trim kind) (u "U")))
    (and_also (is_value 0 row 2) (and_also (is_value 0 row 19) (and_also (is_value 0 row 20) (is_value 0 row 21)))).
Definition load_column (owner : bool) (tables : gmap str DataTable) (row : R) : result (gmap str DataTable) str :=
  let? name := text row 0 in
  let? base := (let? t := text row 4 in Ok (to_ascii_uppercase t)) in
  let? declared := declared_type_of base row in
  let? physical := is_physical row in
  let t := default (mkTable name [] [] [] false physical) (tables !! name) in
  let? identity := is_value 1 row 12 in
  let? seed := optional_text row 16 in
  let? step := optional_text row 17 in
  let? altering := and_also (Ok identity) (or_else (Ok owner) (is_value 1 row 18)) in
  let safe := altering && is_some_and (fun s => str_eqb s (u "1")) step && is_some_and (in_range i128_min i128_max) seed in
  let? column := text row 3 in
  let? nullable := is_value 1 row 8 in
  let? default_sql := optional_text row 9 in
  let? generated := or_else (is_value 1 row 10) (or_else (let? n := integer row 11 in Ok (0 <? n)) (Ok (one_of base ["TIMESTAMP"; "ROWVERSION"]%string))) in
  let? pk := integer row 13 in
  let? collation := optional_text row 14 in
  let c := mkColumn column declared nullable default_sql generated (as_u32 pk) collation identity safe in
  let? kind := text row 1 in
  let? json := ok_or (column_json c) DB_ERROR in
  Ok (<[name := set_columns t (tb_create_sql t ++ kind ++ u ":" ++ json ++ u ":" ++ debug_text seed ++ u ":" ++ debug_text step ++ u ";")
                  (tb_columns t ++ [c])]> tables).

(** ** Foreign keys *)

Definition qualified (namespace name : str) : str := if str_eqb namespace schema then name else namespace ++ u "." ++ name.
Definition external_table (name : str) : DataTable := mkTable name [] [] [] false false.
Definition set_physical (t : DataTable) (physical : bool) : DataTable :=
  mkTable (tb_name t) (tb_create_sql t) (tb_columns t) (tb_foreign_keys t) (tb_enabled_user_triggers t) physical.
Abbreviation Keys := (gmap (str * str) DataForeignKey) (only parsing).
(** A table with a key that is disabled or not trusted is not copied. *)
Definition load_foreign_key (x : gmap str DataTable * Keys) (row : R) : result (gmap str DataTable * Keys) str :=
  let '(tables, fks) := x in
  let? child_schema := text row 0 in
  let? child_name := text row 1 in
  let child := qualified child_schema child_name in
  let? parent_schema := text row 3 in
  let? parent_name := text row 4 in
  let parent := qualified parent_schema parent_name in
  let t := default (external_table child) (tables !! child) in
  let? unsafe := or_else (let? n := integer row 9 in Ok (negb (n =? 0))) (let? n := integer row 10 in Ok (negb (n =? 0))) in
  let t := if unsafe then set_physical t false else t in
  let? name := text row 2 in
  let? on_update := text row 7 in
  let? on_delete := text row 8 in
  let fk := default (mkForeignKey [] parent [] (replace_char 95 [32] on_update) (replace_char 95 [32] on_delete)) (fks !! (child, name)) in
  let? from := text row 5 in
  let? to := text row 6 in
  Ok (<[child := t]> tables,
      <[(child, name) := mkForeignKey (fk_from_columns fk ++ [from]) (fk_parent_table fk) (fk_parent_columns fk ++ [to]) (fk_on_update fk)
                           (fk_on_delete fk)]> fks).
Definition key_cmp : str * str -> str * str -> comparison := cmp_then (cmp_on fst str_cmp) (cmp_on snd str_cmp).
(** [tables.get_mut(&name).unwrap()]: the table is there, see [keys_have_tables]. *)
Definition add_foreign_key (tables : gmap str DataTable) (entry : (str * str) * DataForeignKey) : gmap str DataTable :=
  alter (fun t => push_foreign_key t entry.2) entry.1.1 tables.
Definition add_foreign_keys (x : gmap str DataTable * Keys) : gmap str DataTable :=
  fold_left add_foreign_key (sort_by (cmp_on fst key_cmp) (map_to_list x.2)) x.1.

(** ** Triggers, indexes, checks *)

Definition update_table (f : DataTable -> result DataTable str) (tables : gmap str DataTable) (row : R) : result (gmap str DataTable) str :=
  let? name := text row 0 in
  match tables !! name with
  | None => Ok tables
  | Some t => let? t := f t in Ok (<[name := t]> tables)
  end.
Definition load_trigger (tables : gmap str DataTable) (row : R) : result (gmap str DataTable) str :=
  update_table (fun t =>
    let? disabled := integer row 2 in
    let? trigger := text row 1 in
    let? definition := optional_text row 3 in
    Ok (push_sql (with_triggers t (tb_enabled_user_triggers t || (disabled =? 0)))
          (u "trigger:" ++ trigger ++ u ":" ++ show_Z disabled ++ u ":" ++ debug_text definition ++ u ";"))) tables row.
Definition load_index (tables : gmap str DataTable) (row : R) : result (gmap str DataTable) str :=
  update_table (fun t =>
    let? name := optional_text row 1 in
    let? before := traverse (integer row) [2; 3; 4]%nat in
    let? filter := optional_text row 5 in
    let? after := traverse (integer row) [6; 7; 8]%nat in
    let? column := text row 9 in
    Ok (push_sql t (u "index:" ++ debug_text name ++ u ":" ++ join (u ":") (map show_Z before) ++ u ":" ++ debug_text filter ++ u ":"
                    ++ join (u ":") (map show_Z after) ++ u ":" ++ column ++ u ";"))) tables row.
Definition load_check (tables : gmap str DataTable) (row : R) : result (gmap str DataTable) str :=
  update_table (fun t =>
    let? name := text row 1 in
    let? definition := text row 2 in
    let? disabled := integer row 3 in
    let? untrusted := integer row 4 in
    Ok (push_sql t (u "check:" ++ name ++ u ":" ++ definition ++ u ":" ++ show_Z disabled ++ u ":" ++ show_Z untrusted ++ u ";"))) tables row.

(** ** The queries *)

Open Scope catalog_scope.

Definition facts_program (config_read_only : bool) : Catalog R (option Z) Facts :=
  ask! rows := facts_sql, [schema] with db_error in
  Done (let? facts := ok_or (head rows) DB_ERROR in read_facts config_read_only facts).
Definition tables_program (major : Z) (owner : bool) : Catalog R (option Z) (list DataTable) :=
  ask! columns := column_metadata_sql major, [schema] with db_error in
  if 100000 <? zlen columns then Done (Err (u "resource_limit: SQL Server schema 元数据超过预算"))
  else
    try! tables := SqliteAdapter.fold_rows (load_column owner) ∅ columns in
    ask! keys := foreign_keys_sql, [schema] with db_error in
    try! x := SqliteAdapter.fold_rows load_foreign_key (tables, ∅) keys in
    let tables := add_foreign_keys x in
    ask! triggers := triggers_sql, [schema] with db_error in
    try! tables := SqliteAdapter.fold_rows load_trigger tables triggers in
    ask! indexes := indexes_sql, [schema] with db_error in
    try! tables := SqliteAdapter.fold_rows load_index tables indexes in
    ask! checks := checks_sql, [schema] with db_error in
    Done (let? tables := SqliteAdapter.fold_rows load_check tables checks in Ok (into_values tables)).
(** No enabled security policy has a predicate on the schema's tables. *)
Definition policies_program : Catalog R (option Z) bool :=
  ask! rows := policies_sql, [schema] with db_error in
  Done (Ok (is_some_and (fun row => bool_decide (integer_at I64 row 0 = Some 0)) (head rows))).
(** The facts, the tables and the metadata. *)
Definition metadata_program (config_read_only : bool) (fingerprint : str) : Catalog R (option Z) (Facts * DataMetadataSnapshot) :=
  and_then (facts_program config_read_only) (fun f =>
  and_then (tables_program (f_major f) (f_owner f)) (fun tables =>
  and_then policies_program (fun no_rls =>
    Done (let? json := ok_or (tables_json tables) DB_ERROR in
          Ok (f, mkMetadata SqlServer tables (f_read_only f) (f_permissions f && no_rls) (f_consistent f) (f_writable f && negb (f_read_only f))
                   (sha256_hex json) fingerprint))))).

(** ** Every statement reads *)

Definition catalog_sql (major : Z) : list str := [column_metadata_sql major; foreign_keys_sql; triggers_sql; indexes_sql; checks_sql].
Lemma mssql_sql_reads major : Forall read_statement (facts_sql :: policies_sql :: catalog_sql major).
Proof.
  apply list.Forall_forall. intros sql. unfold catalog_sql. rewrite !elem_of_cons.
  intros [->|[->|[->|[->|[->|[->|[->|[]%elem_of_nil]]]]]]]; left; try (apply starts_with_app); vm_compute; reflexivity.
Qed.
Lemma mssql_tables_asks major owner : asks (fun sql => read_statement sql /\ sql ∈ catalog_sql major) (tables_program major owner).
Proof.
  pose proof (mssql_sql_reads major) as F. unfold catalog_sql in F. rewrite !list.Forall_cons in F. destruct F as (_ & _ & F1 & F2 & F3 & F4 & F5 & _).
  unfold tables_program. split; [split; [done|by left]|]. intros columns. destruct (_ <? _); [done|].
  destruct (SqliteAdapter.fold_rows (load_column owner) _ columns) as [tables|]; [|exact I]. split; [split; [done|right; by left]|].
  intros keys. destruct (SqliteAdapter.fold_rows load_foreign_key _ keys); [|exact I]. split; [split; [done|do 2 right; by left]|].
  intros triggers. destruct (SqliteAdapter.fold_rows load_trigger _ triggers); [|exact I]. split; [split; [done|do 3 right; by left]|].
  intros indexes. destruct (SqliteAdapter.fold_rows load_index _ indexes); [|exact I]. split; [split; [done|do 4 right; by left]|]. done.
Qed.
Lemma mssql_metadata_asks read_only fingerprint : asks read_statement (metadata_program read_only fingerprint).
Proof.
  assert (F : forall major, Forall read_statement (facts_sql :: policies_sql :: catalog_sql major)) by apply mssql_sql_reads.
  pose proof (F 0) as F0. rewrite !list.Forall_cons in F0. destruct F0 as (F1 & F2 & _). unfold metadata_program.
  apply asks_and_then; [by split|]. intros f. apply asks_and_then.
  { eapply asks_weaken; [|apply mssql_tables_asks]. by intros sql []. }
  intros tables. apply asks_and_then; [by split|done].
Qed.

(** ** The foreign keys found have their tables *)

Lemma keys_have_tables rows tables x : SqliteAdapter.fold_rows load_foreign_key (tables, ∅) rows = Ok x ->
  forall child name, is_Some (x.2 !! (child, name)) -> is_Some (x.1 !! child).
Proof.
  assert (G : forall rows x y, (forall child name, is_Some (x.2 !! (child, name)) -> is_Some (x.1 !! child)) ->
    SqliteAdapter.fold_rows load_foreign_key x rows = Ok y -> forall child name, is_Some (y.2 !! (child, name)) -> is_Some (y.1 !! child)).
  { clear. induction rows as [|row rows IH]; intros x y I; cbn [SqliteAdapter.fold_rows]; [by intros X%Ok_inj; subst|].
    intros X. apply rbind_ok_inv in X as (z & Z & X). eapply IH; [|exact X]. clear X IH. destruct x as [t k]. unfold load_foreign_key in Z.
    inv_ok. intros child name. cbn [fst snd] in *. intros L.
    apply lookup_insert_is_Some'. apply lookup_insert_is_Some' in L as [E|L]; [left; by injection E|right; by eapply I]. }
  apply G. cbn [fst snd]. intros child name [? L%lookup_empty_Some]. done.
Qed.

End Rows.
End SqlServerCatalog.
