(* ===== verification/SqlServerChannel.v ===== *)
(** The session of the SQL Server channel ([SqlServerSession] of
    src-tauri/src/db/data_tasks/adapters/sqlserver.rs): locking the target,
    loading its metadata, streaming a snapshot, writing under IDENTITY_INSERT,
    committing, which is shown to be the transactional session that the
    orchestration relies on. *)
From S2P Require Import Prelude RustText DataTypes MetaTypes Values Spool SpoolSort TypeMapping Metadata Plan Batch Executor.
From S2P Require Import Execution SqliteAdapter WireRows NetworkChannel SqlServerWire SqlServerCatalog.
Import DataTypes MetaTypes Values Spool SpoolSort TypeMapping Metadata Batch Executor Execution WireRows NetworkChannel SqlServerWire
  SqlServerCatalog.

Module SqlServerChannel.

(** ** The driver *)

(** An error has the code of the server's message, if it came from there. *)
Abbreviation Code := (option Z) (only parsing).
Record Client (W R : Type) : Type := mkClient {
  (** [simple_query] and [into_results]. *)
  batch : str -> W -> result unit Code * W;
  query : str -> list str -> W -> result (list R) Code * W;
  (** The rows until the end ([None]) or an error. *)
  simple_query : str -> W -> result (list R * option Code) Code * W;
  (** [execute] and [total]. *)
  execute : str -> list Bound -> W -> result Z Code * W;
  (** Dropping the client. *)
  disconnect : W -> W;
}.
Arguments batch {W R}. Arguments query {W R}. Arguments simple_query {W R}. Arguments execute {W R}. Arguments disconnect {W R}.

(** ** The session *)

(** The fields that change; [connected] is [client.is_some()]. *)
Record Session : Type := mkSession {
  connected : bool; s_metadata : option DataMetadataSnapshot; s_identity : option EndpointIdentity; cleanup_errors : list str }.
Definition set_connected (s : Session) (b : bool) : Session := mkSession b (s_metadata s) (s_identity s) (cleanup_errors s).
Definition set_errors (s : Session) (l : list str) : Session := mkSession (connected s) (s_metadata s) (s_identity s) l.
Definition set_loaded (s : Session) (i : EndpointIdentity) (m : DataMetadataSnapshot) : Session :=
  mkSession (connected s) (Some m) (Some i) (cleanup_errors s).

Definition closed_error : str := u "SQL Server 专属会话已关闭，事务结果需要核对".
Definition cancelled_error : str := u "cancelled: 数据任务已取消".
Definition interrupted_error : str := u "cancelled: SQL Server 集合流已取消，专属物理会话已关闭".
Definition unrestored_error : str := u "SQL Server identity 会话状态恢复失败，已拒绝提交".
Definition read_sql : str := u "SET TRANSACTION ISOLATION LEVEL SNAPSHOT; BEGIN TRANSACTION;".
Definition rollback_sql : str := u "IF @@TRANCOUNT>0 ROLLBACK TRANSACTION".

(** ** Writing a batch: the parameters' types, the identity columns *)

Definition parameter_type (batch : WriteBatch) (t : DataTable) (index : nat) : result str str :=
  ok_or (name ← wb_columns batch !! index; dc_declared_type <$> find_column (tb_columns t) name)
    (u "invalid_mapping: SQL Server 参数没有对应目标字段").
Definition bound (metadata : option DataMetadataSnapshot) (batch : WriteBatch) : result (list Bound) str :=
  let? t := ok_or (metadata ≫= fun m => find_table (md_tables m) (wb_table batch)) (u "invalid_mapping: 缺少 SQL Server 绑定元数据") in
  let? declared := traverse (parameter_type batch t) (wb_parameter_columns batch) in
  traverse (fun x => bind x.1 x.2) (zip (wb_params batch) declared).
Definition writes_identity (metadata : option DataMetadataSnapshot) (batch : WriteBatch) : bool :=
  bool_decide (wb_kind batch = Insert)
  && is_some_and (fun t => existsb (fun c => dc_identity c && bool_decide (dc_name c ∈ wb_columns batch)) (tb_columns t))
       (metadata ≫= fun m => find_table (md_tables m) (wb_table batch)).

Section Channel.
Context {W R : Type} `{Columns R} (env : Environment W) (layout : Layout) (b : ResourceBudget).
Context (sleep fetch : W -> W) (deliver : CanonicalRow -> W -> bool * W) (interrupted in_time : W -> bool).
Context (column_json : DataColumn -> option str) (tables_json : list DataTable -> option bytes) (escapes : char -> bool)
  (sha256_hex : bytes -> str).
Context (parse_fields : str -> option (list (str * option str))) (parse_f64 : str -> option Z) (parse_uuid : str -> option bytes).
Context (c : Client W R) (state : W -> Session) (set_state : Session -> W -> W).
(** The endpoint's schema, and what the configuration says. *)
Context (schema : str) (config_read_only : bool) (fingerprint : str).

Definition update (f : Session -> Session) (w : W) : W := set_state (f (state w)) w.
(** [checked(&self.cancel)?], [self.connection()?] *)
Definition checking {A : Type} (f : W -> result A str * W) (w : W) : result A str * W :=
  if e_cancelled env w then (Err cancelled_error, w) else f w.
Definition connection {A : Type} (f : W -> result A str * W) (w : W) : result A str * W :=
  if connected (state w) then f w else (Err closed_error, w).
Definition command (sql : str) : W -> result unit str * W :=
  connection (fun w => let '(r, w) := batch c sql w in (map_err db_error r, w)).

Definition session_begin_read : W -> result unit str * W := checking (command read_sql).
Definition session_begin_protected_write (tables : list str) : W -> result unit str * W :=
  checking (fun w =>
    if config_read_only then (Err (u "read_only_target: SQL Server 目标连接只读"), w)
    else match protected_write_sql schema tables with Err e => (Err e, w) | Ok sql => command sql w end).
Definition identity_of (f : Facts) : EndpointIdentity :=
  mkIdentity SqlServer (Some (f_instance f)) (f_database f ++ u "." ++ schema) None.
Definition session_load_metadata : W -> result DataMetadataSnapshot str * W :=
  checking (connection (fun w =>
    match run (query c) (metadata_program column_json tables_json escapes sha256_hex schema config_read_only fingerprint) w with
    | (Ok (facts, m), w) => (Ok m, update (fun s => set_loaded s (identity_of facts) m) w)
    | (Err e, w) => (Err e, w)
    end)).

(** A row of the snapshot: the table's index and the payload. *)
Definition item (projections : list Projection) (row : R) : Item :=
  let? index := integer row 0 in
  let? p := ok_or (get_index projections index) (u "SQL Server 集合表序号无效") in
  let? payload := text row 1 in
  Ok (sat_mul (str_len payload) 3, decode_payload parse_fields parse_f64 parse_uuid (pj_output_table p) (pj_key_indices p) payload).
Definition session_stream_rows (polls : nat) (projections : list Projection) (w : W) : Rows * result Z str * W :=
  if e_cancelled env w then ([], Err cancelled_error, w)
  else
    match (let? m := ok_or (s_metadata (state w)) (u "invalid_mapping: 必须先批量读取 SQL Server 元数据") in snapshot_sql schema projections m) with
    | Err e => ([], Err e, w)
    | Ok sql =>
      if negb (connected (state w)) then ([], Err DB_ERROR, w)
      else
        let '(rows, r, w) :=
          (let '(q, w) := simple_query c sql w in
           match q with
           | Err e => ([], Err (db_error e), w)
           | Ok (rows, fault) =>
             forward_rows env layout b sleep deliver fetch interrupted (item projections) polls (Some interrupted_error) None
               (fun e => e) (from_option db_error [] fault) rows (bool_decide (fault = None)) [] w
           end) in
        (** A cancelled session does not come back. *)
        let w := if e_cancelled env w then update (fun s => set_connected s false) (disconnect c w) else w in
        (rows, r, w)
    end.

Definition identity_sql (table mode : str) : str := u "SET IDENTITY_INSERT " ++ id schema ++ u "." ++ id table ++ u " " ++ mode.
Definition execute_bound (sql : str) (l : list Bound) : W -> result Z str * W :=
  connection (fun w => let '(n, w) := execute c sql l w in (map_err db_error n, w)).
(** The setting is switched off whatever the insertion did; a batch that leaves
    it on fails. *)
Definition execute_identity (table sql : str) (l : list Bound) (w : W) : result Z str * W :=
  match command (identity_sql table (u "ON")) w with
  | (Err e, w) => (Err e, w)
  | (Ok _, w) =>
    let '(r, w) := execute_bound sql l w in
    match command (identity_sql table (u "OFF")) w with
    | (Ok _, w) => (r, w)
    | (Err e, w) =>
      let w := update (fun s => set_errors s (cleanup_errors s ++ [e])) w in
      match r with Ok _ => (Err unrestored_error, w) | Err e => (Err e, w) end
    end
  end.
Definition session_write_batch (x : WriteBatch) : W -> result Z str * W :=
  checking (fun w =>
    match bound (s_metadata (state w)) x with
    | Err e => (Err e, w)
    | Ok l =>
      if writes_identity (s_metadata (state w)) x then execute_identity (wb_table x) (wb_sql x) l w else execute_bound (wb_sql x) l w
    end).
Definition delete_sql (table : str) : str := u "DELETE FROM " ++ id schema ++ u "." ++ id table.
Definition session_delete_all (table : str) : W -> result Z str * W := checking (execute_bound (delete_sql table) []).

Fixpoint check_generators (tables : list DataTable) (mapping : list ValidatedTableMapping) : result unit str :=
  match mapping with
  | [] => Ok tt
  | m :: mapping =>
    let? t := ok_or (find_table tables (vt_target_table m)) (u "SQL Server 生成器表不存在") in
    if existsb (fun c => dc_identity c && negb (dc_generator_safe c)) (tb_columns t)
    then Err (u "unsupported_capability: SQL Server identity 权限或递增规则不安全") else check_generators tables mapping
  end.
Definition session_maintain_generators (mapping : list ValidatedTableMapping) : W -> result unit str * W :=
  checking (fun w => ((let? m := ok_or (s_metadata (state w)) (u "SQL Server 缺少生成器元数据") in check_generators (md_tables m) mapping), w)).

Definition session_commit : W -> result unit str * W := command (u "COMMIT TRANSACTION").
Definition session_rollback : W -> result unit str * W := command rollback_sql.
Definition sqlserver_session (polls : nat) : DataSession W := {|
  supports_transaction _ := true;
  endpoint_identity w := s_identity (state w);
  take_cleanup_errors w := (cleanup_errors (state w), update (fun s => set_errors s []) w);
  dialect := DSqlServer;
  begin_read := session_begin_read;
  begin_protected_write := session_begin_protected_write;
  load_metadata := session_load_metadata;
  Execution.stream_rows := session_stream_rows polls;
  write_batch := session_write_batch;
  delete_all := session_delete_all;
  maintain_generators := session_maintain_generators;
  commit := SqliteAdapter.timed in_time session_commit;
  rollback := session_rollback;
  rollback_in_time := SqliteAdapter.timed in_time session_rollback;
|}.
End Channel.

(** ** What SQL Server documents *)

Section Laws.
Context {W D R : Type} `{Columns R} (env : Environment W) (layout : Layout) (b : ResourceBudget).
Context (sleep fetch : W -> W) (deliver : CanonicalRow -> W -> bool * W) (interrupted in_time : W -> bool).
Context (column_json : DataColumn -> option str) (tables_json : list DataTable -> option bytes) (escapes : char -> bool)
  (sha256_hex : bytes -> str).
Context (parse_fields : str -> option (list (str * option str))) (parse_f64 : str -> option Z) (parse_uuid : str -> option bytes).
Context (c : Client W R) (state : W -> Session) (set_state : Session -> W -> W).
Context (schema : str) (config_read_only : bool) (fingerprint : str).
(** The committed state, what the session sees, whether a transaction with its
    locks is open; the answers of the catalog and of a snapshot query; the
    server's version and whether the user owns the database. *)
Context (db work : W -> D) (tx : W -> bool).
Context (answers : D -> str -> list str -> list R) (selects : D -> str -> list R) (major : Z) (owner : bool).

Definition schema_of (d : D) : result (list DataTable) str := eval (answers d) (tables_program column_json escapes schema major owner).
Definition known (s : Session) : option (list DataTable) := md_tables <$> s_metadata s.
Abbreviation open := (open_session work tx state known schema_of) (only parsing).
Abbreviation obs := (observed db work tx) (only parsing).

(** The rows of a state as the session reads them. *)
Definition sqlserver_content (d : D) (ps : list Projection) : Rows :=
  match (let? tables := schema_of d in snapshot_of schema ps tables) with
  | Ok sql => omap (fun row => decoded_of (item parse_fields parse_f64 parse_uuid ps row)) (selects d sql)
  | Err _ => []
  end.

(** A serializable transaction that has locked its tables sees the committed
    state and keeps others out; inside it statements change only the session's
    state, and data statements no table's definition; switching
    IDENTITY_INSERT changes no data; COMMIT publishes the session's state or
    nothing; ROLLBACK and losing the connection publish nothing; queries read
    the session's state; version and role do not change. *)
Class SqlServerLaws : Prop := {
  sl_lock tables sql w r w' : protected_write_sql schema tables = Ok sql -> tx w = false -> batch c sql w = (r, w') ->
    db w' = db w /\ (r = Ok tt -> work w' = db w' /\ tx w' = true);
  sl_commit w r w' : tx w = true -> batch c (u "COMMIT TRANSACTION") w = (r, w') ->
    (r = Ok tt -> db w' = work w) /\ (db w' = db w \/ db w' = work w);
  sl_rollback w r w' : batch c rollback_sql w = (r, w') -> db w' = db w;
  sl_identity table mode w r w' : mode = u "ON" \/ mode = u "OFF" -> batch c (identity_sql schema table mode) w = (r, w') ->
    db w' = db w /\ (r = Ok tt -> obs w' = obs w);
  sl_execute sql l w r w' : data_statement sql = true -> tx w = true -> execute c sql l w = (r, w') ->
    db w' = db w /\ (forall n, r = Ok n -> tx w' = true /\ schema_of (work w') = schema_of (work w));
  sl_query :: QueryLaws db work tx (query c);
  sl_answers sql arguments w rows w' : sql ∈ catalog_sql major -> tx w = true -> query c sql arguments w = (Ok rows, w') ->
    rows = answers (work w) sql arguments;
  sl_facts w w' f rows : query c facts_sql [schema] w = (Ok (f :: rows), w') ->
    integer_at I32 f 11 = Some major /\ or_else (is_value 1 f 4) (is_value 1 f 5) = Ok owner;
  sl_stream sql w r w' : read_statement sql -> tx w = true -> simple_query c sql w = (r, w') ->
    db w' = db w /\ forall rows fault, r = Ok (rows, fault) -> obs w' = obs w /\ (fault = None -> rows ≡ₚ selects (work w) sql);
  sl_disconnect w : db (disconnect c w) = db w;
  sl_fields :: FieldLaws parse_fields parse_f64 parse_uuid;
}.
(** The driver's calls do not touch the session's fields. *)
Class SqlServerFrame : Prop := {
  sf_batch sql w r w' : batch c sql w = (r, w') -> state w' = state w;
  sf_query sql arguments w r w' : query c sql arguments w = (r, w') -> state w' = state w;
  sf_stream sql w r w' : simple_query c sql w = (r, w') -> state w' = state w;
  sf_execute sql l w r w' : execute c sql l w = (r, w') -> state w' = state w;
  sf_disconnect w : state (disconnect c w) = state w;
  sf_sticky w : e_cancelled env w = true -> e_cancelled env (disconnect c w) = true;
}.
Context `{!SqlServerLaws, !SqlServerFrame, !Frame env db work tx state set_state sleep fetch deliver,
  !Neutral env db work tx, !SqliteAdapter.Quiet db work tx sleep deliver}.

Lemma mssql_update_obs f w : obs (update state set_state f w) = obs w.
Proof. apply (frame_set env db work tx state set_state sleep fetch deliver). Qed.
Lemma mssql_update_get f w : state (update state set_state f w) = f (state w).
Proof. apply (frame_get env db work tx state set_state sleep fetch deliver). Qed.
Lemma mssql_update_db f w : db (update state set_state f w) = db w.
Proof. pose proof (mssql_update_obs f w) as E. by injection E. Qed.

(** *** Reading the schema *)

Lemma facts_checked w f w' : run (query c) (facts_program schema config_read_only) w = (Ok f, w') -> f_major f = major /\ f_owner f = owner.
Proof.
  unfold facts_program. cbn [run]. destruct (query c facts_sql [schema] w) as [[rows|e] w1] eqn:Q; [|done].
  intros X. apply pair_equal_spec in X as [X _]. destruct rows as [|facts rows]; [done|]. apply sl_facts in Q as [Qm Qo].
  cbn [head ok_or rbind] in X. unfold read_facts in X. unfold integer at 1 in X. rewrite Qm in X. cbn [ok_or rbind] in X.
  do 3 (apply rbind_ok_inv in X as (? & _ & X)). destruct (negb _); [done|]. do 3 (apply rbind_ok_inv in X as (? & _ & X)).
  apply rbind_ok_inv in X as (? & _ & X). rewrite Qo in X. cbn [rbind] in X. apply rbind_ok_inv in X as (? & _ & X).
  destruct (negb _); [done|]. do 2 (apply rbind_ok_inv in X as (? & _ & X)). by apply Ok_inj in X as <-.
Qed.

Abbreviation program := (metadata_program column_json tables_json escapes sha256_hex schema config_read_only fingerprint) (only parsing).
Lemma mssql_metadata_tables w facts m w' : tx w = true -> run (query c) program w = (Ok (facts, m), w') -> schema_of (work w) = Ok (md_tables m).
Proof.
  intros T. unfold metadata_program. rewrite run_and_then.
  destruct (run (query c) (facts_program schema config_read_only) w) as [[f|e] w1] eqn:Rf; [|done].
  assert (A1 : asks read_statement (facts_program (R := R) schema config_read_only)).
  { pose proof (mssql_sql_reads 0) as F. apply list.Forall_cons in F as [F _]. by split. }
  destruct (run_reads db work tx (query c) _ _ _ _ A1 T Rf) as [_ E1]. specialize (E1 f eq_refl). injection E1 as _ E1 E2.
  apply facts_checked in Rf as [Mf Of]. rewrite Mf, Of. rewrite run_and_then.
  destruct (run (query c) (tables_program column_json escapes schema major owner) w1) as [[tables|e] w2] eqn:Rt; [|done].
  assert (S : schema_of (work w1) = Ok tables).
  { eapply (run_eval db work tx answers (query c) (fun sql => sql ∈ catalog_sql major)); [apply sl_answers|apply mssql_tables_asks|congruence|exact Rt]. }
  rewrite E1 in S. rewrite S. rewrite run_and_then. destruct (run (query c) (policies_program schema) w2) as [[no_rls|e] w3]; [|done].
  cbn [run]. intros X. apply pair_equal_spec in X as [X _]. apply rbind_ok_inv in X as (json & _ & X). apply Ok_inj in X.
  apply pair_equal_spec in X as [_ <-]. done.
Qed.

Abbreviation sqlserver polls := (sqlserver_session env layout b sleep fetch deliver interrupted in_time column_json tables_json escapes
  sha256_hex parse_fields parse_f64 parse_uuid c state set_state schema config_read_only fingerprint polls) (only parsing).

Lemma mssql_load_metadata_reads : reads db work open (session_load_metadata env column_json tables_json escapes sha256_hex c
  state set_state schema config_read_only fingerprint).
Proof.
  intros w r w' O. destruct (open_inv _ _ _ _ _ _ O) as [T _]. unfold session_load_metadata, checking, connection.
  destruct (e_cancelled env w); [by intros [= <- <-]|]. destruct (connected (state w)); [|by intros [= <- <-]].
  destruct (run _ _ w) as [[[facts m]|e] w1] eqn:Rn;
    destruct (run_reads db work tx (query c) _ _ _ _ (mssql_metadata_asks _ _ _ _ _ _ _) T Rn) as [E1 X]; intros [= <- <-]; [|by split].
  pose proof (mssql_metadata_tables _ _ _ _ T Rn) as S. specialize (X _ eq_refl).
  pose proof (mssql_update_obs (fun s => set_loaded s (identity_of schema facts) m) w1) as U. rewrite X in U.
  injection U as U1 U2 U3. split; [congruence|]. intros _ _. unfold observed. rewrite U1, U2, O. f_equal.
  apply open_intro; [congruence|]. rewrite mssql_update_get, U2. by intros tables [= <-].
Qed.

(** *** Streaming *)

Lemma mssql_snapshot_select ps tables sql : snapshot_of schema ps tables = Ok sql -> read_statement sql.
Proof.
  unfold snapshot_of. destruct (_ || _) eqn:E; [done|]. apply orb_false_iff in E as [E _]. intros X.
  apply rbind_ok_inv in X as (parts & T & X). destruct (_ <? _); [done|]. apply Ok_inj in X as <-.
  eapply union_reads; [|exact E|exact T]. intros i p s Fs. unfold select_sql in Fs. apply rbind_ok_inv in Fs as (t & _ & Fs).
  destruct (is_empty (pj_columns p)); [done|]. apply rbind_ok_inv in Fs as (frames & _ & Fs). apply Ok_inj in Fs as <-.
  apply starts_with_app. vm_compute. reflexivity.
Qed.

Lemma mssql_item_typed ps row x : Forall fits ps -> decoded_of (item parse_fields parse_f64 parse_uuid ps row) = Some x -> streamed x.
Proof.
  intros F. unfold item. destruct (integer row 0) as [index|]; [|done]. cbn [rbind]. destruct (get_index ps index) as [p|] eqn:P; [|done].
  cbn [ok_or rbind]. destruct (text row 1) as [payload|]; [|done]. cbn [rbind decoded_of].
  destruct (decode_payload _ _ _ _ _ payload) as [r|e] eqn:Dp; [|done]. intros [= <-].
  assert (Hp : p ∈ ps) by (unfold get_index in P; destruct (index <? 0); [done|by eapply list_elem_of_lookup_2]).
  rewrite list.Forall_forall in F. destruct (F p Hp) as (Wt & Lt & Lk). by eapply (sqlserver_payload_typed parse_fields parse_f64 parse_uuid).
Qed.

Lemma mssql_stream_obs polls ps w rows r w' : open w = true ->
  session_stream_rows env layout b sleep fetch deliver interrupted parse_fields parse_f64 parse_uuid c state set_state schema polls ps w
    = (rows, r, w') ->
  db w' = db w /\ (forall n, r = Ok n -> observed db work open w' = observed db work open w \/ e_cancelled env w' = true) /\
  forall n, r = Ok n -> rows ≡ₚ sqlserver_content (work w) ps.
Proof.
  intros O. destruct (open_inv _ _ _ _ _ _ O) as [T K]. unfold session_stream_rows. destruct (e_cancelled env w); [by intros [= <- <- <-]|].
  destruct (rbind _ _) as [sql|e] eqn:Q; [|by intros [= <- <- <-]]. apply rbind_ok_inv in Q as (m & M%ok_or_ok_inv & Q).
  assert (S : schema_of (work w) = Ok (md_tables m)) by (apply K; unfold known; by rewrite M).
  destruct (negb _); [by intros [= <- <- <-]|]. destruct (simple_query c sql w) as [q w1] eqn:I.
  pose proof (sf_stream _ _ _ _ I) as S1. apply sl_stream in I as [E1 X1]; [|by eapply mssql_snapshot_select|done].
  set (inner := match q with Ok _ => _ | Err _ => _ end). destruct inner as [[rows0 r0] w2] eqn:L. subst inner.
  assert (G : db w2 = db w /\ (forall n, r0 = Ok n -> observed db work open w2 = observed db work open w) /\
    forall n, r0 = Ok n -> rows0 ≡ₚ sqlserver_content (work w) ps).
  { destruct q as [[cells fault]|]; [|by injection L as <- <- <-]. destruct (X1 cells fault eq_refl) as [E2 P].
    pose proof (neutral_open env db work tx state set_state known schema_of sleep fetch deliver).
    pose proof (quiet_open env db work tx state set_state known schema_of sleep fetch deliver).
    pose proof (fetch_open env db work tx state set_state known schema_of sleep fetch deliver) as Fo.
    apply (forward_rows_obs env db work open layout b sleep fetch deliver interrupted Fo) in L as (E3 & _ & C).
    pose proof (observed_open db work tx state known schema_of _ _ E2 S1) as E4. rewrite E4 in E3. split; [by injection E3|].
    split; [done|]. intros n Hn. destruct (C n Hn) as (Cc%bool_decide_eq_true_1 & -> & _). unfold sqlserver_content. rewrite S. cbn [rbind app].
    unfold snapshot_sql in Q. rewrite Q. by rewrite (P Cc). }
  destruct G as (G1 & G2 & G3). destruct (e_cancelled env w2) eqn:Cn; intros [= <- <- <-].
  - rewrite mssql_update_db, sl_disconnect. split; [done|]. split; [|done]. intros n Hn. right.
    by apply (frame_sticky env db work tx state set_state sleep fetch deliver), sf_sticky.
  - split; [done|]. split; [|done]. intros n Hn. left. by eapply G2.
Qed.

(** *** Writing and ending *)

Lemma command_inv sql w r w' : command c state sql w = (r, w') ->
  (exists e, r = Err e) /\ w' = w \/ exists x, batch c sql w = (x, w') /\ (r = Ok tt -> x = Ok tt).
Proof.
  unfold command, connection. destruct (connected _); [|intros [= <- <-]; left; eauto].
  destruct (batch c sql w) as [x w1]. intros [= <- <-]. right. exists x. split; [done|]. by destruct x as [[]|].
Qed.
Lemma identity_inv table mode w r w' : mode = u "ON" \/ mode = u "OFF" -> command c state (identity_sql schema table mode) w = (r, w') ->
  db w' = db w /\ state w' = state w /\ (r = Ok tt -> obs w' = obs w).
Proof.
  intros M [([e ->] & ->)|(x & B & X)]%command_inv; [done|]. pose proof (sf_batch _ _ _ _ B) as S. apply sl_identity in B as [B1 B2]; [|done].
  split_and!; [done..|]. intros Hr. by apply B2, X.
Qed.
(** A data statement keeps the session open and its fields. *)
Lemma execute_bound_inv sql l w r w' : data_statement sql = true -> open w = true -> execute_bound c state sql l w = (r, w') ->
  db w' = db w /\ state w' = state w /\ forall n, r = Ok n -> open w' = true.
Proof.
  intros Ds O. destruct (open_inv _ _ _ _ _ _ O) as [T K]. unfold execute_bound, connection. destruct (connected _); [|by intros [= <- <-]].
  destruct (execute c sql l w) as [n w1] eqn:E. pose proof (sf_execute _ _ _ _ _ E) as S. apply sl_execute in E as [E1 E2]; [|done..].
  intros [= <- <-]. split_and!; [done..|]. intros x Hx. destruct n as [n|]; [|done]. destruct (E2 n eq_refl) as [T1 S1].
  apply open_intro; [done|]. rewrite S, S1. exact K.
Qed.
Lemma same_open w w' : obs w' = obs w -> state w' = state w -> open w = true -> open w' = true.
Proof. intros E S O. pose proof (observed_open db work tx state known schema_of _ _ E S) as X. injection X as _ _ X. by rewrite X. Qed.
Lemma execute_identity_inside table sql l : data_statement sql = true ->
  inside db open (execute_identity c state set_state schema table sql l).
Proof.
  intros Ds w r w' O. unfold execute_identity. destruct (command _ _ _ w) as [[[]|e] w1] eqn:On;
    apply identity_inv in On as (D1 & S1 & E1); [|by left| |by left].
  2: { intros [= <- <-]. by split. }
  specialize (E1 eq_refl). pose proof (same_open _ _ E1 S1 O) as O1.
  destruct (execute_bound _ _ _ _ w1) as [n w2] eqn:Ex. apply execute_bound_inv in Ex as (D2 & S2 & O2); [|done..].
  destruct (command _ _ _ w2) as [[[]|e] w3] eqn:Off; apply identity_inv in Off as (D3 & S3 & E3); [|by right| |by right].
  - intros [= <- <-]. split; [congruence|]. intros x Hx. eapply same_open; [by apply E3|done|by eapply O2].
  - intros X. assert (Y : db w' = db w3 /\ exists e, r = Err e).
    { destruct n; injection X as <- <-; (split; [apply mssql_update_db|eauto]). }
    destruct Y as [Y [e' ->]]. split; [congruence|discriminate].
Qed.

(** A successful insertion of identity values ends with the setting off. *)
Lemma identity_setting_restored x w n w' : writes_identity (s_metadata (state w)) x = true ->
  session_write_batch env c state set_state schema x w = (Ok n, w') ->
  exists w1, batch c (identity_sql schema (wb_table x) (u "OFF")) w1 = (Ok tt, w').
Proof.
  intros I. unfold session_write_batch, checking. destruct (e_cancelled env w); [done|]. destruct (bound _ x) as [l|e]; [|done].
  rewrite I. unfold execute_identity. destruct (command _ _ _ w) as [[[]|e] w1]; [|done].
  destruct (execute_bound _ _ _ _ w1) as [m w2]. destruct (command _ _ _ w2) as [[[]|e] w3] eqn:Off; [|by destruct m].
  intros [= -> <-]. exists w2. apply command_inv in Off as [([? ?] & _)|(y & Y & Hy)]; [done|]. by rewrite (Hy eq_refl) in Y.
Qed.

Lemma sqlserver_transactional polls : Transactional env db work open sqlserver_content (idle_session tx state known) (sqlserver polls).
Proof.
  assert (B : forall ts w r w', idle_session tx state known w -> begin_protected_write (sqlserver 0) ts w = (r, w') ->
    db w' = db w /\ (r = Ok tt -> work w' = db w' /\ open w' = true)).
  { intros ts w r w' [T Kn]. cbn [sqlserver_session begin_protected_write]. unfold session_begin_protected_write, checking.
    destruct (e_cancelled env w); [by intros [= <- <-]|]. destruct config_read_only; [by intros [= <- <-]|].
    destruct (protected_write_sql schema ts) as [sql|e] eqn:P; [|by intros [= <- <-]].
    intros [([e ->] & ->)|(x & X & Hx)]%command_inv; [done|]. pose proof (sf_batch _ _ _ _ X) as S.
    destruct (sl_lock _ _ _ _ _ P T X) as [E1 E2]. split; [done|]. intros Hr. destruct (E2 (Hx Hr)) as [E3 E4]. split; [done|].
    apply open_intro; [done|]. rewrite S, Kn. done. }
  split.
  - intros ts w r w' I X. by apply (B ts) in X as [E _].
  - intros ts w w' I X. apply (B ts) in X as [_ E]; [|done]. by apply E.
  - apply mssql_load_metadata_reads.
  - intros ps w rows r w' O Hs. cbn [sqlserver_session Execution.stream_rows] in Hs. apply mssql_stream_obs in Hs as (E1 & E2 & _); done.
  - intros ps w rows n w' O F Hs. cbn [sqlserver_session Execution.stream_rows] in Hs.
    apply mssql_stream_obs in Hs as (_ & _ & E); [|done]. specialize (E n eq_refl). split; [|done]. rewrite E.
    apply list.Forall_forall. intros x Hx. unfold sqlserver_content in Hx. destruct (rbind _ _); [|by apply elem_of_nil in Hx].
    apply list_elem_of_omap in Hx as (row & _ & Hx). by eapply mssql_item_typed.
  - intros x Dx w r w' O. cbn [sqlserver_session write_batch]. unfold session_write_batch, checking.
    destruct (e_cancelled env w); [by intros [= <- <-]|]. destruct (bound _ x) as [l|e]; [|by intros [= <- <-]].
    destruct (writes_identity _ x); [by apply execute_identity_inside|]. intros X. by apply execute_bound_inv in X as (E1 & _ & E2).
  - intros x w r w' O. cbn [sqlserver_session delete_all]. unfold session_delete_all, checking.
    destruct (e_cancelled env w); [by intros [= <- <-]|]. intros X. apply execute_bound_inv in X as (E1 & _ & E2); [done| |done].
    unfold delete_sql. apply data_statement_app. vm_compute. reflexivity.
  - intros x w r w' O. cbn [sqlserver_session maintain_generators]. unfold session_maintain_generators, checking.
    destruct (e_cancelled env w); by intros [= <- <-].
  - intros w r w' O. destruct (open_inv _ _ _ _ _ _ O) as [T _]. cbn [sqlserver_session commit]. unfold SqliteAdapter.timed, session_commit.
    destruct (command _ _ _ w) as [x w1] eqn:E. intros [= <- <-].
    apply command_inv in E as [([e ->] & ->)|(y & Y & Hy)]; [split; [by destruct (in_time w)|by left]|].
    apply sl_commit in Y as [Y1 Y2]; [|done]. split; [|done]. destruct (in_time w); [|discriminate]. intros [= ->]. by apply Y1, Hy.
  - intros w r w'. cbn [sqlserver_session rollback]. intros [([e ->] & ->)|(y & Y & _)]%command_inv; [done|]. by apply sl_rollback in Y.
  - intros w r w'. cbn [sqlserver_session rollback_in_time]. unfold SqliteAdapter.timed, session_rollback.
    destruct (command _ _ _ w) as [x w1] eqn:E. intros [= _ <-]. apply command_inv in E as [([e ->] & ->)|(y & Y & _)]; [done|].
    by apply sl_rollback in Y.
  - intros w r w'. cbn [sqlserver_session take_cleanup_errors]. intros [= _ <-]. apply mssql_update_db.
Qed.

(** C10: the session of the SQL Server channel is the transactional session the
    orchestration is verified against: with the server and its driver behaving
    as documented, every guarantee of [Transactional] holds of it, for the rows
    that its snapshot query reads of the tables it loaded. *)
Theorem sqlserver_session_transactional polls :
  Transactional env db work open sqlserver_content (idle_session tx state known) (sqlserver polls).
Proof. apply sqlserver_transactional. Qed.
End Laws.

(** ** Witness: a server with one table, a committed and a working list of rows *)

#[export] Instance text_columns : Columns (list (option str)) := {|
  string_at row i := mjoin (row !! i);
  optional_string_at row i := row !! i;
  integer_at _ row i := mjoin (row !! i) ≫= parse_i64;
  optional_integer_at _ row i := match row !! i with Some (Some s) => Some <$> parse_i64 s | Some None => Some None | None => None end;
  bool_at _ _ := None;
  strings_at _ _ := None;
|}.
Record Store : Type := mkStore {
  st_committed : list (list (option str)); st_working : list (list (option str)); st_open : bool; st_session : Session }.
Definition store_facts : list (option str) :=
  map (fun s => Some (u s)) ["srv"; "shop"; "READ_WRITE"; "1"; "1"; "0"; "1"; "1"; "1"; "1"; "1"; "16"; "1"; "0"; "16.0.4085.2"; "RTM"; "3"]%string.
Definition store_column : list (option str) :=
  map (fun s => Some (u s)) ["t"; "U"; "0"; "v"; "int"; "4"; "10"; "0"; "0"]%string ++ [None]
  ++ map (fun s => Some (u s)) ["0"; "0"; "1"; "1"]%string ++ [None; Some (u "0"); Some (u "1"); Some (u "1"); Some (u "1")]
  ++ map (fun s => Some (u s)) ["0"; "0"; "0"]%string.
Definition store_answers (sql : str) : list (list (option str)) :=
  if str_eqb sql facts_sql then [store_facts]
  else if str_eqb sql (column_metadata_sql 16) then [store_column]
  else if str_eqb sql policies_sql then [[Some (u "0")]]
  else [].
Definition store_client : Client Store (list (option str)) := {|
  batch sql w :=
    if str_eqb sql (u "COMMIT TRANSACTION") then (Ok tt, mkStore (st_working w) (st_working w) false (st_session w))
    else if str_eqb sql rollback_sql then (Ok tt, mkStore (st_committed w) (st_committed w) false (st_session w))
    else if starts_with (u "SET IDENTITY_INSERT ") sql then (Ok tt, w)
    else (Ok tt, mkStore (st_committed w) (st_committed w) true (st_session w));
  query sql _ w := (Ok (store_answers sql), w);
  simple_query _ w := (Ok (st_working w, None), w);
  execute _ _ w := (Ok 0, mkStore (st_committed w) [] (st_open w) (st_session w));
  disconnect w := mkStore (st_committed w) (st_committed w) false (st_session w);
|}.
Definition store_environment : Environment Store :=
  mkEnvironment Store (fun _ => false) (fun _ => 0) (fun _ => 7) (fun _ w => w) (fun _ => fresh_counters false) (fun _ w => w).
Definition store_set (s : Session) (w : Store) : Store := mkStore (st_committed w) (st_working w) (st_open w) s.
Definition no_json (c : DataColumn) : option str := Some [].
Definition one_field (s : str) : option (list (str * option str)) := if str_eqb s (u "[7]") then Some [(u "int", Some (u "7"))] else None.
Definition no_number (s : str) : option Z := None.
Definition no_uuid (s : str) : option bytes := None.
Abbreviation store_session := (@sqlserver_session Store (list (option str)) _ store_environment sample_layout default_budget
  (fun w => w) (fun w => w) (fun _ w => (true, w)) (fun _ => false) (fun _ => true) no_json (fun _ => Some []) (fun _ => false)
  (fun b => b) one_field no_number no_uuid store_client st_session store_set (u "dbo") false [] 3) (only parsing).

#[export] Instance store_neutral : Neutral store_environment st_committed st_working st_open.
Proof. by split. Qed.
#[export] Instance store_quiet : SqliteAdapter.Quiet st_committed st_working st_open (fun w => w) (fun _ w => (true, w)).
Proof. split; [done|]. by intros r w x w' [= <- <-]. Qed.
#[export] Instance store_frame : Frame store_environment st_committed st_working st_open st_session store_set (fun w => w) (fun w => w)
  (fun _ w => (true, w)).
Proof. split; try done. by intros r w x w' [= <- <-]. Qed.
#[export] Instance store_sqlserver_frame : SqlServerFrame store_environment store_client st_session.
Proof.
  split; cbn [batch query simple_query execute disconnect store_client]; try done.
  - intros sql w r w'. repeat case_match; by intros [= _ <-].
  - by intros sql l w r w' [= _ <-].
  - by intros sql w r w' [= _ <-].
  - by intros sql l w r w' [= _ <-].
Qed.
(** Two texts that differ at one place. *)
Lemma differ (i : nat) (p x y : str) a a' : p !! i = Some a -> x !! i = Some a' -> a <> a' -> str_eqb (p ++ y) x = false.
Proof. intros Hp Hx N. apply str_eqb_neq. intros <-. rewrite (lookup_app_l_Some _ _ _ _ Hp) in Hx. congruence. Qed.
Lemma no_prefix (i : nat) (p x y : str) a a' : p !! i = Some a -> x !! i = Some a' -> a <> a' -> starts_with x (p ++ y) = false.
Proof.
  intros Hp Hx N. destruct (starts_with x (p ++ y)) eqn:E; [|done]. apply starts_with_iff in E as [r E]. exfalso.
  pose proof (lookup_app_l_Some p y _ _ Hp) as L. rewrite E in L. rewrite (lookup_app_l_Some _ _ _ _ Hx) in L. congruence.
Qed.
Lemma lock_apart tables sql : protected_write_sql (u "dbo") tables = Ok sql ->
  str_eqb sql (u "COMMIT TRANSACTION") = false /\ str_eqb sql rollback_sql = false /\ starts_with (u "SET IDENTITY_INSERT ") sql = false.
Proof.
  unfold protected_write_sql. destruct (_ || _); [done|]. intros X. apply Ok_inj in X as <-.
  split_and!; [apply (differ 0 _ _ _ 83 67)|apply (differ 0 _ _ _ 83 73)|apply (no_prefix 4 _ _ _ 76 73)]; by vm_compute.
Qed.
Lemma identity_text schema table mode : starts_with (u "SET IDENTITY_INSERT ") (identity_sql schema table mode) = true /\
  str_eqb (identity_sql schema table mode) (u "COMMIT TRANSACTION") = false /\ str_eqb (identity_sql schema table mode) rollback_sql = false.
Proof.
  unfold identity_sql. split_and!; [apply starts_with_app; by vm_compute|apply (differ 0 _ _ _ 83 67)|apply (differ 0 _ _ _ 83 73)]; by vm_compute.
Qed.
#[export] Instance store_fields : FieldLaws one_field no_number no_uuid.
Proof.
  assert (F : forall payload l, one_field payload = Some l -> payload = u "[7]" /\ l = [(u "int", Some (u "7"))]).
  { intros payload l. unfold one_field. destruct (str_eqb payload _) eqn:E; [|done]. apply str_eqb_eq in E as ->.
    intros X. split; [done|]. by inversion X. }
  split; [| |done|done].
  - intros payload l [-> ->]%F. vm_compute. discriminate.
  - intros payload l f t [-> ->]%F Hf Ht. apply list_elem_of_singleton in Hf as ->. cbn [snd] in Ht. assert (t = u "7") as -> by congruence.
    split; [apply (bool_decide_unpack _); vm_compute; exact I|vm_compute; discriminate].
Qed.
#[export] Instance store_laws : SqlServerLaws no_json (fun _ => false) one_field no_number no_uuid store_client (u "dbo") st_committed
  st_working st_open (fun _ sql _ => store_answers sql) (fun d _ => d) 16 true.
Proof.
  split; cbn [batch query simple_query execute disconnect store_client].
  - intros ts sql w r w' P _. destruct (lock_apart _ _ P) as (-> & -> & ->). by intros [= <- <-].
  - intros w r w' _. rewrite str_eqb_refl. intros [= <- <-]. split; [done|by right].
  - intros w r w'. replace (str_eqb rollback_sql (u "COMMIT TRANSACTION")) with false by (by vm_compute). rewrite str_eqb_refl.
    by intros [= <- <-].
  - intros table mode w r w' _. destruct (identity_text (u "dbo") table mode) as (-> & -> & ->). by intros [= <- <-].
  - by intros sql l w r w' _ T [= <- <-].
  - split. by intros sql l w r w' _ _ [= <- <-].
  - by intros sql l w rows w' _ _ [= <- _].
  - intros w w' f rows. unfold store_answers. rewrite str_eqb_refl. intros X. apply pair_equal_spec in X as [X _]. apply Ok_inj in X.
    assert (f = store_facts) as -> by congruence. by vm_compute.
  - intros sql w r w' _ _ [= <- <-]. split; [done|]. intros rows fault [= <- <-]. by split.
  - by intros w.
  - exact store_fields.
Qed.

Definition store_row : list (option str) := [Some (u "0"); Some (u "[7]")].
Definition store_projection : Projection := mkProjection (u "t") (u "t") [u "v"] [0%nat].
(** The metadata that the session itself loads. *)
Definition store_metadata : DataMetadataSnapshot :=
  match (load_metadata store_session (mkStore [store_row] [store_row] true (mkSession true None None []))).1 with
  | Ok m => m
  | Err _ => mkMetadata SqlServer [] false false false false [] []
  end.
Definition store_world : Store := mkStore [store_row] [store_row] true (mkSession true (Some store_metadata) None []).

Lemma sqlserver_session_transactional_witness :
  Execution.stream_rows store_session [store_projection] store_world = ([mkRow (u "t") [VInt 7] [VInt 7]], Ok 1, store_world) /\
  Forall streamed [mkRow (u "t") [VInt 7] [VInt 7]].
Proof.
  assert (S : Execution.stream_rows store_session [store_projection] store_world = ([mkRow (u "t") [VInt 7] [VInt 7]], Ok 1, store_world))
    by (vm_compute; reflexivity).
  split; [exact S|].
  refine (proj1 (tx_rows store_environment st_committed st_working _ _ _ (Transactional := @sqlserver_session_transactional Store _
    (list (option str)) _ store_environment sample_layout default_budget (fun w => w) (fun w => w) (fun _ w => (true, w))
    (fun _ => false) (fun _ => true) no_json (fun _ => Some []) (fun _ => false) (fun b => b) one_field no_number no_uuid store_client st_session
    store_set (u "dbo") false [] st_committed st_working st_open (fun _ sql _ => store_answers sql) (fun d _ => d) 16 true _ _ _ _ _ 3)
    [store_projection] store_world _ _ _ _ _ S)).
  - vm_compute. reflexivity.
  - constructor; [|constructor]. split_and!; [apply (bool_decide_unpack (Forall _ _)); vm_compute; exact I|vm_compute; discriminate..].
Defined.

End SqlServerChannel.
