(* ===== verification/ClickHouseWire.v ===== *)
(** What travels between the ClickHouse channel and the server
    (src-tauri/src/db/data_tasks/adapters/clickhouse.rs): the types it accepts,
    the snapshot query, and the lines of the response. *)
From S2P Require Import Prelude RustText DataTypes MetaTypes Values Batch Executor SqliteAdapter WireRows NetworkChannel.
Import DataTypes MetaTypes Values Batch Executor WireRows NetworkChannel.

Module ClickHouseWire.

Definition DB_ERROR : str := u "ClickHouse 数据任务失败，请检查权限、字段、约束及连接".
(** Backslashes first, then backticks. *)
Definition id (name : str) : str := [96] ++ replace_char 96 [92; 96] (replace_char 92 [92; 92] name) ++ [96].

(** ** Types *)

Definition unnullable (t : str) : str := default t (s ← strip_prefix (u "Nullable(") t; strip_suffix (u ")") s).
Definition utc_datetime (t : str) : bool :=
  starts_with (u "DateTime64(") t && (negb (contains [44] t) || ends_with (u ", 'UTC')") t || ends_with (u ",'UTC')") t).
Definition wire_type (declared : str) : result str str :=
  let t := unnullable declared in
  if one_of t ["Int8"; "Int16"; "Int32"; "Int64"]%string then Ok (u "int")
  else if one_of t ["UInt8"; "UInt16"; "UInt32"; "UInt64"]%string then Ok (u "uint")
  else if one_of t ["String"]%string then Ok (u "binary")
  else if existsb (fun p => starts_with (u p) t) ["Decimal("; "Decimal32("; "Decimal64("; "Decimal128("; "Decimal256("]%string then Ok (u "decimal")
  else if utc_datetime t then Ok (u "datetime")
  else Err (u "unsupported_capability: ClickHouse 字段类型未经无损验收").

(** ** The snapshot *)

Definition field_sql (column kind : str) : str :=
  u "if(isNull(" ++ column ++ u "),'null:',concat('" ++ kind ++ u ":',hex(toString(assumeNotNull(" ++ column ++ u ")))) )".
Definition select_sql (database : str) (tables : list DataTable) (index : nat) (p : Projection) : result str str :=
  let? t := ok_or (find_first (fun t => str_eqb (tb_name t) (pj_table p) && tb_physical t) tables)
              (u "unsupported_capability: ClickHouse 只支持经验证的本地普通表") in
  if is_empty (pj_columns p) then Err (u "invalid_mapping: 快照列为空")
  else
    let? fields := traverse (fun name =>
        let? c := ok_or (find_column (tb_columns t) name) (u "invalid_mapping: 快照列不存在") in
        let? kind := wire_type (dc_declared_type c) in
        Ok (field_sql (id name) kind)) (pj_columns p) in
    Ok (u "SELECT toString(" ++ show_Z (Z.of_nat index) ++ u "),arrayStringConcat([" ++ join (u ",") fields ++ u "],',') FROM " ++ id database
        ++ u "." ++ id (pj_table p)).
Definition snapshot_sql (database : str) (projections : list Projection) (metadata : DataMetadataSnapshot) : result str str :=
  if is_empty projections || (100 <? zlen projections) then Err (u "invalid_mapping: 快照表数无效")
  else
    let? selects := traverse (fun '(index, p) => select_sql database (md_tables metadata) index p) (imap pair projections) in
    let sql := join (u " UNION ALL ") selects in
    if 1024 * 1024 <? str_len sql then Err (u "resource_limit: 快照 SQL 超过预算") else Ok sql.

(** ** Decoding a line *)

Definition unhex (text : str) : result bytes str := unhex_with (u "ClickHouse 字节编码无效") (u "ClickHouse 字节编码无效") text.
Definition decode_text (kind value : str) : result DataValue str :=
  if str_eqb kind (u "int") then let? n := ok_or (parse_i64 value) (u "ClickHouse 整数溢出") in Ok (VInt n)
  else if str_eqb kind (u "uint") then let? n := ok_or (parse_u64 value) (u "ClickHouse 无符号整数溢出") in Ok (VUInt n)
  else if str_eqb kind (u "decimal") then let? d := normalize_decimal value in Ok (VDecimal d)
  else if str_eqb kind (u "datetime") then Ok (VTemporal (u "datetime") value)
  else Err (u "ClickHouse 类型标签无效").
Definition decode_field (field : str) : result DataValue str :=
  let? x := ok_or (split_once 58 field) (u "ClickHouse 字段编码无效") in
  let '(kind, value) := x in
  if str_eqb kind (u "null") then Ok VNull
  else
    let? raw := unhex value in
    if str_eqb kind (u "binary") then Ok (VBinary raw)
    else let? value := ok_or (from_utf8 raw) (u "ClickHouse 字段不是 UTF-8") in decode_text kind value.
Definition index_error : str := u "ClickHouse 表索引无效".
Definition decode_line (line : bytes) (projections : list Projection) : result CanonicalRow str :=
  let? text := ok_or (from_utf8 line) (u "ClickHouse 快照编码无效") in
  let? x := ok_or (split_once 9 text) (u "ClickHouse 快照形状无效") in
  let '(index, payload) := x in
  let? index := ok_or (parse_u64 index) index_error in
  let? p := ok_or (get_index projections index) index_error in
  let? values := traverse decode_field (split_char 44 payload) in
  if negb (zlen values =? zlen (pj_columns p)) then Err (u "ClickHouse 字段数与映射不一致")
  else
    let? key := select_key (u "ClickHouse 键索引无效") (pj_key_indices p) values in
    new_row (pj_output_table p) key values.

(** ** Specification: the line of a row of stored values *)

Definition hexed (kind : str) (raw : bytes) : str := kind ++ 58 :: upper_hex raw.
Inductive wire : DataValue -> str -> Prop :=
| wire_null : wire VNull (u "null:")
| wire_int n : i64_range n -> wire (VInt n) (hexed (u "int") (utf8 (show_Z n)))
| wire_uint n : u64_range n -> wire (VUInt n) (hexed (u "uint") (utf8 (show_Z n)))
| wire_decimal d d' : wf_str d -> normalize_decimal d = Ok d' -> wire (VDecimal d') (hexed (u "decimal") (utf8 d))
| wire_binary l : Forall byte_range l -> wire (VBinary l) (hexed (u "binary") l)
| wire_datetime s : wf_str s -> wire (VTemporal (u "datetime") s) (hexed (u "datetime") (utf8 s)).
Definition line_text (index : Z) (fields : list str) : str := show_Z index ++ 9 :: join [44] fields.

Lemma decode_hexed kind raw : 58 ∉ kind -> str_eqb kind (u "null") = false -> Forall byte_range raw ->
  decode_field (hexed kind raw) = if str_eqb kind (u "binary") then Ok (VBinary raw)
                                  else let? value := ok_or (from_utf8 raw) (u "ClickHouse 字段不是 UTF-8") in decode_text kind value.
Proof.
  intros K N B. unfold decode_field, hexed. rewrite split_once_app by done. cbn [ok_or rbind]. rewrite N.
  unfold unhex. by rewrite unhex_upper.
Qed.
(** A tag other than those of nulls and bytes. *)
Definition text_tag (kind : str) : bool :=
  bool_decide (58 ∉ kind) && negb (str_eqb kind (u "null")) && negb (str_eqb kind (u "binary")).
Lemma decode_tagged kind s : text_tag kind = true -> wf_str s -> decode_field (hexed kind (utf8 s)) = decode_text kind s.
Proof.
  intros K W. unfold text_tag in K. to_prop. rewrite decode_hexed by (done || by apply utf8_range).
  match goal with E : str_eqb kind (u "binary") = false |- _ => rewrite E end. by rewrite from_utf8_utf8.
Qed.
Lemma click_field_wire v f : wire v f -> decode_field f = Ok v.
Proof.
  destruct 1 as [|n R|n R|d d' Wd N|l B|s Ws].
  - vm_compute. reflexivity.
  - rewrite decode_tagged; [|vm_compute; reflexivity|apply ascii_wf, show_Z_ascii].
    change (decode_text (u "int") (show_Z n)) with (let? n := ok_or (parse_i64 (show_Z n)) (u "ClickHouse 整数溢出") in Ok (VInt n)).
    by rewrite parse_i64_show.
  - rewrite decode_tagged; [|vm_compute; reflexivity|apply ascii_wf, show_Z_ascii].
    change (decode_text (u "uint") (show_Z n)) with (let? n := ok_or (parse_u64 (show_Z n)) (u "ClickHouse 无符号整数溢出") in Ok (VUInt n)).
    by rewrite parse_u64_show.
  - rewrite decode_tagged; [|vm_compute; reflexivity|done].
    change (decode_text (u "decimal") d) with (let? d := normalize_decimal d in Ok (VDecimal d)). by rewrite N.
  - rewrite decode_hexed; [|apply (bool_decide_unpack (_ ∉ _)); vm_compute; exact I|vm_compute; reflexivity|done]. by rewrite str_eqb_refl.
  - rewrite decode_tagged; [|vm_compute; reflexivity|done]. reflexivity.
Qed.
Lemma click_encodable v f : wire v f -> encodable v.
Proof. destruct 1 as [| | |d d' Wd N| |]; try done. cbn [encodable]. by rewrite (normalize_decimal_fixed _ _ N). Qed.

(** Printable characters, none of them a separator. *)
Definition plain (c : char) : Prop := 48 <= c < 128.
Lemma upper_hex_plain raw : Forall byte_range raw -> Forall plain (upper_hex raw).
Proof.
  intros F. unfold upper_hex. induction F as [|b l B F IH]; [constructor|]. unfold byte_range in B. cbn [map concat app].
  destruct (hex_value_upper (b / 16) ltac:(split; [apply Z.div_pos; lia|apply Z.div_lt_upper_bound; lia])) as [_ R1].
  destruct (hex_value_upper (b mod 16) ltac:(apply Z.mod_pos_bound; lia)) as [_ R2].
  constructor; [unfold plain; lia|]. constructor; [unfold plain; lia|exact IH].
Qed.
Lemma wire_plain v f : wire v f -> Forall plain f.
Proof.
  assert (G : forall kind raw, Forall plain kind -> Forall byte_range raw -> Forall plain (hexed kind raw)).
  { intros kind raw K B. apply Forall_app. split; [done|]. constructor; [unfold plain; lia|]. by apply upper_hex_plain. }
  assert (K : forall s, bool_decide (Forall (fun c => 48 <= c < 128) s) = true -> Forall plain s) by (by intros s S%bool_decide_eq_true_1).
  destruct 1 as [|n R|n R|d d' Wd N|l B|s Ws].
  1: apply K; vm_compute; reflexivity.
  all: apply G; [apply K; vm_compute; reflexivity|]; try done; apply utf8_range; try done; apply ascii_wf, show_Z_ascii.
Qed.
Lemma split_char_joined c l : l <> [] -> Forall (fun s => c ∉ s) l -> split_char c (join [c] l) = l.
Proof.
  intros N F. induction F as [|s l S F IH]; [done|]. destruct l as [|t l]; [by apply split_char_none|].
  rewrite join_cons by done. change (s ++ [c] ++ join [c] (t :: l)) with (s ++ c :: join [c] (t :: l)).
  rewrite split_char_app by done. f_equal. by apply IH.
Qed.
Lemma join_ascii c (l : list str) : 0 <= c < 128 -> Forall (Forall plain) l -> Forall (fun x => 0 <= x < 128) (join [c] l).
Proof.
  intros C F. induction F as [|s l S F IH]; [constructor|]. assert (S' : Forall (fun x => 0 <= x < 128) s).
  { eapply list.Forall_impl; [exact S|]. unfold plain. lia. }
  destruct l as [|t l]; [exact S'|]. rewrite join_cons by done. apply Forall_app. split; [done|]. by constructor.
Qed.
Lemma show_Z_digits n c : 0 <= n -> is_ascii_digit c = false -> c ∉ show_Z n.
Proof.
  intros N C. unfold show_Z. replace (n <? 0) with false by lia. destruct (show_nonneg_spec n N) as (_ & Dg & _). by apply digit_not_in.
Qed.
(** The line is plain text without a line feed. *)
Lemma line_ascii index fields : 0 <= index -> Forall (Forall plain) fields ->
  Forall (fun c => 0 <= c < 128) (line_text index fields) /\ (10 : Z) ∉ line_text index fields.
Proof.
  intros N F. split.
  - apply Forall_app. split; [apply show_Z_ascii|]. constructor; [lia|]. apply join_ascii; [lia|done].
  - unfold line_text. rewrite elem_of_app, elem_of_cons. intros [D|[D|D]]; [|lia|].
    + by apply show_Z_digits in D.
    + induction F as [|s l S F IH]; [by apply elem_of_nil in D|]. rewrite list.Forall_forall in S.
      destruct l as [|t l]; [apply S in D; unfold plain in D; lia|]. rewrite join_cons in D by done.
      rewrite !elem_of_app in D. destruct D as [D|[D|D]]; [apply S in D; unfold plain in D; lia|apply list_elem_of_singleton in D; lia|by apply IH].
Qed.
(** Decoding the line of a row of stored values gives these values. *)
Lemma decode_line_wire ps index p fields vs : 0 <= index <= u64_max -> get_index ps index = Some p -> Forall2 wire vs fields ->
  length vs = length (pj_columns p) -> vs <> [] -> Forall (fun i => i < length vs)%nat (pj_key_indices p) ->
  decode_line (utf8 (line_text index fields)) ps = Ok (mkRow (pj_output_table p) (key_of (pj_key_indices p) vs) vs).
Proof.
  intros R P Ws N Ne K. assert (F : Forall (Forall plain) fields).
  { clear -Ws. induction Ws; constructor; [by eapply wire_plain|done]. }
  destruct (line_ascii index fields ltac:(lia) F) as [A _]. unfold decode_line. rewrite from_utf8_utf8 by by apply ascii_wf. cbn [ok_or rbind].
  unfold line_text at 1. rewrite split_once_app. 2: { apply show_Z_digits; [lia|done]. }
  cbn [ok_or rbind]. rewrite parse_u64_show by done. cbn [ok_or rbind]. rewrite P. cbn [ok_or rbind].
  pose proof (Forall2_length _ _ _ Ws) as L. assert (Nf : fields <> []) by (intros ->; by destruct vs).
  rewrite split_char_joined; [|done|].
  2: { eapply list.Forall_impl; [exact F|]. intros s S D. rewrite list.Forall_forall in S. apply S in D. unfold plain in D. lia. }
  assert (T : traverse decode_field fields = Ok vs).
  { clear -Ws. induction Ws as [|v f vs fields Hw _ IH]; [done|]. cbn [traverse]. rewrite (click_field_wire v f Hw). cbn [rbind]. by rewrite IH. }
  rewrite T. cbn [rbind]. replace (zlen vs =? zlen (pj_columns p)) with true by (unfold zlen; lia). cbn [negb].
  rewrite select_key_ok by done. cbn [rbind].
  assert (En : Forall encodable vs).
  { clear -Ws. induction Ws; constructor; [by eapply click_encodable|done]. }
  apply new_row_total; [by apply key_of_forall|done].
Qed.

End ClickHouseWire.
