(* ===== verification/ClickHouseChannel.v ===== *)
(** The session of the ClickHouse channel ([ClickHouseSession] of
    src-tauri/src/db/data_tasks/adapters/clickhouse.rs), which is only ever a
    source: loading the schema, and reading the snapshot from the bytes of an
    HTTP response, whose blocks are cut anywhere. *)
From S2P Require Import Prelude RustText DataTypes MetaTypes Values Spool SpoolSort TypeMapping Metadata Batch Executor Execution.
From S2P Require Import SqliteAdapter WireRows NetworkChannel PostgresWire ClickHouseWire.
Import DataTypes MetaTypes Values Spool SpoolSort TypeMapping Metadata Batch Executor Execution WireRows NetworkChannel ClickHouseWire.

Module ClickHouseChannel.

(** ** The driver *)

Record Client (W R : Type) : Type := mkClient {
  (** [query], [bind], [fetch_one] or [fetch_all]. *)
  query : str -> list str -> W -> result (list R) unit * W;
  (** What [fill_buf] returns, one after the other, until the end ([true]) or an
      error. *)
  fetch_bytes : str -> W -> option (list bytes * bool) * W;
}.
Arguments query {W R}. Arguments fetch_bytes {W R}.

(** ** Loading the schema *)

Definition facts_sql : str := u "SELECT version(),toString(serverUUID()),currentDatabase(),toUInt64(getSetting('readonly')),serverTimezone()".
Definition show_tables_sql : str := u "CHECK GRANT SHOW TABLES ON *.*".
Definition show_policies_sql : str := u "CHECK GRANT SHOW ROW POLICIES ON *.*".
Definition policies_sql : str := u "SELECT count() FROM system.row_policies WHERE database=?".
Definition columns_sql : str := u "SELECT t.name AS table,toString(t.uuid) AS table_uuid,t.engine,t.create_table_query AS create_sql,t.dependencies_table AS dependencies,c.name AS column,c.type AS column_type,c.default_kind,c.default_expression FROM system.tables t INNER JOIN system.columns c ON t.database=c.database AND t.name=c.table WHERE t.database=? ORDER BY t.name,c.position".
Definition select_grant_sql (database : str) : str := u "CHECK GRANT SELECT ON " ++ id database ++ u ".*".

Section Catalog.
Context {R : Type} `{Columns R}.
(** [serde_json::to_vec] of the tables. *)
Context (tables_json : list DataTable -> option bytes) (sha256_hex : bytes -> str).
(** [self.database], and what the configuration says. *)
Context (database : str) (config_read_only : bool) (fingerprint : str).

Definition cell {A : Type} (x : option A) : result A str := ok_or x DB_ERROR.
Definition failed (e : unit) : str := DB_ERROR.

Record Facts : Type := mkFacts { f_version : str; f_identity : str; f_database : str; f_readonly : Z; f_timezone : str }.
Definition read_facts (row : R) : result Facts str :=
  let? version := cell (string_at row 0) in
  let? identity := cell (string_at row 1) in
  let? database := cell (string_at row 2) in
  let? readonly := cell (integer_at U64 row 3) in
  let? timezone := cell (string_at row 4) in
  Ok (mkFacts version identity database readonly timezone).

(** A row of the catalogue: local tables without TTL, whose times are in UTC. *)
Definition is_supported (timezone engine create_sql column_type : str) : bool :=
  one_of engine ["MergeTree"; "Log"]%string && negb (contains (u " TTL ") (to_ascii_uppercase create_sql))
  && (negb (starts_with (u "DateTime64(") (unnullable column_type)) || contains [44] (unnullable column_type) || str_eqb timezone (u "UTC")).
Definition load_column (timezone : str) (tables : gmap str DataTable) (row : R) : result (gmap str DataTable) str :=
  let? name := cell (string_at row 0) in
  let? uuid := cell (string_at row 1) in
  let? engine := cell (string_at row 2) in
  let? create_sql := cell (string_at row 3) in
  let? dependencies := cell (strings_at row 4) in
  let? column := cell (string_at row 5) in
  let? column_type := cell (string_at row 6) in
  let? default_kind := cell (string_at row 7) in
  let? default_expression := cell (string_at row 8) in
  let supported := is_supported timezone engine create_sql column_type in
  let t := default (mkTable name (create_sql ++ [10] ++ u "uuid:" ++ uuid) [] [] (negb (is_empty dependencies)) supported) (tables !! name) in
  let c := mkColumn column column_type (starts_with (u "Nullable(") column_type)
             (if is_empty default_expression then None else Some default_expression)
             (one_of default_kind ["ALIAS"; "MATERIALIZED"; "EPHEMERAL"]%string) 0 None false false in
  Ok (<[name := mkTable (tb_name t) (tb_create_sql t) (tb_columns t ++ [c]) (tb_foreign_keys t) (tb_enabled_user_triggers t)
                  (tb_physical t && supported)]> tables).

Open Scope catalog_scope.

(** [fetch_one] of a number. *)
Definition number_program (sql : str) (arguments : list str) (type : IntType) : Catalog R unit Z :=
  ask! rows := sql, arguments with failed in Done (let? row := cell (head rows) in cell (integer_at type row 0)).
Definition facts_program : Catalog R unit Facts :=
  ask! rows := facts_sql, [] with failed in Done (let? row := cell (head rows) in read_facts row).
Definition metadata_program (f : Facts) : Catalog R unit DataMetadataSnapshot :=
  and_then (number_program (select_grant_sql database) [] U8) (fun can_read =>
  and_then (number_program show_tables_sql [] U8) (fun can_show =>
  and_then (number_program show_policies_sql [] U8) (fun can_policy =>
  and_then (number_program policies_sql [database] U64) (fun policies =>
    ask! columns := columns_sql, [database] with failed in
    Done (let? tables := SqliteAdapter.fold_rows (load_column (f_timezone f)) ∅ columns in
          let tables := into_values tables in
          let? json := cell (tables_json tables) in
          Ok (mkMetadata ClickHouse tables (negb (f_readonly f =? 0) || config_read_only)
                ((can_read =? 1) && (can_show =? 1) && (can_policy =? 1) && (policies =? 0)) false false (sha256_hex json) fingerprint)))))).
End Catalog.

(** ** The session *)

(** The fields that change. *)
Record Session : Type := mkSession { s_metadata : option DataMetadataSnapshot; s_identity : option str }.
Definition set_identity (s : Session) (i : str) : Session := mkSession (s_metadata s) (Some i).
Definition set_metadata (s : Session) (m : DataMetadataSnapshot) : Session := mkSession (Some m) (s_identity s).

Definition cancelled_error : str := u "cancelled: 数据任务已取消".
Definition blocked_error : str := u "unsupported_capability: " ++ CLICKHOUSE_TARGET_BLOCKER.
Definition incomplete_error : str := u "ClickHouse 快照响应不完整".
Definition line_error : str := u "resource_limit: ClickHouse 单行超过共享内存预算".

(** [split_inclusive(|b| *b == b'\n')]: every part but the last ends a line. *)
Fixpoint split_inclusive (l current : bytes) : list bytes :=
  match l with
  | [] => if is_empty current then [] else [current]
  | c :: l => if c =? 10 then (current ++ [c]) :: split_inclusive l [] else split_inclusive l (current ++ [c])
  end.
(** A block is at most the buffer; what is left of a chunk comes next. *)
Definition buffer_size : nat := Z.to_nat 65536.
Definition blocks_of (chunk : bytes) : list bytes := if is_empty chunk then [[]] else PostgresWire.chunks buffer_size chunk.

Section Channel.
Context {W R : Type} `{Columns R} (env : Environment W) (layout : Layout) (b : ResourceBudget).
Context (sleep fetch : W -> W) (deliver : CanonicalRow -> W -> bool * W) (interrupted : W -> bool).
Context (tables_json : list DataTable -> option bytes) (sha256_hex : bytes -> str).
Context (c : Client W R) (state : W -> Session) (set_state : Session -> W -> W).
Context (database : str) (config_read_only : bool) (fingerprint : str).

Definition update (f : Session -> Session) (w : W) : W := set_state (f (state w)) w.
Definition checking {A : Type} (f : W -> result A str * W) (w : W) : result A str * W :=
  if e_cancelled env w then (Err cancelled_error, w) else f w.

Definition session_load_metadata : W -> result DataMetadataSnapshot str * W :=
  checking (fun w =>
    match run (query c) facts_program w with
    | (Err e, w) => (Err e, w)
    | (Ok f, w) =>
      if negb (starts_with (u "25.8.") (f_version f)) then (Err (u "unsupported_capability: ClickHouse 仅 25.8 经真实验收"), w)
      else
        let w := update (fun s => set_identity s (u "clickhouse:" ++ f_identity f)) w in
        if negb (str_eqb (f_database f) database) then (Err (u "same_physical_target: ClickHouse 实际数据库不匹配"), w)
        else
          match run (query c) (metadata_program tables_json sha256_hex database config_read_only fingerprint f) w with
          | (Err e, w) => (Err e, w)
          | (Ok m, w) => (Ok m, update (fun s => set_metadata s m) w)
          end
    end).

(** *** The snapshot *)

Section Stream.
Context (polls : nat) (projections : list Projection).

Definition max_line : Z := sat_sub (Z.min (sat_mul (max_row_bytes b) 2) (memory_bytes b / 4)) 1024.
(** A complete line: the row is sent. *)
Definition accept_line (line : bytes) (w : W) : result CanonicalRow str * W :=
  match decode_line line projections with
  | Err e => (Err e, w)
  | Ok row =>
    if max_row_bytes b <? encoded_size row then (Err (u "resource_limit: ClickHouse 单行超过8MiB"), w)
    else let '(r, w) := SqliteAdapter.send env layout b sleep deliver polls row w in ((let? _ := r in Ok row), w)
  end.
(** The parts of a block, from the bytes of an unfinished line and the rows sent. *)
Fixpoint feed (parts : list bytes) (line : bytes) (taken : Rows) (w : W) : bytes * Rows * result unit str * W :=
  match parts with
  | [] => (line, taken, Ok tt, w)
  | part :: parts =>
    let ended := bool_decide (last part = Some 10) in
    let part := if ended then removelast part else part in
    if max_line <? sat_add (zlen line) (zlen part) then (line, taken, Err line_error, w)
    else
      let line := line ++ part in
      if ended then
        match accept_line line w with
        | (Err e, w) => (line, taken, Err e, w)
        | (Ok row, w) => feed parts [] (taken ++ [row]) w
        end
      else feed parts line taken w
  end.
Definition finish (line : bytes) (taken : Rows) (w : W) : Rows * result Z str * W :=
  (taken, (if is_empty line then Ok (zlen taken) else Err incomplete_error), w).
(** An empty block is the end. *)
Fixpoint read_blocks (blocks : list bytes) (complete : bool) (line : bytes) (taken : Rows) (w : W) : Rows * result Z str * W :=
  let w := fetch w in
  if interrupted w then (taken, Err (u "cancelled: ClickHouse 快照已取消"), w)
  else
    match blocks with
    | [] => if complete then finish line taken w else (taken, Err DB_ERROR, w)
    | block :: blocks =>
      if is_empty block then finish line taken w
      else
        match feed (split_inclusive block []) line taken w with
        | (_, taken, Err e, w) => (taken, Err e, w)
        | (line, taken, Ok _, w) => read_blocks blocks complete line taken w
        end
    end.
(** The lease is held until the end. *)
Definition session_stream_rows (w : W) : Rows * result Z str * W :=
  if e_cancelled env w then ([], Err cancelled_error, w)
  else
    match (let? m := ok_or (s_metadata (state w)) (u "ClickHouse 元数据未加载") in snapshot_sql database projections m) with
    | Err e => ([], Err e, w)
    | Ok sql =>
      match decode_lease env b sleep polls (memory_bytes b / 2) w with
      | (Err e, w) => ([], Err e, w)
      | (Ok _, w) =>
        let '(rows, r, w) :=
          (let '(q, w) := fetch_bytes c sql w in
           match q with
           | None => ([], Err DB_ERROR, w)
           | Some (chunks, complete) => read_blocks (concat (map blocks_of chunks)) complete [] [] w
           end) in
        (rows, r, drop_decode env (memory_bytes b / 2) w)
      end
    end.
End Stream.

Definition clickhouse_session (polls : nat) : DataSession W := {|
  supports_transaction _ := false;
  endpoint_identity w := Some (mkIdentity ClickHouse (s_identity (state w)) database None);
  take_cleanup_errors w := ([], w);
  dialect := DClickHouse;
  begin_read := checking (fun w => (Ok tt, w));
  begin_protected_write _ w := (Err blocked_error, w);
  load_metadata := session_load_metadata;
  Execution.stream_rows := session_stream_rows polls;
  write_batch _ w := (Err blocked_error, w);
  delete_all _ w := (Err (u "unsupported_capability: ClickHouse 禁止替换或删除"), w);
  maintain_generators _ w := (Ok tt, w);
  commit w := (Some (Ok tt), w);
  rollback w := (Ok tt, w);
  rollback_in_time w := (Some (Ok tt), w);
|}.
End Channel.

(** ** Lines and the blocks they come in *)

Definition joined (lines : list bytes) : bytes := concat (map (fun l => l ++ [10]) lines).
Definition one_line (l : bytes) : Prop := (10 : Z) ∉ l.

Lemma joined_cons l lines : joined (l :: lines) = l ++ 10 :: joined lines.
Proof. unfold joined. cbn [map concat]. by rewrite <- app_assoc. Qed.
Lemma cut_unique (a c x y : bytes) : one_line a -> one_line c -> a ++ 10 :: x = c ++ 10 :: y -> a = c /\ x = y.
Proof.
  unfold one_line. revert c. induction a as [|i a IH]; intros [|j c] A C E; cbn [app] in E.
  - by injection E as <-.
  - injection E as <- _. exfalso. apply C. by left.
  - injection E as -> _. exfalso. apply A. by left.
  - injection E as <- E. apply not_elem_of_cons in A as [_ A]. apply not_elem_of_cons in C as [_ C].
    destruct (IH c A C E) as [-> ->]. done.
Qed.
Lemma joined_prefix lines all rest : Forall one_line lines -> Forall one_line all -> joined lines ++ rest = joined all ->
  exists more, all = lines ++ more /\ rest = joined more.
Proof.
  intros L. revert all. induction L as [|l lines Ll L IH]; intros all A E; [by exists all|].
  rewrite joined_cons in E. destruct A as [|k all Ak A].
  - exfalso. by destruct l.
  - rewrite joined_cons, <- app_assoc in E. cbn [app] in E. apply cut_unique in E as [-> E]; [|done..].
    apply IH in E as (more & -> & ->); [|done]. by exists more.
Qed.
(** A text without a line end is the start of the first line. *)
Lemma joined_start (l rest : bytes) lines : one_line l -> l ++ rest = joined lines -> l = [] \/
  exists k more, lines = (l ++ k) :: more.
Proof.
  intros Ll E. destruct lines as [|x lines]; [left; by destruct l|]. rewrite joined_cons in E.
  apply app_eq_inv in E as [(k & -> & E)|(k & -> & _)]; [|right; by eexists k, _].
  destruct k as [|i k]; [right; exists [], lines; by rewrite !app_nil_r|]. injection E as <- _. exfalso. apply Ll.
  apply elem_of_app. right. by left.
Qed.

(** A part ends with the only line end it has. *)
Definition is_part (part : bytes) : Prop := exists x, one_line x /\ (part = x ++ [10] \/ part = x).
Lemma split_inclusive_parts l current : one_line current ->
  concat (split_inclusive l current) = current ++ l /\ Forall is_part (split_inclusive l current).
Proof.
  revert current. induction l as [|i l IH]; intros current C; cbn [split_inclusive].
  - destruct current as [|j current]; cbn [is_empty]; [done|]. split; [done|].
    constructor; [|done]. exists (j :: current). auto.
  - destruct (i =? 10) eqn:E.
    + apply Z.eqb_eq in E as ->. destruct (IH [] ltac:(by intros ?%elem_of_nil)) as [J P]. cbn [concat]. rewrite J. split.
      * by rewrite <- app_assoc.
      * constructor; [exists current; auto|done].
    + destruct (IH (current ++ [i])) as [J P]; [|by rewrite J, <- app_assoc].
      intros [D|D]%elem_of_app; [done|]. apply list_elem_of_singleton in D. lia.
Qed.
Lemma part_ended x : one_line x -> bool_decide (last x = Some 10) = false.
Proof. intros X. apply bool_decide_eq_false_2. intros L%last_Some_elem_of. done. Qed.
Lemma part_end x : bool_decide (last (x ++ [10]) = Some 10) = true /\ removelast (x ++ [10]) = x.
Proof. split; [apply bool_decide_eq_true_2; apply last_snoc|apply removelast_last]. Qed.

Lemma chunks_fuel_all {A : Type} (fuel n : nat) (l : list A) : n <> 0%nat -> (length l <= fuel)%nat ->
  concat (PostgresWire.chunks_fuel fuel n l) = l /\ Forall (fun x => x <> []) (PostgresWire.chunks_fuel fuel n l).
Proof.
  intros N. revert l. induction fuel as [|fuel IH]; intros l L; [by destruct l; [|cbn in L; lia]|].
  destruct l as [|x l]; [done|]. change (PostgresWire.chunks_fuel (S fuel) n (x :: l)) with
    (take n (x :: l) :: PostgresWire.chunks_fuel fuel n (drop n (x :: l))).
  destruct (IH (drop n (x :: l))) as [C F]; [rewrite length_drop; cbn in *; lia|]. cbn [concat]. rewrite C, take_drop. split; [done|].
  constructor; [|done]. by destruct n.
Qed.
Lemma blocks_of_all chunks : Forall (fun x => x <> []) chunks ->
  concat (concat (map blocks_of chunks)) = concat chunks /\ Forall (fun x => x <> []) (concat (map blocks_of chunks)).
Proof.
  induction 1 as [|x chunks X F [IH1 IH2]]; [done|]. cbn [map concat]. rewrite concat_app, IH1.
  assert (B : blocks_of x = PostgresWire.chunks buffer_size x) by (by destruct x). rewrite B.
  destruct (chunks_fuel_all (length x) buffer_size x ltac:(unfold buffer_size; lia) ltac:(done)) as [C G].
  unfold PostgresWire.chunks. rewrite C. split; [done|]. by apply Forall_app.
Qed.

(** ** Reading a response *)

Section Reading.
Context {W : Type} (env : Environment W) (layout : Layout) (b : ResourceBudget).
Context (sleep fetch : W -> W) (deliver : CanonicalRow -> W -> bool * W) (interrupted : W -> bool).
Context (polls : nat) (ps : list Projection).
Abbreviation feed := (feed env layout b sleep deliver polls ps) (only parsing).
Abbreviation read_blocks := (read_blocks env layout b sleep fetch deliver interrupted polls ps) (only parsing).
Definition decodes (line : bytes) (row : CanonicalRow) : Prop := decode_line line ps = Ok row.

Lemma accept_decodes line w row w' : accept_line env layout b sleep deliver polls ps line w = (Ok row, w') -> decodes line row.
Proof.
  unfold accept_line, decodes. destruct (decode_line line ps) as [r|e]; [|done]. destruct (_ <? _); [done|].
  destruct (SqliteAdapter.send _ _ _ _ _ _ _ _) as [x w1]. destruct x; [|done]. cbn. by intros [= ->].
Qed.
(** Whatever happens, the rows sent are those of the lines so far. *)
Lemma feed_sound parts : forall line taken w line' taken' r w', Forall is_part parts -> one_line line ->
  feed parts line taken w = (line', taken', r, w') -> exists lines rows rest,
    line ++ concat parts = joined lines ++ rest /\ Forall one_line lines /\ Forall2 decodes lines rows /\ taken' = taken ++ rows /\
    (r = Ok tt -> rest = line' /\ one_line line').
Proof.
  induction parts as [|part parts IH]; intros line taken w line' taken' r w' P L; cbn [ClickHouseChannel.feed].
  { intros [= <- <- <- <-]. exists [], [], line. rewrite app_nil_r. cbn [concat]. rewrite app_nil_r. done. }
  apply list.Forall_cons in P as [(x & X & Px) P].
  destruct Px as [-> | ->].
  - destruct (part_end x) as [-> ->]. destruct (_ <? _).
    { intros [= <- <- <- <-]. eexists [], [], _. split_and!; [reflexivity|constructor|constructor|by rewrite app_nil_r|done]. }
    assert (Lx : one_line (line ++ x)) by (unfold one_line in *; rewrite elem_of_app; tauto).
    destruct (accept_line _ _ _ _ _ _ _ _ _) as [[row|e] w1] eqn:A.
    2: { intros [= <- <- <- <-]. eexists [], [], _. split_and!; [reflexivity|constructor|constructor|by rewrite app_nil_r|done]. }
    intros Q. apply IH in Q as (lines & rows & rest & E & Fl & Fd & -> & Ok1); [|done|by intros ?%elem_of_nil].
    exists ((line ++ x) :: lines), (row :: rows), rest. split_and!; [|by constructor| |by rewrite <- app_assoc|done].
    + cbn [concat]. rewrite joined_cons, <- !app_assoc. cbn [app]. do 3 f_equal. exact E.
    + constructor; [by eapply accept_decodes|done].
  - rewrite part_ended by done. destruct (_ <? _).
    { intros [= <- <- <- <-]. eexists [], [], _. split_and!; [reflexivity|constructor|constructor|by rewrite app_nil_r|done]. }
    assert (Lx : one_line (line ++ x)) by (unfold one_line in *; rewrite elem_of_app; tauto).
    intros Q. apply IH in Q as (lines & rows & rest & E & G); [|done..].
    exists lines, rows, rest. split; [|exact G]. cbn [concat]. by rewrite app_assoc.
Qed.
Lemma read_sound blocks : forall complete line taken w taken' r w', Forall (fun x => x <> []) blocks -> one_line line ->
  read_blocks blocks complete line taken w = (taken', r, w') -> exists lines rows rest,
    line ++ concat blocks = joined lines ++ rest /\ Forall one_line lines /\ Forall2 decodes lines rows /\ taken' = taken ++ rows /\
    (forall n, r = Ok n -> rest = [] /\ complete = true /\ n = zlen taken').
Proof.
  induction blocks as [|block blocks IH]; intros complete line taken w taken' r w' B L; cbn [ClickHouseChannel.read_blocks].
  - destruct (interrupted _).
    { intros [= <- <- <-]. eexists [], [], _. split_and!; [reflexivity|constructor|constructor|by rewrite app_nil_r|done]. }
    destruct complete; [unfold finish|]; intros [= <- <- <-]; exists [], [], line; cbn [concat]; rewrite !app_nil_r; [|done].
    split_and!; try done. intros n. destruct line; [|done]. by intros [= <-].
  - apply list.Forall_cons in B as [Nb B]. destruct (interrupted _).
    { intros [= <- <- <-]. eexists [], [], _. split_and!; [reflexivity|constructor|constructor|by rewrite app_nil_r|done]. }
    destruct (is_empty block) eqn:Eb; [by destruct block|].
    destruct (split_inclusive_parts block [] ltac:(by intros ?%elem_of_nil)) as [J P].
    destruct (feed _ line taken _) as [[[line1 taken1] r1] w1] eqn:F. apply feed_sound in F as (lines & rows & rest & E & Fl & Fd & -> & Ok1); [|done..].
    rewrite J in E. cbn [app] in E. destruct r1 as [[]|e].
    + destruct (Ok1 eq_refl) as [-> L1]. intros Q. apply IH in Q as (lines2 & rows2 & rest2 & E2 & Fl2 & Fd2 & -> & Ok2); [|done..].
      exists (lines ++ lines2), (rows ++ rows2), rest2. split_and!.
      * cbn [concat]. rewrite app_assoc, E, <- app_assoc, E2. unfold joined. by rewrite map_app, concat_app, <- app_assoc.
      * by apply Forall_app.
      * by apply Forall2_app.
      * by rewrite app_assoc.
      * done.
    + intros [= <- <- <-]. eexists lines, rows, _. split_and!; [cbn [concat]; by rewrite app_assoc, E, <- app_assoc|done..].
Qed.

(** A line that nothing refuses. *)
Definition good (line : bytes) : Prop := one_line line /\ zlen line <= max_line b /\
  exists row, decodes line row /\ encoded_size row <= max_row_bytes b /\
    forall w, (SqliteAdapter.send env layout b sleep deliver polls row w).1 = Ok tt.
Lemma accept_good line w : good line -> exists row w', accept_line env layout b sleep deliver polls ps line w = (Ok row, w').
Proof.
  intros (_ & _ & row & Dl & Sz & Sd). unfold accept_line. rewrite Dl. replace (_ <? _) with false by lia.
  specialize (Sd w). destruct (SqliteAdapter.send _ _ _ _ _ _ _ _) as [x w1]. cbn [fst] in Sd. rewrite Sd. cbn. by eexists _, _.
Qed.
Lemma fits_line (line x : bytes) : zlen (line ++ x) <= max_line b -> (max_line b <? sat_add (zlen line) (zlen x)) = false.
Proof. rewrite zlen_app. unfold sat_add. lia. Qed.
Lemma max_line_nonneg : 0 <= max_line b.
Proof. unfold max_line, sat_sub. lia. Qed.
Lemma feed_total parts : forall line taken w all later, Forall is_part parts -> one_line line ->
  line ++ concat parts ++ later = joined all -> Forall good all -> exists line' taken' w' more,
    feed parts line taken w = (line', taken', Ok tt, w') /\ line' ++ later = joined more /\ Forall good more /\ one_line line'.
Proof.
  induction parts as [|part parts IH]; intros line taken w all later P L E G; cbn [ClickHouseChannel.feed concat] in *.
  { by exists line, taken, w, all. }
  apply list.Forall_cons in P as [(x & X & Px) P]. destruct Px as [-> | ->].
  - assert (Lx : one_line (line ++ x)) by (unfold one_line in *; rewrite elem_of_app; tauto).
    destruct (part_end x) as [-> ->]. destruct G as [|l all Gl G].
    { exfalso. apply (f_equal length) in E. rewrite !length_app in E. cbn in E. lia. }
    rewrite joined_cons, <- !app_assoc in E. cbn [app] in E. rewrite (app_assoc line) in E.
    apply cut_unique in E as [E1 E2]; [|done|apply Gl]. rewrite fits_line by (rewrite E1; apply Gl). rewrite E1.
    destruct (accept_good l w Gl) as (row & w1 & ->). eapply (IH [] _ w1 all later); [done|by intros ?%elem_of_nil|done|done].
  - assert (Lx : one_line (line ++ x)) by (unfold one_line in *; rewrite elem_of_app; tauto).
    rewrite part_ended by done. rewrite <- app_assoc, (app_assoc line) in E. rewrite fits_line.
    { eapply (IH _ _ w all later); done. }
    destruct (joined_start _ _ _ Lx E) as [-> |(k & more & ->)]; [apply max_line_nonneg|].
    apply list.Forall_cons in G as [(_ & Gl & _) _]. rewrite zlen_app in Gl. pose proof (zlen_nonneg k). lia.
Qed.
Lemma read_total blocks : (forall w, interrupted w = false) -> forall line taken w all, Forall (fun x => x <> []) blocks -> one_line line ->
  line ++ concat blocks = joined all -> Forall good all -> exists taken' w' n, read_blocks blocks true line taken w = (taken', Ok n, w').
Proof.
  intros I. induction blocks as [|block blocks IH]; intros line taken w all B L E G; cbn [ClickHouseChannel.read_blocks]; rewrite I.
  - cbn [concat] in E. rewrite app_nil_r in E. assert (line = []) as ->.
    { destruct all as [|l all]; [done|]. exfalso. apply L. rewrite E, joined_cons. apply elem_of_app. right. by left. }
    unfold finish. cbn [is_empty]. by eexists _, _, _.
  - apply list.Forall_cons in B as [Nb B]. destruct (is_empty block) eqn:Eb; [by destruct block|].
    destruct (split_inclusive_parts block [] ltac:(by intros ?%elem_of_nil)) as [J P]. cbn [app] in J.
    destruct (feed_total (split_inclusive block []) line taken (fetch w) all (concat blocks) P L) as (line1 & taken1 & w1 & more & -> & E1 & G1 & L1);
      [by rewrite J|done|]. by eapply IH.
Qed.
End Reading.

(** ** The snapshot of stored rows *)

(** A stored row and the fields the server writes for it. *)
Record Stored : Type := mkStored { sd_index : Z; sd_projection : Projection; sd_values : list DataValue; sd_fields : list str }.
Definition stored_ok (ps : list Projection) (s : Stored) : Prop :=
  0 <= sd_index s <= u64_max /\ get_index ps (sd_index s) = Some (sd_projection s) /\ Forall2 wire (sd_values s) (sd_fields s) /\
  length (sd_values s) = length (pj_columns (sd_projection s)) /\ sd_values s <> [] /\
  Forall (fun i => i < length (sd_values s))%nat (pj_key_indices (sd_projection s)).
Definition row_of (s : Stored) : CanonicalRow :=
  mkRow (pj_output_table (sd_projection s)) (key_of (pj_key_indices (sd_projection s)) (sd_values s)) (sd_values s).
Definition line_of (s : Stored) : bytes := utf8 (line_text (sd_index s) (sd_fields s)).
Definition response (l : list Stored) : bytes := joined (map line_of l).

Lemma stored_line ps s : stored_ok ps s -> one_line (line_of s) /\ decodes ps (line_of s) (row_of s).
Proof.
  intros (I & G & Ws & N & Ne & K). split; [|by apply decode_line_wire].
  assert (F : Forall (Forall plain) (sd_fields s)).
  { clear -Ws. induction Ws; constructor; [by eapply wire_plain|done]. }
  destruct (line_ascii (sd_index s) (sd_fields s) ltac:(lia) F) as [A L]. unfold one_line, line_of. by rewrite utf8_ascii.
Qed.

Section Snapshot.
Context {W R : Type} `{Columns R} (env : Environment W) (layout : Layout) (b : ResourceBudget).
Context (sleep fetch : W -> W) (deliver : CanonicalRow -> W -> bool * W) (interrupted : W -> bool).
Context (c : Client W R) (state : W -> Session) (database : str) (polls : nat) (ps : list Projection) (stored : list Stored).

(** The response has the lines of the stored rows; it comes in blocks cut
    anywhere, and may end early. *)
Definition answers : Prop := forall sql w q w', fetch_bytes c sql w = (q, w') -> q = None \/ exists chunks complete more,
  q = Some (chunks, complete) /\ Forall (fun x => x <> []) chunks /\ concat chunks ++ more = response stored /\
  (complete = true -> more = []).
(** Nothing is cancelled, full or broken, and the rows are within the limits. *)
Record Calm (w : W) : Prop := {
  calm_cancelled w : e_cancelled env w = false;
  calm_wait w : interrupted w = false;
  calm_metadata : exists m, s_metadata (state w) = Some m /\ is_ok (snapshot_sql database ps m) = true;
  calm_lease w : (decode_lease env b sleep polls (memory_bytes b / 2) w).1 = Ok tt;
  calm_query sql w : exists chunks w', fetch_bytes c sql w = (Some (chunks, true), w');
  calm_rows s : s ∈ stored -> zlen (line_of s) <= max_line b /\ encoded_size (row_of s) <= max_row_bytes b /\
    forall w, (SqliteAdapter.send env layout b sleep deliver polls (row_of s) w).1 = Ok tt;
}.

(** C11: the snapshot of a ClickHouse source does not depend on how the response is
    cut into blocks: the rows sent are always the first of the stored rows, in
    their order and value for value; the stream only succeeds when it sent all
    of them, in particular never after a response that ended early; and it does
    succeed when nothing is cancelled and every row is within the limits. *)
Theorem clickhouse_stream_exact w rows r w' : Forall (stored_ok ps) stored -> answers ->
  session_stream_rows env layout b sleep fetch deliver interrupted c state database polls ps w = (rows, r, w') ->
  (exists rest, map row_of stored = rows ++ rest) /\
  (forall n, r = Ok n -> rows = map row_of stored /\ n = zlen stored) /\
  (Calm w -> exists n, r = Ok n).
Proof.
  intros St An. unfold session_stream_rows.
  assert (Fl : Forall one_line (map line_of stored)).
  { apply list.Forall_fmap. eapply list.Forall_impl; [exact St|]. intros s Hs. by destruct (stored_line ps s Hs). }
  assert (Fd : Forall2 (decodes ps) (map line_of stored) (map row_of stored)).
  { clear -St. induction St as [|s l Hs _ IH]; constructor; [by destruct (stored_line ps s Hs)|done]. }
  assert (No : forall e, (exists rest, map row_of stored = [] ++ rest) /\
    (forall n, @Err Z str e = Ok n -> [] = map row_of stored /\ n = zlen stored)) by (intros e; split; [by eexists|done]).
  destruct (e_cancelled env w) eqn:Cn.
  { intros [= <- <- <-]. destruct (No cancelled_error). split_and!; try done. intros Ca. by rewrite (calm_cancelled _ Ca) in Cn. }
  destruct (rbind _ _) as [sql|e] eqn:Q.
  2: { intros [= <- <- <-]. destruct (No e). split_and!; try done. intros Ca. destruct (calm_metadata _ Ca) as (m & M & Ok1).
       rewrite M in Q. cbn [ok_or rbind] in Q. by rewrite Q in Ok1. }
  destruct (decode_lease _ _ _ _ _ w) as [[[]|e] w1] eqn:Le.
  2: { intros [= <- <- <-]. destruct (No e). split_and!; try done. intros Ca. pose proof (calm_lease _ Ca w) as X. by rewrite Le in X. }
  destruct (fetch_bytes c sql w1) as [q w2] eqn:Fb.
  destruct (An _ _ _ _ Fb) as [-> |(chunks & complete & more & -> & Nc & E & Cm)].
  { intros [= <- <- <-]. destruct (No DB_ERROR). split_and!; try done. intros Ca. destruct (calm_query _ Ca sql w1) as (x & y & X).
    by rewrite Fb in X. }
  destruct (blocks_of_all chunks Nc) as [Cb Nb].
  destruct (read_blocks _ _ _ _ _ _ _ _ _ (concat (map blocks_of chunks)) complete [] [] w2) as [[rows0 r0] w3] eqn:Rd.
  intros [= <- <- <-]. pose proof Rd as Rd'.
  apply read_sound in Rd as (lines & rows1 & rest & E1 & Fl1 & Fd1 & -> & Ok1); [|done|by intros ?%elem_of_nil].
  cbn [app] in *. rewrite Cb in E1.
  assert (X : joined lines ++ (rest ++ more) = joined (map line_of stored)) by (rewrite app_assoc, <- E1; exact E).
  apply joined_prefix in X as (tail & T & Er); [|done..].
  rewrite T in Fd. apply Forall2_app_inv_l in Fd as (rows2 & rows3 & F2 & F3 & Rs).
  assert (rows2 = rows1) as ->.
  { clear -F2 Fd1. revert rows1 Fd1. induction F2 as [|l x ls xs D _ IH]; intros rows1 F1; inversion F1 as [|? y ? ys D' F1']; subst; [done|].
    unfold decodes in *. rewrite D in D'. injection D' as <-. f_equal. by apply IH. }
  split_and!.
  - by exists rows3.
  - intros n Hn. destruct (Ok1 n Hn) as (-> & -> & ->). rewrite Cm in Er by done. cbn [app] in Er.
    destruct tail as [|x tail]; [|rewrite joined_cons in Er; by destruct x]. inversion F3; subst. rewrite app_nil_r in Rs.
    split; [done|]. unfold zlen. by rewrite <- Rs, length_map.
  - intros Ca. assert (complete = true) as ->.
    { destruct (calm_query _ Ca sql w1) as (x & y & X). rewrite Fb in X. by injection X. }
    rewrite Cm, app_nil_r in E by done.
    destruct (read_total env layout b sleep fetch deliver interrupted polls ps (concat (map blocks_of chunks)) (calm_wait _ Ca) [] [] w2
      (map line_of stored)) as (x & y & n & Rt); [done|by intros ?%elem_of_nil|by rewrite Cb| |].
    { apply list.Forall_fmap, list.Forall_forall. intros s Hs. rewrite list.Forall_forall in St. destruct (stored_line ps s (St s Hs)) as [Ls Ds].
      destruct (calm_rows _ Ca s Hs) as (Z1 & Z2 & Z3). split_and!; [done|done|]. by exists (row_of s). }
    rewrite Rt in Rd'. injection Rd' as _ <- _. by exists n.
Qed.
End Snapshot.

(** *** Witness: two rows in blocks of five bytes *)

Definition sample_projection : Projection := mkProjection (u "t") (u "t") [u "a"; u "b"] [0%nat].
Definition sample_stored : list Stored :=
  [mkStored 0 sample_projection [VInt 7; VBinary [104; 105]] [hexed (u "int") (utf8 (show_Z 7)); hexed (u "binary") [104; 105]];
   mkStored 0 sample_projection [VInt (-1); VNull] [hexed (u "int") (utf8 (show_Z (-1))); u "null:"]].
Definition sample_environment : Environment unit :=
  mkEnvironment unit (fun _ => false) (fun _ => 0) (fun _ => 7) (fun _ w => w) (fun _ => fresh_counters false) (fun _ w => w).
Definition sample_client : Client unit unit := {|
  query _ _ w := (Ok [], w);
  fetch_bytes _ w := (Some (PostgresWire.chunks 5 (response sample_stored), true), w);
|}.
Definition sample_session : Session := mkSession (Some (mkMetadata ClickHouse
  [mkTable (u "t") [] [mkColumn (u "a") (u "Int64") false None false 0 None false false;
                       mkColumn (u "b") (u "Nullable(String)") true None false 0 None false false] [] false true]
  false true false false [] [])) None.
Abbreviation sample_stream := (session_stream_rows sample_environment sample_layout default_budget (fun w => w) (fun w => w)
  (fun _ w => (true, w)) (fun _ => false) sample_client (fun _ => sample_session) (u "shop") 3 [sample_projection]) (only parsing).
Lemma sample_stored_ok : Forall (stored_ok [sample_projection]) sample_stored.
Proof.
  unfold sample_stored. repeat constructor; cbn; unfold u64_max, i64_range; try lia; try done;
    apply (bool_decide_unpack (Forall _ _)); vm_compute; exact I.
Qed.
Lemma clickhouse_stream_exact_witness : (sample_stream tt).1 = (map row_of sample_stored, Ok 2).
Proof.
  destruct (sample_stream tt) as [[rows r] w'] eqn:E.
  destruct (clickhouse_stream_exact sample_environment sample_layout default_budget (fun w => w) (fun w => w) (fun _ w => (true, w))
    (fun _ => false) sample_client (fun _ => sample_session) (u "shop") 3 [sample_projection] sample_stored tt rows r w') as (_ & B & C).
  - exact sample_stored_ok.
  - intros sql w q w1 [= <- <-]. right. exists (PostgresWire.chunks 5 (response sample_stored)), true, [].
    destruct (chunks_fuel_all (length (response sample_stored)) 5 (response sample_stored)) as [J F]; [done|done|].
    split_and!; [done|exact F|by rewrite app_nil_r|done].
  - exact E.
  - destruct C as [n Hn].
    { split.
      - by intros w.
      - by intros w.
      - eexists. split; [reflexivity|]. vm_compute. reflexivity.
      - intros []. vm_compute. reflexivity.
      - intros sql w. by eexists _, _.
      - intros s Hs. unfold sample_stored in Hs. rewrite !elem_of_cons in Hs. destruct Hs as [->|[->|[]%elem_of_nil]];
          (split_and!; [vm_compute; discriminate|vm_compute; discriminate|intros []; vm_compute; reflexivity]). }
    destruct (B n Hn) as [-> ->]. cbn [fst]. by rewrite Hn.
Defined.

End ClickHouseChannel.
