(* ===== verification/RegistryFrame.v ===== *)
(** What an operation of the task registry leaves alone: which tasks stay
    settled, which execution identifiers and which previews the records can
    come to carry. *)
From S2P Require Import Prelude RustText DataTypes History Registry.
Import DataTypes History Registry.

Module RegistryFrame.

(** ** Definitions *)

(** No worker owes the task anything: it is finished, or a preview that waits
    for its user. *)
Definition settled_entry (r : Entry) : Prop := terminal r = true \/ sn_status (snapshot_of r) = Ready.
Definition settled (id : str) (st : State) : Prop := forall r, records st !! id = Some r -> settled_entry r.
(** No task bears the execution identifier. *)
Definition fresh (x : str) (st : State) : Prop :=
  forall id r, records st !! id = Some r -> sn_execution_id (snapshot_of r) <> Some x.

(** An entry keeps its execution and its plan; its preview at most goes. *)
Record keeps (r r' : Entry) : Prop := {
  kp_execution : sn_execution_id (snapshot_of r') = sn_execution_id (snapshot_of r);
  kp_preview : sn_preview (snapshot_of r') = sn_preview (snapshot_of r) \/ sn_preview (snapshot_of r') = None;
  kp_plan : plan_id r' = plan_id r;
}.
(** Every record of [st'] is one of [st] that kept all this, and that stayed
    settled unless it is in [J]. *)
Definition moves (J : gset str) (st st' : State) : Prop := forall id r', records st' !! id = Some r' ->
  exists r, records st !! id = Some r /\ keeps r r' /\ (id ∉ J -> settled_entry r -> settled_entry r').

(** ** Lemmas *)

Lemma keeps_refl r : keeps r r.
Proof. split; [done|by left|done]. Qed.
Lemma keeps_trans r s t : keeps r s -> keeps s t -> keeps r t.
Proof. intros [] []. split; [congruence| |congruence]. intuition congruence. Qed.
Lemma moves_refl J st : moves J st st.
Proof. intros id r H. exists r. split; [done|]. split; [apply keeps_refl|done]. Qed.
Lemma moves_trans J st st1 st' : moves J st st1 -> moves J st1 st' -> moves J st st'.
Proof.
  intros M N id r' H. destruct (N id r' H) as (s & Hs & K & S). destruct (M id s Hs) as (r & Hr & K' & S').
  exists r. split; [done|]. split; [by eapply keeps_trans|auto].
Qed.
Lemma moves_weaken J J' st st' : J ⊆ J' -> moves J st st' -> moves J' st st'.
Proof. intros Sub M id r' H. destruct (M id r' H) as (r & Hr & K & S). exists r. split_and!; [done|done|]. intros N. apply S. set_solver. Qed.
Lemma moves_records J st st' : records st' = records st -> moves J st st'.
Proof. intros E id r H. rewrite E in H. exists r. split; [done|]. split; [apply keeps_refl|done]. Qed.

Lemma moves_settled J st st' id : moves J st st' -> id ∉ J -> settled id st -> settled id st'.
Proof. intros M N S r' H. destruct (M id r' H) as (r & Hr & _ & K). auto. Qed.
Lemma moves_fresh J st st' x : moves J st st' -> fresh x st -> fresh x st'.
Proof. intros M F id r' H. destruct (M id r' H) as (r & Hr & [-> _ _] & _). by eapply F. Qed.

Lemma moves_insert (J : gset str) st st' id r r' : records st !! id = Some r -> records st' = <[id := r']> (records st) ->
  keeps r r' -> (id ∉ J -> settled_entry r -> settled_entry r') -> moves J st st'.
Proof.
  intros H E K S i q. rewrite E. intros [[<- <-]|[_ Hq]]%lookup_insert_Some; [by exists r|].
  exists q. split; [done|]. split; [apply keeps_refl|done].
Qed.

#[export] Hint Resolve keeps_refl moves_refl : rust.

Lemma expire_entry e r : keeps r (expire_record e r) /\ (settled_entry r -> settled_entry (expire_record e r)).
Proof.
  unfold expire_record. destruct (due _ r); [|split; [apply keeps_refl|done]]. cbn. touch_simpl. simpl in *.
  split; [split; cbn; [done|by right|done]|]. intros _. left. unfold terminal. cbn. by replace (sn_status d) with Expired.
Qed.
Lemma expire_moves J e st : moves J st (expire e st).
Proof.
  intros id r'. rewrite expire_lookup. destruct (records st !! id) as [r|]; [|done]. intros [= <-]. exists r. split; [done|].
  destruct (expire_entry e r). done.
Qed.
Lemma expire_settled e st id : settled id st -> settled id (expire e st).
Proof. apply (moves_settled ∅); [apply expire_moves|set_solver]. Qed.
Lemma trim_moves J e st : moves J st (trim e st).
Proof.
  intros id r'. rewrite trim_lookup. case_bool_decide; [done|]. intros Hr. exists r'. split; [done|]. split; [apply keeps_refl|done].
Qed.

Lemma list_moves e st : moves ∅ st (list_tasks e st).1.
Proof. apply expire_moves. Qed.
Lemma active_moves e st : moves ∅ st (has_active e st).1.
Proof. apply expire_moves. Qed.
Lemma snapshot_moves e st id : moves ∅ st (snapshot e st id).1.
Proof. apply expire_moves. Qed.

Lemma cancel_moves e st id : moves ∅ st (cancel e st id).1.
Proof.
  unfold cancel. destruct (records st !! id) as [r|] eqn:H; [|apply moves_records; by case_match].
  destruct (_ || _) eqn:B; [apply moves_refl|]. apply orb_false_iff in B as [T _].
  destruct (_ || _) eqn:C; cbn [fst]; touch_simpl; simpl in *; (eapply moves_insert; [exact H|reflexivity|..]).
  - split; cbn; [done|by right|done].
  - intros _ _. left. unfold terminal. cbn. by replace (sn_status d) with Cancelled.
  - split; cbn; [done|by left|done].
  - intros _ [S|S]; [unfold terminal in S; congruence|]. rewrite S in C. discriminate.
Qed.

Lemma progress_moves e st id update : moves {[id]} st (progress e st id update).
Proof.
  unfold progress. destruct (records st !! id) as [r|] eqn:H; [|apply moves_refl]. destruct (_ || _ || _ || _); [apply moves_refl|].
  touch_simpl. simpl in *. eapply moves_insert; [exact H|reflexivity| |set_solver]. split; cbn; [done|by left|done].
Qed.

Lemma finish_moves e st id res : moves ∅ st (finish e st id res).1.
Proof.
  unfold finish. destruct (is_terminal (rs_status res)) eqn:T; [|apply moves_refl]. cbn [negb].
  destruct (records st !! id) as [r|] eqn:H; [|apply moves_refl]. destruct (terminal r) eqn:R; [apply moves_refl|].
  cbn [fst]. eapply moves_trans; [|apply trim_moves]. touch_simpl. simpl in *. eapply moves_insert; [exact H|reflexivity|..].
  - split; cbn; [done|by right|done].
  - intros _ _. left. unfold terminal. cbn. congruence.
Qed.
Lemma finish_settles e st id res : is_terminal (rs_status res) = true -> settled id (finish e st id res).1.
Proof.
  intros T r. unfold finish. rewrite T. cbn [negb]. destruct (records st !! id) as [q|] eqn:H; [|cbn [fst]; congruence].
  destruct (terminal q) eqn:Q; [cbn [fst]; rewrite H; intros [= <-]; by left|]. cbn [fst]. rewrite trim_lookup.
  case_bool_decide; [done|]. cbn [records]. rewrite lookup_insert_eq. intros [= <-]. left. unfold terminal. touch_simpl.
  simpl in *. congruence.
Qed.

Lemma append_moves e st id message : moves ∅ st (append_cleanup_error e st id message).
Proof.
  unfold append_cleanup_error. destruct (records st !! id) as [r|] eqn:H; [|apply moves_refl].
  destruct (is_terminal _) eqn:T; touch_simpl; simpl in *; (eapply moves_insert; [exact H|reflexivity|..]).
  - split; cbn; [done|by left|done].
  - intros _ _. left. unfold terminal. cbn. congruence.
  - split; cbn; [done|by left|done].
  - intros _ S. exact S.
Qed.

(** Starting a preview adds one unsettled record, without plan or execution. *)
Lemma register_frame e st id request st' x : register_preview e st id request = (st', x) ->
  moves ∅ st st' \/
  exists r, sn_preview (snapshot_of r) = None /\ sn_execution_id (snapshot_of r) = None /\ plan_id r = None /\
    (match x with Ok (s, start, _) => sn_task_id s = id /\ (start = false -> settled_entry r) | Err _ => False end) /\
    forall i q, records st' !! i = Some q -> (i = id /\ q = r) \/ exists p, records st !! i = Some p /\ keeps p q /\ (settled_entry p -> settled_entry q).
Proof.
  unfold register_preview. destruct (validate request); [|intros [= <- _]; left; apply moves_refl].
  destruct (_ || _); [intros [= <- _]; left; apply moves_refl|].
  destruct (records (expire e st) !! id) as [r|] eqn:H.
  { destruct (bool_decide _); intros [= <- _]; left; apply expire_moves. }
  destruct (3 <=? _); intros [= <- <-]; [left; apply expire_moves|]. right. set (c := bool_decide _).
  eexists (mkEntry (new_snapshot e id request c) _ None None []). do 3 (split; [done|]). split.
  { split; [done|]. intros N. left. unfold terminal. cbn. by destruct c. }
  intros i q. rewrite trim_lookup. case_bool_decide; [done|]. cbn [records].
  intros [[<- <-]|[N Hq]]%lookup_insert_Some; [by left|right]. destruct (expire_moves ∅ e st i q Hq) as (p & Hp & K & S).
  exists p. split; [done|]. split; [done|]. apply S. set_solver.
Qed.

(** Becoming ready gives one record a plan and its preview. *)
Lemma set_ready_frame e st id preview st' x : set_ready e st id preview = (st', x) ->
  match x with
  | Err _ => st' = st
  | Ok _ => settled id st' /\
    forall i q, records st' !! i = Some q -> exists p, records st !! i = Some p /\
      sn_execution_id (snapshot_of q) = sn_execution_id (snapshot_of p) /\ (settled_entry p -> settled_entry q) /\
      (keeps p q \/ sn_preview (snapshot_of q) = Some preview /\ plan_id q = Some (pv_plan_id preview))
  end.
Proof.
  unfold set_ready. destruct (records st !! id) as [r|] eqn:H; [|by intros [= <- <-]].
  destruct (_ || terminal r) eqn:T; [by intros [= <- <-]|]. destruct (negb _ || _); [by intros [= <- <-]|].
  intros [= <- <-]. touch_simpl. simpl in *. split.
  - intros q. cbn [records set_records]. rewrite lookup_insert_eq. intros [= <-]. by right.
  - intros i q. cbn [records set_records]. intros [[<- <-]|[_ Hq]]%lookup_insert_Some.
    + exists r. split_and!; [done|done|by right|]. right. done.
    + exists q. split_and!; [done|done|done|left; apply keeps_refl].
Qed.

(** Starting an execution gives one record its identifier; else nothing. *)
Lemma begin_frame valid_uuid e st input st' x : wf_env e -> Inv st -> begin_execution valid_uuid e st input = (st', x) ->
  match x with
  | Ok (s, true, _) => forall i q, records st' !! i = Some q ->
      exists p, records st !! i = Some p /\ plan_id q = plan_id p /\
        (sn_preview (snapshot_of q) = sn_preview (snapshot_of p) \/ sn_preview (snapshot_of q) = None) /\
        (sn_execution_id (snapshot_of q) = sn_execution_id (snapshot_of p) \/ sn_execution_id (snapshot_of q) = Some (ex_execution_id input)) /\
        (i <> sn_task_id s -> settled_entry p -> settled_entry q)
  | _ => moves ∅ st st'
  end.
Proof.
  intros W I E. destruct x as [[[s b] tok]|err]; [destruct b|]; cycle 1.
  { revert E. unfold begin_execution. destruct (negb _); [congruence|]. repeat case_match; intros [= <- _]; apply expire_moves. }
  { revert E. unfold begin_execution. destruct (negb _); [intros [= <- _]; apply moves_refl|].
    repeat case_match; intros [= <- _]; apply expire_moves. }
  apply begin_execution_ok in E as (id & r & H & _ & C & -> & -> & -> & _); [|done].
  pose proof (inv_key _ (expire_inv e st I) id r H) as Key.
  intros i q. cbn [records]. intros [[<- <-]|[N Hq]]%lookup_insert_Some.
  - destruct (expire_moves ∅ e st id r H) as (p & Hp & [K1 K2 K3] & _). exists p. touch_simpl. simpl in *.
    split_and!; [done|done|intuition congruence|by right|]. intros Ne _. congruence.
  - destruct (expire_moves ∅ e st i q Hq) as (p & Hp & [K1 K2 K3] & S). exists p. split_and!; [done|done|done|by left|].
    intros _. apply S. set_solver.
Qed.

(** The recovered history is settled and carries no plan. *)
Lemma restore_frame snapshots st : Forall recovered snapshots -> forall i q, records (restore st snapshots) !! i = Some q ->
  records st !! i = Some q \/ (settled_entry q /\ sn_preview (snapshot_of q) = None /\ plan_id q = None).
Proof.
  unfold restore. intros F. assert (F' : Forall recovered (take 100 snapshots)) by by apply Forall_take.
  revert st F'. induction (take 100 snapshots) as [|s l IH]; intros st F' i q; cbn [fold_left]; [by left|].
  apply list.Forall_cons in F' as [[T P] F']. intros H. destruct (IH _ F' i q H) as [K|K]; [|by right].
  unfold restore_one in K. destruct (records st !! sn_task_id s); [by left|]. cbn [records set_records] in K.
  apply lookup_insert_Some in K as [[<- <-]|[_ K]]; [right|by left]. cbn. split; [by left|done].
Qed.
End RegistryFrame.
