(* ===== verification/Runtime.v ===== *)
(** The data task runtime (src-tauri/src/commands/data_tasks.rs, with
    src-tauri/src/lifecycle.rs and the exit dialog of src-tauri/src/lib.rs): the
    commands, their background workers and the state they share.

    A command or worker is a program [Prog] of actions; an action is one
    section under a lock (the registry, the plans, the directory, the history)
    or one call of the outside (the saved connections, the two executors).
    [initialize] and [persist] are one action each: they hold their lock
    throughout, and only [initialize], before any task exists, reads the file
    they write.  Between two actions of a program any other may run.  What the
    outside answers is read from an [Oracle]. *)
From S2P Require Import Prelude RustText DataTypes History Registry MetaTypes Spool SpoolSort Metadata Plan PlanPages Connections.
Import DataTypes History Metadata Plan Connections.

Module Runtime.

Abbreviation Cancellation := Registry.Cancellation (only parsing).
Abbreviation ProgressUpdate := Registry.ProgressUpdate (only parsing).

(** ** State *)

Record PlanEnvelope : Type := mkEnvelope {
  en_plan : StoredDataPlan; en_source_digest : bytes; en_target_digest : bytes; en_directory : str }.

(** [prepared] is no part of the program's state: it records, per plan, the
    plan and the connections it was prepared with. *)
Record State : Type := mkState {
  registry : Registry.State;
  plans : gmap str PlanEnvelope;
  directory : option str;
  directory_lock : bool;
  disk : FS;
  exit_prompt_open : bool;
  prepared : gmap str (StoredDataPlan * ConnectionConfig * ConnectionConfig);
}.

Definition initial (fs : FS) : State := mkState Registry.initial ∅ None false fs false ∅.
Definition set_registry (r : Registry.State) (st : State) : State :=
  mkState r (plans st) (directory st) (directory_lock st) (disk st) (exit_prompt_open st) (prepared st).
Definition set_plans (p : gmap str PlanEnvelope) (st : State) : State :=
  mkState (registry st) p (directory st) (directory_lock st) (disk st) (exit_prompt_open st) (prepared st).
Definition set_disk (fs : FS) (st : State) : State :=
  mkState (registry st) (plans st) (directory st) (directory_lock st) fs (exit_prompt_open st) (prepared st).
Definition set_prompt (b : bool) (st : State) : State :=
  mkState (registry st) (plans st) (directory st) (directory_lock st) (disk st) b (prepared st).
Definition record_prepared (id : str) (p : StoredDataPlan * ConnectionConfig * ConnectionConfig) (st : State) : State :=
  mkState (registry st) (plans st) (directory st) (directory_lock st) (disk st) (exit_prompt_open st) (<[id := p]> (prepared st)).

(** ** Checks *)

Definition file_error : DataTaskError := new_error "resource_limit" "无法初始化数据任务临时目录或历史记录".
Definition internal_error : DataTaskError := new_error "task_failed" "数据任务执行中断，请重新预览或核对目标".
Definition failed_result (error : DataTaskError) : DataTaskResult :=
  mkResult (if str_eqb (err_code error) (u "cancelled") then Cancelled else Failed) CsNone [] (Some error) [] false.
Definition interrupted_result (plan : StoredDataPlan) : DataTaskResult :=
  mkResult OutcomeUnknown CsUnknown (pv_tables (sp_preview plan))
    (Some (new_error "outcome_unknown" "执行中断，提交结果无法确认，请先核对目标")) [] true.

Definition get_config_capabilities (source target : ConnectionConfig) : DataTaskCapabilities :=
  capabilities (cc_database_type source) (cc_database_type target) (default false (cc_read_only target)) true.

Definition stale (message : String.string) : DataTaskError := new_error "plan_stale" message.
Arguments stale message%_string.

Definition selected_configs (saved : list ConnectionConfig) (request : DataTaskRequest) :
  result (ConnectionConfig * ConnectionConfig) DataTaskError :=
  check? validate request in
  let? source := map_err (fun _ => stale "源端保存连接不存在或已删除")
    (find_saved_connection saved (ep_saved_connection_id (rq_source request)) (u "源端")) in
  let? target := map_err (fun _ => stale "目标端保存连接不存在或已删除")
    (find_saved_connection saved (ep_saved_connection_id (rq_target request)) (u "目标端")) in
  if bool_decide (cc_read_only target = Some true)
  then Err (new_error "read_only_target" "目标连接为只读，不能执行数据任务")
  else Ok (source, target).

(** *** The capabilities of two endpoints *)

Definition table_objects (keep : MetaTypes.DataColumn -> bool) (m : MetaTypes.DataMetadataSnapshot) : list DataTaskObject :=
  map (fun t => mkObject (MetaTypes.tb_name t) (map MetaTypes.dc_name (filter (fun c => keep c = true) (MetaTypes.tb_columns t))))
    (filter (fun t => MetaTypes.tb_physical t = true) (MetaTypes.md_tables m)).
Definition writable (c : MetaTypes.DataColumn) : bool := negb (MetaTypes.dc_generated c).
Definition with_tables (source target : list DataTaskObject) (c : DataTaskCapabilities) : DataTaskCapabilities :=
  mkCapabilities (cap_row_sync c) (cap_transfer c) (cap_supported_modes c) (cap_blockers c) source target.
Definition restrict_capabilities (caps metadata_caps : DataTaskCapabilities) : DataTaskCapabilities :=
  mkCapabilities (cap_row_sync caps && cap_row_sync metadata_caps) (cap_transfer caps && cap_transfer metadata_caps)
    (filter (fun mode => mode ∈ cap_supported_modes metadata_caps) (cap_supported_modes caps))
    (cap_blockers caps ++ cap_blockers metadata_caps) (cap_source_tables caps) (cap_target_tables caps).

(** The read-only opening of a SQLite file and its metadata, the inspection of
    two sessions, and whether the blocking thread was joined. *)
Section Capabilities.
Context {C : Type} (open_readonly : str -> option C) (load_metadata : C -> option MetaTypes.DataMetadataSnapshot).
Context (inspect : ConnectionConfig -> DataEndpoint -> ConnectionConfig -> DataEndpoint ->
  result (MetaTypes.DataMetadataSnapshot * MetaTypes.DataMetadataSnapshot) DataTaskError) (joined : bool).

Definition sqlite_objects (config : ConnectionConfig) : result (list DataTaskObject) DataTaskError :=
  let? path := ok_or (cc_sqlite_path config) (stale "SQLite 文件配置不存在") in
  let? connection := ok_or (open_readonly path) (new_error "unsupported_capability" "无法只读打开 SQLite 文件") in
  let? m := ok_or (load_metadata connection) (new_error "unsupported_capability" "无法批量读取 SQLite 元数据") in
  Ok (table_objects writable m).

Definition get_data_task_capabilities (saved : result (list ConnectionConfig) DataTaskError) (source target : DataEndpoint) :
  result DataTaskCapabilities DataTaskError :=
  let? saved := saved in
  let? s := map_err (fun _ => stale "源端连接已删除") (find_saved_connection saved (ep_saved_connection_id source) (u "源端")) in
  let? t := map_err (fun _ => stale "目标端连接已删除") (find_saved_connection saved (ep_saved_connection_id target) (u "目标端")) in
  let caps := get_config_capabilities s t in
  if bool_decide (cc_database_type s = Sqlite) && bool_decide (cc_database_type t = Sqlite)
  then
    if negb (str_eqb (ep_database source) (u "main")) || negb (str_eqb (ep_database target) (u "main"))
    then Err (new_error "unsupported_capability" "SQLite 数据任务仅支持 main 数据库")
    else
      let? (source_tables, target_tables) :=
        if joined then (let? s := sqlite_objects s in let? t := sqlite_objects t in Ok (s, t)) else Err internal_error in
      Ok (with_tables source_tables target_tables caps)
  else if negb (is_empty (cap_supported_modes caps))
  then
    let? (source_metadata, target_metadata) := inspect s source t target in
    let caps := restrict_capabilities caps (get_capabilities source_metadata target_metadata) in
    Ok (with_tables (table_objects (fun _ => true) source_metadata) (table_objects writable target_metadata) caps)
  else Ok caps.
End Capabilities.

Section Digests.
(** [serde_json::to_vec] at [ConnectionConfig] and [Sha256::digest]. *)
Context (config_vec : ConnectionConfig -> option bytes) (sha256 : bytes -> bytes).

Definition configuration_digest (config : ConnectionConfig) : bytes := sha256 (default [] (config_vec config)).
Definition check_configurations (source target : ConnectionConfig) (expected_source expected_target : bytes) :
  result unit DataTaskError :=
  if negb (bool_decide (configuration_digest source = expected_source))
     || negb (bool_decide (configuration_digest target = expected_target))
  then Err (stale "保存连接已变更，请重新预览")
  else Ok tt.
End Digests.

(** [path.join(name)] *)
Definition join (path name : str) : str := path ++ u "/" ++ name.
Definition history_path (dir : str) : str := join dir (u "history.json").

(** The directories and the advisory lock: the functions of std::fs, tauri and
    util/secure_fs.rs that [initialize] calls. *)
Record Directories : Type := mkDirectories {
  app_data_dir : option str;
  is_dir : FileNode -> bool;
  create_dir_all : FS -> str -> FS * bool;
  set_secure_dir_permissions : FS -> str -> FS * bool;
  try_lock : FS -> str -> bool;
  exists_path : FS -> str -> bool;
  remove_dir_all : FS -> str -> FS * bool;
  create_dir : FS -> str -> FS * bool;
}.

Section Files.
Context (files : FileOps) (from_slice : bytes -> option (list DataTaskSnapshot)) (dirs : Directories).

Definition not_a_directory (m : FileNode) : bool := negb (is_dir dirs m) || is_symlink m.
Definition lock_directory (fs : FS) (dir : str) : FS * result unit DataTaskError :=
  let path := join dir (u "runtime.lock") in
  let '(fs, ok) := create_secure_file files fs path in
  if negb ok then (fs, Err file_error)
  else if negb (try_lock dirs fs path)
  then (fs, Err (new_error "task_busy" "另一个 DB Connect 实例正在使用数据任务，请在该实例中操作"))
  else (fs, Ok tt).

(** The fresh [snapshots] directory. *)
Definition recreate_snapshots (fs : FS) (snapshots : str) : FS * result unit DataTaskError :=
  let '(fs, removed) :=
    if exists_path dirs fs snapshots
    then match symlink_metadata files fs snapshots with
         | MetaOk m =>
           if not_a_directory m then (fs, Err file_error)
           else let '(fs, ok) := remove_dir_all dirs fs snapshots in (fs, if ok then Ok tt else Err file_error)
         | _ => (fs, Err file_error)
         end
    else (fs, Ok tt) in
  match removed with
  | Err e => (fs, Err e)
  | Ok _ =>
    let '(fs, ok) := create_dir dirs fs snapshots in
    if negb ok then (fs, Err file_error)
    else let '(fs, ok) := set_secure_dir_permissions dirs fs snapshots in (fs, if ok then Ok tt else Err file_error)
  end.

Definition open_directory (fs : FS) (dir : str) : FS * result (list DataTaskSnapshot) DataTaskError :=
  if match symlink_metadata files fs dir with MetaOk m => not_a_directory m | _ => false end then (fs, Err file_error)
  else
    let '(fs, ok) := create_dir_all dirs fs dir in
    if negb ok then (fs, Err file_error)
    else
      let '(fs, ok) := set_secure_dir_permissions dirs fs dir in
      if negb ok then (fs, Err file_error)
      else
        let '(fs, locked) := lock_directory fs dir in
        match (let? _ := locked in load_history files from_slice fs (history_path dir)) with
        | Err e => (fs, Err e)
        | Ok restored =>
          let '(fs, created) := recreate_snapshots fs (join dir (u "snapshots")) in
          (fs, let? _ := created in Ok restored)
        end.

Definition initialize (st : State) : State * result str DataTaskError :=
  match directory st with
  | Some dir => (st, Ok dir)
  | None =>
    match app_data_dir dirs with
    | None => (st, Err file_error)
    | Some data =>
      let dir := join data (u "data-tasks") in
      let '(fs, opened) := open_directory (disk st) dir in
      match opened with
      | Err e => (set_disk fs st, Err e)
      | Ok restored =>
        (mkState (Registry.restore (registry st) restored) (plans st) (Some dir) true fs (exit_prompt_open st) (prepared st), Ok dir)
      end
    end
  end.

Context (to_vec : list DataTaskSnapshot -> option bytes).
Definition persist (e : Registry.Env) (uuid : str) (st : State) : State * result unit DataTaskError :=
  match directory st with
  | None => (st, Err file_error)
  | Some dir =>
    let '(r, tasks) := Registry.list_tasks e (registry st) in
    let '(fs, saved) := save_history files to_vec (disk st) (join dir (u "data-task-history-" ++ uuid ++ u ".tmp"))
                          (history_path dir) tasks in
    (set_disk fs (set_registry r st), saved)
  end.
End Files.

(** ** The exit of the application *)

Inductive ExitDecision : Type := Allow | Confirm | KeepOpen.
Definition request_exit (has_active_tasks prompt_open : bool) : ExitDecision * bool :=
  if negb has_active_tasks then (Allow, prompt_open)
  else if prompt_open then (KeepOpen, true) else (Confirm, true).

(** ** Actions *)

Definition Reports (R : Type) : Type := list ProgressUpdate * option R.

Inductive Action : Type -> Type :=
| Initialize : Action (result str DataTaskError)
| Persist : Action (result unit DataTaskError)
| RegisterPreview (task_id : str) (request : DataTaskRequest) : Action (result (DataTaskSnapshot * bool * Cancellation) DataTaskError)
| SetReady (task_id : str) (preview : DataTaskPreview) : Action (result DataTaskSnapshot DataTaskError)
| BeginExecution (input : ExecuteDataTaskInput) : Action (result (DataTaskSnapshot * bool * Cancellation) DataTaskError)
| Cancel (task_id : str) : Action (result DataTaskSnapshot DataTaskError)
| Snapshot (task_id : str) : Action (result DataTaskSnapshot DataTaskError)
| Progress (task_id : str) (update : ProgressUpdate) : Action unit
| Finish (task_id : str) (r : DataTaskResult) : Action (result DataTaskSnapshot DataTaskError)
| ListTasks : Action (list DataTaskSnapshot)
| HasActive : Action bool
| AppendCleanupError (task_id message : str) : Action unit
| InsertPlan (plan_id : str) (envelope : PlanEnvelope) : Action unit
| RemovePlan (plan_id : str) : Action unit
| RetainPlans (keep : gset str) : Action (list (str * str))
| GetPlan (plan_id : str) : Action (option PlanEnvelope)
| StoreCancel (cancel : Cancellation) : Action unit
| SavedConnections : Action (result (list ConnectionConfig) DataTaskError)
| FreshUuid : Action str
| Elapsed : Action bool
| Emit (s : DataTaskSnapshot) : Action unit
| RemoveDirectory (path : str) : Action bool
| RemoveEmptyDirectory (path : str) : Action unit
| PrepareTask (task_id : str) (request : DataTaskRequest) (source target : ConnectionConfig) (path : str) (cancel : Cancellation) :
    Action (Reports (result StoredDataPlan DataTaskError))
| ExecutePlan (plan : StoredDataPlan) (source target : ConnectionConfig) (cancel : Cancellation) : Action (Reports DataTaskResult)
| DiffPage (plan : StoredDataPlan) (table_id : str) (cursor : option str) (page_size : Z) : Action (option (result DataDiffPage str))
| RequestExit (active : bool) : Action ExitDecision
| ContinueWaiting : Action unit.

(** What the outside answers: the clock and the hash map's order, a fresh
    UUID, the saved connections, what the two executors report and return
    ([None] when the worker panicked), whether 200 ms have passed since the
    last event, whether a directory could not be removed, the counters of the
    plan's budget. *)
Record Oracle : Type := mkOracle {
  o_env : Registry.Env;
  o_uuid : str;
  o_saved : result (list ConnectionConfig) str;
  o_prepared : Reports (result StoredDataPlan DataTaskError);
  o_executed : Reports DataTaskResult;
  o_elapsed : bool;
  o_not_removed : bool;
  o_joined : bool;
  o_counters : Spool.Counters;
}.

Section Perform.
Context (config_vec : ConnectionConfig -> option bytes) (sha256 : bytes -> bytes) (valid_uuid : str -> bool).
Context (files : FileOps) (from_slice : bytes -> option (list DataTaskSnapshot)) (to_vec : list DataTaskSnapshot -> option bytes).
Context (dirs : Directories) (show_f64 : Z -> str) (json_size : DataDiffItem -> option Z) (page_vec : DataDiffPage -> option bytes).
Context (budget : Spool.ResourceBudget).

Definition on_registry {B} (f : Registry.State -> Registry.State * B) (st : State) : State * B :=
  let '(r, x) := f (registry st) in (set_registry r st, x).

Definition perform {B} (a : Action B) (o : Oracle) (st : State) : State * B :=
  let e := o_env o in
  match a in Action B return State * B with
  | Initialize => initialize files from_slice dirs st
  | Persist => persist files to_vec e (o_uuid o) st
  | RegisterPreview task_id request => on_registry (fun r => Registry.register_preview e r task_id request) st
  | SetReady task_id preview => on_registry (fun r => Registry.set_ready e r task_id preview) st
  | BeginExecution input => on_registry (fun r => Registry.begin_execution valid_uuid e r input) st
  | Cancel task_id => on_registry (fun r => Registry.cancel e r task_id) st
  | Snapshot task_id => on_registry (fun r => Registry.snapshot e r task_id) st
  | Progress task_id update => on_registry (fun r => (Registry.progress e r task_id update, tt)) st
  | Finish task_id res => on_registry (fun r => Registry.finish e r task_id res) st
  | ListTasks => on_registry (Registry.list_tasks e) st
  | HasActive => on_registry (Registry.has_active e) st
  | AppendCleanupError task_id message => on_registry (fun r => (Registry.append_cleanup_error e r task_id message, tt)) st
  | InsertPlan plan_id envelope => (set_plans (<[plan_id := envelope]> (plans st)) st, tt)
  | RemovePlan plan_id => (set_plans (delete plan_id (plans st)) st, tt)
  | RetainPlans keep =>
    (set_plans (filter (fun '(id, _) => id ∈ keep) (plans st)) st,
     map (fun '(_, p) => (pv_task_id (sp_preview (en_plan p)), en_directory p))
       (filter (fun '(id, _) => id ∉ keep) (map_to_list (plans st))))
  | GetPlan plan_id => (st, plans st !! plan_id)
  | StoreCancel cancel =>
    (set_registry (Registry.mkState (Registry.records (registry st)) (Registry.cancelled_before_register (registry st))
       (Registry.writer (registry st)) (Registry.store cancel (Registry.tokens (registry st)))) st, tt)
  | SavedConnections => (st, map_err (fun _ => stale "读取保存连接失败，请检查连接配置") (o_saved o))
  | FreshUuid => (st, o_uuid o)
  | Elapsed => (st, o_elapsed o)
  | Emit _ => (st, tt)
  | RemoveDirectory _ => (st, o_not_removed o)
  | RemoveEmptyDirectory _ => (st, tt)
  | PrepareTask task_id request source target path cancel =>
    (match snd (o_prepared o) with
     | Some (Ok plan) => record_prepared (pv_plan_id (sp_preview plan)) (plan, source, target) st
     | _ => st
     end, o_prepared o)
  | ExecutePlan plan source target cancel => (st, o_executed o)
  | DiffPage plan table_id cursor page_size =>
    (st, if o_joined o then Some (PlanPages.diff_page show_f64 json_size budget (o_counters o) plan table_id cursor page_size) else None)
  | RequestExit active => let '(d, open) := request_exit active (exit_prompt_open st) in (set_prompt open st, d)
  | ContinueWaiting => (set_prompt false st, tt)
  end.
End Perform.

(** ** Programs *)

(** The two background workers a command spawns. *)
Inductive Job : Type :=
| PreviewJob (directory task_id : str) (request : DataTaskRequest) (source target : ConnectionConfig) (cancel : Cancellation)
| ExecuteJob (task_id : str) (envelope : PlanEnvelope) (source target : ConnectionConfig) (cancel : Cancellation).

Inductive Prog (A : Type) : Type :=
| Ret (a : A)
| Act {B : Type} (a : Action B) (k : B -> Prog A)
| Spawn (job : Job) (k : Prog A).
#[global] Arguments Ret {A}.
#[global] Arguments Act {A B}.
#[global] Arguments Spawn {A}.

Fixpoint bind {A B} (p : Prog A) (f : A -> Prog B) : Prog B :=
  match p with
  | Ret a => f a
  | Act a k => Act a (fun b => bind (k b) f)
  | Spawn job k => Spawn job (bind k f)
  end.

Declare Scope prog_scope.
Notation "'let!' x := a 'in' k" := (Act a (fun x => k))
  (at level 10, x pattern, a at level 100, k at level 200, format "'[v' 'let!'  x  :=  a  'in' '/' k ']'") : prog_scope.
Notation "'then!' p 'in' k" := (bind p (fun _ => k))
  (at level 10, p at level 100, k at level 200, format "'[v' 'then!'  p  'in' '/' k ']'") : prog_scope.
Notation "'call!' x := p 'in' k" := (bind p (fun x => k))
  (at level 10, x pattern, p at level 100, k at level 200, format "'[v' 'call!'  x  :=  p  'in' '/' k ']'") : prog_scope.
#[local] Open Scope prog_scope.

Definition act {B} (a : Action B) : Prog B := Act a Ret.
Definition unless (b : bool) (p : Prog unit) : Prog unit := if b then Ret tt else p.
(** [?] in a command. *)
Definition try_ {A B} (r : result A DataTaskError) (k : A -> Prog (result B DataTaskError)) : Prog (result B DataTaskError) :=
  match r with Ok a => k a | Err e => Ret (Err e) end.

(** *** The methods *)

Definition publish (s : DataTaskSnapshot) : Prog unit :=
  let! saved := Persist in
  then! unless (is_ok saved)
          (act (AppendCleanupError (sn_task_id s) (u "任务摘要保存失败，请在退出前保留并核对执行结果"))) in
  let! current := Snapshot (sn_task_id s) in
  act (Emit (match current with Ok c => c | Err _ => s end)).

Fixpoint remove_directories (removed : list (str * str)) : Prog unit :=
  match removed with
  | [] => Ret tt
  | (task_id, path) :: removed =>
    let! failed := RemoveDirectory path in
    then! unless (negb failed) (act (AppendCleanupError task_id (u "临时快照清理失败，将在下次启动时重试"))) in
    remove_directories removed
  end.
Definition kept_plans (tasks : list DataTaskSnapshot) : gset str :=
  list_to_set (omap (fun s => pv_plan_id <$> sn_preview s) tasks).
Definition prune : Prog unit :=
  let! tasks := ListTasks in
  let! removed := RetainPlans (kept_plans tasks) in
  remove_directories removed.
Definition maintenance : Prog unit :=
  then! prune in
  let! _ := Persist in Ret tt.

Fixpoint cancel_tasks (tasks : list DataTaskSnapshot) : Prog unit :=
  match tasks with
  | [] => Ret tt
  | s :: tasks =>
    then! unless (is_terminal (sn_status s))
            (let! cancelled := Cancel (sn_task_id s) in
             match cancelled with Ok s => publish s | Err _ => Ret tt end) in
    cancel_tasks tasks
  end.
Definition cancel_all : Prog unit :=
  let! tasks := ListTasks in
  then! cancel_tasks tasks in
  prune.

(** The callback of [progress], called with each update in turn; [last] is
    the status it emitted last. *)
Fixpoint progress (task_id : str) (cancel : Cancellation) (last : DataTaskStatus) (updates : list ProgressUpdate) : Prog unit :=
  match updates with
  | [] => Ret tt
  | update :: updates =>
    let status := Registry.up_status update in
    let! _ := Progress task_id update in
    let! elapsed := Elapsed in
    if negb (status_eqb last status) || elapsed
    then
      let! saved := Persist in
      then! unless (is_ok saved) (act (StoreCancel cancel)) in
      let! s := Snapshot task_id in
      then! match s with Ok s => act (Emit s) | Err _ => Ret tt end in
      progress task_id cancel status updates
    else progress task_id cancel last updates
  end.

Section Commands.
Context (config_vec : ConnectionConfig -> option bytes) (sha256 : bytes -> bytes) (page_vec : DataDiffPage -> option bytes).

(** *** The background workers *)

(** A plan becomes ready together with its envelope, or its task fails. *)
Definition settle_preview (task_id path : str) (source target : ConnectionConfig)
  (r : result StoredDataPlan DataTaskError) : Prog (result DataTaskSnapshot DataTaskError) :=
  match r with
  | Ok plan =>
    let preview := sp_preview plan in
    let plan_id := pv_plan_id preview in
    let! _ := InsertPlan plan_id (mkEnvelope plan (configuration_digest config_vec sha256 source)
                                    (configuration_digest config_vec sha256 target) path) in
    let! ready := SetReady task_id preview in
    match ready with
    | Ok s => Ret (Ok s)
    | Err error => let! _ := RemovePlan plan_id in act (Finish task_id (failed_result error))
    end
  | Err error => act (Finish task_id (failed_result error))
  end.
Definition preview_worker (directory task_id : str) (request : DataTaskRequest) (source target : ConnectionConfig)
  (cancel : Cancellation) : Prog unit :=
  let! uuid := FreshUuid in
  let path := join (join directory (u "snapshots")) (u "task-" ++ uuid) in
  let! (updates, r) := PrepareTask task_id request source target path cancel in
  then! progress task_id cancel Created updates in
  call! outcome := settle_preview task_id path source target (default (Err internal_error) r) in
  then! match outcome with Ok s => publish s | Err _ => Ret tt end in
  then! prune in
  act (RemoveEmptyDirectory path).

Definition execute_worker (task_id : str) (envelope : PlanEnvelope) (source target : ConnectionConfig) (cancel : Cancellation) :
  Prog unit :=
  let! (updates, r) := ExecutePlan (en_plan envelope) source target cancel in
  then! progress task_id cancel Created updates in
  let! _ := Finish task_id (default (interrupted_result (en_plan envelope)) r) in
  then! prune in
  let! s := Snapshot task_id in
  match s with Ok s => publish s | Err _ => Ret tt end.

Definition worker (job : Job) : Prog unit :=
  match job with
  | PreviewJob directory task_id request source target cancel => preview_worker directory task_id request source target cancel
  | ExecuteJob task_id envelope source target cancel => execute_worker task_id envelope source target cancel
  end.

(** *** The commands *)

(** The persistence a command needs before it may start its worker. *)
Definition launch (snapshot : DataTaskSnapshot) (job : Job) : Prog (result DataTaskSnapshot DataTaskError) :=
  let! saved := Persist in
  match saved with
  | Err error =>
    let! finished := Finish (sn_task_id snapshot) (failed_result error) in
    try_ finished (fun _ => Ret (Err error))
  | Ok _ =>
    then! publish snapshot in
    Spawn job (Ret (Ok snapshot))
  end.

Definition start_data_task_preview (task_id : str) (request : DataTaskRequest) : Prog (result DataTaskSnapshot DataTaskError) :=
  let! directory := Initialize in
  try_ directory (fun directory =>
  let! saved := SavedConnections in
  try_ (let? saved := saved in selected_configs saved request) (fun '(source, target) =>
  if negb (bool_decide (rq_mode request ∈ cap_supported_modes (get_config_capabilities source target)))
  then Ret (Err (new_error "unsupported_capability" "此数据库组合或模式尚未通过完整验收"))
  else
    let! registered := RegisterPreview task_id request in
    try_ registered (fun '(snapshot, start, cancel) =>
    if negb start then Ret (Ok snapshot)
    else launch snapshot (PreviewJob directory task_id request source target cancel)))).

Definition get_data_task (task_id : str) : Prog (result DataTaskSnapshot DataTaskError) :=
  let! directory := Initialize in
  try_ directory (fun _ =>
  let! s := Snapshot task_id in
  try_ s (fun s => then! prune in Ret (Ok s))).

Definition max_page_bytes : Z := 1024 * 1024.
Definition get_data_task_diff (plan_id table_id : str) (cursor : option str) (page_size : Z) : Prog (result DataDiffPage DataTaskError) :=
  let! directory := Initialize in
  try_ directory (fun _ =>
  then! prune in
  if (page_size =? 0) || (200 <? page_size) then Ret (Err (new_error "resource_limit" "差异每页必须为 1 至 200 行"))
  else
    let! entry := GetPlan plan_id in
    try_ (ok_or entry (stale "预览不存在或已过期")) (fun entry =>
    let! page := DiffPage (en_plan entry) table_id cursor page_size in
    try_ (let? page := ok_or page internal_error in
          map_err (fun _ => new_error "resource_limit" "读取差异失败，请检查分页参数或重新预览") page) (fun page =>
    Ret (let? data := ok_or (page_vec page) internal_error in
         if max_page_bytes <? zlen data then Err (new_error "resource_limit" "差异页超过 1 MiB，请减小页大小") else Ok page)))).

Definition execute_data_task (input : ExecuteDataTaskInput) : Prog (result DataTaskSnapshot DataTaskError) :=
  let! directory := Initialize in
  try_ directory (fun _ =>
  let! tasks := ListTasks in
  if existsb (fun s => bool_decide (sn_execution_id s = Some (ex_execution_id input))) tasks
  then
    let! begun := BeginExecution input in
    Ret (let? (s, _, _) := begun in Ok s)
  else
    then! prune in
    let! envelope := GetPlan (ex_plan_id input) in
    try_ (ok_or envelope (stale "预览已失效，请重新预览")) (fun envelope =>
    let! saved := SavedConnections in
    try_ (let? saved := saved in
          let? (source, target) := selected_configs saved (sp_request (en_plan envelope)) in
          check? check_configurations config_vec sha256 source target (en_source_digest envelope) (en_target_digest envelope) in
          Ok (source, target)) (fun '(source, target) =>
    let! begun := BeginExecution input in
    try_ begun (fun '(snapshot, start, cancel) =>
    if negb start then Ret (Ok snapshot)
    else launch snapshot (ExecuteJob (sn_task_id snapshot) envelope source target cancel))))).

Definition cancel_data_task (task_id : str) : Prog (result DataTaskSnapshot DataTaskError) :=
  let! directory := Initialize in
  try_ directory (fun _ =>
  let! cancelled := Cancel task_id in
  try_ cancelled (fun snapshot =>
  then! publish snapshot in
  then! prune in
  Ret (Ok snapshot))).

Definition list_data_tasks : Prog (result (list DataTaskSnapshot) DataTaskError) :=
  let! directory := Initialize in
  try_ directory (fun _ =>
  then! prune in
  let! tasks := ListTasks in
  Ret (Ok tasks)).

(** [registry.discard]: it takes the registry's lock twice. *)
Definition discard (plan_id : str) : Prog (result (option DataTaskSnapshot) DataTaskError) :=
  let! tasks := ListTasks in
  match find_first (fun s => is_some_and (fun p => str_eqb (pv_plan_id p) plan_id) (sn_preview s)) tasks with
  | None => Ret (Ok None)
  | Some s =>
    if is_some (sn_execution_id s) then Ret (Err (new_error "task_busy" "运行中计划不能被丢弃"))
    else
      let! cancelled := Cancel (sn_task_id s) in
      Ret (let? s := cancelled in Ok (Some s))
  end.
Definition discard_data_task_preview (plan_id : str) : Prog (result unit DataTaskError) :=
  let! directory := Initialize in
  try_ directory (fun _ =>
  call! discarded := discard plan_id in
  try_ discarded (fun discarded =>
  then! match discarded with Some snapshot => publish snapshot | None => Ret tt end in
  then! prune in
  Ret (Ok tt))).

(** *** The exit dialog *)

(** The request to exit: is the dialog to be shown? *)
Definition confirm_data_task_exit : Prog ExitDecision :=
  let! active := HasActive in
  act (RequestExit active).
(** The user's answer: cancel the tasks, or keep waiting. *)
Definition exit_answered (cancel : bool) : Prog unit :=
  if cancel then cancel_all else act ContinueWaiting.
(** One round of the loop that waits for the tasks; [true] exits. *)
Definition exit_round : Prog bool :=
  let! active := HasActive in
  if active then Ret false else then! maintenance in Ret true.

Inductive Command : Type :=
| CStart (task_id : str) (request : DataTaskRequest)
| CGet (task_id : str)
| CDiff (plan_id table_id : str) (cursor : option str) (page_size : Z)
| CExecute (input : ExecuteDataTaskInput)
| CCancel (task_id : str)
| CList
| CDiscard (plan_id : str)
| CMaintenance
| CExit
| CExitAnswered (cancel : bool)
| CExitRound.

(** The reply goes to the window. *)
Definition run {A} (p : Prog A) : Prog unit := then! p in Ret tt.
Definition command (c : Command) : Prog unit :=
  match c with
  | CStart task_id request => run (start_data_task_preview task_id request)
  | CGet task_id => run (get_data_task task_id)
  | CDiff plan_id table_id cursor page_size => run (get_data_task_diff plan_id table_id cursor page_size)
  | CExecute input => run (execute_data_task input)
  | CCancel task_id => run (cancel_data_task task_id)
  | CList => run list_data_tasks
  | CDiscard plan_id => run (discard_data_task_preview plan_id)
  | CMaintenance => maintenance
  | CExit => run confirm_data_task_exit
  | CExitAnswered cancel => exit_answered cancel
  | CExitRound => run exit_round
  end.
End Commands.

(** ** The system: the programs that run, over the shared state *)

Section System.
Context (config_vec : ConnectionConfig -> option bytes) (sha256 : bytes -> bytes) (valid_uuid : str -> bool).
Context (files : FileOps) (from_slice : bytes -> option (list DataTaskSnapshot)) (to_vec : list DataTaskSnapshot -> option bytes).
Context (dirs : Directories) (show_f64 : Z -> str) (json_size : DataDiffItem -> option Z) (budget : Spool.ResourceBudget).

(** What holds of the outside's answers: clock readings fit their type; the
    identifier of a new plan is new (a random UUID drawn in [build_plan]);
    [execute_plan] returns a terminal result. *)
Definition admissible {B} (a : Action B) (o : Oracle) (st : State) : Prop :=
  Registry.wf_env (o_env o) /\
  match a with
  | PrepareTask _ _ _ _ _ _ => forall plan, snd (o_prepared o) = Some (Ok plan) -> prepared st !! pv_plan_id (sp_preview plan) = None
  | ExecutePlan _ _ _ _ => forall r, snd (o_executed o) = Some r -> is_terminal (rs_status r) = true
  | _ => True
  end.
Definition answers (p : Prog unit) (o : Oracle) (st : State) : Prop :=
  match p with Act a _ => admissible a o st | _ => True end.

(** The next step of a program: what it becomes, and the job it spawned. *)
Definition step_prog (p : Prog unit) (o : Oracle) (st : State) : State * list (Prog unit) * list Job :=
  match p with
  | Ret _ => (st, [], [])
  | Act a k => let '(st', b) := perform valid_uuid files from_slice to_vec dirs show_f64 json_size budget a o st in (st', [k b], [])
  | Spawn job k => (st, [k; worker config_vec sha256 job], [job])
  end.

Record System : Type := mkSystem { sy_state : State; sy_pool : list (Prog unit); sy_spawned : list Job }.

Inductive sys_step : System -> System -> Prop :=
| SysStep st before p after spawned o st' ps js :
    answers p o st -> step_prog p o st = (st', ps, js) ->
    sys_step (mkSystem st (before ++ p :: after) spawned) (mkSystem st' (before ++ ps ++ after) (spawned ++ js)).

(** The interface may issue a command at any time. *)
Context (page_vec : DataDiffPage -> option bytes).
Inductive run_step : System -> System -> Prop :=
| RunStep s s' : sys_step s s' -> run_step s s'
| RunCommand st pool spawned c :
    run_step (mkSystem st pool spawned) (mkSystem st (pool ++ [command config_vec sha256 page_vec c]) spawned).

(** *** Concrete runs: a schedule names the program to step and the answer. *)

Definition admissibleb {B} (a : Action B) (o : Oracle) (st : State) : bool :=
  match a with
  | PrepareTask _ _ _ _ _ _ =>
    match snd (o_prepared o) with Some (Ok plan) => negb (is_some (prepared st !! pv_plan_id (sp_preview plan))) | _ => true end
  | ExecutePlan _ _ _ _ => match snd (o_executed o) with Some r => is_terminal (rs_status r) | None => true end
  | _ => true
  end.
Fixpoint run_schedule (schedule : list (nat * Oracle)) (s : System) : option System :=
  match schedule with
  | [] => Some s
  | (i, o) :: schedule =>
    match sy_pool s !! i with
    | None => None
    | Some p =>
      if match p with Act a _ => admissibleb a o (sy_state s) | _ => true end
      then
        let '(st, ps, js) := step_prog p o (sy_state s) in
        run_schedule schedule (mkSystem st (take i (sy_pool s) ++ ps ++ drop (S i) (sy_pool s)) (sy_spawned s ++ js))
      else None
    end
  end.

Lemma admissibleb_ok {B} (a : Action B) o st : Registry.wf_env (o_env o) -> admissibleb a o st = true -> admissible a o st.
Proof.
  intros W H. split; [done|]. destruct a; try done; cbn in *.
  - intros plan E. rewrite E in H. by destruct (prepared st !! _).
  - intros r E. by rewrite E in H.
Qed.
Lemma run_schedule_steps schedule s s' : Forall (fun x => Registry.wf_env (o_env x.2)) schedule ->
  run_schedule schedule s = Some s' -> rtc sys_step s s'.
Proof.
  intros F. revert s. induction F as [|[i o] schedule W _ IH]; intros s; cbn [run_schedule]; [intros [= <-]; apply rtc_refl|].
  destruct (sy_pool s !! i) as [p|] eqn:Hp; [|done]. destruct (match p with Act _ _ => _ | _ => _ end) eqn:Ad; [|done].
  destruct (step_prog p o (sy_state s)) as [[st ps] js] eqn:E. intros H. eapply rtc_l; [|by apply IH].
  destruct s as [st0 pool spawned]. cbn [sy_state sy_pool sy_spawned] in *. rewrite <- (take_drop_middle _ _ _ Hp) at 1.
  econstructor; [|exact E]. destruct p; try exact I. by apply admissibleb_ok.
Qed.
End System.

(** A machine on which everything succeeds, and a prepared plan. *)
Definition sample_directories : Directories :=
  mkDirectories (Some (u "data")) (fun _ => true) (fun fs _ => (fs, true)) (fun fs _ => (fs, true)) (fun _ _ => true) (fun _ _ => false)
    (fun fs _ => (fs, true)) (fun fs _ => (fs, true)).
Definition sample_end (id : str) : ConnectionConfig := with_place (Some id) None sample_connection.
Definition sample_plan : StoredDataPlan :=
  let none := SpoolSort.mkSorted [] [] in
  let metadata := MetaTypes.mkMetadata Postgres [] false true true true [] [] in
  mkPlan sample_request (MetaTypes.mkValidated [] [] []) Registry.sample_preview none none none [] none metadata metadata.
Definition sample_oracle : Oracle :=
  mkOracle Registry.sample_env (u "x") (Ok [sample_end (u "source"); sample_end (u "target")]) ([], Some (Ok sample_plan))
    ([], Some (mkResult Succeeded CsCommitted [] None [] true)) true false true (Spool.fresh_counters false).
Definition sample_digest : bytes -> bytes := fun b => b.
Definition sample_config_vec (c : ConnectionConfig) : option bytes := cc_id c.

Abbreviation sample_command := (command sample_config_vec sample_digest (fun _ => None)) (only parsing).
Abbreviation on_sample f := (f sample_config_vec sample_digest Registry.sample_uuid (sample_ops (u "none")) (fun _ => Some [])
  (fun _ => Some []) sample_directories (fun _ => []) (fun _ => None) Spool.default_budget) (only parsing).
Definition sample_schedule (threads : list nat) : System -> option System :=
  on_sample run_schedule (map (fun i => (i, sample_oracle)) threads).
Definition issue (c : Command) (s : System) : System := mkSystem (sy_state s) (sy_pool s ++ [sample_command c]) (sy_spawned s).

Lemma sample_schedule_steps threads s s' : sample_schedule threads s = Some s' -> rtc (on_sample sys_step) s s'.
Proof. apply run_schedule_steps, list.Forall_fmap, list.Forall_true. intros i. apply Registry.sample_env_wf. Qed.
Lemma sample_run_steps threads s s' : sample_schedule threads s = Some s' -> rtc (on_sample run_step (fun _ => None)) s s'.
Proof. intros H%sample_schedule_steps. eapply rtc_subrel; [|exact H]. intros x y. apply RunStep. Qed.
Lemma issue_step c s : on_sample run_step (fun _ => None) s (issue c s).
Proof. destruct s. apply RunCommand. Qed.

(** A preview, all the way to its plan; and its execution. *)
Definition previewing (st : State) : System := issue (CStart (u "a") sample_request) (mkSystem st [] []).
Definition executing (s : System) : System := issue (CExecute Registry.sample_input) s.
Abbreviation sample_preview_run st := (sample_schedule (replicate 20 0%nat) (previewing st)) (only parsing).
Abbreviation sample_execute_run s n := (sample_schedule (replicate n 0%nat) (executing s)) (only parsing).
End Runtime.
