(* ===== verification/RuntimeLive.v ===== *)
(** Every task comes to an end: the programs of the runtime terminate under
    any interleaving, and when they have, no task is left unfinished and the
    writer is free. *)
From S2P Require Import Prelude RustText DataTypes History Registry RegistryFrame Spool Metadata Plan Connections Runtime.
Import DataTypes RegistryFrame Plan Connections Runtime.

Module RuntimeLive.

#[local] Opaque u.
#[local] Arguments prune : simpl never.
#[local] Arguments publish : simpl never.

(** ** Termination: one step replaces a program by its continuation *)

Section Termination.
Context (config_vec : ConnectionConfig -> option bytes) (sha256 : bytes -> bytes).
Abbreviation worker := (Runtime.worker config_vec sha256) (only parsing).

Definition next (p : Prog unit) (ps : list (Prog unit)) : Prop :=
  match p with Ret _ => ps = [] | Act _ k => exists b, ps = [k b] | Spawn job k => ps = [k; worker job] end.
(** [pool_next l' l]: [l'] comes after [l]. *)
Inductive pool_next : list (Prog unit) -> list (Prog unit) -> Prop :=
| pool_next_one before p after ps : next p ps -> pool_next (before ++ ps ++ after) (before ++ p :: after).

Lemma pool_next_app l l1 l2 : pool_next l (l1 ++ l2) ->
  (exists l', pool_next l' l1 /\ l = l' ++ l2) \/ (exists l', pool_next l' l2 /\ l = l1 ++ l').
Proof.
  intros H. remember (l1 ++ l2) as m eqn:E. destruct H as [before p after ps N]. symmetry in E.
  apply app_eq_app in E as (k & [[-> E]|[-> E]]).
  - destruct k as [|q k]; [right|left].
    + rewrite app_nil_r. cbn in E. subst l2. exists (ps ++ after). split; [|done]. by apply (pool_next_one []).
    + injection E as <- ->. exists (before ++ ps ++ k). rewrite <- !app_assoc. split; [by constructor|done].
  - right. subst l2. exists (k ++ ps ++ after). rewrite <- app_assoc. split; [by constructor|done].
Qed.
Lemma acc_nil : Acc pool_next [].
Proof. constructor. intros l H. remember [] as m eqn:E. destruct H as [before p after ps _]. by destruct before. Qed.
Lemma acc_app l1 l2 : Acc pool_next l1 -> Acc pool_next l2 -> Acc pool_next (l1 ++ l2).
Proof.
  intros A. revert l2. induction A as [l1 _ IH1]. intros l2 A. induction A as [l2 A2 IH2].
  constructor. intros l [(l' & N & ->)|(l' & N & ->)]%pool_next_app; [|by apply IH2]. apply IH1; [done|by constructor].
Qed.
Lemma acc_one p : (forall ps, next p ps -> Acc pool_next ps) -> Acc pool_next [p].
Proof.
  intros H. constructor. intros l N. remember [p] as m eqn:E. destruct N as [before q after ps N].
  destruct before as [|x before]; [|by destruct before]. injection E as -> ->. cbn. rewrite app_nil_r. by apply H.
Qed.

(** The workers spawn nothing. *)
Fixpoint spawns_nothing {A} (p : Prog A) : Prop :=
  match p with Ret _ => True | Act _ k => forall b, spawns_nothing (k b) | Spawn _ _ => False end.
Lemma spawns_nothing_bind {A B} (p : Prog A) (f : A -> Prog B) :
  spawns_nothing p -> (forall a, spawns_nothing (f a)) -> spawns_nothing (bind p f).
Proof. induction p as [x|C a k IH|job k IH]; cbn; auto. Qed.

Lemma acc_quiet p : spawns_nothing p -> Acc pool_next [p].
Proof.
  induction p as [x|B a k IH|job k IH]; cbn; intros H; [| |done]; apply acc_one; cbn.
  - intros ps ->. apply acc_nil.
  - intros ps [b ->]. by apply IH.
Qed.
Lemma spawns_nothing_remove_directories l : spawns_nothing (remove_directories l).
Proof. induction l as [|[id path] l IH]; [done|]. cbn. intros b. apply spawns_nothing_bind; [destruct b; cbn; auto|auto]. Qed.
Lemma spawns_nothing_prune : spawns_nothing prune.
Proof. intros _ l. apply spawns_nothing_remove_directories. Qed.
Lemma spawns_nothing_publish s : spawns_nothing (publish s).
Proof. intros b. apply (spawns_nothing_bind (unless _ _)); [by destruct b|done]. Qed.
Lemma spawns_nothing_progress id tok last updates : spawns_nothing (progress id tok last updates).
Proof.
  revert last. induction updates as [|up updates IH]; intros last; [done|]. cbn. intros _ b. destruct (_ || _); [|apply IH].
  cbn. intros saved. apply spawns_nothing_bind; [by destruct saved|]. cbn. intros _ s.
  apply spawns_nothing_bind; [by destruct s|]. intros _. apply IH.
Qed.
Lemma spawns_nothing_worker job : spawns_nothing (worker job).
Proof.
  destruct job as [dir id request source target tok|id env source target tok]; cbn.
  - intros uuid [updates r]. apply spawns_nothing_bind; [apply spawns_nothing_progress|]. intros _. apply spawns_nothing_bind.
    { destruct (default _ r) as [plan|]; cbn; [|done]. intros _ [s|e]; done. }
    intros [s|e]; apply spawns_nothing_bind; try apply spawns_nothing_publish; try done.
    all: intros _; apply spawns_nothing_bind; [apply spawns_nothing_prune|done].
  - intros [updates r]. apply spawns_nothing_bind; [apply spawns_nothing_progress|]. cbn. intros _ _.
    apply spawns_nothing_bind; [apply spawns_nothing_prune|]. cbn. intros _ [s|e]; [apply spawns_nothing_publish|done].
Qed.

Theorem pool_terminates l : Acc pool_next l.
Proof.
  induction l as [|p l IH]; [apply acc_nil|]. apply (acc_app [p] l); [|done]. clear IH.
  induction p as [x|B a k IH|job k IH]; apply acc_one; cbn.
  - intros ps ->. apply acc_nil.
  - intros ps [b ->]. apply IH.
  - intros ps ->. apply (acc_app [k] [worker job]); [done|]. apply acc_quiet, spawns_nothing_worker.
Qed.
End Termination.

(** ** Obligations: which tasks a program has yet to settle *)

Section Obligations.
Context (config_vec : ConnectionConfig -> option bytes) (sha256 : bytes -> bytes) (page_vec : DataDiffPage -> option bytes).
Context (valid_uuid : str -> bool) (files : History.FileOps) (from_slice : bytes -> option (list DataTaskSnapshot)).
Context (to_vec : list DataTaskSnapshot -> option bytes) (dirs : Directories) (show_f64 : Z -> str).
Context (json_size : DataDiffItem -> option Z) (budget : Spool.ResourceBudget).
Abbreviation worker := (Runtime.worker config_vec sha256) (only parsing).
Abbreviation perform := (Runtime.perform valid_uuid files from_slice to_vec dirs show_f64 json_size budget) (only parsing).

(** The runtime has its directory; its registry is one the registry's methods produce. *)
Definition live (st : State) : Prop := directory st <> None /\ Registry.reachable valid_uuid (registry st).

(** What a step does, to a program that owed [O] and then owes [O']: no task
    becomes unsettled without being owed, and no identifier but [begun] comes
    into use. *)
Definition accounts (O O' : gset str) (begun : option str) (st st' : State) : Prop :=
  (forall id, settled id (registry st) \/ id ∈ O -> settled id (registry st') \/ id ∈ O') /\
  (forall x, begun <> Some x -> fresh x (registry st) -> fresh x (registry st')).
Definition unused (F : option str) (st : State) : Prop := forall x, F = Some x -> fresh x (registry st).

(** The task a job settles. *)
Definition owed (job : Job) : str := match job with PreviewJob _ id _ _ _ _ => id | ExecuteJob id _ _ _ _ => id end.

(** [O] are the tasks the program owes, [F] the execution identifier that is
    its own to begin. *)
Fixpoint settles {A} (Q : gset str -> option str -> A -> Prop) (O : gset str) (F : option str) (p : Prog A) : Prop :=
  match p with
  | Ret a => Q O F a
  | Act a k => forall o st st' b, live st -> unused F st -> admissible a o st -> perform a o st = (st', b) ->
      exists O' F', (F' = None \/ F' = F /\ unused F st') /\ accounts O O' F st st' /\ settles Q O' F' (k b)
  | Spawn job k => exists O', O ⊆ {[owed job]} ∪ O' /\ settles Q O' F k
  end.

Lemma settles_mono {A : Type} (Q Q' : gset str -> option str -> A -> Prop) (O : gset str) (F : option str) (p : Prog A) :
  (forall O F a, Q O F a -> Q' O F a) -> settles Q O F p -> settles Q' O F p.
Proof.
  intros H. revert O F. induction p as [x|B a k IH|job k IH]; intros O F; cbn; [apply H| |].
  - intros S o st st' b L U A' E. destruct (S o st st' b L U A' E) as (O' & F' & ? & ? & K). exists O', F'. auto.
  - intros (O' & ? & K). exists O'. auto.
Qed.
Lemma settles_bind {A B : Type} (Q : gset str -> option str -> B -> Prop) (O : gset str) (F : option str) (p : Prog A) (f : A -> Prog B) :
  settles (fun O F a => settles Q O F (f a)) O F p -> settles Q O F (bind p f).
Proof.
  revert O F. induction p as [x|C a k IH|job k IH]; intros O F; cbn; [done| |].
  - intros S o st st' b L U A' E. destruct (S o st st' b L U A' E) as (O' & F' & ? & ? & K). exists O', F'. auto.
  - intros (O' & ? & K). exists O'. auto.
Qed.

(** *** Actions that leave every task as settled as it was *)

Definition calm {B} (a : Action B) : Prop :=
  match a with RegisterPreview _ _ | SetReady _ _ | BeginExecution _ | Progress _ _ => False | _ => True end.

Lemma moves_accounts O begun st st' : moves ∅ (registry st) (registry st') -> accounts O O begun st st'.
Proof.
  intros M. split.
  - intros id [S|S]; [left|by right]. by apply (moves_settled ∅ (registry st)).
  - intros x _. by apply (moves_fresh ∅ (registry st)).
Qed.
Lemma accounts_unused O O' st st' F : accounts O O' None st st' -> unused F st -> unused F st'.
Proof. intros [_ K] U x E. apply K; [done|]. by apply U. Qed.

Lemma on_registry_ok {B} (f : Registry.State -> Registry.State * B) st st' b : on_registry f st = (st', b) ->
  registry st' = (f (registry st)).1 /\ b = (f (registry st)).2 /\ directory st' = directory st.
Proof. unfold on_registry. destruct (f (registry st)) as [r x]. by intros [= <- <-]. Qed.

Lemma calm_moves {B} (a : Action B) o st st' b : calm a -> live st -> perform a o st = (st', b) ->
  moves ∅ (registry st) (registry st').
Proof.
  intros C [D _]. destruct a; try done; cbn [Runtime.perform];
    first [ intros (-> & _ & _)%on_registry_ok | intros [= <- _]; cbn; apply moves_refl | idtac ].
  - unfold initialize. destruct (directory st); [|done]. intros [= <- _]. apply moves_refl.
  - unfold persist. destruct (directory st); [|done]. destruct (Registry.list_tasks _ _) as [r tasks] eqn:L.
    destruct (History.save_history _ _ _ _ _ _) as [fs x]. intros [= <- _]. cbn. apply (f_equal fst) in L. cbn in L. rewrite <- L.
    apply list_moves.
  - apply cancel_moves.
  - apply snapshot_moves.
  - apply finish_moves.
  - apply list_moves.
  - apply active_moves.
  - apply append_moves.
  - intros [= <- _]. by apply moves_records.
  - destruct (o_prepared o) as [? [[]|]]; intros [= <- _]; apply moves_refl.
  - unfold request_exit. repeat case_match; intros [= <- _]; apply moves_refl.
Qed.

Lemma settles_calm {A B : Type} (Q : gset str -> option str -> A -> Prop) (O : gset str) (F : option str) (a : Action B) (k : B -> Prog A) : calm a -> (forall b, settles Q O F (k b)) -> settles Q O F (Act a k).
Proof.
  intros C K o st st' b L U _ E. pose proof (calm_moves a o st st' b C L E) as M. exists O, F.
  pose proof (moves_accounts O F st st' M) as Acc. split_and!; [|done|done].
  right. split; [done|]. intros x Ex. eapply moves_fresh; [exact M|by apply U].
Qed.

(** *** The other actions *)

Section Rules.
Context {A : Type} (Q : gset str -> option str -> A -> Prop) (O : gset str) (F : option str).

Lemma accounts_of (O' : gset str) (begun : option str) (st st' : State) (J : gset str) : J ⊆ O' -> O ⊆ O' ->
  (forall i, i ∉ J -> settled i (registry st) -> settled i (registry st')) ->
  (forall x, begun <> Some x -> fresh x (registry st) -> fresh x (registry st')) -> accounts O O' begun st st'.
Proof.
  intros Jo Oo S K. split; [|done]. intros id [H|H]; [|right; set_solver].
  destruct (decide (id ∈ J)) as [D|D]; [right; set_solver|left; auto].
Qed.

Lemma settles_progress id update (k : unit -> Prog A) : id ∈ O -> settles Q O F (k tt) -> settles Q O F (Act (Progress id update) k).
Proof.
  intros Hid K o st st' [] L U _. cbn [Runtime.perform]. intros (E & _ & _)%on_registry_ok. cbn in E.
  pose proof (progress_moves (o_env o) (registry st) id update) as M. rewrite <- E in M.
  assert (Ac : accounts O O F st st').
  { apply (accounts_of _ _ _ _ {[id]}); [set_solver|done| |].
    - intros i Ni. by apply (moves_settled _ _ _ _ M).
    - intros x _. by apply (moves_fresh _ _ _ _ M). }
  exists O, F. split_and!; [|done|done]. right. split; [done|]. intros x Ex. eapply moves_fresh; [exact M|by apply U].
Qed.

Lemma settles_finish id res (k : result DataTaskSnapshot DataTaskError -> Prog A) : is_terminal (rs_status res) = true ->
  (forall r, settles Q (O ∖ {[id]}) F (k r)) -> settles Q O F (Act (Finish id res) k).
Proof.
  intros T K o st st' b L U _ E. pose proof (calm_moves (Finish id res) o st st' b I L E) as M.
  cbn [Runtime.perform] in E. apply on_registry_ok in E as (E & _ & _). cbn in E.
  pose proof (finish_settles (o_env o) (registry st) id res T) as S. rewrite <- E in S.
  exists (O ∖ {[id]}), F. split_and!; [| |apply K].
  - right. split; [done|]. intros x Ex. eapply moves_fresh; [exact M|by apply U].
  - split; [|intros x _; by apply (moves_fresh _ _ _ _ M)]. intros i H. destruct (decide (i = id)) as [->|N]; [by left|].
    destruct H as [H|H]; [left; by apply (moves_settled _ _ _ _ M)|right; set_solver].
Qed.

Lemma settles_set_ready id preview (k : result DataTaskSnapshot DataTaskError -> Prog A) :
  (forall s, settles Q (O ∖ {[id]}) F (k (Ok s))) -> (forall e, settles Q O F (k (Err e))) ->
  settles Q O F (Act (SetReady id preview) k).
Proof.
  intros Ko Ke o st st' b L U _. cbn [Runtime.perform]. intros (E & -> & _)%on_registry_ok. destruct (Registry.set_ready _ _ _ _) as [r x] eqn:R.
  apply set_ready_frame in R. cbn [fst snd] in *. destruct x as [s|e].
  - destruct R as [S M]. rewrite <- E in S, M. exists (O ∖ {[id]}), F. split_and!; [| |apply Ko].
    + right. split; [done|]. intros x Ex i q Hq. destruct (M i q Hq) as (p & Hp & -> & _). by apply (U x Ex i).
    + split.
      * intros i H. destruct (decide (i = id)) as [->|N]; [by left|]. destruct H as [H|H]; [left|right; set_solver].
        intros q Hq. destruct (M i q Hq) as (p & Hp & _ & Sp & _). auto.
      * intros x _ Fr i q Hq. destruct (M i q Hq) as (p & Hp & -> & _). by apply (Fr i).
  - subst r. exists O, F. split_and!; [|apply moves_accounts; rewrite E; apply moves_refl|apply Ke].
    right. split; [done|]. intros x Ex. rewrite E. by apply U.
Qed.

Lemma settles_register id request (k : result (DataTaskSnapshot * bool * Registry.Cancellation) DataTaskError -> Prog A) :
  (forall s c, sn_task_id s = id -> settles Q ({[id]} ∪ O) F (k (Ok (s, true, c)))) ->
  (forall s c, settles Q O F (k (Ok (s, false, c)))) -> (forall e, settles Q O F (k (Err e))) ->
  settles Q O F (Act (RegisterPreview id request) k).
Proof.
  intros Kt Kf Ke o st st' b L U _. cbn [Runtime.perform]. intros (E & -> & _)%on_registry_ok. destruct (Registry.register_preview _ _ _ _) as [r x] eqn:R.
  pose proof (register_frame _ _ _ _ _ _ R) as Fr. cbn [fst snd] in *. subst r.
  assert (G : (forall y, fresh y (registry st) -> fresh y (registry st')) /\
    (forall i, i ∉ ({[id]} : gset str) -> settled i (registry st) -> settled i (registry st')) /\
    match x with Ok (s, start, _) => (start = true -> sn_task_id s = id) /\ (start = false -> settled id (registry st) -> settled id (registry st'))
    | Err _ => settled id (registry st) -> settled id (registry st') end).
  { destruct Fr as [M|(q & P1 & P2 & P3 & P4 & M)].
    - split; [intros y; by apply (moves_fresh _ _ _ _ M)|]. split; [intros i _; by apply (moves_settled _ _ _ _ M)|].
      destruct x as [[[s start] c]|e]; [|by apply (moves_settled _ _ _ _ M)]. split; [|intros _; by apply (moves_settled _ _ _ _ M)].
      intros ->. revert R. unfold Registry.register_preview.
      repeat (case_match; try congruence). all: intros [= _ <-]; done.
    - split.
      + intros y Fy i p Hp. destruct (M i p Hp) as [[-> ->]|(p0 & Hp0 & [-> _ _] & _)]; [congruence|by apply (Fy i)].
      + split.
        * intros i Ni S p Hp. destruct (M i p Hp) as [[-> ->]|(p0 & Hp0 & _ & Sp)]; [set_solver|auto].
        * destruct x as [[[s start] c]|e]; [|done]. destruct P4 as [<- P4]. split; [done|].
          intros -> S p Hp. destruct (M _ p Hp) as [[_ ->]|(p0 & Hp0 & _ & Sp)]; auto. }
  destruct G as (G1 & G2 & G3).
  assert (Un : unused F st') by (intros y Ey; apply G1; by apply U).
  destruct x as [[[s [|]] c]|e].
  - exists ({[id]} ∪ O), F. split_and!; [by right| |by apply Kt, G3].
    apply (accounts_of _ _ _ _ {[id]}); [set_solver..|done|intros y _; apply G1].
  - exists O, F. split_and!; [by right| |apply Kf]. apply (accounts_of _ _ _ _ ∅); [set_solver..| |intros y _; apply G1].
    intros i _ S. destruct (decide (i = id)) as [->|N]; [by apply G3|apply G2; [set_solver|done]].
  - exists O, F. split_and!; [by right| |apply Ke]. apply (accounts_of _ _ _ _ ∅); [set_solver..| |intros y _; apply G1].
    intros i _ S. destruct (decide (i = id)) as [->|N]; [by apply G3|apply G2; [set_solver|done]].
Qed.

Lemma settles_begin input (k : result (DataTaskSnapshot * bool * Registry.Cancellation) DataTaskError -> Prog A) :
  F = Some (ex_execution_id input) ->
  (forall s c, settles Q ({[sn_task_id s]} ∪ O) None (k (Ok (s, true, c)))) ->
  (forall s c, settles Q O None (k (Ok (s, false, c)))) -> (forall e, settles Q O None (k (Err e))) ->
  settles Q O F (Act (BeginExecution input) k).
Proof.
  intros EF Kt Kf Ke o st st' b [_ R] U [W _]. cbn [Runtime.perform]. intros (E & -> & _)%on_registry_ok.
  apply Registry.reachable_inv in R. destruct (Registry.begin_execution _ _ _ _) as [r x] eqn:B.
  apply begin_frame in B; [|done|done]. cbn [fst snd] in *. subst r.
  destruct x as [[[s [|]] c]|e].
  - exists ({[sn_task_id s]} ∪ O), None. split_and!; [by left| |apply Kt]. apply (accounts_of _ _ _ _ {[sn_task_id s]}); [set_solver..| |].
    + intros i Ni S q Hq. destruct (B i q Hq) as (p & Hp & _ & _ & _ & Sp). apply Sp; [set_solver|auto].
    + intros y Ny Fy i q Hq. destruct (B i q Hq) as (p & Hp & _ & _ & [-> | ->] & _); [by apply (Fy i)|congruence].
  - exists O, None. split_and!; [by left|by apply moves_accounts|apply Kf].
  - exists O, None. split_and!; [by left|by apply moves_accounts|apply Ke].
Qed.

Lemma settles_list (k : list DataTaskSnapshot -> Prog A) :
  (forall l, (forall x, F = Some x -> existsb (fun s => bool_decide (sn_execution_id s = Some x)) l = false) -> settles Q O F (k l)) ->
  settles Q O F (Act ListTasks k).
Proof.
  intros K o st st' b L U [W _] E. pose proof (calm_moves ListTasks o st st' b I L E) as M.
  cbn [Runtime.perform] in E. apply on_registry_ok in E as (E & -> & _).
  assert (U' : unused F st') by (intros y Ey; eapply moves_fresh; [exact M|by apply U]).
  exists O, F. split_and!; [by right|by apply moves_accounts|]. apply K. intros x Ex. apply existsb_false_iff.
  intros s Hs. apply bool_decide_eq_false_2. unfold Registry.list_tasks in Hs. cbn [snd] in Hs. rewrite sort_by_elem in Hs.
  apply list_elem_of_fmap in Hs as ([i r] & -> & Hr). apply Registry.order_elem in Hr; [|done].
  apply (U' x Ex i). by rewrite E.
Qed.
End Rules.

(** *** The methods *)

Section Methods.
Context {A : Type} (Q : gset str -> option str -> A -> Prop) (O : gset str) (F : option str).

(** Programs of calm actions. *)
Fixpoint only_calm {A} (p : Prog A) : Prop :=
  match p with Ret _ => True | Act a k => calm a /\ forall b, only_calm (k b) | Spawn _ _ => False end.
Lemma settles_only_calm (p : Prog A) : only_calm p -> (forall a, Q O F a) -> settles Q O F p.
Proof.
  intros C H. induction p as [x|B a k IH|job k IH]; cbn [only_calm] in C; [apply H| |done].
  destruct C as [Ca C]. apply settles_calm; [done|]. auto.
Qed.
End Methods.
Lemma only_calm_bind {A B} (p : Prog A) (f : A -> Prog B) : only_calm p -> (forall a, only_calm (f a)) -> only_calm (bind p f).
Proof. induction p as [x|C a k IH|job k IH]; cbn; auto. intros [Ca C'] F. split; auto. Qed.
Lemma calm_unless b p : only_calm p -> only_calm (unless b p).
Proof. by destruct b. Qed.
Lemma calm_act {B} (a : Action B) : calm a -> only_calm (act a).
Proof. intros C. split; [exact C|]. intros b. exact I. Qed.
Lemma calm_publish s : only_calm (publish s).
Proof.
  split; [exact I|]. intros r. apply (only_calm_bind (unless _ _)); [by apply calm_unless, calm_act|]. intros _.
  split; [exact I|]. intros c. by apply calm_act.
Qed.
Lemma calm_remove_directories l : only_calm (remove_directories l).
Proof.
  induction l as [|[id path] l IH]; [exact I|]. split; [exact I|]. intros b. apply (only_calm_bind (unless _ _)); [|done].
  by apply calm_unless, calm_act.
Qed.
Lemma calm_prune : only_calm prune.
Proof. split; [exact I|]. intros tasks. split; [exact I|]. apply calm_remove_directories. Qed.
Lemma calm_maintenance : only_calm maintenance.
Proof. apply (only_calm_bind prune); [apply calm_prune|]. intros _. split; [exact I|]. intros b. exact I. Qed.
Lemma calm_cancel_tasks tasks : only_calm (cancel_tasks tasks).
Proof.
  induction tasks as [|s tasks IH]; [exact I|]. apply (only_calm_bind (unless _ _)); [|done]. apply calm_unless.
  split; [exact I|]. intros [c|e]; [apply calm_publish|exact I].
Qed.
Lemma calm_cancel_all : only_calm cancel_all.
Proof. split; [exact I|]. intros tasks. apply only_calm_bind; [apply calm_cancel_tasks|]. intros _. apply calm_prune. Qed.

Lemma settles_report (Q : gset str -> option str -> unit -> Prop) (O : gset str) F id tok last updates : id ∈ O -> Q O F tt ->
  settles Q O F (progress id tok last updates).
Proof.
  intros Hid H. revert last. induction updates as [|up updates IH]; intros last; [exact H|]. cbn [progress].
  apply settles_progress; [done|]. apply settles_calm; [exact I|]. intros elapsed. destruct (_ || _); [|apply IH].
  apply settles_calm; [exact I|]. intros saved. apply settles_bind, settles_only_calm; [by apply calm_unless, calm_act|]. intros _.
  apply settles_calm; [exact I|]. intros s. apply settles_bind, settles_only_calm; [|done]. by destruct s; [apply calm_act|].
Qed.
Lemma settles_execute_plan {A : Type} (Q : gset str -> option str -> A -> Prop) O F plan source target tok k :
  (forall ups r, (forall x, r = Some x -> is_terminal (rs_status x) = true) -> settles Q O F (k (ups, r))) ->
  settles Q O F (Act (ExecutePlan plan source target tok) k).
Proof.
  intros K o st st' b L U [W T] [= <- <-]. exists O, F. split_and!; [by right|by apply moves_accounts, moves_refl|].
  destruct (o_executed o) as [ups r]. by apply K.
Qed.

Lemma failed_terminal e : is_terminal (rs_status (failed_result e)) = true.
Proof. unfold failed_result. cbn [rs_status]. by destruct (str_eqb _ _). Qed.
Lemma settles_worker job : settles (fun O _ _ => O = ∅) {[owed job]} None (worker job).
Proof.
  destruct job as [dir id request source target tok|id env source target tok]; cbn [Runtime.worker owed].
  - apply settles_calm; [exact I|]. intros uuid. apply settles_calm; [exact I|]. intros [ups r].
    apply settles_bind, settles_report; [set_solver|].
    apply settles_bind. apply (settles_mono (fun O _ _ => O = ∅)).
    { intros O F outcome ->. apply settles_bind, settles_only_calm; [destruct outcome; [apply calm_publish|exact I]|]. intros _.
      apply settles_bind, settles_only_calm; [apply calm_prune|]. intros _. by apply settles_only_calm; [apply calm_act|]. }
    unfold settle_preview. destruct (default _ r) as [plan|e].
    + apply settles_calm; [exact I|]. intros _. apply settles_set_ready.
      * intros s. cbn [settles]. set_solver.
      * intros e. apply settles_calm; [exact I|]. intros _. apply settles_finish; [apply failed_terminal|]. intros x. cbn [settles]. set_solver.
    + apply settles_finish; [apply failed_terminal|]. intros x. cbn [settles]. set_solver.
  - apply settles_execute_plan. intros ups r T. apply settles_bind, settles_report; [set_solver|].
    apply settles_finish; [destruct r as [x|]; [by apply T|done]|]. intros x. replace ({[id]} ∖ {[id]} : gset str) with (∅ : gset str) by set_solver.
    apply settles_bind, settles_only_calm; [apply calm_prune|]. intros _. apply settles_calm; [exact I|].
    intros s. apply settles_only_calm; [|done]. destruct s; [apply calm_publish|exact I].
Qed.

(** The commands, one by one. *)
Lemma settles_run {A : Type} O F (p : Prog A) : settles (fun O _ _ => O = ∅) O F p -> settles (fun O _ _ => O = ∅) O F (run p).
Proof. intros S. by apply settles_bind. Qed.
Lemma settles_try {A B : Type} (Q : gset str -> option str -> result B DataTaskError -> Prop) (O : gset str) F (r : result A DataTaskError) k :
  (forall x, r = Ok x -> settles Q O F (k x)) -> (forall e, Q O F (Err e)) -> settles Q O F (try_ r k).
Proof. intros K E. destruct r as [x|e]; [by apply K|apply E]. Qed.

Lemma settles_launch F snapshot job : sn_task_id snapshot = owed job ->
  settles (fun O _ _ => O = ∅) ({[sn_task_id snapshot]} ∪ ∅) F (launch snapshot job).
Proof.
  intros E. unfold launch. apply settles_calm; [exact I|]. intros [u0|e].
  - apply settles_bind, settles_only_calm; [apply calm_publish|]. intros _. exists ∅. split; [rewrite E; set_solver|done].
  - apply settles_finish; [apply failed_terminal|]. intros r. apply settles_try; intros; cbn [settles]; set_solver.
Qed.

Lemma settles_start task_id request : settles (fun O _ _ => O = ∅) ∅ None (start_data_task_preview task_id request).
Proof.
  apply settles_calm; [exact I|]. intros d. apply settles_try; [|done]. intros dir _. apply settles_calm; [exact I|]. intros saved.
  apply settles_try; [|done]. intros [source target] _. destruct (negb _); [done|].
  apply settles_register; [|done|done]. intros s c E. cbn [try_ negb]. rewrite <- E. apply settles_launch. done.
Qed.
Lemma settles_execute input : settles (fun O _ _ => O = ∅) ∅ (Some (ex_execution_id input))
  (execute_data_task config_vec sha256 input).
Proof.
  apply settles_calm; [exact I|]. intros d. apply settles_try; [|done]. intros dir _. apply settles_list. intros l Fr.
  rewrite (Fr _ eq_refl). apply settles_bind, settles_only_calm; [apply calm_prune|]. intros _.
  apply settles_calm; [exact I|]. intros env. apply settles_try; [|done]. intros envelope _.
  apply settles_calm; [exact I|]. intros saved. apply settles_try; [|done]. intros [source target] _.
  apply settles_begin; [done| |done|done]. intros s c. cbn [try_ negb]. by apply settles_launch.
Qed.
Lemma settles_calm_command {A : Type} F (p : Prog A) : only_calm p -> settles (fun O _ _ => O = ∅) ∅ F (run p).
Proof. intros C. by apply settles_run, settles_only_calm. Qed.
Lemma calm_try {A B} (r : result A DataTaskError) (k : A -> Prog (result B DataTaskError)) :
  (forall x, only_calm (k x)) -> only_calm (try_ r k).
Proof. intros C. destruct r as [x|e]; [apply C|exact I]. Qed.

Definition begins (c : Command) : option str := match c with CExecute input => Some (ex_execution_id input) | _ => None end.
Lemma settles_command c : settles (fun O _ _ => O = ∅) ∅ (begins c) (command config_vec sha256 page_vec c).
Proof.
  destruct c; cbn [command begins].
  - apply settles_run, settles_start.
  - apply settles_calm_command. split; [exact I|]. intros d. apply calm_try. intros _. split; [exact I|]. intros s.
    apply calm_try. intros x. by apply only_calm_bind; [apply calm_prune|].
  - apply settles_calm_command. split; [exact I|]. intros d. apply calm_try. intros _. apply only_calm_bind; [apply calm_prune|].
    intros _. destruct (_ || _); [exact I|]. split; [exact I|]. intros e. apply calm_try. intros entry. split; [exact I|].
    intros page. apply calm_try. intros pg. exact I.
  - apply settles_run, settles_execute.
  - apply settles_calm_command. split; [exact I|]. intros d. apply calm_try. intros _. split; [exact I|]. intros s. apply calm_try.
    intros x. apply only_calm_bind; [apply calm_publish|]. intros _. by apply only_calm_bind; [apply calm_prune|].
  - apply settles_calm_command. split; [exact I|]. intros d. apply calm_try. intros _. apply only_calm_bind; [apply calm_prune|].
    intros _. split; [exact I|]. intros l. exact I.
  - apply settles_calm_command. split; [exact I|]. intros d. apply calm_try. intros _. apply only_calm_bind.
    { split; [exact I|]. intros l. destruct (find_first _ _) as [s|]; [|exact I]. destruct (is_some _); [exact I|]. split; [exact I|].
      intros r. exact I. }
    intros r. apply calm_try. intros o. apply only_calm_bind; [destruct o; [apply calm_publish|exact I]|]. intros _.
    by apply only_calm_bind; [apply calm_prune|].
  - apply settles_only_calm; [apply calm_maintenance|done].
  - apply settles_calm_command. split; [exact I|]. intros active. by apply calm_act.
  - apply settles_only_calm; [|done]. destruct cancel; [apply calm_cancel_all|by apply calm_act].
  - apply settles_calm_command. split; [exact I|]. intros active. destruct active; [exact I|].
    by apply only_calm_bind; [apply calm_maintenance|].
Qed.

(** *** The system *)

Lemma open_directory_recovered fs dir fs' restored : open_directory files from_slice dirs fs dir = (fs', Ok restored) ->
  Forall History.recovered restored.
Proof.
  unfold open_directory. intros E.
  destruct (match History.symlink_metadata _ _ _ with History.MetaOk _ => _ | _ => _ end); [discriminate|].
  destruct (create_dir_all _ _ _) as [fs1 ok1]. destruct (negb ok1); [discriminate|].
  destruct (set_secure_dir_permissions _ _ _) as [fs2 ok2]. destruct (negb ok2); [discriminate|].
  destruct (lock_directory _ _ _ _) as [fs3 locked]. destruct (rbind locked _) as [r|e] eqn:R; [|discriminate].
  destruct (recreate_snapshots _ _ _ _) as [fs4 created]. injection E as _ E. apply rbind_ok_inv in E as (? & _ & [= <-]).
  apply rbind_ok_inv in R as (? & _ & R). by eapply History.load_history_recovered.
Qed.
Lemma perform_steps {B} (a : Action B) o st st' b : admissible a o st -> perform a o st = (st', b) ->
  rtc (Registry.step valid_uuid) (registry st) (registry st') /\ (directory st <> None -> directory st' <> None).
Proof.
  intros [W _]. destruct a; cbn [Runtime.perform];
    first [ intros (-> & _ & ->)%on_registry_ok; split; [apply rtc_once; cbn [fst]; by constructor|done]
          | intros [= <- _]; cbn; split; [apply rtc_refl|done] | idtac ].
  - unfold initialize. destruct (directory st) eqn:D; [intros [= <- _]; rewrite D; split; [apply rtc_refl|done]|].
    destruct (app_data_dir dirs); [|intros [= <- _]; split; [apply rtc_refl|congruence]].
    destruct (open_directory _ _ _ _ _) as [fs [restored|e]] eqn:O; intros [= <- _]; cbn; [|split; [apply rtc_refl|congruence]].
    split; [|done]. apply rtc_once. constructor. by eapply open_directory_recovered.
  - unfold persist. destruct (directory st) eqn:D; [|intros [= <- _]; split; [apply rtc_refl|congruence]].
    destruct (Registry.list_tasks _ _) as [r tasks] eqn:L. destruct (History.save_history _ _ _ _ _ _) as [fs x].
    intros [= <- _]. cbn. split; [|congruence]. apply (f_equal fst) in L. cbn in L. rewrite <- L. apply rtc_once.
    exact (Registry.StepList _ _ _ W).
  - intros [= <- _]. cbn. split; [|done]. apply rtc_once, Registry.StepStore.
  - destruct (o_prepared o) as [? [[]|]]; intros [= <- _]; split; try apply rtc_refl; done.
  - unfold request_exit. repeat case_match; intros [= <- _]; split; try apply rtc_refl; done.
Qed.
Lemma perform_live {B} (a : Action B) o st st' b : admissible a o st -> perform a o st = (st', b) -> live st -> live st'.
Proof.
  intros Ad E [D R]. apply perform_steps in E as [S D']; [|done]. split; [auto|]. unfold Registry.reachable in *. by etransitivity.
Qed.

Abbreviation sys_step := (Runtime.sys_step config_vec sha256 valid_uuid files from_slice to_vec dirs show_f64 json_size budget)
  (only parsing).

Definition owns (notes : list (gset str * option str)) : list str := omap (snd : gset str * option str -> option str) notes.
(** Every program of the pool settles what it owes, begins only what is its
    own to begin, and together they owe all that is unsettled. *)
Definition balanced (s : System) : Prop := exists notes : list (gset str * option str),
  Forall2 (fun n p => settles (fun O _ _ => O = ∅) n.1 n.2 p) notes (sy_pool s) /\ live (sy_state s) /\
  NoDup (owns notes) /\ (forall n, n ∈ notes -> unused n.2 (sy_state s)) /\
  forall id, settled id (registry (sy_state s)) \/ exists n, n ∈ notes /\ id ∈ n.1.

Lemma owns_app l k : owns (l ++ k) = owns l ++ owns k.
Proof. apply omap_app. Qed.
Lemma owns_cons (O : gset str) (F : option str) l : owns ((O, F) :: l) = option_list F ++ owns l.
Proof. by destruct F. Qed.

Definition covered (notes : list (gset str * option str)) (st : State) : Prop :=
  forall id, settled id (registry st) \/ exists n, n ∈ notes /\ id ∈ n.1.

Lemma owns_shrink n1 n2 O O' F F' : F' = None \/ F' = F -> NoDup (owns (n1 ++ (O, F) :: n2)) -> NoDup (owns (n1 ++ (O', F') :: n2)).
Proof.
  rewrite !owns_app, !owns_cons. intros [-> | ->]; [|done]. cbn [option_list app]. intros (U1 & U2 & U3)%NoDup_app.
  apply NoDup_app in U3 as (_ & _ & U3). apply NoDup_app. split_and!; [done| |done]. intros x Hx Hy. eapply U2; [exact Hx|set_solver].
Qed.
Lemma owns_other n1 n2 O y n : NoDup (owns (n1 ++ (O, Some y) :: n2)) -> n ∈ n1 ++ n2 -> n.2 <> Some y.
Proof.
  rewrite owns_app, owns_cons. intros (_ & U2 & U3)%NoDup_app Hn E. cbn [option_list app] in U3. apply NoDup_cons in U3 as [U3 _].
  assert (M : forall l, n ∈ l -> y ∈ owns l) by (intros l Hl; apply list_elem_of_omap; by exists n).
  apply elem_of_app in Hn as [Hn|Hn]; apply M in Hn; [|done]. eapply U2; [exact Hn|]. cbn. left.
Qed.
Lemma covered_step n1 n2 O O' F F' st st' : covered (n1 ++ (O, F) :: n2) st ->
  (forall id, settled id (registry st) \/ id ∈ O -> settled id (registry st') \/ id ∈ O') -> covered (n1 ++ (O', F') :: n2) st'.
Proof.
  intros C A id. assert (D : (settled id (registry st) \/ id ∈ O) \/ exists n, n ∈ n1 ++ n2 /\ id ∈ n.1).
  { destruct (C id) as [H|(n & Hn & H)]; [by do 2 left|]. apply elem_of_app in Hn as [Hn|Hn]; [right; exists n; set_solver|].
    apply elem_of_cons in Hn as [->|Hn]; [left; by right|right; exists n; set_solver]. }
  destruct D as [H|(n & Hn & H)]; [|right; exists n; set_solver].
  destruct (A id H) as [H'|H']; [by left|right; exists (O', F'); set_solver].
Qed.

Lemma step_balanced s s' : sys_step s s' -> balanced s -> balanced s'.
Proof.
  intros [st before p after spawned o st' ps js Ad E] (notes & S & L & U & Fr & C). cbn [sy_state sy_pool] in *.
  apply Forall2_app_inv_r in S as (n1 & n2' & S1 & S & ->). apply Forall2_cons_inv_r in S as ([O F] & n2 & S0 & S2 & ->).
  cbn [fst snd] in *. destruct p as [x|B a k|job k]; cbn [step_prog answers] in *.
  - injection E as <- <- <-. cbn [settles] in S0. subst O. exists (n1 ++ n2). cbn [sy_state sy_pool app].
    split; [by apply Forall2_app|]. split; [done|]. split; [|split].
    + apply (owns_shrink _ _ _ ∅ _ None) in U; [|by left]. rewrite owns_app, owns_cons in U. by rewrite owns_app.
    + intros n Hn. apply Fr. set_solver.
    + intros id. destruct (C id) as [H|(n & Hn & H)]; [by left|right]. exists n. split; [|done].
      apply elem_of_app in Hn as [Hn|Hn]; [set_solver|]. apply elem_of_cons in Hn as [->|Hn]; [|set_solver]. cbn in H. set_solver.
  - destruct (Runtime.perform _ _ _ _ _ _ _ _ _ _ _) as [st1 b] eqn:P. injection E as <- <- <-.
    assert (U0 : unused F st) by (apply (Fr (O, F)); set_solver).
    cbn [settles] in S0. destruct (S0 o st st1 b L U0 Ad P) as (O' & F' & HF & [A1 A2] & K).
    exists (n1 ++ (O', F') :: n2). cbn [sy_state sy_pool app].
    split; [by apply Forall2_app; [|constructor]|]. split; [by eapply perform_live|]. split; [|split].
    + eapply owns_shrink; [|exact U]. tauto.
    + intros n [Hn|[->|Hn]%elem_of_cons]%elem_of_app.
      2:{ cbn. destruct HF as [->|[-> HU]]; [by intros y|done]. }
      all: intros y Ey; apply A2; [intros ->; by apply (owns_other n1 n2 O y n U); [set_solver|]|apply (Fr n); [set_solver|done]].
    + by eapply covered_step.
  - injection E as <- <- <-. cbn [settles] in S0. destruct S0 as (O' & Sub & K).
    exists (n1 ++ (O', F) :: ({[owed job]}, None) :: n2). cbn [sy_state sy_pool app].
    split; [|split; [done|split; [|split]]].
    + apply Forall2_app; [done|]. constructor; [done|]. constructor; [apply settles_worker|done].
    + rewrite owns_app, !owns_cons in *. by cbn [option_list app].
    + intros n Hn. apply elem_of_app in Hn as [Hn|Hn]; [apply Fr; set_solver|].
      apply elem_of_cons in Hn as [->|Hn]; [apply (Fr (O, F)); set_solver|].
      apply elem_of_cons in Hn as [->|Hn]; [by intros y|apply Fr; set_solver].
    + intros id. destruct (C id) as [H|(n & Hn & H)]; [by left|right].
      apply elem_of_app in Hn as [Hn|Hn]; [exists n; set_solver|]. apply elem_of_cons in Hn as [->|Hn]; [|exists n; set_solver].
      cbn in H. apply Sub in H. apply elem_of_union in H as [H|H]; [exists ({[owed job]}, None); set_solver|exists (O', F); set_solver].
Qed.

Lemma steps_balanced s s' : rtc sys_step s s' -> balanced s -> balanced s'.
Proof. induction 1 as [s|s s1 s' H _ IH]; [done|]. intros Bl. apply IH. by eapply step_balanced. Qed.

Lemma run_terminates s : Acc (fun s' s => sys_step s s') s.
Proof.
  pose proof (pool_terminates config_vec sha256 (sy_pool s)) as Ac. remember (sy_pool s) as pool eqn:E.
  revert s E. induction Ac as [pool _ IH]. intros s ->. constructor. intros s' H. destruct H as [st before p after spawned o st' ps js _ E].
  eapply IH; [|reflexivity]. cbn [sy_pool]. constructor. destruct p as [x|B a k|job k]; cbn [step_prog next] in *.
  - by injection E as _ <- _.
  - destruct (Runtime.perform _ _ _ _ _ _ _ _ _ _ _) as [st1 b]. injection E as _ <- _. by exists b.
  - by injection E as _ <- _.
Qed.

(** Some answer of the outside is always possible. *)
Definition idle_oracle : Oracle :=
  mkOracle Registry.sample_env [] (Ok []) ([], None) ([], None) false false false (Spool.fresh_counters false).
Lemma can_step s : sy_pool s <> [] -> exists s', sys_step s s'.
Proof.
  destruct s as [st [|p pool] spawned]; [done|]. intros _.
  destruct (step_prog config_vec sha256 valid_uuid files from_slice to_vec dirs show_f64 json_size budget p idle_oracle st) as [[st' ps] js] eqn:E.
  exists (mkSystem st' ([] ++ ps ++ pool) (spawned ++ js)). apply (SysStep _ _ _ _ _ _ _ _ _ _ st [] p pool spawned idle_oracle); [|done].
  destruct p as [|B a k|]; cbn; try exact I. split; [apply Registry.sample_env_wf|]. by destruct a.
Qed.

Lemma settled_idle r : Registry.reachable valid_uuid r -> (forall id, settled id r) ->
  Registry.writer r = None /\ forall e, Registry.wf_env e -> (Registry.has_active e r).2 = false.
Proof.
  intros R%Registry.reachable_inv S. split.
  - destruct (Registry.writer r) as [id|] eqn:W; [|done]. exfalso. destruct (Registry.inv_live r R id W) as (q & Hq & T & X).
    destruct (S id q Hq) as [T'|Rd]; [congruence|]. apply X. apply (Registry.inv_idle r R id q Hq). unfold Registry.not_started. rewrite Rd. cbn. lia.
  - intros e We. unfold Registry.has_active, Registry.list_tasks. cbn [snd]. apply existsb_false_iff. intros s Hs.
    rewrite sort_by_elem in Hs. apply list_elem_of_fmap in Hs as ([i q] & -> & Hq). apply Registry.order_elem in Hq; [|done].
    destruct (expire_settled e r i (S i) q Hq) as [T|Rd]; [unfold Registry.terminal in T; by rewrite T|]. by rewrite Rd.
Qed.


(** *** One command, with the others in between *)

(** [R] is what the other programs may do between two actions. *)
Fixpoint runs {A : Type} (R : State -> State -> Prop) (p : Prog A) (st : State) (jobs : list Job) (x : A) (st' : State) : Prop :=
  match p with
  | Ret a => jobs = [] /\ x = a /\ R st st'
  | Act a k => exists st1 o st2 b, R st st1 /\ admissible a o st1 /\ perform a o st1 = (st2, b) /\ runs R (k b) st2 jobs x st'
  | Spawn job k => exists jobs', jobs = job :: jobs' /\ runs R k st jobs' x st'
  end.
(** Others may start and run the tasks of [X], and settle any; they do not
    begin the execution [F]. *)
Definition interference (X : gset str) (F : option str) (st st' : State) : Prop :=
  (live st -> live st') /\ (forall id, id ∉ X -> settled id (registry st) -> settled id (registry st')) /\
  (unused F st -> unused F st').

Lemma settles_runs {A : Type} (Q : gset str -> option str -> A -> Prop) X G O F p st jobs x st' : F = None \/ F = G ->
  settles Q O F p -> live st -> unused F st -> runs (interference X G) p st jobs x st' ->
  exists O' F', Q O' F' x /\
    forall id, id ∉ X -> settled id (registry st) \/ id ∈ O -> settled id (registry st') \/ id ∈ O' \/ id ∈ map owed jobs.
Proof.
  revert O F st jobs. induction p as [y|B a k IH|job k IH]; intros O F st jobs HF S L U; cbn [runs settles] in *.
  - intros (-> & -> & (_ & R & _)). exists O, F. split; [done|]. intros id Nx [H|H]; [left; auto|right; by left].
  - intros (st1 & o & st2 & b & (R1 & R2 & R3) & Ad & E & K). apply R1 in L.
    assert (U1 : unused F st1) by (destruct HF as [->| ->]; [by intros z|auto]).
    destruct (S o st1 st2 b L U1 Ad E) as (O' & F' & HF' & [A1 _] & S').
    assert (HG : F' = None \/ F' = G) by (destruct HF' as [->|[-> _]]; [by left|done]).
    assert (U2 : unused F' st2) by (destruct HF' as [->|[-> ?]]; [by intros z|done]).
    destruct (IH b O' F' st2 jobs HG S' (perform_live _ _ _ _ _ Ad E L) U2 K) as (O2 & F2 & HQ & C).
    exists O2, F2. split; [exact HQ|]. intros id Nx H. apply C; [done|]. apply A1. destruct H as [H|H]; [left; auto|by right].
  - intros (jobs' & -> & K). destruct S as (O' & Sub & S). destruct (IH O' F st jobs' HF S L U K) as (O2 & F2 & HQ & C).
    exists O2, F2. split; [exact HQ|]. intros id Nx H. cbn [map]. rewrite elem_of_cons.
    destruct (decide (id = owed job)) as [->|N]; [tauto|]. destruct (C id Nx) as [?|[?|?]]; [|tauto..].
    destruct H as [H|H]; [by left|]. apply Sub in H. set_solver.
Qed.

(** A worker is spawned only as the last thing before the snapshot is returned. *)
Fixpoint launches_last (p : Prog (result DataTaskSnapshot DataTaskError)) : Prop :=
  match p with Ret _ => True | Act _ k => forall b, launches_last (k b) | Spawn _ k => exists s, k = Ret (Ok s) end.
Lemma launches_last_runs R p st jobs r st' : launches_last p -> runs R p st jobs r st' ->
  jobs = [] \/ exists job s, jobs = [job] /\ r = Ok s.
Proof.
  revert st. induction p as [y|B a k IH|job k IH]; intros st; cbn [runs launches_last].
  - intros _ (-> & _). by left.
  - intros L (st1 & o & st2 & b & _ & _ & _ & K). by eapply IH.
  - intros [s ->] (jobs' & -> & (-> & -> & _)). right. by exists job, s.
Qed.
Lemma launches_last_bind (p : Prog unit) f : spawns_nothing p -> (forall x, launches_last (f x)) -> launches_last (bind p f).
Proof. induction p as [y|B a k IH|job k IH]; cbn; auto. done. Qed.
Lemma launches_last_try {A : Type} (r : result A DataTaskError) k : (forall x, launches_last (k x)) -> launches_last (try_ r k).
Proof. intros H. destruct r as [x|e]; [apply H|exact I]. Qed.
Lemma launches_last_launch s job : launches_last (launch s job).
Proof.
  intros [u0|e].
  - apply launches_last_bind; [apply spawns_nothing_publish|]. intros _. by exists s.
  - intros r. apply launches_last_try. intros x. exact I.
Qed.

(** The two commands that start a worker. *)
Inductive starts : option str -> Prog (result DataTaskSnapshot DataTaskError) -> Prop :=
| StartsPreview task_id request : starts None (start_data_task_preview task_id request)
| StartsExecution input : starts (Some (ex_execution_id input)) (execute_data_task config_vec sha256 input).

(** C3: a refused command leaves nothing behind.  Whatever else runs in
    between: when starting a preview or an execution is answered with an error
    -- an invalid request, a missing, changed or read-only connection, an
    expired plan, a busy writer, a history that cannot be written -- no worker
    was started and no task it touched is left unfinished.  When it is
    answered with a snapshot, at most the one task it started a worker for is. *)
Theorem refused_commands_leave_nothing X F p st jobs r st' : starts F p -> live st -> unused F st ->
  runs (interference X F) p st jobs r st' ->
  match r with Err _ => jobs = [] | Ok _ => jobs = [] \/ exists job, jobs = [job] end /\
  forall id, id ∉ X -> id ∉ map owed jobs -> settled id (registry st) -> settled id (registry st').
Proof.
  intros St L U K. assert (Sh : launches_last p).
  { destruct St as [task_id request|input].
    - intros d. apply launches_last_try. intros dir saved. apply launches_last_try. intros [source target].
      destruct (negb _); [exact I|]. intros b. apply launches_last_try. intros [[s start] c]. destruct (negb start); [exact I|].
      apply launches_last_launch.
    - intros d. apply launches_last_try. intros dir tasks. destruct (existsb _ _); [intros b; exact I|].
      apply launches_last_bind; [apply spawns_nothing_prune|]. intros _ env. apply launches_last_try. intros envelope saved.
      apply launches_last_try. intros [source target] b. apply launches_last_try. intros [[s start] c]. destruct (negb start); [exact I|].
      apply launches_last_launch. }
  assert (S : settles (fun O _ _ => O = ∅) ∅ F p) by (destruct St; [apply settles_start|apply settles_execute]).
  destruct (settles_runs _ X F ∅ F p st jobs r st' (or_intror eq_refl) S L U K) as (O' & F' & -> & C). split.
  - destruct (launches_last_runs _ _ _ _ _ _ Sh K) as [->|(job & s & -> & ->)]; [by destruct r; [left|]|right; by exists job].
  - intros id Nx Nj H. destruct (C id Nx (or_introl H)) as [?|[?|?]]; [done|set_solver|done].
Qed.
End Obligations.

(** ** Witness: a preview, run to its end *)

#[local] Transparent u.

Definition sample_idle : State := mkState Registry.initial ∅ (Some (u "data")) true ∅ false ∅.
Definition statuses (st : State) : list DataTaskStatus :=
  map (fun x => sn_status (Registry.snapshot_of x.2)) (map_to_list (Registry.records (registry st))).
Definition ended (s : System) : bool := is_empty (sy_pool s) && bool_decide (statuses (sy_state s) = [Ready]).
Lemma sample_ended : is_some_and ended (sample_preview_run sample_idle) = true.
Proof. vm_compute. reflexivity. Qed.
Lemma sample_idle_live : live Registry.sample_uuid sample_idle.
Proof. split; [discriminate|apply rtc_refl]. Qed.
Lemma sample_idle_settled id : settled id (registry sample_idle).
Proof. intros r H. cbn in H. by apply lookup_empty_Some in H. Qed.

(** Executing a plan that is not there is refused. *)
Lemma interference_refl X F st : interference Registry.sample_uuid X F st st.
Proof. by split_and!. Qed.
Lemma sample_admissible {B} (a : Action B) st : calm a -> admissibleb a sample_oracle st = true -> admissible a sample_oracle st.
Proof. intros _. apply admissibleb_ok, Registry.sample_env_wf. Qed.
Ltac alone := eexists _, sample_oracle, _, _; split; [apply interference_refl|split; [by apply sample_admissible|split; [reflexivity|]]].
Lemma refused_commands_leave_nothing_witness : exists st',
  runs Registry.sample_uuid (History.sample_ops (u "none")) (fun _ => Some []) (fun _ => Some []) sample_directories (fun _ => [])
    (fun _ => None) Spool.default_budget (interference Registry.sample_uuid ∅ (Some (u "e1")))
    (execute_data_task sample_config_vec sample_digest Registry.sample_input) sample_idle []
    (Err (Runtime.stale "预览已失效，请重新预览")) st' /\
  forall id, settled id (registry st').
Proof.
  assert (R : exists st', runs Registry.sample_uuid (History.sample_ops (u "none")) (fun _ => Some []) (fun _ => Some []) sample_directories
    (fun _ => []) (fun _ => None) Spool.default_budget (interference Registry.sample_uuid ∅ (Some (u "e1")))
    (execute_data_task sample_config_vec sample_digest Registry.sample_input) sample_idle []
    (Err (Runtime.stale "预览已失效，请重新预览")) st').
  { eexists. do 5 alone. split; [reflexivity|]. split; [reflexivity|apply interference_refl]. }
  destruct R as [st' R]. exists st'. split; [exact R|]. intros id.
  refine (proj2 (refused_commands_leave_nothing sample_config_vec sample_digest Registry.sample_uuid _ _ _ _ _ _ _ ∅ _ _ sample_idle []
    _ st' (StartsExecution _ _ Registry.sample_input) sample_idle_live _ R) id _ _ (sample_idle_settled id)).
  - intros x _ i q H. cbn in H. by apply lookup_empty_Some in H.
  - apply not_elem_of_empty.
  - apply not_elem_of_nil.
Defined.

(** ** Two runs that go wrong *)

Definition after_schedule (threads : list nat) (s0 : System) (test : System -> bool) : Prop := exists s,
  rtc (on_sample sys_step) s0 s /\ test s = true.
Lemma after_schedule_by threads s0 test : is_some_and test (sample_schedule threads s0) = true -> after_schedule threads s0 test.
Proof. intros H. destruct (sample_schedule threads s0) as [s|] eqn:E; [|discriminate H]. exists s. split; [by apply sample_schedule_steps in E|exact H]. Qed.

(** [prune] reads the registry and then, under another lock, drops the plans it
    did not see there.  A plan that becomes ready in between is dropped: its
    task stays [Ready] and every execution of it is refused. *)
Lemma prune_drops_a_ready_plan :
  after_schedule (replicate 12 0 ++ [1; 0; 1; 1; 1] ++ replicate 8 0)%nat (issue CMaintenance (previewing sample_idle))
    (fun s => ended s && bool_decide (plans (sy_state s) = ∅)).
Proof. apply after_schedule_by. vm_compute. reflexivity. Qed.

(** When the history bears the execution identifier, [execute_data_task] starts
    the execution but no worker: the task stays [Executing] for ever. *)
Definition old_execution : DataTaskSnapshot :=
  mkSnapshot (u "old") (Some (u "e1")) (u "1") Succeeded sample_request (u "1") (u "1") (u "0") (u "0") (u "0") (u "0") (u "0") None None.
Definition with_history : State := mkState (Registry.restore Registry.initial [old_execution]) ∅ (Some (u "data")) true ∅ false ∅.
Definition ready_with_history : option System := sample_preview_run with_history.
Lemma reused_identifier_hangs : exists s0, ready_with_history = Some s0 /\
  after_schedule (replicate 4 0%nat) (executing s0)
    (fun s => is_empty (sy_pool s) && bool_decide (length (sy_spawned s) = length (sy_spawned s0)) &&
              bool_decide (statuses (sy_state s) = [Succeeded; Executing])).
Proof.
  assert (H : is_some_and (fun s0 => is_some_and (fun s => is_empty (sy_pool s) && bool_decide (length (sy_spawned s) = length (sy_spawned s0)) &&
    bool_decide (statuses (sy_state s) = [Succeeded; Executing])) (sample_execute_run s0 4)) ready_with_history = true) by (vm_compute; reflexivity).
  destruct ready_with_history as [s0|]; [|discriminate H]. exists s0. split; [reflexivity|]. by apply after_schedule_by.
Qed.
End RuntimeLive.
