(* ===== verification/RuntimeSafe.v ===== *)
(** What is executed is what was approved: the plan behind every execution the
    runtime launches is the one whose preview the user confirmed, with the
    connections it was prepared with. *)
From S2P Require Import Prelude RustText DataTypes History Registry RegistryFrame Spool Metadata Plan Connections Runtime RuntimeLive.
Import DataTypes RegistryFrame Plan Connections Runtime RuntimeLive.

Module RuntimeSafe.

#[local] Opaque u.
#[local] Arguments prune : simpl never.
#[local] Arguments publish : simpl never.

Abbreviation Prepared := (gmap str (StoredDataPlan * ConnectionConfig * ConnectionConfig)) (only parsing).

Section Safety.
Context (config_vec : ConnectionConfig -> option bytes) (sha256 : bytes -> bytes) (page_vec : DataDiffPage -> option bytes).
Context (valid_uuid : str -> bool) (files : History.FileOps) (from_slice : bytes -> option (list DataTaskSnapshot)).
Context (to_vec : list DataTaskSnapshot -> option bytes) (dirs : Directories) (show_f64 : Z -> str).
Context (json_size : DataDiffItem -> option Z) (budget : Spool.ResourceBudget).
Abbreviation worker := (Runtime.worker config_vec sha256) (only parsing).
Abbreviation command := (Runtime.command config_vec sha256 page_vec) (only parsing).
Abbreviation perform := (Runtime.perform valid_uuid files from_slice to_vec dirs show_f64 json_size budget) (only parsing).
Abbreviation digest := (configuration_digest config_vec sha256) (only parsing).

(** ** Specification *)

(** An envelope holds a plan that was prepared, under the plan's identifier,
    with the digests of the connections it was prepared with. *)
Definition vouched (P : Prepared) (id : str) (env : PlanEnvelope) : Prop := exists source target,
  P !! id = Some (en_plan env, source, target) /\ pv_plan_id (sp_preview (en_plan env)) = id /\
  en_source_digest env = digest source /\ en_target_digest env = digest target.

(** The request names these two saved connections, and the target may be written. *)
Definition selected (request : DataTaskRequest) (source target : ConnectionConfig) : Prop :=
  validate request = Ok tt /\ cc_id source = Some (ep_saved_connection_id (rq_source request)) /\
  cc_id target = Some (ep_saved_connection_id (rq_target request)) /\ cc_read_only target <> Some true.

(** An execution the user approved: the registry started it on the preview of
    this very plan, and the connections are as they were when the plan was
    prepared. *)
Definition approved (P : Prepared) (task_id : str) (env : PlanEnvelope) (source target : ConnectionConfig)
  (cancel : Registry.Cancellation) : Prop :=
  (exists input e r r' s, Registry.reachable valid_uuid r /\ Registry.wf_env e /\
     Registry.begin_execution valid_uuid e r input = (r', Ok (s, true, cancel)) /\ sn_task_id s = task_id /\
     ex_plan_id input = pv_plan_id (sp_preview (en_plan env)) /\
     Registry.properly_started e r input r' s cancel (sp_preview (en_plan env))) /\
  selected (sp_request (en_plan env)) source target /\
  exists source0 target0, P !! pv_plan_id (sp_preview (en_plan env)) = Some (en_plan env, source0, target0) /\
    digest source = digest source0 /\ digest target = digest target0.
Definition job_approved (P : Prepared) (job : Job) : Prop :=
  match job with PreviewJob _ _ _ _ _ _ => True | ExecuteJob task_id env source target cancel => approved P task_id env source target cancel end.

(** Every preview the registry shows is that of a prepared plan, under its identifier. *)
Definition previews_prepared (P : Prepared) (r : Registry.State) : Prop := forall id q p,
  Registry.records r !! id = Some q -> sn_preview (Registry.snapshot_of q) = Some p ->
  Registry.plan_id q = Some (pv_plan_id p) /\ exists x, P !! pv_plan_id p = Some x /\ sp_preview x.1.1 = p.
Record sound (st : State) : Prop := {
  so_reachable : Registry.reachable valid_uuid (registry st);
  so_plans id env : plans st !! id = Some env -> vouched (prepared st) id env;
  so_records : previews_prepared (prepared st) (registry st);
}.

(** ** Programs that keep it *)

Definition allowed {B : Type} (P : Prepared) (J : list Job) (a : Action B) : Prop :=
  match a with
  | InsertPlan id env => vouched P id env
  | SetReady _ preview => exists x, P !! pv_plan_id preview = Some x /\ sp_preview x.1.1 = preview
  | PrepareTask task_id request source target _ cancel => exists dir, PreviewJob dir task_id request source target cancel ∈ J
  | _ => True
  end.
Definition free {B : Type} (a : Action B) : Prop :=
  match a with InsertPlan _ _ | SetReady _ _ | PrepareTask _ _ _ _ _ _ => False | _ => True end.

Fixpoint safe {A : Type} (Q : Prepared -> list Job -> A -> Prop) (P : Prepared) (J : list Job) (p : Prog A) : Prop :=
  match p with
  | Ret a => Q P J a
  | Act a k => allowed P J a /\ forall o st st' b, P ⊆ prepared st -> sound st -> admissible a o st -> perform a o st = (st', b) ->
      safe Q (prepared st') J (k b)
  | Spawn job k => job_approved P job /\ safe Q P (J ++ [job]) k
  end.
Definition monotone {A : Type} (Q : Prepared -> list Job -> A -> Prop) : Prop :=
  forall (P P' : Prepared) (J J' : list Job) a, P ⊆ P' -> J ⊆ J' -> Q P J a -> Q P' J' a.

Lemma vouched_mono (P P' : Prepared) id env : P ⊆ P' -> vouched P id env -> vouched P' id env.
Proof. intros S (s & t & H & R). exists s, t. split; [|done]. by eapply lookup_weaken. Qed.
Lemma job_approved_mono (P P' : Prepared) job : P ⊆ P' -> job_approved P job -> job_approved P' job.
Proof.
  intros S. destruct job as [|id env source target tok]; [done|]. intros (B & Se & s0 & t0 & H & D).
  split; [done|]. split; [done|]. exists s0, t0. split; [|done]. by eapply lookup_weaken.
Qed.
Lemma allowed_mono {B : Type} (P P' : Prepared) (J J' : list Job) (a : Action B) : P ⊆ P' -> J ⊆ J' -> allowed P J a -> allowed P' J' a.
Proof.
  intros S Sj. destruct a; cbn; try done.
  - intros (x & H & E). exists x. split; [|done]. by eapply lookup_weaken.
  - by apply vouched_mono.
  - intros [dir H]. exists dir. by apply Sj.
Qed.
Lemma safe_mono {A : Type} (Q : Prepared -> list Job -> A -> Prop) p : monotone Q -> forall (P P' : Prepared) (J J' : list Job), P ⊆ P' -> J ⊆ J' ->
  safe Q P J p -> safe Q P' J' p.
Proof.
  intros M. induction p as [x|B a k IH|job k IH]; intros P P' J J' S Sj; cbn [safe].
  - by apply M.
  - intros [Al K]. split; [by eapply allowed_mono|]. intros o st st' b S' So Ad E.
    apply (IH b (prepared st') (prepared st') J J'); [done|done|]. eapply K; [|done..]. by etransitivity.
  - intros [Ap K]. split; [by eapply job_approved_mono|]. eapply (IH P P'); [done| |exact K]. set_solver.
Qed.
Lemma safe_bind {A B : Type} (Q : Prepared -> list Job -> B -> Prop) (p : Prog A) (f : A -> Prog B) (P : Prepared) (J : list Job) :
  safe (fun P J a => safe Q P J (f a)) P J p -> safe Q P J (bind p f).
Proof.
  revert P J. induction p as [x|C a k IH|job k IH]; intros P J; cbn [safe bind]; [done| |].
  - intros [Al K]. split; [done|]. intros o st st' b S So Ad E. apply IH. by eapply K.
  - intros [Ap K]. auto.
Qed.

(** *** Every action keeps the state sound *)

Lemma previews_moves (P : Prepared) (K : gset str) r r' : moves K r r' -> previews_prepared P r -> previews_prepared P r'.
Proof.
  intros M H id q p Hq Hp. destruct (M id q Hq) as (q0 & H0 & [_ [E|E] Ep] & _); [|congruence]. rewrite Ep. rewrite E in Hp. by eapply H.
Qed.
Lemma previews_mono (P P' : Prepared) r : P ⊆ P' -> previews_prepared P r -> previews_prepared P' r.
Proof.
  intros S H id q p Hq Hp. destruct (H id q p Hq Hp) as (E & x & Hx & Ex). split; [done|]. exists x. split; [|done]. by eapply lookup_weaken.
Qed.

Lemma previews_perform {B : Type} (a : Action B) J o st st' b : sound st -> allowed (prepared st) J a -> admissible a o st ->
  perform a o st = (st', b) -> previews_prepared (prepared st) (registry st').
Proof.
  intros [R _ H] Al [W Ad]. pose proof (Registry.reachable_inv _ _ R) as I.
  destruct a; cbn [Runtime.perform];
    first [ intros (-> & _ & _)%on_registry_ok | intros [= <- _]; exact H | idtac ].
  - unfold initialize. destruct (directory st) eqn:D; [intros [= <- _]; exact H|].
    destruct (app_data_dir dirs); [|intros [= <- _]; exact H].
    destruct (open_directory _ _ _ _ _) as [fs [restored|e]] eqn:O; intros [= <- _]; cbn; [|exact H].
    intros id q p Hq Hp. apply open_directory_recovered in O.
    destruct (restore_frame restored (registry st) O id q Hq) as [K|(_ & K & _)]; [by eapply H|congruence].
  - unfold persist. destruct (directory st); [|intros [= <- _]; exact H]. destruct (Registry.list_tasks _ _) as [r tasks] eqn:L.
    destruct (History.save_history _ _ _ _ _ _) as [fs x]. intros [= <- _]. cbn. apply (f_equal fst) in L. cbn in L. rewrite <- L.
    eapply previews_moves; [apply (list_moves (o_env o))|exact H].
  - destruct (Registry.register_preview _ _ _ _) as [r x] eqn:E. apply register_frame in E as [M|(q & P1 & _ & _ & _ & M)].
    + by eapply previews_moves.
    + intros id q' p Hq Hp. destruct (M id q' Hq) as [[-> ->]|(q0 & H0 & [_ [E|E] Ep] & _)]; [congruence| |congruence].
      rewrite Ep. rewrite E in Hp. by eapply H.
  - destruct (Registry.set_ready _ _ _ _) as [r x] eqn:E. apply set_ready_frame in E. destruct x as [s|e]; [|by subst r].
    destruct E as [_ M]. intros id q p Hq Hp. destruct (M id q Hq) as (q0 & H0 & _ & _ & [[_ [E|E] Ep]|[E Ep]]); [|congruence|].
    + rewrite Ep. rewrite E in Hp. by eapply H.
    + rewrite E in Hp. injection Hp as <-. done.
  - destruct (Registry.begin_execution _ _ _ _) as [r x] eqn:E. apply begin_frame in E; [|done|done].
    assert (G : forall id q, Registry.records r !! id = Some q -> exists q0, Registry.records (registry st) !! id = Some q0 /\
      Registry.plan_id q = Registry.plan_id q0 /\
      (sn_preview (Registry.snapshot_of q) = sn_preview (Registry.snapshot_of q0) \/ sn_preview (Registry.snapshot_of q) = None)).
    { intros id q Hq. destruct x as [[[s [|]] c]|e].
      - destruct (E id q Hq) as (q0 & H0 & E1 & E2 & _). eauto.
      - destruct (E id q Hq) as (q0 & H0 & [_ E2 E1] & _). eauto.
      - destruct (E id q Hq) as (q0 & H0 & [_ E2 E1] & _). eauto. }
    intros id q p Hq Hp. destruct (G id q Hq) as (q0 & H0 & E1 & [E2|E2]); [|congruence]. rewrite E1. rewrite E2 in Hp. by eapply H.
  - by eapply previews_moves; [apply cancel_moves|].
  - by eapply previews_moves; [apply snapshot_moves|].
  - by eapply previews_moves; [apply progress_moves|].
  - by eapply previews_moves; [apply finish_moves|].
  - by eapply previews_moves; [apply list_moves|].
  - by eapply previews_moves; [apply active_moves|].
  - by eapply previews_moves; [apply append_moves|].
  - destruct (snd (o_prepared o)) as [[]|]; intros [= <- _]; exact H.
  - unfold request_exit. repeat case_match; intros [= <- _]; exact H.
Qed.

Lemma perform_other {B : Type} (a : Action B) J o st st' b : allowed (prepared st) J a -> admissible a o st ->
  perform a o st = (st', b) ->
  prepared st ⊆ prepared st' /\
  (forall id env, plans st' !! id = Some env -> plans st !! id = Some env \/ vouched (prepared st) id env) /\
  (forall id plan source target, prepared st' !! id = Some (plan, source, target) ->
     prepared st !! id = Some (plan, source, target) \/ exists dir task_id request cancel, PreviewJob dir task_id request source target cancel ∈ J).
Proof.
  intros Al [W Ad] E.
  assert (Same : prepared st' = prepared st -> plans st' = plans st -> prepared st ⊆ prepared st' /\
    (forall id env, plans st' !! id = Some env -> plans st !! id = Some env \/ vouched (prepared st) id env) /\
    (forall id plan source target, prepared st' !! id = Some (plan, source, target) -> prepared st !! id = Some (plan, source, target) \/
       exists dir task_id request cancel, PreviewJob dir task_id request source target cancel ∈ J)).
  { intros -> ->. split; [done|]. split; auto. }
  revert E. destruct a; cbn [Runtime.perform]; try (unfold on_registry; case_match; intros [= <- _]; by apply Same);
    try (intros [= <- _]; by apply Same).
  - unfold initialize. repeat case_match; intros [= <- _]; by apply Same.
  - unfold persist. repeat case_match; intros [= <- _]; by apply Same.
  - intros [= <- _]. cbn. split; [done|]. split; [|auto]. intros id env [[<- <-]|[_ H]]%lookup_insert_Some; [by right|by left].
  - intros [= <- _]. cbn. split; [done|]. split; [|auto]. intros id env [_ H]%lookup_delete_Some. by left.
  - intros [= <- _]. cbn. split; [done|]. split; [|auto]. intros id env [H _]%map_lookup_filter_Some. by left.
  - destruct (snd (o_prepared o)) as [[plan|e]|] eqn:Eo; intros [= <- _]; try by apply Same. cbn [prepared plans record_prepared].
    split; [by apply insert_subseteq, Ad|]. split; [auto|]. intros id p s t [[_ [= <- <- <-]]|[_ H]]%lookup_insert_Some; [|by left].
    right. destruct Al as [dir Al]. eauto.
Qed.

Lemma perform_sound {B : Type} (a : Action B) J o st st' b : sound st -> allowed (prepared st) J a -> admissible a o st ->
  perform a o st = (st', b) -> sound st'.
Proof.
  intros So Al Ad E. pose proof (previews_perform a J o st st' b So Al Ad E) as Pv.
  destruct (perform_other a J o st st' b Al Ad E) as (Sub & Pl & _). apply perform_steps in E as [R _]; [|done]. destruct So as [R0 V _]. split.
  - unfold Registry.reachable in *. by etransitivity.
  - intros id env H. eapply vouched_mono; [exact Sub|]. destruct (Pl id env H) as [H'|H']; auto.
  - by eapply previews_mono.
Qed.

(** *** Rules *)

Section Rules.
Context {A : Type} (Q : Prepared -> list Job -> A -> Prop) (P : Prepared) (J : list Job).

Lemma perform_grows {B : Type} (a : Action B) o st st' b : free a -> admissible a o st -> perform a o st = (st', b) ->
  prepared st ⊆ prepared st'.
Proof. intros Fr Ad E. apply (perform_other a [] o st st' b) in E; [tauto| |done]. by destruct a. Qed.

Lemma safe_free {B : Type} (a : Action B) (k : B -> Prog A) : free a -> (forall b P', P ⊆ P' -> safe Q P' J (k b)) ->
  safe Q P J (Act a k).
Proof.
  intros Fr K. split; [by destruct a|]. intros o st st' b S So Ad E. apply K. etransitivity; [exact S|]. by eapply perform_grows.
Qed.

Lemma safe_get_plan id (k : option PlanEnvelope -> Prog A) :
  (forall o P', P ⊆ P' -> (forall env, o = Some env -> vouched P' id env) -> safe Q P' J (k o)) -> safe Q P J (Act (GetPlan id) k).
Proof. intros K. split; [exact I|]. intros o st st' b S So _ [= <- <-]. apply K; [done|]. intros env. by apply so_plans. Qed.

Lemma safe_begin input (k : result (DataTaskSnapshot * bool * Registry.Cancellation) DataTaskError -> Prog A) :
  (forall b P', P ⊆ P' -> (forall s cancel, b = Ok (s, true, cancel) -> exists e r r' p, Registry.reachable valid_uuid r /\
     Registry.wf_env e /\ Registry.begin_execution valid_uuid e r input = (r', Ok (s, true, cancel)) /\
     Registry.properly_started e r input r' s cancel p /\ ex_plan_id input = pv_plan_id p /\
     exists x, P' !! pv_plan_id p = Some x /\ sp_preview x.1.1 = p) -> safe Q P' J (k b)) ->
  safe Q P J (Act (BeginExecution input) k).
Proof.
  intros K. split; [exact I|]. intros o st st' b S So [W _]. cbn [Runtime.perform]. unfold on_registry.
  destruct (Registry.begin_execution _ _ _ _) as [r' x] eqn:E. intros [= <- <-]. cbn [prepared set_registry]. apply K; [done|].
  intros s cancel ->. destruct (Registry.begin_guarded _ _ _ _ _ _ _ W (so_reachable _ So) E) as [_ [p G]].
  pose proof G as (q & Hq & Hpl & _ & Hp & _ & _ & _ & _ & _ & X & _).
  destruct (so_records _ So _ _ _ Hq Hp) as [Ep Ex]. exists (o_env o), (registry st), r', p. split_and!; try done; [apply So|].
  unfold Registry.has_plan in Hpl. rewrite X, Ep in Hpl. cbn in Hpl. rewrite orb_false_r in Hpl. apply bool_decide_eq_true in Hpl. congruence.
Qed.
End Rules.

Fixpoint only_free {A : Type} (p : Prog A) : Prop :=
  match p with Ret _ => True | Act a k => free a /\ forall b, only_free (k b) | Spawn _ _ => False end.
Lemma safe_only_free {A : Type} (Q : Prepared -> list Job -> A -> Prop) (p : Prog A) P J : only_free p ->
  (forall a P', P ⊆ P' -> Q P' J a) -> safe Q P J p.
Proof.
  revert P. induction p as [x|B a k IH|job k IH]; intros P C H; [by apply H| |done]. destruct C as [Fr C].
  apply safe_free; [done|]. intros b P' S. apply IH; [apply C|]. intros y P2 S2. apply H. by etransitivity.
Qed.
Lemma free_bind {A B : Type} (p : Prog A) (f : A -> Prog B) : only_free p -> (forall a, only_free (f a)) -> only_free (bind p f).
Proof. induction p as [x|C a k IH|job k IH]; cbn; auto. intros [Ca C'] F. split; auto. Qed.
Lemma free_unless b p : only_free p -> only_free (unless b p).
Proof. by destruct b. Qed.
Lemma free_act {B : Type} (a : Action B) : free a -> only_free (act a).
Proof. intros C. split; [exact C|]. intros b. exact I. Qed.
Lemma free_publish s : only_free (publish s).
Proof.
  split; [exact I|]. intros r. apply (free_bind (unless _ _)); [by apply free_unless, free_act|]. intros _.
  split; [exact I|]. intros c. by apply free_act.
Qed.
Lemma free_prune : only_free prune.
Proof.
  split; [exact I|]. intros tasks. split; [exact I|]. intros l. induction l as [|[id path] l IH]; [exact I|]. split; [exact I|].
  intros b. apply (free_bind (unless _ _)); [by apply free_unless, free_act|]. intros _. exact IH.
Qed.
Lemma free_progress id tok last updates : only_free (progress id tok last updates).
Proof.
  revert last. induction updates as [|up updates IH]; intros last; [exact I|]. cbn [progress]. split; [exact I|]. intros _.
  split; [exact I|]. intros elapsed. destruct (_ || _); [|apply IH]. split; [exact I|]. intros saved.
  apply (free_bind (unless _ _)); [by apply free_unless, free_act|]. intros _. split; [exact I|]. intros s.
  apply free_bind; [destruct s; [by apply free_act|exact I]|]. intros _. apply IH.
Qed.
Lemma free_try {A B : Type} (r : result A DataTaskError) (k : A -> Prog (result B DataTaskError)) :
  (forall x, only_free (k x)) -> only_free (try_ r k).
Proof. intros C. destruct r as [x|e]; [apply C|exact I]. Qed.
Lemma free_cancel_all : only_free cancel_all.
Proof.
  split; [exact I|]. intros tasks. apply free_bind; [|intros _; apply free_prune]. induction tasks as [|s tasks IH]; [exact I|].
  apply (free_bind (unless _ _)); [|done]. apply free_unless. split; [exact I|]. intros [c|e]; [apply free_publish|exact I].
Qed.

(** *** The workers and the commands *)

Lemma safe_step {A B : Type} (Q : Prepared -> list Job -> A -> Prop) P J (a : Action B) (k : B -> Prog A) : allowed P J a ->
  (forall b P', P ⊆ P' -> safe Q P' J (k b)) -> safe Q P J (Act a k).
Proof.
  intros Al K. split; [done|]. intros o st st' b S So Ad E. apply K. etransitivity; [exact S|].
  apply (perform_other a J o st st' b) in E; [tauto| |done]. by eapply allowed_mono.
Qed.
Lemma safe_prepare {A : Type} (Q : Prepared -> list Job -> A -> Prop) P J dir id request source target path cancel k :
  PreviewJob dir id request source target cancel ∈ J ->
  (forall ups r P', P ⊆ P' -> (forall plan, r = Some (Ok plan) -> P' !! pv_plan_id (sp_preview plan) = Some (plan, source, target)) ->
     safe Q P' J (k (ups, r))) ->
  safe Q P J (Act (PrepareTask id request source target path cancel) k).
Proof.
  intros Hj K. assert (Al : forall P, allowed P J (PrepareTask id request source target path cancel)) by (intros ?; by exists dir).
  split; [done|]. intros o st st' b S So Ad E. pose proof (perform_other _ J o st st' b (Al _) Ad E) as (S' & _).
  cbn [Runtime.perform] in E. injection E as <- <-. destruct (o_prepared o) as [ups r]. apply K; [by etransitivity|].
  intros plan ->. cbn [snd prepared record_prepared]. by rewrite lookup_insert_eq.
Qed.

Abbreviation any := (fun (_ : Prepared) (_ : list Job) _ => True) (only parsing).
Lemma safe_worker P J job : job ∈ J -> safe any P J (worker job).
Proof.
  intros Hj. destruct job as [dir id request source target tok|id env source target tok]; cbn [Runtime.worker].
  - apply safe_free; [exact I|]. intros uuid P1 S1. eapply safe_prepare; [exact Hj|]. intros ups r P2 S2 Hr.
    apply safe_bind, safe_only_free; [apply free_progress|]. intros _ P3 S3. apply safe_bind.
    assert (Rest : forall path (outcome : result DataTaskSnapshot DataTaskError) P, safe any P J
      (bind (match outcome with Ok s => publish s | Err _ => Ret tt end) (fun _ => bind prune (fun _ => act (RemoveEmptyDirectory path))))).
    { intros path outcome P4. apply safe_only_free; [|done]. apply free_bind; [destruct outcome; [apply free_publish|exact I]|].
      intros _. apply free_bind; [apply free_prune|]. intros _. by apply free_act. }
    unfold settle_preview. destruct r as [[plan|e]|]; cbn [default].
    + specialize (Hr plan eq_refl). pose proof (lookup_weaken _ _ _ _ Hr S3) as H3.
      apply safe_step; [by exists source, target|]. intros _ P4 S4. pose proof (lookup_weaken _ _ _ _ H3 S4) as H4.
      apply safe_step; [by eexists|]. intros [s|e] P5 S5; [apply Rest|]. apply safe_free; [exact I|]. intros _ P6 _.
      apply safe_free; [exact I|]. intros b P7 _. apply Rest.
    + apply safe_free; [exact I|]. intros b P4 _. apply Rest.
    + apply safe_free; [exact I|]. intros b P4 _. apply Rest.
  - apply safe_only_free; [|done]. split; [exact I|]. intros [ups r]. apply free_bind; [apply free_progress|]. intros _. split; [exact I|].
    intros x. apply free_bind; [apply free_prune|]. intros _. split; [exact I|]. intros s. destruct s; [apply free_publish|exact I].
Qed.

Lemma safe_launch P J snapshot job : job_approved P job -> safe any P J (launch snapshot job).
Proof.
  intros Ap. unfold launch. apply safe_free; [exact I|]. intros [u0|e] P1 S1.
  - apply safe_bind, safe_only_free; [apply free_publish|]. intros _ P2 S2. cbn [safe]. split; [|exact I].
    eapply job_approved_mono; [|exact Ap]. by etransitivity.
  - apply safe_only_free; [|done]. split; [exact I|]. intros r. apply free_try. intros x. exact I.
Qed.
Lemma safe_try {A B : Type} P J (r : result A DataTaskError) (k : A -> Prog (result B DataTaskError)) :
  (forall x, r = Ok x -> safe any P J (k x)) -> safe any P J (try_ r k).
Proof. intros K. destruct r as [x|e]; [by apply K|exact I]. Qed.

Lemma find_saved_id saved id side c : find_saved_connection saved id side = Ok c -> cc_id c = Some id.
Proof. unfold find_saved_connection. intros H%ok_or_ok_inv. apply find_first_some in H as [_ H]. by apply bool_decide_eq_true in H. Qed.
Lemma selected_configs_ok saved request source target : selected_configs saved request = Ok (source, target) -> selected request source target.
Proof.
  unfold selected_configs. intros H. apply rbind_ok_inv in H as ([] & V & H). apply rbind_ok_inv in H as (s & S%map_err_ok_inv & H).
  apply rbind_ok_inv in H as (t & T%map_err_ok_inv & H). case_bool_decide as R; [discriminate|]. apply Ok_inj in H. injection H as -> ->.
  apply find_saved_id in S, T. done.
Qed.
Lemma check_configurations_ok source target s t : check_configurations config_vec sha256 source target s t = Ok tt ->
  digest source = s /\ digest target = t.
Proof. unfold check_configurations. destruct (_ || _) eqn:E; [discriminate|]. intros _. by to_prop. Qed.

Lemma safe_start P J task_id request : safe any P J (start_data_task_preview task_id request).
Proof.
  apply safe_free; [exact I|]. intros d P1 _. apply safe_try. intros dir _. apply safe_free; [exact I|]. intros saved P2 _.
  apply safe_try. intros [source target] _. destruct (negb _); [exact I|]. apply safe_free; [exact I|]. intros r P3 _.
  apply safe_try. intros [[s start] c] _. destruct (negb start); [exact I|]. by apply safe_launch.
Qed.
Lemma safe_execute P J input : safe any P J (execute_data_task config_vec sha256 input).
Proof.
  apply safe_free; [exact I|]. intros d P1 _. apply safe_try. intros dir _. apply safe_free; [exact I|]. intros tasks P2 _.
  destruct (existsb _ _); [by apply safe_free; [exact I|]|]. apply safe_bind, safe_only_free; [apply free_prune|]. intros _ P3 _.
  apply safe_get_plan. intros o P4 _ Vo. apply safe_try. intros env Eo%ok_or_ok_inv. specialize (Vo env Eo) as (s0 & t0 & Hv & Ev & Ds & Dt).
  apply safe_free; [exact I|]. intros saved P5 S5. apply safe_try. intros [source target] H.
  apply rbind_ok_inv in H as (conns & _ & H). apply rbind_ok_inv in H as ([s1 t1] & Sel%selected_configs_ok & H).
  apply rbind_ok_inv in H as ([] & Ck%check_configurations_ok & H). apply Ok_inj in H. injection H as -> ->. destruct Ck as [Cs Ct].
  apply safe_begin. intros r P6 S6 Hb. apply safe_try. intros [[s start] cancel] ->. destruct start; [|exact I]. cbn [negb].
  destruct (Hb s cancel eq_refl) as (e & reg & reg' & p & R & W & B & G & Ep & x & Hx & Ex).
  assert (H6 : P6 !! ex_plan_id input = Some (en_plan env, s0, t0)) by (eapply lookup_weaken; [exact Hv|by etransitivity]).
  assert (p = sp_preview (en_plan env)) as ->.
  { rewrite Ep, Hx in H6. injection H6 as ->. by rewrite <- Ex. }
  apply safe_launch. split; [|split; [done|]].
  - by exists input, e, reg, reg', s.
  - exists s0, t0. rewrite Ev. split; [done|]. split; congruence.
Qed.

Lemma free_run {A : Type} (p : Prog A) : only_free p -> only_free (run p).
Proof. intros C. by apply free_bind. Qed.
Lemma safe_run {A : Type} P J (p : Prog A) : safe any P J p -> safe any P J (run p).
Proof. intros S. apply safe_bind. revert S. apply safe_mono; [by intros ??????|done|done]. Qed.
Lemma safe_command P J c : safe any P J (command c).
Proof.
  destruct c; cbn [Runtime.command]; try (apply safe_run; first [apply safe_start|apply safe_execute]);
    (apply safe_only_free; [|done]); try apply free_run.
  - split; [exact I|]. intros d. apply free_try. intros _. split; [exact I|]. intros s. apply free_try. intros x.
    by apply free_bind; [apply free_prune|].
  - split; [exact I|]. intros d. apply free_try. intros _. apply free_bind; [apply free_prune|]. intros _. destruct (_ || _); [exact I|].
    split; [exact I|]. intros e. apply free_try. intros entry. split; [exact I|]. intros page. apply free_try. intros pg. exact I.
  - split; [exact I|]. intros d. apply free_try. intros _. split; [exact I|]. intros s. apply free_try. intros x.
    apply free_bind; [apply free_publish|]. intros _. by apply free_bind; [apply free_prune|].
  - split; [exact I|]. intros d. apply free_try. intros _. apply free_bind; [apply free_prune|]. intros _. split; [exact I|]. intros l. exact I.
  - split; [exact I|]. intros d. apply free_try. intros _. apply free_bind.
    { split; [exact I|]. intros l. destruct (find_first _ _) as [s|]; [|exact I]. destruct (is_some _); [exact I|]. split; [exact I|].
      intros r. exact I. }
    intros r. apply free_try. intros o. apply free_bind; [destruct o; [apply free_publish|exact I]|]. intros _.
    by apply free_bind; [apply free_prune|].
  - apply free_bind; [apply free_prune|]. intros _. split; [exact I|]. intros b. exact I.
  - split; [exact I|]. intros active. by apply free_act.
  - destruct cancel; [apply free_cancel_all|by apply free_act].
  - split; [exact I|]. intros active. destruct active; [exact I|]. apply free_bind; [|done].
    apply free_bind; [apply free_prune|]. intros _. split; [exact I|]. intros b. exact I.
Qed.

(** *** The system *)

Abbreviation run_step := (Runtime.run_step config_vec sha256 valid_uuid files from_slice to_vec dirs show_f64 json_size budget page_vec)
  (only parsing).
Record guarded (s : System) : Prop := {
  gu_sound : sound (sy_state s);
  gu_pool p : p ∈ sy_pool s -> safe (fun _ _ _ => True) (prepared (sy_state s)) (sy_spawned s) p;
  gu_jobs job : job ∈ sy_spawned s -> job_approved (prepared (sy_state s)) job;
  gu_prepared id plan source target : prepared (sy_state s) !! id = Some (plan, source, target) ->
    exists dir task_id request cancel, PreviewJob dir task_id request source target cancel ∈ sy_spawned s;
}.

Lemma step_guarded s s' : run_step s s' -> guarded s -> guarded s'.
Proof.
  intros H [So Po Jo Pr]. destruct H as [s s' H|st pool spawned c]; cycle 1.
  { split; try done. intros p [Hp|Hp]%elem_of_app; [by apply Po|]. apply list_elem_of_singleton in Hp as ->. apply safe_command. }
  destruct H as [st before p after spawned o st' ps js Ad E]. cbn [sy_state sy_pool sy_spawned] in *.
  assert (Sp : safe (fun _ _ _ => True) (prepared st) spawned p) by (apply Po; set_solver).
  assert (Mono : forall P' J' q, prepared st ⊆ P' -> spawned ⊆ J' -> q ∈ before ++ after -> safe (fun _ _ _ => True) P' J' q).
  { intros P' J' q S Sj Hq. eapply safe_mono; [by intros ??????|exact S|exact Sj|]. apply Po. set_solver. }
  destruct p as [x|B a k|job k]; cbn [step_prog answers safe] in *.
  - injection E as <- <- <-. rewrite app_nil_r. split; try done. intros q Hq. by apply Mono.
  - destruct (Runtime.perform _ _ _ _ _ _ _ _ _ _ _) as [st1 b] eqn:Pf. injection E as <- <- <-. rewrite app_nil_r.
    destruct Sp as [Al K]. destruct (perform_other a spawned o st st1 b Al Ad Pf) as (Sub & _ & New). split; cbn [sy_state sy_pool sy_spawned].
    + by eapply perform_sound.
    + intros q Hq. apply elem_of_app in Hq as [Hq|Hq]; [apply Mono; set_solver|]. apply elem_of_cons in Hq as [->|Hq]; [|apply Mono; set_solver].
      eapply K; [reflexivity|done..].
    + intros job Hj. eapply job_approved_mono; [exact Sub|by apply Jo].
    + intros id plan source target Hp. destruct (New _ _ _ _ Hp) as [Ho|Hn]; [by eapply Pr|done].
  - injection E as <- <- <-. destruct Sp as [Ap K]. split; cbn [sy_state sy_pool sy_spawned]; try done.
    + intros q Hq. apply elem_of_app in Hq as [Hq|Hq]; [apply Mono; set_solver|]. apply elem_of_cons in Hq as [->|Hq]; [exact K|].
      apply elem_of_cons in Hq as [->|Hq]; [apply safe_worker; set_solver|apply Mono; set_solver].
    + intros j' Hj. apply elem_of_app in Hj as [Hj|Hj]; [by apply Jo|]. by apply list_elem_of_singleton in Hj as ->.
    + intros id plan source target Hp. destruct (Pr _ _ _ _ Hp) as (dir & id' & rq & tok & Hj). exists dir, id', rq, tok. set_solver.
Qed.
Lemma run_guarded s s' : rtc run_step s s' -> guarded s -> guarded s'.
Proof. induction 1 as [s|s s1 s' H _ IH]; [done|]. intros G. apply IH. by eapply step_guarded. Qed.
Lemma initial_guarded fs : guarded (mkSystem (initial fs) [] []).
Proof.
  split; cbn; [split; cbn|by intros p ?%elem_of_nil|by intros p ?%elem_of_nil|by intros id plan s t ?%lookup_empty_Some].
  - apply rtc_refl.
  - by intros id env ?%lookup_empty_Some.
  - intros id q p H. cbn in H. by apply lookup_empty_Some in H.
Qed.

End Safety.

(** ** Witness: the sample run, up to the launch of the execution *)

#[local] Transparent u.

Definition launches (s : System) : bool := match last (sy_spawned s) with Some (ExecuteJob _ _ _ _ _) => true | _ => false end.
Lemma sample_launches : is_some_and launches (s ← sample_preview_run (initial ∅); sample_execute_run s 12) = true.
Proof. vm_compute. reflexivity. Qed.
End RuntimeSafe.
