(* ===== verification/SchemaCompare.v ===== *)
(** Comparing two schemas (src-tauri/src/db/schema_compare/mod.rs, with the
    records of src-tauri/src/models/types.rs): the snapshot of a schema, the
    differences between two of them, and what they mean. *)
From S2P Require Import Prelude OrderedMap RustText DataTypes.
Import DataTypes.

Module SchemaCompare.

(** ** Data *)

Record ColumnSnapshot : Type := mkColumn {
  ordinal_position : Z;
  column_type : str;
  nullable : bool;
  default_value : option str;
  primary_key : bool;
  extra : str;
  comment : str;
}.
#[export] Instance ColumnSnapshot_eq_dec : EqDecision ColumnSnapshot.
Proof. solve_decision. Defined.

Record SnapshotRow : Type := mkRow { sr_table_name : str; sr_column_name : str; sr_details : ColumnSnapshot }.
Record TableSnapshot : Type := mkSnapshot { ts_name : str; ts_columns : list (str * ColumnSnapshot) }.
#[export] Instance TableSnapshot_eq_dec : EqDecision TableSnapshot.
Proof. solve_decision. Defined.

Record CompareEndpointInfo : Type := mkEndpointInfo { ei_connection_id : str; ei_connection_name : str; ei_database : str }.
Inductive SchemaDiffStatus : Type := SourceOnly | TargetOnly | Changed.
#[export] Instance SchemaDiffStatus_eq_dec : EqDecision SchemaDiffStatus.
Proof. solve_decision. Defined.

Record ColumnDiff : Type := mkColumnDiff {
  cd_name : str;
  cd_status : SchemaDiffStatus;
  cd_changed_fields : list str;
  cd_source : option ColumnSnapshot;
  cd_target : option ColumnSnapshot;
}.
Record TableDiff : Type := mkTableDiff { td_name : str; td_status : SchemaDiffStatus; td_columns : list ColumnDiff }.
Record DatabaseCompareSummary : Type := mkSummary {
  source_only_tables : Z; target_only_tables : Z; changed_tables : Z; different_columns : Z }.
Record DatabaseCompareResult : Type := mkCompareResult {
  cr_database_type : DatabaseType;
  cr_source : CompareEndpointInfo;
  cr_target : CompareEndpointInfo;
  cr_compared_at : str;
  cr_summary : DatabaseCompareSummary;
  cr_tables : list TableDiff;
}.

(** ** Snapshots *)

(** The order of the columns everywhere in the program. *)
Definition by_position : str * ColumnSnapshot -> str * ColumnSnapshot -> comparison :=
  cmp_then (cmp_on (fun c => ordinal_position c.2) Z.compare) (cmp_on fst str_cmp).

Definition push_row (m : list (str * list (str * ColumnSnapshot))) (row : SnapshotRow) :
    list (str * list (str * ColumnSnapshot)) :=
  BTree.entry str_cmp (sr_table_name row) (fun v => default [] v ++ [(sr_column_name row, sr_details row)]) m.
Definition rows_to_tables (rows : list SnapshotRow) : list TableSnapshot :=
  map (fun p => mkSnapshot p.1 (sort_by by_position p.2)) (fold_left push_row rows []).

(** ** Columns *)

(** The loop over the characters of [strip_balanced_outer_parentheses]. *)
Fixpoint outer_depth (depth : nat) (rest : str) : option nat :=
  match rest with
  | [] => Some depth
  | c :: rest =>
    if c =? 40 then outer_depth (S depth) rest
    else if c =? 41 then
      match depth with
      | O => None
      | S depth => if Nat.eqb depth 0 && negb (is_empty rest) then None else outer_depth depth rest
      end
    else outer_depth depth rest
  end.
Definition strip_balanced_outer_parentheses (value : str) : option str :=
  let value := trim value in
  if negb (starts_with [40] value) || negb (ends_with [41] value) then None
  else
    depth ← outer_depth 0 value;
    if Nat.eqb depth 0 then Some (trim (removelast (tail value))) else None.

(** Every round drops two characters, so the length is enough fuel. *)
Fixpoint null_loop (fuel : nat) (value : str) : bool :=
  match fuel with
  | O => false
  | S fuel =>
    if eq_ignore_ascii_case value (u "NULL") then true
    else
      match strip_balanced_outer_parentheses value with
      | Some inner => null_loop fuel inner
      | None => false
      end
  end.
Definition is_semantic_null_default (value : option str) : bool :=
  match value with
  | None => true
  | Some value => null_loop (S (length value)) (trim value)
  end.
Definition default_values_equal (source target : option str) : bool :=
  if is_semantic_null_default source && is_semantic_null_default target then true
  else bool_decide (source = target).

Definition changed_fields (source target : ColumnSnapshot) : list str :=
  let checks :=
    [(u "ordinal_position", negb (bool_decide (ordinal_position source = ordinal_position target)));
     (u "column_type", negb (bool_decide (column_type source = column_type target)));
     (u "nullable", negb (bool_decide (nullable source = nullable target)));
     (u "default_value", negb (default_values_equal (default_value source) (default_value target)));
     (u "primary_key", negb (bool_decide (primary_key source = primary_key target)));
     (u "extra", negb (bool_decide (extra source = extra target)));
     (u "comment", negb (bool_decide (comment source = comment target)))] in
  map fst (List.filter snd checks).

Abbreviation Sides V := (option V * option V)%type (only parsing).
Definition set_source {V} (v : V) (s : option (option V * option V)) : option V * option V := (Some v, (default (None, None) s).2).
Definition set_target {V} (v : V) (s : option (option V * option V)) : option V * option V := ((default (None, None) s).1, Some v).

(** Both sides of everything named, in the order of the names. *)
Definition pair_up {V} (source target : list (str * V)) : list (str * (option V * option V)) :=
  fold_left (fun m p => BTree.entry str_cmp p.1 (set_target p.2) m) target
    (fold_left (fun m p => BTree.entry str_cmp p.1 (set_source p.2) m) source []).

Definition column_difference (c : str * (option ColumnSnapshot * option ColumnSnapshot)) : option ColumnDiff :=
  let '(name, (source, target)) := c in
  match source, target with
  | Some s, Some t =>
    let fields := changed_fields s t in
    if is_empty fields then None else Some (mkColumnDiff name Changed fields source target)
  | Some _, None => Some (mkColumnDiff name SourceOnly [] source target)
  | None, Some _ => Some (mkColumnDiff name TargetOnly [] source target)
  | None, None => None
  end.
Definition column_position (c : ColumnDiff) : Z :=
  match cd_source c, cd_target c with
  | Some s, Some t => Z.min (ordinal_position s) (ordinal_position t)
  | Some s, None => ordinal_position s
  | None, Some t => ordinal_position t
  | None, None => 0
  end.
Definition build_column_differences (columns : list (str * (option ColumnSnapshot * option ColumnSnapshot))) : list ColumnDiff :=
  sort_by (cmp_then (cmp_on column_position Z.compare) (cmp_on cd_name str_cmp)) (omap column_difference columns).
Definition compare_columns (source target : list (str * ColumnSnapshot)) : list ColumnDiff :=
  build_column_differences (pair_up source target).
Definition compare_table_columns (source target : TableSnapshot) : list ColumnDiff :=
  compare_columns (ts_columns source) (ts_columns target).

(** ** Schemas *)

Definition Tally : Type := DatabaseCompareSummary * list TableDiff.
Definition tally_table (st : Tally) (t : str * (option (list (str * ColumnSnapshot)) * option (list (str * ColumnSnapshot)))) : Tally :=
  let '(s, diffs) := st in
  let '(name, (source_columns, target_columns)) := t in
  match source_columns, target_columns with
  | Some _, None =>
    (mkSummary (source_only_tables s + 1) (target_only_tables s) (changed_tables s) (different_columns s),
     diffs ++ [mkTableDiff name SourceOnly []])
  | None, Some _ =>
    (mkSummary (source_only_tables s) (target_only_tables s + 1) (changed_tables s) (different_columns s),
     diffs ++ [mkTableDiff name TargetOnly []])
  | Some source_columns, Some target_columns =>
    let columns := compare_columns source_columns target_columns in
    if is_empty columns then st
    else
      (mkSummary (source_only_tables s) (target_only_tables s) (changed_tables s + 1) (different_columns s + zlen columns),
       diffs ++ [mkTableDiff name Changed columns])
  | None, None => st
  end.
Definition table_columns (t : TableSnapshot) : str * list (str * ColumnSnapshot) := (ts_name t, ts_columns t).
Definition compare_schema_snapshots (database_type : DatabaseType) (source target : CompareEndpointInfo) (compared_at : str)
    (source_tables target_tables : list TableSnapshot) : DatabaseCompareResult :=
  let tables := pair_up (map table_columns source_tables) (map table_columns target_tables) in
  let '(summary, table_diffs) := fold_left tally_table tables (mkSummary 0 0 0 0, []) in
  mkCompareResult database_type source target compared_at summary table_diffs.

(** ** Defaults that mean NULL *)

(** The word NULL in any letter case, white space around it, within any number
    of pairs of parentheses. *)
Inductive null_text : str -> Prop :=
| null_word s : eq_ignore_ascii_case (trim s) (u "NULL") = true -> null_text s
| null_parens s t : null_text s -> trim t = [40] ++ s ++ [41] -> null_text t.

Definition null_default (value : option str) : Prop := match value with None => True | Some value => null_text value end.

Definition not_paren (c : char) : bool := negb (c =? 40) && negb (c =? 41).

Lemma outer_depth_skip d a r : forallb not_paren a = true -> outer_depth d (a ++ r) = outer_depth d r.
Proof.
  induction a as [|c a IH]; cbn; [done|]. intros [Hc Ha]%andb_prop. unfold not_paren in Hc.
  apply andb_prop in Hc as [H1 H2]. rewrite negb_true_iff in H1, H2. rewrite H1, H2. by apply IH.
Qed.

Lemma whitespace_not_paren s : forallb is_whitespace s = true -> forallb not_paren s = true.
Proof.
  intros H. apply forallb_true_iff. intros c Hc. rewrite forallb_true_iff in H. specialize (H c Hc). unfold not_paren.
  destruct (Z.eqb_spec c 40) as [->|]; [done|]. by destruct (Z.eqb_spec c 41) as [->|].
Qed.

Lemma trim_split s : exists a b, s = a ++ trim s ++ b /\ forallb is_whitespace a = true /\ forallb is_whitespace b = true.
Proof.
  destruct (drop_while_split is_whitespace s) as (a & E1 & H1).
  destruct (trim_end_matches_split is_whitespace (drop_while is_whitespace s)) as (b & E2 & H2).
  exists a, b. split; [|done]. rewrite E1 at 1. f_equal. exact E2.
Qed.

Lemma trim_start_end s : trim_start (trim s) = trim s.
Proof.
  unfold trim, trim_start, trim_end, trim_start_matches.
  destruct (trim_end_matches_split is_whitespace (drop_while is_whitespace s)) as (b & E & _).
  destruct (trim_end_matches is_whitespace (drop_while is_whitespace s)) as [|c r]; [done|].
  apply drop_while_id. by eapply drop_while_head.
Qed.
Lemma trim_idem s : trim (trim s) = trim s.
Proof. unfold trim at 1. rewrite trim_start_end. apply trim_end_matches_idem. Qed.
Lemma trim_length s : (length (trim s) <= length s)%nat.
Proof. destruct (trim_split s) as (a & b & E & _). rewrite E at 2. rewrite !length_app. lia. Qed.

Lemma null_text_trim s : null_text (trim s) <-> null_text s.
Proof.
  split; intros H.
  - remember (trim s) as t eqn:Et. destruct H as [t H|r t H E]; subst t; rewrite trim_idem in *.
    + by constructor.
    + by eapply null_parens.
  - destruct H as [s H|r s H E].
    + constructor. by rewrite trim_idem.
    + apply (null_parens r); [done|]. by rewrite trim_idem.
Qed.

Lemma null_word_not_paren w : eq_ignore_ascii_case w (u "NULL") = true -> forallb not_paren w = true.
Proof.
  unfold eq_ignore_ascii_case. intros H. apply bool_decide_eq_true in H.
  apply forallb_true_iff. intros c Hc. apply (list_elem_of_fmap_2 ascii_upper) in Hc.
  assert (Q : ascii_upper c ∈ to_ascii_uppercase (u "NULL")) by (rewrite <- H; exact Hc).
  clear H Hc. change (to_ascii_uppercase (u "NULL")) with [78; 85; 76; 76] in Q.
  unfold not_paren. destruct (Z.eqb_spec c 40) as [->|]; [|destruct (Z.eqb_spec c 41) as [->|]; [|done]];
    exfalso; change (ascii_upper _) with 40 in Q || change (ascii_upper _) with 41 in Q;
    repeat (apply elem_of_cons in Q as [Q|Q]; [discriminate|]); by apply elem_of_nil in Q.
Qed.

Lemma null_text_balanced s : null_text s -> forall d r, outer_depth (S d) (s ++ r) = outer_depth (S d) r.
Proof.
  induction 1 as [s H|s t H IH E]; intros d r.
  - destruct (trim_split s) as (a & b & Es & Ha & Hb). rewrite Es, <- !app_assoc.
    rewrite !outer_depth_skip; auto using whitespace_not_paren, null_word_not_paren.
  - destruct (trim_split t) as (a & b & Es & Ha & Hb). rewrite Es, E, <- !app_assoc.
    rewrite outer_depth_skip by auto using whitespace_not_paren.
    change ([40] ++ s ++ [41] ++ b ++ r) with (40 :: (s ++ [41] ++ b ++ r)). cbn [outer_depth Z.eqb Pos.eqb].
    rewrite IH. change ([41] ++ b ++ r) with (41 :: (b ++ r)). cbn [outer_depth Z.eqb Pos.eqb Nat.eqb andb].
    by rewrite outer_depth_skip by auto using whitespace_not_paren.
Qed.

Lemma strip_parens m t : null_text m -> trim t = [40] ++ m ++ [41] ->
  strip_balanced_outer_parentheses t = Some (trim m).
Proof.
  intros H E. unfold strip_balanced_outer_parentheses. rewrite E.
  assert (S : starts_with [40] ([40] ++ m ++ [41]) = true) by (apply starts_with_iff; by eexists).
  assert (N : ends_with [41] ([40] ++ m ++ [41]) = true).
  { unfold ends_with, strip_suffix. rewrite app_assoc, reverse_app. change (reverse [41]) with [41].
    assert (Q : strip_prefix [41] ([41] ++ reverse ([40] ++ m)) = Some (reverse ([40] ++ m))) by by apply strip_prefix_some.
    by rewrite Q. }
  rewrite S, N. cbn [negb orb]. change ([40] ++ m ++ [41]) with (40 :: (m ++ [41])).
  cbn [outer_depth Z.eqb Pos.eqb]. rewrite (null_text_balanced m H 0 [41]).
  cbn [outer_depth Z.eqb Pos.eqb Nat.eqb is_empty negb andb mbind option_bind tail]. by rewrite removelast_last.
Qed.

Lemma strip_inv v i : strip_balanced_outer_parentheses v = Some i -> exists m, trim v = [40] ++ m ++ [41] /\ i = trim m.
Proof.
  unfold strip_balanced_outer_parentheses.
  destruct (starts_with [40] (trim v)) eqn:S; [|done]. destruct (ends_with [41] (trim v)) eqn:N; [|done].
  cbn [negb orb]. destruct (outer_depth 0 (trim v)) as [d|]; [|done]. cbn [mbind option_bind].
  destruct (Nat.eqb d 0); [|done]. intros [= <-].
  apply starts_with_iff in S as (r & S). unfold ends_with, strip_suffix in N.
  destruct (strip_prefix (reverse [41]) (reverse (trim v))) as [q|] eqn:Q; [|done].
  apply strip_prefix_some in Q. change (reverse [41]) with [41] in Q.
  assert (E : trim v = reverse q ++ [41]) by (rewrite <- (reverse_involutive (trim v)), Q, reverse_app; done).
  rewrite S in E |- *. destruct (reverse q) as [|c m]; [by destruct r|]. injection E as <- ->.
  exists m. split; [done|]. cbn [app tail]. by rewrite removelast_last.
Qed.

Lemma null_loop_spec fuel v : (length v < fuel)%nat -> trim v = v -> null_loop fuel v = true <-> null_text v.
Proof.
  revert v. induction fuel as [|fuel IH]; intros v L T; [lia|]. cbn [null_loop].
  destruct (eq_ignore_ascii_case v (u "NULL")) eqn:W.
  { split; [intros _; constructor; by rewrite T|done]. }
  destruct (strip_balanced_outer_parentheses v) as [i|] eqn:S.
  - destruct (strip_inv v i S) as (m & E & ->). rewrite T in E.
    rewrite IH; [|rewrite E in L; pose proof (trim_length m); rewrite !length_app in L; cbn in L; lia|apply trim_idem].
    rewrite null_text_trim. split; [intros H; apply (null_parens m); [done|by rewrite T]|].
    intros H. destruct H as [s H|r s H E']; [rewrite T in H; congruence|].
    rewrite T, E in E'. cbn in E'. injection E' as E'. by apply app_inj_tail in E' as [-> _].
  - split; [done|]. intros H. destruct H as [s H|r s H E]; [rewrite T in H; congruence|].
    by rewrite (strip_parens r s H E) in S.
Qed.

Lemma semantic_null_iff v : is_semantic_null_default v = true <-> null_default v.
Proof.
  destruct v as [v|]; [|done]. cbn [is_semantic_null_default null_default].
  rewrite null_loop_spec; [apply null_text_trim|pose proof (trim_length v); lia|apply trim_idem].
Qed.

(** ** Columns that mean the same *)

Definition default_equiv (a b : option str) : Prop := (null_default a /\ null_default b) \/ a = b.

Record column_equiv (a b : ColumnSnapshot) : Prop := {
  equiv_position : ordinal_position a = ordinal_position b;
  equiv_type : column_type a = column_type b;
  equiv_nullable : nullable a = nullable b;
  equiv_default : default_equiv (default_value a) (default_value b);
  equiv_primary_key : primary_key a = primary_key b;
  equiv_extra : extra a = extra b;
  equiv_comment : comment a = comment b;
}.

#[export] Instance default_equiv_equivalence : Equivalence default_equiv.
Proof.
  split.
  - intros a. by right.
  - intros a b [[]| ->]; [by left|by right].
  - intros a b c [[Ha Hb]| ->]; [|done]. intros [[_ Hc]| <-]; by left.
Qed.
#[export] Instance column_equiv_equivalence : Equivalence column_equiv.
Proof.
  split.
  - intros a. by split.
  - intros a b []. split; by symmetry.
  - intros a b c [] []. split; by etransitivity.
Qed.

Lemma default_values_equal_iff a b : default_values_equal a b = true <-> default_equiv a b.
Proof.
  unfold default_values_equal, default_equiv.
  pose proof (semantic_null_iff a). pose proof (semantic_null_iff b).
  destruct (is_semantic_null_default a), (is_semantic_null_default b); cbn; rewrite ?bool_decide_eq_true; naive_solver.
Qed.

(** What a name in the list of changed fields says. *)
Inductive field_changed (a b : ColumnSnapshot) : str -> Prop :=
| position_changed : ordinal_position a <> ordinal_position b -> field_changed a b (u "ordinal_position")
| type_changed : column_type a <> column_type b -> field_changed a b (u "column_type")
| nullable_changed : nullable a <> nullable b -> field_changed a b (u "nullable")
| default_changed : ~ default_equiv (default_value a) (default_value b) -> field_changed a b (u "default_value")
| primary_key_changed : primary_key a <> primary_key b -> field_changed a b (u "primary_key")
| extra_changed : extra a <> extra b -> field_changed a b (u "extra")
| comment_changed : comment a <> comment b -> field_changed a b (u "comment").

Lemma checked_elem f (checks : list (str * bool)) : f ∈ map fst (List.filter snd checks) <-> (f, true) ∈ checks.
Proof.
  rewrite list_elem_of_fmap. split.
  - intros ([g b] & -> & H). apply list_elem_of_In, filter_In in H as [H Hb]. cbn in Hb. subst b.
    by apply list_elem_of_In.
  - intros H. exists (f, true). split; [done|]. apply list_elem_of_In, filter_In. split; [by apply list_elem_of_In|done].
Qed.

Lemma changed_fields_elem a b f : f ∈ changed_fields a b <-> field_changed a b f.
Proof.
  unfold changed_fields. rewrite checked_elem. split.
  - pose proof (default_values_equal_iff (default_value a) (default_value b)) as D.
    intros H. repeat (apply elem_of_cons in H as [[= -> H]|H]); [..|by apply elem_of_nil in H];
      symmetry in H; apply negb_true_iff in H; first [apply bool_decide_eq_false in H|rewrite <- not_true_iff_false, D in H];
      constructor; exact H.
  - intros H.
    assert (Q : forall (g : str) (c : bool), c = true -> (g, c) = (g, true)) by (by intros g c ->).
    assert (B : forall (P : Prop) `{!Decision P}, ~ P -> negb (bool_decide P) = true).
    { intros P ? N. by apply negb_true_iff, bool_decide_eq_false. }
    destruct H; rewrite !elem_of_cons;
      repeat first [left; symmetry; apply Q; first [by apply B|by rewrite negb_true_iff, <- not_true_iff_false, default_values_equal_iff]|right].
Qed.

Lemma changed_fields_nil a b : changed_fields a b = [] <-> column_equiv a b.
Proof.
  split.
  - intros E. assert (N : forall f, ~ field_changed a b f) by (intros f H%changed_fields_elem; rewrite E in H; by apply elem_of_nil in H).
    split; try (apply dec_stable; intros H; by eapply N; constructor).
    apply default_values_equal_iff, not_false_iff_true. intros H.
    eapply N, default_changed. by rewrite <- default_values_equal_iff, H.
  - intros []. destruct (changed_fields a b) as [|f l] eqn:E; [done|].
    assert (H : f ∈ changed_fields a b) by (rewrite E; left). by apply changed_fields_elem in H as [].
Qed.

#[local] Opaque changed_fields.

(** ** Pairing the two sides *)

(** What a side says of a name, and what the pairing holds for it. *)
Definition said {V : Type} (l : list (str * V)) (n : str) : option V := BTree.get str_cmp n (BTree.collect str_cmp l).
Definition sides {V : Type} (a b : option V) : option (option V * option V) :=
  match a, b with None, None => None | _, _ => Some (a, b) end.

Lemma said_snoc {V : Type} (l : list (str * V)) (k n : str) (v : V) :
  said (l ++ [(k, v)]) n = if decide (n = k) then Some v else said l n.
Proof.
  unfold said, BTree.collect. rewrite fold_left_app. cbn. unfold BTree.put at 1.
  destruct (decide (n = k)) as [->|N].
  - by rewrite (BTree.get_entry str_cmp) by apply (BTree.collect_ordered str_cmp).
  - by rewrite (BTree.get_entry_ne str_cmp).
Qed.
Lemma said_elem {V : Type} (l : list (str * V)) n v : NoDup (map fst l) -> said l n = Some v <-> (n, v) ∈ l.
Proof. apply (BTree.collect_elem str_cmp). Qed.
Lemma said_in {V : Type} (l : list (str * V)) n v : said l n = Some v -> (n, v) ∈ l.
Proof. apply (BTree.collect_in str_cmp). Qed.

Lemma side_ordered {V W : Type} (f : W -> option V -> V) (l : list (str * W)) m : BTree.ordered str_cmp m ->
  BTree.ordered str_cmp (fold_left (fun m p => BTree.entry str_cmp p.1 (f p.2) m) l m).
Proof. apply (BTree.fold_ordered str_cmp). intros m0 a. apply (BTree.entry_ordered str_cmp). Qed.

Lemma pair_up_ordered {V : Type} (s t : list (str * V)) : BTree.ordered str_cmp (pair_up s t).
Proof. unfold pair_up. apply (side_ordered set_target), (side_ordered set_source), (BTree.ordered_nil str_cmp). Qed.

Lemma pair_up_get {V : Type} (s t : list (str * V)) n : BTree.get str_cmp n (pair_up s t) = sides (said s n) (said t n).
Proof.
  unfold pair_up. induction t as [|[k v] t IH] using rev_ind.
  - cbn [fold_left]. change (said (@nil (str * V)) n) with (@None V).
    induction s as [|[k v] s IH] using rev_ind; [done|]. rewrite fold_left_app. cbn [fold_left fst snd].
    rewrite said_snoc. destruct (decide (n = k)) as [->|N].
    + rewrite (BTree.get_entry str_cmp) by apply (side_ordered set_source), (BTree.ordered_nil str_cmp). rewrite IH. by destruct (said s k).
    + by rewrite (BTree.get_entry_ne str_cmp).
  - rewrite fold_left_app. cbn [fold_left fst snd]. rewrite said_snoc. destruct (decide (n = k)) as [->|N].
    + rewrite (BTree.get_entry str_cmp) by apply (side_ordered set_target), (side_ordered set_source), (BTree.ordered_nil str_cmp).
      rewrite IH. by destruct (said s k), (said t k).
    + by rewrite (BTree.get_entry_ne str_cmp).
Qed.

Lemma pair_up_elem {V : Type} (s t : list (str * V)) n p : (n, p) ∈ pair_up s t <-> sides (said s n) (said t n) = Some p.
Proof. rewrite <- pair_up_get. symmetry. apply (BTree.get_elem str_cmp), pair_up_ordered. Qed.

(** ** Differences of columns *)

(** What the comparison of two tables says of a column. *)
Definition same_columns (s t : list (str * ColumnSnapshot)) : Prop := forall n,
  match said s n, said t n with
  | None, None => True
  | Some a, Some b => column_equiv a b
  | _, _ => False
  end.
Definition right_column (s t : list (str * ColumnSnapshot)) (d : ColumnDiff) : Prop :=
  cd_source d = said s (cd_name d) /\ cd_target d = said t (cd_name d) /\
  match cd_source d, cd_target d with
  | Some a, Some b => cd_status d = Changed /\ ~ column_equiv a b /\ cd_changed_fields d = changed_fields a b
  | Some _, None => cd_status d = SourceOnly /\ cd_changed_fields d = []
  | None, Some _ => cd_status d = TargetOnly /\ cd_changed_fields d = []
  | None, None => False
  end.

Lemma column_difference_some n p d : column_difference (n, p) = Some d -> cd_name d = n /\ (cd_source d, cd_target d) = p.
Proof.
  destruct p as [[a|] [b|]]; cbn; [destruct (changed_fields a b); cbn|..]; intros [= <-]; done.
Qed.

Lemma column_difference_right s t n p d : sides (said s n) (said t n) = Some p ->
  column_difference (n, p) = Some d <-> cd_name d = n /\ right_column s t d.
Proof.
  intros E. unfold right_column. split.
  - intros D. destruct (column_difference_some n p d D) as [<- <-]. split; [done|].
    unfold sides in E. destruct (said s (cd_name d)) as [a|], (said t (cd_name d)) as [b|]; [..|done];
      injection E as Es Et; rewrite <- Es, <- Et in D |- *; cbn in D; (split; [done|]; split; [done|]).
    + destruct (is_empty (changed_fields a b)) eqn:F; [done|]. injection D as <-. cbn. split; [done|]. split; [|done].
      rewrite <- changed_fields_nil. by destruct (changed_fields a b).
    + by injection D as <-.
    + by injection D as <-.
  - destruct d as [m st fs ds dt]. cbn. intros (-> & -> & -> & H). unfold sides in E.
    destruct (said s n) as [a|], (said t n) as [b|]; [..|done]; injection E as <-; cbn.
    + destruct H as (-> & N & ->). rewrite <- changed_fields_nil in N. by destruct (changed_fields a b).
    + by destruct H as [-> ->].
    + by destruct H as [-> ->].
Qed.

Lemma compare_columns_elem s t d : d ∈ compare_columns s t <-> right_column s t d.
Proof.
  unfold compare_columns, build_column_differences. rewrite sort_by_elem, list_elem_of_omap. split.
  - intros ([n p] & Hp & D). apply pair_up_elem in Hp. by apply (column_difference_right s t n p) in D as [_ ?].
  - intros R. pose proof R as R'. destruct R as (Es & Et & R).
    destruct (sides (said s (cd_name d)) (said t (cd_name d))) as [p|] eqn:E.
    + exists (cd_name d, p). split; [by apply pair_up_elem|]. by apply (column_difference_right s t).
    + rewrite <- Es, <- Et in E. by destruct (cd_source d), (cd_target d).
Qed.

Lemma compare_columns_nil s t : compare_columns s t = [] <-> same_columns s t.
Proof.
  split.
  - intros E n. assert (N : forall d, ~ right_column s t d) by (intros d H%compare_columns_elem; rewrite E in H; by apply elem_of_nil in H).
    destruct (said s n) as [a|] eqn:Es, (said t n) as [b|] eqn:Et; [|exfalso..|done].
    + apply changed_fields_nil. destruct (changed_fields a b) as [|f l] eqn:F; [done|]. exfalso.
      apply (N (mkColumnDiff n Changed (changed_fields a b) (Some a) (Some b))). unfold right_column. cbn.
      rewrite Es, Et, <- changed_fields_nil, F. done.
    + apply (N (mkColumnDiff n SourceOnly [] (Some a) None)). unfold right_column. cbn. by rewrite Es, Et.
    + apply (N (mkColumnDiff n TargetOnly [] None (Some b))). unfold right_column. cbn. by rewrite Es, Et.
  - intros H. destruct (compare_columns s t) as [|d l] eqn:E; [done|].
    assert (R : d ∈ compare_columns s t) by (rewrite E; left). apply compare_columns_elem in R as (Es & Et & R).
    specialize (H (cd_name d)). rewrite <- Es, <- Et in H. destruct (cd_source d), (cd_target d); naive_solver.
Qed.

Lemma omap_names {A B : Type} (f : str * A -> option B) (g : B -> str) (m : list (str * A)) :
  (forall n a b, f (n, a) = Some b -> g b = n) -> NoDup (map fst m) -> NoDup (map g (omap f m)).
Proof.
  intros H. induction m as [|[n a] m IH]; cbn; [constructor|]. intros [Nn N]%NoDup_cons.
  destruct (f (n, a)) as [b|] eqn:E; [|by apply IH]. cbn. apply NoDup_cons. split; [|by apply IH].
  rewrite (H _ _ _ E). intros (b' & Eb & Hb)%list_elem_of_fmap. apply list_elem_of_omap in Hb as ([n' a'] & Hin & E').
  apply H in E'. destruct Nn. rewrite Eb, E'. by apply (list_elem_of_fmap_2 fst) in Hin.
Qed.

Lemma compare_columns_names s t : NoDup (map cd_name (compare_columns s t)).
Proof.
  unfold compare_columns, build_column_differences.
  assert (P : map cd_name (sort_by (cmp_then (cmp_on column_position Z.compare) (cmp_on cd_name str_cmp))
    (omap column_difference (pair_up s t))) ≡ₚ map cd_name (omap column_difference (pair_up s t)))
    by apply Permutation_map, sort_by_perm.
  rewrite P. apply (omap_names column_difference).
  - intros n a d D. by apply column_difference_some in D as [-> _].
  - by apply (BTree.ordered_keys str_cmp), pair_up_ordered.
Qed.

(** ** Differences of tables *)

Definition table_difference (t : str * (option (list (str * ColumnSnapshot)) * option (list (str * ColumnSnapshot)))) : option TableDiff :=
  match t.2 with
  | (Some _, None) => Some (mkTableDiff t.1 SourceOnly [])
  | (None, Some _) => Some (mkTableDiff t.1 TargetOnly [])
  | (Some a, Some b) => if is_empty (compare_columns a b) then None else Some (mkTableDiff t.1 Changed (compare_columns a b))
  | (None, None) => None
  end.
Definition with_status (st : SchemaDiffStatus) (d : TableDiff) : bool := bool_decide (td_status d = st).
Definition summary_of (diffs : list TableDiff) : DatabaseCompareSummary :=
  mkSummary (zlen (List.filter (with_status SourceOnly) diffs)) (zlen (List.filter (with_status TargetOnly) diffs))
    (zlen (List.filter (with_status Changed) diffs)) (fold_right Z.add 0 (map (fun d => zlen (td_columns d)) diffs)).

Lemma summary_snoc l d : summary_of (l ++ [d]) =
  let s := summary_of l in
  mkSummary (source_only_tables s + if with_status SourceOnly d then 1 else 0)
    (target_only_tables s + if with_status TargetOnly d then 1 else 0)
    (changed_tables s + if with_status Changed d then 1 else 0) (different_columns s + zlen (td_columns d)).
Proof.
  assert (F : forall p : TableDiff -> bool, zlen (List.filter p (l ++ [d])) = zlen (List.filter p l) + if p d then 1 else 0).
  { intros p. rewrite List.filter_app, zlen_app. f_equal. cbn. by destruct (p d). }
  assert (S : fold_right Z.add 0 (map (fun d => zlen (td_columns d)) (l ++ [d])) =
    fold_right Z.add 0 (map (fun d => zlen (td_columns d)) l) + zlen (td_columns d)).
  { rewrite map_app, fold_right_app. cbn. rewrite Z.add_0_r. generalize (zlen (td_columns d)) as z. intros z.
    induction (map _ l) as [|x r IH]; cbn; lia. }
  unfold summary_of. cbn. by rewrite !F, S.
Qed.

Lemma omap_first {A B : Type} (f : A -> option B) x m :
  omap f (x :: m) = match f x with Some y => y :: omap f m | None => omap f m end.
Proof. done. Qed.

Lemma tally_spec m diffs :
  fold_left tally_table m (summary_of diffs, diffs) =
    (summary_of (diffs ++ omap table_difference m), diffs ++ omap table_difference m).
Proof.
  revert diffs. induction m as [|[n [a b]] m IH]; intros diffs; cbn [fold_left].
  { by rewrite app_nil_r. }
  assert (P : forall d, tally_table (summary_of diffs, diffs) (n, (a, b)) = (summary_of (diffs ++ [d]), diffs ++ [d]) ->
    table_difference (n, (a, b)) = Some d ->
    fold_left tally_table m (tally_table (summary_of diffs, diffs) (n, (a, b))) =
      (summary_of (diffs ++ omap table_difference ((n, (a, b)) :: m)), diffs ++ omap table_difference ((n, (a, b)) :: m))).
  { intros d -> E. rewrite IH, omap_first, E, <- !app_assoc. done. }
  destruct a as [a|], b as [b|].
  - cbn [tally_table]. destruct (is_empty (compare_columns a b)) eqn:E.
    + assert (D : table_difference (n, (Some a, Some b)) = None) by (unfold table_difference; cbn [snd fst]; by rewrite E).
      cbv beta iota zeta. by rewrite IH, omap_first, D.
    + cbn [tally_table] in P. rewrite E in P. apply (P (mkTableDiff n Changed (compare_columns a b))).
      * rewrite summary_snoc. cbn. by rewrite !Z.add_0_r.
      * unfold table_difference. cbn [snd fst]. by rewrite E.
  - rewrite (P (mkTableDiff n SourceOnly [])); [done| |done]. rewrite summary_snoc. cbn. by rewrite !Z.add_0_r.
  - rewrite (P (mkTableDiff n TargetOnly [])); [done| |done]. rewrite summary_snoc. cbn. by rewrite !Z.add_0_r.
  - cbn [tally_table]. by rewrite IH, omap_first.
Qed.

(** The columns a snapshot has for a table. *)
Definition columns_of (tables : list TableSnapshot) (n : str) : option (list (str * ColumnSnapshot)) := said (map table_columns tables) n.

Lemma columns_of_elem tables n c : NoDup (map ts_name tables) -> columns_of tables n = Some c <-> mkSnapshot n c ∈ tables.
Proof.
  intros N. unfold columns_of. rewrite said_elem; [|by rewrite map_map].
  rewrite list_elem_of_fmap. split; [intros ([m d] & [= -> ->] & H); done|]. intros H. by exists (mkSnapshot n c).
Qed.

Lemma compare_result ty s t at_ S T :
  compare_schema_snapshots ty s t at_ S T =
    let d := omap table_difference (pair_up (map table_columns S) (map table_columns T)) in
    mkCompareResult ty s t at_ (summary_of d) d.
Proof.
  unfold compare_schema_snapshots.
  pose proof (tally_spec (pair_up (map table_columns S) (map table_columns T)) []) as E.
  change (summary_of []) with (mkSummary 0 0 0 0) in E. by rewrite E.
Qed.

(** Two schemas that mean the same: the same tables with the same columns. *)
Definition same_schema (S T : list TableSnapshot) : Prop := forall n,
  match columns_of S n, columns_of T n with
  | None, None => True
  | Some a, Some b => same_columns a b
  | _, _ => False
  end.

Definition right_table (S T : list TableSnapshot) (d : TableDiff) : Prop :=
  match columns_of S (td_name d), columns_of T (td_name d) with
  | Some _, None => td_status d = SourceOnly /\ td_columns d = []
  | None, Some _ => td_status d = TargetOnly /\ td_columns d = []
  | Some a, Some b => td_status d = Changed /\ ~ same_columns a b /\ NoDup (map cd_name (td_columns d)) /\
      (forall c, c ∈ td_columns d <-> right_column a b c) /\ td_columns d = compare_columns a b
  | None, None => False
  end.

Lemma table_difference_name n p d : table_difference (n, p) = Some d -> td_name d = n.
Proof.
  unfold table_difference. destruct p as [[a|] [b|]]; cbn; [destruct (is_empty _)|..]; intros [= <-]; done.
Qed.

Lemma table_difference_right S T d :
  d ∈ omap table_difference (pair_up (map table_columns S) (map table_columns T)) <-> right_table S T d.
Proof.
  rewrite list_elem_of_omap. unfold right_table, columns_of. split.
  - intros ([n p] & Hp & D). apply pair_up_elem in Hp. pose proof (table_difference_name _ _ _ D) as Hn. subst n.
    unfold sides in Hp. unfold table_difference in D.
    destruct (said _ (td_name d)) as [a|], (said _ (td_name d)) as [b|]; [..|done]; injection Hp as <-; cbn [snd fst] in D.
    + destruct (is_empty (compare_columns a b)) eqn:E; [done|]. injection D as <-. cbn [td_status td_columns].
      split; [done|]. split; [rewrite <- compare_columns_nil; by destruct (compare_columns a b)|].
      split; [apply compare_columns_names|]. split; [apply compare_columns_elem|done].
    + by injection D as <-.
    + by injection D as <-.
  - intros R. destruct d as [n st cs]. cbn [td_name td_status td_columns] in *.
    destruct (said (map table_columns S) n) as [a|] eqn:Es, (said (map table_columns T) n) as [b|] eqn:Et; [..|done].
    + destruct R as (-> & N & _ & _ & ->). exists (n, (Some a, Some b)). split; [apply pair_up_elem; by rewrite Es, Et|].
      unfold table_difference. cbn [snd fst]. rewrite <- compare_columns_nil in N. by destruct (compare_columns a b).
    + destruct R as [-> ->]. exists (n, (Some a, None)). split; [apply pair_up_elem; by rewrite Es, Et|done].
    + destruct R as [-> ->]. exists (n, (None, Some b)). split; [apply pair_up_elem; by rewrite Es, Et|done].
Qed.

(** Snapshots built from rows list every table once, in the order of the
    names, and keep every column, in the order of the positions. *)
Lemma rows_to_tables_ordered rows : StronglySorted (fun a b => str_cmp (ts_name a) (ts_name b) = Lt) (rows_to_tables rows).
Proof.
  unfold rows_to_tables.
  assert (O : BTree.ordered str_cmp (fold_left push_row rows [])).
  { apply (BTree.fold_ordered str_cmp); [intros; by apply (BTree.entry_ordered str_cmp)|apply BTree.ordered_nil]. }
  induction O as [|p m O IH H]; cbn; constructor; [done|]. apply List.Forall_map. exact H.
Qed.

Lemma said_rows rows n :
  BTree.get str_cmp n (fold_left push_row rows []) =
    match List.filter (fun r => str_eqb (sr_table_name r) n) rows with
    | [] => None
    | rs => Some (map (fun r => (sr_column_name r, sr_details r)) rs)
    end.
Proof.
  induction rows as [|r rows IH] using rev_ind; [done|]. rewrite fold_left_app, List.filter_app. cbn.
  assert (O : BTree.ordered str_cmp (fold_left push_row rows [])).
  { apply (BTree.fold_ordered str_cmp); [intros; by apply (BTree.entry_ordered str_cmp)|apply BTree.ordered_nil]. }
  unfold push_row at 1. destruct (str_eqb (sr_table_name r) n) eqn:E.
  - apply str_eqb_eq in E. rewrite <- E in *. rewrite (BTree.get_entry str_cmp) by done. rewrite IH.
    destruct (List.filter _ rows) as [|r0 rs]; [done|]. cbn. by rewrite map_app.
  - apply str_eqb_neq in E. rewrite (BTree.get_entry_ne str_cmp) by congruence. rewrite IH, app_nil_r. done.
Qed.

(** Grouping the rows of a catalogue query loses nothing: a table is listed,
    once, exactly when a row names it, with the columns of its rows. *)
Lemma rows_to_tables_elem rows t :
  t ∈ rows_to_tables rows <->
    exists rs, rs = List.filter (fun r => str_eqb (sr_table_name r) (ts_name t)) rows /\ rs <> [] /\
      ts_columns t = sort_by by_position (map (fun r => (sr_column_name r, sr_details r)) rs).
Proof.
  unfold rows_to_tables. rewrite list_elem_of_fmap.
  assert (O : BTree.ordered str_cmp (fold_left push_row rows [])).
  { apply (BTree.fold_ordered str_cmp); [intros; by apply (BTree.entry_ordered str_cmp)|apply BTree.ordered_nil]. }
  split.
  - intros ([n cs] & -> & H). cbn [fst snd ts_name ts_columns]. apply (BTree.get_elem str_cmp) in H; [|done].
    rewrite said_rows in H. eexists. split; [reflexivity|].
    destruct (List.filter _ rows) as [|r rs]; [done|]. injection H as <-. done.
  - destruct t as [n cs]. cbn [ts_name ts_columns]. intros (rs & E & N & ->).
    exists (n, map (fun r => (sr_column_name r, sr_details r)) rs). split; [done|].
    apply (BTree.get_elem str_cmp); [done|]. rewrite said_rows, <- E. by destruct rs.
Qed.

(** C34: the comparison of two schemas is exact.  The differences come one per
    table, in the order of the names; a table is reported exactly when it is
    missing on one side or its columns differ, and then with exactly the
    columns that differ, one entry each, listing exactly the fields that
    differ, where two defaults that both mean NULL count as equal; the counts
    of the summary are those of the reported differences; and nothing is
    reported exactly when both schemas mean the same. *)
Theorem comparison_exact ty s t at_ S T :
  let r := compare_schema_snapshots ty s t at_ S T in
  StronglySorted (fun a b => str_cmp (td_name a) (td_name b) = Lt) (cr_tables r) /\
  (forall d, d ∈ cr_tables r <-> right_table S T d) /\
  (forall d c a b f, d ∈ cr_tables r -> c ∈ td_columns d -> cd_source c = Some a -> cd_target c = Some b ->
    f ∈ cd_changed_fields c <-> field_changed a b f) /\
  cr_summary r = summary_of (cr_tables r) /\
  (cr_tables r = [] <-> same_schema S T).
Proof.
  intros r. subst r. rewrite compare_result. cbn [cr_tables cr_summary].
  pose proof (table_difference_right S T) as R. split; [|split; [exact R|]; split; [|split; [done|]]].
  - clear R. pose proof (pair_up_ordered (map table_columns S) (map table_columns T)) as O.
    induction O as [|[n p] m O IH H]; [constructor|]. rewrite omap_first.
    destruct (table_difference (n, p)) as [d|] eqn:D; [|exact IH]. constructor; [done|].
    apply list.Forall_forall. intros d' ([n' p'] & Hin & D')%list_elem_of_omap.
    apply table_difference_name in D, D'. subst. rewrite list.Forall_forall in H. exact (H _ Hin).
  - intros d c a b f Hd Hc Ea Eb. apply R in Hd. unfold right_table in Hd.
    destruct (columns_of S (td_name d)) as [x|], (columns_of T (td_name d)) as [y|]; [..|done].
    + destruct Hd as (_ & _ & _ & Hcs & _). apply Hcs in Hc as (_ & _ & Hc). rewrite Ea, Eb in Hc.
      destruct Hc as (_ & _ & ->). apply changed_fields_elem.
    + destruct Hd as [_ Hd]. rewrite Hd in Hc. by apply elem_of_nil in Hc.
    + destruct Hd as [_ Hd]. rewrite Hd in Hc. by apply elem_of_nil in Hc.
  - split.
    + intros E n. assert (N : forall d, ~ right_table S T d) by (intros d Hd%R; rewrite E in Hd; by apply elem_of_nil in Hd).
      unfold right_table in N.
      destruct (columns_of S n) as [x|] eqn:Ex, (columns_of T n) as [y|] eqn:Ey; [|..|done].
      * apply compare_columns_nil. destruct (compare_columns x y) as [|c cs] eqn:C; [done|]. exfalso.
        apply (N (mkTableDiff n Changed (compare_columns x y))). cbn [td_name td_status td_columns]. rewrite Ex, Ey.
        split; [done|]. rewrite <- compare_columns_nil. split; [by rewrite C|]. split; [apply compare_columns_names|].
        split; [apply compare_columns_elem|done].
      * apply (N (mkTableDiff n SourceOnly [])). cbn. by rewrite Ex, Ey.
      * apply (N (mkTableDiff n TargetOnly [])). cbn. by rewrite Ex, Ey.
    + intros H. destruct (omap table_difference _) as [|d l] eqn:E; [done|].
      assert (Q : right_table S T d) by (apply R; left). unfold right_table in Q. specialize (H (td_name d)).
      destruct (columns_of S (td_name d)), (columns_of T (td_name d)); naive_solver.
Qed.

End SchemaCompare.
