(* ===== verification/SyncTypes.v ===== *)
(** What a schema synchronisation is made of: the request and preview types of
    src-tauri/src/models/types.rs, the native metadata of the dialects, and the
    fragments of a plan (src-tauri/src/db/schema_sync/mod.rs).

    [fragments.operation], [skip] and [block] push onto a plan; here they return
    the plan with the item added.  A [BTreeMap] is an ordered list of pairs. *)
From S2P Require Import Prelude OrderedMap RustText DataTypes SchemaCompare.
Import DataTypes SchemaCompare.

Module SyncTypes.

(** ** Requests and previews *)

Record DatabaseCompareEndpointRequest : Type := mkEndpointRequest { er_saved_connection_id : str; er_database : str }.
Record DatabaseSyncRequest : Type := mkSyncRequest {
  sq_source : DatabaseCompareEndpointRequest;
  sq_target : DatabaseCompareEndpointRequest;
  sq_selected_tables : list str;
  sq_include_drops : bool;
}.
Inductive DatabaseSyncRisk : Type := Normal | High | Destructive.
Inductive DatabaseSyncOperationKind : Type :=
  CreateTable | AddColumn | AlterColumn | ReplacePrimaryKey | DropColumn | DropTable | UpdateComment.
#[export] Instance DatabaseSyncRisk_eq_dec : EqDecision DatabaseSyncRisk.
Proof. solve_decision. Defined.
#[export] Instance DatabaseSyncOperationKind_eq_dec : EqDecision DatabaseSyncOperationKind.
Proof. solve_decision. Defined.

Record DatabaseSyncOperation : Type := mkOperation {
  op_id : str; op_table_name : str; op_kind : DatabaseSyncOperationKind; op_summary : str;
  op_risk : DatabaseSyncRisk; op_sql : list str }.
(** [DatabaseSyncSkippedItem] and [DatabaseSyncBlocker] have the same fields. *)
Record SyncNote : Type := mkNote { no_table_name : str; no_summary : str; no_reason : str }.
Definition DatabaseSyncSkippedItem : Type := SyncNote.
Definition DatabaseSyncBlocker : Type := SyncNote.
Record DatabaseSyncPlanSummary : Type := mkPlanSummary {
  ps_selected_tables : Z; ps_executable_operations : Z; ps_high_risk_operations : Z;
  ps_destructive_operations : Z; ps_skipped_items : Z; ps_blockers : Z }.
Record DatabaseSyncPreview : Type := mkSyncPreview {
  pv_plan_fingerprint : str;
  pv_summary : DatabaseSyncPlanSummary;
  pv_operations : list DatabaseSyncOperation;
  pv_skipped_items : list DatabaseSyncSkippedItem;
  pv_blockers : list DatabaseSyncBlocker;
  pv_can_execute : bool;
}.

(** ** Native metadata *)

Record SqlServerColumn : Type := mkSqlServerColumn {
  sc_is_identity : bool; sc_identity_seed : option str; sc_identity_increment : option str;
  sc_computed_definition : option str; sc_default_expression : option str; sc_default_constraint_name : option str;
  sc_default_constraint_is_system_named : option bool; sc_is_user_defined : bool; sc_type_schema : str; sc_type_name : str;
  sc_primary_key_ordinal : option Z; sc_is_hidden : bool; sc_generated_always_type : Z; sc_is_sparse : bool;
  sc_is_column_set : bool; sc_is_filestream : bool; sc_is_rowguidcol : bool; sc_is_masked : bool; sc_encryption_type : option Z }.
Record PostgresColumn : Type := mkPostgresColumn {
  pc_identity_generation : str; pc_generated_kind : str; pc_generation_expression : option str;
  pc_default_expression : option str; pc_is_user_defined : bool; pc_type_schema : str; pc_type_name : str;
  pc_primary_key_ordinal : option Z }.
Record ClickHouseColumn : Type := mkClickHouseColumn {
  hc_default_kind : str; hc_default_expression : str; hc_compression_codec : str; hc_ttl_expression : str;
  hc_unsupported_clauses : list str; hc_is_in_partition_key : bool; hc_is_in_sorting_key : bool;
  hc_is_in_primary_key : bool; hc_is_in_sampling_key : bool }.
Inductive ColumnSyncMetadata : Type :=
| MySqlColumn (generation_expression : str) (primary_key_ordinal : option Z)
| Postgres_Column (c : PostgresColumn)
| SqliteColumn (hidden : Z) (primary_key_ordinal : option Z)
| SqlServer_Column (c : SqlServerColumn)
| ClickHouse_Column (c : ClickHouseColumn).
Abbreviation ColumnMap := (list (str * ColumnSyncMetadata)) (only parsing).

Record MySqlTableMeta : Type := mkMySqlTable {
  my_engine : str; my_create_options : str; my_partitioned : bool; my_comment : str; my_columns : ColumnMap }.
Record PostgresTableMeta : Type := mkPostgresTable {
  pt_relkind : str; pt_table_comment : str; pt_primary_key_constraint : option str; pt_columns : ColumnMap }.
Record SqliteTableMeta : Type := mkSqliteTable { lt_create_sql : str; lt_columns : ColumnMap }.
Record SqlServerTableMeta : Type := mkSqlServerTable {
  vt_table_comment : str; vt_primary_key_constraint : option str; vt_temporal_type : Z; vt_is_memory_optimized : bool;
  vt_is_node : bool; vt_is_edge : bool; vt_is_filetable : bool; vt_columns : ColumnMap }.
Record ClickHouseTableMeta : Type := mkClickHouseTable {
  ht_engine : str; ht_engine_full : str; ht_create_table_query : str; ht_sorting_key : str; ht_partition_key : str;
  ht_primary_key : str; ht_sampling_key : str; ht_table_ttl : str; ht_settings : str; ht_unsupported_definitions : list str;
  ht_comment : str; ht_columns : ColumnMap }.
Inductive TableSyncMetadata : Type :=
| MySqlTable (t : MySqlTableMeta)
| PostgresTable (t : PostgresTableMeta)
| SqliteTable (t : SqliteTableMeta)
| SqlServerTable (t : SqlServerTableMeta)
| ClickHouseTable (t : ClickHouseTableMeta).

#[export] Instance ColumnSyncMetadata_eq_dec : EqDecision ColumnSyncMetadata.
Proof. unfold EqDecision, Decision. repeat decide equality. Defined.
#[export] Instance TableSyncMetadata_eq_dec : EqDecision TableSyncMetadata.
Proof. unfold EqDecision, Decision. repeat decide equality. Defined.

Record SyncSchemaSnapshot : Type := mkSyncSnapshot {
  ss_tables : list TableSnapshot; ss_metadata : list (str * TableSyncMetadata) }.

(** ** Fragments of a plan *)

Inductive OperationPhase : Type := CreateTablePhase | AddColumnPhase | AlterColumnPhase | DropColumnPhase | DropTablePhase.
Record PendingOperation : Type := mkPending {
  po_phase : OperationPhase; po_table_name : str; po_kind : DatabaseSyncOperationKind; po_summary : str;
  po_risk : DatabaseSyncRisk; po_sql : list str }.
Record PlanFragments : Type := mkFragments {
  pf_operations : list PendingOperation; pf_skipped_items : list DatabaseSyncSkippedItem; pf_blockers : list DatabaseSyncBlocker }.
Definition no_fragments : PlanFragments := mkFragments [] [] [].

Definition operation (phase : OperationPhase) (table_name : str) (kind : DatabaseSyncOperationKind) (risk : DatabaseSyncRisk)
    (summary : str) (sql : list str) (plan : PlanFragments) : PlanFragments :=
  mkFragments (pf_operations plan ++ [mkPending phase table_name kind summary risk sql]) (pf_skipped_items plan) (pf_blockers plan).
Definition skip (table_name summary reason : str) (plan : PlanFragments) : PlanFragments :=
  mkFragments (pf_operations plan) (pf_skipped_items plan ++ [mkNote table_name summary reason]) (pf_blockers plan).
Definition block (table_name summary reason : str) (plan : PlanFragments) : PlanFragments :=
  mkFragments (pf_operations plan) (pf_skipped_items plan) (pf_blockers plan ++ [mkNote table_name summary reason]).

Record TablePlanContext : Type := mkContext {
  cx_target_database : str;
  cx_source : option TableSnapshot;
  cx_target : option TableSnapshot;
  cx_source_metadata : option TableSyncMetadata;
  cx_target_metadata : option TableSyncMetadata;
  cx_include_drops : bool;
}.

Definition primary_key_columns (table : TableSnapshot) : list str :=
  map fst (List.filter (fun c => primary_key c.2) (ts_columns table)).

Definition blank (s : str) : bool := is_empty (trim s).
Definition native_is_high_risk (metadata : option ColumnSyncMetadata) : bool :=
  match metadata with
  | Some (MySqlColumn generation_expression _) => negb (blank generation_expression)
  | Some (Postgres_Column c) =>
    negb (blank (pc_identity_generation c))
    || (negb (blank (pc_generated_kind c)) && negb (eq_ignore_ascii_case (pc_generated_kind c) (u "NEVER")))
    || is_some (pc_generation_expression c) || is_some (pc_default_expression c)
  | Some (SqliteColumn hidden _) => negb (hidden =? 0)
  | Some (SqlServer_Column c) =>
    sc_is_identity c || is_some (sc_computed_definition c) || is_some (sc_default_expression c)
    || negb (sc_generated_always_type c =? 0)
  | Some (ClickHouse_Column c) =>
    negb (blank (hc_default_kind c)) || negb (blank (hc_default_expression c)) || negb (blank (hc_ttl_expression c))
  | None => false
  end.
Definition add_column_risk (column : ColumnSnapshot) (metadata : option ColumnSyncMetadata) : DatabaseSyncRisk :=
  if (negb (nullable column) || is_some (default_value column) || negb (blank (extra column))) || native_is_high_risk metadata
  then High else Normal.

(** The sets of names ([BTreeSet]) are lists read in order, without repetition. *)
Definition ordered_set (l : list str) : list str := sort_by str_cmp (remove_dups l).

(** The columns of a table in the order of their positions. *)
Definition in_order (table : TableSnapshot) : list (str * ColumnSnapshot) := sort_by by_position (ts_columns table).

(** The last position of a table. *)
Definition max_position (table : TableSnapshot) : Z :=
  fold_left (fun m c => Z.max m (ordinal_position c.2)) (ts_columns table) 0.

(** Where a column goes ([source_position_clause]): its place in the source's
    order, after the column before it. *)
Inductive Position : Type := Stay | First | After (name : str).
Definition source_position (source : TableSnapshot) (column_name : str) : Position :=
  let columns := map fst (in_order source) in
  match position (str_eqb column_name) columns with
  | None => Stay
  | Some O => First
  | Some (S i) => match columns !! i with Some name => After name | None => Stay end
  end.

End SyncTypes.
