(* ===== verification/ColumnOrder.v ===== *)
(** The order of the columns of a table under ADD, MODIFY and DROP COLUMN, and
    why putting every column after its predecessor in the source reaches the
    source's order. *)
From S2P Require Import Prelude RustText SyncTypes.
Import SyncTypes.

Module ColumnOrder.

Section Columns.
Context {A : Type}.
Abbreviation Columns := (list (str * A)).

Fixpoint insert_after (q : str) (c : str * A) (l : Columns) : Columns :=
  match l with
  | [] => [c]
  | d :: l => if decide (d.1 = q) then d :: c :: l else d :: insert_after q c l
  end.
Definition place (c : str * A) (p : Position) (l : Columns) : Columns :=
  match p with Stay => l ++ [c] | First => c :: l | After q => insert_after q c l end.
Definition without (n : str) (l : Columns) : Columns := filter (fun c => c.1 <> n) l.
Definition update (n : str) (a : A) (l : Columns) : Columns := map (fun c => if decide (c.1 = n) then (n, a) else c) l.
(** MODIFY COLUMN: without a position the column stays where it is. *)
Definition modify (n : str) (a : A) (p : Position) (l : Columns) : Columns :=
  match p with Stay => update n a l | _ => place (n, a) p (without n l) end.

Fixpoint attributes (l : Columns) (n : str) : option A :=
  match l with [] => None | c :: l => if decide (n = c.1) then Some c.2 else attributes l n end.

Lemma attributes_none l n : attributes l n = None <-> n ∉ map fst l.
Proof.
  induction l as [|c l IH]; cbn; [split; [by intros _ H%elem_of_nil|done]|].
  rewrite not_elem_of_cons. destruct (decide (n = c.1)) as [E|N]; [split; [done|by intros [? _]]|].
  rewrite IH. naive_solver.
Qed.

Lemma attributes_insert_after q c l n : c.1 ∉ map fst l ->
  attributes (insert_after q c l) n = if decide (n = c.1) then Some c.2 else attributes l n.
Proof.
  induction l as [|d l IH]; cbn; [done|]. intros [N1 N2]%not_elem_of_cons.
  destruct (decide (d.1 = q)); cbn; [|rewrite IH by done]; repeat case_decide; congruence.
Qed.
Lemma attributes_place c p l n : c.1 ∉ map fst l ->
  attributes (place c p l) n = if decide (n = c.1) then Some c.2 else attributes l n.
Proof.
  intros N. destruct p; cbn; [|done|by apply attributes_insert_after].
  induction l as [|d l IH]; cbn; [done|]. cbn in N. apply not_elem_of_cons in N as [N1 N2]. rewrite IH by done.
  repeat case_decide; congruence.
Qed.
Lemma attributes_without m l n : attributes (without m l) n = if decide (n = m) then None else attributes l n.
Proof.
  unfold without. induction l as [|d l IH]; [cbn; by case_decide|]. rewrite filter_cons.
  destruct (decide (d.1 = m)) as [D|D]; [rewrite decide_False by (intros F; by apply F)|rewrite decide_True by done];
    cbn [attributes]; rewrite IH; repeat case_decide; congruence.
Qed.
Lemma update_cons m a c l : update m a (c :: l) = (if decide (c.1 = m) then (m, a) else c) :: update m a l.
Proof. done. Qed.
Lemma attributes_update m a l n : m ∈ map fst l -> attributes (update m a l) n = if decide (n = m) then Some a else attributes l n.
Proof.
  induction l as [|d l IH]; [by intros H%elem_of_nil|]. rewrite update_cons. cbn [map attributes]. intros H.
  destruct (decide (m ∈ map fst l)) as [Hm|Hm].
  - rewrite IH by done. repeat case_decide; cbn in *; congruence.
  - apply elem_of_cons in H as [->|H]; [|done].
    assert (E : update d.1 a l = l).
    { clear IH. induction l as [|e l IH]; [done|]. cbn in Hm. apply not_elem_of_cons in Hm as [N1 N2].
      rewrite update_cons, IH by done. by rewrite decide_False by congruence. }
    rewrite E. repeat case_decide; cbn in *; congruence.
Qed.
Lemma without_names n l : n ∉ map fst (without n l).
Proof. intros (c & -> & H)%list_elem_of_fmap. apply list_elem_of_filter in H as [[] _]. done. Qed.
Lemma attributes_modify m a p l n : m ∈ map fst l -> attributes (modify m a p l) n = if decide (n = m) then Some a else attributes l n.
Proof.
  intros H. destruct p; cbn [modify]; [by apply attributes_update|..];
    rewrite attributes_place by apply without_names; rewrite attributes_without; cbn; by case_decide.
Qed.

Lemma insert_after_split q c l : exists l1 l2, l = l1 ++ l2 /\ insert_after q c l = l1 ++ c :: l2.
Proof.
  induction l as [|d l (l1 & l2 & E1 & E2)]; cbn; [by exists [], []|].
  case_decide; [by exists [d], l|]. exists (d :: l1), l2. cbn. by rewrite <- E1, E2.
Qed.
Lemma place_perm c p l : place c p l ≡ₚ c :: l.
Proof.
  destruct p; cbn; [by rewrite Permutation_app_comm|done|].
  destruct (insert_after_split name c l) as (l1 & l2 & E1 & E2). rewrite E2, E1. by rewrite Permutation_middle.
Qed.

Definition named (l : Columns) : Prop := NoDup (map fst l).
Lemma place_named c p l : c.1 ∉ map fst l -> named l -> named (place c p l).
Proof. unfold named. intros N H. rewrite place_perm. cbn. by constructor. Qed.
Lemma without_map n (l : Columns) : map fst (without n l) = filter (fun m => m <> n) (map fst l).
Proof.
  unfold without. induction l as [|c l IH]; [done|]. cbn [map]. rewrite !filter_cons.
  repeat case_decide; cbn [map]; rewrite ?IH; done.
Qed.
Lemma without_named n l : named l -> named (without n l).
Proof. unfold named. intros N. eapply sublist_NoDup; [exact N|]. rewrite without_map. apply sublist_filter. Qed.
Lemma update_names n a l : map fst (update n a l) = map fst l.
Proof. unfold update. rewrite map_map. apply map_ext. intros c. by case_decide. Qed.
Lemma modify_named n a p l : named l -> named (modify n a p l).
Proof.
  intros H. destruct p; cbn [modify]; [unfold named; by rewrite update_names|..]; (apply place_named; [apply without_names|by apply without_named]).
Qed.
Lemma modify_names_elem n a p l m : n ∈ map fst l -> m ∈ map fst (modify n a p l) <-> m ∈ map fst l.
Proof.
  intros H. pose proof (attributes_modify n a p l m H) as E. pose proof (attributes_none (modify n a p l) m) as Q1.
  pose proof (attributes_none l m) as Q2. rewrite E in Q1.
  destruct (decide (m = n)) as [->|N].
  - split; [done|]. intros _. destruct (decide (n ∈ map fst (modify n a p l))) as [?|Hn]; [done|]. by apply Q1 in Hn.
  - destruct (decide (m ∈ map fst (modify n a p l))), (decide (m ∈ map fst l)); tauto.
Qed.

(** ** Order

    [sublist_of] is the order: [a ++ b `sublist_of` names] says that the names
    of [a], then those of [b], stand in the table in this order. *)
Definition predecessor (before : list str) : Position := match last before with None => First | Some q => After q end.

Lemma insert_after_names q (c : str * A) (l : Columns) k1 k2 : named l ->
  map fst l = k1 ++ q :: k2 -> map fst (insert_after q c l) = k1 ++ q :: c.1 :: k2.
Proof.
  unfold named. revert k1. induction l as [|d l IH]; intros k1 N E; [by destruct k1|]. cbn in *.
  destruct k1 as [|x k1]; injection E as E1 E2.
  - rewrite E1, decide_True by done. cbn. by rewrite E1, E2.
  - apply NoDup_cons in N as [Nd N]. case_decide as D.
    + destruct Nd. rewrite E2, D. apply elem_of_app. right. left.
    + cbn. by rewrite (IH k1 N E2), E1.
Qed.

Lemma sublist_filter_mono (P : str -> Prop) `{!forall x, Decision (P x)} (k l : list str) :
  k `sublist_of` l -> filter P k `sublist_of` filter P l.
Proof.
  induction 1 as [|x k l Q IH|x k l Q IH]; rewrite ?filter_cons; [constructor|..]; repeat case_decide; try done; by constructor.
Qed.
Lemma filter_all {X : Type} (P : X -> Prop) `{!forall x, Decision (P x)} (k : list X) : (forall x, x ∈ k -> P x) -> filter P k = k.
Proof.
  induction k as [|x k IH]; [done|]. intros Q. rewrite filter_cons, decide_True by (apply Q; left).
  f_equal. apply IH. intros y Hy. apply Q. by right.
Qed.
Lemma without_sublist n (l : Columns) k : n ∉ k -> k `sublist_of` map fst l -> k `sublist_of` map fst (without n l).
Proof.
  intros N H. rewrite without_map, <- (filter_all (fun m => m <> n) k); [by apply sublist_filter_mono|].
  intros x Hx ->. done.
Qed.
Lemma without_absent n (l : Columns) : n ∉ map fst l -> without n l = l.
Proof.
  unfold without. induction l as [|c l IH]; [done|]. cbn [map]. intros [N1 N2]%not_elem_of_cons.
  rewrite filter_cons, decide_True by congruence. by rewrite IH.
Qed.

(** Placing a column after the last of those already in order puts it in order. *)
Lemma reposition s a P R (l : Columns) : named l -> s ∉ P ++ R -> P ++ R `sublist_of` map fst l ->
  P ++ s :: R `sublist_of` map fst (place (s, a) (predecessor P) (without s l)).
Proof.
  intros N Hs H. pose proof (without_sublist s l _ Hs H) as H'. pose proof (without_named s l N) as N'.
  unfold predecessor. destruct (last P) as [q|] eqn:L.
  - apply last_Some in L as [P' ->]. cbn [place]. rewrite <- app_assoc in H'. cbn in H'.
    apply sublist_app_cons_l in H' as (k1 & k2 & E & S1 & S2).
    rewrite (insert_after_names q (s, a) (without s l) k1 k2 N' E), <- app_assoc. cbn.
    apply sublist_app; [done|]. by apply sublist_skip, sublist_skip.
  - apply last_None in L as ->. cbn in *. by apply sublist_skip.
Qed.

(** Going through the source's columns: a column may be added or moved behind
    its predecessor, redefined where it stands, or left alone.  What is not
    moved keeps its order, so it is enough that it had the right one. *)
Definition moved (acts : str -> option (A * bool)) (s : str) : bool := match acts s with Some (_, true) => true | _ => false end.
Fixpoint walk (P rest : list str) (acts : str -> option (A * bool)) (l : Columns) : Columns :=
  match rest with
  | [] => l
  | s :: rest =>
    walk (P ++ [s]) rest acts
      (match acts s with
       | None => l
       | Some (a, move) => modify s a (if move : bool then predecessor P else Stay) l
       end)
  end.

Lemma walk_spec (S : list str) (acts : str -> option (A * bool)) P (l : Columns) : named l -> NoDup (P ++ S) ->
  P ++ List.filter (fun s => negb (moved acts s)) S `sublist_of` map fst l ->
  named (walk P S acts l) /\ P ++ S `sublist_of` map fst (walk P S acts l).
Proof.
  revert P l. induction S as [|s S IH]; intros P l N D H; cbn [walk List.filter] in *; [by rewrite app_nil_r in *|].
  assert (Ns : s ∉ P ++ List.filter (fun s => negb (moved acts s)) S).
  { apply NoDup_app in D as (_ & D1 & D2). rewrite not_elem_of_app. split.
    - intros Hp. apply (D1 s Hp). left.
    - intros Hs%list_elem_of_In%filter_In. apply NoDup_cons in D2 as [D2 _]. apply D2, list_elem_of_In, Hs. }
  rewrite (assoc app P [s] S : P ++ s :: S = (P ++ [s]) ++ S) in *. unfold moved in H at 1.
  destruct (acts s) as [[a [|]]|] eqn:M; cbn [negb] in H.
  - apply IH; [by apply modify_named|done|]. rewrite <- app_assoc. cbn [app].
    assert (E : modify s a (predecessor P) l = place (s, a) (predecessor P) (without s l)).
    { unfold predecessor. by destruct (last P). }
    rewrite E. by apply reposition.
  - apply IH; [by apply modify_named|done|]. cbn [modify]. by rewrite update_names, <- app_assoc.
  - apply IH; [done..|]. by rewrite <- app_assoc.
Qed.

(** A table with exactly the source's columns, in its order. *)
Lemma sublist_same (S l : list str) : S `sublist_of` l -> NoDup l -> (forall x, x ∈ l -> x ∈ S) -> l = S.
Proof.
  induction 1 as [|x k l H IH|x k l H IH]; intros N I; [done|..]; apply NoDup_cons in N as [Nx N].
  - f_equal. apply IH; [done|]. intros y Hy. assert (Q : y ∈ x :: k) by (apply I; by right).
    apply elem_of_cons in Q as [->|Q]; [by destruct Nx|done].
  - assert (Q : x ∈ k) by (apply I; left). destruct Nx. by eapply elem_of_submseteq, sublist_submseteq.
Qed.
End Columns.

End ColumnOrder.
