(* ===== verification/SyncFacts.v ===== *)
(** Facts the converging plans of the dialects share: columns by name and by
    place, the differences of two tables, clean plans and their phases. *)
From S2P Require Import Prelude OrderedMap RustText DataTypes SchemaCompare SyncTypes ColumnOrder.
Import SchemaCompare SyncTypes ColumnOrder.

Module SyncFacts.

(** ** Clean plans *)

Definition clean (plan : PlanFragments) : Prop := pf_blockers plan = [] /\ pf_skipped_items plan = [].

Lemma block_not_nil t s r plan : pf_blockers (block t s r plan) <> [].
Proof. cbn. by destruct (pf_blockers plan). Qed.
Lemma skip_not_nil t s r plan : pf_skipped_items (skip t s r plan) <> [].
Proof. cbn. by destruct (pf_skipped_items plan). Qed.

(** ** Servers *)

(** A server that carries out statements on a table may refuse one; what it
    accepts has the documented effect. *)
Section Servers.
Context {Statement Table : Type} (effect : Statement -> option Table -> option Table).

Class AlterServer (apply : Statement -> option Table -> option (option Table)) : Prop := {
  documented s t t' : apply s t = Some t' -> t' = effect s t;
}.
Fixpoint run (apply : Statement -> option Table -> option (option Table)) (l : list Statement) (t : option Table) : option (option Table) :=
  match l with [] => Some t | s :: l => t ← apply s t; run apply l t end.
Lemma run_effect apply `{!AlterServer apply} l t t' : run apply l t = Some t' -> t' = fold_left (fun t s => effect s t) l t.
Proof.
  revert t. induction l as [|s l IH]; intros t; cbn; [by intros [= <-]|].
  destruct (apply s t) as [t2|] eqn:E; [|done]. cbn. intros H. rewrite <- (documented s t t2 E). by apply IH.
Qed.
End Servers.

(** ** Lists *)

Lemma omap_snoc {X Y : Type} (f : X -> option Y) l x : omap f (l ++ [x]) = omap f l ++ option_list (f x).
Proof. rewrite omap_app. cbn. by destruct (f x). Qed.
Lemma omap_sorted {X Y : Type} (R : X -> X -> Prop) (Q : Y -> Y -> Prop) (f : X -> option Y) l :
  (forall x y a b, x ∈ l -> y ∈ l -> R x y -> f x = Some a -> f y = Some b -> Q a b) -> StronglySorted R l -> StronglySorted Q (omap f l).
Proof.
  intros H S. induction S as [|x l Hl IH Hx]; [constructor|]. rewrite omap_first.
  assert (IH' : StronglySorted Q (omap f l)) by (apply IH; intros; eapply H; eauto; by right).
  destruct (f x) as [a|] eqn:E; [|exact IH'].
  constructor; [exact IH'|]. apply list.Forall_forall. intros b (y & Hy & Ey)%list_elem_of_omap.
  rewrite list.Forall_forall in Hx. eapply H, Ey; [left|by right|by apply Hx|done].
Qed.
Lemma omap_NoDup {X Y : Type} (f : X -> option Y) l : (forall x y a, f x = Some a -> f y = Some a -> x ∈ l -> y ∈ l -> x = y) ->
  NoDup l -> NoDup (omap f l).
Proof.
  intros H N. induction N as [|x l Nx N IH]; [constructor|]. rewrite omap_first. destruct (f x) as [a|] eqn:E.
  - constructor; [|apply IH; intros; eapply H; eauto; by right]. intros (y & Hy & Ey)%list_elem_of_omap.
    destruct Nx. rewrite (H x y a E Ey); [done|left|by right].
  - apply IH. intros; eapply H; eauto; by right.
Qed.
Lemma omap_none {X Y : Type} (f : X -> option Y) l : (forall x, x ∈ l -> f x = None) -> omap f l = [].
Proof.
  induction l as [|x l IH]; intros H; [done|]. rewrite omap_first, (H x) by left. apply IH. intros y Hy. apply H. by right.
Qed.
Lemma is_empty_nil {X : Type} (l : list X) : is_empty l = true -> l = [].
Proof. by destruct l. Qed.
Lemma fold_back {X Y : Type} (P : X -> Prop) (f : X -> Y -> X) l x : (forall x y, P (f x y) -> P x) -> P (fold_left f l x) -> P x.
Proof. intros H. revert x. induction l as [|y l IH]; intros x; cbn; [done|]. intros Q. by eapply H, IH. Qed.
Lemma fold_keeps {X Y : Type} (P : X -> Prop) (f : X -> Y -> X) l x : (forall x y, P x -> P (f x y)) -> P x -> P (fold_left f l x).
Proof. intros H. revert x. induction l as [|y l IH]; intros x Hx; [done|]. by apply IH, H. Qed.
Lemma filter_prop (p : str -> bool) (P : str -> Prop) `{!forall x, Decision (P x)} l :
  (forall x, x ∈ l -> p x = true <-> P x) -> List.filter p l = filter P l.
Proof.
  induction l as [|x l IH]; intros Q; [done|]. cbn [List.filter]. rewrite filter_cons.
  rewrite IH by (intros y Hy; apply Q; by right). pose proof (Q x ltac:(left)) as Qx. case_decide; destruct (p x); naive_solver.
Qed.
Lemma sorted_filter {X : Type} (R : X -> X -> Prop) (P : X -> Prop) `{!forall x, Decision (P x)} l :
  StronglySorted R l -> StronglySorted R (filter P l).
Proof.
  induction 1 as [|x l S IH Q]; [constructor|]. rewrite filter_cons. case_decide; [|done]. constructor; [done|].
  apply list.Forall_forall. intros y [_ Hy]%list_elem_of_filter. rewrite list.Forall_forall in Q. by apply Q.
Qed.
Lemma short_perm {X : Type} (a b : list X) : (length b <= 1)%nat -> a ≡ₚ b -> a = b.
Proof.
  intros L P. destruct b as [|x [|y b]]; [by apply Permutation_nil_r in P|by apply Permutation_singleton_r in P|cbn in L; lia].
Qed.

Lemma sort_by_map {X Y : Type} (f : X -> Y) (cmp : X -> X -> comparison) (cmp' : Y -> Y -> comparison) l :
  (forall x y, cmp' (f x) (f y) = cmp x y) -> sort_by cmp' (map f l) = map f (sort_by cmp l).
Proof.
  intros H. assert (I : forall x l, insert_by cmp' (f x) (map f l) = map f (insert_by cmp x l)).
  { intros x k. induction k as [|y k IH]; [done|]. cbn [map insert_by]. rewrite H. destruct (cmp x y); cbn [map]; by rewrite ?IH. }
  induction l as [|x l IH]; [done|]. cbn [map sort_by]. by rewrite IH, I.
Qed.
Lemma omap_map {X Y Z : Type} (f : Y -> Z) (g : X -> option Y) l : omap (fun x => f <$> g x) l = map f (omap g l).
Proof. induction l as [|x l IH]; [done|]. rewrite !omap_first, IH. by destruct (g x). Qed.

(** ** Columns by name and by place *)

Lemma attributes_elem {A : Type} (l : list (str * A)) n v : NoDup (map fst l) -> ColumnOrder.attributes l n = Some v <-> (n, v) ∈ l.
Proof.
  induction l as [|[k w] l IH]; cbn; [intros _; split; [done|by intros H%elem_of_nil]|].
  intros [Nk N]%NoDup_cons. rewrite elem_of_cons. destruct (decide (n = k)) as [->|Ne].
  - split; [intros [= ->]; by left|]. intros [[= ->]|H]; [done|]. by apply (list_elem_of_fmap_2 fst) in H.
  - rewrite IH by done. split; [by right|]. by intros [[= -> ->]|H].
Qed.
Lemma attributes_said {A : Type} (l : list (str * A)) n : NoDup (map fst l) -> ColumnOrder.attributes l n = said l n.
Proof.
  intros N. apply option_eq. intros v. rewrite attributes_elem, said_elem by done. done.
Qed.

Definition names_of (s : TableSnapshot) : list str := map fst (in_order s).
Lemma names_of_perm s : names_of s ≡ₚ map fst (ts_columns s).
Proof. unfold names_of, in_order. apply Permutation_map, sort_by_perm. Qed.
Lemma names_of_elem s n : n ∈ names_of s <-> ColumnOrder.attributes (ts_columns s) n <> None.
Proof.
  rewrite names_of_perm, attributes_none. split; [by intros H F|]. intros H. by apply dec_stable.
Qed.

Definition by_key : Z * str -> Z * str -> comparison := cmp_then (cmp_on fst Z.compare) (cmp_on snd str_cmp).
#[export] Instance by_key_strict : StrictCmp by_key.
Proof.
  split; [unfold by_key; apply _|]. intros [a n] [b m]. unfold by_key, cmp_then, cmp_on. cbn.
  destruct (Z.compare a b) eqn:E; [|done..]. apply Z.compare_eq in E as ->. by intros ->%(cmp_eq_iff (cmp := str_cmp)).
Qed.
Definition entry_key {X : Type} (e : Z * str * X) : Z * str := e.1.

(** Entries taken from columns, in their order, are the columns' entries in the
    order of the table. *)
Lemma sorted_entries {X : Type} (cols : list (str * ColumnSnapshot)) (g : str * ColumnSnapshot -> option X) (E : list (Z * str * X)) :
  NoDup (map fst cols) -> NoDup E ->
  StronglySorted (cmp_le (cmp_on entry_key by_key)) E ->
  (forall e, e ∈ E <-> exists c, c ∈ cols /\ (fun x => (ordinal_position c.2, c.1, x)) <$> g c = Some e) ->
  E = omap (fun c => (fun x => (ordinal_position c.2, c.1, x)) <$> g c) (sort_by by_position cols).
Proof.
  intros N NE S H.
  assert (F : forall c a, (fun x => (ordinal_position c.2, c.1, x)) <$> g c = Some a -> entry_key a = (ordinal_position c.2, c.1)).
  { intros c a. destruct (g c); [|done]. by intros [= <-]. }
  assert (Nc : NoDup (sort_by by_position cols)).
  { rewrite sort_by_perm. by eapply NoDup_fmap_1. }
  assert (Inj : forall c c' a, (fun x => (ordinal_position c.2, c.1, x)) <$> g c = Some a ->
    (fun x => (ordinal_position c'.2, c'.1, x)) <$> g c' = Some a -> c ∈ sort_by by_position cols -> c' ∈ sort_by by_position cols -> c = c').
  { intros c c' a E1 E2 I1 I2. rewrite sort_by_elem in I1, I2. apply (NoDup_map_inj fst cols); [done..|].
    apply F in E1, E2. congruence. }
  symmetry. apply (sorted_on_unique entry_key by_key).
  - apply (NoDup_fmap_2_strong entry_key); [|by apply omap_NoDup].
    intros a b (c & Hc & Ec)%list_elem_of_omap (c' & Hc' & Ec')%list_elem_of_omap Ek.
    pose proof (F _ _ Ec). pose proof (F _ _ Ec'). rewrite sort_by_elem in Hc, Hc'.
    assert (c = c') as <- by (apply (NoDup_map_inj fst cols); [done..|congruence]). congruence.
  - eapply (omap_sorted (cmp_le by_position)); [|apply sort_by_sorted; unfold by_position; apply _].
    intros c c' a b _ _ R Ec Ec'. unfold cmp_le, cmp_on. rewrite (F _ _ Ec), (F _ _ Ec'). exact R.
  - exact S.
  - apply NoDup_Permutation; [by apply omap_NoDup|done|]. intros e. rewrite H, list_elem_of_omap.
    split; intros (c & Hc & Ec); exists c; (split; [|done]); [by rewrite sort_by_elem in Hc|by rewrite sort_by_elem].
Qed.
Lemma map_snd_entries {X : Type} (cols : list (str * ColumnSnapshot)) (g : str * ColumnSnapshot -> option X) :
  map snd (omap (fun c => (fun x => (ordinal_position c.2, c.1, x)) <$> g c) cols) = omap g cols.
Proof. induction cols as [|c cols IH]; [done|]. rewrite !omap_first. destruct (g c); cbn [fmap option_fmap option_map map snd]; by rewrite IH. Qed.
Definition key_of (s : TableSnapshot) (n : str) : Z * str :=
  (match ColumnOrder.attributes (ts_columns s) n with Some c => ordinal_position c | None => 0 end, n).
Lemma names_sorted s : NoDup (map fst (ts_columns s)) -> StronglySorted (cmp_le (cmp_on (key_of s) by_key)) (names_of s).
Proof.
  intros N. unfold names_of, in_order.
  assert (S : StronglySorted (cmp_le by_position) (sort_by by_position (ts_columns s))) by (apply sort_by_sorted; unfold by_position; apply _).
  assert (I : forall c, c ∈ sort_by by_position (ts_columns s) -> key_of s c.1 = (ordinal_position c.2, c.1)).
  { intros [n c] Hc. rewrite sort_by_elem in Hc. apply attributes_elem in Hc; [|done]. unfold key_of. cbn. by rewrite Hc. }
  induction S as [|c l S IH H]; [constructor|]. cbn [map]. constructor; [apply IH; intros; apply I; by right|].
  apply list.Forall_forall. intros n (c' & -> & Hc')%list_elem_of_fmap. rewrite list.Forall_forall in H. specialize (H _ Hc').
  unfold cmp_le, cmp_on in *. rewrite (I c), (I c') by (try left; by right). exact H.
Qed.

(** ** The differences of two tables *)

Section Differences.
Context (source target : TableSnapshot).
Context (source_names : NoDup (map fst (ts_columns source))) (target_names : NoDup (map fst (ts_columns target))).
Abbreviation ds := (compare_table_columns source target).
Abbreviation in_source := (ColumnOrder.attributes (ts_columns source)).
Abbreviation in_target := (ColumnOrder.attributes (ts_columns target)).

Lemma difference_elem d : d ∈ ds <->
  cd_source d = in_source (cd_name d) /\ cd_target d = in_target (cd_name d) /\
  match cd_source d, cd_target d with
  | Some a, Some b => cd_status d = Changed /\ changed_fields a b <> [] /\ cd_changed_fields d = changed_fields a b
  | Some _, None => cd_status d = SourceOnly /\ cd_changed_fields d = []
  | None, Some _ => cd_status d = TargetOnly /\ cd_changed_fields d = []
  | None, None => False
  end.
Proof.
  unfold compare_table_columns. rewrite compare_columns_elem. unfold right_column.
  rewrite !attributes_said by done.
  destruct (cd_source d) as [a|], (cd_target d) as [b|]; [|done..].
  pose proof (changed_fields_nil a b) as Q. split; intros (H1 & H2 & H3 & H4 & H5); (split; [done|]; split; [done|]; split; [done|]; split; [|done]); tauto.
Qed.
Lemma difference_names : NoDup (map cd_name ds).
Proof. apply compare_columns_names. Qed.
Lemma dropped_elem n : n ∈ omap (fun d => match cd_status d with TargetOnly => Some (cd_name d) | _ => None end) ds <->
  in_source n = None /\ in_target n <> None.
Proof.
  rewrite list_elem_of_omap. split.
  - intros (d & Hd & E). apply difference_elem in Hd as (Es & Et & Hd). destruct (cd_status d); try done. injection E as <-.
    rewrite <- Es, <- Et. destruct (cd_source d), (cd_target d); by destruct Hd.
  - intros [E1 E2]. destruct (in_target n) as [c|] eqn:E; [|done]. exists (mkColumnDiff n TargetOnly [] None (Some c)).
    split; [|done]. apply difference_elem. cbn. by rewrite E1, E.
Qed.
Lemma new_difference n c : in_source n = Some c -> in_target n = None -> mkColumnDiff n SourceOnly [] (Some c) None ∈ ds.
Proof. intros E1 E2. apply difference_elem. cbn. by rewrite E1, E2. Qed.
#[local] Opaque changed_fields.
Lemma changed_difference n c c' : in_source n = Some c -> in_target n = Some c' -> changed_fields c c' <> [] ->
  mkColumnDiff n Changed (changed_fields c c') (Some c) (Some c') ∈ ds.
Proof. intros E1 E2 N. apply difference_elem. cbn. by rewrite E1, E2. Qed.
Lemma source_column n c : in_source n = Some c <-> (n, c) ∈ ts_columns source.
Proof. by apply attributes_elem. Qed.
Lemma target_column n c : in_target n = Some c <-> (n, c) ∈ ts_columns target.
Proof. by apply attributes_elem. Qed.

(** ** New columns behind the old ones *)

Definition is_new (c : str * ColumnSnapshot) : Prop := in_target c.1 = None.
#[export] Instance is_new_dec c : Decision (is_new c).
Proof. unfold is_new. apply _. Defined.
Definition new_columns : list (str * ColumnSnapshot) := filter is_new (in_order source).
Lemma new_column n c : (n, c) ∈ new_columns <-> in_source n = Some c /\ in_target n = None.
Proof. unfold new_columns, is_new. rewrite list_elem_of_filter. unfold in_order. rewrite sort_by_elem, source_column. naive_solver. Qed.

(** Entries for the new columns, sorted by position and name, are the new
    columns in the source's order. *)
Lemma new_entries {X : Type} (f : str * ColumnSnapshot -> X) (E : list (Z * str * X)) :
  NoDup E -> StronglySorted (cmp_le (cmp_on entry_key by_key)) E ->
  (forall e, e ∈ E <-> exists c, c ∈ ts_columns source /\ is_new c /\ e = (ordinal_position c.2, c.1, f c)) ->
  map snd E = map f new_columns.
Proof.
  intros N S H. set (g := fun c : str * ColumnSnapshot => if decide (is_new c) then Some (f c) else None).
  rewrite (sorted_entries (ts_columns source) g E); [|done..|].
  - rewrite map_snd_entries. unfold new_columns, g. fold (in_order source). induction (in_order source) as [|c l IH]; [done|].
    rewrite omap_first, filter_cons. destruct (decide (is_new c)); cbn [map]; by rewrite IH.
  - intros e. rewrite H. unfold g. split.
    + intros (c & Hc & Hn & ->). exists c. split; [done|]. by rewrite decide_True.
    + intros (c & Hc & E1). exists c. destruct (decide (is_new c)); [|done]. injection E1 as <-. done.
Qed.

Lemma max_position_max (s : TableSnapshot) c : c ∈ ts_columns s -> ordinal_position c.2 <= max_position s.
Proof.
  unfold max_position. intros H. assert (G : forall (l : list (str * ColumnSnapshot)) m, m <= fold_left (fun m c => Z.max m (ordinal_position c.2)) l m /\
    forall c, c ∈ l -> ordinal_position c.2 <= fold_left (fun m c => Z.max m (ordinal_position c.2)) l m); [|by apply G].
  clear. induction l as [|x l IH]; intros m; cbn [fold_left]; [split; [lia|by intros c ?%elem_of_nil]|].
  destruct (IH (Z.max m (ordinal_position x.2))) as [L H]. split; [lia|]. intros c [->|Hc]%elem_of_cons; [lia|by apply H].
Qed.

(** When the common columns have the same positions on both sides and the new
    ones lie behind all of the target's, appending the new columns in their
    order and dropping the others gives the source's order. *)
Lemma appended_order (gone : list str) :
  (forall n c c', in_source n = Some c -> in_target n = Some c' -> ordinal_position c = ordinal_position c') ->
  (forall n c, in_source n = Some c -> in_target n = None -> max_position target < ordinal_position c) ->
  (forall n, n ∈ gone <-> in_source n = None /\ in_target n <> None) ->
  filter (fun n => n ∉ gone) (names_of target) ++ map fst new_columns = names_of source.
Proof.
  intros Same Behind Gone. assert (K : forall n, n ∈ filter (fun n => n ∉ gone) (names_of target) ->
    key_of source n = key_of target n /\ exists c, in_source n = Some c /\ ordinal_position c <= max_position target).
  { intros n [Hg Hn]%list_elem_of_filter. apply names_of_elem in Hn. rewrite Gone in Hg.
    destruct (in_source n) as [c|] eqn:E1; [|by destruct Hg]. destruct (in_target n) as [c'|] eqn:E2; [|done].
    pose proof (Same n c c' E1 E2) as E. unfold key_of. rewrite E1, E2, E. split; [done|].
    exists c. split; [done|]. apply target_column in E2. rewrite E. by apply (max_position_max _ (n, c')). }
  assert (Nn : map fst new_columns = filter (fun n => in_target n = None) (names_of source)).
  { unfold new_columns, names_of, is_new. induction (in_order source) as [|c l IH]; [done|]. cbn [map]. rewrite !filter_cons.
    destruct (decide _); cbn [map]; by rewrite IH. }
  assert (N : NoDup (filter (fun n => n ∉ gone) (names_of target) ++ map fst new_columns)).
  { apply NoDup_app. split; [|split].
    - apply NoDup_filter. by rewrite names_of_perm.
    - intros n Hn Hm. apply list_elem_of_fmap in Hm as ([m c] & -> & Hc). cbn in Hn. apply new_column in Hc as [_ Hc].
      apply list_elem_of_filter in Hn as [_ Hn]. by apply names_of_elem in Hn.
    - rewrite Nn. apply NoDup_filter. by rewrite names_of_perm. }
  apply (sorted_on_unique (key_of source) by_key).
  - apply (NoDup_fmap_2_strong (key_of source)); [by intros x y _ _ [= _ ?]|done].
  - apply StronglySorted_app_2.
    + intros n m Hn Hm. destruct (K n Hn) as (_ & c & E & L). apply list_elem_of_fmap in Hm as ([m' c'] & -> & Hc'). cbn [fst].
      apply new_column in Hc' as [E1 E2]. pose proof (Behind _ _ E1 E2) as L'.
      unfold cmp_le, by_key, cmp_then, cmp_on, key_of. cbn [fst snd]. rewrite E, E1.
      rewrite (proj2 (Z.compare_lt_iff _ _)) by lia. discriminate.
    + assert (S : StronglySorted (cmp_le (cmp_on (key_of target) by_key)) (filter (fun n => n ∉ gone) (names_of target)))
        by by apply sorted_filter, names_sorted.
      clear -S K. induction S as [|x l S IH H]; [constructor|]. constructor; [apply IH; intros; apply K; by right|].
      apply list.Forall_forall. intros y Hy. rewrite list.Forall_forall in H. specialize (H y Hy). unfold cmp_le, cmp_on in *.
      destruct (K x) as [-> _]; [by left|]. destruct (K y) as [-> _]; [by right|]. done.
    + rewrite Nn. by apply sorted_filter, names_sorted.
  - by apply names_sorted.
  - apply NoDup_Permutation; [done|by rewrite names_of_perm|intros n].
    rewrite elem_of_app. split.
      * intros [Hn|Hn]; [by destruct (K n Hn) as (_ & c & E & _); apply names_of_elem; rewrite E|].
        rewrite Nn in Hn. by apply list_elem_of_filter in Hn as [_ Hn].
      * intros Hn. rewrite Nn, !list_elem_of_filter, Gone. destruct (in_target n) as [c|] eqn:E; [left|by right].
        split; [|by apply names_of_elem; rewrite E]. intros [F _]. by apply names_of_elem in Hn.
Qed.
End Differences.

(** ** The order in which operations are carried out *)

Definition phase_rank (p : OperationPhase) : Z :=
  match p with CreateTablePhase => 0 | AddColumnPhase => 1 | AlterColumnPhase => 2 | DropColumnPhase => 3 | DropTablePhase => 4 end.
Definition in_phases (ops : list PendingOperation) : Prop :=
  StronglySorted (fun a b => phase_rank (po_phase a) <= phase_rank (po_phase b)) ops.
#[local] Abbreviation rank o := (phase_rank (po_phase o)).
Lemma phases_split l a b k : in_phases l -> l ≡ₚ a ++ b -> Forall (fun o => rank o < k) a -> Forall (fun o => k <= rank o) b ->
  exists a' b', l = a' ++ b' /\ a' ≡ₚ a /\ b' ≡ₚ b /\ in_phases b'.
Proof.
  intros S P Ha Hb. exists (filter (fun o => rank o < k) l), (filter (fun o => k <= rank o) l).
  assert (E : forall (Q : PendingOperation -> Prop) `{!forall o, Decision (Q o)} x, Forall Q x -> filter Q x = x).
  { intros Q ? x. induction 1 as [|o x Ho _ IH]; [done|]. by rewrite filter_cons, decide_True, IH. }
  assert (N : forall (Q : PendingOperation -> Prop) `{!forall o, Decision (Q o)} x, Forall (fun o => ~ Q o) x -> filter Q x = []).
  { intros Q ? x. induction 1 as [|o x Ho _ IH]; [done|]. by rewrite filter_cons, decide_False, IH. }
  split; [|split; [|split]].
  - clear P Ha Hb. induction S as [|o l S IH H]; [done|]. rewrite !filter_cons.
    destruct (decide (rank o < k)) as [L|L].
    + rewrite (decide_False (P := k <= rank o)) by lia. cbn. by rewrite <- IH.
    + rewrite decide_True by lia. rewrite N; [cbn; f_equal; rewrite E; [done|]|];
        eapply list.Forall_impl; try exact H; cbn; intros; lia.
  - rewrite P, filter_app, (E _ _ a Ha), N; [by rewrite app_nil_r|]. eapply list.Forall_impl; [exact Hb|]. cbn. intros; lia.
  - rewrite P, filter_app, N, (E _ _ b Hb); [done|]. eapply list.Forall_impl; [exact Ha|]. cbn. intros; lia.
  - by apply sorted_filter.
Qed.

End SyncFacts.
