(* ===== verification/MysqlSync.v ===== *)
(** Planning the synchronisation of a MySQL table
    (src-tauri/src/db/schema_sync/mysql.rs, with the column definitions of
    commands/database/column_ops.rs and the validators of db/sql_utils.rs).

    The statements a plan consists of are [Statement]s; [render] is the text the
    source builds for them.  What a statement does to a table is MySQL's: the
    class [AlterTable] of MysqlConverge. *)
From S2P Require Import Prelude OrderedMap RustText DataTypes SqlDialect SchemaCompare SyncTypes.
Import SqlDialect SchemaCompare SyncTypes.

Module MysqlSync.

Definition esc_id : str -> str := mysql_identifier.
Definition esc_str : str -> str := mysql_string_literal.

(** ** Validators of raw fragments *)

Definition validate_engine_name (engine : str) : result unit str :=
  let e := trim engine in
  if is_empty e then Err (u "存储引擎名不能为空")
  else if 64 <? str_len e then Err (u "存储引擎名过长")
  else if forallb (fun c => is_ascii_alphanumeric c || (c =? 95)) e then Ok tt else Err (u "存储引擎名包含非法字符").

(** Semicolon, backtick, backslash and the comment marks. *)
Definition has_forbidden (s : str) : bool :=
  contains_char 59 s || contains_char 96 s || contains_char 92 s || contains (u "--") s || contains (u "/*") s || contains (u "*/") s.
Definition validate_column_type (column_type : str) : result unit str :=
  let t := trim column_type in
  if is_empty t then Err (u "列类型不能为空")
  else if 255 <? str_len t then Err (u "列类型过长")
  else if has_forbidden t then Err (u "列类型包含非法字符")
  else if forallb (fun c => is_ascii_alphanumeric c || contains_char c (u " (),'._-+")) t then Ok tt
  else Err (u "列类型包含非法字符").
Definition validate_column_extra (extra : str) : result unit str :=
  let e := trim extra in
  if is_empty e then Ok tt
  else if 128 <? str_len e then Err (u "列 extra 过长")
  else if has_forbidden e then Err (u "列 extra 包含非法字符")
  else if forallb (fun c => is_ascii_alphanumeric c || contains_char c (u " _()")) e then Ok tt
  else Err (u "列 extra 包含非法字符").

(** ** Native metadata *)

Record MetadataRow : Type := mkMetadataRow {
  mr_table_name : str; mr_engine : str; mr_create_options : str; mr_partitioned : bool; mr_comment : str;
  mr_column_name : str; mr_generation_expression : str; mr_primary_key_ordinal : option Z }.
Definition aggregate_row (m : list (str * MySqlTableMeta)) (row : MetadataRow) : list (str * MySqlTableMeta) :=
  BTree.entry str_cmp (mr_table_name row) (fun entry =>
    let t := default (mkMySqlTable (mr_engine row) (mr_create_options row) (mr_partitioned row) (mr_comment row) []) entry in
    mkMySqlTable (my_engine t) (my_create_options t) (my_partitioned t) (my_comment t)
      (BTree.put str_cmp (mr_column_name row) (MySqlColumn (mr_generation_expression row) (mr_primary_key_ordinal row)) (my_columns t))) m.
Definition aggregate_metadata_rows (rows : list MetadataRow) : list (str * TableSyncMetadata) :=
  map (fun p => (p.1, MySqlTable p.2)) (fold_left aggregate_row rows []).

Definition mysql_meta (m : option TableSyncMetadata) : option MySqlTableMeta :=
  match m with Some (MySqlTable t) => Some t | _ => None end.
Definition mysql_column (t : MySqlTableMeta) (name : str) : option (str * option Z) :=
  match BTree.get str_cmp name (my_columns t) with Some (MySqlColumn e o) => Some (e, o) | _ => None end.

(** The primary key columns with their ordinals, from a table with several. *)
Fixpoint key_ordinals (table : str) (t : MySqlTableMeta) (names : list str) (seen : list Z) : result (list (Z * str)) str :=
  match names with
  | [] => Ok []
  | name :: names =>
    match mysql_column t name with
    | Some (_, Some ordinal) =>
      if bool_decide (ordinal ∈ seen)
      then Err (u "复合主键表 " ++ table ++ u " 包含重复的原生主键序号 " ++ show_Z ordinal)
      else rbind (key_ordinals table t names (ordinal :: seen)) (fun rest => Ok ((ordinal, name) :: rest))
    | _ => Err (u "复合主键字段 " ++ table ++ u "." ++ name ++ u " 缺少原生主键序号，无法无损规划")
    end
  end.
Definition by_ordinal : Z * str -> Z * str -> comparison := cmp_then (cmp_on fst Z.compare) (cmp_on snd str_cmp).
Definition mysql_primary_key_columns (table : TableSnapshot) (metadata : option TableSyncMetadata) : result (list str) str :=
  let snapshot_columns := primary_key_columns table in
  if (length snapshot_columns <=? 1)%nat then Ok snapshot_columns
  else
    match mysql_meta metadata with
    | None => Err (u "复合主键表 " ++ ts_name table ++ u " 缺少 MySQL 原生主键序号，无法无损规划")
    | Some t =>
      rbind (key_ordinals (ts_name table) t snapshot_columns []) (fun ordered =>
      Ok (map snd (sort_by by_ordinal ordered)))
    end.

Definition validate_supported_table_shape (metadata : TableSyncMetadata) : result unit str :=
  match metadata with
  | MySqlTable t =>
    if my_partitioned t then Err (u "MySQL 分区表无法由首期结构化同步无损表达")
    else if negb (blank (my_create_options t)) then Err (u "MySQL 表包含系统版本或其他无法由首期结构化同步无损表达的建表选项")
    else if negb (existsb (fun allowed => eq_ignore_ascii_case (my_engine t) (u allowed)) ["InnoDB"; "MyISAM"; "MEMORY"]%string)
    then Err (u "MySQL 表使用首期本地安全 allowlist 之外的特殊或外部存储引擎")
    else Ok tt
  | _ => Err (u "缺少 MySQL 原生表元数据")
  end.

(** ** Column definitions *)

Definition upper_tokens (extra : str) : list str := map to_ascii_uppercase (split_whitespace extra).
Definition generated_storage (extra : str) : result (option str) str :=
  let tokens := upper_tokens extra in
  let eqs := fun (t : str) (w : String.string) => str_eqb t (u w) in
  let other :=
    if existsb (fun t => one_of t ["GENERATED"; "VIRTUAL"; "STORED"; "PERSISTENT"]%string) tokens
    then Err (u "无法无损解析 MySQL 生成列 extra 片段: " ++ extra) else Ok None in
  match tokens with
  | [storage] =>
    if eqs storage "VIRTUAL" then Ok (Some (u "VIRTUAL"))
    else if eqs storage "STORED" || eqs storage "PERSISTENT" then Ok (Some (u "STORED")) else other
  | [storage; generated] =>
    if eqs storage "VIRTUAL" && eqs generated "GENERATED" then Ok (Some (u "VIRTUAL"))
    else if (eqs storage "STORED" || eqs storage "PERSISTENT") && eqs generated "GENERATED" then Ok (Some (u "STORED")) else other
  | _ => other
  end.

Definition is_current_timestamp (value : str) : bool :=
  if str_eqb value (u "CURRENT_TIMESTAMP") then true
  else
    match (inner ← strip_prefix (u "CURRENT_TIMESTAMP(") value; strip_suffix (u ")") inner) with
    | None => false
    | Some precision => match parse_u8 precision with Some p => p <=? 6 | None => false end
    end.

(** The statement fragment and whether the default is an expression. *)
Definition normalize_ordinary_extra (extra : str) : result (str * bool) str :=
  let eqs := fun (t : str) (w : String.string) => str_eqb t (u w) in
  let other := Err (u "无法无损解析 MySQL 普通列 extra 片段: " ++ extra) in
  match upper_tokens extra with
  | [] => Ok ([], false)
  | [token] =>
    if eqs token "AUTO_INCREMENT" then Ok (u "auto_increment", false)
    else if eqs token "DEFAULT_GENERATED" then Ok ([], true) else other
  | [on; update; timestamp] =>
    if eqs on "ON" && eqs update "UPDATE" && is_current_timestamp timestamp
    then Ok (u "ON UPDATE " ++ timestamp, false) else other
  | [generated; on; update; timestamp] =>
    if eqs generated "DEFAULT_GENERATED" && eqs on "ON" && eqs update "UPDATE" && is_current_timestamp timestamp
    then Ok (u "ON UPDATE " ++ timestamp, true) else other
  | _ => other
  end.

Definition mysql_generation_expression (column : ColumnSnapshot) (metadata : option TableSyncMetadata) (table_name column_name : str) :
    result (option str) str :=
  rbind (generated_storage (extra column)) (fun storage =>
  match storage with
  | None => Ok None
  | Some _ =>
    match (t ← mysql_meta metadata; mysql_column t column_name) with
    | None => Err (u "生成列 " ++ table_name ++ u "." ++ column_name ++ u " 缺少 MySQL 生成列表达式元数据，无法无损比较")
    | Some (generation_expression, _) =>
      if blank generation_expression
      then Err (u "生成列 " ++ table_name ++ u "." ++ column_name ++ u " 的 MySQL 生成列表达式元数据为空，无法无损比较")
      else Ok (Some generation_expression)
    end
  end).

Section Planner.
Context (upper_char : char -> str).

(** The parts of a definition that are always there, the default, the extra and
    the comment, joined by spaces. *)
Definition nullability (nullable : bool) : str := if nullable then u "NULL" else u "NOT NULL".
Definition build_column_definition (column_type : str) (nullable : bool) (default_value : option str) (extra comment : str) : str :=
  join (u " ")
    ([column_type; nullability nullable]
     ++ match default_value with
        | None => []
        | Some default =>
          let upper := to_uppercase upper_char (trim default) in
          if str_eqb upper (u "CURRENT_TIMESTAMP") || str_eqb upper (u "NULL") || starts_with (u "CURRENT_TIMESTAMP") upper
          then [u "DEFAULT " ++ default] else [u "DEFAULT " ++ esc_str default]
        end
     ++ (if is_empty extra then [] else [extra])
     ++ (if is_empty comment then [] else [u "COMMENT " ++ esc_str comment])).

Definition source_column_definition (context : TablePlanContext) (table_name column_name : str) (column : ColumnSnapshot) : result str str :=
  let place := table_name ++ u "." ++ column_name in
  rbind (validate_column_type (column_type column)) (fun _ =>
  rbind (validate_column_extra (extra column)) (fun _ =>
  rbind (generated_storage (extra column)) (fun generated =>
  match generated with
  | Some storage =>
    if is_some (default_value column) then Err (u "生成列 " ++ place ++ u " 同时包含默认值，无法无损生成定义")
    else
      match mysql_meta (cx_source_metadata context) with
      | None => Err (u "生成列 " ++ place ++ u " 缺少 MySQL 原生元数据，无法无损生成定义")
      | Some t =>
        match mysql_column t column_name with
        | Some (expression, _) =>
          if blank expression then Err (u "生成列 " ++ place ++ u " 缺少生成表达式，无法无损生成定义")
          else
            Ok (column_type column ++ u " GENERATED ALWAYS AS (" ++ expression ++ u ") " ++ storage
                ++ (if nullable column then [] else u " NOT NULL")
                ++ (if is_empty (comment column) then [] else u " COMMENT " ++ esc_str (comment column)))
        | None => Err (u "生成列 " ++ place ++ u " 缺少生成表达式，无法无损生成定义")
        end
      end
  | None =>
    rbind (normalize_ordinary_extra (extra column)) (fun '(ddl, default_is_expression) =>
    if default_is_expression : bool then
      match default_value column with
      | None => Err (u "字段 " ++ place ++ u " 标记为 DEFAULT_GENERATED 但缺少默认值，无法无损生成定义")
      | Some default =>
        if blank default then Err (u "字段 " ++ place ++ u " 的生成默认表达式为空，无法无损生成定义")
        else
          Ok (join (u " ") ([column_type column; nullability (nullable column)] ++ [u "DEFAULT " ++ default]
              ++ (if is_empty ddl then [] else [ddl])
              ++ (if is_empty (comment column) then [] else [u "COMMENT " ++ esc_str (comment column)])))
      end
    else Ok (build_column_definition (column_type column) (nullable column) (default_value column) ddl (comment column)))
  end))).

(** ** Statements *)

Inductive Statement : Type :=
| CreateTableStatement (definitions : list (str * str)) (primary_keys : list str) (engine comment : str)
| DropTableStatement
| AddColumnStatement (name definition : str) (position : Position)
| ModifyColumnStatement (name definition : str) (position : Position)
| DropColumnStatement (name : str)
| DropPrimaryKeyStatement
| AddPrimaryKeyStatement (names : list str).

Definition position_clause (p : Position) : str :=
  match p with Stay => [] | First => u " FIRST" | After name => u " AFTER " ++ esc_id name end.
Definition name_list (names : list str) : str := join (u ", ") (map esc_id names).
Definition render (database table : str) (s : Statement) : str :=
  let place := esc_id database ++ u "." ++ esc_id table in
  match s with
  | CreateTableStatement definitions primary_keys engine comment =>
    u "CREATE TABLE " ++ place ++ u " (" ++ [10]
    ++ join (u "," ++ [10])
         (map (fun d => u "  " ++ esc_id d.1 ++ u " " ++ d.2) definitions
          ++ (if is_empty primary_keys then [] else [u "  PRIMARY KEY (" ++ name_list primary_keys ++ u ")"]))
    ++ [10] ++ u ")"
    ++ (if is_empty engine then [] else u " ENGINE=" ++ engine)
    ++ (if is_empty comment then [] else u " COMMENT=" ++ esc_str comment)
  | DropTableStatement => u "DROP TABLE " ++ place
  | AddColumnStatement name definition position =>
    u "ALTER TABLE " ++ place ++ u " ADD COLUMN " ++ esc_id name ++ u " " ++ definition ++ position_clause position
  | ModifyColumnStatement name definition position =>
    u "ALTER TABLE " ++ place ++ u " MODIFY COLUMN " ++ esc_id name ++ u " " ++ definition ++ position_clause position
  | DropColumnStatement name => u "ALTER TABLE " ++ place ++ u " DROP COLUMN " ++ esc_id name
  | DropPrimaryKeyStatement => u "ALTER TABLE " ++ place ++ u " DROP PRIMARY KEY"
  | AddPrimaryKeyStatement names => u "ALTER TABLE " ++ place ++ u " ADD PRIMARY KEY (" ++ name_list names ++ u ")"
  end.

(** ** Plans *)

Definition define_column (context : TablePlanContext) (source : TableSnapshot) (acc : PlanFragments * list (str * str))
    (c : str * ColumnSnapshot) : PlanFragments * list (str * str) :=
  match source_column_definition context (ts_name source) c.1 c.2 with
  | Ok definition => (acc.1, acc.2 ++ [(c.1, definition)])
  | Err reason =>
    (block (ts_name source) (u "无法生成字段 " ++ ts_name source ++ u "." ++ c.1 ++ u " 的定义") reason acc.1, acc.2)
  end.
Definition plan_create_table (context : TablePlanContext) (source : TableSnapshot) (plan : PlanFragments) : PlanFragments :=
  let refuse := fun reason => block (ts_name source) (u "无法创建表 " ++ ts_name source) reason in
  match mysql_meta (cx_source_metadata context) with
  | None => refuse (u "缺少 MySQL 原生表元数据") plan
  | Some t =>
    if is_empty (ts_columns source) then refuse (u "源表没有字段") plan
    else
      match (if is_empty (my_engine t) then Ok tt else validate_engine_name (my_engine t)) with
      | Err reason => refuse reason plan
      | Ok _ =>
        let '(plan, definitions) := fold_left (define_column context source) (in_order source) (plan, []) in
        if negb (is_empty (pf_blockers plan)) then plan
        else
          match mysql_primary_key_columns source (cx_source_metadata context) with
          | Err reason => refuse reason plan
          | Ok primary_keys =>
            operation CreateTablePhase (ts_name source) CreateTable Normal (u "创建目标端表 " ++ ts_name source)
              [render (cx_target_database context) (ts_name source)
                 (CreateTableStatement definitions primary_keys (my_engine t) (my_comment t))] plan
          end
      end
  end.

Definition find_column (table : TableSnapshot) (name : str) : option (str * ColumnSnapshot) :=
  find_first (fun c => str_eqb c.1 name) (ts_columns table).

(** Whether a column is generated on both sides, from different expressions. *)
Definition generation_differs (context : TablePlanContext) (source target : TableSnapshot) (c : str * ColumnSnapshot) : result bool str :=
  match find_column target c.1 with
  | None => Ok false
  | Some (_, target_column) =>
    rbind (generated_storage (extra c.2)) (fun source_storage =>
    if negb (is_some source_storage) then Ok false
    else
      rbind (generated_storage (extra target_column)) (fun target_storage =>
      if negb (is_some target_storage) then Ok false
      else
        rbind (mysql_generation_expression c.2 (cx_source_metadata context) (ts_name source) c.1) (fun source_expression =>
        rbind (mysql_generation_expression target_column (cx_target_metadata context) (ts_name target) c.1) (fun target_expression =>
        Ok (negb (bool_decide (source_expression = target_expression)))))))
  end.

(** The columns whose expressions could not be compared, and those that differ. *)
Record Generated : Type := mkGenerated { gn_plan : PlanFragments; gn_blocked : list str; gn_changes : list str }.
Definition compare_generated (context : TablePlanContext) (source target : TableSnapshot) (st : Generated) (c : str * ColumnSnapshot) : Generated :=
  match generation_differs context source target c with
  | Err reason =>
    mkGenerated (block (ts_name source) (u "无法比较生成列表达式 " ++ ts_name source ++ u "." ++ c.1) reason (gn_plan st))
      (gn_blocked st ++ [c.1]) (gn_changes st)
  | Ok true => mkGenerated (gn_plan st) (gn_blocked st) (gn_changes st ++ [c.1])
  | Ok false => st
  end.

Record Changes : Type := mkChanges {
  ch_plan : PlanFragments;
  ch_add : list Statement;
  ch_add_risk : DatabaseSyncRisk;
  ch_alter : list (Z * str * Statement);
  ch_publicly_changed : list str;
}.
Definition with_plan (f : PlanFragments -> PlanFragments) (st : Changes) : Changes :=
  mkChanges (f (ch_plan st)) (ch_add st) (ch_add_risk st) (ch_alter st) (ch_publicly_changed st).
Definition alter_entry (column : ColumnSnapshot) (name definition : str) (position : Position) : Z * str * Statement :=
  (ordinal_position column, name, ModifyColumnStatement name definition position).
Definition push_alter (e : Z * str * Statement) (st : Changes) : Changes :=
  mkChanges (ch_plan st) (ch_add st) (ch_add_risk st) (ch_alter st ++ [e]) (ch_publicly_changed st).
Definition qualified (source : TableSnapshot) (name : str) : str := ts_name source ++ u "." ++ name.

Definition plan_difference (context : TablePlanContext) (source : TableSnapshot) (blocked : list str) (st : Changes) (d : ColumnDiff) : Changes :=
  let definition_of := fun column => source_column_definition context (ts_name source) (cd_name d) column in
  match cd_status d, cd_source d with
  | SourceOnly, Some column =>
    match definition_of column with
    | Ok definition =>
      let native := t ← mysql_meta (cx_source_metadata context); BTree.get str_cmp (cd_name d) (my_columns t) in
      mkChanges (ch_plan st)
        (ch_add st ++ [AddColumnStatement (cd_name d) definition (source_position source (cd_name d))])
        (match add_column_risk column native with High => High | _ => ch_add_risk st end)
        (ch_alter st) (ch_publicly_changed st)
    | Err reason => with_plan (block (ts_name source) (u "无法新增字段 " ++ qualified source (cd_name d)) reason) st
    end
  | Changed, source_column =>
    let st := mkChanges (ch_plan st) (ch_add st) (ch_add_risk st) (ch_alter st) (ch_publicly_changed st ++ [cd_name d]) in
    if bool_decide (cd_name d ∈ blocked) then st
    else
      match source_column with
      | None => st
      | Some column =>
        match definition_of column with
        | Ok definition =>
          let position :=
            if existsb (fun field => str_eqb field (u "ordinal_position")) (cd_changed_fields d)
            then source_position source (cd_name d) else Stay in
          push_alter (alter_entry column (cd_name d) definition position) st
        | Err reason => with_plan (block (ts_name source) (u "无法修改字段 " ++ qualified source (cd_name d)) reason) st
        end
      end
  | TargetOnly, _ =>
    if cx_include_drops context
    then
      with_plan (operation DropColumnPhase (ts_name source) DropColumn Destructive
        (u "删除目标端独有字段 " ++ qualified source (cd_name d))
        [render (cx_target_database context) (ts_name source) (DropColumnStatement (cd_name d))]) st
    else
      with_plan (skip (ts_name source) (u "跳过删除目标端独有字段 " ++ qualified source (cd_name d)) (u "未开启包含删除操作")) st
  | SourceOnly, None => st
  end.

Definition plan_generation_change (context : TablePlanContext) (source : TableSnapshot) (blocked : list str) (st : Changes) (name : str) : Changes :=
  if bool_decide (name ∈ ch_publicly_changed st) || bool_decide (name ∈ blocked) then st
  else
    match find_column source name with
    | None => st
    | Some (_, column) =>
      match source_column_definition context (ts_name source) name column with
      | Ok definition => push_alter (alter_entry column name definition Stay) st
      | Err reason => with_plan (block (ts_name source) (u "无法修改生成列表达式 " ++ qualified source name) reason) st
      end
    end.

Definition by_place (a b : Z * str * Statement) : comparison :=
  cmp_then (cmp_on (fun e : Z * str * Statement => e.1.1) Z.compare) (cmp_on (fun e : Z * str * Statement => e.1.2) str_cmp) a b.

(** Both primary keys, or the plan with the reason why one cannot be told. *)
Definition primary_keys_of (context : TablePlanContext) (source target : TableSnapshot) (plan : PlanFragments) :
    PlanFragments * option (list str * list str) :=
  match mysql_primary_key_columns source (cx_source_metadata context) with
  | Err reason => (block (ts_name source) (u "无法规划源端主键") reason plan, None)
  | Ok source_columns =>
    match mysql_primary_key_columns target (cx_target_metadata context) with
    | Err reason => (block (ts_name source) (u "无法规划目标端主键") reason plan, None)
    | Ok target_columns => (plan, Some (source_columns, target_columns))
    end
  end.

Definition plan_changed_table (context : TablePlanContext) (source target : TableSnapshot) (plan : PlanFragments) : PlanFragments :=
  let rendered := map (render (cx_target_database context) (ts_name source)) in
  let generated := fold_left (compare_generated context source target) (ts_columns source) (mkGenerated plan [] []) in
  let st := fold_left (plan_difference context source (gn_blocked generated)) (compare_table_columns source target)
              (mkChanges (gn_plan generated) [] Normal [] []) in
  let st := fold_left (plan_generation_change context source (gn_blocked generated)) (ordered_set (gn_changes generated)) st in
  let modify := map snd (sort_by by_place (ch_alter st)) in
  let plan :=
    if is_empty (ch_add st) then ch_plan st
    else
      operation AddColumnPhase (ts_name source) AddColumn (ch_add_risk st)
        (u "新增表 " ++ ts_name source ++ u " 的 " ++ show_Z (zlen (ch_add st)) ++ u " 个字段") (rendered (ch_add st)) (ch_plan st) in
  let '(plan, primary_keys) := primary_keys_of context source target plan in
  let modify_only :=
    if is_empty modify then plan
    else
      operation AlterColumnPhase (ts_name source) AlterColumn High
        (u "修改表 " ++ ts_name source ++ u " 的 " ++ show_Z (zlen modify) ++ u " 个字段") (rendered modify) plan in
  match primary_keys with
  | None => modify_only
  | Some (source_keys, target_keys) =>
    if bool_decide (source_keys = target_keys) then modify_only
    else if negb (is_empty target_keys) && negb (cx_include_drops context)
    then
      block (ts_name source) (u "无法替换表 " ++ ts_name source ++ u " 的主键")
        (u "目标端已有主键，替换主键需要先删除旧主键，但未开启包含删除操作") plan
    else
      operation AlterColumnPhase (ts_name source) ReplacePrimaryKey High
        (u "替换表 " ++ ts_name source ++ u " 的主键并同步相关字段")
        (rendered ((if is_empty target_keys then [] else [DropPrimaryKeyStatement]) ++ modify
                   ++ (if is_empty source_keys then [] else [AddPrimaryKeyStatement source_keys]))) plan
  end.

Definition unsupported_shape (table : option TableSnapshot) (metadata : option TableSyncMetadata) : option (str * str) :=
  match table, metadata with
  | Some table, Some metadata =>
    match validate_supported_table_shape metadata with Err reason => Some (ts_name table, reason) | Ok _ => None end
  | _, _ => None
  end.
Definition plan_table (context : TablePlanContext) : PlanFragments :=
  match (match unsupported_shape (cx_source context) (cx_source_metadata context) with
         | Some r => Some r
         | None => unsupported_shape (cx_target context) (cx_target_metadata context)
         end) with
  | Some (table, reason) => block table (u "无法同步 MySQL 表 " ++ table) reason no_fragments
  | None =>
    match cx_source context, cx_target context with
    | Some source, None => plan_create_table context source no_fragments
    | None, Some target =>
      if cx_include_drops context
      then
        operation DropTablePhase (ts_name target) DropTable Destructive (u "删除目标端独有表 " ++ ts_name target)
          [render (cx_target_database context) (ts_name target) DropTableStatement] no_fragments
      else skip (ts_name target) (u "跳过删除目标端独有表") (u "未开启包含删除操作") no_fragments
    | Some source, Some target => plan_changed_table context source target no_fragments
    | None, None => block [] (u "无法规划同步") (u "表在源端和目标端都不存在") no_fragments
    end
  end.

End Planner.
End MysqlSync.
