(* ===== verification/MysqlConverge.v ===== *)
(** What carrying out a plan does to a MySQL table: the statements of
    [MysqlSync.plan_table] turn the target's table into the source's.

    A server is [AlterServer]: it may refuse a statement, but what it accepts
    has the documented effect.  What a column definition means to it is
    [described]. *)
From S2P Require Import Prelude OrderedMap RustText DataTypes SchemaCompare SyncTypes ColumnOrder MysqlSync SyncFacts.
Import SchemaCompare SyncTypes ColumnOrder MysqlSync SyncFacts.

Module MysqlConverge.

(** ** Tables on the server *)

(** What a column is, apart from its place and the primary key. *)
Record Attributes : Type := mkAttributes {
  at_type : str; at_nullable : bool; at_default : option str; at_extra : str; at_comment : str; at_generation : str }.
Record attributes_equiv (a b : Attributes) : Prop := {
  ae_type : at_type a = at_type b;
  ae_nullable : at_nullable a = at_nullable b;
  ae_default : default_equiv (at_default a) (at_default b);
  ae_extra : at_extra a = at_extra b;
  ae_comment : at_comment a = at_comment b;
  ae_generation : at_generation a = at_generation b;
}.
#[export] Instance attributes_equivalence : Equivalence attributes_equiv.
Proof.
  split.
  - intros a. by split.
  - intros a b []. split; by symmetry.
  - intros a b c [] []. split; by etransitivity.
Qed.

Record Table : Type := mkTable { tb_columns : list (str * Attributes); tb_key : list str }.

Definition not_null (a : Attributes) : Attributes :=
  mkAttributes (at_type a) false (at_default a) (at_extra a) (at_comment a) (at_generation a).
Definition make_key (names : list str) (l : list (str * Attributes)) : list (str * Attributes) :=
  map (fun c => if decide (c.1 ∈ names) then (c.1, not_null c.2) else c) l.

Section Effect.
Context (described : str -> Attributes).

(** The documented effect of a statement on the table it names. *)
Definition alter (s : Statement) (t : Table) : Table :=
  match s with
  | AddColumnStatement n d p => mkTable (place (n, described d) p (tb_columns t)) (tb_key t)
  | ModifyColumnStatement n d p => mkTable (modify n (described d) p (tb_columns t)) (tb_key t)
  | DropColumnStatement n => mkTable (without n (tb_columns t)) (filter (fun m => m <> n) (tb_key t))
  | DropPrimaryKeyStatement => mkTable (tb_columns t) []
  | AddPrimaryKeyStatement names => mkTable (make_key names (tb_columns t)) names
  | CreateTableStatement _ _ _ _ | DropTableStatement => t
  end.
Definition effect (s : Statement) (t : option Table) : option Table :=
  match s with
  | CreateTableStatement definitions keys _ _ => Some (mkTable (make_key keys (map (fun d => (d.1, described d.2)) definitions)) keys)
  | DropTableStatement => None
  | _ => alter s <$> t
  end.
End Effect.

(** ** What a snapshot says of a table *)

Definition expression_of (metadata : option TableSyncMetadata) (name : str) : str :=
  match (t ← mysql_meta metadata; mysql_column t name) with Some (e, _) => e | None => [] end.
Definition attributes_of (metadata : option TableSyncMetadata) (name : str) (c : ColumnSnapshot) : Attributes :=
  mkAttributes (column_type c) (nullable c) (default_value c) (extra c) (comment c)
    (match generated_storage (extra c) with Ok (Some _) => expression_of metadata name | _ => [] end).
Definition represents (snapshot : option TableSnapshot) (metadata : option TableSyncMetadata) (t : option Table) : Prop :=
  match snapshot, t with
  | None, None => True
  | Some s, Some t =>
    named (tb_columns t) /\
    (forall n, match ColumnOrder.attributes (ts_columns s) n, ColumnOrder.attributes (tb_columns t) n with
               | None, None => True
               | Some c, Some a => attributes_equiv a (attributes_of metadata n c)
               | _, _ => False
               end) /\
    mysql_primary_key_columns s metadata = Ok (tb_key t)
  | _, _ => False
  end.
(** The columns also stand in the snapshot's order. *)
Definition ordered_as (snapshot : option TableSnapshot) (t : option Table) : Prop :=
  match snapshot, t with Some s, Some t => map fst (tb_columns t) = names_of s | _, _ => True end.

Record wf_snapshot (s : TableSnapshot) : Prop := {
  ws_names : NoDup (map fst (ts_columns s));
  ws_keys n c : (n, c) ∈ ts_columns s -> primary_key c = true -> nullable c = false;
}.

(** Either every column of the source exists, or the common columns stand in
    the same order on both sides. *)
Definition order_kept (source target : TableSnapshot) : Prop :=
  (forall n, n ∈ names_of source -> n ∈ names_of target) \/
  filter (fun n => n ∈ names_of target) (names_of source) = filter (fun n => n ∈ names_of source) (names_of target).

#[local] Opaque u changed_fields.

(** ** What an unblocked plan contains *)

Section Extract.
Context (upper_char : char -> str) (context : TablePlanContext) (source : TableSnapshot).
Abbreviation source_column_definition := (source_column_definition upper_char).

Definition definition_of (n : str) (c : ColumnSnapshot) : str :=
  match source_column_definition context (ts_name source) n c with Ok d => d | Err _ => [] end.
Definition defined (n : str) (c : ColumnSnapshot) : Prop :=
  source_column_definition context (ts_name source) n c = Ok (definition_of n c).

Definition add_statement (d : ColumnDiff) : option Statement :=
  match cd_status d, cd_source d with
  | SourceOnly, Some c => Some (AddColumnStatement (cd_name d) (definition_of (cd_name d) c) (source_position source (cd_name d)))
  | _, _ => None
  end.
Definition moves (d : ColumnDiff) : bool := existsb (fun field => str_eqb field (u "ordinal_position")) (cd_changed_fields d).
Definition alter_statement (d : ColumnDiff) : option (Z * str * Statement) :=
  match cd_status d, cd_source d with
  | Changed, Some c =>
    Some (alter_entry c (cd_name d) (definition_of (cd_name d) c) (if moves d then source_position source (cd_name d) else Stay))
  | _, _ => None
  end.
Definition dropped (d : ColumnDiff) : option str := match cd_status d with TargetOnly => Some (cd_name d) | _ => None end.
Definition drop_operation (n : str) : PendingOperation :=
  mkPending DropColumnPhase (ts_name source) DropColumn (u "删除目标端独有字段 " ++ qualified source n) Destructive
    [render (cx_target_database context) (ts_name source) (DropColumnStatement n)].
Definition changed_name (d : ColumnDiff) : option str := match cd_status d with Changed => Some (cd_name d) | _ => None end.
Definition settled (d : ColumnDiff) : Prop :=
  match cd_status d, cd_source d with
  | (SourceOnly | Changed), Some c => defined (cd_name d) c
  | TargetOnly, _ => cx_include_drops context = true
  | _, _ => True
  end.

Lemma generated_unblocked target l st :
  pf_blockers (gn_plan (fold_left (compare_generated context source target) l st)) = [] ->
  (forall c, c ∈ l -> exists b, generation_differs context source target c = Ok b) /\
  fold_left (compare_generated context source target) l st =
    mkGenerated (gn_plan st) (gn_blocked st)
      (gn_changes st ++ map fst (List.filter (fun c => bool_decide (generation_differs context source target c = Ok true)) l)).
Proof.
  induction l as [|c l IH] using rev_ind; [intros _; cbn; rewrite app_nil_r; split; [by intros c H%elem_of_nil|by destruct st]|].
  rewrite fold_left_app, List.filter_app, map_app. cbn [fold_left List.filter]. unfold compare_generated at 1 3.
  destruct (generation_differs context source target c) as [[|]|e] eqn:E; [..|by intros ?%block_not_nil];
    intros H; destruct (IH H) as [H1 H2]; rewrite H2; cbn [gn_plan gn_blocked gn_changes].
  - rewrite bool_decide_eq_true_2 by done. cbn. rewrite (assoc app). split; [|done].
    intros c' [Hc|Hc%list_elem_of_singleton]%elem_of_app; [by apply H1|subst; eauto].
  - rewrite bool_decide_eq_false_2 by done. cbn. rewrite app_nil_r. split; [|done].
    intros c' [Hc|Hc%list_elem_of_singleton]%elem_of_app; [by apply H1|subst; eauto].
Qed.

Lemma difference_unblocked st d : clean (ch_plan (plan_difference upper_char context source [] st d)) ->
  clean (ch_plan st) /\ settled d /\
  exists risk, plan_difference upper_char context source [] st d =
    mkChanges (mkFragments (pf_operations (ch_plan st) ++ map drop_operation (option_list (dropped d)))
        (pf_skipped_items (ch_plan st)) (pf_blockers (ch_plan st)))
      (ch_add st ++ option_list (add_statement d)) risk (ch_alter st ++ option_list (alter_statement d))
      (ch_publicly_changed st ++ option_list (changed_name d)).
Proof.
  unfold plan_difference, settled, add_statement, alter_statement, dropped, changed_name, defined, definition_of.
  rewrite bool_decide_eq_false_2 by apply not_elem_of_nil. destruct st as [[o s b] ad r al p].
  cbn [ch_plan ch_add ch_add_risk ch_alter ch_publicly_changed pf_operations pf_skipped_items pf_blockers].
  destruct (cd_status d); [destruct (cd_source d) as [c|]| |destruct (cd_source d) as [c|]].
  - destruct (source_column_definition context (ts_name source) (cd_name d) c) as [def|e] eqn:E; [|by intros [F%block_not_nil _]].
    intros H. split; [exact H|]. split; [done|]. eexists. cbn. by rewrite !app_nil_r.
  - intros H. split; [exact H|]. split; [done|]. eexists. cbn. by rewrite !app_nil_r.
  - destruct (cx_include_drops context); [|by intros [_ F%skip_not_nil]].
    intros H. split; [exact H|]. split; [done|]. eexists. cbn. by rewrite !app_nil_r.
  - destruct (source_column_definition context (ts_name source) (cd_name d) c) as [def|e] eqn:E; [|by intros [F%block_not_nil _]].
    intros H. split; [exact H|]. split; [done|]. eexists. cbn. by rewrite !app_nil_r.
  - intros H. split; [exact H|]. split; [done|]. eexists. cbn. by rewrite !app_nil_r.
Qed.

Lemma differences_unblocked ds st :
  clean (ch_plan (fold_left (plan_difference upper_char context source []) ds st)) ->
  Forall settled ds /\
  exists risk, fold_left (plan_difference upper_char context source []) ds st =
    mkChanges (mkFragments (pf_operations (ch_plan st) ++ map drop_operation (omap dropped ds)) [] [])
      (ch_add st ++ omap add_statement ds) risk (ch_alter st ++ omap alter_statement ds)
      (ch_publicly_changed st ++ omap changed_name ds).
Proof.
  induction ds as [|d ds IH] using rev_ind.
  { intros [B S]. cbn in *. split; [constructor|]. exists (ch_add_risk st). rewrite !app_nil_r.
    destruct st as [[o s b] a r al p]. cbn in *. by subst. }
  rewrite fold_left_app. cbn [fold_left]. intros H.
  destruct (difference_unblocked _ d H) as (C & Sd & risk & E). destruct (IH C) as (F & r & E1).
  split; [apply list.Forall_app; split; [done|by constructor]|]. exists risk. rewrite E, E1.
  cbn [ch_plan ch_add ch_add_risk ch_alter ch_publicly_changed pf_operations pf_skipped_items pf_blockers].
  by rewrite !omap_snoc, map_app, !(assoc app).
Qed.

Lemma difference_mono blocked st d : pf_blockers (ch_plan (plan_difference upper_char context source blocked st d)) = [] ->
  pf_blockers (ch_plan st) = [].
Proof.
  unfold plan_difference. destruct (cd_status d), (cd_source d) as [c|]; try case_match; try case_match; try done;
    try by intros F%block_not_nil.
Qed.

Definition change_entry (c : str * ColumnSnapshot) : Z * str * Statement :=
  alter_entry c.2 c.1 (definition_of c.1 c.2) Stay.
Definition generation_entry (public : list str) (name : str) : option (Z * str * Statement) :=
  if bool_decide (name ∈ public) then None else change_entry <$> (find_column source name).

Lemma generation_mono blocked st n : pf_blockers (ch_plan (plan_generation_change upper_char context source blocked st n)) = [] ->
  pf_blockers (ch_plan st) = [].
Proof.
  unfold plan_generation_change. destruct (_ || _); [done|]. destruct (find_column source n) as [[m c]|]; [|done].
  destruct (source_column_definition _ _ _ _); [done|]. by intros F%block_not_nil.
Qed.

Lemma generation_step st n : pf_blockers (ch_plan (plan_generation_change upper_char context source [] st n)) = [] ->
  pf_blockers (ch_plan st) = [] /\
  (forall c, n ∉ ch_publicly_changed st -> find_column source n = Some c -> c.1 = n /\ defined n c.2) /\
  plan_generation_change upper_char context source [] st n =
    mkChanges (ch_plan st) (ch_add st) (ch_add_risk st)
      (ch_alter st ++ option_list (generation_entry (ch_publicly_changed st) n)) (ch_publicly_changed st).
Proof.
  unfold plan_generation_change, generation_entry, defined, change_entry, definition_of.
  rewrite (bool_decide_eq_false_2 (n ∈ [])) by apply not_elem_of_nil. rewrite orb_false_r.
  destruct st as [pl ad r al p]. cbn [ch_publicly_changed ch_plan].
  destruct (bool_decide (n ∈ p)) eqn:Hp.
  { intros B. split; [exact B|]. split; [|cbn; by rewrite app_nil_r].
    intros c N. apply bool_decide_eq_true in Hp. by destruct N. }
  destruct (find_column source n) as [[m c]|] eqn:Ef.
  2:{ intros B. split; [exact B|]. split; [done|]. cbn. by rewrite app_nil_r. }
  assert (m = n) as ->.
  { unfold find_column in Ef. apply find_first_some in Ef as [_ E]. cbn in E. by apply str_eqb_eq in E. }
  cbn [fmap option_fmap option_map fst snd].
  destruct (source_column_definition context (ts_name source) n c) as [d|e] eqn:E; [|by intros F%block_not_nil].
  intros B. split; [exact B|]. split; [|done]. intros c' _ [= <-]. cbn. by rewrite E.
Qed.

Lemma generation_unblocked names st :
  pf_blockers (ch_plan (fold_left (plan_generation_change upper_char context source []) names st)) = [] ->
  (forall n c, n ∈ names -> n ∉ ch_publicly_changed st -> find_column source n = Some c -> c.1 = n /\ defined n c.2) /\
  fold_left (plan_generation_change upper_char context source []) names st =
    mkChanges (ch_plan st) (ch_add st) (ch_add_risk st)
      (ch_alter st ++ omap (generation_entry (ch_publicly_changed st)) names) (ch_publicly_changed st).
Proof.
  induction names as [|n names IH] using rev_ind.
  { intros _. split; [by intros n c H%elem_of_nil|]. cbn. rewrite app_nil_r. by destruct st. }
  rewrite fold_left_app, omap_snoc. cbn [fold_left]. intros B.
  destruct (generation_step _ n B) as (B1 & H2 & E). destruct (IH B1) as [H1 E1]. rewrite E, E1 in *. cbn in H2.
  split; [|cbn; by rewrite (assoc app)].
  intros m c [Hm|Hm%list_elem_of_singleton]%elem_of_app; [by apply H1|subst; apply H2].
Qed.

End Extract.

Section Plan.
Context (upper_char : char -> str) (context : TablePlanContext) (source target : TableSnapshot).
Abbreviation rendered := (map (render (cx_target_database context) (ts_name source))).
Abbreviation ds := (compare_table_columns source target).

Definition generation_changes : list str :=
  ordered_set (map fst (List.filter (fun c => bool_decide (generation_differs context source target c = Ok true)) (ts_columns source))).
Definition add_statements : list Statement := omap (add_statement upper_char context source) ds.
Definition alter_entries : list (Z * str * Statement) :=
  omap (alter_statement upper_char context source) ds
  ++ omap (generation_entry upper_char context source (omap changed_name ds)) generation_changes.
Definition modify_statements : list Statement := map snd (sort_by by_place alter_entries).
Definition key_statements (source_keys target_keys : list str) : list Statement :=
  if bool_decide (source_keys = target_keys) then modify_statements
  else (if is_empty target_keys then [] else [DropPrimaryKeyStatement]) ++ modify_statements
       ++ (if is_empty source_keys then [] else [AddPrimaryKeyStatement source_keys]).

(** At most one operation, of this phase, with these statements. *)
Definition carries (phase : OperationPhase) (stmts : list Statement) (ops : list PendingOperation) : Prop :=
  Forall (fun o => po_phase o = phase) ops /\ (length ops <= 1)%nat /\ concat (map po_sql ops) = rendered stmts.

Lemma carries_operation phase name kind risk summary stmts :
  carries phase stmts [mkPending phase name kind summary risk (rendered stmts)].
Proof. split; [by constructor|]. split; [done|]. cbn. by rewrite app_nil_r. Qed.
Lemma carries_nil phase : carries phase [] [].
Proof. split; [constructor|]. split; [cbn; lia|done]. Qed.

Lemma changed_table_clean : clean (plan_changed_table upper_char context source target no_fragments) ->
  Forall (settled upper_char context source) ds /\
  (forall c, c ∈ ts_columns source -> exists b, generation_differs context source target c = Ok b) /\
  (forall n c, n ∈ generation_changes -> n ∉ omap changed_name ds -> find_column source n = Some c ->
    c.1 = n /\ defined upper_char context source n c.2) /\
  exists source_keys target_keys adds alters,
    mysql_primary_key_columns source (cx_source_metadata context) = Ok source_keys /\
    mysql_primary_key_columns target (cx_target_metadata context) = Ok target_keys /\
    carries AddColumnPhase add_statements adds /\
    carries AlterColumnPhase (key_statements source_keys target_keys) alters /\
    pf_operations (plan_changed_table upper_char context source target no_fragments) =
      map (drop_operation context source) (omap dropped ds) ++ adds ++ alters.
Proof.
  unfold plan_changed_table, primary_keys_of. cbv zeta.
  set (gen := fold_left (compare_generated context source target) (ts_columns source) (mkGenerated no_fragments [] [])).
  set (st1 := fold_left (plan_difference upper_char context source (gn_blocked gen)) ds (mkChanges (gn_plan gen) [] Normal [] [])).
  set (st := fold_left (plan_generation_change upper_char context source (gn_blocked gen)) (ordered_set (gn_changes gen)) st1).
  set (st_plan := if is_empty (ch_add st) then ch_plan st else _).
  intros H.
  assert (K : exists ks kt, mysql_primary_key_columns source (cx_source_metadata context) = Ok ks /\
    mysql_primary_key_columns target (cx_target_metadata context) = Ok kt /\ clean st_plan).
  { clearbody st_plan. clear -H. destruct (mysql_primary_key_columns source _) as [ks|e].
    - destruct (mysql_primary_key_columns target _) as [kt|e].
      + exists ks, kt. split; [done|]. split; [done|].
        destruct (bool_decide _); [destruct (is_empty _); exact H|]. destruct (_ && _); [|exact H]. by destruct H as [F%block_not_nil _].
      + exfalso. destruct (is_empty _); destruct H as [F _]; cbn in F; by destruct (pf_blockers st_plan).
    - exfalso. destruct (is_empty _); destruct H as [F _]; cbn in F; by destruct (pf_blockers st_plan). }
  destruct K as (ks & kt & Eks & Ekt & C). rewrite Eks, Ekt in *.
  assert (C1 : clean (ch_plan st)) by (unfold st_plan in C; destruct (is_empty (ch_add st)); exact C).
  assert (B1 : pf_blockers (ch_plan st1) = []).
  { apply (fold_back (fun s => pf_blockers (ch_plan s) = []) (plan_generation_change upper_char context source (gn_blocked gen))
      (ordered_set (gn_changes gen))); [|exact (proj1 C1)]. intros s a. apply generation_mono. }
  assert (B0 : pf_blockers (gn_plan gen) = []).
  { apply (fold_back (fun s => pf_blockers (ch_plan s) = []) (plan_difference upper_char context source (gn_blocked gen)) ds
      (mkChanges (gn_plan gen) [] Normal [] [])); [|exact B1]. intros s a. apply difference_mono. }
  destruct (generated_unblocked context source target (ts_columns source) (mkGenerated no_fragments [] []) B0) as [G1 G2].
  assert (Gb : gn_blocked gen = []) by (unfold gen; by rewrite G2).
  assert (Gc : ordered_set (gn_changes gen) = generation_changes) by (unfold gen; by rewrite G2).
  assert (Gp : gn_plan gen = no_fragments) by (unfold gen; by rewrite G2).
  clearbody gen. clear C B1 B0 G2. subst st_plan st st1. rewrite Gb, Gc, Gp in *.
  destruct (generation_unblocked upper_char context source generation_changes _ (proj1 C1)) as [H2 E2].
  assert (C2 : clean (ch_plan (fold_left (plan_difference upper_char context source []) ds (mkChanges no_fragments [] Normal [] [])))).
  { rewrite E2 in C1. exact C1. }
  destruct (differences_unblocked upper_char context source ds _ C2) as (F & risk & E1).
  rewrite E1 in H2. cbn [ch_publicly_changed app] in H2.
  split; [exact F|]. split; [exact G1|]. split; [exact H2|].
  rewrite E2, E1 in H |- *. cbn [ch_publicly_changed ch_plan ch_add ch_add_risk ch_alter pf_operations app].
  fold add_statements alter_entries modify_statements.
  set (adds := if is_empty add_statements then [] else [mkPending AddColumnPhase (ts_name source) AddColumn
    (u "新增表 " ++ ts_name source ++ u " 的 " ++ show_Z (zlen add_statements) ++ u " 个字段") risk (rendered add_statements)]).
  set (plan := if is_empty add_statements then _ else _).
  assert (Ep : pf_operations plan = map (drop_operation context source) (omap dropped ds) ++ adds).
  { unfold plan, adds. destruct (is_empty add_statements); [by rewrite app_nil_r|done]. }
  assert (Ca : carries AddColumnPhase add_statements adds).
  { unfold adds. destruct add_statements; [apply carries_nil|apply carries_operation]. }
  assert (Hb : (negb (is_empty kt) && negb (cx_include_drops context)) = false \/ ks = kt).
  { destruct (decide (ks = kt)) as [E|N]; [by right|left]. rewrite bool_decide_eq_false_2 in H by done.
    destruct (_ && _); [|done]. by destruct H as [Q%block_not_nil _]. }
  clear H. pose proof (eq_refl : key_statements ks kt = key_statements ks kt) as Q. unfold key_statements in Q at 2.
  destruct (bool_decide (ks = kt)) eqn:Ek.
  - destruct (is_empty modify_statements) eqn:Em.
    + exists ks, kt, adds, []. split; [done|]. split; [done|]. split; [done|]. rewrite app_nil_r, Ep, Q. split; [|done].
      destruct modify_statements; [apply carries_nil|done].
    + exists ks, kt, adds. eexists. split; [done|]. split; [done|]. split; [done|]. rewrite Q. split; [apply carries_operation|].
      unfold operation. cbn [pf_operations]. rewrite Ep, <- (assoc app). done.
  - destruct Hb as [Hb|Hb]; [|apply bool_decide_eq_false in Ek; by destruct Ek]. rewrite Hb.
    exists ks, kt, adds. eexists. split; [done|]. split; [done|]. split; [done|]. rewrite Q. split; [apply carries_operation|].
    unfold operation. cbn [pf_operations]. rewrite Ep, <- (assoc app). done.
Qed.
End Plan.

(** ** Looking up columns *)

Lemma find_column_attributes s n : find_column s n = (fun c => (n, c)) <$> ColumnOrder.attributes (ts_columns s) n.
Proof.
  unfold find_column. induction (ts_columns s) as [|[k c] l IH]; cbn; [done|].
  destruct (str_eqb k n) eqn:E.
  - apply str_eqb_eq in E as ->. by rewrite decide_True.
  - apply str_eqb_neq in E. by rewrite decide_False by congruence.
Qed.

Lemma position_index n (P R : list str) : n ∉ P -> Prelude.position (str_eqb n) (P ++ n :: R) = Some (length P).
Proof.
  induction P as [|x P IH]; cbn; [by rewrite str_eqb_refl|]. intros [N1 N2]%not_elem_of_cons.
  apply str_eqb_neq in N1. rewrite N1, IH by done. done.
Qed.

Lemma source_position_spec source n P R : NoDup (names_of source) -> names_of source = P ++ n :: R ->
  source_position source n = predecessor P.
Proof.
  intros N E. unfold source_position. unfold names_of in *. rewrite E in *.
  apply NoDup_app in N as (_ & N & _).
  rewrite position_index by (intros H; apply (N n H); left). unfold predecessor.
  destruct P as [|x P] using rev_ind; [done|]. rewrite last_snoc, length_app. cbn [length]. rewrite Nat.add_1_r.
  rewrite lookup_app_l by (rewrite length_app; cbn; lia). by rewrite list_lookup_middle.
Qed.

Section Actions.
Context (described : str -> Attributes) (source : TableSnapshot).
Context (names_distinct : NoDup (names_of source)).

(** A column with its definition, moved or not. *)
Definition apply_action (l : list (str * Attributes)) (e : str * (str * bool)) : list (str * Attributes) :=
  modify e.1 (described e.2.1) (if e.2.2 then source_position source e.1 else Stay) l.
Definition with_name (acts : str -> option (str * bool)) (n : str) : option (str * (str * bool)) := (fun a => (n, a)) <$> acts n.
Definition describe (acts : str -> option (str * bool)) (n : str) : option (Attributes * bool) :=
  (fun a => (described a.1, a.2)) <$> acts n.

Lemma walk_actions acts P S l : names_of source = P ++ S ->
  fold_left apply_action (omap (with_name acts) S) l = walk P S (describe acts) l.
Proof.
  revert P l. induction S as [|s S IH]; intros P l E; [done|]. rewrite omap_first. cbn [walk].
  assert (D : describe acts s = (fun a => (described a.1, a.2)) <$> acts s) by done. rewrite D.
  unfold with_name at 1. destruct (acts s) as [[d mv]|] eqn:A; cbn [fmap option_fmap option_map fold_left fst snd].
  - rewrite (IH (P ++ [s])) by (by rewrite <- (assoc app)). unfold apply_action. cbn [fst snd].
    rewrite (source_position_spec source s P S names_distinct E). done.
  - rewrite (IH (P ++ [s])) by (by rewrite <- (assoc app)). done.
Qed.

Lemma apply_action_attributes e l n : (e.1 ∈ map fst l \/ (e.2.2 = true /\ e.1 ∈ names_of source)) ->
  ColumnOrder.attributes (apply_action l e) n = if decide (n = e.1) then Some (described e.2.1) else ColumnOrder.attributes l n.
Proof.
  intros [H|[H Hn]]; unfold apply_action; [by apply attributes_modify|]. rewrite H.
  apply list_elem_of_split in Hn as (P & R & E). rewrite (source_position_spec source e.1 P R) by done.
  assert (Q : modify e.1 (described e.2.1) (predecessor P) l = place (e.1, described e.2.1) (predecessor P) (without e.1 l)).
  { unfold predecessor. by destruct (last P). }
  rewrite Q, attributes_place by apply without_names. rewrite attributes_without. cbn. by case_decide.
Qed.

(** Each column gets the definition of its action; the others stay. *)
Lemma actions_attributes L l : NoDup (map fst L) -> named l ->
  (forall e, e ∈ L -> e.1 ∈ map fst l \/ (e.2.2 = true /\ e.1 ∈ names_of source)) ->
  named (fold_left apply_action L l) /\
  (forall e, e ∈ L -> ColumnOrder.attributes (fold_left apply_action L l) e.1 = Some (described e.2.1)) /\
  (forall n, n ∉ map fst L -> ColumnOrder.attributes (fold_left apply_action L l) n = ColumnOrder.attributes l n).
Proof.
  revert l. induction L as [|e L IH]; intros l N Nl H; cbn [fold_left map].
  { split; [done|]. split; [by intros e He%elem_of_nil|done]. }
  cbn [map] in N. apply NoDup_cons in N as [Ne N].
  pose proof (fun n => apply_action_attributes e l n (H e ltac:(left))) as A.
  destruct (IH (apply_action l e)) as (H1 & H2 & H3).
  - done.
  - by apply modify_named.
  - intros e' He'. destruct (H e') as [Hin|Hm]; [by right|left|by right].
    destruct (decide (e'.1 ∈ map fst (apply_action l e))) as [?|Nn]; [done|exfalso].
    apply attributes_none in Nn. rewrite A in Nn. case_decide; [done|]. by apply attributes_none in Nn.
  - split; [done|]. split.
    + intros e' [->|He']%elem_of_cons; [|by apply H2]. rewrite H3 by done. rewrite A. by rewrite decide_True.
    + intros n [N1 N2]%not_elem_of_cons. rewrite H3, A by done. by rewrite decide_False.
Qed.

(** The statements of actions: ADD for a new column, MODIFY for one that exists. *)
Definition modify_statement (e : str * (str * bool)) : Statement :=
  ModifyColumnStatement e.1 e.2.1 (if e.2.2 then source_position source e.1 else Stay).
Definition add_column_statement (e : str * (str * bool)) : Statement :=
  AddColumnStatement e.1 e.2.1 (source_position source e.1).

Lemma modify_effect L t : fold_left (fun t s => alter described s t) (map modify_statement L) t =
  mkTable (fold_left apply_action L (tb_columns t)) (tb_key t).
Proof. revert t. induction L as [|e L IH]; intros [c k]; [done|]. cbn [map fold_left]. by rewrite IH. Qed.

Lemma add_effect L t : NoDup (map fst L) -> (forall e, e ∈ L -> e.2.2 = true /\ e.1 ∈ names_of source /\ e.1 ∉ map fst (tb_columns t)) ->
  fold_left (fun t s => alter described s t) (map add_column_statement L) t =
    mkTable (fold_left apply_action L (tb_columns t)) (tb_key t).
Proof.
  revert t. induction L as [|e L IH]; intros [c k] N H; [done|]. cbn [map fold_left tb_columns tb_key] in *.
  apply NoDup_cons in N as [Ne N]. destruct (H e) as (Hm & Hn & Ha); [left|].
  assert (E : place (e.1, described e.2.1) (source_position source e.1) c = apply_action c e).
  { unfold apply_action. rewrite Hm. apply list_elem_of_split in Hn as (P & R & En).
    rewrite (source_position_spec source e.1 P R) by done. unfold predecessor.
    destruct (last P); cbn [modify]; by rewrite without_absent. }
  cbn [alter add_column_statement tb_columns tb_key]. rewrite E. rewrite IH; [done..|].
  intros e' He'. destruct (H e') as (Hm' & Hn' & Ha'); [by right|]. split; [done|]. split; [done|]. cbn [tb_columns].
  apply attributes_none. rewrite apply_action_attributes by (by right). apply attributes_none in Ha'. rewrite Ha'.
  rewrite decide_False; [done|]. intros Eq. destruct Ne. rewrite <- Eq. by apply (list_elem_of_fmap_2 fst).
Qed.
End Actions.

Section PlanActions.
Context (upper_char : char -> str) (context : TablePlanContext) (source target : TableSnapshot).
Context (source_names : NoDup (map fst (ts_columns source))) (target_names : NoDup (map fst (ts_columns target))).
Abbreviation ds := (compare_table_columns source target).
Abbreviation in_source := (ColumnOrder.attributes (ts_columns source)).
Abbreviation in_target := (ColumnOrder.attributes (ts_columns target)).
Abbreviation definition_of := (definition_of upper_char context source).

#[local] Abbreviation difference_elem := (difference_elem source target source_names target_names).
#[local] Abbreviation difference_names := (difference_names source target).
Definition add_action (n : str) : option (str * bool) :=
  match in_source n, in_target n with Some c, None => Some (definition_of n c, true) | _, _ => None end.
Definition alter_action (n : str) : option (str * bool) :=
  match in_source n, in_target n with
  | Some c, Some c' =>
    if is_empty (changed_fields c c')
    then (if bool_decide (n ∈ generation_changes context source target) then Some (definition_of n c, false) else None)
    else Some (definition_of n c, existsb (fun field => str_eqb field (u "ordinal_position")) (changed_fields c c'))
  | _, _ => None
  end.

Lemma changed_names n : n ∈ omap changed_name ds <-> exists c c', in_source n = Some c /\ in_target n = Some c' /\ changed_fields c c' <> [].
Proof.
  rewrite list_elem_of_omap. unfold changed_name. split.
  - intros (d & Hd & E). apply difference_elem in Hd as (Es & Et & H).
    destruct (cd_status d) eqn:S; [done..|]. injection E as <-. destruct (cd_source d) as [a|], (cd_target d) as [b|]; [|by destruct H..].
    exists a, b. by destruct H as (_ & ? & _).
  - intros (c & c' & Es & Et & N). exists (mkColumnDiff n Changed (changed_fields c c') (Some c) (Some c')).
    split; [|done]. apply difference_elem. cbn. by rewrite Es, Et.
Qed.

Lemma omap_actions {X : Type} (acts : str -> option (str * bool)) (stmt : str * (str * bool) -> X) (cols : list (str * ColumnSnapshot)) :
  omap (fun c => stmt <$> with_name acts c.1) cols = map stmt (omap (with_name acts) (map fst cols)).
Proof.
  induction cols as [|c cols IH]; [done|]. cbn [map]. rewrite !omap_first.
  destruct (with_name acts c.1); cbn [fmap option_fmap option_map map]; by rewrite IH.
Qed.

Lemma add_statements_actions :
  add_statements upper_char context source target = map (add_column_statement source) (omap (with_name add_action) (names_of source)).
Proof.
  set (f := fun d : ColumnDiff => c ← cd_source d; (fun s => (ordinal_position c, cd_name d, s)) <$> add_statement upper_char context source d).
  assert (A : add_statements upper_char context source target = map snd (omap f ds)).
  { unfold add_statements. assert (W : forall d s, add_statement upper_char context source d = Some s -> exists c, cd_source d = Some c).
    { intros d s. unfold add_statement. destruct (cd_status d), (cd_source d); try done. by eexists. }
    generalize ds as l. induction l as [|d l IH]; [done|]. rewrite !omap_first. unfold f at 1.
    destruct (add_statement upper_char context source d) as [s|] eqn:E.
    - destruct (W d s E) as [c Ec]. rewrite Ec. cbn [mbind option_bind fmap option_fmap option_map map snd]. by rewrite IH.
    - destruct (cd_source d); cbn [mbind option_bind fmap option_fmap option_map]; exact IH. }
  assert (F : forall d e, f d = Some e <-> exists c, cd_status d = SourceOnly /\ cd_source d = Some c /\
    e = (ordinal_position c, cd_name d, AddColumnStatement (cd_name d) (definition_of (cd_name d) c) (source_position source (cd_name d)))).
  { intros d e. unfold f, add_statement. destruct (cd_source d) as [c|]; cbn; [|split; [done|by intros (? & _ & [=] & _)]].
    destruct (cd_status d); cbn;
      first [split; [intros [= <-]; by exists c|by intros (? & ? & [= <-] & ->)]|split; [done|by intros (? & [=] & _)]]. }
  rewrite A. unfold names_of. rewrite <- (omap_actions add_action (add_column_statement source) (in_order source)), <- map_snd_entries.
  f_equal. apply (sorted_entries (ts_columns source) (fun c => add_column_statement source <$> with_name add_action c.1)); [done|..].
  - apply omap_NoDup; [|eapply NoDup_fmap_1, difference_names].
    intros d d' e (c & _ & _ & ->)%F (c' & _ & _ & [= _ E _ _ _])%F I1 I2. by apply (NoDup_map_inj cd_name ds); [apply difference_names|..].
  - eapply (omap_sorted (cmp_le (cmp_then (cmp_on column_position Z.compare) (cmp_on cd_name str_cmp)))); [|apply sort_by_sorted; apply _].
    intros d d' e e' I I' R (c & S & Es & ->)%F (c' & S' & Es' & ->)%F. unfold cmp_le, cmp_on, entry_key, by_key, cmp_then in *.
    assert (P : forall x cx, x ∈ ds -> cd_status x = SourceOnly -> cd_source x = Some cx -> column_position x = ordinal_position cx).
    { intros x cx Hx Sx Ex. apply difference_elem in Hx as (_ & _ & Hx). unfold column_position. rewrite Ex in *.
      destruct (cd_target x); [|done]. destruct Hx as [Hx _]. congruence. }
    rewrite (P d c), (P d' c') in R by done. exact R.
  - intros e. rewrite list_elem_of_omap. split.
    + intros (d & Hd & (c & S & Es & ->)%F). pose proof Hd as Hd'. apply difference_elem in Hd' as (E1 & E2 & H). rewrite Es in *.
      destruct (cd_target d) as [c'|]; [destruct H as [H _]; congruence|].
      exists (cd_name d, c). split; [by apply attributes_elem|]. unfold with_name, add_action. cbn [fst snd]. by rewrite <- E1, <- E2.
    + intros ([n c] & Hc & E). cbn [fst snd] in E. apply attributes_elem in Hc; [|done]. unfold with_name, add_action in E. rewrite Hc in E.
      destruct (in_target n) as [c'|] eqn:Et; [done|]. injection E as <-.
      exists (mkColumnDiff n SourceOnly [] (Some c) None). split; [apply difference_elem; cbn; by rewrite Hc, Et|].
      apply F. exists c. split; [done|]. by split.
Qed.

Lemma alter_entry_elem d e : alter_statement upper_char context source d = Some e <->
  exists c, cd_status d = Changed /\ cd_source d = Some c /\
    e = alter_entry c (cd_name d) (definition_of (cd_name d) c) (if moves d then source_position source (cd_name d) else Stay).
Proof.
  unfold alter_statement. destruct (cd_status d); [split; [done|by intros (? & [=] & _)]..|].
  destruct (cd_source d) as [c|]; [|split; [done|by intros (? & _ & [=] & _)]].
  split; [intros [= <-]; by exists c|by intros (? & _ & [= <-] & ->)].
Qed.

Lemma generation_entry_elem n e : generation_entry upper_char context source (omap changed_name ds) n = Some e <->
  (n ∉ omap changed_name ds) /\ exists c, in_source n = Some c /\ e = alter_entry c n (definition_of n c) Stay.
Proof.
  unfold generation_entry. destruct (bool_decide (n ∈ omap changed_name ds)) eqn:B.
  - apply bool_decide_eq_true in B. split; [done|]. by intros [? _].
  - apply bool_decide_eq_false in B. rewrite find_column_attributes. destruct (in_source n) as [c|]; cbn.
    + split; [intros [= <-]; split; [done|]; by exists c|by intros (_ & ? & [= <-] & ->)].
    + split; [done|]. by intros (_ & ? & [=] & _).
Qed.

Lemma generation_changes_elem n : n ∈ generation_changes context source target ->
  exists c c', in_source n = Some c /\ in_target n = Some c'.
Proof.
  unfold generation_changes, ordered_set. rewrite sort_by_elem, elem_of_remove_dups, list_elem_of_fmap.
  intros ([m c] & -> & [H B]%list_elem_of_In%filter_In). apply bool_decide_eq_true in B. apply list_elem_of_In in H.
  cbn [fst]. apply attributes_elem in H; [|done]. exists c. unfold generation_differs in B. cbn [fst snd] in B.
  rewrite find_column_attributes in B. destruct (in_target m) as [c'|]; [by exists c'|done].
Qed.
Lemma generation_changes_nodup : NoDup (generation_changes context source target).
Proof. unfold generation_changes, ordered_set. rewrite sort_by_perm. apply NoDup_remove_dups. Qed.

Lemma alter_entries_elem e : e ∈ alter_entries upper_char context source target <->
  exists c, c ∈ ts_columns source /\
    (fun x => (ordinal_position c.2, c.1, x)) <$> (modify_statement source <$> with_name alter_action c.1) = Some e.
Proof.
  unfold alter_entries. rewrite elem_of_app, !list_elem_of_omap. split.
  - intros [(d & Hd & (c & S & Es & ->)%alter_entry_elem)|(n & Hn & (Np & c & Es & ->)%generation_entry_elem)].
    + apply difference_elem in Hd as (E1 & E2 & H). rewrite Es in *. destruct (cd_target d) as [c'|]; [|destruct H; congruence].
      destruct H as (_ & N & Ef). exists (cd_name d, c). split; [by apply attributes_elem|].
      unfold with_name, alter_action. cbn [fst snd]. rewrite <- E1, <- E2. unfold moves, alter_entry. rewrite Ef.
      destruct (is_empty (changed_fields c c')) eqn:Q; [by destruct (changed_fields c c')|]. done.
    + destruct (generation_changes_elem n Hn) as (? & c' & Es' & Et). assert (x = c) as -> by congruence.
      exists (n, c). split; [by apply attributes_elem|]. unfold with_name, alter_action. cbn [fst snd]. rewrite Es, Et.
      rewrite changed_names in Np. destruct (changed_fields c c') eqn:Q; [|destruct Np; exists c, c'; rewrite Q; done].
      cbn [is_empty]. by rewrite bool_decide_eq_true_2.
  - intros ([n c] & Hc & E). cbn [fst snd] in E. apply attributes_elem in Hc; [|done].
    unfold with_name, alter_action in E. rewrite Hc in E. destruct (in_target n) as [c'|] eqn:Et; [|done].
    destruct (is_empty (changed_fields c c')) eqn:Q.
    + destruct (bool_decide _) eqn:B; [|done]. apply bool_decide_eq_true in B. injection E as <-. right. exists n. split; [done|].
      apply generation_entry_elem. split; [|by exists c].
      rewrite changed_names. intros (? & ? & E1 & E2 & N). rewrite Hc in E1. rewrite Et in E2. injection E1 as <-. injection E2 as <-.
      by destruct (changed_fields c c').
    + injection E as <-. left. exists (mkColumnDiff n Changed (changed_fields c c') (Some c) (Some c')). split.
      * apply difference_elem. cbn. rewrite Hc, Et. split; [done|]. split; [done|]. split; [done|]. split; [|done]. intros F. by rewrite F in Q.
      * apply alter_entry_elem. by exists c.
Qed.

Lemma alter_entries_nodup : NoDup (alter_entries upper_char context source target).
Proof.
  unfold alter_entries. apply NoDup_app. split; [|split].
  - apply omap_NoDup; [|eapply NoDup_fmap_1, difference_names].
    intros d d' e (c & _ & _ & ->)%alter_entry_elem (c' & _ & _ & [= _ E _ _])%alter_entry_elem I1 I2.
    by apply (NoDup_map_inj cd_name ds); [apply difference_names|..].
  - intros e (d & Hd & (c & S & Es & ->)%alter_entry_elem)%list_elem_of_omap (n & _ & (Np & c' & _ & [= _ E _ _])%generation_entry_elem)%list_elem_of_omap.
    destruct Np. rewrite <- E. apply list_elem_of_omap. exists d. split; [done|]. unfold changed_name. by rewrite S.
  - apply omap_NoDup; [|apply generation_changes_nodup].
    intros n m e (_ & c & _ & ->)%generation_entry_elem (_ & c' & _ & [= _ E _ _])%generation_entry_elem _ _. done.
Qed.

Lemma modify_statements_actions :
  modify_statements upper_char context source target = map (modify_statement source) (omap (with_name alter_action) (names_of source)).
Proof.
  unfold modify_statements, names_of.
  rewrite <- (omap_actions alter_action (modify_statement source) (in_order source)), <- map_snd_entries. f_equal.
  apply (sorted_entries (ts_columns source) (fun c => modify_statement source <$> with_name alter_action c.1)); [done|..].
  - rewrite sort_by_perm. apply alter_entries_nodup.
  - change (StronglySorted (cmp_le (cmp_on entry_key by_key))
      (sort_by (cmp_on entry_key by_key) (alter_entries upper_char context source target))). apply sort_by_sorted, _.
  - intros e. rewrite sort_by_elem. apply alter_entries_elem.
Qed.

(** ** The columns after the plan *)

Context (described : str -> Attributes).
Context (differences_settled : Forall (settled upper_char context source) ds).
Context (generations_compared : forall c, c ∈ ts_columns source -> exists b, generation_differs context source target c = Ok b).
Context (generations_defined : forall n c, n ∈ generation_changes context source target -> n ∉ omap changed_name ds ->
  find_column source n = Some c -> c.1 = n /\ defined upper_char context source n c.2).
Context (understood : forall n c, (n, c) ∈ ts_columns source -> defined upper_char context source n c ->
  attributes_equiv (described (definition_of n c)) (attributes_of (cx_source_metadata context) n c)).

Lemma add_understood n a c : add_action n = Some a -> in_source n = Some c ->
  attributes_equiv (described a.1) (attributes_of (cx_source_metadata context) n c).
Proof.
  unfold add_action. intros A Es. rewrite Es in A. destruct (in_target n) eqn:Et; [done|]. injection A as <-. cbn [fst].
  apply understood; [by apply attributes_elem|]. rewrite list.Forall_forall in differences_settled.
  apply (differences_settled (mkColumnDiff n SourceOnly [] (Some c) None)). apply difference_elem. cbn. by rewrite Es, Et.
Qed.

Lemma alter_understood n a c : alter_action n = Some a -> in_source n = Some c ->
  attributes_equiv (described a.1) (attributes_of (cx_source_metadata context) n c).
Proof.
  unfold alter_action. intros A Es. rewrite Es in A. destruct (in_target n) as [c'|] eqn:Et; [|done].
  assert (D : defined upper_char context source n c).
  { destruct (is_empty (changed_fields c c')) eqn:Q.
    - destruct (bool_decide _) eqn:B; [|done]. apply bool_decide_eq_true in B.
      apply (generations_defined n (n, c) B); [|by rewrite find_column_attributes, Es].
      rewrite changed_names. intros (? & ? & E1 & E2 & N). rewrite Es in E1. rewrite Et in E2. injection E1 as <-. injection E2 as <-.
      by destruct (changed_fields c c').
    - rewrite list.Forall_forall in differences_settled.
      apply (differences_settled (mkColumnDiff n Changed (changed_fields c c') (Some c) (Some c'))). apply difference_elem. cbn.
      rewrite Es, Et. split; [done|]. split; [done|]. split; [done|]. split; [|done]. intros F. by rewrite F in Q. }
  assert (E : a.1 = definition_of n c).
  { destruct (is_empty _); [destruct (bool_decide _); [|done]|]; by injection A as <-. }
  rewrite E. apply understood; [by apply attributes_elem|done].
Qed.

(** A column with no difference in its fields and its generation means the same. *)
Lemma unchanged_attributes n c c' : in_source n = Some c -> in_target n = Some c' -> changed_fields c c' = [] ->
  n ∉ generation_changes context source target ->
  attributes_equiv (attributes_of (cx_target_metadata context) n c') (attributes_of (cx_source_metadata context) n c).
Proof.
  intros Es Et E N. apply changed_fields_nil in E as [E1 E2 E3 E4 E5 E6 E7].
  assert (Hc : (n, c) ∈ ts_columns source) by by apply attributes_elem.
  destruct (generations_compared _ Hc) as [b B].
  assert (b = false) as ->.
  { destruct b; [|done]. destruct N. unfold generation_changes, ordered_set. rewrite sort_by_elem, elem_of_remove_dups.
    apply list_elem_of_fmap. exists (n, c). split; [done|]. apply list_elem_of_In, filter_In. split; [by apply list_elem_of_In|].
    by apply bool_decide_eq_true. }
  split; cbn; [by symmetry..|].
  unfold generation_differs in B. cbn [fst snd] in B. rewrite find_column_attributes, Et in B. cbn [fmap option_fmap option_map] in B.
  unfold mysql_generation_expression in B. rewrite <- E6 in *. unfold expression_of.
  destruct (generated_storage (extra c)) as [[st|]|e]; cbn in B; [|done..].
  destruct (t ← mysql_meta (cx_source_metadata context); mysql_column t n) as [[e1 o1]|]; cbn in B; [|done].
  destruct (blank e1); cbn in B; [done|].
  destruct (t ← mysql_meta (cx_target_metadata context); mysql_column t n) as [[e2 o2]|]; cbn in B; [|done].
  destruct (blank e2); cbn in B; [done|]. injection B as B. apply negb_false_iff, bool_decide_eq_true in B. congruence.
Qed.

Definition after_adds (l : list (str * Attributes)) : list (str * Attributes) :=
  fold_left (apply_action described source) (omap (with_name add_action) (names_of source)) l.
Definition after_alters (l : list (str * Attributes)) : list (str * Attributes) :=
  fold_left (apply_action described source) (omap (with_name alter_action) (names_of source)) l.

Lemma with_name_some acts n e : with_name acts n = Some e -> e.1 = n /\ acts n = Some e.2.
Proof. unfold with_name. destruct (acts n); [|done]. by intros [= <-]. Qed.
Lemma actions_names acts l : NoDup l -> NoDup (map fst (omap (with_name acts) l)).
Proof.
  intros N. induction N as [|n l Nn N IH]; [constructor|]. rewrite omap_first. destruct (with_name acts n) as [e|] eqn:E; [|done].
  cbn [map]. constructor; [|done]. apply with_name_some in E as [-> _].
  intros (e' & -> & (m & Hm & E')%list_elem_of_omap)%list_elem_of_fmap. apply with_name_some in E' as [E' _]. by rewrite E' in Nn.
Qed.
Lemma source_names_of : NoDup (names_of source).
Proof. by rewrite names_of_perm. Qed.

(** What the table has to hold when the plan starts. *)
Context (t : Table) (target_represented : represents (Some target) (cx_target_metadata context) (Some t)).

Lemma target_columns n : match in_target n, ColumnOrder.attributes (tb_columns t) n with
  | None, None => True
  | Some c, Some a => attributes_equiv a (attributes_of (cx_target_metadata context) n c)
  | _, _ => False
  end.
Proof. apply target_represented. Qed.

Lemma columns_after : 
  named (after_adds (tb_columns t)) /\ named (after_alters (after_adds (tb_columns t))) /\
  forall n, match in_source n with
    | Some c => exists a, ColumnOrder.attributes (after_alters (after_adds (tb_columns t))) n = Some a /\
        attributes_equiv a (attributes_of (cx_source_metadata context) n c)
    | None => ColumnOrder.attributes (after_alters (after_adds (tb_columns t))) n = ColumnOrder.attributes (tb_columns t) n
    end.
Proof.
  pose proof source_names_of as Ns.
  assert (M : forall acts e, e ∈ omap (with_name acts) (names_of source) <-> e.1 ∈ names_of source /\ acts e.1 = Some e.2).
  { intros acts e. rewrite list_elem_of_omap. split.
    - intros (n & Hn & E). by apply with_name_some in E as [-> ?].
    - intros [Hn E]. exists e.1. split; [done|]. unfold with_name. rewrite E. by destruct e. }
  assert (K : forall acts n, acts n = None -> n ∉ map fst (omap (with_name acts) (names_of source))).
  { intros acts n E (e & -> & H)%list_elem_of_fmap. apply M in H as [_ H]. congruence. }
  destruct (actions_attributes described source Ns (omap (with_name add_action) (names_of source)) (tb_columns t)) as (A1 & A2 & A3).
  { by apply actions_names. } { apply target_represented. }
  { intros e [Hn E]%M. right. split; [|done]. unfold add_action in E. destruct (in_source e.1), (in_target e.1); try done. injection E as E. by rewrite <- E. }
  destruct (actions_attributes described source Ns (omap (with_name alter_action) (names_of source)) (after_adds (tb_columns t))) as (B1 & B2 & B3).
  { by apply actions_names. } { done. }
  { intros e [Hn E]%M. left. destruct (decide (e.1 ∈ map fst (after_adds (tb_columns t)))) as [?|N]; [done|exfalso].
    apply attributes_none in N. unfold alter_action in E. destruct (in_source e.1) as [c|] eqn:Es; [|done].
    destruct (in_target e.1) as [c'|] eqn:Et; [|done]. unfold after_adds in N. rewrite A3 in N.
    - pose proof (target_columns e.1) as Q. by rewrite Et, N in Q.
    - apply K. unfold add_action. by rewrite Es, Et. }
  split; [exact A1|]. split; [exact B1|]. intros n. destruct (in_source n) as [c|] eqn:Es.
  - assert (Hn : n ∈ names_of source) by (apply names_of_elem; by rewrite Es).
    destruct (in_target n) as [c'|] eqn:Et.
    + assert (Ea : add_action n = None) by (unfold add_action; by rewrite Es, Et).
      destruct (alter_action n) as [a|] eqn:E.
      * exists (described a.1). split; [apply (B2 (n, a)); by apply M|by apply alter_understood].
      * unfold after_alters. rewrite B3 by by apply K. unfold after_adds. rewrite A3 by by apply K.
        pose proof (target_columns n) as Q. rewrite Et in Q. destruct (ColumnOrder.attributes (tb_columns t) n) as [a|]; [|done].
        exists a. split; [done|]. etransitivity; [exact Q|].
        unfold alter_action in E. rewrite Es, Et in E. destruct (is_empty (changed_fields c c')) eqn:F; [|done].
        destruct (bool_decide _) eqn:G; [done|]. apply bool_decide_eq_false in G.
        apply unchanged_attributes; [done..| |done]. by destruct (changed_fields c c').
    + assert (E : alter_action n = None) by (unfold alter_action; by rewrite Es, Et).
      assert (Ea : add_action n = Some (definition_of n c, true)) by (unfold add_action; by rewrite Es, Et).
      exists (described (definition_of n c)). unfold after_alters. rewrite B3 by by apply K. split.
      * apply (A2 (n, (definition_of n c, true))). by apply M.
      * apply (add_understood n (definition_of n c, true) c Ea Es).
  - unfold after_alters. rewrite B3 by (apply K; unfold alter_action; by rewrite Es).
    unfold after_adds. apply A3. apply K. unfold add_action. by rewrite Es.
Qed.

(** ** The order after the plan *)

Lemma moved_describe acts n : moved (describe described acts) n = match acts n with Some (_, true) => true | _ => false end.
Proof. unfold moved, describe. by destruct (acts n) as [[d []]|]. Qed.

Lemma walk_ordered acts l : named l ->
  List.filter (fun s => negb (moved (describe described acts) s)) (names_of source) `sublist_of` map fst l ->
  names_of source `sublist_of` map fst (fold_left (apply_action described source) (omap (with_name acts) (names_of source)) l).
Proof.
  intros N H. rewrite (walk_actions described source source_names_of acts [] (names_of source)) by done.
  apply (walk_spec (names_of source) (describe described acts) []); [done|apply source_names_of|exact H].
Qed.

(** The columns that stay have the same place on both sides. *)
Lemma staying_sublist : (forall n, n ∈ names_of source -> n ∈ names_of target) ->
  List.filter (fun s => negb (moved (describe described alter_action) s)) (names_of source) `sublist_of` names_of target.
Proof.
  intros Sub. set (U := List.filter _ _).
  assert (K : forall n, n ∈ U -> n ∈ names_of source /\ n ∈ names_of target /\ key_of source n = key_of target n).
  { intros n [Hn Hm]%list_elem_of_In%filter_In. apply list_elem_of_In in Hn. split; [done|]. split; [by apply Sub|].
    apply negb_true_iff in Hm. rewrite moved_describe in Hm. unfold alter_action in Hm. unfold key_of.
    pose proof (Sub n Hn) as Ht. apply names_of_elem in Hn, Ht.
    destruct (in_source n) as [c|]; [|done]. destruct (in_target n) as [c'|]; [|done]. f_equal.
    destruct (is_empty (changed_fields c c')) eqn:F.
    - apply equiv_position, changed_fields_nil. by destruct (changed_fields c c').
    - apply dec_stable. intros Q. destruct (existsb _ (changed_fields c c')) eqn:X; [done|].
      rewrite existsb_false_iff in X. specialize (X (u "ordinal_position")).
      rewrite str_eqb_refl in X. discriminate X. by apply changed_fields_elem, position_changed. }
  assert (NU : NoDup U) by (unfold U; apply NoDup_ListNoDup, List.NoDup_filter, NoDup_ListNoDup, source_names_of).
  assert (E : U = filter (fun n => n ∈ U) (names_of target)); [|rewrite E; apply sublist_filter].
  apply (sorted_on_unique (key_of target) by_key).
  - apply (NoDup_fmap_2_strong (key_of target)); [|done]. intros x y _ _ [= _ ?]. done.
  - assert (S : StronglySorted (cmp_le (cmp_on (key_of source) by_key)) U).
    { unfold U. rewrite (filter_prop _ (fun s => negb (moved (describe described alter_action) s) = true)) by done.
      apply sorted_filter, names_sorted, source_names. }
    clearbody U. clear NU. induction S as [|x l S IH H]; [constructor|]. constructor; [apply IH; intros; apply K; by right|].
    apply list.Forall_forall. intros y Hy. rewrite list.Forall_forall in H. specialize (H y Hy). unfold cmp_le, cmp_on in *.
    destruct (K x) as (_ & _ & <-); [left|]. destruct (K y) as (_ & _ & <-); [by right|]. done.
  - apply sorted_filter, names_sorted, target_names.
  - apply NoDup_Permutation; [done|apply NoDup_filter; rewrite names_of_perm; done|].
    intros n. rewrite list_elem_of_filter. split; [|by intros [? _]]. intros Hn. split; [done|]. by apply K.
Qed.

Lemma order_after : order_kept source target -> ordered_as (Some target) (Some t) ->
  names_of source `sublist_of` map fst (after_alters (after_adds (tb_columns t))).
Proof.
  intros OK OT. cbn in OT. pose proof columns_after as (N1 & _ & _).
  apply walk_ordered; [exact N1|].
  assert (NA : List.filter (fun s => negb (moved (describe described add_action) s)) (names_of source) =
    filter (fun n => n ∈ names_of target) (names_of source)).
  { apply filter_prop. intros n Hn. rewrite moved_describe. unfold add_action. rewrite names_of_elem.
    apply names_of_elem in Hn. destruct (in_source n); [|done]. by destruct (in_target n). }
  destruct OK as [Sub|Same].
  - assert (EA : omap (with_name add_action) (names_of source) = []).
    { assert (forall n, n ∈ names_of source -> with_name add_action n = None) as HN.
      { intros n Hn. unfold with_name, add_action. pose proof (Sub n Hn) as Ht. apply names_of_elem in Ht, Hn.
        destruct (in_source n); [|done]. by destruct (in_target n). }
by apply omap_none. }
    unfold after_adds. rewrite EA. cbn [fold_left]. rewrite OT. by apply staying_sublist.
  - etransitivity; [|apply walk_ordered; [apply target_represented|]].
    + rewrite (filter_prop _ (fun s => negb (moved (describe described alter_action) s) = true)) by done. apply sublist_filter.
    + rewrite NA, Same, OT. apply sublist_filter.
Qed.

(** ** The whole plan of a table that exists on both sides *)

Abbreviation alters := (fold_left (fun t s => alter described s t)).

Lemma make_key_attributes ks l n :
  ColumnOrder.attributes (make_key ks l) n = (if decide (n ∈ ks) then not_null else fun a => a) <$> ColumnOrder.attributes l n.
Proof.
  unfold make_key. induction l as [|c l IH]; cbn [map ColumnOrder.attributes]; [by case_decide|].
  destruct (decide (c.1 ∈ ks)) as [H|H]; cbn [fst snd]; destruct (decide (n = c.1)) as [->|Ne]; try exact IH.
  - by rewrite decide_True.
  - by rewrite decide_False.
Qed.
Lemma make_key_names ks l : map fst (make_key ks l) = map fst l.
Proof. unfold make_key. rewrite map_map. apply map_ext. intros c. by case_decide. Qed.

Lemma drops_effect ns u :
  alters (map DropColumnStatement ns) u = mkTable (fold_left (fun l n => without n l) ns (tb_columns u)) (filter (fun m => m ∉ ns) (tb_key u)).
Proof.
  revert u. induction ns as [|n ns IH]; intros [c k]; cbn [map fold_left tb_columns tb_key].
  { f_equal. symmetry. apply filter_all. intros x _. apply not_elem_of_nil. }
  rewrite IH. cbn [alter tb_columns tb_key]. f_equal. rewrite list_filter_filter. apply list_filter_iff.
  intros x. rewrite not_elem_of_cons. tauto.
Qed.
Lemma drops_columns ns (l : list (str * Attributes)) : named l ->
  named (fold_left (fun l n => without n l) ns l) /\
  (forall n, ColumnOrder.attributes (fold_left (fun l n => without n l) ns l) n = if decide (n ∈ ns) then None else ColumnOrder.attributes l n) /\
  (forall k, k `sublist_of` map fst l -> (forall n, n ∈ ns -> n ∉ k) -> k `sublist_of` map fst (fold_left (fun l n => without n l) ns l)).
Proof.
  revert l. induction ns as [|m ns IH]; intros l N; cbn [fold_left].
  { split; [done|]. split; [intros n; by rewrite decide_False by apply not_elem_of_nil|done]. }
  destruct (IH (without m l) (without_named m l N)) as (H1 & H2 & H3). split; [done|]. split.
  - intros n. rewrite H2, attributes_without. destruct (decide (n = m)) as [->|Ne].
    + rewrite (decide_True (P := m ∈ m :: ns)) by left. by case_decide.
    + destruct (decide (n ∈ ns)); [rewrite decide_True by (by right)|rewrite decide_False by (by intros [?|?]%elem_of_cons)]; done.
  - intros k S F. apply H3; [|intros n Hn; apply F; by right]. apply without_sublist; [apply F; left|done].
Qed.

Lemma key_ordinals_names tn m names seen r : key_ordinals tn m names seen = Ok r -> map snd r = names.
Proof.
  revert seen r. induction names as [|n names IH]; intros seen r; cbn [key_ordinals]; [by intros [= <-]|].
  destruct (mysql_column m n) as [[e [o|]]|]; [|done..]. destruct (bool_decide _); [done|].
  destruct (key_ordinals tn m names (o :: seen)) as [rest|] eqn:E; [|done]. cbn. intros [= <-]. cbn. by rewrite (IH _ _ E).
Qed.
Lemma primary_key_elem s metadata ks n : mysql_primary_key_columns s metadata = Ok ks -> n ∈ ks -> n ∈ primary_key_columns s.
Proof.
  unfold mysql_primary_key_columns. destruct (_ <=? _)%nat; [by intros [= <-]|]. destruct (mysql_meta metadata) as [m|]; [|done].
  destruct (key_ordinals _ _ _ _) as [r|] eqn:E; [|done]. cbn. intros [= <-] H. apply key_ordinals_names in E. rewrite <- E.
  apply list_elem_of_fmap in H as (x & -> & Hx). rewrite sort_by_elem in Hx. by apply list_elem_of_fmap_2.
Qed.

Context (source_wf : wf_snapshot source).
Context (source_keys : list str) (source_keyed : mysql_primary_key_columns source (cx_source_metadata context) = Ok source_keys).

Lemma source_key_column n : n ∈ source_keys -> exists c, in_source n = Some c /\ nullable c = false.
Proof.
  intros H. apply (primary_key_elem _ _ _ _ source_keyed) in H. unfold primary_key_columns in H.
  apply list_elem_of_fmap in H as ([m c] & -> & [Hc Hp]%list_elem_of_In%filter_In). apply list_elem_of_In in Hc. cbn [fst].
  exists c. split; [by apply attributes_elem|]. by apply (ws_keys _ source_wf m).
Qed.

Lemma keys_effect : 
  let u := alters (key_statements upper_char context source target source_keys (tb_key t)) (mkTable (after_adds (tb_columns t)) (tb_key t)) in
  tb_key u = source_keys /\ map fst (tb_columns u) = map fst (after_alters (after_adds (tb_columns t))) /\
  forall n, match in_source n with
    | Some c => exists a, ColumnOrder.attributes (tb_columns u) n = Some a /\ attributes_equiv a (attributes_of (cx_source_metadata context) n c)
    | None => ColumnOrder.attributes (tb_columns u) n = ColumnOrder.attributes (tb_columns t) n
    end.
Proof.
  pose proof columns_after as (_ & _ & H). set (l := after_alters (after_adds (tb_columns t))) in *.
  assert (M : forall k, alters (modify_statements upper_char context source target) (mkTable (after_adds (tb_columns t)) k) = mkTable l k).
  { intros k. by rewrite modify_statements_actions, modify_effect. }
  cbv zeta. unfold key_statements. destruct (bool_decide (source_keys = tb_key t)) eqn:E.
  - apply bool_decide_eq_true in E. rewrite M. cbn. by rewrite E.
  - rewrite !fold_left_app.
    assert (D : alters (if is_empty (tb_key t) then [] else [DropPrimaryKeyStatement]) (mkTable (after_adds (tb_columns t)) (tb_key t)) =
      mkTable (after_adds (tb_columns t)) []).
    { destruct (tb_key t); done. }
    rewrite D, M. destruct (is_empty source_keys) eqn:Ek; cbn [fold_left alter tb_columns tb_key].
    { apply is_empty_nil in Ek. by rewrite Ek. }
    split; [done|]. split; [apply make_key_names|]. intros n. specialize (H n). rewrite make_key_attributes.
    destruct (in_source n) as [c|] eqn:Es.
    + destruct H as (a & -> & Ha). cbn. eexists. split; [reflexivity|]. destruct (decide (n ∈ source_keys)) as [Hn|Hn]; [|done].
      destruct (source_key_column n Hn) as (c' & Es' & Hc). assert (c' = c) as -> by congruence.
      destruct Ha. by split.
    + rewrite decide_False; [rewrite H; by destruct (ColumnOrder.attributes (tb_columns t) n)|].
      intros Hn. destruct (source_key_column n Hn) as (c & Es' & _). congruence.
Qed.

End PlanActions.

Abbreviation rank o := (phase_rank (po_phase o)).

Lemma effects_alters described l t : Forall (fun s => match s with CreateTableStatement _ _ _ _ | DropTableStatement => False | _ => True end) l ->
  fold_left (fun t s => effect described s t) l (Some t) = Some (fold_left (fun t s => alter described s t) l t).
Proof.
  intros F. revert t. induction F as [|s l Hs F IH]; intros t; [done|]. cbn [fold_left]. destruct s; try done; apply IH.
Qed.

Lemma definitions_clean upper_char context source cols plan defs :
  pf_blockers (fold_left (define_column upper_char context source) cols (plan, defs)).1 = [] ->
  fold_left (define_column upper_char context source) cols (plan, defs) =
    (plan, defs ++ map (fun c => (c.1, definition_of upper_char context source c.1 c.2)) cols) /\
  Forall (fun c => defined upper_char context source c.1 c.2) cols.
Proof.
  induction cols as [|c cols IH] using rev_ind; [intros _; cbn; by rewrite app_nil_r|].
  rewrite fold_left_app. cbn [fold_left]. unfold define_column at 1 3.
  destruct (source_column_definition upper_char context (ts_name source) c.1 c.2) as [d|e] eqn:E; cbn [fst snd]; [|by intros F%block_not_nil].
  assert (D : definition_of upper_char context source c.1 c.2 = d) by (unfold definition_of; by rewrite E).
  intros B. destruct (IH B) as [-> F]. split.
  - rewrite map_app, (assoc app). cbn. by rewrite D.
  - apply list.Forall_app. split; [done|]. constructor; [|constructor]. unfold defined. by rewrite D.
Qed.

(** ** Carrying out a plan *)

Definition table_name (context : TablePlanContext) : str :=
  match cx_source context, cx_target context with Some s, _ => ts_name s | None, Some t => ts_name t | None, None => [] end.
(** The server understands the definitions of the source's columns as they were meant. *)
Definition understands (upper_char : char -> str) (described : str -> Attributes) (context : TablePlanContext) : Prop :=
  forall s n c, cx_source context = Some s -> (n, c) ∈ ts_columns s -> defined upper_char context s n c ->
    attributes_equiv (described (definition_of upper_char context s n c)) (attributes_of (cx_source_metadata context) n c).
Definition order_reached (context : TablePlanContext) (t : option Table) : Prop :=
  match cx_source context, cx_target context with Some s, Some s' => order_kept s s' /\ ordered_as (Some s') t | _, _ => True end.

Lemma create_converges upper_char described context source : cx_source context = Some source -> wf_snapshot source ->
  understands upper_char described context -> clean (plan_create_table upper_char context source no_fragments) ->
  exists stmt, map po_sql (pf_operations (plan_create_table upper_char context source no_fragments)) =
      [[render (cx_target_database context) (ts_name source) stmt]] /\
    forall t, represents (Some source) (cx_source_metadata context) (effect described stmt t) /\ ordered_as (Some source) (effect described stmt t).
Proof.
  intros Es W U. unfold plan_create_table. destruct (mysql_meta (cx_source_metadata context)) as [m|] eqn:Em; [|by intros [F%block_not_nil _]].
  destruct (is_empty (ts_columns source)); [by intros [F%block_not_nil _]|].
  destruct (if is_empty (my_engine m) then _ else _) as [[]|e]; [|by intros [F%block_not_nil _]].
  pose proof (definitions_clean upper_char context source (in_order source) no_fragments []) as D.
  destruct (fold_left _ _ _) as [plan defs]. cbn [fst] in D.
  destruct (is_empty (pf_blockers plan)) eqn:B; cbn [negb]; [|by intros [F _]; rewrite F in B].
  apply is_empty_nil in B. destruct (D B) as [[= -> ->] F]. clear D B.
  destruct (mysql_primary_key_columns source (cx_source_metadata context)) as [ks|e] eqn:K; [|by intros [G%block_not_nil _]].
  intros _. cbn [app]. eexists. split; [reflexivity|]. intros t. cbn [effect].
  set (cols := map _ (map _ (in_order source))).
  assert (N : map fst cols = names_of source) by (unfold cols, names_of; by rewrite !map_map).
  assert (Nd : NoDup (names_of source)) by (rewrite names_of_perm; apply W).
  assert (A : forall n, ColumnOrder.attributes cols n =
    (fun c => described (definition_of upper_char context source n c)) <$> ColumnOrder.attributes (ts_columns source) n).
  { intros n. rewrite !attributes_said by (try apply W; by rewrite N). apply option_eq. intros a. rewrite said_elem by (by rewrite N).
    unfold cols. rewrite map_map, list_elem_of_fmap. rewrite fmap_Some. split.
    - intros ([m' c] & [= -> ->] & Hc). exists c. split; [|done]. rewrite said_elem by apply W. unfold in_order in Hc. by rewrite sort_by_elem in Hc.
    - intros (c & Hc & ->). rewrite said_elem in Hc by apply W. exists (n, c). split; [done|]. unfold in_order. by rewrite sort_by_elem. }
  split; [split; [|split; [|done]]|].
  - unfold named. cbn [tb_columns]. by rewrite make_key_names, N.
  - intros n. cbn [tb_columns]. rewrite make_key_attributes, A.
    destruct (ColumnOrder.attributes (ts_columns source) n) as [c|] eqn:Ec; [|done]. cbn.
    pose proof (attributes_elem _ n c (ws_names _ W)) as [Hc _]. specialize (Hc Ec).
    assert (Q : attributes_equiv (described (definition_of upper_char context source n c)) (attributes_of (cx_source_metadata context) n c)).
    { apply (U source); [done..|]. rewrite list.Forall_forall in F. apply (F (n, c)). unfold in_order. by rewrite sort_by_elem. }
    destruct (decide (n ∈ ks)) as [Hn|]; [|done].
    destruct (source_key_column context source (ws_names _ W) W ks K n Hn) as (c' & Ec' & Hnull). assert (c' = c) as -> by congruence.
    destruct Q. by split.
  - cbn. by rewrite make_key_names.
Qed.

Lemma drop_operations_sql context source ns :
  concat (map po_sql (map (drop_operation context source) ns)) =
    map (render (cx_target_database context) (ts_name source)) (map DropColumnStatement ns).
Proof. induction ns as [|n ns IH]; [done|]. cbn. by rewrite IH. Qed.

Lemma key_statements_alter upper_char context source target ks kt :
  Forall (fun s => match s with CreateTableStatement _ _ _ _ | DropTableStatement => False | _ => True end)
    (key_statements upper_char context source target ks kt).
Proof.
  assert (M : Forall (fun s => match s with CreateTableStatement _ _ _ _ | DropTableStatement => False | _ => True end)
    (modify_statements upper_char context source target)).
  { unfold modify_statements. apply list.Forall_forall. intros s ([k st] & -> & H)%list_elem_of_fmap. rewrite sort_by_elem in H. cbn [snd].
    unfold alter_entries in H. apply elem_of_app in H as [H|H]; apply list_elem_of_omap in H as (x & _ & E).
    - apply alter_entry_elem in E as (c & _ & _ & [= _ ->]). done.
    - unfold generation_entry in E. destruct (bool_decide _); [done|]. destruct (find_column source x); [|done]. by injection E as _ <-. }
  unfold key_statements. destruct (bool_decide _); [done|]. rewrite !list.Forall_app.
  split; [by destruct (is_empty kt); repeat constructor|]. split; [done|]. by destruct (is_empty ks); repeat constructor.
Qed.

Lemma changed_converges upper_char described context source target ops t :
  cx_source context = Some source -> cx_target context = Some target -> wf_snapshot source -> wf_snapshot target ->
  understands upper_char described context -> represents (Some target) (cx_target_metadata context) (Some t) ->
  clean (plan_changed_table upper_char context source target no_fragments) ->
  ops ≡ₚ pf_operations (plan_changed_table upper_char context source target no_fragments) -> in_phases ops ->
  exists stmts, concat (map po_sql ops) = map (render (cx_target_database context) (ts_name source)) stmts /\
    let t1 := fold_left (fun t s => effect described s t) stmts (Some t) in
    represents (Some source) (cx_source_metadata context) t1 /\
    (order_kept source target -> ordered_as (Some target) (Some t) -> ordered_as (Some source) t1).
Proof.
  intros Es Et Ws Wt U R C P S. destruct (changed_table_clean _ _ _ _ C) as (Fs & Gc & Gd & ks & kt & adds & alts & Kss & Kt & Ca & Cl & E).
  pose proof R as (Nt & _ & Kt'). rewrite Kt in Kt'. injection Kt' as ->.
  rewrite E, (Permutation_app_comm (map _ _)), <- (assoc app) in P.
  assert (Rk : forall ph ops stmts, carries context source ph stmts ops -> Forall (fun o => rank o = phase_rank ph) ops).
  { intros ph os st (F & _). eapply list.Forall_impl; [exact F|]. by intros o ->. }
  assert (Rd : Forall (fun o => rank o = 3) (map (drop_operation context source) (omap dropped (compare_table_columns source target)))).
  { apply list.Forall_forall. by intros o (n & -> & _)%list_elem_of_fmap. }
  destruct (phases_split ops _ _ 2 S P) as (a & rest & -> & Pa & Prest & S').
  { eapply list.Forall_impl; [exact (Rk _ _ _ Ca)|]. cbn. lia. }
  { apply list.Forall_app. split; (eapply list.Forall_impl; [first [exact (Rk _ _ _ Cl)|exact Rd]|]); cbn; lia. }
  destruct (phases_split rest _ _ 3 S' Prest) as (b & d & -> & Pb & Pd & _).
  { eapply list.Forall_impl; [exact (Rk _ _ _ Cl)|]. cbn. lia. }
  { eapply list.Forall_impl; [exact Rd|]. cbn. lia. }
  apply short_perm in Pa as ->; [|apply Ca]. apply short_perm in Pb as ->; [|apply Cl].
  apply Permutation_map_inv in Pd as (ns & -> & Pn).
  exists (add_statements upper_char context source target ++ key_statements upper_char context source target ks (tb_key t) ++ map DropColumnStatement ns).
  split. { rewrite !map_app, !concat_app. destruct Ca as (_ & _ & ->), Cl as (_ & _ & ->). by rewrite drop_operations_sql. }
  assert (U' : forall n c, (n, c) ∈ ts_columns source -> defined upper_char context source n c ->
    attributes_equiv (described (definition_of upper_char context source n c)) (attributes_of (cx_source_metadata context) n c)).
  { intros n c. by apply U. }
  pose proof (columns_after upper_char context source target (ws_names _ Ws) (ws_names _ Wt) described Fs Gc Gd U' t R) as (N1 & N2 & _).
  pose proof (keys_effect upper_char context source target (ws_names _ Ws) (ws_names _ Wt) described Fs Gc Gd U' t R Ws ks Kss) as K.
  pose proof (order_after upper_char context source target (ws_names _ Ws) (ws_names _ Wt) described Fs Gc Gd U' t R) as O.
  cbv zeta in *. rewrite !fold_left_app.
  rewrite effects_alters; [|rewrite add_statements_actions by (apply Ws || apply Wt); apply list.Forall_forall; by intros s (x & -> & _)%list_elem_of_fmap].
  rewrite effects_alters by apply key_statements_alter.
  rewrite effects_alters by (apply list.Forall_forall; by intros s (x & -> & _)%list_elem_of_fmap).
  rewrite add_statements_actions by (apply Ws || apply Wt).
  rewrite (add_effect described source (source_names_of source (ws_names _ Ws)) _ t).
  2:{ apply actions_names, source_names_of, Ws. }
  2:{ intros e (n & Hn & En)%list_elem_of_omap. apply with_name_some in En as [<- En]. unfold add_action in En.
      destruct (ColumnOrder.attributes (ts_columns source) e.1); [|done]. destruct (ColumnOrder.attributes (ts_columns target) e.1) eqn:Et'; [done|].
      injection En as <-. split; [done|]. split; [done|]. apply attributes_none. destruct R as (_ & R & _). specialize (R e.1). rewrite Et' in R.
      by destruct (ColumnOrder.attributes (tb_columns t) e.1). }
  change (fold_left (apply_action described source) (omap (with_name (add_action upper_char context source target)) (names_of source)) (tb_columns t))
    with (after_adds upper_char context source target described (tb_columns t)).
  set (u := fold_left _ (key_statements _ _ _ _ _ _) _) in *. destruct K as (K1 & K2 & K3). rewrite drops_effect.
  assert (Nu : named (tb_columns u)) by (unfold named; rewrite K2; exact N2).
  destruct (drops_columns ns (tb_columns u) Nu) as (D1 & D2 & D3).
  assert (Hd : forall n, n ∈ ns <-> ColumnOrder.attributes (ts_columns source) n = None /\ ColumnOrder.attributes (ts_columns target) n <> None).
  { intros n. rewrite <- Pn, list_elem_of_omap. unfold dropped. split.
    - intros (x & Hx & Ex). apply difference_elem in Hx as (E1 & E2 & H); [|apply Ws|apply Wt].
      destruct (cd_status x) eqn:Sx; [done| |done]. injection Ex as <-.
      destruct (cd_source x), (cd_target x); try (by destruct H). by rewrite <- E1, <- E2.
    - intros [E1 E2]. destruct (ColumnOrder.attributes (ts_columns target) n) as [c|] eqn:Ec; [|done].
      exists (mkColumnDiff n TargetOnly [] None (Some c)). split; [|done]. apply difference_elem; [apply Ws|apply Wt|]. cbn. by rewrite E1, Ec. }
  assert (Ha : forall n, match ColumnOrder.attributes (ts_columns source) n, ColumnOrder.attributes (fold_left (fun l n => without n l) ns (tb_columns u)) n with
    | None, None => True | Some c, Some a => attributes_equiv a (attributes_of (cx_source_metadata context) n c) | _, _ => False end).
  { intros n. specialize (K3 n). rewrite D2. destruct (ColumnOrder.attributes (ts_columns source) n) as [c|] eqn:Ec.
    - rewrite decide_False by (intros [F _]%Hd; congruence). by destruct K3 as (a & -> & Ha).
    - destruct (decide (n ∈ ns)) as [|Hn]; [done|]. rewrite K3. destruct R as (_ & R & _). specialize (R n).
      destruct (ColumnOrder.attributes (ts_columns target) n) eqn:Et'; [|by destruct (ColumnOrder.attributes (tb_columns t) n)].
      destruct Hn. apply Hd. by rewrite Et'. }
  split.
  - split; [exact D1|]. split; [exact Ha|]. cbn [tb_key]. rewrite K1, filter_all; [done|].
    intros n Hn. rewrite Hd. intros [Hs _]. destruct (source_key_column context source (ws_names _ Ws) Ws ks Kss n Hn) as (c & Ec & _). congruence.
  - intros OK OT. cbn. apply sublist_same.
    + apply D3; [rewrite K2; by apply O|]. intros n Hn. apply Hd in Hn as [Hn _]. rewrite names_of_elem, Hn. by intros [].
    + exact D1.
    + intros n Hn. apply names_of_elem. specialize (Ha n). intros F. rewrite F in Ha.
      destruct (ColumnOrder.attributes (fold_left (fun l n => without n l) ns (tb_columns u)) n) eqn:Q; [done|]. by apply attributes_none in Q.
Qed.

(** The effect of a clean plan's statements, from any order of its operations
    that keeps the phases. *)
Lemma plan_effect upper_char described context ops t0 :
  (forall s, cx_source context = Some s -> wf_snapshot s) -> (forall s, cx_target context = Some s -> wf_snapshot s) ->
  understands upper_char described context ->
  represents (cx_target context) (cx_target_metadata context) t0 ->
  clean (plan_table upper_char context) ->
  ops ≡ₚ pf_operations (plan_table upper_char context) -> in_phases ops ->
  exists stmts, concat (map po_sql ops) = map (render (cx_target_database context) (table_name context)) stmts /\
    let t1 := fold_left (fun t s => effect described s t) stmts t0 in
    represents (cx_source context) (cx_source_metadata context) t1 /\
    (order_reached context t0 -> ordered_as (cx_source context) t1).
Proof.
  intros Ws Wt U R C P S. unfold plan_table in *. destruct (match unsupported_shape _ _ with Some _ => _ | None => _ end) as [[tn r]|].
  { by destruct C as [F%block_not_nil _]. }
  destruct (cx_source context) as [s|] eqn:Es, (cx_target context) as [g|] eqn:Et; unfold table_name, order_reached; rewrite ?Es, ?Et.
  - destruct t0 as [t|]; [|done].
    destruct (changed_converges upper_char described context s g ops t Es Et (Ws s eq_refl) (Wt g eq_refl) U R C P S) as (stmts & E & H).
    exists stmts. split; [exact E|]. destruct H as [H1 H2]. split; [exact H1|].
    intros [O1 O2]. by apply H2.
  - destruct (create_converges upper_char described context s Es (Ws s eq_refl) U C) as (stmt & E & H).
    exists [stmt]. split.
    + assert (L : ops = pf_operations (plan_create_table upper_char context s no_fragments)).
      { apply short_perm; [|exact P]. apply (f_equal length) in E. rewrite length_map in E. rewrite E. cbn. lia. }
      rewrite L, E. done.
    + cbn [fold_left]. split; [apply H|]. intros _. apply H.
  - destruct (cx_include_drops context); [|by destruct C as [_ F%skip_not_nil]].
    exists [DropTableStatement]. split.
    + cbn in P. apply Permutation_singleton_r in P. by rewrite P.
    + done.
  - by destruct C as [F%block_not_nil _].
Qed.


(** ** Examples *)

Lemma wf_snapshot_check s :
  bool_decide (NoDup (map fst (ts_columns s))) && forallb (fun c => negb (primary_key c.2) || negb (nullable c.2)) (ts_columns s) = true ->
  wf_snapshot s.
Proof.
  intros [N F]%andb_prop. split; [by apply bool_decide_eq_true in N|]. intros n c H P. rewrite forallb_true_iff in F.
  specialize (F _ H). cbn in F. rewrite P in F. by apply negb_true_iff in F.
Qed.

Definition sample_column (position : Z) (ty : str) (null pk : bool) (d : option str) : ColumnSnapshot := mkColumn position ty null d pk [] [].
Definition int_column (name : str) (position : Z) : str * ColumnSnapshot := (name, sample_column position (u "int") true false None).
Definition sample_metadata : TableSyncMetadata := MySqlTable (mkMySqlTable (u "InnoDB") [] false [] []).
Definition sample_source : TableSnapshot :=
  mkSnapshot (u "users") [(u "id", sample_column 1 (u "int") false true None); (u "name", sample_column 2 (u "varchar(10)") true false (Some (u "x")))].
Definition sample_target : TableSnapshot :=
  mkSnapshot (u "users") [(u "id", sample_column 1 (u "bigint") false false None); int_column (u "old") 2].
Definition sample_context : TablePlanContext :=
  mkContext (u "app") (Some sample_source) (Some sample_target) (Some sample_metadata) (Some sample_metadata) true.
Definition sample_described (d : str) : Attributes :=
  if str_eqb d (u "int NOT NULL") then mkAttributes (u "int") false None [] [] []
  else if str_eqb d (u "varchar(10) NULL DEFAULT 'x'") then mkAttributes (u "varchar(10)") true (Some (u "x")) [] [] []
  else mkAttributes (u "int") true None [] [] [].
Definition sample_apply (s : Statement) (t : option Table) : option (option Table) := Some (effect sample_described s t).
#[export] Instance sample_server : AlterServer (effect sample_described) sample_apply.
Proof. split. by intros s t t' [= <-]. Qed.
Definition sample_table : Table :=
  mkTable [(u "id", mkAttributes (u "bigint") false None [] [] []); (u "old", mkAttributes (u "int") true None [] [] [])] [].
Definition upper_ascii (c : char) : str := [ascii_upper c].
Definition sample_operations : list PendingOperation :=
  sort_by (cmp_on (fun o => phase_rank (po_phase o)) Z.compare) (pf_operations (plan_table upper_ascii sample_context)).

(** The columns, added, changed, dropped, and the new primary key. *)
Example sample_statements : concat (map po_sql sample_operations) =
  map u ["ALTER TABLE `app`.`users` ADD COLUMN `name` varchar(10) NULL DEFAULT 'x' AFTER `id`";
         "ALTER TABLE `app`.`users` MODIFY COLUMN `id` int NOT NULL";
         "ALTER TABLE `app`.`users` ADD PRIMARY KEY (`id`)";
         "ALTER TABLE `app`.`users` DROP COLUMN `old`"]%string.
Proof. vm_compute. reflexivity. Qed.


(** A new column is put behind its predecessor before the predecessor is moved,
    and then stays where it is: here n is left between z and q. *)
Definition reordered_source : TableSnapshot :=
  mkSnapshot (u "t") [int_column (u "z") 1; int_column (u "q") 2; int_column (u "p") 3; int_column (u "n") 4].
Definition reordered_context : TablePlanContext :=
  mkContext (u "app") (Some reordered_source) (Some (mkSnapshot (u "t") [int_column (u "p") 1; int_column (u "q") 2]))
    (Some sample_metadata) (Some sample_metadata) true.
Definition int_attributes : Attributes := mkAttributes (u "int") true None [] [] [].
Definition reordered_table : Table := mkTable [(u "p", int_attributes); (u "q", int_attributes)] [].

Lemma added_column_left_behind :
  let plan := plan_table upper_ascii reordered_context in
  clean plan /\ in_phases (pf_operations plan) /\
  exists stmts t1, concat (map po_sql (pf_operations plan)) = map (render (u "app") (u "t")) stmts /\
    run sample_apply stmts (Some reordered_table) = Some (Some t1) /\
    map fst (tb_columns t1) = map u ["z"; "n"; "q"; "p"]%string /\ names_of reordered_source = map u ["z"; "q"; "p"; "n"]%string.
Proof.
  split; [split; vm_compute; reflexivity|]. split.
  { repeat constructor; vm_compute; discriminate. }
  exists (add_statements upper_ascii reordered_context reordered_source (mkSnapshot (u "t") [int_column (u "p") 1; int_column (u "q") 2])
    ++ modify_statements upper_ascii reordered_context reordered_source (mkSnapshot (u "t") [int_column (u "p") 1; int_column (u "q") 2])).
  eexists. split; [vm_compute; reflexivity|]. split; [vm_compute; reflexivity|]. split; vm_compute; reflexivity.
Qed.

End MysqlConverge.
