(* ===== verification/Ddl.v ===== *)
(** What the builders of statements share: the requests for tables and columns
    (models/types.rs) and the numbers a default expression may be.  [ascii_lower]
    and [to_ascii_lowercase] are the standard library's. *)
From S2P Require Import Prelude RustText.

Module Ddl.

(** ** Numbers *)

Definition strip_sign (s : str) : str :=
  match s with c :: r => if (c =? 43) || (c =? 45) then r else s | [] => [] end.
Definition digits (s : str) : str * str := (take_while is_ascii_digit s, drop_while is_ascii_digit s).
(** Digits with at most one dot, at least one digit, and an optional exponent:
    the rest of both scanners below after the sign. *)
Definition decimal_number (s : str) : bool :=
  let '(whole, rest) := digits s in
  let '(fraction, rest) := match rest with c :: r => if c =? 46 then digits r else ([], rest) | [] => ([], rest) end in
  if is_empty whole && is_empty fraction then false
  else
    match rest with
    | [] => true
    | c :: r =>
      if (c =? 101) || (c =? 69)
      then let '(exponent, rest) := digits (strip_sign r) in negb (is_empty exponent) && is_empty rest
      else false
    end.
(** [str::parse::<f64>().is_ok()], whose grammar the standard library states. *)
Definition parses_as_f64 (value : str) : bool :=
  let rest := strip_sign value in
  decimal_number rest || eq_ignore_ascii_case rest (u "inf") || eq_ignore_ascii_case rest (u "infinity")
  || eq_ignore_ascii_case rest (u "nan").

(** The digits of such a number as one integer, and its exponent of ten. *)
Definition decimal_parts (s : str) : Z * Z :=
  let '(whole, rest) := digits s in
  let '(fraction, rest) := match rest with c :: r => if c =? 46 then digits r else ([], rest) | [] => ([], rest) end in
  let exponent :=
    match rest with
    | _ :: r => let e := digits_value (strip_sign r) in match r with 45 :: _ => - e | _ => e end
    | [] => 0
    end in
  (digits_value (whole ++ fraction), exponent - zlen fraction).
(** [value.parse::<f64>() == Ok(1.0)]: the decimal number rounds to one, to
    the even side on a tie. *)
Definition parses_as_one (value : str) : bool :=
  let rest := strip_sign value in
  match value with
  | 45 :: _ => false
  | _ =>
    if decimal_number rest
    then
      let '(m, e) := decimal_parts rest in
      if 0 <=? e then m * 10 ^ e =? 1
      else ((2 ^ 54 - 1) * 10 ^ (- e) <=? m * 2 ^ 54) && (m * 2 ^ 53 <=? (2 ^ 53 + 1) * 10 ^ (- e))
    else false
  end.

Definition ascii_lower (c : char) : char := if is_ascii_upper c then c + 32 else c.
Definition to_ascii_lowercase (s : str) : str := map ascii_lower s.

(** ** Requests *)

Record CreateTableColumnDef : Type := mkColumnDef {
  nc_name : str; nc_column_type : str; nc_nullable : bool; nc_default_value : option str; nc_extra : str; nc_comment : str }.
Record CreateTableRequest : Type := mkCreateTable {
  ct_table_name : str; ct_columns : list CreateTableColumnDef; ct_primary_keys : list str; ct_engine : str;
  ct_order_by : option (list str); ct_comment : str }.
Record AddColumnRequest : Type := mkAddColumn {
  ac_name : str; ac_column_type : str; ac_nullable : bool; ac_default_value : option str; ac_extra : str; ac_comment : str;
  ac_after_column : option str }.
(** Where the interface wants a column to be placed. *)
Inductive AlterColumnPlacement : Type := PlaceFirst | PlaceAfter (column : str).
Record AlterColumnRequest : Type := mkAlterColumn {
  al_old_name : str; al_new_name : str; al_column_type : str; al_nullable : bool; al_default_value : option str; al_extra : str;
  al_comment : str; al_is_primary : option bool; al_column_placement : option AlterColumnPlacement }.
Record ColumnInfo : Type := mkColumnInfo {
  ci_name : str; ci_column_type : str; ci_nullable : bool; ci_key : str; ci_default_value : option str; ci_extra : str; ci_comment : str }.

End Ddl.
