(* ===== verification/SqliteSync.v ===== *)
(** Planning the synchronisation of a SQLite table
    (src-tauri/src/db/schema_sync/sqlite.rs, with the statement builders of
    src-tauri/src/db/sqlite.rs).

    The scanners over bytes walk the UTF-8 of the text; all they look for is
    ASCII.  [char::to_uppercase] is the parameter [upper_char]. *)
From S2P Require Import Prelude OrderedMap RustText DataTypes SqlDialect SchemaCompare SyncTypes Ddl MysqlSync.
Import SqlDialect SchemaCompare SyncTypes Ddl.

Module SqliteSync.

Definition sqlite_id : str -> str := sqlite_identifier.
Definition sqlite_str : str -> str := sqlite_string_literal.

(** ** Default expressions *)

Definition is_sqlite_numeric_literal (value : str) : bool := decimal_number (strip_sign value).
Inductive SqliteDefaultKind : Type := NoDefault | NullDefault | Constant | CurrentTime.
#[export] Instance SqliteDefaultKind_eq_dec : EqDecision SqliteDefaultKind.
Proof. solve_decision. Defined.
Record NormalizedSqliteDefault : Type := mkDefault { nd_value : option str; nd_kind : SqliteDefaultKind }.

Definition contains_rejected_default_text (value : str) : bool :=
  contains_char 59 value || contains (u "--") value || contains (u "/*") value || contains (u "*/") value.
Definition builder_treats_as_raw_default (value : str) : bool :=
  let upper := to_ascii_uppercase value in
  str_eqb upper (u "NULL") || str_eqb upper (u "TRUE") || str_eqb upper (u "FALSE")
  || starts_with (u "CURRENT_TIMESTAMP") upper || starts_with (u "CURRENT_DATE") upper
  || starts_with (u "CURRENT_TIME") upper || parses_as_f64 value.

(** The inside of a literal with its doubled quotes undone. *)
Fixpoint undouble (body : str) : option str :=
  match body with
  | [] => Some []
  | c :: body =>
    if c =? 39
    then match body with d :: body => if d =? 39 then cons 39 <$> undouble body else None | [] => None end
    else cons c <$> undouble body
  end.
Definition parse_single_quoted_literal (value : str) : result (option str) str :=
  if negb (starts_with [39] value) && negb (ends_with [39] value) then Ok None
  else
    match (v ← strip_prefix [39] value; strip_suffix [39] v) with
    | None => Err (u "SQLite 文本默认值 `" ++ value ++ u "` 引号不完整")
    | Some body =>
      match undouble body with
      | None => Err (u "SQLite 文本默认值 `" ++ value ++ u "` 包含未转义单引号")
      | Some decoded => Ok (Some decoded)
      end
    end.

Definition normalize_default_for_builder (default_value : option str) : result NormalizedSqliteDefault str :=
  match default_value with
  | None => Ok (mkDefault None NoDefault)
  | Some default_value =>
    let default_value := trim default_value in
    if is_empty default_value then Err (u "SQLite 默认表达式为空，无法无损表达")
    else
      let? literal := parse_single_quoted_literal default_value in
      match literal with
      | Some literal =>
        if negb (str_eqb (trim literal) literal) || is_empty literal || builder_treats_as_raw_default literal
           || contains_rejected_default_text literal
        then Err (u "SQLite 文本默认值 `" ++ default_value ++ u "` 无法由当前 builder 无损表达")
        else Ok (mkDefault (Some literal) Constant)
      | None =>
        let upper := to_ascii_uppercase default_value in
        if str_eqb upper (u "NULL") then Ok (mkDefault (Some default_value) NullDefault)
        else if one_of upper ["TRUE"; "FALSE"]%string || is_sqlite_numeric_literal default_value
        then Ok (mkDefault (Some default_value) Constant)
        else if one_of upper ["CURRENT_TIME"; "CURRENT_DATE"; "CURRENT_TIMESTAMP"]%string
        then Ok (mkDefault (Some default_value) CurrentTime)
        else Err (u "SQLite 默认表达式 `" ++ default_value ++ u "` 无法由当前 builder 无损表达")
      end
  end.

(** ** Statement builders *)

Section Planner.
Context (upper_char : char -> str).

Definition sqlite_default_sql (default : str) : result str str :=
  if contains_rejected_default_text default then Err (u "SQLite 默认值包含非法字符")
  else
    let upper := to_uppercase upper_char default in
    if str_eqb upper (u "NULL") || str_eqb upper (u "TRUE") || str_eqb upper (u "FALSE")
       || starts_with (u "CURRENT_TIMESTAMP") upper || starts_with (u "CURRENT_DATE") upper
       || starts_with (u "CURRENT_TIME") upper || parses_as_f64 default
    then Ok default else Ok (sqlite_str default).
Definition build_sqlite_column_definition (column_type : str) (nullable : bool) (default_value : option str) : result str str :=
  check? MysqlSync.validate_column_type column_type in
  let parts := [trim column_type] ++ (if nullable then [] else [u "NOT NULL"]) in
  match trim <$> default_value with
  | Some default =>
    if is_empty default then Ok (join (u " ") parts)
    else
      let? sql := sqlite_default_sql default in
      Ok (join (u " ") (parts ++ [u "DEFAULT " ++ sql]))
  | None => Ok (join (u " ") parts)
  end.
Definition place (database table : str) : str := sqlite_id database ++ u "." ++ sqlite_id table.
Definition build_create_table_sql (database : str) (request : CreateTableRequest) : result str str :=
  if is_empty (ct_columns request) then Err (u "至少需要定义一个列")
  else
    let? parts := traverse (fun column =>
      let? def := build_sqlite_column_definition (nc_column_type column) (nc_nullable column) (nc_default_value column) in
      Ok (u "  " ++ sqlite_id (nc_name column) ++ u " " ++ def)) (ct_columns request) in
    let parts := parts ++
      (if is_empty (ct_primary_keys request) then []
       else [u "  PRIMARY KEY (" ++ join (u ", ") (map sqlite_id (ct_primary_keys request)) ++ u ")"]) in
    Ok (u "CREATE TABLE " ++ place database (ct_table_name request) ++ u " (" ++ [10] ++ join (u "," ++ [10]) parts ++ [10] ++ u ")").
Definition build_add_column_sql (database table : str) (request : AddColumnRequest) : result str str :=
  let? def := build_sqlite_column_definition (ac_column_type request) (ac_nullable request) (ac_default_value request) in
  Ok (u "ALTER TABLE " ++ place database table ++ u " ADD COLUMN " ++ sqlite_id (ac_name request) ++ u " " ++ def).

(** ** Native metadata *)

Record MetadataRow : Type := mkMetadataRow {
  mr_table_name : str; mr_create_sql : str; mr_column_name : str; mr_hidden : Z; mr_primary_key_ordinal : option Z }.
Definition aggregate_row (m : list (str * SqliteTableMeta)) (row : MetadataRow) : list (str * SqliteTableMeta) :=
  BTree.entry str_cmp (mr_table_name row) (fun entry =>
    let t := default (mkSqliteTable (mr_create_sql row) []) entry in
    mkSqliteTable (lt_create_sql t)
      (BTree.put str_cmp (mr_column_name row) (SqliteColumn (mr_hidden row) (mr_primary_key_ordinal row)) (lt_columns t))) m.
Definition aggregate_metadata_rows (rows : list MetadataRow) : list (str * TableSyncMetadata) :=
  map (fun p => (p.1, SqliteTable p.2)) (fold_left aggregate_row rows []).

Definition table_metadata (metadata : option TableSyncMetadata) (table_name : str) : result SqliteTableMeta str :=
  match metadata with
  | Some (SqliteTable t) => Ok t
  | _ => Err (u "表 " ++ table_name ++ u " 缺少 SQLite 原生表元数据")
  end.
Definition sqlite_column (metadata : SqliteTableMeta) (name : str) : option (Z * option Z) :=
  match BTree.get str_cmp name (lt_columns metadata) with Some (SqliteColumn h o) => Some (h, o) | _ => None end.
Definition column_hidden (metadata : SqliteTableMeta) (table_name column_name : str) : result Z str :=
  match sqlite_column metadata column_name with
  | Some (hidden, _) => Ok hidden
  | None => Err (u "字段 " ++ table_name ++ u "." ++ column_name ++ u " 缺少 SQLite 原生 hidden 元数据")
  end.

(** The loop over the columns of [sqlite_primary_key_columns]. *)
Fixpoint key_ordinals (table : str) (metadata : SqliteTableMeta) (columns : list (str * ColumnSnapshot)) (seen : list Z) :
    result (list (Z * str)) str :=
  match columns with
  | [] => Ok []
  | (name, column) :: columns =>
    match sqlite_column metadata name with
    | None => Err (u "字段 " ++ table ++ u "." ++ name ++ u " 缺少 SQLite 原生主键序号元数据")
    | Some (_, primary_key_ordinal) =>
      match primary_key column, primary_key_ordinal with
      | true, Some ordinal =>
        if bool_decide (ordinal ∈ seen) then Err (u "复合主键表 " ++ table ++ u " 包含重复的 SQLite 原生主键序号")
        else
          let? ordered := key_ordinals table metadata columns (ordinal :: seen) in
          Ok ((ordinal, name) :: ordered)
      | true, None => Err (u "主键字段 " ++ table ++ u "." ++ name ++ u " 缺少 SQLite 原生主键序号")
      | false, Some _ => Err (u "字段 " ++ table ++ u "." ++ name ++ u " 的主键标志与 SQLite 原生主键序号不一致")
      | false, None => key_ordinals table metadata columns seen
      end
    end
  end.
(** [*ordinal as usize != index + 1] for no pair, counting from [index]. *)
Fixpoint consecutive (index : Z) (ordered : list (Z * str)) : bool :=
  match ordered with [] => true | (ordinal, _) :: ordered => (ordinal =? index + 1) && consecutive (index + 1) ordered end.
Definition sqlite_primary_key_columns (table : TableSnapshot) (metadata : SqliteTableMeta) : result (list str) str :=
  let? ordered := key_ordinals (ts_name table) metadata (ts_columns table) [] in
  let ordered := sort_by MysqlSync.by_ordinal ordered in
  if consecutive 0 ordered then Ok (map snd ordered)
  else Err (u "表 " ++ ts_name table ++ u " 的 SQLite 原生主键序号不连续").

(** ** Original declarations *)

(** Past a quoted piece, whose quotes may be doubled; past a bracketed name, a
    comment to the end of the line and a block comment. *)
Fixpoint skip_quoted (quote : byte) (rest : bytes) : bytes :=
  match rest with
  | [] => []
  | c :: rest =>
    if c =? quote
    then match rest with d :: rest' => if d =? quote then skip_quoted quote rest' else rest | [] => [] end
    else skip_quoted quote rest
  end.
Fixpoint skip_bracketed (rest : bytes) : bytes :=
  match rest with [] => [] | c :: rest => if c =? 93 then rest else skip_bracketed rest end.
Definition skip_line (rest : bytes) : bytes := drop_while (fun c => negb ((c =? 13) || (c =? 10))) rest.
Fixpoint skip_block (rest : bytes) : bytes :=
  match rest with
  | c :: (d :: rest') as tail => if (c =? 42) && (d =? 47) then rest' else skip_block tail
  | _ => rest
  end.
Definition is_word_byte (c : byte) : bool := is_ascii_alphanumeric c || (c =? 95).
Fixpoint keyword_scan (fuel : nat) (rest keyword : bytes) : bool :=
  match fuel with
  | O => false
  | S fuel =>
    match rest with
    | [] => false
    | c :: tail =>
      if (c =? 39) || (c =? 34) || (c =? 96) then keyword_scan fuel (skip_quoted c tail) keyword
      else if c =? 91 then keyword_scan fuel (skip_bracketed tail) keyword
      else if (c =? 45) && starts_with [45] tail then keyword_scan fuel (skip_line (List.tl tail)) keyword
      else if (c =? 47) && starts_with [42] tail then keyword_scan fuel (skip_block (List.tl tail)) keyword
      else if is_ascii_alphabetic c || (c =? 95)
      then
        if eq_ignore_ascii_case (c :: take_while is_word_byte tail) keyword then true
        else keyword_scan fuel (drop_while is_word_byte tail) keyword
      else keyword_scan fuel tail keyword
    end
  end.
Definition contains_unquoted_keyword (sql keyword : str) : bool :=
  let bytes := utf8 sql in keyword_scan (length bytes) bytes keyword.

(** [create_sql.trim().trim_end_matches(';').trim()] *)
Definition statement_text (create_sql : str) : str := trim (trim_end_matches (Z.eqb 59) (trim create_sql)).
(** [rsplit_once(')')], of which only the part behind is used. *)
Definition after_last (c : char) (s : str) : option str :=
  (fun p => reverse p.1) <$> split_once c (reverse s).
Definition table_option (option : str) : str := to_ascii_uppercase (join (u " ") (split_whitespace option)).
Definition native_table_signature (create_sql : str) : bool * str :=
  let suffix :=
    match after_last 41 (statement_text create_sql) with
    | Some suffix => join (u ",") (sort_by str_cmp (map table_option (split_char 44 suffix)))
    | None => []
    end in
  (contains_unquoted_keyword create_sql (u "AUTOINCREMENT"), suffix).
Definition validate_physical_table (metadata : SqliteTableMeta) : result unit str :=
  let create_sql := statement_text (lt_create_sql metadata) in
  if is_empty create_sql then Err (u "SQLite 原始建表声明为空，无法确认表形态")
  else
    let upper := to_ascii_uppercase create_sql in
    if starts_with (u "CREATE VIRTUAL TABLE") upper then Err (u "SQLite 虚拟表不在首期物理表同步范围内")
    else if negb (starts_with (u "CREATE TABLE") upper) then Err (u "SQLite 原始建表声明不是普通 CREATE TABLE")
    else Ok tt.
Definition validate_plain_table (metadata : SqliteTableMeta) : result unit str :=
  check? validate_physical_table metadata in
  let create_sql := statement_text (lt_create_sql metadata) in
  if contains_unquoted_keyword create_sql (u "AUTOINCREMENT")
  then Err (u "SQLite 原始建表声明包含 AUTOINCREMENT，无法由结构化 builder 无损重建")
  else
    match after_last 41 create_sql with
    | None => Err (u "SQLite 原始建表声明缺少完整字段列表")
    | Some suffix =>
      if negb (blank suffix) then Err (u "SQLite 表选项 `" ++ trim suffix ++ u "` 无法由普通建表 builder 无损表达")
      else Ok tt
    end.

(** ** Plans *)

Definition plan_target_only_table (context : TablePlanContext) (target : TableSnapshot) (plan : PlanFragments) : PlanFragments :=
  let refuse := fun reason => block (ts_name target) (u "无法删除表 " ++ ts_name target) reason plan in
  match (let? metadata := table_metadata (cx_target_metadata context) (ts_name target) in validate_physical_table metadata) with
  | Err reason => refuse reason
  | Ok _ =>
    if cx_include_drops context
    then
      operation DropTablePhase (ts_name target) DropTable Destructive (u "删除目标端独有表 " ++ ts_name target)
        [u "DROP TABLE " ++ place (cx_target_database context) (ts_name target)] plan
    else skip (ts_name target) (u "跳过删除目标端独有表") (u "未开启包含删除操作") plan
  end.

Definition generated (hidden : Z) (column : ColumnSnapshot) : bool := negb (hidden =? 0) || negb (blank (extra column)).
Definition define_column (metadata : SqliteTableMeta) (source : TableSnapshot) (c : str * ColumnSnapshot) :
    result CreateTableColumnDef str :=
  let? hidden := column_hidden metadata (ts_name source) c.1 in
  if generated hidden c.2 then Err (u "SQLite generated/auto_increment 字段无法由结构化 builder 无损重建")
  else
    let? default_value := normalize_default_for_builder (default_value c.2) in
    Ok (mkColumnDef c.1 (column_type c.2) (nullable c.2) (nd_value default_value) [] []).
Definition push_definition (metadata : SqliteTableMeta) (source : TableSnapshot) (acc : PlanFragments * list CreateTableColumnDef)
    (c : str * ColumnSnapshot) : PlanFragments * list CreateTableColumnDef :=
  match define_column metadata source c with
  | Ok def => (acc.1, acc.2 ++ [def])
  | Err reason => (block (ts_name source) (u "无法创建字段 " ++ ts_name source ++ u "." ++ c.1) reason acc.1, acc.2)
  end.
Definition plan_create_table (context : TablePlanContext) (source : TableSnapshot) (plan : PlanFragments) : PlanFragments :=
  let refuse := fun reason => block (ts_name source) (u "无法创建表 " ++ ts_name source) reason in
  match (let? metadata := table_metadata (cx_source_metadata context) (ts_name source) in
         check? validate_plain_table metadata in Ok metadata) with
  | Err reason => refuse reason plan
  | Ok metadata =>
    if is_empty (ts_columns source) then refuse (u "源表没有字段") plan
    else
      let '(plan, definitions) := fold_left (push_definition metadata source) (in_order source) (plan, []) in
      if negb (is_empty (pf_blockers plan)) then plan
      else
        match sqlite_primary_key_columns source metadata with
        | Err reason => refuse reason plan
        | Ok primary_keys =>
          match build_create_table_sql (cx_target_database context)
                  (mkCreateTable (ts_name source) definitions primary_keys [] None []) with
          | Ok sql =>
            operation CreateTablePhase (ts_name source) CreateTable Normal (u "创建目标端表 " ++ ts_name source) [sql] plan
          | Err reason => refuse reason plan
          end
        end
  end.

(** Why a column cannot be appended, or its definition. *)
Definition append_column (context : TablePlanContext) (metadata : SqliteTableMeta) (source : TableSnapshot) (max_position : Z)
    (name : str) (column : ColumnSnapshot) : result str str :=
  if ordinal_position column <=? max_position then Err (u "SQLite 只能安全追加字段到目标端现有字段末尾")
  else if primary_key column then Err (u "SQLite 不能通过 ADD COLUMN 安全新增主键字段")
  else
    let? hidden := column_hidden metadata (ts_name source) name in
    if generated hidden column then Err (u "SQLite generated/auto_increment 字段不能通过 ADD COLUMN 无损新增")
    else
      let? default_value := normalize_default_for_builder (default_value column) in
      if negb (nullable column) && (bool_decide (nd_kind default_value = NoDefault) || bool_decide (nd_kind default_value = NullDefault))
      then Err (u "SQLite ADD COLUMN 新增非空字段时需要非 NULL 常量默认值")
      else if bool_decide (nd_kind default_value = CurrentTime)
      then Err (u "SQLite ADD COLUMN 不支持 CURRENT_TIME/DATE/TIMESTAMP 默认值")
      else
        build_add_column_sql (cx_target_database context) (ts_name source)
          (mkAddColumn name (column_type column) (nullable column) (nd_value default_value) [] [] None).

Record Changes : Type := mkChanges {
  ch_plan : PlanFragments;
  ch_add : list (Z * str * str);
  ch_add_risk : DatabaseSyncRisk;
  ch_drop : list str;
}.
Definition with_plan (f : PlanFragments -> PlanFragments) (st : Changes) : Changes :=
  mkChanges (f (ch_plan st)) (ch_add st) (ch_add_risk st) (ch_drop st).
Definition plan_difference (context : TablePlanContext) (metadata : SqliteTableMeta) (source : TableSnapshot) (max_position : Z)
    (st : Changes) (d : ColumnDiff) : Changes :=
  let name := cd_name d in
  let qualified := ts_name source ++ u "." ++ name in
  match cd_status d, cd_source d with
  | SourceOnly, Some column =>
    match append_column context metadata source max_position name column with
    | Ok sql =>
      mkChanges (ch_plan st) (ch_add st ++ [(ordinal_position column, name, sql)])
        (match add_column_risk column (BTree.get str_cmp name (lt_columns metadata)) with High => High | _ => ch_add_risk st end)
        (ch_drop st)
    | Err reason => with_plan (block (ts_name source) (u "无法新增字段 " ++ qualified) reason) st
    end
  | SourceOnly, None => st
  | Changed, _ => with_plan (block (ts_name source) (u "无法修改字段 " ++ qualified) (u "SQLite 首期不重建表修改已有字段")) st
  | TargetOnly, _ =>
    if cx_include_drops context
    then mkChanges (ch_plan st) (ch_add st) (ch_add_risk st) (ch_drop st ++ [name])
    else with_plan (skip (ts_name source) (u "跳过删除目标端独有字段 " ++ qualified) (u "未开启包含删除操作")) st
  end.
Definition by_place (a b : Z * str * str) : comparison :=
  cmp_then (cmp_on (fun e : Z * str * str => e.1.1) Z.compare) (cmp_on (fun e : Z * str * str => e.1.2) str_cmp) a b.
Definition drop_column (context : TablePlanContext) (source : TableSnapshot) (plan : PlanFragments) (name : str) : PlanFragments :=
  operation DropColumnPhase (ts_name source) DropColumn Destructive (u "删除目标端独有字段 " ++ ts_name source ++ u "." ++ name)
    [u "ALTER TABLE " ++ place (cx_target_database context) (ts_name source) ++ u " DROP COLUMN " ++ sqlite_id name] plan.

(** The checks of [plan_changed_table] before the columns are looked at: the
    source's metadata, or what to say. *)
Definition comparable (context : TablePlanContext) (source target : TableSnapshot) : result SqliteTableMeta (str * str) :=
  let refuse := fun reason => (u "无法规划 SQLite 表同步", reason) in
  let? source_metadata := map_err refuse (table_metadata (cx_source_metadata context) (ts_name source)) in
  let? target_metadata := map_err refuse (table_metadata (cx_target_metadata context) (ts_name target)) in
  check? map_err refuse (validate_physical_table source_metadata) in
  check? map_err refuse (validate_physical_table target_metadata) in
  let? source_primary_keys := map_err refuse (sqlite_primary_key_columns source source_metadata) in
  let? target_primary_keys := map_err refuse (sqlite_primary_key_columns target target_metadata) in
  if negb (bool_decide (source_primary_keys = target_primary_keys))
  then Err (u "无法修改表 " ++ ts_name source ++ u " 的主键顺序", u "SQLite 首期不重建表修改已有主键定义或复合主键顺序")
  else
    let source_signature := native_table_signature (lt_create_sql source_metadata) in
    let target_signature := native_table_signature (lt_create_sql target_metadata) in
    if negb (Bool.eqb source_signature.1 target_signature.1)
    then Err (u "无法修改表 " ++ ts_name source ++ u " 的 AUTOINCREMENT 声明", u "SQLite 首期不重建表修改已有字段的 AUTOINCREMENT 原生声明")
    else if negb (str_eqb source_signature.2 target_signature.2)
    then Err (u "无法修改表 " ++ ts_name source ++ u " 的原生表后缀", u "SQLite 首期不重建表修改 STRICT、WITHOUT ROWID 或其他原生表后缀")
    else Ok source_metadata.
Definition plan_changed_table (context : TablePlanContext) (source target : TableSnapshot) (plan : PlanFragments) : PlanFragments :=
  match comparable context source target with
  | Err (summary, reason) => block (ts_name source) summary reason plan
  | Ok source_metadata =>
    let st := fold_left (plan_difference context source_metadata source (max_position target)) (compare_table_columns source target)
                (mkChanges plan [] Normal []) in
    if negb (is_empty (pf_blockers (ch_plan st))) then ch_plan st
    else
      let add_sql := map snd (sort_by by_place (ch_add st)) in
      let plan :=
        if is_empty add_sql then ch_plan st
        else
          operation AddColumnPhase (ts_name source) AddColumn (ch_add_risk st)
            (u "新增表 " ++ ts_name source ++ u " 的 " ++ show_Z (zlen add_sql) ++ u " 个字段") add_sql (ch_plan st) in
      fold_left (drop_column context source) (sort_by str_cmp (ch_drop st)) plan
  end.

Definition plan_table (context : TablePlanContext) : PlanFragments :=
  match cx_source context, cx_target context with
  | Some source, None => plan_create_table context source no_fragments
  | None, Some target => plan_target_only_table context target no_fragments
  | Some source, Some target => plan_changed_table context source target no_fragments
  | None, None => block [] (u "无法规划同步") (u "表在源端和目标端都不存在") no_fragments
  end.

End Planner.

End SqliteSync.
