(* ===== verification/SqliteDefaults.v ===== *)
(** The defaults a SQLite plan writes (src-tauri/src/db/schema_sync/sqlite.rs,
    normalize_default_for_builder, with sqlite_default_sql of
    src-tauri/src/db/sqlite.rs): the expression a statement carries is the
    source's, character by character. *)
From S2P Require Import Prelude OrderedMap RustText DataTypes SqlDialect SchemaCompare SyncTypes Ddl MysqlSync SqliteSync.
Import SqlDialect SchemaCompare SyncTypes Ddl SqliteSync.

Module SqliteDefaults.

#[local] Opaque u.

(** A text is [unfolded] when none of its characters outside ASCII has an
    uppercase with ASCII in it, as the long s, the dotless i and the ligatures
    have. *)
Definition unfolded (upper_char : char -> str) (s : str) : Prop :=
  Forall (fun c => is_ascii c = true \/ (upper_char c <> [] /\ Forall (fun x => is_ascii x = false) (upper_char c))) s.

(** On an unfolded text both uppercases start with the same ASCII. *)
Lemma upper_prefix upper_char p s : unfolded upper_char s -> forallb is_ascii p = true ->
  starts_with p (to_uppercase upper_char s) = starts_with p (to_ascii_uppercase s).
Proof.
  unfold starts_with. intros F. revert p. induction F as [|c s A F IH]; intros p P; [done|].
  unfold to_uppercase in *. cbn [map concat to_ascii_uppercase]. fold (to_ascii_uppercase s).
  destruct p as [|q p]; [by destruct (_ ++ _)|]. cbn in P. apply andb_prop in P as [Q P].
  destruct (is_ascii c) eqn:Ac.
  - cbn. destruct (q =? ascii_upper c); [by apply IH|done].
  - destruct A as [A|[N A]]; [done|]. destruct (upper_char c) as [|x l]; [done|]. apply list.Forall_cons in A as [X _].
    assert (Ne : forall x, is_ascii x = false -> (q =? x) = false) by (intros y Y; apply Z.eqb_neq; congruence).
    cbn. rewrite (Ne x X), Ne; [done|]. unfold ascii_upper, is_ascii, is_ascii_lower in *.
    destruct ((97 <=? c) && (c <=? 122)) eqn:E; lia.
Qed.
Lemma upper_equal upper_char p s : unfolded upper_char s -> forallb is_ascii p = true ->
  str_eqb (to_uppercase upper_char s) p = str_eqb (to_ascii_uppercase s) p.
Proof.
  intros F P. apply eq_true_iff_eq. rewrite !str_eqb_eq.
  assert (Same : forallb is_ascii s = true -> to_uppercase upper_char s = to_ascii_uppercase s).
  { clear. unfold to_uppercase, to_ascii_uppercase. induction s as [|c s IH]; [done|]. cbn. intros [-> E]%andb_prop. cbn. by rewrite IH. }
  assert (Up : forallb is_ascii s = forallb is_ascii (to_ascii_uppercase s)).
  { clear. induction s as [|c s IH]; [done|]. cbn. rewrite IH. f_equal. unfold ascii_upper, is_ascii, is_ascii_lower.
    destruct ((97 <=? c) && (c <=? 122)) eqn:E; lia. }
  assert (Dn : forallb is_ascii (to_uppercase upper_char s) = true -> forallb is_ascii s = true).
  { clear -F. induction F as [|c s A F IH]; [done|]. unfold to_uppercase in *. cbn [map concat forallb]. rewrite forallb_app, andb_true_iff.
    intros [B1 B2]. rewrite (IH B2), andb_true_r. destruct (is_ascii c) eqn:Ac; [done|]. destruct A as [A|[N A]]; [done|].
    destruct (upper_char c) as [|x l]; [done|]. apply list.Forall_cons in A as [X _]. cbn in B1. by rewrite X in B1. }
  split; intros E.
  - rewrite <- E. symmetry. apply Same, Dn. by rewrite E.
  - rewrite <- E. apply Same. by rewrite Up, E.
Qed.

(** A literal is quoted again as it was. *)
Lemma undouble_doubles body l : undouble body = Some l -> replace_char 39 [39; 39] l = body.
Proof.
  remember (length body) as n eqn:Hn. assert (L : (length body <= n)%nat) by lia. clear Hn. revert body l L.
  induction n as [|n IH]; intros [|c body] l L; try (by intros [= <-]); [cbn in L; lia|]. cbn in L.
  assert (Q : forall r, replace_char 39 [39; 39] (c :: r) = (if c =? 39 then [39; 39] else [c]) ++ replace_char 39 [39; 39] r) by done.
  destruct (Z.eqb_spec c 39) as [->|Ne].
  - cbn [undouble]. rewrite Z.eqb_refl. destruct body as [|d body]; [done|]. destruct (Z.eqb_spec d 39) as [->|Nd]; [|done].
    destruct (undouble body) as [r|] eqn:E; [|done]. intros [= <-]. rewrite Q. cbn. by rewrite (IH body r) by (cbn in L; try lia; done).
  - cbn [undouble]. apply Z.eqb_neq in Ne. rewrite Ne. destruct (undouble body) as [r|] eqn:Er; [|done]. intros [= <-].
    rewrite Q. cbn. by rewrite (IH body r) by (try lia; done).
Qed.
Lemma parsed_literal value l : parse_single_quoted_literal value = Ok (Some l) -> sqlite_str l = value.
Proof.
  unfold parse_single_quoted_literal. destruct (_ && _); [discriminate|]. destruct (strip_prefix [39] value) as [v|] eqn:P; [|discriminate]. cbn [mbind option_bind].
  destruct (strip_suffix [39] v) as [body|] eqn:X; [|discriminate]. destruct (undouble body) as [r|] eqn:U; [|discriminate]. intros [= <-].
  apply strip_prefix_some in P as ->. unfold strip_suffix in X. apply fmap_Some in X as (w & X & ->).
  apply strip_prefix_some in X. apply (f_equal reverse) in X. rewrite reverse_involutive, reverse_app in X.
  change (reverse (reverse [39])) with [39] in X. rewrite X. unfold sqlite_str, sqlite_string_literal. by rewrite (undouble_doubles _ _ U).
Qed.

(** Words and numbers hold no comment mark and no semicolon. *)
Lemma contains_past x p a s : x ∉ a -> contains (x :: p) (a ++ s) = contains (x :: p) s.
Proof.
  induction a as [|c a IH]; [done|]. intros [N1 N2]%not_elem_of_cons. cbn [app contains]. rewrite IH by done.
  unfold starts_with. cbn. apply Z.eqb_neq in N1. by rewrite N1.
Qed.
Lemma contains_single x c s : c <> x -> contains [x; x] (x :: c :: s) = contains [x; x] (c :: s).
Proof.
  intros N. assert (E : starts_with [x; x] (x :: c :: s) = false); [|cbn [contains]; by rewrite E].
  unfold starts_with. cbn [strip_prefix]. rewrite Z.eqb_refl. apply not_eq_sym, Z.eqb_neq in N. by rewrite N.
Qed.
Lemma contains_absent x p a : x ∉ a -> contains (x :: p) a = false.
Proof. intros N. rewrite <- (app_nil_r a), contains_past by done. done. Qed.
Lemma contains_char_absent x a : x ∉ a -> contains_char x a = false.
Proof. intros N. apply not_true_iff_false. rewrite contains_char_iff. done. Qed.
Lemma rejected_absent v : 59 ∉ v -> 47 ∉ v -> 42 ∉ v -> contains (u "--") v = false -> contains_rejected_default_text v = false.
Proof.
  intros H1 H2 H3 H4. unfold contains_rejected_default_text. rewrite H4, contains_char_absent by done.
  replace (u "/*") with [47; 42] by (by vm_compute). replace (u "*/") with [42; 47] by (by vm_compute). rewrite !contains_absent by done. done.
Qed.
Lemma word_accepted v w : to_ascii_uppercase v = u w -> forallb (fun c => is_ascii_upper c || (c =? 95)) (u w) = true ->
  contains_rejected_default_text v = false.
Proof.
  intros E W. assert (A : forall x, is_ascii_upper (ascii_upper x) || (ascii_upper x =? 95) = false -> x ∉ v).
  { intros x X Hx. rewrite forallb_true_iff in W. rewrite (W (ascii_upper x)) in X; [done|]. rewrite <- E.
    unfold to_ascii_uppercase. by apply list_elem_of_fmap_2. }
  apply rejected_absent; [by apply A..|]. replace (u "--") with [45; 45] by (by vm_compute). apply contains_absent. by apply A.
Qed.

Lemma digits_parts s a b : digits s = (a, b) -> s = a ++ b /\ forallb is_ascii_digit a = true.
Proof.
  intros [= <- <-]. induction s as [|c s [IH1 IH2]]; [done|]. cbn. destruct (is_ascii_digit c) eqn:E; [|done].
  cbn. rewrite E, <- IH1. done.
Qed.
Lemma strip_sign_parts s : exists sign, s = sign ++ strip_sign s /\ (sign = [] \/ sign = [43] \/ sign = [45]).
Proof.
  destruct s as [|c s]; [by exists []; split; [|left]|]. cbn. destruct ((c =? 43) || (c =? 45)) eqn:E.
  - exists [c]. split; [done|]. right. apply orb_prop in E as [E%Z.eqb_eq|E%Z.eqb_eq]; subst; auto.
  - exists []. split; [done|by left].
Qed.
(** The characters of a number before its exponent, and the exponent. *)
Definition numeral (c : char) : bool := is_ascii_digit c || (c =? 46).
Lemma decimal_parts s : decimal_number s = true -> exists a t, s = a ++ t /\ a <> [] /\ forallb numeral a = true /\
  (t = [] \/ exists e sign x, t = e :: sign ++ x /\ (e = 101 \/ e = 69) /\ (sign = [] \/ sign = [43] \/ sign = [45]) /\
    x <> [] /\ forallb numeral x = true).
Proof.
  assert (D : forall a, forallb is_ascii_digit a = true -> forallb numeral a = true).
  { intros a. rewrite !forallb_true_iff. intros H x Hx. unfold numeral. by rewrite (H x Hx). }
  unfold decimal_number. destruct (digits s) as [w r] eqn:E1. apply digits_parts in E1 as [-> W].
  assert (F : exists f r', r = f ++ r' /\ forallb numeral f = true /\
    (match r with c :: r' => if c =? 46 then digits r' else ([], r) | [] => ([], r) end) = (List.tl f, r') /\ (List.tl f <> [] -> f <> [])).
  { destruct r as [|c r]; [by exists [], []|]. destruct (Z.eqb_spec c 46) as [->|N].
    - destruct (digits r) as [x y] eqn:E. pose proof (digits_parts _ _ _ E) as [-> X]. exists (46 :: x), y. cbn. by rewrite D.
    - by exists [], (c :: r). }
  destruct F as (f & r' & -> & Nf & -> & Ne). destruct (is_empty w && is_empty (List.tl f)) eqn:Em; [done|].
  intros H. exists (w ++ f), r'. split; [by rewrite (assoc app)|].
  split. { destruct w; [|done]. destruct f; done. }
  split; [by rewrite forallb_app, Nf, D|]. destruct r' as [|e r']; [by left|]. right.
  destruct ((e =? 101) || (e =? 69)) eqn:Ee; [|done]. destruct (digits (strip_sign r')) as [x y] eqn:Ex.
  apply digits_parts in Ex as [Ex X]. apply andb_prop in H as [Hx Hy]. destruct y; [|done]. rewrite app_nil_r in Ex.
  destruct (strip_sign_parts r') as (sign & Er & Hs). exists e, sign, x. rewrite Ex in Er. split; [by rewrite <- Er|].
  apply orb_prop in Ee as [Ee%Z.eqb_eq|Ee%Z.eqb_eq]; (split; [auto|]; split; [done|]; split; [by destruct x|by apply D]).
Qed.
Lemma number_accepted v : is_sqlite_numeric_literal v = true -> contains_rejected_default_text v = false.
Proof.
  unfold is_sqlite_numeric_literal. intros H. destruct (strip_sign_parts v) as (sign & E & S). rewrite E. clear E.
  apply decimal_parts in H as (a & t & -> & Na & A & T).
  assert (N : forall x l, numeral x = false -> forallb numeral l = true -> x ∉ l).
  { intros x l X L Hx. rewrite forallb_true_iff in L. by rewrite (L x Hx) in X. }
  assert (O : forall x, numeral x = false -> (x = 43 \/ x = 45 \/ x = 101 \/ x = 69 -> False) -> x ∉ sign ++ a ++ t).
  { intros x X Nx. rewrite !elem_of_app. intros [Hx|[Hx|Hx]].
    - destruct S as [->|[->| ->]]; [by apply elem_of_nil in Hx|apply list_elem_of_singleton in Hx; lia..].
    - by apply (N x a) in Hx.
    - destruct T as [->|(e & s' & y & -> & Ee & S' & _ & Y)]; [by apply elem_of_nil in Hx|].
      apply elem_of_cons in Hx as [->|[Hx|Hx]%elem_of_app]; [lia|..|by apply (N x y) in Hx].
      destruct S' as [->|[->| ->]]; [by apply elem_of_nil in Hx|apply list_elem_of_singleton in Hx; lia..]. }
  apply rejected_absent; [by apply O; [|lia]..|]. replace (u "--") with [45; 45] by (by vm_compute).
  assert (B : contains [45; 45] (a ++ t) = false).
  { rewrite contains_past by (by apply N). destruct T as [->|(e & s' & y & -> & Ee & S' & Ny & Y)]; [done|].
    change (e :: s' ++ y) with ([e] ++ s' ++ y). rewrite contains_past by (rewrite list_elem_of_singleton; lia).
    destruct S' as [->|[->| ->]]; [by apply contains_absent, N..| |].
    - rewrite (contains_past 45 [45] [43]) by (rewrite list_elem_of_singleton; lia). by apply contains_absent, N.
    - destruct y as [|c y]; [done|]. pose proof (N 45 _ eq_refl Y) as M. apply not_elem_of_cons in M as [M1 M2].
      change ([45] ++ c :: y) with (45 :: c :: y). rewrite contains_single by done. apply contains_absent. by apply N. }
  destruct S as [->|[->| ->]]; [done| |].
  - by rewrite (contains_past 45 [45] [43]) by (rewrite list_elem_of_singleton; lia).
  - destruct a as [|c a]; [done|]. pose proof (N 45 _ eq_refl A) as [M _]%not_elem_of_cons.
    change ([45] ++ (c :: a) ++ t) with (45 :: c :: (a ++ t)). by rewrite contains_single.
Qed.

Lemma unfolded_sub upper_char s t : (forall c, c ∈ s -> c ∈ t) -> unfolded upper_char t -> unfolded upper_char s.
Proof. unfold unfolded. rewrite !list.Forall_forall. naive_solver. Qed.
Lemma unfolded_ascii upper_char s : forallb is_ascii (to_ascii_uppercase s) = true -> unfolded upper_char s.
Proof.
  intros H. apply list.Forall_forall. intros c Hc. left. rewrite forallb_true_iff in H.
  specialize (H (ascii_upper c) (list_elem_of_fmap_2 ascii_upper _ _ Hc)). unfold ascii_upper, is_ascii, is_ascii_lower in *.
  destruct ((97 <=? c) && (c <=? 122)) eqn:E; lia.
Qed.
Lemma trim_sub s c : c ∈ trim s -> c ∈ s.
Proof. intros H. destruct (trim_split s) as (a & b & E & _). rewrite E, !elem_of_app. auto. Qed.

(** The two tests for expressions the builder takes as they are. *)
Lemma raw_default_equal upper_char s : unfolded upper_char s ->
  (let upper := to_uppercase upper_char s in
    str_eqb upper (u "NULL") || str_eqb upper (u "TRUE") || str_eqb upper (u "FALSE")
       || starts_with (u "CURRENT_TIMESTAMP") upper || starts_with (u "CURRENT_DATE") upper
       || starts_with (u "CURRENT_TIME") upper || parses_as_f64 s) = builder_treats_as_raw_default s.
Proof. intros F. cbn zeta. by rewrite !upper_equal, !upper_prefix by done. Qed.
Lemma raw_kept upper_char v : contains_rejected_default_text v = false -> unfolded upper_char v ->
  builder_treats_as_raw_default v = true -> sqlite_default_sql upper_char v = Ok v.
Proof. intros R F B. unfold sqlite_default_sql. rewrite R. pose proof (raw_default_equal _ _ F) as E. cbn zeta in E. by rewrite E, B. Qed.
Lemma word_kept upper_char v w : to_ascii_uppercase v = u w -> forallb (fun c => is_ascii_upper c || (c =? 95)) (u w) = true ->
  one_of (u w) ["NULL"; "TRUE"; "FALSE"; "CURRENT_TIME"; "CURRENT_DATE"; "CURRENT_TIMESTAMP"]%string = true ->
  sqlite_default_sql upper_char v = Ok v.
Proof.
  intros E W O. apply raw_kept; [by eapply word_accepted| |].
  - apply unfolded_ascii. rewrite E. revert W. rewrite !forallb_true_iff. intros W x Hx. specialize (W x Hx).
    unfold is_ascii_upper, is_ascii in *. lia.
  - unfold builder_treats_as_raw_default. rewrite E. unfold one_of in O. rewrite existsb_true_iff in O. destruct O as (x & Hx & ->%str_eqb_eq).
    repeat (apply elem_of_cons in Hx as [->|Hx]; [by vm_compute|]). by apply elem_of_nil in Hx.
Qed.

(** The expression the builder writes for a default it accepts is the source's. *)
Lemma default_verbatim upper_char d n : normalize_default_for_builder d = Ok n -> (forall e, d = Some e -> unfolded upper_char e) ->
  match d with
  | None => nd_value n = None
  | Some e => exists v, nd_value n = Some v /\ trim v = v /\ v <> [] /\ sqlite_default_sql upper_char v = Ok (trim e)
  end.
Proof.
  destruct d as [e|]; [|by intros [= <-]]. intros H F. specialize (F e eq_refl). cbn [normalize_default_for_builder] in H.
  destruct (is_empty (trim e)) eqn:Em; [done|]. assert (Ne : trim e <> []) by (intros X; by rewrite X in Em).
  apply (unfolded_sub _ (trim e)) in F; [|apply trim_sub]. pose proof (trim_idem e) as T. set (v := trim e) in *. clearbody v.
  apply rbind_ok_inv in H as (o & P & H). destruct o as [l|].
  - apply parsed_literal in P. destruct (negb _ || _ || _ || _) eqn:C in H; [done|]. injection H as <-.
    rewrite !orb_false_iff, negb_false_iff in C. destruct C as [[[C1 C2] C3] C4]. exists l. apply str_eqb_eq in C1.
    split; [done|]. split; [done|]. split; [by intros ->|]. assert (Fl : unfolded upper_char l).
    { apply (unfolded_sub _ _ v); [|done]. intros c Hc. rewrite <- P. unfold sqlite_str, sqlite_string_literal.
      apply elem_of_app. right. apply elem_of_app. left. unfold replace_char. apply list_elem_of_In, in_concat.
      exists (if c =? 39 then [39; 39] else [c]). split; [apply (in_map (fun c => if c =? 39 then [39; 39] else [c])); by apply list_elem_of_In|].
      destruct (Z.eqb_spec c 39) as [->|]; by left. }
    unfold sqlite_default_sql. rewrite C4. pose proof (raw_default_equal _ _ Fl) as E. cbn zeta in E. by rewrite E, C3, P.
  - assert (Kv : sqlite_default_sql upper_char v = Ok v); [|destruct (str_eqb _ _); [|destruct (_ || _); [|destruct (one_of _ _); [|done]]];
      injection H as <-; by exists v].
    destruct (str_eqb (to_ascii_uppercase v) (u "NULL")) eqn:E1; [apply str_eqb_eq in E1; by eapply word_kept|].
    destruct (one_of (to_ascii_uppercase v) ["TRUE"; "FALSE"]%string) eqn:E2.
    { unfold one_of in E2. rewrite existsb_true_iff in E2. destruct E2 as (x & Hx & E2%str_eqb_eq).
      repeat (apply elem_of_cons in Hx as [->|Hx]; [by eapply word_kept|]). by apply elem_of_nil in Hx. }
    destruct (is_sqlite_numeric_literal v) eqn:E3.
    { apply raw_kept; [by apply number_accepted|done|]. unfold builder_treats_as_raw_default, parses_as_f64.
      unfold is_sqlite_numeric_literal in E3. rewrite E3. cbn [orb]. by rewrite !orb_true_r. }
    cbn [orb] in H. destruct (one_of (to_ascii_uppercase v) _) eqn:E4 in H; [|done].
    unfold one_of in E4. rewrite existsb_true_iff in E4. destruct E4 as (x & Hx & E4%str_eqb_eq).
    repeat (apply elem_of_cons in Hx as [->|Hx]; [by eapply word_kept|]). by apply elem_of_nil in Hx.
Qed.


(** The column definition of the statements, in terms of the snapshot. *)
Definition definition_text (column_type : str) (nullable : bool) (default_value : option str) : str :=
  join (u " ") ([trim column_type] ++ (if nullable then [] else [u "NOT NULL"])
                ++ (match default_value with Some e => [u "DEFAULT " ++ trim e] | None => [] end)).
Lemma definition_verbatim upper_char ty null d n def : normalize_default_for_builder d = Ok n ->
  (forall e, d = Some e -> unfolded upper_char e) ->
  build_sqlite_column_definition upper_char ty null (nd_value n) = Ok def -> def = definition_text ty null d.
Proof.
  intros N F. pose proof (default_verbatim upper_char d n N F) as V. unfold build_sqlite_column_definition, definition_text.
  intros H. apply rbind_ok_inv in H as (_ & _ & H). destruct d as [e|].
  - destruct V as (v & Ev & T & Ne & S). rewrite Ev in H. cbn [fmap option_fmap option_map] in H. rewrite T in H.
    destruct (is_empty v) eqn:Em; [by destruct v|]. rewrite S in H. cbn [rbind] in H. injection H as <-. by destruct null.
  - rewrite V in H. cbn [fmap option_fmap option_map] in H. injection H as <-. by destruct null.
Qed.

(** The text default ['falſe'] is not recognised as a word by the check, which
    folds ASCII, but as one by the builder, which folds Unicode: the statement
    loses the quotes. *)
Definition long_s : str := u "'fal" ++ [383] ++ u "e'".
Lemma folded_default_loses_quotes upper_char : upper_char 383 = u "S" ->
  normalize_default_for_builder (Some long_s) = Ok (mkDefault (Some (u "fal" ++ [383] ++ u "e")) Constant) /\
  sqlite_default_sql upper_char (u "fal" ++ [383] ++ u "e") = Ok (u "fal" ++ [383] ++ u "e").
Proof.
  intros E. split; [vm_compute; reflexivity|]. unfold sqlite_default_sql.
  assert (U : to_uppercase upper_char (u "fal" ++ [383] ++ u "e") = u "FALSE").
  { unfold to_uppercase. replace (u "fal" ++ [383] ++ u "e") with [102; 97; 108; 383; 101] by (by vm_compute).
    cbn [map concat]. change (is_ascii 383) with false. cbn iota. rewrite E. vm_compute. reflexivity. }
  rewrite U. vm_compute. reflexivity.
Qed.

End SqliteDefaults.
