(* ===== verification/SqliteConverge.v ===== *)
(** What carrying out a plan does to a SQLite table: the statements of
    [SqliteSync.plan_table] turn the target's table into the source's, with its
    columns in the source's order.

    A column definition means what the server reads in its text ([described]);
    the effect of a statement is SQLite's documented one. *)
From S2P Require Import Prelude OrderedMap RustText DataTypes SchemaCompare SyncTypes ColumnOrder SyncFacts Ddl SqliteSync SqliteDefaults.
Import SchemaCompare SyncTypes SyncFacts Ddl SqliteSync SqliteDefaults.

Module SqliteConverge.

#[local] Opaque u changed_fields.

(** ** Tables on the server *)

Record Attributes : Type := mkAttributes {
  at_type : str; at_nullable : bool; at_default : option str; at_extra : str; at_comment : str }.
Record attributes_equiv (a b : Attributes) : Prop := {
  ae_type : at_type a = at_type b;
  ae_nullable : at_nullable a = at_nullable b;
  ae_default : default_equiv (at_default a) (at_default b);
  ae_extra : at_extra a = at_extra b;
  ae_comment : at_comment a = at_comment b;
}.
#[export] Instance attributes_equivalence : Equivalence attributes_equiv.
Proof.
  split.
  - intros a. by split.
  - intros a b []. split; by symmetry.
  - intros a b c [] []. split; by etransitivity.
Qed.
Record Table : Type := mkTable { tb_columns : list (str * Attributes); tb_key : list str }.

Inductive Statement : Type :=
| CreateTableStatement (definitions : list (str * str)) (primary_keys : list str)
| DropTableStatement
| AddColumnStatement (name definition : str)
| DropColumnStatement (name : str).

(** The texts of [build_create_table_sql], [build_add_column_sql] and of the
    drops of a plan. *)
Definition render (database table : str) (s : Statement) : str :=
  match s with
  | CreateTableStatement definitions primary_keys =>
    u "CREATE TABLE " ++ place database table ++ u " (" ++ [10]
    ++ join (u "," ++ [10])
         (map (fun d => u "  " ++ sqlite_id d.1 ++ u " " ++ d.2) definitions
          ++ (if is_empty primary_keys then [] else [u "  PRIMARY KEY (" ++ join (u ", ") (map sqlite_id primary_keys) ++ u ")"]))
    ++ [10] ++ u ")"
  | DropTableStatement => u "DROP TABLE " ++ place database table
  | AddColumnStatement name definition =>
    u "ALTER TABLE " ++ place database table ++ u " ADD COLUMN " ++ sqlite_id name ++ u " " ++ definition
  | DropColumnStatement name => u "ALTER TABLE " ++ place database table ++ u " DROP COLUMN " ++ sqlite_id name
  end.

Section Effect.
Context (described : str -> Attributes).
Definition alter (s : Statement) (t : Table) : Table :=
  match s with
  | AddColumnStatement n d => mkTable (tb_columns t ++ [(n, described d)]) (tb_key t)
  | DropColumnStatement n => mkTable (ColumnOrder.without n (tb_columns t)) (filter (fun m => m <> n) (tb_key t))
  | CreateTableStatement _ _ | DropTableStatement => t
  end.
Definition effect (s : Statement) (t : option Table) : option Table :=
  match s with
  | CreateTableStatement definitions keys => Some (mkTable (map (fun d => (d.1, described d.2)) definitions) keys)
  | DropTableStatement => None
  | _ => alter s <$> t
  end.
End Effect.

(** ** What a snapshot says of a table *)

Definition attributes_of (c : ColumnSnapshot) : Attributes :=
  mkAttributes (column_type c) (nullable c) (default_value c) (extra c) (comment c).
Definition represents (snapshot : option TableSnapshot) (metadata : option TableSyncMetadata) (t : option Table) : Prop :=
  match snapshot, t with
  | None, None => True
  | Some s, Some t =>
    map fst (tb_columns t) = names_of s /\
    (forall n c a, (n, c) ∈ ts_columns s -> (n, a) ∈ tb_columns t -> attributes_equiv a (attributes_of c)) /\
    (forall m, table_metadata metadata (ts_name s) = Ok m -> sqlite_primary_key_columns s m = Ok (tb_key t))
  | _, _ => False
  end.

(** SQLite keeps no comments, and the extra the snapshot query writes is a word or nothing. *)
Record wf_snapshot (s : TableSnapshot) : Prop := {
  ws_names : NoDup (map fst (ts_columns s));
  ws_extra n c : (n, c) ∈ ts_columns s -> trim (extra c) = extra c /\ comment c = [];
}.
(** The server reads the definitions as they were meant, and the defaults have
    no character whose uppercase is ASCII although it is not. *)
Definition understands (upper_char : char -> str) (described : str -> Attributes) (s : TableSnapshot) : Prop :=
  forall n c, (n, c) ∈ ts_columns s -> extra c = [] ->
    (forall e, default_value c = Some e -> unfolded upper_char e) /\
    attributes_equiv (described (definition_text (column_type c) (nullable c) (default_value c))) (attributes_of c).

Definition text_of (c : ColumnSnapshot) : str := definition_text (column_type c) (nullable c) (default_value c).

Lemma generated_extra hidden c s n : wf_snapshot s -> (n, c) ∈ ts_columns s -> generated hidden c = false -> extra c = [].
Proof.
  intros W H G. unfold generated in G. apply orb_false_iff in G as [_ G]. apply negb_false_iff in G. unfold blank in G.
  apply is_empty_nil in G. by rewrite <- (proj1 (ws_extra s W n c H)).
Qed.

Section Plans.
Context (upper_char : char -> str) (described : str -> Attributes) (context : TablePlanContext) (source : TableSnapshot).
Context (source_wf : wf_snapshot source) (understood : understands upper_char described source).
Abbreviation sql := (render (cx_target_database context) (ts_name source)).

(** ** A new table *)

Lemma define_column_ok m c def : c ∈ ts_columns source -> define_column m source c = Ok def ->
  nc_name def = c.1 /\ extra c.2 = [] /\
  forall text, build_sqlite_column_definition upper_char (nc_column_type def) (nc_nullable def) (nc_default_value def) = Ok text ->
    text = text_of c.2.
Proof.
  destruct c as [n c]. intros Hc H. unfold define_column in H. cbn [fst snd] in *.
  apply rbind_ok_inv in H as (hidden & _ & H). destruct (generated hidden c) eqn:G; [done|].
  apply rbind_ok_inv in H as (d & D & H). injection H as <-. pose proof (generated_extra _ _ _ _ source_wf Hc G) as X.
  split; [done|]. split; [done|]. intros text. by apply definition_verbatim, (proj1 (understood n c Hc X)).
Qed.

Lemma sqlite_definitions_clean m cols plan defs : (forall c, c ∈ cols -> c ∈ ts_columns source) ->
  pf_blockers (fold_left (push_definition m source) cols (plan, defs)).1 = [] ->
  exists added, fold_left (push_definition m source) cols (plan, defs) = (plan, defs ++ added) /\
    Forall2 (fun c def => c ∈ ts_columns source /\ define_column m source c = Ok def) cols added.
Proof.
  induction cols as [|c cols IH] using rev_ind; [intros _ _; exists []; by rewrite app_nil_r|].
  intros Sub. rewrite fold_left_app. cbn [fold_left]. unfold push_definition at 1 3.
  destruct (define_column m source c) as [def|reason] eqn:E; cbn [fst snd]; [|by intros F%block_not_nil].
  intros B. destruct (IH ltac:(intros; apply Sub, elem_of_app; by left) B) as (added & -> & F).
  exists (added ++ [def]). cbn [fst snd]. split; [by rewrite (assoc app)|]. apply Forall2_app; [done|].
  constructor; [|constructor]. split; [|done]. apply Sub, elem_of_app. right. by left.
Qed.

Lemma create_text m added keys text :
  Forall2 (fun c def => c ∈ ts_columns source /\ define_column m source c = Ok def) (in_order source) added ->
  build_create_table_sql upper_char (cx_target_database context) (mkCreateTable (ts_name source) added keys [] None []) = Ok text ->
  text = sql (CreateTableStatement (map (fun c => (c.1, text_of c.2)) (in_order source)) keys).
Proof.
  intros F. unfold build_create_table_sql. cbn [ct_columns ct_primary_keys ct_table_name]. destruct (is_empty added); [done|].
  intros H. apply rbind_ok_inv in H as (parts & P & H). injection H as <-. unfold render. do 4 f_equal.
  assert (E : parts = map (fun d => u "  " ++ sqlite_id d.1 ++ u " " ++ d.2) (map (fun c => (c.1, text_of c.2)) (in_order source))); [|by rewrite E].
  apply traverse_ok_inv in P. rewrite map_map. revert parts P. induction F as [|c def cols added (Hc & D) F IH]; intros parts P.
  - by inversion P.
  - inversion P as [|? part ? rest Hp Hr]; subst. cbn [map]. f_equal; [|by apply IH].
    apply rbind_ok_inv in Hp as (text & B & Hp). injection Hp as <-.
    apply define_column_ok in D as (-> & _ & T); [|done]. by rewrite (T text B).
Qed.

Lemma created_columns : (forall c, c ∈ ts_columns source -> extra c.2 = []) ->
  let cols := map (fun d => (d.1, described d.2)) (map (fun c => (c.1, text_of c.2)) (in_order source)) in
  map fst cols = names_of source /\
  forall n c a, (n, c) ∈ ts_columns source -> (n, a) ∈ cols -> attributes_equiv a (attributes_of c).
Proof.
  intros X cols. split; [unfold cols, names_of; by rewrite !map_map|]. intros n c a Hc Ha. unfold cols in Ha. rewrite map_map in Ha.
  apply list_elem_of_fmap in Ha as ([n' c'] & [= -> ->] & Hc'). unfold in_order in Hc'. rewrite sort_by_elem in Hc'.
  assert ((n', c) = (n', c')) as [= ->] by (by apply (NoDup_map_inj fst (ts_columns source)); [apply source_wf|..]).
  apply (understood n'); [done|]. by apply (X (n', c')).
Qed.

Lemma sqlite_create_converges plan : clean (plan_create_table upper_char context source no_fragments) ->
  plan = plan_create_table upper_char context source no_fragments ->
  exists stmt, map po_sql (pf_operations plan) = [[sql stmt]] /\
    forall t, represents (Some source) (cx_source_metadata context) (effect described stmt t).
Proof.
  intros C ->. revert C. unfold plan_create_table.
  destruct (let? _ := table_metadata _ _ in _) as [m|reason] eqn:Em; [|by intros [F%block_not_nil _]].
  apply rbind_ok_inv in Em as (m' & Em & V). apply rbind_ok_inv in V as (_ & _ & [= <-]).
  destruct (is_empty (ts_columns source)); [by intros [F%block_not_nil _]|].
  pose proof (sqlite_definitions_clean m' (in_order source) no_fragments []) as D.
  assert (Sub : forall c, c ∈ in_order source -> c ∈ ts_columns source) by (intros c; unfold in_order; by rewrite sort_by_elem).
  specialize (D Sub). destruct (fold_left _ _ _) as [plan defs]. cbn [fst] in D.
  destruct (is_empty (pf_blockers plan)) eqn:B; cbn [negb]; [|by intros [F _]; rewrite F in B].
  apply is_empty_nil in B. destruct (D B) as (added & [= -> ->] & F). clear D B.
  destruct (sqlite_primary_key_columns source m') as [ks|e] eqn:K; [|by intros [G%block_not_nil _]]. cbn [app].
  destruct (build_create_table_sql _ _ _) as [text|e] eqn:T; [|by intros [G%block_not_nil _]]. intros _.
  exists (CreateTableStatement (map (fun c => (c.1, text_of c.2)) (in_order source)) ks). split.
  - cbn [operation pf_operations no_fragments app map po_sql]. do 2 f_equal. by eapply create_text.
  - intros t. cbn [effect represents tb_columns tb_key]. destruct created_columns as [E1 E2].
    { intros c Hc. assert (Hi : c ∈ in_order source) by (unfold in_order; by rewrite sort_by_elem).
      apply list_elem_of_lookup in Hi as [i Hi]. destruct (Forall2_lookup_l _ _ _ _ _ F Hi) as (def & _ & Hd & D).
      by apply (define_column_ok m' c def Hd) in D as (_ & ? & _). }
    split; [exact E1|]. split; [exact E2|]. intros m2 E. rewrite Em in E. by injection E as <-.
Qed.

(** ** A table that exists on both sides *)

Section Changed.
Context (target : TableSnapshot) (target_wf : wf_snapshot target) (metadata : SqliteTableMeta).
Abbreviation ds := (compare_table_columns source target).
Abbreviation in_source := (ColumnOrder.attributes (ts_columns source)).
Abbreviation in_target := (ColumnOrder.attributes (ts_columns target)).
Abbreviation differs := (plan_difference upper_char context metadata source (max_position target)).
#[local] Abbreviation difference_elem := (difference_elem source target (ws_names _ source_wf) (ws_names _ target_wf)).

Definition appended (d : ColumnDiff) : option (Z * str * str) :=
  match cd_status d, cd_source d with
  | SourceOnly, Some c => Some (ordinal_position c, cd_name d, sql (AddColumnStatement (cd_name d) (text_of c)))
  | _, _ => None
  end.
Definition dropped (d : ColumnDiff) : option str := match cd_status d with TargetOnly => Some (cd_name d) | _ => None end.
Definition settled (d : ColumnDiff) : Prop :=
  match cd_status d, cd_source d with
  | SourceOnly, Some c => max_position target < ordinal_position c /\ extra c = []
  | TargetOnly, _ => cx_include_drops context = true
  | _, _ => False
  end.

Lemma append_column_ok name c text : (name, c) ∈ ts_columns source ->
  append_column upper_char context metadata source (max_position target) name c = Ok text ->
  max_position target < ordinal_position c /\ extra c = [] /\ text = sql (AddColumnStatement name (text_of c)).
Proof.
  intros Hc. unfold append_column. destruct (ordinal_position c <=? _) eqn:L; [done|]. destruct (primary_key c); [done|]. intros H.
  apply rbind_ok_inv in H as (hidden & _ & H). destruct (generated hidden c) eqn:G; [done|].
  apply rbind_ok_inv in H as (d & D & H). destruct (_ && _); [done|]. destruct (bool_decide _); [done|].
  unfold build_add_column_sql in H. apply rbind_ok_inv in H as (def & B & H). cbn in B. injection H as <-.
  pose proof (generated_extra _ _ _ _ source_wf Hc G) as X. split; [lia|]. split; [done|].
  apply definition_verbatim with (d := default_value c) in B as ->; [done..|]. by apply (understood name).
Qed.

Lemma differs_mono st d : clean (ch_plan (differs st d)) -> clean (ch_plan st).
Proof.
  unfold plan_difference. destruct (cd_status d).
  - destruct (cd_source d) as [c|]; [|done]. destruct (append_column _ _ _ _ _ _ _); [done|]. by intros [F%block_not_nil _].
  - destruct (cx_include_drops context); [done|]. by intros [_ F%skip_not_nil].
  - by intros [F%block_not_nil _].
Qed.
Lemma difference_clean st d : d ∈ ds -> clean (ch_plan (differs st d)) ->
  settled d /\ ch_plan (differs st d) = ch_plan st /\
  ch_add (differs st d) = ch_add st ++ option_list (appended d) /\ ch_drop (differs st d) = ch_drop st ++ option_list (dropped d).
Proof.
  intros Hd. apply difference_elem in Hd as (Es & Et & Hd). unfold plan_difference, settled, appended, dropped.
  destruct (cd_status d), (cd_source d) as [c|]; try (by destruct (cd_target d); destruct Hd).
  - destruct (append_column _ _ _ _ _ _ _) as [text|r] eqn:A; [|by intros [F%block_not_nil _]]. intros _.
    apply append_column_ok in A as (L & X & ->); [|apply attributes_elem; [apply source_wf|done]].
    cbn [ch_plan ch_add ch_drop option_list]. by rewrite app_nil_r.
  - destruct (cx_include_drops context); [|by intros [_ F%skip_not_nil]]. intros _. cbn [ch_plan ch_add ch_drop option_list].
    by rewrite app_nil_r.
  - by intros [F%block_not_nil _].
Qed.
Lemma differences_clean l st : (forall d, d ∈ l -> d ∈ ds) -> clean (ch_plan (fold_left differs l st)) ->
  Forall settled l /\ ch_plan (fold_left differs l st) = ch_plan st /\
  ch_add (fold_left differs l st) = ch_add st ++ omap appended l /\ ch_drop (fold_left differs l st) = ch_drop st ++ omap dropped l.
Proof.
  revert st. induction l as [|d l IH]; intros st Sub C; [by cbn; rewrite !app_nil_r|]. cbn [fold_left] in *.
  destruct (IH (differs st d)) as (F & E1 & E2 & E3); [intros; apply Sub; by right|done|].
  destruct (difference_clean st d) as (S & D1 & D2 & D3); [apply Sub; by left|by rewrite E1 in C|].
  split; [by constructor|]. rewrite E1, E2, E3, D1, D2, D3, !omap_first. split; [done|].
  destruct (appended d), (dropped d); cbn [option_list]; rewrite <- ?(assoc app), ?app_nil_r; done.
Qed.

(** ** The columns after the plan *)

Context (differences_settled : Forall settled ds).
Abbreviation is_new := (is_new target).
Abbreviation new_columns := (new_columns source target).
Definition add_statement (c : str * ColumnSnapshot) : Statement := AddColumnStatement c.1 (text_of c.2).

#[local] Abbreviation source_column := (source_column source (ws_names _ source_wf)).
#[local] Abbreviation target_column := (target_column target (ws_names _ target_wf)).
#[local] Abbreviation new_column := (new_column source target (ws_names _ source_wf)).
Lemma new_settled n c : in_source n = Some c -> in_target n = None -> max_position target < ordinal_position c /\ extra c = [].
Proof.
  intros E1 E2. rewrite list.Forall_forall in differences_settled.
  by apply (differences_settled _ (new_difference source target (ws_names _ source_wf) (ws_names _ target_wf) n c E1 E2)).
Qed.
Lemma common_equal n c c' : in_source n = Some c -> in_target n = Some c' -> column_equiv c c'.
Proof.
  intros E1 E2. apply changed_fields_nil. destruct (decide (changed_fields c c' = [])) as [|N]; [done|]. rewrite list.Forall_forall in differences_settled.
  destruct (differences_settled _ (changed_difference source target (ws_names _ source_wf) (ws_names _ target_wf) n c c' E1 E2 N)).
Qed.

Lemma added_statements : map snd (sort_by by_place (omap appended ds)) = map sql (map add_statement new_columns).
Proof.
  rewrite map_map. apply (new_entries source target (ws_names _ source_wf)).
  - rewrite sort_by_perm. apply omap_NoDup; [|apply (NoDup_fmap_1 cd_name), difference_names].
    intros d d' a E E' Hd Hd'. apply (NoDup_map_inj cd_name ds); [apply difference_names|done..|].
    unfold appended in E, E'. destruct (cd_status d), (cd_source d), (cd_status d'), (cd_source d'); try done. congruence.
  - apply (sort_by_sorted (cmp_on entry_key by_key)).
  - intros e. rewrite sort_by_elem, list_elem_of_omap. unfold appended. split.
    + intros (d & Hd & E). apply difference_elem in Hd as (Es & Et & Hd). destruct (cd_status d), (cd_source d) as [c|]; try done.
      injection E as <-. exists (cd_name d, c). split; [by apply source_column|]. split; [|done].
      unfold SyncFacts.is_new. cbn. rewrite <- Et. destruct (cd_target d); [by destruct Hd|done].
    + intros ([n c] & Hc & Hn & ->). exists (mkColumnDiff n SourceOnly [] (Some c) None). split; [|done].
      apply new_difference; [apply source_wf|apply target_wf|by apply source_column|done].
Qed.

Context (t : Table) (target_names : map fst (tb_columns t) = names_of target).
Context (target_attributes : forall n c a, (n, c) ∈ ts_columns target -> (n, a) ∈ tb_columns t -> attributes_equiv a (attributes_of c)).
Context (gone : list str) (gone_dropped : gone ≡ₚ omap dropped ds).

Definition described_column (c : str * ColumnSnapshot) : str * Attributes := (c.1, described (text_of c.2)).
Definition after_plan : list (str * Attributes) := filter (fun c => c.1 ∉ gone) (tb_columns t ++ map described_column new_columns).

Lemma gone_elem n : n ∈ gone <-> in_source n = None /\ in_target n <> None.
Proof. rewrite gone_dropped. apply dropped_elem; [apply source_wf|apply target_wf]. Qed.

(** Its columns have the source's names, in the source's order. *)
Lemma after_names_source : map fst after_plan = names_of source.
Proof.
  rewrite <- (appended_order source target (ws_names _ source_wf) (ws_names _ target_wf) gone).
  - unfold after_plan. rewrite filter_app, map_app. f_equal.
    + rewrite <- target_names. generalize (tb_columns t) as l. induction l as [|c l IH]; [done|]. cbn [map]. rewrite !filter_cons.
      destruct (decide (c.1 ∉ gone)); cbn [map]; by rewrite IH.
    + rewrite ColumnOrder.filter_all; [rewrite map_map; by apply map_ext|]. intros c ([n c'] & -> & Hc)%list_elem_of_fmap. cbn.
      apply new_column in Hc as [Hc _]. rewrite gone_elem. rewrite Hc. by intros [? _].
  - intros n c c' E1 E2. apply (equiv_position _ _ (common_equal n c c' E1 E2)).
  - intros n c E1 E2. by apply (new_settled n).
  - exact gone_elem.
Qed.

Lemma after_attributes n c a : (n, c) ∈ ts_columns source -> (n, a) ∈ after_plan -> attributes_equiv a (attributes_of c).
Proof.
  intros Hc [_ [Ha|Ha]%elem_of_app]%list_elem_of_filter.
  - assert (Hn : n ∈ names_of target) by (rewrite <- target_names; by apply (list_elem_of_fmap_2 fst _ (n, a))).
    apply names_of_elem in Hn. destruct (in_target n) as [c'|] eqn:E; [|done]. apply source_column in Hc.
    destruct (common_equal n c c' Hc E). apply target_column in E. transitivity (attributes_of c'); [by apply (target_attributes n)|].
    split; cbn; try congruence. by symmetry.
  - apply list_elem_of_fmap in Ha as ([n' c'] & [= -> ->] & Hn). apply new_column in Hn as [E1 E2]. apply source_column in Hc.
    assert (c' = c) as -> by congruence. cbn. apply (understood n'); [by apply source_column|]. by apply (new_settled n').
Qed.
End Changed.

Lemma key_names s m ks : sqlite_primary_key_columns s m = Ok ks -> forall n, n ∈ ks -> n ∈ map fst (ts_columns s).
Proof.
  unfold sqlite_primary_key_columns. intros H. apply rbind_ok_inv in H as (r & H & E). destruct (consecutive 0 _); [|done].
  injection E as <-. intros n (e & -> & He)%list_elem_of_fmap. rewrite sort_by_elem in He. revert H He. generalize (@nil Z) as seen. revert r.
  induction (ts_columns s) as [|[k c] l IH]; intros r seen; cbn [key_ordinals]; [intros [= <-] F; by apply elem_of_nil in F|].
  destruct (sqlite_column m k) as [[h o]|]; [|discriminate]. destruct (primary_key c), o as [o|]; try discriminate.
  - destruct (bool_decide _); [discriminate|]. intros H. apply rbind_ok_inv in H as (r' & H & E). injection E as <-.
    intros [->|F]%elem_of_cons; [by left|right; by apply (IH r' (o :: seen))].
  - intros H F. right. by apply (IH r seen).
Qed.

Lemma adds_effect l t : fold_left (fun t s => alter described s t) (map add_statement l) t =
  mkTable (tb_columns t ++ map described_column l) (tb_key t).
Proof.
  revert t. induction l as [|c l IH]; intros [cols k]; cbn [map fold_left alter add_statement tb_columns tb_key]; [by rewrite app_nil_r|].
  rewrite IH. cbn [tb_columns tb_key]. by rewrite <- (assoc app).
Qed.
Lemma sqlite_drops_effect ns t : fold_left (fun t s => alter described s t) (map DropColumnStatement ns) t =
  mkTable (filter (fun c => c.1 ∉ ns) (tb_columns t)) (filter (fun m => m ∉ ns) (tb_key t)).
Proof.
  revert t. induction ns as [|n ns IH]; intros [cols k]; cbn [map fold_left alter tb_columns tb_key].
  { rewrite !ColumnOrder.filter_all by (intros; apply not_elem_of_nil). done. }
  rewrite IH. cbn [tb_columns tb_key]. unfold ColumnOrder.without. rewrite !list_filter_filter.
  f_equal; apply list_filter_iff; intros x; rewrite not_elem_of_cons; tauto.
Qed.
Lemma sqlite_effects_alters l t : Forall (fun s => match s with CreateTableStatement _ _ | DropTableStatement => False | _ => True end) l ->
  fold_left (fun t s => effect described s t) l (Some t) = Some (fold_left (fun t s => alter described s t) l t).
Proof.
  intros F. revert t. induction F as [|s l Hs F IH]; intros t; [done|]. cbn [fold_left]. destruct s; try done; apply IH.
Qed.

Definition drop_operation (n : str) : PendingOperation :=
  mkPending DropColumnPhase (ts_name source) DropColumn (u "删除目标端独有字段 " ++ ts_name source ++ u "." ++ n) Destructive
    [u "ALTER TABLE " ++ place (cx_target_database context) (ts_name source) ++ u " DROP COLUMN " ++ sqlite_id n].
Lemma drop_columns_plan ns plan : fold_left (drop_column context source) ns plan =
  mkFragments (pf_operations plan ++ map drop_operation ns) (pf_skipped_items plan) (pf_blockers plan).
Proof.
  revert plan. induction ns as [|n ns IH]; intros [ops sk bl]; cbn [fold_left map]; [by rewrite app_nil_r|].
  rewrite IH. cbn [drop_column operation pf_operations pf_skipped_items pf_blockers]. by rewrite <- (assoc app).
Qed.
Lemma sqlite_drop_operations_sql ns : concat (map po_sql (map drop_operation ns)) = map sql (map DropColumnStatement ns).
Proof. induction ns as [|n ns IH]; [done|]. cbn [map concat]. by rewrite IH. Qed.

Lemma comparable_ok target m : comparable context source target = Ok m ->
  table_metadata (cx_source_metadata context) (ts_name source) = Ok m /\
  exists m' ks, table_metadata (cx_target_metadata context) (ts_name target) = Ok m' /\
    sqlite_primary_key_columns source m = Ok ks /\ sqlite_primary_key_columns target m' = Ok ks.
Proof.
  unfold comparable. intros H. apply rbind_ok_inv in H as (sm & Hs%map_err_ok_inv & H). apply rbind_ok_inv in H as (tm & Ht%map_err_ok_inv & H).
  apply rbind_ok_inv in H as (_ & _ & H). apply rbind_ok_inv in H as (_ & _ & H).
  apply rbind_ok_inv in H as (sk & Ks%map_err_ok_inv & H). apply rbind_ok_inv in H as (tk & Kt%map_err_ok_inv & H).
  destruct (negb (bool_decide (sk = tk))) eqn:E; [discriminate|]. apply negb_false_iff, bool_decide_eq_true in E as ->.
  destruct (negb (Bool.eqb _ _)); [discriminate|]. destruct (negb (str_eqb _ _)); [discriminate|]. injection H as ->.
  split; [done|]. by exists tm, tk.
Qed.

(** The operations of an unblocked plan: the new columns, then the drops. *)
Lemma changed_operations target m : wf_snapshot target -> comparable context source target = Ok m ->
  clean (plan_changed_table upper_char context source target no_fragments) ->
  Forall (settled target) (compare_table_columns source target) /\
  exists adds, pf_operations (plan_changed_table upper_char context source target no_fragments) =
      adds ++ map drop_operation (sort_by str_cmp (omap dropped (compare_table_columns source target))) /\
    Forall (fun o => po_phase o = AddColumnPhase) adds /\ (length adds <= 1)%nat /\
    concat (map po_sql adds) = map sql (map add_statement (new_columns source target)).
Proof.
  intros Wt Ec C. unfold plan_changed_table in *. rewrite Ec in *.
  set (st := fold_left _ _ _) in *. pose proof (differences_clean target Wt m (compare_table_columns source target) (mkChanges no_fragments [] Normal [])) as D.
  fold st in D. destruct (is_empty (pf_blockers (ch_plan st))) eqn:B; cbn [negb] in *; [|destruct C as [C _]; by rewrite C in B].
  rewrite drop_columns_plan in *.
  assert (Cl : clean (ch_plan st)). { revert C. unfold clean. cbn [pf_blockers pf_skipped_items]. by destruct (is_empty (map snd _)). }
  destruct (D (fun d Hd => Hd) Cl) as (F & E1 & E2 & E3). cbn [ch_plan ch_add ch_drop app] in E1, E2, E3. split; [done|].
  pose proof (added_statements target Wt) as A. rewrite E2, E3, E1. cbn [pf_operations].
  rewrite A. destruct (is_empty (map sql (map add_statement (new_columns source target)))) eqn:Em.
  - exists []. split; [reflexivity|]. split; [constructor|]. split; [cbn; lia|]. apply is_empty_nil in Em. rewrite Em. done.
  - eexists [mkPending _ _ _ _ _ _]. split; [reflexivity|]. split; [by repeat constructor|].
    split; [cbn; lia|]. cbn [map concat po_sql]. by rewrite app_nil_r.
Qed.

Lemma sqlite_changed_converges target ops t : wf_snapshot target ->
  represents (Some target) (cx_target_metadata context) (Some t) ->
  clean (plan_changed_table upper_char context source target no_fragments) ->
  ops ≡ₚ pf_operations (plan_changed_table upper_char context source target no_fragments) -> in_phases ops ->
  exists stmts, concat (map po_sql ops) = map sql stmts /\
    represents (Some source) (cx_source_metadata context) (fold_left (fun t s => effect described s t) stmts (Some t)).
Proof.
  intros Wt (R1 & R2 & R3) C P S. destruct (comparable context source target) as [m|[sm r]] eqn:Ec.
  2: { unfold plan_changed_table in C. rewrite Ec in C. by destruct C as [F%block_not_nil _]. }
  destruct (comparable_ok target m Ec) as (Hm & m' & ks & Hm' & Ks & Kt).
  destruct (changed_operations target m Wt Ec C) as (F & adds & E & Fa & La & Sa). rewrite E in P.
  destruct (phases_split ops adds _ 3 S P) as (a' & b' & -> & Pa & Pb & _).
  { eapply list.Forall_impl; [exact Fa|]. cbn. by intros o ->. }
  { apply list.Forall_forall. by intros o (n & -> & _)%list_elem_of_fmap. }
  apply short_perm in Pa as ->; [|done]. apply Permutation_map_inv in Pb as (gone & -> & Pg). rewrite sort_by_perm in Pg. symmetry in Pg.
  exists (map add_statement (new_columns source target) ++ map DropColumnStatement gone). split.
  { by rewrite map_app, concat_app, map_app, Sa, sqlite_drop_operations_sql. }
  rewrite sqlite_effects_alters.
  2: { apply list.Forall_app. split; apply list.Forall_forall; by intros s (x & -> & _)%list_elem_of_fmap. }
  rewrite fold_left_app, adds_effect, sqlite_drops_effect. cbn [tb_columns tb_key]. split; [|split].
  - by eapply after_names_source.
  - intros n c a Hc Ha. by eapply after_attributes.
  - intros m2 E2. rewrite Hm in E2. injection E2 as <-. cbn [tb_key]. rewrite Ks. f_equal.
    specialize (R3 m' Hm'). rewrite Kt in R3. injection R3 as ->. rewrite ColumnOrder.filter_all; [done|].
    intros n Hn. rewrite (gone_elem target Wt gone Pg). intros [G _]. apply (key_names source m _ Ks) in Hn.
    by apply ColumnOrder.attributes_none in G.
Qed.
End Plans.

(** ** Carrying out a plan *)

Definition table_name (context : TablePlanContext) : str :=
  match cx_source context, cx_target context with Some s, _ => ts_name s | None, Some t => ts_name t | None, None => [] end.
(** The effect of a clean plan's statements, from any order of its operations
    that keeps the phases. *)
Lemma sqlite_plan_effect upper_char described context ops t0 :
  (forall s, cx_source context = Some s -> wf_snapshot s /\ understands upper_char described s) ->
  (forall s, cx_target context = Some s -> wf_snapshot s) ->
  represents (cx_target context) (cx_target_metadata context) t0 ->
  clean (plan_table upper_char context) ->
  ops ≡ₚ pf_operations (plan_table upper_char context) -> in_phases ops ->
  exists stmts, concat (map po_sql ops) = map (render (cx_target_database context) (table_name context)) stmts /\
    represents (cx_source context) (cx_source_metadata context) (fold_left (fun t s => effect described s t) stmts t0).
Proof.
  intros Ws Wt R C P S. unfold plan_table, table_name in *.
  destruct (cx_source context) as [s|] eqn:Es, (cx_target context) as [g|] eqn:Et.
  - destruct (Ws s eq_refl) as [W U]. destruct t0 as [t|]; [|done].
    destruct (sqlite_changed_converges upper_char described context s W U g ops t (Wt g eq_refl) R C P S) as (stmts & E & H).
    by exists stmts.
  - destruct (Ws s eq_refl) as [W U]. destruct (sqlite_create_converges upper_char described context s W U _ C eq_refl) as (stmt & E & H).
    exists [stmt]. split; [|apply H].
    assert (L : ops = pf_operations (plan_create_table upper_char context s no_fragments)); [|by rewrite L, E].
    apply short_perm; [|exact P]. apply (f_equal length) in E. rewrite length_map in E. rewrite E. cbn. lia.
  - unfold plan_target_only_table in *. destruct (let? _ := _ in _); [|by destruct C as [F%block_not_nil _]].
    destruct (cx_include_drops context); [|by destruct C as [_ F%skip_not_nil]].
    exists [DropTableStatement]. split; [|done].
    cbn in P. apply Permutation_singleton_r in P. by rewrite P.
  - by destruct C as [F%block_not_nil _].
Qed.


(** ** Examples *)

Definition sample_column (position : Z) (ty : str) (null pk : bool) (d : option str) : ColumnSnapshot := mkColumn position ty null d pk [] [].
Definition sample_source : TableSnapshot :=
  mkSnapshot (u "users") [(u "id", sample_column 1 (u "INTEGER") false true None); (u "name", sample_column 3 (u "TEXT") false false (Some (u "'it''s'")))].
Definition sample_target : TableSnapshot :=
  mkSnapshot (u "users") [(u "id", sample_column 1 (u "INTEGER") false true None); (u "old", sample_column 2 (u "TEXT") true false None)].
Definition sample_metadata : TableSyncMetadata :=
  SqliteTable (mkSqliteTable (u "CREATE TABLE users (id INTEGER, PRIMARY KEY (id))")
    [(u "id", SqliteColumn 0 (Some 1)); (u "name", SqliteColumn 0 None); (u "old", SqliteColumn 0 None)]).
Definition sample_context : TablePlanContext :=
  mkContext (u "main") (Some sample_source) (Some sample_target) (Some sample_metadata) (Some sample_metadata) true.
Definition sample_described (d : str) : Attributes :=
  if str_eqb d (u "INTEGER NOT NULL") then mkAttributes (u "INTEGER") false None [] []
  else mkAttributes (u "TEXT") false (Some (u "'it''s'")) [] [].
Definition sample_apply (s : Statement) (t : option Table) : option (option Table) := Some (effect sample_described s t).
#[export] Instance sample_server : AlterServer (effect sample_described) sample_apply.
Proof. split. by intros s t t' [= <-]. Qed.
Definition sample_table : Table :=
  mkTable [(u "id", mkAttributes (u "INTEGER") false None [] []); (u "old", mkAttributes (u "TEXT") true None [] [])] [u "id"].
Definition upper_ascii (c : char) : str := [ascii_upper c].
Definition sample_operations : list PendingOperation := pf_operations (plan_table upper_ascii sample_context).
Example sqlite_sample_statements : concat (map po_sql sample_operations) =
  map (render (u "main") (u "users")) [AddColumnStatement (u "name") (u "TEXT NOT NULL DEFAULT 'it''s'"); DropColumnStatement (u "old")].
Proof. vm_compute. reflexivity. Qed.
Example sample_plan_clean : clean (plan_table upper_ascii sample_context).
Proof. split; vm_compute; reflexivity. Qed.
Lemma sample_column_wf s : forallb (fun c => is_empty (extra c.2) && is_empty (comment c.2)) (ts_columns s) = true ->
  bool_decide (NoDup (map fst (ts_columns s))) = true -> wf_snapshot s.
Proof.
  intros F N%bool_decide_eq_true. split; [done|]. intros n c H. rewrite forallb_true_iff in F. specialize (F _ H). cbn in F.
  apply andb_prop in F as [->%is_empty_nil ->%is_empty_nil]. done.
Qed.
Lemma ascii_unfolded upper_char s : forallb is_ascii s = true -> unfolded upper_char s.
Proof. rewrite forallb_true_iff. intros H. apply list.Forall_forall. intros c Hc. left. by apply H. Qed.


End SqliteConverge.
