(* ===== verification/PostgresDdl.v ===== *)
(** The statement builders of PostgreSQL (src-tauri/src/db/postgres_ddl.rs,
    lines 19-398 and 484-526).  [char::to_uppercase] is the parameter
    [upper_char], [str::to_lowercase] and [char::is_alphanumeric] are parameters
    of the checks of names. *)
From S2P Require Import Prelude RustText SqlDialect Ddl.
Import SqlDialect Ddl.

Module PostgresDdl.

Definition pg_id : str -> str := postgres_identifier.
Definition pg_str : str -> str := postgres_string_literal.
Definition place (schema table : str) : str := pg_id schema ++ u "." ++ pg_id table.
Definition alter_table (schema table : str) : str := u "ALTER TABLE " ++ place schema table.

(** ** Schemas *)

Definition SYSTEM_SCHEMAS : list String.string := ["pg_catalog"; "information_schema"; "pg_toast"; "pg_temp_1"; "pg_toast_temp_1"]%string.
Definition validate_modifiable_schema_name (to_lowercase : str -> str) (schema : str) : result unit str :=
  let s := trim schema in
  let lower := to_lowercase s in
  if is_empty s then Err (u "schema 名称不能为空")
  else if one_of lower SYSTEM_SCHEMAS || starts_with (u "pg_") lower then Err (u "禁止修改系统 schema `" ++ s ++ u "`")
  else Ok tt.
Definition validate_new_schema_name (is_alphanumeric : char -> bool) (schema : str) : result unit str :=
  let s := trim schema in
  if is_empty s then Err (u "schema 名称不能为空")
  else if 63 <? str_len s then Err (u "schema 名称过长（PostgreSQL 标识符最长 63 字节）")
  else if forallb (fun c => is_alphanumeric c || contains_char c (u "_-$")) s then Ok tt
  else Err (u "schema 名称只能包含字母、数字、下划线、连字符和 $（建议使用字母开头）").

Definition build_create_schema_sql (schema : str) : str := u "CREATE SCHEMA " ++ pg_id schema.
Definition build_drop_schema_sql (schema : str) : str := u "DROP SCHEMA " ++ pg_id schema ++ u " RESTRICT".
Definition build_rename_schema_sql (old new : str) : str := u "ALTER SCHEMA " ++ pg_id old ++ u " RENAME TO " ++ pg_id new.

(** ** Tables *)

Definition build_drop_table_sql (schema table : str) : str := u "DROP TABLE " ++ place schema table.
Definition build_truncate_table_sql (schema table : str) : str := u "TRUNCATE TABLE " ++ place schema table.
Definition build_rename_table_sql (schema old new : str) : str := alter_table schema old ++ u " RENAME TO " ++ pg_id new.
Definition comment_on_column (schema table column comment : str) : str :=
  u "COMMENT ON COLUMN " ++ place schema table ++ u "." ++ pg_id column ++ u " IS " ++ pg_str comment.
Definition comment_on_table (schema table comment : str) : str :=
  u "COMMENT ON TABLE " ++ place schema table ++ u " IS " ++ pg_str comment.
Definition build_drop_column_sql (schema table column : str) : str := alter_table schema table ++ u " DROP COLUMN " ++ pg_id column.

Section Builders.
Context (upper_char : char -> str).

(** The words and numbers a default is written with as they are. *)
Definition is_raw_default (trimmed : str) : bool :=
  let upper := to_uppercase upper_char trimmed in
  str_eqb upper (u "NULL") || starts_with (u "CURRENT_TIMESTAMP") upper || starts_with (u "CURRENT_DATE") upper
  || starts_with (u "CURRENT_TIME") upper || starts_with (u "NOW(") upper || str_eqb upper (u "TRUE") || str_eqb upper (u "FALSE")
  || parses_as_f64 trimmed.
Definition default_sql (trimmed : str) : str := if is_raw_default trimmed then trimmed else pg_str trimmed.

Definition build_column_definition (column_type : str) (nullable : bool) (default_value : option str) : str :=
  join (u " ") ([trim column_type] ++ (if nullable then [] else [u "NOT NULL"])
    ++ match default_value with
       | Some default => if is_empty (trim default) then [] else [u "DEFAULT " ++ default_sql (trim default)]
       | None => []
       end).

Definition build_create_table_sqls (schema : str) (request : CreateTableRequest) : result (str * list str) str :=
  if is_empty (ct_columns request) then Err (u "至少需要定义一个列")
  else
    let col_defs := map (fun col =>
      u "  " ++ pg_id (nc_name col) ++ u " " ++ build_column_definition (nc_column_type col) (nc_nullable col) (nc_default_value col))
      (ct_columns request) in
    let comments := concat (map (fun col =>
      if is_empty (nc_comment col) then [] else [comment_on_column schema (ct_table_name request) (nc_name col) (nc_comment col)])
      (ct_columns request)) in
    let lines := col_defs ++
      (if is_empty (ct_primary_keys request) then []
       else [u "  PRIMARY KEY (" ++ join (u ", ") (map pg_id (ct_primary_keys request)) ++ u ")"]) in
    let create_sql := u "CREATE TABLE " ++ place schema (ct_table_name request) ++ u " (" ++ [10] ++ join (u "," ++ [10]) lines ++ [10] ++ u ")" in
    let after_sqls := comments ++
      (if is_empty (ct_comment request) then [] else [comment_on_table schema (ct_table_name request) (ct_comment request)]) in
    Ok (create_sql, after_sqls).

Definition build_add_column_sqls (schema table : str) (request : AddColumnRequest) : list str :=
  (alter_table schema table ++ u " ADD COLUMN " ++ pg_id (ac_name request) ++ u " "
   ++ build_column_definition (ac_column_type request) (ac_nullable request) (ac_default_value request))
  :: (if is_empty (ac_comment request) then [] else [comment_on_column schema table (ac_name request) (ac_comment request)]).

(** ** Altered columns *)

Definition target_name (request : AlterColumnRequest) : str :=
  if is_empty (trim (al_new_name request)) then al_old_name request else al_new_name request.
Definition alter_column (schema table column action : str) : str :=
  alter_table schema table ++ u " ALTER COLUMN " ++ pg_id column ++ u " " ++ action.
Definition build_alter_column_sqls (schema table : str) (current : ColumnInfo) (request : AlterColumnRequest) : list str :=
  let target_name := target_name request in
  let alter := alter_column schema table target_name in
  let new_type := trim (al_column_type request) in
  let new_default := default [] (trim <$> al_default_value request) in
  let cur_default := default [] (ci_default_value current) in
  (if str_eqb (al_old_name request) target_name then []
   else [alter_table schema table ++ u " RENAME COLUMN " ++ pg_id (al_old_name request) ++ u " TO " ++ pg_id target_name])
  ++ (if negb (is_empty new_type) && negb (str_eqb new_type (ci_column_type current)) then [alter (u "TYPE " ++ new_type)] else [])
  ++ (if Bool.eqb (al_nullable request) (ci_nullable current) then []
      else [alter (if al_nullable request then u "DROP NOT NULL" else u "SET NOT NULL")])
  ++ (if str_eqb new_default cur_default then []
      else if is_empty new_default then [alter (u "DROP DEFAULT")] else [alter (u "SET DEFAULT " ++ default_sql new_default)])
  ++ (if str_eqb (al_comment request) (ci_comment current) then [] else [comment_on_column schema table target_name (al_comment request)]).

Definition drop_constraint (schema table name : str) : str := alter_table schema table ++ u " DROP CONSTRAINT " ++ pg_id name.
Definition add_primary_key (schema table : str) (columns : list str) : str :=
  alter_table schema table ++ u " ADD PRIMARY KEY (" ++ join (u ", ") (map pg_id columns) ++ u ")".
Definition build_primary_key_change_sqls (schema table : str) (current_pk_columns : list str) (current_pk_constraint : option str)
    (target_pk_columns : list str) : list str :=
  if bool_decide (current_pk_columns = target_pk_columns) then []
  else
    match current_pk_constraint with Some name => [drop_constraint schema table name] | None => [] end
    ++ (if is_empty target_pk_columns then [] else [add_primary_key schema table target_pk_columns]).

(** The primary key a request asks for, and all statements of an altered column. *)
Definition requested_key (request : AlterColumnRequest) (is_primary : bool) (renamed_pk : list str) : list str :=
  let target_name := target_name request in
  if is_primary
  then if existsb (str_eqb target_name) renamed_pk then renamed_pk else renamed_pk ++ [target_name]
  else List.filter (fun c => negb (str_eqb c target_name) && negb (str_eqb c (al_old_name request))) renamed_pk.
Definition build_complete_alter_column_sqls (schema table : str) (current : ColumnInfo) (request : AlterColumnRequest)
    (current_pk_columns : list str) (pk_constraint : option str) : list str :=
  build_alter_column_sqls schema table current request
  ++ match al_is_primary request with
     | Some is_primary =>
       let renamed_pk := map (fun c => if str_eqb c (al_old_name request) then target_name request else c) current_pk_columns in
       build_primary_key_change_sqls schema table renamed_pk pk_constraint (requested_key request is_primary renamed_pk)
     | None => []
     end.
End Builders.

End PostgresDdl.
