(* ===== verification/PostgresSync.v ===== *)
(** Planning the synchronisation of a PostgreSQL table
    (src-tauri/src/db/schema_sync/postgres.rs). *)
From S2P Require Import Prelude OrderedMap RustText DataTypes SchemaCompare SyncTypes Ddl PostgresDdl.
Import SchemaCompare SyncTypes Ddl PostgresDdl.

Module PostgresSync.

(** ** Native metadata *)

Record MetadataRow : Type := mkMetadataRow {
  mr_table_name : str; mr_relkind : str; mr_table_comment : str; mr_primary_key_constraint : option str; mr_column_name : str;
  mr_identity_generation : str; mr_generated_kind : str; mr_generation_expression : option str; mr_default_expression : option str;
  mr_is_user_defined : bool; mr_type_schema : str; mr_type_name : str; mr_primary_key_ordinal : option Z }.
Definition native_column (row : MetadataRow) : PostgresColumn :=
  mkPostgresColumn (mr_identity_generation row) (mr_generated_kind row) (mr_generation_expression row) (mr_default_expression row)
    (mr_is_user_defined row) (mr_type_schema row) (mr_type_name row) (mr_primary_key_ordinal row).
Definition aggregate_row (m : list (str * PostgresTableMeta)) (row : MetadataRow) : list (str * PostgresTableMeta) :=
  BTree.entry str_cmp (mr_table_name row) (fun entry =>
    let t := default (mkPostgresTable (mr_relkind row) (mr_table_comment row) (mr_primary_key_constraint row) []) entry in
    mkPostgresTable (pt_relkind t) (pt_table_comment t) (pt_primary_key_constraint t)
      (BTree.put str_cmp (mr_column_name row) (Postgres_Column (native_column row)) (pt_columns t))) m.
Definition aggregate_metadata_rows (rows : list MetadataRow) : list (str * TableSyncMetadata) :=
  map (fun p => (p.1, PostgresTable p.2)) (fold_left aggregate_row rows []).

Definition table_metadata (metadata : option TableSyncMetadata) (table_name : str) : result PostgresTableMeta str :=
  match metadata with
  | Some (PostgresTable t) => Ok t
  | _ => Err (u "表 " ++ table_name ++ u " 缺少 PostgreSQL 原生表元数据")
  end.
Definition column_metadata (metadata : PostgresTableMeta) (table_name column_name : str) : result PostgresColumn str :=
  match BTree.get str_cmp column_name (pt_columns metadata) with
  | Some (Postgres_Column c) => Ok c
  | _ => Err (u "字段 " ++ table_name ++ u "." ++ column_name ++ u " 缺少 PostgreSQL 原生字段元数据")
  end.

Definition says (a : str) (b : String.string) : bool := eq_ignore_ascii_case a (u b).
Definition validate_native_shape (metadata : PostgresColumn) (table_name column_name : str) : result unit str :=
  let field := table_name ++ u "." ++ column_name in
  let identity := trim (pc_identity_generation metadata) in
  let generated := trim (pc_generated_kind metadata) in
  let has_expression := match pc_generation_expression metadata with Some e => negb (blank e) | None => false end in
  if negb (is_empty identity) && negb (says identity "ALWAYS") && negb (says identity "BY DEFAULT")
  then Err (u "字段 " ++ field ++ u " 包含未知 identity_generation `" ++ identity ++ u "`")
  else if negb (says generated "NEVER") && negb (says generated "ALWAYS")
  then Err (u "字段 " ++ field ++ u " 包含未知 generated_kind `" ++ generated ++ u "`")
  else if says generated "ALWAYS" && negb has_expression then Err (u "generated 字段 " ++ field ++ u " 缺少生成表达式")
  else if says generated "NEVER" && has_expression then Err (u "普通字段 " ++ field ++ u " 意外包含 generation_expression")
  else if negb (is_empty identity) && says generated "ALWAYS" then Err (u "字段 " ++ field ++ u " 同时声明 identity 和 generated")
  else if pc_is_user_defined metadata && (blank (pc_type_schema metadata) || blank (pc_type_name metadata))
  then Err (u "用户定义类型字段 " ++ field ++ u " 缺少原生类型限定名")
  else Ok tt.
Definition native_special_equal (source target : PostgresColumn) : bool :=
  eq_ignore_ascii_case (pc_identity_generation source) (pc_identity_generation target)
  && eq_ignore_ascii_case (pc_generated_kind source) (pc_generated_kind target)
  && bool_decide (pc_generation_expression source = pc_generation_expression target).
Definition metadata_matches_snapshot (column : ColumnSnapshot) (metadata : PostgresColumn) : bool :=
  bool_decide (default_value column = pc_default_expression metadata).

Section Planner.
Context (upper_char : char -> str).

Definition safe_default_for_builder (default_expression : option str) : bool :=
  match default_expression with
  | None => true
  | Some default => negb (is_empty (trim default)) && is_raw_default upper_char (trim default)
  end.
Definition mentions (changed_fields : list str) (fields : list String.string) : bool := existsb (fun f => one_of f fields) changed_fields.
Definition validate_column_for_builder (column : ColumnSnapshot) (metadata : PostgresColumn) (table_name column_name : str)
    (full_definition : bool) (changed_fields : list str) : result unit str :=
  let field := table_name ++ u "." ++ column_name in
  check? validate_native_shape metadata table_name column_name in
  let changes_definition := full_definition || mentions changed_fields ["column_type"; "nullable"; "default_value"; "extra"]%string in
  if negb (metadata_matches_snapshot column metadata) then Err (u "字段 " ++ field ++ u " 的默认表达式原生元数据与结构快照不一致")
  else if changes_definition && negb (blank (pc_identity_generation metadata))
  then Err (u "identity 字段 " ++ field ++ u " 无法由当前 PostgreSQL builder 无损表达")
  else if changes_definition && says (pc_generated_kind metadata) "ALWAYS"
  then Err (u "generated 字段 " ++ field ++ u " 无法由当前 PostgreSQL builder 无损表达")
  else if (full_definition || mentions changed_fields ["column_type"]%string) && pc_is_user_defined metadata
  then Err (u "用户定义类型字段 " ++ field ++ u " 使用 " ++ pc_type_schema metadata ++ u "." ++ pc_type_name metadata ++ u "，无法证明目标端类型存在")
  else if (full_definition || mentions changed_fields ["default_value"]%string) && negb (safe_default_for_builder (pc_default_expression metadata))
  then Err (u "字段 " ++ field ++ u " 的默认表达式无法由当前 PostgreSQL builder 无损表达")
  else if (full_definition || mentions changed_fields ["extra"]%string) && blank (pc_identity_generation metadata)
          && says (pc_generated_kind metadata) "NEVER" && negb (blank (extra column))
  then Err (u "字段 " ++ field ++ u " 包含无法识别的 PostgreSQL extra 属性")
  else Ok tt.

(** The loop over the primary key's columns. *)
Fixpoint key_ordinals (table : str) (metadata : PostgresTableMeta) (names : list str) (seen : list Z) : result (list (Z * str)) str :=
  match names with
  | [] => Ok []
  | name :: names =>
    let? native := column_metadata metadata table name in
    match pc_primary_key_ordinal native with
    | None => Err (u "主键字段 " ++ table ++ u "." ++ name ++ u " 缺少 PostgreSQL 原生主键序号")
    | Some ordinal =>
      if (ordinal =? 0) || bool_decide (ordinal ∈ seen)
      then Err (u "表 " ++ table ++ u " 包含无效或重复的 PostgreSQL 原生主键序号 " ++ show_Z ordinal)
      else
        let? ordered := key_ordinals table metadata names (ordinal :: seen) in
        Ok ((ordinal, name) :: ordered)
    end
  end.
Definition by_ordinal : Z * str -> Z * str -> comparison := cmp_then (cmp_on fst Z.compare) (cmp_on snd str_cmp).
Definition postgres_primary_key_columns (table : TableSnapshot) (metadata : PostgresTableMeta) : result (list str) str :=
  let? ordered := key_ordinals (ts_name table) metadata (primary_key_columns table) [] in
  Ok (map snd (sort_by by_ordinal ordered)).

(** ** A new table *)

Definition define_column (metadata : PostgresTableMeta) (source : TableSnapshot) (c : str * ColumnSnapshot) :
    result CreateTableColumnDef str :=
  let? native := column_metadata metadata (ts_name source) c.1 in
  check? validate_column_for_builder c.2 native (ts_name source) c.1 true [] in
  Ok (mkColumnDef c.1 (column_type c.2) (nullable c.2) (default_value c.2) (extra c.2) (comment c.2)).
Definition push_definition (metadata : PostgresTableMeta) (source : TableSnapshot) (acc : PlanFragments * list CreateTableColumnDef)
    (c : str * ColumnSnapshot) : PlanFragments * list CreateTableColumnDef :=
  match define_column metadata source c with
  | Ok def => (acc.1, acc.2 ++ [def])
  | Err reason => (block (ts_name source) (u "无法创建字段 " ++ ts_name source ++ u "." ++ c.1) reason acc.1, acc.2)
  end.
Definition plan_create_table (context : TablePlanContext) (source : TableSnapshot) (plan : PlanFragments) : PlanFragments :=
  let refuse := fun reason => block (ts_name source) (u "无法创建表 " ++ ts_name source) reason in
  match table_metadata (cx_source_metadata context) (ts_name source) with
  | Err reason => refuse reason plan
  | Ok metadata =>
    if str_eqb (pt_relkind metadata) (u "p")
    then block (ts_name source) (u "无法创建分区表 " ++ ts_name source) (u "PostgreSQL 分区表创建需要完整分区定义") plan
    else if negb (str_eqb (pt_relkind metadata) (u "r"))
    then refuse (u "不支持 PostgreSQL relkind `" ++ pt_relkind metadata ++ u "`") plan
    else
      let '(plan, definitions) := fold_left (push_definition metadata source) (in_order source) (plan, []) in
      if negb (is_empty (pf_blockers plan)) then plan
      else
        match (let? primary_keys := postgres_primary_key_columns source metadata in
               build_create_table_sqls upper_char (cx_target_database context)
                 (mkCreateTable (ts_name source) definitions primary_keys [] None (pt_table_comment metadata))) with
        | Err reason => refuse reason plan
        | Ok (create_sql, after_sqls) =>
          operation CreateTablePhase (ts_name source) CreateTable Normal (u "创建目标端表 " ++ ts_name source) (create_sql :: after_sqls) plan
        end
  end.
End Planner.

(** ** A table on both sides *)

(** Why a column common to both tables cannot be compared or kept. *)
Definition common_problem (source_table target_table : PostgresTableMeta) (source target : TableSnapshot) (name : str)
    (source_column target_column : ColumnSnapshot) : result unit (str * str) :=
  let qualified := ts_name source ++ u "." ++ name in
  let incomparable := fun reason => (u "无法比较字段 " ++ qualified, reason) in
  let? source_native := map_err incomparable (column_metadata source_table (ts_name source) name) in
  let? target_native := map_err incomparable (column_metadata target_table (ts_name target) name) in
  check? map_err incomparable (validate_native_shape source_native (ts_name source) name) in
  check? map_err (fun reason => (u "无法比较字段 " ++ ts_name target ++ u "." ++ name, reason))
           (validate_native_shape target_native (ts_name target) name) in
  if negb (metadata_matches_snapshot source_column source_native) || negb (metadata_matches_snapshot target_column target_native)
  then Err (incomparable (u "PostgreSQL 默认表达式原生元数据与结构快照不一致"))
  else if negb (native_special_equal source_native target_native)
  then Err (u "无法转换字段 " ++ qualified, u "PostgreSQL identity/generated 原生元数据不一致，无法安全转换")
  else Ok tt.
(** The plan and the names in [blocked_columns]. *)
Definition compare_common (source_table target_table : PostgresTableMeta) (source target : TableSnapshot) (st : PlanFragments * list str)
    (c : str * ColumnSnapshot) : PlanFragments * list str :=
  match find_first (fun t => str_eqb t.1 c.1) (ts_columns target) with
  | None => st
  | Some (_, target_column) =>
    let st :=
      if ordinal_position c.2 =? ordinal_position target_column then st
      else
        (block (ts_name source) (u "无法调整字段 " ++ ts_name source ++ u "." ++ c.1 ++ u " 的物理顺序")
           (u "PostgreSQL 不支持安全调整字段物理顺序") st.1, c.1 :: st.2) in
    match common_problem source_table target_table source target c.1 c.2 target_column with
    | Ok _ => st
    | Err (summary, reason) => (block (ts_name source) summary reason st.1, c.1 :: st.2)
    end
  end.

Section Changes.
Context (upper_char : char -> str) (context : TablePlanContext) (source_table : PostgresTableMeta) (source target : TableSnapshot).

(** Why a column cannot be appended, or its statements. *)
Definition append_column (name : str) (column : ColumnSnapshot) : result (list str) str :=
  if ordinal_position column <=? max_position target then Err (u "PostgreSQL 只能安全追加到目标端现有字段之后")
  else
    let? native := column_metadata source_table (ts_name source) name in
    check? validate_column_for_builder upper_char column native (ts_name source) name true [] in
    Ok (build_add_column_sqls upper_char (cx_target_database context) (ts_name source)
          (mkAddColumn name (column_type column) (nullable column) (default_value column) (extra column) (comment column) None)).
Definition has_default (column : ColumnSnapshot) : bool := match default_value column with Some d => negb (blank d) | None => false end.
(** Why a column cannot be altered, or its statements. *)
Definition change_column (name : str) (changed_fields : list str) (source_column target_column : ColumnSnapshot) : result (list str) str :=
  if mentions changed_fields ["extra"]%string
  then Err (u "PostgreSQL extra 展示值变化无法脱离原生 identity/generated 元数据安全规划")
  else if forallb (fun field => one_of field ["ordinal_position"; "primary_key"; "extra"]%string) changed_fields then Ok []
  else if negb (cx_include_drops context) && negb (nullable target_column) && nullable source_column
  then Err (u "字段改为可空需要执行 DROP NOT NULL，但未开启包含删除操作")
  else if negb (cx_include_drops context) && has_default target_column && negb (has_default source_column)
  then Err (u "删除字段默认值需要执行 DROP DEFAULT，但未开启包含删除操作")
  else
    let? native := column_metadata source_table (ts_name source) name in
    check? validate_column_for_builder upper_char source_column native (ts_name source) name false changed_fields in
    Ok (build_alter_column_sqls upper_char (cx_target_database context) (ts_name source)
          (mkColumnInfo name (column_type target_column) (nullable target_column) (if primary_key target_column then u "PRI" else [])
             (default_value target_column) (extra target_column) (comment target_column))
          (mkAlterColumn name name (column_type source_column) (nullable source_column) (default_value source_column)
             (extra source_column) (comment source_column) None None)).

Record Changes : Type := mkChanges {
  ch_plan : PlanFragments;
  ch_add : list (Z * str * list str);
  ch_add_risk : DatabaseSyncRisk;
  ch_alter : list (Z * str * list str);
  ch_drop : list str;
}.
Definition with_plan (f : PlanFragments -> PlanFragments) (st : Changes) : Changes :=
  mkChanges (f (ch_plan st)) (ch_add st) (ch_add_risk st) (ch_alter st) (ch_drop st).
Definition plan_difference (blocked_columns : list str) (st : Changes) (d : ColumnDiff) : Changes :=
  let name := cd_name d in
  let qualified := ts_name source ++ u "." ++ name in
  match cd_status d, cd_source d, cd_target d with
  | SourceOnly, Some column, _ =>
    match append_column name column with
    | Ok sql =>
      mkChanges (ch_plan st) (ch_add st ++ [(ordinal_position column, name, sql)])
        (match add_column_risk column (BTree.get str_cmp name (pt_columns source_table)) with High => High | _ => ch_add_risk st end)
        (ch_alter st) (ch_drop st)
    | Err reason => with_plan (block (ts_name source) (u "无法新增字段 " ++ qualified) reason) st
    end
  | Changed, Some source_column, Some target_column =>
    if bool_decide (name ∈ blocked_columns) then st
    else
      match change_column name (cd_changed_fields d) source_column target_column with
      | Err reason => with_plan (block (ts_name source) (u "无法修改字段 " ++ qualified) reason) st
      | Ok sql =>
        if is_empty sql then st
        else
          mkChanges (ch_plan st) (ch_add st) (ch_add_risk st) (ch_alter st ++ [(ordinal_position source_column, name, sql)]) (ch_drop st)
      end
  | TargetOnly, _, _ =>
    if cx_include_drops context
    then mkChanges (ch_plan st) (ch_add st) (ch_add_risk st) (ch_alter st) (ch_drop st ++ [name])
    else with_plan (skip (ts_name source) (u "跳过删除目标端独有字段 " ++ qualified) (u "未开启包含删除操作")) st
  | _, _, _ => st
  end.
Definition by_place (a b : Z * str * list str) : comparison :=
  cmp_then (cmp_on (fun e : Z * str * list str => e.1.1) Z.compare) (cmp_on (fun e : Z * str * list str => e.1.2) str_cmp) a b.
Definition sorted_sql (l : list (Z * str * list str)) : list str := concat (map snd (sort_by by_place l)).

Definition drop_column (plan : PlanFragments) (name : str) : PlanFragments :=
  operation DropColumnPhase (ts_name source) DropColumn Destructive (u "删除目标端独有字段 " ++ ts_name source ++ u "." ++ name)
    [build_drop_column_sql (cx_target_database context) (ts_name source) name] plan.

(** The primary keys of both sides, or what to say. *)
Definition compare_keys (target_table : PostgresTableMeta) : result (list str * list str) (str * str) :=
  let? source_primary_keys := map_err (fun reason => (u "无法规划源端主键", reason)) (postgres_primary_key_columns source source_table) in
  let? target_primary_keys := map_err (fun reason => (u "无法规划目标端主键", reason)) (postgres_primary_key_columns target target_table) in
  if negb (Bool.eqb (is_empty target_primary_keys) (negb (is_some (pt_primary_key_constraint target_table))))
  then Err (u "无法规划目标端主键", u "目标端主键约束名与字段快照不一致")
  else if negb (bool_decide (source_primary_keys = target_primary_keys)) && negb (is_empty target_primary_keys) && negb (cx_include_drops context)
  then Err (u "无法替换表 " ++ ts_name source ++ u " 的主键", u "目标端已有主键，替换主键需要先删除旧约束，但未开启包含删除操作")
  else Ok (source_primary_keys, target_primary_keys).
(** The statements of a replaced primary key around those of the columns:
    [remove(0)] takes the drop of the old constraint. *)
Definition replace_key (target_table : PostgresTableMeta) (source_primary_keys target_primary_keys alter_sql : list str) : list str :=
  let primary_key_sql :=
    build_primary_key_change_sqls (cx_target_database context) (ts_name source) target_primary_keys
      (pt_primary_key_constraint target_table) source_primary_keys in
  if is_empty target_primary_keys then alter_sql ++ primary_key_sql
  else List.firstn 1 primary_key_sql ++ alter_sql ++ List.skipn 1 primary_key_sql.
Definition finish_changes (target_table : PostgresTableMeta) (st : Changes) (source_primary_keys target_primary_keys : list str) : PlanFragments :=
  let add_sql := sorted_sql (ch_add st) in
  let alter_sql := sorted_sql (ch_alter st) in
  let plan :=
    if is_empty add_sql then ch_plan st
    else
      operation AddColumnPhase (ts_name source) AddColumn (ch_add_risk st)
        (u "新增表 " ++ ts_name source ++ u " 的 " ++ show_Z (zlen (ch_add st)) ++ u " 个字段") add_sql (ch_plan st) in
  let plan :=
    if negb (bool_decide (source_primary_keys = target_primary_keys))
    then
      operation AlterColumnPhase (ts_name source) ReplacePrimaryKey High (u "替换表 " ++ ts_name source ++ u " 的主键并同步相关字段")
        (replace_key target_table source_primary_keys target_primary_keys alter_sql) plan
    else if is_empty alter_sql then plan
    else
      operation AlterColumnPhase (ts_name source) AlterColumn High
        (u "修改表 " ++ ts_name source ++ u " 的 " ++ show_Z (zlen (ch_alter st)) ++ u " 个字段") alter_sql plan in
  fold_left drop_column (sort_by str_cmp (ch_drop st)) plan.
End Changes.

Section Plan.
Context (upper_char : char -> str) (context : TablePlanContext).

(** The metadata of both sides, or why the tables cannot be planned for. *)
Definition comparable (source target : TableSnapshot) : result (PostgresTableMeta * PostgresTableMeta) (str * str) :=
  let refuse := fun reason => (u "无法规划 PostgreSQL 表同步", reason) in
  let? source_table := map_err refuse (table_metadata (cx_source_metadata context) (ts_name source)) in
  let? target_table := map_err refuse (table_metadata (cx_target_metadata context) (ts_name target)) in
  if negb (str_eqb (pt_relkind source_table) (pt_relkind target_table))
  then Err (u "无法转换 PostgreSQL 表类型", u "源端与目标端的 PostgreSQL relkind 不一致")
  else Ok (source_table, target_table).
Definition plan_changed_table (source target : TableSnapshot) (plan : PlanFragments) : PlanFragments :=
  match comparable source target with
  | Err (summary, reason) => block (ts_name source) summary reason plan
  | Ok (source_table, target_table) =>
    let '(plan, blocked_columns) := fold_left (compare_common source_table target_table source target) (ts_columns source) (plan, []) in
    let st := fold_left (plan_difference upper_char context source_table source target blocked_columns)
                (compare_table_columns source target) (mkChanges plan [] Normal [] []) in
    if negb (is_empty (pf_blockers (ch_plan st))) then ch_plan st
    else
      match compare_keys context source_table source target target_table with
      | Err (summary, reason) => block (ts_name source) summary reason (ch_plan st)
      | Ok (source_primary_keys, target_primary_keys) =>
        finish_changes context source target_table st source_primary_keys target_primary_keys
      end
  end.

Definition plan_table : PlanFragments :=
  match cx_source context, cx_target context with
  | Some source, None => plan_create_table upper_char context source no_fragments
  | None, Some target =>
    if cx_include_drops context
    then
      operation DropTablePhase (ts_name target) DropTable Destructive (u "删除目标端独有表 " ++ ts_name target)
        [build_drop_table_sql (cx_target_database context) (ts_name target)] no_fragments
    else skip (ts_name target) (u "跳过删除目标端独有表") (u "未开启包含删除操作") no_fragments
  | Some source, Some target => plan_changed_table source target no_fragments
  | None, None => block [] (u "无法规划同步") (u "表在源端和目标端都不存在") no_fragments
  end.
End Plan.

End PostgresSync.
