(* ===== verification/PostgresConverge.v ===== *)
(** What carrying out a plan does to a PostgreSQL table: the statements of
    [PostgresSync.plan_table] turn the target's table into the source's.  The
    effect of a statement is PostgreSQL's documented one; a default is what its
    expression says. *)
From S2P Require Import Prelude OrderedMap RustText DataTypes SchemaCompare SyncTypes ColumnOrder SyncFacts Ddl PostgresDdl PostgresSync.
Import SchemaCompare SyncTypes SyncFacts Ddl PostgresDdl PostgresSync.

Module PostgresConverge.

#[local] Opaque u changed_fields.

(** ** Tables on the server *)

Record Attributes : Type := mkAttributes {
  at_type : str; at_nullable : bool; at_default : option str; at_extra : str; at_comment : str }.
Record attributes_equiv (a b : Attributes) : Prop := {
  ae_type : at_type a = at_type b;
  ae_nullable : at_nullable a = at_nullable b;
  ae_default : default_equiv (at_default a) (at_default b);
  ae_extra : at_extra a = at_extra b;
  ae_comment : at_comment a = at_comment b;
}.
#[export] Instance attributes_equivalence : Equivalence attributes_equiv.
Proof.
  split.
  - intros a. by split.
  - intros a b []. split; by symmetry.
  - intros a b c [] []. split; by etransitivity.
Qed.
(** [tb_constraint] is the name of the primary key's constraint. *)
Record Table : Type := mkTable {
  tb_columns : list (str * Attributes); tb_key : list str; tb_constraint : option str; tb_comment : str }.

Record ColumnSpec : Type := mkSpec { df_name : str; df_type : str; df_nullable : bool; df_default : option str }.
Inductive ColumnAction : Type := SetType (ty : str) | SetNullable (null : bool) | SetDefault (expression : option str) | SetComment (text : str).
Inductive Statement : Type :=
| CreateTableStatement (definitions : list ColumnSpec) (primary_keys : list str)
| DropTableStatement
| CommentOnTable (text : str)
| AddColumnStatement (d : ColumnSpec)
| OnColumn (name : str) (action : ColumnAction)
| DropColumnStatement (name : str)
| DropConstraint (name : str)
| AddPrimaryKey (columns : list str).

Definition definition_text (d : ColumnSpec) : str :=
  join (u " ") ([df_type d] ++ (if df_nullable d then [] else [u "NOT NULL"])
    ++ match df_default d with Some e => [u "DEFAULT " ++ e] | None => [] end).
Definition render (schema table : str) (s : Statement) : str :=
  match s with
  | CreateTableStatement definitions primary_keys =>
    u "CREATE TABLE " ++ place schema table ++ u " (" ++ [10]
    ++ join (u "," ++ [10])
         (map (fun d => u "  " ++ pg_id (df_name d) ++ u " " ++ definition_text d) definitions
          ++ (if is_empty primary_keys then [] else [u "  PRIMARY KEY (" ++ join (u ", ") (map pg_id primary_keys) ++ u ")"]))
    ++ [10] ++ u ")"
  | DropTableStatement => build_drop_table_sql schema table
  | CommentOnTable text => comment_on_table schema table text
  | AddColumnStatement d => alter_table schema table ++ u " ADD COLUMN " ++ pg_id (df_name d) ++ u " " ++ definition_text d
  | OnColumn name (SetType ty) => alter_column schema table name (u "TYPE " ++ ty)
  | OnColumn name (SetNullable null) => alter_column schema table name (if null then u "DROP NOT NULL" else u "SET NOT NULL")
  | OnColumn name (SetDefault (Some e)) => alter_column schema table name (u "SET DEFAULT " ++ e)
  | OnColumn name (SetDefault None) => alter_column schema table name (u "DROP DEFAULT")
  | OnColumn name (SetComment text) => comment_on_column schema table name text
  | DropColumnStatement name => build_drop_column_sql schema table name
  | DropConstraint name => drop_constraint schema table name
  | AddPrimaryKey columns => add_primary_key schema table columns
  end.

Definition adjust (a : Attributes) (action : ColumnAction) : Attributes :=
  match action with
  | SetType ty => mkAttributes ty (at_nullable a) (at_default a) (at_extra a) (at_comment a)
  | SetNullable null => mkAttributes (at_type a) null (at_default a) (at_extra a) (at_comment a)
  | SetDefault e => mkAttributes (at_type a) (at_nullable a) e (at_extra a) (at_comment a)
  | SetComment text => mkAttributes (at_type a) (at_nullable a) (at_default a) (at_extra a) text
  end.
Definition on_column (n : str) (f : Attributes -> Attributes) (l : list (str * Attributes)) : list (str * Attributes) :=
  map (fun c => if decide (c.1 = n) then (c.1, f c.2) else c) l.
Definition defined_column (d : ColumnSpec) : str * Attributes := (df_name d, mkAttributes (df_type d) (df_nullable d) (df_default d) [] []).
(** The columns of a primary key are not nullable. *)
Definition require (keys : list str) (l : list (str * Attributes)) : list (str * Attributes) :=
  map (fun c => if decide (c.1 ∈ keys) then (c.1, adjust c.2 (SetNullable false)) else c) l.

Section Effect.
(** The name the server gives to the constraint of a new primary key. *)
Context (new_constraint : option str).
Definition alter (t : Table) (s : Statement) : Table :=
  match s with
  | AddColumnStatement d => mkTable (tb_columns t ++ [defined_column d]) (tb_key t) (tb_constraint t) (tb_comment t)
  | OnColumn n action => mkTable (on_column n (fun a => adjust a action) (tb_columns t)) (tb_key t) (tb_constraint t) (tb_comment t)
  | DropColumnStatement n =>
    let '(key, name) := if decide (n ∈ tb_key t) then ([], None) else (tb_key t, tb_constraint t) in
    mkTable (ColumnOrder.without n (tb_columns t)) key name (tb_comment t)
  | DropConstraint name =>
    if decide (tb_constraint t = Some name) then mkTable (tb_columns t) [] None (tb_comment t) else t
  | AddPrimaryKey keys => mkTable (require keys (tb_columns t)) keys new_constraint (tb_comment t)
  | CommentOnTable text => mkTable (tb_columns t) (tb_key t) (tb_constraint t) text
  | CreateTableStatement _ _ | DropTableStatement => t
  end.
Definition effect (s : Statement) (t : option Table) : option Table :=
  match s with
  | CreateTableStatement definitions keys =>
    Some (mkTable (require keys (map defined_column definitions)) keys (if is_empty keys then None else new_constraint) [])
  | DropTableStatement => None
  | _ => (fun t => alter t s) <$> t
  end.

Definition alters (s : Statement) : Prop := match s with CreateTableStatement _ _ | DropTableStatement => False | _ => True end.
Lemma effects_alter l t : Forall alters l -> fold_left (fun t s => effect s t) l (Some t) = Some (fold_left alter l t).
Proof.
  intros F. revert t. induction F as [|s l Hs F IH]; intros t; [done|]. cbn [fold_left]. destruct s; try done; apply IH.
Qed.

(** ** Statements on the columns of a table *)

(** The actions on one column among statements on columns. *)
Definition actions (n : str) (l : list (str * ColumnAction)) : list ColumnAction :=
  omap (fun p => if decide (p.1 = n) then Some p.2 else None) l.
Definition adjusted (l : list (str * ColumnAction)) (c : str * Attributes) : str * Attributes := (c.1, fold_left adjust (actions c.1 l) c.2).
Lemma on_columns_effect l t : fold_left alter (map (fun p => OnColumn p.1 p.2) l) t =
  mkTable (map (adjusted l) (tb_columns t)) (tb_key t) (tb_constraint t) (tb_comment t).
Proof.
  revert t. induction l as [|[n a] l IH]; intros [cols k cn cm]; cbn [map fold_left tb_columns tb_key tb_constraint tb_comment].
  - f_equal. rewrite <- (map_id cols) at 1. apply map_ext. by intros [].
  - rewrite IH. cbn [alter tb_columns tb_key tb_constraint tb_comment fst snd]. f_equal. unfold on_column. rewrite map_map. apply map_ext.
    intros [m b]. unfold adjusted, actions. cbn [fst snd omap list_omap]. rewrite (decide_ext (m = n) (n = m)) by done.
    destruct (decide (n = m)); done.
Qed.
Lemma adjusted_names l cols : map fst (map (adjusted l) cols) = map fst cols.
Proof. rewrite map_map. by apply map_ext. Qed.
Lemma actions_app n a b : actions n (a ++ b) = actions n a ++ actions n b.
Proof. apply omap_app. Qed.
(** Entries of different columns: what concerns one of them is its own. *)
Definition entry_actions {X : Type} (e : X * str * list ColumnAction) : list (str * ColumnAction) := map (fun a => (e.1.2, a)) e.2.
Lemma actions_own {X : Type} n (x : X) acts : actions n (entry_actions (x, n, acts)) = acts.
Proof. unfold entry_actions, actions. cbn. induction acts as [|a acts IH]; [done|]. cbn. rewrite decide_True by done. by f_equal. Qed.
Lemma actions_other {X : Type} n (e : X * str * list ColumnAction) : e.1.2 <> n -> actions n (entry_actions e) = [].
Proof.
  unfold entry_actions, actions. destruct e as [[x m] acts]. cbn. intros N. induction acts as [|a acts IH]; [done|]. cbn.
  by rewrite decide_False.
Qed.
Lemma actions_none {X : Type} n (l : list (X * str * list ColumnAction)) : (forall e, e ∈ l -> e.1.2 <> n) -> actions n (concat (map entry_actions l)) = [].
Proof.
  induction l as [|e l IH]; intros H; [done|]. cbn [map concat]. rewrite actions_app, actions_other by (apply H; by left).
  apply IH. intros e' He. apply H. by right.
Qed.
Lemma actions_entry {X : Type} (x : X) n acts l : NoDup (map (fun e => e.1.2) l) -> (x, n, acts) ∈ l ->
  actions n (concat (map entry_actions l)) = acts.
Proof.
  induction l as [|e l IH]; [by intros _ ?%elem_of_nil|]. cbn [map concat]. intros [N1 N2]%NoDup_cons. rewrite actions_app.
  intros [<-|H]%elem_of_cons.
  - rewrite actions_own, actions_none, app_nil_r; [done|]. intros e' He En. apply N1. cbn. rewrite <- En. by apply (list_elem_of_fmap_2 (fun e => e.1.2)).
  - rewrite actions_other; [by apply IH|]. intros En. apply N1. rewrite En. by apply (list_elem_of_fmap_2 (fun e => e.1.2) l (x, n, acts)).
Qed.

(** ** Appended columns *)

Definition commented (c : ColumnSpec * str) : str * Attributes :=
  (df_name c.1, mkAttributes (df_type c.1) (df_nullable c.1) (df_default c.1) [] c.2).
Definition comment_statement (n text : str) : list Statement := if is_empty text then [] else [OnColumn n (SetComment text)].
Definition add_statements (c : ColumnSpec * str) : list Statement := AddColumnStatement c.1 :: comment_statement (df_name c.1) c.2.
Lemma on_column_absent n f l : n ∉ map fst l -> on_column n f l = l.
Proof.
  intros N. unfold on_column. rewrite <- (map_id l) at 2. apply map_ext_in. intros [m a] H%list_elem_of_In. cbn.
  rewrite decide_False; [done|]. intros ->. by apply N, (list_elem_of_fmap_2 fst _ (n, a)).
Qed.
Lemma on_column_app n f a b : on_column n f (a ++ b) = on_column n f a ++ on_column n f b.
Proof. apply map_app. Qed.
Lemma comment_effect n text l a t : n ∉ map fst l -> tb_columns t = l ++ [(n, mkAttributes (at_type a) (at_nullable a) (at_default a) [] [])] ->
  fold_left alter (comment_statement n text) t =
    mkTable (l ++ [(n, mkAttributes (at_type a) (at_nullable a) (at_default a) [] text)]) (tb_key t) (tb_constraint t) (tb_comment t).
Proof.
  intros N E. destruct t as [cols k cn cm]. cbn in E. subst cols. unfold comment_statement. destruct text as [|c text]; [done|].
  cbn [is_empty fold_left alter tb_columns tb_key tb_constraint tb_comment]. f_equal. rewrite on_column_app, on_column_absent by done.
  cbn. by rewrite decide_True.
Qed.
Lemma pg_adds_effect l t : NoDup (map (fun c => df_name c.1) l) -> (forall c, c ∈ l -> df_name c.1 ∉ map fst (tb_columns t)) ->
  fold_left alter (concat (map add_statements l)) t = mkTable (tb_columns t ++ map commented l) (tb_key t) (tb_constraint t) (tb_comment t).
Proof.
  revert t. induction l as [|[d text] l IH]; intros [cols k cn cm] N A; cbn [map concat fold_left]; [by rewrite app_nil_r|].
  cbn [map fst] in N. apply NoDup_cons in N as [N1 N2]. cbn [tb_columns] in A.
  rewrite fold_left_app. cbn [add_statements fold_left fst snd].
  rewrite (comment_effect (df_name d) text cols (defined_column d).2) by (first [done | apply (A (d, text)); by left]).
  cbn [alter tb_columns tb_key tb_constraint tb_comment]. rewrite IH; [|done|].
  - cbn [tb_columns tb_key tb_constraint tb_comment]. by rewrite <- (assoc app).
  - intros c Hc. cbn [tb_columns]. rewrite map_app. cbn [map fst]. intros [H|H%list_elem_of_singleton]%elem_of_app.
    + apply (A c); [by right|done].
    + apply N1. cbn. rewrite <- H. by apply (list_elem_of_fmap_2 (fun c => df_name c.1)).
Qed.
End Effect.

(** ** What a snapshot says of a table *)

Definition attributes_of (c : ColumnSnapshot) : Attributes :=
  mkAttributes (column_type c) (nullable c) (default_value c) (extra c) (comment c).
Definition represents (snapshot : option TableSnapshot) (metadata : option TableSyncMetadata) (t : option Table) : Prop :=
  match snapshot, t with
  | None, None => True
  | Some s, Some t =>
    map fst (tb_columns t) = names_of s /\
    (forall n c a, (n, c) ∈ ts_columns s -> (n, a) ∈ tb_columns t -> attributes_equiv a (attributes_of c)) /\
    (forall m, table_metadata metadata (ts_name s) = Ok m -> postgres_primary_key_columns s m = Ok (tb_key t))
  | _, _ => False
  end.
(** Before a plan, the metadata also name the constraint of the primary key. *)
Definition constrained (snapshot : option TableSnapshot) (metadata : option TableSyncMetadata) (t : option Table) : Prop :=
  forall s m t', snapshot = Some s -> table_metadata metadata (ts_name s) = Ok m -> t = Some t' ->
    tb_constraint t' = pt_primary_key_constraint m.

(** Catalogue texts have no spaces around them and are not empty, and the
    columns of a primary key are not nullable. *)
Record wf_snapshot (s : TableSnapshot) : Prop := {
  ws_names : NoDup (map fst (ts_columns s));
  ws_type n c : (n, c) ∈ ts_columns s -> trim (column_type c) = column_type c /\ column_type c <> [];
  ws_extra n c : (n, c) ∈ ts_columns s -> trim (extra c) = extra c;
  ws_default n c d : (n, c) ∈ ts_columns s -> default_value c = Some d -> trim d = d /\ d <> [];
  ws_key n c : (n, c) ∈ ts_columns s -> primary_key c = true -> nullable c = false;
}.
Definition wf_metadata (metadata : option TableSyncMetadata) (table_name : str) : Prop :=
  forall m n native, table_metadata metadata table_name = Ok m -> column_metadata m table_name n = Ok native ->
    trim (pc_generated_kind native) = pc_generated_kind native.
(** A default of the source that means NULL is written without parentheses. *)
Definition plain_nulls (upper_char : char -> str) (s : TableSnapshot) : Prop :=
  forall n c d, (n, c) ∈ ts_columns s -> default_value c = Some d -> null_text d -> is_raw_default upper_char d = true.

Definition spec_of (c : str * ColumnSnapshot) : ColumnSpec * str :=
  (mkSpec c.1 (column_type c.2) (nullable c.2) (default_value c.2), comment c.2).

Lemma key_member s m ks n : postgres_primary_key_columns s m = Ok ks -> n ∈ ks -> exists c, (n, c) ∈ ts_columns s /\ primary_key c = true.
Proof.
  unfold postgres_primary_key_columns. intros H. apply rbind_ok_inv in H as (ordered & H & [= <-]).
  intros (e & -> & He)%list_elem_of_fmap. rewrite sort_by_elem in He.
  assert (G : e.2 ∈ primary_key_columns s).
  { revert ordered H He. generalize (primary_key_columns s) (@nil Z). induction l as [|k l IH]; intros seen ordered; cbn [key_ordinals].
    - intros [= <-] F. by apply elem_of_nil in F.
    - intros H. apply rbind_ok_inv in H as (native & _ & H). destruct (pc_primary_key_ordinal native) as [o|]; [|discriminate].
      destruct (_ || _); [discriminate|]. apply rbind_ok_inv in H as (rest & H & [= <-]).
      intros [->|He]%elem_of_cons; [by left|right; by eapply IH]. }
  unfold primary_key_columns in G. apply list_elem_of_fmap in G as ([n' c] & En & Hc). cbn in En. rewrite En.
  apply list_elem_of_In, filter_In in Hc as [Hc P]. exists c. split; [by apply list_elem_of_In|done].
Qed.

Section Plans.
Context (upper_char : char -> str) (new_constraint : option str) (context : TablePlanContext) (source : TableSnapshot).
Context (source_wf : wf_snapshot source) (metadata_wf : wf_metadata (cx_source_metadata context) (ts_name source)).
Abbreviation sql := (render (cx_target_database context) (ts_name source)).
Abbreviation alter := (alter new_constraint).
Abbreviation effect := (effect new_constraint).

Lemma written_definition n c : (n, c) ∈ ts_columns source ->
  (forall d, default_value c = Some d -> is_raw_default upper_char d = true) ->
  build_column_definition upper_char (column_type c) (nullable c) (default_value c) = definition_text (spec_of (n, c)).1.
Proof.
  intros Hc R. unfold build_column_definition, definition_text. cbn [spec_of fst snd df_type df_nullable df_default].
  destruct (ws_type _ source_wf n c Hc) as [-> _]. destruct (default_value c) as [d|] eqn:D; [|done].
  destruct (ws_default _ source_wf n c d Hc D) as [-> Ne]. destruct (is_empty d) eqn:Em; [by destruct d|].
  unfold default_sql. by rewrite (R d eq_refl).
Qed.

(** What a definition that passes the checks is. *)
Lemma validated m n c native : table_metadata (cx_source_metadata context) (ts_name source) = Ok m ->
  column_metadata m (ts_name source) n = Ok native -> (n, c) ∈ ts_columns source ->
  validate_column_for_builder upper_char c native (ts_name source) n true [] = Ok tt ->
  extra c = [] /\ forall d, default_value c = Some d -> is_raw_default upper_char d = true.
Proof.
  intros Hm Hn Hc H. pose proof (metadata_wf m n native Hm Hn) as G. unfold validate_column_for_builder in H.
  apply rbind_ok_inv in H as ([] & V & H). cbn [orb andb] in H.
  destruct (negb (metadata_matches_snapshot c native)) eqn:M; [discriminate|]. apply negb_false_iff, bool_decide_eq_true in M.
  destruct (negb (blank (pc_identity_generation native))) eqn:I; [discriminate|]. apply negb_false_iff in I. rewrite I in H.
  destruct (says (pc_generated_kind native) "ALWAYS") eqn:A; [discriminate|]. destruct (pc_is_user_defined native); [discriminate|].
  destruct (negb (safe_default_for_builder _ _)) eqn:S; [discriminate|]. apply negb_false_iff in S. rewrite <- M in S.
  cbn [andb] in H. destruct (says (pc_generated_kind native) "NEVER" && negb (blank (extra c))) eqn:X; [discriminate|].
  assert (Nv : says (pc_generated_kind native) "NEVER" = true).
  { unfold validate_native_shape in V. rewrite G in V. destruct (negb (is_empty _) && _ && _); [discriminate|].
    destruct (negb (says _ "NEVER") && _) eqn:Y; [discriminate|]. rewrite A in Y. cbn in Y. rewrite andb_true_r in Y. by apply negb_false_iff. }
  rewrite Nv in X. cbn [andb] in X. apply negb_false_iff in X. split.
  - unfold blank in X. rewrite (ws_extra _ source_wf n c Hc) in X. by apply is_empty_nil.
  - intros d D. rewrite D in S. cbn in S. destruct (ws_default _ source_wf n c d Hc D) as [T _]. rewrite T in S. by apply andb_prop in S as [_ S].
Qed.

(** ** A new table *)

Section Create.
Context (m : PostgresTableMeta) (source_metadata : table_metadata (cx_source_metadata context) (ts_name source) = Ok m).

Definition plain (c : str * ColumnSnapshot) : Prop :=
  extra c.2 = [] /\ forall d, default_value c.2 = Some d -> is_raw_default upper_char d = true.
Definition request_of (c : str * ColumnSnapshot) : CreateTableColumnDef :=
  mkColumnDef c.1 (column_type c.2) (nullable c.2) (default_value c.2) (extra c.2) (comment c.2).
Lemma pg_define_column_ok c def : c ∈ ts_columns source -> define_column upper_char m source c = Ok def -> def = request_of c /\ plain c.
Proof.
  destruct c as [n c]. intros Hc H. unfold define_column in H. cbn [fst snd] in H. apply rbind_ok_inv in H as (native & Hn & H).
  apply rbind_ok_inv in H as ([] & V & [= <-]). split; [done|]. by apply (validated m n c native).
Qed.
Lemma pg_definitions_clean cols plan defs : (forall c, c ∈ cols -> c ∈ ts_columns source) ->
  pf_blockers (fold_left (push_definition upper_char m source) cols (plan, defs)).1 = [] ->
  fold_left (push_definition upper_char m source) cols (plan, defs) = (plan, defs ++ map request_of cols) /\ Forall plain cols.
Proof.
  induction cols as [|c cols IH] using rev_ind; [intros _ _; by rewrite app_nil_r|].
  intros Sub. rewrite fold_left_app. cbn [fold_left]. unfold push_definition at 1 3.
  destruct (define_column upper_char m source c) as [def|reason] eqn:E; cbn [fst snd]; [|by intros F%block_not_nil].
  intros B. destruct (IH ltac:(intros; apply Sub, elem_of_app; by left) B) as (-> & F). cbn [fst snd].
  apply pg_define_column_ok in E as [-> Hp]; [|apply Sub, elem_of_app; right; by left].
  rewrite map_app, (assoc app). split; [done|]. apply list.Forall_app. by split; [|constructor].
Qed.

Definition comment_entry (c : str * ColumnSnapshot) : unit * str * list ColumnAction :=
  (tt, c.1, if is_empty (comment c.2) then [] else [SetComment (comment c.2)]).
Definition create_statements (keys : list str) : list Statement :=
  CreateTableStatement (map (fun c => (spec_of c).1) (in_order source)) keys
  :: map (fun p => OnColumn p.1 p.2) (concat (map entry_actions (map comment_entry (in_order source))))
  ++ (if is_empty (pt_table_comment m) then [] else [CommentOnTable (pt_table_comment m)]).
Lemma pg_create_text keys create_sql after_sqls : Forall plain (in_order source) ->
  build_create_table_sqls upper_char (cx_target_database context)
    (mkCreateTable (ts_name source) (map request_of (in_order source)) keys [] None (pt_table_comment m)) = Ok (create_sql, after_sqls) ->
  create_sql :: after_sqls = map sql (create_statements keys).
Proof.
  intros F. unfold build_create_table_sqls. cbn [ct_columns ct_primary_keys ct_table_name ct_comment].
  destruct (is_empty (map request_of (in_order source))); [discriminate|]. intros [= <- <-]. unfold create_statements. cbn [map]. f_equal.
  - unfold render. rewrite !map_map.
    rewrite (map_ext_in _ (fun c => u "  " ++ pg_id (df_name (spec_of c).1) ++ u " " ++ definition_text (spec_of c).1)); [done|].
    intros [n c] Hc%list_elem_of_In.
    rewrite list.Forall_forall in F. destruct (F _ Hc) as [_ R]. unfold in_order in Hc. rewrite sort_by_elem in Hc.
    cbn [request_of nc_name nc_column_type nc_nullable nc_default_value fst snd]. by rewrite (written_definition n c Hc R).
  - rewrite map_app. f_equal; [|by destruct (is_empty (pt_table_comment m))]. rewrite !map_map. clear.
    induction (in_order source) as [|c l IH]; [done|]. cbn [map concat]. rewrite IH, !map_app. f_equal.
    unfold entry_actions, comment_entry. cbn [request_of nc_comment nc_name fst snd]. by destruct (is_empty (comment c.2)).
Qed.

Lemma pg_create_represents keys t : postgres_primary_key_columns source m = Ok keys -> Forall plain (in_order source) ->
  represents (Some source) (cx_source_metadata context) (fold_left (fun t s => effect s t) (create_statements keys) t).
Proof.
  intros K F. cbn [create_statements fold_left PostgresConverge.effect]. rewrite effects_alter.
  2: { apply list.Forall_app. split; [|by destruct (is_empty _); repeat constructor]. apply list.Forall_forall. by intros s (p & -> & _)%list_elem_of_fmap. }
  rewrite fold_left_app, on_columns_effect. cbn [tb_columns tb_key tb_constraint tb_comment].
  set (cols := map (adjusted _) _).
  assert (E : forall t, tb_columns (fold_left alter (if is_empty (pt_table_comment m) then [] else [CommentOnTable (pt_table_comment m)]) t) = tb_columns t /\
    tb_key (fold_left alter (if is_empty (pt_table_comment m) then [] else [CommentOnTable (pt_table_comment m)]) t) = tb_key t)
    by (intros t'; by destruct (is_empty _)).
  cbn [represents]. destruct (E (mkTable cols keys (if is_empty keys then None else new_constraint) [])) as [-> ->]. cbn [tb_columns tb_key]. clear E.
  split; [|split].
  - unfold cols, names_of. rewrite adjusted_names. unfold require. rewrite !map_map. apply map_ext. intros c. by case_decide.
  - intros n c a Hc Ha. unfold cols in Ha. apply list_elem_of_fmap in Ha as ([n1 a1] & E1 & Ha).
    unfold adjusted in E1. cbn [fst snd] in E1. injection E1 as -> ->. unfold require in Ha. apply list_elem_of_fmap in Ha as ([n2 a2] & E2 & Ha).
    rewrite map_map in Ha. apply list_elem_of_fmap in Ha as ([n3 c3] & E3 & Ha). cbn in E3. injection E3 as -> ->.
    pose proof Ha as Hi. unfold in_order in Ha. rewrite sort_by_elem in Ha.
    assert (En : n3 = n1) by (case_decide; by injection E2 as ->). subst n3.
    assert ((n1, c) = (n1, c3)) as [= <-] by (by apply (NoDup_map_inj fst (ts_columns source)); [apply source_wf|..]).
    rewrite (actions_entry tt n1 (comment_entry (n1, c)).2).
    2: { rewrite map_map. change (NoDup (names_of source)). rewrite names_of_perm. apply source_wf. }
    2: { by apply (list_elem_of_fmap_2 comment_entry _ (n1, c)). }
    rewrite list.Forall_forall in F. destruct (F _ Hi) as [X _]. cbn [snd] in X.
    assert (Ea : a1 = mkAttributes (column_type c) (nullable c) (default_value c) [] []).
    { case_decide as D; injection E2 as E2; rewrite E2; [|done]. destruct (key_member source m keys n1 K D) as (c' & Hc' & P).
      assert ((n1, c) = (n1, c')) as [= <-] by (by apply (NoDup_map_inj fst (ts_columns source)); [apply source_wf|..]).
      cbn. by rewrite (ws_key _ source_wf n1 c Hc P). }
    rewrite Ea. cbn [comment_entry fst snd]. destruct (comment c) as [|x y] eqn:C; cbn [is_empty fold_left adjust]; (split; cbn; [done..|by rewrite X|by rewrite C]).
  - intros m' E. rewrite source_metadata in E. by injection E as <-.
Qed.
End Create.

Lemma pg_create_converges plan : clean (plan_create_table upper_char context source no_fragments) ->
  plan = plan_create_table upper_char context source no_fragments ->
  exists stmts, map po_sql (pf_operations plan) = [map sql stmts] /\
    forall t, represents (Some source) (cx_source_metadata context) (fold_left (fun t s => effect s t) stmts t).
Proof.
  intros C ->. revert C. unfold plan_create_table.
  destruct (table_metadata _ _) as [m|reason] eqn:Em; [|by intros [F%block_not_nil _]].
  destruct (str_eqb (pt_relkind m) (u "p")); [by intros [F%block_not_nil _]|].
  destruct (negb (str_eqb (pt_relkind m) (u "r"))); [by intros [F%block_not_nil _]|].
  pose proof (pg_definitions_clean m Em (in_order source) no_fragments []) as D.
  assert (Sub : forall c, c ∈ in_order source -> c ∈ ts_columns source) by (intros c; unfold in_order; by rewrite sort_by_elem).
  specialize (D Sub). destruct (fold_left _ _ _) as [plan defs]. cbn [fst] in D.
  destruct (is_empty (pf_blockers plan)) eqn:B; cbn [negb]; [|by intros [F _]; rewrite F in B].
  apply is_empty_nil in B. destruct (D B) as ([= -> ->] & F). clear D B. cbn [app].
  destruct (let? primary_keys := _ in _) as [[create after]|e] eqn:K; [|by intros [G%block_not_nil _]]. intros _.
  apply rbind_ok_inv in K as (ks & K & T). exists (create_statements m ks). split.
  - cbn [operation pf_operations no_fragments app map po_sql]. by rewrite (pg_create_text m ks create after F T).
  - intros t. by apply pg_create_represents.
Qed.

(** ** A column that differs *)

Lemma mentions_one f g : mentions f [g] = true <-> u g ∈ f.
Proof.
  unfold mentions, one_of. rewrite existsb_exists. split.
  - intros (x & Hx & E). cbn in E. rewrite orb_false_r in E. apply str_eqb_eq in E as ->. by apply list_elem_of_In.
  - intros H. exists (u g). split; [by apply list_elem_of_In|]. cbn. by rewrite str_eqb_refl.
Qed.

Definition alterations (s t : ColumnSnapshot) : list ColumnAction :=
  (if str_eqb (column_type s) (column_type t) then [] else [SetType (column_type s)])
  ++ (if Bool.eqb (nullable s) (nullable t) then [] else [SetNullable (nullable s)])
  ++ (if bool_decide (default_value s = default_value t) then [] else [SetDefault (default_value s)])
  ++ (if str_eqb (comment s) (comment t) then [] else [SetComment (comment s)]).
(** Fields that cost no statement. *)
Definition silent (fields : list str) : bool := forallb (fun field => one_of field ["ordinal_position"; "primary_key"; "extra"]%string) fields.
Definition actions_of (fields : list str) (s t : ColumnSnapshot) : list ColumnAction := if silent fields then [] else alterations s t.

Lemma silent_same s t : silent (changed_fields s t) = true ->
  column_type s = column_type t /\ nullable s = nullable t /\ default_equiv (default_value s) (default_value t) /\ comment s = comment t.
Proof.
  unfold silent. rewrite forallb_true_iff. intros H.
  assert (N : forall g, one_of (u g) ["ordinal_position"; "primary_key"; "extra"]%string = false -> u g ∉ changed_fields s t)
    by (intros g E F; apply H in F; congruence).
  split; [|split; [|split]].
  - apply dec_stable. intros X. apply (N "column_type"%string); [vm_compute; reflexivity|]. apply changed_fields_elem. by constructor.
  - apply dec_stable. intros X. apply (N "nullable"%string); [vm_compute; reflexivity|]. apply changed_fields_elem. by constructor.
  - apply default_values_equal_iff. apply not_false_iff_true. intros X. apply (N "default_value"%string); [vm_compute; reflexivity|].
    apply changed_fields_elem. constructor. by rewrite <- default_values_equal_iff, X.
  - apply dec_stable. intros X. apply (N "comment"%string); [vm_compute; reflexivity|]. apply changed_fields_elem. by constructor.
Qed.

Lemma altered_column s t a : attributes_equiv a (attributes_of t) -> mentions (changed_fields s t) ["extra"]%string = false ->
  attributes_equiv (fold_left adjust (actions_of (changed_fields s t) s t) a) (attributes_of s).
Proof.
  intros [A1 A2 A3 A4 A5] X. cbn in A1, A2, A3, A4, A5.
  assert (Ex : extra s = extra t).
  { apply dec_stable. intros F. assert (mentions (changed_fields s t) ["extra"]%string = true); [|congruence].
    apply mentions_one, changed_fields_elem. by constructor. }
  unfold actions_of. destruct (silent (changed_fields s t)) eqn:Si.
  - apply silent_same in Si as (S1 & S2 & S3 & S4). split; cbn; try congruence. rewrite A3. by symmetry.
  - unfold alterations. rewrite !fold_left_app.
    destruct (str_eqb (column_type s) (column_type t)) eqn:E1, (Bool.eqb (nullable s) (nullable t)) eqn:E2,
      (bool_decide (default_value s = default_value t)) eqn:E3, (str_eqb (comment s) (comment t)) eqn:E4;
      try apply str_eqb_eq in E1; try apply Bool.eqb_prop in E2; try apply bool_decide_eq_true in E3; try apply str_eqb_eq in E4;
      (split; cbn; [congruence|congruence|by rewrite ?E3|congruence|congruence]).
Qed.

Section Alter.
Context (target : TableSnapshot) (target_wf : wf_snapshot target) (nulls : plain_nulls upper_char source).
Context (n : str) (s t : ColumnSnapshot) (source_has : (n, s) ∈ ts_columns source) (target_has : (n, t) ∈ ts_columns target).

Lemma alter_text : (default_value s <> default_value t -> forall d, default_value s = Some d -> is_raw_default upper_char d = true) ->
  build_alter_column_sqls upper_char (cx_target_database context) (ts_name source)
    (mkColumnInfo n (column_type t) (nullable t) (if primary_key t then u "PRI" else []) (default_value t) (extra t) (comment t))
    (mkAlterColumn n n (column_type s) (nullable s) (default_value s) (extra s) (comment s) None None) =
  map sql (map (OnColumn n) (alterations s t)).
Proof.
  intros R. destruct (ws_type _ source_wf n s source_has) as [Ts Ns].
  unfold build_alter_column_sqls, target_name.
  cbn [al_new_name al_old_name al_column_type al_default_value al_nullable al_comment ci_column_type ci_default_value ci_nullable ci_comment].
  replace (if is_empty (trim n) then n else n) with n by (by destruct (is_empty (trim n))). rewrite str_eqb_refl, Ts. cbn [app].
  unfold alterations. rewrite !map_app. f_equal; [|f_equal; [|f_equal]].
  - destruct (column_type s) as [|x y] eqn:E; [done|]. cbn [is_empty negb andb]. by destruct (str_eqb (x :: y) (column_type t)).
  - destruct (Bool.eqb (nullable s) (nullable t)); [done|]. by destruct (nullable s).
  - assert (Es : forall d, default_value s = Some d -> trim d = d /\ d <> []) by (intros d; by apply (ws_default _ source_wf n)).
    assert (Et : forall d, default_value t = Some d -> trim d = d /\ d <> []) by (intros d; by apply (ws_default _ target_wf n)).
    destruct (default_value s) as [ds|], (default_value t) as [dt|]; cbn [fmap option_fmap option_map from_option id].
    + destruct (Es ds eq_refl) as [-> Ne]. destruct (str_eqb ds dt) eqn:E.
      * apply str_eqb_eq in E as ->. by rewrite bool_decide_true.
      * apply str_eqb_neq in E. rewrite bool_decide_false by congruence. destruct (is_empty ds) eqn:Em; [by destruct ds|].
        unfold default_sql. rewrite (R ltac:(congruence) ds eq_refl). done.
    + destruct (Es ds eq_refl) as [-> Ne]. rewrite bool_decide_false by done. destruct (str_eqb ds []) eqn:E; [by apply str_eqb_eq in E|].
      destruct (is_empty ds) eqn:Em; [by destruct ds|]. unfold default_sql. rewrite (R ltac:(done) ds eq_refl). done.
    + destruct (Et dt eq_refl) as [_ Ne]. rewrite bool_decide_false by done. destruct (str_eqb [] dt) eqn:E; [apply str_eqb_eq in E; congruence|]. done.
    + done.
  - by destruct (str_eqb (comment s) (comment t)).
Qed.

Lemma change_column_ok m texts : change_column upper_char context m source n (changed_fields s t) s t = Ok texts ->
  texts = map sql (map (OnColumn n) (actions_of (changed_fields s t) s t)) /\ mentions (changed_fields s t) ["extra"]%string = false.
Proof.
  unfold change_column, actions_of. fold (silent (changed_fields s t)). destruct (mentions (changed_fields s t) ["extra"]%string); [discriminate|].
  destruct (silent (changed_fields s t)); [by intros [= <-]|]. destruct (_ && _ && _); [discriminate|]. destruct (_ && _ && _); [discriminate|].
  intros H. apply rbind_ok_inv in H as (native & _ & H). apply rbind_ok_inv in H as ([] & V & [= <-]). split; [|done].
  apply alter_text. intros Ne d D. destruct (mentions (changed_fields s t) ["default_value"]%string) eqn:M.
  - unfold validate_column_for_builder in V. apply rbind_ok_inv in V as (_ & _ & V). rewrite M in V. cbn [orb andb] in V.
    destruct (negb (metadata_matches_snapshot s native)) eqn:Q; [discriminate|]. apply negb_false_iff, bool_decide_eq_true in Q.
    destruct (_ && _) in V; [discriminate|]. destruct (_ && _) in V; [discriminate|]. destruct (_ && _) in V; [discriminate|].
    destruct (negb (safe_default_for_builder _ _)) eqn:S; [discriminate|]. apply negb_false_iff in S. rewrite <- Q, D in S. cbn in S.
    destruct (ws_default _ source_wf n s d source_has D) as [T _]. rewrite T in S. by apply andb_prop in S as [_ S].
  - apply (nulls n s d source_has D). assert (Q : default_equiv (default_value s) (default_value t)).
    { apply default_values_equal_iff, not_false_iff_true. intros X. assert (mentions (changed_fields s t) ["default_value"]%string = true); [|congruence].
      apply mentions_one, changed_fields_elem. constructor. by rewrite <- default_values_equal_iff, X. }
    destruct Q as [[Q _]|Q]; [|done]. by rewrite D in Q.
Qed.
End Alter.

Lemma pg_append_column_ok target m n c texts : table_metadata (cx_source_metadata context) (ts_name source) = Ok m -> (n, c) ∈ ts_columns source ->
  append_column upper_char context m source target n c = Ok texts ->
  max_position target < ordinal_position c /\ extra c = [] /\ texts = map sql (add_statements (spec_of (n, c))).
Proof.
  intros Hm Hc. unfold append_column. destruct (ordinal_position c <=? _) eqn:L; [done|]. intros H.
  apply rbind_ok_inv in H as (native & Hn & H). apply rbind_ok_inv in H as ([] & V & [= <-]).
  destruct (validated m n c native Hm Hn Hc V) as [X R]. split; [lia|]. split; [done|].
  unfold build_add_column_sqls, add_statements, comment_statement. cbn [ac_column_type ac_nullable ac_default_value ac_name ac_comment].
  rewrite (written_definition n c Hc R). cbn [spec_of fst snd df_name]. by destruct (is_empty (comment c)).
Qed.
(** ** A table on both sides *)

Section Changed.
Context (target : TableSnapshot) (target_wf : wf_snapshot target) (nulls : plain_nulls upper_char source).
Context (m : PostgresTableMeta) (source_metadata : table_metadata (cx_source_metadata context) (ts_name source) = Ok m).
Abbreviation ds := (compare_table_columns source target).
Abbreviation in_source := (ColumnOrder.attributes (ts_columns source)).
Abbreviation in_target := (ColumnOrder.attributes (ts_columns target)).
Abbreviation differs := (plan_difference upper_char context m source target []).
#[local] Abbreviation difference_elem := (difference_elem source target (ws_names _ source_wf) (ws_names _ target_wf)).
#[local] Abbreviation source_column := (source_column source (ws_names _ source_wf)).
#[local] Abbreviation target_column := (target_column target (ws_names _ target_wf)).

(** Nothing is said about the common columns when all of them stand where they
    stood. *)
Lemma commons_clean m' cols plan : (forall c, c ∈ cols -> c ∈ ts_columns source) ->
  pf_blockers (fold_left (compare_common m m' source target) cols (plan, [])).1 = [] ->
  fold_left (compare_common m m' source target) cols (plan, []) = (plan, []) /\
  forall n c c', (n, c) ∈ cols -> in_target n = Some c' -> ordinal_position c = ordinal_position c'.
Proof.
  induction cols as [|[n c] cols IH] using rev_ind; [intros _ _; split; [done|by intros ??? ?%elem_of_nil]|].
  intros Sub. rewrite fold_left_app. cbn [fold_left]. unfold compare_common at 1 3. cbn [fst snd].
  assert (F : find_first (fun t => str_eqb t.1 n) (ts_columns target) = (fun c' => (n, c')) <$> in_target n).
  { clear. induction (ts_columns target) as [|[k d] l IHl]; [done|]. cbn [find_first ColumnOrder.attributes fst snd].
    destruct (str_eqb k n) eqn:E; [apply str_eqb_eq in E as ->; by rewrite decide_True|]. apply str_eqb_neq in E. by rewrite decide_False by congruence. }
  rewrite F. destruct (in_target n) as [c'|] eqn:E; cbn [fmap option_fmap option_map].
  2: { intros B. destruct (IH ltac:(intros; apply Sub, elem_of_app; by left) B) as [-> H]. split; [done|].
       intros n1 c1 c2 [Hc|Hc%list_elem_of_singleton]%elem_of_app E1; [by apply (H n1)|]. injection Hc as -> ->. congruence. }
  destruct (common_problem _ _ _ _ _ _ _) as [[]|[sm r]]; [|by intros X%block_not_nil].
  destruct (ordinal_position c =? ordinal_position c') eqn:P; [|by intros X%block_not_nil].
  intros B. destruct (IH ltac:(intros; apply Sub, elem_of_app; by left) B) as [-> H]. split; [done|].
  intros n1 c1 c2 [Hc|Hc%list_elem_of_singleton]%elem_of_app E1; [by apply (H n1)|]. injection Hc as -> ->.
  rewrite E in E1. injection E1 as <-. lia.
Qed.

(** What an unblocked difference contributes. *)
Definition appended (d : ColumnDiff) : option (Z * str * list str) :=
  match cd_status d, cd_source d with
  | SourceOnly, Some c => Some (ordinal_position c, cd_name d, map sql (add_statements (spec_of (cd_name d, c))))
  | _, _ => None
  end.
Definition altered (d : ColumnDiff) : option (Z * str * list ColumnAction) :=
  match cd_status d, cd_source d, cd_target d with
  | Changed, Some s, Some t =>
    let acts := actions_of (cd_changed_fields d) s t in if is_empty acts then None else Some (ordinal_position s, cd_name d, acts)
  | _, _, _ => None
  end.
Definition altered_text (e : Z * str * list ColumnAction) : Z * str * list str := (e.1, map sql (map (OnColumn e.1.2) e.2)).
Definition dropped (d : ColumnDiff) : option str := match cd_status d with TargetOnly => Some (cd_name d) | _ => None end.
Definition settled (d : ColumnDiff) : Prop :=
  match cd_status d, cd_source d, cd_target d with
  | SourceOnly, Some c, _ => max_position target < ordinal_position c /\ extra c = []
  | Changed, Some _, Some _ => mentions (cd_changed_fields d) ["extra"]%string = false
  | TargetOnly, _, _ => cx_include_drops context = true
  | _, _, _ => False
  end.
Lemma pg_difference_clean st d : d ∈ ds -> clean (ch_plan (differs st d)) ->
  settled d /\ ch_plan (differs st d) = ch_plan st /\ ch_add (differs st d) = ch_add st ++ option_list (appended d) /\
  ch_alter (differs st d) = ch_alter st ++ option_list (altered_text <$> altered d) /\ ch_drop (differs st d) = ch_drop st ++ option_list (dropped d).
Proof.
  intros Hd. apply difference_elem in Hd as (Es & Et & Hd). unfold plan_difference, settled, appended, altered, dropped.
  destruct (cd_status d), (cd_source d) as [c|], (cd_target d) as [c'|]; try (by destruct Hd).
  - destruct (append_column _ _ _ _ _ _ _) as [text|r] eqn:A; [|by intros [F%block_not_nil _]]. intros _.
    apply pg_append_column_ok in A as (L & X & ->); [|done|by apply source_column].
    cbn [ch_plan ch_add ch_alter ch_drop fmap option_fmap option_map option_list]. by rewrite !app_nil_r.
  - destruct (cx_include_drops context); [|by intros [_ F%skip_not_nil]]. intros _.
    cbn [ch_plan ch_add ch_alter ch_drop fmap option_fmap option_map option_list]. by rewrite !app_nil_r.
  - rewrite bool_decide_false by (by intros ?%elem_of_nil). destruct Hd as (_ & _ & ->).
    destruct (change_column _ _ _ _ _ _ _ _) as [texts|r] eqn:A; [|by intros [F%block_not_nil _]]. intros _.
    apply (change_column_ok target target_wf nulls) in A as [-> X]; [|by apply source_column|by apply target_column].
    cbn zeta. destruct (actions_of (changed_fields c c') c c') as [|a acts] eqn:Ea;
      cbn [map is_empty ch_plan ch_add ch_alter ch_drop fmap option_fmap option_map option_list]; by rewrite ?app_nil_r.
Qed.
Lemma pg_differs_mono st d : clean (ch_plan (differs st d)) -> clean (ch_plan st).
Proof.
  unfold plan_difference. destruct (cd_status d), (cd_source d) as [c|], (cd_target d) as [c'|]; try done;
    try (destruct (append_column _ _ _ _ _ _ _); [done|by intros [F%block_not_nil _]]);
    try (destruct (cx_include_drops context); [done|by intros [_ F%skip_not_nil]]).
  destruct (bool_decide _); [done|]. destruct (change_column _ _ _ _ _ _ _ _) as [texts|]; [|by intros [F%block_not_nil _]].
  by destruct (is_empty texts).
Qed.
Lemma pg_differences_clean l st : (forall d, d ∈ l -> d ∈ ds) -> clean (ch_plan (fold_left differs l st)) ->
  Forall settled l /\ ch_plan (fold_left differs l st) = ch_plan st /\ ch_add (fold_left differs l st) = ch_add st ++ omap appended l /\
  ch_alter (fold_left differs l st) = ch_alter st ++ map altered_text (omap altered l) /\ ch_drop (fold_left differs l st) = ch_drop st ++ omap dropped l.
Proof.
  revert st. induction l as [|d l IH]; intros st Sub C; [by cbn; rewrite !app_nil_r|]. cbn [fold_left] in *.
  destruct (IH (differs st d)) as (F & E1 & E2 & E3 & E4); [intros; apply Sub; by right|done|].
  destruct (pg_difference_clean st d) as (S & D1 & D2 & D3 & D4); [apply Sub; by left|by rewrite E1 in C|].
  split; [by constructor|]. rewrite E1, E2, E3, E4, D1, D2, D3, D4, !omap_first. split; [done|].
  destruct (appended d), (altered d), (dropped d); cbn [option_list map fmap option_fmap option_map]; rewrite <- ?(assoc app), ?app_nil_r; done.
Qed.

(** ** The statements of the plan *)

Context (differences_settled : Forall settled ds).
Context (same_places : forall n c c', in_source n = Some c -> in_target n = Some c' -> ordinal_position c = ordinal_position c').
Abbreviation new_columns := (new_columns source target).
#[local] Abbreviation new_column := (new_column source target (ws_names _ source_wf)).
Lemma pg_new_settled n c : in_source n = Some c -> in_target n = None -> max_position target < ordinal_position c /\ extra c = [].
Proof.
  intros E1 E2. rewrite list.Forall_forall in differences_settled.
  by apply (differences_settled _ (new_difference source target (ws_names _ source_wf) (ws_names _ target_wf) n c E1 E2)).
Qed.
Lemma pg_added_statements : sorted_sql (omap appended ds) = map sql (concat (map (fun c => add_statements (spec_of c)) new_columns)).
Proof.
  unfold sorted_sql. rewrite concat_map, map_map. f_equal. apply (new_entries source target (ws_names _ source_wf)).
  - rewrite sort_by_perm. apply omap_NoDup; [|apply (NoDup_fmap_1 cd_name), difference_names].
    intros d d' a E E' Hd Hd'. apply (NoDup_map_inj cd_name ds); [apply difference_names|done..|].
    unfold appended in E, E'. destruct (cd_status d), (cd_source d), (cd_status d'), (cd_source d'); try done. congruence.
  - apply (sort_by_sorted (cmp_on entry_key by_key)).
  - intros e. rewrite sort_by_elem, list_elem_of_omap. unfold appended. split.
    + intros (d & Hd & E). apply difference_elem in Hd as (Es & Et & Hd). destruct (cd_status d), (cd_source d) as [c|]; try done.
      injection E as <-. exists (cd_name d, c). split; [by apply source_column|]. split; [|done].
      unfold is_new. cbn. rewrite <- Et. destruct (cd_target d); [by destruct Hd|done].
    + intros ([n c] & Hc & Hn & ->). exists (mkColumnDiff n SourceOnly [] (Some c) None). split; [|done].
      apply new_difference; [apply source_wf|apply target_wf|by apply source_column|done].
Qed.

Definition entries : list (Z * str * list ColumnAction) := sort_by (cmp_on fst by_key) (omap altered ds).
Definition column_actions : list (str * ColumnAction) := concat (map entry_actions entries).
Lemma altered_statements : sorted_sql (map altered_text (omap altered ds)) = map sql (map (fun p => OnColumn p.1 p.2) column_actions).
Proof.
  unfold sorted_sql, column_actions, entries.
  rewrite (sort_by_map altered_text (cmp_on fst by_key) by_place) by (by intros [[]] [[]]).
  generalize (sort_by (cmp_on fst by_key) (omap altered ds)). induction l as [|e l IH]; [done|]. cbn [map concat]. rewrite IH, !map_app. f_equal.
  unfold entry_actions, altered_text. cbn [snd]. by rewrite !map_map.
Qed.
Lemma entries_names : NoDup (map (fun e : Z * str * list ColumnAction => e.1.2) entries).
Proof.
  assert (N : NoDup (map (fun e : Z * str * list ColumnAction => e.1.2) (omap altered ds))).
  { pose proof (difference_names source target) as D. revert D. generalize ds. induction l as [|d l IH]; [done|]. cbn [map].
    intros [N1 N2]%NoDup_cons. rewrite omap_first. destruct (altered d) as [e|] eqn:E; [|by apply IH]. cbn [map]. constructor; [|by apply IH].
    assert (En : e.1.2 = cd_name d).
    { unfold altered in E. destruct (cd_status d), (cd_source d), (cd_target d); try done. cbn zeta in E. destruct (is_empty _); [done|]. by injection E as <-. }
    intros (e' & Ee & (d' & Hd & E')%list_elem_of_omap)%list_elem_of_fmap. apply N1. rewrite <- En, Ee.
    assert (En' : e'.1.2 = cd_name d').
    { unfold altered in E'. destruct (cd_status d'), (cd_source d'), (cd_target d'); try done. cbn zeta in E'. destruct (is_empty _); [done|]. by injection E' as <-. }
    rewrite En'. by apply list_elem_of_fmap_2. }
  unfold entries. by rewrite sort_by_perm.
Qed.
(** The actions on a common column make it the source's. *)
Lemma common_actions n s t a : in_source n = Some s -> in_target n = Some t -> attributes_equiv a (attributes_of t) ->
  attributes_equiv (fold_left adjust (actions n column_actions) a) (attributes_of s).
Proof.
  intros Es Et A. destruct (decide (changed_fields s t = [])) as [E|N].
  - unfold column_actions. rewrite actions_none.
    + apply changed_fields_nil in E as []. cbn [fold_left]. rewrite A. split; cbn; try congruence. by symmetry.
    + intros e He En. unfold entries in He. rewrite sort_by_elem in He. apply list_elem_of_omap in He as (d & Hd & Ed).
      apply difference_elem in Hd as (Ds & Dt & Hd). unfold altered in Ed. destruct (cd_status d), (cd_source d) as [c|], (cd_target d) as [c'|]; try done.
      cbn zeta in Ed. destruct (is_empty _); [done|]. injection Ed as <-. cbn in En. rewrite En in Ds, Dt. rewrite Es in Ds. rewrite Et in Dt.
      injection Ds as ->. injection Dt as ->. by destruct Hd as (_ & Hd & _).
  - pose proof (changed_difference source target (ws_names _ source_wf) (ws_names _ target_wf) n s t Es Et N) as Hd.
    rewrite list.Forall_forall in differences_settled. pose proof (differences_settled _ Hd) as X. cbn in X.
    replace (actions n column_actions) with (actions_of (changed_fields s t) s t); [by apply altered_column|].
    unfold column_actions. destruct (is_empty (actions_of (changed_fields s t) s t)) eqn:Em.
    + apply is_empty_nil in Em. rewrite Em. symmetry. apply actions_none. intros e He En. unfold entries in He. rewrite sort_by_elem in He.
      apply list_elem_of_omap in He as (d & Hd' & Ed).
      apply difference_elem in Hd' as (Ds & Dt & Hd'). unfold altered in Ed. destruct (cd_status d), (cd_source d) as [c|], (cd_target d) as [c'|]; try done.
      cbn zeta in Ed. destruct (is_empty (actions_of _ _ _)) eqn:Em'; [done|]. injection Ed as <-. cbn in En. rewrite En in Ds, Dt.
      rewrite Es in Ds. rewrite Et in Dt. injection Ds as ->. injection Dt as ->. destruct Hd' as (_ & _ & Hf). rewrite Hf, Em in Em'. done.
    + symmetry. apply (actions_entry (ordinal_position s)); [apply entries_names|]. unfold entries. rewrite sort_by_elem.
      apply list_elem_of_omap. exists (mkColumnDiff n Changed (changed_fields s t) (Some s) (Some t)). split; [done|].
      unfold altered. cbn [cd_status cd_source cd_target cd_changed_fields cd_name]. cbn zeta. by rewrite Em.
Qed.
Lemma new_actions n : in_target n = None -> actions n column_actions = [].
Proof.
  intros Et. apply actions_none. intros e He En. unfold entries in He. rewrite sort_by_elem in He. apply list_elem_of_omap in He as (d & Hd & Ed).
  apply difference_elem in Hd as (Ds & Dt & Hd). unfold altered in Ed. destruct (cd_status d), (cd_source d) as [c|], (cd_target d) as [c'|]; try done.
  cbn zeta in Ed. destruct (is_empty _); [done|]. injection Ed as <-. cbn in En. rewrite En in Dt. congruence.
Qed.
(** ** The table after the plan *)

Context (t : Table) (target_names : map fst (tb_columns t) = names_of target).
Context (target_attributes : forall n c a, (n, c) ∈ ts_columns target -> (n, a) ∈ tb_columns t -> attributes_equiv a (attributes_of c)).
Context (gone : list str) (gone_dropped : gone ≡ₚ omap dropped ds).
(** The new primary key, when the plan adds one. *)
Context (keys : option (list str)).
Context (keys_source : forall ks n, keys = Some ks -> n ∈ ks -> exists c, (n, c) ∈ ts_columns source /\ primary_key c = true).

Definition required (l : list (str * Attributes)) : list (str * Attributes) := match keys with Some ks => require ks l | None => l end.
Definition after_plan : list (str * Attributes) :=
  filter (fun c => c.1 ∉ gone) (required (map (adjusted column_actions) (tb_columns t ++ map commented (map spec_of new_columns)))).

Lemma pg_gone_elem n : n ∈ gone <-> in_source n = None /\ in_target n <> None.
Proof. rewrite gone_dropped. apply dropped_elem; [apply source_wf|apply target_wf]. Qed.
Lemma required_names l : map fst (required l) = map fst l.
Proof. unfold required. destruct keys; [|done]. unfold require. rewrite map_map. apply map_ext. intros c. by case_decide. Qed.
Lemma filter_names l : map fst (filter (fun c : str * Attributes => c.1 ∉ gone) l) = filter (fun n => n ∉ gone) (map fst l).
Proof. induction l as [|c l IH]; [done|]. cbn [map]. rewrite !filter_cons. destruct (decide (c.1 ∉ gone)); cbn [map]; by rewrite IH. Qed.
Lemma pg_after_names : map fst after_plan = names_of source.
Proof.
  unfold after_plan. rewrite filter_names, required_names, adjusted_names, map_app, target_names, !map_map, filter_app.
  rewrite <- (appended_order source target (ws_names _ source_wf) (ws_names _ target_wf) gone); [|exact same_places| |exact pg_gone_elem].
  - f_equal. change (fun x : str * ColumnSnapshot => (commented (spec_of x)).1) with (fun x : str * ColumnSnapshot => x.1).
    rewrite ColumnOrder.filter_all; [done|]. intros n ([n' c] & -> & Hc)%list_elem_of_fmap. cbn.
    apply new_column in Hc as [Hc _]. rewrite pg_gone_elem, Hc. by intros [? _].
  - intros n c E1 E2. by apply (pg_new_settled n).
Qed.
Lemma pg_after_attributes n c a : (n, c) ∈ ts_columns source -> (n, a) ∈ after_plan -> attributes_equiv a (attributes_of c).
Proof.
  intros Hc Ha. unfold after_plan in Ha. apply list_elem_of_filter in Ha as [_ Ha]. pose proof Hc as Hs. apply source_column in Hs.
  assert (B : forall a, (n, a) ∈ map (adjusted column_actions) (tb_columns t ++ map commented (map spec_of new_columns)) -> attributes_equiv a (attributes_of c)).
  { clear a Ha. intros a ([n0 a0] & [= -> ->] & Ha)%list_elem_of_fmap. cbn [fst snd] in *. apply elem_of_app in Ha as [Ha|Ha].
    - assert (Hn : n0 ∈ names_of target) by (rewrite <- target_names; by apply (list_elem_of_fmap_2 fst _ (n0, a0))).
      apply names_of_elem in Hn. destruct (in_target n0) as [c'|] eqn:E; [|done]. apply (common_actions n0 c c' a0 Hs E).
      apply target_column in E. by apply (target_attributes n0).
    - rewrite map_map in Ha. apply list_elem_of_fmap in Ha as ([n1 c1] & [= -> ->] & Hn). apply new_column in Hn as [E1 E2].
      assert (c1 = c) as -> by congruence. rewrite (new_actions n1 E2). destruct (pg_new_settled n1 c Hs E2) as [_ X].
      split; cbn; try done. }
  unfold required in Ha. destruct keys as [ks|] eqn:K; [|by apply B]. unfold require in Ha. apply list_elem_of_fmap in Ha as ([n0 a0] & E & Ha).
  cbn [fst snd] in E. case_decide as D; injection E as -> ->; [|by apply B]. destruct (B a0 Ha) as [B1 B2 B3 B4 B5].
  destruct (keys_source ks n0 eq_refl D) as (c' & Hc' & P). apply source_column in Hc'. assert (c' = c) as -> by congruence.
  cbn in B2. split; try done. cbn. symmetry. by apply (ws_key _ source_wf n0).
Qed.
End Changed.

Lemma pg_drops_effect ns t : (forall n, n ∈ ns -> n ∉ tb_key t) -> fold_left alter (map DropColumnStatement ns) t =
  mkTable (filter (fun c => c.1 ∉ ns) (tb_columns t)) (tb_key t) (tb_constraint t) (tb_comment t).
Proof.
  revert t. induction ns as [|n ns IH]; intros [cols k cn cm] N; cbn [map fold_left].
  { rewrite ColumnOrder.filter_all by (intros; apply not_elem_of_nil). done. }
  cbn [PostgresConverge.alter tb_key tb_constraint tb_columns tb_comment]. rewrite decide_False by (apply (N n); by left).
  rewrite IH by (intros m Hm; apply (N m); by right). cbn [tb_columns tb_key tb_constraint tb_comment]. f_equal.
  unfold ColumnOrder.without. rewrite list_filter_filter. apply list_filter_iff. intros x. rewrite not_elem_of_cons. tauto.
Qed.
Definition drop_operation (n : str) : PendingOperation :=
  mkPending DropColumnPhase (ts_name source) DropColumn (u "删除目标端独有字段 " ++ ts_name source ++ u "." ++ n) Destructive
    [build_drop_column_sql (cx_target_database context) (ts_name source) n].
Lemma pg_drop_columns ns plan : fold_left (drop_column context source) ns plan =
  mkFragments (pf_operations plan ++ map drop_operation ns) (pf_skipped_items plan) (pf_blockers plan).
Proof.
  revert plan. induction ns as [|n ns IH]; intros [ops sk bl]; cbn [fold_left map]; [by rewrite app_nil_r|].
  rewrite IH. cbn [drop_column operation pf_operations pf_skipped_items pf_blockers]. by rewrite <- (assoc app).
Qed.
Lemma pg_drop_operations_sql ns : concat (map po_sql (map drop_operation ns)) = map sql (map DropColumnStatement ns).
Proof. induction ns as [|n ns IH]; [done|]. cbn [map concat]. by rewrite IH. Qed.

(** ** The primary key *)

Definition drop_key (m' : PostgresTableMeta) (target_keys : list str) : list Statement :=
  match target_keys, pt_primary_key_constraint m' with _ :: _, Some name => [DropConstraint name] | _, _ => [] end.
Definition add_key (source_keys : list str) : list Statement := if is_empty source_keys then [] else [AddPrimaryKey source_keys].
Lemma compare_keys_ok target m m' sk tk : compare_keys context m source target m' = Ok (sk, tk) ->
  postgres_primary_key_columns source m = Ok sk /\ postgres_primary_key_columns target m' = Ok tk /\
  (tk = [] <-> pt_primary_key_constraint m' = None).
Proof.
  unfold compare_keys. intros H. apply rbind_ok_inv in H as (sk' & Hs%map_err_ok_inv & H). apply rbind_ok_inv in H as (tk' & Ht%map_err_ok_inv & H).
  destruct (negb (Bool.eqb _ _)) eqn:E; [discriminate|]. destruct (_ && _ && _); [discriminate|]. injection H as -> ->.
  split; [done|]. split; [done|]. apply negb_false_iff, Bool.eqb_prop in E. destruct tk, (pt_primary_key_constraint m'); cbn in E; naive_solver.
Qed.
Lemma replace_key_text m' sk tk (acts : list Statement) : sk <> tk -> (tk = [] <-> pt_primary_key_constraint m' = None) ->
  replace_key context source m' sk tk (map sql acts) = map sql (drop_key m' tk ++ acts ++ add_key sk).
Proof.
  intros N K. unfold replace_key, build_primary_key_change_sqls, drop_key, add_key. rewrite bool_decide_false by congruence.
  destruct tk as [|k tk]; cbn [is_empty].
  - rewrite (proj1 K eq_refl). cbn [app]. rewrite map_app. by destruct sk.
  - destruct (pt_primary_key_constraint m') as [name|]; [|by destruct K as [_ K]; discriminate K].
    cbn [app List.firstn List.skipn map]. rewrite map_app. by destruct sk.
Qed.
(** ** The operations of an unblocked plan *)

Definition key_and_columns (m' : PostgresTableMeta) (sk tk : list str) (acts : list Statement) : list Statement :=
  if bool_decide (sk = tk) then acts else drop_key m' tk ++ acts ++ add_key sk.
Record planned_changes (target : TableSnapshot) (m m' : PostgresTableMeta) (sk tk : list str) (adds alts : list PendingOperation) : Prop := {
  pc_source : table_metadata (cx_source_metadata context) (ts_name source) = Ok m;
  pc_target : table_metadata (cx_target_metadata context) (ts_name target) = Ok m';
  pc_keys : compare_keys context m source target m' = Ok (sk, tk);
  pc_settled : Forall (settled target) (compare_table_columns source target);
  pc_places n c c' : ColumnOrder.attributes (ts_columns source) n = Some c -> ColumnOrder.attributes (ts_columns target) n = Some c' ->
    ordinal_position c = ordinal_position c';
  pc_operations : pf_operations (plan_changed_table upper_char context source target no_fragments) =
    adds ++ alts ++ map drop_operation (sort_by str_cmp (omap dropped (compare_table_columns source target)));
  pc_adds : Forall (fun o => po_phase o = AddColumnPhase) adds /\ (length adds <= 1)%nat;
  pc_alts : Forall (fun o => po_phase o = AlterColumnPhase) alts /\ (length alts <= 1)%nat;
  pc_adds_sql : concat (map po_sql adds) = map sql (concat (map (fun c => add_statements (spec_of c)) (new_columns source target)));
  pc_alts_sql : concat (map po_sql alts) = map sql (key_and_columns m' sk tk (map (fun p => OnColumn p.1 p.2) (column_actions target)));
}.
Lemma pg_changed_operations target : wf_snapshot target -> plain_nulls upper_char source ->
  clean (plan_changed_table upper_char context source target no_fragments) ->
  exists m m' sk tk adds alts, planned_changes target m m' sk tk adds alts.
Proof.
  intros Wt Nu C. pose proof C as C0. unfold plan_changed_table in C.
  destruct (comparable context source target) as [[m m']|[sm r]] eqn:Ec; [|by destruct C as [F%block_not_nil _]].
  assert (M : table_metadata (cx_source_metadata context) (ts_name source) = Ok m /\ table_metadata (cx_target_metadata context) (ts_name target) = Ok m').
  { revert Ec. unfold comparable. intros H. apply rbind_ok_inv in H as (x & Hx%map_err_ok_inv & H). apply rbind_ok_inv in H as (y & Hy%map_err_ok_inv & H).
    destruct (negb _) in H; [discriminate|]. by injection H as -> ->. }
  destruct M as [Hm Hm'].
  pose proof (commons_clean target m m' (ts_columns source) no_fragments (fun c H => H)) as Cm.
  destruct (fold_left (compare_common m m' source target) (ts_columns source) (no_fragments, [])) as [plan blocked] eqn:Ef. cbn [fst] in Cm.
  set (st := fold_left (plan_difference upper_char context m source target blocked) _ _) in *.
  assert (Mono : clean (ch_plan st) -> clean plan).
  { unfold st. apply (fold_back (fun st => clean (ch_plan st)) _ (compare_table_columns source target) (mkChanges plan [] Normal [] [])).
    intros x d. unfold plan_difference. destruct (cd_status d), (cd_source d), (cd_target d); try done;
      try (destruct (append_column _ _ _ _ _ _ _); [done|by intros [F%block_not_nil _]]);
      try (destruct (cx_include_drops context); [done|by intros [_ F%skip_not_nil]]).
    destruct (bool_decide _); [done|]. destruct (change_column _ _ _ _ _ _ _ _) as [texts|]; [|by intros [F%block_not_nil _]].
    by destruct (is_empty texts). }
  destruct (is_empty (pf_blockers (ch_plan st))) eqn:B; cbn [negb] in C; [|destruct C as [C _]; by rewrite C in B].
  destruct (compare_keys context m source target m') as [[sk tk]|[sm r]] eqn:K; [|by destruct C as [F%block_not_nil _]].
  assert (Cs : clean (ch_plan st)).
  { revert C. unfold finish_changes. rewrite pg_drop_columns. unfold clean. cbn [pf_blockers pf_skipped_items].
    destruct (is_empty (sorted_sql (ch_add st))), (bool_decide (sk = tk)); cbn [negb]; try done; by destruct (is_empty (sorted_sql (ch_alter st))). }
  destruct (Cm (proj1 (Mono Cs))) as [E Pl]. injection E as -> ->.
  destruct (pg_differences_clean target Wt Nu m Hm (compare_table_columns source target) (mkChanges no_fragments [] Normal [] []) (fun d H => H) Cs)
    as (F & E1 & E2 & E3 & E4). fold st in E1, E2, E3, E4. cbn [ch_plan ch_add ch_alter ch_drop app] in E1, E2, E3, E4.
  destruct (compare_keys_ok _ _ _ _ _ K) as (_ & _ & Kc).
  exists m, m', sk, tk,
    (if is_empty (sorted_sql (ch_add st)) then []
     else [mkPending AddColumnPhase (ts_name source) AddColumn (u "新增表 " ++ ts_name source ++ u " 的 " ++ show_Z (zlen (ch_add st)) ++ u " 个字段")
             (ch_add_risk st) (sorted_sql (ch_add st))]),
    (if negb (bool_decide (sk = tk))
     then [mkPending AlterColumnPhase (ts_name source) ReplacePrimaryKey (u "替换表 " ++ ts_name source ++ u " 的主键并同步相关字段") High
             (replace_key context source m' sk tk (sorted_sql (ch_alter st)))]
     else if is_empty (sorted_sql (ch_alter st)) then []
     else [mkPending AlterColumnPhase (ts_name source) AlterColumn (u "修改表 " ++ ts_name source ++ u " 的 " ++ show_Z (zlen (ch_alter st)) ++ u " 个字段")
             High (sorted_sql (ch_alter st))]).
  split; [done|done|done|exact F| | | | | |].
  - intros n c c' Hc. apply (source_column source (ws_names _ source_wf)) in Hc. by apply (Pl n).
  - unfold plan_changed_table. rewrite Ec, Ef. fold st. rewrite B, K. cbn [negb]. unfold finish_changes. rewrite pg_drop_columns.
    cbn [pf_operations]. rewrite E4, E1. rewrite (assoc app _ _ (map drop_operation _)). f_equal.
    destruct (is_empty (sorted_sql (ch_add st))), (bool_decide (sk = tk)); cbn [negb]; try done; by destruct (is_empty (sorted_sql (ch_alter st))).
  - destruct (is_empty (sorted_sql (ch_add st))); (split; [by repeat constructor|repeat constructor]).
  - destruct (negb _); [|destruct (is_empty (sorted_sql (ch_alter st)))]; (split; [by repeat constructor|repeat constructor]).
  - rewrite E2, (pg_added_statements target Wt). destruct (is_empty (map sql _)) eqn:Em; [apply is_empty_nil in Em; by rewrite Em|].
    cbn [map concat po_sql]. by rewrite app_nil_r.
  - rewrite E3, altered_statements. unfold key_and_columns. destruct (bool_decide (sk = tk)) eqn:Ek; cbn [negb].
    + destruct (is_empty (map sql _)) eqn:Em; [apply is_empty_nil in Em; by rewrite Em|]. cbn [map concat po_sql]. by rewrite app_nil_r.
    + cbn [map concat po_sql]. rewrite app_nil_r. apply replace_key_text; [by apply bool_decide_eq_false in Ek|done].
Qed.

Lemma pg_changed_converges target ops t : wf_snapshot target -> plain_nulls upper_char source ->
  represents (Some target) (cx_target_metadata context) (Some t) -> constrained (Some target) (cx_target_metadata context) (Some t) ->
  clean (plan_changed_table upper_char context source target no_fragments) ->
  ops ≡ₚ pf_operations (plan_changed_table upper_char context source target no_fragments) -> in_phases ops ->
  exists stmts, concat (map po_sql ops) = map sql stmts /\
    represents (Some source) (cx_source_metadata context) (fold_left (fun t s => effect s t) stmts (Some t)).
Proof.
  intros Wt Nu (R1 & R2 & R3) Rc C P S. destruct (pg_changed_operations target Wt Nu C) as (m & m' & sk & tk & adds & alts & Pc).
  destruct Pc as [Hm Hm' K F Pl Eo [Fa La] [Fl Ll] Sa Sl]. rewrite Eo in P.
  destruct (phases_split ops adds _ 2 S P) as (a' & rest & -> & Pa & Pr & Sr).
  { eapply list.Forall_impl; [exact Fa|]. cbn. by intros o ->. }
  { apply list.Forall_app. split; [eapply list.Forall_impl; [exact Fl|]; by intros o ->|]. apply list.Forall_forall. by intros o (n & -> & _)%list_elem_of_fmap. }
  destruct (phases_split rest alts _ 3 Sr Pr) as (l' & d' & -> & Pl' & Pd & _).
  { eapply list.Forall_impl; [exact Fl|]. cbn. by intros o ->. }
  { apply list.Forall_forall. by intros o (n & -> & _)%list_elem_of_fmap. }
  apply short_perm in Pa as ->; [|done]. apply short_perm in Pl' as ->; [|done].
  apply Permutation_map_inv in Pd as (gone & -> & Pg). rewrite sort_by_perm in Pg. symmetry in Pg. clear S P Pr Sr.
  set (new := concat (map (fun c => add_statements (spec_of c)) (new_columns source target))) in *.
  set (acts := map (fun p => OnColumn p.1 p.2) (column_actions target)) in *.
  exists (new ++ key_and_columns m' sk tk acts ++ map DropColumnStatement gone). split.
  { by rewrite !map_app, !concat_app, Sa, Sl, pg_drop_operations_sql. }
  destruct (compare_keys_ok _ _ _ _ _ K) as (Ks & Kt & Kc). specialize (R3 m' Hm'). rewrite Kt in R3. injection R3 as Ek.
  assert (Al : Forall alters (new ++ key_and_columns m' sk tk acts ++ map DropColumnStatement gone)).
  { assert (Aacts : Forall alters acts) by (apply list.Forall_forall; by intros s (p & -> & _)%list_elem_of_fmap).
    repeat (apply list.Forall_app; split).
    - unfold new. apply list.Forall_forall. intros s Hs. apply list_elem_of_In, in_concat in Hs as (l & Hl & Hs).
      apply list_elem_of_In, list_elem_of_fmap in Hl as (c & -> & _). apply list_elem_of_In in Hs. revert Hs. unfold add_statements, comment_statement.
      intros [->|Hs]%elem_of_cons; [done|]. destruct (is_empty _); [by apply elem_of_nil in Hs|]. by apply list_elem_of_singleton in Hs as ->.
    - unfold key_and_columns. destruct (bool_decide _); [done|]. repeat (apply list.Forall_app; split); [|done|].
      + unfold drop_key. destruct tk; [constructor|]. destruct (pt_primary_key_constraint m'); by repeat constructor.
      + unfold add_key. destruct (is_empty sk); by repeat constructor.
    - apply list.Forall_forall. by intros s (p & -> & _)%list_elem_of_fmap. }
  rewrite effects_alter by done. rewrite !fold_left_app. unfold new. clear Al Sa Sl.
  assert (Nn : fold_left alter (concat (map (fun c => add_statements (spec_of c)) (new_columns source target))) t =
    mkTable (tb_columns t ++ map commented (map spec_of (new_columns source target))) (tb_key t) (tb_constraint t) (tb_comment t)).
  { rewrite <- pg_adds_effect with (new_constraint := new_constraint); [by rewrite map_map| |].
    - rewrite map_map. cbn. apply (NoDup_fmap_2_strong (fun c : str * ColumnSnapshot => c.1)).
      + intros [n c] [n' c'] Hc Hc' [= <-]. apply new_column in Hc as [Hc _]; [|apply source_wf]. apply new_column in Hc' as [Hc' _]; [|apply source_wf]. congruence.
      + unfold new_columns. apply NoDup_filter. unfold in_order. rewrite sort_by_perm. eapply NoDup_fmap_1, source_wf.
    - intros c ([n c'] & -> & Hc)%list_elem_of_fmap. cbn. rewrite R1. intros Hn. apply names_of_elem in Hn.
      by apply new_column in Hc as [_ Hc]; [|apply source_wf]. }
  rewrite Nn. clear Nn.
  (* The key and the columns. *)
  assert (Kk : fold_left alter (key_and_columns m' sk tk acts)
      (mkTable (tb_columns t ++ map commented (map spec_of (new_columns source target))) (tb_key t) (tb_constraint t) (tb_comment t)) =
    mkTable (required (if bool_decide (sk = tk) then None else if is_empty sk then None else Some sk)
       (map (adjusted (column_actions target)) (tb_columns t ++ map commented (map spec_of (new_columns source target)))))
      sk (if bool_decide (sk = tk) then tb_constraint t else if is_empty sk then None else new_constraint) (tb_comment t)).
  { unfold key_and_columns, acts. destruct (bool_decide (sk = tk)) eqn:Eb.
    - apply bool_decide_eq_true in Eb as ->. rewrite on_columns_effect. cbn [tb_columns tb_key tb_constraint tb_comment required]. by rewrite Ek.
    - rewrite !fold_left_app.
      assert (D : forall t', tb_key t' = tb_key t -> tb_constraint t' = tb_constraint t ->
        fold_left alter (drop_key m' tk) t' = mkTable (tb_columns t') [] None (tb_comment t')).
      { intros [c k cn cm] E1 E2. cbn in E1, E2. subst k cn. unfold drop_key. pose proof (Rc target m' t eq_refl Hm' eq_refl) as Ec. rewrite <- Ek.
        destruct tk as [|k tk]; [by rewrite Ec, (proj1 Kc eq_refl)|]. destruct (pt_primary_key_constraint m') as [name|] eqn:En; [|by destruct Kc as [_ Kc]; discriminate Kc].
        cbn [fold_left PostgresConverge.alter tb_constraint tb_columns tb_comment]. by rewrite decide_True by done. }
      rewrite D by done. rewrite on_columns_effect. cbn [tb_columns tb_key tb_constraint tb_comment]. unfold add_key. by destruct sk. }
  rewrite Kk. clear Kk. rewrite pg_drops_effect; cbn [tb_columns tb_key].
  2: { intros n Hn. apply (pg_gone_elem target Wt gone Pg) in Hn as [Hn _]. intros Hk. destruct (key_member source m sk n Ks Hk) as (c & Hc & _).
       apply attributes_elem in Hc; [congruence|apply source_wf]. }
  assert (Kq : forall ks n, (if bool_decide (sk = tk) then None else if is_empty sk then None else Some sk) = Some ks -> n ∈ ks ->
    exists c, (n, c) ∈ ts_columns source /\ primary_key c = true).
  { intros ks n E Hn. apply (key_member source m sk n Ks). destruct (bool_decide (sk = tk)); [done|]. destruct (is_empty sk); [done|]. by injection E as ->. }
  cbn [represents tb_columns tb_key]. split; [|split].
  - by apply (pg_after_names target Wt F Pl t R1 gone Pg).
  - intros n c a Hc Ha. by eapply (pg_after_attributes target Wt F t R1 R2 gone _ Kq n c a Hc).
  - intros m2 E2. rewrite Hm in E2. by injection E2 as <-.
Qed.
End Plans.

(** ** Carrying out a plan *)

Definition table_name (context : TablePlanContext) : str :=
  match cx_source context, cx_target context with Some s, _ => ts_name s | None, Some t => ts_name t | None, None => [] end.
Record source_ready (upper_char : char -> str) (metadata : option TableSyncMetadata) (s : TableSnapshot) : Prop := {
  sr_snapshot : wf_snapshot s;
  sr_metadata : wf_metadata metadata (ts_name s);
  sr_nulls : plain_nulls upper_char s;
}.
(** The effect of a clean plan's statements, from any order of its operations
    that keeps the phases: the table exists exactly when the source's does, with
    the same columns in the same order, the same types, nullability, defaults (up
    to spellings of NULL) and comments, and the same primary key. *)
Lemma pg_plan_effect upper_char new_constraint context ops t0 :
  (forall s, cx_source context = Some s -> source_ready upper_char (cx_source_metadata context) s) ->
  (forall s, cx_target context = Some s -> wf_snapshot s) ->
  represents (cx_target context) (cx_target_metadata context) t0 -> constrained (cx_target context) (cx_target_metadata context) t0 ->
  clean (plan_table upper_char context) ->
  ops ≡ₚ pf_operations (plan_table upper_char context) -> in_phases ops ->
  exists stmts, concat (map po_sql ops) = map (render (cx_target_database context) (table_name context)) stmts /\
    represents (cx_source context) (cx_source_metadata context) (fold_left (fun t s => effect new_constraint s t) stmts t0).
Proof.
  intros Ws Wt R Rc C P S. unfold plan_table, table_name in *.
  destruct (cx_source context) as [s|] eqn:Es, (cx_target context) as [g|] eqn:Et.
  - destruct (Ws s eq_refl) as [W M N]. destruct t0 as [t|]; [|done].
    destruct (pg_changed_converges upper_char new_constraint context s W M g ops t (Wt g eq_refl) N R Rc C P S) as (stmts & E & H).
    by exists stmts.
  - destruct (Ws s eq_refl) as [W M N].
    destruct (pg_create_converges upper_char new_constraint context s W M _ C eq_refl) as (stmts & E & H).
    exists stmts. split; [|apply H].
    assert (L : ops = pf_operations (plan_create_table upper_char context s no_fragments)).
    { apply short_perm; [|exact P]. apply (f_equal length) in E. rewrite length_map in E. rewrite E. cbn. lia. }
    rewrite L, E. cbn. by rewrite app_nil_r.
  - destruct (cx_include_drops context); [|by destruct C as [_ F%skip_not_nil]].
    exists [DropTableStatement]. split; [|done]. cbn in P. apply Permutation_singleton_r in P. by rewrite P.
  - by destruct C as [F%block_not_nil _].
Qed.

(** ** Examples *)

Definition sample_native (ordinal : option Z) (d : option str) : ColumnSyncMetadata :=
  Postgres_Column (mkPostgresColumn [] (u "NEVER") None d false (u "pg_catalog") (u "text") ordinal).
Definition sample_metadata (d : option str) : TableSyncMetadata :=
  PostgresTable (mkPostgresTable (u "r") [] None [(u "a", sample_native None d)]).
Definition sample_table (ty : str) (d : option str) : TableSnapshot :=
  mkSnapshot (u "t") [(u "a", mkColumn 1 ty true d false [] [])].
Definition sample_context : TablePlanContext :=
  mkContext (u "public") (Some (sample_table (u "text") (Some (u "(NULL)")))) (Some (sample_table (u "integer") None))
    (Some (sample_metadata (Some (u "(NULL)")))) (Some (sample_metadata None)) true.
Definition upper_ascii (c : char) : str := [ascii_upper c].
(** A default in parentheses that means NULL does not count as a difference to
    no default, so that it is not checked; with the type changed, the statement
    makes it the text ['(NULL)']. *)
Lemma null_default_becomes_text :
  changed_fields (mkColumn 1 (u "text") true (Some (u "(NULL)")) false [] []) (mkColumn 1 (u "integer") true None false [] []) = [u "column_type"] /\
  clean (plan_table upper_ascii sample_context) /\
  concat (map po_sql (pf_operations (plan_table upper_ascii sample_context))) =
    map (render (u "public") (u "t")) [OnColumn (u "a") (SetType (u "text")); OnColumn (u "a") (SetDefault (Some (u "'(NULL)'")))].
Proof. split; [|split; [split|]]; vm_compute; reflexivity. Qed.

End PostgresConverge.
