(* ===== verification/SqlServerDdl.v ===== *)
(** The statement builders of SQL Server (src-tauri/src/db/sqlserver_ddl.rs):
    the checks of the raw fragments, the definitions of columns and tables and
    the batches that replace a default constraint.  SHA-256 and
    [char::is_alphanumeric] are parameters. *)
From S2P Require Import Prelude RustText SqlDialect MysqlSync Ddl.
Import SqlDialect Ddl.

Module SqlServerDdl.

Definition sqlserver_id : str -> str := sqlserver_identifier.
Definition sqlserver_str : str -> str := sqlserver_string_literal.
Definition n_str (value : str) : str := u "N" ++ sqlserver_str value.
Definition place (schema table : str) : str := sqlserver_id schema ++ u "." ++ sqlserver_id table.
Definition lines (l : list str) : str := join [10] l.

(** ** Names of schemas *)

Definition SYSTEM_SCHEMAS : list String.string :=
  ["sys"; "information_schema"; "db_owner"; "db_accessadmin"; "db_securityadmin"; "db_ddladmin"; "db_backupoperator";
   "db_datareader"; "db_datawriter"; "db_denydatareader"; "db_denydatawriter"]%string.
Definition validate_modifiable_schema_name (schema : str) : result unit str :=
  let s := trim schema in
  if is_empty s then Err (u "schema 名称不能为空")
  else if one_of (to_ascii_lowercase s) SYSTEM_SCHEMAS then Err (u "禁止修改系统 schema `" ++ s ++ u "`")
  else Ok tt.
Definition validate_new_schema_name (is_alphanumeric : char -> bool) (schema : str) : result unit str :=
  let s := trim schema in
  if is_empty s then Err (u "schema 名称不能为空")
  else if 128 <? str_len s then Err (u "schema 名称过长（SQL Server 标识符最长 128 字符）")
  else if negb (forallb (fun c => is_alphanumeric c || contains_char c (u "_-$")) s)
  then Err (u "schema 名称只能包含字母、数字、下划线、连字符和 $（建议使用字母开头）")
  else validate_modifiable_schema_name s.

(** ** Default values *)

Definition validate_default_fragment (default : str) : result unit str :=
  let d := trim default in
  let upper := to_ascii_uppercase d in
  if is_empty d then Ok tt
  else if 512 <? str_len d then Err (u "默认值过长")
  else if contains_char 59 d || contains (u "--") d || contains (u "/*") d || contains (u "*/") d || contains (u " EXEC") upper
          || starts_with (u "EXEC") upper || contains (u "SP_EXECUTESQL") upper || contains (u "XP_") upper
          || contains (u "OPENROWSET") upper || contains (u "OPENQUERY") upper
  then Err (u "默认值包含不安全 SQL 片段")
  else Ok tt.
Definition is_raw_default (default : str) : bool :=
  let d := trim default in
  let upper := to_ascii_uppercase d in
  str_eqb upper (u "NULL") || is_some (parse_i64 d) || parses_as_f64 d
  || one_of upper ["CURRENT_TIMESTAMP"; "GETDATE()"; "SYSDATETIME()"; "SYSUTCDATETIME()"; "SYSDATETIMEOFFSET()"; "NEWID()";
                   "NEWSEQUENTIALID()"]%string.
Definition default_sql (default_value : option str) : result (option str) str :=
  match trim <$> default_value with
  | None | Some [] => Ok None
  | Some default =>
    check? validate_default_fragment default in
    Ok (Some (if is_raw_default default then default else n_str default))
  end.
(** The loop that strips parentheses, a pair in each round. *)
Fixpoint normalize_loop (fuel : nat) (s : str) : str :=
  let trimmed := trim s in
  match fuel, trimmed with
  | S fuel, c :: r =>
    if (c =? 40) && ends_with [41] r then normalize_loop fuel (trim (removelast r)) else to_ascii_lowercase trimmed
  | _, _ => to_ascii_lowercase trimmed
  end.
Definition normalize_default (default : option str) : str :=
  let s := trim (match default with Some d => d | None => [] end) in normalize_loop (length s) s.

(** ** Column types *)

Definition no_type_args (args : option str) : result unit str :=
  if is_some args then Err (u "该 SQL Server 列类型不支持长度或精度参数") else Ok tt.
Definition parse_type_parts (column_type : str) : result (str * option str) str :=
  let malformed := Err (u "SQL Server 列类型格式不正确") in
  let t := trim column_type in
  match split_once 40 t with
  | Some (base, rest) =>
    match strip_suffix [41] rest with
    | None => malformed
    | Some args =>
      if contains_char 40 args || is_empty (trim base) || is_empty (trim args) then malformed else Ok (trim base, Some (trim args))
    end
  | None => if contains_char 41 t then malformed else Ok (t, None)
  end.
Definition parse_u16 (value label : str) : result Z str :=
  ok_or (RustText.parse_u16 (trim value)) (u "SQL Server 列类型" ++ label ++ u "必须是数字").
Definition validate_integer_arg (args : option str) (min max : Z) (label : str) : result unit str :=
  match args with
  | None => Ok tt
  | Some args =>
    let? n := parse_u16 args label in
    if (n <? min) || (max <? n)
    then Err (u "SQL Server 列类型" ++ label ++ u "必须在 " ++ show_Z min ++ u " 到 " ++ show_Z max ++ u " 之间")
    else Ok tt
  end.
Definition validate_length_arg (args : option str) (max : Z) (allow_max : bool) : result unit str :=
  match args with
  | None => Ok tt
  | Some args =>
    if allow_max && eq_ignore_ascii_case args (u "max") then Ok tt
    else
      let? len := parse_u16 args (u "长度") in
      if (len =? 0) || (max <? len) then Err (u "SQL Server 列类型长度必须在 1 到 " ++ show_Z max ++ u " 之间") else Ok tt
  end.
Definition validate_decimal_args (args : option str) : result unit str :=
  let malformed := Err (u "SQL Server decimal/numeric 精度格式不正确") in
  match args with
  | None => Ok tt
  | Some args =>
    let parts := map trim (split_char 44 args) in
    if existsb is_empty parts then malformed
    else
      match parts with
      | [precision] =>
        let? precision := parse_u16 precision (u "精度") in
        if (precision =? 0) || (38 <? precision) then Err (u "SQL Server decimal/numeric 精度必须在 1 到 38 之间") else Ok tt
      | [precision; scale] =>
        let? precision := parse_u16 precision (u "精度") in
        if (precision =? 0) || (38 <? precision) then Err (u "SQL Server decimal/numeric 精度必须在 1 到 38 之间")
        else
          let? scale := parse_u16 scale (u "小数位") in
          if precision <? scale then Err (u "SQL Server decimal/numeric 小数位不能大于精度") else Ok tt
      | _ => malformed
      end
  end.
Definition validate_sqlserver_column_type (column_type : str) : result unit str :=
  check? MysqlSync.validate_column_type column_type in
  let? parts := parse_type_parts column_type in
  let '(base, args) := parts in
  let base := to_ascii_lowercase base in
  if one_of base ["bigint"; "int"; "smallint"; "tinyint"; "bit"; "money"; "smallmoney"; "real"; "date"; "datetime";
                  "smalldatetime"; "uniqueidentifier"; "rowversion"; "timestamp"; "xml"]%string then no_type_args args
  else if one_of base ["decimal"; "numeric"]%string then validate_decimal_args args
  else if one_of base ["float"]%string then validate_integer_arg args 1 53 (u "精度")
  else if one_of base ["char"; "binary"]%string then validate_length_arg args 8000 false
  else if one_of base ["varchar"; "varbinary"]%string then validate_length_arg args 8000 true
  else if one_of base ["nchar"]%string then validate_length_arg args 4000 false
  else if one_of base ["nvarchar"]%string then validate_length_arg args 4000 true
  else if one_of base ["time"; "datetime2"; "datetimeoffset"]%string then validate_integer_arg args 0 7 (u "精度")
  else Err (u "SQL Server 列类型不在允许的白名单中").
Definition validate_extra (extra : str) : result bool str :=
  let e := trim extra in
  let compact := to_ascii_lowercase (replace_char 32 [] e) in
  if is_empty e then Ok false
  else if one_of compact ["identity"; "identity(1,1)"]%string then Ok true
  else Err (u "SQL Server 仅支持 identity 作为列额外属性").

Definition build_column_definition (column_type : str) (nullable : bool) (default_value : option str) (extra : str) : result str str :=
  check? validate_sqlserver_column_type column_type in
  let? identity := validate_extra extra in
  let? default := default_sql default_value in
  Ok (join (u " ") ([trim column_type] ++ (if identity : bool then [u "IDENTITY(1,1)"] else []) ++ [if nullable then u "NULL" else u "NOT NULL"]
    ++ match default with Some d => [u "DEFAULT " ++ d] | None => [] end)).

(** ** Schemas *)

Definition build_create_schema_sql (schema : str) : str := u "CREATE SCHEMA " ++ sqlserver_id schema.
Definition build_drop_schema_sql (schema : str) : str := u "DROP SCHEMA " ++ sqlserver_id schema.
Definition build_rename_schema_sqls (is_alphanumeric : char -> bool) (old new : str) (object_names : list str) : result (list str) str :=
  check? validate_modifiable_schema_name old in
  check? validate_new_schema_name is_alphanumeric new in
  Ok ([build_create_schema_sql new]
      ++ map (fun object => u "ALTER SCHEMA " ++ sqlserver_id new ++ u " TRANSFER " ++ place old object) object_names
      ++ [build_drop_schema_sql old]).

(** ** Statements without a name of their own *)

Definition build_drop_table_sql (schema table : str) : str := u "DROP TABLE " ++ place schema table.
Definition build_truncate_table_sql (schema table : str) : str := u "TRUNCATE TABLE " ++ place schema table.
Definition build_delete_all_rows_sql (schema table : str) : str := u "DELETE FROM " ++ place schema table.
Definition build_clear_table_sql (schema table : str) (can_truncate : bool) : str :=
  if can_truncate then build_truncate_table_sql schema table else build_delete_all_rows_sql schema table.
Definition build_rename_table_sql (schema old new : str) : str := u "EXEC sp_rename N'" ++ place schema old ++ u "', " ++ n_str new.
Definition build_drop_default_constraint_sql (schema table column : str) : str :=
  lines
    [u "DECLARE @constraintName sysname;";
     u "SELECT @constraintName = dc.name";
     u "FROM sys.default_constraints dc";
     u "JOIN sys.columns c ON c.object_id = dc.parent_object_id AND c.column_id = dc.parent_column_id";
     u "JOIN sys.objects o ON o.object_id = dc.parent_object_id";
     u "JOIN sys.schemas s ON s.schema_id = o.schema_id";
     u "WHERE s.name = " ++ n_str schema ++ u " AND o.name = " ++ n_str table ++ u " AND c.name = " ++ n_str column ++ u ";";
     u "IF @constraintName IS NOT NULL EXEC(N'ALTER TABLE " ++ place schema table
       ++ u " DROP CONSTRAINT ' + QUOTENAME(@constraintName));"].
(** The frame of the transactions below. *)
Definition in_transaction (body : list str) : str :=
  lines ([u "SET XACT_ABORT ON;"; u "BEGIN TRY"; u "BEGIN TRANSACTION;"] ++ body
    ++ [u "COMMIT TRANSACTION;"; u "END TRY"; u "BEGIN CATCH"; u "IF @@TRANCOUNT > 0 ROLLBACK TRANSACTION;"; u "THROW;"; u "END CATCH"]).
Definition build_drop_column_sql (schema table column : str) : str :=
  in_transaction
    [build_drop_default_constraint_sql schema table column;
     u "ALTER TABLE " ++ place schema table ++ u " DROP COLUMN " ++ sqlserver_id column ++ u ";"].
Definition build_replace_default_constraint_sql (schema table column : str) (add_default : option str) : str :=
  in_transaction
    [build_drop_default_constraint_sql schema table column;
     match add_default with Some sql => sql ++ u ";" | None => [] end].

(** ** Comments *)

Definition description_of (schema table : str) : str :=
  u "@level0type=N'SCHEMA', @level0name=" ++ n_str schema ++ u ", @level1type=N'TABLE', @level1name=" ++ n_str table.
Definition build_upsert_table_comment_sql (schema table comment : str) : str :=
  u "IF EXISTS (SELECT 1 FROM sys.extended_properties ep JOIN sys.objects o ON o.object_id = ep.major_id JOIN sys.schemas s ON s.schema_id = o.schema_id WHERE ep.class = 1 AND ep.minor_id = 0 AND ep.name = N'MS_Description' AND s.name = "
  ++ n_str schema ++ u " AND o.name = " ++ n_str table
  ++ u ") EXEC sys.sp_updateextendedproperty @name=N'MS_Description', @value = " ++ n_str comment ++ u ", " ++ description_of schema table
  ++ u "; ELSE EXEC sys.sp_addextendedproperty @name=N'MS_Description', @value = " ++ n_str comment ++ u ", " ++ description_of schema table
  ++ u ";".
Definition build_upsert_column_comment_sql (schema table column comment : str) : str :=
  let description := description_of schema table ++ u ", @level2type=N'COLUMN', @level2name=" ++ n_str column in
  u "IF EXISTS (SELECT 1 FROM sys.extended_properties ep JOIN sys.objects o ON o.object_id = ep.major_id JOIN sys.schemas s ON s.schema_id = o.schema_id JOIN sys.columns c ON c.object_id = o.object_id AND c.column_id = ep.minor_id WHERE ep.class = 1 AND ep.name = N'MS_Description' AND s.name = "
  ++ n_str schema ++ u " AND o.name = " ++ n_str table ++ u " AND c.name = " ++ n_str column
  ++ u ") EXEC sys.sp_updateextendedproperty @name=N'MS_Description', @value = " ++ n_str comment ++ u ", " ++ description
  ++ u "; ELSE EXEC sys.sp_addextendedproperty @name=N'MS_Description', @value = " ++ n_str comment ++ u ", " ++ description ++ u ";".

Section Builders.
Context (sha256_hex : bytes -> str).

(** ** Names of constraints *)

Definition stable_constraint_name (prefix : str) (parts : list str) : str :=
  let raw := prefix ++ u "_" ++ join (u "_") parts in
  let safe := map (fun c => if is_ascii_alphanumeric c || (c =? 95) then c else 95) raw in
  if (zlen parts =? 1) && str_eqb safe raw && (zlen safe <=? 128) then safe
  else
    let digest := sha256_hex (utf8 (prefix ++ [0] ++ join [0] parts)) in
    let suffix := u "_" ++ List.firstn 12 digest in
    List.firstn (128 - length suffix) safe ++ suffix.
Definition primary_key_constraint_name (table : str) : str := stable_constraint_name (u "PK") [table].
Definition default_constraint_name (table column : str) : str := stable_constraint_name (u "DF") [table; column].

(** ** Tables and columns *)

Definition column_comments (schema table : str) (columns : list CreateTableColumnDef) : list str :=
  concat (map (fun col =>
    if is_empty (trim (nc_comment col)) then [] else [build_upsert_column_comment_sql schema table (nc_name col) (nc_comment col)]) columns).
Definition build_create_table_sqls (schema : str) (request : CreateTableRequest) : result (str * list str) str :=
  if is_empty (ct_columns request) then Err (u "至少需要定义一个列")
  else
    let? defs := traverse (fun col =>
      let? def := build_column_definition (nc_column_type col) (nc_nullable col) (nc_default_value col) (nc_extra col) in
      Ok (u "  " ++ sqlserver_id (nc_name col) ++ u " " ++ def)) (ct_columns request) in
    let parts := defs ++
      (if is_empty (ct_primary_keys request) then []
       else [u "  CONSTRAINT " ++ sqlserver_id (primary_key_constraint_name (ct_table_name request)) ++ u " PRIMARY KEY ("
             ++ join (u ", ") (map sqlserver_id (ct_primary_keys request)) ++ u ")"]) in
    let after_sqls := column_comments schema (ct_table_name request) (ct_columns request) ++
      (if is_empty (trim (ct_comment request)) then [] else [build_upsert_table_comment_sql schema (ct_table_name request) (ct_comment request)]) in
    Ok (u "CREATE TABLE " ++ place schema (ct_table_name request) ++ u " (" ++ [10] ++ join (u "," ++ [10]) parts ++ [10] ++ u ")", after_sqls).
Definition build_add_column_sqls (schema table : str) (request : AddColumnRequest) : result (list str) str :=
  if is_some (ac_after_column request) then Err (u "SQL Server 不支持指定新增列位置")
  else
    let? def := build_column_definition (ac_column_type request) (ac_nullable request) (ac_default_value request) (ac_extra request) in
    Ok ((u "ALTER TABLE " ++ place schema table ++ u " ADD " ++ sqlserver_id (ac_name request) ++ u " " ++ def)
        :: (if is_empty (trim (ac_comment request)) then []
            else [build_upsert_column_comment_sql schema table (ac_name request) (ac_comment request)])).

Definition build_add_default_constraint_sql (schema table column : str) (default_value constraint_name : option str) : result (option str) str :=
  let? default := default_sql default_value in
  match default with
  | None => Ok None
  | Some default =>
    let name := match constraint_name with Some name => name | None => default_constraint_name table column end in
    Ok (Some (u "ALTER TABLE " ++ place schema table ++ u " ADD CONSTRAINT " ++ sqlserver_id name ++ u " DEFAULT " ++ default
              ++ u " FOR " ++ sqlserver_id column))
  end.
Definition target_name (request : AlterColumnRequest) : str :=
  if is_empty (trim (al_new_name request)) then al_old_name request else al_new_name request.
Definition build_alter_column_sqls_with_default_constraint_name (schema table : str) (current : ColumnInfo) (request : AlterColumnRequest)
    (constraint_name : option str) : result (list str) str :=
  let target_name := target_name request in
  if is_some (al_is_primary request) then Err (u "SQL Server 暂不支持通过修改列入口调整主键，请使用专门的索引/约束管理功能")
  else if is_some (al_column_placement request) then Err (u "SQL Server 不支持调整列顺序")
  else
    let? identity := validate_extra (al_extra request) in
    if (identity || contains (u "identity") (to_ascii_lowercase (ci_extra current)))
       && negb (eq_ignore_ascii_case (ci_extra current) (trim (al_extra request)))
    then Err (u "SQL Server 不支持通过 ALTER COLUMN 修改 identity 属性")
    else
      let? altered :=
        if negb (str_eqb (trim (al_column_type request)) (ci_column_type current)) || negb (Bool.eqb (al_nullable request) (ci_nullable current))
        then
          check? validate_sqlserver_column_type (al_column_type request) in
          Ok [u "ALTER TABLE " ++ place schema table ++ u " ALTER COLUMN " ++ sqlserver_id target_name ++ u " "
              ++ trim (al_column_type request) ++ u " " ++ (if al_nullable request then u "NULL" else u "NOT NULL")]
        else Ok [] in
      let? replaced :=
        if str_eqb (normalize_default (al_default_value request)) (normalize_default (ci_default_value current)) then Ok []
        else
          let? add_default := build_add_default_constraint_sql schema table target_name (al_default_value request) constraint_name in
          Ok [build_replace_default_constraint_sql schema table target_name add_default] in
      Ok ((if str_eqb (al_old_name request) target_name then []
           else [u "EXEC sp_rename N'" ++ place schema table ++ u "." ++ sqlserver_id (al_old_name request) ++ u "', " ++ n_str target_name
                 ++ u ", N'COLUMN'"])
          ++ altered ++ replaced
          ++ (if str_eqb (al_comment request) (ci_comment current) then []
              else [build_upsert_column_comment_sql schema table target_name (al_comment request)])).
Definition build_alter_column_sqls (schema table : str) (current : ColumnInfo) (request : AlterColumnRequest) : result (list str) str :=
  build_alter_column_sqls_with_default_constraint_name schema table current request None.
End Builders.

End SqlServerDdl.
