(* ===== verification/SqlServerSync.v ===== *)
(** Planning the synchronisation of a SQL Server table
    (src-tauri/src/db/schema_sync/sqlserver.rs). *)
From S2P Require Import Prelude OrderedMap RustText DataTypes SchemaCompare SyncTypes Ddl SqlServerDdl.
Import SchemaCompare SyncTypes Ddl SqlServerDdl.

Module SqlServerSync.

(** ** Native metadata *)

Record MetadataRow : Type := mkMetadataRow {
  mr_table_name : str; mr_table_comment : str; mr_primary_key_constraint : option str; mr_temporal_type : Z;
  mr_is_memory_optimized : bool; mr_is_node : bool; mr_is_edge : bool; mr_is_filetable : bool; mr_column_name : str;
  mr_is_identity : bool; mr_identity_seed : option str; mr_identity_increment : option str; mr_computed_definition : option str;
  mr_default_expression : option str; mr_default_constraint_name : option str; mr_default_constraint_is_system_named : option bool;
  mr_is_user_defined : bool; mr_type_schema : str; mr_type_name : str; mr_primary_key_ordinal : option Z; mr_is_hidden : bool;
  mr_generated_always_type : Z; mr_is_sparse : bool; mr_is_column_set : bool; mr_is_filestream : bool; mr_is_rowguidcol : bool;
  mr_is_masked : bool; mr_encryption_type : option Z }.
Definition native_column (row : MetadataRow) : SqlServerColumn :=
  mkSqlServerColumn (mr_is_identity row) (mr_identity_seed row) (mr_identity_increment row) (mr_computed_definition row)
    (mr_default_expression row) (mr_default_constraint_name row) (mr_default_constraint_is_system_named row) (mr_is_user_defined row)
    (mr_type_schema row) (mr_type_name row) (mr_primary_key_ordinal row) (mr_is_hidden row) (mr_generated_always_type row)
    (mr_is_sparse row) (mr_is_column_set row) (mr_is_filestream row) (mr_is_rowguidcol row) (mr_is_masked row) (mr_encryption_type row).
Definition with_columns (t : SqlServerTableMeta) (columns : list (str * ColumnSyncMetadata)) : SqlServerTableMeta :=
  mkSqlServerTable (vt_table_comment t) (vt_primary_key_constraint t) (vt_temporal_type t) (vt_is_memory_optimized t) (vt_is_node t)
    (vt_is_edge t) (vt_is_filetable t) columns.
Definition aggregate_row (m : list (str * SqlServerTableMeta)) (row : MetadataRow) : list (str * SqlServerTableMeta) :=
  BTree.entry str_cmp (mr_table_name row) (fun entry =>
    let t := default (mkSqlServerTable (mr_table_comment row) (mr_primary_key_constraint row) (mr_temporal_type row)
                        (mr_is_memory_optimized row) (mr_is_node row) (mr_is_edge row) (mr_is_filetable row) []) entry in
    with_columns t (BTree.put str_cmp (mr_column_name row) (SqlServer_Column (native_column row)) (vt_columns t))) m.
Definition aggregate_metadata_rows (rows : list MetadataRow) : list (str * TableSyncMetadata) :=
  map (fun p => (p.1, SqlServerTable p.2)) (fold_left aggregate_row rows []).

Definition table_metadata (metadata : option TableSyncMetadata) (table_name : str) : result SqlServerTableMeta str :=
  match metadata with
  | Some (SqlServerTable t) => Ok t
  | _ => Err (u "表 " ++ table_name ++ u " 缺少 SQL Server 原生表元数据")
  end.
Definition column_metadata (metadata : SqlServerTableMeta) (table_name column_name : str) : result SqlServerColumn str :=
  match BTree.get str_cmp column_name (vt_columns metadata) with
  | Some (SqlServer_Column c) => Ok c
  | _ => Err (u "字段 " ++ table_name ++ u "." ++ column_name ++ u " 缺少 SQL Server 原生字段元数据")
  end.

Definition validate_plain_table (metadata : SqlServerTableMeta) (table_name : str) : result unit str :=
  if negb (vt_temporal_type metadata =? 0) then Err (u "SQL Server temporal 表 " ++ table_name ++ u " 无法由普通建表 builder 无损表达")
  else if vt_is_memory_optimized metadata
  then Err (u "SQL Server memory-optimized 表 " ++ table_name ++ u " 无法由普通建表 builder 无损表达")
  else if vt_is_node metadata || vt_is_edge metadata
  then Err (u "SQL Server graph 表 " ++ table_name ++ u " 不在首期普通物理表同步范围内")
  else if vt_is_filetable metadata then Err (u "SQL Server FileTable " ++ table_name ++ u " 不在首期普通物理表同步范围内")
  else Ok tt.
(** db/sqlserver.rs. *)
Definition build_sqlserver_column_extra (is_identity : bool) (computed_definition : option str) : str :=
  join (u " ") ((if is_identity then [u "identity"] else [])
    ++ match trim <$> computed_definition with
       | None | Some [] => []
       | Some definition => [u "computed AS " ++ definition]
       end).
Definition validate_native_shape (column : ColumnSnapshot) (metadata : SqlServerColumn) (table_name column_name : str) : result unit str :=
  let field := table_name ++ u "." ++ column_name in
  let has_default := is_some (sc_default_expression metadata) in
  if sc_is_hidden metadata || negb (sc_generated_always_type metadata =? 0) || sc_is_sparse metadata || sc_is_column_set metadata
     || sc_is_filestream metadata || sc_is_rowguidcol metadata || sc_is_masked metadata || is_some (sc_encryption_type metadata)
  then Err (u "字段 " ++ field ++ u " 包含 hidden/generated-always/sparse/column-set/FILESTREAM/ROWGUIDCOL/masked/encrypted 特性，当前 builder 无法无损表达")
  else if sc_is_identity metadata && (negb (is_some (sc_identity_seed metadata)) || negb (is_some (sc_identity_increment metadata)))
  then Err (u "identity 字段 " ++ field ++ u " 缺少 seed/increment 原生值")
  else if negb (sc_is_identity metadata) && (is_some (sc_identity_seed metadata) || is_some (sc_identity_increment metadata))
  then Err (u "普通字段 " ++ field ++ u " 意外包含 identity seed/increment")
  else if sc_is_identity metadata && is_some (sc_computed_definition metadata)
  then Err (u "字段 " ++ field ++ u " 同时声明 identity 和 computed")
  else if is_some (sc_computed_definition metadata) && has_default then Err (u "computed 字段 " ++ field ++ u " 意外包含默认约束")
  else if negb (Bool.eqb has_default (is_some (sc_default_constraint_name metadata))
                && Bool.eqb has_default (is_some (sc_default_constraint_is_system_named metadata)))
  then Err (u "字段 " ++ field ++ u " 的默认表达式、约束名和命名标记不完整")
  else if sc_is_user_defined metadata && (blank (sc_type_schema metadata) || blank (sc_type_name metadata))
  then Err (u "用户定义类型字段 " ++ field ++ u " 缺少类型 schema 或名称")
  else if negb (bool_decide (default_value column = sc_default_expression metadata))
  then Err (u "字段 " ++ field ++ u " 的默认表达式原生元数据与结构快照不一致")
  else if negb (str_eqb (trim (extra column)) (build_sqlserver_column_extra (sc_is_identity metadata) (sc_computed_definition metadata)))
  then Err (u "字段 " ++ field ++ u " 的 identity/computed 原生元数据与结构快照不一致")
  else Ok tt.
Definition native_special_equal (source target : SqlServerColumn) : bool :=
  Bool.eqb (sc_is_identity source) (sc_is_identity target)
  && bool_decide (sc_identity_seed source = sc_identity_seed target)
  && bool_decide (sc_identity_increment source = sc_identity_increment target)
  && bool_decide (sc_computed_definition source = sc_computed_definition target)
  && Bool.eqb (sc_is_user_defined source) (sc_is_user_defined target)
  && (negb (sc_is_user_defined source)
      || str_eqb (sc_type_schema source) (sc_type_schema target) && str_eqb (sc_type_name source) (sc_type_name target)).
Definition default_constraint_shape_equal (source target : SqlServerColumn) : bool :=
  if negb (bool_decide (sc_default_expression source = sc_default_expression target)) then true
  else
    match sc_default_constraint_is_system_named source, sc_default_constraint_is_system_named target with
    | None, None | Some true, Some true => true
    | Some false, Some false => bool_decide (sc_default_constraint_name source = sc_default_constraint_name target)
    | _, _ => false
    end.
Definition is_numeric_one (value : str) : bool := parses_as_one (trim value).
Definition identity_uses_builder_defaults (metadata : SqlServerColumn) : bool :=
  negb (sc_is_identity metadata)
  || is_some_and is_numeric_one (sc_identity_seed metadata) && is_some_and is_numeric_one (sc_identity_increment metadata).

(** ** Default expressions *)

Definition builder_treats_as_raw_default (value : str) : bool :=
  one_of (to_ascii_uppercase value)
    ["NULL"; "CURRENT_TIMESTAMP"; "GETDATE()"; "SYSDATETIME()"; "SYSUTCDATETIME()"; "SYSDATETIMEOFFSET()"; "NEWID()";
     "NEWSEQUENTIALID()"]%string
  || is_some (parse_i64 value) || parses_as_f64 value.
(** What is left after the parenthesis that closes the outermost open one;
    [quoted] within a literal. *)
Fixpoint after_closing (quoted : bool) (depth : Z) (s : str) : option str :=
  match s with
  | [] => None
  | c :: s =>
    if quoted
    then
      if c =? 39
      then match s with d :: r => if d =? 39 then after_closing true depth r else after_closing false depth s | [] => None end
      else after_closing true depth s
    else if c =? 39 then after_closing true depth s
    else if c =? 40 then after_closing false (depth + 1) s
    else if c =? 41
    then if depth =? 0 then None else if depth =? 1 then Some s else after_closing false (depth - 1) s
    else after_closing false depth s
  end.
(** [wrapping_parentheses_end] is the last position. *)
Definition wrapped (value : str) : bool :=
  starts_with [40] value && ends_with [41] value && bool_decide (after_closing false 0 value = Some []).
Fixpoint strip_loop (fuel : nat) (value : str) : str :=
  match fuel with
  | O => value
  | S fuel => if wrapped value then strip_loop fuel (trim (removelast (List.tl value))) else value
  end.
Definition strip_outer_parentheses (value : str) : str := strip_loop (length value) (trim value).
Fixpoint undoubled (inner : str) : option str :=
  match inner with
  | [] => Some []
  | c :: inner =>
    if c =? 39
    then match inner with d :: inner => if d =? 39 then cons c <$> undoubled inner else None | [] => None end
    else cons c <$> undoubled inner
  end.
Definition parse_unicode_string_literal (value : str) : option str :=
  match value with
  | n :: quote :: rest =>
    if ((n =? 78) || (n =? 110)) && (quote =? 39) && ends_with [39] rest then undoubled (removelast rest) else None
  | _ => None
  end.
Definition convert_default_expression (expression : str) : result str str :=
  let normalized := strip_outer_parentheses expression in
  if is_empty normalized then Err (u "表达式为空")
  else if builder_treats_as_raw_default normalized then Ok normalized
  else
    match parse_unicode_string_literal normalized with
    | None => Err (u "不支持表达式 `" ++ normalized ++ u "`")
    | Some parsed =>
      if is_empty parsed || negb (str_eqb (trim parsed) parsed) || builder_treats_as_raw_default parsed
      then Err (u "字符串值会被当前 builder 去空白或解释成裸表达式")
      else Ok parsed
    end.
Inductive DefaultRebuildKind : Type := CreateOrAdd | AlterDefault.
Definition source_default_for_builder (metadata : SqlServerColumn) (table_name column_name : str) (kind : DefaultRebuildKind) :
    result (option str) str :=
  let field := table_name ++ u "." ++ column_name in
  match sc_default_expression metadata with
  | None => Ok None
  | Some expression =>
    let named := bool_decide (sc_default_constraint_is_system_named metadata = Some false) in
    if named && negb (is_some (sc_default_constraint_name metadata)) then Err (u "字段 " ++ field ++ u " 的命名默认约束缺少约束名")
    else if named && match kind with CreateOrAdd => true | AlterDefault => false end
    then Err (u "字段 " ++ field ++ u " 使用命名默认约束 `" ++ default [] (sc_default_constraint_name metadata) ++ u "`，当前 builder 无法无损保留该名称")
    else
      map_err (fun reason => u "字段 " ++ field ++ u " 的默认表达式无法无损重建: " ++ reason)
        (let? converted := convert_default_expression expression in Ok (Some converted))
  end.
Definition validate_definition_rebuild (column : ColumnSnapshot) (metadata : SqlServerColumn) (table_name column_name : str) :
    result (option str) str :=
  let field := table_name ++ u "." ++ column_name in
  check? validate_native_shape column metadata table_name column_name in
  if is_some (sc_computed_definition metadata) then Err (u "computed 字段 " ++ field ++ u " 无法由当前 SQL Server builder 无损重建")
  else if sc_is_user_defined metadata
  then Err (u "用户定义类型字段 " ++ field ++ u " 使用 " ++ sc_type_schema metadata ++ u "." ++ sc_type_name metadata ++ u "，无法证明目标端类型存在")
  else if negb (identity_uses_builder_defaults metadata)
  then Err (u "identity 字段 " ++ field ++ u " 不是 builder 可表达的 IDENTITY(1,1)")
  else source_default_for_builder metadata table_name column_name CreateOrAdd.

(** ** Primary keys *)

Fixpoint key_ordinals (table : str) (metadata : SqlServerTableMeta) (names : list str) (seen : list Z) : result (list (Z * str)) str :=
  match names with
  | [] => Ok []
  | name :: names =>
    let? native := column_metadata metadata table name in
    match sc_primary_key_ordinal native with
    | None => Err (u "主键字段 " ++ table ++ u "." ++ name ++ u " 缺少 SQL Server 原生主键序号")
    | Some ordinal =>
      if (ordinal =? 0) || bool_decide (ordinal ∈ seen)
      then Err (u "表 " ++ table ++ u " 包含无效或重复的 SQL Server 原生主键序号 " ++ show_Z ordinal)
      else
        let? ordered := key_ordinals table metadata names (ordinal :: seen) in
        Ok ((ordinal, name) :: ordered)
    end
  end.
Definition by_ordinal : Z * str -> Z * str -> comparison := cmp_then (cmp_on fst Z.compare) (cmp_on snd str_cmp).
Definition sqlserver_primary_key_columns (table : TableSnapshot) (metadata : SqlServerTableMeta) : result (list str) str :=
  let? ordered := key_ordinals (ts_name table) metadata (primary_key_columns table) [] in
  Ok (map snd (sort_by by_ordinal ordered)).
Definition validate_primary_key_consistency (table : TableSnapshot) (metadata : SqlServerTableMeta) (columns : list str) : result unit str :=
  if negb (Bool.eqb (is_empty columns) (negb (is_some (vt_primary_key_constraint metadata))))
  then Err (u "表 " ++ ts_name table ++ u " 的主键约束名与字段快照不一致")
  else Ok tt.

(** ** Batches *)

(** [str::lines]: the pieces before a line feed without a carriage return at
    their end, and the last piece when it is not empty. *)
Fixpoint line_pieces (pieces : list str) : list str :=
  match pieces with
  | [] => []
  | [last] => if is_empty last then [] else [last]
  | piece :: pieces => default piece (strip_suffix [13] piece) :: line_pieces pieces
  end.
Definition str_lines (s : str) : list str := line_pieces (split_char 10 s).
Definition batch_statement (statement : str) : str :=
  join [10] (map (fun line => u "    " ++ line) (str_lines (trim_end_matches (Z.eqb 59) (trim statement)))) ++ u ";".
Definition build_atomic_sqlserver_batch (statements : list str) : str :=
  join [10] ([u "SET XACT_ABORT ON;"; u "BEGIN TRY"; u "    BEGIN TRANSACTION;"; join [10] (map batch_statement statements);
              u "    COMMIT TRANSACTION;"; u "END TRY"; u "BEGIN CATCH"; u "    IF XACT_STATE() <> 0 ROLLBACK TRANSACTION;"; u "    THROW;";
              u "END CATCH"]).

Section Planner.
Context (sha256_hex : bytes -> str).

Definition build_add_primary_key_sql (schema table : str) (columns : list str) : str :=
  u "ALTER TABLE " ++ place schema table ++ u " ADD CONSTRAINT " ++ sqlserver_id (primary_key_constraint_name sha256_hex table)
  ++ u " PRIMARY KEY (" ++ join (u ", ") (map sqlserver_id columns) ++ u ")".

(** ** A new table, and one of the target only *)

Definition define_column (metadata : SqlServerTableMeta) (source : TableSnapshot) (c : str * ColumnSnapshot) :
    result CreateTableColumnDef str :=
  let? native := column_metadata metadata (ts_name source) c.1 in
  let? default_value := validate_definition_rebuild c.2 native (ts_name source) c.1 in
  Ok (mkColumnDef c.1 (column_type c.2) (nullable c.2) default_value (extra c.2) (comment c.2)).
Definition push_definition (metadata : SqlServerTableMeta) (source : TableSnapshot) (acc : PlanFragments * list CreateTableColumnDef)
    (c : str * ColumnSnapshot) : PlanFragments * list CreateTableColumnDef :=
  match define_column metadata source c with
  | Ok def => (acc.1, acc.2 ++ [def])
  | Err reason => (block (ts_name source) (u "无法创建字段 " ++ ts_name source ++ u "." ++ c.1) reason acc.1, acc.2)
  end.
Definition plain_metadata (metadata : option TableSyncMetadata) (table_name : str) : result SqlServerTableMeta str :=
  let? t := table_metadata metadata table_name in
  check? validate_plain_table t table_name in
  Ok t.
Definition plan_create_table (context : TablePlanContext) (source : TableSnapshot) (plan : PlanFragments) : PlanFragments :=
  let refuse := fun reason => block (ts_name source) (u "无法创建表 " ++ ts_name source) reason in
  match plain_metadata (cx_source_metadata context) (ts_name source) with
  | Err reason => refuse reason plan
  | Ok metadata =>
    if is_empty (ts_columns source) then refuse (u "源表没有字段") plan
    else
      let '(plan, definitions) := fold_left (push_definition metadata source) (in_order source) (plan, []) in
      if negb (is_empty (pf_blockers plan)) then plan
      else
        match (let? primary_keys := sqlserver_primary_key_columns source metadata in
               check? validate_primary_key_consistency source metadata primary_keys in
               build_create_table_sqls sha256_hex (cx_target_database context)
                 (mkCreateTable (ts_name source) definitions primary_keys [] None (vt_table_comment metadata))) with
        | Err reason => refuse reason plan
        | Ok (create_sql, after_sqls) =>
          operation CreateTablePhase (ts_name source) CreateTable Normal (u "创建目标端表 " ++ ts_name source) (create_sql :: after_sqls) plan
        end
  end.
Definition plan_target_only_table (context : TablePlanContext) (target : TableSnapshot) (plan : PlanFragments) : PlanFragments :=
  match plain_metadata (cx_target_metadata context) (ts_name target) with
  | Err reason => block (ts_name target) (u "无法删除表 " ++ ts_name target) reason plan
  | Ok _ =>
    if cx_include_drops context
    then
      operation DropTablePhase (ts_name target) DropTable Destructive (u "删除目标端独有表 " ++ ts_name target)
        [build_drop_table_sql (cx_target_database context) (ts_name target)] plan
    else skip (ts_name target) (u "跳过删除目标端独有表") (u "未开启包含删除操作") plan
  end.
End Planner.

(** ** A table on both sides *)

(** The plan and the names in [blocked_columns], with one more blocker. *)
Definition refuse_column (table name summary reason : str) (st : PlanFragments * list str) : PlanFragments * list str :=
  (block table summary reason st.1, name :: st.2).
Definition refuse_unless (ok : bool) (table name summary reason : str) (st : PlanFragments * list str) : PlanFragments * list str :=
  if ok then st else refuse_column table name summary reason st.
Definition refuse_shape (table name owner : str) (column : ColumnSnapshot) (native : SqlServerColumn) (st : PlanFragments * list str) :
    PlanFragments * list str :=
  match validate_native_shape column native owner name with
  | Ok _ => st
  | Err reason => refuse_column table name (u "无法比较字段 " ++ owner ++ u "." ++ name) reason st
  end.
Definition compare_common (source_metadata target_metadata : SqlServerTableMeta) (source target : TableSnapshot)
    (st : PlanFragments * list str) (c : str * ColumnSnapshot) : PlanFragments * list str :=
  let table := ts_name source in
  let name := c.1 in
  match find_first (fun t => str_eqb t.1 name) (ts_columns target) with
  | None => st
  | Some (_, target_column) =>
    let st := refuse_unless (ordinal_position c.2 =? ordinal_position target_column) table name
                (u "无法调整字段 " ++ table ++ u "." ++ name ++ u " 的物理顺序") (u "SQL Server 不支持安全调整字段物理顺序") st in
    match column_metadata source_metadata table name, column_metadata target_metadata (ts_name target) name with
    | Err reason, _ => refuse_column table name (u "无法比较字段 " ++ table ++ u "." ++ name) reason st
    | _, Err reason => refuse_column table name (u "无法比较字段 " ++ ts_name target ++ u "." ++ name) reason st
    | Ok source_native, Ok target_native =>
      let st := refuse_shape table name table c.2 source_native st in
      let st := refuse_shape table name (ts_name target) target_column target_native st in
      let st := refuse_unless (native_special_equal source_native target_native) table name
                  (u "无法转换字段 " ++ table ++ u "." ++ name)
                  (u "SQL Server identity/computed/用户定义类型原生元数据不一致，无法安全转换") st in
      refuse_unless (default_constraint_shape_equal source_native target_native) table name
        (u "无法转换字段 " ++ table ++ u "." ++ name) (u "SQL Server 默认约束名或命名方式不一致，当前 builder 无法无损转换") st
    end
  end.

Definition mentions (changed_fields : list str) (fields : list String.string) : bool := existsb (fun f => one_of f fields) changed_fields.
(** A column of both primary keys has another type or nullability. *)
Definition key_definition_changed (d : ColumnDiff) : bool :=
  match cd_status d, cd_source d, cd_target d with
  | Changed, Some s, Some t => primary_key s && primary_key t && mentions (cd_changed_fields d) ["column_type"; "nullable"]%string
  | _, _, _ => false
  end.

Section Changes.
Context (sha256_hex : bytes -> str) (context : TablePlanContext) (source_metadata : SqlServerTableMeta) (source target : TableSnapshot).

(** Why a column cannot be appended, or its statements. *)
Definition append_column (name : str) (column : ColumnSnapshot) : result (list str) str :=
  if ordinal_position column <=? max_position target then Err (u "SQL Server 只能安全追加到目标端现有字段之后")
  else
    let? native := column_metadata source_metadata (ts_name source) name in
    let? default_value := validate_definition_rebuild column native (ts_name source) name in
    build_add_column_sqls (cx_target_database context) (ts_name source)
      (mkAddColumn name (column_type column) (nullable column) default_value (extra column) (comment column) None).
(** What forbids a change of the definition. *)
Definition change_allowed (changed_fields : list str) (native : SqlServerColumn) (source_column target_column : ColumnSnapshot) : result unit str :=
  let definition_changed := mentions changed_fields ["column_type"; "nullable"; "default_value"]%string in
  if definition_changed && sc_is_identity native then Err (u "SQL Server identity 字段定义无法通过 ALTER COLUMN 无损修改")
  else if definition_changed && is_some (sc_computed_definition native)
  then Err (u "SQL Server computed 字段定义无法通过 ALTER COLUMN 无损修改")
  else if mentions changed_fields ["column_type"; "nullable"]%string && sc_is_user_defined native
  then Err (u "SQL Server 用户定义类型无法由当前 builder 无损修改")
  else if negb (cx_include_drops context)
          && (negb (nullable target_column) && nullable source_column || mentions changed_fields ["default_value"]%string)
  then Err (u "修改会删除目标端 NOT NULL 或默认约束，但未开启包含删除操作")
  else Ok tt.
Definition explicit_default_constraint (native : SqlServerColumn) : option str :=
  if is_some_and negb (sc_default_constraint_is_system_named native) then sc_default_constraint_name native else None.
(** Why a column cannot be altered, or its statements. *)
Definition change_column (name : str) (changed_fields : list str) (source_column target_column : ColumnSnapshot) : result (list str) str :=
  if mentions changed_fields ["extra"]%string
  then Err (u "SQL Server extra 展示值变化无法脱离原生 identity/computed 元数据安全规划")
  else if forallb (fun field => one_of field ["ordinal_position"; "primary_key"; "extra"]%string) changed_fields then Ok []
  else
    let? native := column_metadata source_metadata (ts_name source) name in
    check? change_allowed changed_fields native source_column target_column in
    let? requested_default :=
      if mentions changed_fields ["default_value"]%string
      then source_default_for_builder native (ts_name source) name AlterDefault
      else Ok (default_value target_column) in
    if is_some (sc_computed_definition native)
    then
      if bool_decide (changed_fields = [u "comment"])
      then Ok [build_upsert_column_comment_sql (cx_target_database context) (ts_name source) name (comment source_column)]
      else Err (u "SQL Server computed 字段仅支持独立同步注释")
    else
      build_alter_column_sqls_with_default_constraint_name sha256_hex (cx_target_database context) (ts_name source)
        (mkColumnInfo name (column_type target_column) (nullable target_column) (if primary_key target_column then u "PRI" else [])
           (default_value target_column) (extra target_column) (comment target_column))
        (mkAlterColumn name name (column_type source_column) (nullable source_column) requested_default (extra source_column)
           (comment source_column) None None)
        (explicit_default_constraint native).

Record Changes : Type := mkChanges {
  ch_plan : PlanFragments;
  ch_add : list (Z * str * list str);
  ch_add_risk : DatabaseSyncRisk;
  ch_alter : list (Z * str * list str);
  ch_drop : list str;
}.
Definition with_plan (f : PlanFragments -> PlanFragments) (st : Changes) : Changes :=
  mkChanges (f (ch_plan st)) (ch_add st) (ch_add_risk st) (ch_alter st) (ch_drop st).
Definition plan_difference (blocked_columns : list str) (st : Changes) (d : ColumnDiff) : Changes :=
  let name := cd_name d in
  let qualified := ts_name source ++ u "." ++ name in
  match cd_status d, cd_source d, cd_target d with
  | SourceOnly, Some column, _ =>
    match append_column name column with
    | Ok sql =>
      mkChanges (ch_plan st) (ch_add st ++ [(ordinal_position column, name, sql)])
        (match add_column_risk column (BTree.get str_cmp name (vt_columns source_metadata)) with High => High | _ => ch_add_risk st end)
        (ch_alter st) (ch_drop st)
    | Err reason => with_plan (block (ts_name source) (u "无法新增字段 " ++ qualified) reason) st
    end
  | Changed, Some source_column, Some target_column =>
    if bool_decide (name ∈ blocked_columns) then st
    else
      match change_column name (cd_changed_fields d) source_column target_column with
      | Err reason => with_plan (block (ts_name source) (u "无法修改字段 " ++ qualified) reason) st
      | Ok sql =>
        if is_empty sql then st
        else
          mkChanges (ch_plan st) (ch_add st) (ch_add_risk st) (ch_alter st ++ [(ordinal_position source_column, name, sql)]) (ch_drop st)
      end
  | TargetOnly, _, _ =>
    if cx_include_drops context
    then mkChanges (ch_plan st) (ch_add st) (ch_add_risk st) (ch_alter st) (ch_drop st ++ [name])
    else with_plan (skip (ts_name source) (u "跳过删除目标端独有字段 " ++ qualified) (u "未开启包含删除操作")) st
  | _, _, _ => st
  end.
Definition by_place (a b : Z * str * list str) : comparison :=
  cmp_then (cmp_on (fun e : Z * str * list str => e.1.1) Z.compare) (cmp_on (fun e : Z * str * list str => e.1.2) str_cmp) a b.
Definition sorted_sql (l : list (Z * str * list str)) : list str := concat (map snd (sort_by by_place l)).

(** ** The primary key *)

(** The keys of both sides, and the plan with what stands against them. *)
Definition consistent_key (table : TableSnapshot) (metadata : SqlServerTableMeta) (keys : list str) (summary : str) (plan : PlanFragments) :
    PlanFragments :=
  match validate_primary_key_consistency table metadata keys with
  | Ok _ => plan
  | Err reason => block (ts_name source) summary reason plan
  end.
Definition compare_keys (target_metadata : SqlServerTableMeta) (definition_changed : bool) (plan : PlanFragments) :
    result (list str * list str) PlanFragments :=
  match sqlserver_primary_key_columns source source_metadata with
  | Err reason => Err (block (ts_name source) (u "无法规划源端主键") reason plan)
  | Ok source_keys =>
    match sqlserver_primary_key_columns target target_metadata with
    | Err reason => Err (block (ts_name source) (u "无法规划目标端主键") reason plan)
    | Ok target_keys =>
      let replaced := negb (bool_decide (source_keys = target_keys)) || definition_changed in
      let plan := consistent_key source source_metadata source_keys (u "无法规划源端主键") plan in
      let plan := consistent_key target target_metadata target_keys (u "无法规划目标端主键") plan in
      let plan :=
        if replaced && negb (is_empty target_keys) && negb (cx_include_drops context)
        then
          block (ts_name source) (u "无法替换表 " ++ ts_name source ++ u " 的主键")
            (u "目标端已有主键，替换主键需要删除旧约束，但未开启包含删除操作") plan
        else plan in
      if negb (is_empty (pf_blockers plan)) then Err plan else Ok (source_keys, target_keys)
    end
  end.
Definition replace_key (target_metadata : SqlServerTableMeta) (source_keys alter_sql : list str) : list str :=
  match vt_primary_key_constraint target_metadata with
  | Some constraint =>
    [u "ALTER TABLE " ++ place (cx_target_database context) (ts_name source) ++ u " DROP CONSTRAINT " ++ sqlserver_id constraint]
  | None => []
  end
  ++ alter_sql
  ++ (if is_empty source_keys then [] else [build_add_primary_key_sql sha256_hex (cx_target_database context) (ts_name source) source_keys]).

Definition drop_column (plan : PlanFragments) (name : str) : PlanFragments :=
  operation DropColumnPhase (ts_name source) DropColumn Destructive (u "删除目标端独有字段 " ++ ts_name source ++ u "." ++ name)
    [build_drop_column_sql (cx_target_database context) (ts_name source) name] plan.
Definition finish_changes (target_metadata : SqlServerTableMeta) (st : Changes) (source_keys : list str) (replaced : bool) : PlanFragments :=
  let add_sql := sorted_sql (ch_add st) in
  let alter_sql := sorted_sql (ch_alter st) in
  let plan :=
    if is_empty add_sql then ch_plan st
    else
      operation AddColumnPhase (ts_name source) AddColumn (ch_add_risk st)
        (u "新增表 " ++ ts_name source ++ u " 的 " ++ show_Z (zlen (ch_add st)) ++ u " 个字段") add_sql (ch_plan st) in
  let plan :=
    if replaced
    then
      operation AlterColumnPhase (ts_name source) ReplacePrimaryKey High (u "替换表 " ++ ts_name source ++ u " 的主键并同步相关字段")
        [build_atomic_sqlserver_batch (replace_key target_metadata source_keys alter_sql)] plan
    else if is_empty alter_sql then plan
    else
      operation AlterColumnPhase (ts_name source) AlterColumn High
        (u "修改表 " ++ ts_name source ++ u " 的 " ++ show_Z (zlen (ch_alter st)) ++ u " 个字段") alter_sql plan in
  let plan :=
    if str_eqb (vt_table_comment source_metadata) (vt_table_comment target_metadata) then plan
    else
      operation AlterColumnPhase (ts_name source) UpdateComment Normal (u "更新表 " ++ ts_name source ++ u " 的注释")
        [build_upsert_table_comment_sql (cx_target_database context) (ts_name source) (vt_table_comment source_metadata)] plan in
  fold_left drop_column (sort_by str_cmp (ch_drop st)) plan.
End Changes.

Section Plan.
Context (sha256_hex : bytes -> str) (context : TablePlanContext).

(** The metadata of both sides, or the plan that says why the tables cannot
    be planned for. *)
Definition comparable (source target : TableSnapshot) (plan : PlanFragments) : result (SqlServerTableMeta * SqlServerTableMeta) PlanFragments :=
  let refuse := fun reason => block (ts_name source) (u "无法规划 SQL Server 表同步") reason in
  let unless_plain := fun metadata table_name plan =>
    match validate_plain_table metadata table_name with Ok _ => plan | Err reason => refuse reason plan end in
  match table_metadata (cx_source_metadata context) (ts_name source) with
  | Err reason => Err (refuse reason plan)
  | Ok source_metadata =>
    match table_metadata (cx_target_metadata context) (ts_name target) with
    | Err reason => Err (refuse reason plan)
    | Ok target_metadata =>
      let plan := unless_plain target_metadata (ts_name target) (unless_plain source_metadata (ts_name source) plan) in
      if negb (is_empty (pf_blockers plan)) then Err plan else Ok (source_metadata, target_metadata)
    end
  end.
Definition plan_changed_table (source target : TableSnapshot) (plan : PlanFragments) : PlanFragments :=
  match comparable source target plan with
  | Err plan => plan
  | Ok (source_metadata, target_metadata) =>
    let differences := compare_table_columns source target in
    let definition_changed := existsb key_definition_changed differences in
    let '(plan, blocked_columns) := fold_left (compare_common source_metadata target_metadata source target) (ts_columns source) (plan, []) in
    let st := fold_left (plan_difference sha256_hex context source_metadata source target blocked_columns) differences
                (mkChanges plan [] Normal [] []) in
    if negb (is_empty (pf_blockers (ch_plan st))) then ch_plan st
    else
      match compare_keys context source_metadata source target target_metadata definition_changed (ch_plan st) with
      | Err plan => plan
      | Ok (source_keys, target_keys) =>
        finish_changes sha256_hex context source_metadata source target_metadata st source_keys
          (negb (bool_decide (source_keys = target_keys)) || definition_changed)
      end
  end.

Definition plan_table : PlanFragments :=
  match cx_source context, cx_target context with
  | Some source, None => plan_create_table sha256_hex context source no_fragments
  | None, Some target => plan_target_only_table context target no_fragments
  | Some source, Some target => plan_changed_table source target no_fragments
  | None, None => block [] (u "无法规划同步") (u "表在源端和目标端都不存在") no_fragments
  end.
End Plan.

End SqlServerSync.
