(* ===== verification/SqlServerDefaults.v ===== *)
(** The default expressions of SQL Server: what the planner takes over from the
    source is written with the same meaning, and where the texts the builders
    make say something else than was meant. *)
From S2P Require Import Prelude OrderedMap RustText DataTypes SchemaCompare SyncTypes SqlDialect SqlScript Ddl SqlServerDdl SqlServerSync.
Import SchemaCompare SyncTypes Ddl SqlServerDdl SqlServerSync.

Module SqlServerDefaults.

#[local] Opaque u.

(** ** Literals *)

Lemma undoubled_doubles s : undoubled (replace_char 39 [39; 39] s) = Some s.
Proof.
  induction s as [|c s IH]; [done|]. unfold replace_char in *. cbn [map concat].
  destruct (c =? 39) eqn:E; cbn [app undoubled]; [apply Z.eqb_eq in E as ->; cbn|rewrite E]; by rewrite IH.
Qed.
Lemma ends_with_last s c : ends_with [c] (s ++ [c]) = true.
Proof. unfold ends_with, strip_suffix. rewrite reverse_app. cbn. by rewrite Z.eqb_refl. Qed.
Lemma literal_parsed s : parse_unicode_string_literal (n_str s) = Some s.
Proof.
  unfold n_str, sqlserver_str, SqlDialect.sqlserver_string_literal. change (u "N") with [78]. cbn [app parse_unicode_string_literal].
  rewrite ends_with_last. cbn. rewrite removelast_last. apply undoubled_doubles.
Qed.

(** ** Parentheses *)

Lemma strip_loop_trimmed fuel s : trim s = s -> trim (strip_loop fuel s) = strip_loop fuel s.
Proof.
  revert s. induction fuel as [|fuel IH]; intros s T; [done|]. cbn [strip_loop]. destruct (wrapped s); [|done]. apply IH, trim_idem.
Qed.
Lemma strip_trimmed s : trim (strip_outer_parentheses s) = strip_outer_parentheses s.
Proof. apply strip_loop_trimmed, trim_idem. Qed.
Lemma removelast_length {A : Type} (l : list A) : (length (removelast l) = length l - 1)%nat.
Proof. induction l as [|x [|y l] IH]; [done..|]. cbn [removelast length] in *. lia. Qed.
Lemma strip_loop_done fuel s : (length s <= fuel)%nat -> wrapped (strip_loop fuel s) = false.
Proof.
  revert s. induction fuel as [|fuel IH]; intros s L; cbn [strip_loop]; [by destruct s; [|cbn in L; lia]|].
  destruct (wrapped s) eqn:W; [|done]. apply IH. etransitivity; [apply trim_length|]. rewrite removelast_length.
  destruct s as [|c s]; cbn in *; lia.
Qed.
Lemma strip_idem s : strip_outer_parentheses (strip_outer_parentheses s) = strip_outer_parentheses s.
Proof.
  assert (W : wrapped (strip_outer_parentheses s) = false) by (apply strip_loop_done, trim_length).
  unfold strip_outer_parentheses at 1. rewrite strip_trimmed. destruct (length _); [done|]. cbn [strip_loop]. by rewrite W.
Qed.
Lemma strip_literal s : strip_outer_parentheses (n_str s) = n_str s.
Proof.
  assert (T : trim (n_str s) = n_str s).
  { unfold n_str, sqlserver_str, SqlDialect.sqlserver_string_literal. change (u "N") with [78].
    eapply (SqlScript.trim_bracketed _ _ (78 :: 39 :: replace_char 39 [39; 39] s) 78 39); done. }
  unfold strip_outer_parentheses. rewrite T. unfold n_str. change (u "N") with [78]. by destruct (length _).
Qed.

(** ** What a default expression says *)

Inductive Meaning : Type := Text (value : str) | Expression (e : str).
Definition meaning (e : str) : Meaning :=
  let e := strip_outer_parentheses e in
  match parse_unicode_string_literal e with Some value => Text value | None => Expression e end.

(** A default taken over from the source is written with its meaning.  When
    the planner accepts a default expression and the builder writes what it
    made of it, the text in the statement is a literal of the same value or the
    same expression up to parentheses around it. *)
Theorem default_rebuilt e converted written :
  convert_default_expression e = Ok converted -> default_sql (Some converted) = Ok written ->
  exists text, written = Some text /\ meaning text = meaning e.
Proof.
  unfold convert_default_expression. pose proof (strip_trimmed e) as T. pose proof (strip_idem e) as I.
  unfold meaning at 2. set (n := strip_outer_parentheses e) in *. clearbody n.
  destruct (is_empty n) eqn:Em; [discriminate|]. unfold default_sql. cbn [fmap option_fmap option_map].
  destruct (builder_treats_as_raw_default n) eqn:R.
  - intros [= <-]. rewrite T. destruct n as [|c n]; [discriminate|]. destruct (validate_default_fragment _); [|discriminate]. cbn [rbind].
    assert (Rd : is_raw_default (c :: n) = true).
    { unfold is_raw_default. rewrite T. unfold builder_treats_as_raw_default in R. revert R. clear. generalize (c :: n). intros v.
      cbn [one_of existsb]. intros [[R|R]%orb_prop|R]%orb_prop; [|by rewrite R, orb_true_r|by rewrite R, !orb_true_r].
      apply orb_prop in R as [R|R]; [by rewrite R|]. cbn in R. by rewrite R, !orb_true_r. }
    rewrite Rd. intros [= <-]. eexists. split; [done|]. unfold meaning. by rewrite I.
  - destruct (parse_unicode_string_literal n) as [p|] eqn:P; [|discriminate].
    destruct (is_empty p || _ || _) eqn:X; [discriminate|]. intros [= <-]. apply orb_false_elim in X as [[X1 X2]%orb_false_elim X3].
    apply negb_false_iff, str_eqb_eq in X2. rewrite X2. destruct p as [|c p]; [discriminate|].
    destruct (validate_default_fragment _); [|discriminate]. cbn [rbind].
    destruct (is_raw_default (c :: p)) eqn:Rd.
    + exfalso. unfold is_raw_default in Rd. rewrite X2 in Rd. unfold builder_treats_as_raw_default in X3. revert Rd X3. clear.
      generalize (c :: p). intros v. cbn [one_of existsb]. intros Rd X. apply orb_false_elim in X as [[X1 X2]%orb_false_elim X3].
      apply orb_false_elim in X1 as [X0 X1]. cbn in X1. rewrite X0, X2, X3, X1 in Rd. done.
    + intros [= <-]. eexists. split; [done|]. unfold meaning. by rewrite strip_literal, literal_parsed.
Qed.
Lemma default_rebuilt_witness : exists text, default_sql (Some (u "it's")) = Ok (Some text) /\ meaning text = meaning (u "((N'it''s'))").
Proof.
  destruct (default_rebuilt (u "((N'it''s'))") (u "it's") (Some (u "N'it''s'"))) as (text & [= <-] & E); [vm_compute; reflexivity..|].
  exists (u "N'it''s'"). split; [vm_compute; reflexivity|exact E].
Defined.

(** ** Texts that say something else *)

Definition sample_native (d : str) : ColumnSyncMetadata :=
  SqlServer_Column (mkSqlServerColumn false None None None (Some d) (Some (u "DF_t_a")) (Some true) false (u "sys") (u "datetime2") None false 0
    false false false false false None).
Definition sample_side (d : str) : option TableSnapshot * option TableSyncMetadata :=
  (Some (mkSnapshot (u "t") [(u "a", mkColumn 1 (u "nvarchar(40)") true (Some d) false [] [])]),
   Some (SqlServerTable (mkSqlServerTable [] None 0 false false false false [(u "a", sample_native d)]))).
Definition sample_context (d d' : str) : TablePlanContext :=
  mkContext (u "dbo") (sample_side d).1 (sample_side d').1 (sample_side d).2 (sample_side d').2 true.
(** [normalize_default] forgets whether a default was a literal: a text and the
    expression it spells are the same to the builder, so that a plan without
    blockers has no statement and the target keeps its default. *)
Lemma text_taken_for_expression :
  let d := u "(N'getutcdate()')" in
  let d' := u "(getutcdate())" in
  plan_table (fun _ => []) (sample_context d d') = no_fragments /\ meaning d <> meaning d' /\
  changed_fields (mkColumn 1 (u "nvarchar(40)") true (Some d) false [] []) (mkColumn 1 (u "nvarchar(40)") true (Some d') false [] [])
    = [u "default_value"].
Proof. split; [|split]; vm_compute; [reflexivity|discriminate|reflexivity]. Qed.

(** The statements of a batch are indented line by line, literals included: a
    comment of two lines gets four spaces into its second. *)
Lemma batch_indents_literals :
  let comment := u "first" ++ [10] ++ u "second" in
  let statement := build_upsert_column_comment_sql (u "dbo") (u "t") (u "a") comment in
  contains (n_str comment) statement = true /\
  contains (n_str comment) (build_atomic_sqlserver_batch [statement]) = false /\
  contains (n_str (u "first" ++ [10] ++ u "    second")) (build_atomic_sqlserver_batch [statement]) = true.
Proof. split; [|split]; vm_compute; reflexivity. Qed.

(** How often a text begins within another. *)
Fixpoint occurrences (p s : str) : nat :=
  match s with [] => 0 | _ :: r => (if starts_with p s then 1 else 0) + occurrences p r end.
(** Two replaced defaults in one batch declare the same variable twice. *)
Lemma batch_declares_twice :
  let replace := fun c => build_replace_default_constraint_sql (u "dbo") (u "t") c None in
  occurrences (u "DECLARE @constraintName sysname;") (build_atomic_sqlserver_batch [replace (u "a"); replace (u "b")]) = 2%nat.
Proof. vm_compute. reflexivity. Qed.

(** The literals around quoted names do not double the quotes of the name:
    their bodies are no literals. *)
Lemma rename_unquoted :
  let body := place (u "dbo") (u "it's") in
  build_rename_table_sql (u "dbo") (u "it's") (u "b") = u "EXEC sp_rename N'" ++ body ++ u "', " ++ n_str (u "b") /\
  undoubled body = None.
Proof. split; [reflexivity|vm_compute; reflexivity]. Qed.

End SqlServerDefaults.
