(* ===== verification/ClickHouseDialect.v ===== *)
(** The pure part of ClickHouse's module (src-tauri/src/db/clickhouse.rs):
    names and literals, the queries of a page, the guard of read-only
    connections, the grants that allow writing and the rows of the catalogue.
    [char::to_uppercase] is the parameter [upper_char]. *)
From S2P Require Import Prelude OrderedMap RustText Ddl.
Import Ddl.

Module ClickHouseDialect.

(** ** Names and literals *)

Definition identifier (name : str) : str := [96] ++ replace_char 96 [96; 96] (replace_char 92 [92; 92] name) ++ [96].
Definition string_literal (value : str) : str := [39] ++ replace_char 39 [39; 39] (replace_char 92 [92; 92] value) ++ [39].
Definition table_ref (database table : str) : str := identifier database ++ u "." ++ identifier table.
Definition clickhouse_id : str -> str := identifier.
Definition clickhouse_str : str -> str := string_literal.
Definition clickhouse_table_ref : str -> str -> str := table_ref.

(** ** The queries of a page *)

Definition order_field (f : str * str) : option str :=
  let column := trim f.1 in
  if is_empty column then None
  else Some (identifier column ++ u " " ++ (if eq_ignore_ascii_case f.2 (u "DESC") then u "DESC" else u "ASC")).
Definition order_by (fields : list (str * str)) : str :=
  let parts := omap order_field fields in
  if is_empty parts then [] else u " ORDER BY " ++ join (u ", ") parts.
Definition count_query (database table where_sql : str) : str := u "SELECT count() FROM " ++ table_ref database table ++ where_sql.
Record ClickHouseSelectPage : Type := mkSelectPage {
  pg_columns_sql : str; pg_database : str; pg_table : str; pg_where_sql : str; pg_order_sql : str; pg_limit : Z; pg_offset : Z }.
Definition paginated_select (page : ClickHouseSelectPage) : str :=
  u "SELECT " ++ pg_columns_sql page ++ u " FROM " ++ table_ref (pg_database page) (pg_table page) ++ pg_where_sql page ++ pg_order_sql page
  ++ u " LIMIT " ++ show_Z (pg_limit page) ++ u " OFFSET " ++ show_Z (pg_offset page).
Definition clickhouse_paginated_json_sql (page : ClickHouseSelectPage) : str := paginated_select page ++ u " FORMAT JSON".

(** ** Read-only connections *)

(** The text after the first occurrence of [p]. *)
Fixpoint after (p s : str) : option str :=
  match strip_prefix p s with
  | Some r => Some r
  | None => match s with [] => None | _ :: s => after p s end
  end.
Fixpoint strip_loop (fuel : nat) (sql : str) : str :=
  let trimmed := trim_start sql in
  match fuel with
  | O => trimmed
  | S fuel =>
    match strip_prefix (u "--") trimmed, strip_prefix (u "/*") trimmed with
    | Some rest, _ => match after [10] rest with Some sql => strip_loop fuel sql | None => [] end
    | None, Some rest => match after (u "*/") rest with Some sql => strip_loop fuel sql | None => [] end
    | None, None => trimmed
    end
  end.
Definition strip_leading_sql_comments (sql : str) : str := strip_loop (length sql) sql.

(** [str::split] at every character that satisfies [f]. *)
Fixpoint split_at (f : char -> bool) (s : str) : list str :=
  match s with
  | [] => [[]]
  | c :: s =>
    if f c then [] :: split_at f s
    else match split_at f s with piece :: pieces => (c :: piece) :: pieces | [] => [[c]] end
  end.
Definition WRITE_TOKENS : list String.string :=
  ["INSERT"; "ALTER"; "CREATE"; "DROP"; "TRUNCATE"; "DELETE"; "UPDATE"; "OPTIMIZE"; "ATTACH"; "DETACH"; "RENAME"; "GRANT"; "REVOKE";
   "SYSTEM"; "KILL"]%string.

Section Guard.
Context (upper_char : char -> str).
Definition first_sql_keyword (sql : str) : str :=
  to_uppercase upper_char (take_while is_ascii_alphabetic (strip_leading_sql_comments sql)).
Definition clickhouse_sql_has_write_token (sql : str) : bool :=
  existsb (fun token => one_of token WRITE_TOKENS)
    (split_at (fun c => negb (is_ascii_alphanumeric c || (c =? 95))) (to_uppercase upper_char (strip_leading_sql_comments sql))).
Definition clickhouse_sql_editor_returns_result_set (sql : str) : bool :=
  let word := first_sql_keyword sql in
  if one_of word ["SELECT"; "SHOW"; "DESCRIBE"; "DESC"; "EXPLAIN"]%string then true
  else if one_of word ["WITH"]%string then negb (clickhouse_sql_has_write_token sql)
  else false.
Definition clickhouse_sql_editor_allowed_on_read_only_connection (sql : str) : bool := clickhouse_sql_editor_returns_result_set sql.
End Guard.

(** ** Rows of the catalogue *)

Record ClickHouseColumnRow : Type := mkColumnRow {
  cr_name : str; cr_column_type : str; cr_default_kind : str; cr_default_expression : str; cr_comment : str;
  cr_is_in_primary_key : Z; cr_is_in_sorting_key : Z }.
Definition clickhouse_type_is_nullable (column_type : str) : bool :=
  let compact := List.filter (fun c => negb (is_whitespace c)) column_type in
  starts_with (u "Nullable(") compact || starts_with (u "LowCardinality(Nullable(") compact.
Definition format_clickhouse_default_value (kind expression : str) : option str :=
  match trim kind, trim expression with
  | [], [] => None
  | [], expression => Some expression
  | kind, [] => Some kind
  | kind, expression => Some (kind ++ u " " ++ expression)
  end.
Definition map_clickhouse_column_row (row : ClickHouseColumnRow) : ColumnInfo :=
  mkColumnInfo (cr_name row) (cr_column_type row) (clickhouse_type_is_nullable (cr_column_type row))
    (if cr_is_in_primary_key row =? 1 then u "PRI" else [])
    (format_clickhouse_default_value (cr_default_kind row) (cr_default_expression row))
    (if (cr_is_in_primary_key row =? 0) && (cr_is_in_sorting_key row =? 1) then u "sorting key" else []) (cr_comment row).

End ClickHouseDialect.
