(* ===== verification/ClickHouseSync.v ===== *)
(** Planning the synchronisation of a ClickHouse table
    (src-tauri/src/db/schema_sync/clickhouse.rs): the scanners of CREATE TABLE
    statements, the native metadata, the checks of the engine and the plan of
    one table. *)
From S2P Require Import Prelude OrderedMap RustText DataTypes SchemaCompare SyncTypes Ddl ClickHouseDialect.
Import SchemaCompare SyncTypes Ddl ClickHouseDialect.

Module ClickHouseSync.

(** ** Scanners *)

Definition is_quote (c : char) : bool := (c =? 39) || (c =? 96) || (c =? 34).
Definition is_open (c : char) : bool := (c =? 40) || (c =? 91) || (c =? 123).
Definition is_close (c : char) : bool := (c =? 41) || (c =? 93) || (c =? 125).
(** Within quotes [delimiter]: how many characters the next round passes, the
    quotes it ends in, and what is left; [rest] follows the character [c]. *)
Definition in_quotes (delimiter c : char) (rest : str) : nat * option char * str :=
  if c =? 92 then (2%nat, Some delimiter, List.tl rest)
  else if c =? delimiter
  then
    match rest with
    | d :: rest' => if d =? delimiter then (2%nat, Some delimiter, rest') else (1%nat, None, rest)
    | [] => (1%nat, None, [])
    end
  else (1%nat, Some delimiter, rest).
Definition is_word_char (c : char) : bool := is_ascii_alphanumeric c || (c =? 95).

(** The words outside of quotes and brackets, with their places. *)
Fixpoint words_loop (fuel index : nat) (depth : Z) (quote : option char) (s : str) : result (list (str * nat * nat)) str :=
  match fuel, s with
  | O, _ | _, [] => if is_some quote || negb (depth =? 0) then Err (u "ClickHouse 原生表达式引号或括号不匹配") else Ok []
  | S fuel, c :: rest =>
    match quote with
    | Some delimiter =>
      let '(n, quote, rest) := in_quotes delimiter c rest in words_loop fuel (index + n) depth quote rest
    | None =>
      if is_quote c then words_loop fuel (S index) depth (Some c) rest
      else if is_open c then words_loop fuel (S index) (depth + 1) None rest
      else if is_close c
      then if depth =? 0 then Err (u "ClickHouse 原生表达式括号不匹配") else words_loop fuel (S index) (depth - 1) None rest
      else if (depth =? 0) && (is_ascii_alphabetic c || (c =? 95))
      then
        let word := c :: take_while is_word_char rest in
        let end_ := (index + length word)%nat in
        let? words := words_loop fuel end_ depth None (drop_while is_word_char rest) in
        Ok ((word, index, end_) :: words)
      else words_loop fuel (S index) depth None rest
    end
  end.
Definition top_level_words (value : str) : result (list (str * nat * nat)) str := words_loop (length value) 0 0 None value.
(** What follows the first word [keyword], up to one of [stops]. *)
Definition engine_clause (engine_full : str) (keyword : String.string) (stops : list String.string) : result str str :=
  let? words := top_level_words engine_full in
  match find_first (fun w => str_eqb w.1.1 (u keyword)) words with
  | None => Ok []
  | Some (_, _, keyword_end) =>
    let end_ :=
      match find_first (fun w => (keyword_end <=? w.1.2)%nat && one_of w.1.1 stops) words with
      | Some (_, start, _) => start
      | None => length engine_full
      end in
    Ok (trim (List.firstn (end_ - keyword_end) (List.skipn keyword_end engine_full)))
  end.

Definition unsupported_definition_keyword (definition : str) : option str :=
  let first := take_while (fun c => negb (is_whitespace c || (c =? 40))) (trim_start definition) in
  find_first (fun keyword => eq_ignore_ascii_case first keyword) (map u ["INDEX"; "PROJECTION"; "CONSTRAINT"; "PRIMARY"]%string).

(** The places of the parentheses around the columns. *)
Fixpoint range_loop (fuel index : nat) (depth : Z) (quote : option char) (open : option nat) (s : str) : result (nat * nat) str :=
  match fuel, s with
  | O, _ | _, [] => Err (u "ClickHouse CREATE TABLE 缺少完整字段列表")
  | S fuel, c :: rest =>
    match quote with
    | Some delimiter =>
      let '(n, quote, rest) := in_quotes delimiter c rest in range_loop fuel (index + n) depth quote open rest
    | None =>
      if is_quote c then range_loop fuel (S index) depth (Some c) open rest
      else if c =? 40
      then range_loop fuel (S index) (depth + 1) None (Some (default index open)) rest
      else if c =? 41
      then
        if depth =? 0 then Err (u "ClickHouse CREATE TABLE 括号不匹配")
        else if depth =? 1 then let? open := ok_or open (u "ClickHouse CREATE TABLE 缺少字段列表") in Ok (open, index)
        else range_loop fuel (S index) (depth - 1) None open rest
      else range_loop fuel (S index) depth None open rest
    end
  end.
Definition create_column_list_range (value : str) : result (nat * nat) str := range_loop (length value) 0 0 None None value.

(** The trimmed pieces between separators outside of quotes and brackets;
    [piece] is the current one, reversed. *)
Fixpoint split_loop (separator : char) (fuel : nat) (depth : Z) (quote : option char) (piece s : str) : result (list str) str :=
  match fuel, s with
  | O, _ | _, [] =>
    if is_some quote || negb (depth =? 0) then Err (u "ClickHouse 字段定义引号或括号不匹配") else Ok [trim (reverse piece)]
  | S fuel, c :: rest =>
    match quote with
    | Some delimiter =>
      let '(n, quote, rest') := in_quotes delimiter c rest in
      split_loop separator fuel depth quote (reverse (List.firstn n (c :: rest)) ++ piece) rest'
    | None =>
      if is_quote c then split_loop separator fuel depth (Some c) (c :: piece) rest
      else if is_open c then split_loop separator fuel (depth + 1) None (c :: piece) rest
      else if is_close c
      then if depth =? 0 then Err (u "ClickHouse 字段定义括号不匹配") else split_loop separator fuel (depth - 1) None (c :: piece) rest
      else if (c =? separator) && (depth =? 0)
      then let? pieces := split_loop separator fuel depth None [] rest in Ok (trim (reverse piece) :: pieces)
      else split_loop separator fuel depth None (c :: piece) rest
    end
  end.
Definition split_top_level (value : str) (separator : char) : result (list str) str :=
  split_loop separator (length value) 0 None [] value.

(** What an escaped character stands for. *)
Definition unescape (e : char) : str :=
  if e =? 97 then [7] else if e =? 98 then [8] else if e =? 101 then [27] else if e =? 102 then [12] else if e =? 110 then [10]
  else if e =? 114 then [13] else if e =? 116 then [9] else if e =? 118 then [11] else if e =? 48 then [0] else if e =? 78 then []
  else if contains_char e [92; 39; 34; 96; 47; 61] then [e]
  else [92; e].
(** The name up to the closing quote, and what follows it. *)
Fixpoint quoted_identifier (quote : char) (s : str) : result (str * str) str :=
  match s with
  | [] => Err (u "ClickHouse 字段标识符引号不完整")
  | c :: s =>
    if c =? 92
    then
      match s with
      | [] => Err (u "ClickHouse 字段标识符转义不完整")
      | e :: s => let? r := quoted_identifier quote s in Ok (unescape e ++ r.1, r.2)
      end
    else if c =? quote
    then
      match s with
      | d :: r => if d =? quote then let? r := quoted_identifier quote r in Ok (quote :: r.1, r.2) else Ok ([], s)
      | [] => Ok ([], [])
      end
    else let? r := quoted_identifier quote s in Ok (c :: r.1, r.2)
  end.
(** The name a definition begins with, and what follows it. *)
Definition parse_leading_identifier (value : str) : result (option (str * str)) str :=
  match trim_start value with
  | [] => Ok None
  | first :: rest =>
    if (first =? 96) || (first =? 34)
    then let? r := quoted_identifier first rest in Ok (Some r)
    else
      let name := take_while (fun c => negb (is_whitespace c)) (first :: rest) in
      if existsb (fun keyword => eq_ignore_ascii_case name keyword) (map u ["INDEX"; "CONSTRAINT"; "PROJECTION"; "PRIMARY"]%string) then Ok None
      else Ok (Some (name, drop_while (fun c => negb (is_whitespace c)) (first :: rest)))
  end.

(** ** Native definitions *)

(** A sorted list without repetitions: a [BTreeSet], or [sort] and [dedup]. *)
Definition sorted_unique (l : list str) : list str := map fst (BTree.collect str_cmp (map (fun x => (x, tt)) l)).
Record ParsedCreateNativeDefinitions : Type := mkParsed {
  pd_column_ttl_expressions : list (str * str);
  pd_column_unsupported_clauses : list (str * list str);
  pd_unsupported_definitions : list str;
}.
Definition parse_definition (parsed : ParsedCreateNativeDefinitions) (definition : str) : result ParsedCreateNativeDefinitions str :=
  match unsupported_definition_keyword definition with
  | Some keyword =>
    Ok (mkParsed (pd_column_ttl_expressions parsed) (pd_column_unsupported_clauses parsed) (pd_unsupported_definitions parsed ++ [keyword]))
  | None =>
    let? leading := parse_leading_identifier definition in
    match leading with
    | None => Ok parsed
    | Some (name, rest) =>
      let remainder := trim rest in
      let? words := top_level_words remainder in
      let unsupported :=
        sorted_unique (List.filter (fun word => one_of word ["EPHEMERAL"; "SETTINGS"; "STATISTICS"]%string) (map (fun w => w.1.1) words)) in
      let clauses :=
        if is_empty unsupported then pd_column_unsupported_clauses parsed
        else BTree.put str_cmp name unsupported (pd_column_unsupported_clauses parsed) in
      let? ttl := engine_clause remainder "TTL" ["DEFAULT"; "MATERIALIZED"; "ALIAS"; "COMMENT"; "CODEC"; "STATISTICS"]%string in
      let ttls :=
        if is_empty ttl then pd_column_ttl_expressions parsed else BTree.put str_cmp name ttl (pd_column_ttl_expressions parsed) in
      Ok (mkParsed ttls clauses (pd_unsupported_definitions parsed))
    end
  end.
Fixpoint parse_definitions (parsed : ParsedCreateNativeDefinitions) (definitions : list str) : result ParsedCreateNativeDefinitions str :=
  match definitions with
  | [] => Ok parsed
  | definition :: definitions => let? parsed := parse_definition parsed definition in parse_definitions parsed definitions
  end.
Definition parse_create_native_definitions (create_table_query : str) : result ParsedCreateNativeDefinitions str :=
  if is_empty (trim create_table_query) then Ok (mkParsed [] [] [])
  else
    let? range := create_column_list_range create_table_query in
    let '(open, close) := range in
    let? definitions := split_top_level (List.firstn (close - S open) (List.skipn (S open) create_table_query)) 44 in
    let? parsed := parse_definitions (mkParsed [] [] []) definitions in
    Ok (mkParsed (pd_column_ttl_expressions parsed) (pd_column_unsupported_clauses parsed) (sorted_unique (pd_unsupported_definitions parsed))).

(** ** Native metadata *)

Record MetadataRow : Type := mkMetadataRow {
  mr_table_name : str; mr_engine : str; mr_engine_full : str; mr_create_table_query : str; mr_sorting_key : str; mr_partition_key : str;
  mr_primary_key : str; mr_sampling_key : str; mr_comment : str; mr_column_name : str; mr_column_type : str; mr_default_kind : str;
  mr_default_expression : str; mr_compression_codec : str; mr_is_in_partition_key : Z; mr_is_in_sorting_key : Z;
  mr_is_in_primary_key : Z; mr_is_in_sampling_key : Z }.
(** What all rows of a table have in common. *)
Definition table_part (row : MetadataRow) : list str :=
  [mr_engine row; mr_engine_full row; mr_create_table_query row; mr_sorting_key row; mr_partition_key row; mr_primary_key row;
   mr_sampling_key row; mr_comment row].
(** A table's rows in their order, under its name. *)
Definition TableMetadataRows : Type := MetadataRow * list MetadataRow.
Fixpoint group_rows (grouped : list (str * TableMetadataRows)) (rows : list MetadataRow) : result (list (str * TableMetadataRows)) str :=
  match rows with
  | [] => Ok grouped
  | row :: rows =>
    let name := mr_table_name row in
    let entry := default (row, []) (BTree.get str_cmp name grouped) in
    if negb (bool_decide (table_part entry.1 = table_part row)) then Err (u "ClickHouse 表 " ++ name ++ u " 的批量元数据行不一致")
    else group_rows (BTree.put str_cmp name (entry.1, entry.2 ++ [row]) grouped) rows
  end.
Definition native_column (parsed : ParsedCreateNativeDefinitions) (row : MetadataRow) : ClickHouseColumn :=
  mkClickHouseColumn (mr_default_kind row) (mr_default_expression row) (mr_compression_codec row)
    (default [] (BTree.get str_cmp (mr_column_name row) (pd_column_ttl_expressions parsed)))
    (default [] (BTree.get str_cmp (mr_column_name row) (pd_column_unsupported_clauses parsed)))
    (negb (mr_is_in_partition_key row =? 0)) (negb (mr_is_in_sorting_key row =? 0)) (negb (mr_is_in_primary_key row =? 0))
    (negb (mr_is_in_sampling_key row =? 0)).
Fixpoint insert_columns (table_name : str) (parsed : ParsedCreateNativeDefinitions) (columns : list (str * ColumnSyncMetadata))
    (rows : list MetadataRow) : result (list (str * ColumnSyncMetadata)) str :=
  match rows with
  | [] => Ok columns
  | row :: rows =>
    let name := mr_column_name row in
    if is_some (BTree.get str_cmp name columns) then Err (u "ClickHouse 表 " ++ table_name ++ u " 包含重复字段元数据 " ++ name)
    else insert_columns table_name parsed (BTree.put str_cmp name (ClickHouse_Column (native_column parsed row)) columns) rows
  end.
Definition aggregate_table (p : str * TableMetadataRows) : result (str * TableSyncMetadata) str :=
  let '(table_name, (table, rows)) := p in
  let? parsed := parse_create_native_definitions (mr_create_table_query table) in
  let? table_ttl := engine_clause (mr_engine_full table) "TTL" ["SETTINGS"]%string in
  let? settings := engine_clause (mr_engine_full table) "SETTINGS" [] in
  let? columns := insert_columns table_name parsed [] rows in
  Ok (table_name,
      ClickHouseTable (mkClickHouseTable (mr_engine table) (mr_engine_full table) (mr_create_table_query table) (mr_sorting_key table)
        (mr_partition_key table) (mr_primary_key table) (mr_sampling_key table) table_ttl settings (pd_unsupported_definitions parsed)
        (mr_comment table) columns)).
Definition aggregate_metadata_rows (rows : list MetadataRow) : result (list (str * TableSyncMetadata)) str :=
  let? grouped := group_rows [] rows in traverse aggregate_table grouped.

Definition table_metadata (metadata : option TableSyncMetadata) (table_name : str) : result ClickHouseTableMeta str :=
  match metadata with
  | Some (ClickHouseTable t) =>
    if blank (ht_engine t) || blank (ht_engine_full t) then Err (u "表 " ++ table_name ++ u " 的 ClickHouse 引擎元数据为空") else Ok t
  | _ => Err (u "表 " ++ table_name ++ u " 缺少 ClickHouse 原生元数据")
  end.
Definition column_metadata (metadata : ClickHouseTableMeta) (table_name column_name : str) : result ClickHouseColumn str :=
  match BTree.get str_cmp column_name (ht_columns metadata) with
  | Some (ClickHouse_Column c) => Ok c
  | _ => Err (u "字段 " ++ table_name ++ u "." ++ column_name ++ u " 缺少 ClickHouse 原生元数据")
  end.
Definition is_key_member (c : ClickHouseColumn) : bool :=
  hc_is_in_partition_key c || hc_is_in_sorting_key c || hc_is_in_primary_key c || hc_is_in_sampling_key c.

(** ** Engines *)

Definition SAFE_PARAMETERLESS_MERGE_TREE_ENGINES : list str :=
  map u ["MergeTree"; "ReplacingMergeTree"; "SummingMergeTree"; "AggregatingMergeTree"]%string.
Definition SAFE_PARAMETERLESS_LOCAL_ENGINES : list str := map u ["Memory"; "Log"; "TinyLog"; "StripeLog"]%string.
(** [keyword] at the beginning, whatever the case, and then a space or the end. *)
Definition begins_clause (s keyword : str) : bool :=
  eq_ignore_ascii_case (List.firstn (length keyword) s) keyword
  && match List.skipn (length keyword) s with [] => true | c :: _ => is_whitespace c end.
(** What follows the engine's name in the engine's full definition. *)
Definition engine_remainder (metadata : ClickHouseTableMeta) : result str str :=
  let malformed := Err (u "ClickHouse 引擎定义无法通过安全结构校验") in
  let engine := trim (ht_engine metadata) in
  let full := trim (trim_end_matches (Z.eqb 59) (trim (ht_engine_full metadata))) in
  let? full :=
    if eq_ignore_ascii_case (List.firstn 6 full) (u "ENGINE")
    then match strip_prefix [61] (trim_start (List.skipn 6 full)) with Some rest => Ok (trim_start rest) | None => malformed end
    else Ok full in
  if negb (eq_ignore_ascii_case (List.firstn (length engine) full) engine) then malformed
  else Ok (List.skipn (length engine) full).
Definition unsafe_clause (value : str) : bool :=
  let value := to_ascii_lowercase value in
  contains_char 59 value || contains (u "--") value || contains (u "/*") value || contains (u "*/") value || contains_char 0 value.
Definition clause_text (keyword : String.string) (value : str) : str := if blank value then [] else u keyword ++ trim value.
Definition safe_engine_clause (metadata : ClickHouseTableMeta) : result str str :=
  let engine := trim (ht_engine metadata) in
  let merge_tree := existsb (eq_ignore_ascii_case engine) SAFE_PARAMETERLESS_MERGE_TREE_ENGINES in
  let local := existsb (eq_ignore_ascii_case engine) SAFE_PARAMETERLESS_LOCAL_ENGINES in
  let expressions :=
    [ht_sorting_key metadata; ht_partition_key metadata; ht_primary_key metadata; ht_sampling_key metadata; ht_table_ttl metadata;
     ht_settings metadata] in
  if negb merge_tree && negb local then Err (u "ClickHouse 首期仅支持无需参数的本地安全引擎，远程、复制及外部引擎均被阻止")
  else
    let? remainder := engine_remainder metadata in
    let unverified := Err (u "ClickHouse 首期不接受未经结构化验证的引擎参数") in
    if match remainder with [] => false | c :: _ => negb (is_whitespace c) end then unverified
    else
      let remainder := trim_start remainder in
      if merge_tree && negb (is_empty remainder)
         && negb (existsb (begins_clause remainder) (map u ["PARTITION"; "PRIMARY"; "ORDER"; "SAMPLE"; "TTL"; "SETTINGS"]%string))
      then unverified
      else if existsb unsafe_clause expressions then Err (u "ClickHouse 引擎结构化子句包含不安全语句边界")
      else if local
      then
        if existsb (fun value => negb (blank value)) expressions || negb (blank remainder)
        then Err (u "ClickHouse 本地简单引擎包含无法安全表达的额外子句")
        else Ok engine
      else if blank (ht_sorting_key metadata) then Err (u "ClickHouse MergeTree 安全引擎缺少排序键")
      else
        Ok (engine ++ clause_text " PARTITION BY " (ht_partition_key metadata)
            ++ (if str_eqb (trim (ht_primary_key metadata)) (trim (ht_sorting_key metadata)) then []
                else clause_text " PRIMARY KEY " (ht_primary_key metadata))
            ++ u " ORDER BY " ++ trim (ht_sorting_key metadata) ++ clause_text " SAMPLE BY " (ht_sampling_key metadata)
            ++ clause_text " TTL " (ht_table_ttl metadata) ++ clause_text " SETTINGS " (ht_settings metadata)).
Definition unsupported_clauses_of (p : str * ColumnSyncMetadata) : option (list str) :=
  match p.2 with ClickHouse_Column c => Some (sorted_unique (hc_unsupported_clauses c)) | _ => None end.
Fixpoint validate_clauses (table_name : str) (columns : list (str * ColumnSyncMetadata)) : result unit str :=
  match columns with
  | [] => Ok tt
  | p :: columns =>
    let field := table_name ++ u "." ++ p.1 in
    match unsupported_clauses_of p with
    | None => Err (u "字段 " ++ field ++ u " 的同步元数据不是 ClickHouse 变体")
    | Some unsupported =>
      if is_empty unsupported then validate_clauses table_name columns
      else Err (u "字段 " ++ field ++ u " 包含首期不支持且无法无损重建的原生子句: " ++ join (u ", ") unsupported)
    end
  end.
Definition validate_supported_native_definitions (metadata : ClickHouseTableMeta) (table_name : str) : result unit str :=
  if negb (is_empty (ht_unsupported_definitions metadata))
  then Err (u "表 " ++ table_name ++ u " 包含首期不支持且无法无损重建的原生定义: " ++ join (u ", ") (ht_unsupported_definitions metadata))
  else validate_clauses table_name (ht_columns metadata).

(** ** Definitions and statements *)

Definition normalized_default_kind (kind table_name column_name : str) : result str str :=
  let kind := trim kind in
  if is_empty kind then Ok []
  else
    match find_first (eq_ignore_ascii_case kind) (map u ["DEFAULT"; "MATERIALIZED"; "ALIAS"]%string) with
    | Some known => Ok known
    | None => Err (u "字段 " ++ table_name ++ u "." ++ column_name ++ u " 包含未知 default_kind " ++ kind)
    end.
(** Why a column's default is not what its metadata say, or the kind. *)
Definition checked_kind (column : ColumnSnapshot) (metadata : ClickHouseColumn) (table_name column_name : str) : result str str :=
  let field := table_name ++ u "." ++ column_name in
  let? kind := normalized_default_kind (hc_default_kind metadata) table_name column_name in
  if negb (Bool.eqb (is_empty kind) (is_empty (trim (hc_default_expression metadata))))
  then Err (u "字段 " ++ field ++ u " 的 default_kind 与 default_expression 不一致")
  else if negb (blank (extra column)) && negb (eq_ignore_ascii_case (trim (extra column)) kind)
  then Err (u "字段 " ++ field ++ u " 的 extra 无法由 ClickHouse 原生默认子句无损表达")
  else if is_empty kind
  then if is_some (default_value column) then Err (u "字段 " ++ field ++ u " 缺少结构化 default_kind") else Ok kind
  else if negb (bool_decide (default_value column = Some (hc_default_expression metadata)))
  then Err (u "字段 " ++ field ++ u " 的默认表达式快照与原生元数据不一致")
  else Ok kind.
Definition build_column_definition (column : ColumnSnapshot) (metadata : ClickHouseColumn) (table_name column_name : str)
    (include_comment : bool) : result str str :=
  let field := table_name ++ u "." ++ column_name in
  let unsupported := sorted_unique (hc_unsupported_clauses metadata) in
  let codec := trim (hc_compression_codec metadata) in
  if blank (column_type column) then Err (u "字段 " ++ field ++ u " 的类型为空")
  else if negb (is_empty unsupported)
  then Err (u "字段 " ++ field ++ u " 包含首期不支持且无法无损重建的原生子句: " ++ join (u ", ") unsupported)
  else
    let? kind := checked_kind column metadata table_name column_name in
    if negb (is_empty codec || eq_ignore_ascii_case (List.firstn 6 codec) (u "CODEC(") && ends_with [41] codec)
    then Err (u "字段 " ++ field ++ u " 的 codec 无法无损重建: " ++ codec)
    else
      Ok (trim (column_type column)
          ++ (if is_empty kind then [] else u " " ++ kind ++ u " " ++ trim (hc_default_expression metadata))
          ++ (if include_comment && negb (is_empty (comment column)) then u " COMMENT " ++ clickhouse_str (comment column) else [])
          ++ (if is_empty codec then [] else u " " ++ codec)
          ++ clause_text " TTL " (hc_ttl_expression metadata)).
Definition column_definition (column : ColumnSnapshot) (metadata : ClickHouseColumn) (table_name column_name : str) : result str str :=
  build_column_definition column metadata table_name column_name true.
Definition column_definition_for_modify (column : ColumnSnapshot) (metadata : ClickHouseColumn) (table_name column_name : str) : result str str :=
  build_column_definition column metadata table_name column_name false.

Definition source_position_clause (source : TableSnapshot) (column_name : str) : str :=
  match source_position source column_name with
  | Stay => []
  | First => u " FIRST"
  | After name => u " AFTER " ++ clickhouse_id name
  end.
Definition alter_table (database table : str) : str := u "ALTER TABLE " ++ clickhouse_table_ref database table.
Definition add_column_sql (database table name definition : str) : str :=
  alter_table database table ++ u " ADD COLUMN " ++ clickhouse_id name ++ u " " ++ definition.
Definition modify_column_sql (database table name definition : str) : str :=
  alter_table database table ++ u " MODIFY COLUMN " ++ clickhouse_id name ++ u " " ++ definition.
Definition remove_column_property_sql (database table name property : str) : str :=
  alter_table database table ++ u " MODIFY COLUMN " ++ clickhouse_id name ++ u " REMOVE " ++ property.
Definition comment_column_sql (database table name comment : str) : str :=
  alter_table database table ++ u " COMMENT COLUMN " ++ clickhouse_id name ++ u " " ++ clickhouse_str comment.
Definition drop_column_sql (database table name : str) : str :=
  alter_table database table ++ u " DROP COLUMN " ++ clickhouse_id name.

(** ** A new table, and one of the target only *)

Definition push_definition (metadata : ClickHouseTableMeta) (source : TableSnapshot) (acc : PlanFragments * list str)
    (c : str * ColumnSnapshot) : PlanFragments * list str :=
  match (let? native := column_metadata metadata (ts_name source) c.1 in column_definition c.2 native (ts_name source) c.1) with
  | Ok definition => (acc.1, acc.2 ++ [u "  " ++ clickhouse_id c.1 ++ u " " ++ definition])
  | Err reason => (block (ts_name source) (u "无法创建字段 " ++ ts_name source ++ u "." ++ c.1) reason acc.1, acc.2)
  end.
Definition plan_create_table (context : TablePlanContext) (source : TableSnapshot) (plan : PlanFragments) : PlanFragments :=
  let refuse := fun reason => block (ts_name source) (u "无法创建表 " ++ ts_name source) reason in
  match (let? metadata := table_metadata (cx_source_metadata context) (ts_name source) in
         check? validate_supported_native_definitions metadata (ts_name source) in
         let? engine_clause := safe_engine_clause metadata in
         if is_empty (ts_columns source) then Err (u "源表没有字段") else Ok (metadata, engine_clause)) with
  | Err reason => refuse reason plan
  | Ok (metadata, engine_clause) =>
    let '(plan, definitions) := fold_left (push_definition metadata source) (in_order source) (plan, []) in
    if negb (is_empty (pf_blockers plan)) then plan
    else
      operation CreateTablePhase (ts_name source) CreateTable Normal (u "创建目标端表 " ++ ts_name source)
        [u "CREATE TABLE " ++ clickhouse_table_ref (cx_target_database context) (ts_name source) ++ u " (" ++ [10]
         ++ join (u "," ++ [10]) definitions ++ [10] ++ u ") ENGINE = " ++ engine_clause
         ++ (if is_empty (ht_comment metadata) then [] else u " COMMENT " ++ clickhouse_str (ht_comment metadata))] plan
  end.
Definition plan_target_only_table (context : TablePlanContext) (target : TableSnapshot) (plan : PlanFragments) : PlanFragments :=
  match (let? metadata := table_metadata (cx_target_metadata context) (ts_name target) in safe_engine_clause metadata) with
  | Err reason => block (ts_name target) (u "无法删除表 " ++ ts_name target) reason plan
  | Ok _ =>
    if cx_include_drops context
    then
      operation DropTablePhase (ts_name target) DropTable Destructive (u "删除目标端独有表 " ++ ts_name target)
        [u "DROP TABLE " ++ clickhouse_table_ref (cx_target_database context) (ts_name target)] plan
    else skip (ts_name target) (u "跳过删除目标端独有表") (u "未开启包含删除操作") plan
  end.

(** ** A table on both sides *)

#[export] Instance ClickHouseColumn_eq_dec : EqDecision ClickHouseColumn.
Proof. solve_decision. Defined.

Definition mentions (changed_fields : list str) (fields : list String.string) : bool := existsb (fun f => one_of f fields) changed_fields.
Definition key_membership (c : ClickHouseColumn) : bool * bool * bool * bool :=
  (hc_is_in_partition_key c, hc_is_in_sorting_key c, hc_is_in_primary_key c, hc_is_in_sampling_key c).
Definition native_definition (c : ClickHouseColumn) : str * str * str * str :=
  (hc_default_kind c, hc_default_expression c, hc_compression_codec c, hc_ttl_expression c).
Definition ordered_column_action (name : str) (order : Z) : str := name ++ [0] ++ u "0" ++ show_Z order.
(** A statement with the place and the key it is sorted by. *)
Abbreviation Placed := (Z * str * str)%type (only parsing).
Definition by_place (a b : Placed) : comparison :=
  cmp_then (cmp_on (fun e : Placed => e.1.1) Z.compare) (cmp_on (fun e : Placed => e.1.2) str_cmp) a b.
Definition push_column_operation (phase : OperationPhase) (table_name : str) (kind : DatabaseSyncOperationKind) (risk : DatabaseSyncRisk)
    (verb : str) (statements : list Placed) (plan : PlanFragments) : PlanFragments :=
  if is_empty statements then plan
  else operation phase table_name kind risk (u "为目标端表 " ++ table_name ++ verb) (map snd (sort_by by_place statements)) plan.

Record Changes : Type := mkChanges {
  ch_plan : PlanFragments;
  ch_add : list Placed;
  ch_add_risk : DatabaseSyncRisk;
  ch_alter : list Placed;
  ch_comment : list Placed;
  ch_drop : list Placed;
}.
Definition with_plan (f : PlanFragments -> PlanFragments) (st : Changes) : Changes :=
  mkChanges (f (ch_plan st)) (ch_add st) (ch_add_risk st) (ch_alter st) (ch_comment st) (ch_drop st).
Definition with_alter (l : list Placed) (st : Changes) : Changes :=
  mkChanges (ch_plan st) (ch_add st) (ch_add_risk st) (ch_alter st ++ l) (ch_comment st) (ch_drop st).
Definition with_comment (l : list Placed) (st : Changes) : Changes :=
  mkChanges (ch_plan st) (ch_add st) (ch_add_risk st) (ch_alter st) (ch_comment st ++ l) (ch_drop st).

Section Changes.
Context (context : TablePlanContext) (source_metadata target_metadata : ClickHouseTableMeta) (source target : TableSnapshot).
Abbreviation database := (cx_target_database context).
Abbreviation table := (ts_name source).

(** The properties a column loses. *)
Definition removed_properties (name : str) (source_native target_native : ClickHouseColumn) : result (list str) str :=
  let? property :=
    if blank (hc_default_kind source_native) && negb (blank (hc_default_kind target_native))
    then let? property := normalized_default_kind (hc_default_kind target_native) table name in Ok [property]
    else Ok [] in
  Ok (property
      ++ (if blank (hc_compression_codec source_native) && negb (blank (hc_compression_codec target_native)) then [u "CODEC"] else [])
      ++ (if blank (hc_ttl_expression source_native) && negb (blank (hc_ttl_expression target_native)) then [u "TTL"] else [])).
(** The statements on a column from number [order] on. *)
Fixpoint numbered (position : Z) (name : str) (order : Z) (statements : list str) : list Placed :=
  match statements with
  | [] => []
  | sql :: statements => (position, ordered_column_action name order, sql) :: numbered position name (order + 1) statements
  end.
Definition definition_changed (changed_fields : list str) (source_native target_native : ClickHouseColumn) : bool :=
  existsb (fun field => negb (one_of field ["comment"; "primary_key"]%string)) changed_fields
  || negb (bool_decide (native_definition source_native = native_definition target_native)).
Definition plan_modified_column (name : str) (source_column : ColumnSnapshot) (source_native target_native : ClickHouseColumn)
    (changed_fields : list str) (st : Changes) : Changes :=
  let field := table ++ u "." ++ name in
  let refuse := fun reason => with_plan (block table (u "无法修改字段 " ++ field) reason) in
  if negb (bool_decide (key_membership source_native = key_membership target_native))
  then with_plan (block table (u "无法修改字段 " ++ field ++ u " 的键成员关系") (u "ClickHouse 首期不修改主键或排序键表达式")) st
  else if (is_key_member source_native || is_key_member target_native) && mentions changed_fields ["column_type"; "nullable"]%string
  then
    with_plan (block table (u "无法修改键成员字段 " ++ field ++ u " 的类型") (u "ClickHouse 首期不修改分区键、排序键、主键或采样键成员字段类型")) st
  else
    let position := ordinal_position source_column in
    let st :=
      if mentions changed_fields ["comment"]%string
      then with_comment [(position, name, comment_column_sql database table name (comment source_column))] st
      else st in
    if forallb (fun field => one_of field ["comment"]%string) changed_fields && bool_decide (source_native = target_native) then st
    else
      match removed_properties name source_native target_native with
      | Err reason => refuse reason st
      | Ok removed =>
        let st := with_alter (numbered position name 0 (map (remove_column_property_sql database table name) removed)) st in
        if negb (definition_changed changed_fields source_native target_native) then st
        else
          match column_definition_for_modify source_column source_native table name with
          | Err reason => refuse reason st
          | Ok definition =>
            with_alter
              [(position, ordered_column_action name (zlen removed),
                modify_column_sql database table name (definition ++ source_position_clause source name))] st
          end
      end.
(** The metadata of a column of both tables, and the plan for it when [f]
    says so. *)
Definition with_natives (summary name : str) (f : ClickHouseColumn -> ClickHouseColumn -> Changes -> Changes) (st : Changes) : Changes :=
  match (let? source_native := column_metadata source_metadata table name in
         let? target_native := column_metadata target_metadata (ts_name target) name in
         Ok (source_native, target_native)) with
  | Err reason => with_plan (block table (summary ++ table ++ u "." ++ name) reason) st
  | Ok (source_native, target_native) => f source_native target_native st
  end.
Definition add_column (name : str) (column : ColumnSnapshot) : result str str :=
  let? native := column_metadata source_metadata table name in
  let? definition := column_definition column native table name in
  Ok (add_column_sql database table name (definition ++ source_position_clause source name)).
Definition plan_difference (st : Changes) (d : ColumnDiff) : Changes :=
  let name := cd_name d in
  match cd_status d, cd_source d, cd_target d with
  | SourceOnly, Some column, _ =>
    match add_column name column with
    | Err reason => with_plan (block table (u "无法新增字段 " ++ table ++ u "." ++ name) reason) st
    | Ok sql =>
      mkChanges (ch_plan st) (ch_add st ++ [(ordinal_position column, name, sql)])
        (match add_column_risk column (BTree.get str_cmp name (ht_columns source_metadata)) with High => High | _ => ch_add_risk st end)
        (ch_alter st) (ch_comment st) (ch_drop st)
    end
  | TargetOnly, _, Some column =>
    if cx_include_drops context
    then
      mkChanges (ch_plan st) (ch_add st) (ch_add_risk st) (ch_alter st) (ch_comment st)
        (ch_drop st ++ [(ordinal_position column, name, drop_column_sql database (ts_name target) name)])
    else with_plan (skip table (u "跳过删除字段 " ++ table ++ u "." ++ name) (u "未开启包含删除操作")) st
  | Changed, Some source_column, Some _ =>
    with_natives (u "无法修改字段 ") name
      (fun source_native target_native => plan_modified_column name source_column source_native target_native (cd_changed_fields d)) st
  | _, _, _ => st
  end.
(** A common column whose definition is the same. *)
Definition plan_native_difference (handled : list str) (st : Changes) (c : str * ColumnSnapshot) : Changes :=
  if bool_decide (c.1 ∈ handled) then st
  else if negb (existsb (fun t => str_eqb t.1 c.1) (ts_columns target)) then st
  else
    with_natives (u "无法比较字段 ") c.1
      (fun source_native target_native st =>
         if bool_decide (source_native = target_native) then st
         else plan_modified_column c.1 c.2 source_native target_native [] st) st.

Definition finish_changes (st : Changes) : PlanFragments :=
  let plan := ch_plan st in
  let plan := push_column_operation AddColumnPhase table AddColumn (ch_add_risk st) (u "新增字段") (ch_add st) plan in
  let plan := push_column_operation AlterColumnPhase table AlterColumn High (u "修改字段") (ch_alter st) plan in
  let plan := push_column_operation DropColumnPhase table DropColumn Destructive (u "删除字段") (ch_drop st) plan in
  let plan := push_column_operation AlterColumnPhase table UpdateComment Normal (u "更新字段注释") (ch_comment st) plan in
  if str_eqb (ht_comment source_metadata) (ht_comment target_metadata) then plan
  else
    operation AlterColumnPhase table UpdateComment Normal (u "更新表 " ++ table ++ u " 的注释")
      [alter_table database table ++ u " MODIFY COMMENT " ++ clickhouse_str (ht_comment source_metadata)] plan.
End Changes.

Section Plan.
Context (context : TablePlanContext).

Definition primary_key_members (table : TableSnapshot) : list str := sorted_unique (primary_key_columns table).
(** The metadata of both sides, or the plan that says why the tables cannot
    be planned for. *)
Definition comparable (source target : TableSnapshot) (plan : PlanFragments) :
    result (ClickHouseTableMeta * ClickHouseTableMeta) PlanFragments :=
  let refuse := block (ts_name source) (u "无法规划 ClickHouse 表同步") in
  let unless_safe := fun metadata table_name plan =>
    let plan := match validate_supported_native_definitions metadata table_name with Ok _ => plan | Err reason => refuse reason plan end in
    match safe_engine_clause metadata with Ok _ => plan | Err reason => refuse reason plan end in
  match table_metadata (cx_source_metadata context) (ts_name source), table_metadata (cx_target_metadata context) (ts_name target) with
  | Err reason, _ | Ok _, Err reason => Err (refuse reason plan)
  | Ok s, Ok t =>
    let plan := unless_safe t (ts_name target) (unless_safe s (ts_name source) plan) in
    if negb (is_empty (pf_blockers plan)) then Err plan
    else if negb (bool_decide (primary_key_members source = primary_key_members target))
            || negb (str_eqb (ht_primary_key s) (ht_primary_key t)) || negb (str_eqb (ht_sorting_key s) (ht_sorting_key t))
    then
      Err (block (ts_name source) (u "无法修改表 " ++ ts_name source ++ u " 的主键或排序键") (u "ClickHouse 首期不修改主键或排序键表达式") plan)
    else if negb (str_eqb (ht_engine s) (ht_engine t)) || negb (str_eqb (ht_engine_full s) (ht_engine_full t))
            || negb (str_eqb (ht_partition_key s) (ht_partition_key t)) || negb (str_eqb (ht_sampling_key s) (ht_sampling_key t))
            || negb (str_eqb (ht_table_ttl s) (ht_table_ttl t)) || negb (str_eqb (ht_settings s) (ht_settings t))
    then
      Err (block (ts_name source) (u "无法修改表 " ++ ts_name source ++ u " 的原生表定义")
             (u "ClickHouse 首期不修改引擎、分区键、排序键、主键、采样键、TTL 或表 settings") plan)
    else Ok (s, t)
  end.
Definition plan_changed_table (source target : TableSnapshot) (plan : PlanFragments) : PlanFragments :=
  match comparable source target plan with
  | Err plan => plan
  | Ok (s, t) =>
    let differences := compare_table_columns source target in
    let st := fold_left (plan_difference context s t source target) differences (mkChanges plan [] Normal [] [] []) in
    let st := fold_left (plan_native_difference context s t source target (map cd_name differences)) (ts_columns source) st in
    finish_changes context s t source st
  end.

Definition plan_table : PlanFragments :=
  match cx_source context, cx_target context with
  | Some source, None => plan_create_table context source no_fragments
  | None, Some target => plan_target_only_table context target no_fragments
  | Some source, Some target => plan_changed_table source target no_fragments
  | None, None => block [] (u "无法规划同步") (u "表在源端和目标端都不存在") no_fragments
  end.
End Plan.

End ClickHouseSync.
