(* ===== verification/ClickHouseFacts.v ===== *)
(** What the scanners and checks of a ClickHouse table guarantee: a quoted name
    is read back, whatever it contains, and an accepted engine's clause has no
    end of a statement in it. *)
From S2P Require Import Prelude OrderedMap RustText DataTypes SchemaCompare SyncTypes Ddl ClickHouseDialect ClickHouseSync.
Import SchemaCompare SyncTypes Ddl ClickHouseDialect ClickHouseSync.

Module ClickHouseFacts.

#[local] Opaque u.

(** ** Names *)

Definition doubled (name : str) : str := replace_char 96 [96; 96] (replace_char 92 [92; 92] name).
Lemma doubled_cons c name : doubled (c :: name) =
  (if c =? 92 then [92; 92] else if c =? 96 then [96; 96] else [c]) ++ doubled name.
Proof.
  unfold doubled, replace_char. cbn [map concat]. rewrite map_app, concat_app. f_equal.
  destruct (Z.eqb_spec c 92) as [->|N]; [done|]. cbn [map concat]. by destruct (Z.eqb_spec c 96).
Qed.
Lemma quoted_parsed name rest : match rest with c :: _ => c <> 96 | [] => True end ->
  quoted_identifier 96 (doubled name ++ 96 :: rest) = Ok (name, rest).
Proof.
  intros R. induction name as [|c name IH].
  - cbn. destruct rest as [|c rest]; [done|]. destruct (Z.eqb_spec c 96); [done|]. done.
  - rewrite doubled_cons. destruct (Z.eqb_spec c 92) as [->|N1]; [|destruct (Z.eqb_spec c 96) as [->|N2]].
    + cbn [app quoted_identifier]. change (92 =? 92) with true. cbn iota. rewrite IH. done.
    + cbn [app quoted_identifier]. change (96 =? 92) with false. change (96 =? 96) with true. cbn iota. by rewrite IH.
    + cbn [app quoted_identifier]. apply Z.eqb_neq in N1, N2. rewrite N1, N2. by rewrite IH.
Qed.
(** A name is read back from the text it is quoted as.  Whatever characters
    a column's name has, backticks and backslashes included, the scanner of
    column definitions reads the name that was quoted, and goes on after it. *)
Theorem identifier_parsed name rest : match rest with c :: _ => c <> 96 | [] => True end ->
  parse_leading_identifier (clickhouse_id name ++ rest) = Ok (Some (name, rest)).
Proof.
  intros R. unfold clickhouse_id, identifier. fold (doubled name). cbn [app]. unfold parse_leading_identifier, trim_start, trim_start_matches.
  cbn [drop_while]. change (is_whitespace 96) with false. cbn iota. change ((96 =? 96) || (96 =? 34)) with true. cbn iota.
  rewrite <- (assoc app). cbn [app]. by rewrite quoted_parsed.
Qed.
Lemma identifier_parsed_witness :
  parse_leading_identifier (clickhouse_id (u "a`b\n") ++ u " String") = Ok (Some (u "a`b\n", u " String")).
Proof. apply (identifier_parsed (u "a`b\n") (u " String")). vm_compute. discriminate. Defined.

(** ** Engines *)

(** A character that ends a statement or a text. *)
Definition harmless (s : str) : bool := negb (contains_char 59 s) && negb (contains_char 0 s).
Lemma harmless_app s t : harmless (s ++ t) = harmless s && harmless t.
Proof.
  unfold harmless, contains_char. rewrite !existsb_app, !negb_orb.
  destruct (existsb (Z.eqb 59) s), (existsb (Z.eqb 0) s), (existsb (Z.eqb 59) t), (existsb (Z.eqb 0) t); done.
Qed.
Lemma harmless_sub s t : (forall c, c ∈ t -> c ∈ s) -> harmless s = true -> harmless t = true.
Proof.
  unfold harmless, contains_char. rewrite !andb_true_iff, !negb_true_iff. intros Sub [H1 H2].
  split; apply not_true_is_false; intros (c & Hc & E)%existsb_exists; apply list_elem_of_In in Hc; apply Sub, list_elem_of_In in Hc.
  - apply (not_true_iff_false _) in H1. apply H1, existsb_exists. by exists c.
  - apply (not_true_iff_false _) in H2. apply H2, existsb_exists. by exists c.
Qed.
Lemma trim_elem s c : c ∈ trim s -> c ∈ s.
Proof. destruct (trim_split s) as (a & b & E & _). rewrite E at 2. rewrite !elem_of_app. tauto. Qed.
Lemma lower_elem c s : is_ascii_upper c = false -> c ∈ s -> c ∈ to_ascii_lowercase s.
Proof.
  intros N H. apply list_elem_of_fmap. exists c. split; [|done]. unfold ascii_lower. by rewrite N.
Qed.
Lemma safe_harmless value : unsafe_clause value = false -> harmless (trim value) = true.
Proof.
  unfold unsafe_clause. cbn zeta. intros [[[[H1 _]%orb_false_elim _]%orb_false_elim _]%orb_false_elim H2]%orb_false_elim.
  apply (harmless_sub value); [apply trim_elem|]. unfold harmless, contains_char in *. rewrite andb_true_iff, !negb_true_iff.
  split; apply not_true_is_false; intros (c & Hc & E)%existsb_exists; apply Z.eqb_eq in E as <-; apply list_elem_of_In in Hc.
  - apply (not_true_iff_false _) in H1. apply H1, existsb_exists. exists 59. split; [|done]. by apply list_elem_of_In, lower_elem.
  - apply (not_true_iff_false _) in H2. apply H2, existsb_exists. exists 0. split; [|done]. by apply list_elem_of_In, lower_elem.
Qed.
Lemma clause_harmless keyword value : unsafe_clause value = false -> harmless (u keyword) = true -> harmless (clause_text keyword value) = true.
Proof.
  intros H K. unfold clause_text. destruct (blank value); [done|]. by rewrite harmless_app, K, safe_harmless.
Qed.
Lemma known_harmless engine l : existsb (eq_ignore_ascii_case engine) l = true -> forallb harmless (map to_ascii_uppercase l) = true -> harmless engine = true.
Proof.
  intros (name & Hn & E)%existsb_exists F. unfold eq_ignore_ascii_case in E. apply str_eqb_eq in E.
  assert (G : harmless (to_ascii_uppercase name) = true) by (rewrite forallb_forall in F; by apply F, List.in_map).
  rewrite <- E in G. clear E Hn F. unfold harmless, contains_char in *. rewrite andb_true_iff, !negb_true_iff in *. destruct G as [G1 G2].
  assert (K : forall x, ascii_upper x = x -> x ∈ engine -> x ∈ to_ascii_uppercase engine) by (intros x X Hx; apply list_elem_of_fmap; by exists x).
  split; apply not_true_is_false; intros (c & Hc & E)%existsb_exists; apply Z.eqb_eq in E as <-; apply list_elem_of_In in Hc.
  - apply (not_true_iff_false _) in G1. apply G1, existsb_exists. exists 59. split; [|done]. by apply list_elem_of_In, K.
  - apply (not_true_iff_false _) in G2. apply G2, existsb_exists. exists 0. split; [|done]. by apply list_elem_of_In, K.
Qed.
(** An accepted clause names an engine of the lists and cannot end the
    statement it is put into. *)
Lemma engine_clause_safe metadata clause : safe_engine_clause metadata = Ok clause ->
  harmless clause = true /\
  exists engine rest, clause = engine ++ rest /\
    existsb (eq_ignore_ascii_case engine) (SAFE_PARAMETERLESS_MERGE_TREE_ENGINES ++ SAFE_PARAMETERLESS_LOCAL_ENGINES) = true.
Proof.
  unfold safe_engine_clause. cbn zeta. set (engine := trim (ht_engine metadata)).
  destruct (existsb _ SAFE_PARAMETERLESS_MERGE_TREE_ENGINES) eqn:M, (existsb _ SAFE_PARAMETERLESS_LOCAL_ENGINES) eqn:L; cbn [negb andb]; try discriminate.
  all: assert (He : harmless engine = true) by (first [eapply known_harmless; [exact M|vm_compute; reflexivity] | eapply known_harmless; [exact L|vm_compute; reflexivity]]).
  all: intros H; apply rbind_ok_inv in H as (remainder & _ & H).
  all: destruct (existsb unsafe_clause [_; _; _; _; _; _]) eqn:U; [by repeat match type of H with context [if ?b then Err _ else _] => destruct b; [discriminate|] end|].
  all: repeat match type of H with context [if ?b then Err _ else _] => destruct b; [discriminate|] end; injection H as <-.
  1, 3: split; [done|]; exists engine, []; rewrite app_nil_r, existsb_app, ?M, ?L, ?orb_true_r; done.
  cbn [existsb] in U.
  repeat match goal with X : _ || _ = false |- _ => apply orb_false_elim in X as [? X] end.
  split; [|eexists engine, _; split; [done|by rewrite existsb_app, M]].
  rewrite !harmless_app, He, safe_harmless by done. rewrite !clause_harmless by (first [done | vm_compute; reflexivity]).
  destruct (str_eqb _ _); [vm_compute; reflexivity|]. rewrite clause_harmless by (first [done | vm_compute; reflexivity]). vm_compute; reflexivity.
Qed.

End ClickHouseFacts.
