(* ===== verification/SchemaSync.v ===== *)
(** The preview of a schema synchronisation
    (src-tauri/src/db/schema_sync/mod.rs): the selection, the checks of the
    native metadata, the plans of the tables and what is made of them.

    The dialects' planners are behind [TablePlanners].  [sha256_hex] is sha2 with
    hex, [payload_vec] the serde_json encoding.  The [BTreeMap]s borrowed from the
    snapshots are collected lists; [binary_search] in the sorted selection is
    membership. *)
From S2P Require Import Prelude OrderedMap RustText DataTypes SchemaCompare SyncTypes SyncFacts SqliteSync.
Import DataTypes SchemaCompare SyncTypes SyncFacts.

Module SchemaSync.

#[local] Opaque u changed_fields.

Definition database_type_name (database_type : DatabaseType) : str :=
  match database_type with
  | MySql => u "MySQL" | Postgres => u "PostgreSQL" | Sqlite => u "SQLite" | SqlServer => u "SQL Server" | ClickHouse => u "ClickHouse"
  end.

(** ** Native metadata *)

Definition native_metadata_differs (database_type : DatabaseType) (source target : option TableSyncMetadata) : bool :=
  match database_type, source, target with
  | Sqlite, Some (SqliteTable s), Some (SqliteTable t) =>
    negb (bool_decide (lt_columns s = lt_columns t))
    || negb (bool_decide (SqliteSync.native_table_signature (lt_create_sql s) = SqliteSync.native_table_signature (lt_create_sql t)))
  | _, _, _ => negb (bool_decide (source = target))
  end.
Definition metadata_matches_database_type (database_type : DatabaseType) (metadata : TableSyncMetadata) : bool :=
  match database_type, metadata with
  | MySql, MySqlTable _ | Postgres, PostgresTable _ | Sqlite, SqliteTable _ | SqlServer, SqlServerTable _ | ClickHouse, ClickHouseTable _ => true
  | _, _ => false
  end.
Definition column_metadata_matches_database_type (database_type : DatabaseType) (metadata : ColumnSyncMetadata) : bool :=
  match database_type, metadata with
  | MySql, MySqlColumn _ _ | Postgres, Postgres_Column _ | Sqlite, SqliteColumn _ _ | SqlServer, SqlServer_Column _
  | ClickHouse, ClickHouse_Column _ => true
  | _, _ => false
  end.
Definition metadata_columns (metadata : TableSyncMetadata) : list (str * ColumnSyncMetadata) :=
  match metadata with
  | MySqlTable t => my_columns t | PostgresTable t => pt_columns t | SqliteTable t => lt_columns t
  | SqlServerTable t => vt_columns t | ClickHouseTable t => ht_columns t
  end.
Definition validate_table_metadata (database_type : DatabaseType) (endpoint : str) (p : str * TableSyncMetadata) : result unit str :=
  if negb (metadata_matches_database_type database_type p.2)
  then Err (endpoint ++ u "表 " ++ p.1 ++ u " 的原生元数据与 " ++ database_type_name database_type ++ u " 方言不兼容")
  else
    match find_first (fun c => negb (column_metadata_matches_database_type database_type c.2)) (metadata_columns p.2) with
    | Some c =>
      Err (endpoint ++ u "表 " ++ p.1 ++ u " 字段 " ++ c.1 ++ u " 的原生元数据与 " ++ database_type_name database_type ++ u " 方言不兼容")
    | None => Ok tt
    end.
Definition validate_snapshot_metadata (database_type : DatabaseType) (endpoint : str) (snapshot : SyncSchemaSnapshot) : result unit str :=
  check? traverse (validate_table_metadata database_type endpoint) (ss_metadata snapshot) in Ok tt.

Definition block_if (c : bool) (table_name summary reason : str) (plan : PlanFragments) : PlanFragments :=
  if c then block table_name summary reason plan else plan.
Definition block_unhandled_table_metadata_differences (database_type : DatabaseType) (table_name : str)
    (source target : option TableSyncMetadata) (plan : PlanFragments) : PlanFragments :=
  match database_type, source, target with
  | MySql, Some (MySqlTable s), Some (MySqlTable t) =>
    block_if (negb (str_eqb (my_comment s) (my_comment t))) table_name (u "无法同步表 " ++ table_name ++ u " 的表注释")
      (u "MySQL 表注释原生元数据差异未被当前方言计划器支持")
      (block_if (negb (str_eqb (my_engine s) (my_engine t))) table_name (u "无法同步表 " ++ table_name ++ u " 的存储引擎")
         (u "MySQL 存储引擎原生元数据差异未被当前方言计划器支持") plan)
  | Postgres, Some (PostgresTable s), Some (PostgresTable t) =>
    block_if (negb (str_eqb (pt_table_comment s) (pt_table_comment t))) table_name (u "无法同步表 " ++ table_name ++ u " 的表注释")
      (u "PostgreSQL 表注释原生元数据差异未被当前方言计划器支持") plan
  | _, _, _ => plan
  end.

(** ** The selection *)

Definition selected_name (value : str) : result str str := if blank value then Err (u "同步表名不能为空") else Ok value.
Definition normalize_selected_tables (values : list str) : result (list str) str :=
  let? names := traverse selected_name values in
  let tables := ordered_set names in
  if is_empty tables then Err (u "请至少选择一张差异表") else Ok tables.

(** ** From fragments to a preview *)

Definition operation_kind_key (kind : DatabaseSyncOperationKind) : str :=
  match kind with
  | CreateTable => u "create_table" | AddColumn => u "add_column" | AlterColumn => u "alter_column"
  | ReplacePrimaryKey => u "replace_primary_key" | DropColumn => u "drop_column" | DropTable => u "drop_table"
  | UpdateComment => u "update_comment"
  end.
Definition operation_risk_key (risk : DatabaseSyncRisk) : Z := match risk with Normal => 0 | High => 1 | Destructive => 2 end.
Definition is_drop (kind : DatabaseSyncOperationKind) : bool := match kind with DropColumn | DropTable => true | _ => false end.

(** The derived order of the phases is that of their declaration. *)
Definition operation_order : PendingOperation -> PendingOperation -> comparison :=
  cmp_then (cmp_on (fun o => phase_rank (po_phase o)) Z.compare)
  (cmp_then (cmp_on po_table_name str_cmp)
  (cmp_then (cmp_on (fun o => operation_kind_key (po_kind o)) str_cmp)
  (cmp_then (cmp_on po_summary str_cmp)
  (cmp_then (cmp_on (fun o => operation_risk_key (po_risk o)) Z.compare)
     (cmp_on po_sql (lex str_cmp)))))).
Definition note_order : SyncNote -> SyncNote -> comparison :=
  cmp_then (cmp_on no_table_name str_cmp) (cmp_then (cmp_on no_summary str_cmp) (cmp_on no_reason str_cmp)).

(** [retain_requested]: without the drops the operations that are none stay, and
    the others are reported as skipped. *)
Definition retain_requested (include_drops : bool) (fragments : PlanFragments) : PlanFragments :=
  if include_drops then fragments
  else
    mkFragments (List.filter (fun o => negb (is_drop (po_kind o))) (pf_operations fragments))
      (pf_skipped_items fragments
       ++ map (fun o => mkNote (po_table_name o) (po_summary o) (u "未开启包含删除操作"))
            (List.filter (fun o => is_drop (po_kind o)) (pf_operations fragments)))
      (pf_blockers fragments).

Definition TableOfRecord : Type := TableSnapshot * option TableSyncMetadata.
Record FingerprintPayload : Type := mkFingerprintPayload {
  fp_request : DatabaseSyncRequest;
  fp_source_tables : list (str * TableOfRecord);
  fp_target_tables : list (str * TableOfRecord);
  fp_operations : list DatabaseSyncOperation;
  fp_skipped_items : list DatabaseSyncSkippedItem;
  fp_blockers : list DatabaseSyncBlocker;
}.
Definition fingerprint_tables (snapshot : SyncSchemaSnapshot) (selected : list str) : list (str * TableOfRecord) :=
  BTree.collect str_cmp
    (map (fun t => (ts_name t, (mkSnapshot (ts_name t) (in_order t), BTree.get str_cmp (ts_name t) (ss_metadata snapshot))))
       (List.filter (fun t => bool_decide (ts_name t ∈ selected)) (ss_tables snapshot))).

(** [{:04}]: at least four digits. *)
Definition pad4 (n : Z) : str := let s := show_Z n in repeat 48 (4 - length s) ++ s.

Section Preview.
Context (plan_table : DatabaseType -> TablePlanContext -> PlanFragments).
Context (sha256_hex : bytes -> str) (payload_vec : FingerprintPayload -> result bytes str).

Definition operation_id (index : Z) (o : PendingOperation) : str :=
  let identity := show_Z (index + 1) ++ [0] ++ po_table_name o ++ [0] ++ operation_kind_key (po_kind o) in
  u "op-" ++ pad4 (index + 1) ++ u "-" ++ take 12 (sha256_hex (utf8 identity)).
Fixpoint number_operations (index : Z) (l : list PendingOperation) : list DatabaseSyncOperation :=
  match l with
  | [] => []
  | o :: l =>
    mkOperation (operation_id index o) (po_table_name o) (po_kind o) (po_summary o) (po_risk o) (po_sql o)
    :: number_operations (index + 1) l
  end.
Definition count_risk (risk : DatabaseSyncRisk) (l : list DatabaseSyncOperation) : Z :=
  zlen (List.filter (fun o => bool_decide (op_risk o = risk)) l).
Definition with_selection (request : DatabaseSyncRequest) (selected : list str) : DatabaseSyncRequest :=
  mkSyncRequest (sq_source request) (sq_target request) selected (sq_include_drops request).

Definition finalize_preview (request : DatabaseSyncRequest) (source target : SyncSchemaSnapshot) (fragments : PlanFragments) :
    result DatabaseSyncPreview str :=
  let? selected := normalize_selected_tables (sq_selected_tables request) in
  let fragments := retain_requested (sq_include_drops request) fragments in
  let operations := number_operations 0 (sort_by operation_order (pf_operations fragments)) in
  let skipped_items := sort_by note_order (pf_skipped_items fragments) in
  let blockers := sort_by note_order (pf_blockers fragments) in
  let summary :=
    mkPlanSummary (zlen selected) (zlen operations) (count_risk High operations) (count_risk Destructive operations)
      (zlen skipped_items) (zlen blockers) in
  let payload :=
    mkFingerprintPayload (with_selection request selected) (fingerprint_tables source selected) (fingerprint_tables target selected)
      operations skipped_items blockers in
  let? bytes := map_err (fun error => u "生成同步计划指纹失败: " ++ error) (payload_vec payload) in
  Ok (mkSyncPreview (sha256_hex bytes) summary operations skipped_items blockers
        (negb (is_empty operations) && is_empty blockers)).

(** ** The preview *)

Definition table_named (snapshot : SyncSchemaSnapshot) (name : str) : option TableSnapshot :=
  BTree.get str_cmp name (BTree.collect str_cmp (map (fun t => (ts_name t, t)) (ss_tables snapshot))).
Definition metadata_named (snapshot : SyncSchemaSnapshot) (name : str) : option TableSyncMetadata :=
  BTree.get str_cmp name (ss_metadata snapshot).
Definition public_difference (source target : option TableSnapshot) : bool :=
  match source, target with Some s, Some t => negb (is_empty (compare_table_columns s t)) | _, _ => true end.
Definition append (a b : PlanFragments) : PlanFragments :=
  mkFragments (pf_operations a ++ pf_operations b) (pf_skipped_items a ++ pf_skipped_items b) (pf_blockers a ++ pf_blockers b).

Definition table_context (request : DatabaseSyncRequest) (source target : SyncSchemaSnapshot) (table_name : str) : TablePlanContext :=
  mkContext (er_database (sq_target request)) (table_named source table_name) (table_named target table_name)
    (metadata_named source table_name) (metadata_named target table_name) (sq_include_drops request).
(** The plan of one selected table: the body of the loop. *)
Definition plan_selected (database_type : DatabaseType) (request : DatabaseSyncRequest) (source target : SyncSchemaSnapshot)
    (table_name : str) : result PlanFragments str :=
  let context := table_context request source target table_name in
  if negb (is_some (cx_source context)) && negb (is_some (cx_target context))
  then Err (u "所选表 " ++ table_name ++ u " 已不存在，请重新对比")
  else
    let public_difference := public_difference (cx_source context) (cx_target context) in
    let native_difference := native_metadata_differs database_type (cx_source_metadata context) (cx_target_metadata context) in
    if negb public_difference && negb native_difference
    then Err (u "所选表 " ++ table_name ++ u " 已不存在差异，请重新对比")
    else
      let table_plan := plan_table database_type context in
      let table_plan :=
        block_unhandled_table_metadata_differences database_type table_name (cx_source_metadata context) (cx_target_metadata context)
          table_plan in
      Ok (if negb public_difference && native_difference && is_empty (pf_operations table_plan)
             && is_empty (pf_skipped_items table_plan) && is_empty (pf_blockers table_plan)
          then
            block table_name (u "无法规划表 " ++ table_name ++ u " 的原生元数据变更")
              (database_type_name database_type ++ u " 方言未能安全表达检测到的原生元数据差异") table_plan
          else table_plan).

Definition build_database_sync_preview (database_type : DatabaseType) (request : DatabaseSyncRequest) (source target : SyncSchemaSnapshot) :
    result DatabaseSyncPreview str :=
  let? selected := normalize_selected_tables (sq_selected_tables request) in
  check? validate_snapshot_metadata database_type (u "源端") source in
  check? validate_snapshot_metadata database_type (u "目标端") target in
  let? plans := traverse (plan_selected database_type request source target) selected in
  finalize_preview request source target (fold_left append plans no_fragments).
End Preview.

(** ** What the planners of the dialects promise *)

Definition names_table (context : TablePlanContext) (n : str) : Prop :=
  (forall s, cx_source context = Some s -> ts_name s = n) /\ (forall t, cx_target context = Some t -> ts_name t = n).
(** An operation concerns the table of its context, has statements, and removes
    something only when drops are included. *)
Record lawful (context : TablePlanContext) (o : PendingOperation) : Prop := {
  lw_table n : names_table context n -> po_table_name o = n;
  lw_sql : po_sql o <> [];
  lw_drops : cx_include_drops context = false -> po_risk o <> Destructive /\ is_drop (po_kind o) = false;
}.
Class TablePlanner (plan : TablePlanContext -> PlanFragments) : Prop := {
  plan_lawful context : Forall (lawful context) (pf_operations (plan context));
}.
Class TablePlanners (plan_table : DatabaseType -> TablePlanContext -> PlanFragments) : Prop := {
  planners_lawful database_type : TablePlanner (plan_table database_type);
}.
#[export] Existing Instance planners_lawful.

(** ** Lawful plans, built up *)

Definition lawful_plan (context : TablePlanContext) (plan : PlanFragments) : Prop := Forall (lawful context) (pf_operations plan).
Lemma no_fragments_lawful context : lawful_plan context no_fragments.
Proof. constructor. Qed.
Lemma operation_lawful context phase n kind risk summary sql plan : lawful_plan context plan ->
  lawful context (mkPending phase n kind summary risk sql) -> lawful_plan context (operation phase n kind risk summary sql plan).
Proof. intros H L. apply list.Forall_app. by split; [|constructor]. Qed.
Lemma block_lawful context n s r plan : lawful_plan context plan -> lawful_plan context (block n s r plan).
Proof. done. Qed.
Lemma skip_lawful context n s r plan : lawful_plan context plan -> lawful_plan context (skip n s r plan).
Proof. done. Qed.
Lemma source_lawful context source phase kind risk summary sql : cx_source context = Some source -> sql <> [] ->
  (cx_include_drops context = false -> risk <> Destructive /\ is_drop kind = false) ->
  lawful context (mkPending phase (ts_name source) kind summary risk sql).
Proof. intros E S D. split; [|done..]. intros n [H _]. by apply H. Qed.
Lemma target_lawful context target phase kind risk summary sql : cx_target context = Some target -> sql <> [] ->
  (cx_include_drops context = false -> risk <> Destructive /\ is_drop kind = false) ->
  lawful context (mkPending phase (ts_name target) kind summary risk sql).
Proof. intros E S D. split; [|done..]. intros n [_ H]. by apply H. Qed.
Create HintDb lawful.
#[export] Hint Resolve no_fragments_lawful block_lawful skip_lawful : lawful.

(** ** The selection *)

Lemma ordered_set_elem l n : n ∈ ordered_set l <-> n ∈ l.
Proof. unfold ordered_set. by rewrite sort_by_elem, elem_of_remove_dups. Qed.
Lemma ordered_set_nodup l : NoDup (ordered_set l).
Proof. unfold ordered_set. rewrite sort_by_perm. apply NoDup_remove_dups. Qed.
Lemma normalize_ok values selected : normalize_selected_tables values = Ok selected ->
  selected = ordered_set values /\ (forall n, n ∈ selected <-> n ∈ values) /\ NoDup selected /\ selected <> [] /\ (forall n, n ∈ selected -> blank n = false).
Proof.
  unfold normalize_selected_tables. intros H. apply rbind_ok_inv in H as (names & T & H).
  assert (E : names = values /\ forall n, n ∈ values -> blank n = false).
  { apply traverse_ok_inv in T. clear H. induction T as [|x y l k Hx T [-> IH]]; [by split; [|intros n ?%elem_of_nil]|].
    unfold selected_name in Hx. destruct (blank x) eqn:B; [discriminate|]. injection Hx as <-. split; [done|].
    intros n [->|Hn]%elem_of_cons; [done|by apply IH]. }
  destruct E as [-> B]. destruct (is_empty (ordered_set values)) eqn:Em; [discriminate|]. injection H as <-.
  split; [done|]. split; [apply ordered_set_elem|]. split; [apply ordered_set_nodup|]. split; [by intros F; rewrite F in Em|].
  intros n Hn. apply B. by apply ordered_set_elem.
Qed.

(** ** Numbered operations *)

Section Facts.
Context (plan_table : DatabaseType -> TablePlanContext -> PlanFragments).
Context (sha256_hex : bytes -> str) (payload_vec : FingerprintPayload -> result bytes str).
Abbreviation number_operations := (number_operations sha256_hex).
Abbreviation build_database_sync_preview := (build_database_sync_preview plan_table sha256_hex payload_vec).

(** What an operation of a preview keeps of the pending one. *)
Definition shown (o : DatabaseSyncOperation) : str * DatabaseSyncOperationKind * str * DatabaseSyncRisk * list str :=
  (op_table_name o, op_kind o, op_summary o, op_risk o, op_sql o).
Definition pending (o : PendingOperation) : str * DatabaseSyncOperationKind * str * DatabaseSyncRisk * list str :=
  (po_table_name o, po_kind o, po_summary o, po_risk o, po_sql o).
Lemma number_shown i l : map shown (number_operations i l) = map pending l.
Proof. revert i. induction l as [|o l IH]; intros i; [done|]. cbn [map SchemaSync.number_operations]. by rewrite IH. Qed.
Lemma number_sql i l : map op_sql (number_operations i l) = map po_sql l.
Proof. revert i. induction l as [|o l IH]; intros i; [done|]. cbn [map SchemaSync.number_operations]. by rewrite IH. Qed.
Lemma number_length i l : length (number_operations i l) = length l.
Proof. revert i. induction l as [|o l IH]; intros i; [done|]. cbn. by rewrite IH. Qed.
Lemma number_elem i l o : o ∈ number_operations i l -> exists o', o' ∈ l /\ shown o = pending o'.
Proof.
  revert i. induction l as [|x l IH]; intros i; [by intros ?%elem_of_nil|]. intros [->|H]%elem_of_cons; [exists x; by split; [left|]|].
  destruct (IH _ H) as (o' & ? & ?). exists o'. by split; [right|].
Qed.

Lemma pad4_digits n : 0 <= n -> forallb is_ascii_digit (pad4 n) = true /\ digits_value (pad4 n) = n.
Proof.
  intros L. unfold pad4, show_Z. replace (n <? 0) with false by lia. destruct (show_nonneg_spec n L) as (V & A & _).
  rewrite forallb_app, A, digits_value_concat, V. generalize (4 - length (show_nonneg n))%nat as k. intros k.
  assert (D : forallb is_ascii_digit (repeat 48 k) = true /\ digits_value (repeat 48 k) = 0); [|destruct D as [-> ->]; split; [done|lia]].
  induction k as [|k [IH1 IH2]]; [done|]. cbn [repeat forallb]. rewrite IH1. split; [done|].
  change (48 :: repeat 48 k) with ([48] ++ repeat 48 k). by rewrite digits_value_concat, IH2.
Qed.
Lemma operation_id_index i j o o' : 0 <= i -> 0 <= j -> operation_id sha256_hex i o = operation_id sha256_hex j o' -> i = j.
Proof.
  intros Li Lj. unfold operation_id. intros E. apply (app_inv_head (u "op-")) in E.
  destruct (pad4_digits (i + 1)) as [Ai Vi]; [lia|]. destruct (pad4_digits (j + 1)) as [Aj Vj]; [lia|].
  replace (u "-") with [45] in E by (by vm_compute). cbn [app] in E. apply (f_equal (split_once 45)) in E.
  rewrite !split_once_app in E by (eapply digit_not_in; [|done]; done). injection E as E _. rewrite E in Vi. lia.
Qed.
Lemma number_ids i l : 0 <= i -> NoDup (map op_id (number_operations i l)).
Proof.
  assert (G : forall l i x, 0 <= i -> x ∈ map op_id (number_operations i l) -> exists j o, i <= j /\ x = operation_id sha256_hex j o).
  { clear. induction l as [|o l IH]; intros i x L; [by intros ?%elem_of_nil|]. cbn. intros [->|H]%elem_of_cons; [by exists i, o|].
    destruct (IH (i + 1) x) as (j & o' & ? & ?); [lia|done|]. exists j, o'. split; [lia|done]. }
  revert i. induction l as [|o l IH]; intros i L; [constructor|]. cbn. constructor; [|apply IH; lia].
  intros H. destruct (G l (i + 1) _ ltac:(lia) H) as (j & o' & Lj & E). apply operation_id_index in E; lia.
Qed.

(** ** The parts of a preview *)

Lemma append_operations plans acc : pf_operations (fold_left append plans acc) = pf_operations acc ++ concat (map pf_operations plans) /\
  pf_skipped_items (fold_left append plans acc) = pf_skipped_items acc ++ concat (map pf_skipped_items plans) /\
  pf_blockers (fold_left append plans acc) = pf_blockers acc ++ concat (map pf_blockers plans).
Proof.
  revert acc. induction plans as [|p plans IH]; intros acc; cbn [fold_left map concat]; [by rewrite !app_nil_r|].
  destruct (IH (append acc p)) as (-> & -> & ->). cbn. by rewrite !(assoc app).
Qed.

(** The fragments of all selected tables, as a preview is made of them. *)
Definition planned (plans : list PlanFragments) (include_drops : bool) : PlanFragments :=
  retain_requested include_drops (fold_left append plans no_fragments).
Record made_of (database_type : DatabaseType) (request : DatabaseSyncRequest) (source target : SyncSchemaSnapshot)
    (preview : DatabaseSyncPreview) (selected : list str) (plans : list PlanFragments) : Prop := {
  mo_selected : normalize_selected_tables (sq_selected_tables request) = Ok selected;
  mo_plans : Forall2 (fun n p => plan_selected plan_table database_type request source target n = Ok p) selected plans;
  mo_operations : pv_operations preview =
    number_operations 0 (sort_by operation_order (pf_operations (planned plans (sq_include_drops request))));
  mo_skipped_items : pv_skipped_items preview = sort_by note_order (pf_skipped_items (planned plans (sq_include_drops request)));
  mo_blockers : pv_blockers preview = sort_by note_order (pf_blockers (planned plans (sq_include_drops request)));
  mo_summary : pv_summary preview = mkPlanSummary (zlen selected) (zlen (pv_operations preview))
    (count_risk High (pv_operations preview)) (count_risk Destructive (pv_operations preview))
    (zlen (pv_skipped_items preview)) (zlen (pv_blockers preview));
  mo_can_execute : pv_can_execute preview = negb (is_empty (pv_operations preview)) && is_empty (pv_blockers preview);
  mo_fingerprint : exists bytes, payload_vec (mkFingerprintPayload (with_selection request selected)
      (fingerprint_tables source selected) (fingerprint_tables target selected) (pv_operations preview) (pv_skipped_items preview)
      (pv_blockers preview)) = Ok bytes /\ pv_plan_fingerprint preview = sha256_hex bytes;
}.
Lemma preview_made ty request source target preview :
  build_database_sync_preview ty request source target = Ok preview ->
  exists selected plans, made_of ty request source target preview selected plans.
Proof.
  unfold SchemaSync.build_database_sync_preview. intros H. apply rbind_ok_inv in H as (selected & S & H).
  apply rbind_ok_inv in H as (_ & _ & H). apply rbind_ok_inv in H as (_ & _ & H). apply rbind_ok_inv in H as (plans & P & H).
  unfold finalize_preview in H. rewrite S in H. cbn [rbind] in H. apply rbind_ok_inv in H as (bytes & B%map_err_ok_inv & H).
  injection H as <-. exists selected, plans. split; [done|by apply traverse_ok_inv|done..|]. by exists bytes.
Qed.
End Facts.

(** ** The plans of the selected tables *)

Lemma table_named_name snapshot n t : table_named snapshot n = Some t -> ts_name t = n /\ t ∈ ss_tables snapshot.
Proof.
  unfold table_named. intros H%(BTree.collect_in str_cmp). apply list_elem_of_fmap in H as (x & [= -> ->] & H). done.
Qed.
Lemma table_context_names request source target n : names_table (table_context request source target n) n.
Proof. split; intros s H; by apply table_named_name in H as [H _]. Qed.

Lemma block_if_blockers c n s r plan :
  pf_operations (block_if c n s r plan) = pf_operations plan /\ pf_skipped_items (block_if c n s r plan) = pf_skipped_items plan /\
  exists l, pf_blockers (block_if c n s r plan) = pf_blockers plan ++ l.
Proof. destruct c; (split; [done|]; split; [done|]); [by exists [mkNote n s r]|by exists []; rewrite app_nil_r]. Qed.
Lemma unhandled_blockers ty n s t plan :
  let plan' := block_unhandled_table_metadata_differences ty n s t plan in
  pf_operations plan' = pf_operations plan /\ pf_skipped_items plan' = pf_skipped_items plan /\
  exists l, pf_blockers plan' = pf_blockers plan ++ l.
Proof.
  assert (Same : pf_operations plan = pf_operations plan /\ pf_skipped_items plan = pf_skipped_items plan /\ exists l, pf_blockers plan = pf_blockers plan ++ l)
    by (split; [done|]; split; [done|]; by exists []; rewrite app_nil_r).
  cbn zeta. unfold block_unhandled_table_metadata_differences.
  destruct ty; try exact Same; destruct s as [[]|]; try exact Same; destruct t as [[]|]; try exact Same; [|apply block_if_blockers].
  edestruct block_if_blockers as (-> & -> & l & ->). edestruct block_if_blockers as (-> & -> & l' & ->). split; [done|]. split; [done|].
  exists (l' ++ l). by rewrite (assoc app).
Qed.
Lemma plan_selected_ok plan_table ty request source target n plan :
  plan_selected plan_table ty request source target n = Ok plan ->
  let context := table_context request source target n in
  pf_operations plan = pf_operations (plan_table ty context) /\ pf_skipped_items plan = pf_skipped_items (plan_table ty context) /\
  (exists l, pf_blockers plan = pf_blockers (plan_table ty context) ++ l) /\
  (cx_source context <> None \/ cx_target context <> None).
Proof.
  unfold plan_selected. intros H. cbn zeta in *. set (context := table_context request source target n) in *.
  assert (X : cx_source context <> None \/ cx_target context <> None).
  { destruct (cx_source context), (cx_target context); try (by left); try (by right). }
  destruct (negb _ && negb _) in H; [discriminate|]. destruct (negb _ && negb _) in H; [discriminate|].
  destruct (unhandled_blockers ty n (cx_source_metadata context) (cx_target_metadata context) (plan_table ty context)) as (E1 & E2 & l & E3).
  apply Ok_inj in H as <-. destruct (_ && is_empty (pf_blockers _)); cbn [block pf_operations pf_skipped_items pf_blockers];
    (split; [done|]; split; [done|]; split; [|done]).
  - eexists. by rewrite E3, <- (assoc app).
  - by exists l.
Qed.

Lemma retained plan include_drops o : o ∈ pf_operations (retain_requested include_drops plan) ->
  o ∈ pf_operations plan /\ (include_drops = false -> is_drop (po_kind o) = false).
Proof.
  destruct include_drops; cbn; [done|]. intros [H N]%list_elem_of_In%filter_In. apply list_elem_of_In in H. split; [done|].
  intros _. by apply negb_true_iff.
Qed.
Lemma retained_conv plan include_drops o : o ∈ pf_operations plan -> (include_drops = false -> is_drop (po_kind o) = false) ->
  o ∈ pf_operations (retain_requested include_drops plan).
Proof.
  destruct include_drops; cbn; [done|]. intros H N. apply list_elem_of_In, filter_In. split; [by apply list_elem_of_In|]. by rewrite N.
Qed.

(** The order of the operations is first that of their phases. *)
Lemma sorted_in_phases l : in_phases (sort_by operation_order l).
Proof.
  assert (S : StronglySorted (cmp_le operation_order) (sort_by operation_order l)) by (apply sort_by_sorted; unfold operation_order; apply _).
  unfold in_phases. induction S as [|o k S IH H]; [constructor|]. constructor; [done|].
  eapply list.Forall_impl; [exact H|]. intros o'. unfold cmp_le, operation_order, cmp_then, cmp_on.
  destruct (Z.compare_spec (phase_rank (po_phase o)) (phase_rank (po_phase o'))); intros N; [lia..|by destruct N].
Qed.

(** ** What a preview promises *)


End SchemaSync.
