(* ===== verification/SyncPlanners.v ===== *)
(** The promises of the planners: each plan concerns its own table, has
    statements in every operation, and removes something only on request. *)
From S2P Require Import Prelude OrderedMap RustText DataTypes SchemaCompare SyncTypes SyncFacts MysqlSync SqliteSync SchemaSync.
From S2P Require Import PostgresDdl PostgresSync PostgresConverge SqlServerDdl SqlServerSync ClickHouseSync.
Import DataTypes SchemaCompare SyncTypes SyncFacts SchemaSync.

Module SyncPlanners.

#[local] Opaque u changed_fields.

(** ** MySQL *)

Section Mysql.
Context (upper_char : char -> str) (context : TablePlanContext).
Abbreviation lawful_plan := (lawful_plan context).

Lemma mysql_create source : cx_source context = Some source ->
  lawful_plan (MysqlSync.plan_create_table upper_char context source no_fragments).
Proof.
  intros E. unfold MysqlSync.plan_create_table. destruct (MysqlSync.mysql_meta _) as [t|]; [|auto with lawful].
  destruct (is_empty (ts_columns source)); [auto with lawful|].
  destruct (if is_empty (my_engine t) then _ else _) as [[]|]; [|auto with lawful].
  assert (F : lawful_plan (fold_left (MysqlSync.define_column upper_char context source) (in_order source) (no_fragments, [])).1).
  { apply (fold_keeps (fun st => lawful_plan st.1)); [|auto with lawful]. intros st x L. unfold MysqlSync.define_column.
    by destruct (MysqlSync.source_column_definition _ _ _ _ _). }
  destruct (fold_left _ _ _) as [plan defs]. cbn [fst] in F.
  destruct (negb (is_empty (pf_blockers plan))); [done|].
  destruct (MysqlSync.mysql_primary_key_columns _ _); [|auto with lawful].
  apply operation_lawful; [done|]. by apply source_lawful.
Qed.

(** The plan so far, and a risk of the new columns that is not destruction. *)
Definition mysql_kept (st : MysqlSync.Changes) : Prop := lawful_plan (MysqlSync.ch_plan st) /\ MysqlSync.ch_add_risk st <> Destructive.
Lemma mysql_difference source blocked st d : cx_source context = Some source -> mysql_kept st ->
  mysql_kept (MysqlSync.plan_difference upper_char context source blocked st d).
Proof.
  intros E [L R]. unfold mysql_kept, MysqlSync.plan_difference. destruct (cd_status d).
  - destruct (cd_source d); [|done]. destruct (MysqlSync.source_column_definition _ _ _ _ _); [|done]. split; [done|].
    cbn. by destruct (add_column_risk _ _).
  - destruct (cx_include_drops context) eqn:D; [|done]. split; [|done]. apply operation_lawful; [done|].
    apply source_lawful; [done|done|]. by rewrite D.
  - destruct (bool_decide _); [done|]. destruct (cd_source d); [|done]. by destruct (MysqlSync.source_column_definition _ _ _ _ _).
Qed.
Lemma mysql_changed source target : cx_source context = Some source ->
  lawful_plan (MysqlSync.plan_changed_table upper_char context source target no_fragments).
Proof.
  intros E. unfold MysqlSync.plan_changed_table.
  set (g := fold_left _ (ts_columns source) _). set (st1 := fold_left _ (compare_table_columns source target) _).
  set (st := fold_left _ _ st1). assert (K : mysql_kept st).
  { apply (fold_keeps mysql_kept).
    - intros st' n H. unfold MysqlSync.plan_generation_change. destruct (_ || _); [done|]. destruct (MysqlSync.find_column _ _) as [[? ?]|]; [|done].
      by destruct (MysqlSync.source_column_definition _ _ _ _ _).
    - apply (fold_keeps mysql_kept); [by intros; apply mysql_difference|]. split; [|done].
      apply (fold_keeps (fun g => lawful_plan (MysqlSync.gn_plan g))); [|auto with lawful]. intros st' c H. unfold MysqlSync.compare_generated.
      by destruct (MysqlSync.generation_differs _ _ _ _) as [[]|]. }
  clearbody st. clear st1 g. destruct K as [L R].
  set (plan := if is_empty (MysqlSync.ch_add st) then _ else _). assert (P : lawful_plan plan).
  { unfold plan. destruct (MysqlSync.ch_add st) eqn:A; cbn [is_empty]; [done|]. apply operation_lawful; [done|]. by apply source_lawful. }
  clearbody plan. unfold MysqlSync.primary_keys_of.
  assert (M : forall plan, lawful_plan plan -> lawful_plan (let modify := map snd (sort_by MysqlSync.by_place (MysqlSync.ch_alter st)) in
    if is_empty modify then plan
    else operation AlterColumnPhase (ts_name source) AlterColumn High
        (u "修改表 " ++ ts_name source ++ u " 的 " ++ show_Z (zlen modify) ++ u " 个字段")
        (map (MysqlSync.render (cx_target_database context) (ts_name source)) modify) plan)).
  { intros p Hp. cbn zeta. destruct (map snd _) eqn:A; cbn [is_empty]; [done|]. apply operation_lawful; [done|]. by apply source_lawful. }
  destruct (MysqlSync.mysql_primary_key_columns source _) as [sk|]; [|apply M; auto with lawful].
  destruct (MysqlSync.mysql_primary_key_columns target _) as [tk|]; [|apply M; auto with lawful].
  destruct (bool_decide (sk = tk)) eqn:Ek; [by apply M|]. destruct (_ && _); [auto with lawful|].
  apply operation_lawful; [done|]. apply source_lawful; [done| |done]. apply bool_decide_eq_false in Ek.
  destruct sk, tk; [done|..]; cbn [is_empty app map]; [done| |done]. by destruct (map snd _).
Qed.
End Mysql.

#[export] Instance mysql_planner upper_char : TablePlanner (MysqlSync.plan_table upper_char).
Proof.
  split. intros context. change (lawful_plan context (MysqlSync.plan_table upper_char context)). unfold MysqlSync.plan_table.
  destruct (match _ with Some r => Some r | None => _ end) as [[? ?]|]; [auto with lawful|].
  destruct (cx_source context) as [s|] eqn:Es, (cx_target context) as [t|] eqn:Et.
  - by apply mysql_changed.
  - by apply mysql_create.
  - destruct (cx_include_drops context) eqn:D; [|auto with lawful]. apply operation_lawful; [auto with lawful|].
    apply target_lawful; [done|done|]. by rewrite D.
  - auto with lawful.
Qed.

(** ** SQLite *)

Section Sqlite.
Context (upper_char : char -> str) (context : TablePlanContext).
Abbreviation lawful_plan := (lawful_plan context).

Lemma sqlite_create source : cx_source context = Some source ->
  lawful_plan (SqliteSync.plan_create_table upper_char context source no_fragments).
Proof.
  intros E. unfold SqliteSync.plan_create_table. destruct (let? _ := _ in _) as [m|]; [|auto with lawful].
  destruct (is_empty (ts_columns source)); [auto with lawful|].
  assert (F : lawful_plan (fold_left (SqliteSync.push_definition m source) (in_order source) (no_fragments, [])).1).
  { apply (fold_keeps (fun st => lawful_plan st.1)); [|auto with lawful]. intros st x L. unfold SqliteSync.push_definition.
    by destruct (SqliteSync.define_column _ _ _). }
  destruct (fold_left _ _ _) as [plan defs]. cbn [fst] in F. destruct (negb (is_empty (pf_blockers plan))); [done|].
  destruct (SqliteSync.sqlite_primary_key_columns _ _); [|auto with lawful].
  destruct (SqliteSync.build_create_table_sql _ _ _); [|auto with lawful]. apply operation_lawful; [done|]. by apply source_lawful.
Qed.

(** Drops are collected only when they are included. *)
Record sqlite_kept (st : SqliteSync.Changes) : Prop := {
  sk_plan : lawful_plan (SqliteSync.ch_plan st);
  sk_risk : SqliteSync.ch_add_risk st <> Destructive;
  sk_drop : cx_include_drops context = false -> SqliteSync.ch_drop st = [];
}.
Lemma sqlite_difference m source p st d : sqlite_kept st -> sqlite_kept (SqliteSync.plan_difference upper_char context m source p st d).
Proof.
  intros [L R D]. unfold SqliteSync.plan_difference. destruct (cd_status d); [..|by constructor].
  - destruct (cd_source d); [|by constructor]. destruct (SqliteSync.append_column _ _ _ _ _ _ _); [|by constructor]. split; [done| |exact D].
    cbn. by destruct (add_column_risk _ _).
  - destruct (cx_include_drops context) eqn:I; (split; [done|done|]); [by rewrite I|exact (fun _ => D eq_refl)].
Qed.
Lemma sqlite_changed source target : cx_source context = Some source ->
  lawful_plan (SqliteSync.plan_changed_table upper_char context source target no_fragments).
Proof.
  intros E. unfold SqliteSync.plan_changed_table. destruct (SqliteSync.comparable _ _ _) as [m|[? ?]]; [|auto with lawful].
  set (st := fold_left _ _ _). assert (K : sqlite_kept st).
  { apply (fold_keeps sqlite_kept); [by intros; apply sqlite_difference|]. split; [auto with lawful|done|done]. }
  clearbody st. destruct K as [L R D]. destruct (negb _); [done|].
  assert (G : forall ns plan, (cx_include_drops context = false -> ns = []) -> lawful_plan plan ->
    lawful_plan (fold_left (SqliteSync.drop_column context source) ns plan)).
  { intros ns. induction ns as [|n ns IH]; intros plan N P; [done|]. destruct (cx_include_drops context) eqn:I; [|by discriminate N].
    apply IH; [done|]. apply operation_lawful; [done|]. apply source_lawful; [done|done|]. by rewrite I. }
  apply G; [intros I; by rewrite D|]. destruct (map snd _) eqn:A; cbn [is_empty]; [done|].
  apply operation_lawful; [done|]. by apply source_lawful.
Qed.
End Sqlite.

#[export] Instance sqlite_planner upper_char : TablePlanner (SqliteSync.plan_table upper_char).
Proof.
  split. intros context. change (lawful_plan context (SqliteSync.plan_table upper_char context)). unfold SqliteSync.plan_table.
  destruct (cx_source context) as [s|] eqn:Es, (cx_target context) as [t|] eqn:Et.
  - by apply sqlite_changed.
  - by apply sqlite_create.
  - unfold SqliteSync.plan_target_only_table. destruct (let? _ := _ in _); [|auto with lawful].
    destruct (cx_include_drops context) eqn:D; [|auto with lawful]. apply operation_lawful; [auto with lawful|].
    apply target_lawful; [done|done|]. by rewrite D.
  - auto with lawful.
Qed.

(** ** PostgreSQL *)

Section Postgres.
Context (upper_char : char -> str) (context : TablePlanContext).
Abbreviation lawful_plan := (lawful_plan context).

Lemma postgres_create source : cx_source context = Some source ->
  lawful_plan (PostgresSync.plan_create_table upper_char context source no_fragments).
Proof.
  intros E. unfold PostgresSync.plan_create_table. destruct (PostgresSync.table_metadata _ _) as [m|]; [|auto with lawful].
  destruct (str_eqb _ _); [auto with lawful|]. destruct (negb _); [auto with lawful|].
  assert (F : lawful_plan (fold_left (PostgresSync.push_definition upper_char m source) (in_order source) (no_fragments, [])).1).
  { apply (fold_keeps (fun st => lawful_plan st.1)); [|auto with lawful]. intros st x L. unfold PostgresSync.push_definition.
    by destruct (PostgresSync.define_column _ _ _ _). }
  destruct (fold_left _ _ _) as [plan defs]. cbn [fst] in F. destruct (negb (is_empty (pf_blockers plan))); [done|].
  destruct (let? _ := _ in _) as [[]|]; [|auto with lawful]. apply operation_lawful; [done|]. by apply source_lawful.
Qed.

Record postgres_kept (st : PostgresSync.Changes) : Prop := {
  pk_plan : lawful_plan (PostgresSync.ch_plan st);
  pk_risk : PostgresSync.ch_add_risk st <> Destructive;
  pk_drop : cx_include_drops context = false -> PostgresSync.ch_drop st = [];
}.
Lemma postgres_difference m source target blocked st d : postgres_kept st ->
  postgres_kept (PostgresSync.plan_difference upper_char context m source target blocked st d).
Proof.
  intros [L R D]. unfold PostgresSync.plan_difference. destruct (cd_status d), (cd_source d), (cd_target d); try by constructor.
  1, 2: destruct (PostgresSync.append_column _ _ _ _ _ _ _); [|by constructor]; split; [done| |exact D]; cbn; by destruct (add_column_risk _ _).
  1-4: destruct (cx_include_drops context) eqn:I; (split; [done|done|]); [by rewrite I|exact (fun _ => D eq_refl)].
  destruct (bool_decide _); [done|]. destruct (PostgresSync.change_column _ _ _ _ _ _ _ _) as [texts|]; [|by constructor].
  destruct (is_empty texts); by constructor.
Qed.
Lemma replaced_key m' source sk tk texts : sk <> tk -> (tk = [] <-> pt_primary_key_constraint m' = None) ->
  PostgresSync.replace_key context source m' sk tk texts <> [].
Proof.
  intros N K. unfold PostgresSync.replace_key, PostgresDdl.build_primary_key_change_sqls. rewrite bool_decide_false by congruence.
  destruct tk as [|k tk]; cbn [is_empty].
  - destruct sk; [done|]. cbn [is_empty]. destruct (pt_primary_key_constraint m'); by destruct texts.
  - by destruct (pt_primary_key_constraint m') as [name|]; [|destruct K as [_ K]; discriminate K].
Qed.
Lemma postgres_changed source target : cx_source context = Some source ->
  lawful_plan (PostgresSync.plan_changed_table upper_char context source target no_fragments).
Proof.
  intros E. unfold PostgresSync.plan_changed_table. destruct (PostgresSync.comparable _ _ _) as [[m m']|[? ?]]; [|auto with lawful].
  assert (F : lawful_plan (fold_left (PostgresSync.compare_common m m' source target) (ts_columns source) (no_fragments, [])).1).
  { apply (fold_keeps (fun st => lawful_plan st.1)); [|auto with lawful]. intros st x L. unfold PostgresSync.compare_common.
    destruct (find_first _ _) as [[? c]|]; [|done].
    destruct (PostgresSync.common_problem _ _ _ _ _ _ _) as [|[? ?]], (ordinal_position x.2 =? ordinal_position c); done. }
  destruct (fold_left _ _ _) as [plan blocked]. cbn [fst] in F.
  set (st := fold_left _ _ _). assert (K : postgres_kept st).
  { apply (fold_keeps postgres_kept); [by intros; apply postgres_difference|]. by split. }
  clearbody st. destruct K as [L R D]. destruct (negb _); [done|].
  destruct (PostgresSync.compare_keys _ _ _ _ _) as [[sk tk]|[? ?]] eqn:Ek; [|done].
  apply PostgresConverge.compare_keys_ok in Ek as (_ & _ & Kc). unfold PostgresSync.finish_changes.
  assert (G : forall ns plan, (cx_include_drops context = false -> ns = []) -> lawful_plan plan ->
    lawful_plan (fold_left (PostgresSync.drop_column context source) ns plan)).
  { intros ns. induction ns as [|n ns IH]; intros p N P; [done|]. destruct (cx_include_drops context) eqn:I; [|by discriminate N].
    apply IH; [done|]. apply operation_lawful; [done|]. apply source_lawful; [done|done|]. by rewrite I. }
  apply G; [intros I; by rewrite D|]. set (p := if is_empty _ then PostgresSync.ch_plan st else _). assert (P : lawful_plan p).
  { unfold p. destruct (PostgresSync.sorted_sql (PostgresSync.ch_add st)) eqn:A; cbn [is_empty]; [done|]. apply operation_lawful; [done|]. by apply source_lawful. }
  clearbody p. destruct (bool_decide (sk = tk)) eqn:Eb; cbn [negb].
  - destruct (PostgresSync.sorted_sql (PostgresSync.ch_alter st)) eqn:A; cbn [is_empty]; [done|]. apply operation_lawful; [done|]. by apply source_lawful.
  - apply bool_decide_eq_false in Eb. apply operation_lawful; [done|]. apply source_lawful; [done| |done]. by apply replaced_key.
Qed.
End Postgres.

#[export] Instance postgres_planner upper_char : TablePlanner (PostgresSync.plan_table upper_char).
Proof.
  split. intros context. change (lawful_plan context (PostgresSync.plan_table upper_char context)). unfold PostgresSync.plan_table.
  destruct (cx_source context) as [s|] eqn:Es, (cx_target context) as [t|] eqn:Et.
  - by apply postgres_changed.
  - by apply postgres_create.
  - destruct (cx_include_drops context) eqn:D; [|auto with lawful]. apply operation_lawful; [auto with lawful|].
    apply target_lawful; [done|done|]. by rewrite D.
  - auto with lawful.
Qed.

(** ** SQL Server *)

Section SqlServer.
Context (sha256_hex : bytes -> str) (context : TablePlanContext).
Abbreviation lawful_plan := (lawful_plan context).

Lemma sqlserver_create source : cx_source context = Some source ->
  lawful_plan (SqlServerSync.plan_create_table sha256_hex context source no_fragments).
Proof.
  intros E. unfold SqlServerSync.plan_create_table. destruct (SqlServerSync.plain_metadata _ _) as [m|]; [|auto with lawful].
  destruct (is_empty (ts_columns source)); [auto with lawful|].
  assert (F : lawful_plan (fold_left (SqlServerSync.push_definition m source) (in_order source) (no_fragments, [])).1).
  { apply (fold_keeps (fun st => lawful_plan st.1)); [|auto with lawful]. intros st x L. unfold SqlServerSync.push_definition.
    by destruct (SqlServerSync.define_column _ _ _). }
  destruct (fold_left _ _ _) as [plan defs]. cbn [fst] in F. destruct (negb (is_empty (pf_blockers plan))); [done|].
  destruct (let? _ := _ in _) as [[]|]; [|auto with lawful]. apply operation_lawful; [done|]. by apply source_lawful.
Qed.

Record sqlserver_kept (st : SqlServerSync.Changes) : Prop := {
  vk_plan : lawful_plan (SqlServerSync.ch_plan st);
  vk_risk : SqlServerSync.ch_add_risk st <> Destructive;
  vk_drop : cx_include_drops context = false -> SqlServerSync.ch_drop st = [];
}.
Lemma sqlserver_difference m source target blocked st d : sqlserver_kept st ->
  sqlserver_kept (SqlServerSync.plan_difference sha256_hex context m source target blocked st d).
Proof.
  intros [L R D]. unfold SqlServerSync.plan_difference. destruct (cd_status d), (cd_source d), (cd_target d); try by constructor.
  1, 2: destruct (SqlServerSync.append_column _ _ _ _ _ _); [|by constructor]; split; [done| |exact D]; cbn; by destruct (add_column_risk _ _).
  1-4: destruct (cx_include_drops context) eqn:I; (split; [done|done|]); [by rewrite I|exact (fun _ => D eq_refl)].
  destruct (bool_decide _); [done|]. destruct (SqlServerSync.change_column _ _ _ _ _ _ _ _) as [texts|]; [|by constructor].
  destruct (is_empty texts); by constructor.
Qed.
Lemma refuse_unless_lawful ok table name summary reason (st : PlanFragments * list str) :
  lawful_plan st.1 -> lawful_plan (SqlServerSync.refuse_unless ok table name summary reason st).1.
Proof. by destruct ok. Qed.
Lemma refuse_shape_lawful table name owner column native (st : PlanFragments * list str) :
  lawful_plan st.1 -> lawful_plan (SqlServerSync.refuse_shape table name owner column native st).1.
Proof. unfold SqlServerSync.refuse_shape. by destruct (SqlServerSync.validate_native_shape _ _ _ _). Qed.
Lemma sqlserver_common m m' source target st c : lawful_plan st.1 -> lawful_plan (SqlServerSync.compare_common m m' source target st c).1.
Proof.
  intros L. unfold SqlServerSync.compare_common. destruct (find_first _ _) as [[? t]|]; [|done].
  set (st1 := SqlServerSync.refuse_unless _ _ _ _ _ st). assert (L1 : lawful_plan st1.1) by by apply refuse_unless_lawful. clearbody st1.
  destruct (SqlServerSync.column_metadata m _ _); [|done]. destruct (SqlServerSync.column_metadata m' _ _); [|done].
  by repeat first [apply refuse_unless_lawful | apply refuse_shape_lawful].
Qed.
Lemma consistent_key_lawful source table m keys summary plan : lawful_plan plan ->
  lawful_plan (SqlServerSync.consistent_key source table m keys summary plan).
Proof. unfold SqlServerSync.consistent_key. by destruct (SqlServerSync.validate_primary_key_consistency _ _ _). Qed.
Lemma sqlserver_keys m source target m' changed plan : lawful_plan plan ->
  match SqlServerSync.compare_keys context m source target m' changed plan with Ok _ => True | Err plan => lawful_plan plan end.
Proof.
  intros L. unfold SqlServerSync.compare_keys. destruct (SqlServerSync.sqlserver_primary_key_columns source m) as [sk|]; [|done].
  destruct (SqlServerSync.sqlserver_primary_key_columns target m') as [tk|]; [|done].
  set (p := if _ && _ then _ else _). assert (P : lawful_plan p).
  { unfold p. destruct (_ && _); cbn; repeat apply consistent_key_lawful; done. }
  clearbody p. by destruct (negb (is_empty (pf_blockers p))).
Qed.
Lemma sqlserver_comparable source target plan : lawful_plan plan ->
  match SqlServerSync.comparable context source target plan with Ok _ => True | Err plan => lawful_plan plan end.
Proof.
  intros L. unfold SqlServerSync.comparable. destruct (SqlServerSync.table_metadata _ _) as [m|]; [|done].
  destruct (SqlServerSync.table_metadata (cx_target_metadata context) _) as [m'|]; [|done].
  destruct (SqlServerSync.validate_plain_table m _), (SqlServerSync.validate_plain_table m' _); cbn zeta;
    (destruct (negb (is_empty (pf_blockers _))); [|done]); done.
Qed.
Lemma sqlserver_changed source target : cx_source context = Some source ->
  lawful_plan (SqlServerSync.plan_changed_table sha256_hex context source target no_fragments).
Proof.
  intros E. unfold SqlServerSync.plan_changed_table. pose proof (sqlserver_comparable source target no_fragments ltac:(auto with lawful)) as C.
  destruct (SqlServerSync.comparable _ _ _ _) as [[m m']|]; [clear C|done].
  assert (F : lawful_plan (fold_left (SqlServerSync.compare_common m m' source target) (ts_columns source) (no_fragments, [])).1).
  { apply (fold_keeps (fun st => lawful_plan st.1)); [by intros; apply sqlserver_common|auto with lawful]. }
  destruct (fold_left _ _ _) as [plan blocked]. cbn [fst] in F.
  set (st := fold_left _ _ _). assert (K : sqlserver_kept st).
  { apply (fold_keeps sqlserver_kept); [by intros; apply sqlserver_difference|]. by split. }
  clearbody st. destruct K as [L R D]. destruct (negb _); [done|].
  pose proof (sqlserver_keys m source target m' (existsb SqlServerSync.key_definition_changed (compare_table_columns source target)) _ L) as Ck.
  destruct (SqlServerSync.compare_keys _ _ _ _ _ _ _) as [[sk tk]|]; [clear Ck|done]. unfold SqlServerSync.finish_changes.
  assert (G : forall ns plan, (cx_include_drops context = false -> ns = []) -> lawful_plan plan ->
    lawful_plan (fold_left (SqlServerSync.drop_column context source) ns plan)).
  { intros ns. induction ns as [|n ns IH]; intros p N P; [done|]. destruct (cx_include_drops context) eqn:I; [|by discriminate N].
    apply IH; [done|]. apply operation_lawful; [done|]. apply source_lawful; [done|done|]. by rewrite I. }
  apply G; [intros I; by rewrite D|]. clear G. set (p := if is_empty _ then SqlServerSync.ch_plan st else _). assert (P : lawful_plan p).
  { unfold p. destruct (SqlServerSync.sorted_sql (SqlServerSync.ch_add st)) eqn:A; cbn [is_empty]; [done|]. apply operation_lawful; [done|]. by apply source_lawful. }
  clearbody p. set (p2 := if negb _ || _ then _ else _). assert (P2 : lawful_plan p2).
  { unfold p2. destruct (negb _ || _); [apply operation_lawful; [done|]; by apply source_lawful|].
    destruct (SqlServerSync.sorted_sql (SqlServerSync.ch_alter st)) eqn:A; cbn [is_empty]; [done|]. apply operation_lawful; [done|]. by apply source_lawful. }
  clearbody p2. destruct (str_eqb _ _); [done|]. apply operation_lawful; [done|]. by apply source_lawful.
Qed.
End SqlServer.

#[export] Instance sqlserver_planner sha256_hex : TablePlanner (SqlServerSync.plan_table sha256_hex).
Proof.
  split. intros context. change (lawful_plan context (SqlServerSync.plan_table sha256_hex context)). unfold SqlServerSync.plan_table.
  destruct (cx_source context) as [s|] eqn:Es, (cx_target context) as [t|] eqn:Et.
  - by apply sqlserver_changed.
  - by apply sqlserver_create.
  - unfold SqlServerSync.plan_target_only_table. destruct (SqlServerSync.plain_metadata _ _); [|auto with lawful].
    destruct (cx_include_drops context) eqn:D; [|auto with lawful]. apply operation_lawful; [auto with lawful|].
    apply target_lawful; [done|done|]. by rewrite D.
  - auto with lawful.
Qed.

(** ** ClickHouse *)

Section ClickHouse.
Context (context : TablePlanContext).
Abbreviation lawful_plan := (lawful_plan context).

Lemma clickhouse_create source : cx_source context = Some source ->
  lawful_plan (ClickHouseSync.plan_create_table context source no_fragments).
Proof.
  intros E. unfold ClickHouseSync.plan_create_table. destruct (let? _ := _ in _) as [[m clause]|]; [|auto with lawful].
  assert (F : lawful_plan (fold_left (ClickHouseSync.push_definition m source) (in_order source) (no_fragments, [])).1).
  { apply (fold_keeps (fun st => lawful_plan st.1)); [|auto with lawful]. intros st x L. unfold ClickHouseSync.push_definition.
    by destruct (let? _ := _ in _). }
  destruct (fold_left _ _ _) as [plan defs]. cbn [fst] in F. destruct (negb (is_empty (pf_blockers plan))); [done|].
  apply operation_lawful; [done|]. by apply source_lawful.
Qed.

Record clickhouse_kept (st : ClickHouseSync.Changes) : Prop := {
  hk_plan : lawful_plan (ClickHouseSync.ch_plan st);
  hk_risk : ClickHouseSync.ch_add_risk st <> Destructive;
  hk_drop : cx_include_drops context = false -> ClickHouseSync.ch_drop st = [];
}.
Lemma clickhouse_modified source n c s t fields st : clickhouse_kept st ->
  clickhouse_kept (ClickHouseSync.plan_modified_column context source n c s t fields st).
Proof.
  intros K. pose proof K as [L R D]. unfold ClickHouseSync.plan_modified_column.
  destruct (negb (bool_decide _)); [by constructor|]. destruct (_ && ClickHouseSync.mentions _ _); [by constructor|].
  set (st1 := if ClickHouseSync.mentions _ _ then _ else st). assert (K1 : clickhouse_kept st1).
  { unfold st1. destruct (ClickHouseSync.mentions _ _); [by constructor|done]. }
  clearbody st1. destruct K1 as [L1 R1 D1]. cbn zeta. destruct (_ && bool_decide _); [done|].
  destruct (ClickHouseSync.removed_properties _ _ _ _) as [removed|]; [|by constructor].
  destruct (negb (ClickHouseSync.definition_changed _ _ _)); [by constructor|].
  destruct (ClickHouseSync.column_definition_for_modify _ _ _ _); by constructor.
Qed.
Lemma clickhouse_natives m m' source target summary n f st : (forall s t st, clickhouse_kept st -> clickhouse_kept (f s t st)) ->
  clickhouse_kept st -> clickhouse_kept (ClickHouseSync.with_natives m m' source target summary n f st).
Proof.
  intros F K. unfold ClickHouseSync.with_natives. destruct (let? _ := _ in _) as [[]|]; [by apply F|]. by destruct K.
Qed.
Lemma clickhouse_difference m m' source target st d : clickhouse_kept st ->
  clickhouse_kept (ClickHouseSync.plan_difference context m m' source target st d).
Proof.
  intros K. pose proof K as [L R D]. unfold ClickHouseSync.plan_difference. destruct (cd_status d), (cd_source d), (cd_target d); try done.
  1, 2: destruct (ClickHouseSync.add_column _ _ _ _ _); [|by constructor]; split; [done| |exact D]; cbn; by destruct (add_column_risk _ _).
  1, 2: destruct (cx_include_drops context) eqn:I; (split; [done|done|]); [by rewrite I|exact (fun _ => D eq_refl)].
  apply clickhouse_natives; [|done]. intros; by apply clickhouse_modified.
Qed.
Lemma clickhouse_native m m' source target handled st c : clickhouse_kept st ->
  clickhouse_kept (ClickHouseSync.plan_native_difference context m m' source target handled st c).
Proof.
  intros K. unfold ClickHouseSync.plan_native_difference. destruct (bool_decide _); [done|]. destruct (negb _); [done|].
  apply clickhouse_natives; [|done]. intros s t st' K'. destruct (bool_decide _); [done|]. by apply clickhouse_modified.
Qed.
Lemma clickhouse_pushed source phase kind risk verb statements plan : cx_source context = Some source ->
  (forall texts, texts <> [] -> lawful context (mkPending phase (ts_name source) kind (u "为目标端表 " ++ ts_name source ++ verb) risk texts)) ->
  lawful_plan plan -> lawful_plan (ClickHouseSync.push_column_operation phase (ts_name source) kind risk verb statements plan).
Proof.
  intros E H L. unfold ClickHouseSync.push_column_operation. destruct (is_empty statements) eqn:Em; [done|].
  apply operation_lawful; [done|]. apply H. intros N%List.map_eq_nil. apply (f_equal length) in N. rewrite sort_by_length in N. by destruct statements.
Qed.
Lemma clickhouse_comparable source target plan : lawful_plan plan ->
  match ClickHouseSync.comparable context source target plan with Ok _ => True | Err plan => lawful_plan plan end.
Proof.
  intros L. unfold ClickHouseSync.comparable. destruct (ClickHouseSync.table_metadata _ _) as [m|]; [|done].
  destruct (ClickHouseSync.table_metadata (cx_target_metadata context) _) as [m'|]; [|done].
  set (p := match ClickHouseSync.safe_engine_clause m' with Ok _ => _ | Err _ => _ end). assert (P : lawful_plan p).
  { unfold p. destruct (ClickHouseSync.safe_engine_clause m'), (ClickHouseSync.validate_supported_native_definitions m' _),
      (ClickHouseSync.safe_engine_clause m), (ClickHouseSync.validate_supported_native_definitions m _); done. }
  clearbody p. cbn zeta. destruct (negb (is_empty (pf_blockers p))); [done|]. destruct (_ || _ || _); [done|].
  by destruct (_ || _ || _ || _ || _ || _).
Qed.
Lemma clickhouse_changed source target : cx_source context = Some source ->
  lawful_plan (ClickHouseSync.plan_changed_table context source target no_fragments).
Proof.
  intros E. unfold ClickHouseSync.plan_changed_table. pose proof (clickhouse_comparable source target no_fragments ltac:(auto with lawful)) as C.
  destruct (ClickHouseSync.comparable _ _ _ _) as [[m m']|]; [clear C|done]. cbn zeta.
  set (st := fold_left (ClickHouseSync.plan_native_difference _ _ _ _ _ _) _ _). assert (K : clickhouse_kept st).
  { apply (fold_keeps clickhouse_kept); [by intros; apply clickhouse_native|].
    apply (fold_keeps clickhouse_kept); [by intros; apply clickhouse_difference|]. split; [auto with lawful|done|done]. }
  clearbody st. destruct K as [L R D]. unfold ClickHouseSync.finish_changes.
  set (p1 := ClickHouseSync.push_column_operation AddColumnPhase _ _ _ _ _ _).
  assert (P1 : lawful_plan p1) by (apply clickhouse_pushed; [done| |done]; intros; by apply source_lawful). clearbody p1.
  set (p2 := ClickHouseSync.push_column_operation AlterColumnPhase _ AlterColumn _ _ _ _).
  assert (P2 : lawful_plan p2) by (apply clickhouse_pushed; [done| |done]; intros; by apply source_lawful). clearbody p2.
  set (p3 := ClickHouseSync.push_column_operation DropColumnPhase _ _ _ _ _ _). assert (P3 : lawful_plan p3).
  { unfold p3. destruct (cx_include_drops context) eqn:I; [|by rewrite (D eq_refl)]. apply clickhouse_pushed; [done| |done].
    intros texts N. apply source_lawful; [done|done|]. by rewrite I. }
  clearbody p3. set (p4 := ClickHouseSync.push_column_operation AlterColumnPhase _ UpdateComment _ _ _ _).
  assert (P4 : lawful_plan p4) by (apply clickhouse_pushed; [done| |done]; intros; by apply source_lawful). clearbody p4.
  destruct (str_eqb _ _); [done|]. apply operation_lawful; [done|]. by apply source_lawful.
Qed.
End ClickHouse.

#[export] Instance clickhouse_planner : TablePlanner ClickHouseSync.plan_table.
Proof.
  split. intros context. change (lawful_plan context (ClickHouseSync.plan_table context)). unfold ClickHouseSync.plan_table.
  destruct (cx_source context) as [s|] eqn:Es, (cx_target context) as [t|] eqn:Et.
  - by apply clickhouse_changed.
  - by apply clickhouse_create.
  - unfold ClickHouseSync.plan_target_only_table. destruct (let? _ := _ in _); [|auto with lawful].
    destruct (cx_include_drops context) eqn:D; [|auto with lawful]. apply operation_lawful; [auto with lawful|].
    apply target_lawful; [done|done|]. by rewrite D.
  - auto with lawful.
Qed.

(** ** All dialects *)

(** The dispatch of [build_database_sync_preview]. *)
Definition dialect_plan (upper_char : char -> str) (sha256_hex : bytes -> str) (database_type : DatabaseType) :
    TablePlanContext -> PlanFragments :=
  match database_type with
  | MySql => MysqlSync.plan_table upper_char
  | Postgres => PostgresSync.plan_table upper_char
  | Sqlite => SqliteSync.plan_table upper_char
  | SqlServer => SqlServerSync.plan_table sha256_hex
  | ClickHouse => ClickHouseSync.plan_table
  end.
#[export] Instance dialect_planners upper_char sha256_hex : TablePlanners (dialect_plan upper_char sha256_hex).
Proof. split. intros []; cbn; apply _. Qed.

End SyncPlanners.
