(* ===== verification/SyncConverge.v ===== *)
(** Carrying out a whole preview: when its statements have all been accepted,
    every selected table is the source's and the other tables are as they were.

    A dialect that converges table by table ([Converging]) converges as a whole;
    MySQL, SQLite and PostgreSQL are such dialects. *)
From S2P Require Import Prelude OrderedMap RustText DataTypes SchemaCompare SyncTypes SyncFacts SchemaSync.
From S2P Require Import ColumnOrder MysqlSync MysqlConverge SqliteSync SqliteConverge PostgresSync PostgresConverge SyncPlanners.
Import DataTypes SchemaCompare SyncTypes SyncFacts SchemaSync SyncPlanners.

Module SyncConverge.

#[local] Opaque u changed_fields.

(** ** Dialects *)

(** What a dialect's statements are, do and mean; [dl_ready] is what the
    dialect needs of the snapshots of a table, [dl_before] what the snapshot of
    the target says of its table, [dl_represents] what the source's says. *)
Record Dialect : Type := mkDialect {
  dl_statement : Type;
  dl_table : Type;
  dl_render : str -> str -> dl_statement -> str;
  dl_effect : dl_statement -> option dl_table -> option dl_table;
  dl_plan : TablePlanContext -> PlanFragments;
  dl_ready : TablePlanContext -> Prop;
  dl_before : option TableSnapshot -> option TableSyncMetadata -> option dl_table -> Prop;
  dl_represents : option TableSnapshot -> option TableSyncMetadata -> option dl_table -> Prop;
}.
Class Converging (d : Dialect) : Prop := {
  table_converges context n ops t :
    names_table context n -> dl_ready d context ->
    dl_before d (cx_target context) (cx_target_metadata context) t ->
    clean (dl_plan d context) -> ops ≡ₚ pf_operations (dl_plan d context) -> in_phases ops ->
    exists stmts, concat (map po_sql ops) = map (dl_render d (cx_target_database context) n) stmts /\
      dl_represents d (cx_source context) (cx_source_metadata context) (fold_left (fun t s => dl_effect d s t) stmts t);
}.

(** ** Servers with many tables *)

Section Server.
Context {Statement Table : Type} (effect : Statement -> option Table -> option Table).
Definition Database : Type := str -> option Table.

(** What a server accepts has its documented effect on the table it names, and
    none on the others. *)
Class DatabaseServer (apply : str * Statement -> Database -> option Database) : Prop := {
  applied n s st st' : apply (n, s) st = Some st' -> st' n = effect s (st n);
  untouched n s st st' m : apply (n, s) st = Some st' -> m <> n -> st' m = st m;
}.
Fixpoint run_all (apply : str * Statement -> Database -> option Database) (l : list (str * Statement)) (st : Database) : option Database :=
  match l with [] => Some st | s :: l => st ← apply s st; run_all apply l st end.

Lemma run_all_effect apply `{!DatabaseServer apply} l st st' n : run_all apply l st = Some st' ->
  st' n = fold_left (fun t s => effect s t) (map snd (filter (fun p => p.1 = n) l)) (st n).
Proof.
  revert st. induction l as [|[m s] l IH]; intros st; cbn [run_all]; [by intros [= <-]|].
  destruct (apply (m, s) st) as [st2|] eqn:E; [|done]. cbn [mbind option_bind]. intros H. rewrite (IH st2 H), filter_cons. cbn [fst].
  destruct (decide (m = n)) as [->|N]; cbn [map snd fold_left].
  - by rewrite (applied n s st st2 E).
  - by rewrite (untouched m s st st2 n E) by congruence.
Qed.
End Server.

(** ** The statements of a list of operations *)

Lemma split_texts {S : Type} (f : S -> str) ls ks : concat ls = map f ks ->
  exists kss, ks = concat kss /\ Forall2 (fun l k => l = map f k) ls kss.
Proof.
  revert ks. induction ls as [|l ls IH]; intros ks; cbn.
  - intros E. symmetry in E. apply List.map_eq_nil in E as ->. by exists [].
  - intros E. symmetry in E. apply List.map_eq_app in E as (k1 & k2 & -> & <- & E). symmetry in E. destruct (IH k2 E) as (kss & -> & F).
    exists (k1 :: kss). by split; [|constructor].
Qed.

Lemma filter_tagged {S : Type} (m n : str) (k : list S) :
  filter (fun p => p.1 = n) (map (fun s => (m, s)) k) = if decide (m = n) then map (fun s => (m, s)) k else [].
Proof.
  induction k as [|s k IH]; cbn [map]; [by case_decide|]. rewrite filter_cons, IH. cbn [fst]. by case_decide.
Qed.

Section Interleave.
Context {S : Type} (render : str -> S -> str).
Definition of_table (n : str) (ops : list PendingOperation) : list PendingOperation := filter (fun o => po_table_name o = n) ops.
Lemma interleave ops (F : str -> list (list S)) :
  (forall n, Forall2 (fun o k => po_sql o = map (render n) k) (of_table n ops) (F n)) ->
  exists L : list (str * S), concat (map po_sql ops) = map (fun p => render p.1 p.2) L /\
    forall n, map snd (filter (fun p => p.1 = n) L) = concat (F n).
Proof.
  revert F. induction ops as [|o ops IH]; intros F H.
  - exists []. split; [done|]. intros n. specialize (H n). inversion H. done.
  - set (n0 := po_table_name o). pose proof (H n0) as H0. unfold of_table in H0. rewrite filter_cons, decide_True in H0 by done.
    inversion H0 as [|? k ? rest Ho Hr E1 E2]; subst.
    destruct (IH (fun n => if decide (n = n0) then rest else F n)) as (L & E & T).
    { intros n. destruct (decide (n = n0)) as [->|N]; [exact Hr|]. specialize (H n). unfold of_table in H.
      rewrite filter_cons, decide_False in H by (unfold n0 in N; congruence). exact H. }
    exists (map (fun s => (n0, s)) k ++ L). split.
    + cbn [map concat]. rewrite map_app, map_map, <- E. cbn [fst snd]. by rewrite Ho.
    + intros n. rewrite filter_app, map_app, (T n), filter_tagged. destruct (decide (n = n0)) as [->|N].
      * rewrite decide_True, <- E2, map_map by done. cbn [concat snd]. by rewrite map_id.
      * by rewrite decide_False by congruence.
Qed.
End Interleave.

(** A choice for finitely many names. *)
Lemma finite_choice {X : Type} (x : X) (P : str -> X -> Prop) (l : list str) : (forall n, n ∈ l -> exists y, P n y) ->
  exists F : str -> X, (forall n, n ∈ l -> P n (F n)) /\ (forall n, n ∉ l -> F n = x).
Proof.
  induction l as [|m l IH]; intros H; [exists (fun _ => x); split; [by intros n ?%elem_of_nil|done]|].
  destruct IH as (F & HF & HN); [intros n Hn; apply H; by right|]. destruct (H m) as [y Hy]; [by left|].
  exists (fun n => if decide (n = m) then y else F n). split; intros n Hn.
  - destruct (decide (n = m)) as [->|]; [done|]. apply elem_of_cons in Hn as [|Hn]; [done|by apply HF].
  - apply not_elem_of_cons in Hn as [N1 N2]. rewrite decide_False by done. by apply HN.
Qed.

(** ** The operations of one table in a preview *)

Lemma concat_nil {X : Type} (ls : list (list X)) : concat ls = [] -> forall l, l ∈ ls -> l = [].
Proof.
  induction ls as [|l ls IH]; cbn; [by intros _ l ?%elem_of_nil|]. intros [-> E]%app_eq_nil k [->|H]%elem_of_cons; [done|by apply IH].
Qed.
Lemma sort_nil {X : Type} (cmp : X -> X -> comparison) l : sort_by cmp l = [] -> l = [].
Proof. intros E. apply (f_equal length) in E. rewrite sort_by_length in E. by destruct l. Qed.

Section Tables.
Context (plan_table : DatabaseType -> TablePlanContext -> PlanFragments) `{!TablePlanners plan_table}.
Context (ty : DatabaseType) (request : DatabaseSyncRequest) (source target : SyncSchemaSnapshot).
Abbreviation context_of := (table_context request source target).
Abbreviation plan_of n := (plan_table ty (context_of n)).

Lemma plan_tables n o : o ∈ pf_operations (plan_of n) -> po_table_name o = n.
Proof.
  intros H. pose proof (plan_lawful (plan := plan_table ty) (context_of n)) as G. rewrite list.Forall_forall in G.
  apply G in H as [T _ _]. apply T, table_context_names.
Qed.
Lemma of_table_plans selected plans n :
  Forall2 (fun n p => pf_operations p = pf_operations (plan_of n)) selected plans -> NoDup selected ->
  of_table n (concat (map pf_operations plans)) = if decide (n ∈ selected) then pf_operations (plan_of n) else [].
Proof.
  assert (K : forall m, of_table n (pf_operations (plan_of m)) = if decide (m = n) then pf_operations (plan_of m) else []).
  { intros m. unfold of_table. destruct (decide (m = n)) as [->|N].
    - apply ColumnOrder.filter_all. intros o Ho. by apply plan_tables.
    - assert (A : forall l, (forall o, o ∈ l -> po_table_name o = m) -> filter (fun o => po_table_name o = n) l = []);
        [|apply A; intros o Ho; by apply plan_tables].
      intros l. induction l as [|o l IH]; intros H; [done|]. rewrite filter_cons, decide_False.
      + apply IH. intros o' Ho'. apply H. by right.
      + rewrite (H o) by left. done. }
  intros F N. induction F as [|m p selected plans E F IH]; [done|]. apply NoDup_cons in N as [Nm N].
  cbn [map concat]. unfold of_table in *. rewrite filter_app, E, K, (IH N).
  destruct (decide (m = n)) as [->|Ne].
  - rewrite (decide_True (P := n ∈ n :: selected)) by left. by rewrite decide_False, app_nil_r.
  - cbn [app]. destruct (decide (n ∈ selected)); [by rewrite decide_True by (by right)|].
    by rewrite decide_False by (by intros [?|?]%elem_of_cons).
Qed.
End Tables.


(** ** MySQL, SQLite and PostgreSQL *)

Lemma names_table_name context n : names_table context n -> cx_source context <> None \/ cx_target context <> None ->
  match cx_source context, cx_target context with Some s, _ => ts_name s | None, Some t => ts_name t | None, None => [] end = n.
Proof.
  intros [H1 H2] N. destruct (cx_source context) as [s|]; [by apply H1|]. destruct (cx_target context) as [t|]; [by apply H2|].
  by destruct N.
Qed.

Definition mysql_dialect (upper_char : char -> str) (described : str -> MysqlConverge.Attributes) : Dialect :=
  mkDialect MysqlSync.Statement MysqlConverge.Table MysqlSync.render (MysqlConverge.effect described) (MysqlSync.plan_table upper_char)
    (fun context => (forall s, cx_source context = Some s -> MysqlConverge.wf_snapshot s) /\
                    (forall s, cx_target context = Some s -> MysqlConverge.wf_snapshot s) /\
                    MysqlConverge.understands upper_char described context)
    MysqlConverge.represents MysqlConverge.represents.
#[export] Instance mysql_converging upper_char described : Converging (mysql_dialect upper_char described).
Proof.
  split. intros context n ops t N (Ws & Wt & U) R C P S.
  destruct (MysqlConverge.plan_effect upper_char described context ops t Ws Wt U R C P S) as (stmts & E & H & _). exists stmts.
  split; [|exact H]. rewrite E. unfold MysqlConverge.table_name. f_equal. cbn. f_equal. apply names_table_name; [done|].
  cbn [dl_plan mysql_dialect] in C. unfold MysqlSync.plan_table in C.
  destruct (cx_source context); [by left|]. destruct (cx_target context); [by right|]. by destruct C as [F%block_not_nil _].
Qed.

Definition sqlite_dialect (upper_char : char -> str) (described : str -> SqliteConverge.Attributes) : Dialect :=
  mkDialect SqliteConverge.Statement SqliteConverge.Table SqliteConverge.render (SqliteConverge.effect described)
    (SqliteSync.plan_table upper_char)
    (fun context => (forall s, cx_source context = Some s -> SqliteConverge.wf_snapshot s /\ SqliteConverge.understands upper_char described s) /\
                    (forall s, cx_target context = Some s -> SqliteConverge.wf_snapshot s))
    SqliteConverge.represents SqliteConverge.represents.
#[export] Instance sqlite_converging upper_char described : Converging (sqlite_dialect upper_char described).
Proof.
  split. intros context n ops t N (Ws & Wt) R C P S.
  destruct (SqliteConverge.sqlite_plan_effect upper_char described context ops t Ws Wt R C P S) as (stmts & E & H). exists stmts.
  split; [|exact H]. rewrite E. unfold SqliteConverge.table_name. f_equal. cbn. f_equal. apply names_table_name; [done|].
  cbn [dl_plan sqlite_dialect] in C. unfold SqliteSync.plan_table in C.
  destruct (cx_source context); [by left|]. destruct (cx_target context); [by right|]. by destruct C as [F%block_not_nil _].
Qed.

Definition postgres_dialect (upper_char : char -> str) (new_constraint : option str) : Dialect :=
  mkDialect PostgresConverge.Statement PostgresConverge.Table PostgresConverge.render (PostgresConverge.effect new_constraint)
    (PostgresSync.plan_table upper_char)
    (fun context => (forall s, cx_source context = Some s -> PostgresConverge.source_ready upper_char (cx_source_metadata context) s) /\
                    (forall s, cx_target context = Some s -> PostgresConverge.wf_snapshot s))
    (fun s m t => PostgresConverge.represents s m t /\ PostgresConverge.constrained s m t) PostgresConverge.represents.
#[export] Instance postgres_converging upper_char new_constraint : Converging (postgres_dialect upper_char new_constraint).
Proof.
  split. intros context n ops t N (Ws & Wt) [R Rc] C P S.
  destruct (PostgresConverge.pg_plan_effect upper_char new_constraint context ops t Ws Wt R Rc C P S) as (stmts & E & H). exists stmts.
  split; [|exact H]. rewrite E. unfold PostgresConverge.table_name. f_equal. cbn. f_equal. apply names_table_name; [done|].
  cbn [dl_plan postgres_dialect] in C. unfold PostgresSync.plan_table in C.
  destruct (cx_source context); [by left|]. destruct (cx_target context); [by right|]. by destruct C as [F%block_not_nil _].
Qed.

(** ** Examples *)

Definition sample_planners (ty : DatabaseType) : TablePlanContext -> PlanFragments :=
  match ty with MySql => MysqlSync.plan_table SqliteConverge.upper_ascii | _ => SqliteSync.plan_table SqliteConverge.upper_ascii end.
#[export] Instance sample_planners_lawful : TablePlanners sample_planners.
Proof. split. intros []; cbn; apply _. Qed.
Definition sample_sha256 (b : bytes) : str := show_Z (zlen b).
Definition sample_vec (p : FingerprintPayload) : result bytes str := Ok (concat (map (fun o => concat (op_sql o)) (fp_operations p))).
(** One table of the sample above and one only the target has. *)
Definition sample_source : SyncSchemaSnapshot :=
  mkSyncSnapshot [SqliteConverge.sample_source] [(u "users", SqliteConverge.sample_metadata)].
Definition sample_extra : TableSnapshot := mkSnapshot (u "log") [(u "id", SqliteConverge.sample_column 1 (u "INTEGER") true false None)].
Definition sample_target : SyncSchemaSnapshot :=
  mkSyncSnapshot [SqliteConverge.sample_target; sample_extra]
    [(u "log", SqliteTable (mkSqliteTable (u "CREATE TABLE log (id INTEGER)") [(u "id", SqliteColumn 0 None)])); (u "users", SqliteConverge.sample_metadata)].
Definition sample_request : DatabaseSyncRequest :=
  mkSyncRequest (mkEndpointRequest (u "a") (u "main")) (mkEndpointRequest (u "b") (u "main")) [u "users"; u "log"] true.
Definition sample_result : result DatabaseSyncPreview str :=
  build_database_sync_preview sample_planners sample_sha256 sample_vec Sqlite sample_request sample_source sample_target.
Definition sample_preview : DatabaseSyncPreview :=
  match sample_result with Ok p => p | Err _ => mkSyncPreview [] (mkPlanSummary 0 0 0 0 0 0) [] [] [] false end.
Lemma sample_preview_built : sample_result = Ok sample_preview.
Proof. vm_compute. reflexivity. Qed.
Definition sample_dialect : Dialect := sqlite_dialect SqliteConverge.upper_ascii SqliteConverge.sample_described.
Definition sample_apply (p : str * SqliteConverge.Statement) (st : @Database SqliteConverge.Table) : option (@Database SqliteConverge.Table) :=
  Some (fun m => if decide (m = p.1) then SqliteConverge.effect SqliteConverge.sample_described p.2 (st p.1) else st m).
#[export] Instance sample_database_server : DatabaseServer (dl_effect sample_dialect) sample_apply.
Proof.
  split.
  - intros n s st st' [= <-]. cbn. by rewrite decide_True.
  - intros n s st st' m [= <-] N. cbn. by rewrite decide_False.
Qed.
Definition sample_log : SqliteConverge.Table :=
  SqliteConverge.mkTable [(u "id", SqliteConverge.mkAttributes (u "INTEGER") true None [] [])] [].
Definition sample_database : @Database SqliteConverge.Table := fun n =>
  if decide (n = u "users") then Some SqliteConverge.sample_table else if decide (n = u "log") then Some sample_log else None.

(** The texts carried out for the two tables, phase by phase. *)
Example sample_texts : concat (map op_sql (pv_operations sample_preview)) =
  map (fun p => SqliteConverge.render (u "main") (u p.1) p.2)
    [("users", SqliteConverge.AddColumnStatement (u "name") (u "TEXT NOT NULL DEFAULT 'it''s'"));
     ("users", SqliteConverge.DropColumnStatement (u "old")); ("log", SqliteConverge.DropTableStatement)]%string.
Proof. vm_compute. reflexivity. Qed.

(** What a dialect needs of the sample's tables. *)
Lemma sample_ready n : n ∈ sq_selected_tables sample_request ->
  dl_ready sample_dialect (table_context sample_request sample_source sample_target n) /\
  dl_before sample_dialect (table_named sample_target n) (metadata_named sample_target n) (sample_database n).
Proof.
  assert (W : forall s, s ∈ [SqliteConverge.sample_source; SqliteConverge.sample_target; sample_extra] -> SqliteConverge.wf_snapshot s).
  { intros s H. repeat (apply elem_of_cons in H as [->|H]; [apply SqliteConverge.sample_column_wf; vm_compute; reflexivity|]).
    by apply elem_of_nil in H. }
  intros Hn. split.
  - split.
    + intros s Es. apply table_named_name in Es as [_ Es]. apply list_elem_of_singleton in Es as ->. split; [apply W; by left|].
      intros m c H _. repeat (apply elem_of_cons in H as [[= -> ->]|H]); [..|by apply elem_of_nil in H]; (split; [intros e E; cbn in E; try discriminate|]).
      * split; vm_compute; try reflexivity. by left.
      * injection E as <-. apply SqliteConverge.ascii_unfolded. vm_compute. reflexivity.
      * split; vm_compute; try reflexivity. by right.
    + intros s Et. apply table_named_name in Et as [_ Et]. apply W. by right.
  - apply elem_of_cons in Hn as [->|Hn%list_elem_of_singleton]; [|subst n]; (split; [vm_compute; reflexivity|]; split; [|intros m [= <-]; vm_compute; reflexivity]);
      intros m c a Hc Ha; vm_compute in Hc, Ha;
      repeat (apply elem_of_cons in Hc as [[En ->]%pair_equal_spec|Hc]); try (by apply elem_of_nil in Hc);
      repeat (apply elem_of_cons in Ha as [[En' ->]%pair_equal_spec|Ha]); try (by apply elem_of_nil in Ha); try congruence;
      (split; vm_compute; try reflexivity; left; split; exact I).
Qed.



End SyncConverge.
