(* ===== verification/DatabaseSync.v ===== *)
(** The commands that compare and synchronise two saved connections
    (src-tauri/src/commands/database_compare.rs and database_sync.rs, with the
    types of models/types.rs).

    What lies outside -- the saved connections, opening and closing them, the
    catalogue queries, the statements, the clock, the events for the window and
    the cache of table metadata -- is an [Outside] over an environment, and every
    call is recorded in the [World] with its answer.  [tokio::join!] polls the
    source's side first; the two sides are different connections, so the order
    is only visible in the record. *)
From S2P Require Import Prelude OrderedMap RustText DataTypes SchemaCompare SyncTypes SyncFacts SchemaSync Connections.
Import DataTypes SchemaCompare SyncTypes SyncFacts SchemaSync.
Import Connections (ConnectionConfig, cc_id, cc_name, cc_database_type, cc_read_only, find_saved_connection, validate_endpoint_configs,
  validate_sync_target, redact_error_text, cleanup_error, merge_operation_and_cleanup, merge_single_operation_and_cleanup).

Module DatabaseSync.

#[local] Opaque u changed_fields.

(** ** Requests, progress and results *)

Record ExecuteDatabaseSyncRequest : Type := mkExecute { ex_request : DatabaseSyncRequest; ex_plan_fingerprint : str }.
Inductive DatabaseSyncProgressPhase : Type := Validating | Executing | Refreshing.
Record DatabaseSyncProgress : Type := mkProgress {
  pg_plan_fingerprint : str; pg_phase : DatabaseSyncProgressPhase; pg_current : Z; pg_total : Z }.
Record DatabaseSyncStatementSuccess : Type := mkSuccess { su_operation_id : str; su_statement_index : Z }.
Record DatabaseSyncFailure : Type := mkFailure { fl_operation_id : str; fl_statement_index : Z; fl_error : str }.
Inductive DatabaseSyncExecutionStatus : Type := Succeeded | PartiallySucceeded | Failed.
Record DatabaseSyncExecutionResult : Type := mkExecution {
  er_status : DatabaseSyncExecutionStatus;
  er_completed_statements : list DatabaseSyncStatementSuccess;
  er_failed : option DatabaseSyncFailure;
  er_pending_operation_ids : list str;
  er_cleanup_errors : list str;
  er_latest_compare_result : option DatabaseCompareResult;
}.

(** ** What lies outside *)

Section Commands.
Context {Conn E : Type}.

Inductive Call : Type :=
| LoadedSaved (answer : result (list ConnectionConfig) str)
| Opened (config : ConnectionConfig) (answer : result Conn str)
| Closed (c : Conn)
| ListedDatabases (c : Conn)
| LoadedTables (c : Conn) (database : str)
| LoadedSchema (c : Conn) (database : str) (answer : result SyncSchemaSnapshot str)
| Executed (c : Conn) (sql : str) (answer : result unit str)
| Emitted (progress : DatabaseSyncProgress)
| AskedClock
| AskedConnections (saved_connection_id : str) (connections : list str)
| Invalidated (connection database : str).

(** [os_connections] is the manager's [connection_ids_for_saved]. *)
Record Outside : Type := mkOutside {
  os_saved : E -> result (list ConnectionConfig) str * E;
  os_open : ConnectionConfig -> E -> result Conn str * E;
  os_close : Conn -> E -> result unit str * E;
  os_list_databases : Conn -> E -> result (list str) str * E;
  os_load_tables : Conn -> str -> E -> result (list TableSnapshot) str * E;
  os_load_schema : Conn -> str -> E -> result SyncSchemaSnapshot str * E;
  os_execute : Conn -> str -> E -> result unit str * E;
  os_now : E -> result str str * E;
  os_connections : str -> E -> list str * E;
}.
Record World : Type := mkWorld { wd_env : E; wd_calls : list Call }.
Definition Act (A : Type) : Type := World -> A * World.
Definition ret {A} (a : A) : Act A := fun w => (a, w).
Definition bind {A B} (m : Act A) (k : A -> Act B) : Act B := fun w => let '(a, w) := m w in k a w.
Definition record (c : Call) : Act unit := fun w => (tt, mkWorld (wd_env w) (wd_calls w ++ [c])).
Definition call {A} (f : E -> A * E) (c : A -> Call) : Act A := fun w =>
  let '(a, e) := f (wd_env w) in (a, mkWorld e (wd_calls w ++ [c a])).
#[local] Notation "'run' x ':=' m 'in' k" := (bind m (fun x => k)) (at level 10, x pattern, m at level 100, k at level 200).
(** [?] on an action that can fail. *)
Definition bind_ok {A B} (m : Act (result A str)) (k : A -> Act (result B str)) : Act (result B str) :=
  run r := m in match r with Ok a => k a | Err e => ret (Err e) end.
#[local] Notation "'try' x ':=' m 'in' k" := (bind_ok m (fun x => k)) (at level 10, x pattern, m at level 100, k at level 200).

Context (outside : Outside).
Definition load_saved_connections_internal : Act (result (list ConnectionConfig) str) := call (os_saved outside) LoadedSaved.
Definition open (config : ConnectionConfig) : Act (result Conn str) := call (os_open outside config) (Opened config).
Definition close (c : Conn) : Act (result unit str) := call (os_close outside c) (fun _ => Closed c).
Definition list_databases_for_compare (c : Conn) : Act (result (list str) str) := call (os_list_databases outside c) (fun _ => ListedDatabases c).
Definition load_schema_snapshot (c : Conn) (database : str) : Act (result (list TableSnapshot) str) :=
  call (os_load_tables outside c database) (fun _ => LoadedTables c database).
Definition load_sync_schema_snapshot (c : Conn) (database : str) : Act (result SyncSchemaSnapshot str) :=
  call (os_load_schema outside c database) (LoadedSchema c database).
Definition execute_sync_statement (c : Conn) (sql : str) : Act (result unit str) := call (os_execute outside c sql) (Executed c sql).
Definition generate_compared_at : Act (result str str) :=
  run r := call (os_now outside) (fun _ => AskedClock) in ret (map_err (fun _ => u "生成对比时间失败") r).
Definition emit_database_sync_progress (plan_fingerprint : str) (phase : DatabaseSyncProgressPhase) (current total : Z) : Act unit :=
  record (Emitted (mkProgress plan_fingerprint phase current total)).

(** ** Executing operations *)

(** The statements of one operation from [index] on: what is completed, and the
    failure that stopped it. *)
Fixpoint execute_statements (execute : str -> Act (result unit str)) (on_progress : Z -> Z -> Act unit) (total : Z) (operation_id : str)
    (index : Z) (sql : list str) (completed : list DatabaseSyncStatementSuccess) :
    Act (list DatabaseSyncStatementSuccess * option DatabaseSyncFailure) :=
  match sql with
  | [] => ret (completed, None)
  | s :: sql =>
    run r := execute s in
    match r with
    | Err error => ret (completed, Some (mkFailure operation_id index error))
    | Ok _ =>
      let completed := completed ++ [mkSuccess operation_id index] in
      run _ := on_progress (zlen completed) total in
      execute_statements execute on_progress total operation_id (index + 1) sql completed
    end
  end.
Fixpoint execute_operations (execute : str -> Act (result unit str)) (on_progress : Z -> Z -> Act unit) (total : Z)
    (operations : list DatabaseSyncOperation) (completed : list DatabaseSyncStatementSuccess) : Act DatabaseSyncExecutionResult :=
  match operations with
  | [] => ret (mkExecution Succeeded completed None [] [] None)
  | o :: operations =>
    run (completed, failed) := execute_statements execute on_progress total (op_id o) 0 (op_sql o) completed in
    match failed with
    | Some failure =>
      ret (mkExecution (if is_empty completed then Failed else PartiallySucceeded) completed (Some failure)
             (map op_id operations) [] None)
    | None => execute_operations execute on_progress total operations completed
    end
  end.
Definition statement_count (operations : list DatabaseSyncOperation) : Z := zlen (concat (map op_sql operations)).
Definition execute_operations_with_progress (operations : list DatabaseSyncOperation) (execute : str -> Act (result unit str))
    (on_progress : Z -> Z -> Act unit) : Act DatabaseSyncExecutionResult :=
  let total := statement_count operations in
  run _ := on_progress 0 total in
  execute_operations execute on_progress total operations [].

(** ** Checks *)

Definition validate_plan_fingerprint (confirmed current : str) : result unit str :=
  if str_eqb confirmed current then Ok tt else Err (u "数据库结构已变化，请重新对比并预览同步计划").
Definition destroys (o : DatabaseSyncOperation) : bool := bool_decide (op_risk o = Destructive) || is_drop (op_kind o).
Definition validate_executable_preview (preview : DatabaseSyncPreview) (include_drops : bool) : result unit str :=
  if negb (is_empty (pv_blockers preview)) then Err (u "同步计划包含阻塞项，不能执行")
  else if is_empty (pv_operations preview) then Err (u "同步计划没有可执行操作")
  else if negb (pv_can_execute preview) || existsb (fun o => is_empty (op_sql o)) (pv_operations preview)
  then Err (u "同步计划包含不可执行操作")
  else if negb include_drops && existsb destroys (pv_operations preview)
  then Err (u "同步计划包含删除操作，但请求未开启包含删除操作")
  else Ok tt.

Definition resolve_sync_configs (saved : list ConnectionConfig) (request : DatabaseSyncRequest) :
    result (ConnectionConfig * ConnectionConfig) str :=
  let? source := find_saved_connection saved (er_saved_connection_id (sq_source request)) (u "源端") in
  let? target := find_saved_connection saved (er_saved_connection_id (sq_target request)) (u "目标端") in
  check? validate_endpoint_configs source target in
  check? validate_sync_target target in
  Ok (source, target).
Definition normalize_sync_request (request : DatabaseSyncRequest) : result DatabaseSyncRequest str :=
  let? selected := normalize_selected_tables (sq_selected_tables request) in Ok (with_selection request selected).

Definition selected_database_error (side connection_name database error : str) : str :=
  side ++ u "连接「" ++ connection_name ++ u "」读取数据库/schema「" ++ database ++ u "」失败: " ++ error.
Definition missing_database (side connection_name database : str) : str :=
  side ++ u "连接「" ++ connection_name ++ u "」中的数据库/schema「" ++ database ++ u "」不存在".
Definition validate_selected_database (side connection_name selected_database : str) (databases : list str) : result unit str :=
  if bool_decide (selected_database ∈ databases) then Ok tt else Err (missing_database side connection_name selected_database).
Definition combine_endpoint_results {S T : Type} (source : result S str) (target : result T str) : result (S * T) str :=
  match source, target with
  | Ok s, Ok t => Ok (s, t)
  | Err e, Ok _ => Err e
  | Ok _, Err e => Err e
  | Err e, Err e' => Err (e ++ u "；" ++ e')
  end.
Definition temporary_connection_error (side name error : str) : str :=
  side ++ u "连接「" ++ name ++ u "」建立临时连接失败: " ++ error.

(** ** Temporary connections *)

(** Both connections, or the answer when one or both cannot be opened. *)
Definition open_both {T : Type} (source_config target_config : ConnectionConfig) (source_name target_name : str) :
    Act (result (Conn * Conn) (result T str)) :=
  run source_open := open source_config in
  run target_open := open target_config in
  match source_open, target_open with
  | Ok source, Ok target => ret (Ok (source, target))
  | Ok source, Err error =>
    let operation := Err (temporary_connection_error (u "目标端") target_name error) in
    run cleanup := close source in
    ret (Err (merge_single_operation_and_cleanup operation (u "源端") cleanup))
  | Err error, Ok target =>
    let operation := Err (temporary_connection_error (u "源端") source_name error) in
    run cleanup := close target in
    ret (Err (merge_single_operation_and_cleanup operation (u "目标端") cleanup))
  | Err source_error, Err target_error =>
    ret (Err (Err (temporary_connection_error (u "源端") source_name source_error ++ u "；"
                   ++ temporary_connection_error (u "目标端") target_name target_error)))
  end.
Definition with_both {T : Type} (merge : result T str -> result unit str -> result unit str -> result T str)
    (source_config target_config : ConnectionConfig) (source_name target_name : str) (operation : Conn -> Conn -> Act (result T str)) :
    Act (result T str) :=
  run opened := open_both source_config target_config source_name target_name in
  match opened with
  | Err answer => ret answer
  | Ok (source, target) =>
    run answer := operation source target in
    run source_cleanup := close source in
    run target_cleanup := close target in
    ret (merge answer source_cleanup target_cleanup)
  end.
Definition with_temporary_connections {T : Type} := with_both (T := T) merge_operation_and_cleanup.
Definition merge_execution_and_cleanup (operation : result DatabaseSyncExecutionResult str) (source_cleanup target_cleanup : result unit str) :
    result DatabaseSyncExecutionResult str :=
  match operation with
  | Ok r =>
    Ok (mkExecution (er_status r) (er_completed_statements r) (er_failed r) (er_pending_operation_ids r)
          (er_cleanup_errors r ++ cleanup_error (u "源端") source_cleanup ++ cleanup_error (u "目标端") target_cleanup)
          (er_latest_compare_result r))
  | Err error => merge_operation_and_cleanup (Err error) source_cleanup target_cleanup
  end.
Definition with_temporary_execution_connections := with_both merge_execution_and_cleanup.

(** ** Previews *)

(** The planners of the dialects, and the hash and encoding of fingerprints. *)
Context (plan_table : DatabaseType -> TablePlanContext -> PlanFragments).
Context (sha256_hex : bytes -> str) (payload_vec : FingerprintPayload -> result bytes str).
Abbreviation build_database_sync_preview := (build_database_sync_preview plan_table sha256_hex payload_vec).

Definition selected_error {A : Type} (side connection_name database : str) (r : result A str) : result A str :=
  map_err (selected_database_error side connection_name database) r.
Definition build_preview_with_loaders (database_type : DatabaseType) (source_name target_name : str) (source target : Conn)
    (request : DatabaseSyncRequest) : Act (result DatabaseSyncPreview str) :=
  let source_database := er_database (sq_source request) in
  let target_database := er_database (sq_target request) in
  run source_databases := list_databases_for_compare source in
  run target_databases := list_databases_for_compare target in
  match combine_endpoint_results (selected_error (u "源端") source_name source_database source_databases)
          (selected_error (u "目标端") target_name target_database target_databases) with
  | Err error => ret (Err error)
  | Ok (source_databases, target_databases) =>
    match combine_endpoint_results (validate_selected_database (u "源端") source_name source_database source_databases)
            (validate_selected_database (u "目标端") target_name target_database target_databases) with
    | Err error => ret (Err error)
    | Ok _ =>
      run source_snapshot := load_sync_schema_snapshot source source_database in
      run target_snapshot := load_sync_schema_snapshot target target_database in
      match combine_endpoint_results (selected_error (u "源端") source_name source_database source_snapshot)
              (selected_error (u "目标端") target_name target_database target_snapshot) with
      | Err error => ret (Err error)
      | Ok (source_snapshot, target_snapshot) => ret (build_database_sync_preview database_type request source_snapshot target_snapshot)
      end
    end
  end.

(** A computation that may fail inside an action. *)
Definition lift {A : Type} (r : result A str) : Act (result A str) := ret r.
Definition preview_database_sync_with_saved (saved : list ConnectionConfig) (request : DatabaseSyncRequest) :
    Act (result DatabaseSyncPreview str) :=
  try (source_config, target_config) := lift (resolve_sync_configs saved request) in
  try request := lift (normalize_sync_request request) in
  with_temporary_connections source_config target_config (cc_name source_config) (cc_name target_config) (fun source target =>
    build_preview_with_loaders (cc_database_type source_config) (cc_name source_config) (cc_name target_config) source target request).

(** ** Executions *)

Definition compare_endpoint (endpoint : DatabaseCompareEndpointRequest) (connection_name : str) : CompareEndpointInfo :=
  mkEndpointInfo (er_saved_connection_id endpoint) connection_name (er_database endpoint).
Definition with_failed (failed : option DatabaseSyncFailure) (r : DatabaseSyncExecutionResult) : DatabaseSyncExecutionResult :=
  mkExecution (er_status r) (er_completed_statements r) failed (er_pending_operation_ids r) (er_cleanup_errors r) (er_latest_compare_result r).
Definition with_cleanup_errors (errors : list str) (r : DatabaseSyncExecutionResult) : DatabaseSyncExecutionResult :=
  mkExecution (er_status r) (er_completed_statements r) (er_failed r) (er_pending_operation_ids r) errors (er_latest_compare_result r).
Definition with_compare_result (c : DatabaseCompareResult) (r : DatabaseSyncExecutionResult) : DatabaseSyncExecutionResult :=
  mkExecution (er_status r) (er_completed_statements r) (er_failed r) (er_pending_operation_ids r) (er_cleanup_errors r) (Some c).
Definition add_execution_failure_context (operations : list DatabaseSyncOperation) (target_name : str) (request : DatabaseSyncRequest)
    (r : DatabaseSyncExecutionResult) : DatabaseSyncExecutionResult :=
  match er_failed r with
  | None => r
  | Some failed =>
    match find_first (fun o => str_eqb (op_id o) (fl_operation_id failed)) operations with
    | None => r
    | Some o =>
      with_failed (Some (mkFailure (fl_operation_id failed) (fl_statement_index failed)
        (u "目标端连接「" ++ target_name ++ u "」数据库/schema「" ++ er_database (sq_target request) ++ u "」执行同步操作「" ++ op_summary o
         ++ u "」（表「" ++ op_table_name o ++ u "」）失败: " ++ fl_error failed))) r
    end
  end.
Definition refresh_failed (error : str) (r : DatabaseSyncExecutionResult) : DatabaseSyncExecutionResult :=
  with_cleanup_errors (er_cleanup_errors r ++ [u "同步 DDL 已完成，但重新对比失败: " ++ error]) r.
Definition succeeded (status : DatabaseSyncExecutionStatus) : bool := match status with Succeeded => true | _ => false end.

Definition refresh_comparison (database_type : DatabaseType) (source_name target_name : str) (source target : Conn)
    (request : DatabaseSyncRequest) (r : DatabaseSyncExecutionResult) : Act DatabaseSyncExecutionResult :=
  run source_snapshot := load_sync_schema_snapshot source (er_database (sq_source request)) in
  run target_snapshot := load_sync_schema_snapshot target (er_database (sq_target request)) in
  match combine_endpoint_results (selected_error (u "源端") source_name (er_database (sq_source request)) source_snapshot)
          (selected_error (u "目标端") target_name (er_database (sq_target request)) target_snapshot) with
  | Ok (source_snapshot, target_snapshot) =>
    run compared_at := generate_compared_at in
    match compared_at with
    | Ok compared_at =>
      ret (with_compare_result
        (compare_schema_snapshots database_type (compare_endpoint (sq_source request) source_name)
           (compare_endpoint (sq_target request) target_name) compared_at (ss_tables source_snapshot) (ss_tables target_snapshot)) r)
    | Err error => ret (refresh_failed error r)
    end
  | Err error => ret (refresh_failed error r)
  end.
Definition execute_database_sync_on_pools (database_type : DatabaseType) (source_name target_name : str) (source target : Conn)
    (request : DatabaseSyncRequest) (confirmed_fingerprint : str) : Act (result DatabaseSyncExecutionResult str) :=
  try preview := build_preview_with_loaders database_type source_name target_name source target request in
  try _ := lift (validate_plan_fingerprint confirmed_fingerprint (pv_plan_fingerprint preview)) in
  try _ := lift (validate_executable_preview preview (sq_include_drops request)) in
  run r := execute_operations_with_progress (pv_operations preview) (execute_sync_statement target)
             (emit_database_sync_progress confirmed_fingerprint Executing) in
  let r := add_execution_failure_context (pv_operations preview) target_name request r in
  if negb (succeeded (er_status r)) then ret (Ok r)
  else
    let total := zlen (er_completed_statements r) in
    run _ := emit_database_sync_progress confirmed_fingerprint Refreshing total total in
    run r := refresh_comparison database_type source_name target_name source target request r in
    ret (Ok r).
Definition execute_database_sync_with_saved (saved : list ConnectionConfig) (input : ExecuteDatabaseSyncRequest) :
    Act (result DatabaseSyncExecutionResult str) :=
  try (source_config, target_config) := lift (resolve_sync_configs saved (ex_request input)) in
  try request := lift (normalize_sync_request (ex_request input)) in
  with_temporary_execution_connections source_config target_config (cc_name source_config) (cc_name target_config) (fun source target =>
    execute_database_sync_on_pools (cc_database_type source_config) (cc_name source_config) (cc_name target_config) source target
      request (ex_plan_fingerprint input)).

(** ** Commands *)

Definition redact_result {A : Type} (r : result A str) (saved : list ConnectionConfig) : result A str :=
  map_err (fun error => redact_error_text error saved) r.
Definition redact_failure (saved : list ConnectionConfig) (f : DatabaseSyncFailure) : DatabaseSyncFailure :=
  mkFailure (fl_operation_id f) (fl_statement_index f) (redact_error_text (fl_error f) saved).
Definition redact_execution_result (r : result DatabaseSyncExecutionResult str) (saved : list ConnectionConfig) :
    result DatabaseSyncExecutionResult str :=
  match r with
  | Ok r =>
    Ok (with_cleanup_errors (map (fun error => redact_error_text error saved) (er_cleanup_errors r))
          (with_failed (redact_failure saved <$> er_failed r) r))
  | Err error => Err (redact_error_text error saved)
  end.

Definition preview_database_sync (request : DatabaseSyncRequest) : Act (result DatabaseSyncPreview str) :=
  run loaded := load_saved_connections_internal in
  match loaded with
  | Err error => ret (Err (redact_error_text error []))
  | Ok saved => run r := preview_database_sync_with_saved saved request in ret (redact_result r saved)
  end.
Definition execute_database_sync_command_with_loader (input : ExecuteDatabaseSyncRequest) : Act (result DatabaseSyncExecutionResult str) :=
  run _ := emit_database_sync_progress (ex_plan_fingerprint input) Validating 0 0 in
  run loaded := load_saved_connections_internal in
  match loaded with
  | Err error => ret (Err (redact_error_text error []))
  | Ok saved => run r := execute_database_sync_with_saved saved input in ret (redact_execution_result r saved)
  end.
Fixpoint invalidate_all (connections : list str) (database : str) : Act unit :=
  match connections with
  | [] => ret tt
  | c :: connections => run _ := record (Invalidated c database) in invalidate_all connections database
  end.
Definition changed_something (r : result DatabaseSyncExecutionResult str) : bool :=
  match r with Ok r => negb (is_empty (er_completed_statements r)) | Err _ => false end.
Definition execute_database_sync (input : ExecuteDatabaseSyncRequest) : Act (result DatabaseSyncExecutionResult str) :=
  run r := execute_database_sync_command_with_loader input in
  if changed_something r
  then
    let target := sq_target (ex_request input) in
    run connections := call (os_connections outside (er_saved_connection_id target)) (AskedConnections (er_saved_connection_id target)) in
    run _ := invalidate_all connections (er_database target) in
    ret r
  else ret r.

(** ** Comparing *)

Definition load_selected_snapshot (side connection_name : str) (c : Conn) (database : str) : Act (result (list TableSnapshot) str) :=
  run listed := list_databases_for_compare c in
  match listed with
  | Err error => ret (Err (side ++ u "连接「" ++ connection_name ++ u "」加载数据库列表失败: " ++ error))
  | Ok databases =>
    if negb (bool_decide (database ∈ databases)) then ret (Err (missing_database side connection_name database))
    else
      run r := load_schema_snapshot c database in
      ret (map_err (fun error => side ++ u "连接「" ++ connection_name ++ u "」读取对比元数据失败: " ++ error) r)
  end.
Definition list_compare_databases_with_saved (saved : list ConnectionConfig) (saved_connection_id : str) : Act (result (list str) str) :=
  try config := lift (find_saved_connection saved saved_connection_id (u "待对比")) in
  run opened := open config in
  match opened with
  | Err error => ret (Err (temporary_connection_error (u "待对比") (cc_name config) error))
  | Ok c =>
    run listed := list_databases_for_compare c in
    run cleanup := close c in
    ret (merge_single_operation_and_cleanup
           (map_err (fun error => u "待对比连接「" ++ cc_name config ++ u "」加载数据库列表失败: " ++ error) listed) (u "待对比") cleanup)
  end.
Definition list_compare_databases (saved_connection_id : str) : Act (result (list str) str) :=
  run loaded := load_saved_connections_internal in
  match loaded with
  | Err error => ret (Err (redact_error_text error []))
  | Ok saved => run r := list_compare_databases_with_saved saved saved_connection_id in ret (redact_result r saved)
  end.
Definition compare_databases_with_saved (saved : list ConnectionConfig) (source target : DatabaseCompareEndpointRequest) :
    Act (result DatabaseCompareResult str) :=
  try source_config := lift (find_saved_connection saved (er_saved_connection_id source) (u "源端")) in
  try target_config := lift (find_saved_connection saved (er_saved_connection_id target) (u "目标端")) in
  try _ := lift (validate_endpoint_configs source_config target_config) in
  let source_endpoint := compare_endpoint source (cc_name source_config) in
  let target_endpoint := compare_endpoint target (cc_name target_config) in
  with_temporary_connections source_config target_config (cc_name source_config) (cc_name target_config) (fun s t =>
    run source_snapshot := load_selected_snapshot (u "源端") (cc_name source_config) s (er_database source) in
    run target_snapshot := load_selected_snapshot (u "目标端") (cc_name target_config) t (er_database target) in
    match combine_endpoint_results source_snapshot target_snapshot with
    | Err error => ret (Err error)
    | Ok (source_tables, target_tables) =>
      run compared_at := generate_compared_at in
      ret (let? compared_at := compared_at in
           Ok (compare_schema_snapshots (cc_database_type source_config) source_endpoint target_endpoint compared_at source_tables target_tables))
    end).
Definition compare_databases (source target : DatabaseCompareEndpointRequest) : Act (result DatabaseCompareResult str) :=
  run loaded := load_saved_connections_internal in
  match loaded with
  | Err error => ret (Err (redact_error_text error []))
  | Ok saved => run r := compare_databases_with_saved saved source target in ret (redact_result r saved)
  end.

End Commands.

Arguments Call : clear implicits.
Arguments World : clear implicits.
Arguments Outside : clear implicits.

(** ** What an action leaves in the record *)

Section Traces.
Context {Conn E : Type}.
Abbreviation Call := (Call Conn).
Abbreviation Act := (@Act Conn E).

Definition emits {A : Type} (m : Act A) (Q : list Call -> A -> Prop) : Prop :=
  forall w, exists l, wd_calls (m w).2 = wd_calls w ++ l /\ Q l (m w).1.
Lemma emits_ret {A : Type} (a : A) Q : Q [] a -> emits (ret a) Q.
Proof. intros H w. exists []. by rewrite app_nil_r. Qed.
Lemma emits_record c Q : Q [c] tt -> emits (record c) Q.
Proof. intros H w. by exists [c]. Qed.
Lemma emits_call {A : Type} f (c : A -> Call) Q : (forall a, Q [c a] a) -> emits (call (E := E) f c) Q.
Proof. intros H w. unfold call. destruct (f (wd_env w)) as [a e]. exists [c a]. by split. Qed.
Lemma emits_bind {A B : Type} (m : Act A) (k : A -> Act B) P Q : emits m P ->
  (forall l a, P l a -> emits (k a) (fun l' => Q (l ++ l'))) -> emits (bind m k) Q.
Proof.
  intros Hm Hk w. destruct (Hm w) as (l & El & Hl). unfold bind. destruct (m w) as [a w1]. cbn [fst snd] in *.
  destruct (Hk l a Hl w1) as (l' & El' & Hl'). exists (l ++ l'). split; [|exact Hl']. by rewrite El', El, <- (assoc app).
Qed.
Lemma emits_weaken {A : Type} (m : Act A) (P Q : list Call -> A -> Prop) : emits m P -> (forall l a, P l a -> Q l a) -> emits m Q.
Proof. intros H I w. destruct (H w) as (l & E1 & H1). exists l. by split; [|apply I]. Qed.
Lemma emits_bind_ok {A B : Type} (m : Act (result A str)) (k : A -> Act (result B str)) P Q : emits m P ->
  (forall l e, P l (Err e) -> Q l (Err e)) -> (forall l a, P l (Ok a) -> emits (k a) (fun l' => Q (l ++ l'))) -> emits (bind_ok m k) Q.
Proof.
  intros Hm He Hk. eapply emits_bind; [exact Hm|]. intros l [a|e] H; [by apply Hk|]. apply emits_ret. rewrite app_nil_r. by apply He.
Qed.
Lemma emits_lift {A B : Type} (r : result A str) (k : A -> Act (result B str)) Q :
  (forall e, r = Err e -> Q [] (Err e)) -> (forall a, r = Ok a -> emits (k a) Q) -> emits (bind_ok (lift r) k) Q.
Proof.
  intros He Hk. eapply (emits_bind_ok _ _ (fun l a => l = [] /\ a = r)); [by apply emits_ret|..].
  - intros l e [-> <-]. by apply He.
  - intros l a [-> <-]. by apply Hk.
Qed.

(** The statements carried out, the connections opened and closed, and the
    progress of the execution, in a record. *)
Definition execution (c : Call) : option (Conn * str * result unit str) := match c with Executed c s a => Some (c, s, a) | _ => None end.
Definition opening (c : Call) : option Conn := match c with Opened _ (Ok c) => Some c | _ => None end.
Definition closing (c : Call) : option Conn := match c with Closed c => Some c | _ => None end.
Definition executing (c : Call) : option (Z * Z) :=
  match c with Emitted (mkProgress _ Executing current total) => Some (current, total) | _ => None end.
Abbreviation executions := (omap execution).

(** ** The loop over the statements *)

Fixpoint label (id : str) (index : Z) (sql : list str) : list (str * Z * str) :=
  match sql with [] => [] | s :: sql => (id, index, s) :: label id (index + 1) sql end.
(** The statements of the operations, with the names the report gives them. *)
Definition statements (operations : list DatabaseSyncOperation) : list (str * Z * str) :=
  concat (map (fun o => label (op_id o) 0 (op_sql o)) operations).
Definition completed_of (done : list (str * Z * str)) : list DatabaseSyncStatementSuccess := map (fun x => mkSuccess x.1.1 x.1.2) done.
Definition done_on (c : Conn) (done : list (str * Z * str)) : list (Conn * str * result unit str) := map (fun x => (c, x.2, Ok tt)) done.

(** A result tells what was carried out: the completed statements are those that
    were accepted, in order; a failure names the one that was refused, and the
    operations behind it are pending. *)
Definition reports (c : Conn) (operations : list DatabaseSyncOperation) (r : DatabaseSyncExecutionResult) (done : list (str * Z * str))
    (carried_out : list (Conn * str * result unit str)) : Prop :=
  er_completed_statements r = completed_of done /\
  match er_failed r with
  | None => done = statements operations /\ er_status r = Succeeded /\ er_pending_operation_ids r = [] /\ carried_out = done_on c done
  | Some f => exists before o after x refused error,
    operations = before ++ o :: after /\ x ∈ label (op_id o) 0 (op_sql o) /\
    statements operations = done ++ x :: refused /\ fl_operation_id f = x.1.1 /\ fl_statement_index f = x.1.2 /\
    carried_out = done_on c done ++ [(c, x.2, Err error)] /\ er_pending_operation_ids r = map op_id after /\
    er_status r = if is_empty done then Failed else PartiallySucceeded
  end.
(** The progress after [n] more statements of [total], from [from] on. *)
Fixpoint ticks (from : Z) (n : nat) (total : Z) : list (Z * Z) :=
  match n with O => [] | S n => (from + 1, total) :: ticks (from + 1) n total end.
Lemma ticks_app from n m total : ticks from (n + m) total = ticks from n total ++ ticks (from + Z.of_nat n) m total.
Proof.
  revert from. induction n as [|n IH]; intros from; cbn [ticks Nat.add app]; [f_equal; lia|]. rewrite IH. do 3 f_equal. lia.
Qed.
Lemma label_split id index sql done x refused : label id index sql = done ++ x :: refused -> x ∈ label id index sql.
Proof. intros ->. apply elem_of_app. right. by left. Qed.
Lemma completed_app a b : completed_of (a ++ b) = completed_of a ++ completed_of b.
Proof. apply map_app. Qed.
Lemma done_app c a b : done_on c (a ++ b) = done_on c a ++ done_on c b.
Proof. apply map_app. Qed.
Lemma zlen_completed done : zlen (completed_of done) = Z.of_nat (length done).
Proof. unfold zlen, completed_of. by rewrite length_map. Qed.
Lemma completed_empty done : is_empty (completed_of done) = is_empty done.
Proof. by destruct done. Qed.

Section Loop.
Context (outside : Outside Conn E) (c : Conn) (fingerprint : str) (total : Z).
Abbreviation execute := (execute_sync_statement outside c).
Abbreviation on_progress := (emit_database_sync_progress fingerprint Executing).

Lemma execute_statements_trace id sql index completed :
  emits (execute_statements execute on_progress total id index sql completed) (fun l a => exists done,
    a.1 = completed ++ completed_of done /\ omap executing l = ticks (zlen completed) (length done) total /\
    match a.2 with
    | None => label id index sql = done /\ executions l = done_on c done
    | Some f => exists x refused error, label id index sql = done ++ x :: refused /\ f = mkFailure x.1.1 x.1.2 error /\
      executions l = done_on c done ++ [(c, x.2, Err error)]
    end).
Proof.
  revert index completed. induction sql as [|s sql IH]; intros index completed; cbn [execute_statements label].
  - apply emits_ret. exists []. by rewrite app_nil_r.
  - eapply (emits_bind _ _ (fun l a => l = [Executed c s a])); [by apply emits_call|]. intros l [[]|error] ->.
    + eapply (emits_bind _ _ (fun l _ => l = [Emitted (mkProgress fingerprint Executing (zlen (completed ++ [mkSuccess id index])) total)]));
        [by apply emits_record|]. intros l _ ->.
      eapply emits_weaken; [apply IH|]. intros l [done' f] (done & E1 & T & R). cbn [fst snd] in E1. subst done'.
      exists ((id, index, s) :: done). cbn [fst snd app omap list_omap execution executing length ticks map] in *.
      assert (Z1 : zlen (completed ++ [mkSuccess id index]) = zlen completed + 1) by (unfold zlen; rewrite length_app; cbn; lia).
      split; [by rewrite <- (assoc app)|]. split; [by rewrite T, Z1|].
      destruct f as [f|]; [|by destruct R as [<- ->]]. destruct R as (x & refused & error & -> & -> & ->). by exists x, refused, error.
    + apply emits_ret. exists []. rewrite app_nil_r. split; [done|]. split; [done|]. exists (id, index, s), (label id (index + 1) sql), error. done.
Qed.

Lemma execute_operations_trace operations before completed l0 :
  emits (execute_operations execute on_progress total operations (completed_of completed)) (fun l r => exists done,
    completed = statements before -> executions l0 = done_on c completed ->
    omap executing l = ticks (zlen (completed_of completed)) (length done) total /\
    reports c (before ++ operations) r (completed ++ done) (executions (l0 ++ l))).
Proof.
  revert before completed l0. induction operations as [|o operations IH]; intros before completed l0; cbn [execute_operations].
  - apply emits_ret. exists []. intros E0 L0. rewrite !app_nil_r. split; [done|]. split; [done|]. cbn. by rewrite <- E0.
  - eapply emits_bind; [apply execute_statements_trace|]. intros l [completed' failed] (done & E1 & T & R). cbn [fst snd] in *. subst completed'.
    rewrite <- completed_app. destruct failed as [f|].
    + apply emits_ret. exists done. intros E0 L0. rewrite app_nil_r. split; [done|]. split; [done|]. cbn [er_failed].
      destruct R as (x & refused & error & L & -> & X). exists before, o, operations, x, (refused ++ statements operations), error.
      split; [done|]. split; [by eapply label_split|]. unfold statements. rewrite map_app, concat_app. cbn [map concat].
      fold (statements before). fold (statements operations). rewrite <- E0, L. split; [by rewrite <- !(assoc app)|]. split; [done|]. split; [done|].
      split; [by rewrite omap_app, L0, X, done_app, <- (assoc app)|]. split; [done|]. cbn [er_status]. by rewrite completed_empty.
    + destruct R as [L X]. eapply emits_weaken; [apply (IH (before ++ [o]) (completed ++ done) (l0 ++ l))|].
      intros l' r (done' & H). exists (done ++ done'). intros E0 L0. destruct H as [T' H].
      * unfold statements. rewrite map_app, concat_app. cbn [map concat]. rewrite app_nil_r, L. by rewrite E0.
      * by rewrite omap_app, L0, X, done_app.
      * rewrite <- !(assoc app) in H. split; [|exact H]. rewrite omap_app, T, T', length_app, ticks_app. do 2 f_equal. rewrite !zlen_completed, length_app. lia.
Qed.
End Loop.

(** What the whole loop leaves behind: the report, and the progress from none of
    the statements to the completed ones. *)
Lemma execute_with_progress_trace outside c fingerprint operations :
  emits (execute_operations_with_progress operations (execute_sync_statement outside c) (emit_database_sync_progress fingerprint Executing))
    (fun l r => exists done, reports c operations r done (executions l) /\
      omap executing l = (0, statement_count operations) :: ticks 0 (length done) (statement_count operations)).
Proof.
  unfold execute_operations_with_progress.
  eapply (emits_bind _ _ (fun l _ => l = [Emitted (mkProgress fingerprint Executing 0 (statement_count operations))])); [by apply emits_record|].
  intros l _ ->. eapply emits_weaken; [apply (execute_operations_trace outside c fingerprint (statement_count operations) operations [] [] [])|].
  intros l r (done & H). destruct H as [T H]; [done..|]. exists done. split; [exact H|]. cbn [app omap list_omap executing]. by rewrite T.
Qed.
End Traces.

End DatabaseSync.
