(* ===== verification/SyncExecution.v ===== *)
(** What the synchronisation commands do to the two databases: that nothing but
    the confirmed plan is executed, on the target only, that the report tells
    what was carried out, and that every connection opened is closed again. *)
From S2P Require Import Prelude OrderedMap RustText DataTypes SchemaCompare SyncTypes SyncFacts SchemaSync Connections SqliteConverge SyncConverge DatabaseSync.
Import DataTypes SchemaCompare SyncTypes SyncFacts SchemaSync DatabaseSync.
Import Connections (ConnectionConfig, cc_id, cc_name, cc_database_type, cc_read_only, find_saved_connection, validate_endpoint_configs,
  validate_sync_target, redact_error_text, cleanup_error, merge_operation_and_cleanup, merge_operation_with_cleanup_errors,
  merge_single_operation_and_cleanup).

Module SyncExecution.

#[local] Opaque u changed_fields.

(** ** Confirmed executions *)

Section Confirmed.
Context {Conn E : Type}.
Context (plan_table : DatabaseType -> TablePlanContext -> PlanFragments).
Context (sha256_hex : bytes -> str) (payload_vec : FingerprintPayload -> result bytes str).

(** Before the first statement, the catalogues of both sides were read and gave
    [preview]. *)
Definition planned_first (source_config : ConnectionConfig) (request : DatabaseSyncRequest) (source target : Conn)
    (preview : DatabaseSyncPreview) (l : list (Call Conn)) : Prop :=
  exists before after S T, l = before ++ after /\ omap execution before = [] /\
    LoadedSchema source (er_database (sq_source request)) (Ok S) ∈ before /\
    LoadedSchema target (er_database (sq_target request)) (Ok T) ∈ before /\
    build_database_sync_preview plan_table sha256_hex payload_vec (cc_database_type source_config) request S T = Ok preview.

(** What the calls [l] of an execution that gave [report] tell about it. *)
Record confirmed (input : ExecuteDatabaseSyncRequest) (l : list (Call Conn)) (report : DatabaseSyncExecutionResult)
    (saved : list ConnectionConfig) (source_config target_config : ConnectionConfig) (request : DatabaseSyncRequest) (source target : Conn)
    (preview : DatabaseSyncPreview) (done : list (str * Z * str)) : Prop := {
  cf_saved : LoadedSaved (Ok saved) ∈ l;
  cf_configs : resolve_sync_configs saved (ex_request input) = Ok (source_config, target_config);
  cf_writable : cc_read_only target_config <> Some true;
  cf_request : normalize_sync_request (ex_request input) = Ok request;
  cf_source : Opened source_config (Ok source) ∈ l;
  cf_target : Opened target_config (Ok target) ∈ l;
  cf_planned : planned_first source_config request source target preview l;
  cf_fingerprint : pv_plan_fingerprint preview = ex_plan_fingerprint input;
  cf_executable : pv_blockers preview = [] /\ pv_operations preview <> [] /\ pv_can_execute preview = true;
  cf_drops : sq_include_drops (ex_request input) = false -> Forall (fun o => destroys o = false) (pv_operations preview);
  cf_reports : reports target (pv_operations preview) report done (omap execution l);
  cf_progress : omap executing l = (0, statement_count (pv_operations preview)) :: ticks 0 (length done) (statement_count (pv_operations preview));
  cf_cache : done <> [] -> exists first connections,
    l = first ++ AskedConnections (er_saved_connection_id (sq_target (ex_request input))) connections
                 :: map (fun c => Invalidated c (er_database (sq_target (ex_request input)))) connections;
}.
End Confirmed.

(** ** Calls that only read *)

Section Facts.
Context {Conn E : Type}.
Abbreviation Call := (Call Conn).
Abbreviation Act := (@Act Conn E).

Definition reads (c : Call) : bool :=
  match c with ListedDatabases _ | LoadedTables _ _ | LoadedSchema _ _ _ | AskedClock | LoadedSaved _ => true | _ => false end.
Definition reading {A : Type} (m : Act A) : Prop := emits m (fun l _ => Forall (fun c => reads c = true) l).
Lemma omap_reads {X : Type} (p : Call -> option X) l : (forall c, reads c = true -> p c = None) -> Forall (fun c => reads c = true) l -> omap p l = [].
Proof. intros P H. induction H as [|c l R H IH]; [done|]. cbn. by rewrite (P c R), IH. Qed.
Lemma executions_reads l : Forall (fun c => reads c = true) l -> omap execution l = [].
Proof. apply omap_reads. by intros []. Qed.
Lemma executing_reads l : Forall (fun c => reads c = true) l -> omap executing l = [].
Proof. apply omap_reads. by intros []. Qed.
Lemma opening_reads l : Forall (fun c => reads c = true) l -> omap opening l = [].
Proof. apply omap_reads. by intros []. Qed.
Lemma closing_reads l : Forall (fun c => reads c = true) l -> omap closing l = [].
Proof. apply omap_reads. by intros []. Qed.

Lemma reading_ret {A : Type} (a : A) : reading (ret a).
Proof. by apply emits_ret. Qed.
Lemma reading_bind {A B : Type} (m : Act A) (k : A -> Act B) : reading m -> (forall a, reading (k a)) -> reading (bind m k).
Proof.
  intros Hm Hk. eapply emits_bind; [exact Hm|]. intros l a H. eapply emits_weaken; [apply Hk|]. intros l' b H'. by apply list.Forall_app.
Qed.
Lemma reading_call {A : Type} f (c : A -> Call) : (forall a, reads (c a) = true) -> reading (call (E := E) f c).
Proof. intros H. apply emits_call. intros a. constructor; [apply H|constructor]. Qed.

Context (outside : Outside Conn E).
Lemma reading_list_databases c : reading (list_databases_for_compare outside c).
Proof. by apply reading_call. Qed.
Lemma reading_tables c database : reading (load_schema_snapshot outside c database).
Proof. by apply reading_call. Qed.
Lemma reading_schema c database : reading (load_sync_schema_snapshot outside c database).
Proof. by apply reading_call. Qed.
Lemma reading_now : reading (generate_compared_at outside).
Proof. apply reading_bind; [by apply reading_call|]. intros a. apply reading_ret. Qed.
Lemma reading_refresh ty sn tn s t request r : reading (refresh_comparison outside ty sn tn s t request r).
Proof.
  apply reading_bind; [apply reading_schema|]. intros S. apply reading_bind; [apply reading_schema|]. intros T.
  destruct (combine_endpoint_results _ _) as [[S' T']|e]; [|apply reading_ret]. apply reading_bind; [apply reading_now|].
  intros [|]; apply reading_ret.
Qed.
Lemma reading_selected side name c database : reading (load_selected_snapshot outside side name c database).
Proof.
  apply reading_bind; [apply reading_list_databases|]. intros [databases|e]; [|apply reading_ret].
  destruct (negb _); [apply reading_ret|]. apply reading_bind; [apply reading_tables|]. intros r. apply reading_ret.
Qed.
End Facts.

(** ** Connections that are closed again *)

Section Connections.
Context {Conn E : Type} (outside : Outside Conn E).
Abbreviation Call := (Call Conn).
Abbreviation Act := (@Act Conn E).

Definition balanced {A : Type} (m : Act A) : Prop := emits m (fun l _ => omap opening l ≡ₚ omap closing l).
Lemma balanced_ret {A : Type} (a : A) : balanced (ret a).
Proof. by apply emits_ret. Qed.
Lemma balanced_bind {A B : Type} (m : Act A) (k : A -> Act B) : balanced m -> (forall a, balanced (k a)) -> balanced (bind m k).
Proof.
  intros Hm Hk. eapply emits_bind; [exact Hm|]. intros l a H. eapply emits_weaken; [apply Hk|]. intros l' b H'. by rewrite !omap_app, H, H'.
Qed.
Lemma balanced_try {A B : Type} (m : Act (result A str)) (k : A -> Act (result B str)) :
  balanced m -> (forall a, balanced (k a)) -> balanced (bind_ok m k).
Proof. intros Hm Hk. apply balanced_bind; [done|]. intros [a|e]; [apply Hk|apply balanced_ret]. Qed.
Lemma balanced_reading {A : Type} (m : Act A) : reading m -> balanced m.
Proof. intros H. eapply emits_weaken; [exact H|]. intros l a R. by rewrite opening_reads, closing_reads. Qed.
Lemma balanced_call {A : Type} f (c : A -> Call) : (forall a, opening (c a) = None /\ closing (c a) = None) -> balanced (call (E := E) f c).
Proof. intros H. apply emits_call. intros a. cbn. by destruct (H a) as [-> ->]. Qed.
Lemma balanced_record c : opening c = None -> closing c = None -> balanced (record c : Act unit).
Proof. intros H H'. apply emits_record. cbn. by rewrite H, H'. Qed.
Lemma balanced_saved : balanced (load_saved_connections_internal outside).
Proof. by apply balanced_call. Qed.

Lemma balanced_with_both {T : Type} merge sc tc sn tn (operation : Conn -> Conn -> Act (result T str)) :
  (forall s t, balanced (operation s t)) -> balanced (with_both outside merge sc tc sn tn operation).
Proof.
  intros H. eapply (emits_bind _ _ (fun l a => omap opening l ≡ₚ omap closing l ++ match a with Ok (s, t) => [s; t] | Err _ => [] end)).
  - eapply (emits_bind _ _ (fun l a => l = [Opened sc a])); [by apply emits_call|]. intros l a ->.
    eapply (emits_bind _ _ (fun l b => l = [Opened tc b])); [by apply emits_call|]. intros l b ->.
    destruct a as [s|e], b as [t|e']; [by apply emits_ret| | |by apply emits_ret].
    + eapply (emits_bind _ _ (fun l _ => l = [Closed s])); [by apply emits_call|]. intros l x ->. by apply emits_ret.
    + eapply (emits_bind _ _ (fun l _ => l = [Closed t])); [by apply emits_call|]. intros l x ->. by apply emits_ret.
  - intros l [[s t]|a] Hl; [|apply emits_ret; by rewrite !app_nil_r in *].
    eapply emits_bind; [apply H|]. intros l1 a H1.
    eapply (emits_bind _ _ (fun l _ => l = [Closed s])); [by apply emits_call|]. intros l2 b ->.
    eapply (emits_bind _ _ (fun l _ => l = [Closed t])); [by apply emits_call|]. intros l3 d ->.
    apply emits_ret. rewrite !omap_app, Hl, H1. cbn. rewrite app_nil_r, <- !(assoc app). f_equiv. by rewrite (comm app).
Qed.
Lemma balanced_preview plan_table sha256_hex payload_vec ty sn tn s t request :
  balanced (build_preview_with_loaders outside plan_table sha256_hex payload_vec ty sn tn s t request).
Proof.
  apply balanced_reading. apply reading_bind; [apply reading_list_databases|]. intros a. apply reading_bind; [apply reading_list_databases|].
  intros b. destruct (combine_endpoint_results _ _) as [[x y]|e]; [|apply reading_ret].
  destruct (combine_endpoint_results _ _) as [[x' y']|e]; [|apply reading_ret].
  apply reading_bind; [apply reading_schema|]. intros S. apply reading_bind; [apply reading_schema|]. intros T.
  destruct (combine_endpoint_results _ _) as [[x'' y'']|e]; apply reading_ret.
Qed.
Lemma balanced_statements c fingerprint total id index sql completed :
  balanced (execute_statements (execute_sync_statement outside c) (emit_database_sync_progress fingerprint Executing) total id index sql completed).
Proof.
  revert index completed. induction sql as [|s sql IH]; intros index completed; [apply balanced_ret|].
  apply balanced_bind; [by apply balanced_call|]. intros [a|e]; [|apply balanced_ret].
  apply balanced_bind; [by apply balanced_record|]. intros _. apply IH.
Qed.
Lemma balanced_operations c fingerprint total operations completed :
  balanced (execute_operations (execute_sync_statement outside c) (emit_database_sync_progress fingerprint Executing) total operations completed).
Proof.
  revert completed. induction operations as [|o operations IH]; intros completed; [apply balanced_ret|].
  apply balanced_bind; [apply balanced_statements|]. intros [completed' [f|]]; [apply balanced_ret|apply IH].
Qed.
Lemma balanced_pools plan_table sha256_hex payload_vec ty sn tn s t request confirmed :
  balanced (execute_database_sync_on_pools outside plan_table sha256_hex payload_vec ty sn tn s t request confirmed).
Proof.
  apply balanced_try; [apply balanced_preview|]. intros preview. apply balanced_try; [apply balanced_ret|]. intros _.
  apply balanced_try; [apply balanced_ret|]. intros _.
  apply balanced_bind; [apply balanced_bind; [by apply balanced_record|intros _; apply balanced_operations]|]. intros r.
  cbn zeta. destruct (negb _); [apply balanced_ret|]. apply balanced_bind; [by apply balanced_record|]. intros _.
  apply balanced_bind; [apply balanced_reading, reading_refresh|]. intros r'. apply balanced_ret.
Qed.
Lemma balanced_invalidate connections database : balanced (invalidate_all connections database : Act unit).
Proof. induction connections as [|c l IH]; [apply balanced_ret|]. apply balanced_bind; [by apply balanced_record|]. intros _. apply IH. Qed.
Lemma balanced_loaded {A : Type} (k : list ConnectionConfig -> Act (result A str)) : (forall saved, balanced (k saved)) ->
  balanced (bind (load_saved_connections_internal outside)
    (fun loaded => match loaded with Err error => ret (Err (redact_error_text error [])) | Ok saved => k saved end)).
Proof. intros H. apply balanced_bind; [apply balanced_saved|]. intros [saved|e]; [apply H|apply balanced_ret]. Qed.

(** Every connection a command opens is closed again, whatever fails on the
    way: a preview, an execution, a comparison and the list of a connection's
    databases close exactly the connections they have opened. *)
Theorem commands_close_connections plan_table sha256_hex payload_vec :
  (forall request, balanced (preview_database_sync outside plan_table sha256_hex payload_vec request)) /\
  (forall input, balanced (execute_database_sync outside plan_table sha256_hex payload_vec input)) /\
  (forall source target, balanced (compare_databases outside source target)) /\
  (forall saved_connection_id, balanced (list_compare_databases outside saved_connection_id)).
Proof.
  split; [|split; [|split]].
  - intros request. apply balanced_loaded. intros saved. apply balanced_bind; [|intros r; apply balanced_ret].
    apply balanced_try; [apply balanced_ret|]. intros [sc tc]. apply balanced_try; [apply balanced_ret|]. intros request'.
    apply balanced_with_both. intros s t. apply balanced_preview.
  - intros input. apply balanced_bind.
    + apply balanced_bind; [by apply balanced_record|]. intros _. apply balanced_loaded. intros saved.
      apply balanced_bind; [|intros r; apply balanced_ret].
      apply balanced_try; [apply balanced_ret|]. intros [sc tc]. apply balanced_try; [apply balanced_ret|]. intros request'.
      apply balanced_with_both. intros s t. apply balanced_pools.
    + intros r. destruct (changed_something r); [|apply balanced_ret]. cbn zeta. apply balanced_bind; [by apply balanced_call|]. intros ids.
      apply balanced_bind; [apply balanced_invalidate|]. intros _. apply balanced_ret.
  - intros source target. apply balanced_loaded. intros saved. apply balanced_bind; [|intros r; apply balanced_ret].
    apply balanced_try; [apply balanced_ret|]. intros sc. apply balanced_try; [apply balanced_ret|]. intros tc.
    apply balanced_try; [apply balanced_ret|]. intros _. apply balanced_with_both. intros s t.
    apply balanced_bind; [apply balanced_reading, reading_selected|]. intros S.
    apply balanced_bind; [apply balanced_reading, reading_selected|]. intros T.
    destruct (combine_endpoint_results _ _) as [[S' T']|e]; [|apply balanced_ret].
    apply balanced_bind; [apply balanced_reading, reading_now|]. intros r. apply balanced_ret.
  - intros id. apply balanced_loaded. intros saved. apply balanced_bind; [|intros r; apply balanced_ret].
    apply balanced_try; [apply balanced_ret|]. intros config.
    eapply (emits_bind _ _ (fun l a => l = [Opened config a])); [by apply emits_call|]. intros l [c|e] ->; [|by apply emits_ret].
    eapply (emits_bind _ _ (fun l _ => l = [ListedDatabases c])); [by apply emits_call|]. intros l a ->.
    eapply (emits_bind _ _ (fun l _ => l = [Closed c])); [by apply emits_call|]. intros l b ->. by apply emits_ret.
Qed.
End Connections.

(** ** Executing what was confirmed *)

Section Executed.
Context {Conn E : Type} (outside : Outside Conn E).
Context (plan_table : DatabaseType -> TablePlanContext -> PlanFragments).
Context (sha256_hex : bytes -> str) (payload_vec : FingerprintPayload -> result bytes str).
Abbreviation Call := (Call Conn).
Abbreviation Act := (@Act Conn E).
Abbreviation build := (build_database_sync_preview plan_table sha256_hex payload_vec).
Abbreviation confirmed := (confirmed plan_table sha256_hex payload_vec).
Abbreviation planned_first := (planned_first plan_table sha256_hex payload_vec).

Lemma combine_ok {A B : Type} (a : result A str) (b : result B str) x y :
  combine_endpoint_results a b = Ok (x, y) -> a = Ok x /\ b = Ok y.
Proof. destruct a, b; by intros [= -> ->]. Qed.
Lemma preview_trace ty sn tn s t request :
  emits (build_preview_with_loaders outside plan_table sha256_hex payload_vec ty sn tn s t request) (fun l r =>
    Forall (fun c => reads c = true) l /\ forall preview, r = Ok preview -> exists S T,
      LoadedSchema s (er_database (sq_source request)) (Ok S) ∈ l /\ LoadedSchema t (er_database (sq_target request)) (Ok T) ∈ l /\
      build ty request S T = Ok preview).
Proof.
  eapply (emits_bind _ _ (fun l _ => l = [ListedDatabases s])); [by apply emits_call|]. intros l a ->.
  eapply (emits_bind _ _ (fun l _ => l = [ListedDatabases t])); [by apply emits_call|]. intros l b ->.
  destruct (combine_endpoint_results _ _) as [[x y]|e]; [|apply emits_ret; split; [by repeat constructor|discriminate]].
  destruct (combine_endpoint_results _ _) as [[x' y']|e]; [|apply emits_ret; split; [by repeat constructor|discriminate]].
  eapply (emits_bind _ _ (fun l S => l = [LoadedSchema s _ S])); [by apply emits_call|]. intros l S ->.
  eapply (emits_bind _ _ (fun l T => l = [LoadedSchema t _ T])); [by apply emits_call|]. intros l T ->.
  destruct (combine_endpoint_results _ _) as [[S' T']|e] eqn:C; apply emits_ret; (split; [by repeat constructor|]); [|discriminate].
  intros preview B. apply combine_ok in C as [->%map_err_ok_inv ->%map_err_ok_inv]. exists S', T'. cbn [app].
  split; [do 2 right; by left|]. split; [do 3 right; by left|]. exact B.
Qed.

Lemma executable preview include_drops : validate_executable_preview preview include_drops = Ok tt ->
  (pv_blockers preview = [] /\ pv_operations preview <> [] /\ pv_can_execute preview = true) /\
  (include_drops = false -> Forall (fun o => destroys o = false) (pv_operations preview)).
Proof.
  unfold validate_executable_preview. destruct (pv_blockers preview); [|discriminate]. cbn [is_empty negb].
  destruct (pv_operations preview) as [|o l]; [discriminate|]. cbn [is_empty].
  destruct (negb (pv_can_execute preview) || _) eqn:C; [discriminate|]. apply orb_false_iff in C as [C%negb_false_iff _].
  destruct (negb include_drops && _) eqn:D; [discriminate|]. intros _. split; [done|]. intros ->. cbn in D.
  apply list.Forall_forall. intros x Hx. destruct (destroys x) eqn:Dx; [|done].
  enough (destroys o || existsb destroys l = true) by congruence. change (existsb destroys (o :: l) = true). apply existsb_exists.
  exists x. split; [by apply list_elem_of_In|done].
Qed.
Lemma fingerprints_agree a b : validate_plan_fingerprint a b = Ok tt -> b = a.
Proof. unfold validate_plan_fingerprint. destruct (str_eqb a b) eqn:F; [|discriminate]. by apply str_eqb_eq in F as ->. Qed.

(** Reports that differ in texts only. *)
Definition same_report (r r' : DatabaseSyncExecutionResult) : Prop :=
  er_status r' = er_status r /\ er_completed_statements r' = er_completed_statements r /\
  er_pending_operation_ids r' = er_pending_operation_ids r /\
  match er_failed r, er_failed r' with
  | None, None => True
  | Some f, Some f' => fl_operation_id f' = fl_operation_id f /\ fl_statement_index f' = fl_statement_index f
  | _, _ => False
  end.
Lemma same_report_refl r : same_report r r.
Proof. unfold same_report. by destruct (er_failed r). Qed.
Lemma same_report_trans r r' r'' : same_report r r' -> same_report r' r'' -> same_report r r''.
Proof.
  intros (S & C & P & F) (S' & C' & P' & F'). unfold same_report. rewrite S', C', P', S, C, P. do 3 (split; [done|]).
  destruct (er_failed r), (er_failed r'), (er_failed r''); try done. by destruct F as [<- <-].
Qed.
Lemma reports_same c operations r r' done l : same_report r r' -> reports (Conn := Conn) c operations r done l -> reports c operations r' done l.
Proof.
  intros (S & C & P & F) [H1 H2]. split; [by rewrite C|]. rewrite S, P. destruct (er_failed r) as [f|], (er_failed r') as [f'|]; try done.
  destruct F as [-> ->]. exact H2.
Qed.
Lemma context_same operations name request r : same_report r (add_execution_failure_context operations name request r).
Proof.
  unfold add_execution_failure_context. destruct (er_failed r) as [f|] eqn:F; [|apply same_report_refl].
  destruct (find_first _ _); [|apply same_report_refl]. unfold same_report. cbn. by rewrite F.
Qed.
#[local] Ltac same := unfold same_report; cbn; by destruct (er_failed _).
Lemma refresh_same ty sn tn s t request r :
  emits (refresh_comparison outside ty sn tn s t request r) (fun l r' => Forall (fun c => reads c = true) l /\ same_report r r').
Proof.
  eapply (emits_bind _ _ (fun l S => l = [LoadedSchema s _ S])); [by apply emits_call|]. intros l S ->.
  eapply (emits_bind _ _ (fun l S => l = [LoadedSchema t _ S])); [by apply emits_call|]. intros l T ->.
  destruct (combine_endpoint_results _ _) as [[S' T']|e]; [|apply emits_ret; split; [by repeat constructor|same]].
  eapply emits_bind; [apply reading_now|]. intros l x H.
  destruct x; apply emits_ret; rewrite app_nil_r; (split; [by do 2 (constructor; [done|])|same]).
Qed.

(** What the part between opening and closing leaves behind. *)
Definition carried (ty : DatabaseType) (s t : Conn) (request : DatabaseSyncRequest) (fingerprint : str) (l : list Call)
    (r : result DatabaseSyncExecutionResult str) : Prop :=
  match r with
  | Err _ => omap execution l = []
  | Ok report => exists preview done before after S T, l = before ++ after /\ Forall (fun c => reads c = true) before /\
      LoadedSchema s (er_database (sq_source request)) (Ok S) ∈ before /\ LoadedSchema t (er_database (sq_target request)) (Ok T) ∈ before /\
      build ty request S T = Ok preview /\ pv_plan_fingerprint preview = fingerprint /\
      validate_executable_preview preview (sq_include_drops request) = Ok tt /\
      reports t (pv_operations preview) report done (omap execution l) /\
      omap executing l = (0, statement_count (pv_operations preview)) :: ticks 0 (length done) (statement_count (pv_operations preview))
  end.
Lemma pools_trace ty sn tn s t request fingerprint :
  emits (execute_database_sync_on_pools outside plan_table sha256_hex payload_vec ty sn tn s t request fingerprint) (carried ty s t request fingerprint).
Proof.
  eapply emits_bind_ok; [apply preview_trace|by intros l e [R _]; apply executions_reads|]. intros l preview [R H].
  destruct (H preview eq_refl) as (S & T & Hs & Ht & B). clear H.
  apply emits_lift; [intros e _; rewrite app_nil_r; by apply executions_reads|]. intros [] Ef%fingerprints_agree.
  apply emits_lift; [intros e _; rewrite app_nil_r; by apply executions_reads|]. intros [] Ex.
  eapply emits_bind; [apply execute_with_progress_trace|]. intros l1 r (done & Re & Tk). cbn zeta.
  eapply reports_same in Re; [|apply (context_same (pv_operations preview) tn request)].
  destruct (negb _).
  - apply emits_ret. rewrite app_nil_r. exists preview, done, l, l1, S, T. do 7 (split; [done|]).
    rewrite !omap_app, (executions_reads l R), (executing_reads l R). by split.
  - eapply (emits_bind _ _ (fun l _ => exists p, l = [Emitted p] /\ pg_phase p = Refreshing)); [apply emits_record; by eexists|].
    intros l2 _ (p & -> & Ep). eapply emits_bind; [apply refresh_same|]. intros l3 r' [R3 Sa]. apply emits_ret. rewrite app_nil_r.
    exists preview, done, l, (l1 ++ [Emitted p] ++ l3), S, T. do 7 (split; [done|]).
    rewrite !omap_app, (executions_reads l R), (executing_reads l R), (executions_reads l3 R3), (executing_reads l3 R3).
    replace (omap executing [Emitted p]) with (@nil (Z * Z)) by (by destruct p; cbn in Ep; subst).
    cbn [app omap list_omap execution]. rewrite !app_nil_r. split; [|done]. by eapply reports_same.
Qed.
Lemma merge_err {T : Type} (e : str) errors : exists e', merge_operation_with_cleanup_errors (Err e : result T str) errors = Err e'.
Proof. unfold merge_operation_with_cleanup_errors. destruct (is_empty errors); by eexists. Qed.
Lemma with_connections_trace sc tc sn tn operation carried :
  (forall s t, emits (operation s t) (carried s t)) -> (forall s t l e, carried s t l (Err e) -> omap execution l = []) ->
  emits (with_temporary_execution_connections outside sc tc sn tn operation) (fun l r =>
    match r with
    | Err _ => omap execution l = []
    | Ok report => exists s t l1 report', l = [Opened sc (Ok s); Opened tc (Ok t)] ++ l1 ++ [Closed s; Closed t] /\
                                          carried s t l1 (Ok report') /\ same_report report' report
    end).
Proof.
  intros H He.
  eapply (emits_bind _ _ (fun l a => match a with Ok (s, t) => l = [Opened sc (Ok s); Opened tc (Ok t)] | Err r => omap execution l = [] /\ exists e, r = Err e end)).
  - eapply (emits_bind _ _ (fun l a => l = [Opened sc a])); [by apply emits_call|]. intros l a ->.
    eapply (emits_bind _ _ (fun l b => l = [Opened tc b])); [by apply emits_call|]. intros l b ->.
    destruct a as [s|e], b as [t|e']; [by apply emits_ret|..|apply emits_ret; split; [done|by eexists]];
      (eapply (emits_bind _ _ (fun l _ => omap execution l = [])); [by apply emits_call|]);
      intros l x Hl; apply emits_ret; (split; [by rewrite !omap_app, Hl|]); apply merge_err.
  - intros l [[s t]|r] Hl; [|destruct Hl as [Hl [e ->]]; apply emits_ret; by rewrite app_nil_r]. subst l.
    eapply emits_bind; [apply H|]. intros l1 a H1.
    eapply (emits_bind _ _ (fun l _ => l = [Closed s])); [by apply emits_call|]. intros l2 b ->.
    eapply (emits_bind _ _ (fun l _ => l = [Closed t])); [by apply emits_call|]. intros l3 d ->.
    apply emits_ret. rewrite app_nil_r. destruct a as [report|e].
    + exists s, t, l1, report. split; [done|]. split; [done|]. same.
    + apply He in H1. destruct (merge_err (T := DatabaseSyncExecutionResult) e (cleanup_error (u "源端") b ++ cleanup_error (u "目标端") d)) as [e' E1].
      unfold merge_execution_and_cleanup, merge_operation_and_cleanup. rewrite E1, !omap_app, H1. done.
Qed.

(** The same for a whole execution: [l] is what was called after the saved
    connections were loaded. *)
Definition carried_out (saved : list ConnectionConfig) (input : ExecuteDatabaseSyncRequest) (l : list Call)
    (r : result DatabaseSyncExecutionResult str) : Prop :=
  match r with
  | Err _ => omap execution l = []
  | Ok report => exists sc tc request s t preview done,
      resolve_sync_configs saved (ex_request input) = Ok (sc, tc) /\ normalize_sync_request (ex_request input) = Ok request /\
      Opened sc (Ok s) ∈ l /\ Opened tc (Ok t) ∈ l /\ planned_first sc request s t preview l /\
      pv_plan_fingerprint preview = ex_plan_fingerprint input /\
      validate_executable_preview preview (sq_include_drops request) = Ok tt /\
      reports t (pv_operations preview) report done (omap execution l) /\
      omap executing l = (0, statement_count (pv_operations preview)) :: ticks 0 (length done) (statement_count (pv_operations preview))
  end.
Lemma with_saved_trace saved input :
  emits (execute_database_sync_with_saved outside plan_table sha256_hex payload_vec saved input) (carried_out saved input).
Proof.
  apply emits_lift; [done|]. intros [sc tc] Er. apply emits_lift; [done|]. intros request En.
  eapply emits_weaken; [apply (with_connections_trace _ _ _ _ _ (fun s t => carried (cc_database_type sc) s t request (ex_plan_fingerprint input)));
    [intros s t; apply pools_trace|done]|].
  intros l [report|e]; [|done].
  intros (s & t & l1 & report' & -> & (preview & done & before & after & S & T & -> & R & Hs & Ht & B & Ef & Ex & Re & Tk) & Sa).
  exists sc, tc, request, s, t, preview, done. split; [by apply Er|]. split; [done|]. split; [by left|]. split; [right; by left|]. split.
  { exists ([Opened sc (Ok s); Opened tc (Ok t)] ++ before), (after ++ [Closed s; Closed t]), S, T.
    split; [by rewrite <- !(assoc app)|]. rewrite omap_app, (executions_reads before R). split; [done|].
    split; [apply elem_of_app; by right|]. split; [apply elem_of_app; by right|]. exact B. }
  split; [done|]. split; [done|]. rewrite !omap_app. rewrite !omap_app in Re. rewrite !omap_app in Tk. cbn [omap list_omap execution executing app]. rewrite !app_nil_r.
  split; [by eapply reports_same|done].
Qed.

Lemma redact_same r saved report : redact_execution_result r saved = Ok report -> exists report', r = Ok report' /\ same_report report' report.
Proof. destruct r as [report'|e]; [|discriminate]. intros [= <-]. exists report'. split; [done|]. same. Qed.
Lemma redact_err r saved e : redact_execution_result r saved = Err e -> exists e', r = Err e'.
Proof. destruct r; [discriminate|]. by eexists. Qed.
Lemma command_trace input :
  emits (execute_database_sync_command_with_loader outside plan_table sha256_hex payload_vec input) (fun l r =>
    match r with
    | Err _ => omap execution l = []
    | Ok report => exists saved l1, l = [Emitted (mkProgress (ex_plan_fingerprint input) Validating 0 0); LoadedSaved (Ok saved)] ++ l1 /\
                                    carried_out saved input l1 (Ok report)
    end).
Proof.
  eapply (emits_bind _ _ (fun l _ => l = [_])); [by apply emits_record|]. intros l _ ->.
  eapply (emits_bind _ _ (fun l a => l = [LoadedSaved a])); [by apply emits_call|]. intros l [saved|e] ->; [|by apply emits_ret].
  eapply emits_bind; [apply with_saved_trace|]. intros l r H. apply emits_ret. rewrite app_nil_r.
  destruct (redact_execution_result r saved) as [report|e] eqn:Er.
  - apply redact_same in Er as (report' & -> & Sa). exists saved, l. split; [done|].
    destruct H as (sc & tc & request & s & t & preview & done & H1 & H2 & H3 & H4 & H5 & H6 & H7 & H8 & H9).
    exists sc, tc, request, s, t, preview, done. do 7 (split; [done|]). split; [by eapply reports_same|done].
  - apply redact_err in Er as [e' ->]. exact H.
Qed.
Lemma invalidate_trace connections database :
  emits (invalidate_all connections database : Act unit) (fun l _ => l = map (fun c => Invalidated c database) connections).
Proof.
  induction connections as [|c l IH]; [by apply emits_ret|].
  eapply (emits_bind _ _ (fun l _ => l = [Invalidated c database])); [by apply emits_record|]. intros l1 _ ->.
  eapply emits_weaken; [exact IH|]. by intros l2 _ ->.
Qed.
Lemma resolved saved request sc tc : resolve_sync_configs saved request = Ok (sc, tc) -> cc_read_only tc <> Some true.
Proof.
  unfold resolve_sync_configs. intros H. apply rbind_ok_inv in H as (s & _ & H). apply rbind_ok_inv in H as (t & _ & H).
  apply rbind_ok_inv in H as (_ & _ & H). apply rbind_ok_inv in H as ([] & V & H). injection H as -> ->.
  unfold validate_sync_target in V. by case_bool_decide.
Qed.
Lemma normalized_drops request request' : normalize_sync_request request = Ok request' -> sq_include_drops request' = sq_include_drops request.
Proof. unfold normalize_sync_request. intros H. apply rbind_ok_inv in H as (l & _ & H). by injection H as <-. Qed.

Lemma execute_trace input :
  emits (execute_database_sync outside plan_table sha256_hex payload_vec input) (fun l r =>
    match r with
    | Err _ => omap execution l = []
    | Ok report => exists saved sc tc request s t preview done, confirmed input l report saved sc tc request s t preview done
    end).
Proof.
  eapply emits_bind; [apply command_trace|]. intros l r H.
  destruct r as [report|e]; [|apply emits_ret; by rewrite app_nil_r].
  destruct H as (saved & l1 & -> & sc & tc & request & s & t & preview & done & H1 & H2 & H3 & H4 & H5 & H6 & H7%executable & H8 & H9).
  assert (G : forall l2, omap execution l2 = [] -> omap executing l2 = [] ->
    (done <> [] -> exists connections, l2 = AskedConnections (er_saved_connection_id (sq_target (ex_request input))) connections
                 :: map (fun c => Invalidated c (er_database (sq_target (ex_request input)))) connections) ->
    confirmed input (([Emitted (mkProgress (ex_plan_fingerprint input) Validating 0 0); LoadedSaved (Ok saved)] ++ l1) ++ l2) report
      saved sc tc request s t preview done).
  { intros l2 X T C. split; [right; by left|done|by eapply resolved|done| | | |done|by apply H7| | | |].
    - do 2 right. apply elem_of_app. by left.
    - do 2 right. apply elem_of_app. by left.
    - destruct H5 as (before & after & S & T1 & -> & Xb & Hs & Ht & B).
      exists ([Emitted (mkProgress (ex_plan_fingerprint input) Validating 0 0); LoadedSaved (Ok saved)] ++ before), (after ++ l2), S, T1.
      split; [by rewrite <- !(assoc app)|]. rewrite omap_app, Xb. split; [done|].
      split; [apply elem_of_app; by right|]. split; [apply elem_of_app; by right|done].
    - intros D. apply H7. by rewrite (normalized_drops _ _ H2).
    - by rewrite !omap_app, X, app_nil_r.
    - by rewrite !omap_app, T, app_nil_r.
    - intros D. destruct (C D) as [connections ->]. by eexists _, connections. }
  assert (Ed : changed_something (Ok report) = negb (is_empty done)) by (cbn; by rewrite (proj1 H8), completed_empty).
  rewrite Ed. destruct done as [|x done]; cbn [is_empty negb]; cbn zeta.
  - apply emits_ret. exists saved, sc, tc, request, s, t, preview, []. by apply G.
  - eapply (emits_bind _ _ (fun l a => l = [AskedConnections _ a])); [by apply emits_call|]. intros l2 connections ->.
    eapply emits_bind; [apply invalidate_trace|]. intros l3 _ ->. apply emits_ret. rewrite app_nil_r.
    exists saved, sc, tc, request, s, t, preview, (x :: done). apply G; [| |intros _; by exists connections];
      cbn; clear; by induction connections.
Qed.
(** C15: an execution does what was confirmed, on the target only, and reports it.
    When it fails as a whole no statement was executed.  When it returns a
    report, the saved connections were loaded and the request resolved in them,
    the target is not read-only, both connections were opened, and before the
    first statement the two catalogues were read and gave a preview that bears
    the confirmed fingerprint, has no blocker, at least one operation and no drop
    unless the request includes drops.  The statements carried out are all on the
    target, are a prefix of the preview's, in order, up to the first one the
    target refuses, and the report is exact about them; the progress counts
    them; and when any was carried out the cached metadata of every open
    connection of the target were invalidated last. *)
Theorem sync_executes_confirmed input w : exists l,
  let '(r, w') := execute_database_sync outside plan_table sha256_hex payload_vec input w in
  wd_calls w' = wd_calls w ++ l /\
  match r with
  | Err _ => omap execution l = []
  | Ok report => exists saved source_config target_config request source target preview done,
      confirmed input l report saved source_config target_config request source target preview done
  end.
Proof.
  destruct (execute_trace input w) as (l & E1 & H1). exists l. by destruct (execute_database_sync _ _ _ _ _ _).
Qed.

(** ** From the preview to the execution *)

Lemma merged_ok {T : Type} (r : result T str) errors v : merge_operation_with_cleanup_errors r errors = Ok v -> r = Ok v.
Proof. unfold merge_operation_with_cleanup_errors. by destruct r, (is_empty errors). Qed.
Lemma previewed request :
  emits (preview_database_sync outside plan_table sha256_hex payload_vec request) (fun _ r => forall p, r = Ok p ->
    exists ty request' S T, build ty request' S T = Ok p).
Proof.
  eapply (emits_bind _ _ (fun _ _ => True)); [by apply emits_call|]. intros _ [saved|e] _; [|by apply emits_ret].
  eapply (emits_bind _ _ (fun _ r => forall p, r = Ok p -> exists ty request' S T, build ty request' S T = Ok p));
    [|intros _ r H; apply emits_ret; intros p ->%map_err_ok_inv; by apply H].
  apply emits_lift; [done|]. intros [sc tc] _. apply emits_lift; [done|]. intros request' _.
  eapply (emits_bind _ _ (fun _ a => match a with Ok _ => True | Err r => exists e, r = Err e end)).
  - eapply (emits_bind _ _ (fun _ _ => True)); [by apply emits_call|]. intros _ a _.
    eapply (emits_bind _ _ (fun _ _ => True)); [by apply emits_call|]. intros _ b _.
    destruct a as [s|e], b as [t|e']; [by apply emits_ret|..|apply emits_ret; by eexists];
      (eapply (emits_bind _ _ (fun _ _ => True)); [by apply emits_call|]); intros _ x _; apply emits_ret; apply merge_err.
  - intros _ [[s t]|r] H; [|destruct H as [e ->]; by apply emits_ret].
    eapply emits_bind; [apply preview_trace|]. intros l1 a [_ Ha].
    eapply (emits_bind _ _ (fun _ _ => True)); [by apply emits_call|]. intros _ b _.
    eapply (emits_bind _ _ (fun _ _ => True)); [by apply emits_call|]. intros _ d _.
    apply emits_ret. intros p ->%merged_ok. destruct (Ha p eq_refl) as (S & T & _ & _ & B). by exists (cc_database_type sc), request', S, T.
Qed.

(** The hash and the encoding give the fingerprint of [p] to one payload only. *)
Definition one_preimage (p : DatabaseSyncPreview) : Prop := forall x y bx by',
  payload_vec x = Ok bx -> payload_vec y = Ok by' ->
  sha256_hex bx = pv_plan_fingerprint p -> sha256_hex by' = pv_plan_fingerprint p -> x = y.
Lemma fingerprint_fixes_preview ty ty' request request' S T S' T' p p' : one_preimage p ->
  build ty request S T = Ok p -> build ty' request' S' T' = Ok p' -> pv_plan_fingerprint p' = pv_plan_fingerprint p -> p' = p.
Proof.
  intros U (sel & plans & M)%preview_made (sel' & plans' & M')%preview_made F.
  destruct (mo_fingerprint _ _ _ _ _ _ _ _ _ _ M) as (b & Eb & Fb). destruct (mo_fingerprint _ _ _ _ _ _ _ _ _ _ M') as (b' & Eb' & Fb').
  pose proof (U _ _ _ _ Eb Eb' (eq_sym Fb) (eq_trans (eq_sym Fb') F)) as X. injection X as Es1 Es2 Es3 Es4 Et1 Et2 Eo Ek El.
  pose proof (mo_summary _ _ _ _ _ _ _ _ _ _ M) as Su. pose proof (mo_summary _ _ _ _ _ _ _ _ _ _ M') as Su'.
  pose proof (mo_can_execute _ _ _ _ _ _ _ _ _ _ M) as Ca. pose proof (mo_can_execute _ _ _ _ _ _ _ _ _ _ M') as Ca'.
  destruct p as [f su o k bl ca], p' as [f' su' o' k' bl' ca']. cbn in *. subst. done.
Qed.

End Executed.

(** What the user saw is what is executed.  When a preview was shown, when its
    fingerprint has one preimage only, and when a later execution confirmed with
    that fingerprint returns a report -- after any changes of the saved
    connections and of the databases in between -- then the statements carried
    out and reported are those of the preview that was shown. *)
Theorem shown_plan_is_executed {Conn E : Type} (outside : Outside Conn E) plan_table sha256_hex payload_vec
    request shown w0 input w report :
  (preview_database_sync outside plan_table sha256_hex payload_vec request w0).1 = Ok shown ->
  one_preimage sha256_hex payload_vec shown ->
  ex_plan_fingerprint input = pv_plan_fingerprint shown ->
  (execute_database_sync outside plan_table sha256_hex payload_vec input w).1 = Ok report ->
  exists l target done,
    wd_calls (execute_database_sync outside plan_table sha256_hex payload_vec input w).2 = wd_calls w ++ l /\
    reports target (pv_operations shown) report done (omap execution l).
Proof.
  intros Hp U F Hr. destruct (previewed outside plan_table sha256_hex payload_vec request w0) as (_ & _ & P).
  destruct (P shown Hp) as (ty & request' & S & T & B).
  destruct (execute_trace outside plan_table sha256_hex payload_vec input w) as (l & El & H). rewrite Hr in H.
  destruct H as (saved & sc & tc & request1 & s & t & preview & done & [_ _ _ _ _ _ Pl Fp _ _ Re _ _]).
  destruct Pl as (before & after & S1 & T1 & _ & _ & _ & _ & B1).
  assert (X : preview = shown) by (eapply fingerprint_fixes_preview; [exact U|exact B|exact B1|congruence]).
  rewrite X in Re. by exists l, t, done.
Qed.

(** ** A run *)

#[export] Instance DatabaseSyncRequest_eq_dec : EqDecision DatabaseSyncRequest.
Proof. unfold EqDecision, Decision. repeat decide equality. Defined.
#[export] Instance DatabaseSyncOperation_eq_dec : EqDecision DatabaseSyncOperation.
Proof. unfold EqDecision, Decision. repeat decide equality. Defined.
#[export] Instance SyncNote_eq_dec : EqDecision SyncNote.
Proof. solve_decision. Defined.
#[export] Instance FingerprintPayload_eq_dec : EqDecision FingerprintPayload.
Proof. solve_decision. Defined.

(** The sample of SyncConverge behind two saved connections; the target refuses
    the third statement. *)
Definition sample_config (name : String.string) : ConnectionConfig :=
  Connections.mkConnection (Some (u name)) Sqlite (u name) [] 0 [] None None (Some (u "/db")) None None None None None None None None None None None.
Definition sample_payload : FingerprintPayload :=
  mkFingerprintPayload (with_selection SyncConverge.sample_request [u "log"; u "users"])
    (fingerprint_tables SyncConverge.sample_source [u "log"; u "users"]) (fingerprint_tables SyncConverge.sample_target [u "log"; u "users"])
    (pv_operations SyncConverge.sample_preview) (pv_skipped_items SyncConverge.sample_preview) (pv_blockers SyncConverge.sample_preview).
Definition exact_vec (x : FingerprintPayload) : result bytes str := Ok (if decide (x = sample_payload) then [] else [0]).
Definition sample_outside : Outside bool Z :=
  mkOutside (fun e => (Ok [sample_config "a"; sample_config "b"], e)) (fun c e => (Ok (str_eqb (cc_name c) (u "b")), e))
    (fun _ e => (Ok tt, e)) (fun _ e => (Ok [u "main"], e)) (fun _ _ e => (Err [], e))
    (fun c _ e => (Ok (if c then SyncConverge.sample_target else SyncConverge.sample_source), e))
    (fun _ _ e => (if e <? 2 then Ok tt else Err (u "locked"), e + 1)) (fun e => (Ok [], e)) (fun _ e => ([u "c7"], e)).
Definition sample_world : World bool Z := mkWorld 0 [].
Abbreviation sample_shown := (preview_database_sync sample_outside SyncConverge.sample_planners SyncConverge.sample_sha256 exact_vec SyncConverge.sample_request).
Abbreviation sample_execute :=
  (execute_database_sync sample_outside SyncConverge.sample_planners SyncConverge.sample_sha256 exact_vec
    (mkExecute SyncConverge.sample_request (u "0"))).
Definition shown_preview : DatabaseSyncPreview :=
  match (sample_shown sample_world).1 with Ok p => p | Err _ => SyncConverge.sample_preview end.
Lemma exact_vec_inj x b : exact_vec x = Ok b -> SyncConverge.sample_sha256 b = SyncConverge.sample_sha256 [] -> x = sample_payload.
Proof.
  unfold exact_vec. generalize sample_payload as p. intros p [= <-]. destruct (decide (x = p)); [done|discriminate].
Qed.
Lemma exact_preimage : one_preimage SyncConverge.sample_sha256 exact_vec shown_preview.
Proof.
  assert (F : pv_plan_fingerprint shown_preview = SyncConverge.sample_sha256 []) by (vm_compute; reflexivity).
  intros x y bx b' Hx Hy. rewrite F. intros Sx Sy. by rewrite (exact_vec_inj x bx Hx Sx), (exact_vec_inj y b' Hy Sy).
Qed.

Example sample_run :
  match (sample_execute sample_world).1 with
  | Ok report => er_status report = PartiallySucceeded /\ zlen (er_completed_statements report) = 2 /\ er_pending_operation_ids report = []
  | Err _ => False
  end.
Proof. vm_compute. done. Qed.
Definition sample_report : DatabaseSyncExecutionResult :=
  match (sample_execute sample_world).1 with Ok r => r | Err _ => mkExecution Failed [] None [] [] None end.
Lemma shown_plan_is_executed_witness : exists l target done,
  wd_calls (sample_execute sample_world).2 = [] ++ l /\ reports target (pv_operations shown_preview) sample_report done (omap execution l).
Proof.
  apply (shown_plan_is_executed sample_outside SyncConverge.sample_planners SyncConverge.sample_sha256 exact_vec SyncConverge.sample_request
    shown_preview sample_world (mkExecute SyncConverge.sample_request (u "0")) sample_world sample_report);
    [vm_compute; reflexivity|exact exact_preimage|vm_compute; reflexivity..].
Defined.

End SyncExecution.
