(* ===== verification/PageCache.v ===== *)
(** The metadata and cursor cache behind the table pages
    (src-tauri/src/db/table_pagination.rs, up to [valid_cursor]).

    The cache is one record behind one mutex; a function that takes the mutex
    once is one atomic step on [PaginationCache].  [load_table_metadata] takes it
    up to four times, with a read of the server's catalogue in between, and is
    modelled as a machine whose steps other requests may come between.  A step
    reads the clock and the iteration order of the hash maps from [Env]. *)
From S2P Require Import Prelude RustText.

Module PageCache.

Definition CACHE_TTL : Z := 300000000000.
Definition MAX_METADATA : Z := 256.
Definition MAX_CURSORS : Z := 4096.

(** ** Data *)

Inductive Engine : Type := MySql | Postgres.
#[export] Instance engine_eq_dec : EqDecision Engine.
Proof. solve_decision. Defined.
#[export] Program Instance engine_countable : Countable Engine :=
  inj_countable' (fun e => match e with MySql => true | Postgres => false end)
    (fun b => if b then MySql else Postgres) _.
Next Obligation. by intros []. Qed.

Record PageContext : Type := mkContext {
  engine : Engine; connection : str; database : str; table : str; filter_sql : str;
  sort : list (str * str); page_size : Z }.
#[export] Instance context_eq_dec : EqDecision PageContext.
Proof. solve_decision. Defined.

Inductive IntegerKind : Type := Signed | Unsigned.
#[export] Instance kind_eq_dec : EqDecision IntegerKind.
Proof. solve_decision. Defined.

(** [SignedValue] holds an i64, [UnsignedValue] a u64. *)
Inductive IntegerValue : Type := SignedValue (v : Z) | UnsignedValue (v : Z).
#[export] Instance value_eq_dec : EqDecision IntegerValue.
Proof. solve_decision. Defined.

(** A column as db/mysql_deferred_fields.rs describes it. *)
Record MysqlColumn : Type := mkMysqlColumn { mc_name : str; mc_data_type : str; mc_unsigned : bool; mc_invisible : bool }.

Record ColumnMetadata : Type := mkColumn {
  col_name : str; primary_position : option Z; integer_kind : option IntegerKind }.

Record TableMetadata : Type := mkMetadata {
  columns : list str;
  primary_keys : list str;
  reliable_primary_keys : bool;
  mysql_columns : list MysqlColumn;
  trusted_primary_key : bool;
  key : option (str * IntegerKind);
  revision : str;
}.

Record TablePageNavigation : Type := mkNavigation { direction : str; cursor : str }.

(** ** Integers of a key *)

Definition value_sql (v : IntegerValue) : str :=
  match v with SignedValue v => show_Z v | UnsignedValue v => show_Z v end.
Definition from_postgres (value : str) : option IntegerValue := SignedValue <$> parse_i64 value.

(** The variants of the driver's value that [from_mysql] tells apart. *)
Inductive MysqlValue : Type := VBytes (b : bytes) | VInt (v : Z) | VUInt (v : Z) | VOther.

Definition i64_max : Z := 9223372036854775807.
Definition from_mysql (value : MysqlValue) (kind : IntegerKind) : option IntegerValue :=
  match value, kind with
  | VBytes b, Signed => text ← from_utf8 b; SignedValue <$> parse_i64 text
  | VBytes b, Unsigned => text ← from_utf8 b; UnsignedValue <$> parse_u64 text
  | VInt v, Signed => Some (SignedValue v)
  | VUInt v, Unsigned => Some (UnsignedValue v)
  | VInt v, Unsigned => if 0 <=? v then Some (UnsignedValue v) else None
  | VUInt v, Signed => if v <=? i64_max then Some (SignedValue v) else None
  | VOther, _ => None
  end.

(** ** Metadata *)

Definition position_cmp (a b : option Z) : comparison :=
  match a, b with
  | None, None => Eq | None, Some _ => Lt | Some _, None => Gt | Some x, Some y => Z.compare x y
  end.
Definition mem (x : str) (l : list str) : bool := existsb (str_eqb x) l.

(** [fresh_revision] is the random UUID. *)
Definition metadata_new (fresh_revision : str) (cols : list ColumnMetadata) (trusted : bool) : TableMetadata :=
  let primary := sort_by (cmp_on primary_position position_cmp) (List.filter (fun c => is_some (primary_position c)) cols) in
  mkMetadata (map col_name cols) (map col_name primary) false [] trusted
    (match trusted, primary with
     | true, [c] => (fun kind => (col_name c, kind)) <$> integer_kind c
     | _, _ => None
     end) fresh_revision.

Definition with_primary_key_evidence (complete_primary_keys : list str) (m : TableMetadata) : TableMetadata :=
  mkMetadata (columns m) (primary_keys m)
    (trusted_primary_key m && negb (is_empty (primary_keys m))
     && (zlen (primary_keys m) =? zlen complete_primary_keys)
     && forallb (fun k => mem k complete_primary_keys) (primary_keys m))
    (mysql_columns m) (trusted_primary_key m)
    (match key m, complete_primary_keys with
     | Some (column, kind), [primary] => if str_eqb column primary then key m else None
     | _, _ => None
     end) (revision m).

Definition selected_columns (m : TableMetadata) (requested : option (list str)) : option (list str) :=
  match requested with
  | None | Some [] => None
  | Some cols => Some (fold_left (fun cols primary => if mem primary cols then cols else cols ++ [primary]) (primary_keys m) cols)
  end.

(** ** The cache *)

Definition TableIdentity : Type := Engine * str * str * str.
Definition table_identity (c : PageContext) : TableIdentity := (engine c, connection c, database c, table c).

Record Timed (T : Type) : Type := mkTimed { value : T; created : Z }.
Arguments mkTimed {T}. Arguments value {T}. Arguments created {T}.

Record Cursor : Type := mkCursor {
  cur_context : PageContext; cur_revision : str; cur_page : Z; cur_direction : str; cur_value : IntegerValue }.

Record PaginationCache : Type := mkCache {
  metadata : gmap TableIdentity (Timed TableMetadata);
  cursors : gmap str (Timed Cursor);
  generations : gmap str Z;
  connection_epochs : gmap str Z;
  disconnected : gset str;
}.
Definition empty_cache : PaginationCache := mkCache ∅ ∅ ∅ ∅ ∅.

Record Env : Type := mkEnv {
  env_now : Z;
  metadata_order : gmap TableIdentity (Timed TableMetadata) -> list (TableIdentity * Timed TableMetadata);
  cursor_order : gmap str (Timed Cursor) -> list (str * Timed Cursor);
}.

Definition fresh {T} (now : Z) (e : Timed T) : bool := sat_sub now (created e) <? CACHE_TTL.

Definition set_metadata m (c : PaginationCache) := mkCache m (cursors c) (generations c) (connection_epochs c) (disconnected c).
Definition set_cursors k (c : PaginationCache) := mkCache (metadata c) k (generations c) (connection_epochs c) (disconnected c).
Definition count_of (m : gmap str Z) (connection : str) : Z := default 0 (m !! connection).

(** [iter().min_by_key(..)]: the first of the least elements. *)
Fixpoint oldest {K T} (l : list (K * Timed T)) : option (K * Timed T) :=
  match l with
  | [] => None
  | x :: l => match oldest l with Some y => if created y.2 <? created x.2 then Some y else Some x | None => Some x end
  end.

Definition trim_cache {K T} `{Countable K} (now : Z) (order : gmap K (Timed T) -> list (K * Timed T)) (capacity : Z)
  (entries : gmap K (Timed T)) : gmap K (Timed T) :=
  let entries := filter (fun kv => fresh now kv.2 = true) entries in
  if capacity <=? Z.of_nat (size entries)
  then match oldest (order entries) with Some (k, _) => delete k entries | None => entries end
  else entries.

Definition live_entry (now : Z) (m : gmap TableIdentity (Timed TableMetadata)) (t : TableIdentity) : option TableMetadata :=
  match m !! t with Some e => if fresh now e then Some (value e) else None | None => None end.

Definition cached_table_metadata (now : Z) (ctx : PageContext) (c : PaginationCache) : option TableMetadata :=
  live_entry now (metadata c) (table_identity ctx).

Definition metadata_generation (connection : str) (c : PaginationCache) : Z := count_of (generations c) connection.

Definition remember_metadata_if_current (env : Env) (ctx : PageContext) (m : TableMetadata) (generation : Z)
  (c : PaginationCache) : option TableMetadata * PaginationCache :=
  if bool_decide (connection ctx ∈ disconnected c) || negb (count_of (generations c) (connection ctx) =? generation)
  then (None, c)
  else
    (Some m, set_metadata
      (<[table_identity ctx := mkTimed m (env_now env)]> (trim_cache (env_now env) (metadata_order env) MAX_METADATA (metadata c))) c).

(** [is_none_or(|value| value == name)] *)
Definition covers (scope : option str) (name : str) : bool :=
  match scope with None => true | Some s => str_eqb s name end.
Definition scope_matches (conn : str) (db tbl : option str) (c d t : str) : bool :=
  str_eqb c conn && covers db d && covers tbl t.
Definition identity_matches (conn : str) (db tbl : option str) (t : TableIdentity) : bool :=
  let '(_, c, d, n) := t in scope_matches conn db tbl c d n.

Definition invalidate_cache_scope (conn : str) (db tbl : option str) (c : PaginationCache) : PaginationCache :=
  mkCache
    (filter (fun kv => identity_matches conn db tbl kv.1 = false) (metadata c))
    (filter (fun kv => let x := cur_context (value kv.2) in
                       scope_matches conn db tbl (connection x) (database x) (table x) = false) (cursors c))
    (<[conn := wrap64 (count_of (generations c) conn + 1)]> (generations c))
    (connection_epochs c) (disconnected c).
Definition invalidate_table_metadata (conn : str) (db tbl : option str) (c : PaginationCache) : PaginationCache :=
  invalidate_cache_scope conn db tbl c.

Definition close_table_metadata_connection (conn : str) (c : PaginationCache) : PaginationCache :=
  invalidate_cache_scope conn None None
    (mkCache (metadata c) (cursors c) (generations c)
       (<[conn := wrap64 (count_of (connection_epochs c) conn + 1)]> (connection_epochs c)) ({[conn]} ∪ disconnected c)).
Definition activate_table_metadata_connection (conn : str) (c : PaginationCache) : PaginationCache :=
  invalidate_cache_scope conn None None
    (mkCache (metadata c) (cursors c) (generations c) (connection_epochs c) (disconnected c ∖ {[conn]})).

(** [operation] is what the awaited statement answered, [c] the cache then. *)
Definition with_table_metadata_invalidation {T} (conn : str) (scopes : list (option str * option str))
  (operation : result T str) (c : PaginationCache) : result T str * PaginationCache :=
  match operation with
  | Err e => (Err e, c)
  | Ok x => (Ok x, fold_left (fun c '(db, tbl) => invalidate_table_metadata conn db tbl c) scopes c)
  end.

(** [result_type] of the executed statement, when it succeeded. *)
Definition invalidate_metadata_after_sql_result (conn : str) (result_type : result str str) (c : PaginationCache) : PaginationCache :=
  match result_type with
  | Ok kind => if str_eqb kind (u "modify") then invalidate_table_metadata conn None None c else c
  | Err _ => c
  end.

(** ** Loading the metadata of a table *)

Definition closed_error : str := u "连接已断开，请重新连接后重试".
Definition changed_error : str := u "连接已变化，请重新连接后重试".
Definition retry_error : str := u "表结构在读取期间再次变化，请重试".

(** Where a load stands: in its first read of the catalogue, with the answer
    of that read, between the two attempts, in the second read, with its
    answer, or at its end. *)
Inductive Load : Type :=
| Reading (ctx : PageContext) (generation epoch : Z)
| Read (ctx : PageContext) (generation epoch : Z) (m : TableMetadata)
| Refused (ctx : PageContext) (epoch : Z)
| Rereading (ctx : PageContext) (generation : Z)
| Reread (ctx : PageContext) (generation : Z) (m : TableMetadata)
| Loaded (r : result TableMetadata str).

Definition load_begin (now : Z) (ctx : PageContext) (c : PaginationCache) : Load :=
  if bool_decide (connection ctx ∈ disconnected c) then Loaded (Err closed_error)
  else
    match live_entry now (metadata c) (table_identity ctx) with
    | Some m => Loaded (Ok m)
    | None => Reading ctx (count_of (generations c) (connection ctx)) (count_of (connection_epochs c) (connection ctx))
    end.

(** The answer of the reader. *)
Definition load_answer (answer : result TableMetadata str) (l : Load) : Load :=
  match l, answer with
  | (Reading _ _ _ | Rereading _ _), Err e => Loaded (Err e)
  | Reading ctx g e, Ok m => Read ctx g e m
  | Rereading ctx g, Ok m => Reread ctx g m
  | _, _ => l
  end.

(** The next critical section of a load that is not waiting for the reader. *)
Definition load_continue (env : Env) (l : Load) (c : PaginationCache) : Load * PaginationCache :=
  match l with
  | Read ctx g e m =>
    let '(r, c) := remember_metadata_if_current env ctx m g c in
    (match r with Some m => Loaded (Ok m) | None => Refused ctx e end, c)
  | Refused ctx e =>
    (if bool_decide (connection ctx ∈ disconnected c) || negb (count_of (connection_epochs c) (connection ctx) =? e)
     then Loaded (Err changed_error)
     else
       match live_entry (env_now env) (metadata c) (table_identity ctx) with
       | Some m => Loaded (Ok m)
       | None => Rereading ctx (count_of (generations c) (connection ctx))
       end, c)
  | Reread ctx g m =>
    let '(r, c) := remember_metadata_if_current env ctx m g c in (Loaded (ok_or r retry_error), c)
  | _ => (l, c)
  end.

(** ** Cursors *)

Definition valid_cursor (now : Z) (c : PaginationCache) (ctx : PageContext) (page : Z) (nav : TablePageNavigation) :
  option (Cursor * TableMetadata) :=
  k ← cursors c !! cursor nav;
  m ← metadata c !! table_identity ctx;
  if negb (fresh now k) || negb (fresh now m) || negb (bool_decide (cur_context (value k) = ctx))
     || negb (cur_page (value k) =? page) || negb (str_eqb (cur_direction (value k)) (direction nav))
     || negb (str_eqb (cur_revision (value k)) (revision (value m)))
  then None else Some (value k, value m).

Definition cached_metadata_for_navigation (now : Z) (ctx : PageContext) (page : Z) (nav : option TablePageNavigation)
  (c : PaginationCache) : option TableMetadata :=
  nav ← nav; '(_, m) ← valid_cursor now c ctx page nav; Some m.

End PageCache.
