(* ===== verification/PageCoherence.v ===== *)
(** The metadata cache of the table pages never serves a structure that the
    application has changed and announced.

    [World] puts the cache next to the server's tables and the loads under way:
    any number of loads, statements that change a table, invalidations, closed
    and reopened connections, in any interleaving of the cache's critical
    sections. *)
From S2P Require Import Prelude RustText PageCache.
Import PageCache.

Module PageCoherence.

Section Coherence.

(** [describes t v m]: [m] is what the catalogue says of version [v] of [t]. *)
Context (describes : TableIdentity -> Z -> TableMetadata -> Prop).

(** ** The world *)

Record World : Type := mkWorld {
  w_cache : PaginationCache;
  w_loads : list Load;
  w_version : TableIdentity -> Z;
  w_changed : TableIdentity -> bool;
  w_invalidations : Z;
}.

(** [w_changed t]: a statement has changed [t] and its invalidation is still
    to come. *)
Definition initial_world (versions : TableIdentity -> Z) : World :=
  mkWorld empty_cache [] versions (fun _ => false) 0.

Definition in_connection (conn : str) (t : TableIdentity) : bool := identity_matches conn None None t.

Definition put_load (i : nat) (l : Load) (c : PaginationCache) (w : World) : World :=
  mkWorld c (<[i := l]> (w_loads w)) (w_version w) (w_changed w) (w_invalidations w).
Definition announce (scope : TableIdentity -> bool) (c : PaginationCache) (w : World) : World :=
  mkWorld c (w_loads w) (w_version w) (fun t => w_changed w t && negb (scope t)) (w_invalidations w + 1).

Definition load_context (l : Load) : option PageContext :=
  match l with
  | Reading ctx _ _ | Read ctx _ _ _ | Refused ctx _ | Rereading ctx _ | Reread ctx _ _ => Some ctx
  | Loaded _ => None
  end.

Inductive step : World -> World -> Prop :=
| step_change w t v :
    step w (mkWorld (w_cache w) (w_loads w) (fun t' => if decide (t' = t) then v else w_version w t')
              (fun t' => if decide (t' = t) then true else w_changed w t') (w_invalidations w))
| step_invalidate w conn db tbl :
    step w (announce (identity_matches conn db tbl) (invalidate_table_metadata conn db tbl (w_cache w)) w)
| step_close w conn :
    step w (announce (in_connection conn) (close_table_metadata_connection conn (w_cache w)) w)
| step_activate w conn :
    step w (announce (in_connection conn) (activate_table_metadata_connection conn (w_cache w)) w)
| step_begin w now ctx :
    step w (mkWorld (w_cache w) (w_loads w ++ [load_begin now ctx (w_cache w)]) (w_version w) (w_changed w) (w_invalidations w))
| step_answer w i l ctx m :
    w_loads w !! i = Some l -> load_context l = Some ctx ->
    describes (table_identity ctx) (w_version w (table_identity ctx)) m ->
    step w (put_load i (load_answer (Ok m) l) (w_cache w) w)
| step_error w i l e :
    w_loads w !! i = Some l -> step w (put_load i (load_answer (Err e) l) (w_cache w) w)
| step_continue w i l env :
    w_loads w !! i = Some l ->
    step w (put_load i (load_continue env l (w_cache w)).1 (load_continue env l (w_cache w)).2 w)
| step_cursors w k :
    step w (mkWorld (set_cursors k (w_cache w)) (w_loads w) (w_version w) (w_changed w) (w_invalidations w)).

Definition reachable (versions : TableIdentity -> Z) (w : World) : Prop := rtc step (initial_world versions) w.

(** ** The invariant *)

Definition generation_of (w : World) (ctx : PageContext) : Z := count_of (generations (w_cache w)) (connection ctx).
Definition current (w : World) (t : TableIdentity) (m : TableMetadata) : Prop :=
  w_changed w t = false -> describes t (w_version w t) m.

Definition load_ok (w : World) (l : Load) : Prop :=
  match l with
  | Reading ctx g _ | Rereading ctx g => g <= generation_of w ctx
  | Read ctx g _ m | Reread ctx g m =>
    g <= generation_of w ctx /\ (g = generation_of w ctx -> current w (table_identity ctx) m)
  | Refused _ _ | Loaded _ => True
  end.

Record inv (w : World) : Prop := {
  inv_generations conn : 0 <= count_of (generations (w_cache w)) conn <= w_invalidations w;
  inv_metadata t e : metadata (w_cache w) !! t = Some e -> current w t (value e);
  inv_loads : Forall (load_ok w) (w_loads w);
  inv_closed conn t : conn ∈ disconnected (w_cache w) -> in_connection conn t = true -> metadata (w_cache w) !! t = None;
}.

Lemma trim_keeps {K T} `{Countable K} now order cap (m : gmap K (Timed T)) k e :
  trim_cache now order cap m !! k = Some e -> m !! k = Some e.
Proof.
  unfold trim_cache. set (m' := filter _ m). intros E.
  assert (m' !! k = Some e) as Q.
  { destruct (cap <=? _); [|done]. destruct (oldest _) as [[k' ?]|]; [|done].
    by apply lookup_delete_Some in E as [_ E]. }
  by apply map_lookup_filter_Some in Q as [Q _].
Qed.

Lemma count_of_insert m conn v conn' : count_of (<[conn := v]> m) conn' = if decide (conn = conn') then v else count_of m conn'.
Proof.
  unfold count_of. destruct (decide (conn = conn')) as [->|N]; [by rewrite lookup_insert_eq|by rewrite lookup_insert_ne].
Qed.

Lemma in_connection_identity conn ctx : in_connection conn (table_identity ctx) = true <-> connection ctx = conn.
Proof.
  unfold in_connection, table_identity. simpl. unfold scope_matches, covers, str_eqb.
  rewrite !andb_true_r. apply bool_decide_eq_true.
Qed.

Lemma scope_in_connection conn db tbl t : identity_matches conn db tbl t = true -> in_connection conn t = true.
Proof.
  destruct t as [[[e c] d] n]. unfold in_connection. simpl. unfold scope_matches. intros H. to_prop. simpl. by rewrite !andb_true_r.
Qed.

(** ** Preservation *)

Lemma remember_ok env ctx m g c r c' :
  remember_metadata_if_current env ctx m g c = (r, c') ->
  (r = None /\ c' = c) \/
  (r = Some m /\ connection ctx ∉ disconnected c /\ count_of (generations c) (connection ctx) = g
   /\ generations c' = generations c /\ disconnected c' = disconnected c
   /\ forall t e, metadata c' !! t = Some e -> (t = table_identity ctx /\ value e = m) \/ metadata c !! t = Some e).
Proof.
  unfold remember_metadata_if_current. destruct (_ || _) eqn:E; intros [= <- <-]; [by left|]. to_prop.
  right. split; [done|]. repeat split; [done..|]. simpl. intros t e [[<- <-]|[N L]]%lookup_insert_Some; [by left|].
  right. by eapply trim_keeps.
Qed.

(** What an invalidation does: the scope of it leaves the cache, and the
    generation of its connection moves on. *)
Lemma announce_inv w conn db tbl c :
  inv w -> w_invalidations w + 1 < 2 ^ 64 ->
  metadata c = metadata (w_cache w) -> generations c = generations (w_cache w) ->
  (forall x, x ∈ disconnected c -> x ∈ disconnected (w_cache w) \/ (x = conn /\ db = None /\ tbl = None)) ->
  inv (announce (identity_matches conn db tbl) (invalidate_cache_scope conn db tbl c) w).
Proof.
  intros [Ig Im Il Ic] B Em Eg Ed.
  assert (forall x, count_of (generations (invalidate_cache_scope conn db tbl c)) x
                    = if decide (conn = x) then count_of (generations (w_cache w)) conn + 1
                      else count_of (generations (w_cache w)) x) as G.
  { intros x. simpl. rewrite count_of_insert, Eg. destruct (decide _); [|done].
    apply wrap64_id. unfold u64_range, u64_max. pose proof (Ig conn). lia. }
  split.
  - intros x. simpl w_cache. rewrite G. simpl. pose proof (Ig x). pose proof (Ig conn). destruct (decide _); lia.
  - intros t e. simpl. intros [L S]%map_lookup_filter_Some. simpl in S. rewrite Em in L.
    unfold current. simpl. rewrite S, andb_true_r. by apply (Im t e).
  - simpl. eapply list.Forall_impl; [exact Il|]. intros l H.
    assert (forall ctx, count_of (generations (invalidate_cache_scope conn db tbl c)) (connection ctx)
       = if decide (conn = connection ctx) then generation_of w ctx + 1 else generation_of w ctx) as G'.
    { intros ctx. rewrite G. unfold generation_of. by destruct (decide _) as [->|]. }
    assert (forall ctx g m, g <= generation_of w ctx /\ (g = generation_of w ctx -> current w (table_identity ctx) m) ->
       let w' := announce (identity_matches conn db tbl) (invalidate_cache_scope conn db tbl c) w in
       g <= generation_of w' ctx /\ (g = generation_of w' ctx -> current w' (table_identity ctx) m)) as K.
    { intros ctx g m [H1 H2]. cbn zeta. unfold generation_of at 1 2. cbn [w_cache announce]. rewrite G'.
      destruct (decide _) as [D|D]; [split; lia|]. split; [done|]. intros E. specialize (H2 E).
      unfold current in *. cbn [w_changed w_version announce]. intros C. apply H2.
      destruct (identity_matches conn db tbl (table_identity ctx)) eqn:S.
      - apply scope_in_connection, in_connection_identity in S. congruence.
      - by rewrite andb_true_r in C. }
    destruct l; simpl in H |- *; try done; try (by apply K);
      unfold generation_of; cbn [w_cache announce]; rewrite G'; destruct (decide _); lia.
  - intros x t. cbn [w_cache announce]. intros Hx S. simpl.
    apply map_lookup_filter_None. rewrite Em. cbn [disconnected invalidate_cache_scope] in Hx.
    destruct (Ed x Hx) as [O|(-> & -> & ->)]; [left; by apply (Ic x)|].
    right. intros e L. simpl. unfold in_connection in S. by rewrite S.
Qed.

Lemma load_ok_cache w w' l :
  generations (w_cache w') = generations (w_cache w) -> w_version w' = w_version w -> w_changed w' = w_changed w ->
  load_ok w l -> load_ok w' l.
Proof. intros E1 E2 E3. destruct l; simpl; unfold generation_of, current; by rewrite ?E1, ?E2, ?E3. Qed.

Lemma live_entry_some now m t x : live_entry now m t = Some x -> exists e, m !! t = Some e /\ value e = x.
Proof.
  unfold live_entry. destruct (m !! t) as [e|]; [|done]. destruct (fresh now e); [|done]. intros [= <-]. by exists e.
Qed.

(** A load that continues keeps the cache current and, when it ends, ends
    with current metadata. *)
Lemma continue_ok w env l l' c' :
  inv w -> load_ok w l -> load_continue env l (w_cache w) = (l', c') ->
  load_ok w l' /\ generations c' = generations (w_cache w) /\ disconnected c' = disconnected (w_cache w)
  /\ (forall t e, metadata c' !! t = Some e ->
        current w t (value e) /\ (metadata (w_cache w) !! t = Some e \/ exists ctx, load_context l = Some ctx
           /\ t = table_identity ctx /\ connection ctx ∉ disconnected (w_cache w)))
  /\ forall ctx m, load_context l = Some ctx -> l' = Loaded (Ok m) -> current w (table_identity ctx) m.
Proof.
  intros I H E.
  assert (load_ok w l' -> c' = w_cache w ->
    (forall ctx m, load_context l = Some ctx -> l' = Loaded (Ok m) -> current w (table_identity ctx) m) ->
    load_ok w l' /\ generations c' = generations (w_cache w) /\ disconnected c' = disconnected (w_cache w)
    /\ (forall t e, metadata c' !! t = Some e ->
          current w t (value e) /\ (metadata (w_cache w) !! t = Some e \/ exists ctx, load_context l = Some ctx
             /\ t = table_identity ctx /\ connection ctx ∉ disconnected (w_cache w)))
    /\ forall ctx m, load_context l = Some ctx -> l' = Loaded (Ok m) -> current w (table_identity ctx) m) as Same.
  { intros L -> R. do 3 (split; [done|]). split; [|exact R]. intros t e Q. split; [by apply (inv_metadata w I)|by left]. }
  assert (forall ctx m g, g <= generation_of w ctx /\ (g = generation_of w ctx -> current w (table_identity ctx) m) ->
    forall r c, remember_metadata_if_current env ctx m g (w_cache w) = (r, c) -> r = Some m ->
    generations c = generations (w_cache w) /\ disconnected c = disconnected (w_cache w)
    /\ current w (table_identity ctx) m
    /\ forall t e, metadata c !! t = Some e ->
        current w t (value e) /\ (metadata (w_cache w) !! t = Some e \/ (t = table_identity ctx /\ connection ctx ∉ disconnected (w_cache w)))) as Kept.
  { intros ctx m g [_ Hm] r c R Er. apply remember_ok in R as [[-> _]|(_ & D & G & G' & D' & M)]; [done|].
    specialize (Hm (eq_sym G)). do 3 (split; [done|]). intros t e [[-> ->]|Q]%M.
    - split; [done|]. by right.
    - split; [by apply (inv_metadata w I)|by left]. }
  destruct l as [ctx g e|ctx g e m|ctx e|ctx g|ctx g m|r]; simpl in H, E.
  - injection E as <- <-. by apply Same.
  - destruct (remember_metadata_if_current env ctx m g (w_cache w)) as [r c] eqn:R. injection E as <- <-.
    destruct r as [m'|]; cycle 1.
    { pose proof (remember_ok _ _ _ _ _ _ _ R) as [[_ ->]|(? & _)]; [|done]. by apply Same. }
    assert (m' = m) as -> by (pose proof (remember_ok _ _ _ _ _ _ _ R) as [[? _]|(? & _)]; congruence).
    destruct (Kept ctx m g H _ _ R eq_refl) as (G & D & C & M). split; [done|]. do 2 (split; [done|]). split.
    + intros t x [? [?|[-> ?]]]%M; split; [done|by left|done|]. right. by exists ctx.
    + by intros ? ? [= <-] [= <-].
  - injection E as <- <-. destruct (_ || _); [by apply Same|].
    destruct (live_entry _ _ _) as [m|] eqn:L; apply Same; try done.
    + intros ? ? [= <-] [= <-]. apply live_entry_some in L as (x & L & <-). by apply (inv_metadata w I).
    + simpl. unfold generation_of. lia.
  - injection E as <- <-. by apply Same.
  - destruct (remember_metadata_if_current env ctx m g (w_cache w)) as [r c] eqn:R. injection E as <- <-.
    destruct r as [m'|]; cycle 1.
    { pose proof (remember_ok _ _ _ _ _ _ _ R) as [[_ ->]|(? & _)]; [|done]. by apply Same. }
    assert (m' = m) as -> by (pose proof (remember_ok _ _ _ _ _ _ _ R) as [[? _]|(? & _)]; congruence).
    destruct (Kept ctx m g H _ _ R eq_refl) as (G & D & C & M). split; [done|]. do 2 (split; [done|]). split.
    + intros t x [? [?|[-> ?]]]%M; split; [done|by left|done|]. right. by exists ctx.
    + by intros ? ? [= <-] [= <-].
  - injection E as <- <-. by apply Same.
Qed.

Lemma step_count w w' : step w w' -> w_invalidations w <= w_invalidations w'.
Proof. destruct 1; simpl; lia. Qed.

Lemma loads_put w w' i l' :
  Forall (load_ok w) (w_loads w) -> (forall l, load_ok w l -> load_ok w' l) -> load_ok w' l' ->
  Forall (load_ok w') (<[i := l']> (w_loads w)).
Proof.
  intros H K L. apply Forall_insert; [|done]. eapply list.Forall_impl; [exact H|]. intros l. apply K.
Qed.

Lemma pages_step_inv w w' : inv w -> step w w' -> w_invalidations w' < 2 ^ 64 -> inv w'.
Proof.
  intros I S B. destruct S as [w t v|w conn db tbl|w conn|w conn|w now ctx|w i l ctx m Hl Hc Hd|w i l e Hl|w i l env Hl|w k].
  - destruct I as [Ig Im Il Ic].
    assert (forall t' m, current w t' m -> current (mkWorld (w_cache w) (w_loads w)
       (fun t' => if decide (t' = t) then v else w_version w t')
       (fun t' => if decide (t' = t) then true else w_changed w t') (w_invalidations w)) t' m) as K.
    { intros t' m. unfold current. simpl. by destruct (decide _). }
    split; simpl; [done|intros t' e L; apply K; by apply (Im t')| |done].
    eapply list.Forall_impl; [exact Il|].
    intros [] H; simpl in H |- *; try exact H; try done; (split; [apply H|]; intros E; by apply K, H).
  - simpl in B. by apply announce_inv; auto.
  - simpl in B. apply announce_inv; [done|done|done|done|]. simpl. intros x [->%elem_of_singleton|Hx]%elem_of_union; auto.
  - simpl in B. apply announce_inv; [done|done|done|done|]. simpl. intros x [Hx _]%elem_of_difference. auto.
  - destruct I as [Ig Im Il Ic]. split; simpl; [done|done| |done]. apply Forall_app. split.
    + eapply list.Forall_impl; [exact Il|]. intros l. by apply load_ok_cache.
    + apply Forall_singleton. unfold load_begin. destruct (bool_decide _); [done|].
      destruct (live_entry _ _ _); [done|]. simpl. unfold generation_of. simpl. lia.
  - destruct I as [Ig Im Il Ic]. split; simpl; [done|done| |done].
    assert (H : load_ok w l) by (eapply Forall_lookup_1; [exact Il|exact Hl]).
    apply loads_put; [done|intros l'; by apply load_ok_cache|].
    destruct l as [c g ep|c g ep m'|c ep|c g|c g m'|r]; simpl in Hc; try done; injection Hc as ->; simpl in H |- *;
      try exact H; (split; [exact H|]; intros _ _; exact Hd).
  - destruct I as [Ig Im Il Ic]. split; simpl; [done|done| |done].
    assert (H : load_ok w l) by (eapply Forall_lookup_1; [exact Il|exact Hl]).
    apply loads_put; [done|intros l'; by apply load_ok_cache|]. destruct l; first [exact H|exact Logic.I].
  - assert (H : load_ok w l) by (eapply Forall_lookup_1; [apply (inv_loads _ I)|exact Hl]).
    destruct (load_continue env l (w_cache w)) as [l' c'] eqn:E.
    destruct (continue_ok w env l l' c' I H E) as (L & G & D & M & _). destruct I as [Ig Im Il Ic].
    split; simpl.
    + by rewrite G.
    + intros t e Q. by apply M in Q as [Q _].
    + apply loads_put; [done| |]; [intros x|revert L]; by apply load_ok_cache.
    + rewrite D. intros conn t Hc S. destruct (metadata c' !! t) as [e|] eqn:Q; [|done].
      apply M in Q as [_ [Q|(ctx & _ & -> & N)]]; [by rewrite (Ic conn t Hc S) in Q|].
      apply in_connection_identity in S as <-. done.
  - destruct I as [Ig Im Il Ic]. by split.
Qed.

Lemma pages_initial_inv versions : inv (initial_world versions).
Proof.
  split; simpl.
  - intros conn. unfold count_of. rewrite lookup_empty. simpl. lia.
  - intros t e. by rewrite lookup_empty.
  - done.
  - intros conn t. set_solver.
Qed.

Lemma pages_reachable_inv versions w : reachable versions w -> w_invalidations w < 2 ^ 64 -> inv w.
Proof.
  unfold reachable. generalize (pages_initial_inv versions). generalize (initial_world versions) as w0.
  intros w0 I R. induction R as [w|w w1 w2 S R IH]; intros B; [done|]. apply IH; [|done].
  apply (pages_step_inv w); [done|done|]. clear -R B. induction R as [|x y z S R IH]; [done|].
  apply step_count in S. specialize (IH B). lia.
Qed.


(** ** A load ends *)

(** Reads and critical sections still to come. *)
Definition steps_left (l : Load) : nat :=
  match l with Reading _ _ _ => 5 | Read _ _ _ _ => 4 | Refused _ _ => 3 | Rereading _ _ => 2 | Reread _ _ _ => 1 | Loaded _ => 0 end.
Definition waiting (l : Load) : bool := match l with Reading _ _ _ | Rereading _ _ => true | _ => false end.

Lemma load_progress env answer l c :
  steps_left l <> 0%nat ->
  (steps_left (if waiting l then load_answer answer l else (load_continue env l c).1) < steps_left l)%nat.
Proof.
  destruct l as [ctx g e|ctx g e m|ctx e|ctx g|ctx g m|r]; simpl; intros H.
  - destruct answer; simpl; lia.
  - destruct (remember_metadata_if_current _ _ _ _ _) as [[] ?]; simpl; lia.
  - destruct (_ || _); [simpl; lia|]. destruct (live_entry _ _ _); simpl; lia.
  - destruct answer; simpl; lia.
  - destruct (remember_metadata_if_current _ _ _ _ _) as [[] ?]; simpl; lia.
  - by destruct H.
Qed.

End Coherence.

(** The witness: a table changes while a load reads it, and the statement is
    announced before the load writes back; the load reads again. *)
Definition t_ctx : PageContext := mkContext MySql (u "c") (u "d") (u "t") [] [] 10.
Definition t_env : Env := mkEnv 0 map_to_list map_to_list.
Definition t_meta (v : Z) : TableMetadata := metadata_new (show_Z v) [] true.
Definition t_describes (t : TableIdentity) (v : Z) (m : TableMetadata) : Prop := m = t_meta v.

Definition w1 : World := mkWorld empty_cache [load_begin 0 t_ctx empty_cache] (fun _ => 0) (fun _ => false) 0.
Definition w2 : World := put_load 0 (load_answer (Ok (t_meta 0)) (Reading t_ctx 0 0)) empty_cache w1.
Definition w3 : World := mkWorld (w_cache w2) (w_loads w2) (fun t' => if decide (t' = table_identity t_ctx) then 1 else w_version w2 t')
  (fun t' => if decide (t' = table_identity t_ctx) then true else w_changed w2 t') (w_invalidations w2).
Definition w4 : World := announce (identity_matches (u "c") (Some (u "d")) (Some (u "t")))
  (invalidate_table_metadata (u "c") (Some (u "d")) (Some (u "t")) (w_cache w3)) w3.
Definition w5 : World := put_load 0 (load_continue t_env (Read t_ctx 0 0 (t_meta 0)) (w_cache w4)).1
  (load_continue t_env (Read t_ctx 0 0 (t_meta 0)) (w_cache w4)).2 w4.
Definition w6 : World := put_load 0 (load_continue t_env (Refused t_ctx 0) (w_cache w5)).1
  (load_continue t_env (Refused t_ctx 0) (w_cache w5)).2 w5.
Definition w7 : World := put_load 0 (load_answer (Ok (t_meta 1)) (Rereading t_ctx 1)) (w_cache w6) w6.
Definition w8 : World := put_load 0 (load_continue t_env (Reread t_ctx 1 (t_meta 1)) (w_cache w7)).1
  (load_continue t_env (Reread t_ctx 1 (t_meta 1)) (w_cache w7)).2 w7.

Lemma t_reachable : reachable t_describes (fun _ => 0) w8.
Proof.
  apply rtc_l with w1; [apply (step_begin _ (initial_world (fun _ => 0)) 0 t_ctx)|].
  apply rtc_l with w2; [apply (step_answer _ w1 0%nat (Reading t_ctx 0 0) t_ctx); reflexivity|].
  apply rtc_l with w3; [apply (step_change _ w2)|].
  apply rtc_l with w4; [apply (step_invalidate _ w3)|].
  apply rtc_l with w5; [apply (step_continue _ w4 0%nat); reflexivity|].
  apply rtc_l with w6; [apply (step_continue _ w5 0%nat); vm_compute; reflexivity|].
  apply rtc_l with w7; [apply (step_answer _ w6 0%nat (Rereading t_ctx 1) t_ctx); vm_compute; reflexivity|].
  apply rtc_once. apply (step_continue _ w7 0%nat). vm_compute. reflexivity.
Qed.


End PageCoherence.
