(* ===== verification/TablePages.v ===== *)
(** The page plan of a table (src-tauri/src/db/table_pagination.rs, from
    [PagePlan] on), the way its callers show the rows it asks for
    (src-tauri/src/commands/data.rs, [query_table_page]; src-tauri/src/db/postgres.rs,
    [query_table_data]), and why a page read from a cursor is the page an offset
    would have given. *)
From S2P Require Import Prelude RustText PageCache.
Import PageCache.

Module TablePages.

Section Plans.
(** The standard library's upper case of one character. *)
Context (upper_char : char -> str).

(** ** The plan *)

Record PagePlan : Type := mkPlan {
  p_context : PageContext; p_metadata : TableMetadata; p_page : Z;
  key_column : option str; sort_order : str; boundary : option IntegerValue; reverse : bool }.

Definition plan_kind (p : PagePlan) : option IntegerKind := snd <$> key (p_metadata p).

Definition effective_sort (is_current : bool) (ctx : PageContext) (m : TableMetadata) (page : Z) : option (str * str) :=
  match key m with
  | Some (k, _) =>
    if negb is_current || (page_size ctx =? 0) || (page =? 0) then None
    else
      match sort ctx with
      | [] => Some (k, u "ASC")
      | [(column, order)] =>
        let order := to_uppercase upper_char order in
        if str_eqb (trim column) k && one_of order ["ASC"; "DESC"]%string then Some (k, order) else None
      | _ => None
      end
  | None => None
  end.

(** [c1] is the cache when the metadata is looked up, [c2] when the cursor is:
    two critical sections, at [now1] and [now2]. *)
Definition plan_new (now1 now2 : Z) (c1 c2 : PaginationCache) (ctx : PageContext) (m : TableMetadata) (page : Z)
  (nav : option TablePageNavigation) : PagePlan :=
  let is_current := is_some_and (fun cached => str_eqb (revision cached) (revision m)) (cached_table_metadata now1 ctx c1) in
  let '(column, order) :=
    match effective_sort is_current ctx m page with Some (k, o) => (Some k, o) | None => (None, u "ASC") end in
  let bound :=
    match column, nav with
    | Some _, Some nav =>
      match valid_cursor now2 c2 ctx page nav with
      | Some (cur, _) => if str_eqb (cur_revision cur) (revision m) then Some (cur_value cur) else None
      | None => None
      end
    | _, _ => None
    end in
  mkPlan ctx m page column order bound
    (is_some bound && is_some_and (fun nav => str_eqb (direction nav) (u "previous")) nav).

Definition page_offset (page size : Z) : Z := sat_sub page 1 * size.

Definition flipped (order : str) : str := if str_eqb order (u "ASC") then u "DESC" else u "ASC".

Definition sql (p : PagePlan) (selected qualified_table quoted_key fallback_order : str) : str :=
  let predicates :=
    (if is_empty (filter_sql (p_context p)) then [] else [u "(" ++ filter_sql (p_context p) ++ u ")"])
    ++ match boundary p with
       | Some b =>
         let comparison := if negb (Bool.eqb (str_eqb (sort_order p) (u "ASC")) (reverse p)) then u ">" else u "<" in
         [quoted_key ++ u " " ++ comparison ++ u " " ++ value_sql b]
       | None => []
       end in
  let filter := if is_empty predicates then [] else u " WHERE " ++ join (u " AND ") predicates in
  let order :=
    if is_some (key_column p)
    then u " ORDER BY " ++ quoted_key ++ u " " ++ (if reverse p then flipped (sort_order p) else sort_order p)
    else fallback_order in
  let offset := if is_some (boundary p) then [] else u " OFFSET " ++ show_Z (page_offset (p_page p) (page_size (p_context p))) in
  u "SELECT " ++ selected ++ u " FROM " ++ qualified_table ++ filter ++ order
  ++ u " LIMIT " ++ show_Z (page_size (p_context p)) ++ offset.

(** ** The cursors of a page *)

Record TablePagination : Type := mkPagination {
  pg_mode : str; sort_column : str; pg_sort_order : str; next_cursor : option str; previous_cursor : option str }.

(** [token] is the random UUID. *)
Definition insert_cursor (env : Env) (p : PagePlan) (token : str) (v : IntegerValue) (page : Z) (dir : str)
  (c : PaginationCache) : PaginationCache :=
  set_cursors
    (<[token := mkTimed (mkCursor (p_context p) (revision (p_metadata p)) page dir v) (env_now env)]>
       (trim_cache (env_now env) (cursor_order env) MAX_CURSORS (cursors c))) c.

Definition checked_add_u32 (a b : Z) : option Z := if a + b <=? u32_max then Some (a + b) else None.

Definition pagination (env : Env) (next_token previous_token : str) (p : PagePlan) (first last : option IntegerValue)
  (row_count : Z) (c : PaginationCache) : option TablePagination * PaginationCache :=
  match key_column p, metadata c !! table_identity (p_context p) with
  | Some k, Some current =>
    if negb (fresh (env_now env) current) || negb (str_eqb (revision (value current)) (revision (p_metadata p))) then (None, c)
    else
      let '(next, c) :=
        if row_count =? page_size (p_context p)
        then
          match last, checked_add_u32 (p_page p) 1 with
          | Some v, Some page => (Some next_token, insert_cursor env p next_token v page (u "next") c)
          | _, _ => (None, c)
          end
        else (None, c) in
      let '(previous, c) :=
        if 1 <? p_page p
        then
          match first with
          | Some v => (Some previous_token, insert_cursor env p previous_token v (p_page p - 1) (u "previous") c)
          | None => (None, c)
          end
        else (None, c) in
      (Some (mkPagination (if is_some (boundary p) then u "keyset" else u "offset") k (sort_order p) next previous), c)
  | _, _ => (None, c)
  end.

(** ** What the callers do with the rows *)

(** The integers read from the first and the last row of the stream, swapped
    together with the rows when the plan reads backwards. *)
Definition ends {A} (read_key : A -> option IntegerValue) (l : list A) : option IntegerValue * option IntegerValue :=
  (match l with x :: _ => read_key x | [] => None end, match List.rev l with x :: _ => read_key x | [] => None end).
Definition show {A} (p : PagePlan) (stream : list A) : list A := if reverse p then List.rev stream else stream.
Definition show_ends {A} (read_key : A -> option IntegerValue) (p : PagePlan) (stream : list A) :
  option IntegerValue * option IntegerValue :=
  let '(first, last) := ends read_key stream in if reverse p then (last, first) else (first, last).

(** ** The statement as a query *)

(** What the text of [sql] asks of the server.  [q_after]: the integer the key
    has to be above ([true]) or below; [q_ascending]: the order by the key, or
    [None] for the caller's own order. *)
Record Query : Type := mkQuery {
  q_filter : str; q_after : option (bool * IntegerValue); q_ascending : option bool; q_limit : Z; q_offset : option Z }.

Definition ascending (p : PagePlan) : bool := str_eqb (sort_order p) (u "ASC").
Definition page_query (p : PagePlan) : Query :=
  let forward := negb (Bool.eqb (ascending p) (reverse p)) in
  mkQuery (filter_sql (p_context p))
    ((fun b => (forward, b)) <$> boundary p)
    (if is_some (key_column p) then Some forward else None)
    (page_size (p_context p))
    (match boundary p with Some _ => None | None => Some (page_offset (p_page p) (page_size (p_context p))) end).

Definition render (selected qualified_table quoted_key fallback_order : str) (q : Query) : str :=
  let predicates :=
    match q_filter q with [] => [] | f => [u "(" ++ f ++ u ")"] end
    ++ match q_after q with
       | Some (up, b) => [quoted_key ++ u " " ++ (if up then u ">" else u "<") ++ u " " ++ value_sql b]
       | None => []
       end in
  u "SELECT " ++ selected ++ u " FROM " ++ qualified_table
  ++ match predicates with [] => [] | l => u " WHERE " ++ join (u " AND ") l end
  ++ match q_ascending q with
     | Some up => u " ORDER BY " ++ quoted_key ++ u " " ++ (if up then u "ASC" else u "DESC")
     | None => fallback_order
     end
  ++ u " LIMIT " ++ show_Z (q_limit q)
  ++ match q_offset q with Some n => u " OFFSET " ++ show_Z n | None => [] end.

Definition ival (v : IntegerValue) : Z := match v with SignedValue v => v | UnsignedValue v => v end.

(** The rows of the table that pass the filter, read by the query: an integer
    key compares as the integer it is. *)
Definition direction_cmp (up : bool) : Z -> Z -> comparison := if up then Z.compare else cmp_rev Z.compare.
Definition run_query {A} (key_of : A -> Z) (q : Query) (rows : list A) : list A :=
  let selected :=
    match q_after q with
    | Some (up, b) => List.filter (fun r => bool_decide (direction_cmp up (ival b) (key_of r) = Lt)) rows
    | None => rows
    end in
  let ordered := match q_ascending q with Some up => sort_by (cmp_on key_of (direction_cmp up)) selected | None => selected end in
  take (Z.to_nat (q_limit q)) (drop (Z.to_nat (default 0 (q_offset q))) ordered).

(** The reference: page [page] of the rows in the order asked for. *)
Definition offset_page {A} (size page : Z) (ordered : list A) : list A :=
  take (Z.to_nat size) (drop (Z.to_nat (page_offset page size)) ordered).

End Plans.


(** ** The text is the query *)

Section PlanFacts.
Context (upper_char : char -> str).

Lemma plan_order now1 now2 c1 c2 ctx m page nav :
  sort_order (plan_new upper_char now1 now2 c1 c2 ctx m page nav) ∈ [u "ASC"; u "DESC"].
Proof.
  unfold plan_new. destruct (effective_sort _ _ _ _ _) as [[k o]|] eqn:E; simpl; [|left].
  unfold effective_sort in E. destruct (key m) as [[k' ?]|]; [|done]. destruct (_ || _); [done|].
  destruct (sort ctx) as [|[col ord] [|? ?]]; [injection E as <- <-; left| |done].
  destruct (str_eqb (trim col) k' && _) eqn:G; [|done]. injection E as <- <-. to_prop.
  rename select (one_of _ _ = true) into O. unfold one_of in O. simpl in O. rewrite orb_false_r in O.
  apply orb_prop in O as [O|O]; apply bool_decide_eq_true in O; rewrite O; [left|right; left].
Qed.

Lemma plan_boundary_key now1 now2 c1 c2 ctx m page nav :
  let p := plan_new upper_char now1 now2 c1 c2 ctx m page nav in
  key_column p = None -> boundary p = None /\ reverse p = false.
Proof.
  unfold plan_new. destruct (effective_sort _ _ _ _ _) as [[k o]|]; simpl; [done|]. done.
Qed.

Lemma ascending_order p : sort_order p ∈ [u "ASC"; u "DESC"] -> sort_order p = if ascending p then u "ASC" else u "DESC".
Proof.
  unfold ascending. intros [E|[E|[]%elem_of_nil]%elem_of_cons]%elem_of_cons; rewrite E; by vm_compute.
Qed.

(** The statement the application sends is the rendering of the abstract
    query, whatever the plan. *)
Lemma sql_renders p selected tbl quoted fallback :
  sort_order p ∈ [u "ASC"; u "DESC"] ->
  sql p selected tbl quoted fallback = render selected tbl quoted fallback (page_query p).
Proof.
  intros O%ascending_order. unfold sql, render, page_query, ascending in *. simpl.
  assert (forall a b : bool, (if a then flipped (sort_order p) else sort_order p)
     = if negb (Bool.eqb (str_eqb (sort_order p) (u "ASC")) a) then u "ASC" else u "DESC") as F.
  { intros a _. rewrite O. destruct (str_eqb (sort_order p) (u "ASC")), a; by vm_compute. }
  rewrite (F (reverse p) true). clear F O.
  set (forward := negb (Bool.eqb _ (reverse p))).
  destruct (filter_sql (p_context p)) as [|x f], (boundary p) as [b|], (key_column p) as [k|]; reflexivity.
Qed.

End PlanFacts.

(** ** Pages of a sorted list *)

Section Pages.
Context {A : Type} (key_of : A -> Z).

Definition ordered (up : bool) (rows : list A) : list A := sort_by (cmp_on key_of (direction_cmp up)) rows.

#[export] Instance direction_strict up : StrictCmp (direction_cmp up).
Proof.
  destruct up; simpl; [apply _|]. split; [apply _|]. intros x y. unfold cmp_rev. intros E%Z.compare_eq. done.
Qed.

Lemma direction_flip up x y : direction_cmp (negb up) x y = direction_cmp up y x.
Proof. by destruct up. Qed.

Lemma sorted_rev up l :
  StronglySorted (cmp_le (cmp_on key_of (direction_cmp up))) l ->
  StronglySorted (cmp_le (cmp_on key_of (direction_cmp (negb up)))) (List.rev l).
Proof.
  induction 1 as [|x l _ IH Hx]; simpl; [constructor|].
  apply StronglySorted_app_2; [|exact IH|repeat constructor].
  intros y z Hy ->%list_elem_of_singleton. rewrite list.Forall_forall in Hx.
  unfold cmp_le, cmp_on in *. rewrite direction_flip. apply Hx.
  apply list_elem_of_In, in_rev, list_elem_of_In, Hy.
Qed.

Lemma ordered_flip up rows : NoDup (map key_of rows) -> ordered (negb up) rows = List.rev (ordered up rows).
Proof.
  intros N. unfold ordered. apply (sorted_on_unique key_of (direction_cmp (negb up))).
  - assert (P : map key_of (sort_by (cmp_on key_of (direction_cmp (negb up))) rows) ≡ₚ map key_of rows)
      by apply Permutation_map, sort_by_perm. by rewrite P.
  - apply sort_by_sorted, _.
  - apply sorted_rev, sort_by_sorted, _.
  - rewrite <- Permutation_rev. by rewrite !sort_by_perm.
Qed.

Lemma filter_perm (f : A -> bool) l k : l ≡ₚ k -> List.filter f l ≡ₚ List.filter f k.
Proof. induction 1; simpl; repeat (destruct (f _)); try done; [by constructor|constructor|by etransitivity]. Qed.

Lemma ordered_filter up (f : A -> bool) rows :
  NoDup (map key_of rows) -> ordered up (List.filter f rows) = List.filter f (ordered up rows).
Proof.
  intros N. unfold ordered. apply (sorted_on_unique key_of (direction_cmp up)).
  - assert (P : map key_of (sort_by (cmp_on key_of (direction_cmp up)) (List.filter f rows)) ≡ₚ map key_of (List.filter f rows))
      by apply Permutation_map, sort_by_perm.
    rewrite P. clear P. induction rows as [|x l IH]; simpl; [constructor|]. simpl in N. apply NoDup_cons in N as [Nx N].
    destruct (f x); [|by apply IH]. simpl. apply NoDup_cons. split; [|by apply IH]. intros Hx. apply Nx.
    apply list_elem_of_fmap in Hx as (y & -> & Hy). apply list_elem_of_fmap_2.
    apply list_elem_of_In in Hy. apply filter_In in Hy as [Hy _]. by apply list_elem_of_In.
  - apply sort_by_sorted, _.
  - assert (S : StronglySorted (cmp_le (cmp_on key_of (direction_cmp up))) (sort_by (cmp_on key_of (direction_cmp up)) rows))
      by (apply sort_by_sorted, _).
    induction S as [|x l _ IH Hx]; simpl; [constructor|]. destruct (f x); [|exact IH]. constructor; [exact IH|].
    apply list.Forall_forall. intros y Hy. rewrite list.Forall_forall in Hx. apply Hx.
    apply list_elem_of_In in Hy. apply filter_In in Hy as [Hy _]. by apply list_elem_of_In.
  - rewrite sort_by_perm. apply filter_perm. by rewrite sort_by_perm.
Qed.

(** The rows above and below a row of a sorted list. *)
Lemma filter_after up l k x :
  StronglySorted (cmp_le (cmp_on key_of (direction_cmp up))) (l ++ x :: k) -> NoDup (map key_of (l ++ x :: k)) ->
  List.filter (fun r => bool_decide (direction_cmp up (key_of x) (key_of r) = Lt)) (l ++ x :: k) = k /\
  List.filter (fun r => bool_decide (direction_cmp up (key_of r) (key_of x) = Lt)) (l ++ x :: k) = l.
Proof.
  intros S N.
  assert (B : forall r, r ∈ l -> direction_cmp up (key_of r) (key_of x) = Lt).
  { intros r Hr. apply list_elem_of_split in Hr as (l1 & l2 & ->).
    rewrite <- app_assoc in S, N. simpl in S, N. apply StronglySorted_app_1_r in S. inversion S as [|? ? _ F]; subst.
    rewrite map_app in N. apply NoDup_app in N as (_ & _ & N). simpl in N. apply NoDup_cons in N as [N _].
    rewrite list.Forall_forall in F. assert (E : x ∈ l2 ++ x :: k) by (apply elem_of_app; right; left).
    specialize (F x E). unfold cmp_le, cmp_on in F. destruct (direction_cmp up (key_of r) (key_of x)) eqn:D; [|done|done].
    apply (cmp_eq_iff (cmp := direction_cmp up)) in D. destruct N. rewrite D. by apply list_elem_of_fmap_2. }
  assert (F : forall r, r ∈ k -> direction_cmp up (key_of x) (key_of r) = Lt).
  { intros r Hr. apply StronglySorted_app_1_r in S. inversion S as [|? ? _ F]; subst.
    rewrite map_app in N. apply NoDup_app in N as (_ & _ & N). simpl in N. apply NoDup_cons in N as [N _].
    rewrite list.Forall_forall in F. specialize (F r Hr). unfold cmp_le, cmp_on in F.
    destruct (direction_cmp up (key_of x) (key_of r)) eqn:D; [|done|done].
    apply (cmp_eq_iff (cmp := direction_cmp up)) in D. destruct N. rewrite D. by apply list_elem_of_fmap_2. }
  assert (R : direction_cmp up (key_of x) (key_of x) = Eq) by apply cmp_refl.
  assert (G : forall a b, direction_cmp up a b = Lt -> direction_cmp up b a = Gt) by (intros a b; apply cmp_lt_gt, _).
  assert (All : forall (p : A -> bool) m, (forall r, r ∈ m -> p r = true) -> List.filter p m = m).
  { intros p m. induction m as [|y m IH]; simpl; intros H; [done|]. rewrite (H y) by left. f_equal. apply IH. intros. apply H. by right. }
  assert (Nothing : forall (p : A -> bool) m, (forall r, r ∈ m -> p r = false) -> List.filter p m = []).
  { intros p m. induction m as [|y m IH]; simpl; intros H; [done|]. rewrite (H y) by left. apply IH. intros. apply H. by right. }
  rewrite !List.filter_app. simpl. rewrite !R. simpl. split.
  - rewrite Nothing, All; [done|..]; intros r Hr; [apply bool_decide_eq_true; auto|]. by rewrite (G _ _ (B r Hr)).
  - rewrite All, Nothing; [by rewrite app_nil_r|..]; intros r Hr; [|apply bool_decide_eq_true; auto]. by rewrite (G _ _ (F r Hr)).
Qed.

End Pages.


(** ** A page from a cursor is the page from its offset *)

Section Keyset.
Context {A : Type} (key_of : A -> Z).

(** What a cursor for page [page] stands for, in the table as it is: the last
    key of the full page before it, or the first key of the page after it. *)
Definition genuine (up : bool) (size : Z) (rows : list A) (page : Z) (dir : str) (v : IntegerValue) : Prop :=
  let l := ordered key_of up rows in
  (dir = u "next" /\ 1 < page /\
     exists x r, List.rev (offset_page size (page - 1) l) = x :: r /\ zlen (offset_page size (page - 1) l) = size /\ ival v = key_of x) \/
  (dir = u "previous" /\ 1 <= page /\ exists x r, offset_page size (page + 1) l = x :: r /\ ival v = key_of x).

Definition keyset_query (up : bool) (size : Z) (dir : str) (v : IntegerValue) (f : str) : Query :=
  let forward := negb (Bool.eqb up (str_eqb dir (u "previous"))) in
  mkQuery f (Some (forward, v)) (Some forward) size None.

Lemma offset_next size page : 1 <= page -> page_offset (page + 1) size = page_offset page size + size.
Proof. unfold page_offset, sat_sub. intros. rewrite !Z.max_l by lia. lia. Qed.

Lemma page_split {B} (l : list B) m n x r :
  List.rev (take n (drop m l)) = x :: r -> length (take n (drop m l)) = n ->
  l = (take m l ++ List.rev r) ++ x :: drop (m + n) l /\ length (take m l ++ List.rev r) = (m + n - 1)%nat.
Proof.
  intros E L. assert (P : take n (drop m l) = List.rev r ++ [x]) by (rewrite <- (rev_involutive (take n _)), E; done).
  assert (Lr : length r = (n - 1)%nat /\ (1 <= n)%nat).
  { rewrite P, length_app, length_rev in L. simpl in L. lia. }
  assert (Lm : (m <= length l)%nat).
  { destruct (decide (m <= length l)%nat) as [|O]; [done|]. rewrite drop_ge in P by lia. rewrite take_nil in P. by destruct (List.rev r). }
  split.
  - rewrite <- app_assoc. rewrite <- (take_drop m l) at 1. f_equal.
    rewrite <- (take_drop n (drop m l)) at 1. rewrite P, drop_drop, <- app_assoc. done.
  - rewrite length_app, length_rev, length_take. lia.
Qed.

Lemma keyset_page up size rows page dir v f :
  NoDup (map key_of rows) -> 0 < size -> genuine up size rows page dir v ->
  let stream := run_query key_of (keyset_query up size dir v f) rows in
  (if str_eqb dir (u "previous") then List.rev stream else stream) = offset_page size page (ordered key_of up rows).
Proof.
  intros N Sz G. cbn zeta. unfold keyset_query, run_query. cbn [q_after q_ascending q_limit q_offset default].
  set (l := ordered key_of up rows).
  assert (Sl : StronglySorted (cmp_le (cmp_on key_of (direction_cmp up))) l) by (apply sort_by_sorted, _).
  assert (Nl : NoDup (map key_of l)).
  { assert (P : map key_of l ≡ₚ map key_of rows) by apply Permutation_map, sort_by_perm. by rewrite P. }
  destruct G as [(-> & Hp & x & r & E & L & V)|(-> & Hp & x & r & E & V)]; fold l in E; try fold l in L.
  - replace (str_eqb (u "next") (u "previous")) with false by (by vm_compute).
    replace (negb (Bool.eqb up false)) with up by (by destruct up).
    change (Z.to_nat 0) with 0%nat. rewrite drop_0. fold (ordered key_of up (List.filter (fun r0 => bool_decide (direction_cmp up (ival v) (key_of r0) = Lt)) rows)).
    rewrite ordered_filter by done. fold l. rewrite V. unfold offset_page in E, L |- *.
    assert (L' : length (take (Z.to_nat size) (drop (Z.to_nat (page_offset (page - 1) size)) l)) = Z.to_nat size).
    { unfold zlen in L. lia. }
    destruct (page_split _ _ _ _ _ E L') as [S _]. set (pre := take _ l ++ List.rev r) in S.
    rewrite S in Sl, Nl. destruct (filter_after key_of up _ _ x Sl Nl) as [F _]. rewrite S at 1. rewrite F.
    f_equal. f_equal. replace page with (page - 1 + 1) at 2 by lia. rewrite offset_next by lia.
    unfold page_offset, sat_sub. lia.
  - replace (str_eqb (u "previous") (u "previous")) with true by (by vm_compute).
    replace (negb (Bool.eqb up true)) with (negb up) by (by destruct up).
    change (Z.to_nat 0) with 0%nat. rewrite drop_0.
    fold (ordered key_of (negb up) (List.filter (fun r0 => bool_decide (direction_cmp (negb up) (ival v) (key_of r0) = Lt)) rows)).
    rewrite ordered_filter by done. rewrite ordered_flip by done. fold l.
    unfold offset_page in E |- *. set (m := Z.to_nat (page_offset (page + 1) size)) in E.
    assert (Em : m = (Z.to_nat (page_offset page size) + Z.to_nat size)%nat).
    { unfold m. rewrite offset_next by lia. unfold page_offset, sat_sub. lia. }
    assert (D : exists k, drop m l = x :: k).
    { destruct (drop m l) as [|y k]; [by rewrite take_nil in E|]. exists k. destruct (Z.to_nat size); [done|]. by injection E as ->. }
    destruct D as [k D]. assert (S : l = take m l ++ x :: k) by (by rewrite <- D, take_drop).
    assert (Lm : length (take m l) = m).
    { rewrite length_take. assert (length (drop m l) = length (x :: k)) as Q by (by rewrite D). simpl in Q. rewrite length_drop in Q. lia. }
    set (pre := take m l) in *. rewrite S in Sl, Nl. destruct (filter_after key_of up _ _ x Sl Nl) as [_ F].
    assert (Fl : List.filter (fun r0 => bool_decide (direction_cmp (negb up) (ival v) (key_of r0) = Lt)) (List.rev l) = List.rev pre).
    { rewrite List.filter_rev, S. f_equal. rewrite <- F at 2. apply List.filter_ext. intros y. by rewrite direction_flip, V. }
    rewrite Fl. rewrite firstn_rev, rev_involutive, Lm, Em.
    replace (_ + _ - Z.to_nat size)%nat with (Z.to_nat (page_offset page size)) by lia.
    rewrite S at 1. rewrite drop_app_le by (rewrite Lm; lia).
    rewrite take_app_le by (rewrite length_drop, Lm; lia). rewrite take_ge; [done|]. rewrite length_drop, Lm. lia.
Qed.

End Keyset.

End TablePages.
