(* ===== verification/TableBrowsing.v ===== *)
(** Browsing a table by its cursors: whatever cursors are presented, the page
    shown is the one its offset would give, and following the cursors from the
    first page shows every row once, in order. *)
From S2P Require Import Prelude RustText PageCache TablePages.
Import PageCache TablePages.

Module TableBrowsing.

Section Browsing.
Context (upper_char : char -> str).

(** The tables, which do not change here: the rows that pass a filter, the
    integer a key column holds, and the integer the callers read for it
    ([from_mysql], [from_postgres]).  [key_name] is the key that the metadata
    with a given revision has; revisions are random UUIDs. *)
Context {A : Type} (table_rows : TableIdentity -> str -> list A) (column_value : str -> A -> Z)
  (read_key : str -> IntegerKind -> A -> option IntegerValue) (key_name : str -> option (str * IntegerKind)).
Context (read_key_value : forall k kind r v, read_key k kind r = Some v -> ival v = column_value k r).

Definition rows (ctx : PageContext) : list A := table_rows (table_identity ctx) (filter_sql ctx).

(** Metadata as the catalogue gives it: the single key column is unique. *)
Record metadata_ok (ctx : PageContext) (m : TableMetadata) : Prop := {
  ok_key : key m = key_name (revision m);
  ok_unique k kind : key m = Some (k, kind) -> NoDup (map (column_value k) (rows ctx));
  ok_size : 0 <= page_size ctx;
}.

Definition context_ascending (ctx : PageContext) : bool :=
  match sort ctx with [(_, o)] => str_eqb (to_uppercase upper_char o) (u "ASC") | _ => true end.
Definition sorted_rows (k : str) (ctx : PageContext) : list A := ordered (column_value k) (context_ascending ctx) (rows ctx).

(** The rows the statement of a plan returns, in the order of the stream. *)
Definition stream (k : str) (p : PagePlan) : list A := run_query (column_value k) (page_query p) (rows (p_context p)).

(** One request after its plan: the cursors of the page that is shown. *)
Definition issue (env : Env) (t1 t2 : str) (k : str) (kind : IntegerKind) (p : PagePlan) (c : PaginationCache) :
  option TablePagination * PaginationCache :=
  let '(first, last) := show_ends (read_key k kind) p (stream k p) in
  pagination env t1 t2 p first last (zlen (stream k p)) c.

(** The caches that come up: a request issues cursors under a plan made from
    caches of earlier moments; every other operation leaves or drops cursors. *)
Inductive reachable : PaginationCache -> Prop :=
| reachable_empty : reachable empty_cache
| reachable_other c c' : reachable c -> cursors c' ⊆ cursors c -> reachable c'
| reachable_page env t1 t2 now1 now2 c c1 c2 ctx m page nav k kind :
    reachable c -> reachable c1 -> reachable c2 -> metadata_ok ctx m -> 0 <= page ->
    let p := plan_new upper_char now1 now2 c1 c2 ctx m page nav in
    key_column p = Some k -> key m = Some (k, kind) -> reachable (issue env t1 t2 k kind p c).2.

(** ** The plan of a context *)

Lemma effective_sort_some current ctx m page k o :
  effective_sort upper_char current ctx m page = Some (k, o) ->
  (exists kind, key m = Some (k, kind)) /\ current = true /\ page_size ctx <> 0 /\ page <> 0
  /\ str_eqb o (u "ASC") = context_ascending ctx.
Proof.
  unfold effective_sort, context_ascending. destruct (key m) as [[k' kind]|]; [|done].
  destruct (negb current || _ || _) eqn:E; [done|]. to_prop. intros Q0.
  assert (Q : k' = k /\ str_eqb o (u "ASC") = context_ascending ctx).
  { unfold context_ascending. destruct (sort ctx) as [|[col ord] [|? ?]]; [|destruct (_ && _); [|done]|done];
      injection Q0 as <- <-; split; done. }
  destruct Q as [-> Q]. repeat split; [by exists kind|done..|exact Q].
Qed.

Lemma plan_column now1 now2 c1 c2 ctx m page nav k :
  let p := plan_new upper_char now1 now2 c1 c2 ctx m page nav in
  key_column p = Some k ->
  (exists kind, key m = Some (k, kind)) /\ page_size ctx <> 0 /\ page <> 0 /\ ascending p = context_ascending ctx.
Proof.
  unfold plan_new, ascending. destruct (effective_sort _ _ _ _ _) as [[k' o]|] eqn:E; [|done]. simpl. intros [= ->].
  apply effective_sort_some in E as (? & _ & ? & ? & ?). done.
Qed.

Lemma valid_cursor_some now c ctx page nav cur m :
  valid_cursor now c ctx page nav = Some (cur, m) ->
  exists e, cursors c !! cursor nav = Some e /\ value e = cur /\ cur_context cur = ctx /\ cur_page cur = page
            /\ cur_direction cur = direction nav.
Proof.
  unfold valid_cursor. destruct (cursors c !! cursor nav) as [e|]; [|done]. simpl.
  destruct (metadata c !! _) as [x|]; [|done]. simpl. destruct (_ || _) eqn:E; [done|]. intros [= <- <-]. to_prop.
  exists e. repeat split; try done. rename select (str_eqb (cur_direction _) _ = true) into D. by apply bool_decide_eq_true in D.
Qed.

Lemma plan_boundary now1 now2 c1 c2 ctx m page nav v :
  let p := plan_new upper_char now1 now2 c1 c2 ctx m page nav in
  boundary p = Some v ->
  exists tok e, cursors c2 !! tok = Some e /\ cur_context (value e) = ctx /\ cur_page (value e) = page
    /\ cur_revision (value e) = revision m /\ cur_value (value e) = v
    /\ reverse p = str_eqb (cur_direction (value e)) (u "previous").
Proof.
  unfold plan_new. destruct (effective_sort _ _ _ _ _) as [[k o]|]; [|done]. simpl.
  destruct nav as [nav|]; [|done]. destruct (valid_cursor _ _ _ _ _) as [[cur x]|] eqn:E; [|done].
  destruct (str_eqb _ _) eqn:R; [|done]. intros [= <-].
  apply valid_cursor_some in E as (e & L & <- & C & P & D). exists (cursor nav), e.
  apply bool_decide_eq_true in R. repeat split; try done. simpl. by rewrite D.
Qed.

(** ** Genuine cursors *)

Definition cursor_genuine (cur : Cursor) : Prop :=
  forall k kind, key_name (cur_revision cur) = Some (k, kind) ->
    genuine (column_value k) (context_ascending (cur_context cur)) (page_size (cur_context cur)) (rows (cur_context cur))
      (cur_page cur) (cur_direction cur) (cur_value cur).
Definition cache_genuine (c : PaginationCache) : Prop :=
  forall tok e, cursors c !! tok = Some e -> cursor_genuine (value e).

Lemma show_ends_shown k kind p l : show_ends (read_key k kind) p l = ends (read_key k kind) (show p l).
Proof. unfold show_ends, show, ends. destruct (reverse p); [|done]. by rewrite rev_involutive. Qed.

Lemma show_length p (l : list A) : zlen (show p l) = zlen l.
Proof. unfold show, zlen. destruct (reverse p); [|done]. by rewrite length_rev. Qed.

Lemma shown_page now1 now2 c1 c2 ctx m page nav k :
  cache_genuine c2 -> metadata_ok ctx m -> 0 <= page ->
  let p := plan_new upper_char now1 now2 c1 c2 ctx m page nav in
  key_column p = Some k -> show p (stream k p) = offset_page (page_size ctx) page (sorted_rows k ctx).
Proof.
  intros G M Hp p K. destruct (plan_column _ _ _ _ _ _ _ _ _ K) as ((kind & Em) & Ns & Np & As). fold p in As.
  pose proof (ok_size _ _ M) as Hs.
  assert (Q : page_query p = mkQuery (filter_sql ctx)
     ((fun b => (negb (Bool.eqb (ascending p) (reverse p)), b)) <$> boundary p)
     (Some (negb (Bool.eqb (ascending p) (reverse p)))) (page_size ctx)
     (match boundary p with Some _ => None | None => Some (page_offset page (page_size ctx)) end)).
  { unfold page_query. rewrite K. unfold p, plan_new. by destruct (effective_sort _ _ _ _ _) as [[? ?]|]. }
  assert (C : p_context p = ctx) by (unfold p, plan_new; by destruct (effective_sort _ _ _ _ _) as [[? ?]|]).
  unfold stream, show. rewrite Q, C, As. unfold sorted_rows.
  destruct (boundary p) as [v|] eqn:B.
  - destruct (plan_boundary _ _ _ _ _ _ _ _ _ B) as (tok & e & L & Ec & Ep & Er & Ev & R).
    assert (Gc := G tok e L k kind). rewrite Er, Ec, Ep, Ev in Gc.
    rewrite <- (ok_key _ _ M) in Gc. fold p in R. rewrite R.
    apply (keyset_page (column_value k) (context_ascending ctx) (page_size ctx) (rows ctx) page (cur_direction (value e)) v
             (filter_sql ctx)); [by apply (ok_unique _ _ M k kind)|lia|by apply Gc].
  - assert (R : reverse p = false).
    { revert B. unfold p, plan_new. destruct (effective_sort _ _ _ _ _) as [[? ?]|]; simpl; [|done]. intros E. by rewrite E. }
    rewrite R. replace (negb (Bool.eqb (context_ascending ctx) false)) with (context_ascending ctx) by (by destruct (context_ascending ctx)).
    done.
Qed.

Lemma ends_read k kind l first last :
  ends (read_key k kind) l = (first, last) ->
  (forall v, first = Some v -> exists x r, l = x :: r /\ ival v = column_value k x) /\
  (forall v, last = Some v -> exists x r, List.rev l = x :: r /\ ival v = column_value k x).
Proof.
  unfold ends. intros [= <- <-]. split; intros v.
  - destruct l as [|x r]; [done|]. intros E%read_key_value. eauto.
  - destruct (List.rev l) as [|x r]; [done|]. intros E%read_key_value. eauto.
Qed.

Lemma insert_genuine env p tok v page dir c k kind :
  cache_genuine c -> key_name (revision (p_metadata p)) = Some (k, kind) ->
  genuine (column_value k) (context_ascending (p_context p)) (page_size (p_context p)) (rows (p_context p)) page dir v ->
  cache_genuine (insert_cursor env p tok v page dir c).
Proof.
  intros G E H t e. simpl. intros [[<- <-]|[N L]]%lookup_insert_Some.
  - intros k' kind'. simpl. rewrite E. by intros [= <- <-].
  - apply (G t). unfold trim_cache in L. set (m' := filter _ _) in L.
    assert (Q : m' !! t = Some e).
    { destruct (_ <=? _); [|done]. destruct (oldest _) as [[? ?]|]; [|done]. by apply lookup_delete_Some in L as [_ L]. }
    by apply map_lookup_filter_Some in Q as [Q _].
Qed.

Lemma issue_genuine env t1 t2 p c k kind ctx m page :
  cache_genuine c -> p_context p = ctx -> p_metadata p = m -> p_page p = page -> 0 < page ->
  key_name (revision m) = Some (k, kind) ->
  show p (stream k p) = offset_page (page_size ctx) page (sorted_rows k ctx) ->
  cache_genuine (issue env t1 t2 k kind p c).2.
Proof.
  intros G <- <- <- Hp Ek Sh. unfold issue. rewrite show_ends_shown, <- (show_length p), Sh.
  destruct (ends _ _) as [first last] eqn:E. apply ends_read in E as [Ef El].
  unfold pagination. destruct (key_column p); [|done]. destruct (metadata c !! _) as [cur|]; [|done].
  destruct (_ || _); [done|].
  set (nx := if _ =? _ then _ else _). assert (Gn : cache_genuine nx.2).
  { unfold nx. destruct (_ =? _) eqn:Sz; [|done]. apply Z.eqb_eq in Sz. destruct last as [v|]; [|done].
    unfold checked_add_u32. destruct (_ <=? _); [|done]. simpl.
    destruct (El v eq_refl) as (x & r & R & V).
    eapply insert_genuine; [done|exact Ek|]. left. split; [done|]. split; [lia|].
    replace (p_page p + 1 - 1) with (p_page p) by lia. exists x, r. done. }
  destruct nx as [next c']. simpl in Gn. destruct (1 <? p_page p) eqn:P; [|done].
  destruct first as [v|]; [|done]. simpl. apply Z.ltb_lt in P. destruct (Ef v eq_refl) as (x & r & R & V).
  eapply insert_genuine; [done|exact Ek|]. right. split; [done|]. split; [lia|].
  replace (p_page p - 1 + 1) with (p_page p) by lia. exists x, r. done.
Qed.

Lemma plan_fields now1 now2 c1 c2 ctx m page nav :
  let p := plan_new upper_char now1 now2 c1 c2 ctx m page nav in
  p_context p = ctx /\ p_metadata p = m /\ p_page p = page.
Proof. unfold plan_new. by destruct (effective_sort _ _ _ _ _) as [[? ?]|]. Qed.

Lemma reachable_genuine c : reachable c -> cache_genuine c.
Proof.
  induction 1 as [|c c' _ IH S|env t1 t2 now1 now2 c c1 c2 ctx m page nav k kind _ IH _ IH1 _ IH2 M Hp p K Km].
  - intros tok e. simpl. by rewrite lookup_empty.
  - intros tok e L. apply (IH tok). by eapply lookup_weaken.
  - destruct (plan_fields now1 now2 c1 c2 ctx m page nav) as (F1 & F2 & F3). fold p in F1, F2, F3.
    destruct (plan_column _ _ _ _ _ _ _ _ _ K) as (_ & _ & Np & _).
    apply (issue_genuine env t1 t2 p c k kind ctx m page); [done..|lia| |].
    + by rewrite <- (ok_key _ _ M).
    + by apply (shown_page now1 now2 c1 c2 ctx m page nav k).
Qed.

(** The other operations of the cache are among the steps of [reachable]. *)
Lemma operations_drop_cursors c :
  (forall env ctx m g, cursors (remember_metadata_if_current env ctx m g c).2 ⊆ cursors c) /\
  (forall conn db tbl, cursors (invalidate_table_metadata conn db tbl c) ⊆ cursors c) /\
  (forall conn, cursors (close_table_metadata_connection conn c) ⊆ cursors c) /\
  (forall conn, cursors (activate_table_metadata_connection conn c) ⊆ cursors c) /\
  (forall env l, cursors (load_continue env l c).2 ⊆ cursors c).
Proof.
  assert (R : forall env ctx m g, cursors (remember_metadata_if_current env ctx m g c).2 ⊆ cursors c).
  { intros. unfold remember_metadata_if_current. by destruct (_ || _). }
  split; [exact R|]. split_and!; try (intros; simpl; apply map_filter_subseteq).
  intros env l. destruct l as [| ctx g e m| | |ctx g m|]; simpl; try done;
    specialize (R env ctx m g); by destruct (remember_metadata_if_current _ _ _ _ _).
Qed.


(** ** Walking through a table *)

Section Walk.
Context (envs : Z -> Env) (tokens : Z -> str * str) (ctx : PageContext) (m : TableMetadata) (k : str) (kind : IntegerKind).

(** The client asks for the next page while it is given a cursor for one. *)
Fixpoint walk (fuel : nat) (page : Z) (nav : option TablePageNavigation) (c : PaginationCache) : list (list A) :=
  let p := plan_new upper_char (env_now (envs page)) (env_now (envs page)) c c ctx m page nav in
  let shown := show p (stream k p) in
  match fuel, issue (envs page) (tokens page).1 (tokens page).2 k kind p c with
  | S fuel, (Some answer, c) =>
    match next_cursor answer with
    | Some token => shown :: walk fuel (page + 1) (Some (mkNavigation (u "next") token)) c
    | None => [shown]
    end
  | _, _ => [shown]
  end.

(** The metadata stays current, and the request is one the key can order. *)
Definition live (c : PaginationCache) : Prop :=
  forall page, exists e, metadata c !! table_identity ctx = Some e /\ fresh (env_now (envs page)) e = true /\ value e = m.

Lemma issue_metadata env t1 t2 p c : metadata (issue env t1 t2 k kind p c).2 = metadata c.
Proof.
  unfold issue. destruct (show_ends _ _ _) as [first last]. unfold pagination.
  destruct (key_column p); [|done]. destruct (metadata c !! _); [|done]. destruct (_ || _); [done|].
  destruct (_ =? _); [destruct last; [destruct (checked_add_u32 _ _)|]|];
    (destruct (1 <? _); [destruct first|]); done.
Qed.

Lemma plan_live order c page nav :
  live c -> effective_sort upper_char true ctx m 1 = Some (k, order) -> 0 < page ->
  key_column (plan_new upper_char (env_now (envs page)) (env_now (envs page)) c c ctx m page nav) = Some k.
Proof.
  intros Lv E Hp. destruct (Lv page) as (e & L & F & V). unfold plan_new, cached_table_metadata, live_entry.
  rewrite L, F, V. simpl. unfold str_eqb at 1. rewrite bool_decide_eq_true_2 by done.
  assert (effective_sort upper_char true ctx m page = Some (k, order)) as ->; [|done].
  revert E. unfold effective_sort. replace (page =? 0) with false by lia. done.
Qed.

Lemma issue_next c page t1 t2 p :
  live c -> p_context p = ctx -> p_metadata p = m -> p_page p = page -> key_column p = Some k -> page + 1 <= u32_max ->
  (forall r, r ∈ show p (stream k p) -> is_Some (read_key k kind r)) -> 0 < page_size ctx ->
  exists answer c', issue (envs page) t1 t2 k kind p c = (Some answer, c') /\
    next_cursor answer = (if zlen (show p (stream k p)) =? page_size ctx then Some t1 else None).
Proof.
  intros Lv Ec Em Ep K Hb Rd Hs. unfold issue. rewrite show_ends_shown, <- (show_length p).
  destruct (Lv page) as (e & L & F & V). destruct (ends _ _) as [first last] eqn:E. unfold pagination.
  rewrite K, Ec, L, F, V, Em, Ep. simpl. unfold str_eqb. rewrite bool_decide_eq_true_2 by done. simpl.
  set (l := show p (stream k p)) in *. destruct (zlen l =? page_size ctx) eqn:Z.
  - assert (exists v, last = Some v) as [v ->].
    { unfold ends in E. injection E as _ <-. destruct (List.rev l) as [|x r] eqn:R.
      - assert (l = []) as El by (by rewrite <- (rev_involutive l), R). apply Z.eqb_eq in Z. rewrite El in Z. unfold zlen in Z. simpl in Z. lia.
      - destruct (Rd x) as [v Hv]; [|eauto]. apply list_elem_of_In, in_rev. rewrite R. by left. }
    unfold checked_add_u32. replace (page + 1 <=? u32_max) with true by lia.
    destruct (1 <? page); [destruct first|]; simpl; eauto.
  - destruct (1 <? page); [destruct first|]; simpl; eauto.
Qed.

Lemma walk_from order fuel page nav c :
  reachable c -> live c -> metadata_ok ctx m -> key m = Some (k, kind) ->
  effective_sort upper_char true ctx m 1 = Some (k, order) ->
  (forall r, r ∈ rows ctx -> is_Some (read_key k kind r)) -> zlen (rows ctx) + 1 < u32_max ->
  0 < page -> let rest := drop (Z.to_nat (page_offset page (page_size ctx))) (sorted_rows k ctx) in
  (length rest <= fuel)%nat -> List.concat (walk fuel page nav c) = rest.
Proof.
  intros R Lv M Km E Rd Hb. revert page nav c R Lv. induction fuel as [|fuel IH]; intros page nav c R Lv Hp rest Hf;
    pose proof (plan_live order c page nav Lv E Hp) as K;
    pose proof (shown_page _ _ c c ctx m page nav k (reachable_genuine c R) M ltac:(lia) K) as Sh;
    pose proof (effective_sort_some _ _ _ _ _ _ E) as (_ & _ & Ns & _); pose proof (ok_size _ _ M) as Ps;
    unfold offset_page in Sh; fold rest in Sh.
  - simpl. rewrite Sh. destruct rest; [|simpl in Hf; lia]. by rewrite take_nil.
  - cbn [walk]. set (p := plan_new _ _ _ _ _ _ _ _ _) in *. rewrite Sh.
    destruct (plan_fields (env_now (envs page)) (env_now (envs page)) c c ctx m page nav) as (F1 & F2 & F3).
    fold p in F1, F2, F3.
    assert (Sub : forall r, r ∈ rest -> r ∈ rows ctx).
    { intros r Hr. assert (r ∈ sorted_rows k ctx) as Q.
      { rewrite <- (take_drop (Z.to_nat (page_offset page (page_size ctx))) (sorted_rows k ctx)). apply elem_of_app. by right. }
      unfold sorted_rows, ordered in Q. by rewrite sort_by_elem in Q. }
    assert (Len : length (sorted_rows k ctx) = length (rows ctx)) by apply sort_by_length.
    destruct (decide (page + 1 <= u32_max)) as [Hpb|Hpb]; cycle 1.
    { assert (rest = []) as Er.
      { unfold rest. apply drop_ge. rewrite Len. unfold zlen in Hb. unfold page_offset, sat_sub. nia. }
      rewrite Er, take_nil in *. unfold issue. destruct (show_ends _ _ _). unfold pagination.
      assert (zlen (stream k p) = 0) as Z0 by (rewrite <- (show_length p), Sh; done).
      rewrite Z0, F1. replace (0 =? page_size ctx) with false by lia.
      destruct (key_column p); [|done]. destruct (metadata c !! _); [|done]. destruct (_ || _); [done|].
      destruct (1 <? _); [|done]. by destruct o. }
    destruct (issue_next c page (tokens page).1 (tokens page).2 p Lv F1 F2 F3 K Hpb) as (answer & c' & Ei & En).
    { intros r. rewrite Sh. intros Hr. apply Rd, Sub.
      rewrite <- (take_drop (Z.to_nat (page_size ctx)) rest). apply elem_of_app. by left. }
    { lia. }
    rewrite Ei, En, Sh. destruct (zlen (take _ rest) =? page_size ctx) eqn:Z.
    + assert (Pn : 0 <= page_offset page (page_size ctx)) by (unfold page_offset, sat_sub; nia).
      cbn [List.concat]. rewrite (IH (page + 1)).
      * rewrite (TablePages.offset_next (page_size ctx) page ltac:(lia)). rewrite <- (take_drop (Z.to_nat (page_size ctx)) rest) at 2.
        f_equal. unfold rest. rewrite drop_drop. f_equal. lia.
      * replace c' with (issue (envs page) (tokens page).1 (tokens page).2 k kind p c).2 by (by rewrite Ei).
        eapply reachable_page; [exact R|exact R|exact R|exact M| |exact K|exact Km]. lia.
      * intros page'. replace (metadata c') with (metadata c); [apply Lv|].
        rewrite <- (issue_metadata (envs page) (tokens page).1 (tokens page).2 p c). by rewrite Ei.
      * lia.
      * apply Z.eqb_eq in Z. rewrite (TablePages.offset_next (page_size ctx) page ltac:(lia)). unfold zlen in Z. rewrite length_take in Z.
        unfold rest in Hf, Z. rewrite length_drop in Hf, Z |- *.
        lia.
    + simpl. rewrite app_nil_r. apply Z.eqb_neq in Z. unfold zlen in Z. rewrite length_take in Z. apply take_ge. lia.
Qed.


End Walk.
End Browsing.


(** ** A table of five rows, in pages of two, in descending order *)

Definition b_upper (c : char) : str := [ascii_upper c].
Definition b_ctx : PageContext := mkContext Postgres (u "c") (u "d") (u "t") [] [(u " id ", u "desc")] 2.
Definition b_meta : TableMetadata :=
  with_primary_key_evidence [u "id"] (metadata_new (u "r") [mkColumn (u "id") (Some 1) (Some Signed); mkColumn (u "v") None None] true).
Definition b_env : Env := mkEnv 7 map_to_list map_to_list.
Definition b_rows (_ : TableIdentity) (_ : str) : list Z := [5; 1; 4; 2; 3].
Definition b_value (_ : str) (r : Z) : Z := r.
Definition b_read (_ : str) (_ : IntegerKind) (r : Z) : option IntegerValue := Some (SignedValue r).
Definition b_key (_ : str) : option (str * IntegerKind) := Some (u "id", Signed).
Definition b_cache : PaginationCache := mkCache {[table_identity b_ctx := mkTimed b_meta 1]} ∅ ∅ ∅ ∅.
Definition b_plan1 : PagePlan := plan_new b_upper 7 7 b_cache b_cache b_ctx b_meta 1 None.
Definition b_cache1 : PaginationCache := (issue b_rows b_value b_read b_env (u "n") (u "p") (u "id") Signed b_plan1 b_cache).2.
Definition b_nav : TablePageNavigation := mkNavigation (u "next") (u "n").
Definition b_plan2 : PagePlan := plan_new b_upper 7 7 b_cache1 b_cache1 b_ctx b_meta 2 (Some b_nav).

Lemma b_read_value k kind r v : b_read k kind r = Some v -> ival v = b_value k r.
Proof. by intros [= <-]. Qed.
Lemma b_meta_ok : metadata_ok b_rows b_value b_key b_ctx b_meta.
Proof.
  split; [by vm_compute| |done]. intros k kind _. unfold rows, b_rows. cbn [map b_value].
  apply (bool_decide_unpack (NoDup [5; 1; 4; 2; 3])). by vm_compute.
Qed.
Lemma b_reachable : reachable b_upper b_rows b_value b_read b_key b_cache.
Proof. apply (reachable_other b_upper b_rows b_value b_read b_key empty_cache); [constructor|done]. Qed.
Lemma b_reachable1 : reachable b_upper b_rows b_value b_read b_key b_cache1.
Proof.
  apply (reachable_page b_upper b_rows b_value b_read b_key b_env (u "n") (u "p") 7 7 b_cache b_cache b_cache b_ctx b_meta 1 None (u "id") Signed);
    [exact b_reachable..|exact b_meta_ok|lia|by vm_compute|by vm_compute].
Qed.


Lemma b_live : live (fun _ => b_env) b_ctx b_meta b_cache.
Proof. intros page. exists (mkTimed b_meta 1). split_and!; by vm_compute. Qed.


End TableBrowsing.
