(* ===== verification/TableQuery.v ===== *)
(** Cancelling the queries of the table pages (src-tauri/src/db/table_query.rs).

    A cancellation is a watch channel of a flag, here an address in the heap
    [tokens]; the registry is a map behind one mutex, and each of its methods is
    one atomic step that reads the clock. *)
From S2P Require Import Prelude RustText.

Module TableQuery.

Definition CANCELLED : str := u "表数据加载已中断".
Definition RETAIN_FOR : Z := 60000000000.
Definition MAX_RETAINED : nat := 256.
Definition QueryKey : Type := str * str.

(** ** State *)

Definition Token : Type := nat.
Inductive Entry : Type := Running (t : Token) | Pending (at_ : Z) | Finished (at_ : Z).

Record State : Type := mkState { entries : gmap QueryKey Entry; tokens : list bool }.
Definition initial : State := mkState ∅ [].

(** The clock, and the order in which the hash map iterates (which also stands
    for the order the unstable sort leaves equal instants in). *)
Record Env : Type := mkEnv { now : Z; order : gmap QueryKey Entry -> list (QueryKey * Entry) }.
Definition wf_env (e : Env) : Prop := forall m, order e m ≡ₚ map_to_list m.

Definition is_cancelled (t : Token) (tokens : list bool) : bool := default false (tokens !! t).
Definition check (t : Token) (tokens : list bool) : result unit str := if is_cancelled t tokens then Err CANCELLED else Ok tt.
Definition send_cancel (t : Token) (tokens : list bool) : list bool := <[t := true]> tokens.

(** [run]: [flag] is the cancellation when the wait begins; then, per wake-up,
    the cancellation seen first, and what polling the work gives with the
    cancellation after it. *)
Fixpoint run_polls {T} (polls : list (bool * option (result T str * bool))) : option (result T str) :=
  match polls with
  | [] => None
  | (true, _) :: _ => Some (Err CANCELLED)
  | (false, None) :: polls => run_polls polls
  | (false, Some (r, flag)) :: _ => Some (if flag then Err CANCELLED else r)
  end.
Definition run {T} (flag : bool) (polls : list (bool * option (result T str * bool))) : option (result T str) :=
  if flag then Some (Err CANCELLED) else run_polls polls.

(** ** The registry *)

Definition retained_at (e : Entry) : option Z := match e with Running _ => None | Pending at_ | Finished at_ => Some at_ end.
Definition keep (now : Z) (e : Entry) : bool :=
  match retained_at e with None => true | Some at_ => sat_sub now at_ <? RETAIN_FOR end.
Definition retained (l : list (QueryKey * Entry)) : list (QueryKey * Z) :=
  omap (fun '(k, e) => (fun at_ => (k, at_)) <$> retained_at e) l.

Definition prune (env : Env) (m : gmap QueryKey Entry) : gmap QueryKey Entry :=
  let m := filter (fun kv => keep (now env) kv.2 = true) m in
  let l := retained (order env m) in
  if (MAX_RETAINED <? length l)%nat
  then fold_left (fun m kv => delete kv.1 m) (take (length l - MAX_RETAINED) (sort_by (cmp_on snd Z.compare) l)) m
  else m.

Record TableQueryGuard : Type := mkGuard { cancellation : Token; guard_key : option QueryKey }.

Definition register (env : Env) (connection : str) (execution : option str) (s : State) : result TableQueryGuard str * State :=
  let t := length (tokens s) in
  match execution with
  | None => (Ok (mkGuard t None), mkState (entries s) (tokens s ++ [false]))
  | Some execution =>
    let k := (connection, execution) in
    let m := prune env (entries s) in
    match m !! k with
    | Some (Running _ | Finished _) => (Err (u "表查询执行标识已使用"), mkState m (tokens s ++ [false]))
    | Some (Pending _) => (Ok (mkGuard t (Some k)), mkState (<[k := Running t]> m) (tokens s ++ [true]))
    | None => (Ok (mkGuard t (Some k)), mkState (<[k := Running t]> m) (tokens s ++ [false]))
    end
  end.

(** [env2] is read by the second [prune], [at_] is the new entry's instant. *)
Definition cancel (env : Env) (at_ : Z) (env2 : Env) (connection execution : str) (s : State) : bool * State :=
  let m := prune env (entries s) in
  let k := (connection, execution) in
  match m !! k with
  | Some (Running t) => (true, mkState (prune env2 m) (send_cancel t (tokens s)))
  | Some (Finished _) => (false, mkState m (tokens s))
  | Some (Pending _) => (true, mkState (prune env2 m) (tokens s))
  | None => (true, mkState (prune env2 (<[k := Pending at_]> m)) (tokens s))
  end.

Definition drop_guard (env : Env) (at_ : Z) (g : TableQueryGuard) (s : State) : State :=
  match guard_key g with
  | Some k => mkState (prune env (<[k := Finished at_]> (entries s))) (tokens s)
  | None => s
  end.

(** ** What pruning keeps *)

Definition retained_count (m : gmap QueryKey Entry) : nat :=
  length (List.filter (fun kv => is_some (retained_at kv.2)) (map_to_list m)).

Lemma retained_length l : length (retained l) = length (List.filter (fun kv => is_some (retained_at kv.2)) l).
Proof. induction l as [|[k e] l IH]; simpl; [done|]. destruct (retained_at e); simpl; congruence. Qed.

Lemma retained_elem l k a : (k, a) ∈ retained l <-> exists e, (k, e) ∈ l /\ retained_at e = Some a.
Proof.
  unfold retained. rewrite list_elem_of_omap. split.
  - intros ([k' e] & He & E). destruct (retained_at e) as [a'|] eqn:R; simpl in E; [|done]. injection E as -> ->. eauto.
  - intros (e & He & R). exists (k, e). by rewrite R.
Qed.

Lemma fold_delete_lookup {A} (l : list (QueryKey * A)) (m : gmap QueryKey Entry) k :
  fold_left (fun m kv => delete kv.1 m) l m !! k = if decide (k ∈ map fst l) then None else m !! k.
Proof.
  revert m. induction l as [|[k' a] l IH]; intros m; simpl; [done|]. rewrite IH.
  destruct (decide (k ∈ map fst l)) as [I|N], (decide (k ∈ k' :: map fst l)) as [I'|N']; try done.
  - destruct N'. by right.
  - apply elem_of_cons in I' as [->|?]; [by rewrite lookup_delete_eq|done].
  - rewrite lookup_delete_ne; [done|]. intros ->. destruct N'. left.
Qed.

Section Prune.
Context (env : Env) (W : wf_env env) (m : gmap QueryKey Entry).

Let kept : gmap QueryKey Entry := filter (fun kv => keep (now env) kv.2 = true) m.
Let found : list (QueryKey * Z) := retained (order env kept).

Lemma found_elem k a : (k, a) ∈ found <-> exists e, kept !! k = Some e /\ retained_at e = Some a.
Proof.
  unfold found. rewrite retained_elem. split; intros (e & L & R); exists e; (split; [|done]).
  - rewrite (W kept) in L. by apply elem_of_map_to_list in L.
  - rewrite (W kept). by apply elem_of_map_to_list.
Qed.

Lemma found_nodup : NoDup (map fst found).
Proof.
  unfold found. assert (N : NoDup (map fst (order env kept))).
  { assert (P : map fst (order env kept) ≡ₚ map fst (map_to_list kept)) by apply Permutation_map, W.
    rewrite P. apply NoDup_fst_map_to_list. }
  induction (order env kept) as [|[k e] l IH]; simpl; [constructor|]. simpl in N. apply NoDup_cons in N as [Nk N].
  destruct (retained_at e) as [a|]; simpl; [|by apply IH]. apply NoDup_cons. split; [|by apply IH].
  intros Hk. apply Nk. apply list_elem_of_fmap in Hk as ([k' a'] & -> & Hk). apply retained_elem in Hk as (e' & He & _).
  by apply (list_elem_of_fmap_2 fst) in He.
Qed.

Lemma prune_lookup k e : prune env m !! k = Some e -> m !! k = Some e /\ keep (now env) e = true.
Proof.
  unfold prune. fold kept. fold found. intros E.
  assert (K : kept !! k = Some e).
  { destruct (_ <? _)%nat; [|done]. rewrite fold_delete_lookup in E. by destruct (decide _). }
  by apply map_lookup_filter_Some in K.
Qed.

(** A running query is never pruned. *)
Lemma prune_running k t : m !! k = Some (Running t) -> prune env m !! k = Some (Running t).
Proof.
  intros L. unfold prune. fold kept. fold found.
  assert (K : kept !! k = Some (Running t)) by (by apply map_lookup_filter_Some).
  destruct (_ <? _)%nat; [|done]. rewrite fold_delete_lookup. destruct (decide _) as [I|]; [|done]. exfalso.
  apply list_elem_of_fmap in I as ([k' a] & -> & I). assert (J : (k', a) ∈ found).
  { rewrite <- (sort_by_elem (cmp_on snd Z.compare)).
    rewrite <- (take_drop (length found - MAX_RETAINED) (sort_by _ found)). apply elem_of_app. by left. }
  apply found_elem in J as (e & L' & R). simpl in K. rewrite K in L'. by injection L' as <-.
Qed.

(** The entry made last stays, unless it has expired. *)
Lemma prune_newest k e a :
  m !! k = Some e -> retained_at e = Some a -> sat_sub (now env) a < RETAIN_FOR ->
  (forall k' e' a', k' <> k -> m !! k' = Some e' -> retained_at e' = Some a' -> a' < a) ->
  prune env m !! k = Some e.
Proof.
  intros L R F New. unfold prune. fold kept. fold found.
  assert (K : kept !! k = Some e).
  { apply map_lookup_filter_Some. split; [done|]. simpl. unfold keep. rewrite R. by apply Z.ltb_lt. }
  destruct (_ <? _)%nat eqn:Len; [|done]. apply Nat.ltb_lt in Len. rewrite fold_delete_lookup.
  destruct (decide _) as [I|]; [|done]. exfalso.
  set (s := sort_by (cmp_on snd Z.compare) found) in I. set (n := (length found - MAX_RETAINED)%nat) in I.
  assert (Ps : s ≡ₚ found) by apply sort_by_perm.
  assert (Ns : NoDup (map fst s)).
  { assert (P : map fst s ≡ₚ map fst found) by (by apply Permutation_map). rewrite P. apply found_nodup. }
  assert (Ls : length (drop n s) = MAX_RETAINED).
  { rewrite length_drop. unfold s. rewrite sort_by_length. unfold n. lia. }
  destruct (drop n s) as [|[k2 a2] tl] eqn:D; [done|].
  assert (S : s = take n s ++ (k2, a2) :: tl) by (by rewrite <- D, take_drop).
  apply list_elem_of_fmap in I as ([k1 a1] & Ek & I). simpl in Ek. subst k1.
  assert (Ha : a1 = a).
  { assert (J : (k, a1) ∈ found) by (rewrite <- Ps, S; apply elem_of_app; by left).
    apply found_elem in J as (e' & L' & R'). congruence. }
  subst a1.
  assert (J2 : (k2, a2) ∈ found) by (rewrite <- Ps, S; apply elem_of_app; right; left).
  apply found_elem in J2 as (e2 & L2 & R2). apply map_lookup_filter_Some in L2 as [L2 _].
  assert (Nk : k2 <> k).
  { intros ->. rewrite S, map_app in Ns. simpl in Ns. apply NoDup_app in Ns as (_ & Ns & _).
    apply (Ns k); [by apply (list_elem_of_fmap_2 fst) in I|left]. }
  specialize (New k2 e2 a2 Nk L2 R2).
  assert (So : StronglySorted (cmp_le (cmp_on snd Z.compare)) s) by (apply sort_by_sorted, _).
  apply list_elem_of_split in I as (l1 & l2 & El). rewrite S, El, <- app_assoc in So. simpl in So.
  apply StronglySorted_app_1_r in So. inversion So as [|? ? _ G]; subst. rewrite list.Forall_forall in G.
  assert (In2 : (k2, a2) ∈ l2 ++ (k2, a2) :: tl) by (apply elem_of_app; right; left).
  specialize (G _ In2). unfold cmp_le, cmp_on in G. simpl in G. change (a <= a2) in G. lia.
Qed.

(** What is kept for a query that does not run is bounded, in number and age. *)
Lemma prune_bounded : (retained_count (prune env m) <= MAX_RETAINED)%nat.
Proof.
  assert (Sub : forall k e, prune env m !! k = Some e -> kept !! k = Some e).
  { intros k e H. apply prune_lookup in H as [L F]. by apply map_lookup_filter_Some. }
  set (live := List.filter (fun kv => is_some (retained_at kv.2)) (map_to_list (prune env m))).
  assert (Nl : NoDup (map fst live)).
  { unfold live. pose proof (NoDup_fst_map_to_list (prune env m)) as N. revert N.
    generalize (map_to_list (prune env m)) as l. intros l. induction l as [|[k e] l IH]; simpl; [done|].
    intros [Nk N]%NoDup_cons. destruct (is_some _); [|by apply IH]. simpl. apply NoDup_cons. split; [|by apply IH].
    intros Hk. apply Nk. apply list_elem_of_fmap in Hk as (x & -> & Hx). apply list_elem_of_fmap_2.
    apply list_elem_of_In in Hx. apply filter_In in Hx as [Hx _]. by apply list_elem_of_In. }
  assert (El : forall k, k ∈ map fst live -> exists e a, prune env m !! k = Some e /\ retained_at e = Some a).
  { intros k Hk. apply list_elem_of_fmap in Hk as ([k' e] & -> & Hx). apply list_elem_of_In in Hx.
    apply filter_In in Hx as [Hx R]. apply list_elem_of_In, elem_of_map_to_list in Hx. simpl in R.
    destruct (retained_at e) as [a|] eqn:Ra; [|done]. by exists e, a. }
  unfold retained_count. fold live. rewrite <- (length_map fst).
  set (s := sort_by (cmp_on snd Z.compare) found). set (n := (length found - MAX_RETAINED)%nat).
  assert (Ls : (length (map fst (drop n s)) <= MAX_RETAINED)%nat).
  { rewrite length_map, length_drop. unfold s. rewrite sort_by_length. unfold n. lia. }
  etransitivity; [|exact Ls]. apply submseteq_length, NoDup_submseteq; [exact Nl|].
  intros k Hk. destruct (El k Hk) as (e & a & L & R).
  assert (J : (k, a) ∈ s) by (unfold s; rewrite sort_by_elem; apply found_elem; exists e; split; [by apply Sub|done]).
  rewrite <- (take_drop n s) in J. apply elem_of_app in J as [J|J]; [|by apply (list_elem_of_fmap_2 fst) in J].
  exfalso. unfold prune in L. fold kept in L. fold found in L. destruct (_ <? _)%nat eqn:Len.
  - rewrite fold_delete_lookup in L. destruct (decide _) as [|N]; [done|]. apply N. fold s n.
    by apply (list_elem_of_fmap_2 fst) in J.
  - apply Nat.ltb_ge in Len. assert (n = 0%nat) as -> by (unfold n; lia). rewrite take_0 in J. by apply elem_of_nil in J.
Qed.

End Prune.

(** ** The registry in use *)

(** Each running query has a flag of its own. *)
Record inv (s : State) : Prop := {
  inv_token k t : entries s !! k = Some (Running t) -> (t < length (tokens s))%nat;
  inv_distinct k k' t : entries s !! k = Some (Running t) -> entries s !! k' = Some (Running t) -> k = k';
}.

Inductive step : State -> State -> Prop :=
| step_register s env conn exec : wf_env env -> step s (register env conn exec s).2
| step_cancel s env at_ env2 conn exec : wf_env env -> wf_env env2 -> step s (cancel env at_ env2 conn exec s).2
| step_drop s env at_ g : wf_env env -> step s (drop_guard env at_ g s).
Definition reachable (s : State) : Prop := rtc step initial s.

Lemma inv_prune s env m tk :
  wf_env env -> (forall k t, m !! k = Some (Running t) -> entries s !! k = Some (Running t)) ->
  (length (tokens s) <= length tk)%nat -> inv s -> inv (mkState (prune env m) tk).
Proof.
  intros W Sub Len [I1 I2]. split; simpl.
  - intros k t H. apply (prune_lookup env m) in H as [H _]. apply Sub, I1 in H. lia.
  - intros k k' t H H'. apply (prune_lookup env m) in H as [H _], H' as [H' _]. eauto.
Qed.

Lemma inv_new s env k b :
  wf_env env -> inv s ->
  inv (mkState (<[k := Running (length (tokens s))]> (prune env (entries s))) (tokens s ++ [b])).
Proof.
  intros W [I1 I2]. assert (P : forall k t, prune env (entries s) !! k = Some (Running t) -> entries s !! k = Some (Running t)).
  { intros k' t H. by apply prune_lookup in H as [H _]. }
  split; simpl.
  - intros k' t [[<- [= <-]]|[_ H]]%lookup_insert_Some; rewrite length_app; simpl; [lia|]. apply P, I1 in H. lia.
  - intros k1 k2 t [[<- [= <-]]|[N1 H1]]%lookup_insert_Some [[<- E2]|[N2 H2]]%lookup_insert_Some; try done.
    + apply P, I1 in H2. lia.
    + injection E2 as <-. apply P, I1 in H1. lia.
    + eauto.
Qed.

Lemma query_step_inv s s' : inv s -> step s s' -> inv s'.
Proof.
  intros I S. destruct S as [s0 env conn exec W|s0 env at_ env2 conn exec W W2|s0 env at_ g W].
  - unfold register. destruct exec as [exec|]; simpl.
    + destruct (prune env (entries s0) !! (conn, exec)) as [[t|a|a]|] eqn:L; simpl.
      * apply (inv_prune s0); [done|done|rewrite length_app; lia|done].
      * by apply inv_new.
      * apply (inv_prune s0); [done|done|rewrite length_app; lia|done].
      * by apply inv_new.
    + destruct I as [I1 I2]. split; simpl; [|done]. intros k t H%I1. rewrite length_app. lia.
  - unfold cancel. assert (P : forall k t, prune env (entries s0) !! k = Some (Running t) -> entries s0 !! k = Some (Running t)).
    { intros k' t H. by apply prune_lookup in H as [H _]. }
    destruct (prune env (entries s0) !! (conn, exec)) as [[t|a|a]|] eqn:L; simpl.
    + apply (inv_prune s0); [done|done| |done]. unfold send_cancel. by rewrite length_insert.
    + by apply (inv_prune s0).
    + by apply (inv_prune s0).
    + apply (inv_prune s0); [done| |done|done]. intros k t [[_ ?]|[_ H]]%lookup_insert_Some; [done|by apply P].
  - unfold drop_guard. destruct (guard_key g) as [k|]; [|done].
    apply (inv_prune s0); [done| |done|done]. intros k' t [[_ ?]|[_ H]]%lookup_insert_Some; done.
Qed.

Lemma query_reachable_inv s : reachable s -> inv s.
Proof.
  unfold reachable. assert (I : inv initial) by (split; intros * H; cbn [entries initial] in H; by rewrite lookup_empty in H).
  revert I. generalize initial. intros s0 I R. induction R as [|s s1 s2 S _ IH]; [done|]. apply IH. by apply (query_step_inv s).
Qed.

(** Cancelling a table query.  A running query is told, and no other query
    is; a query that has ended makes the answer [false] and nothing happens; and
    a query that has not started yet, so the cancellation overtook it, is
    cancelled from its first moment when it does start within the retention
    time, before it has done any work.  What is retained for this is bounded. *)
Theorem cancel_reaches_its_query s env at_ env2 env3 conn exec :
  reachable s -> wf_env env -> wf_env env2 -> wf_env env3 ->
  let '(answer, s') := cancel env at_ env2 conn exec s in
  (retained_count (entries s') <= MAX_RETAINED)%nat /\
  match prune env (entries s) !! (conn, exec) with
  | Some (Running t) =>
    answer = true /\ is_cancelled t (tokens s') = true /\ entries s' !! (conn, exec) = Some (Running t) /\
    forall k t', k <> (conn, exec) -> entries s !! k = Some (Running t') ->
      is_cancelled t' (tokens s') = is_cancelled t' (tokens s)
  | Some (Finished _) => answer = false /\ tokens s' = tokens s
  | waiting =>
    let started := match waiting with Some (Pending a) => a | _ => at_ end in
    answer = true /\ tokens s' = tokens s /\
    ((forall k e a, k <> (conn, exec) -> entries s !! k = Some e -> retained_at e = Some a -> a < started) ->
     sat_sub (now env2) started < RETAIN_FOR -> sat_sub (now env3) started < RETAIN_FOR ->
     exists g, (register env3 conn (Some exec) s').1 = Ok g /\
       forall T (polls : list (bool * option (result T str * bool))),
         run (is_cancelled (cancellation g) (tokens (register env3 conn (Some exec) s').2)) polls = Some (Err CANCELLED))
  end.
Proof.
  intros [I1 I2]%query_reachable_inv W W2 W3. unfold cancel. set (m := prune env (entries s)). set (k := (conn, exec)).
  assert (P : forall k e, m !! k = Some e -> entries s !! k = Some e) by (intros k' e H; by apply prune_lookup in H as [H _]).
  assert (Started : forall m' a tk, m' !! k = Some (Pending a) ->
    (forall k' e, k' <> k -> m' !! k' = Some e -> m !! k' = Some e) ->
    (forall k' e a', k' <> k -> entries s !! k' = Some e -> retained_at e = Some a' -> a' < a) ->
    sat_sub (now env2) a < RETAIN_FOR -> sat_sub (now env3) a < RETAIN_FOR ->
    exists g, (register env3 conn (Some exec) (mkState (prune env2 m') tk)).1 = Ok g /\
       forall T (polls : list (bool * option (result T str * bool))),
         run (is_cancelled (cancellation g) (tokens (register env3 conn (Some exec) (mkState (prune env2 m') tk)).2)) polls
         = Some (Err CANCELLED)).
  { intros m' a tk L Sub New F2 F3.
    assert (L2 : prune env2 m' !! k = Some (Pending a)).
    { apply (prune_newest env2 W2 m' k (Pending a) a); [done|done|done|]. intros k' e a' Nk H R.
      apply (New k' e a'); [done|by apply P, Sub|done]. }
    assert (L3 : prune env3 (prune env2 m') !! k = Some (Pending a)).
    { apply (prune_newest env3 W3 (prune env2 m') k (Pending a) a); [done|done|done|]. intros k' e a' Nk H R.
      apply prune_lookup in H as [H _]. apply (New k' e a'); [done|by apply P, Sub|done]. }
    unfold register. cbn [entries tokens]. fold k. rewrite L3. simpl. eexists. split; [done|]. intros T polls. simpl.
    unfold is_cancelled. rewrite lookup_app_r by done. by rewrite Nat.sub_diag. }
  destruct (m !! k) as [[t|a|a]|] eqn:L; cbn [entries tokens].
  - split; [by apply prune_bounded|]. split; [done|]. assert (Lt : (t < length (tokens s))%nat) by (apply (I1 k), P, L).
    split; [unfold is_cancelled, send_cancel; by rewrite list_lookup_insert_eq|]. split.
    { by apply prune_running. }
    intros k' t' Nk H. unfold is_cancelled, send_cancel. rewrite list_lookup_insert_ne; [done|].
    intros ->. apply Nk. apply (I2 k' k t'); [done|by apply P].
  - split; [by apply prune_bounded|]. split; [done|]. split; [done|]. by apply Started.
  - split; [by apply prune_bounded|done].
  - split; [by apply prune_bounded|]. split; [done|]. split; [done|]. apply Started.
    + by rewrite lookup_insert_eq.
    + intros k' e Nk. by rewrite lookup_insert_ne.
Qed.

(** The witness: the cancellation comes first. *)
Definition q_env (n : Z) : Env := mkEnv n map_to_list.
Lemma cancel_reaches_its_query_witness :
  let s' := (cancel (q_env 5) 5 (q_env 6) (u "c") (u "e") initial).2 in
  exists g, (register (q_env 9) (u "c") (Some (u "e")) s').1 = Ok g /\
    is_cancelled (cancellation g) (tokens (register (q_env 9) (u "c") (Some (u "e")) s').2) = true /\
    run (T := unit) (is_cancelled (cancellation g) (tokens (register (q_env 9) (u "c") (Some (u "e")) s').2)) [] = Some (Err CANCELLED).
Proof.
  assert (W : forall n, wf_env (q_env n)) by (intros n m; done).
  pose proof (cancel_reaches_its_query initial (q_env 5) 5 (q_env 6) (q_env 9) (u "c") (u "e")
                (rtc_refl _ _) (W 5) (W 6) (W 9)) as H.
  destruct H as (_ & _ & _ & H). destruct H as (g & E & R); [|done|done|].
  - intros k e a _. simpl. by rewrite lookup_empty.
  - exists g. split; [exact E|]. split; [|exact (R unit [])]. specialize (R unit [(false, None)]). 
    revert R. unfold run. by destruct (is_cancelled _ _).
Defined.

End TableQuery.
