(* ===== verification/ResultBudget.v ===== *)
(** The budget of a query's result (src-tauri/src/db/result_budget.rs): rows,
    and bytes of the compact JSON of the columns and the rows.

    [serialize] gives the lengths of the pieces that serde_json writes for a
    value, one after the other. *)
From S2P Require Import Prelude RustText.

Module ResultBudget.

Definition MAX_RESULT_ROWS : Z := 100000.
Definition MAX_RESULT_BYTES : Z := 32 * 1024 * 1024.

Record Budget : Type := mkBudget { rows : Z; bytes : Z; max_bytes : Z; max_rows : Z }.
Definition with_limits (max_rows max_bytes : Z) : Budget := mkBudget 0 2 max_bytes max_rows.
Definition default_budget : Budget := with_limits MAX_RESULT_ROWS MAX_RESULT_BYTES.

Definition result_bytes_exceeded : str :=
  u "查询结果超过最大字节数 " ++ show_Z MAX_RESULT_BYTES ++ u "（32 MiB），请减少查询列、限制返回行数或缩小范围后重试".
Definition result_rows_exceeded (b : Budget) : str :=
  u "查询结果超过最大行数 " ++ show_Z (max_rows b) ++ u "，请限制返回行数或缩小范围后重试".

(** [BoundedCounter::write], and [to_writer] over the pieces. *)
Definition write (limit count piece : Z) : option Z :=
  let next := sat_add count piece in if limit <? next then None else Some next.
Fixpoint write_all (limit count : Z) (pieces : list Z) : option Z :=
  match pieces with
  | [] => Some count
  | p :: pieces => match write limit count p with Some count => write_all limit count pieces | None => None end
  end.

Section Budgets.
Context {V : Type} (serialize : V -> list Z).

Definition add_json (value : V) (separator : Z) (b : Budget) : result unit str * Budget :=
  match write_all (max_bytes b) (sat_add (bytes b) separator) (serialize value) with
  | Some n => (Ok tt, mkBudget (rows b) n (max_bytes b) (max_rows b))
  | None => (Err result_bytes_exceeded, b)
  end.
Definition add_columns (columns : V) (b : Budget) : result unit str * Budget := add_json columns 0 b.
Definition add_row (row : V) (b : Budget) : result unit str * Budget :=
  if max_rows b <=? rows b then (Err (result_rows_exceeded b), b)
  else
    let '(r, b) := add_json row (if 0 <? rows b then 1 else 0) b in
    match r with
    | Ok _ => (Ok tt, mkBudget (rows b + 1) (bytes b) (max_bytes b) (max_rows b))
    | Err e => (Err e, b)
    end.

(** [stream]: what the driver yields; the second component of the answer is
    the part of it that was not asked for. *)
Fixpoint collect (stream : list (result V str)) (acc : list V) (b : Budget) : result (list V) str * list (result V str) * Budget :=
  match stream with
  | [] => (Ok acc, [], b)
  | Err e :: stream => (Err e, stream, b)
  | Ok row :: stream =>
    match add_row row b with
    | (Ok _, b) => collect stream (acc ++ [row]) b
    | (Err e, b) => (Err e, stream, b)
    end
  end.
Definition collect_rows (stream : list (result V str)) (b : Budget) : result (list V) str * list (result V str) * Budget :=
  collect stream [] b.

(** ** The size of a result *)

Definition size (v : V) : Z := fold_right Z.add 0 (serialize v).
(** The compact JSON of an array of rows. *)
Definition array_size (l : list V) : Z := 2 + fold_right (fun v n => size v + n) 0 l + Z.max 0 (zlen l - 1).

(** A value is an array: its text has at least its two brackets. *)
Context (pieces_nonneg : forall v p, p ∈ serialize v -> 0 <= p) (brackets : forall v, 2 <= size v).

Lemma sum_nonneg l : (forall p, p ∈ l -> 0 <= p) -> 0 <= fold_right Z.add 0 l.
Proof.
  induction l as [|p l IH]; simpl; intros H; [lia|].
  assert (0 <= p) by (apply H; left). assert (0 <= fold_right Z.add 0 l) by (apply IH; intros; apply H; by right). lia.
Qed.

Lemma write_all_exact limit pieces : limit < u64_max -> forall count,
  (forall p, p ∈ pieces -> 0 <= p) -> 0 <= count <= limit ->
  write_all limit count pieces = if count + fold_right Z.add 0 pieces <=? limit then Some (count + fold_right Z.add 0 pieces) else None.
Proof.
  intros Hl. induction pieces as [|p pieces IH]; simpl; intros count Hp Hc.
  - replace (count + 0) with count by lia. by replace (count <=? limit) with true by lia.
  - assert (P0 : 0 <= p) by (apply Hp; left).
    assert (Ps : forall q, q ∈ pieces -> 0 <= q) by (intros; apply Hp; by right).
    pose proof (sum_nonneg pieces Ps) as S0. unfold write, sat_add.
    destruct (limit <? _) eqn:E.
    + replace (_ <=? limit) with false by lia. done.
    + replace (Z.min (count + p) u64_max) with (count + p) by lia. rewrite (IH (count + p) Ps) by lia.
      replace (count + p + fold_right Z.add 0 pieces) with (count + (p + fold_right Z.add 0 pieces)) by lia. done.
Qed.

(** [counted columns l b]: the budget after [columns] and the rows [l]. *)
Definition counted (mr mb : Z) (columns : V) (l : list V) : Budget := mkBudget (zlen l) (size columns + array_size l) mb mr.

Lemma array_size_snoc l v : array_size (l ++ [v]) = array_size l + size v + (if 0 <? zlen l then 1 else 0).
Proof.
  unfold array_size. rewrite zlen_app. change (zlen [v]) with 1.
  assert (fold_right (fun v n => size v + n) 0 (l ++ [v]) = fold_right (fun v n => size v + n) 0 l + size v) as ->.
  { induction l as [|x l IH]; simpl; lia. }
  pose proof (zlen_nonneg l). destruct (0 <? zlen l) eqn:E; lia.
Qed.

Lemma array_brackets l : 2 <= array_size l.
Proof.
  unfold array_size. assert (0 <= fold_right (fun v n => size v + n) 0 l); [|lia].
  induction l as [|v l IH]; simpl; [lia|]. pose proof (brackets v). lia.
Qed.

Lemma add_columns_exact mr mb columns :
  2 <= mb < u64_max ->
  add_columns columns (with_limits mr mb) =
    if size columns + 2 <=? mb then (Ok tt, counted mr mb columns []) else (Err result_bytes_exceeded, with_limits mr mb).
Proof.
  intros B. unfold add_columns, add_json. simpl. rewrite (write_all_exact mb); [|lia|apply pieces_nonneg|unfold sat_add, u64_max; lia].
  unfold sat_add. replace (Z.min (2 + 0) u64_max) with 2 by (unfold u64_max; lia). fold (size columns).
  replace (2 + size columns) with (size columns + 2) by lia.
  by destruct (_ <=? mb).
Qed.

Lemma add_row_exact mr mb columns l row :
  mb < u64_max -> size columns + array_size l <= mb ->
  add_row row (counted mr mb columns l) =
    if mr <=? zlen l then (Err (result_rows_exceeded (counted mr mb columns l)), counted mr mb columns l)
    else if size columns + array_size (l ++ [row]) <=? mb then (Ok tt, counted mr mb columns (l ++ [row]))
    else (Err result_bytes_exceeded, counted mr mb columns l).
Proof.
  intros B Le. unfold add_row, add_json. cbn [rows bytes max_bytes max_rows counted].
  destruct (mr <=? zlen l); [done|]. rewrite array_size_snoc.
  pose proof (brackets columns). pose proof (array_brackets l). pose proof (brackets row).
  set (sep := if 0 <? zlen l then 1 else 0). assert (0 <= sep <= 1) by (unfold sep; destruct (0 <? _); lia).
  unfold sat_add. replace (Z.min _ u64_max) with (size columns + array_size l + sep) by lia.
  destruct (Z.eq_dec (size columns + array_size l + sep) (mb + 1)) as [E|N].
  - (* the separator alone is one byte too many *)
    replace (_ <=? mb) with false by lia.
    assert (W : forall pieces c, (forall p, p ∈ pieces -> 0 <= p) -> mb < c -> c <= u64_max -> pieces <> [] -> write_all mb c pieces = None).
    { intros [|p pieces] c Hp Hc Hu Hn; [done|]. simpl. unfold write, sat_add. assert (0 <= p) by (apply Hp; left).
      replace (mb <? _) with true by lia. done. }
    destruct (serialize row) as [|p pieces] eqn:S.
    + exfalso. pose proof (brackets row) as Br. unfold size in Br. rewrite S in Br. simpl in Br. lia.
    + rewrite W; [done| |lia|lia|done]. rewrite <- S. apply pieces_nonneg.
  - rewrite (write_all_exact mb); [|lia|apply pieces_nonneg|lia]. fold (size row).
    replace (size columns + array_size l + sep + size row) with (size columns + (array_size l + size row + sep)) by lia.
    destruct (_ <=? mb); [|done]. unfold counted. rewrite array_size_snoc, zlen_app. fold sep. change (zlen [row]) with 1. cbn [rows max_bytes max_rows bytes]. do 2 f_equal; lia.
Qed.

(** The budget is exact.  From a fresh budget with the columns counted, the
    rows of a stream are all collected exactly when the driver reports no error,
    they are at most the rows allowed, and the compact JSON of the columns and of
    the array of all rows fits; the budget then holds that number of bytes.
    Otherwise nothing is returned, and the stream is not read past the row or
    the error that ended it. *)
Theorem budget_exact mr mb columns stream b :
  2 <= mb < u64_max -> 0 <= mr ->
  add_columns columns (with_limits mr mb) = (Ok tt, b) ->
  let '(answer, unread, b') := collect_rows stream b in
  match answer with
  | Ok l => stream = map Ok l /\ unread = [] /\ zlen l <= mr /\ bytes b' = size columns + array_size l /\ bytes b' <= mb
  | Err e =>
    exists l last, stream = map Ok l ++ last :: unread /\ zlen l <= mr /\ size columns + array_size l <= mb /\
      match last with
      | Err e' => e = e'
      | Ok row => (mr = zlen l /\ e = result_rows_exceeded b) \/
                  (zlen l < mr /\ mb < size columns + array_size (l ++ [row]) /\ e = result_bytes_exceeded)
      end
  end.
Proof.
  intros B M A. rewrite (add_columns_exact mr mb columns B) in A.
  destruct (size columns + 2 <=? mb) eqn:F; [|done]. injection A as <-. apply Z.leb_le in F.
  unfold collect_rows. assert (Gen : forall stream l, zlen l <= mr -> size columns + array_size l <= mb ->
    let '(answer, unread, b') := collect stream l (counted mr mb columns l) in
    match answer with
    | Ok k => map Ok l ++ stream = map Ok k /\ unread = [] /\ zlen k <= mr /\ bytes b' = size columns + array_size k /\ bytes b' <= mb
    | Err e =>
      exists k last, map Ok l ++ stream = map Ok k ++ last :: unread /\ zlen k <= mr /\ size columns + array_size k <= mb /\
        match last with
        | Err e' => e = e'
        | Ok row => (mr = zlen k /\ e = result_rows_exceeded (counted mr mb columns [])) \/
                    (zlen k < mr /\ mb < size columns + array_size (k ++ [row]) /\ e = result_bytes_exceeded)
        end
    end).
  { clear stream. induction stream as [|[row|e] stream IH]; intros l Ll Lb; cbn [collect].
    - rewrite app_nil_r. simpl. done.
    - rewrite add_row_exact by lia. destruct (mr <=? zlen l) eqn:R.
      + exists l, (Ok row). split_and!; [done..|]. left. split; [lia|done].
      + apply Z.leb_gt in R. destruct (_ <=? mb) eqn:Fb.
        * apply Z.leb_le in Fb. specialize (IH (l ++ [row])). rewrite map_app, <- app_assoc in IH. simpl in IH.
          apply IH; [|done]. rewrite zlen_app. change (zlen [row]) with 1. lia.
        * exists l, (Ok row). split_and!; [done..|]. right. split_and!; [lia|by apply Z.leb_gt|done].
    - exists l, (Err e). done. }
  specialize (Gen stream []). simpl in Gen. apply Gen; [done|]. unfold array_size. simpl. unfold zlen. simpl. lia.
Qed.

End Budgets.

(** The witness: with a limit of two rows the third is refused, and the fourth
    element of the stream is not read. *)
Lemma budget_exact_witness :
  let serialize (v : list Z) := [1] ++ v ++ [1] in
  let b := (add_columns serialize [3] (with_limits 2 100)).2 in
  let stream := [Ok [1]; Ok [2]; Ok [3]; Err (u "x")] in
  collect_rows serialize stream b = (Err (result_rows_exceeded b), [Err (u "x")], mkBudget 2 15 100 2) /\
  exists l last, stream = map Ok l ++ last :: [Err (u "x")] /\ zlen l <= 2.
Proof.
  cbn zeta. split; [by vm_compute|].
  pose (ser := fun v : list Z => [1] ++ map (fun x => Z.max 0 x) v ++ [1]).
  assert (H1 : forall v p, p ∈ ser v -> 0 <= p).
  { intros v p [->|[Hp| ->%list_elem_of_singleton]%elem_of_app]%elem_of_cons; [lia| |lia].
    apply list_elem_of_fmap in Hp as (x & -> & _). lia. }
  assert (H2 : forall v, 2 <= size ser v).
  { intros v. unfold size, ser. simpl. assert (forall l, 1 <= fold_right Z.add 0 (map (fun x => Z.max 0 x) l ++ [1])); [|specialize (H v); lia].
    induction l as [|x l IH]; simpl; lia. }
  pose proof (budget_exact ser H1 H2 2 100 [3] [Ok [1]; Ok [2]; Ok [3]; Err (u "x")] (mkBudget 0 7 100 2) ltac:(by vm_compute) ltac:(lia) eq_refl) as G.
  destruct G as (l & last & E & L & _). exists l, last. by split.
Defined.

End ResultBudget.
