(* ===== verification/JsonValue.v ===== *)
(** What the table pages use of serde_json's [Value]: an interface, with the
    laws of the library's documentation that the theorems rely on, and a small
    instance for the witnesses. *)
From S2P Require Import Prelude RustText.

Module JsonValue.

Class JsonValue (V : Type) : Type := {
  json_eq_dec :: EqDecision V;
  is_null : V -> bool;
  is_number : V -> bool;
  as_str : V -> option str;
  as_u64 : V -> option Z;
  to_string : V -> str;
  jnull : V;
  jtrue : V;
  jstring : str -> V;
  jnumber : Z -> V;
  jobject : list (String.string * V) -> V;
}.

Class JsonLaws (V : Type) `{JsonValue V} : Prop := {
  as_str_string (s : str) : as_str (jstring s) = Some s;
  null_null : is_null jnull = true;
  null_not_string (v : V) : is_null v = true -> as_str v = None;
  as_u64_number (n : Z) : u64_range n -> as_u64 (jnumber n) = Some n;
}.

(** [serde_json::Value] without floating-point numbers and arrays. *)
Inductive Sample : Type := SNull | STrue | SString (s : str) | SNumber (n : Z) | SObject (l : list (str * str)).

Definition sample_text (v : Sample) : str :=
  match v with
  | SNull => u "null" | STrue => u "true" | SString s => [34] ++ s ++ [34] | SNumber n => show_Z n | SObject _ => u "{}"
  end.
#[export] Instance sample_eq_dec : EqDecision Sample.
Proof. solve_decision. Defined.
#[export] Instance sample_json : JsonValue Sample := {
  json_eq_dec := sample_eq_dec;
  is_null v := match v with SNull => true | _ => false end;
  is_number v := match v with SNumber _ => true | _ => false end;
  as_str v := match v with SString s => Some s | _ => None end;
  as_u64 v := match v with SNumber n => if 0 <=? n then Some n else None | _ => None end;
  to_string := sample_text;
  jnull := SNull;
  jtrue := STrue;
  jstring := SString;
  jnumber := SNumber;
  jobject l := SObject (map (fun '(k, v) => (u k, sample_text v)) l);
}.
#[export] Instance sample_laws : JsonLaws Sample.
Proof.
  split; [done|done|by intros []|]. intros n H. simpl. unfold u64_range in H. by replace (0 <=? n) with true by lia.
Qed.

End JsonValue.
