(* ===== verification/DeferredFields.v ===== *)
(** Large fields of MySQL table pages (src-tauri/src/db/mysql_deferred_fields.rs):
    the projection that fetches previews with their lengths, what the rows it
    returns are turned into, and the query that reads the full rows again. *)
From S2P Require Import Prelude RustText Ddl SqlDialect PageCache JsonValue.
Import Ddl PageCache JsonValue.

Module DeferredFields.

Definition esc_id (name : str) : str := SqlDialect.identifier SqlDialect.MySqlDialect name.

(** ** Columns *)

Definition deferred_kind (c : MysqlColumn) : option str :=
  if one_of (mc_data_type c) ["char"; "varchar"; "tinytext"; "text"; "mediumtext"; "longtext"; "json"]%string then Some (u "text")
  else if one_of (mc_data_type c) ["binary"; "varbinary"; "tinyblob"; "blob"; "mediumblob"; "longblob"]%string then Some (u "binary")
  else None.
Definition can_locate (c : MysqlColumn) : bool :=
  one_of (mc_data_type c) ["tinyint"; "smallint"; "mediumint"; "int"; "bigint"; "char"; "varchar"; "tinytext"; "text";
    "mediumtext"; "longtext"; "enum"; "set"]%string.

(** [parse::<f64>()] gives a finite number: it stays below the midpoint after
    the largest double. *)
Definition f64_overflow : Z := 2 ^ 1024 - 2 ^ 970.
Definition parses_finite (value : str) : bool :=
  let rest := strip_sign value in
  decimal_number rest
  && let '(m, e) := decimal_parts rest in
     if 0 <=? e then m * 10 ^ e <? f64_overflow else m <? f64_overflow * 10 ^ (- e).

Section Json.
Context {V : Type} `{JsonValue V}.

Definition valid_locator (c : MysqlColumn) (value : V) (require_lossless : bool) : bool :=
  if (require_lossless && negb (can_locate c)) || negb (is_some (as_str value) || is_number value) then false
  else
    let text := match as_str value with Some s => s | None => to_string value end in
    if one_of (mc_data_type c) ["tinyint"; "smallint"; "mediumint"; "int"; "bigint"]%string
    then if mc_unsigned c then is_some (parse_u64 text) else is_some (parse_i64 text)
    else if one_of (mc_data_type c) ["decimal"; "numeric"; "float"; "double"]%string then parses_finite text
    else is_some (as_str value).

(** ** The projection *)

Record Projection : Type := mkProjection {
  sql : str; proj_columns : list str; deferred : list (nat * str * str) }.

Definition mem (x : str) (l : list str) : bool := existsb (str_eqb x) l.
Definition find_column (columns : list MysqlColumn) (name : str) : option MysqlColumn :=
  find_first (fun c => str_eqb (mc_name c) name) columns.

(** [while !used.insert(..) { alias.push('_') }]; the set's size bounds it. *)
Fixpoint free_alias (fuel : nat) (used : list str) (alias : str) : str :=
  match fuel with
  | O => alias
  | S fuel => if mem (to_ascii_lowercase alias) used then free_alias fuel used (alias ++ u "_") else alias
  end.

Definition kind_of (columns : list MysqlColumn) (primary : list str) (name : str) : option str :=
  match find_column columns name with
  | Some c => match deferred_kind c with Some k => if mem name primary then None else Some k | None => None end
  | None => None
  end.

Definition preview_sql (columns : list MysqlColumn) (name : str) : str :=
  let quoted := esc_id name in
  let value :=
    if existsb (fun c => str_eqb (mc_name c) name && str_eqb (mc_data_type c) (u "json")) columns
    then u "CAST(" ++ quoted ++ u " AS CHAR CHARACTER SET utf8mb4)" else quoted in
  u "CASE WHEN OCTET_LENGTH(" ++ quoted ++ u ") > 4096 THEN LEFT(" ++ value ++ u ", 120) ELSE " ++ value ++ u " END AS " ++ quoted.
Definition length_sql (name alias : str) : str := u "OCTET_LENGTH(" ++ esc_id name ++ u ") AS " ++ esc_id alias.

(** The loop over the names: [parts], [length_parts] and [deferred]. *)
Fixpoint plan_parts (columns : list MysqlColumn) (primary : list str) (used : list str) (index : nat) (names : list str) :
  list str * list str * list (nat * str * str) :=
  match names with
  | [] => ([], [], [])
  | name :: names =>
    match kind_of columns primary name with
    | Some kind =>
      let alias := free_alias (S (length used)) used (u "__deferred_length_" ++ show_Z (Z.of_nat index)) in
      let '(parts, lengths, deferred) := plan_parts columns primary (to_ascii_lowercase alias :: used) (S index) names in
      (preview_sql columns name :: parts, length_sql name alias :: lengths, (index, alias, kind) :: deferred)
    | None =>
      let '(parts, lengths, deferred) := plan_parts columns primary used (S index) names in
      (esc_id name :: parts, lengths, deferred)
    end
  end.

Definition nonempty (selected : option (list str)) : option (list str) :=
  match selected with Some [] => None | s => s end.

Definition visible (columns : list MysqlColumn) : list str :=
  map mc_name (List.filter (fun c => negb (mc_invisible c)) columns).

Definition projection_new (columns : list MysqlColumn) (primary : list str) (reliable : bool) (selected : option (list str)) : Projection :=
  let selected := nonempty selected in
  let names := match selected with Some l => l | None => visible columns end in
  let fallback := match selected with Some l => join (u ", ") (map esc_id l) | None => u "*" end in
  if negb reliable || is_empty primary
     || negb (forallb (fun k => mem k names && existsb (fun c => str_eqb (mc_name c) k && can_locate c) columns) primary)
  then mkProjection fallback names []
  else
    let '(parts, lengths, deferred) := plan_parts columns primary (map (fun c => to_ascii_lowercase (mc_name c)) columns) 0 names in
    match deferred with
    | [] => mkProjection fallback names []
    | _ => mkProjection (join (u ", ") (parts ++ lengths)) names deferred
    end.

(** ** The rows *)

Definition deferred_object (preview : str) (length : Z) (kind : str) : V :=
  jobject [("__deferred_field"%string, jtrue); ("preview"%string, jstring preview); ("byte_length"%string, jnumber length);
           ("kind"%string, jstring kind)].

Definition read_length (v : V) : option Z :=
  match as_u64 v with Some n => Some n | None => text ← as_str v; parse_u64 text end.

(** One deferred field of a row. *)
Definition finish_field (row : list V) (d : nat * nat * str) : list V :=
  let '(index, length_index, kind) := d in
  match row !! length_index ≫= read_length, row !! index with
  | Some length, Some value =>
    if (4096 <? length) && negb (is_null value)
    then <[index := deferred_object (match as_str value with Some s => s | None => to_string value end) length kind]> row
    else row
  | _, _ => row
  end.

(** The columns of the answer afterwards, and what is done to each row. *)
Definition prepare_rows (p : Projection) (columns : list str) : list str * (list V -> list V) :=
  let found := omap (fun '(index, alias, kind) => (fun i => (index, i, kind)) <$> position (fun c => str_eqb c alias) columns) (deferred p) in
  let cut {A} (l : list A) := if is_empty (deferred p) then l else take (length (proj_columns p)) l in
  (cut columns, fun row => cut (fold_left finish_field found row)).

(** ** Reading the full rows *)

Definition full_projection (table : str) (columns : list MysqlColumn) (primary : list str) (selected : option (list str)) : result str str :=
  match nonempty selected with
  | Some selected =>
    let? names := fold_left (fun names name =>
      let? names := names in
      if negb (existsb (fun c => str_eqb (mc_name c) name) columns) then Err (u "未知列: " ++ name)
      else Ok (if mem name names then names else names ++ [name])) (selected ++ primary) (Ok []) in
    Ok (join (u ", ") (map esc_id names))
  | None =>
    let invisible_keys := map esc_id
      (List.filter (fun k => existsb (fun c => str_eqb (mc_name c) k && mc_invisible c) columns) primary) in
    Ok (if is_empty invisible_keys then u "*" else esc_id table ++ u ".*, " ++ join (u ", ") invisible_keys)
  end.

(** A locator is a hash map from key column to value. *)
Definition locator_parts (columns : list MysqlColumn) (primary : list str) (require_lossless : bool) (locator : gmap str V) :
  result (list str * list V) str :=
  if negb (Z.of_nat (size locator) =? zlen primary) then Err (u "必须提供每一列完整主键，且不能包含其他列")
  else
    let? parts := traverse (fun k =>
      let? value := ok_or (locator !! k) (u "缺少主键列") in
      let? column := ok_or (find_column columns k) (u "缺少主键元数据") in
      if negb (valid_locator column value require_lossless) then Err (u "无效主键值: " ++ k)
      else Ok (esc_id k ++ u " = ?", value)) primary in
    Ok (map fst parts, map snd parts).

Definition full_rows_query (database table : str) (columns : list MysqlColumn) (primary : list str) (reliable : bool)
  (locators : list (gmap str V)) (selected : option (list str)) : result (str * list V) str :=
  if negb reliable || is_empty primary then Err (u "表缺少可靠的完整主键，无法读取完整字段")
  else if is_empty locators then Err (u "没有提供主键值")
  else
    let? projection := full_projection table columns primary selected in
    let? found := traverse (locator_parts columns primary (is_some selected)) locators in
    Ok (u "SELECT " ++ projection ++ u " FROM " ++ esc_id database ++ u "." ++ esc_id table ++ u " WHERE "
          ++ join (u " OR ") (map (fun p => u "(" ++ join (u " AND ") p.1 ++ u ")") found),
        List.concat (map snd found)).

Definition order_by (fields : list (str * str)) (table : str) : str :=
  let parts := map (fun '(col, order) =>
      esc_id table ++ u "." ++ esc_id (trim col) ++ u " " ++ (if eq_ignore_ascii_case order (u "DESC") then u "DESC" else u "ASC"))
    (List.filter (fun '(col, _) => negb (is_empty (trim col))) fields) in
  if is_empty parts then [] else u " ORDER BY " ++ join (u ", ") parts.

End Json.


(** ** Aliases *)

Lemma mem_elem x l : mem x l = true <-> x ∈ l.
Proof.
  unfold mem. rewrite existsb_exists. split.
  - intros (y & I & E). apply bool_decide_eq_true in E as ->. by apply list_elem_of_In.
  - intros I. exists x. split; [by apply list_elem_of_In|]. by apply bool_decide_eq_true.
Qed.

Definition longer (n : nat) (used : list str) : nat := length (List.filter (fun x => (n <=? length x)%nat) used).

Lemma longer_step n used x : x ∈ used -> length x = n -> (longer (S n) used < longer n used)%nat.
Proof.
  unfold longer. intros I E. assert (Le : forall l : list str, (length (List.filter (fun y => (S n <=? length y)%nat) l) <= length (List.filter (fun y => (n <=? length y)%nat) l))%nat).
  { induction l as [|y l IH]; [done|]. cbn [List.filter].
    destruct (S n <=? length y)%nat eqn:A, (n <=? length y)%nat eqn:B; cbn [length]; try lia.
    apply Nat.leb_le in A. apply Nat.leb_gt in B. lia. }
  induction used as [|y used IH]; [by apply elem_of_nil in I|]. cbn [List.filter].
  apply elem_of_cons in I as [<-|I].
  - replace (S n <=? length x)%nat with false by (symmetry; apply Nat.leb_gt; lia).
    replace (n <=? length x)%nat with true by (symmetry; apply Nat.leb_le; lia). cbn [length]. specialize (Le used). lia.
  - specialize (IH I). destruct (S n <=? length y)%nat eqn:A, (n <=? length y)%nat eqn:B; cbn [length]; try lia.
    apply Nat.leb_le in A. apply Nat.leb_gt in B. lia.
Qed.

(** The search for an alias ends on one that is free. *)
Lemma free_alias_free used alias : to_ascii_lowercase (free_alias (S (length used)) used alias) ∉ used.
Proof.
  assert (Gen : forall fuel alias, (longer (length alias) used < fuel)%nat -> to_ascii_lowercase (free_alias fuel used alias) ∉ used).
  { clear alias. induction fuel as [|fuel IH]; intros alias L; [lia|]. simpl. destruct (mem _ used) eqn:M.
    - apply mem_elem in M. apply IH. rewrite length_app.
      assert (Ll : length (to_ascii_lowercase alias) = length alias) by (unfold to_ascii_lowercase; by rewrite length_map).
      pose proof (longer_step (length alias) used _ M Ll). change (length (u "_")) with 1%nat.
      replace (length alias + 1)%nat with (S (length alias)) by lia. lia.
    - intros I. apply mem_elem in I. congruence. }
  apply Gen. unfold longer. pose proof (List.filter_length_le (fun x => (length alias <=? length x)%nat) used). lia.
Qed.

(** ** What the loop plans *)

Definition index_of (d : nat * str * str) : nat := d.1.1.
Definition alias_of (d : nat * str * str) : str := d.1.2.

Record planned (columns : list MysqlColumn) (primary used : list str) (i : nat) (names : list str)
  (parts lengths : list str) (d : list (nat * str * str)) : Prop := {
  pl_parts : parts = map (fun n => if is_some (kind_of columns primary n) then preview_sql columns n else esc_id n) names;
  pl_lengths : lengths = map (fun x => length_sql (default [] (names !! (index_of x - i)%nat)) (alias_of x)) d;
  pl_bounds x : x ∈ d -> (i <= index_of x < i + length names)%nat;
  pl_nodup : NoDup (map index_of d);
  pl_kind n k : names !! n = Some k -> forall kind, kind_of columns primary k = Some kind <-> exists a, ((i + n)%nat, a, kind) ∈ d;
  pl_free x : x ∈ d -> to_ascii_lowercase (alias_of x) ∉ used;
  pl_aliases : NoDup (map (fun x => to_ascii_lowercase (alias_of x)) d);
}.

Lemma plan_parts_planned columns primary names : forall used i parts lengths d,
  plan_parts columns primary used i names = (parts, lengths, d) -> planned columns primary used i names parts lengths d.
Proof.
  induction names as [|name names IH]; intros used i parts lengths d; cbn [plan_parts].
  { intros [= <- <- <-]. split; try done; try (by intros x Hx%elem_of_nil); try constructor. }
  destruct (kind_of columns primary name) as [kind|] eqn:K.
  - set (alias := free_alias _ used _).
    destruct (plan_parts columns primary (to_ascii_lowercase alias :: used) (S i) names) as [[ps ls] d'] eqn:P.
    intros [= <- <- <-]. apply IH in P as [P1 P2 P3 P4 P5 P6 P7].
    assert (Free : to_ascii_lowercase alias ∉ used) by apply free_alias_free. split.
    + simpl. by rewrite K, P1.
    + rewrite P2. cbn [map index_of alias_of fst snd]. f_equal; [by rewrite Nat.sub_diag|]. apply map_ext_in.
      intros x Hx. apply list_elem_of_In, P3 in Hx. replace (index_of x - i)%nat with (S (index_of x - S i)) by lia. done.
    + intros x [->|Hx]%elem_of_cons; [cbn; lia|]. apply P3 in Hx. cbn [length]. lia.
    + cbn [map]. apply NoDup_cons. split; [|done]. intros (x & Hi & Hx%P3)%list_elem_of_fmap.
      unfold index_of in *. cbn [fst] in *. lia.
    + intros n k L kind'. destruct n as [|n]; simpl in L.
      * injection L as <-. rewrite K, Nat.add_0_r. split.
        -- intros [= <-]. exists alias. left.
        -- intros (a & [[= _ <-]|Hx%P3]%elem_of_cons); [done|]. unfold index_of in Hx. cbn [fst] in Hx. lia.
      * rewrite (P5 n k L kind'). replace (i + S n)%nat with (S i + n)%nat by lia. split; intros (a & Ha); exists a; [by right|].
        apply elem_of_cons in Ha as [[= E _ _]|Ha]; [lia|done].
    + intros x [->|Hx]%elem_of_cons; [done|]. intros I. apply (P6 x Hx). by right.
    + cbn [map]. apply NoDup_cons. split; [|done]. intros (x & E & Hx)%list_elem_of_fmap. apply (P6 x Hx).
      unfold alias_of in *. cbn [fst snd] in E. rewrite <- E. left.
  - destruct (plan_parts columns primary used (S i) names) as [[ps ls] d'] eqn:P.
    intros [= <- <- <-]. apply IH in P as [P1 P2 P3 P4 P5 P6 P7]. split; try done.
    + simpl. by rewrite K, P1.
    + rewrite P2. apply map_ext_in. intros x Hx. apply list_elem_of_In, P3 in Hx.
      replace (index_of x - i)%nat with (S (index_of x - S i)) by lia. done.
    + intros x Hx%P3. cbn [length]. lia.
    + intros n k L kind'. destruct n as [|n]; simpl in L.
      * injection L as <-. rewrite K, Nat.add_0_r. split; [done|]. intros (a & Hx%P3). unfold index_of in Hx. cbn [fst] in Hx. lia.
      * rewrite (P5 n k L kind'). by replace (i + S n)%nat with (S i + n)%nat by lia.
Qed.

(** ** The rows *)

Section Rows.
Context {V : Type} `{JsonLaws V}.

(** What a row shows in the place of a field with that preview and length. *)
Definition shown (value : V) (length : option Z) (kind : str) : V :=
  match length with
  | Some n =>
    if (4096 <? n) && negb (is_null value)
    then deferred_object (match as_str value with Some s => s | None => to_string value end) n kind else value
  | None => value
  end.

Lemma finish_field_lookup row ix li kind i :
  finish_field row (ix, li, kind) !! i
  = if decide (i = ix) then (fun v => shown v (row !! li ≫= read_length) kind) <$> row !! ix else row !! i.
Proof.
  unfold finish_field, shown. destruct (row !! li ≫= read_length) as [n|], (row !! ix) as [v|] eqn:R; simpl;
    try (destruct (decide (i = ix)) as [->|]; by rewrite ?R).
  destruct (_ && _); [|destruct (decide (i = ix)) as [->|]; by rewrite ?R].
  destruct (decide (i = ix)) as [->|N]; [apply list_lookup_insert_eq; by apply lookup_lt_Some in R|].
  by apply list_lookup_insert_ne.
Qed.

Lemma finish_fields_lookup (found : list (nat * nat * str)) : forall row i,
  NoDup (map (fun x => x.1.1) found) -> (forall x y, x ∈ found -> y ∈ found -> x.1.2 <> y.1.1) ->
  fold_left finish_field found row !! i
  = match find_first (fun x => Nat.eqb x.1.1 i) found with
    | Some (_, li, kind) => (fun v => shown v (row !! li ≫= read_length) kind) <$> row !! i
    | None => row !! i
    end.
Proof.
  induction found as [|[[ix li] kind] found IH]; intros row i N D; [done|]. cbn [map fst snd] in N.
  apply NoDup_cons in N as [Nx N]. cbn [fold_left find_first fst snd].
  rewrite IH; [|done|intros x y Hx Hy; apply D; by right].
  destruct (Nat.eqb ix i) eqn:E.
  - apply Nat.eqb_eq in E as ->. destruct (find_first _ found) as [[[i' li'] kind']|] eqn:F.
    + apply find_first_some in F as [I F]. cbn [fst] in F. apply Nat.eqb_eq in F as ->. destruct Nx.
      by apply (list_elem_of_fmap_2 (fun x : nat * nat * str => x.1.1)) in I.
    + rewrite finish_field_lookup. by rewrite decide_True.
  - apply Nat.eqb_neq in E. destruct (find_first _ found) as [[[i' li'] kind']|] eqn:F.
    + apply find_first_some in F as [I F]. rewrite !finish_field_lookup.
      rewrite (decide_False (P := i = ix)) by congruence. rewrite decide_False; [done|].
      intros ->. apply (D (i', ix, kind') (ix, li, kind)); [by right|left|done].
    + rewrite finish_field_lookup. by rewrite decide_False by congruence.
Qed.

Lemma position_app (l r : list str) x : x ∉ l -> position (fun c => str_eqb c x) (l ++ x :: r) = Some (length l).
Proof.
  induction l as [|y l IH]; intros N; cbn [app position length].
  - unfold str_eqb. by rewrite bool_decide_eq_true_2.
  - unfold str_eqb at 1. rewrite bool_decide_eq_false_2 by (intros ->; apply N; left).
    rewrite IH; [done|]. intros I. apply N. by right.
Qed.

Lemma found_positions (names : list str) (d : list (nat * str * str)) : forall pre,
  (forall x, x ∈ pre ++ d -> alias_of x ∉ names) -> NoDup (map alias_of (pre ++ d)) ->
  omap (fun '(index, alias, kind) => (fun i => (index, i, kind)) <$> position (fun c => str_eqb c alias) (names ++ map alias_of (pre ++ d))) d
  = imap (fun j x => (index_of x, (length names + length pre + j)%nat, x.2)) d.
Proof.
  induction d as [|[[ix alias] kind] d IH]; intros pre Fr N; [done|].
  assert (P : position (fun c => str_eqb c alias) (names ++ map alias_of (pre ++ (ix, alias, kind) :: d)) = Some (length names + length pre)%nat).
  { rewrite map_app. cbn [map alias_of fst snd]. rewrite app_assoc, position_app.
    - by rewrite length_app, length_map.
    - rewrite map_app in N. cbn [map] in N. apply NoDup_app in N as (_ & N & _).
      intros [I|I]%elem_of_app; [|by apply (N alias I); left].
      apply (Fr (ix, alias, kind)); [apply elem_of_app; right; left|done]. }
  specialize (IH (pre ++ [(ix, alias, kind)])). rewrite <- app_assoc in IH. cbn [app] in IH. specialize (IH Fr N).
  change (omap ?f (?x :: ?l)) with (match f x with Some y => y :: omap f l | None => omap f l end). cbn beta iota.
  rewrite P. cbn [fmap option_fmap option_map imap]. rewrite Nat.add_0_r. f_equal. rewrite IH.
  apply imap_ext. intros j x _. cbn [compose]. rewrite length_app. cbn [length]. f_equal. f_equal. lia.
Qed.

Lemma position_found names d :
  (forall x, x ∈ d -> alias_of x ∉ names) -> NoDup (map alias_of d) ->
  omap (fun '(index, alias, kind) => (fun i => (index, i, kind)) <$> position (fun c => str_eqb c alias) (names ++ map alias_of d)) d
  = imap (fun j x => (index_of x, (length names + j)%nat, x.2)) d.
Proof.
  intros F N. etransitivity; [exact (found_positions names d [] F N)|]. apply imap_ext. intros j x _. cbn [length]. f_equal. f_equal. lia.
Qed.

Lemma elem_of_imap_found (d : list (nat * str * str)) n x :
  x ∈ imap (fun j y => (index_of y, (n + j)%nat, y.2)) d <-> exists j y, d !! j = Some y /\ x = (index_of y, (n + j)%nat, y.2).
Proof.
  rewrite list_elem_of_lookup. split.
  - intros (j & Hj). rewrite list_lookup_imap in Hj. destruct (d !! j) as [y|] eqn:E; [|done]. injection Hj as <-. eauto.
  - intros (j & y & E & ->). exists j. by rewrite list_lookup_imap, E.
Qed.

Lemma map_imap_fst (d : list (nat * str * str)) : forall n,
  map (fun x : nat * nat * str => x.1.1) (imap (fun j y => (index_of y, (n + j)%nat, y.2)) d) = map index_of d.
Proof.
  induction d as [|x d IH]; intros n; [done|]. cbn [imap map fst]. f_equal. rewrite <- (IH (S n)). f_equal.
  apply imap_ext. intros j y _. cbn [compose]. f_equal. f_equal. lia.
Qed.

(** The page of a MySQL table with large fields.  A statement with deferred
    fields selects every column, a preview with the length for each large one,
    and never for a key; of the row the server sends for it, the caller sees
    exactly the columns asked for: a field of at most 4096 bytes in full, a
    longer one as an object with the preview and the true length, and none of
    the auxiliary columns, whatever the columns of the table are called. *)
Theorem deferred_rows_faithful columns primary reliable selected (cell left len : nat -> V) (octets : nat -> option Z) :
  let p := projection_new columns primary reliable selected in
  let names := proj_columns p in
  deferred p <> [] ->
  (forall n, n ∈ names -> n ∈ map mc_name columns) ->
  (forall i, read_length (len i) = octets i) -> (forall i, is_null (left i) = false) ->
  let kind i := names !! i ≫= kind_of columns primary in
  let long i := is_some (kind i) && is_some_and (fun n => 4096 <? n) (octets i) in
  let wire := imap (fun i _ => if long i then left i else cell i) names ++ map (fun x => len (index_of x)) (deferred p) in
  sql p = join (u ", ") (map (fun n => if is_some (kind_of columns primary n) then preview_sql columns n else esc_id n) names
                         ++ map (fun x => length_sql (default [] (names !! index_of x)) (alias_of x)) (deferred p)) /\
  (forall k, k ∈ primary -> kind_of columns primary k = None) /\
  (prepare_rows (V := V) p (names ++ map alias_of (deferred p))).1 = names /\
  (prepare_rows p (names ++ map alias_of (deferred p))).2 wire
  = imap (fun i _ => if long i then deferred_object (match as_str (left i) with Some s => s | None => to_string (left i) end)
                                   (default 0 (octets i)) (default [] (kind i))
                     else cell i) names.
Proof.
  intros p names Nd Sub Len Nn kind long wire.
  assert (P : exists used parts lengths, planned columns primary used 0 names parts lengths (deferred p)
     /\ used = map (fun c => to_ascii_lowercase (mc_name c)) columns /\ sql p = join (u ", ") (parts ++ lengths)).
  { revert Nd. unfold names, p, projection_new. set (ns := match nonempty selected with Some l => l | None => _ end).
    destruct (_ || _); [done|]. destruct (plan_parts columns primary _ 0 ns) as [[parts lengths] d] eqn:E.
    destruct d as [|x d]; [done|]. intros _. cbn [proj_columns deferred sql]. apply plan_parts_planned in E. eauto 10. }
  destruct P as (used & parts & lengths & [P1 P2 P3 P4 P5 P6 P7] & -> & S). set (d := deferred p) in *.
  assert (Fr : forall x, x ∈ d -> alias_of x ∉ names).
  { intros x Hx I%Sub. apply (P6 x Hx). apply list_elem_of_fmap in I as (c & -> & I).
    by apply (list_elem_of_fmap_2 (fun c => to_ascii_lowercase (mc_name c))). }
  assert (Na : NoDup (map alias_of d)).
  { rewrite <- (map_map alias_of to_ascii_lowercase) in P7. by apply NoDup_fmap_1 in P7. }
  split. { rewrite S, P1, P2. do 2 f_equal. apply map_ext. intros x. by rewrite Nat.sub_0_r. }
  split. { intros k Hk. unfold kind_of. destruct (find_column columns k) as [c|]; [|done]. destruct (deferred_kind c); [|done].
    by apply mem_elem in Hk as ->. }
  unfold prepare_rows. fold d names. rewrite (position_found names d Fr Na). cbn [fst snd].
  assert (Ed : is_empty d = false) by (by destruct d). rewrite Ed. split.
  { apply take_app_length. }
  set (found := imap _ d).
  assert (Lw : length (imap (fun i (_ : str) => if long i then left i else cell i) names) = length names) by apply length_imap.
  assert (Kd : forall i k, kind i = Some k <-> exists x, x ∈ d /\ index_of x = i /\ x.2 = k).
  { intros i k. unfold kind. split.
    - destruct (names !! i) as [name|] eqn:L; [|done]. simpl. intros K. apply (P5 i name L k) in K as (a & Ha). by exists (i, a, k).
    - intros ([[ix a] k'] & Hx & <- & <-). unfold index_of. cbn [fst snd]. destruct (P3 _ Hx) as [_ B]. unfold index_of in B. cbn [fst] in B.
      destruct (lookup_lt_is_Some_2 names ix ltac:(lia)) as [name L]. rewrite L. simpl. apply (P5 ix name L k'). by exists a. }
  assert (Nf : NoDup (map (fun x : nat * nat * str => x.1.1) found)) by (unfold found; rewrite map_imap_fst; exact P4).
  assert (Df : forall x y : nat * nat * str, x ∈ found -> y ∈ found -> x.1.2 <> y.1.1).
  { intros x y (j & x' & _ & ->)%elem_of_imap_found (j' & y' & Hy & ->)%elem_of_imap_found. cbn [fst snd].
    apply list_elem_of_lookup_2, P3 in Hy. lia. }
  apply list_eq. intros i. destruct (decide (i < length names)%nat) as [Li|Gi]; cycle 1.
  { rewrite lookup_take_ge by lia. symmetry. apply lookup_ge_None_2. rewrite length_imap. lia. }
  rewrite lookup_take_lt by lia. rewrite (finish_fields_lookup found wire i Nf Df).
  destruct (lookup_lt_is_Some_2 names i Li) as [name Ln].
  assert (Wi : wire !! i = Some (if long i then left i else cell i)).
  { unfold wire. rewrite lookup_app_l by (rewrite Lw; lia). by rewrite list_lookup_imap, Ln. }
  rewrite list_lookup_imap, Ln. cbn [fmap option_fmap option_map]. rewrite Wi.
  destruct (find_first _ found) as [[[i' li] k]|] eqn:Fi.
  - apply find_first_some in Fi as [I E]. cbn [fst] in E. apply Nat.eqb_eq in E as ->.
    apply elem_of_imap_found in I as (j & x & Lx & [= E1 -> E3]).
    assert (K : kind i = Some k) by (apply Kd; exists x; split; [by eapply list_elem_of_lookup_2|done]).
    assert (Wl : wire !! (length names + j)%nat = Some (len i)).
    { unfold wire. rewrite lookup_app_r by (rewrite Lw; lia). rewrite Lw. replace (length names + j - length names)%nat with j by lia.
      rewrite list_lookup_fmap, Lx. by rewrite E1. }
    rewrite Wl. simpl. rewrite Len. f_equal. unfold long, shown. rewrite K. simpl.
    destruct (octets i) as [n|]; [|done]. simpl. destruct (4096 <? n); [|done]. by rewrite Nn.
  - f_equal. assert (K : kind i = None).
    { destruct (kind i) as [k|] eqn:K; [|done]. apply Kd in K as (x & Hx & Ex & _). apply list_elem_of_lookup in Hx as [j Lx].
      assert (I : (index_of x, (length names + j)%nat, x.2) ∈ found) by (apply elem_of_imap_found; eauto).
      pose proof (find_first_none _ _ Fi _ I) as F0. cbn [fst] in F0. rewrite Ex, Nat.eqb_refl in F0. done. }
    unfold long. by rewrite K.
Qed.

(** A query for full rows binds, locator by locator, exactly the columns of
    the whole primary key, each with a value valid for its column. *)
Lemma full_rows_bind database table columns primary reliable locators selected sql params :
  full_rows_query database table columns primary reliable locators selected = Ok (sql, params) ->
  reliable = true /\ primary <> [] /\ locators <> [] /\
  exists values, params = List.concat values /\
    Forall2 (fun (l : gmap str V) v => Z.of_nat (size l) = zlen primary /\
      Forall2 (fun k x => l !! k = Some x /\ exists c, find_column columns k = Some c /\ valid_locator c x (is_some selected) = true) primary v)
      locators values.
Proof.
  unfold full_rows_query. destruct (negb reliable || is_empty primary) eqn:E; [done|]. destruct (is_empty locators) eqn:El; [done|].
  intros Q. apply rbind_ok_inv in Q as (proj & _ & Q). apply rbind_ok_inv in Q as (found & T & Q). apply Ok_inj in Q.
  injection Q as _ <-. apply orb_false_iff in E as [E1 E2]. split; [by destruct reliable|].
  split; [by destruct primary|]. split; [by destruct locators|]. exists (map snd found). split; [done|].
  apply traverse_ok_inv in T. clear El E1 E2. induction T as [|l [ps vs] locators found L T IH]; cbn [map]; constructor; [|exact IH].
  unfold locator_parts in L. destruct (negb _) eqn:S; [done|]. apply negb_false_iff, Z.eqb_eq in S. split; [exact S|].
  apply rbind_ok_inv in L as (parts & Tp & L). apply Ok_inj in L. injection L as _ <-. apply traverse_ok_inv in Tp.
  clear S T IH. cbn [snd]. induction Tp as [|k [s x] primary parts Lk Tp IHp]; cbn [map snd]; constructor; [|exact IHp].
  apply rbind_ok_inv in Lk as (v & Lv & Lk). apply ok_or_ok_inv in Lv. apply rbind_ok_inv in Lk as (c & Lc & Lk). apply ok_or_ok_inv in Lc.
  destruct (negb _) eqn:Va; [done|]. apply Ok_inj in Lk. injection Lk as _ <-. split; [done|]. exists c. split; [done|].
  by apply negb_false_iff.
Qed.

End Rows.

(** The witness: a table whose text column is over the limit in this row, and
    which has a column with the name of the first alias. *)
Definition d_columns : list MysqlColumn :=
  [mkMysqlColumn (u "id") (u "bigint") true false; mkMysqlColumn (u "__DEFERRED_length_2") (u "int") false false;
   mkMysqlColumn (u "body") (u "longtext") false false; mkMysqlColumn (u "note") (u "text") false false].
Definition d_cell (i : nat) : Sample := SNumber (Z.of_nat i).
Definition d_octets (i : nat) : option Z := if (i =? 2)%nat then Some 5000 else Some 3.
Definition d_len (i : nat) : Sample := SNumber (default 0 (d_octets i)).

Lemma deferred_rows_faithful_witness :
  let p := projection_new d_columns [u "id"] true None in
  let wire := [SNumber 0; SNumber 1; SString (u "abc"); SNumber 3; SNumber 5000; SNumber 3] in
  map alias_of (deferred p) = [u "__deferred_length_2_"; u "__deferred_length_3"] /\
  (prepare_rows p (proj_columns p ++ map alias_of (deferred p))).2 wire
  = [SNumber 0; SNumber 1; deferred_object (u "abc") 5000 (u "text"); SNumber 3].
Proof.
  cbn zeta. split; [by vm_compute|].
  assert (L : forall i, read_length (d_len i) = d_octets i).
  { intros i. unfold d_len, d_octets. destruct (i =? 2)%nat; reflexivity. }
  pose proof (deferred_rows_faithful d_columns [u "id"] true None d_cell (fun _ => SString (u "abc")) d_len d_octets
                ltac:(by vm_compute) ltac:(intros n Hn; exact Hn) L ltac:(done)) as (_ & _ & _ & F).
  etransitivity; [exact F|]. vm_compute. reflexivity.
Defined.

End DeferredFields.
