(* ===== verification/BatchUpdate.v ===== *)
(** Batches of edited rows (src-tauri/src/db/batch_update.rs): the checks, the
    grouping into set-wise UPDATE statements within the parameter limits, the
    text of the statements, and the transaction that validates all of them
    before it runs any (src-tauri/src/db/sqlite.rs). *)
From S2P Require Import Prelude OrderedMap RustText JsonValue.
Import JsonValue.

Module BatchUpdate.

Inductive BatchDialect : Type := MySql | Postgres | SqlServer | Sqlite.
#[export] Instance dialect_eq_dec : EqDecision BatchDialect.
Proof. solve_decision. Defined.

Definition parameter_limit (d : BatchDialect) : Z :=
  match d with MySql | Postgres => 65535 | SqlServer => 2000 | Sqlite => 999 end.
Definition quote (d : BatchDialect) (name : str) : str :=
  match d with
  | MySql => [96] ++ replace_char 96 [96; 96] name ++ [96]
  | SqlServer => [91] ++ replace_char 93 [93; 93] name ++ [93]
  | Postgres | Sqlite => [34] ++ replace_char 34 [34; 34] name ++ [34]
  end.

Definition mem (x : str) (l : list str) : bool := existsb (str_eqb x) l.

(** A loop that pushes onto a vector while it builds texts. *)
Section Threaded.
Context {A B P : Type}.
Fixpoint map_with (f : A -> list P -> B * list P) (l : list A) (params : list P) : list B * list P :=
  match l with
  | [] => ([], params)
  | x :: l => let '(y, params) := f x params in let '(ys, params) := map_with f l params in (y :: ys, params)
  end.
End Threaded.

Section Json.
Context {V : Type} `{JsonValue V}.

Record RowUpdate : Type := mkRow { primary_keys : gmap str V; updates : gmap str V }.

Record BatchUpdateStatement : Type := mkStatement {
  sql : str; params : list V; validation_sql : str; validation_params : list V; expected_matches : option nat }.

(** ** Identities *)

(** [row.primary_keys[column]]; the checks come first. *)
Definition key_value (row : RowUpdate) (column : str) : V := default jnull (primary_keys row !! column).
Definition new_value (row : RowUpdate) (column : str) : V := default (key_value row column) (updates row !! column).

Definition locator_identity (columns : list str) (row : RowUpdate) (updated : bool) : list str :=
  map (fun column => to_string (if updated then new_value row column else key_value row column)) columns.

Definition destination (keys : list str) (row : RowUpdate) : option RowUpdate :=
  if existsb (fun k => match updates row !! k with Some v => negb (bool_decide (v = key_value row k)) | None => false end) keys
  then Some (mkRow (list_to_map (map (fun k => (k, new_value row k)) keys)) ∅)
  else None.

(** ** The text of a statement *)

Definition bind (d : BatchDialect) (value : V) (params : list V) : str * list V :=
  let params := params ++ [value] in
  (match d with
   | Postgres => u "$" ++ show_Z (zlen params) | SqlServer => u "@P" ++ show_Z (zlen params) | MySql | Sqlite => u "?"
   end, params).

Definition predicate (d : BatchDialect) (columns : list str) (row : RowUpdate) (params : list V) : str * list V :=
  let '(parts, params) := map_with (fun column params =>
      let value := key_value row column in
      if is_null value then (quote d column ++ u " IS NULL", params)
      else let '(b, params) := bind d value params in (quote d column ++ u " = " ++ b, params)) columns params in
  (join (u " AND ") parts, params).

Definition predicates (d : BatchDialect) (keys : list str) (rows : list RowUpdate) (params : list V) : str * list V :=
  let '(parts, params) := map_with (fun row params => let '(s, params) := predicate d keys row params in (u "(" ++ s ++ u ")", params)) rows params in
  (join (u " OR ") parts, params).

Definition target_identity (d : BatchDialect) (keys : list str) : str :=
  let columns := map (quote d) keys in
  match d with
  | Postgres => u "json_build_array(" ++ join (u ", ") (map (fun c => c ++ u "::text") columns) ++ u ")::text"
  | MySql =>
    u "CONCAT(" ++ join (u ", ") (map (fun c => u "CASE WHEN " ++ c ++ u " IS NULL THEN 'N;' ELSE CONCAT('V', HEX(CAST(" ++ c ++ u " AS BINARY)), ';') END") columns) ++ u ")"
  | Sqlite =>
    join (u " || ';' || ") (map (fun c => u "typeof(" ++ c ++ u ") || ':' || CASE WHEN typeof(" ++ c ++ u ") IN ('text', 'blob') THEN hex(" ++ c
      ++ u ") ELSE quote(" ++ c ++ u ") END") columns)
  | SqlServer =>
    u "CONCAT(" ++ join (u ", ") (map (fun c => u "CASE WHEN " ++ c ++ u " IS NULL THEN 'N;' ELSE CONCAT('V', CONVERT(varchar(max), CONVERT(varbinary(max), "
      ++ c ++ u "), 2), ';') END") columns) ++ u ", '')"
  end.

(** One [CASE] per column: the branches of the rows, then what is left as it is. *)
Definition case_sql (d : BatchDialect) (keys : list str) (rows : list RowUpdate) (column : str) (params : list V) : str * list V :=
  let '(branches, params) := map_with (fun row params =>
      let '(condition, params) := predicate d keys row params in
      let '(value, params) := bind d (default jnull (updates row !! column)) params in
      (u "WHEN " ++ condition ++ u " THEN " ++ value, params)) rows params in
  let fallback := match d with SqlServer => [] | _ => u " ELSE " ++ quote d column end in
  (u "CASE " ++ join (u " ") branches ++ fallback ++ u " END", params).

Definition numbered (l : list str) (f : str -> str -> str) : list str := imap (fun i x => f x (show_Z (Z.of_nat i))) l.

Definition update_sql (d : BatchDialect) (target : str) (keys columns cases : list str) (filter : str) : str :=
  match d with
  | MySql =>
    let projection := numbered keys (fun k i => quote d k ++ u " AS k" ++ i) ++ numbered cases (fun c i => c ++ u " AS v" ++ i) in
    let joined := join (u " AND ") (numbered keys (fun k i => u "t." ++ quote d k ++ u " <=> s.k" ++ i)) in
    let assignments := join (u ", ") (numbered columns (fun c i => u "t." ++ quote d c ++ u " = s.v" ++ i)) in
    u "UPDATE " ++ target ++ u " AS t JOIN (SELECT DISTINCT " ++ join (u ", ") projection ++ u " FROM " ++ target ++ u " WHERE " ++ filter
      ++ u ") AS s ON " ++ joined ++ u " SET " ++ assignments
  | _ =>
    let assignments := join (u ", ") (zip_with (fun c case => quote d c ++ u " = " ++ case) columns cases) in
    u "UPDATE " ++ target ++ u " SET " ++ assignments ++ u " WHERE " ++ filter
  end.

(** The terms a target is counted with: one for a row it is located by, two
    for a row that would move onto it. *)
Definition match_terms (d : BatchDialect) (keys : list str) (row : RowUpdate) (params : list V) : list str * list V :=
  let '(located, params) := predicate d keys row params in
  let first := u "CASE WHEN " ++ located ++ u " THEN 1 ELSE 0 END" in
  match destination keys row with
  | Some dest =>
    let '(new, params) := predicate d keys dest params in
    let '(old, params) := predicate d keys row params in
    ([first; u "CASE WHEN " ++ new ++ u " THEN CASE WHEN " ++ old ++ u " THEN 0 ELSE 2 END ELSE 0 END"], params)
  | None => ([first], params)
  end.

Definition build_statement (d : BatchDialect) (schema table : str) (keys columns : list str) (rows : list RowUpdate) : BatchUpdateStatement :=
  let target := quote d schema ++ u "." ++ quote d table in
  let '(cases, params) := map_with (case_sql d keys rows) columns [] in
  let '(filter, params) := predicates d keys rows params in
  let '(terms, validation_params) := map_with (match_terms d keys) rows [] in
  let '(located, validation_params) := predicates d keys rows validation_params in
  let '(moved, validation_params) := map_with (fun dest params =>
      let '(s, params) := predicate d keys dest params in (u " OR (" ++ s ++ u ")", params)) (omap (destination keys) rows) validation_params in
  let hint := match d with SqlServer => u " WITH (UPDLOCK, HOLDLOCK)" | _ => [] end in
  let lock := match d with MySql | Postgres => u " FOR UPDATE" | _ => [] end in
  mkStatement (update_sql d target keys columns cases filter) params
    (u "SELECT " ++ target_identity d keys ++ u " AS batch_identity, (" ++ join (u " + ") (List.concat terms) ++ u ") AS batch_matches FROM "
       ++ target ++ hint ++ u " WHERE " ++ located ++ List.concat moved ++ lock)
    validation_params None.

(** ** Planning *)

Definition strs_eqb (a b : list str) : bool := bool_decide (a = b).
Definition mem_id (x : list str) (l : list (list str)) : bool := existsb (strs_eqb x) l.

Fixpoint check_rows (keys : list str) (rows : list RowUpdate) (seen : list (list str)) : result (list (list str)) str :=
  match rows with
  | [] => Ok seen
  | row :: rows =>
    if bool_decide (updates row = ∅) then Err (u "存在没有更新内容的行")
    else if existsb (fun k => negb (is_some (primary_keys row !! k))) keys then Err (u "存在缺少主键信息的行")
    else
      let id := locator_identity keys row false in
      if mem_id id seen then Err (u "批量更新存在重复目标行") else check_rows keys rows (id :: seen)
  end.

Fixpoint check_destinations (keys : list str) (original : list (list str)) (rows : list RowUpdate) (seen : list (list str)) : result unit str :=
  match rows with
  | [] => Ok tt
  | row :: rows =>
    let old := locator_identity keys row false in
    let new := locator_identity keys row true in
    if (negb (strs_eqb new old) && mem_id new original) || mem_id new seen
    then Err (u "批量更新存在相互冲突的主键修改，请分次提交")
    else check_destinations keys original rows (new :: seen)
  end.

Definition strs_cmp : list str -> list str -> comparison := lex str_cmp.
Definition update_columns (row : RowUpdate) : list str := sort_by str_cmp (map fst (map_to_list (updates row))).
Definition groups (rows : list RowUpdate) : list (list str * list RowUpdate) :=
  fold_left (fun m row => BTree.entry strs_cmp (update_columns row) (fun g => default [] g ++ [row]) m) rows [].

Definition key_params (keys : list str) (row : RowUpdate) : Z :=
  zlen (List.filter (fun k => negb (is_null (key_value row k))) keys).
Definition update_cost (keys columns : list str) (row : RowUpdate) : Z :=
  zlen columns * (key_params keys row + 1) + key_params keys row.
Definition validation_cost (keys : list str) (row : RowUpdate) : Z :=
  match destination keys row with
  | Some dest => key_params keys row * 3 + zlen (List.filter (fun v => negb (is_null v)) (map snd (map_to_list (primary_keys dest)))) * 2
  | None => key_params keys row * 2
  end.

(** The inner loop: how many rows from here fit into the statement. *)
Fixpoint take_chunk (limit : Z) (keys columns : list str) (rows : list RowUpdate) (room : nat) (up vp : Z) :
  result (list RowUpdate * list RowUpdate) str :=
  match room, rows with
  | S room, row :: rest =>
    let cost := update_cost keys columns row in
    let vcost := validation_cost keys row in
    if (limit <? cost) || (limit <? vcost) then Err (u "单行更新的参数数量超过数据库限制")
    else if (limit <? up + cost) || (limit <? vp + vcost) then Ok ([], rows)
    else
      let? (chunk, rest) := take_chunk limit keys columns rest room (up + cost) (vp + vcost) in
      Ok (row :: chunk, rest)
  | _, _ => Ok ([], rows)
  end.
(** The outer loop; every chunk takes at least one row. *)
Fixpoint chunks (fuel : nat) (limit : Z) (keys columns : list str) (rows : list RowUpdate) : result (list (list RowUpdate)) str :=
  match fuel, rows with
  | S fuel, _ :: _ =>
    let? (chunk, rest) := take_chunk limit keys columns rows 128 0 0 in
    let? more := chunks fuel limit keys columns rest in
    Ok (chunk :: more)
  | _, _ => Ok []
  end.

Definition plan_chunks (d : BatchDialect) (keys : list str) (rows : list RowUpdate) : result (list (list str * list RowUpdate)) str :=
  let? found := traverse (fun '(columns, group) =>
      let? cs := chunks (length group) (parameter_limit d) keys columns group in
      Ok (map (fun c => (columns, c)) cs)) (groups rows) in
  Ok (List.concat found).

Definition changes_locator (keys : list str) (rows : list RowUpdate) : bool :=
  existsb (fun row => existsb (fun k => is_some (updates row !! k)) keys) rows.

Definition with_expected (n : option nat) (s : BatchUpdateStatement) : BatchUpdateStatement :=
  mkStatement (sql s) (params s) (validation_sql s) (validation_params s) n.

Definition build_batch_update_statements (d : BatchDialect) (schema table : str) (keys : list str) (rows : list RowUpdate) :
  result (list BatchUpdateStatement) str :=
  if is_empty rows then Err (u "没有提供要更新的数据")
  else if is_empty keys then Err (u "表没有可用的主键或唯一定位键，无法安全批量更新")
  else
    let? original := check_rows keys rows [] in
    check? check_destinations keys original rows [] in
    let? found := plan_chunks d keys rows in
    Ok (map (fun '(columns, chunk) =>
      with_expected (if changes_locator keys rows then Some (length chunk) else None)
        (build_statement d schema table keys columns chunk)) found).

End Json.


(** ** Parameters *)

Section Parameters.
Context {V : Type} `{JsonValue V}.

Lemma map_with_params {A B : Type} (f : A -> list V -> B * list V) (g : A -> list V) l ps :
  (forall x ps, (f x ps).2 = ps ++ g x) -> (map_with f l ps).2 = ps ++ List.concat (map g l).
Proof.
  intros F. revert ps. induction l as [|x l IH]; intros ps; simpl; [by rewrite app_nil_r|].
  specialize (F x ps). destruct (f x ps) as [y ps']. simpl in F. subst ps'. specialize (IH (ps ++ g x)).
  destruct (map_with f l (ps ++ g x)) as [ys ps2]. simpl in *. by rewrite IH, app_assoc.
Qed.

Lemma map_with_length {A B : Type} (f : A -> list V -> B * list V) l ps : length (map_with f l ps).1 = length l.
Proof.
  revert ps. induction l as [|x l IH]; intros ps; simpl; [done|]. destruct (f x ps) as [y ps']. specialize (IH ps').
  destruct (map_with f l ps') as [ys ps2]. simpl in *. congruence.
Qed.

Definition bound_keys (columns : list str) (row : RowUpdate) : list V :=
  List.filter (fun v => negb (is_null v)) (map (key_value row) columns).

Lemma predicate_params d columns row ps : (predicate d columns row ps).2 = ps ++ bound_keys columns row.
Proof.
  unfold predicate.
  match goal with |- (let '(a, b) := map_with ?f _ _ in _).2 = _ => transitivity (map_with f columns ps).2; [by destruct (map_with f columns ps)|] end.
  rewrite (map_with_params _ (fun c => if is_null (key_value row c) then [] else [key_value row c])).
  - f_equal. unfold bound_keys. induction columns as [|c columns IH]; simpl; [done|]. rewrite IH. by destruct (is_null _).
  - intros c qs. simpl. destruct (is_null _); simpl; [by rewrite app_nil_r|done].
Qed.

Lemma predicates_params d keys rows ps : (predicates d keys rows ps).2 = ps ++ List.concat (map (bound_keys keys) rows).
Proof.
  unfold predicates. rewrite <- (map_with_params (fun row params => let '(s, params) := predicate d keys row params in (u "(" ++ s ++ u ")", params))).
  - by destruct (map_with _ rows ps).
  - intros row qs. rewrite <- (predicate_params d). by destruct (predicate d keys row qs).
Qed.

Lemma case_params d keys rows column ps :
  (case_sql d keys rows column ps).2 = ps ++ List.concat (map (fun row => bound_keys keys row ++ [default jnull (updates row !! column)]) rows).
Proof.
  unfold case_sql. rewrite <- (map_with_params (fun row params =>
      let '(condition, params) := predicate d keys row params in
      let '(value, params) := bind d (default jnull (updates row !! column)) params in
      (u "WHEN " ++ condition ++ u " THEN " ++ value, params))).
  - by destruct (map_with _ rows ps).
  - intros row qs. rewrite app_assoc, <- (predicate_params d). by destruct (predicate d keys row qs).
Qed.

Definition validation_values (keys : list str) (row : RowUpdate) : list V :=
  bound_keys keys row ++ match destination keys row with Some dest => bound_keys keys dest ++ bound_keys keys row | None => [] end.

Lemma match_params d keys row ps : (match_terms d keys row ps).2 = ps ++ validation_values keys row.
Proof.
  unfold match_terms, validation_values. pose proof (predicate_params d keys row ps) as P.
  destruct (predicate d keys row ps) as [s ps1]. simpl in P. subst ps1. destruct (destination keys row) as [dest|]; [|by rewrite app_nil_r].
  pose proof (predicate_params d keys dest (ps ++ bound_keys keys row)) as P.
  destruct (predicate d keys dest _) as [s2 ps2]. simpl in P. subst ps2.
  pose proof (predicate_params d keys row ((ps ++ bound_keys keys row) ++ bound_keys keys dest)) as P.
  destruct (predicate d keys row _) as [s3 ps3]. simpl in P. subst ps3. simpl. by rewrite <- !app_assoc.
Qed.

(** What a statement binds, in order. *)
Lemma statement_params d schema table keys columns rows :
  let s := build_statement d schema table keys columns rows in
  params s = List.concat (map (fun column => List.concat (map (fun row => bound_keys keys row ++ [default jnull (updates row !! column)]) rows)) columns)
             ++ List.concat (map (bound_keys keys) rows) /\
  validation_params s = List.concat (map (validation_values keys) rows) ++ List.concat (map (bound_keys keys) rows)
                        ++ List.concat (map (bound_keys keys) (omap (destination keys) rows)).
Proof.
  unfold build_statement.
  pose proof (map_with_params (case_sql d keys rows) _ columns [] (case_params d keys rows)) as P1.
  destruct (map_with (case_sql d keys rows) columns []) as [cases ps]. simpl in P1.
  pose proof (predicates_params d keys rows ps) as P2. destruct (predicates d keys rows ps) as [f ps2]. simpl in P2.
  pose proof (map_with_params (match_terms d keys) _ rows [] (match_params d keys)) as Q1.
  destruct (map_with (match_terms d keys) rows []) as [terms vps]. simpl in Q1.
  pose proof (predicates_params d keys rows vps) as Q2. destruct (predicates d keys rows vps) as [g vps2]. simpl in Q2.
  pose proof (map_with_params (fun dest params => let '(s, params) := predicate d keys dest params in (u " OR (" ++ s ++ u ")", params))
    (bound_keys keys) (omap (destination keys) rows) vps2) as Q3.
  destruct (map_with _ (omap (destination keys) rows) vps2) as [moved vps3]. simpl in Q3 |- *. subst.
  split; [done|]. rewrite Q3; [by rewrite <- app_assoc|].
  intros dest qs. rewrite <- (predicate_params d). by destruct (predicate d keys dest qs).
Qed.

Definition total (f : RowUpdate (V := V) -> Z) (rows : list (RowUpdate (V := V))) : Z := fold_right (fun r n => f r + n) 0 rows.

Lemma bound_keys_length keys row : zlen (bound_keys keys row) = key_params keys row.
Proof.
  unfold bound_keys, key_params, zlen. f_equal. induction keys as [|k keys IH]; simpl; [done|].
  destruct (negb _); simpl; congruence.
Qed.

Lemma total_plus f g rows : total (fun r => f r + g r) rows = total f rows + total g rows.
Proof. induction rows as [|r rows IH]; simpl; lia. Qed.

Lemma concat_total (f : RowUpdate (V := V) -> list V) rows : zlen (List.concat (map f rows)) = total (fun r => zlen (f r)) rows.
Proof. induction rows as [|r rows IH]; simpl; [done|]. rewrite zlen_app. lia. Qed.

Lemma total_ext f g rows : (forall r, r ∈ rows -> f r = g r) -> total f rows = total g rows.
Proof.
  induction rows as [|r rows IH]; simpl; intros E; [done|]. rewrite (E r) by left. rewrite IH; [done|]. intros. apply E. by right.
Qed.

Lemma update_params_count d schema table keys columns rows :
  zlen (params (build_statement d schema table keys columns rows)) = total (update_cost keys columns) rows.
Proof.
  destruct (statement_params d schema table keys columns rows) as [-> _]. rewrite zlen_app, concat_total.
  assert (C : zlen (List.concat (map (fun column => List.concat (map (fun row => bound_keys keys row ++ [default jnull (updates row !! column)]) rows)) columns))
    = zlen columns * total (fun r => key_params keys r + 1) rows).
  { induction columns as [|c columns IH]; cbn [map List.concat]; [done|]. rewrite zlen_app, zlen_cons, IH, concat_total.
    rewrite (total_ext (fun r => zlen (bound_keys keys r ++ [default jnull (updates r !! c)])) (fun r => key_params keys r + 1)); [lia|].
    intros r _. by rewrite zlen_app, bound_keys_length. }
  rewrite C. unfold update_cost. clear C. induction rows as [|r rows IH]; simpl; [lia|]. rewrite bound_keys_length. lia.
Qed.

Lemma destination_values keys row dest :
  NoDup keys -> destination keys row = Some dest ->
  (forall k, k ∈ keys -> key_value dest k = new_value row k) /\
  zlen (List.filter (fun v => negb (is_null v)) (map snd (map_to_list (primary_keys dest)))) = key_params keys dest.
Proof.
  unfold destination. intros N. destruct (existsb _ keys); [|done]. intros [= <-].
  assert (Nf : NoDup (map (fun k => (k, new_value row k)) keys).*1).
  { change ((map (fun k => (k, new_value row k)) keys).*1) with (map fst (map (fun k => (k, new_value row k)) keys)).
    rewrite map_map. by rewrite map_id. }
  assert (L : forall k, k ∈ keys -> key_value (mkRow (list_to_map (map (fun k => (k, new_value row k)) keys)) ∅) k = new_value row k).
  { intros k Hk. unfold key_value at 1. cbn [primary_keys].
    rewrite (elem_of_list_to_map_1 _ k (new_value row k)); [done|exact Nf|]. by apply (list_elem_of_fmap_2 (fun k => (k, new_value row k))). }
  split; [exact L|]. cbn [primary_keys].
  assert (P : map_to_list (list_to_map (map (fun k => (k, new_value row k)) keys) : gmap str V) ≡ₚ map (fun k => (k, new_value row k)) keys)
    by (by apply map_to_list_to_map).
  unfold zlen, key_params, zlen. f_equal.
  assert (F : List.filter (fun v => negb (is_null v)) (map snd (map_to_list (list_to_map (map (fun k => (k, new_value row k)) keys) : gmap str V)))
     ≡ₚ List.filter (fun v => negb (is_null v)) (map snd (map (fun k => (k, new_value row k)) keys))).
  { generalize (Permutation_map snd P). generalize (map snd (map_to_list (list_to_map (map (fun k => (k, new_value row k)) keys) : gmap str V))).
    generalize (map snd (map (fun k => (k, new_value row k)) keys)). intros l k Q. clear -Q.
    induction Q; simpl; repeat destruct (negb _); try done; [by constructor|constructor|by etransitivity]. }
  apply Permutation_length in F. rewrite F, map_map. cbn [snd].
  assert (G : forall (g : str -> V) l, (forall k, k ∈ l -> g k = new_value row k) ->
    length (List.filter (fun v => negb (is_null v)) (map (new_value row) l)) = length (List.filter (fun k => negb (is_null (g k))) l)).
  { clear. intros g l. induction l as [|k l IH]; intros E; [done|]. cbn [map List.filter]. rewrite (E k) by left.
    specialize (IH (fun k Hk => E k (list_elem_of_further k _ _ Hk))). destruct (negb _); cbn [length]; by rewrite IH. }
  by apply G.
Qed.

End Parameters.

End BatchUpdate.
