(* ===== verification/BatchPlan.v ===== *)
(** What a batch of edited rows promises: every row in exactly one statement,
    every statement within the database's parameter limit, and, once the
    statements have been validated inside the transaction, every stored row
    changed by its own edit and no other. *)
From S2P Require Import Prelude OrderedMap RustText JsonValue BatchUpdate.
Import JsonValue BatchUpdate.

Module BatchPlan.

Section Plans.
Context {V : Type} `{JsonLaws V}.

(** ** Counting *)

Lemma validation_params_count d schema table keys columns rows :
  NoDup keys -> zlen (validation_params (build_statement d schema table keys columns rows)) = total (validation_cost keys) rows.
Proof.
  intros N. destruct (statement_params d schema table keys columns rows) as [_ ->].
  assert (D : zlen (List.concat (map (bound_keys keys) (omap (destination keys) rows)))
    = total (fun r => match destination keys r with Some dest => key_params keys dest | None => 0 end) rows).
  { rewrite concat_total. induction rows as [|r rows IH]; [done|].
    change (omap (destination keys) (r :: rows)) with (match destination keys r with Some y => y :: omap (destination keys) rows | None => omap (destination keys) rows end).
    cbn [total fold_right]. fold (total (fun r => match destination keys r with Some dest => key_params keys dest | None => 0 end) rows).
    destruct (destination keys r); [|lia]. cbn [total fold_right]. rewrite bound_keys_length. unfold total in *. lia. }
  rewrite !zlen_app, D, !concat_total, <- !total_plus. apply total_ext. intros r _. unfold validation_values, validation_cost.
  rewrite zlen_app, !bound_keys_length. destruct (destination keys r) as [dest|] eqn:E.
  - destruct (destination_values keys r dest N E) as [_ ->]. rewrite zlen_app, !bound_keys_length. lia.
  - unfold zlen. simpl. lia.
Qed.

(** ** Chunks *)

Lemma take_chunk_ok limit keys columns rows : forall room up vp chunk rest,
  take_chunk limit keys columns rows room up vp = Ok (chunk, rest) ->
  rows = chunk ++ rest /\ (length chunk <= room)%nat /\
  (up <= limit -> vp <= limit -> up + total (update_cost keys columns) chunk <= limit /\ vp + total (validation_cost keys) chunk <= limit) /\
  (up = 0 -> vp = 0 -> room <> O -> rows <> [] -> chunk <> []).
Proof.
  induction rows as [|r rows IH]; intros room up vp chunk rest.
  { destruct room; intros [= <- <-]; (split; [done|]; split; [simpl; lia|]; split; [simpl; lia|done]). }
  destruct room as [|room]; cbn [take_chunk].
  { intros [= <- <-]. split; [done|]. split; [simpl; lia|]. split; [simpl; lia|done]. }
  destruct ((limit <? _) || _) eqn:E1; [done|]. to_prop.
  destruct ((limit <? up + _) || _) eqn:E2.
  { intros [= <- <-]. split; [done|]. split; [simpl; lia|]. split; [simpl; lia|]. intros -> ->. apply orb_true_iff in E2 as [E2|E2]; lia. }
  to_prop. intros Q. apply rbind_ok_inv in Q as ([c rs] & T & Q). injection Q as <- <-.
  apply IH in T as (-> & L & B & _). split; [done|]. split; [simpl; lia|]. split; [|done]. intros _ _. cbn [total fold_right].
  unfold total in B. destruct B; lia.
Qed.

Lemma chunks_ok limit keys columns fuel : forall rows cs,
  chunks fuel limit keys columns rows = Ok cs -> (length rows <= fuel)%nat -> 0 <= limit ->
  List.concat cs = rows /\
  Forall (fun c => c <> [] /\ (length c <= 128)%nat /\ total (update_cost keys columns) c <= limit /\ total (validation_cost keys) c <= limit) cs.
Proof.
  induction fuel as [|fuel IH]; intros rows cs.
  { intros [= <-] L _. split; [|constructor]. destruct rows; [done|simpl in L; lia]. }
  destruct rows as [|r rows]; [intros [= <-] _ _; by split|]. cbn [chunks]. intros Q L Hl.
  apply rbind_ok_inv in Q as ([c rs] & T & Q). apply rbind_ok_inv in Q as (more & C & Q). injection Q as <-.
  apply take_chunk_ok in T as (E & Lc & B & Nc).
  assert (c <> []) as Ne by (apply Nc; done). specialize (B Hl Hl).
  destruct (IH rs more C) as [Ec F]; [|done|].
  { rewrite E, length_app in L. destruct c; [done|]. simpl in L. lia. }
  cbn [List.concat]. rewrite Ec, <- E. split; [done|]. constructor; [|exact F]. split_and!; [done|done|lia|lia].
Qed.

(** ** Groups *)

#[export] Instance strs_strict : StrictCmp strs_cmp.
Proof. unfold strs_cmp. apply _. Qed.

Lemma entry_rows (m : list (list str * list (RowUpdate (V := V)))) k row :
  List.concat (map snd (BTree.entry strs_cmp k (fun g => default [] g ++ [row]) m)) ≡ₚ row :: List.concat (map snd m) /\
  (Forall (fun g => Forall (fun r => update_columns r = g.1) g.2) m -> update_columns row = k ->
   Forall (fun g => Forall (fun r => update_columns r = g.1) g.2) (BTree.entry strs_cmp k (fun g => default [] g ++ [row]) m)).
Proof.
  induction m as [|[k' g] m [IH1 IH2]]; cbn [BTree.entry].
  { split; [done|]. intros _ E. by repeat constructor. }
  destruct (strs_cmp k k') eqn:C; cbn [map snd List.concat app default].
  - split; [rewrite <- app_assoc; cbn [app]; by rewrite <- Permutation_middle|]. intros [F1 F2]%Forall_cons E. apply (cmp_eq_iff (cmp := strs_cmp)) in C as <-.
    constructor; [|done]. cbn [fst snd default] in *. apply Forall_app. split; [done|by constructor].
  - split; [done|]. intros F E. constructor; [by repeat constructor|done].
  - split; [rewrite IH1; by rewrite <- Permutation_middle|]. intros [F1 F2]%Forall_cons E. constructor; [done|by apply IH2].
Qed.

Lemma groups_ok (rows : list (RowUpdate (V := V))) :
  List.concat (map snd (groups rows)) ≡ₚ rows /\ Forall (fun g => Forall (fun r => update_columns r = g.1) g.2) (groups rows).
Proof.
  unfold groups. assert (Gen : forall (m : list (list str * list (RowUpdate (V := V)))), Forall (fun g => Forall (fun r => update_columns r = g.1) g.2) m ->
    let m' := fold_left (fun m row => BTree.entry strs_cmp (update_columns row) (fun g => default [] g ++ [row]) m) rows m in
    List.concat (map snd m') ≡ₚ List.concat (map snd m) ++ rows /\ Forall (fun g => Forall (fun r => update_columns r = g.1) g.2) m').
  { induction rows as [|row rows IH]; intros m F; cbn [fold_left]; [by rewrite app_nil_r|].
    destruct (entry_rows m (update_columns row) row) as [P Q]. destruct (IH _ (Q F eq_refl)) as [P' F']. split; [|exact F'].
    rewrite P', P. by rewrite <- Permutation_middle. }
  apply (Gen []). constructor.
Qed.

Definition chunk_ok (d : BatchDialect) (keys : list str) (p : list str * list (RowUpdate (V := V))) : Prop :=
  p.2 <> [] /\ (length p.2 <= 128)%nat /\ total (update_cost keys p.1) p.2 <= parameter_limit d /\
  total (validation_cost keys) p.2 <= parameter_limit d /\ Forall (fun r => update_columns r = p.1) p.2.

Lemma limit_pos d : 0 <= parameter_limit d.
Proof. by destruct d. Qed.

Lemma plan_chunks_ok d keys rows found :
  plan_chunks d keys rows = Ok found -> List.concat (map snd found) ≡ₚ rows /\ Forall (chunk_ok d keys) found.
Proof.
  unfold plan_chunks. intros Q. apply rbind_ok_inv in Q as (l & T & Q). injection Q as <-.
  destruct (groups_ok rows) as [P F]. apply traverse_ok_inv in T. rewrite <- P. clear P.
  induction T as [|[columns g] cs gs l E T IH]; [by split|]. apply Forall_cons in F as [Fg F]. destruct (IH F) as [IH1 IH2].
  apply rbind_ok_inv in E as (c & C & E). injection E as <-. apply chunks_ok in C as [Ec Fc]; [|done|apply limit_pos].
  cbn [List.concat map snd]. split.
  - rewrite map_app, concat_app, IH1, map_map. cbn [snd]. rewrite map_id, Ec. done.
  - apply Forall_app. split; [|exact IH2]. apply Forall_map. rewrite <- Ec in Fg. cbn [fst snd] in Fg. clear -Fc Fg.
    induction Fc as [|x c (A1 & A2 & A3 & A4) Fc IH]; [constructor|]. cbn [List.concat] in Fg. apply Forall_app in Fg as [G1 G2].
    constructor; [|by apply IH]. split_and!; done.
Qed.

(** C23: an accepted batch becomes statements that hold every edited row exactly
    once, each with the rows that set the same columns, at most 128 of them, and
    neither the update nor its validation binds more parameters than the
    database allows. *)
Theorem batch_statements_bounded d schema table keys rows statements :
  NoDup keys -> build_batch_update_statements d schema table keys rows = Ok statements ->
  exists found, List.concat (map snd found) ≡ₚ rows /\
    Forall2 (fun p s =>
      p.2 <> [] /\ (length p.2 <= 128)%nat /\ Forall (fun r => update_columns r = p.1) p.2 /\
      s = with_expected (if changes_locator keys rows then Some (length p.2) else None) (build_statement d schema table keys p.1 p.2) /\
      zlen (params s) <= parameter_limit d /\ zlen (validation_params s) <= parameter_limit d) found statements.
Proof.
  intros N. unfold build_batch_update_statements. destruct (is_empty rows); [done|]. destruct (is_empty keys); [done|].
  intros Q. apply rbind_ok_inv in Q as (original & _ & Q). apply rbind_ok_inv in Q as (? & _ & Q).
  apply rbind_ok_inv in Q as (found & P & Q). injection Q as <-. apply plan_chunks_ok in P as [P F].
  exists found. split; [exact P|]. clear P. induction F as [|[columns c] found (A1 & A2 & A3 & A4 & A5) F IH]; constructor; [|exact IH].
  cbn [fst snd] in *. split_and!; [done..| |]; cbn [with_expected params validation_params].
  - by rewrite update_params_count.
  - by rewrite validation_params_count.
Qed.

(** ** What the checks establish *)

Lemma mem_id_elem x l : mem_id x l = true <-> x ∈ l.
Proof.
  unfold mem_id. rewrite existsb_true_iff. split.
  - intros (y & I & E). by apply bool_decide_eq_true in E as ->.
  - intros I. exists x. split; [done|]. by apply bool_decide_eq_true.
Qed.

Lemma check_rows_nodup keys (rows : list (RowUpdate (V := V))) : forall seen ids,
  check_rows keys rows seen = Ok ids -> NoDup (map (fun r => locator_identity keys r false) rows) /\
    forall r, r ∈ rows -> locator_identity keys r false ∉ seen.
Proof.
  induction rows as [|r rows IH]; intros seen ids; cbn [check_rows map].
  { intros _. split; [constructor|]. by intros r Hr%elem_of_nil. }
  destruct (bool_decide _); [done|]. destruct (existsb _ keys); [done|]. destruct (mem_id _ seen) eqn:M; [done|].
  intros Q. apply IH in Q as [N S]. split.
  - apply NoDup_cons. split; [|done]. intros (r' & E & Hr)%list_elem_of_fmap. apply (S r' Hr). rewrite <- E. left.
  - intros r' [->|Hr]%elem_of_cons; [|intros I; apply (S r' Hr); by right].
    intros I. apply mem_id_elem in I. congruence.
Qed.

End Plans.

(** ** The statements on stored rows *)

Section Stored.
Context {V : Type} `{JsonLaws V}.

(** A stored row has a key in the database's own sense of equality; [norm]
    takes the values of the locator columns to the key they denote there (two
    different JSON values may denote one key, a value may denote none).
    [assign] is what SET does with an edit.  [keys] is a unique key. *)
Context {R K : Type} `{EqDecision K} (key_of : R -> K) (norm : list V -> option K) (assign : R -> RowUpdate (V := V) -> R) (keys : list str).

Definition old_values (r : RowUpdate (V := V)) : list V := map (key_value r) keys.
Definition new_values (r : RowUpdate (V := V)) : list V := map (new_value r) keys.
Definition hit (x : R) (values : list V) : bool := bool_decide (norm values = Some (key_of x)).

(** [batch_matches]: the sum of [match_terms] for a stored row. *)
Definition row_matches (x : R) (r : RowUpdate (V := V)) : Z :=
  (if hit x (old_values r) then 1 else 0) +
  (if is_some (destination keys r) then if hit x (new_values r) then if hit x (old_values r) then 0 else 2 else 0 else 0).
Definition batch_matches (chunk : list (RowUpdate (V := V))) (x : R) : Z := fold_right (fun r n => row_matches x r + n) 0 chunk.
(** The rows that the validation query returns. *)
Definition selected (chunk : list (RowUpdate (V := V))) (x : R) : bool :=
  existsb (fun r => hit x (old_values r) || (is_some (destination keys r) && hit x (new_values r))) chunk.

Definition duplicate_target : str := u "批量更新存在重复目标行".
Definition changed_target : str := u "批量更新目标数据已变更，请刷新后重试".

(** The loop over the targets of one validation query; [seen] goes on through
    the queries of the whole batch. *)
Fixpoint scan_targets (chunk : list (RowUpdate (V := V))) (targets : list R) (seen : list K) : result (list K) str :=
  match targets with
  | [] => Ok seen
  | x :: targets =>
    if (1 <? batch_matches chunk x) || bool_decide (key_of x ∈ seen) then Err duplicate_target
    else scan_targets chunk targets (key_of x :: seen)
  end.

(** [execute_batch_updates_in_transaction]: every chunk is validated on the
    rows as they are, then the updates run in order. *)
Fixpoint validate_all (chunks : list (list (RowUpdate (V := V)) * option nat)) (table : list R) (seen : list K) : result unit str :=
  match chunks with
  | [] => Ok tt
  | (chunk, expected) :: chunks =>
    let targets := List.filter (selected chunk) table in
    let? seen := scan_targets chunk targets seen in
    if is_some_and (fun n => negb (Nat.eqb (length targets) n)) expected then Err changed_target
    else validate_all chunks table seen
  end.
Definition update_row (chunk : list (RowUpdate (V := V))) (x : R) : R :=
  match find_first (fun r => hit x (old_values r)) chunk with Some r => assign x r | None => x end.
Definition run_update (table : list R) (chunk : list (RowUpdate (V := V))) : list R := map (update_row chunk) table.
Definition execute_batch_updates_in_transaction (chunks : list (list (RowUpdate (V := V)) * option nat)) (table : list R) : result (list R) str :=
  check? validate_all chunks table [] in Ok (fold_left run_update (map fst chunks) table).

(** *** Validation *)

Lemma row_matches_nonneg x r : 0 <= row_matches x r.
Proof. unfold row_matches. repeat destruct (hit _ _); destruct (is_some _); lia. Qed.

Lemma batch_matches_split chunk a r b x : chunk = a ++ r :: b -> row_matches x r <= batch_matches chunk x.
Proof.
  intros ->. assert (P : forall l, 0 <= batch_matches l x).
  { induction l as [|y l IH]; simpl; [lia|]. pose proof (row_matches_nonneg x y). lia. }
  induction a as [|y a IH]; simpl.
  - specialize (P b). unfold batch_matches in *. lia.
  - pose proof (row_matches_nonneg x y). unfold batch_matches in *. lia.
Qed.

Lemma batch_matches_two chunk x r r' :
  r ∈ chunk -> r' ∈ chunk -> r <> r' -> row_matches x r + row_matches x r' <= batch_matches chunk x.
Proof.
  assert (P : forall r l, r ∈ l -> row_matches x r <= batch_matches l x).
  { intros s l I. apply list_elem_of_split in I as (a & b & E). by apply (batch_matches_split l a s b). }
  induction chunk as [|y chunk IH]; intros I I' N; [by apply elem_of_nil in I|]. cbn [batch_matches fold_right].
  apply elem_of_cons in I as [E|I]; apply elem_of_cons in I' as [E'|I']; subst; try done.
  - specialize (P r' chunk I'). unfold batch_matches in *. lia.
  - specialize (P r chunk I). unfold batch_matches in *. lia.
  - specialize (IH I I' N). pose proof (row_matches_nonneg x y). unfold batch_matches in *. lia.
Qed.

Lemma scan_ok chunk targets : forall seen seen',
  scan_targets chunk targets seen = Ok seen' ->
  (forall x, x ∈ targets -> batch_matches chunk x <= 1 /\ key_of x ∉ seen) /\
  (forall k, k ∈ seen' <-> k ∈ seen \/ k ∈ map key_of targets).
Proof.
  induction targets as [|x targets IH]; intros seen seen'; cbn [scan_targets].
  { intros [= <-]. split; [by intros x Hx%elem_of_nil|]. intros k. simpl. rewrite elem_of_nil. tauto. }
  destruct (_ || _) eqn:E; [done|]. to_prop. intros Q. apply IH in Q as [A B]. split.
  - intros y [->|Hy]%elem_of_cons; [split; [lia|done]|]. destruct (A y Hy) as [A1 A2]. split; [done|]. intros I. apply A2. by right.
  - intros k. rewrite B. cbn [map]. rewrite !elem_of_cons. tauto.
Qed.

Lemma validate_ok chunks table : forall seen,
  validate_all chunks table seen = Ok tt ->
  (forall c n, (c, n) ∈ chunks -> forall x, x ∈ table -> selected c x = true -> batch_matches c x <= 1 /\ key_of x ∉ seen) /\
  (forall c n, (c, n) ∈ chunks -> forall m, n = Some m -> length (List.filter (selected c) table) = m) /\
  (forall a c n b c' n' x x', chunks = a ++ (c, n) :: b -> (c', n') ∈ b -> x ∈ table -> x' ∈ table ->
     selected c x = true -> selected c' x' = true -> key_of x <> key_of x').
Proof.
  induction chunks as [|[c0 n0] chunks IH]; intros seen; cbn [validate_all].
  { intros _. split_and!; try (by intros c n Hc%elem_of_nil). intros [|] **; done. }
  intros Q. apply rbind_ok_inv in Q as (seen' & S & Q). destruct (is_some_and _ n0) eqn:E; [done|].
  apply scan_ok in S as [S1 S2]. apply IH in Q as (A & B & C).
  assert (T : forall c x, x ∈ table -> selected c x = true -> x ∈ List.filter (selected c) table).
  { intros c x Hx Sx. apply list_elem_of_In, filter_In. split; [by apply list_elem_of_In|done]. }
  split_and!.
  - intros c n [[= -> ->]|Hc]%elem_of_cons x Hx Sx; [by apply S1, T|]. destruct (A c n Hc x Hx Sx) as [A1 A2]. split; [done|].
    intros I. apply A2, S2. by left.
  - intros c n [[= -> ->]|Hc]%elem_of_cons m Em; [|by eapply B]. subst. simpl in E. apply negb_false_iff, Nat.eqb_eq in E. done.
  - intros [|p a] c n b c' n' x x' Ec Hc' Hx Hx' Sx Sx'.
    + injection Ec as <- <- <-. destruct (A c' n' Hc' x' Hx' Sx') as [_ A2]. intros Ek. apply A2, S2. right. rewrite <- Ek.
      apply list_elem_of_fmap_2. by apply T.
    + injection Ec as _ ->. by eapply C.
Qed.

(** *** Updating *)

Lemma selected_hit c x r : r ∈ c -> hit x (old_values r) = true -> selected c x = true.
Proof. intros I E. apply existsb_true_iff. exists r. split; [done|]. by rewrite E. Qed.

(** When as many rows are found as there are edits, every edit finds its row. *)
Lemma all_hit table c :
  NoDup (map key_of table) -> NoDup c -> length (List.filter (selected c) table) = length c ->
  (forall x, x ∈ table -> selected c x = true -> batch_matches c x <= 1) ->
  forall r, r ∈ c -> exists z, z ∈ table /\ hit z (old_values r) = true.
Proof.
  intros Nt Nc Len One. set (f := fun z => find_first (fun r => hit z (old_values r)) c).
  assert (F : forall z, z ∈ table -> selected c z = true -> exists r, f z = Some r /\ r ∈ c /\ hit z (old_values r) = true).
  { intros z Hz Sz. pose proof (One z Hz Sz) as M. apply existsb_true_iff in Sz as (r & Ir & Er).
    assert (Hr : hit z (old_values r) = true).
    { destruct (hit z (old_values r)) eqn:Eh; [done|]. simpl in Er. apply andb_true_iff in Er as [D N].
      apply list_elem_of_split in Ir as (a & b & Ec). pose proof (batch_matches_split c a r b z Ec) as Le.
      unfold row_matches in Le. rewrite Eh, D, N in Le. lia. }
    destruct (find_first_exists (fun r => hit z (old_values r)) c r Ir Hr) as [s Es]. exists s.
    split; [exact Es|]. by apply find_first_some in Es. }
  set (targets := List.filter (selected c) table) in Len.
  assert (T : forall z, z ∈ targets -> z ∈ table /\ selected c z = true).
  { intros z Hz. apply list_elem_of_In, filter_In in Hz as [Hz ?]. split; [by apply list_elem_of_In|done]. }
  assert (Ntg : NoDup (map key_of targets)).
  { unfold targets. clear -Nt. induction table as [|z table IH]; [constructor|]. cbn [map List.filter] in *. apply NoDup_cons in Nt as [Nz Nt].
    destruct (selected c z); [|by apply IH]. cbn [map]. apply NoDup_cons. split; [|by apply IH].
    intros (y & E & Hy)%list_elem_of_fmap. apply Nz. rewrite E. apply list_elem_of_fmap_2.
    apply list_elem_of_In, filter_In in Hy as [Hy _]. by apply list_elem_of_In. }
  assert (L : length (omap f targets) = length targets /\ NoDup (omap f targets) /\ forall r, r ∈ omap f targets -> r ∈ c).
  { clear Len Nt. induction targets as [|z targets IH]; [split; [done|]; split; [constructor|]; by intros r Hr%elem_of_nil|].
    cbn [map] in Ntg. apply NoDup_cons in Ntg as [Nz Ntg]. destruct IH as (I1 & I2 & I3); [intros; apply T; by right|done|].
    destruct (T z) as [Tz Sz]; [left|]. destruct (F z Tz Sz) as (r & Er & Ir & Hr).
    change (omap f (z :: targets)) with (match f z with Some y => y :: omap f targets | None => omap f targets end). rewrite Er.
    split; [simpl; congruence|]. split; [|intros s [->|Hs]%elem_of_cons; [done|by apply I3]].
    apply NoDup_cons. split; [|done]. intros (z' & Hz' & Er')%list_elem_of_omap.
    unfold f in Er'. apply find_first_some in Er' as [_ Hr']. apply Nz.
    assert (Ek : key_of z = key_of z').
    { unfold hit in Hr, Hr'. apply bool_decide_eq_true in Hr, Hr'. congruence. }
    rewrite Ek. by apply list_elem_of_fmap_2. }
  destruct L as (L1 & L2 & L3). intros r Ir.
  assert (Inc : incl c (omap f targets)).
  { apply NoDup_length_incl; [by apply NoDup_ListNoDup|lia|]. intros s Hs. apply list_elem_of_In, L3. by apply list_elem_of_In. }
  apply list_elem_of_In in Ir. apply Inc in Ir. apply list_elem_of_In, list_elem_of_omap in Ir as (z & Hz & Er).
  exists z. split; [by apply T|]. unfold f in Er. apply find_first_some in Er as [_ Er]. exact Er.
Qed.

Lemma fold_update cs table : fold_left run_update cs table = map (fun x => fold_left (fun x c => update_row c x) cs x) table.
Proof.
  revert table. induction cs as [|c cs IH]; intros table; cbn [fold_left]; [by rewrite map_id|]. rewrite IH. unfold run_update.
  by rewrite map_map.
Qed.

Lemma update_row_app c k x :
  update_row (c ++ k) x = if existsb (fun r => hit x (old_values r)) c then update_row c x else update_row k x.
Proof.
  unfold update_row. induction c as [|r c IH]; [done|]. cbn [app find_first existsb]. destruct (hit x (old_values r)); [done|]. exact IH.
Qed.

Lemma update_row_miss c x : (forall r, r ∈ c -> hit x (old_values r) = false) -> update_row c x = x.
Proof.
  intros M. unfold update_row. destruct (find_first _ c) as [r|] eqn:E; [|done]. apply find_first_some in E as [I E]. by rewrite M in E.
Qed.

Lemma same_values r : destination keys r = None -> new_values r = old_values r.
Proof.
  unfold destination. destruct (existsb _ keys) eqn:E; [done|]. intros _. rewrite existsb_false_iff in E.
  unfold new_values, old_values. apply map_ext_in. intros k Hk%list_elem_of_In. specialize (E k Hk). unfold new_value.
  destruct (updates r !! k) as [v|]; [|done]. simpl. apply negb_false_iff in E. by apply bool_decide_eq_true in E.
Qed.

Lemma moved_locator r rows : r ∈ rows -> is_Some (destination keys r) -> changes_locator keys rows = true.
Proof.
  intros I [dest D]. apply existsb_true_iff. exists r. split; [done|]. unfold destination in D.
  destruct (existsb _ keys) eqn:E; [|done]. apply existsb_true_iff in E as (k & Hk & E). apply existsb_true_iff.
  exists k. split; [done|]. by destruct (updates r !! k).
Qed.

Section Batch.
Context (rows : list (RowUpdate (V := V))) (cs : list (list (RowUpdate (V := V)))) (table : list R).
Let chunks : list (list (RowUpdate (V := V)) * option nat) :=
  map (fun c => (c, if changes_locator keys rows then Some (length c) else None)) cs.
(** Where the updates succeed, an edited row's key is the one its new values
    denote. *)
Context (assign_key : forall x r, x ∈ table -> r ∈ rows -> hit x (old_values r) = true -> norm (new_values r) = Some (key_of (assign x r))).
Context (P : List.concat cs ≡ₚ rows) (Nr : NoDup (List.concat cs)) (Nt : NoDup (map key_of table)) (Ok_ : validate_all chunks table [] = Ok tt).

Lemma chunk_split a c b : cs = a ++ c :: b ->
  chunks = map (fun c => (c, if changes_locator keys rows then Some (length c) else None)) a
           ++ (c, if changes_locator keys rows then Some (length c) else None)
           :: map (fun c => (c, if changes_locator keys rows then Some (length c) else None)) b.
Proof. intros ->. unfold chunks. by rewrite map_app. Qed.

Lemma in_rows c r : c ∈ cs -> r ∈ c -> r ∈ rows.
Proof. intros Hc Hr. rewrite <- P. apply list_elem_of_In, in_concat. exists c. split; by apply list_elem_of_In. Qed.

Lemma chunk_in c : c ∈ cs -> (c, if changes_locator keys rows then Some (length c) else None) ∈ chunks.
Proof. intros Hc. by apply (list_elem_of_fmap_2 (fun c => (c, if changes_locator keys rows then Some (length c) else None))). Qed.

Lemma chunk_nodup c : c ∈ cs -> NoDup c.
Proof.
  intros (a & b & ->)%list_elem_of_split. rewrite concat_app in Nr. apply NoDup_app in Nr as (_ & _ & N). cbn [List.concat] in N.
  by apply NoDup_app in N as (N & _).
Qed.

Lemma one_chunk a c b c' x r r' : cs = a ++ c :: b -> c' ∈ b -> x ∈ table -> r ∈ c -> r' ∈ c' ->
  hit x (old_values r) = true -> hit x (old_values r') = true -> False.
Proof.
  intros E Hc' Hx Hr Hr' Er Er'. destruct (validate_ok _ _ _ Ok_) as (_ & _ & C).
  apply (C _ _ _ _ c' (if changes_locator keys rows then Some (length c') else None) x x (chunk_split a c b E));
    [by apply (list_elem_of_fmap_2 (fun c => (c, if changes_locator keys rows then Some (length c) else None)))
    |done|done|by eapply selected_hit|by eapply selected_hit|done].
Qed.

Lemma no_rehit a c b c' x r r' : cs = a ++ c :: b -> c' ∈ b -> x ∈ table -> r ∈ c -> r' ∈ c' ->
  hit x (old_values r) = true -> hit (assign x r) (old_values r') = true -> False.
Proof.
  intros E Hc' Hx Hr Hr' Er Er'.
  assert (Ir : r ∈ rows) by (apply (in_rows c); [rewrite E; apply elem_of_app; right; left|done]).
  pose proof (assign_key x r Hx Ir Er) as Nk.
  assert (Ic' : c' ∈ cs) by (rewrite E; apply elem_of_app; right; by right).
  assert (Ic : c ∈ cs) by (rewrite E; apply elem_of_app; right; left).
  destruct (decide (key_of (assign x r) = key_of x)) as [Ek|Ek].
  { apply (one_chunk a c b c' x r r' E Hc' Hx Hr Hr' Er). unfold hit in Er' |- *. by rewrite <- Ek. }
  pose proof Er as Eo. unfold hit in Eo, Er'. apply bool_decide_eq_true in Eo, Er'.
  destruct (destination keys r) as [dest|] eqn:D; cycle 1.
  { apply same_values in D. rewrite D in Nk. congruence. }
  destruct (validate_ok _ _ _ Ok_) as (A & B & _).
  assert (Cl : changes_locator keys rows = true) by (by eapply moved_locator).
  destruct (all_hit table c' Nt (chunk_nodup c' Ic')) with (r := r') as (z & Hz & Ez); [|..|done|].
  - eapply B; [by apply chunk_in|]. by rewrite Cl.
  - intros y Hy Sy. by apply (A _ _ (chunk_in c' Ic') y Hy Sy).
  - unfold hit in Ez. apply bool_decide_eq_true in Ez.
    assert (Ekz : key_of z = key_of (assign x r)) by congruence.
    assert (Hn : hit z (new_values r) = true) by (unfold hit; apply bool_decide_eq_true; congruence).
    assert (Ho : hit z (old_values r) = false) by (unfold hit; apply bool_decide_eq_false; congruence).
    assert (Sz : selected c z = true) by (apply existsb_true_iff; exists r; split; [done|]; by rewrite Ho, D, Hn).
    destruct (A _ _ (chunk_in c Ic) z Hz Sz) as [M _].
    apply list_elem_of_split in Hr as (l & k & El). pose proof (batch_matches_split c l r k z El) as Le.
    unfold row_matches in Le. rewrite Ho, Hn, D in Le. simpl in Le. lia.
Qed.

Lemma update_sequence x : x ∈ table -> fold_left (fun x c => update_row c x) cs x = update_row (List.concat cs) x.
Proof.
  intros Hx. assert (G : forall s a, cs = a ++ s -> fold_left (fun x c => update_row c x) s x = update_row (List.concat s) x).
  { induction s as [|c s IH]; intros a E; [done|]. cbn [fold_left List.concat]. rewrite update_row_app.
    destruct (existsb _ c) eqn:Eh.
    - apply existsb_true_iff in Eh as (r0 & Ir0 & Er0).
      destruct (find_first_exists (fun r => hit x (old_values r)) c r0 Ir0 Er0) as [r Fr].
      assert (Eu : update_row c x = assign x r) by (unfold update_row; by rewrite Fr). rewrite Eu.
      apply find_first_some in Fr as [Ir Er].
      assert (St : forall s', (forall c', c' ∈ s' -> c' ∈ s) -> fold_left (fun x c => update_row c x) s' (assign x r) = assign x r).
      { induction s' as [|c' s' IHs]; intros Sub; [done|]. cbn [fold_left]. rewrite update_row_miss.
        - apply IHs. intros. apply Sub. by right.
        - intros r' Hr'. destruct (hit (assign x r) (old_values r')) eqn:Eh; [|done]. exfalso.
          apply (no_rehit a c s c' x r r' E); [apply Sub; left|done..]. }
      by apply St.
    - rewrite update_row_miss; [|intros r Hr; by rewrite existsb_false_iff in Eh; apply Eh].
      apply (IH (a ++ [c])). by rewrite <- app_assoc. }
  by apply (G cs []).
Qed.

(** A stored row is located by one edit at most. *)
Lemma one_edit x r r' : x ∈ table -> r ∈ List.concat cs -> r' ∈ List.concat cs ->
  hit x (old_values r) = true -> hit x (old_values r') = true -> r = r'.
Proof.
  intros Hx Hr Hr' Er Er'. destruct (validate_ok _ _ _ Ok_) as (A & _ & _).
  apply list_elem_of_In, in_concat in Hr as (c & Hc & Hr). apply list_elem_of_In, in_concat in Hr' as (c' & Hc' & Hr').
  apply list_elem_of_In in Hc, Hr, Hc', Hr'.
  apply list_elem_of_lookup in Hc as [i Li]. apply list_elem_of_lookup in Hc' as [j Lj].
  assert (Sp : forall i j c c' r r', cs !! i = Some c -> cs !! j = Some c' -> (i < j)%nat -> r ∈ c -> r' ∈ c' ->
     hit x (old_values r) = true -> hit x (old_values r') = true -> False).
  { intros i0 j0 d d' s s' Li0 Lj0 Lt Hs Hs' Es Es'.
    apply (one_chunk (take i0 cs) d (drop (S i0) cs) d' x s s'); try done; [symmetry; by apply take_drop_middle|].
    apply list_elem_of_lookup. exists (j0 - S i0)%nat. rewrite lookup_drop. by replace (S i0 + (j0 - S i0))%nat with j0 by lia. }
  destruct (lt_eq_lt_dec i j) as [[L|L]|L]; [destruct (Sp i j c c' r r'); done| |destruct (Sp j i c' c r' r); done].
  subst j. rewrite Li in Lj. injection Lj as <-. assert (Ic : c ∈ cs) by (by eapply list_elem_of_lookup_2).
  assert (Dec : r = r' \/ r <> r').
  { apply list_elem_of_lookup in Hr as [n Ln]. apply list_elem_of_lookup in Hr' as [m Lm].
    destruct (decide (n = m)) as [->|N]; [left; congruence|]. right. intros ->. apply N. eapply NoDup_lookup; [by apply chunk_nodup|done..]. }
  destruct Dec as [E|N]; [done|]. exfalso.
  destruct (A _ _ (chunk_in c Ic) x Hx (selected_hit c x r Hr Er)) as [M _].
  pose proof (batch_matches_two c x r r' Hr Hr' N) as T. unfold row_matches in T. rewrite Er, Er' in T.
  destruct (is_some _), (hit x (new_values r)), (is_some _), (hit x (new_values r')); lia.
Qed.

End Batch.

(** C13: when an accepted batch is executed and the validation inside the
    transaction lets it through, the stored rows are those of the reference in
    which every row is changed at once by the edit whose key names it - whatever
    the chunks, even when edits change keys and keys that JSON tells apart are
    one key to the database - and no two edits name the same row. *)
Theorem batch_updates_each_row_once d schema tname rows statements found table table' :
  build_batch_update_statements d schema tname keys rows = Ok statements -> plan_chunks d keys rows = Ok found ->
  NoDup (map key_of table) ->
  (forall x r, x ∈ table -> r ∈ rows -> hit x (old_values r) = true -> norm (new_values r) = Some (key_of (assign x r))) ->
  execute_batch_updates_in_transaction
    (map (fun c => (c, if changes_locator keys rows then Some (length c) else None)) (map snd found)) table = Ok table' ->
  table' = run_update table rows /\
  forall x r r', x ∈ table -> r ∈ rows -> r' ∈ rows -> hit x (old_values r) = true -> hit x (old_values r') = true -> r = r'.
Proof.
  intros B F Nt Law X. unfold build_batch_update_statements in B. destruct (is_empty rows); [done|]. destruct (is_empty keys); [done|].
  apply rbind_ok_inv in B as (original & Ck & _). apply check_rows_nodup in Ck as [Ni _]. apply plan_chunks_ok in F as [P _].
  set (cs := map snd found) in *.
  assert (Nr : NoDup (List.concat cs)) by (rewrite P; by apply NoDup_fmap_1 in Ni).
  unfold execute_batch_updates_in_transaction in X. apply rbind_ok_inv in X as ([] & Va & X). injection X as <-.
  assert (One : forall x r r', x ∈ table -> r ∈ rows -> r' ∈ rows -> hit x (old_values r) = true -> hit x (old_values r') = true -> r = r').
  { intros x r r' Hx Hr Hr'. rewrite <- P in Hr, Hr'. by eapply one_edit. }
  split; [|exact One]. rewrite map_map. cbn [fst]. rewrite map_id, fold_update. apply map_ext_in. intros x Hx%list_elem_of_In.
  rewrite (update_sequence rows cs table Law P Nr Nt Va x Hx). unfold update_row.
  destruct (find_first _ rows) as [r|] eqn:E.
  - apply find_first_some in E as [Ir Er]. assert (Ir' : r ∈ List.concat cs) by (by rewrite P).
    destruct (find_first_exists (fun r => hit x (old_values r)) _ r Ir' Er) as [r2 E2]. rewrite E2.
    apply find_first_some in E2 as [I2 E2]. rewrite P in I2. by rewrite (One x r r2 Hx Ir I2 Er E2).
  - destruct (find_first _ (List.concat cs)) as [r|] eqn:E2; [|done]. apply find_first_some in E2 as [I2 E2].
    rewrite P in I2. by rewrite (find_first_none _ _ E r I2) in E2.
Qed.

End Stored.

(** ** Witnesses *)

(** A table (id, name): one edit moves row 1 to 7, one names row "2" by a
    string, which the database takes for the number. *)
Definition e_row (id : Sample) (l : list (String.string * Sample)) : RowUpdate :=
  mkRow {[u "id" := id]} (list_to_map (map (fun '(k, v) => (u k, v)) l)).
Definition e_rows : list (RowUpdate (V := Sample)) :=
  [e_row (SNumber 1) [("id"%string, SNumber 7)]; e_row (SString (u "2")) [("name"%string, SString (u "b"))]].
Definition e_norm (l : list Sample) : option Z :=
  match l with [SNumber n] => Some n | [SString s] => parse_i64 s | _ => None end.
Definition e_assign (x : Z * Sample) (r : RowUpdate (V := Sample)) : Z * Sample :=
  (default x.1 (e_norm [new_value r (u "id")]), default x.2 (updates r !! u "name")).
Definition e_chunks : list (list (RowUpdate (V := Sample)) * option nat) :=
  [([e_row (SNumber 1) [("id"%string, SNumber 7)]], Some 1%nat); ([e_row (SString (u "2")) [("name"%string, SString (u "b"))]], Some 1%nat)].
Definition e_table : list (Z * Sample) := [(1, SNull); (2, SNull); (3, SNull)].

Lemma batch_statements_bounded_witness :
  exists statements, build_batch_update_statements Postgres (u "s") (u "t") [u "id"] e_rows = Ok statements /\
    Forall (fun s => zlen (params s) <= 65535) statements.
Proof.
  destruct (build_batch_update_statements Postgres (u "s") (u "t") [u "id"] e_rows) as [statements|e] eqn:E; [|by vm_compute in E].
  exists statements. split; [done|].
  destruct (batch_statements_bounded Postgres (u "s") (u "t") [u "id"] e_rows statements ltac:(repeat constructor; by intros ?%elem_of_nil) E)
    as (found & _ & F). clear E.
  induction F as [|p s found statements (_ & _ & _ & _ & B & _) F IH]; constructor; [exact B|exact IH].
Defined.

Lemma batch_updates_each_row_once_witness :
  let result := execute_batch_updates_in_transaction fst e_norm e_assign [u "id"] e_chunks e_table in
  result = Ok [(7, SNull); (2, SString (u "b")); (3, SNull)] /\
  [(7, SNull); (2, SString (u "b")); (3, SNull)] = run_update fst e_norm e_assign [u "id"] e_table e_rows.
Proof.
  cbn zeta. split; [by vm_compute|].
  destruct (build_batch_update_statements Postgres (u "s") (u "t") [u "id"] e_rows) as [statements|e] eqn:E; [|by vm_compute in E].
  destruct (plan_chunks Postgres [u "id"] e_rows) as [found|e] eqn:F; [|by vm_compute in F].
  apply (batch_updates_each_row_once fst e_norm e_assign [u "id"]) with
    (d := Postgres) (schema := u "s") (tname := u "t") (statements := statements) (found := found); [exact E|exact F| | |].
  - apply (bool_decide_unpack (NoDup [1; 2; 3])). by vm_compute.
  - intros x r Hx [->|[->|[]%elem_of_nil]%elem_of_cons]%elem_of_cons;
      repeat (apply elem_of_cons in Hx as [->|Hx]; [by vm_compute|]); by apply elem_of_nil in Hx.
  - vm_compute in F. injection F as <-. by vm_compute.
Defined.

End BatchPlan.
