(* ===== verification/SqlImport.v ===== *)
(** Importing a SQL file (src-tauri/src/commands/sql_file.rs): cutting the text
    into the statements or batches of each database, the preview of dangerous
    statements, running the statements one by one, and the batches that the
    SQL Server export writes for it. *)
From S2P Require Import Prelude RustText Ddl SqlScript.
Import Ddl SqlScript.

Module SqlImport.

Definition MAX_RECORDED_IMPORT_FAILURES : nat := 80.
Definition MAX_IMPORT_FAILURE_STATEMENT_PREVIEW_CHARS : nat := 160.
Definition MAX_IMPORT_FILE_BYTES : Z := 512 * 1024 * 1024.

(** ** SQL Server batches *)

Record SqlServerBatchParseState : Type := mkState {
  b_single : bool; b_double : bool; b_bracket : bool; b_block_comment : bool }.
Definition default_state : SqlServerBatchParseState := mkState false false false false.
#[export] Instance state_eq_dec : EqDecision SqlServerBatchParseState.
Proof. solve_decision. Defined.

Definition ensure_semicolon (sql : str) : str :=
  let trimmed := trim sql in if ends_with (u ";") trimmed then trimmed else trimmed ++ u ";".

(** [split_once("--")]: the part before it. *)
Fixpoint before_comment (s : str) : option str :=
  match s with
  | [] => None
  | c :: rest => if starts_with (u "--") s then Some [] else (fun h => c :: h) <$> before_comment rest
  end.

Definition parse_usize (s : str) : option Z := parse_uint usize_max s.

Definition sqlserver_go_repeat_count (line : str) : option Z :=
  let trimmed := trim line in
  if is_empty trimmed then None
  else
    let without_comment := match before_comment trimmed with Some head => trim head | None => trimmed end in
    match split_whitespace without_comment with
    | [] => None
    | first :: parts =>
      if negb (eq_ignore_ascii_case first (u "GO")) then None
      else
        match parts with
        | [] => Some 1
        | [count] => match parse_usize count with Some n => if 0 <? n then Some n else None | None => None end
        | _ => None
        end
    end.

(** One line of the text; a quote doubled inside its string goes on. *)
Fixpoint update_sqlserver_batch_parse_state (line : str) (s : SqlServerBatchParseState) : SqlServerBatchParseState :=
  match line with
  | [] => s
  | c :: rest =>
    let doubled (x : char) (closed : SqlServerBatchParseState) :=
      if c =? x
      then match rest with
           | c' :: rest' => if c' =? x then update_sqlserver_batch_parse_state rest' s else update_sqlserver_batch_parse_state rest closed
           | [] => closed
           end
      else update_sqlserver_batch_parse_state rest s in
    if b_block_comment s then
      match c, rest with
      | 42, 47 :: rest' => update_sqlserver_batch_parse_state rest' (mkState (b_single s) (b_double s) (b_bracket s) false)
      | _, _ => update_sqlserver_batch_parse_state rest s
      end
    else if b_single s then doubled 39 (mkState false (b_double s) (b_bracket s) (b_block_comment s))
    else if b_double s then doubled 34 (mkState (b_single s) false (b_bracket s) (b_block_comment s))
    else if b_bracket s then doubled 93 (mkState (b_single s) (b_double s) false (b_block_comment s))
    else
      match c, rest with
      | 45, 45 :: _ => s
      | 47, 42 :: rest' => update_sqlserver_batch_parse_state rest' (mkState (b_single s) (b_double s) (b_bracket s) true)
      | _, _ =>
        update_sqlserver_batch_parse_state rest
          (if c =? 39 then mkState true (b_double s) (b_bracket s) (b_block_comment s)
           else if c =? 34 then mkState (b_single s) true (b_bracket s) (b_block_comment s)
           else if c =? 91 then mkState (b_single s) (b_double s) true (b_block_comment s) else s)
      end
  end.

(** [split_inclusive('\n')] *)
Fixpoint split_lines (s : str) : list str :=
  match s with
  | [] => []
  | c :: rest =>
    if c =? 10 then [c] :: split_lines rest
    else match split_lines rest with [] => [[c]] | line :: lines => (c :: line) :: lines end
  end.

Definition can_split (s : SqlServerBatchParseState) : bool :=
  negb (b_single s) && negb (b_double s) && negb (b_bracket s) && negb (b_block_comment s).

(** The loop over the lines. *)
Fixpoint split_batches (lines : list str) (current : str) (s : SqlServerBatchParseState) : list str :=
  match lines with
  | [] => let tail := trim current in if is_empty tail then [] else [tail]
  | line :: lines =>
    match (if can_split s then sqlserver_go_repeat_count (trim_end_matches (fun c => (c =? 13) || (c =? 10)) line) else None) with
    | Some repeat =>
      let batch := trim current in
      (if is_empty batch then [] else replicate (Z.to_nat repeat) batch) ++ split_batches lines [] s
    | None => split_batches lines (current ++ line) (update_sqlserver_batch_parse_state line s)
    end
  end.
Definition split_sqlserver_batches (sql : str) : list str := split_batches (split_lines sql) [] default_state.

Definition append_sqlserver_batch (out ddl : str) : str :=
  let trimmed := trim ddl in
  if is_empty trimmed then out else out ++ ensure_semicolon trimmed ++ [10] ++ u "GO" ++ [10].

(** ** ClickHouse statements *)

(** [rest.find(p)] and what follows the match. *)
Fixpoint after (p s : str) : option str :=
  match strip_prefix p s with
  | Some rest => Some rest
  | None => match s with [] => None | _ :: s => after p s end
  end.

Fixpoint strip_comments (fuel : nat) (sql : str) : str :=
  let trimmed := trim_start sql in
  match fuel with
  | O => trimmed
  | S fuel =>
    let skip_past p rest := match after p rest with Some rest => strip_comments fuel rest | None => [] end in
    match strip_prefix (u "--") trimmed, strip_prefix (u "#") trimmed, strip_prefix (u "/*") trimmed with
    | Some rest, _, _ => skip_past [10] rest
    | None, Some rest, _ => skip_past [10] rest
    | None, None, Some rest => skip_past (u "*/") rest
    | None, None, None => trimmed
    end
  end.
(** Every comment takes a char at least. *)
Definition strip_leading_import_comments (sql : str) : str := strip_comments (length sql) sql.

Definition is_token (c : char) : bool := is_ascii_alphanumeric c || (c =? 95).
(** [split(|c| !is_token(c))] *)
Fixpoint split_tokens (s : str) : list str :=
  match s with
  | [] => [[]]
  | c :: rest =>
    if is_token c then match split_tokens rest with t :: ts => (c :: t) :: ts | [] => [[c]] end
    else [] :: split_tokens rest
  end.
Definition clickhouse_insert_uses_format_payload (stmt : str) : bool :=
  let stripped := strip_leading_import_comments stmt in
  eq_ignore_ascii_case (take_while is_ascii_alphabetic stripped) (u "INSERT")
  && existsb (fun t => str_eqb (to_ascii_uppercase t) (u "FORMAT")) (List.filter (fun t => negb (is_empty t)) (split_tokens stripped)).

(** The chars up to the end of the line are blank. *)
Fixpoint blank_line_end (chars : str) : bool :=
  match chars with
  | [] => true
  | c :: rest => if (c =? 10) || (c =? 13) then true else if negb (is_whitespace c) then false else blank_line_end rest
  end.
(** [before]: the chars before the semicolon, the last one first. *)
Definition semicolon_is_line_terminator (before after : str) : bool := blank_line_end before && blank_line_end after.

(** The loop is that of [split_sql_statements] but for the semicolon. *)
Fixpoint clickhouse_loop (fuel : nat) (s : Scan) (current before chars : str) : list str :=
  match fuel, chars with
  | S fuel, c :: rest =>
    match step s c rest with
    | Push pushed rest s => clickhouse_loop fuel s (current ++ pushed) (List.rev pushed ++ before) rest
    | Cut rest =>
      let stmt := trim current in
      if clickhouse_insert_uses_format_payload stmt && negb (semicolon_is_line_terminator before rest)
      then clickhouse_loop fuel s (current ++ [c]) (c :: before) rest
      else finish_statement current ++ clickhouse_loop fuel s [] (c :: before) rest
    end
  | _, _ => finish_statement current
  end.
Definition split_clickhouse_import_statements (sql : str) : list str :=
  let trimmed := trim sql in
  if is_empty trimmed then [] else clickhouse_loop (length trimmed) SqlScript.start [] [] trimmed.

Definition split_import_sql_for_database_type (database_type sql_text : str) : list str :=
  let database_type := trim database_type in
  if eq_ignore_ascii_case database_type (u "sqlserver") then split_sqlserver_batches sql_text
  else if eq_ignore_ascii_case database_type (u "clickhouse") then split_clickhouse_import_statements sql_text
  else List.filter (fun s => negb (is_empty s)) (map trim (split_sql_statements sql_text)).

(** ** Preview *)

Section Import.
Context (upper_char : char -> str).

Definition summarize_import_statement (stmt : str) : str :=
  let normalized := join (u " ") (split_whitespace stmt) in
  if (length normalized <=? MAX_IMPORT_FAILURE_STATEMENT_PREVIEW_CHARS)%nat then normalized
  else take MAX_IMPORT_FAILURE_STATEMENT_PREVIEW_CHARS normalized ++ u "...".

Definition is_dangerous_import_statement (stmt : str) : bool :=
  let upper := to_uppercase upper_char (trim stmt) in
  starts_with (u "TRUNCATE") upper || starts_with (u "DROP DATABASE") upper || starts_with (u "DROP SCHEMA") upper.

Record DangerousSqlStatementPreview : Type := mkDangerous { dg_index : Z; dg_preview : str }.
Record PreviewSqlFileImportResult : Type := mkPreview {
  statements_total : Z; dangerous_statements_total : Z; dangerous_statements : list DangerousSqlStatementPreview }.

(** The loop: the count so far, the recorded ones and the next index. *)
Fixpoint preview_loop (statements : list str) (idx total : Z) (recorded : list DangerousSqlStatementPreview) :
  Z * list DangerousSqlStatementPreview :=
  match statements with
  | [] => (total, recorded)
  | stmt :: statements =>
    if negb (is_dangerous_import_statement stmt) then preview_loop statements (idx + 1) total recorded
    else
      preview_loop statements (idx + 1) (total + 1)
        (if (length recorded <? MAX_RECORDED_IMPORT_FAILURES)%nat
         then recorded ++ [mkDangerous (idx + 1) (summarize_import_statement stmt)] else recorded)
  end.
Definition preview_sql_file_dangerous_statements (database_type sql_text : str) : PreviewSqlFileImportResult :=
  let statements := split_import_sql_for_database_type database_type sql_text in
  let '(total, recorded) := preview_loop statements 0 0 [] in
  mkPreview (zlen statements) total recorded.

(** ** Reading and running *)

Definition strip_utf8_bom (b : bytes) : bytes :=
  match b with 239 :: 187 :: 191 :: rest => rest | _ => b end.

(** [read]: the file's length and content, or the errors of the file system. *)
Definition read_sql_file_text (len : result Z str) (too_large : Z -> str) (content : result bytes str) : result str str :=
  let? len := len in
  if MAX_IMPORT_FILE_BYTES <? len then Err (too_large len)
  else
    let? b := content in
    ok_or (from_utf8 (strip_utf8_bom b)) (u "文件不是有效 UTF-8 文本").

Record ImportSqlStatementFailure : Type := mkFailure { statement_index : Z; statement_preview : str; error : str }.
Record ImportSqlFileResult : Type := mkImport { im_total : Z; im_ok : Z; im_failed : Z; im_failures : list ImportSqlStatementFailure }.

Definition record_import_failure (failures : list ImportSqlStatementFailure) (index : Z) (stmt error : str) : list ImportSqlStatementFailure :=
  if (MAX_RECORDED_IMPORT_FAILURES <=? length failures)%nat then failures
  else failures ++ [mkFailure index (summarize_import_statement stmt) error].

(** The loop over the statements, which every database has for itself;
    [run_one] is its driver on the connection [W]. *)
Section Run.
Context {W : Type} (run_one : str -> W -> result unit str * W).

Fixpoint import_loop (statements : list str) (i ok failed : Z) (failures : list ImportSqlStatementFailure) (w : W) :
  Z * Z * list ImportSqlStatementFailure * W :=
  match statements with
  | [] => (ok, failed, failures, w)
  | stmt :: statements =>
    match run_one stmt w with
    | (Ok _, w) => import_loop statements (i + 1) (ok + 1) failed failures w
    | (Err e, w) => import_loop statements (i + 1) ok (failed + 1) (record_import_failure failures (i + 1) stmt e) w
    end
  end.

Definition import_sql_file (database_type sql_text : str) (w : W) : result ImportSqlFileResult str * W :=
  let statements := split_import_sql_for_database_type database_type sql_text in
  if zlen statements =? 0 then (Err (u "未解析到任何 SQL 语句"), w)
  else
    let '(ok, failed, failures, w) := import_loop statements 0 0 0 [] w in
    (Ok (mkImport (zlen statements) ok failed failures), w).
End Run.

End Import.


(** ** ClickHouse and the generic splitter *)

(** Where no statement carries a payload, the ClickHouse loop cuts as the
    generic one does. *)
Lemma clickhouse_loop_plain fuel : forall s current before chars,
  (forall stmt, stmt ∈ split_loop fuel s current chars -> clickhouse_insert_uses_format_payload stmt = false) ->
  clickhouse_loop fuel s current before chars = split_loop fuel s current chars.
Proof.
  induction fuel as [|fuel IH]; intros s current before [|c rest] P; try done. cbn [clickhouse_loop split_loop] in *.
  destruct (step s c rest) as [pushed rest' s'|rest']; [by apply IH|].
  assert (F : clickhouse_insert_uses_format_payload (trim current) = false).
  { unfold finish_statement in P. destruct (is_empty (trim current)) eqn:E.
    - destruct (trim current); [by vm_compute|done].
    - apply P. apply elem_of_app. left. left. }
  rewrite F. cbn [andb]. f_equal. apply IH. intros stmt I. apply P. apply elem_of_app. by right.
Qed.

(** ** SQL Server batches *)

Lemma split_lines_app a b : split_lines (a ++ 10 :: b) = split_lines (a ++ [10]) ++ split_lines b.
Proof.
  induction a as [|c a IH]; [done|]. cbn [app split_lines]. rewrite IH. destruct (c =? 10); [done|].
  destruct (split_lines (a ++ [10])) as [|l ls] eqn:E; [|done].
  destruct a as [|c' a]; cbn [app split_lines] in E; [done|]. destruct (c' =? 10); [done|]. by destruct (split_lines (a ++ [10])).
Qed.

Lemma split_lines_concat s : List.concat (split_lines s) = s.
Proof.
  induction s as [|c s IH]; [done|]. cbn [split_lines]. destruct (c =? 10); [cbn; by rewrite IH|].
  destruct (split_lines s) as [|l ls]; cbn in *; by rewrite <- IH.
Qed.

Definition go_line (line : str) : option Z := sqlserver_go_repeat_count (trim_end_matches (fun c => (c =? 13) || (c =? 10)) line).

(** The state after lines without a separator; [None] when there is one. *)
Fixpoint run_lines (lines : list str) (s : SqlServerBatchParseState) : option SqlServerBatchParseState :=
  match lines with
  | [] => Some s
  | line :: lines => if can_split s && is_some (go_line line) then None else run_lines lines (update_sqlserver_batch_parse_state line s)
  end.
(** A batch whose strings, identifiers and comments are closed, and which has
    no line that reads as a separator outside them. *)
Definition closed_batch (t : str) : Prop := run_lines (split_lines (t ++ [10])) default_state = Some default_state.
#[export] Instance closed_batch_dec t : Decision (closed_batch t).
Proof. unfold closed_batch. apply _. Defined.

Lemma batches_through lines : forall rest current s s', run_lines lines s = Some s' ->
  split_batches (lines ++ rest) current s = split_batches rest (current ++ List.concat lines) s'.
Proof.
  induction lines as [|line lines IH]; intros rest current s s'; cbn [run_lines app split_batches List.concat].
  { intros [= <-]. by rewrite app_nil_r. }
  fold (go_line line). destruct (can_split s), (go_line line); cbn [andb is_some is_some_and]; try done;
    intros H; rewrite (IH _ _ _ _ H); by rewrite <- app_assoc.
Qed.

Lemma trim_newline t : t <> [] -> trim t = t -> trim (t ++ [10]) = t.
Proof.
  intros N T. destruct (trim_ends t T N) as [(c & r & E & Wc) (l & d & E' & Wd)].
  unfold trim, trim_start, trim_start_matches. rewrite E at 1. cbn [app drop_while]. rewrite Wc. change (c :: r ++ [10]) with ((c :: r) ++ [10]).
  rewrite <- E. unfold trim_end, trim_end_matches. rewrite reverse_snoc. cbn [drop_while].
  change (is_whitespace 10) with true. cbn iota. rewrite E' at 1. rewrite reverse_snoc. cbn [drop_while]. rewrite Wd.
  rewrite E'. rewrite <- reverse_snoc. apply reverse_involutive.
Qed.

Lemma semicolon_trimmed t : t <> [] -> trim t = t -> ensure_semicolon t <> [] /\ trim (ensure_semicolon t) = ensure_semicolon t.
Proof.
  intros N T. unfold ensure_semicolon. rewrite T. destruct (ends_with _ t); [done|]. split; [by destruct t|].
  destruct (trim_ends t T N) as [(c & r & E & Wc) _]. apply (trim_bracketed _ (r ++ u ";") t c 59); [done|by vm_compute| |done].
  by rewrite E.
Qed.

Definition blank (ddl : str) : bool := is_empty (trim ddl).

Lemma split_batch ddl rest : blank ddl = false -> closed_batch (ensure_semicolon (trim ddl)) ->
  split_batches (split_lines (ensure_semicolon (trim ddl) ++ [10] ++ u "GO" ++ [10] ++ rest)) [] default_state
  = ensure_semicolon (trim ddl) :: split_batches (split_lines rest) [] default_state.
Proof.
  intros B C. set (t := ensure_semicolon (trim ddl)) in *.
  assert (Ht : t <> [] /\ trim t = t).
  { apply semicolon_trimmed; [unfold blank in B; by destruct (trim ddl)|apply trim_trimmed]. }
  change (t ++ [10] ++ u "GO" ++ [10] ++ rest) with (t ++ 10 :: (u "GO" ++ 10 :: rest)).
  rewrite split_lines_app, (split_lines_app (u "GO") rest). rewrite (batches_through _ _ [] _ _ C). cbn [app]. rewrite split_lines_concat.
  change (split_lines (u "GO" ++ [10])) with [u "GO" ++ [10]]. cbn [app split_batches].
  change (can_split default_state) with true. cbn iota.
  change (sqlserver_go_repeat_count _) with (Some 1). cbn iota. rewrite (trim_newline t) by apply Ht.
  assert (is_empty t = false) as -> by (destruct Ht as [? _]; by destruct t). done.
Qed.


(** ** The preview and the run *)

Section Reports.
Context (upper_char : char -> str).

(** The statements with their numbers, from 1. *)
Fixpoint numbered {A : Type} (i : Z) (l : list A) : list (Z * A) :=
  match l with [] => [] | x :: l => (i + 1, x) :: numbered (i + 1) l end.

Lemma preview_loop_exact statements : forall idx total recorded,
  preview_loop upper_char statements idx total recorded =
    let found := List.filter (fun p => is_dangerous_import_statement upper_char p.2) (numbered idx statements) in
    (total + zlen found,
     recorded ++ take (MAX_RECORDED_IMPORT_FAILURES - length recorded) (map (fun p => mkDangerous p.1 (summarize_import_statement p.2)) found)).
Proof.
  induction statements as [|stmt statements IH]; intros idx total recorded; cbn [preview_loop numbered List.filter snd].
  { cbn. rewrite take_nil, app_nil_r. f_equal. unfold zlen. simpl. lia. }
  destruct (is_dangerous_import_statement upper_char stmt); cbn [negb]; rewrite IH; [|done]. cbn zeta. cbn [map fst snd].
  rewrite zlen_cons. f_equal; [lia|]. destruct (_ <? _)%nat eqn:L.
  - apply Nat.ltb_lt in L. rewrite length_app. cbn [length]. rewrite <- app_assoc. cbn [app]. f_equal.
    replace (MAX_RECORDED_IMPORT_FAILURES - length recorded)%nat with (S (MAX_RECORDED_IMPORT_FAILURES - (length recorded + 1)))%nat by lia. done.
  - apply Nat.ltb_ge in L. by replace (MAX_RECORDED_IMPORT_FAILURES - length recorded)%nat with 0%nat by lia.
Qed.

Section Outcomes.
Context {W : Type} (run_one : str -> W -> result unit str * W).

(** The reference: every statement runs, each on the state the one before left. *)
Fixpoint outcomes (statements : list str) (w : W) : list (str * result unit str) * W :=
  match statements with
  | [] => ([], w)
  | stmt :: statements =>
    let '(r, w) := run_one stmt w in let '(l, w) := outcomes statements w in ((stmt, r) :: l, w)
  end.
Definition failures_of (l : list (Z * (str * result unit str))) : list ImportSqlStatementFailure :=
  omap (fun '(i, (stmt, r)) => match r with Err e => Some (mkFailure i (summarize_import_statement stmt) e) | Ok _ => None end) l.

Lemma import_loop_exact statements : forall i ok failed failures w,
  (length failures <= MAX_RECORDED_IMPORT_FAILURES)%nat ->
  import_loop run_one statements i ok failed failures w =
    let '(l, w') := outcomes statements w in
    let bad := failures_of (numbered i l) in
    (ok + zlen (List.filter (fun p => is_ok p.2) l), failed + zlen bad,
     failures ++ take (MAX_RECORDED_IMPORT_FAILURES - length failures) bad, w').
Proof.
  induction statements as [|stmt statements IH]; intros i ok failed failures w L; cbn [import_loop outcomes].
  { cbn. rewrite take_nil, app_nil_r. unfold zlen. simpl. f_equal. f_equal. f_equal; lia. }
  destruct (run_one stmt w) as [[[]|e] w1]; rewrite IH; try done.
  - destruct (outcomes statements w1) as [l w2]. cbn [numbered List.filter snd is_ok]. rewrite zlen_cons.
    unfold failures_of. cbn [omap list_omap]. f_equal. f_equal. f_equal. lia.
  - destruct (outcomes statements w1) as [l w2]. cbn [numbered List.filter snd is_ok].
    set (bad := failures_of (numbered (i + 1) l)).
    change (failures_of ((i + 1, (stmt, Err e)) :: numbered (i + 1) l)) with (mkFailure (i + 1) (summarize_import_statement stmt) e :: bad).
    rewrite zlen_cons. unfold record_import_failure. destruct (_ <=? _)%nat eqn:F.
    + apply Nat.leb_le in F. replace (MAX_RECORDED_IMPORT_FAILURES - length failures)%nat with 0%nat by lia. rewrite !take_0.
      f_equal. f_equal. f_equal. lia.
    + apply Nat.leb_gt in F. rewrite length_app. cbn [length]. rewrite <- app_assoc. cbn [app].
      replace (MAX_RECORDED_IMPORT_FAILURES - length failures)%nat with (S (MAX_RECORDED_IMPORT_FAILURES - (length failures + 1)))%nat by lia.
      cbn [take]. f_equal. f_equal. f_equal. lia.
  - unfold record_import_failure. destruct (_ <=? _)%nat eqn:F; [done|]. apply Nat.leb_gt in F. rewrite length_app. cbn [length]. lia.
Qed.

(** An import runs every statement of the file exactly once, in the order of
    the file, each on what the one before left, and goes on after a failure; it
    reports how many succeeded and failed, together all of them, and of the
    failed ones the first eighty with their numbers; and the preview of the same
    file counts, over the same statements, exactly those that are dangerous. *)
Theorem import_reports database_type sql_text w :
  let statements := split_import_sql_for_database_type database_type sql_text in
  let '(l, w') := outcomes statements w in
  let bad := failures_of (numbered 0 l) in
  (statements <> [] ->
   import_sql_file run_one database_type sql_text w
   = (Ok (mkImport (zlen statements) (zlen statements - zlen bad) (zlen bad) (take MAX_RECORDED_IMPORT_FAILURES bad)), w')) /\
  map fst l = statements /\
  let found := List.filter (fun p => is_dangerous_import_statement upper_char p.2) (numbered 0 statements) in
  preview_sql_file_dangerous_statements upper_char database_type sql_text
  = mkPreview (zlen statements) (zlen found)
      (take MAX_RECORDED_IMPORT_FAILURES (map (fun p => mkDangerous p.1 (summarize_import_statement p.2)) found)).
Proof.
  cbn zeta. set (statements := split_import_sql_for_database_type database_type sql_text).
  assert (O : forall ss w, map fst (outcomes ss w).1 = ss).
  { induction ss as [|s ss IH]; intros w0; [done|]. cbn [outcomes]. destruct (run_one s w0) as [r w1]. specialize (IH w1).
    destruct (outcomes ss w1) as [l w2]. cbn in *. by rewrite IH. }
  assert (C : forall i (l : list (str * result unit str)), zlen (List.filter (fun p => is_ok p.2) l) = zlen l - zlen (failures_of (numbered i l))).
  { intros i l. revert i. induction l as [|[s [[]|e]] l IH]; intros i; [done|..]; cbn [List.filter snd is_ok numbered].
    - change (failures_of ((i + 1, (s, Ok ())) :: numbered (i + 1) l)) with (failures_of (numbered (i + 1) l)).
      rewrite !zlen_cons, (IH (i + 1)). lia.
    - change (failures_of ((i + 1, (s, Err e)) :: numbered (i + 1) l)) with (mkFailure (i + 1) (summarize_import_statement s) e :: failures_of (numbered (i + 1) l)).
      rewrite !zlen_cons, (IH (i + 1)). lia. }
  pose proof (import_loop_exact statements 0 0 0 [] w (Nat.le_0_l _)) as X. specialize (O statements w).
  destruct (outcomes statements w) as [l w'] eqn:E. cbn [fst] in O. split; [|split; [exact O|]].
  - intros N. unfold import_sql_file. fold statements. assert (zlen statements =? 0 = false) as ->.
    { apply Z.eqb_neq. unfold zlen. destruct statements; [done|]. simpl. lia. }
    rewrite X. cbn [app length Nat.sub]. rewrite (C 0 l). rewrite <- O, zlen_map. rewrite Nat.sub_0_r. do 3 f_equal; lia.
  - unfold preview_sql_file_dangerous_statements. fold statements. rewrite preview_loop_exact. cbn [app length]. by rewrite Nat.sub_0_r.
Qed.

End Outcomes.
End Reports.

(** ** Witnesses and examples *)

Definition i_upper (c : char) : str := [ascii_upper c].
Definition i_ddls : list str :=
  [u "CREATE TABLE [a;b] (x int)"; u "  "; u "EXEC('" ++ [10] ++ u "GO" ++ [10] ++ u "')"; u "SELECT 1 -- GO"].


(** A comment in front of a statement hides it from the preview, and the import
    executes it. *)
Lemma comment_hides_danger :
  dangerous_statements_total (preview_sql_file_dangerous_statements i_upper (u "mysql") (u "-- clean up" ++ [10] ++ u "DROP DATABASE shop;")) = 0 /\
  split_import_sql_for_database_type (u "mysql") (u "-- clean up" ++ [10] ++ u "DROP DATABASE shop;") = [u "-- clean up" ++ [10] ++ u "DROP DATABASE shop"].
Proof. split; by vm_compute. Qed.

End SqlImport.
