(* ===== verification/MysqlQuery.v ===== *)
(** Executing and cancelling a MySQL query (src-tauri/src/db/mysql_query.rs,
    with the task of [execute_mysql_sql] in src-tauri/src/commands/data.rs).

    Executions, cancellations and the tasks that send KILL QUERY run
    concurrently.  A lock's critical section, a read of a watch channel and an
    answer of the server are the atomic steps of a world; a [Control] is an
    address, shared by the registry's entry, the guard and the cancellations. *)
From S2P Require Import Prelude RustText TableQuery.

Module MysqlQuery.

Definition CANCELLED : str := u "已请求取消查询".
Definition QueryKey : Type := str * str.

(** ** State *)

(** The options of the connection are those of its thread. *)
Inductive Phase : Type := Waiting | Running (thread_id : Z) | Cancelling | Finished.

Record Control : Type := mkControl { phase : Phase; requested : bool; outcome : option (result bool str) }.
Definition control_new (cancelled : bool) : Control :=
  mkControl (if cancelled then Cancelling else Waiting) cancelled (if cancelled then Some (Ok true) else None).

Definition set_phase (p : Phase) (k : Control) : Control := mkControl p (requested k) (outcome k).

(** [prune] is line for line that of the table queries; an [Active] control is
    their running token. *)
Definition prune (env : TableQuery.Env) (m : gmap QueryKey TableQuery.Entry) : gmap QueryKey TableQuery.Entry := TableQuery.prune env m.

(** Where an execution stands: before it has a connection, with a connection
    not yet attached, running user statements on it, with a result, waiting for
    the outcome of a cancellation, closing, done.  The threads are those of the
    connections it holds. *)
Section World.
Context {T : Type}.

Inductive Pc : Type :=
| Starting
| Connected (t : Z)
| Executing (t : Z)
| Settling (t : Z) (r : result T str)
| Awaiting (t : Z) (r : result T str)
| Closing (t : Z) (r : result T str)
| Done (r : result T str).

Record Execution : Type := mkExecution { x_key : QueryKey; x_pc : Pc }.

(** Execution [i] has control [i]; [kills] are the tasks that are sending a
    KILL: whose control, and to which thread. *)
Record World : Type := mkWorld {
  entries : gmap QueryKey TableQuery.Entry;
  controls : list Control;
  executions : list Execution;
  kills : list (nat * Z);
}.
Definition initial : World := mkWorld ∅ [] [] [].

(** ** The registry *)

Definition unconfirmed (error : str) : str := error ++ u "；查询是否已终止未确认，请刷新确认执行结果（可能已执行或提交）".

Definition register (env : TableQuery.Env) (key : QueryKey) (w : World) : result nat str * World :=
  let m := prune env (entries w) in
  let fresh cancelled :=
    let c := length (controls w) in
    (Ok c, mkWorld (<[key := TableQuery.Running c]> m) (controls w ++ [control_new cancelled]) (executions w ++ [mkExecution key Starting]) (kills w)) in
  match m !! key with
  | Some (TableQuery.Running _ | TableQuery.Finished _) => (Err (u "MySQL 查询执行标识已使用"), mkWorld m (controls w) (executions w) (kills w))
  | Some (TableQuery.Pending _) => fresh true
  | None => fresh false
  end.

(** What a cancellation does to the control it found: the reply, if it is known
    at once, the control, and the thread a KILL is started for. *)
Definition cancel_control (k : Control) : option (result bool str) * Control * option Z :=
  match phase k with
  | Finished => (Some (Ok false), k, None)
  | Cancelling => (outcome k, k, None)
  | Waiting => (Some (Ok true), mkControl Cancelling true (Some (Ok true)), None)
  | Running t => (None, mkControl Cancelling true (outcome k), Some t)
  end.

(** [None] as the reply: the caller waits for the outcome. *)
Definition cancel (env : TableQuery.Env) (at_ : Z) (env2 : TableQuery.Env) (key : QueryKey) (w : World) : option (result bool str) * World :=
  let m := prune env (entries w) in
  let w := mkWorld m (controls w) (executions w) (kills w) in
  match m !! key with
  | Some (TableQuery.Running c) =>
    match controls w !! c with
    | Some k =>
      let '(reply, k, kill) := cancel_control k in
      (reply, mkWorld m (<[c := k]> (controls w)) (executions w) (kills w ++ match kill with Some t => [(c, t)] | None => [] end))
    | None => (None, w)
    end
  | Some (TableQuery.Finished _) => (Some (Ok false), w)
  | Some (TableQuery.Pending _) => (Some (Ok true), w)
  | None => (Some (Ok true), mkWorld (prune env2 (<[key := TableQuery.Pending at_]> m)) (controls w) (executions w) (kills w))
  end.

(** The end of a KILL task: the transport's answer, its panic, or the timeout
    that drops it. *)
Inductive KillEnd : Type := KillSent | KillFailed (e : str) | KillPanicked | KillTimeout.
Definition kill_result (e : KillEnd) : result bool str :=
  match e with
  | KillSent => Ok true
  | KillFailed e => Err (unconfirmed (u "取消查询失败: " ++ e))
  | KillPanicked => Err (unconfirmed (u "取消任务异常退出"))
  | KillTimeout => Err (unconfirmed (u "取消查询超时"))
  end.

(** ** The execution *)

(** [run]: the result of the work, seen against the flag as it is then; [None]:
    the flag came first. *)
Definition run {A} (flag : bool) (r : option (result A str)) : result A str :=
  match r with
  | None => Err CANCELLED
  | Some (Err e) => Err e
  | Some (Ok x) => if flag then Err CANCELLED else Ok x
  end.

Definition attach_connection (t : Z) (k : Control) : result unit str * Control :=
  match phase k with
  | Waiting => (Ok tt, set_phase (Running t) k)
  | Cancelling => (Err CANCELLED, k)
  | Running _ => (Err (u "MySQL 查询已绑定连接"), k)
  | Finished => (Err (u "MySQL 查询已完成"), k)
  end.

(** [settle]'s critical section: whether the outcome has to be waited for. *)
Definition settle (k : Control) : bool * Control :=
  match phase k with Cancelling => (true, k) | _ => (false, set_phase Finished k) end.

(** [finish_connection]: the result after a cancellation's outcome, and after
    the connection was closed. *)
Definition merge_outcome (r : result T str) (o : result bool str) : result T str :=
  match r, o with
  | Err original, Err cleanup => Err (original ++ u "；" ++ cleanup)
  | Ok _, Err cleanup => Err cleanup
  | Err original, Ok _ => Err original
  | Ok _, Ok _ => Err CANCELLED
  end.
Definition close_needed (r : result T str) (flag : bool) : bool := negb (is_ok r) || flag.
Definition merge_close (r : result T str) (flag : bool) (closed : result unit str) : result T str :=
  if close_needed r flag then
    match closed with
    | Ok _ => r
    | Err e =>
      let cleanup := unconfirmed (u "原连接清理失败: " ++ e) in
      Err (match r with Err original => original ++ u "；" ++ cleanup | Ok _ => cleanup end)
    end
  else r.

(** Dropping the guard. *)
Definition drop_guard (env : TableQuery.Env) (at_ : Z) (c : nat) (key : QueryKey) (m : gmap QueryKey TableQuery.Entry) :
  gmap QueryKey TableQuery.Entry :=
  match m !! key with
  | Some (TableQuery.Running c') => if (c' =? c)%nat then prune env (<[key := TableQuery.Finished at_]> m) else m
  | _ => m
  end.

Definition holds (p : Pc) : option Z :=
  match p with
  | Starting | Done _ => None
  | Connected t | Executing t | Settling t _ | Awaiting t _ | Closing t _ => Some t
  end.

Definition move (c : nat) (p : Pc) (k : Control) (w : World) : World :=
  mkWorld (entries w) (<[c := k]> (controls w)) (alter (fun x => mkExecution (x_key x) p) c (executions w)) (kills w).
Definition finish (env : TableQuery.Env) (at_ : Z) (c : nat) (key : QueryKey) (r : result T str) (k : Control) (w : World) : World :=
  let w := move c (Done r) (set_phase Finished k) w in
  mkWorld (drop_guard env at_ c key (entries w)) (controls w) (executions w) (kills w).

(** The pool gives out a connection that nobody holds. *)
Definition free (t : Z) (w : World) : Prop := forall x, x ∈ executions w -> holds (x_pc x) <> Some t.

Inductive step : World -> World -> Prop :=
| step_register w env key : step w (register env key w).2
| step_cancel w env at_ env2 key : step w (cancel env at_ env2 key w).2
| step_kill_end w a b c t k e :
    kills w = a ++ (c, t) :: b -> controls w !! c = Some k ->
    step w (mkWorld (entries w) (<[c := mkControl (phase k) (requested k) (Some (kill_result e))]> (controls w)) (executions w) (a ++ b))
| step_acquire w c key k t :
    executions w !! c = Some (mkExecution key Starting) -> controls w !! c = Some k ->
    run (requested k) (Some (Ok tt)) = Ok tt -> free t w -> step w (move c (Connected t) k w)
| step_not_acquired w env at_ c key k got e :
    executions w !! c = Some (mkExecution key Starting) -> controls w !! c = Some k ->
    run (A := T) (requested k) got = Err e -> (got = None -> requested k = true) -> step w (finish env at_ c key (Err e) k w)
| step_attach w c key k t :
    executions w !! c = Some (mkExecution key (Connected t)) -> controls w !! c = Some k ->
    step w (move c (match (attach_connection t k).1 with Ok _ => Executing t | Err e => Settling t (Err e) end) (attach_connection t k).2 w)
| step_executed w c key k t got :
    executions w !! c = Some (mkExecution key (Executing t)) -> controls w !! c = Some k ->
    (got = None -> requested k = true) -> step w (move c (Settling t (run (requested k) got)) k w)
| step_settle w c key k t r :
    executions w !! c = Some (mkExecution key (Settling t r)) -> controls w !! c = Some k ->
    step w (move c (if (settle k).1 then Awaiting t r else Closing t r) (settle k).2 w)
| step_outcome w c key k t r o :
    executions w !! c = Some (mkExecution key (Awaiting t r)) -> controls w !! c = Some k -> outcome k = Some o ->
    step w (move c (Closing t (merge_outcome r o)) k w)
| step_close w env at_ c key k t r closed :
    executions w !! c = Some (mkExecution key (Closing t r)) -> controls w !! c = Some k ->
    step w (finish env at_ c key (merge_close r (requested k) closed) k w).

Definition reachable (w : World) : Prop := rtc step initial w.

(** ** The invariant of one execution *)

Definition kills_of (c : nat) (l : list (nat * Z)) : list (nat * Z) := List.filter (fun p => (p.1 =? c)%nat) l.
(** No cancellation yet. *)
Definition quiet (p : Phase) (k : Control) : Prop := phase k = p /\ requested k = false /\ outcome k = None.
(** A cancellation whose outcome is known, or whose KILL is under way to [t]. *)
Definition told (k : Control) : Prop := requested k = true /\ outcome k <> None.
Definition being_cancelled (t : Z) (ts : list Z) (k : Control) : Prop :=
  phase k = Cancelling /\ requested k = true /\ ((ts = [] /\ outcome k <> None) \/ (ts = [t] /\ outcome k = None)).

(** [ts]: the threads of the KILL tasks of this execution. *)
Definition pc_ok (p : Pc) (k : Control) (ts : list Z) : Prop :=
  match p with
  | Starting | Connected _ => ts = [] /\ (quiet Waiting k \/ (phase k = Cancelling /\ told k))
  | Executing t | Settling t _ => (ts = [] /\ quiet (Running t) k) \/ being_cancelled t ts k
  | Awaiting t _ => being_cancelled t ts k
  | Closing _ r => ts = [] /\ (quiet Finished k \/ (phase k = Cancelling /\ told k /\ is_ok r = false))
  | Done r => ts = [] /\ phase k = Finished /\ (quiet Finished k \/ (told k /\ is_ok r = false))
  end.

Record inv (w : World) : Prop := {
  inv_length : length (controls w) = length (executions w);
  inv_pc c x k : executions w !! c = Some x -> controls w !! c = Some k -> pc_ok (x_pc x) k (map snd (kills_of c (kills w)));
  inv_held c c' x x' t : executions w !! c = Some x -> executions w !! c' = Some x' ->
    holds (x_pc x) = Some t -> holds (x_pc x') = Some t -> c = c';
  inv_kills c t : (c, t) ∈ kills w -> (c < length (controls w))%nat;
}.

Lemma kills_of_app c a b : kills_of c (a ++ b) = kills_of c a ++ kills_of c b.
Proof. apply List.filter_app. Qed.
Lemma kills_of_none c l : (forall c' t, (c', t) ∈ l -> (c' < c)%nat) -> kills_of c l = [].
Proof.
  induction l as [|[c' t] l IH]; intros H; [done|]. unfold kills_of in *. cbn [List.filter fst].
  assert (c' < c)%nat by (apply (H c' t); left). destruct (Nat.eqb_spec c' c); [lia|]. apply IH. intros c2 t2 I. apply (H c2 t2). by right.
Qed.
Lemma kills_of_other c c' t : c' <> c -> kills_of c [(c', t)] = [].
Proof. intros N. unfold kills_of. cbn [List.filter fst]. by destruct (Nat.eqb_spec c' c). Qed.
Lemma kills_of_same c t : kills_of c [(c, t)] = [(c, t)].
Proof. unfold kills_of. cbn [List.filter fst]. by rewrite Nat.eqb_refl. Qed.

(** *** Steps of one execution *)

Lemma move_inv c key p p' k k' (w : World) :
  inv w -> executions w !! c = Some (mkExecution key p) -> controls w !! c = Some k ->
  pc_ok p' k' (map snd (kills_of c (kills w))) ->
  (forall t, holds p' = Some t -> holds p = Some t \/ free t w) -> inv (move c p' k' w).
Proof.
  intros [I1 I2 I3 I4] E K P Ht.
  assert (El : forall c' x, executions (move c p' k' w) !! c' = Some x ->
     (c' = c /\ x = mkExecution key p') \/ (c' <> c /\ executions w !! c' = Some x)).
  { intros c' x. cbn [executions move]. destruct (decide (c' = c)) as [->|N].
    - rewrite list_lookup_alter_eq, E. intros [= <-]. left. split; [done|reflexivity].
    - rewrite list_lookup_alter_ne by done. by right. }
  assert (Free : forall c' x t, c' <> c -> executions w !! c' = Some x -> holds (x_pc x) = Some t -> holds p' = Some t -> False).
  { intros c' x t N L Hx Hp. destruct (Ht t Hp) as [Hp0|F].
    - apply N. by apply (I3 c' c x (mkExecution key p) t).
    - apply (F x); [by eapply list_elem_of_lookup_2|done]. }
  split.
  - cbn [controls executions move]. by rewrite length_insert, length_alter.
  - intros c' x k0 [[-> ->]|[N L]]%El; cbn [controls move kills].
    + rewrite list_lookup_insert_eq by (by eapply lookup_lt_Some). intros [= <-]. exact P.
    + rewrite list_lookup_insert_ne by done. by apply I2.
  - intros c1 c2 x1 x2 t [[-> ->]|[N1 L1]]%El [[-> ->]|[N2 L2]]%El H1 H2; cbn [x_pc] in *; try done.
    + exfalso. by apply (Free c2 x2 t).
    + exfalso. by apply (Free c1 x1 t).
    + by apply (I3 c1 c2 x1 x2 t).
  - intros c' t. cbn [controls move kills]. rewrite length_insert. apply I4.
Qed.

Lemma entries_inv m (w : World) : inv w -> inv (mkWorld m (controls w) (executions w) (kills w)).
Proof. intros [I1 I2 I3 I4]. by split. Qed.

Lemma finish_inv env at_ c key p r k (w : World) :
  inv w -> executions w !! c = Some (mkExecution key p) -> controls w !! c = Some k ->
  pc_ok (Done r) (set_phase Finished k) (map snd (kills_of c (kills w))) -> inv (finish env at_ c key r k w).
Proof.
  intros I E K P. unfold finish. apply (entries_inv _ (move c (Done r) (set_phase Finished k) w)).
  by apply (move_inv c key p (Done r) k).
Qed.

Lemma pc_of c key p k (w : World) : inv w -> executions w !! c = Some (mkExecution key p) -> controls w !! c = Some k ->
  pc_ok p k (map snd (kills_of c (kills w))).
Proof. intros I E K. exact (inv_pc w I c _ k E K). Qed.

Lemma register_inv env key (w : World) : inv w -> inv (register env key w).2.
Proof.
  intros I. unfold register. assert (New : forall b, inv (mkWorld (<[key := TableQuery.Running (length (controls w))]> (prune env (entries w)))
     (controls w ++ [control_new b]) (executions w ++ [mkExecution key Starting]) (kills w))).
  { intros b. destruct I as [I1 I2 I3 I4].
    assert (El : forall c x, (executions w ++ [mkExecution key Starting]) !! c = Some x ->
       executions w !! c = Some x \/ (c = length (controls w) /\ x = mkExecution key Starting)).
    { intros c x [L|[G L]]%lookup_app_Some; [by left|]. right. apply list_lookup_singleton_Some in L as [L <-]. split; [lia|done]. }
    split; cbn [controls executions kills].
    - rewrite !length_app. simpl. lia.
    - intros c x k [L|[-> ->]]%El Lk.
      + apply I2; [done|]. apply lookup_lt_Some in L. rewrite lookup_app_l in Lk by lia. done.
      + rewrite lookup_app_r, Nat.sub_diag in Lk by done. injection Lk as <-.
        rewrite kills_of_none by (intros c' t; apply I4). split; [done|]. destruct b; [right; by repeat split|by left].
    - intros c c' x x' t [L|[-> ->]]%El [L'|[-> ->]]%El Hx Hx'; try done. by eapply I3.
    - intros c t Hk%I4. rewrite length_app. lia. }
  destruct (prune env (entries w) !! key) as [[]|]; try apply New; by apply entries_inv.
Qed.

Lemma cancel_inv env at_ env2 key (w : World) : inv w -> inv (cancel env at_ env2 key w).2.
Proof.
  intros I. unfold cancel. destruct (prune env (entries w) !! key) as [[c|a|a]|]; [|apply (entries_inv _ w I)..].
  destruct (controls w !! c) as [k|] eqn:K; cbn [controls]; rewrite K; [|apply (entries_inv _ w I)].
  pose proof I as [I1 I2 I3 I4]. assert (Lx : (c < length (executions w))%nat) by (rewrite <- I1; by eapply lookup_lt_Some).
  destruct (lookup_lt_is_Some_2 _ _ Lx) as [x E]. pose proof (I2 c x k E K) as P.
  destruct (cancel_control k) as [[reply k'] kill] eqn:C. cbn [snd executions kills].
  assert (Q : forall ks', map snd (kills_of c ks') = map snd (kills_of c (kills w)) ++ match kill with Some t => [t] | None => [] end ->
     pc_ok (x_pc x) k' (map snd (kills_of c ks'))).
  { intros ks' ->. unfold cancel_control in C. destruct (phase k) as [|t| |] eqn:Ph; injection C as <- <- <-; rewrite ?app_nil_r; try exact P.
    - destruct (x_pc x) as [|t|t|t r|t r|t r|r]; cbn [pc_ok] in P |- *; unfold quiet, told, being_cancelled in *; rewrite ?Ph in P;
        cbn [phase requested outcome]; try (destruct P as [-> _]; split; [done|right; split; [reflexivity|split; [reflexivity|discriminate]]]);
        exfalso; destruct_and?; destruct_or?; destruct_and?; destruct_or?; destruct_and?; congruence.
    - destruct (x_pc x) as [|t'|t'|t' r|t' r|t' r|r]; cbn [pc_ok] in P |- *; unfold quiet, told, being_cancelled in *; rewrite ?Ph in P;
        cbn [phase requested outcome].
      all: destruct_and?; destruct_or?; destruct_and?; destruct_or?; destruct_and?; try congruence.
      all: right; split; [done|]; split; [done|]; right.
      all: match goal with H : _ = [] |- _ => rewrite H end; match goal with H : Running _ = Running _ |- _ => injection H as -> end; done. }
  split; cbn [controls executions kills].
  - by rewrite length_insert.
  - intros c' x' k0 L. destruct (decide (c' = c)) as [->|N].
    + rewrite E in L. injection L as <-. rewrite list_lookup_insert_eq by (by eapply lookup_lt_Some). intros [= <-].
      apply Q. rewrite kills_of_app, map_app. f_equal. destruct kill; [by rewrite kills_of_same|done].
    + rewrite list_lookup_insert_ne by done. intros Lk. rewrite kills_of_app.
      replace (kills_of c' match kill with Some t => [(c, t)] | None => [] end) with ([] : list (nat * Z)).
      * rewrite app_nil_r. by apply I2.
      * destruct kill; [|done]. by rewrite kills_of_other.
  - exact I3.
  - intros c' t. rewrite length_insert. intros [Hk|Hk]%elem_of_app; [by apply I4 in Hk|].
    destruct kill; [|by apply elem_of_nil in Hk]. apply list_elem_of_singleton in Hk as [= -> ->]. by eapply lookup_lt_Some.
Qed.

Lemma kill_end_inv (w : World) a b c t k e :
  inv w -> kills w = a ++ (c, t) :: b -> controls w !! c = Some k ->
  inv (mkWorld (entries w) (<[c := mkControl (phase k) (requested k) (Some (kill_result e))]> (controls w)) (executions w) (a ++ b)).
Proof.
  intros [I1 I2 I3 I4] E K. assert (Lx : (c < length (executions w))%nat) by (rewrite <- I1; by eapply lookup_lt_Some).
  split; cbn [controls executions kills].
  - by rewrite length_insert.
  - intros c' x k0 L. assert (Ek : kills_of c' (kills w) = kills_of c' a ++ kills_of c' [(c, t)] ++ kills_of c' b).
    { rewrite E. change ((c, t) :: b) with ([(c, t)] ++ b). by rewrite !kills_of_app. }
    destruct (decide (c' = c)) as [->|N].
    + rewrite list_lookup_insert_eq by (by eapply lookup_lt_Some). intros [= <-]. pose proof (I2 c x k L K) as P.
      rewrite Ek, kills_of_same, !map_app in P. rewrite kills_of_app, map_app. cbn [map snd] in P.
      set (ka := map snd (kills_of c a)) in *. set (kb := map snd (kills_of c b)) in *.
      assert (Nn : ka ++ [t] ++ kb <> []) by (by destruct ka).
      assert (One : forall t', ka ++ [t] ++ kb = [t'] -> ka ++ kb = []).
      { intros t' Q. destruct ka as [|? [|]], kb; cbn in *; congruence. }
      destruct (x_pc x) as [|t'|t'|t' r|t' r|t' r|r]; cbn [pc_ok] in P |- *; unfold quiet, told, being_cancelled in *;
        cbn [phase requested outcome]; destruct_and?; destruct_or?; destruct_and?; destruct_or?; destruct_and?; try (exfalso; apply Nn; assumption).
      all: match goal with H : _ = [_] |- _ => rewrite (One _ H) end.
      1, 2: right.
      all: split; [assumption|]; split; [assumption|]; left; split; [reflexivity|discriminate].
    + rewrite list_lookup_insert_ne by done. intros Lk. pose proof (I2 c' x k0 L Lk) as P.
      rewrite Ek, kills_of_other in P by done. cbn [app] in P. by rewrite kills_of_app.
  - exact I3.
  - intros c' t'. rewrite length_insert. intros H. apply (I4 c' t'). rewrite E. apply elem_of_app.
    apply elem_of_app in H as [H|H]; [by left|]. right. by right.
Qed.

(** *** Every step *)

Lemma run_error flag (r : option (result T str)) : flag = true -> is_ok (run flag r) = false.
Proof. intros ->. destruct r as [[]|]; done. Qed.

Lemma mysql_step_inv (w w' : World) : inv w -> step w w' -> inv w'.
Proof.
  intros I S. destruct S as [w env key|w env at_ env2 key|w a b c t k e E K|w c key k t E K R F|w env at_ c key k got e E K R G
    |w c key k t E K|w c key k t got E K G|w c key k t r E K|w c key k t r o E K O|w env at_ c key k t r closed E K].
  - by apply register_inv.
  - by apply cancel_inv.
  - by eapply kill_end_inv.
  - pose proof (pc_of c key _ k w I E K) as P. apply (move_inv c key Starting (Connected t) k k w I E K); [exact P|].
    intros t' [= <-]. by right.
  - pose proof (pc_of c key _ k w I E K) as [P1 P2]. apply (finish_inv env at_ c key Starting (Err e) k w I E K).
    split; [exact P1|]. split; [reflexivity|]. unfold quiet, told in *. cbn [set_phase phase requested outcome].
    destruct P2 as [(_ & A & B)|(_ & A & B)]; [left|right]; by split_and!.
  - pose proof (pc_of c key _ k w I E K) as [P1 P2]. apply (move_inv c key (Connected t) _ k _ w I E K).
    + unfold attach_connection, quiet, told in *. destruct P2 as [(Hp & A & B)|(Hp & A & B)]; rewrite Hp; cbn [fst snd pc_ok].
      * left. split; [exact P1|]. by split_and!.
      * right. unfold being_cancelled. split_and!; [exact Hp|exact A|left; by split].
    + intros t'. unfold attach_connection. destruct (phase k); cbn [fst]; intros [= <-]; by left.
  - pose proof (pc_of c key _ k w I E K) as P. apply (move_inv c key (Executing t) _ k k w I E K); [|intros t' [= <-]; by left].
    destruct (run (requested k) got); exact P.
  - pose proof (pc_of c key _ k w I E K) as P. apply (move_inv c key (Settling t r) _ k _ w I E K).
    + cbn [pc_ok] in P. unfold settle. destruct P as [(P1 & Q1 & Q2 & Q3)|(Q1 & Q2 & Q3)]; rewrite Q1; cbn [fst snd pc_ok].
      * split; [exact P1|]. left. by split_and!.
      * split_and!; done.
    + intros t'. unfold settle. destruct (phase k); cbn [fst]; intros [= <-]; by left.
  - pose proof (pc_of c key _ k w I E K) as (Q1 & Q2 & Q3). apply (move_inv c key (Awaiting t r) _ k k w I E K); [|intros t' [= <-]; by left].
    destruct Q3 as [[Q3 Q4]|[_ Q4]]; [|congruence]. split; [exact Q3|]. right. split; [done|]. split; [done|]. by destruct r, o.
  - pose proof (pc_of c key _ k w I E K) as [P1 P2]. apply (finish_inv env at_ c key (Closing t r) _ k w I E K).
    split; [exact P1|]. split; [reflexivity|]. unfold quiet, told in *. cbn [set_phase phase requested outcome].
    destruct P2 as [(_ & A & B)|(_ & (A & B) & C)]; [left; by split_and!|right]. split; [done|].
    unfold merge_close, close_needed. destruct r; [done|]. cbn [is_ok negb orb]. by destruct closed.
Qed.

Lemma mysql_initial_inv : inv initial.
Proof. split; cbn; try done; intros *; try (by rewrite lookup_nil); by intros ?%elem_of_nil. Qed.

Lemma mysql_reachable_inv (w : World) : reachable w -> inv w.
Proof.
  unfold reachable. generalize mysql_initial_inv. generalize initial. intros w0 I R.
  induction R as [|w w1 w2 S _ IH]; [done|]. apply IH. by apply (mysql_step_inv w).
Qed.

(** C14: cancelling a MySQL query, under any interleaving of executions,
    cancellations and KILL tasks.  A KILL that is under way goes to the
    connection of the execution it was asked for, which that execution still
    holds and no other does, so that it never hits another query; there is one
    at most per execution.  An execution that has ended was either never
    cancelled, or it was and its result is an error; so nobody is told that a
    query was cancelled which then succeeds.  And a cancellation that waits for
    its outcome always waits for a KILL task that is still to end. *)
Theorem cancellation_safe (w : World) :
  reachable w ->
  (forall c t, (c, t) ∈ kills w ->
     kills_of c (kills w) = [(c, t)] /\
     (exists x, executions w !! c = Some x /\ holds (x_pc x) = Some t /\ match x_pc x with Executing _ | Settling _ _ | Awaiting _ _ => True | _ => False end) /\
     (forall c' x', executions w !! c' = Some x' -> holds (x_pc x') = Some t -> c' = c)) /\
  (forall c key r k, executions w !! c = Some (mkExecution key (Done r)) -> controls w !! c = Some k ->
     (requested k = false /\ outcome k = None) \/ (requested k = true /\ outcome k <> None /\ is_ok r = false)) /\
  (forall env at_ env2 key, let '(reply, w') := cancel env at_ env2 key w in
     reply = None -> exists c t, prune env (entries w) !! key = Some (TableQuery.Running c) /\
       (controls w !! c = None \/ (c, t) ∈ kills w')).
Proof.
  intros [I1 I2 I3 I4]%mysql_reachable_inv. split_and!.
  - intros c t Hk. pose proof (I4 c t Hk) as Lc. destruct (lookup_lt_is_Some_2 _ _ Lc) as [k K].
    rewrite I1 in Lc. destruct (lookup_lt_is_Some_2 _ _ Lc) as [x E]. pose proof (I2 c x k E K) as P.
    assert (Hin : t ∈ map snd (kills_of c (kills w))).
    { apply (list_elem_of_fmap_2 snd _ (c, t)). apply list_elem_of_In, filter_In. split; [by apply list_elem_of_In|]. apply Nat.eqb_refl. }
    assert (Shape : forall t', map snd (kills_of c (kills w)) = [t'] -> kills_of c (kills w) = [(c, t')]).
    { intros t'. destruct (kills_of c (kills w)) as [|[c1 t1] [|]] eqn:Ek; cbn; intros [= ->]. do 2 f_equal.
      assert (In1 : In (c1, t') (kills_of c (kills w))) by (rewrite Ek; by left).
      apply filter_In in In1 as [_ In1]. by apply Nat.eqb_eq in In1. }
    assert (Bc : forall t', being_cancelled t' (map snd (kills_of c (kills w))) k -> t' = t /\ kills_of c (kills w) = [(c, t)]).
    { intros t' (_ & _ & [[A _]|[A _]]); rewrite A in Hin; [by apply elem_of_nil in Hin|]. apply list_elem_of_singleton in Hin as ->.
      split; [done|by apply Shape]. }
    assert (Nil : map snd (kills_of c (kills w)) = [] -> False) by (intros A; rewrite A in Hin; by apply elem_of_nil in Hin).
    assert (H : kills_of c (kills w) = [(c, t)] /\ holds (x_pc x) = Some t /\
       match x_pc x with Executing _ | Settling _ _ | Awaiting _ _ => True | _ => False end).
    { destruct (x_pc x) as [|t'|t'|t' r|t' r|t' r|r]; cbn [pc_ok] in P; try (exfalso; by apply Nil, P).
      - destruct P as [[A _]|B]; [by destruct (Nil A)|]. by apply Bc in B as [-> ?].
      - destruct P as [[A _]|B]; [by destruct (Nil A)|]. by apply Bc in B as [-> ?].
      - by apply Bc in P as [-> ?]. }
    destruct H as (H1 & H2 & H3). split; [exact H1|]. split; [by exists x|].
    intros c' x' E' H'. by apply (I3 c' c x' x t).
  - intros c key r k E K. destruct (I2 c _ k E K) as (_ & _ & [(_ & A & B)|((A & B) & C)]); [by left|by right].
  - intros env at_ env2 key. unfold cancel. destruct (prune env (entries w) !! key) as [[c|a|a]|] eqn:L; try done.
    cbn [controls]. destruct (controls w !! c) as [k|] eqn:K; [|intros _; exists c, 0; split; [done|by left]].
    destruct (cancel_control k) as [[reply k'] kill] eqn:C. intros ->.
    assert (Lc : (c < length (executions w))%nat) by (rewrite <- I1; by eapply lookup_lt_Some).
    destruct (lookup_lt_is_Some_2 _ _ Lc) as [x E]. pose proof (I2 c x k E K) as P.
    unfold cancel_control in C. cbn [kills]. destruct (phase k) as [|t| |] eqn:Ph; try discriminate C.
    + injection C as _ <-. exists c, t. split; [done|]. right. apply elem_of_app. right. left.
    + injection C as O _ <-. rewrite app_nil_r.
      assert (B : exists t, map snd (kills_of c (kills w)) = [t]).
      { destruct (x_pc x) as [|t'|t'|t' r|t' r|t' r|r]; cbn [pc_ok] in P; unfold quiet, told, being_cancelled in P; rewrite ?Ph, ?O in P;
          destruct_and?; destruct_or?; destruct_and?; destruct_or?; destruct_and?; try congruence; by exists t'. }
      destruct B as [t Et]. exists c, t. split; [done|]. right.
      assert (Ht : t ∈ map snd (kills_of c (kills w))) by (rewrite Et; left).
      apply list_elem_of_fmap in Ht as ([c1 t1] & Et1 & Ht). cbn in Et1. subst t1. apply list_elem_of_In, filter_In in Ht as [Ht Ec].
      cbn in Ec. apply Nat.eqb_eq in Ec as ->. by apply list_elem_of_In.
Qed.

End World.

(** The witness: a running query is cancelled, and the KILL is under way. *)
Definition m_env : TableQuery.Env := TableQuery.mkEnv 0 map_to_list.
Definition m_key : QueryKey := (u "c", u "e").
Definition m_world : World (T := unit) :=
  mkWorld {[m_key := TableQuery.Running 0%nat]} [mkControl Cancelling true None] [mkExecution m_key (Executing 7)] [(0%nat, 7)].

Lemma m_reachable : reachable m_world.
Proof.
  apply rtc_l with (register m_env m_key initial).2; [constructor|].
  apply rtc_l with (mkWorld {[m_key := TableQuery.Running 0%nat]} [mkControl Waiting false None] [mkExecution m_key (Connected 7)] []).
  { replace (mkWorld _ _ _ _) with (move 0 (Connected 7) (mkControl Waiting false None) (register (T := unit) m_env m_key initial).2) by (by vm_compute).
    apply step_acquire with m_key; [done|done|done|]. intros x Hx. apply list_elem_of_singleton in Hx as ->. done. }
  apply rtc_l with (mkWorld {[m_key := TableQuery.Running 0%nat]} [mkControl (Running 7) false None] [mkExecution m_key (Executing 7)] []).
  { match goal with |- step ?a ?b => replace b with (move 0 (Executing 7) (mkControl (Running 7) false None) a) by (by vm_compute) end.
    by apply (step_attach _ 0 m_key (mkControl Waiting false None) 7). }
  apply rtc_once.
  replace m_world with (cancel (T := unit) m_env 0 m_env m_key (mkWorld {[m_key := TableQuery.Running 0%nat]} [mkControl (Running 7) false None] [mkExecution m_key (Executing 7)] [])).2 by (by vm_compute).
  constructor.
Qed.

Lemma cancellation_safe_witness :
  exists x, executions m_world !! 0%nat = Some x /\ holds (x_pc x) = Some 7 /\
    kills_of 0 (kills m_world) = [(0%nat, 7)].
Proof.
  destruct (cancellation_safe m_world m_reachable) as (H & _). destruct (H 0%nat 7) as (K & (x & E & L & _) & _); [left|].
  exists x. split; [exact E|]. split; [exact L|exact K].
Defined.

End MysqlQuery.
