(* ===== verification/RowEdits.v ===== *)
(** The checks and statements of single edits and of the SQL editor on MySQL
    (src-tauri/src/commands/data.rs), and the guard of the filters of table
    pages (src-tauri/src/db/sql_utils.rs, [validate_where_clause]). *)
From S2P Require Import Prelude RustText DeferredFields JsonValue.
Import JsonValue DeferredFields.

Module RowEdits.

Section Text.
Context (upper_char : char -> str).

(** ** The filter of a page *)

Definition where_keywords : list String.string :=
  [" UNION "; " UNION("; " INTO OUTFILE "; " INTO DUMPFILE "; " LOAD_FILE("; " BENCHMARK("; " SLEEP("; " EXECUTE "; " EXECUTE("; " LOAD DATA "]%string.

Definition validate_where_clause (clause : str) : result unit str :=
  let clause := trim clause in
  if is_empty clause then Ok tt
  else if contains_char 59 clause then Err (u "WHERE 子句包含非法字符")
  else if contains (u "--") clause then Err (u "WHERE 子句包含非法注释")
  else if contains (u "/*") clause || contains (u "*/") clause then Err (u "WHERE 子句包含非法注释")
  else
    let normalized := join (u " ") (split_whitespace clause) in
    let upper := u " " ++ to_uppercase upper_char normalized ++ u " " in
    if existsb (fun kw => contains (u kw) upper) where_keywords then Err (u "WHERE 子句包含非法关键字") else Ok tt.

Definition validate_table_page_size (page_size : Z) : result unit str :=
  if (1 <=? page_size) && (page_size <=? 10000) then Ok tt else Err (u "每页行数必须在 1–10,000 之间").

(** ** The editor *)

Definition MAX_SQL_LENGTH : Z := 1000000.
Definition validate_sql_input (sql : str) : result unit str :=
  let trimmed := trim sql in
  if is_empty trimmed then Err (u "SQL 语句不能为空")
  else if MAX_SQL_LENGTH <? str_len trimmed then Err (u "SQL 语句过长，超过最大限制 " ++ show_Z MAX_SQL_LENGTH ++ u " 字节")
  else Ok tt.
Definition is_use_statement (sql : str) : bool :=
  let upper := to_uppercase upper_char (trim sql) in starts_with (u "USE ") upper || str_eqb upper (u "USE").
Definition sql_editor_returns_result_set (sql : str) : bool :=
  let upper := to_uppercase upper_char (trim sql) in
  existsb (fun p => starts_with (u p) upper) ["SELECT"; "SHOW"; "DESCRIBE"; "DESC"; "WITH"; "EXPLAIN"; "TABLE "]%string.

(** What [run_sql_on_conn] does with a statement. *)
Inductive EditorAction : Type := ReadRows | RunStatement | RefuseReadOnly.
Definition run_sql_on_conn (sql : str) (read_only : bool) : EditorAction :=
  if sql_editor_returns_result_set sql then ReadRows
  else if is_use_statement sql then RunStatement
  else if read_only then RefuseReadOnly else RunStatement.

(** ** Grants *)

Definition read_privileges : list String.string :=
  ["USAGE"; "SELECT"; "SHOW VIEW"; "SHOW DATABASES"; "LOCK TABLES"; "REPLICATION SLAVE"; "REPLICATION CLIENT"; "PROCESS"]%string.
Definition privilege_implies_write (part : str) : bool :=
  let seg := trim part in
  negb (is_empty seg)
  && let seg := to_uppercase upper_char seg in negb (one_of seg read_privileges) && negb (starts_with (u "SELECT (") seg).
Definition privilege_list_implies_write (list : str) : bool :=
  contains (u "ALL PRIVILEGES") (to_uppercase upper_char list) || existsb privilege_implies_write (split_char 44 list).

End Text.

(** ** Single rows *)

Section Rows.
Context {V P : Type} `{JsonValue V} (to_mysql : V -> P).

(** A hash map in the order it iterates in. *)
Definition build_update_statement (database table : str) (primary_keys updates : list (str * V)) : str * list P :=
  (u "UPDATE " ++ esc_id database ++ u "." ++ esc_id table
     ++ u " SET " ++ join (u ", ") (map (fun p => esc_id p.1 ++ u " = ?") updates)
     ++ u " WHERE " ++ join (u " AND ") (map (fun p => esc_id p.1 ++ u " = ?") primary_keys),
   map (fun p => to_mysql p.2) updates ++ map (fun p => to_mysql p.2) primary_keys).

Definition build_insert_statement (database table : str) (values : list (str * V)) : result (str * list P) str :=
  if is_empty values then Err (u "没有提供要插入的数据")
  else
    Ok (u "INSERT INTO " ++ esc_id database ++ u "." ++ esc_id table ++ u " (" ++ join (u ", ") (map (fun p => esc_id p.1) values)
          ++ u ") VALUES (" ++ join (u ", ") (map (fun _ => u "?") values) ++ u ")",
        map (fun p => to_mysql p.2) values).

Definition map_primary_key_rows (rows : list (gmap str V)) : result (list (list (str * P))) str :=
  match rows with
  | [] => Err (u "没有提供要删除的行")
  | first :: _ =>
    let columns := sort_by str_cmp (map fst (map_to_list first)) in
    if is_empty columns then Err (u "存在缺少主键信息的行")
    else if existsb (fun row => negb (Z.of_nat (size row) =? zlen columns) || existsb (fun c => negb (is_some (row !! c))) columns) rows
    then Err (u "存在主键信息不完整的行")
    else Ok (map (fun row => map (fun c => (c, to_mysql (default jnull (row !! c)))) columns) rows)
  end.

Definition build_delete_statement (database table : str) (rows : list (list (str * P))) : str * list P :=
  let where_sql :=
    match rows with
    | [(column, _)] :: _ => esc_id column ++ u " IN (" ++ join (u ", ") (map (fun _ => u "?") rows) ++ u ")"
    | _ => join (u " OR ") (map (fun row => u "(" ++ join (u " AND ") (map (fun p => esc_id p.1 ++ u " = ?") row) ++ u ")") rows)
    end in
  (u "DELETE FROM " ++ esc_id database ++ u "." ++ esc_id table ++ u " WHERE " ++ where_sql, List.concat (map (map snd) rows)).

(** A delete is built only from rows that name the same key columns, each all
    of them and nothing else; it binds them row by row in the columns' order. *)
Lemma delete_binds_whole_keys rows mapped :
  map_primary_key_rows rows = Ok mapped ->
  exists columns, columns <> [] /\ StronglySorted (cmp_le str_cmp) columns /\
    Forall2 (fun (row : gmap str V) m => map fst m = columns /\ Z.of_nat (size row) = zlen columns /\
      Forall (fun p => exists v, row !! p.1 = Some v /\ p.2 = to_mysql v) m) rows mapped.
Proof.
  unfold map_primary_key_rows. destruct rows as [|first rows]; [done|].
  set (columns := sort_by str_cmp (map fst (map_to_list first))). destruct (is_empty columns) eqn:E; [done|].
  destruct (existsb _ (first :: rows)) eqn:B; [done|]. intros [= <-]. exists columns. split; [by destruct columns|].
  split; [apply sort_by_sorted, _|]. clearbody columns. rewrite existsb_false_iff in B.
  set (f := fun row : gmap str V => map (fun c => (c, to_mysql (default jnull (row !! c)))) columns).
  change (Forall2 (fun (row : gmap str V) m => map fst m = columns /\ Z.of_nat (size row) = zlen columns /\
    Forall (fun p => exists v, row !! p.1 = Some v /\ p.2 = to_mysql v) m) (first :: rows) (map f (first :: rows))).
  clear E. induction (first :: rows) as [|row l IH]; cbn [map]; constructor; [|apply IH; intros x Hx; apply B; by right].
  unfold f. specialize (B row). destruct (orb_false_elim _ _ (B (list_elem_of_here _ _))) as [B1 B2].
  apply negb_false_iff, Z.eqb_eq in B1. rewrite existsb_false_iff in B2.
  split; [rewrite map_map; cbn [fst]; apply map_id|]. split; [exact B1|].
  apply Forall_map, list.Forall_forall. intros c Hc. specialize (B2 c Hc). cbn [fst snd].
  destruct (row !! c) as [v|]; [|done]. by exists v.
Qed.

End Rows.

(** The guard looks for UNION between blanks: a parenthesis before it is let
    through. *)
Lemma where_guard_passes_union :
  validate_where_clause (fun c => [ascii_upper c]) (u "1=1)UNION SELECT(user()") = Ok tt /\
  validate_where_clause (fun c => [ascii_upper c]) (u "1=1) UNION SELECT(user()") = Err (u "WHERE 子句包含非法关键字").
Proof. split; by vm_compute. Qed.

End RowEdits.
